(* ===== verification/_CoqProject ===== *)
-Q . S2P
Prelude.v
Floats.v
OrderTypes.v
OrderStatus.v
OrderFold.v
OrderFoldFacts.v
OrderKeys.v
BrokerScope.v
OrderViews.v
OrderHistory.v
GoTime.v
MarketSpecs.v
MarketCalendar.v
CoreStore.v
CoreStoreOps.v
CoreStoreFacts.v
CoreStoreLog.v
CoreStoreGuards.v
Pairing.v
OrderJournal.v
Protective.v
Authority.v
OrderReadCache.v
Reconcile.v
WriteGate.v
CoreEvaluator.v
RegimeGate.v
OrderLimits.v
Base64.v
PreviewToken.v
SendDisposition.v
RateLimiter.v
LimiterPools.v
WireCodec.v
Transport.v
ProtoWire.v
PlaceOrderProto.v
BrokerIds.v
Submit.v
WriteDraft.v
WriteFlow.v
WorkingOrders.v
PositionEvidence.v
DeltaReduction.v
OrderRisk.v
StopGuard.v
QueueRecord.v
QueueStore.v
QueueExec.v
QueueFacts.v
QueueSystem.v
QueueSafety.v
QueueRun.v
QueuePrepare.v
QueueArming.v
QueuePrepareRun.v
AutoRecord.v
AutoEngine.v
AutoSystem.v
AutoSafety.v
AutoWindow.v
AutoRun.v
DeskDevice.v
DeskAuthority.v
DeskSystem.v
DeskSafety.v
DeskRun.v
