(* ===== verification/Prelude.v ===== *)
(** * Canary: the order subsystem of the trading daemon, verified

    Canary is a daemon that reads an Interactive Brokers account and, when the
    owner enables it, places, modifies and cancels orders.  This library models
    the path on which the safety of those writes rests, from the preview token a
    client redeems to the bytes on the broker's socket and back through the
    callbacks: token redemption, the place, modify and cancel handlers, the
    durable order authority and the journal over it, broker order ids, the
    connector's submission, the request limiter, the guarded socket write, the
    protobuf order frame; the read model that turns the journal into order rows,
    the pairing of callbacks with rows, the sweep that closes rows the broker no
    longer reports, the integrity pass over protective orders, the gates a
    modify or cancel passes, the risk limits every order is judged by, the guard
    that keeps Canary's own stops no larger than what is held, the queue of
    orders the owner signs to be sent later, the scheduler of the orders he
    pre-authorises and may veto, the standing authority he confirms on his device,
    the market calendar and the evaluator of the core strategy.  All paths below are under src/; d/ stands
    for src/internal/daemon/, p/ for src/pkg/ibkr/.

    ** The parts and how they interact

    A client previews an order and receives a signed token (d/order_preview.go).
    Redeeming it (d/order_token_redemption.go, d/order_place_trading.go) checks
    the signature, scope and current gate, reserves a broker order id and stages
    the write in the authority store (d/corestore): one transaction checks the
    authority head, spends the token, records the id and appends the journal
    events, before any byte is sent.  The send goes through the connector
    (p/connector.go), which claims the id in the connection's id namespace and
    indexes the order, through the limiter (p/ratelimiter.go) and through the
    guarded write of the connection (p/connection.go), which asks the daemon's
    wire guard immediately before the first byte; its error says whether bytes
    may have left (p/send_disposition.go), and the outcome is journaled.

    The journal (d/order_journal.go) encodes events into store records and reads
    them back page by page.  Broker callbacks are paired with the row they
    belong to (d/order_lifecycle.go) and journaled.  The read model
    (d/order_read_model.go) groups the events of the journal by order identity,
    folds each order's events into a row and derives what may be offered on it;
    d/order_reconcile.go closes rows that a complete broker snapshot lacks; the
    write gates (d/order_write_helpers.go) decide from a row whether a change
    may be sent.

    Before an order is previewed, and again before it is sent, its exact
    position and its notional in the account's currency are captured
    (d/order_risk_authority.go) and judged by the limits of the risk policy
    (internal/risk/order_limits.go, d/order_limits.go), with the exemptions of
    exits that shrink a held line (d/delta_reduction.go, d/protective_exit.go).
    A sale beside Canary's own stops joins their broker group or has them shrunk
    first (d/protective_oca.go), and a guard (d/protective_stop_guard.go) plans
    on every refresh which of its stops exceed the position, from the broker's
    open orders (d/broker_open_orders.go) and the confirmed portfolio.

    An order can also wait: the owner prepares its terms, signs their digest to
    arm it, and the daemon sends it inside its window (d/proposal_queue.go,
    d/owner_order_queue.go).  The executor (d/proposal_queue_executor.go) stores
    the intent with the preview token it will redeem before the broker call, and
    after a restart asks the order journal what became of it; a sent stop's
    mandate lets the stop guard resize it.

    Protective rows in buckets the policy pre-authorises go without a signature
    (d/proposal_automatic.go): every refresh gives each served row a record with
    a veto window, the alert producer records its notice, and a due record is
    submitted unless the owner vetoed it, disarmed or queued the row himself, a
    hand order is unsettled or the row moved on.  The submit path stores its
    intent first, as the queue does.

    Neither the scheduler nor Desk's controller may send unless the owner armed
    it (d/desk_authority.go): he signs prepared terms with a key pinned in the
    constitution (d/cash_policy_device.go, d/desk_authority_device.go), the
    controller may narrow what was signed and start or stop itself, a breach of
    the mandate's loss room holds full scope at protection
    (d/mandate_episode.go), and the wire asks again before the first byte of an
    automatic order (d/desk_authority_standing.go, d/desk_authority_fence.go).

    The calendar (internal/marketcal) dates sessions and DAY orders; the evaluator
    (internal/core) turns closes into the month's decision.

    ** Files, in dependency order

    - [Prelude] (this file): Go strings, 64-bit floats, times, the result monad
      with its [let?] and [guard?] notations, record update, stable sorting, and
      the tactics and generic lemmas the other files share.
    - [Floats]: the order of doubles, exact arithmetic of the integers among
      them, the tolerance 1e-9 of the quantity comparisons, and package math.
    - [OrderTypes]: journal event, order row, broker callback and the string
      vocabularies (d/order_journal.go, internal/rpc/rpc.go,
      p/order_events.go).
    - [OrderStatus]: the status classifiers and eligibility predicates of
      d/order_read_model.go.
    - [OrderFold]: orderViewFold.merge and finish, the state machine of one
      order; [OrderFoldFacts]: its theorems.
    - [OrderKeys]: route-scoped keys, aliases and their resolution.
    - [BrokerScope]: account scope predicates (d/broker_evidence.go) and the
      portfolio receipt classifier.
    - [OrderViews]: buildOrderViews, event conversions, attached-stop states
      (d/stock_entry_stop_lifecycle.go).
    - [OrderHistory]: DAY expiry inference, history, open and status answers.
    - [GoTime]: civil dates, weekdays, zones and time.Date; [MarketSpecs]: the
      calendar tables (internal/marketcal/data.go, international.go);
      [MarketCalendar]: sessions, breaks and next windows (calendar.go).
    - [CoreStore], [CoreStoreOps]: the database, its transactions, and the
      store's critical section with health latches and recovery
      (d/corestore/orders.go, store.go, state.go, types.go, schema.go);
      [CoreStoreFacts], [CoreStoreLog], [CoreStoreGuards]: their theorems.
    - [Pairing]: callback pairing and journaling.
    - [OrderJournal]: the journal over the store.
    - [Protective]: protective orders against positions.
    - [Authority]: the interface [OrderAuthority] (head, load, append at head)
      with its laws, and the journal as its instance.
    - [OrderReadCache]: the read cache (d/order_read_cache.go) over an interface
      of head, probe and load, with the journal as an instance.
    - [Reconcile]: the sweep, proved against [OrderAuthority].
    - [WriteGate]: row selection, broker-report check and replacement terms.
    - [CoreEvaluator]: the month's signal, sizing, decision and replay
      (internal/core/core.go, replay.go); [RegimeGate]: the three readings of the
      regime gate (regime_gate.go).
    - [OrderLimits]: the limits table, the cap in force and the account reading
      it rests on (internal/risk/order_limits.go, d/order_limits.go).
    - [Base64]: the raw URL encoding of token text; [PreviewToken]: minting,
      verification and redemption checks of preview tokens
      (d/order_preview.go, d/order_token_redemption.go).
    - [SendDisposition]: what an error says about the bytes of a send
      (p/send_disposition.go).
    - [RateLimiter]: the limiter's buckets and circuit breaker, and one request
      with its retries; [LimiterPools]: all requests over the queue, the token
      waits, the background lanes and the historical slots (p/ratelimiter.go).
    - [WireCodec]: field encoding, length frames and message ids;
      [Transport]: the guarded write of p/connection.go.
    - [ProtoWire]: protobuf wire primitives; [PlaceOrderProto]: the place and
      cancel encoders and the summary parser (p/place_order_proto.go,
      p/cancel_order_proto.go).
    - [BrokerIds]: the connection's id namespace: frontiers, reservations, claims
      and the orders the broker reported.
    - [Submit]: order validation and submission through the connector
      (p/orders.go, p/order_whatif.go, p/connector.go).
    - [WriteDraft]: drafts to broker orders and journal events;
      [WriteFlow]: placeOrder, modifyOrder and cancelOrderForAction
      (d/order_place_trading.go, d/broker_write_transaction.go).
    - [WorkingOrders]: the orders working at the broker, what they commit, and
      the plan of a sale beside Canary's own stops (d/broker_open_orders.go,
      d/protective_exit.go, d/protective_oca.go).
    - [PositionEvidence]: the confirmed projection, the exact position of a
      contract, the effect of an order and the FX evidence of its notional
      (d/order_risk_authority.go).
    - [DeltaReduction]: the exits that lower delta and the coverage of short
      options (d/delta_reduction.go).
    - [OrderRisk]: the limits applied to one order (d/order_risk_authority.go,
      d/cash_sweep_orders.go, d/index_hedge_order.go).
    - [StopGuard]: the plan, the pass and the grant of the protective stop guard
      (d/protective_stop_guard.go, d/stock_entry_stop_capacity.go).
    - [QueueRecord]: a queued authorisation, its terms, moves and events, and
      what the order journal proves about its send; [QueueStore]: the store over
      daemon.db, prepare, arm, cancel and reads; [QueueExec]: the executor's
      passes, decision, send and outcome; [QueueFacts]: the laws of every edit of
      a record; [QueueSystem]: requests, passes, sends and restarts as a step
      relation with its invariant; [QueueSafety]: the guarantees; [QueueRun]: a
      concrete run; [QueuePrepare]: readiness, the terms and both preparations
      (d/proposal_readiness.go, d/proposal_queue.go, d/owner_order_queue.go);
      [QueueArming]: what happens between a preparation and its arm;
      [QueuePrepareRun]: a queue prepared on a holiday.
    - [AutoRecord]: a pre-authorised submission, its store, the settling rule,
      the batch order and the refusal classes; [AutoEngine]: reconciliation,
      notice, one due record, the submit path, recovery and the veto
      (d/proposal_automatic.go, d/automatic_notice_identity.go,
      d/mandate_reduction.go, d/cash_sweep_priority.go, d/protection_policy.go);
      [AutoSystem]: the pass, vetoes, notices and restarts as a step relation with
      its invariant; [AutoSafety], [AutoWindow]: the guarantees; [AutoRun]: a
      concrete run.
    - [DeskDevice]: the pinned keys, the envelope and the two signature checks;
      [DeskAuthority]: the terms, the record, the breach clock, prepare, confirm,
      control, the controller's gate and fence and the wire locks; [DeskSystem]:
      requests, snapshots and restarts as a step relation with its invariant;
      [DeskSafety]: the guarantees; [DeskRun]: a concrete run.

    ** What the theorems show

    - The write path end to end (C1-C3): a place whose bytes may have reached
      the wire was journaled first, with its token spent, its id above every
      earlier one, the draft in the stored rows and the order on the wire that
      of those rows; a token transmits at most once whatever sequence of writes
      redeems it; a modify's first byte goes out only for an order the broker's
      report confirms and while its own staging, which carries the change, is
      the order's latest event.
    - The queue (C5-C7, C17-C20): over every interleaving of requests, passes,
      failed commits and restarts an authorisation is sent at most once, only
      inside its terms, armed only with the digest of its stored terms, and one
      order per contract side is authorised; the journal tells every record's
      state; a commit the store did not see stops the queue until a restart (a
      defect of the code); what the owner was shown stays armable until its
      deadline whatever else the daemon does meanwhile.  Proved
      beside them: every instant of the window a preparation fixes is a trading
      instant of the calendar, nothing is sent before the owner armed it, a
      preparation is a step of that system, the verdict on a version-2 send does
      not depend on the order of its events, and a reason keeps to 300
      characters.
    - The scheduler (C8-C11): over every interleaving of passes, vetoes, notices,
      failed commits and restarts a record is sent at most once; an accepted veto
      is final; an order sent without the drawdown latch was noticed at least the
      veto window before; after a reconciliation only rows the owner still
      authorises wait.  Proved beside them: the batch order is a permutation of
      the records, and two defects of the code are stated as they are.
    - The standing authority (C12-C16): over every interleaving of preparations,
      confirmations, controls, snapshots, failed or unseen commits and restarts,
      an armed scope was signed on a pinned device; one signed text arms at most
      once; between confirmations the scope only narrows and off stays off; a
      fence captured before a change never passes after it; a recorded breach
      holds full scope until the owner confirms again.  Proved beside them: the
      daemon's own order names the arming that stands, prepared terms can be
      confirmed, a restart stops the controller, a text signed in one domain is
      none of another, and a grant whose arming could not be read passes when the
      read fails again (a divergence of the code).
    - The client (C4, C21, C22, C32, C33): a submitted order reaches the wire at
      most once and is indexed exactly when it may have; an error classified as
      unsent wrote nothing; ids are never reused; the place frame reads back
      (a parent id outside int32 truncated, a defect of the code); the limiter
      loses no slot and serves every caller.  Beside them, a change claims only the
      order the broker reported and the circuit breaker equals its specification
      on the error history.
    - Authority store and journal (C23-C25): a modify is staged on a settled
      frontier only; failures are atomic or block; the journal reads back what it
      appended.  Proved beside them: tokens are single use, order ids strictly
      increase, durable state only grows, sequence numbers are a total order,
      latched stores stay frozen until a proven recovery, compare-and-append,
      injective scope bindings, compare-and-swap documents.
    - Tokens (C26): what redemption proves about a token; beside it, a modify
      token is bound to its order and a minted token verifies until it expires.
    - One order's row (C27): a final broker status closes the row for good.
      Proved beside it: a modify is offered only with every attempt accounted
      for, a staged or ambiguous send is never shown as a working order, a
      change that provably never left restores the row, and a rejected change
      freezes the row (a defect of the code).
    - Gates, read model and sweep (C28-C31, C34): rows refine a per-order
      specification for any map order; a cached answer is the journal of a moment
      of its own call; a committed sweep extends exactly the journal it was
      computed from; protective orders are covered or flagged; callbacks are well
      formed, and exactly those of the four kinds with an identity are kept.
      Proved beside them: an admitted modify changes the same order
      only, orders never merge, callbacks
      reach their own order, a protective child is active on ordered broker
      evidence only, aliases are canonical whatever order Go ranges over a map,
      callbacks never mint rows, the history answer is bounded, and two
      divergences of the code are stated as they are.
    - Risk and protection (C35-C38): an admitted order is within the cap in
      force or inside one named exemption, and goes below zero only as the rule of
      its security type permits (the index hedge may sell a flat future);
      a sale and Canary's own stops never sell the same shares twice; a planned
      change of a stop fits the free part of the position; the coverage rule
      finds exactly the worst shortfall over the expiries, which no pairing
      beats and no order of the lines changes.  Proved beside them: a
      raised cap rests on current evidence; the guard acts only on a step that
      settled for twenty seconds without a gap in the evidence; the cap equals
      the documented formula; the exact position is the one portfolio row of the
      contract; and a mandated stop can be planned up by a step named a shrink,
      which its grant refuses (a defect of the code).
    - Calendar and evaluator (C39, C40): a session names the first later trading
      window; the headroom search ends at the largest fit.  Beside them, a DAY
      order expires at the first close after its placement, the regime gate is
      the conjunction of its confirmed readings and a replay follows its
      decisions.

    ** Modelling choices

    Effects are explicit: a transaction is a function from the database to an
    error or a new database (rollback), the faults of one mutation (a failed
    statement, commit, head read or watermark) are an argument, and operations
    form a step function [run] over which the store's invariants are proved by
    induction.  Concurrent writers are arbitrary sequences of store operations
    between the steps of the sweep and of a handler.  The limiter is a machine
    over events, once per request (admission, completion, retry, cancellation)
    and once for all requests with the pools they share; its timers and the
    callback's return are events; the buffered
    socket is the list of its write outcomes; each step of the id namespace is
    one locked section of the connection.  The handlers' authorisation, risk,
    hedge and desk answers, the paper gate and the legacy field frame of a place
    are inputs of a run.  The queue is an inductive step relation whose steps are
    whole requests, whole passes and the three stages of a send; a commit may
    fail before or after it is durable, and a restart may follow any step; the
    list of sends not proven unsent is ghost state of that relation.  The
    scheduler is a second such relation, with the clock of the run and the
    phases of its one goroutine; the worlds its steps read are restricted by a
    predicate only where a theorem needs it ([fair]).  The standing authority is a
    third: a confirmation is two steps, as it reads the hold before its lock; the
    armings and the episodes ever published are its ghost state, and what is
    assumed of the mandate is that a replaced episode's name is not published
    again ([admitted]).  Go's randomised map iteration is a parameter
    constrained only to visit every entry once.  Floats are IEEE doubles
    (SpecFloat); Go ints and database integers are unbounded [Z] except where
    the wire format narrows them (varints, int32 ids); times are nanoseconds,
    zero being the zero time; pointers are [option]s (the code copies pointees
    when it stores them).  JSON encoding, SHA-256, HMAC and the digests,
    fmt's and strconv's rendering of floats, the time layouts of order history
    and the loading of a time zone are parameters; what is assumed of JSON is
    the class [JsonLaws], of the token payload and its MAC [TokenLaws], of the
    printed mandate [TermsLaws]; P-256 is a parameter of which nothing is
    assumed; each has a concrete instance behind the witnesses; base64 is concrete, and so
    is the calendar over a zone's transitions.  String folding
    is exact on ASCII.  Theorems on quantities compared with the tolerance 1e-9
    are stated on whole numbers below 2^52, for which doubles are exact; the
    definitions are the doubles.

    Fuel: alias resolution has one more unit than the map has entries
    ([resolve_terminates]); the paged load one more than there are order rows
    ([loadPages_all]); the socket write loop two, its bound in the source
    ([writeLoop_total]); a varint ten bytes; the protobuf field loop one per byte
    ([forEachLoop_enough]); the search for an id disjoint from the connector's
    orders one more than there are orders ([nextDisjointLoop_finds]); the
    reservation above the durable floor one more than the floor
    ([reserve_bound_answers]); a session query the length of the calendar's
    coverage ([session_answers]); the headroom search the binary logarithm of
    the wish.  The stable-head reload makes the source's bounded
    number of attempts.

    ** Not modelled

    The rest of the IBKR client (dialing, handshake, reconnects, inbound
    decoding, market data and account caches: concurrent I/O whose callbacks and
    snapshots enter as data); preview pricing, the rebinding of a signed preview
    to a session, authorisation and the protected Add path of a place; waiting
    for a stop's planned change before a sale; the generation of proposals and
    the alert producer; the cash settings save, the strategy register and the
    controller's batches beyond their gate; the other tables, backup, salvage and upgrade of the
    store; the rulebook, drawdown brake and analytics; command
    line, MCP and app servers.  In the modelled files: logging, test seams, the
    legacy journal file migration, and journal fields no modelled function reads.

    Order of extension: inbound order callbacks of the client; the rebinding of a
    signed preview; the protected Add; the rest of the store. *)

From stdpp Require Import base decidable list strings gmap sorting.
From Stdlib Require Import ZArith Lia Ascii String DecimalString DecimalZ DecimalFacts.
From Stdlib Require Import SpecFloat.

#[global] Open Scope string_scope.
#[global] Open Scope list_scope.
#[global] Open Scope bool_scope.
#[global] Open Scope Z_scope.

(** ** Go values

    Strings are byte strings; [TrimSpace], [ToLower], [ToUpper] and
    [EqualFold] are exact on ASCII text, which is what the broker's wire
    vocabulary and the daemon's own identifiers use. *)

Declare Scope go_scope.
Delimit Scope go_scope with go.

Notation "a =s b" := (String.eqb a b) (at level 70, no associativity) : go_scope.
Notation "a <>s b" := (negb (String.eqb a b)) (at level 70, no associativity) : go_scope.
#[global] Open Scope go_scope.

Definition is_space (c : ascii) : bool :=
  let n := N_of_ascii c in
  ((9 <=? n)%N && (n <=? 13)%N) || (n =? 32)%N.

Definition lower_ascii (c : ascii) : ascii :=
  let n := N_of_ascii c in
  if ((65 <=? n)%N && (n <=? 90)%N) then ascii_of_N (n + 32)%N else c.

Definition upper_ascii (c : ascii) : ascii :=
  let n := N_of_ascii c in
  if ((97 <=? n)%N && (n <=? 122)%N) then ascii_of_N (n - 32)%N else c.

Fixpoint map_string (f : ascii -> ascii) (s : string) : string :=
  match s with
  | EmptyString => EmptyString
  | String c r => String (f c) (map_string f r)
  end.

Fixpoint trim_left (s : string) : string :=
  match s with
  | EmptyString => EmptyString
  | String c r => if is_space c then trim_left r else s
  end.

(** A suffix made of spaces only is dropped. *)
Fixpoint trim_right (s : string) : string :=
  match s with
  | EmptyString => EmptyString
  | String c r =>
      let r' := trim_right r in
      if is_space c && (r' =s "") then "" else String c r'
  end.

Definition TrimSpace (s : string) : string := trim_right (trim_left s).
Definition ToLower (s : string) : string := map_string lower_ascii s.
Definition ToUpper (s : string) : string := map_string upper_ascii s.
Definition EqualFold (a b : string) : bool := ToLower a =s ToLower b.

(** [switch] on a string against a [case] list. *)
Definition one_of (s : string) (l : list string) : bool := existsb (String.eqb s) l.

#[global] Arguments TrimSpace : simpl never.
#[global] Arguments ToLower : simpl never.
#[global] Arguments ToUpper : simpl never.
#[global] Arguments EqualFold : simpl never.
#[global] Arguments one_of : simpl never.

(** [strconv.Itoa] *)
Definition Itoa (z : Z) : string := NilZero.string_of_int (Z.to_int z).

(** "%q", for text without bytes that need an escape. *)
Definition quoted (s : string) : string :=
  let dq := String (ascii_of_nat 34) "" in String.append dq (String.append s dq).

(** [p != nil] *)
Definition present {A} (p : option A) : bool := match p with Some _ => true | None => false end.

(** *** float64: IEEE 754 binary64 through the executable [SpecFloat] *)
Definition float64 : Type := spec_float.
Definition f_prec : Z := 53.
Definition f_emax : Z := 1024.
Definition f0 : float64 := S754_zero false.
Definition fadd : float64 -> float64 -> float64 := SFadd f_prec f_emax.
Definition fsub : float64 -> float64 -> float64 := SFsub f_prec f_emax.
Definition fmul : float64 -> float64 -> float64 := SFmul f_prec f_emax.
Definition fdiv : float64 -> float64 -> float64 := SFdiv f_prec f_emax.
Definition fabs : float64 -> float64 := SFabs.
Definition fopp : float64 -> float64 := SFopp.
Definition feqb (a b : float64) : bool := SFeqb a b.
Definition fltb (a b : float64) : bool := SFltb a b.
Definition fleb (a b : float64) : bool := SFleb a b.
Definition IsNaN (x : float64) : bool := match x with S754_nan => true | _ => false end.
(** [math.IsInf(x, 0)] *)
Definition IsInf (x : float64) : bool := match x with S754_infinity _ => true | _ => false end.

(** [math.Round]: half away from zero.  [int(x)] of a float in range: towards zero. *)
Definition Round (x : float64) : float64 :=
  match x with
  | S754_finite s m e =>
      if 0 <=? e then x
      else
        let d := 2 ^ (- e) in
        let q := Z.pos m / d in
        let q := if d <=? 2 * (Z.pos m mod d) then q + 1 else q in
        if q =? 0 then S754_zero s else binary_normalize f_prec f_emax (if s then - q else q) 0 s
  | _ => x
  end.
Definition int_of_float (x : float64) : Z :=
  match x with
  | S754_finite s m e =>
      let v := if 0 <=? e then Z.pos m * 2 ^ e else Z.pos m / 2 ^ (- e) in
      if s then - v else v
  | _ => 0
  end.

(** Conversion [float64(n)] of a Go integer (round to nearest even). *)
Definition f_of_Z (z : Z) : float64 := binary_normalize f_prec f_emax z 0 false.
(** A decimal constant [n / d] with exactly representable [n] and [d]. *)
Definition f_const (n d : Z) : float64 := fdiv (f_of_Z n) (f_of_Z d).

#[global] Arguments feqb : simpl never.
#[global] Arguments fltb : simpl never.
#[global] Arguments fleb : simpl never.
#[global] Arguments fadd : simpl never.
#[global] Arguments fsub : simpl never.
#[global] Arguments f_of_Z : simpl never.

Notation "a <f b" := (fltb a b) (at level 70, no associativity) : go_scope.
Notation "a <=f b" := (fleb a b) (at level 70, no associativity) : go_scope.
Notation "a >f b" := (fltb b a) (at level 70, no associativity, only parsing) : go_scope.
Notation "a >=f b" := (fleb b a) (at level 70, no associativity, only parsing) : go_scope.
Notation "a =f b" := (feqb a b) (at level 70, no associativity) : go_scope.
Notation "a <>f b" := (negb (feqb a b)) (at level 70, no associativity) : go_scope.

(** *** time.Time as nanoseconds since the zero time; 0 is [time.Time{}] *)
Definition time : Type := Z.
Definition IsZero (t : time) : bool := t =? 0.
Definition Before (a b : time) : bool := a <? b.
Definition After (a b : time) : bool := b <? a.
Definition max_duration : Z := 9223372036854775807.
Definition min_duration : Z := -9223372036854775808.
(** [t.Sub(u)] saturates at the int64 bounds of [time.Duration]. *)
Definition Sub (t u : time) : Z := Z.max min_duration (Z.min max_duration (t - u)).
Definition Second : Z := 1000000000.
Definition Minute : Z := 60 * Second.
Definition Hour : Z := 60 * Minute.

(** *** Record update: [r <| field := v |>]

    A record declares its eta expansion once ([Eta]); a field's setter is then
    found by replacing the projection in it. *)
Class Eta (R : Type) := eta_expand : R -> R.
Class Setter {R E : Type} (f : R -> E) := set_field : (E -> E) -> R -> R.
Arguments set_field {R E} f {_} _ _.

Ltac build_setter :=
  lazymatch goal with
  | |- @Setter ?R ?E ?f =>
      let e := constr:(_ : Eta R) in
      exact (fun (g : E -> E) (r : R) => ltac:(
        let b := eval hnf in (e r) in
        match b with
        | context C [f r] => let b' := context C [g (f r)] in exact b'
        end))
  end.
#[global] Hint Extern 1 (Setter _) => build_setter : typeclass_instances.

Notation "r <| f := v |>" := (set_field f (fun _ => v) r)
  (at level 1, left associativity, f at level 1, v at level 99) : go_scope.
Notation "r <| f ::= g |>" := (set_field f g r)
  (at level 1, left associativity, f at level 1, g at level 99) : go_scope.

(** ** Proof automation *)

Create HintDb canary discriminated.

(** Split a boolean conjunction or disjunction hypothesis. *)
Ltac bool_hyps :=
  repeat match goal with
  | H : _ && _ = true |- _ => apply andb_true_iff in H; destruct H
  | H : _ || _ = false |- _ => apply orb_false_iff in H; destruct H
  | H : negb _ = true |- _ => apply negb_true_iff in H
  | H : negb _ = false |- _ => apply negb_false_iff in H
  | H : String.eqb _ _ = true |- _ => apply String.eqb_eq in H
  | H : String.eqb _ _ = false |- _ => apply String.eqb_neq in H
  | H : Z.eqb _ _ = true |- _ => apply Z.eqb_eq in H
  | H : Z.eqb _ _ = false |- _ => apply Z.eqb_neq in H
  | H : Z.ltb _ _ = true |- _ => apply Z.ltb_lt in H
  | H : Z.ltb _ _ = false |- _ => apply Z.ltb_ge in H
  | H : Z.leb _ _ = true |- _ => apply Z.leb_le in H
  | H : Z.leb _ _ = false |- _ => apply Z.leb_gt in H
  end.

(** Case analysis on the innermost condition of an [if] in the goal. *)
Ltac case_if :=
  match goal with
  | |- context [if ?c then _ else _] =>
      lazymatch type of c with bool => idtac end;
      lazymatch c with
      | context [if _ then _ else _] => fail
      | true => fail
      | false => fail
      | _ => let H := fresh "Hc" in destruct c eqn:H
      end
  end.

Ltac case_if_in H :=
  match type of H with
  | context [if ?c then _ else _] =>
      lazymatch type of c with bool => idtac end;
      lazymatch c with
      | context [if _ then _ else _] => fail
      | _ => let E := fresh "Hc" in destruct c eqn:E
      end
  end.

(** Evaluate comparisons of string constants. *)
Ltac str_lit a :=
  first [is_const a | lazymatch a with EmptyString => idtac | String.String _ _ => idtac end].

Ltac str_eval :=
  repeat match goal with
  | |- context [String.eqb ?a ?b] =>
      str_lit a; str_lit b;
      let r := eval vm_compute in (String.eqb a b) in
      change (String.eqb a b) with r
  end; cbn match.

(** ** Shared lemmas *)

Lemma one_of_true s l : one_of s l = true <-> In s l.
Proof.
  unfold one_of. rewrite existsb_exists. split.
  - intros (x & Hin & Hx). apply String.eqb_eq in Hx. by subst.
  - intros Hin. exists s. split; [done | apply String.eqb_refl].
Qed.

Lemma one_of_false s l : one_of s l = false <-> ~ In s l.
Proof. rewrite <- one_of_true. destruct (one_of s l); naive_solver. Qed.

Lemma eqb_s_refl s : (s =s s) = true.
Proof. apply String.eqb_refl. Qed.

Lemma EqualFold_refl s : EqualFold s s = true.
Proof. unfold EqualFold. apply eqb_s_refl. Qed.

Lemma EqualFold_sym a b : EqualFold a b = EqualFold b a.
Proof. unfold EqualFold. apply String.eqb_sym. Qed.

Lemma EqualFold_trans a b c :
  EqualFold a b = true -> EqualFold b c = true -> EqualFold a c = true.
Proof.
  unfold EqualFold. intros H1 H2. apply String.eqb_eq in H1, H2.
  apply String.eqb_eq. congruence.
Qed.

#[export] Hint Resolve eqb_s_refl EqualFold_refl : canary.

(** [strconv.Itoa] is injective: distinct integers have distinct keys. *)
Lemma Itoa_inj a b : Itoa a = Itoa b -> a = b.
Proof.
  unfold Itoa. intros H.
  assert (Hs : forall z, NilZero.int_of_string (NilZero.string_of_int (Z.to_int z)) =
                         Some (Z.to_int z)).
  { intros z. apply NilZero.isi; destruct z; simpl; try discriminate;
    intros [= Hn]; revert Hn; apply DecimalPos.Unsigned.to_uint_nonnil. }
  apply DecimalZ.to_int_inj. generalize (Hs a), (Hs b). rewrite H. congruence.
Qed.

(** ** Stable sorting ([slices.SortStableFunc])

    [le x y] is "the comparison of x with y is not positive". *)
Section StableSort.
Context {A : Type} (le : A -> A -> bool).

Fixpoint stable_insert (x : A) (l : list A) : list A :=
  match l with
  | [] => [x]
  | y :: l' => if le x y then x :: l else y :: stable_insert x l'
  end.

Definition stable_sort (l : list A) : list A := foldr stable_insert [] l.

Lemma stable_insert_perm x l : Permutation (stable_insert x l) (x :: l).
Proof.
  induction l as [|y l IH]; simpl; [done|]. case_if; [done|].
  rewrite IH. apply Permutation_swap.
Qed.

Lemma stable_sort_perm l : Permutation (stable_sort l) l.
Proof.
  induction l as [|x l IH]; simpl; [done|].
  unfold stable_sort in *. simpl. by rewrite stable_insert_perm, IH.
Qed.

Context (le_total : forall x y, le x y = false -> le y x = true).

Lemma stable_insert_sorted x l :
  Sorted (fun a b => le a b = true) l -> Sorted (fun a b => le a b = true) (stable_insert x l).
Proof.
  induction 1 as [|y l Hs IH Hhd]; simpl; [by repeat constructor|].
  destruct (le x y) eqn:Hxy; [repeat constructor; done|].
  constructor; [done|].
  destruct l as [|z l]; simpl; [constructor; by apply le_total|].
  case_if; constructor; [by apply le_total | by inversion Hhd].
Qed.

Lemma stable_sort_sorted l : Sorted (fun a b => le a b = true) (stable_sort l).
Proof.
  induction l as [|x l IH]; [constructor|].
  unfold stable_sort in *. simpl. by apply stable_insert_sorted.
Qed.
End StableSort.

(** ** Separator-delimited strings *)

Fixpoint has_char (c : ascii) (s : string) : bool :=
  match s with
  | EmptyString => false
  | String d r => Ascii.eqb c d || has_char c r
  end.

(** A text without the separator is recovered from "text, separator, rest". *)
Lemma sep_split c a b x y :
  has_char c a = false -> has_char c b = false ->
  (a +:+ String c x)%string = (b +:+ String c y)%string -> a = b /\ x = y.
Proof.
  revert b. induction a as [|d a IH]; intros [|e b]; simpl; intros Ha Hb Heq.
  - by injection Heq.
  - injection Heq as <- _. rewrite Ascii.eqb_refl in Hb. discriminate.
  - injection Heq as -> _. rewrite Ascii.eqb_refl in Ha. discriminate.
  - injection Heq as -> Heq. apply orb_false_iff in Ha as [_ Ha], Hb as [_ Hb].
    destruct (IH b Ha Hb Heq) as [-> ->]. done.
Qed.

Lemma append_inj_l (a x y : string) : (a +:+ x)%string = (a +:+ y)%string -> x = y.
Proof. induction a as [|c a IH]; simpl; [done|]. intros [=]. auto. Qed.

Lemma append_assoc_s (a b c : string) :
  String.append (String.append a b) c = String.append a (String.append b c).
Proof. induction a as [|d a IH]; [done | exact (f_equal (String d) IH)]. Qed.

Lemma append_cons_s (c : ascii) (a b : string) :
  String.append (String c a) b = String c (String.append a b).
Proof. reflexivity. Qed.

(** ** Fallible operations

    [(value, error)] results: an error carries the Go sentinel it wraps (for
    [errors.Is]) and its message. *)
Record goerr := mkErr { err_is : string; err_msg : string }.

Inductive result (E A : Type) : Type := Ok (a : A) | Err (e : E).
Arguments Ok {E A} a.
Arguments Err {E A} e.

Definition rbind {E A B} (r : result E A) (k : A -> result E B) : result E B :=
  match r with Ok a => k a | Err e => Err e end.

Notation "'let?' x ':=' r 'in' k" := (rbind r (fun x => k))
  (at level 10, x pattern, r at level 100, k at level 200) : go_scope.
Notation "'guard?' c 'else' e ';' k" := (if c then k else Err e)
  (at level 10, c at level 100, e at level 100, k at level 200) : go_scope.

Definition is_ok {E A} (r : result E A) : bool := match r with Ok _ => true | Err _ => false end.

Lemma rbind_ok {E A B} (r : result E A) (k : A -> result E B) b :
  rbind r k = Ok b -> exists a, r = Ok a /\ k a = Ok b.
Proof. destruct r; simpl; [eauto | done]. Qed.

Lemma guard_ok {E A} (c : bool) e (k : result E A) a :
  (guard? c else e; k) = Ok a -> c = true /\ k = Ok a.
Proof. destruct c; [done | discriminate]. Qed.

(** Open a successful computation, one bind or guard at a time. *)
Ltac ok_inv H :=
  repeat match type of H with
  | rbind _ _ = Ok _ =>
      let a := fresh "a" in let Ha := fresh "Ha" in
      apply rbind_ok in H; destruct H as (a & Ha & H); cbn beta in H
  | (if ?c then _ else Err _) = Ok _ =>
      let Hg := fresh "Hg" in apply guard_ok in H; destruct H as [Hg H]
  | (if ?c then Err _ else _) = Ok _ =>
      let Hg := fresh "Hg" in destruct c eqn:Hg; [discriminate H|]
  end.

(** ** Loops that rewrite a slice in place

    [for i := range rows { rows[i] = f(rows, rows[i]) }] is a map when [f]
    gives the same answer on the partly rewritten slice. *)
Definition in_place {A} (f : list A -> A -> A) (l : list A) : list A :=
  fold_left (fun rows i => match rows !! i with Some x => <[i := f rows x]> rows | None => rows end)
    (seq 0 (List.length l)) l.

Lemma in_place_map {A} (f : list A -> A -> A) (g : A -> A) (l : list A) :
  (forall pre x post, l = pre ++ x :: post -> f (map g pre ++ x :: post) x = g x) ->
  in_place f l = map g l.
Proof.
  intros H.
  assert (Hgen : forall post pre, l = pre ++ post ->
    fold_left (fun rows i => match rows !! i with Some x => <[i := f rows x]> rows | None => rows end)
      (seq (List.length pre) (List.length post)) (map g pre ++ post) = map g l).
  { induction post as [|x post IH]; intros pre Hl; simpl.
    - by rewrite Hl, !List.app_nil_r.
    - assert (Hlk : (map g pre ++ x :: post) !! List.length pre = Some x)
        by (apply list_lookup_middle; by rewrite length_map).
      rewrite Hlk, insert_app_r_alt by (rewrite length_map; lia).
      rewrite length_map, Nat.sub_diag. simpl.
      rewrite (H pre x post Hl).
      replace (map g pre ++ g x :: post) with (map g (pre ++ [x]) ++ post)
        by (rewrite map_app, <- List.app_assoc; done).
      replace (S (List.length pre)) with (List.length (pre ++ [x]))
        by (rewrite length_app; simpl; lia).
      apply IH. by rewrite Hl, <- List.app_assoc. }
  by apply (Hgen l []).
Qed.

(** Two lists with the same elements, sorted by a key without ties, are equal. *)
Lemma sorted_perm_unique {A} (key : A -> Z) (l1 l2 : list A) :
  l1 ≡ₚ l2 -> NoDup (key <$> l1) ->
  Sorted (fun a b => (key b <=? key a) = true) l1 ->
  Sorted (fun a b => (key b <=? key a) = true) l2 -> l1 = l2.
Proof.
  intros Hp Hnd Hs1 Hs2.
  assert (Htr : Transitive (fun a b => (key b <=? key a) = true)).
  { intros a b c H1 H2. bool_hyps. apply Z.leb_le. lia. }
  apply (Sorted_unique_strong (fun a b => (key b <=? key a) = true)); [|done..].
  intros x y Hx Hy H1 H2. bool_hyps. assert (Hk : key x = key y) by lia.
  rewrite <- Hp in Hy. apply list_elem_of_lookup in Hx as [i Hi], Hy as [j Hj].
  assert (i = j).
  { eapply NoDup_lookup; [exact Hnd | by rewrite list_lookup_fmap, Hi |].
    by rewrite list_lookup_fmap, Hj, Hk. }
  congruence.
Qed.

(** Sorting a sorted list changes nothing. *)
Lemma stable_sort_id {A} (le : A -> A -> bool) (l : list A) :
  Sorted (fun a b => le a b = true) l -> stable_sort le l = l.
Proof.
  induction 1 as [|x l Hs IH Hhd]; [done|]. unfold stable_sort in *. simpl. rewrite IH.
  destruct l as [|y l]; [done|]. simpl. inversion Hhd as [|? ? Hxy]; subst. by rewrite Hxy.
Qed.

Lemma omap_cons_eq {A B} (f : A -> option B) x (l : list A) :
  omap f (x :: l) = match f x with Some y => y :: omap f l | None => omap f l end.
Proof. reflexivity. Qed.

(** ** Case and space *)

Lemma lower_determines_upper c d : lower_ascii c = lower_ascii d -> upper_ascii c = upper_ascii d.
Proof.
  intros H.
  assert (Hu : forall x, upper_ascii x = upper_ascii (lower_ascii x)).
  { intros [b0 b1 b2 b3 b4 b5 b6 b7].
    destruct b0, b1, b2, b3, b4, b5, b6, b7; reflexivity. }
  by rewrite (Hu c), (Hu d), H.
Qed.

Lemma EqualFold_ToUpper a b : EqualFold a b = true -> ToUpper a = ToUpper b.
Proof.
  unfold EqualFold. intros H. apply String.eqb_eq in H. revert b H. unfold ToLower, ToUpper.
  induction a as [|c a IH]; intros [|d b] H; simpl in *; try done.
  injection H as Hc Hr. f_equal; [by apply lower_determines_upper | by apply IH].
Qed.

Lemma map_string_idem f s : (forall c, f (f c) = f c) -> map_string f (map_string f s) = map_string f s.
Proof. intros Hf. induction s as [|c s IH]; [done|]. simpl. by rewrite Hf, IH. Qed.

Lemma ToUpper_idem s : ToUpper (ToUpper s) = ToUpper s.
Proof.
  apply map_string_idem. intros [b0 b1 b2 b3 b4 b5 b6 b7].
  destruct b0, b1, b2, b3, b4, b5, b6, b7; reflexivity.
Qed.

Lemma ToLower_idem s : ToLower (ToLower s) = ToLower s.
Proof.
  apply map_string_idem. intros [b0 b1 b2 b3 b4 b5 b6 b7].
  destruct b0, b1, b2, b3, b4, b5, b6, b7; reflexivity.
Qed.

Lemma trim_right_idem s : trim_right (trim_right s) = trim_right s.
Proof.
  induction s as [|c s IH]; [done|]. simpl. destruct (is_space c && (trim_right s =s "")) eqn:E; [done|].
  simpl. by rewrite IH, E.
Qed.

Lemma trim_left_head s : match trim_left s with EmptyString => True | String c _ => is_space c = false end.
Proof. induction s as [|c s IH]; [done|]. simpl. by destruct (is_space c) eqn:E. Qed.

Lemma TrimSpace_idem s : TrimSpace (TrimSpace s) = TrimSpace s.
Proof.
  unfold TrimSpace. assert (Hh := trim_left_head s). destruct (trim_left s) as [|c t]; [done|].
  simpl. rewrite Hh. simpl. rewrite Hh. simpl. by rewrite Hh, trim_right_idem.
Qed.

(** A letter-case map keeps spaces where they are. *)
Lemma TrimSpace_map f s :
  (forall c, is_space (f c) = is_space c) -> TrimSpace (map_string f s) = map_string f (TrimSpace s).
Proof.
  intros Hf. unfold TrimSpace.
  assert (Hl : trim_left (map_string f s) = map_string f (trim_left s)).
  { induction s as [|c s IH]; [done|]. simpl. rewrite Hf. by destruct (is_space c). }
  rewrite Hl. generalize (trim_left s). intros t.
  induction t as [|c t IH]; [done|]. simpl. rewrite Hf, IH.
  destruct (is_space c); [|done]. by destruct (trim_right t).
Qed.

Lemma TrimSpace_ToUpper s : TrimSpace (ToUpper (TrimSpace s)) = ToUpper (TrimSpace s).
Proof.
  unfold ToUpper. rewrite TrimSpace_map, TrimSpace_idem; [done|]. intros [b0 b1 b2 b3 b4 b5 b6 b7].
  destruct b0, b1, b2, b3, b4, b5, b6, b7; reflexivity.
Qed.

Lemma TrimSpace_ToLower s : TrimSpace (ToLower (TrimSpace s)) = ToLower (TrimSpace s).
Proof.
  unfold ToLower. rewrite TrimSpace_map, TrimSpace_idem; [done|]. intros [b0 b1 b2 b3 b4 b5 b6 b7].
  destruct b0, b1, b2, b3, b4, b5, b6, b7; reflexivity.
Qed.

(** ** A filter with one survivor *)

Lemma filter_singleton_In {A} (P : A -> bool) l v : List.filter P l = [v] -> In v l /\ P v = true.
Proof. intros H. apply List.filter_In. rewrite H. by left. Qed.

Lemma filter_singleton_unique {A} (P : A -> bool) l v u :
  List.filter P l = [v] -> In u l -> P u = true -> u = v.
Proof.
  intros H Hin HP. assert (Hu : In u (List.filter P l)) by (by apply List.filter_In).
  rewrite H in Hu. by destruct Hu as [-> | []].
Qed.

