(* ===== verification/Floats.v ===== *)
(** * Arithmetic of IEEE doubles

    What the proofs about quantities and money need of Go's float64: the order of
    the non-NaN doubles, that products and quotients of non-zero finite doubles are
    numbers, and that addition, subtraction and comparison are exact on integers of
    at most 53 bits (share and contract counts). *)

From stdpp Require Import base decidable list.
From Stdlib Require Import ZArith Lia SpecFloat.
From S2P Require Import Prelude.

(** ** The order of IEEE doubles *)

(** The five places of a non-NaN double on the line, then its size there. *)
Definition floatRank (x : float64) : Z :=
  match x with
  | S754_infinity true => -2 | S754_finite true _ _ => -1 | S754_zero _ | S754_nan => 0
  | S754_finite false _ _ => 1 | S754_infinity false => 2
  end.
Definition floatExp (x : float64) : Z := match x with S754_finite s _ e => if s then - e else e | _ => 0 end.
Definition floatMant (x : float64) : Z := match x with S754_finite s m _ => if s then Z.neg m else Z.pos m | _ => 0 end.

(** Lexicographic order of the places. *)
Definition floatBelow (x y : float64) : Prop :=
  floatRank x < floatRank y \/ floatRank x = floatRank y /\ (floatExp x < floatExp y \/ floatExp x = floatExp y /\
    floatMant x < floatMant y).
Definition floatSame (x y : float64) : Prop :=
  floatRank x = floatRank y /\ floatExp x = floatExp y /\ floatMant x = floatMant y.

Lemma compare_places x y :
  IsNaN x = false -> IsNaN y = false ->
  match SFcompare x y with
  | Some Lt => floatBelow x y | Some Eq => floatSame x y | Some Gt => floatBelow y x | None => False
  end.
Proof.
  intros Hx Hy. unfold SFcompare, floatBelow, floatSame.
  destruct x as [sx|sx| |sx mx ex], y as [sy|sy| |sy my ey]; try discriminate;
    try destruct sx; try destruct sy; cbn [floatRank floatExp floatMant]; try lia;
    (destruct (Z.compare_spec ex ey); [|cbn [floatRank floatExp floatMant]; lia ..]);
    change (Pos.compare_cont Eq mx my) with (Pos.compare mx my);
    destruct (Pos.compare_spec mx my); cbn [CompOpp]; lia.
Qed.

Section FloatOrder.
Context (x y : float64) (Hx : IsNaN x = false) (Hy : IsNaN y = false).

Lemma fltb_below : (x <f y) = true <-> floatBelow x y.
Proof.
  generalize (compare_places x y Hx Hy). unfold fltb, SFltb, floatBelow, floatSame.
  destruct (SFcompare x y) as [[]|]; intros; split; intros; try done; lia.
Qed.

Lemma fleb_below : (x <=f y) = true <-> floatBelow x y \/ floatSame x y.
Proof.
  generalize (compare_places x y Hx Hy). unfold fleb, SFleb, floatBelow, floatSame.
  destruct (SFcompare x y) as [[]|]; intros; split; intros; try done; lia.
Qed.

Lemma feqb_same : (x =f y) = true <-> floatSame x y.
Proof.
  generalize (compare_places x y Hx Hy). unfold feqb, SFeqb, floatBelow, floatSame.
  destruct (SFcompare x y) as [[]|]; intros; split; intros; try done; lia.
Qed.
End FloatOrder.

(** Turn comparisons of doubles known not to be NaN into their places. *)
Ltac not_nan := solve [assumption | lazymatch goal with |- IsNaN f0 = false => reflexivity end].
Ltac float_places :=
  cbv beta in *;
  repeat match goal with
  | H : (?a <f ?b) = true |- _ => rewrite (fltb_below a b) in H by not_nan
  | H : (?a <=f ?b) = true |- _ => rewrite (fleb_below a b) in H by not_nan
  | H : (?a =f ?b) = true |- _ => rewrite (feqb_same a b) in H by not_nan
  | H : (?a <f ?b) = false |- _ => apply not_true_iff_false in H; rewrite (fltb_below a b) in H by not_nan
  | H : (?a <=f ?b) = false |- _ => apply not_true_iff_false in H; rewrite (fleb_below a b) in H by not_nan
  | H : (?a =f ?b) = false |- _ => apply not_true_iff_false in H; rewrite (feqb_same a b) in H by not_nan
  | |- (?a <f ?b) = true => rewrite (fltb_below a b) by not_nan
  | |- (?a <=f ?b) = true => rewrite (fleb_below a b) by not_nan
  | |- (?a =f ?b) = true => rewrite (feqb_same a b) by not_nan
  end; unfold floatBelow, floatSame in *.
Ltac float_lia := float_places; lia.

Lemma fltb_fleb_trans x y z :
  IsNaN x = false -> IsNaN y = false -> IsNaN z = false -> (x <f y) = true -> (y <=f z) = true -> (x <f z) = true.
Proof. intros Hx Hy Hz H1 H2. float_lia. Qed.

(** ** A product and a quotient of finite non-zero doubles is a number *)

Definition finiteNonZero (x : float64) : bool := match x with S754_finite _ _ _ => true | _ => false end.

Lemma shr_1_nonneg r : 0 <= shr_m r -> 0 <= shr_m (shr_1 r).
Proof. destruct r as [[|[]|[]] r s]; simpl; lia. Qed.

Lemma iter_pos_keeps {A} (P : A -> Prop) (f : A -> A) p x : (forall a, P a -> P (f a)) -> P x -> P (iter_pos f p x).
Proof. intros Hf. revert x. induction p as [p IH|p IH|]; simpl; auto. Qed.

Lemma shr_fexp_nonneg m e l : 0 <= m -> 0 <= shr_m (fst (shr_fexp f_prec f_emax m e l)).
Proof.
  intros Hm. unfold shr_fexp, shr.
  assert (H0 : 0 <= shr_m (shr_record_of_loc m l)) by (destruct l as [|[]]; done).
  destruct (_ - e) as [|p|p]; cbn [fst]; [done | | done].
  apply (iter_pos_keeps (fun r => 0 <= shr_m r)); [exact shr_1_nonneg | exact H0].
Qed.

Lemma round_aux_number s m e l : 0 <= m -> IsNaN (binary_round_aux f_prec f_emax s m e l) = false.
Proof.
  intros Hm. unfold binary_round_aux.
  generalize (shr_fexp_nonneg m e l Hm). destruct (shr_fexp f_prec f_emax m e l) as [r1 e1]. cbn [fst]. intros H1.
  set (m2 := round_nearest_even (shr_m r1) (loc_of_shr_record r1)).
  assert (H2 : 0 <= m2) by (unfold m2, round_nearest_even; destruct (loc_of_shr_record r1) as [|[]]; try case_if; lia).
  generalize (shr_fexp_nonneg m2 e1 loc_Exact H2). destruct (shr_fexp f_prec f_emax m2 e1 loc_Exact) as [r2 e2]. cbn [fst].
  intros H3. destruct (shr_m r2); [done | by case_if | lia].
Qed.

Lemma fdiv_number x y : finiteNonZero x = true -> finiteNonZero y = true -> IsNaN (fdiv x y) = false.
Proof.
  destruct x as [| | |sx mx ex], y as [| | |sy my ey]; try discriminate. intros _ _. unfold fdiv, SFdiv.
  destruct (SFdiv_core_binary f_prec f_emax (Z.pos mx) ex (Z.pos my) ey) as [[mz ez] lz] eqn:E.
  apply round_aux_number. unfold SFdiv_core_binary in E.
  match type of E with context [Z.div_eucl ?a ?b] => 
    assert (Hab : 0 <= a) by (destruct (_ - _); try lia; apply Z.shiftl_nonneg; lia);
    generalize (Z_div_mod a b ltac:(lia)); destruct (Z.div_eucl a b) as [q r] end.
  injection E as <- _ _. intros [Heq Hr]. nia.
Qed.

Lemma fmul_number x y : IsNaN x = false -> finiteNonZero y = true -> IsNaN (fmul x y) = false.
Proof.
  destruct x as [| | |sx mx ex], y as [| | |sy my ey]; try discriminate; intros _ _; try reflexivity.
  by apply round_aux_number.
Qed.


(** ** Integers of at most 53 bits *)

Lemma digits_log2 n : Z.pos (digits2_pos n) = Z.log2 (Z.pos n) + 1.
Proof.
  induction n as [n IH|n IH|]; cbn [digits2_pos]; [| |reflexivity]; rewrite Pos2Z.inj_succ, IH.
  - rewrite Pos2Z.inj_xI, Z.log2_succ_double by lia. lia.
  - rewrite Pos2Z.inj_xO, Z.log2_double by lia. lia.
Qed.

Lemma iter_xO m d : Z.pos (Pos.iter xO m d) = Z.pos m * 2 ^ Z.pos d.
Proof.
  induction d as [|d IH] using Pos.peano_ind; [simpl; lia|].
  rewrite Pos.iter_succ, (Pos2Z.inj_xO (Pos.iter _ _ _)), IH, Pos2Z.inj_succ, Z.pow_succ_r by lia. lia.
Qed.

Lemma shifted a p : exists b, Z.pos b = Z.pos a * 2 ^ Z.pos p.
Proof. exists (Pos.iter xO a p). apply iter_xO. Qed.

Lemma shr_1_exact a : shr_1 {| shr_m := Z.pos a~0; shr_r := false; shr_s := false |} = {| shr_m := Z.pos a; shr_r := false; shr_s := false |}.
Proof. reflexivity. Qed.

Lemma shr_iter_exact p : forall a b, Z.pos b = Z.pos a * 2 ^ Z.pos p ->
  iter_pos shr_1 p {| shr_m := Z.pos b; shr_r := false; shr_s := false |} = {| shr_m := Z.pos a; shr_r := false; shr_s := false |}.
Proof.
  induction p as [p IH|p IH|]; intros a b Hb; cbn [iter_pos].
  - destruct (shifted a p) as [c Hc], (shifted c p) as [d Hd].
    assert (Hbd : b = d~0%positive).
    { apply Pos2Z.inj. rewrite Hb, (Pos2Z.inj_xO d), Hd, Hc, Pos2Z.inj_xI.
      rewrite Z.pow_add_r, Z.pow_mul_r, Z.pow_1_r by lia. change (2 ^ 2) with (2 * 2). rewrite Z.pow_mul_l. ring. }
    rewrite Hbd, shr_1_exact, (IH c d Hd), (IH a c Hc). reflexivity.
  - destruct (shifted a p) as [c Hc]. rewrite (IH c b), (IH a c Hc); [reflexivity|].
    rewrite Hb, Hc, (Pos2Z.inj_xO p), Z.pow_mul_r by lia. change (2 ^ 2) with (2 * 2). rewrite Z.pow_mul_l. ring.
  - assert (b = a~0%positive) as -> by (apply Pos2Z.inj; rewrite Hb, (Pos2Z.inj_xO a); simpl (2 ^ 1); lia). reflexivity.
Qed.

(** The double of a positive integer below 2^53: 53 digits. *)
Definition intScale (n : positive) : Z := 52 - Z.log2 (Z.pos n).
Definition canonInt (s : bool) (n : positive) : float64 :=
  S754_finite s (Z.to_pos (Z.pos n * 2 ^ intScale n)) (- intScale n).

Lemma intScale_bounds n : Z.pos n < 2 ^ 53 -> 0 <= intScale n <= 52.
Proof.
  intros H. unfold intScale. assert (Z.log2 (Z.pos n) < 53) by (apply Z.log2_lt_pow2; lia).
  generalize (Z.log2_nonneg (Z.pos n)). lia.
Qed.

Lemma fexp_scale m k n : Z.pos n < 2 ^ 53 -> 0 <= k -> Z.pos m = Z.pos n * 2 ^ k ->
  fexp f_prec f_emax (Zdigits2 (Z.pos m) + - k) = - intScale n.
Proof.
  intros Hn Hk Hm. cbn [Zdigits2]. rewrite digits_log2, Hm, Z.log2_mul_pow2 by lia.
  unfold fexp, emin, f_prec, f_emax. generalize (intScale_bounds n Hn). unfold intScale. lia.
Qed.

Lemma shr_fexp_int m k n : Z.pos n < 2 ^ 53 -> intScale n <= k -> Z.pos m = Z.pos n * 2 ^ k ->
  shr_fexp f_prec f_emax (Z.pos m) (- k) loc_Exact =
  ({| shr_m := Z.pos n * 2 ^ intScale n; shr_r := false; shr_s := false |}, - intScale n).
Proof.
  intros Hn Hk Hm. assert (Hb := intScale_bounds n Hn). unfold shr_fexp.
  rewrite (fexp_scale m k n Hn ltac:(lia) Hm). cbn [shr_record_of_loc].
  destruct (- intScale n - - k) as [|p|p] eqn:E; [| |lia]; cbn [shr].
  - replace k with (intScale n) in * by lia. rewrite Hm. reflexivity.
  - assert (Ha : 0 < Z.pos n * 2 ^ intScale n) by (apply Z.mul_pos_pos; [lia | apply Z.pow_pos_nonneg; lia]).
    rewrite (shr_iter_exact p (Z.to_pos (Z.pos n * 2 ^ intScale n))).
    + rewrite Z2Pos.id by done. f_equal. lia.
    + rewrite Z2Pos.id by done. rewrite Hm. replace k with (intScale n + Z.pos p) by lia. rewrite Z.pow_add_r by lia. ring.
Qed.

Lemma round_aux_int s m k n : Z.pos n < 2 ^ 53 -> intScale n <= k -> Z.pos m = Z.pos n * 2 ^ k ->
  binary_round_aux f_prec f_emax s (Z.pos m) (- k) loc_Exact = canonInt s n.
Proof.
  intros Hn Hk Hm. assert (Hb := intScale_bounds n Hn). unfold binary_round_aux.
  rewrite (shr_fexp_int m k n Hn Hk Hm). cbn [shr_m loc_of_shr_record round_nearest_even].
  assert (Ha : 0 < Z.pos n * 2 ^ intScale n) by (apply Z.mul_pos_pos; [lia | apply Z.pow_pos_nonneg; lia]).
  unfold canonInt. destruct (Z.pos n * 2 ^ intScale n) as [|a|a] eqn:Ea; [lia| |lia].
  rewrite (shr_fexp_int a (intScale n) n Hn (Z.le_refl _) ltac:(lia)). cbn [shr_m].
  rewrite Ea. unfold f_emax, f_prec. replace (_ <=? _) with true by lia. reflexivity.
Qed.

Lemma round_int s m k n : Z.pos n < 2 ^ 53 -> 0 <= k -> Z.pos m = Z.pos n * 2 ^ k ->
  binary_round f_prec f_emax s m (- k) = canonInt s n.
Proof.
  intros Hn Hk Hm. assert (Hb := intScale_bounds n Hn). unfold binary_round, shl_align.
  change (Z.pos (digits2_pos m)) with (Zdigits2 (Z.pos m)). rewrite (fexp_scale m k n Hn Hk Hm).
  destruct (- intScale n - - k) as [|p|p] eqn:E.
  - apply round_aux_int; [done | lia | done].
  - apply round_aux_int; [done | lia | done].
  - rewrite (round_aux_int s _ (intScale n) n Hn (Z.le_refl _)); [done|].
    rewrite iter_xO, Hm. replace (intScale n) with (k + Z.pos p) by lia. rewrite Z.pow_add_r by lia. ring.
Qed.

Definition int53 (z : Z) : Prop := - 2 ^ 53 < z < 2 ^ 53.

Lemma normalize_int z k : int53 z -> 0 <= k -> binary_normalize f_prec f_emax (z * 2 ^ k) (- k) false = f_of_Z z.
Proof.
  intros Hz Hk. unfold int53 in Hz. unfold f_of_Z. assert (0 < 2 ^ k) by (apply Z.pow_pos_nonneg; lia).
  destruct z as [|n|n]; [done | |]; cbn [binary_normalize].
  - destruct (Z.pos n * 2 ^ k) as [|m|m] eqn:E; [lia| |lia]. cbn [binary_normalize].
    rewrite (round_int false m k n) by lia. symmetry. apply (round_int false n 0 n); lia.
  - destruct (Z.neg n * 2 ^ k) as [|m|m] eqn:E; [lia|lia|]. cbn [binary_normalize].
    rewrite (round_int true m k n) by lia. symmetry. apply (round_int true n 0 n); lia.
Qed.

Lemma f_of_Z_pos n : Z.pos n < 2 ^ 53 -> f_of_Z (Z.pos n) = canonInt false n.
Proof. intros H. apply (round_int false n 0 n); lia. Qed.
Lemma f_of_Z_neg n : Z.pos n < 2 ^ 53 -> f_of_Z (Z.neg n) = canonInt true n.
Proof. intros H. apply (round_int true n 0 n); lia. Qed.

Lemma align_int n ez : Z.pos n < 2 ^ 53 -> ez <= - intScale n ->
  Z.pos (fst (shl_align (Z.to_pos (Z.pos n * 2 ^ intScale n)) (- intScale n) ez)) = Z.pos n * 2 ^ (- ez).
Proof.
  intros Hn He. assert (Hb := intScale_bounds n Hn). unfold shl_align.
  assert (Ha : 0 < Z.pos n * 2 ^ intScale n) by (apply Z.mul_pos_pos; [lia | apply Z.pow_pos_nonneg; lia]).
  destruct (ez - - intScale n) as [|p|p] eqn:E; cbn [fst]; [| lia |].
  - rewrite Z2Pos.id by done. f_equal. f_equal. lia.
  - rewrite iter_xO, Z2Pos.id by done. replace (- ez) with (intScale n + Z.pos p) by lia. rewrite Z.pow_add_r by lia. ring.
Qed.

Lemma f_of_Z_cases z : int53 z ->
  (z = 0 /\ f_of_Z z = S754_zero false) \/
  exists s n, z = cond_Zopp s (Z.pos n) /\ Z.pos n < 2 ^ 53 /\ f_of_Z z = canonInt s n.
Proof.
  unfold int53. intros Hz. destruct z as [|n|n]; [by left | right | right].
  - exists false, n. split; [done|]. split; [lia|]. apply f_of_Z_pos. lia.
  - exists true, n. split; [done|]. split; [lia|]. apply f_of_Z_neg. lia.
Qed.

Lemma sum_int sx nx sy ny z (f : Z -> Z -> Z) : Z.pos nx < 2 ^ 53 -> Z.pos ny < 2 ^ 53 -> int53 z ->
  let ez := Z.min (- intScale nx) (- intScale ny) in
  f (cond_Zopp sx (Z.pos nx) * 2 ^ (- ez)) (cond_Zopp sy (Z.pos ny) * 2 ^ (- ez)) = z * 2 ^ (- ez) ->
  binary_normalize f_prec f_emax
    (f (cond_Zopp sx (Z.pos (fst (shl_align (Z.to_pos (Z.pos nx * 2 ^ intScale nx)) (- intScale nx) ez))))
       (cond_Zopp sy (Z.pos (fst (shl_align (Z.to_pos (Z.pos ny * 2 ^ intScale ny)) (- intScale ny) ez))))) ez false = f_of_Z z.
Proof.
  intros Hx Hy Hz ez H. assert (Hbx := intScale_bounds nx Hx). assert (Hby := intScale_bounds ny Hy).
  rewrite !align_int by (done || lia).
  assert (Ho : forall (s : bool) a b, cond_Zopp s (a * b) = cond_Zopp s a * b) by (intros [] a b; cbn [cond_Zopp]; ring).
  rewrite !Ho, H. replace ez with (- - ez) at 2 by lia. apply normalize_int; [done | lia].
Qed.

(** Addition and subtraction of such integers are exact. *)
Lemma fadd_int a b : int53 a -> int53 b -> int53 (a + b) -> fadd (f_of_Z a) (f_of_Z b) = f_of_Z (a + b).
Proof.
  intros Ha Hb Hab.
  destruct (f_of_Z_cases a Ha) as [[-> Ea]|(sx & nx & -> & Hnx & Ea)], (f_of_Z_cases b Hb) as [[-> Eb]|(sy & ny & -> & Hny & Eb)];
    rewrite ?Z.add_0_l, ?Z.add_0_r in *; rewrite ?Ea, ?Eb; try reflexivity.
  unfold fadd, canonInt. cbn [SFadd]. apply (sum_int sx nx sy ny _ Z.add Hnx Hny Hab). ring.
Qed.

Lemma fsub_int a b : int53 a -> int53 b -> int53 (a - b) -> fsub (f_of_Z a) (f_of_Z b) = f_of_Z (a - b).
Proof.
  intros Ha Hb Hab.
  destruct (f_of_Z_cases a Ha) as [[-> Ea]|(sx & nx & -> & Hnx & Ea)], (f_of_Z_cases b Hb) as [[-> Eb]|(sy & ny & -> & Hny & Eb)];
    rewrite ?Z.sub_0_r, ?Z.sub_0_l in *; rewrite ?Ea, ?Eb; try reflexivity.
  - destruct sy; cbn [cond_Zopp]; rewrite ?Z.opp_involutive; symmetry; [by apply f_of_Z_pos | by apply f_of_Z_neg].
  - unfold fsub, canonInt. cbn [SFsub]. apply (sum_int sx nx sy ny _ Z.sub Hnx Hny Hab). ring.
Qed.

(** Comparison of such integers is the order of the integers. *)
Lemma f_of_Z_number z : int53 z -> IsNaN (f_of_Z z) = false.
Proof. intros H. destruct (f_of_Z_cases z H) as [[_ ->]|(s & n & _ & _ & ->)]; reflexivity. Qed.

Lemma canon_below n1 n2 : Z.pos n1 < Z.pos n2 < 2 ^ 53 ->
  floatBelow (canonInt false n1) (canonInt false n2) /\ floatBelow (canonInt true n2) (canonInt true n1).
Proof.
  intros [H1 H2]. assert (Hb1 := intScale_bounds n1 ltac:(lia)). assert (Hb2 := intScale_bounds n2 H2).
  assert (Hl := Z.log2_le_mono (Z.pos n1) (Z.pos n2) ltac:(lia)).
  assert (Hp : forall n, Z.pos n < 2 ^ 53 -> Z.pos (Z.to_pos (Z.pos n * 2 ^ intScale n)) = Z.pos n * 2 ^ intScale n).
  { intros n Hn. apply Z2Pos.id, Z.mul_pos_pos; [lia | apply Z.pow_pos_nonneg; [lia | apply intScale_bounds; done]]. }
  unfold floatBelow, canonInt. cbn [floatRank floatExp floatMant].
  assert (Hcase : intScale n2 < intScale n1 \/ intScale n1 = intScale n2) by (unfold intScale in *; lia).
  destruct Hcase as [Hc|Hc]; [split; right; split; [done | left; lia | done | left; lia]|].
  assert (Hm : Z.pos (Z.to_pos (Z.pos n1 * 2 ^ intScale n1)) < Z.pos (Z.to_pos (Z.pos n2 * 2 ^ intScale n2))).
  { rewrite !Hp by lia. rewrite Hc. apply Z.mul_lt_mono_pos_r; [apply Z.pow_pos_nonneg; lia | done]. }
  split; right; (split; [done|]); right; split; lia.
Qed.

Lemma int_below a b : int53 a -> int53 b -> a < b -> floatBelow (f_of_Z a) (f_of_Z b).
Proof.
  intros Ha Hb Hab. unfold int53 in *.
  destruct a as [|n1|n1], b as [|n2|n2]; try lia;
    rewrite ?f_of_Z_pos, ?f_of_Z_neg by lia; try (left; reflexivity).
  - apply canon_below; lia.
  - apply canon_below; lia.
Qed.

Lemma int_places a b : int53 a -> int53 b ->
  (floatBelow (f_of_Z a) (f_of_Z b) <-> a < b) /\ (floatSame (f_of_Z a) (f_of_Z b) <-> a = b).
Proof.
  intros Ha Hb. destruct (Z.lt_trichotomy a b) as [H|[H|H]].
  - assert (Hl := int_below a b Ha Hb H). unfold floatBelow, floatSame in *. lia.
  - subst. unfold floatBelow, floatSame. lia.
  - assert (Hl := int_below b a Hb Ha H). unfold floatBelow, floatSame in *. lia.
Qed.

Lemma fltb_int a b : int53 a -> int53 b -> (f_of_Z a <f f_of_Z b) = (a <? b).
Proof.
  intros Ha Hb. apply eq_true_iff_eq. rewrite fltb_below by (by apply f_of_Z_number).
  rewrite Z.ltb_lt. apply int_places; done.
Qed.
Lemma fleb_int a b : int53 a -> int53 b -> (f_of_Z a <=f f_of_Z b) = (a <=? b).
Proof.
  intros Ha Hb. apply eq_true_iff_eq. rewrite fleb_below by (by apply f_of_Z_number).
  destruct (int_places a b Ha Hb) as [-> ->]. lia.
Qed.
Lemma feqb_int a b : int53 a -> int53 b -> (f_of_Z a =f f_of_Z b) = (a =? b).
Proof.
  intros Ha Hb. apply eq_true_iff_eq. rewrite feqb_same by (by apply f_of_Z_number).
  destruct (int_places a b Ha Hb) as [_ ->]. lia.
Qed.

Lemma f0_int : f0 = f_of_Z 0.
Proof. reflexivity. Qed.

Lemma fabs_int a : int53 a -> fabs (f_of_Z a) = f_of_Z (Z.abs a).
Proof.
  intros H. unfold int53 in H. destruct a as [|n|n]; [done | |].
  - change (Z.abs (Z.pos n)) with (Z.pos n). by rewrite f_of_Z_pos by lia.
  - change (Z.abs (Z.neg n)) with (Z.pos n). by rewrite f_of_Z_neg, f_of_Z_pos by lia.
Qed.

Lemma int_of_f_of_Z a : int53 a -> int_of_float (f_of_Z a) = a.
Proof.
  assert (Hc : forall s n, Z.pos n < 2 ^ 53 -> int_of_float (canonInt s n) = cond_Zopp s (Z.pos n)).
  { intros s n Hn. assert (Hb := intScale_bounds n Hn). unfold canonInt, int_of_float, cond_Zopp.
    rewrite Z2Pos.id by (apply Z.mul_pos_pos; [lia | apply Z.pow_pos_nonneg; lia]). rewrite Z.opp_involutive.
    destruct (0 <=? - intScale n) eqn:E.
    - replace (intScale n) with 0 in * by lia. cbn. destruct s; lia.
    - rewrite Z.div_mul by (assert (0 < 2 ^ intScale n) by (apply Z.pow_pos_nonneg; lia); lia). by destruct s. }
  intros H. destruct (f_of_Z_cases a H) as [[-> ->]|(s & n & -> & Hn & ->)]; [done | by apply Hc].
Qed.

(** ** The tolerance 1e-9 *)

Definition tolerance : float64 := f_const 1 1000000000.
Definition epsMant : positive := 4835703278458517.

Lemma tolerance_value : tolerance = S754_finite false epsMant (-82).
Proof. vm_compute. reflexivity. Qed.

Lemma shr_1_half r : 0 <= shr_m r -> shr_m (shr_1 r) = shr_m r / 2.
Proof.
  destruct r as [[|[m|m|]|m] r s]; cbn; intros H; try lia; try reflexivity.
  - rewrite Pos2Z.inj_xI. apply Z.div_unique with 1; lia.
  - rewrite (Pos2Z.inj_xO m). rewrite Z.mul_comm, Z.div_mul; lia.
Qed.

Lemma shr_iter_div p : forall r, 0 <= shr_m r -> shr_m (iter_pos shr_1 p r) = shr_m r / 2 ^ Z.pos p.
Proof.
  assert (Hn : forall p r, 0 <= shr_m r -> 0 <= shr_m (iter_pos shr_1 p r)).
  { intros q r Hr. apply (iter_pos_keeps (fun r => 0 <= shr_m r)); [exact shr_1_nonneg | done]. }
  induction p as [p IH|p IH|]; intros r Hr; cbn [iter_pos].
  - assert (H1 := shr_1_nonneg r Hr). rewrite IH, IH, shr_1_half by auto. rewrite !Z.div_div by (try apply Z.pow_pos_nonneg; lia).
    f_equal. rewrite Pos2Z.inj_xI, Z.pow_add_r, Z.pow_1_r by lia. rewrite (Z.pow_mul_r 2 2) by lia. change (2 ^ 2) with (2 * 2).
    rewrite Z.pow_mul_l. ring.
  - rewrite IH, IH by auto. rewrite Z.div_div by (try apply Z.pow_pos_nonneg; lia). f_equal.
    rewrite (Pos2Z.inj_xO p), (Z.pow_mul_r 2 2) by lia. change (2 ^ 2) with (2 * 2). rewrite Z.pow_mul_l. ring.
  - apply shr_1_half. done.
Qed.

Lemma round_near mx lx : mx <= round_nearest_even mx lx <= mx + 1.
Proof. unfold round_nearest_even. destruct lx as [|[]]; try case_if; lia. Qed.

(** Rounding to a full mantissa moves a value by less than one unit in the last place. *)
Lemma round_binade m e s q : 0 < s -> - 1000 <= e <= 0 -> s <= - e -> 2 ^ 52 <= q < 2 ^ 53 ->
  q * 2 ^ s <= Z.pos m < q * 2 ^ s + 2 ^ s -> q + 1 < 2 ^ 53 ->
  exists r, binary_round f_prec f_emax false m e = S754_finite false r (e + s) /\ (q <= Z.pos r <= q + 1).
Proof.
  intros Hs He Hse Hq Hm Hq1. assert (H2 : 0 < 2 ^ s) by (apply Z.pow_pos_nonneg; lia).
  assert (Hlog : Z.log2 (Z.pos m) = 52 + s).
  { apply Z.log2_unique; [lia|]. replace (Z.succ (52 + s)) with (53 + s) by lia. rewrite !Z.pow_add_r by lia. nia. }
  assert (Hf : fexp f_prec f_emax (Z.pos (digits2_pos m) + e) = e + s).
  { rewrite digits_log2, Hlog. unfold fexp, emin, f_prec, f_emax. lia. }
  unfold binary_round, shl_align. rewrite Hf. replace (e + s - e) with s by lia. destruct s as [|p|p]; [lia| |lia].
  unfold binary_round_aux, shr_fexp at 1. cbn [Zdigits2]. rewrite Hf. replace (e + Z.pos p - e) with (Z.pos p) by lia.
  cbn [shr shr_record_of_loc]. set (rec := iter_pos _ _ _).
  assert (Hrec : shr_m rec = q).
  { unfold rec. rewrite shr_iter_div by (cbn; lia). cbn [shr_m]. symmetry. apply Z.div_unique with (Z.pos m - 2 ^ Z.pos p * q); lia. }
  assert (Hround := round_near (shr_m rec) (loc_of_shr_record rec)). rewrite Hrec in *. clearbody rec.
  set (r := round_nearest_even q (loc_of_shr_record rec)) in *. clearbody r.
  destruct r as [|r|r]; [lia| |lia]. exists r.
  assert (Hr : Z.log2 (Z.pos r) = 52) by (apply Z.log2_unique; [lia|]; change (Z.succ 52) with 53; lia).
  unfold shr_fexp. cbn [Zdigits2]. rewrite digits_log2, Hr. unfold fexp, emin, f_prec, f_emax.
  replace (Z.max _ _ - (e + Z.pos p)) with 0 by lia. cbn [shr shr_record_of_loc shr_m].
  replace (e + Z.pos p <=? 1024 - 53) with true by lia. split; [done | lia].
Qed.

(** A positive integer count plus the tolerance stays below the next integer. *)
Lemma count_plus_tolerance n : Z.pos n < 2 ^ 52 ->
  exists r, (fadd (f_of_Z (Z.pos n)) tolerance = S754_finite false r (- intScale n)) /\
    (Z.pos n * 2 ^ intScale n <= Z.pos r < (Z.pos n + 1) * 2 ^ intScale n).
Proof.
  intros Hn. assert (Hn' : Z.pos n < 2 ^ 53) by lia. assert (Hb := intScale_bounds n Hn').
  assert (Hal := align_int n (-82) Hn' ltac:(lia)).
  assert (Hl : 2 ^ 52 <= Z.pos n * 2 ^ intScale n /\ (Z.pos n + 1) * 2 ^ intScale n <= 2 ^ 53).
  { assert (H := Z.log2_spec (Z.pos n) ltac:(lia)). unfold intScale in *.
    replace (2 ^ 52) with (2 ^ Z.log2 (Z.pos n) * 2 ^ (52 - Z.log2 (Z.pos n))) by (rewrite <- Z.pow_add_r by lia; f_equal; lia).
    replace (2 ^ 53) with (2 ^ Z.succ (Z.log2 (Z.pos n)) * 2 ^ (52 - Z.log2 (Z.pos n))) by (rewrite <- Z.pow_add_r by lia; f_equal; lia).
    assert (0 < 2 ^ (52 - Z.log2 (Z.pos n))) by (apply Z.pow_pos_nonneg; lia). nia. }
  assert (Hs1 : 1 <= intScale n).
  { unfold intScale. assert (Z.log2 (Z.pos n) < 52) by (apply Z.log2_lt_pow2; lia). lia. }
  set (s := intScale n) in *.
  rewrite f_of_Z_pos, tolerance_value by done. unfold fadd, canonInt. cbn [SFadd]. fold s.
  replace (Z.min (- s) (-82)) with (-82) by lia.
  rewrite Hal.
  change (fst (shl_align epsMant (-82) (-82))) with epsMant. cbn [cond_Zopp]. change (- (-82)) with 82.
  destruct (Z.pos n * 2 ^ 82 + Z.pos epsMant) as [|m|m] eqn:Em; [unfold epsMant in Em; lia| |unfold epsMant in Em; lia].
  cbn [binary_normalize].
  set (u := 2 ^ (82 - s)). assert (Hu : 0 < u) by (apply Z.pow_pos_nonneg; lia).
  assert (H82 : 2 ^ 82 = 2 ^ s * u) by (unfold u; rewrite <- Z.pow_add_r by lia; f_equal; lia).
  set (q := Z.pos n * 2 ^ s + Z.pos epsMant / u).
  assert (Hq : 0 <= Z.pos epsMant / u /\ Z.pos epsMant / u + 1 < 2 ^ s).
  { split; [apply Z.div_pos; lia|]. assert (Z.pos epsMant / u < 2 ^ s / 2).
    { apply Z.div_lt_upper_bound; [lia|]. replace (2 ^ s / 2) with (2 ^ (s - 1)).
      - replace (u * 2 ^ (s - 1)) with (2 ^ 81) by (unfold u; rewrite <- Z.pow_add_r by lia; f_equal; lia). unfold epsMant. lia.
      - replace s with (s - 1 + 1) at 2 by lia. rewrite Z.pow_add_r, Z.pow_1_r, Z.div_mul by lia. reflexivity. }
    assert (2 <= 2 ^ s) by (change 2 with (2 ^ 1) at 1; apply Z.pow_le_mono_r; lia).
    assert (2 * (2 ^ s / 2) <= 2 ^ s) by (apply Z.mul_div_le; lia).
    destruct (decide (Z.pos epsMant / u = 0)); lia. }
  destruct (round_binade m (-82) (82 - s) q) as (r & -> & Hr); [lia | lia | lia | unfold q; lia | | unfold q; nia |].
  - fold u. assert (Hd := Z.div_mod (Z.pos epsMant) u ltac:(lia)). assert (Hmod := Z.mod_pos_bound (Z.pos epsMant) u Hu).
    rewrite <- Em, H82. unfold q. nia.
  - exists r. split; [f_equal; lia | unfold q in Hr; nia].
Qed.

(** ** Larger and smaller *)

Definition isPosInf (x : float64) : bool := match x with S754_infinity false => true | _ => false end.
Definition isNegInf (x : float64) : bool := match x with S754_infinity true => true | _ => false end.
Definition signBit (x : float64) : bool :=
  match x with S754_zero s | S754_infinity s | S754_finite s _ _ => s | S754_nan => false end.

(** [math.Max] and [math.Min] *)
Definition mathMax (x y : float64) : float64 :=
  if isPosInf x || isPosInf y then S754_infinity false
  else if IsNaN x || IsNaN y then S754_nan
  else if (x =f f0) && (x =f y) then (if signBit x then y else x)
  else if x >f y then x else y.

Definition mathMin (x y : float64) : float64 :=
  if isNegInf x || isNegInf y then S754_infinity true
  else if IsNaN x || IsNaN y then S754_nan
  else if (x =f f0) && (x =f y) then (if signBit x then x else y)
  else if x <f y then x else y.

(** ** Rounding down *)

(** [math.Floor] *)
Definition Floor (x : float64) : float64 :=
  match x with
  | S754_finite s m e =>
      if 0 <=? e then x
      else
        let q := (if s then Z.neg m else Z.pos m) / 2 ^ (- e) in
        if q =? 0 then S754_zero s else binary_normalize f_prec f_emax q 0 s
  | _ => x
  end.

(** [math.Trunc] *)
Definition Trunc (x : float64) : float64 :=
  match x with
  | S754_finite s m e =>
      if 0 <=? e then x
      else let q := Z.pos m / 2 ^ (- e) in
           if q =? 0 then S754_zero s else binary_normalize f_prec f_emax (if s then - q else q) 0 s
  | _ => x
  end.

Lemma Floor_between r n k : 1 <= k -> Z.pos n * 2 ^ k <= Z.pos r < (Z.pos n + 1) * 2 ^ k ->
  Floor (S754_finite false r (- k)) = f_of_Z (Z.pos n).
Proof.
  intros Hk Hr. assert (0 < 2 ^ k) by (apply Z.pow_pos_nonneg; lia). unfold Floor. replace (0 <=? - k) with false by lia.
  rewrite Z.opp_involutive. replace (Z.pos r / 2 ^ k) with (Z.pos n); [reflexivity|].
  apply Z.div_unique with (Z.pos r - 2 ^ k * Z.pos n); lia.
Qed.

(** ** Counts with the tolerance *)

Definition count (z : Z) : Prop := 0 <= z < 2 ^ 52.
Lemma count_int53 z : count z -> int53 z.
Proof. unfold count, int53. lia. Qed.
#[export] Hint Resolve count_int53 : canary.

Lemma intScale_small n : Z.pos n < 2 ^ 52 -> 1 <= intScale n <= 52.
Proof.
  intros H. assert (Hb := intScale_bounds n ltac:(lia)). unfold intScale in *.
  assert (Z.log2 (Z.pos n) < 52) by (apply Z.log2_lt_pow2; lia). lia.
Qed.

(** [math.Floor(q + 1e-9)] of a count. *)
Lemma floor_count a : count a -> Floor (fadd (f_of_Z a) tolerance) = f_of_Z a.
Proof.
  unfold count. intros H. destruct a as [|n|n]; [vm_compute; reflexivity | | lia].
  destruct (count_plus_tolerance n ltac:(lia)) as (r & -> & Hr). apply Floor_between; [apply intScale_small; lia | done].
Qed.

(** [a + 1e-9 >= b] compares the counts. *)
Lemma tolerant_ge a b : count a -> count b -> (f_of_Z b <=f fadd (f_of_Z a) tolerance) = (b <=? a).
Proof.
  unfold count. intros Ha Hb. destruct (decide (b = 0)) as [->|Hb0].
  { replace (0 <=? a) with true by lia. change (f_of_Z 0) with f0. destruct a as [|n|n]; [vm_compute; reflexivity | | lia].
    destruct (count_plus_tolerance n ltac:(lia)) as (r & -> & _). reflexivity. }
  destruct b as [|b|b]; [done | | lia].
  assert (Hsb := intScale_small b ltac:(lia)). rewrite (f_of_Z_pos b) by lia. unfold canonInt.
  destruct a as [|a|a]; [| |lia].
  { change (f_of_Z 0) with f0. unfold fadd, f0. rewrite tolerance_value. cbn [SFadd]. unfold fleb, SFleb. cbn [SFcompare].
    replace (Z.compare (- intScale b) (-82)) with Gt by (symmetry; apply Z.compare_gt_iff; lia). symmetry. apply Z.leb_gt. lia. }
  destruct (count_plus_tolerance a ltac:(lia)) as (r & -> & Hr). assert (Hsa := intScale_small a ltac:(lia)).
  apply eq_true_iff_eq. rewrite fleb_below by reflexivity. rewrite Z.leb_le.
  assert (Hlt : Z.pos (Z.to_pos (Z.pos b * 2 ^ intScale b)) = Z.pos b * 2 ^ intScale b)
    by (apply Z2Pos.id, Z.mul_pos_pos; [lia | apply Z.pow_pos_nonneg; lia]).
  unfold floatBelow, floatSame. cbn [floatRank floatExp floatMant]. rewrite Hlt.
  assert (Hlog : intScale a < intScale b <-> Z.log2 (Z.pos b) < Z.log2 (Z.pos a)) by (unfold intScale; lia).
  destruct (Z.lt_trichotomy (intScale a) (intScale b)) as [Hs|[Hs|Hs]].
  - assert (Z.pos b < Z.pos a) by (apply Z.log2_lt_cancel; lia). lia.
  - rewrite Hs in *. assert (0 < 2 ^ intScale b) by (apply Z.pow_pos_nonneg; lia). split; intros.
    + assert (Z.pos b * 2 ^ intScale b < (Z.pos a + 1) * 2 ^ intScale b) by lia. nia.
    + assert (Z.pos b * 2 ^ intScale b <= Z.pos a * 2 ^ intScale b) by nia. lia.
  - assert (Z.pos a < Z.pos b) by (apply Z.log2_lt_cancel; unfold intScale in *; lia). lia.
Qed.

(** A negative integer plus the tolerance is negative. *)
Lemma negative_plus_tolerance a : - 2 ^ 53 < a < 0 ->
  exists x, fadd (f_of_Z a) tolerance = x /\ IsNaN x = false /\ floatRank x <= 0 /\ (Floor x <f f_of_Z 1) = true.
Proof.
  intros Ha. destruct a as [|n|n]; [lia | lia |].
  assert (Hn : Z.pos n < 2 ^ 53) by lia. assert (Hb := intScale_bounds n Hn).
  rewrite f_of_Z_neg, tolerance_value by done. eexists. split; [reflexivity|].
  unfold fadd, canonInt. cbn [SFadd]. replace (Z.min (- intScale n) (-82)) with (-82) by lia.
  rewrite (align_int n (-82) Hn) by lia. change (fst (shl_align epsMant (-82) (-82))) with epsMant. cbn [cond_Zopp].
  change (- (-82)) with 82.
  destruct (- (Z.pos n * 2 ^ 82) + Z.pos epsMant) as [|m|m] eqn:Em; [done | unfold epsMant in Em; lia |].
  cbn [binary_normalize]. unfold binary_round. destruct (shl_align _ _ _) as [mz ez].
  assert (Hnum := round_aux_number true (Z.pos mz) ez loc_Exact ltac:(lia)).
  assert (Hsign : forall s m e l, IsNaN (binary_round_aux f_prec f_emax s m e l) = false ->
    (exists z, binary_round_aux f_prec f_emax s m e l = S754_finite s z.1 z.2) \/
    binary_round_aux f_prec f_emax s m e l = S754_zero s \/ binary_round_aux f_prec f_emax s m e l = S754_infinity s).
  { intros s m0 e l. unfold binary_round_aux. destruct (shr_fexp f_prec f_emax m0 e l) as [r1 e1].
    destruct (shr_fexp _ _ _ _ _) as [r2 e2]. destruct (shr_m r2) as [|z|z]; [auto | | discriminate].
    intros _. case_if; [left; by exists (z, e2) | auto]. }
  split; [done|]. destruct (Hsign _ _ _ _ Hnum) as [[[z e] ->]|[->| ->]]; [|split; [vm_compute; done | reflexivity] ..].
  split; [done|]. cbn [fst snd]. unfold Floor. destruct (0 <=? e); [reflexivity|].
  assert (Hq : Z.neg z / 2 ^ (- e) <= 0).
  { destruct (decide (e <= 0)); [|rewrite Z.pow_neg_r by lia; by rewrite Z.div_0_r]. 
    assert (0 < 2 ^ (- e)) by (apply Z.pow_pos_nonneg; lia). apply Z.div_le_upper_bound; lia. }
  destruct (Z.neg z / 2 ^ (- e)) as [|q|q] eqn:Eq; [reflexivity | lia |]. cbn [Z.eqb binary_normalize].
  unfold binary_round. destruct (shl_align _ _ _) as [mq eq].
  assert (Hnq := round_aux_number true (Z.pos mq) eq loc_Exact ltac:(lia)).
  destruct (Hsign _ _ _ _ Hnq) as [[[z' e'] ->]|[->| ->]]; reflexivity.
Qed.

(** [x <= 1e-9] and [|a - b| < 1e-9] on integers. *)
Lemma le_tolerance a : int53 a -> (f_of_Z a <=f tolerance) = (a <=? 0).
Proof.
  unfold int53. intros H. rewrite tolerance_value. destruct a as [|n|n]; [reflexivity | |].
  - assert (Hb := intScale_bounds n ltac:(lia)). rewrite f_of_Z_pos by lia. unfold canonInt, fleb, SFleb. cbn [SFcompare].
    replace (Z.compare (- intScale n) (-82)) with Gt by (symmetry; apply Z.compare_gt_iff; lia). symmetry. apply Z.leb_gt. lia.
  - rewrite f_of_Z_neg by lia. reflexivity.
Qed.

Lemma near_int a : int53 a -> (fabs (f_of_Z a) <f tolerance) = (a =? 0).
Proof.
  intros H. rewrite fabs_int by done. destruct (decide (a = 0)) as [->|Ha]; [reflexivity|].
  unfold int53 in H. destruct (Z.abs a) as [|n|n] eqn:E; [lia| |lia].
  assert (Hb := intScale_bounds n ltac:(lia)). rewrite tolerance_value, f_of_Z_pos by lia. unfold canonInt, fltb, SFltb. cbn [SFcompare].
  replace (Z.compare (- intScale n) (-82)) with Gt by (symmetry; apply Z.compare_gt_iff; lia). symmetry. by apply Z.eqb_neq.
Qed.

Lemma int_not_infinite a : int53 a -> isPosInf (f_of_Z a) = false /\ isNegInf (f_of_Z a) = false.
Proof. intros H. destruct (f_of_Z_cases a H) as [[_ E]|(s & n & _ & _ & E)]; by rewrite E. Qed.

Lemma mathMin_int a b : int53 a -> int53 b -> mathMin (f_of_Z a) (f_of_Z b) = f_of_Z (Z.min a b).
Proof.
  intros Ha Hb. unfold mathMin. rewrite (proj2 (int_not_infinite a Ha)), (proj2 (int_not_infinite b Hb)), !f_of_Z_number by done.
  rewrite f0_int, !feqb_int, fltb_int by (done || unfold int53; lia). cbn [orb].
  destruct (Z.eqb_spec a 0) as [->|]; cbn [andb]; [destruct (Z.eqb_spec 0 b) as [<-|]; [reflexivity|]|];
    destruct (Z.ltb_spec a b) || destruct (Z.ltb_spec 0 b); f_equal; lia.
Qed.

Lemma mathMax_int a b : int53 a -> int53 b -> mathMax (f_of_Z a) (f_of_Z b) = f_of_Z (Z.max a b).
Proof.
  intros Ha Hb. unfold mathMax. rewrite (proj1 (int_not_infinite a Ha)), (proj1 (int_not_infinite b Hb)), !f_of_Z_number by done.
  rewrite f0_int, !feqb_int, fltb_int by (done || unfold int53; lia). cbn [orb].
  destruct (Z.eqb_spec a 0) as [->|]; cbn [andb]; [destruct (Z.eqb_spec 0 b) as [<-|]; [reflexivity|]|];
    destruct (Z.ltb_spec b a) || destruct (Z.ltb_spec b 0); f_equal; lia.
Qed.

(** [x < 1 - 1e-9]; the constant is rounded once. *)
Definition nearlyOne : float64 := f_const 999999999 1000000000.
Lemma below_nearly_one a : int53 a -> (f_of_Z a <f nearlyOne) = (a <=? 0).
Proof.
  intros H. assert (Ha := f_of_Z_number a H). assert (H1 : int53 1) by (unfold int53; lia).
  assert (H0 : int53 0) by (unfold int53; lia).
  destruct (Z.leb_spec a 0) as [L|L].
  - assert (E : (f_of_Z a <=f f_of_Z 0) = true) by (rewrite fleb_int by done; by apply Z.leb_le).
    change (f_of_Z 0) with f0 in E. assert (Hn : (f0 <f nearlyOne) = true) by (vm_compute; reflexivity).
    assert (IsNaN nearlyOne = false) by (vm_compute; reflexivity). float_lia.
  - assert (E : (f_of_Z 1 <=f f_of_Z a) = true) by (rewrite fleb_int by done; by apply Z.leb_le; lia).
    apply not_true_iff_false. intros C. assert (Hn : (nearlyOne <f f_of_Z 1) = true) by (vm_compute; reflexivity).
    assert (N : IsNaN nearlyOne = false) by (vm_compute; reflexivity).
    assert (X := fltb_fleb_trans _ _ _ N (f_of_Z_number 1 H1) Ha Hn E). clear E Hn. float_lia.
Qed.

Lemma fltb_negb x y : IsNaN x = false -> IsNaN y = false -> (x <f y) = negb (y <=f x).
Proof.
  intros Hx Hy. destruct (x <f y) eqn:E1, (y <=f x) eqn:E2; try reflexivity; exfalso; float_lia.
Qed.

Lemma count_plus_tolerance_number a : count a -> IsNaN (fadd (f_of_Z a) tolerance) = false.
Proof.
  unfold count. intros H. destruct a as [|n|n]; [vm_compute; reflexivity | | lia].
  by destruct (count_plus_tolerance n ltac:(lia)) as (r & -> & _).
Qed.

(** [b > a + 1e-9] compares the counts. *)
Lemma tolerant_gt a b : count a -> count b -> (fadd (f_of_Z a) tolerance <f f_of_Z b) = (a <? b).
Proof.
  intros Ha Hb. rewrite fltb_negb by (by apply count_plus_tolerance_number || apply f_of_Z_number; eauto with canary).
  rewrite tolerant_ge by done. by rewrite Z.ltb_antisym.
Qed.

Lemma fopp_int a : int53 a -> a <> 0 -> fopp (f_of_Z a) = f_of_Z (- a).
Proof.
  unfold int53. intros H Ha. destruct a as [|n|n]; [done| |].
  - change (- Z.pos n) with (Z.neg n). rewrite (f_of_Z_pos n), (f_of_Z_neg n) by lia. reflexivity.
  - change (- Z.neg n) with (Z.pos n). rewrite (f_of_Z_pos n), (f_of_Z_neg n) by lia. reflexivity.
Qed.
