(* ===== verification/OrderTypes.v ===== *)
(** * Order data model

    The journal event, the folded order row, the read-model event and the
    broker's lifecycle callback, field for field
    (src/internal/daemon/order_journal.go, src/internal/rpc/rpc.go,
    src/internal/rpc/stock_add.go, src/pkg/ibkr/order_events.go), with the
    string vocabularies they use.  Pointers are [option]s: the read model
    copies a pointee whenever it stores one (a fresh copy, [cloneTrailSpec],
    [cloneBoolPtr]), so no two rows share mutable state.  Five pointer fields
    of the journal event that no modelled function reads are left out
    (ExerciseReservation, Add, StrategyGroup, Bond, Quote). *)

From stdpp Require Import base decidable list strings.
From Stdlib Require Import ZArith Lia String.
From S2P Require Import Prelude.

(** ** Vocabularies *)

(** corestore.ActionKind, corestore.TransmitOrigin, ibkr.SendDisposition: string types. *)
Definition ActionKind : Type := string.
Definition TransmitOrigin : Type := string.
Definition SendDisposition : Type := string.

Definition ActionPlace : string := "place".
Definition ActionModify : string := "modify".
Definition ActionCancel : string := "cancel".
Definition ActionPurge : string := "purge".
Definition ActionRestore : string := "restore".
Definition ActionExercise : string := "exercise".
Definition ActionSmokeCleanup : string := "smoke_cleanup".
Definition OriginAgentCLI : string := "agent_gated_cli".
Definition OriginHumanCLI : string := "human_cli".
Definition OriginDaemon : string := "daemon_internal".
Definition SendDispositionDefinitelyUnsent : string := "definitely_unsent".
Definition SendDispositionMayHaveWritten : string := "may_have_written".
Definition SendDispositionUnknown : string := "unknown".

Definition orderJournalEventPreviewed : string := "previewed".
Definition orderJournalEventTokenConfirmed : string := "token-confirmed".
Definition orderJournalEventSendAttempted : string := "send-attempted".
Definition orderJournalEventSendCompleted : string := "send-completed".
Definition orderJournalEventSendError : string := "send-error".
Definition orderJournalEventBrokerError : string := "broker-error".
Definition orderJournalEventBrokerAcknowledged : string := "broker-acknowledged".
Definition orderJournalEventStatusUpdated : string := "status-updated".
Definition orderJournalEventModifyRequested : string := "modify-requested".
Definition orderJournalEventCancelRequested : string := "cancel-requested".
Definition orderJournalEventReconciledUnknown : string := "reconciled-unknown".
Definition orderJournalEventReconciledAbsent : string := "reconciled-absent".
Definition orderSendStateReserved : string := "reserved".
Definition orderSendStateSendAttempted : string := "send_attempted".
Definition orderSendStateBrokerAcknowledged : string := "broker_acknowledged".
Definition orderSendStateUncertainSend : string := "uncertain_send".
Definition orderSendStateTerminal : string := "terminal".
Definition legacyPurgeExecuteSource : string := "purge".
Definition legacyPurgeRestoreSource : string := "purge_restore".

Definition orderJournalFileVersion : Z := 1.

Definition OrderActionBuy : string := "BUY".
Definition OrderActionSell : string := "SELL".
Definition OrderTypeLMT : string := "LMT".
Definition OrderTypeTRAIL : string := "TRAIL".
Definition OrderTypeTRAILLIMIT : string := "TRAIL LIMIT".
Definition OrderTIFDay : string := "DAY".
Definition OrderTIFGTC : string := "GTC".
Definition OrderTrailBasisInstrumentPrice : string := "instrument_price".
Definition OrderTrailOffsetPercent : string := "percent".
Definition OrderTrailOffsetAmount : string := "amount".
Definition OrderOriginAgent : string := "agent".
Definition OrderOriginHumanTTY : string := "human-tty".
Definition OrderOriginDaemonPreAuthorised : string := "daemon-preauthorised".
Definition OrderOriginDaemonOwnerQueued : string := "daemon-owner-queued".
Definition OrderOriginDaemonProtectiveGuard : string := "daemon-protective-guard".
Definition OrderOriginDeskAutomatic : string := "desk-automatic".
Definition OrderOriginPairedDevice : string := "human-paired-device".
Definition OrderWhatIfStatusUnavailable : string := "unavailable".
Definition OrderWhatIfStatusAccepted : string := "accepted".
Definition OrderWhatIfStatusRejected : string := "rejected".
Definition OrderTokenScopePlace : string := "place".
Definition OrderTokenScopeProtectedAdd : string := "protected-add".
Definition OrderTokenScopeModify : string := "modify".
Definition OrderTokenScopeExercise : string := "exercise".
Definition OrderTokenScopeStrategy : string := "strategy".
Definition OrderLifecyclePreviewed : string := "previewed".
Definition OrderLifecyclePendingSubmit : string := "pending_submit".
Definition OrderLifecyclePreSubmitted : string := "pre_submitted".
Definition OrderLifecycleSubmitted : string := "submitted".
Definition OrderLifecyclePartiallyFilled : string := "partially_filled".
Definition OrderLifecycleFilled : string := "filled".
Definition OrderLifecyclePendingCancel : string := "pending_cancel".
Definition OrderLifecycleCancelled : string := "cancelled".
Definition OrderLifecycleRejected : string := "rejected".
Definition OrderLifecycleInactive : string := "inactive".
Definition OrderLifecycleDeactivated : string := "deactivated".
Definition OrderLifecycleUnknownReconcileRequired : string := "unknown_reconcile_required".
Definition OrderLifecycleExpiredInferred : string := "expired_inferred".
Definition OrderLifecycleClosedReconciled : string := "closed_reconciled".
Definition OrderReconciliationKindShortEntryFull : string := "short_entry_full".
Definition OrderReconciliationKindShortEntryExcess : string := "short_entry_excess".
Definition OrderReconciliationSeverityCritical : string := "critical".

Definition OrderLifecycleEventOpenOrder : string := "openOrder".
Definition OrderLifecycleEventStatus : string := "orderStatus".
Definition OrderLifecycleEventExecDetails : string := "execDetails".
Definition OrderLifecycleEventError : string := "error".

(** ** Records *)

Record OrderTrailSpec := mkOrderTrailSpec {
  t_Basis : string; t_OffsetType : string; t_TrailingPercent : option float64;
  t_TrailingAmount : option float64; t_InitialStopPrice : float64;
  t_LimitOffset : option float64
}.
#[global] Instance OrderTrailSpec_eta : Eta OrderTrailSpec := fun r => mkOrderTrailSpec
  (t_Basis r) (t_OffsetType r) (t_TrailingPercent r) (t_TrailingAmount r)
  (t_InitialStopPrice r) (t_LimitOffset r).
(** The Go zero value. *)
Definition zero_OrderTrailSpec : OrderTrailSpec := mkOrderTrailSpec
  "" "" None None f0 None.

Record AttachedStockStop := mkAttachedStockStop {
  as_Price : float64
}.
#[global] Instance AttachedStockStop_eta : Eta AttachedStockStop := fun r => mkAttachedStockStop
  (as_Price r).
(** The Go zero value. *)
Definition zero_AttachedStockStop : AttachedStockStop := mkAttachedStockStop
  f0.

Record StockEntryLink := mkStockEntryLink {
  el_PairRef : string; el_ParentRef : string; el_ParentID : Z; el_EntryQuantity : Z
}.
#[global] Instance StockEntryLink_eta : Eta StockEntryLink := fun r => mkStockEntryLink
  (el_PairRef r) (el_ParentRef r) (el_ParentID r) (el_EntryQuantity r).
(** The Go zero value. *)
Definition zero_StockEntryLink : StockEntryLink := mkStockEntryLink
  "" "" 0 0.

Record orderJournalEvent := mkorderJournalEvent {
  e_AttachedStop : option AttachedStockStop; e_EntryLink : option StockEntryLink;
  e_FixedStopPrice : float64; e_BrokerParentID : option Z; e_Deactivated : option bool;
  e_AlgoStrategy : string; e_AlgoKnown : bool; e_AdaptivePriority : string;
  e_AddWarningsAccepted : bool; e_Version : Z; e_At : time; e_Type : string;
  e_OrderRef : string; e_PreviewTokenID : string; e_ReservedOrderID : Z; e_ClientID : Z;
  e_PermID : Z; e_Account : string; e_Endpoint : string; e_Mode : string; e_Source : string;
  e_Origin : string; e_PurgeID : string; e_LegID : string; e_BypassPreview : bool;
  e_Symbol : string; e_SecType : string; e_ConID : Z; e_Exchange : string;
  e_PrimaryExch : string; e_Currency : string; e_LocalSymbol : string;
  e_TradingClass : string; e_Expiry : string; e_Strike : float64; e_Right : string;
  e_Multiplier : Z; e_Action : string; e_OrderType : string; e_TIF : string;
  e_TriggerMethod : Z; e_OutsideRTH : bool; e_Quantity : float64; e_LimitPrice : float64;
  e_Trail : option OrderTrailSpec; e_OpenClose : string; e_OCAGroup : string; e_OCAType : Z;
  e_Status : string; e_Filled : float64; e_Remaining : float64; e_AvgFillPrice : float64;
  e_LastFillPrice : float64; e_WhyHeld : string; e_MktCapPrice : float64; e_ExecID : string;
  e_ExecTime : string; e_ExecShares : float64; e_ExecSide : string; e_ErrorCode : Z;
  e_SendState : string; e_AttemptID : string; e_ActionKind : ActionKind;
  e_TransmitOrigin : TransmitOrigin; e_SendDisposition : SendDisposition;
  e_Message : string; e_FeeUpper : option float64; e_FeeCurrency : string;
  e_clientIDPresent : bool
}.
#[global] Instance orderJournalEvent_eta : Eta orderJournalEvent := fun r => mkorderJournalEvent
  (e_AttachedStop r) (e_EntryLink r) (e_FixedStopPrice r) (e_BrokerParentID r)
  (e_Deactivated r) (e_AlgoStrategy r) (e_AlgoKnown r) (e_AdaptivePriority r)
  (e_AddWarningsAccepted r) (e_Version r) (e_At r) (e_Type r) (e_OrderRef r)
  (e_PreviewTokenID r) (e_ReservedOrderID r) (e_ClientID r) (e_PermID r) (e_Account r)
  (e_Endpoint r) (e_Mode r) (e_Source r) (e_Origin r) (e_PurgeID r) (e_LegID r)
  (e_BypassPreview r) (e_Symbol r) (e_SecType r) (e_ConID r) (e_Exchange r)
  (e_PrimaryExch r) (e_Currency r) (e_LocalSymbol r) (e_TradingClass r) (e_Expiry r)
  (e_Strike r) (e_Right r) (e_Multiplier r) (e_Action r) (e_OrderType r) (e_TIF r)
  (e_TriggerMethod r) (e_OutsideRTH r) (e_Quantity r) (e_LimitPrice r) (e_Trail r)
  (e_OpenClose r) (e_OCAGroup r) (e_OCAType r) (e_Status r) (e_Filled r) (e_Remaining r)
  (e_AvgFillPrice r) (e_LastFillPrice r) (e_WhyHeld r) (e_MktCapPrice r) (e_ExecID r)
  (e_ExecTime r) (e_ExecShares r) (e_ExecSide r) (e_ErrorCode r) (e_SendState r)
  (e_AttemptID r) (e_ActionKind r) (e_TransmitOrigin r) (e_SendDisposition r) (e_Message r)
  (e_FeeUpper r) (e_FeeCurrency r) (e_clientIDPresent r).
(** The Go zero value. *)
Definition zero_orderJournalEvent : orderJournalEvent := mkorderJournalEvent
  None None f0 None None "" false "" false 0 0 "" "" "" 0 0 0 "" "" "" "" "" "" "" false ""
  "" 0 "" "" "" "" "" "" f0 "" 0 "" "" "" 0 false f0 f0 None "" "" 0 "" f0 f0 f0 f0 "" f0 ""
  "" f0 "" 0 "" "" "" "" "" "" None "" false.

Record OrderView := mkOrderView {
  v_AttachedStop : option AttachedStockStop; v_EntryLink : option StockEntryLink;
  v_FixedStopPrice : float64; v_BrokerParentID : option Z; v_EntryState : string;
  v_Deactivated : option bool; v_AlgoStrategy : string; v_AlgoKnown : bool;
  v_AdaptivePriority : string; v_OrderRef : string; v_PreviewTokenID : string;
  v_ReservedOrderID : Z; v_ClientID : Z; v_PermID : Z; v_Account : string;
  v_Endpoint : string; v_Mode : string; v_Source : string; v_PurgeID : string;
  v_LegID : string; v_BypassPreview : bool; v_Symbol : string; v_SecType : string;
  v_ConID : Z; v_Exchange : string; v_PrimaryExch : string; v_Currency : string;
  v_LocalSymbol : string; v_TradingClass : string; v_Expiry : string; v_Strike : float64;
  v_Right : string; v_Multiplier : Z; v_Action : string; v_OrderType : string;
  v_TIF : string; v_TriggerMethod : Z; v_OutsideRTH : bool; v_Quantity : float64;
  v_LimitPrice : float64; v_Trail : option OrderTrailSpec; v_OpenClose : string;
  v_OCAGroup : string; v_OCAType : Z; v_Status : string; v_LifecycleStatus : string;
  v_Filled : float64; v_Remaining : float64; v_AvgFillPrice : float64;
  v_LastFillPrice : float64; v_WhyHeld : string; v_MktCapPrice : float64;
  v_SendState : string; v_LastEvent : string; v_LastErrorCode : Z; v_LastMessage : string;
  v_ReconciliationState : string; v_ReconciliationKind : string;
  v_ReconciliationSeverity : string; v_ShortRiskQuantity : float64;
  v_ReduceToQuantity : float64; v_BrokerTruthAsOf : time; v_UpdatedAt : time; v_Open : bool;
  v_ModifyEligible : bool; v_CancelEligible : bool; v_Origin : string
}.
#[global] Instance OrderView_eta : Eta OrderView := fun r => mkOrderView
  (v_AttachedStop r) (v_EntryLink r) (v_FixedStopPrice r) (v_BrokerParentID r)
  (v_EntryState r) (v_Deactivated r) (v_AlgoStrategy r) (v_AlgoKnown r)
  (v_AdaptivePriority r) (v_OrderRef r) (v_PreviewTokenID r) (v_ReservedOrderID r)
  (v_ClientID r) (v_PermID r) (v_Account r) (v_Endpoint r) (v_Mode r) (v_Source r)
  (v_PurgeID r) (v_LegID r) (v_BypassPreview r) (v_Symbol r) (v_SecType r) (v_ConID r)
  (v_Exchange r) (v_PrimaryExch r) (v_Currency r) (v_LocalSymbol r) (v_TradingClass r)
  (v_Expiry r) (v_Strike r) (v_Right r) (v_Multiplier r) (v_Action r) (v_OrderType r)
  (v_TIF r) (v_TriggerMethod r) (v_OutsideRTH r) (v_Quantity r) (v_LimitPrice r) (v_Trail r)
  (v_OpenClose r) (v_OCAGroup r) (v_OCAType r) (v_Status r) (v_LifecycleStatus r)
  (v_Filled r) (v_Remaining r) (v_AvgFillPrice r) (v_LastFillPrice r) (v_WhyHeld r)
  (v_MktCapPrice r) (v_SendState r) (v_LastEvent r) (v_LastErrorCode r) (v_LastMessage r)
  (v_ReconciliationState r) (v_ReconciliationKind r) (v_ReconciliationSeverity r)
  (v_ShortRiskQuantity r) (v_ReduceToQuantity r) (v_BrokerTruthAsOf r) (v_UpdatedAt r)
  (v_Open r) (v_ModifyEligible r) (v_CancelEligible r) (v_Origin r).
(** The Go zero value. *)
Definition zero_OrderView : OrderView := mkOrderView
  None None f0 None "" None "" false "" "" "" 0 0 0 "" "" "" "" "" "" false "" "" 0 "" "" ""
  "" "" "" f0 "" 0 "" "" "" 0 false f0 f0 None "" "" 0 "" "" f0 f0 f0 f0 "" f0 "" "" 0 "" ""
  "" "" f0 f0 0 0 false false false "".

Record OrderEvent := mkOrderEvent {
  o_AttachedStop : option AttachedStockStop; o_EntryLink : option StockEntryLink;
  o_FixedStopPrice : float64; o_BrokerParentID : option Z; o_EntryState : string;
  o_Deactivated : option bool; o_AlgoStrategy : string; o_AlgoKnown : bool;
  o_AdaptivePriority : string; o_At : time; o_Type : string; o_OrderRef : string;
  o_PreviewTokenID : string; o_ReservedOrderID : Z; o_ClientID : Z; o_PermID : Z;
  o_Account : string; o_Endpoint : string; o_Mode : string; o_Source : string;
  o_PurgeID : string; o_LegID : string; o_BypassPreview : bool; o_Symbol : string;
  o_SecType : string; o_ConID : Z; o_Exchange : string; o_PrimaryExch : string;
  o_Currency : string; o_LocalSymbol : string; o_TradingClass : string; o_Expiry : string;
  o_Strike : float64; o_Right : string; o_Multiplier : Z; o_Action : string;
  o_OrderType : string; o_TIF : string; o_TriggerMethod : Z; o_OutsideRTH : bool;
  o_Quantity : float64; o_LimitPrice : float64; o_Trail : option OrderTrailSpec;
  o_OpenClose : string; o_Status : string; o_LifecycleStatus : string; o_Filled : float64;
  o_Remaining : float64; o_AvgFillPrice : float64; o_LastFillPrice : float64;
  o_WhyHeld : string; o_MktCapPrice : float64; o_ExecID : string; o_ExecTime : string;
  o_ErrorCode : Z; o_SendState : string; o_Message : string; o_Origin : string
}.
#[global] Instance OrderEvent_eta : Eta OrderEvent := fun r => mkOrderEvent
  (o_AttachedStop r) (o_EntryLink r) (o_FixedStopPrice r) (o_BrokerParentID r)
  (o_EntryState r) (o_Deactivated r) (o_AlgoStrategy r) (o_AlgoKnown r)
  (o_AdaptivePriority r) (o_At r) (o_Type r) (o_OrderRef r) (o_PreviewTokenID r)
  (o_ReservedOrderID r) (o_ClientID r) (o_PermID r) (o_Account r) (o_Endpoint r) (o_Mode r)
  (o_Source r) (o_PurgeID r) (o_LegID r) (o_BypassPreview r) (o_Symbol r) (o_SecType r)
  (o_ConID r) (o_Exchange r) (o_PrimaryExch r) (o_Currency r) (o_LocalSymbol r)
  (o_TradingClass r) (o_Expiry r) (o_Strike r) (o_Right r) (o_Multiplier r) (o_Action r)
  (o_OrderType r) (o_TIF r) (o_TriggerMethod r) (o_OutsideRTH r) (o_Quantity r)
  (o_LimitPrice r) (o_Trail r) (o_OpenClose r) (o_Status r) (o_LifecycleStatus r)
  (o_Filled r) (o_Remaining r) (o_AvgFillPrice r) (o_LastFillPrice r) (o_WhyHeld r)
  (o_MktCapPrice r) (o_ExecID r) (o_ExecTime r) (o_ErrorCode r) (o_SendState r)
  (o_Message r) (o_Origin r).
(** The Go zero value. *)
Definition zero_OrderEvent : OrderEvent := mkOrderEvent
  None None f0 None "" None "" false "" 0 "" "" "" 0 0 0 "" "" "" "" "" "" false "" "" 0 ""
  "" "" "" "" "" f0 "" 0 "" "" "" 0 false f0 f0 None "" "" "" f0 f0 f0 f0 "" f0 "" "" 0 ""
  "" "".

Record OrderLifecycleEvent := mkOrderLifecycleEvent {
  b_ParentID : option Z; b_ModifyTermsKnown : bool; b_ModifyUnsupported : string;
  b_PrimaryExch : string; b_OpenClose : string; b_Deactivated : option bool;
  b_AlgoStrategy : string; b_AdaptivePriority : string; b_AlgoKnown : bool; b_Type : string;
  b_OrderID : Z; b_PermID : Z; b_ClientID : Z; b_ClientIDPresent : bool; b_RequestID : Z;
  b_Status : string; b_ErrorCode : Z; b_Message : string; b_Symbol : string;
  b_SecType : string; b_ConID : Z; b_Expiry : string; b_Strike : float64; b_Right : string;
  b_Multiplier : Z; b_Exchange : string; b_Currency : string; b_LocalSymbol : string;
  b_TradingClass : string; b_Action : string; b_TotalQuantity : float64;
  b_OrderType : string; b_LimitPrice : float64; b_AuxPrice : float64;
  b_TrailingPercent : float64; b_TrailStopPrice : float64; b_LmtPriceOffset : float64;
  b_TIF : string; b_TriggerMethod : Z; b_OutsideRth : bool; b_WhatIf : bool;
  b_Filled : float64; b_Remaining : float64; b_AvgFillPrice : float64;
  b_LastFillPrice : float64; b_WhyHeld : string; b_MktCapPrice : float64; b_ExecID : string;
  b_ExecTime : string; b_Account : string; b_OcaGroup : string; b_OcaType : Z;
  b_ExecutionSide : string; b_Shares : float64; b_Price : float64; b_CumQty : float64;
  b_OrderRef : string; b_Raw : list string
}.
#[global] Instance OrderLifecycleEvent_eta : Eta OrderLifecycleEvent := fun r => mkOrderLifecycleEvent
  (b_ParentID r) (b_ModifyTermsKnown r) (b_ModifyUnsupported r) (b_PrimaryExch r)
  (b_OpenClose r) (b_Deactivated r) (b_AlgoStrategy r) (b_AdaptivePriority r)
  (b_AlgoKnown r) (b_Type r) (b_OrderID r) (b_PermID r) (b_ClientID r) (b_ClientIDPresent r)
  (b_RequestID r) (b_Status r) (b_ErrorCode r) (b_Message r) (b_Symbol r) (b_SecType r)
  (b_ConID r) (b_Expiry r) (b_Strike r) (b_Right r) (b_Multiplier r) (b_Exchange r)
  (b_Currency r) (b_LocalSymbol r) (b_TradingClass r) (b_Action r) (b_TotalQuantity r)
  (b_OrderType r) (b_LimitPrice r) (b_AuxPrice r) (b_TrailingPercent r) (b_TrailStopPrice r)
  (b_LmtPriceOffset r) (b_TIF r) (b_TriggerMethod r) (b_OutsideRth r) (b_WhatIf r)
  (b_Filled r) (b_Remaining r) (b_AvgFillPrice r) (b_LastFillPrice r) (b_WhyHeld r)
  (b_MktCapPrice r) (b_ExecID r) (b_ExecTime r) (b_Account r) (b_OcaGroup r) (b_OcaType r)
  (b_ExecutionSide r) (b_Shares r) (b_Price r) (b_CumQty r) (b_OrderRef r) (b_Raw r).
(** The Go zero value. *)
Definition zero_OrderLifecycleEvent : OrderLifecycleEvent := mkOrderLifecycleEvent
  None false "" "" "" None "" "" false "" 0 0 0 false 0 "" 0 "" "" "" 0 "" f0 "" 0 "" "" ""
  "" "" f0 "" f0 f0 f0 f0 f0 "" 0 false false f0 f0 f0 f0 "" f0 "" "" "" "" 0 "" f0 f0 f0 ""
  [].

(** Go's struct equality on two links. *)
Definition StockEntryLink_eqb (a b : StockEntryLink) : bool :=
  (el_PairRef a =s el_PairRef b) && (el_ParentRef a =s el_ParentRef b) &&
  (el_ParentID a =? el_ParentID b) && (el_EntryQuantity a =? el_EntryQuantity b).

(** stockEntryLinksEqual *)
Definition stockEntryLinksEqual (a b : option StockEntryLink) : bool :=
  match a, b with
  | None, None => true
  | Some x, Some y => StockEntryLink_eqb x y
  | _, _ => false
  end.

Lemma StockEntryLink_eqb_eq a b : StockEntryLink_eqb a b = true <-> a = b.
Proof.
  unfold StockEntryLink_eqb. destruct a, b; simpl.
  rewrite !andb_true_iff, !String.eqb_eq, !Z.eqb_eq.
  split; [intros [[[-> ->] ->] ->]; done | intros [= -> -> -> ->]; done].
Qed.

(** A nil-able bool read as "present and true". *)
Definition deref_true (p : option bool) : bool := match p with Some b => b | None => false end.
