(* ===== verification/OrderStatus.v ===== *)
(** * Order status classification

    The classifiers of src/internal/daemon/order_read_model.go: what a broker
    status, a broker error or a journal event says about an order's lifecycle,
    which lifecycle statuses are final, when a row is open, and when it may be
    modified or cancelled. *)

From stdpp Require Import base decidable list strings.
From Stdlib Require Import ZArith Lia String.
From S2P Require Import Prelude OrderTypes.

(** mapBrokerErrorLifecycleStatus: the only broker-error terminal classifier. *)
Definition mapBrokerErrorLifecycleStatus (errorCode : Z) (status : string) : string :=
  if errorCode =? 0 then OrderLifecycleUnknownReconcileRequired
  else if (errorCode =? 103) || (errorCode =? 110) || (errorCode =? 201)
  then OrderLifecycleRejected
  else if errorCode =? 202 then OrderLifecycleCancelled
  else if errorCode =? 135 then OrderLifecycleInactive
  else if errorCode =? 321 then OrderLifecycleUnknownReconcileRequired
  else
    let s := ToLower (TrimSpace status) in
    if s =s "filled" then OrderLifecycleFilled
    else if (s =s "cancelled") || (s =s "apicancelled") then OrderLifecycleCancelled
    else if s =s "inactive" then OrderLifecycleInactive
    else if s =s "rejected" then OrderLifecycleRejected
    else OrderLifecycleUnknownReconcileRequired.

(** mapBrokerOrderLifecycleStatus *)
Definition mapBrokerOrderLifecycleStatus (status : string) (filled remaining : float64) : string :=
  let s := ToLower (TrimSpace status) in
  if s =s "pendingcancel" then OrderLifecyclePendingCancel
  else if s =s "pendingsubmit" then OrderLifecyclePendingSubmit
  else if s =s "presubmitted" then OrderLifecyclePreSubmitted
  else if s =s "apipending" then OrderLifecyclePendingSubmit
  else if s =s "submitted" then
    if (filled >f f0) && (remaining >f f0) then OrderLifecyclePartiallyFilled
    else OrderLifecycleSubmitted
  else if s =s "filled" then OrderLifecycleFilled
  else if (s =s "cancelled") || (s =s "apicancelled") then OrderLifecycleCancelled
  else if s =s "inactive" then OrderLifecycleInactive
  else if s =s "rejected" then OrderLifecycleRejected
  else if s =s "execution" then OrderLifecyclePartiallyFilled
  else if (filled >f f0) && (remaining >f f0) then OrderLifecyclePartiallyFilled
  else if (filled >f f0) && (remaining =f f0) then OrderLifecycleFilled
  else OrderLifecycleUnknownReconcileRequired.

(** orderLifecycleStatusIsTerminal *)
Definition orderLifecycleStatusIsTerminal (status : string) : bool :=
  one_of status
    [OrderLifecycleFilled; OrderLifecycleCancelled; OrderLifecycleRejected;
     OrderLifecycleInactive; OrderLifecycleExpiredInferred; OrderLifecycleClosedReconciled].

(** mapBrokerOrderLifecycleWithDeactivation *)
Definition mapBrokerOrderLifecycleWithDeactivation
    (status : string) (filled remaining : float64) (deactivated : option bool) : string :=
  let base := mapBrokerOrderLifecycleStatus status filled remaining in
  if deref_true deactivated &&
     ((base =s OrderLifecycleInactive) || negb (orderLifecycleStatusIsTerminal base)) &&
     (base <>s OrderLifecyclePendingCancel)
  then OrderLifecycleDeactivated
  else base.

(** brokerOrderStatusIsUncertainPending *)
Definition brokerOrderStatusIsUncertainPending (status : string) : bool :=
  EqualFold (TrimSpace status) "ApiPending".

(** The action-kind switch of a send-completed event. *)
Definition sendCompletedLifecycle (action : ActionKind) : string :=
  if (action =s ActionCancel) || (action =s ActionSmokeCleanup) then OrderLifecyclePendingCancel
  else if action =s ActionModify then OrderLifecycleSubmitted
  else OrderLifecyclePendingSubmit.

Definition isPlaceOrExercise (action : ActionKind) : bool :=
  (action =s ActionPlace) || (action =s ActionExercise).

(** mapOrderJournalLifecycleStatus *)
Definition mapOrderJournalLifecycleStatus (ev : orderJournalEvent) : string :=
  if (e_Type ev =s orderJournalEventSendError) &&
     (e_SendDisposition ev =s SendDispositionDefinitelyUnsent) &&
     isPlaceOrExercise (e_ActionKind ev)
  then OrderLifecycleRejected
  else if e_Type ev =s orderJournalEventBrokerError
  then mapBrokerErrorLifecycleStatus (e_ErrorCode ev) (e_Status ev)
  else if e_Status ev <>s "" then
    mapBrokerOrderLifecycleWithDeactivation (e_Status ev) (e_Filled ev) (e_Remaining ev)
      (e_Deactivated ev)
  else
    let t := e_Type ev in
    if (t =s orderJournalEventPreviewed) || (t =s orderJournalEventTokenConfirmed)
    then OrderLifecyclePreviewed
    else if t =s orderJournalEventSendAttempted then OrderLifecyclePendingSubmit
    else if t =s orderJournalEventSendCompleted then sendCompletedLifecycle (e_ActionKind ev)
    else if t =s orderJournalEventBrokerAcknowledged then OrderLifecycleSubmitted
    else if t =s orderJournalEventModifyRequested then OrderLifecycleSubmitted
    else if t =s orderJournalEventCancelRequested then OrderLifecyclePendingCancel
    else if t =s orderJournalEventReconciledUnknown then OrderLifecycleUnknownReconcileRequired
    else if t =s orderJournalEventReconciledAbsent then OrderLifecycleClosedReconciled
    else if e_SendState ev =s orderSendStateUncertainSend
    then OrderLifecycleUnknownReconcileRequired
    else OrderLifecyclePreviewed.

(** mapOrderViewLifecycleStatus *)
Definition mapOrderViewLifecycleStatus
    (view : OrderView) (last : orderJournalEvent) (attemptUncertain : bool) : string :=
  let viewStatus :=
    mapBrokerOrderLifecycleWithDeactivation (v_Status view) (v_Filled view) (v_Remaining view)
      (v_Deactivated view) in
  if e_Type last =s orderJournalEventReconciledAbsent then OrderLifecycleClosedReconciled
  else if e_Type last =s orderJournalEventBrokerError then
    let status := mapBrokerErrorLifecycleStatus (e_ErrorCode last) (e_Status last) in
    if status =s OrderLifecycleInactive then status
    else if v_SendState view =s orderSendStateUncertainSend
    then OrderLifecycleUnknownReconcileRequired
    else if orderLifecycleStatusIsTerminal status then status
    else if (v_Status view <>s "") && (v_SendState view =s orderSendStateBrokerAcknowledged)
    then viewStatus
    else OrderLifecycleUnknownReconcileRequired
  else if (e_Type last =s orderJournalEventSendError) &&
          (e_SendDisposition last =s SendDispositionDefinitelyUnsent) &&
          isPlaceOrExercise (e_ActionKind last)
  then OrderLifecycleRejected
  else if attemptUncertain then OrderLifecycleUnknownReconcileRequired
  else if (e_Type last =s orderJournalEventSendCompleted) &&
          ((e_ActionKind last =s ActionCancel) || (e_ActionKind last =s ActionSmokeCleanup))
  then OrderLifecyclePendingCancel
  else if v_Status view <>s "" then viewStatus
  else
    let t := v_LastEvent view in
    if (t =s orderJournalEventPreviewed) || (t =s orderJournalEventTokenConfirmed)
    then OrderLifecyclePreviewed
    else if t =s orderJournalEventSendAttempted then OrderLifecyclePendingSubmit
    else if t =s orderJournalEventSendCompleted then sendCompletedLifecycle (e_ActionKind last)
    else if t =s orderJournalEventBrokerAcknowledged then OrderLifecycleSubmitted
    else if t =s orderJournalEventModifyRequested then OrderLifecycleSubmitted
    else if t =s orderJournalEventCancelRequested then OrderLifecyclePendingCancel
    else if t =s orderJournalEventBrokerError then OrderLifecycleUnknownReconcileRequired
    else if t =s orderJournalEventReconciledUnknown then OrderLifecycleUnknownReconcileRequired
    else if v_SendState view =s orderSendStateUncertainSend
    then OrderLifecycleUnknownReconcileRequired
    else OrderLifecyclePreviewed.

(** orderJournalEventStartsAttempt *)
Definition orderJournalEventStartsAttempt (ev : orderJournalEvent) : bool :=
  if (e_AttemptID ev =s "") || (e_ActionKind ev =s "") then false
  else if e_Type ev =s orderJournalEventSendAttempted then
    one_of (e_ActionKind ev) [ActionPlace; ActionExercise; ActionPurge; ActionRestore]
  else if e_Type ev =s orderJournalEventModifyRequested then e_ActionKind ev =s ActionModify
  else if e_Type ev =s orderJournalEventCancelRequested then
    (e_ActionKind ev =s ActionCancel) || (e_ActionKind ev =s ActionSmokeCleanup)
  else false.

(** orderJournalEventIsTerminal *)
Definition orderJournalEventIsTerminal (ev : orderJournalEvent) : bool :=
  if e_Type ev =s orderJournalEventReconciledAbsent then true
  else if e_Type ev =s orderJournalEventBrokerError then
    orderLifecycleStatusIsTerminal (mapBrokerErrorLifecycleStatus (e_ErrorCode ev) (e_Status ev))
  else if (e_Type ev =s orderJournalEventStatusUpdated) ||
          (e_Type ev =s orderJournalEventBrokerAcknowledged) then
    orderLifecycleStatusIsTerminal (mapOrderJournalLifecycleStatus ev)
  else e_SendState ev =s orderSendStateTerminal.

(** orderViewIsOpen *)
Definition orderViewIsOpen (view : OrderView) : bool :=
  if v_SendState view =s orderSendStateTerminal then false
  else if orderLifecycleStatusIsTerminal (v_LifecycleStatus view) then false
  else if one_of (v_LastEvent view)
    [orderJournalEventSendAttempted; orderJournalEventBrokerAcknowledged;
     orderJournalEventStatusUpdated; orderJournalEventModifyRequested;
     orderJournalEventCancelRequested; orderJournalEventBrokerError;
     orderJournalEventReconciledUnknown] then true
  else one_of (v_SendState view)
    [orderSendStateReserved; orderSendStateSendAttempted; orderSendStateBrokerAcknowledged;
     orderSendStateUncertainSend].

(** orderViewBrokerConfirmedForWrite *)
Definition orderViewBrokerConfirmedForWrite (view : OrderView) : bool :=
  if v_SendState view <>s orderSendStateBrokerAcknowledged then false
  else one_of (v_LifecycleStatus view)
    [OrderLifecycleSubmitted; OrderLifecyclePreSubmitted; OrderLifecyclePartiallyFilled].

(** positiveFinite *)
Definition positiveFinite (v : float64) : bool := (v >f f0) && negb (IsNaN v) && negb (IsInf v).

(** orderViewModifyEligible *)
Definition orderViewModifyEligible (view : OrderView) : bool :=
  let linked := present (v_EntryLink view) in
  if present (v_AttachedStop view) ||
     (linked && (v_EntryState view <>s "active")) then false
  else if negb (v_Open view) || (v_ReservedOrderID view <=? 0) ||
          negb (orderViewBrokerConfirmedForWrite view) ||
          (v_LifecycleStatus view =s OrderLifecyclePendingCancel) ||
          (negb (EqualFold (v_SecType view) "STK") && negb (EqualFold (v_SecType view) "OPT"))
  then false
  else
    let t := ToUpper (TrimSpace (v_OrderType view)) in
    if t =s "STP" then
      linked && (v_EntryState view =s "active") && (v_TIF view =s "GTC") &&
      (v_TriggerMethod view =? 2) && negb (v_OutsideRTH view) &&
      positiveFinite (v_FixedStopPrice view)
    else if t =s OrderTypeLMT then EqualFold (v_TIF view) OrderTIFDay
    else if (t =s OrderTypeTRAIL) || (t =s OrderTypeTRAILLIMIT) then
      EqualFold (v_TIF view) OrderTIFDay || EqualFold (v_TIF view) OrderTIFGTC
    else false.

(** orderViewCancelEligibleWithAttemptTruth *)
Definition orderViewCancelEligibleWithAttemptTruth (view : OrderView) (attemptUncertain : bool) : bool :=
  if negb (v_Open view) || (v_ReservedOrderID view <=? 0) ||
     (v_LifecycleStatus view =s OrderLifecyclePendingCancel) then false
  else if attemptUncertain then true
  else orderViewBrokerConfirmedForWrite view.

(** orderOriginForRead *)
Definition orderOriginForRead (origin : string) : string :=
  if one_of origin
       [OrderOriginAgent; OrderOriginHumanTTY; OrderOriginPairedDevice;
        OrderOriginDaemonPreAuthorised; OrderOriginDaemonOwnerQueued;
        OrderOriginDaemonProtectiveGuard; OrderOriginDeskAutomatic]
  then origin else "".

(** orderJournalEventPlacesWithOrigin *)
Definition orderJournalEventPlacesWithOrigin (ev : orderJournalEvent) : bool :=
  if (e_Type ev <>s orderJournalEventSendAttempted) || (e_Origin ev =s "") then false
  else one_of (e_ActionKind ev) [""; ActionPlace; ActionExercise; ActionPurge; ActionRestore].

(** orderJournalEventCarriesZeroRemaining *)
Definition orderJournalEventCarriesZeroRemaining (ev : orderJournalEvent) : bool :=
  if e_Remaining ev <>f f0 then true
  else EqualFold (e_Status ev) "Filled" ||
       (EqualFold (e_Status ev) "Cancelled" && (e_Filled ev =f e_Quantity ev) &&
        (e_Quantity ev >f f0)).

(** brokerErrorShouldPreserveWorkingOrder *)
Definition brokerErrorShouldPreserveWorkingOrder (view : OrderView) (ev : orderJournalEvent) : bool :=
  if e_Type ev <>s orderJournalEventBrokerError then false
  else if one_of (mapBrokerErrorLifecycleStatus (e_ErrorCode ev) (e_Status ev))
            [OrderLifecycleFilled; OrderLifecycleCancelled; OrderLifecycleInactive] then false
  else (v_LastEvent view =s orderJournalEventModifyRequested) ||
       (v_LastEvent view =s orderJournalEventCancelRequested).

#[global] Arguments mapBrokerErrorLifecycleStatus : simpl never.
#[global] Arguments mapBrokerOrderLifecycleStatus : simpl never.
#[global] Arguments orderLifecycleStatusIsTerminal : simpl never.
#[global] Arguments mapBrokerOrderLifecycleWithDeactivation : simpl never.
#[global] Arguments mapOrderJournalLifecycleStatus : simpl never.
#[global] Arguments mapOrderViewLifecycleStatus : simpl never.
#[global] Arguments orderJournalEventStartsAttempt : simpl never.
#[global] Arguments orderJournalEventIsTerminal : simpl never.
#[global] Arguments orderViewIsOpen : simpl never.
#[global] Arguments orderViewBrokerConfirmedForWrite : simpl never.
#[global] Arguments orderViewModifyEligible : simpl never.
#[global] Arguments orderViewCancelEligibleWithAttemptTruth : simpl never.
#[global] Arguments orderJournalEventCarriesZeroRemaining : simpl never.
#[global] Arguments brokerErrorShouldPreserveWorkingOrder : simpl never.
#[global] Arguments orderJournalEventPlacesWithOrigin : simpl never.
#[global] Arguments positiveFinite : simpl never.
#[global] Arguments sendCompletedLifecycle : simpl never.
#[global] Arguments isPlaceOrExercise : simpl never.

(** ** Facts about the classifiers *)

Lemma brokerError_zero_code status :
  mapBrokerErrorLifecycleStatus 0 status = OrderLifecycleUnknownReconcileRequired.
Proof. reflexivity. Qed.

(** The codomain of the broker-error classifier: three final verdicts or
    "unknown"; it never claims a working state. *)
Lemma mapBrokerError_cases code status :
  In (mapBrokerErrorLifecycleStatus code status)
    [OrderLifecycleRejected; OrderLifecycleCancelled; OrderLifecycleInactive;
     OrderLifecycleFilled; OrderLifecycleUnknownReconcileRequired].
Proof.
  unfold mapBrokerErrorLifecycleStatus. repeat case_if; simpl; tauto.
Qed.

Lemma deactivated_not_terminal : orderLifecycleStatusIsTerminal OrderLifecycleDeactivated = false.
Proof. reflexivity. Qed.

(** The codomain of the status classifier. *)
Lemma mapBrokerOrder_cases status filled remaining :
  In (mapBrokerOrderLifecycleStatus status filled remaining)
    [OrderLifecyclePendingCancel; OrderLifecyclePendingSubmit; OrderLifecyclePreSubmitted;
     OrderLifecyclePartiallyFilled; OrderLifecycleSubmitted; OrderLifecycleFilled;
     OrderLifecycleCancelled; OrderLifecycleInactive; OrderLifecycleRejected;
     OrderLifecycleUnknownReconcileRequired].
Proof.
  unfold mapBrokerOrderLifecycleStatus. repeat case_if; simpl; tauto.
Qed.
