(* ===== verification/OrderFold.v ===== *)
(** * The order-journal fold

    One order's journal events, in event-sequence order, reduced to its product
    row: [mergeOrderJournalEventIntoView] and the [orderViewFold] state machine
    of src/internal/daemon/order_read_model.go.  A fold keeps the row, the last
    merged event, the open send attempts by attempt id, and two latches
    ([fold_terminal], [fold_definitiveTerminal]). *)

From stdpp Require Import base decidable list strings gmap.
From Stdlib Require Import ZArith Lia String.
From S2P Require Import Prelude OrderTypes OrderStatus.

(** ** Merging one event into a row *)

(** [if ev.X != "" { view.X = ev.X }] and its int, float and pointer forms. *)
Definition over_s (old new : string) : string := if new <>s "" then new else old.
Definition over_z (old new : Z) : Z := if negb (new =? 0) then new else old.
Definition over_f (old new : float64) : float64 := if new <>f f0 then new else old.
Definition over_o {A} (old new : option A) : option A := match new with Some _ => new | None => old end.
(** [if view.X == "" { view.X = ev.X }]: the first writer wins. *)
Definition first_s (old new : string) : string := if old =s "" then new else old.

(** The send state and last error code after a broker error or another event. *)
Definition mergedSendState (view : OrderView) (ev : orderJournalEvent) : string :=
  if e_Type ev =s orderJournalEventBrokerError then
    let status := mapBrokerErrorLifecycleStatus (e_ErrorCode ev) (e_Status ev) in
    let preserve := brokerErrorShouldPreserveWorkingOrder view ev in
    if preserve && (status =s OrderLifecycleUnknownReconcileRequired) &&
       (v_SendState view =s orderSendStateBrokerAcknowledged) then v_SendState view
    else if preserve then orderSendStateUncertainSend
    else if orderLifecycleStatusIsTerminal status then orderSendStateTerminal
    else orderSendStateUncertainSend
  else over_s (v_SendState view) (e_SendState ev).

Definition mergedStatus (view : OrderView) (ev : orderJournalEvent) : string :=
  if (e_Status ev <>s "") && negb (brokerErrorShouldPreserveWorkingOrder view ev) &&
     ((e_Type ev <>s orderJournalEventBrokerError) ||
      orderLifecycleStatusIsTerminal
        (mapBrokerErrorLifecycleStatus (e_ErrorCode ev) (e_Status ev)))
  then e_Status ev else v_Status view.

Definition mergedAdaptivePriority (view : OrderView) (ev : orderJournalEvent) : string :=
  if one_of (e_Type ev) [orderJournalEventPreviewed; orderJournalEventSendAttempted;
                         orderJournalEventModifyRequested] ||
     ((e_Type ev =s orderJournalEventBrokerAcknowledged) && e_AlgoKnown ev)
  then e_AdaptivePriority ev else v_AdaptivePriority view.

(** mergeOrderJournalEventIntoView *)
Definition mergeOrderJournalEventIntoView (view : OrderView) (ev : orderJournalEvent) : OrderView :=
  let isAck := e_Type ev =s orderJournalEventBrokerAcknowledged in
  let link := over_o (e_EntryLink ev) (v_EntryLink view) in
  {| v_AttachedStop := over_o (e_AttachedStop ev) (v_AttachedStop view);
     v_EntryLink := link;
     v_FixedStopPrice :=
       if (e_FixedStopPrice ev >f f0) ||
          (isAck && present link)
       then e_FixedStopPrice ev else v_FixedStopPrice view;
     v_BrokerParentID := over_o (v_BrokerParentID view) (e_BrokerParentID ev);
     v_EntryState := v_EntryState view;
     v_Deactivated := over_o (v_Deactivated view) (e_Deactivated ev);
     v_AlgoStrategy := if isAck then e_AlgoStrategy ev else v_AlgoStrategy view;
     v_AlgoKnown := if isAck then e_AlgoKnown ev else v_AlgoKnown view;
     v_AdaptivePriority := mergedAdaptivePriority view ev;
     v_OrderRef := first_s (v_OrderRef view) (e_OrderRef ev);
     v_PreviewTokenID := first_s (v_PreviewTokenID view) (e_PreviewTokenID ev);
     v_ReservedOrderID := over_z (v_ReservedOrderID view) (e_ReservedOrderID ev);
     v_ClientID := over_z (v_ClientID view) (e_ClientID ev);
     v_PermID := over_z (v_PermID view) (e_PermID ev);
     v_Account := over_s (v_Account view) (e_Account ev);
     v_Endpoint := over_s (v_Endpoint view) (e_Endpoint ev);
     v_Mode := over_s (v_Mode view) (e_Mode ev);
     v_Source := over_s (v_Source view) (e_Source ev);
     v_PurgeID := over_s (v_PurgeID view) (e_PurgeID ev);
     v_LegID := over_s (v_LegID view) (e_LegID ev);
     v_BypassPreview := e_BypassPreview ev || v_BypassPreview view;
     v_Symbol := over_s (v_Symbol view) (e_Symbol ev);
     v_SecType := over_s (v_SecType view) (e_SecType ev);
     v_ConID := over_z (v_ConID view) (e_ConID ev);
     v_Exchange := over_s (v_Exchange view) (e_Exchange ev);
     v_PrimaryExch := over_s (v_PrimaryExch view) (e_PrimaryExch ev);
     v_Currency := over_s (v_Currency view) (e_Currency ev);
     v_LocalSymbol := over_s (v_LocalSymbol view) (e_LocalSymbol ev);
     v_TradingClass := over_s (v_TradingClass view) (e_TradingClass ev);
     v_Expiry := over_s (v_Expiry view) (e_Expiry ev);
     v_Strike := over_f (v_Strike view) (e_Strike ev);
     v_Right := over_s (v_Right view) (e_Right ev);
     v_Multiplier := over_z (v_Multiplier view) (e_Multiplier ev);
     v_Action := over_s (v_Action view) (e_Action ev);
     v_OrderType := over_s (v_OrderType view) (e_OrderType ev);
     v_TIF := over_s (v_TIF view) (e_TIF ev);
     v_TriggerMethod := over_z (v_TriggerMethod view) (e_TriggerMethod ev);
     v_OutsideRTH := e_OutsideRTH ev || v_OutsideRTH view;
     v_Quantity := over_f (v_Quantity view) (e_Quantity ev);
     v_LimitPrice := over_f (v_LimitPrice view) (e_LimitPrice ev);
     v_Trail := over_o (v_Trail view) (e_Trail ev);
     v_OpenClose := over_s (v_OpenClose view) (e_OpenClose ev);
     v_OCAGroup := if e_OCAGroup ev <>s "" then e_OCAGroup ev else v_OCAGroup view;
     v_OCAType := if e_OCAGroup ev <>s "" then e_OCAType ev else v_OCAType view;
     v_Status := mergedStatus view ev;
     v_LifecycleStatus := v_LifecycleStatus view;
     v_Filled := over_f (v_Filled view) (e_Filled ev);
     v_Remaining :=
       if (e_Remaining ev <>f f0) || orderJournalEventCarriesZeroRemaining ev
       then e_Remaining ev else v_Remaining view;
     v_AvgFillPrice := over_f (v_AvgFillPrice view) (e_AvgFillPrice ev);
     v_LastFillPrice := over_f (v_LastFillPrice view) (e_LastFillPrice ev);
     v_WhyHeld :=
       if (e_WhyHeld ev <>s "") || isAck ||
          ((e_Type ev =s orderJournalEventStatusUpdated) && (e_Status ev <>s "Execution"))
       then e_WhyHeld ev else v_WhyHeld view;
     v_MktCapPrice := over_f (v_MktCapPrice view) (e_MktCapPrice ev);
     v_SendState := mergedSendState view ev;
     v_LastEvent := e_Type ev;
     v_LastErrorCode := if e_Type ev =s orderJournalEventBrokerError then e_ErrorCode ev else 0;
     v_LastMessage := over_s (v_LastMessage view) (e_Message ev);
     v_ReconciliationState := v_ReconciliationState view;
     v_ReconciliationKind := v_ReconciliationKind view;
     v_ReconciliationSeverity := v_ReconciliationSeverity view;
     v_ShortRiskQuantity := v_ShortRiskQuantity view;
     v_ReduceToQuantity := v_ReduceToQuantity view;
     v_BrokerTruthAsOf := v_BrokerTruthAsOf view;
     v_UpdatedAt := if IsZero (e_At ev) then v_UpdatedAt view else e_At ev;
     v_Open := v_Open view;
     v_ModifyEligible := v_ModifyEligible view;
     v_CancelEligible := v_CancelEligible view;
     v_Origin :=
       if (v_Origin view =s "") && orderJournalEventPlacesWithOrigin ev
       then orderOriginForRead (e_Origin ev) else v_Origin view |}.

(** ** Acknowledgement matching *)

Definition f_1e9 : float64 := f_const 1 1000000000.
(** [math.Abs(x - y) <= 1e-9] *)
Definition f_close (x y : float64) : bool := fabs (fsub x y) <=f f_1e9.

Definition f_close_opt (x y : option float64) : bool :=
  match x, y with
  | None, None => true
  | Some a, Some b => f_close a b
  | _, _ => false
  end.

(** trailSpecsEquivalent *)
Definition trailSpecsEquivalent (a b : option OrderTrailSpec) : bool :=
  match a, b with
  | None, None => true
  | Some x, Some y =>
      f_close_opt (t_TrailingAmount x) (t_TrailingAmount y) &&
      f_close_opt (t_TrailingPercent x) (t_TrailingPercent y) &&
      f_close_opt (t_LimitOffset x) (t_LimitOffset y) &&
      f_close (t_InitialStopPrice x) (t_InitialStopPrice y)
  | _, _ => false
  end.

(** orderModifyAcknowledgementTrailMatches *)
Definition orderModifyAcknowledgementTrailMatches (intent ack : option OrderTrailSpec) : bool :=
  match intent, ack with
  | None, None => true
  | Some x, Some y =>
      EqualFold (TrimSpace (t_Basis x)) (TrimSpace (t_Basis y)) &&
      EqualFold (TrimSpace (t_OffsetType x)) (TrimSpace (t_OffsetType y)) &&
      trailSpecsEquivalent intent ack
  | _, _ => false
  end.

(** orderAlgorithmMatches (order_write_helpers.go) *)
Definition orderAlgorithmMatches
    (expectedPriority observedPriority observedStrategy : string) (known : bool) : bool :=
  if expectedPriority <>s observedPriority then false
  else if expectedPriority <>s "" then known && (observedStrategy =s "Adaptive")
  else observedStrategy =s "".

(** orderModifyAcknowledgementMatches *)
Definition orderModifyAcknowledgementMatches (intent ack : orderJournalEvent) : bool :=
  let equalText a b := EqualFold (TrimSpace a) (TrimSpace b) in
  if (e_Type intent <>s orderJournalEventModifyRequested) ||
     (e_Type ack <>s orderJournalEventBrokerAcknowledged) then false
  else if match e_EntryLink intent with
          | Some l =>
              match e_BrokerParentID ack with
              | None => true
              | Some p => negb (p =? el_ParentID l)
              end || (e_FixedStopPrice intent <>f e_FixedStopPrice ack)
          | None => false
          end then false
  else
    equalText (e_Action intent) (e_Action ack) &&
    equalText (e_OrderType intent) (e_OrderType ack) &&
    equalText (e_TIF intent) (e_TIF ack) &&
    orderAlgorithmMatches (e_AdaptivePriority intent) (e_AdaptivePriority ack)
      (e_AlgoStrategy ack) (e_AlgoKnown ack) &&
    (e_TriggerMethod intent =? e_TriggerMethod ack) &&
    Bool.eqb (e_OutsideRTH intent) (e_OutsideRTH ack) &&
    f_close (e_Quantity intent) (e_Quantity ack) &&
    f_close (e_LimitPrice intent) (e_LimitPrice ack) &&
    orderModifyAcknowledgementTrailMatches (e_Trail intent) (e_Trail ack).

(** ** The fold *)

Record orderAttemptFold := mkAttempt {
  at_action : ActionKind;
  at_intent : orderJournalEvent;
  at_before : OrderView;
  at_beforeLast : orderJournalEvent;
  at_completed : bool;
  at_resolved : bool;
  at_uncertain : bool
}.
#[global] Instance orderAttemptFold_eta : Eta orderAttemptFold := fun r =>
  mkAttempt (at_action r) (at_intent r) (at_before r) (at_beforeLast r) (at_completed r)
    (at_resolved r) (at_uncertain r).

Record orderViewFold := mkFold {
  fold_view : OrderView;
  fold_last : orderJournalEvent;
  fold_attempts : gmap string orderAttemptFold;
  fold_terminal : bool;
  fold_definitiveTerminal : bool
}.
#[global] Instance orderViewFold_eta : Eta orderViewFold := fun r =>
  mkFold (fold_view r) (fold_last r) (fold_attempts r) (fold_terminal r)
    (fold_definitiveTerminal r).

(** [&orderViewFold{attempts: make(...)}] *)
Definition emptyFold : orderViewFold :=
  mkFold zero_OrderView zero_orderJournalEvent ∅ false false.

(** Merge the event into the row and make it the last one. *)
Definition advance (f : orderViewFold) (ev : orderJournalEvent) : orderViewFold :=
  f <| fold_view := mergeOrderJournalEventIntoView (fold_view f) ev |> <| fold_last := ev |>.

Definition put_attempt (f : orderViewFold) (id : string) (a : orderAttemptFold) : orderViewFold :=
  f <| fold_attempts := <[id := a]> (fold_attempts f) |>.

(** resolveAttempts *)
Definition resolveAttempts (f : orderViewFold) (actions : list ActionKind) : orderViewFold :=
  f <| fold_attempts :=
    (fun a => if one_of (at_action a) actions
              then a <| at_resolved := true |> <| at_uncertain := false |> else a)
    <$> fold_attempts f |>.

(** resolveMatchingModifyAttempt *)
Definition resolveMatchingModifyAttempt (f : orderViewFold) (ack : orderJournalEvent) : orderViewFold :=
  f <| fold_attempts :=
    (fun a => if (at_action a <>s ActionModify) || at_resolved a ||
                 negb (orderModifyAcknowledgementMatches (at_intent a) ack) then a
              else a <| at_resolved := true |> <| at_uncertain := false |>)
    <$> fold_attempts f |>.

(** A callback that omits the flag cannot clear explicit deactivation evidence. *)
Definition inheritDeactivation (f : orderViewFold) (ev : orderJournalEvent) : orderJournalEvent :=
  if ((e_Type ev =s orderJournalEventStatusUpdated) ||
      (e_Type ev =s orderJournalEventBrokerAcknowledged)) &&
     negb (present (e_Deactivated ev))
  then
    let ev' := ev <| e_Deactivated := v_Deactivated (fold_view f) |> in
    if deref_true (e_Deactivated ev') &&
       negb (orderLifecycleStatusIsTerminal (mapOrderJournalLifecycleStatus ev'))
    then ev' <| e_SendState := orderSendStateBrokerAcknowledged |>
    else ev'
  else ev.

(** Only an explicit later openOrder corrects a status-only Inactive. *)
Definition reopenRetained (f : orderViewFold) (ev : orderJournalEvent) : orderViewFold :=
  if fold_terminal f && negb (fold_definitiveTerminal f) &&
     (e_Type ev =s orderJournalEventBrokerAcknowledged) && deref_true (e_Deactivated ev) &&
     EqualFold (v_Status (fold_view f)) "Inactive"
  then f <| fold_terminal := false |> else f.

Definition isSendOutcome (ev : orderJournalEvent) : bool :=
  (e_AttemptID ev <>s "") &&
  ((e_Type ev =s orderJournalEventSendCompleted) || (e_Type ev =s orderJournalEventSendError)).

(** The local send outcome of one attempt. *)
Definition mergeSendOutcome (f : orderViewFold) (ev : orderJournalEvent) : orderViewFold :=
  let id := e_AttemptID ev in
  let found :=
    match fold_attempts f !! id with
    | Some a => a
    | None => mkAttempt (e_ActionKind ev) zero_orderJournalEvent (fold_view f) (fold_last f)
                false false true
    end in
  let a := if at_action found <>s e_ActionKind ev then found <| at_uncertain := true |> else found in
  let f := put_attempt f id a in
  if at_resolved a || fold_terminal f then f
  else if e_Type ev =s orderJournalEventSendCompleted then
    advance (put_attempt f id (a <| at_completed := true |>)) ev
  else if e_SendDisposition ev =s SendDispositionDefinitelyUnsent then
    let f := put_attempt f id (a <| at_resolved := true |>) in
    if isPlaceOrExercise (at_action a) then
      let g := advance f ev in
      g <| fold_view := (fold_view g) <| v_SendState := orderSendStateTerminal |> |>
    else
      f <| fold_view :=
             if e_Message ev <>s ""
             then (at_before a) <| v_LastMessage := e_Message ev |> else at_before a |>
        <| fold_last := at_beforeLast a |>
  else advance (put_attempt f id (a <| at_uncertain := true |>)) ev.

(** Every other event: broker evidence, previews, reconciliation. *)
Definition mergeEvidence (f : orderViewFold) (ev : orderJournalEvent) : orderViewFold :=
  let f := advance f ev in
  if orderJournalEventIsTerminal ev then
    let f :=
      if (e_Type ev =s orderJournalEventBrokerError) ||
         (mapOrderJournalLifecycleStatus ev <>s OrderLifecycleInactive)
      then f <| fold_definitiveTerminal := true |> else f in
    f <| fold_terminal := true |>
      <| fold_attempts := (fun a => a <| at_resolved := true |>) <$> fold_attempts f |>
  else if e_Type ev =s orderJournalEventBrokerAcknowledged then
    resolveMatchingModifyAttempt (resolveAttempts f [ActionPlace]) ev
  else if (e_Type ev =s orderJournalEventStatusUpdated) &&
          EqualFold (TrimSpace (e_Status ev)) "PendingCancel"
  then resolveAttempts f [ActionCancel; ActionSmokeCleanup]
  else f.

(** (orderViewFold).merge *)
Definition fold_merge (f : orderViewFold) (ev0 : orderJournalEvent) : orderViewFold :=
  let ev := inheritDeactivation f ev0 in
  let f := reopenRetained f ev in
  if fold_terminal f && negb (orderJournalEventIsTerminal ev) then f
  else if orderJournalEventStartsAttempt ev then
    advance (put_attempt f (e_AttemptID ev)
               (mkAttempt (e_ActionKind ev) ev (fold_view f) (fold_last f) false false false)) ev
  else if isSendOutcome ev then mergeSendOutcome f ev
  else mergeEvidence f ev.

Definition fold_events (f : orderViewFold) (evs : list orderJournalEvent) : orderViewFold :=
  fold_left fold_merge evs f.

Definition attempt_open (a : orderAttemptFold) : bool :=
  negb (at_resolved a || (at_completed a && negb (at_uncertain a))).

Definition has_open_attempt (m : gmap string orderAttemptFold) : bool :=
  existsb (fun p => attempt_open p.2) (map_to_list m).

(** (orderViewFold).finish *)
Definition fold_finish (f : orderViewFold) : OrderView * orderJournalEvent * bool :=
  if negb (fold_terminal f) && has_open_attempt (fold_attempts f) then
    ((fold_view f) <| v_SendState := orderSendStateUncertainSend |>, fold_last f, true)
  else (fold_view f, fold_last f, false).

(** The per-key part of buildOrderViews: finish, classify, and gate writes. *)
Definition publish (f : orderViewFold) : OrderView :=
  let '(view, last, attemptUncertain) := fold_finish f in
  let view := view <| v_LifecycleStatus := mapOrderViewLifecycleStatus view last attemptUncertain |> in
  let view := view <| v_Open := orderViewIsOpen view |> in
  let view := view <| v_ModifyEligible := orderViewModifyEligible view |> in
  view <| v_CancelEligible := orderViewCancelEligibleWithAttemptTruth view attemptUncertain |>.

(** The product row of one order's event sequence. *)
Definition order_row (evs : list orderJournalEvent) : OrderView := publish (fold_events emptyFold evs).

#[global] Arguments mergedSendState : simpl never.
#[global] Arguments mergedStatus : simpl never.
#[global] Arguments mergedAdaptivePriority : simpl never.
#[global] Arguments orderModifyAcknowledgementMatches : simpl never.
#[global] Arguments f_close : simpl never.
#[global] Arguments has_open_attempt : simpl never.
#[global] Arguments attempt_open : simpl never.
