(* ===== verification/OrderFoldFacts.v ===== *)
(** * Theorems about the order-journal fold

    What a row may claim: broker finality is permanent, a proven-unsent change
    leaves the row as it was, an unanswered or ambiguous send is never reported
    as a working order, and writes are offered only on broker-acknowledged
    rows. *)

From stdpp Require Import base decidable list strings gmap.
From Stdlib Require Import ZArith Lia String.
From S2P Require Import Prelude OrderTypes OrderStatus OrderFold.

(** ** Attempts *)

Lemma has_open_attempt_true m :
  has_open_attempt m = true <-> exists id a, m !! id = Some a /\ attempt_open a = true.
Proof.
  unfold has_open_attempt. rewrite existsb_exists. split.
  - intros ([id a] & Hin & Ha). exists id, a. split; [|done].
    apply elem_of_map_to_list. by apply list_elem_of_In.
  - intros (id & a & Hl & Ha). exists (id, a). split; [|done].
    apply list_elem_of_In. by apply elem_of_map_to_list.
Qed.

Lemma has_open_attempt_false m :
  has_open_attempt m = false <-> forall id a, m !! id = Some a -> attempt_open a = false.
Proof.
  split.
  - intros H id a Hl. apply not_true_iff_false. intros Ha.
    assert (has_open_attempt m = true) by (apply has_open_attempt_true; eauto). congruence.
  - intros H. apply not_true_iff_false. rewrite has_open_attempt_true.
    intros (id & a & Hl & Ha). rewrite (H _ _ Hl) in Ha. done.
Qed.

Lemma has_open_attempt_insert_open id a m :
  attempt_open a = true -> has_open_attempt (<[id:=a]> m) = true.
Proof. intros H. apply has_open_attempt_true. exists id, a. by rewrite lookup_insert_eq. Qed.

(** A closed entry under a fresh id changes nothing. *)
Lemma has_open_attempt_insert_closed id a m :
  attempt_open a = false -> m !! id = None ->
  has_open_attempt (<[id:=a]> m) = has_open_attempt m.
Proof.
  intros Ha Hid. apply eq_true_iff_eq. rewrite !has_open_attempt_true. split.
  - intros (i & b & Hl & Hb). destruct (decide (id = i)) as [<-|Hne].
    + rewrite lookup_insert_eq in Hl. congruence.
    + rewrite lookup_insert_ne in Hl by done. eauto.
  - intros (i & b & Hl & Hb). exists i, b. split; [|done].
    rewrite lookup_insert_ne; [done|]. intros ->. congruence.
Qed.

(** ** Recognised broker statuses *)

(** The order-status vocabulary of the TWS API (and "Rejected", "Execution"). *)
Definition recognizedStatus (s : string) : bool :=
  one_of (ToLower (TrimSpace s))
    ["pendingcancel"; "pendingsubmit"; "presubmitted"; "apipending"; "submitted"; "filled";
     "cancelled"; "apicancelled"; "inactive"; "rejected"; "execution"].

Definition finalStatus (s : string) : bool :=
  one_of (ToLower (TrimSpace s)) ["filled"; "cancelled"; "apicancelled"; "rejected"].

(** On a recognised status, finality does not depend on the quantities. *)
Lemma recognized_terminal_indep s f1 r1 f2 r2 :
  recognizedStatus s = true ->
  orderLifecycleStatusIsTerminal (mapBrokerOrderLifecycleStatus s f1 r1) = true ->
  mapBrokerOrderLifecycleStatus s f2 r2 = mapBrokerOrderLifecycleStatus s f1 r1.
Proof.
  unfold recognizedStatus, mapBrokerOrderLifecycleStatus.
  generalize (ToLower (TrimSpace s)) as t. intros t Ht.
  apply one_of_true in Ht. simpl in Ht.
  repeat destruct Ht as [<-|Ht]; str_eval; cbn [orb]; try done.
  destruct ((f1 >f f0) && (r1 >f f0)); done.
Qed.

Lemma recognized_terminal_deactivation s f1 r1 f2 r2 d :
  recognizedStatus s = true ->
  orderLifecycleStatusIsTerminal (mapBrokerOrderLifecycleWithDeactivation s f1 r1 d) = true ->
  mapBrokerOrderLifecycleWithDeactivation s f2 r2 d =
  mapBrokerOrderLifecycleWithDeactivation s f1 r1 d.
Proof.
  intros Hs Ht. unfold mapBrokerOrderLifecycleWithDeactivation in *.
  case_if_in Ht; [rewrite deactivated_not_terminal in Ht; discriminate|].
  rewrite (recognized_terminal_indep s f1 r1 f2 r2 Hs Ht), Hc. done.
Qed.

Lemma final_recognized s : finalStatus s = true -> recognizedStatus s = true.
Proof.
  unfold finalStatus, recognizedStatus. rewrite !one_of_true. simpl. tauto.
Qed.

Lemma final_terminal s fl rm d :
  finalStatus s = true ->
  let l := mapBrokerOrderLifecycleWithDeactivation s fl rm d in
  orderLifecycleStatusIsTerminal l = true /\ l <> OrderLifecycleInactive.
Proof.
  unfold finalStatus, mapBrokerOrderLifecycleWithDeactivation, mapBrokerOrderLifecycleStatus.
  generalize (ToLower (TrimSpace s)) as t. intros t Ht.
  apply one_of_true in Ht. simpl in Ht.
  repeat destruct Ht as [<-|Ht]; try done; destruct (deref_true d); vm_compute; done.
Qed.

(** ** Well-formed journals

    What the writers of the journal guarantee about an event's send state:
    only broker evidence and reconciliation write "terminal"
    (orderJournalEventFromLifecycle, the reconcile sweep); and a broker
    status comes from the TWS vocabulary. *)
Definition isEvidenceType (t : string) : bool :=
  one_of t [orderJournalEventStatusUpdated; orderJournalEventBrokerAcknowledged;
            orderJournalEventBrokerError; orderJournalEventReconciledAbsent].

Definition wf_event (ev : orderJournalEvent) : bool :=
  (isEvidenceType (e_Type ev) || (e_SendState ev <>s orderSendStateTerminal)) &&
  (negb ((e_Type ev =s orderJournalEventStatusUpdated) ||
         (e_Type ev =s orderJournalEventBrokerAcknowledged)) ||
   (e_Status ev =s "") || recognizedStatus (e_Status ev)).

(** ** inheritDeactivation and reopenRetained *)

Lemma inherit_type f ev : e_Type (inheritDeactivation f ev) = e_Type ev.
Proof. unfold inheritDeactivation. repeat case_if; reflexivity. Qed.

Lemma inherit_status f ev : e_Status (inheritDeactivation f ev) = e_Status ev.
Proof. unfold inheritDeactivation. repeat case_if; reflexivity. Qed.

(** A status or openOrder event leaves the inheritance with the row's flag. *)
Lemma inherit_deactivated f ev :
  (e_Type ev =s orderJournalEventStatusUpdated) ||
  (e_Type ev =s orderJournalEventBrokerAcknowledged) = true ->
  over_o (v_Deactivated (fold_view f)) (e_Deactivated (inheritDeactivation f ev)) =
  e_Deactivated (inheritDeactivation f ev).
Proof.
  intros Ht. unfold inheritDeactivation. rewrite Ht. simpl.
  destruct (e_Deactivated ev) eqn:E; simpl; [by rewrite E|].
  case_if; simpl; by destruct (v_Deactivated (fold_view f)).
Qed.

Lemma inherit_other f ev :
  (e_Type ev =s orderJournalEventStatusUpdated) ||
  (e_Type ev =s orderJournalEventBrokerAcknowledged) = false ->
  inheritDeactivation f ev = ev.
Proof. intros Ht. unfold inheritDeactivation. by rewrite Ht. Qed.

Lemma reopen_definitive f ev : fold_definitiveTerminal f = true -> reopenRetained f ev = f.
Proof. intros H. unfold reopenRetained. by rewrite H, andb_false_r. Qed.

Lemma reopen_open f ev : fold_terminal f = false -> reopenRetained f ev = f.
Proof. intros H. unfold reopenRetained. by rewrite H. Qed.

Lemma reopen_view f ev : fold_view (reopenRetained f ev) = fold_view f.
Proof. unfold reopenRetained. case_if; reflexivity. Qed.

(** ** Finality *)

(** A fold whose broker finality is settled: later evidence cannot reopen it. *)
Record settled (f : orderViewFold) : Prop := {
  st_terminal : fold_terminal f = true;
  st_definitive : fold_definitiveTerminal f = true;
  st_lifecycle : orderLifecycleStatusIsTerminal
    (mapOrderViewLifecycleStatus (fold_view f) (fold_last f) false) = true;
  st_last : one_of (v_LastEvent (fold_view f))
    [orderJournalEventModifyRequested; orderJournalEventCancelRequested] = false
}.

(** Closed for every purpose: not open, final, no write offered. *)
Definition row_final (v : OrderView) : Prop :=
  v_Open v = false /\ orderLifecycleStatusIsTerminal (v_LifecycleStatus v) = true /\
  v_ModifyEligible v = false /\ v_CancelEligible v = false.

Lemma publish_final f :
  fold_terminal f = true ->
  orderLifecycleStatusIsTerminal
    (mapOrderViewLifecycleStatus (fold_view f) (fold_last f) false) = true ->
  row_final (publish f).
Proof.
  intros Ht Hl. unfold publish, fold_finish. rewrite Ht. cbn [negb andb].
  set (l := mapOrderViewLifecycleStatus _ _ _) in *.
  assert (Ho : orderViewIsOpen ((fold_view f) <| v_LifecycleStatus := l |>) = false).
  { unfold orderViewIsOpen. cbn. rewrite Hl. by case_if. }
  unfold row_final. rewrite Ho.
  split_and!; [reflexivity | exact Hl | | reflexivity].
  cbn. unfold orderViewModifyEligible. cbn. by case_if.
Qed.

Lemma settled_row_final f : settled f -> row_final (publish f).
Proof. intros []. by apply publish_final. Qed.

(** A final event merged as evidence makes the fold final. *)
Lemma mergeEvidence_terminal f ev :
  orderJournalEventIsTerminal ev = true ->
  fold_terminal (mergeEvidence f ev) = true /\
  fold_view (mergeEvidence f ev) = mergeOrderJournalEventIntoView (fold_view f) ev /\
  fold_last (mergeEvidence f ev) = ev /\
  (fold_definitiveTerminal f = true -> fold_definitiveTerminal (mergeEvidence f ev) = true).
Proof. intros Ht. unfold mergeEvidence. rewrite Ht. case_if; by split_and!. Qed.

(** The row's classification after a final status or openOrder callback is
    the event's own. *)
Lemma status_event_lifecycle f ev :
  let ev' := inheritDeactivation f ev in
  (e_Type ev =s orderJournalEventStatusUpdated) ||
  (e_Type ev =s orderJournalEventBrokerAcknowledged) = true ->
  (e_Status ev =s "") || recognizedStatus (e_Status ev) = true ->
  orderJournalEventIsTerminal ev' = true ->
  orderLifecycleStatusIsTerminal
    (mapOrderViewLifecycleStatus (mergeOrderJournalEventIntoView (fold_view f) ev') ev' false) = true.
Proof.
  intros ev' Hty Hst Hterm. subst ev'. set (ev' := inheritDeactivation f ev) in *.
  assert (Hd := inherit_deactivated f ev Hty). fold ev' in Hd.
  assert (Ht' : e_Type ev' = e_Type ev) by apply inherit_type.
  assert (Hs' : e_Status ev' = e_Status ev) by apply inherit_status.
  rewrite <- Ht' in Hty. rewrite <- Hs' in Hst.
  apply orb_true_iff in Hty. unfold orderJournalEventIsTerminal in Hterm.
  assert (Hm : orderLifecycleStatusIsTerminal (mapOrderJournalLifecycleStatus ev') = true).
  { destruct Hty as [E|E]; apply String.eqb_eq in E; rewrite E in Hterm; exact Hterm. }
  clear Hterm. unfold mapOrderJournalLifecycleStatus in Hm.
  destruct (e_Status ev' =s "") eqn:Hemp.
  { exfalso. destruct Hty as [E|E]; apply String.eqb_eq in E; rewrite E in Hm;
      cbn in Hm; [case_if_in Hm|]; discriminate. }
  cbn [orb] in Hst.
  assert (Hm2 : orderLifecycleStatusIsTerminal
    (mapBrokerOrderLifecycleWithDeactivation (e_Status ev') (e_Filled ev') (e_Remaining ev')
       (e_Deactivated ev')) = true).
  { destruct Hty as [E|E]; apply String.eqb_eq in E; rewrite E in Hm; exact Hm. }
  assert (Hmg : v_Status (mergeOrderJournalEventIntoView (fold_view f) ev') = e_Status ev').
  { cbn. unfold mergedStatus, brokerErrorShouldPreserveWorkingOrder. rewrite Hemp.
    destruct Hty as [E|E]; apply String.eqb_eq in E; rewrite E; reflexivity. }
  unfold mapOrderViewLifecycleStatus. rewrite Hmg, Hemp.
  replace (v_Deactivated (mergeOrderJournalEventIntoView (fold_view f) ev')) with (e_Deactivated ev')
    by (symmetry; exact Hd).
  erewrite recognized_terminal_deactivation by eassumption.
  destruct Hty as [E|E]; apply String.eqb_eq in E; rewrite E; exact Hm2.
Qed.

Lemma evidence_type_cases t :
  isEvidenceType t = true ->
  t = orderJournalEventStatusUpdated \/ t = orderJournalEventBrokerAcknowledged \/
  t = orderJournalEventBrokerError \/ t = orderJournalEventReconciledAbsent.
Proof. unfold isEvidenceType. rewrite one_of_true. simpl. intuition congruence. Qed.

(** Broker evidence and reconciliation take the [mergeEvidence] branch. *)
Lemma evidence_not_attempt ev :
  isEvidenceType (e_Type ev) = true ->
  orderJournalEventStartsAttempt ev = false /\ isSendOutcome ev = false.
Proof.
  intros H. apply evidence_type_cases in H.
  unfold orderJournalEventStartsAttempt, isSendOutcome.
  destruct H as [-> | [-> | [-> | ->]]]; str_eval; rewrite ?andb_false_r; by case_if.
Qed.

Lemma merge_evidence_branch f ev :
  isEvidenceType (e_Type ev) = true ->
  orderJournalEventIsTerminal (inheritDeactivation f ev) = true ->
  fold_merge f ev =
  mergeEvidence (reopenRetained f (inheritDeactivation f ev)) (inheritDeactivation f ev).
Proof.
  intros Hev Ht. unfold fold_merge. rewrite Ht, andb_false_r.
  destruct (evidence_not_attempt (inheritDeactivation f ev)) as [-> ->]; [|done].
  by rewrite inherit_type.
Qed.

(** A terminal event of a well-formed journal is broker evidence. *)
Lemma wf_terminal_is_evidence f ev :
  wf_event ev = true -> orderJournalEventIsTerminal (inheritDeactivation f ev) = true ->
  isEvidenceType (e_Type ev) = true.
Proof.
  intros Hwf Ht. apply andb_true_iff in Hwf as [Hwf _].
  destruct (isEvidenceType (e_Type ev)) eqn:He; [done|]. cbn in Hwf.
  unfold isEvidenceType, one_of in He. cbn in He. bool_hyps.
  rewrite inherit_other in Ht
    by (apply orb_false_iff; split; by apply String.eqb_neq).
  unfold orderJournalEventIsTerminal in Ht.
  repeat match goal with
  | H : e_Type ev <> ?t |- _ => apply String.eqb_neq in H; rewrite H in Ht; clear H
  end.
  cbn in Ht. bool_hyps. congruence.
Qed.

(** The row after one final evidence event, in a fold that is not waiting for a
    change request: it classifies as final. *)
Lemma final_evidence_lifecycle f ev :
  let ev' := inheritDeactivation f ev in
  isEvidenceType (e_Type ev) = true -> wf_event ev = true ->
  one_of (v_LastEvent (fold_view f))
    [orderJournalEventModifyRequested; orderJournalEventCancelRequested] = false ->
  orderJournalEventIsTerminal ev' = true ->
  orderLifecycleStatusIsTerminal
    (mapOrderViewLifecycleStatus (mergeOrderJournalEventIntoView (fold_view f) ev') ev' false) = true.
Proof.
  intros ev' Hev Hwf Hlast Ht.
  apply evidence_type_cases in Hev as [E|[E|[E|E]]].
  1,2: apply status_event_lifecycle; [by rewrite E | | done];
       apply andb_true_iff in Hwf as [_ Hwf]; rewrite E in Hwf; exact Hwf.
  - assert (ev' = ev) as -> by (apply inherit_other; by rewrite E).
    unfold orderJournalEventIsTerminal in Ht. rewrite E in Ht. cbn in Ht.
    unfold one_of in Hlast. cbn in Hlast.
    apply orb_false_iff in Hlast as [H1 H2]. apply orb_false_iff in H2 as [H2 _].
    assert (Hp : brokerErrorShouldPreserveWorkingOrder (fold_view f) ev = false).
    { unfold brokerErrorShouldPreserveWorkingOrder. rewrite E, H1, H2. cbn. by case_if. }
    unfold mapOrderViewLifecycleStatus. rewrite E. str_eval. cbn [v_SendState].
    assert (Hss : v_SendState (mergeOrderJournalEventIntoView (fold_view f) ev) =
                  orderSendStateTerminal).
    { cbn. unfold mergedSendState. rewrite E, Hp. cbn. by rewrite Ht. }
    rewrite Hss. str_eval. rewrite Ht. by case_if.
  - unfold mapOrderViewLifecycleStatus, ev'. rewrite inherit_type, E. reflexivity.
Qed.

Lemma settled_merge f ev : settled f -> wf_event ev = true -> settled (fold_merge f ev).
Proof.
  intros [Hterm Hdef Hl Hlast] Hwf.
  destruct (orderJournalEventIsTerminal (inheritDeactivation f ev)) eqn:Ht.
  - assert (Hev := wf_terminal_is_evidence f ev Hwf Ht).
    rewrite merge_evidence_branch by done. rewrite reopen_definitive by done.
    destruct (mergeEvidence_terminal f _ Ht) as (H1 & H2 & H3 & H4).
    split; [done | by apply H4 | rewrite H2, H3; by apply final_evidence_lifecycle |].
    rewrite H2. cbn. rewrite inherit_type.
    by apply evidence_type_cases in Hev as [-> | [-> | [-> | ->]]].
  - unfold fold_merge. rewrite reopen_definitive, Hterm, Ht by done. by split.
Qed.

Lemma settled_events f evs :
  settled f -> Forall (fun ev => wf_event ev = true) evs -> settled (fold_events f evs).
Proof.
  intros Hs Hwf. revert f Hs. induction Hwf as [|ev evs Hev _ IH]; intros f Hs; [done|].
  apply IH. by apply settled_merge.
Qed.

(** A filled, cancelled or rejected broker status settles any fold. *)
Lemma final_status_settles f ev :
  e_Type ev = orderJournalEventStatusUpdated -> finalStatus (e_Status ev) = true ->
  settled (fold_merge f ev).
Proof.
  intros E Hfin. set (ev' := inheritDeactivation f ev).
  assert (Hev : isEvidenceType (e_Type ev) = true) by (rewrite E; reflexivity).
  assert (Hne : (e_Status ev =s "") = false).
  { apply String.eqb_neq. intros Hz. rewrite Hz in Hfin. discriminate. }
  assert (Hm : mapOrderJournalLifecycleStatus ev' =
    mapBrokerOrderLifecycleWithDeactivation (e_Status ev) (e_Filled ev') (e_Remaining ev')
      (e_Deactivated ev')).
  { unfold mapOrderJournalLifecycleStatus, ev'. rewrite inherit_type, inherit_status, E, Hne.
    reflexivity. }
  destruct (final_terminal (e_Status ev) (e_Filled ev') (e_Remaining ev') (e_Deactivated ev') Hfin)
    as [Hft Hni].
  assert (Ht : orderJournalEventIsTerminal ev' = true).
  { unfold orderJournalEventIsTerminal. rewrite Hm. unfold ev'. rewrite inherit_type, E. exact Hft. }
  rewrite merge_evidence_branch by done. fold ev'.
  destruct (mergeEvidence_terminal (reopenRetained f ev') ev' Ht) as (H1 & H2 & H3 & _).
  split; [done | | |].
  - unfold mergeEvidence. rewrite Ht, Hm.
    apply String.eqb_neq in Hni. rewrite Hni, orb_true_r. reflexivity.
  - rewrite H2, H3, reopen_view. apply status_event_lifecycle; [by rewrite E | | done].
    by rewrite final_recognized, orb_true_r.
  - rewrite H2. cbn. unfold ev'. rewrite inherit_type, E. reflexivity.
Qed.

(** C27. Broker finality is permanent.  Once a filled, cancelled or rejected
    broker status is journaled for an order, then whatever came before it and
    whatever well-formed events follow (late send returns, delayed status
    callbacks, modify requests, errors), the published row is closed: not open,
    classified final, neither modifiable nor cancellable. *)
Theorem final_status_closes_row_forever pre ev post :
  e_Type ev = orderJournalEventStatusUpdated ->
  finalStatus (e_Status ev) = true ->
  Forall (fun e => wf_event e = true) post ->
  row_final (order_row (pre ++ ev :: post)).
Proof.
  intros E Hfin Hpost. unfold order_row, fold_events. rewrite fold_left_app. cbn.
  apply settled_row_final, settled_events; [|done]. by apply final_status_settles.
Qed.

Definition ev_filled : orderJournalEvent :=
  zero_orderJournalEvent <| e_Type := orderJournalEventStatusUpdated |>
    <| e_Status := "Filled" |> <| e_OrderRef := "canary-1" |>.
Definition ev_late_submitted : orderJournalEvent :=
  zero_orderJournalEvent <| e_Type := orderJournalEventStatusUpdated |>
    <| e_Status := "Submitted" |> <| e_SendState := orderSendStateBrokerAcknowledged |>.

Lemma final_status_closes_row_forever_witness :
  row_final (order_row ([] ++ ev_filled :: [ev_late_submitted])).
Proof.
  apply (final_status_closes_row_forever [] ev_filled [ev_late_submitted]).
  - reflexivity.
  - reflexivity.
  - constructor; [reflexivity | constructor].
Defined.

(** ** Send attempts *)

(** The three ways an attempt starts. *)
Lemma starts_attempt_type ev :
  orderJournalEventStartsAttempt ev = true ->
  one_of (e_Type ev) [orderJournalEventSendAttempted; orderJournalEventModifyRequested;
                      orderJournalEventCancelRequested] = true.
Proof.
  unfold orderJournalEventStartsAttempt, one_of. cbn.
  intros H. repeat (case_if_in H; try discriminate); cbn; rewrite ?orb_true_r; done.
Qed.

Lemma starts_attempt_inherit f ev :
  orderJournalEventStartsAttempt ev = true -> inheritDeactivation f ev = ev.
Proof.
  intros H. apply starts_attempt_type, one_of_true in H. apply inherit_other.
  simpl in H. destruct H as [<- | [<- | [<- | []]]]; reflexivity.
Qed.

(** A staged attempt records the row before it and merges its intent. *)
Lemma merge_start f ev :
  fold_terminal f = false -> orderJournalEventStartsAttempt ev = true ->
  fold_merge f ev =
  advance (put_attempt f (e_AttemptID ev)
             (mkAttempt (e_ActionKind ev) ev (fold_view f) (fold_last f) false false false)) ev.
Proof.
  intros Ht Hs. unfold fold_merge.
  by rewrite (starts_attempt_inherit f ev Hs), reopen_open, Ht, Hs by done.
Qed.

Lemma send_error_inherit f ev :
  e_Type ev = orderJournalEventSendError -> inheritDeactivation f ev = ev.
Proof. intros E. apply inherit_other. by rewrite E. Qed.

Lemma merge_send_error f ev :
  fold_terminal f = false -> e_Type ev = orderJournalEventSendError -> e_AttemptID ev <> "" ->
  fold_merge f ev = mergeSendOutcome f ev.
Proof.
  intros Ht E Hid. unfold fold_merge. rewrite (send_error_inherit f ev E), reopen_open, Ht by done.
  unfold orderJournalEventStartsAttempt, isSendOutcome. rewrite E.
  apply String.eqb_neq in Hid. rewrite Hid. cbn. by case_if.
Qed.

(** The published row of a non-terminal fold with an open attempt. *)
Definition row_uncertain (v : OrderView) : Prop :=
  v_SendState v = orderSendStateUncertainSend /\
  v_LifecycleStatus v = OrderLifecycleUnknownReconcileRequired /\
  v_Open v = true /\ v_ModifyEligible v = false /\
  v_CancelEligible v = (0 <? v_ReservedOrderID v).

Lemma not_confirmed_not_modifiable v :
  orderViewBrokerConfirmedForWrite v = false -> orderViewModifyEligible v = false.
Proof.
  intros H. unfold orderViewModifyEligible. rewrite H, ?orb_true_r. by case_if.
Qed.

Lemma publish_uncertain f :
  fold_terminal f = false -> has_open_attempt (fold_attempts f) = true ->
  mapOrderViewLifecycleStatus
    ((fold_view f) <| v_SendState := orderSendStateUncertainSend |>) (fold_last f) true =
    OrderLifecycleUnknownReconcileRequired ->
  row_uncertain (publish f).
Proof.
  intros Ht Ho Hl. unfold publish, fold_finish. rewrite Ht, Ho. cbn [negb andb].
  rewrite Hl. unfold row_uncertain. cbn.
  assert (Hopen : forall v, v_SendState v = orderSendStateUncertainSend ->
    v_LifecycleStatus v = OrderLifecycleUnknownReconcileRequired -> orderViewIsOpen v = true).
  { intros v Hs Hlv. unfold orderViewIsOpen. rewrite Hs, Hlv. str_eval.
    change (orderLifecycleStatusIsTerminal _) with false. cbn match.
    by case_if. }
  rewrite !Hopen by reflexivity.
  split_and!; try reflexivity.
  - by apply not_confirmed_not_modifiable.
  - unfold orderViewCancelEligibleWithAttemptTruth. cbn. rewrite orb_false_r.
    destruct (v_ReservedOrderID (fold_view f) <=? 0) eqn:Hz; bool_hyps; cbn; symmetry;
      [apply Z.ltb_ge | apply Z.ltb_lt]; lia.
Qed.

(** A staged intent with no outcome is reported as uncertain, never as a
    working order: its row is open, needs reconciliation, cannot be modified,
    and offers exactly one recovery action, a cancel by broker order id. *)
Theorem staged_attempt_row_uncertain f ev :
  fold_terminal f = false -> orderJournalEventStartsAttempt ev = true ->
  row_uncertain (publish (fold_merge f ev)).
Proof.
  intros Ht Hs. rewrite merge_start by done.
  apply publish_uncertain; [done | by apply has_open_attempt_insert_open |].
  apply starts_attempt_type, one_of_true in Hs. simpl in Hs.
  unfold mapOrderViewLifecycleStatus. cbn.
  destruct Hs as [<- | [<- | [<- | []]]]; reflexivity.
Qed.

Definition ev_place : orderJournalEvent :=
  zero_orderJournalEvent <| e_Type := orderJournalEventSendAttempted |>
    <| e_ActionKind := ActionPlace |> <| e_AttemptID := "attempt-1" |>
    <| e_ReservedOrderID := 41 |> <| e_OrderRef := "canary-1" |>.

Lemma staged_attempt_row_uncertain_witness : row_uncertain (publish (fold_merge emptyFold ev_place)).
Proof. apply (staged_attempt_row_uncertain emptyFold ev_place); reflexivity. Defined.

(** A send error that cannot prove the bytes stayed local (may-have-written,
    unknown, or any unrecognised disposition) keeps the row uncertain. *)
Theorem ambiguous_send_error_row_uncertain f ev a :
  fold_terminal f = false ->
  e_Type ev = orderJournalEventSendError -> e_AttemptID ev <> "" ->
  e_SendDisposition ev <> SendDispositionDefinitelyUnsent ->
  fold_attempts f !! e_AttemptID ev = Some a -> at_resolved a = false ->
  row_uncertain (publish (fold_merge f ev)).
Proof.
  intros Ht E Hid Hd Ha Hr. rewrite merge_send_error by done.
  apply String.eqb_neq in Hd. unfold mergeSendOutcome. rewrite Ha, E, Hd. str_eval. cbv zeta.
  match goal with |- context [at_resolved ?x] => set (a' := x) end.
  assert (Hr' : at_resolved a' = false) by (unfold a'; by case_if).
  cbn [put_attempt set_field fold_terminal]. rewrite Hr', Ht. cbn [orb].
  apply publish_uncertain; [done | |].
  - apply has_open_attempt_insert_open. unfold attempt_open. cbn. by rewrite Hr', andb_false_r.
  - unfold mapOrderViewLifecycleStatus. cbn. rewrite E, Hd. reflexivity.
Qed.

Definition ev_send_error (disposition : string) : orderJournalEvent :=
  ev_place <| e_Type := orderJournalEventSendError |> <| e_SendDisposition := disposition |>
    <| e_SendState := orderSendStateUncertainSend |>.

Lemma ambiguous_send_error_row_uncertain_witness :
  row_uncertain (publish (fold_merge (fold_merge emptyFold ev_place)
                            (ev_send_error SendDispositionMayHaveWritten))).
Proof.
  apply (ambiguous_send_error_row_uncertain (fold_merge emptyFold ev_place) _
           (mkAttempt ActionPlace ev_place zero_OrderView zero_orderJournalEvent false false false));
    try (vm_compute; reflexivity); discriminate.
Defined.

(** A proven-unsent outcome of a known, unresolved attempt. *)
Lemma unsent_outcome f ev a :
  fold_terminal f = false -> e_Type ev = orderJournalEventSendError ->
  e_SendDisposition ev = SendDispositionDefinitelyUnsent ->
  fold_attempts f !! e_AttemptID ev = Some a -> at_resolved a = false ->
  at_action a = e_ActionKind ev ->
  mergeSendOutcome f ev =
  let g := put_attempt f (e_AttemptID ev) (a <| at_resolved := true |>) in
  if isPlaceOrExercise (e_ActionKind ev) then
    (advance g ev) <| fold_view :=
      (fold_view (advance g ev)) <| v_SendState := orderSendStateTerminal |> |>
  else g <| fold_view := (at_before a) <| v_LastMessage :=
                over_s (v_LastMessage (at_before a)) (e_Message ev) |> |>
         <| fold_last := at_beforeLast a |>.
Proof.
  intros Ht E Hd Ha Hr Hact. unfold mergeSendOutcome. rewrite Ha. cbv zeta.
  rewrite Hact, eqb_s_refl. cbn [negb put_attempt set_field fold_terminal].
  rewrite Hr, Ht, E, Hd. cbn [orb]. str_eval. rewrite Hact.
  unfold put_attempt, advance. cbn. rewrite insert_insert_eq.
  case_if; [reflexivity|]. unfold over_s. case_if; [reflexivity|].
  by destruct (at_before a).
Qed.

(** Publishing depends on the attempts only through [has_open_attempt], and
    the last message only reaches the row's own field. *)
Lemma publish_message f g m :
  fold_view g = (fold_view f) <| v_LastMessage := m |> -> fold_last g = fold_last f ->
  fold_terminal g = fold_terminal f ->
  has_open_attempt (fold_attempts g) = has_open_attempt (fold_attempts f) ->
  publish g = (publish f) <| v_LastMessage := m |>.
Proof.
  intros Hv Hl Ht Ha. unfold publish, fold_finish. rewrite Hv, Hl, Ht, Ha.
  case_if; reflexivity.
Qed.

(** A modify or cancel that provably never left the process changes
    nothing: after the staged request and its definitely-unsent error, the
    published row is exactly the row before the request, except for the
    displayed message. *)
Theorem unsent_change_restores_row f req err :
  fold_terminal f = false ->
  orderJournalEventStartsAttempt req = true -> isPlaceOrExercise (e_ActionKind req) = false ->
  fold_attempts f !! e_AttemptID req = None ->
  e_Type err = orderJournalEventSendError -> e_AttemptID err = e_AttemptID req ->
  e_ActionKind err = e_ActionKind req ->
  e_SendDisposition err = SendDispositionDefinitelyUnsent ->
  publish (fold_merge (fold_merge f req) err) =
  (publish f) <| v_LastMessage := over_s (v_LastMessage (fold_view f)) (e_Message err) |>.
Proof.
  intros Ht Hs Hp Hfresh E Hid Hact Hd.
  assert (Hne : e_AttemptID req <> "").
  { intros Hz. unfold orderJournalEventStartsAttempt in Hs. rewrite Hz in Hs. discriminate. }
  rewrite (merge_start f req) by done.
  rewrite merge_send_error by (try done; by rewrite Hid).
  erewrite unsent_outcome; [|done|done|done|rewrite Hid; apply lookup_insert_eq|done|by rewrite Hact].
  rewrite Hact, Hp. cbv zeta.
  apply publish_message; cbn.
  - reflexivity.
  - reflexivity.
  - done.
  - rewrite Hid, insert_insert_eq. by apply has_open_attempt_insert_closed.
Qed.

Definition ev_ack : orderJournalEvent :=
  zero_orderJournalEvent <| e_Type := orderJournalEventBrokerAcknowledged |>
    <| e_Status := "Submitted" |> <| e_SendState := orderSendStateBrokerAcknowledged |>
    <| e_ReservedOrderID := 41 |> <| e_PermID := 9001 |> <| e_OrderRef := "canary-1" |>
    <| e_SecType := "STK" |> <| e_OrderType := "LMT" |> <| e_TIF := "DAY" |>
    <| e_Quantity := f_of_Z 10 |> <| e_LimitPrice := f_of_Z 25 |>.
Definition ev_modify : orderJournalEvent :=
  ev_ack <| e_Type := orderJournalEventModifyRequested |> <| e_Status := "" |>
    <| e_SendState := orderSendStateSendAttempted |> <| e_ActionKind := ActionModify |>
    <| e_AttemptID := "attempt-2" |> <| e_LimitPrice := f_of_Z 26 |>.
Definition ev_modify_unsent : orderJournalEvent :=
  ev_modify <| e_Type := orderJournalEventSendError |> <| e_SendState := "" |>
    <| e_SendDisposition := SendDispositionDefinitelyUnsent |> <| e_Message := "write queue closed" |>.
Definition working_fold : orderViewFold := fold_events emptyFold [ev_place; ev_ack].

Lemma unsent_change_restores_row_witness :
  publish (fold_merge (fold_merge working_fold ev_modify) ev_modify_unsent) =
  (publish working_fold) <| v_LastMessage :=
    over_s (v_LastMessage (fold_view working_fold)) (e_Message ev_modify_unsent) |>.
Proof.
  apply (unsent_change_restores_row working_fold ev_modify ev_modify_unsent);
    vm_compute; reflexivity.
Defined.

(** A place or exercise that provably never left the process closes its
    row as rejected: nothing is open, nothing may be modified or cancelled. *)
Theorem unsent_place_closes_row f ev a :
  fold_terminal f = false ->
  e_Type ev = orderJournalEventSendError -> e_AttemptID ev <> "" ->
  e_SendDisposition ev = SendDispositionDefinitelyUnsent ->
  fold_attempts f !! e_AttemptID ev = Some a -> at_resolved a = false ->
  at_action a = e_ActionKind ev -> isPlaceOrExercise (e_ActionKind ev) = true ->
  row_final (publish (fold_merge f ev)) /\
  v_LifecycleStatus (publish (fold_merge f ev)) = OrderLifecycleRejected.
Proof.
  intros Ht E Hid Hd Ha Hr Hact Hp. rewrite merge_send_error by done.
  rewrite (unsent_outcome f ev a), Hp by done. cbv zeta.
  unfold publish, fold_finish. cbn [advance put_attempt set_field fold_terminal fold_attempts].
  rewrite Ht. cbn [negb andb].
  assert (Hmap : forall v b, mapOrderViewLifecycleStatus v ev b = OrderLifecycleRejected).
  { intros v b. unfold mapOrderViewLifecycleStatus. by rewrite E, Hd, Hp. }
  case_if; cbn [fold_view fold_last set_field advance]; rewrite Hmap;
    unfold row_final; (split; [split_and!|]); try reflexivity;
    (apply not_confirmed_not_modifiable; reflexivity).
Qed.

Lemma unsent_place_closes_row_witness :
  let f := fold_merge emptyFold ev_place in
  let ev := ev_send_error SendDispositionDefinitelyUnsent in
  row_final (publish (fold_merge f ev)) /\
  v_LifecycleStatus (publish (fold_merge f ev)) = OrderLifecycleRejected.
Proof.
  apply (unsent_place_closes_row (fold_merge emptyFold ev_place) _
           (mkAttempt ActionPlace ev_place zero_OrderView zero_orderJournalEvent false false false));
    try (vm_compute; reflexivity); discriminate.
Defined.

(** ** Which rows offer a modify *)

(** The row as classified by a fold without open attempts. *)
Definition classified (f : orderViewFold) : OrderView :=
  (fold_view f) <| v_LifecycleStatus := mapOrderViewLifecycleStatus (fold_view f) (fold_last f) false |>.

Lemma terminal_lifecycle_not_confirmed v :
  orderLifecycleStatusIsTerminal (v_LifecycleStatus v) = true ->
  orderViewBrokerConfirmedForWrite v = false.
Proof.
  intros H. unfold orderViewBrokerConfirmedForWrite. case_if; [done|].
  apply one_of_false. intros Hin. simpl in Hin.
  destruct Hin as [E | [E | [E | []]]]; rewrite <- E in H; discriminate.
Qed.

Lemma mergeSendOutcome_terminal f ev : fold_terminal (mergeSendOutcome f ev) = fold_terminal f.
Proof.
  unfold mergeSendOutcome. cbv zeta. repeat case_if; reflexivity.
Qed.

Lemma mergeEvidence_open f ev :
  orderJournalEventIsTerminal ev = false -> fold_terminal (mergeEvidence f ev) = fold_terminal f.
Proof. intros H. unfold mergeEvidence. rewrite H. repeat case_if; reflexivity. Qed.

(** A broker error never leaves the row acknowledged when it is final. *)
Lemma terminal_error_send_state v ev :
  e_Type ev = orderJournalEventBrokerError -> orderJournalEventIsTerminal ev = true ->
  mergedSendState v ev = orderSendStateUncertainSend \/ mergedSendState v ev = orderSendStateTerminal.
Proof.
  intros E Ht. unfold orderJournalEventIsTerminal in Ht. rewrite E in Ht. cbn in Ht.
  unfold mergedSendState. rewrite E, Ht. str_eval.
  case_if; [|case_if; tauto].
  apply andb_true_iff in Hc as [Hc _]. apply andb_true_iff in Hc as [_ Hc].
  apply String.eqb_eq in Hc. rewrite Hc in Ht. discriminate.
Qed.

Definition term_inv (f : orderViewFold) : Prop :=
  fold_terminal f = true -> orderViewBrokerConfirmedForWrite (classified f) = false.

Lemma final_evidence_not_confirmed f ev g :
  wf_event ev = true -> orderJournalEventIsTerminal (inheritDeactivation f ev) = true ->
  fold_view g = mergeOrderJournalEventIntoView (fold_view f) (inheritDeactivation f ev) ->
  fold_last g = inheritDeactivation f ev ->
  orderViewBrokerConfirmedForWrite (classified g) = false.
Proof.
  intros Hwf Ht Hv Hl. unfold classified. rewrite Hv, Hl.
  assert (Hev := wf_terminal_is_evidence f ev Hwf Ht).
  apply andb_true_iff in Hwf as [_ Hwf].
  apply evidence_type_cases in Hev as [E | [E | [E | E]]].
  1,2: apply terminal_lifecycle_not_confirmed, status_event_lifecycle;
       [by rewrite E | rewrite E in Hwf; exact Hwf | done].
  - rewrite (inherit_other f ev) in * by (by rewrite E).
    unfold orderViewBrokerConfirmedForWrite. cbn.
    destruct (terminal_error_send_state (fold_view f) ev E Ht) as [-> | ->]; reflexivity.
  - apply terminal_lifecycle_not_confirmed. cbn. unfold mapOrderViewLifecycleStatus.
    by rewrite inherit_type, E.
Qed.

Lemma term_inv_merge f ev : wf_event ev = true -> term_inv f -> term_inv (fold_merge f ev).
Proof.
  intros Hwf Hinv Hterm. revert Hterm. unfold fold_merge.
  set (ev' := inheritDeactivation f ev). set (f1 := reopenRetained f ev').
  assert (Hf1 : fold_terminal f1 = true -> f1 = f).
  { unfold f1, reopenRetained. case_if; [discriminate | done]. }
  destruct (orderJournalEventIsTerminal ev') eqn:Ht; cbn [negb].
  - rewrite andb_false_r.
    destruct (evidence_not_attempt ev') as [-> ->].
    { unfold ev'. rewrite inherit_type. by apply (wf_terminal_is_evidence f). }
    intros _. destruct (mergeEvidence_terminal f1 ev' Ht) as (_ & Hv & Hl & _).
    apply (final_evidence_not_confirmed f ev); [done | done | | done].
    rewrite Hv. unfold f1. by rewrite reopen_view.
  - rewrite andb_true_r. destruct (fold_terminal f1) eqn:Hft.
    + intros _. rewrite (Hf1 eq_refl) in *. by apply Hinv.
    + repeat case_if; cbn; rewrite ?mergeSendOutcome_terminal, ?mergeEvidence_open, ?Hft by done;
        discriminate.
Qed.

Lemma term_inv_events f evs :
  term_inv f -> Forall (fun e => wf_event e = true) evs -> term_inv (fold_events f evs).
Proof.
  intros Hi Hwf. revert f Hi. induction Hwf as [|ev evs Hev _ IH]; intros f Hi; [done|].
  apply IH. by apply term_inv_merge.
Qed.

Lemma modify_eligible_confirmed v :
  orderViewModifyEligible v = true ->
  v_Open v = true /\ 0 < v_ReservedOrderID v /\ orderViewBrokerConfirmedForWrite v = true /\
  v_AttachedStop v = None.
Proof.
  unfold orderViewModifyEligible. destruct (v_AttachedStop v) eqn:Ha; [done|]. intros H.
  cbn [present orb] in H. case_if_in H; [done|]. case_if_in H; [done|]. bool_hyps. done.
Qed.

(** What a modify-eligible publication says about its fold. *)
Lemma publish_modify_inv f :
  v_ModifyEligible (publish f) = true ->
  negb (fold_terminal f) && has_open_attempt (fold_attempts f) = false /\
  orderViewBrokerConfirmedForWrite (classified f) = true /\
  v_Open (publish f) = true /\ 0 < v_ReservedOrderID (publish f) /\
  v_AttachedStop (publish f) = None /\
  v_SendState (publish f) = orderSendStateBrokerAcknowledged.
Proof.
  unfold publish, fold_finish, classified.
  destruct (negb (fold_terminal f) && has_open_attempt (fold_attempts f));
    intros Hm; apply modify_eligible_confirmed in Hm as (Ho & Hr & Hc & Has).
  - exfalso. revert Hc. generalize (fold_view f). intros v Hc. discriminate Hc.
  - split_and!; [reflexivity | exact Hc | exact Ho | exact Hr | exact Has |].
    unfold orderViewBrokerConfirmedForWrite in Hc. case_if_in Hc; [done|]. by bool_hyps.
Qed.

(** A row of a well-formed journal that offers a modify rests on broker
    truth: the broker acknowledged the order, it is open and not final, it has a
    broker order id, it is not the entry of an attached stop, and every send
    attempt of the order is accounted for (resolved, or completed without
    contradiction). *)
Theorem modify_offered_only_on_settled_attempts evs :
  Forall (fun e => wf_event e = true) evs ->
  v_ModifyEligible (order_row evs) = true ->
  let f := fold_events emptyFold evs in
  fold_terminal f = false /\
  v_SendState (order_row evs) = orderSendStateBrokerAcknowledged /\
  v_Open (order_row evs) = true /\ 0 < v_ReservedOrderID (order_row evs) /\
  v_AttachedStop (order_row evs) = None /\
  forall id a, fold_attempts f !! id = Some a ->
    at_resolved a = true \/ (at_completed a = true /\ at_uncertain a = false).
Proof.
  intros Hwf. unfold order_row. set (f := fold_events emptyFold evs). intros Hm.
  assert (Hti : term_inv f) by (apply term_inv_events; [discriminate | done]).
  apply publish_modify_inv in Hm as (Hb & Hc & Ho & Hr & Has & Hss).
  assert (Hterm : fold_terminal f = false).
  { apply not_true_iff_false. intros Ht. rewrite (Hti Ht) in Hc. discriminate. }
  rewrite Hterm in Hb. cbn [negb andb] in Hb.
  split_and!; try done.
  intros id a Ha. apply has_open_attempt_false with (id := id) (a := a) in Hb; [|done].
  unfold attempt_open in Hb. apply negb_false_iff, orb_true_iff in Hb as [?|Hb]; [tauto|].
  apply andb_true_iff in Hb as [? Hb]. right. split; [done|]. by apply negb_true_iff.
Qed.

Lemma modify_offered_only_on_settled_attempts_witness :
  let evs := [ev_place; ev_ack] in
  let f := fold_events emptyFold evs in
  fold_terminal f = false /\
  v_SendState (order_row evs) = orderSendStateBrokerAcknowledged /\
  v_Open (order_row evs) = true /\ 0 < v_ReservedOrderID (order_row evs) /\
  v_AttachedStop (order_row evs) = None /\
  forall id a, fold_attempts f !! id = Some a ->
    at_resolved a = true \/ (at_completed a = true /\ at_uncertain a = false).
Proof.
  apply (modify_offered_only_on_settled_attempts [ev_place; ev_ack]).
  - repeat constructor.
  - vm_compute. reflexivity.
Defined.

(** ** A rejected change request *)

(** Non-terminal events leave a definitively terminal fold unchanged. *)
Lemma definitive_ignores f evs :
  fold_terminal f = true -> fold_definitiveTerminal f = true ->
  Forall (fun ev => orderJournalEventIsTerminal (inheritDeactivation f ev) = false) evs ->
  fold_events f evs = f.
Proof.
  intros Ht Hd Hall. induction Hall as [|ev evs Hev _ IH]; [done|].
  unfold fold_events in *. cbn [fold_left].
  assert (fold_merge f ev = f) as ->; [|done].
  unfold fold_merge. by rewrite reopen_definitive, Ht, Hev by done.
Qed.

(** A broker rejection of a modify or cancel request (codes 103, 110, 201)
    freezes the row: although the order may still be working at the broker,
    every later non-final callback, including a fresh "Submitted" status, is
    ignored, and the row stays open with an unknown state and offers neither a
    modify nor a cancel. *)
Theorem rejected_change_freezes_row f req err post :
  fold_terminal f = false -> orderJournalEventStartsAttempt req = true ->
  one_of (e_Type req) [orderJournalEventModifyRequested; orderJournalEventCancelRequested] = true ->
  e_Type err = orderJournalEventBrokerError ->
  (e_ErrorCode err = 103 \/ e_ErrorCode err = 110 \/ e_ErrorCode err = 201) ->
  let g := fold_merge (fold_merge f req) err in
  Forall (fun ev => orderJournalEventIsTerminal (inheritDeactivation g ev) = false) post ->
  let row := publish (fold_events g post) in
  v_LifecycleStatus row = OrderLifecycleUnknownReconcileRequired /\ v_Open row = true /\
  v_ModifyEligible row = false /\ v_CancelEligible row = false.
Proof.
  intros Ht Hs Hreq E Hcode g Hpost.
  assert (Hmap : mapBrokerErrorLifecycleStatus (e_ErrorCode err) (e_Status err) =
                 OrderLifecycleRejected).
  { destruct Hcode as [-> | [-> | ->]]; reflexivity. }
  assert (Hterm : orderJournalEventIsTerminal err = true).
  { unfold orderJournalEventIsTerminal. by rewrite E, Hmap. }
  assert (Hg : g = mergeEvidence (fold_merge f req) err).
  { unfold g. set (f1 := fold_merge f req). unfold fold_merge.
    rewrite (inherit_other f1 err), (reopen_open f1 err), Hterm, andb_false_r
      by (try (by rewrite E); unfold f1; by rewrite merge_start).
    destruct (evidence_not_attempt err) as [-> ->]; [by rewrite E | done]. }
  assert (Hgt : fold_terminal g = true /\ fold_definitiveTerminal g = true).
  { rewrite Hg. unfold mergeEvidence. rewrite Hterm, E. done. }
  destruct Hgt as [Hgt Hgd]. rewrite (definitive_ignores g post Hgt Hgd Hpost).
  assert (Hview : fold_view g =
    mergeOrderJournalEventIntoView (fold_view (fold_merge f req)) err /\ fold_last g = err).
  { rewrite Hg. by destruct (mergeEvidence_terminal (fold_merge f req) err Hterm) as (_ & ? & ? & _). }
  destruct Hview as [Hv Hl].
  assert (Hss : v_SendState (fold_view g) = orderSendStateUncertainSend).
  { rewrite Hv. cbn [v_SendState mergeOrderJournalEventIntoView]. unfold mergedSendState.
    unfold brokerErrorShouldPreserveWorkingOrder.
    rewrite E, Hmap, merge_start by done. cbn [advance put_attempt set_field fold_view v_LastEvent
      mergeOrderJournalEventIntoView].
    apply one_of_true in Hreq. simpl in Hreq. destruct Hreq as [<- | [<- | []]]; reflexivity. }
  assert (Hlc : forall b, mapOrderViewLifecycleStatus (fold_view g) (fold_last g) b =
                          OrderLifecycleUnknownReconcileRequired).
  { intros b. unfold mapOrderViewLifecycleStatus. by rewrite Hl, E, Hmap, Hss. }
  unfold publish, fold_finish. rewrite Hgt. cbn [negb andb]. rewrite Hlc.
  assert (Hle : v_LastEvent (fold_view g) = orderJournalEventBrokerError) by (rewrite Hv; exact E).
  revert Hss Hle. generalize (fold_view g). intros v Hss Hle.
  assert (Hconf : forall w, v_SendState w = orderSendStateUncertainSend ->
    orderViewBrokerConfirmedForWrite w = false).
  { intros w Hw. unfold orderViewBrokerConfirmedForWrite. by rewrite Hw. }
  split_and!; [reflexivity | | |]; cbn.
  - unfold orderViewIsOpen. cbn. by rewrite Hss, Hle.
  - by apply not_confirmed_not_modifiable, Hconf.
  - unfold orderViewCancelEligibleWithAttemptTruth. rewrite Hconf by done. by case_if.
Qed.

Definition ev_error_110 : orderJournalEvent :=
  zero_orderJournalEvent <| e_Type := orderJournalEventBrokerError |> <| e_ErrorCode := 110 |>
    <| e_SendState := orderSendStateTerminal |> <| e_ReservedOrderID := 41 |>.

Lemma rejected_change_freezes_row_witness :
  let row := publish (fold_events (fold_merge (fold_merge working_fold ev_modify) ev_error_110)
                        [ev_late_submitted]) in
  v_LifecycleStatus row = OrderLifecycleUnknownReconcileRequired /\ v_Open row = true /\
  v_ModifyEligible row = false /\ v_CancelEligible row = false.
Proof.
  apply (rejected_change_freezes_row working_fold ev_modify ev_error_110 [ev_late_submitted]).
  - vm_compute. reflexivity.
  - vm_compute. reflexivity.
  - vm_compute. reflexivity.
  - vm_compute. reflexivity.
  - right. left. vm_compute. reflexivity.
  - constructor; [vm_compute; reflexivity | constructor].
Defined.
