(* ===== verification/OrderKeys.v ===== *)
(** * Order identity: route-scoped keys and their aliases

    src/internal/daemon/order_read_model.go groups journal events into orders.
    An event names its order by local reference, broker order id or permanent
    id, each scoped by the whole write route; the alias map links the three.
    Proved here: the alias map is always fully compressed (every alias points
    at a root), so resolution terminates in one step and the closing
    compression pass is the identity whatever order Go ranges over the map;
    an event that carries a reference is filed under exactly that reference,
    so two orders are never merged; and a broker callback that knows only the
    broker id joins the order that owns the id. *)

From stdpp Require Import base decidable list strings gmap.
From Stdlib Require Import ZArith Lia String Ascii.
From S2P Require Import Prelude OrderTypes OrderStatus.

(** The unit separator "\x1f". *)
Definition unit_sep : ascii := Ascii.ascii_of_nat 31.
Definition bar : ascii := "|"%char.

Notation "a ++s b" := (String.append a b) (at level 60, right associativity) : go_scope.

(** orderJournalRouteIdentity *)
Definition orderJournalRouteIdentity (endpoint : string) (clientID : Z) (account mode : string) : string :=
  TrimSpace endpoint ++s String unit_sep
    (Itoa clientID ++s String unit_sep
      (ToUpper (TrimSpace account) ++s String unit_sep (ToLower (TrimSpace mode)))).

Definition event_scope (ev : orderJournalEvent) : string :=
  orderJournalRouteIdentity (e_Endpoint ev) (e_ClientID ev) (e_Account ev) (e_Mode ev).

Definition view_scope (view : OrderView) : string :=
  orderJournalRouteIdentity (v_Endpoint view) (v_ClientID view) (v_Account view) (v_Mode view).

Definition refKey (scope ref : string) : string := scope ++s "|ref:" ++s ref.
Definition orderIDKey (scope : string) (id : Z) : string := scope ++s "|order:" ++s Itoa id.
Definition permKey (scope : string) (id : Z) : string := scope ++s "|perm:" ++s Itoa id.

(** orderJournalKey *)
Definition orderJournalKey (ev : orderJournalEvent) : string :=
  let scope := event_scope ev in
  if e_OrderRef ev <>s "" then refKey scope (e_OrderRef ev)
  else if negb (e_ReservedOrderID ev =? 0) then orderIDKey scope (e_ReservedOrderID ev)
  else if negb (e_PermID ev =? 0) then permKey scope (e_PermID ev)
  else "".

(** orderViewKey *)
Definition orderViewKey (view : OrderView) : string :=
  let scope := view_scope view in
  if v_OrderRef view <>s "" then refKey scope (v_OrderRef view)
  else if negb (v_ReservedOrderID view =? 0) then orderIDKey scope (v_ReservedOrderID view)
  else if negb (v_PermID view =? 0) then permKey scope (v_PermID view)
  else "".

(** orderViewMatchesID *)
Definition orderViewMatchesID (view : OrderView) (id : string) : bool :=
  if v_OrderRef view =s id then true
  else if negb (v_ReservedOrderID view =? 0) && (Itoa (v_ReservedOrderID view) =s id) then true
  else negb (v_PermID view =? 0) && (Itoa (v_PermID view) =s id).

(** orderJournalScopedOrderIDKey *)
Definition orderJournalScopedOrderIDKey (ev : orderJournalEvent) : string :=
  event_scope ev ++s String unit_sep (Itoa (e_ReservedOrderID ev)).

(** [m[key]] of a map[string]string: the zero value when absent. *)
Definition lookup_s (m : gmap string string) (key : string) : string := default "" (m !! key).

(** The loop of resolveOrderJournalAlias; [None] is out of fuel. *)
Fixpoint resolve_loop (fuel : nat) (seen : gset string) (key : string) (aliases : gmap string string)
    : option string :=
  match fuel with
  | O => None
  | S n =>
      let next := lookup_s aliases key in
      if (next =s "") || (next =s key) || bool_decide (key ∈ seen) then Some key
      else resolve_loop n ({[key]} ∪ seen) next aliases
  end.

Definition resolve_fuel (aliases : gmap string string) : nat := S (size aliases).

(** resolveOrderJournalAlias *)
Definition resolveOrderJournalAlias (key : string) (aliases : gmap string string) : string :=
  if key =s "" then ""
  else default key (resolve_loop (resolve_fuel aliases) ∅ key aliases).

(** orderJournalCanonicalKey *)
Definition orderJournalCanonicalKey (ev : orderJournalEvent) (aliases : gmap string string) : string :=
  resolveOrderJournalAlias (orderJournalKey ev) aliases.

(** ambiguousReservedOrderIDs: a broker id claimed by two references. *)
Definition refsByOrderID_step (m : gmap string (gset string)) (ev : orderJournalEvent)
    : gmap string (gset string) :=
  if (e_ReservedOrderID ev =? 0) || (e_OrderRef ev =s "") then m
  else
    let k := orderJournalScopedOrderIDKey ev in
    <[k := {[e_OrderRef ev]} ∪ default ∅ (m !! k)]> m.

Definition refsByOrderID (events : list orderJournalEvent) : gmap string (gset string) :=
  fold_left refsByOrderID_step events ∅.

Definition ambiguousReservedOrderIDs (events : list orderJournalEvent) : gset string :=
  dom (filter (fun p => (1 < size p.2)%nat) (refsByOrderID events)).

(** reservedOrderIDsWithPrelinkedBrokerOnlyEvents: a broker id seen without a
    reference before the first event that names one. *)
Fixpoint firstRefIndex (i : nat) (events : list orderJournalEvent) (m : gmap string nat)
    : gmap string nat :=
  match events with
  | [] => m
  | ev :: rest =>
      let m' :=
        if (e_ReservedOrderID ev =? 0) || (e_OrderRef ev =s "") then m
        else
          let k := orderJournalScopedOrderIDKey ev in
          match m !! k with Some _ => m | None => <[k := i]> m end in
      firstRefIndex (S i) rest m'
  end.

Fixpoint prelinked_loop (i : nat) (events : list orderJournalEvent) (first : gmap string nat)
    (out : gset string) : gset string :=
  match events with
  | [] => out
  | ev :: rest =>
      let out' :=
        if (e_ReservedOrderID ev =? 0) || (e_OrderRef ev <>s "") then out
        else
          let k := orderJournalScopedOrderIDKey ev in
          match first !! k with
          | Some refIndex => if (i <? refIndex)%nat then {[k]} ∪ out else out
          | None => out
          end in
      prelinked_loop (S i) rest first out'
  end.

Definition reservedOrderIDsWithPrelinkedBrokerOnlyEvents (events : list orderJournalEvent)
    : gset string :=
  prelinked_loop 0 events (firstRefIndex 0 events ∅) ∅.

(** orderJournalIdentityKeysForAliases *)
Definition orderJournalIdentityKeysForAliases (ev : orderJournalEvent)
    (ambiguousOrderIDs prelinkedOrderIDs : gset string) : list string :=
  let scope := event_scope ev in
  let k := orderJournalScopedOrderIDKey ev in
  let hasRef := e_OrderRef ev <>s "" in
  (if hasRef then [refKey scope (e_OrderRef ev)] else []) ++
  (if negb (e_ReservedOrderID ev =? 0) &&
      negb (hasRef && (bool_decide (k ∈ ambiguousOrderIDs) || bool_decide (k ∈ prelinkedOrderIDs)))
   then [orderIDKey scope (e_ReservedOrderID ev)] else []) ++
  (if negb (e_PermID ev =? 0) then [permKey scope (e_PermID ev)] else []).

(** The first key with a non-empty resolution. *)
Fixpoint first_resolved (keys : list string) (aliases : gmap string string) : string :=
  match keys with
  | [] => ""
  | key :: rest =>
      let resolved := resolveOrderJournalAlias key aliases in
      if resolved <>s "" then resolved else first_resolved rest aliases
  end.

(** One event of orderJournalKeyAliases.  The inner range over the map only
    rewrites the value of the key it visits, so it is a map over the values. *)
Definition alias_step (ambiguous prelinked : gset string) (aliases : gmap string string)
    (ev : orderJournalEvent) : gmap string string :=
  let keys := orderJournalIdentityKeysForAliases ev ambiguous prelinked in
  match keys with
  | [] => aliases
  | key0 :: _ =>
      let canonical := first_resolved keys aliases in
      let canonical :=
        if e_OrderRef ev <>s "" then refKey (event_scope ev) (e_OrderRef ev) else canonical in
      let canonical := if canonical =s "" then key0 else canonical in
      let aliases := fold_left (fun m key => <[key := canonical]> m) keys aliases in
      (fun resolved =>
         if resolved =s canonical then resolved
         else if one_of resolved keys then canonical else resolved) <$> aliases
  end.

Definition alias_links (events : list orderJournalEvent) : gmap string string :=
  fold_left
    (alias_step (ambiguousReservedOrderIDs events)
       (reservedOrderIDsWithPrelinkedBrokerOnlyEvents events)) events ∅.

(** The closing pass, over the keys in the order [keys] Go ranges over them. *)
Definition compress (keys : list string) (aliases : gmap string string) : gmap string string :=
  fold_left (fun m key => <[key := resolveOrderJournalAlias key m]> m) keys aliases.

(** orderJournalKeyAliases *)
Definition orderJournalKeyAliases (events : list orderJournalEvent) : gmap string string :=
  let aliases := alias_links events in
  compress ((map_to_list aliases).*1) aliases.

(** ** Separators in route-scoped keys *)

Lemma has_char_map c f s :
  (forall d, Ascii.eqb c (f d) = Ascii.eqb c d) -> has_char c (map_string f s) = has_char c s.
Proof. intros H. induction s as [|d s IH]; simpl; [done|]. by rewrite H, IH. Qed.

Lemma has_char_upper c s :
  c = unit_sep \/ c = bar -> has_char c (ToUpper s) = has_char c s.
Proof.
  intros Hc. apply has_char_map. intros [[] [] [] [] [] [] [] []]; destruct Hc as [-> | ->]; reflexivity.
Qed.

Lemma has_char_lower c s :
  c = unit_sep \/ c = bar -> has_char c (ToLower s) = has_char c s.
Proof.
  intros Hc. apply has_char_map. intros [[] [] [] [] [] [] [] []]; destruct Hc as [-> | ->]; reflexivity.
Qed.

Lemma has_char_trim_left c s : has_char c s = false -> has_char c (trim_left s) = false.
Proof.
  induction s as [|d s IH]; simpl; [done|]. intros H. apply orb_false_iff in H as [H1 H2].
  case_if; [by apply IH|]. simpl. by rewrite H1, H2.
Qed.

Lemma has_char_trim_right c s : has_char c s = false -> has_char c (trim_right s) = false.
Proof.
  induction s as [|d s IH]; simpl; [done|]. intros H. apply orb_false_iff in H as [H1 H2].
  case_if; [done|]. simpl. by rewrite H1, IH.
Qed.

Lemma has_char_trim c s : has_char c s = false -> has_char c (TrimSpace s) = false.
Proof. intros. by apply has_char_trim_right, has_char_trim_left. Qed.

Lemma has_char_uint c d :
  c = unit_sep \/ c = bar -> has_char c (DecimalString.NilEmpty.string_of_uint d) = false.
Proof. intros Hc. induction d; simpl; rewrite ?IHd; destruct Hc as [-> | ->]; reflexivity. Qed.

Lemma has_char_Itoa c z : c = unit_sep \/ c = bar -> has_char c (Itoa z) = false.
Proof.
  intros Hc. unfold Itoa. destruct (Z.to_int z) as [d|d]; simpl.
  - destruct d; try (by apply (has_char_uint c)); simpl; destruct Hc as [-> | ->]; try reflexivity.
    all: apply has_char_uint; auto.
  - destruct d; simpl; destruct Hc as [-> | ->]; simpl; try reflexivity; apply has_char_uint; auto.
Qed.

(** A route whose parts are free of the separators: an endpoint or account id
    without "\x1f", a mode ("paper", "live") without "\x1f" or "|". *)
Definition wf_route (endpoint account mode : string) : bool :=
  negb (has_char unit_sep endpoint) && negb (has_char unit_sep account) &&
  negb (has_char unit_sep mode) && negb (has_char bar mode).

Definition wf_event_route (ev : orderJournalEvent) : bool :=
  wf_route (e_Endpoint ev) (e_Account ev) (e_Mode ev).

(** The compared form of a route. *)
Definition same_route (ev1 ev2 : orderJournalEvent) : Prop :=
  TrimSpace (e_Endpoint ev1) = TrimSpace (e_Endpoint ev2) /\
  e_ClientID ev1 = e_ClientID ev2 /\
  ToUpper (TrimSpace (e_Account ev1)) = ToUpper (TrimSpace (e_Account ev2)) /\
  ToLower (TrimSpace (e_Mode ev1)) = ToLower (TrimSpace (e_Mode ev2)).

(** Two route-scoped keys are equal only if every part is. *)
Lemma route_key_inj ev1 ev2 x y :
  wf_event_route ev1 = true -> wf_event_route ev2 = true ->
  event_scope ev1 ++s String bar x = event_scope ev2 ++s String bar y ->
  same_route ev1 ev2 /\ x = y.
Proof.
  unfold wf_event_route, wf_route, event_scope, orderJournalRouteIdentity. intros H1 H2 Heq.
  bool_hyps.
  rewrite !append_assoc_s, !append_cons_s, !append_assoc_s, !append_cons_s, !append_assoc_s,
    !append_cons_s in Heq.
  assert (Hs : unit_sep = unit_sep \/ unit_sep = bar) by auto.
  assert (Hb : bar = unit_sep \/ bar = bar) by auto.
  apply sep_split in Heq as [He Heq]; [|by apply has_char_trim..].
  apply sep_split in Heq as [Hc Heq]; [|by apply has_char_Itoa..].
  apply sep_split in Heq as [Ha Heq]; [|rewrite has_char_upper by done; by apply has_char_trim..].
  apply sep_split in Heq as [Hm Heq]; [|rewrite has_char_lower by done; by apply has_char_trim..].
  split; [|done]. split_and!; [done | by apply Itoa_inj | done | done].
Qed.

Lemma same_route_scope ev1 ev2 : same_route ev1 ev2 -> event_scope ev1 = event_scope ev2.
Proof.
  intros (H1 & H2 & H3 & H4). unfold event_scope, orderJournalRouteIdentity. by rewrite H1, H2, H3, H4.
Qed.

Lemma app_nonempty a c x : a ++s String c x <> "".
Proof. destruct a; discriminate. Qed.

(** The three kinds of keys never collide. *)
Inductive key_body : string -> Prop :=
| body_ref r : key_body ("ref:" ++s r)
| body_order n : key_body ("order:" ++s Itoa n)
| body_perm n : key_body ("perm:" ++s Itoa n).

Lemma identity_keys_shape ev am pl k :
  In k (orderJournalIdentityKeysForAliases ev am pl) ->
  (e_OrderRef ev <> "" /\ k = refKey (event_scope ev) (e_OrderRef ev)) \/
  (e_ReservedOrderID ev <> 0 /\ k = orderIDKey (event_scope ev) (e_ReservedOrderID ev)) \/
  (e_PermID ev <> 0 /\ k = permKey (event_scope ev) (e_PermID ev)).
Proof.
  unfold orderJournalIdentityKeysForAliases. rewrite !in_app_iff.
  intros [H | [H | H]]; case_if_in H; simpl in H; try done; destruct H as [<- | []]; bool_hyps; tauto.
Qed.

(** A key of an event that equals a reference key is the event's own one. *)
Lemma identity_key_is_ref ev ev' am pl :
  wf_event_route ev = true -> wf_event_route ev' = true ->
  In (refKey (event_scope ev') (e_OrderRef ev')) (orderJournalIdentityKeysForAliases ev am pl) ->
  e_OrderRef ev <> "" /\
  refKey (event_scope ev) (e_OrderRef ev) = refKey (event_scope ev') (e_OrderRef ev').
Proof.
  intros H1 H2 Hin. apply identity_keys_shape in Hin as [[Hr Hk] | [[_ Hk] | [_ Hk]]].
  - by rewrite Hk.
  - exfalso. apply route_key_inj in Hk as [_ Hk]; [discriminate Hk | done | done].
  - exfalso. apply route_key_inj in Hk as [_ Hk]; [discriminate Hk | done | done].
Qed.

Lemma refKey_inj ev1 ev2 :
  wf_event_route ev1 = true -> wf_event_route ev2 = true ->
  refKey (event_scope ev1) (e_OrderRef ev1) = refKey (event_scope ev2) (e_OrderRef ev2) ->
  same_route ev1 ev2 /\ e_OrderRef ev1 = e_OrderRef ev2.
Proof.
  intros H1 H2 Hk. apply route_key_inj in Hk as [Hs Hk]; [|done|done].
  split; [done|]. by injection Hk.
Qed.

Lemma orderIDKey_inj ev1 ev2 :
  wf_event_route ev1 = true -> wf_event_route ev2 = true ->
  orderIDKey (event_scope ev1) (e_ReservedOrderID ev1) =
  orderIDKey (event_scope ev2) (e_ReservedOrderID ev2) ->
  same_route ev1 ev2 /\ e_ReservedOrderID ev1 = e_ReservedOrderID ev2.
Proof.
  intros H1 H2 Hk. apply route_key_inj in Hk as [Hs Hk]; [|done|done].
  split; [done|]. apply Itoa_inj. by injection Hk.
Qed.

(** ** Alias resolution *)

(** Every alias points at a root. *)
Definition flat (m : gmap string string) : Prop :=
  forall k v, m !! k = Some v -> v <> "" /\ m !! v = Some v.

(** [resolve_loop] has enough fuel: it visits a key of the map at most once. *)
Lemma resolve_loop_total fuel seen key m :
  seen ⊆ dom m -> (size m < fuel + size seen)%nat ->
  exists r, resolve_loop fuel seen key m = Some r.
Proof.
  revert seen key. induction fuel as [|n IH]; intros seen key Hs Hf.
  - exfalso. apply subseteq_size in Hs. rewrite size_dom in Hs. lia.
  - simpl. case_if; [eauto|]. bool_hyps. apply bool_decide_eq_false in H0.
    apply IH.
    + apply union_subseteq. split; [|done]. apply singleton_subseteq_l, elem_of_dom.
      unfold lookup_s in H. destruct (m !! key); [done | done].
    + rewrite size_union, size_singleton by set_solver. lia.
Qed.

Lemma resolve_terminates key m :
  key <> "" -> resolve_loop (resolve_fuel m) ∅ key m = Some (resolveOrderJournalAlias key m).
Proof.
  intros Hk. unfold resolveOrderJournalAlias.
  destruct (resolve_loop_total (resolve_fuel m) ∅ key m) as [r Hr].
  { set_solver. } { unfold resolve_fuel. rewrite size_empty. lia. }
  rewrite Hr. simpl. by case_if; bool_hyps.
Qed.

(** On a flat map, resolution is a single lookup. *)
Lemma resolve_flat key m :
  flat m -> key <> "" -> resolveOrderJournalAlias key m = default key (m !! key).
Proof.
  intros Hf Hk. apply Some_inj. rewrite <- resolve_terminates by done.
  unfold resolve_fuel. destruct (m !! key) as [v|] eqn:Hl; simpl.
  - destruct (Hf _ _ Hl) as [Hv Hv']. unfold lookup_s. rewrite Hl. simpl.
    apply String.eqb_neq in Hv as Hv2. rewrite Hv2. cbn [orb].
    destruct (v =s key) eqn:E; simpl.
    { bool_hyps. by subst. }
    assert (Hsz : exists n, size m = S n).
    { destruct (size m) eqn:Es; [|eauto]. apply map_size_empty_iff in Es. subst. done. }
    destruct Hsz as [n ->]. simpl. unfold lookup_s. rewrite Hv'. simpl.
    by rewrite eqb_s_refl, orb_true_r.
  - unfold lookup_s. by rewrite Hl.
Qed.

Lemma insert_keys_lookup keys c (m : gmap string string) k :
  fold_left (fun m key => <[key := c]> m) keys m !! k =
  if one_of k keys then Some c else m !! k.
Proof.
  revert m. induction keys as [|a keys IH]; intros m; [done|]. simpl. rewrite IH.
  unfold one_of. simpl. destruct (existsb (String.eqb k) keys) eqn:E.
  - by rewrite orb_true_r.
  - rewrite orb_false_r. destruct (k =s a) eqn:Ea; bool_hyps.
    + subst. by rewrite lookup_insert_eq.
    + by rewrite lookup_insert_ne.
Qed.

Lemma identity_keys_nonempty ev am pl k :
  In k (orderJournalIdentityKeysForAliases ev am pl) -> k <> "".
Proof.
  intros H. apply identity_keys_shape in H as [[_ ->] | [[_ ->] | [_ ->]]]; apply app_nonempty.
Qed.

(** The root chosen by one step: the event's reference, else the root of its
    first key. *)
Definition step_root (ev : orderJournalEvent) (key0 : string) (m : gmap string string) : string :=
  if e_OrderRef ev <>s "" then refKey (event_scope ev) (e_OrderRef ev) else default key0 (m !! key0).

Lemma alias_step_lookup am pl m ev key0 rest k :
  flat m -> orderJournalIdentityKeysForAliases ev am pl = key0 :: rest ->
  alias_step am pl m ev !! k =
  (fun v => if one_of v (key0 :: rest) then step_root ev key0 m else v) <$>
  (if one_of k (key0 :: rest) then Some (step_root ev key0 m) else m !! k).
Proof.
  intros Hf Hk. unfold alias_step. rewrite Hk.
  assert (H0 : key0 <> "").
  { apply (identity_keys_nonempty ev am pl). rewrite Hk. by left. }
  assert (Hroot : (if e_OrderRef ev <>s "" then refKey (event_scope ev) (e_OrderRef ev)
                   else first_resolved (key0 :: rest) m) = step_root ev key0 m /\
                  step_root ev key0 m <> "").
  { unfold step_root. case_if; [split; [done | apply app_nonempty]|].
    simpl. rewrite resolve_flat by done.
    destruct (m !! key0) as [v|] eqn:Hl; simpl.
    - destruct (Hf _ _ Hl) as [Hv _]. apply String.eqb_neq in Hv as Hv2. by rewrite Hv2.
    - apply String.eqb_neq in H0 as H1. by rewrite H1. }
  destruct Hroot as [-> Hne]. apply String.eqb_neq in Hne as ->.
  rewrite lookup_fmap, insert_keys_lookup.
  destruct (if one_of k (key0 :: rest) then _ else _) as [v|]; simpl; [|done].
  f_equal. destruct (v =s step_root ev key0 m) eqn:E; [|done]. bool_hyps. subst.
  by case_if.
Qed.

Lemma step_root_in ev am pl key0 rest m :
  flat m -> orderJournalIdentityKeysForAliases ev am pl = key0 :: rest ->
  In (step_root ev key0 m) (key0 :: rest) \/ m !! step_root ev key0 m = Some (step_root ev key0 m).
Proof.
  intros Hf Hk. unfold step_root. case_if.
  - left. revert Hk. unfold orderJournalIdentityKeysForAliases. rewrite Hc. intros [= <- _]. by left.
  - destruct (m !! key0) as [v|] eqn:Hl; simpl; [|tauto]. right. by apply (Hf key0).
Qed.

Lemma step_root_nonempty ev am pl key0 rest m :
  flat m -> orderJournalIdentityKeysForAliases ev am pl = key0 :: rest -> step_root ev key0 m <> "".
Proof.
  intros Hf Hk. unfold step_root. case_if; [apply app_nonempty|].
  destruct (m !! key0) as [v|] eqn:Hl; simpl; [by apply (Hf key0)|].
  apply (identity_keys_nonempty ev am pl). rewrite Hk. by left.
Qed.

Lemma alias_step_flat am pl m ev : flat m -> flat (alias_step am pl m ev).
Proof.
  intros Hf. destruct (orderJournalIdentityKeysForAliases ev am pl) as [|key0 rest] eqn:Hk.
  { unfold alias_step. by rewrite Hk. }
  set (c := step_root ev key0 m).
  assert (Hc : alias_step am pl m ev !! c = Some c).
  { rewrite (alias_step_lookup am pl m ev key0 rest) by done. fold c.
    destruct (one_of c (key0 :: rest)) eqn:E; simpl; [by rewrite E|].
    destruct (step_root_in ev am pl key0 rest m Hf Hk) as [Hin | Hin]; fold c in Hin.
    - apply one_of_true in Hin. congruence.
    - rewrite Hin. simpl. by rewrite E. }
  intros k v Hl. rewrite (alias_step_lookup am pl m ev key0 rest) in Hl by done. fold c in Hl.
  assert (Hcne : c <> "") by (by apply (step_root_nonempty ev am pl key0 rest)).
  apply fmap_Some in Hl as (w & Hw & Hv).
  destruct (one_of w (key0 :: rest)) eqn:Ew; [by subst|].
  subst v. case_if_in Hw; [injection Hw as <-; by subst|].
  destruct (Hf _ _ Hw) as [Hne Hroot]. split; [done|].
  rewrite (alias_step_lookup am pl m ev key0 rest) by done.
  by rewrite Ew, Hroot; simpl; rewrite Ew.
Qed.

Lemma alias_steps_flat am pl m evs : flat m -> flat (fold_left (alias_step am pl) evs m).
Proof. revert m. induction evs as [|ev evs IH]; intros m Hf; [done|]. simpl. by apply IH, alias_step_flat. Qed.

Lemma alias_links_flat evs : flat (alias_links evs).
Proof. apply alias_steps_flat. intros k v H. by rewrite lookup_empty in H. Qed.

Lemma flat_key_nonempty_compress keys m :
  flat m -> m !! "" = None -> Forall (fun k => is_Some (m !! k)) keys -> compress keys m = m.
Proof.
  intros Hf He Hk. unfold compress. induction Hk as [|k keys [v Hv] _ IH]; [done|]. simpl.
  assert (Hne : k <> "") by (intros ->; congruence).
  rewrite resolve_flat, Hv by done. simpl. rewrite insert_id by done. exact IH.
Qed.

Lemma alias_steps_no_empty am pl m evs :
  flat m -> m !! "" = None -> fold_left (alias_step am pl) evs m !! "" = None.
Proof.
  revert m. induction evs as [|ev evs IH]; intros m Hf He; [done|]. simpl.
  apply IH; [by apply alias_step_flat|].
  destruct (orderJournalIdentityKeysForAliases ev am pl) as [|key0 rest] eqn:Hk.
  { unfold alias_step. by rewrite Hk. }
  rewrite (alias_step_lookup am pl m ev key0 rest) by done.
  destruct (one_of "" (key0 :: rest)) eqn:E.
  - apply one_of_true in E. rewrite <- Hk in E. by apply identity_keys_nonempty in E.
  - by rewrite He.
Qed.

Lemma compress_alias_links keys evs :
  Forall (fun k => is_Some (alias_links evs !! k)) keys ->
  compress keys (alias_links evs) = alias_links evs.
Proof.
  intros Hk. apply flat_key_nonempty_compress; [apply alias_links_flat | | done].
  apply alias_steps_no_empty; [|apply lookup_empty]. intros k v H. by rewrite lookup_empty in H.
Qed.

Lemma map_keys_is_Some (m : gmap string string) :
  Forall (fun k => is_Some (m !! k)) (map_to_list m).*1.
Proof.
  apply Forall_forall. intros k Hk. apply list_elem_of_fmap in Hk as ([k' v] & -> & Hin).
  apply elem_of_map_to_list in Hin. simpl. eauto.
Qed.

Lemma orderJournalKeyAliases_links evs : orderJournalKeyAliases evs = alias_links evs.
Proof. apply compress_alias_links, map_keys_is_Some. Qed.

(** The alias map is canonical: the closing compression pass is the
    identity for every order in which Go may range over the map, every alias
    points directly at a root, and the resolution loop returns after at most one
    lookup (so it terminates, and its cycle guard never decides the result). *)
Theorem aliases_canonical_for_any_map_order evs keys :
  keys ≡ₚ (map_to_list (alias_links evs)).*1 ->
  let m := orderJournalKeyAliases evs in
  compress keys (alias_links evs) = m /\
  (forall k v, m !! k = Some v -> v <> "" /\ m !! v = Some v) /\
  (forall k, k <> "" -> resolve_loop (resolve_fuel m) ∅ k m = Some (default k (m !! k))).
Proof.
  intros Hp m. unfold m. rewrite orderJournalKeyAliases_links. split_and!.
  - apply compress_alias_links. rewrite Hp. apply map_keys_is_Some.
  - apply alias_links_flat.
  - intros k Hk. rewrite resolve_terminates, resolve_flat by (done || apply alias_links_flat). done.
Qed.

Definition ev_key_place : orderJournalEvent :=
  zero_orderJournalEvent <| e_OrderRef := "canary-1" |> <| e_ReservedOrderID := 41 |>
    <| e_Endpoint := "127.0.0.1:4002" |> <| e_ClientID := 15 |> <| e_Account := "DU123" |>
    <| e_Mode := "paper" |>.
Definition ev_key_callback : orderJournalEvent :=
  zero_orderJournalEvent <| e_ReservedOrderID := 41 |> <| e_PermID := 9001 |>
    <| e_Endpoint := "127.0.0.1:4002" |> <| e_ClientID := 15 |> <| e_Account := "du123" |>
    <| e_Mode := "PAPER" |>.
Definition ev_key_other : orderJournalEvent :=
  ev_key_place <| e_OrderRef := "canary-2" |> <| e_ReservedOrderID := 42 |>.
Definition key_journal : list orderJournalEvent := [ev_key_place; ev_key_other; ev_key_callback].

Lemma aliases_canonical_for_any_map_order_witness :
  compress ((map_to_list (alias_links key_journal)).*1) (alias_links key_journal) =
  orderJournalKeyAliases key_journal.
Proof.
  apply (aliases_canonical_for_any_map_order key_journal
           ((map_to_list (alias_links key_journal)).*1)). reflexivity.
Defined.

(** ** Orders with references *)

(** Reference keys are roots, and one step keeps a link to a reference. *)
Lemma alias_step_ref_root am pl m ev ev' :
  flat m -> wf_event_route ev = true -> wf_event_route ev' = true ->
  let R := refKey (event_scope ev') (e_OrderRef ev') in
  (m !! R = None \/ m !! R = Some R) ->
  alias_step am pl m ev !! R = None \/ alias_step am pl m ev !! R = Some R.
Proof.
  intros Hf H1 H2 R Hm.
  destruct (orderJournalIdentityKeysForAliases ev am pl) as [|key0 rest] eqn:Hk.
  { unfold alias_step. by rewrite Hk. }
  rewrite (alias_step_lookup am pl m ev key0 rest) by done.
  destruct (one_of R (key0 :: rest)) eqn:E.
  - right. apply one_of_true in E. rewrite <- Hk in E.
    apply identity_key_is_ref in E as [Href Heq]; [|done|done].
    simpl. unfold step_root. apply String.eqb_neq in Href as ->. simpl. fold R in Heq. rewrite Heq.
    by case_if.
  - destruct Hm as [-> | ->]; [by left|]. right. simpl. by rewrite E.
Qed.

Lemma alias_steps_ref_root am pl evs m ev' :
  flat m -> Forall (fun e => wf_event_route e = true) evs -> wf_event_route ev' = true ->
  let R := refKey (event_scope ev') (e_OrderRef ev') in
  (m !! R = None \/ m !! R = Some R) ->
  fold_left (alias_step am pl) evs m !! R = None \/ fold_left (alias_step am pl) evs m !! R = Some R.
Proof.
  intros Hf Hwf H' R. revert m Hf. induction Hwf as [|ev evs Hev _ IH]; intros m Hf Hm; [done|].
  simpl. apply IH; [by apply alias_step_flat|]. by apply alias_step_ref_root.
Qed.

Lemma canonical_ref_key evs ev :
  Forall (fun e => wf_event_route e = true) evs -> wf_event_route ev = true -> e_OrderRef ev <> "" ->
  orderJournalCanonicalKey ev (orderJournalKeyAliases evs) = refKey (event_scope ev) (e_OrderRef ev).
Proof.
  intros Hwf Hev Href. rewrite orderJournalKeyAliases_links.
  unfold orderJournalCanonicalKey, orderJournalKey. apply String.eqb_neq in Href as ->. cbn [negb].
  rewrite resolve_flat by (apply alias_links_flat || apply app_nonempty).
  destruct (alias_steps_ref_root (ambiguousReservedOrderIDs evs)
    (reservedOrderIDsWithPrelinkedBrokerOnlyEvents evs) evs ∅ ev) as [H | H];
    [intros k v H; by rewrite lookup_empty in H | done | done | left; apply lookup_empty | |];
    unfold alias_links; by rewrite H.
Qed.

(** Orders are never merged or split by aliasing: in a journal of well-formed
    routes, two events that carry order references are filed under the same row
    exactly when their references and their whole write route (endpoint, client
    id, account and mode, the last two up to case) agree, whatever broker ids and
    permanent ids link them. *)
Theorem referenced_orders_never_merge evs ev1 ev2 :
  Forall (fun e => wf_event_route e = true) evs -> In ev1 evs -> In ev2 evs ->
  e_OrderRef ev1 <> "" -> e_OrderRef ev2 <> "" ->
  let m := orderJournalKeyAliases evs in
  orderJournalCanonicalKey ev1 m = orderJournalCanonicalKey ev2 m <->
  same_route ev1 ev2 /\ e_OrderRef ev1 = e_OrderRef ev2.
Proof.
  intros Hwf Hin1 Hin2 H1 H2 m. unfold m.
  assert (Hw : forall e, In e evs -> wf_event_route e = true).
  { intros e He. rewrite Forall_forall in Hwf. apply Hwf. by apply list_elem_of_In. }
  rewrite !canonical_ref_key by auto. split; [apply refKey_inj; auto|].
  intros [Hs Hr]. by rewrite (same_route_scope _ _ Hs), Hr.
Qed.

Lemma referenced_orders_never_merge_witness :
  orderJournalCanonicalKey ev_key_place (orderJournalKeyAliases key_journal) =
  orderJournalCanonicalKey ev_key_other (orderJournalKeyAliases key_journal) <->
  same_route ev_key_place ev_key_other /\ e_OrderRef ev_key_place = e_OrderRef ev_key_other.
Proof.
  apply (referenced_orders_never_merge key_journal ev_key_place ev_key_other).
  - repeat constructor.
  - by left.
  - by right; left.
  - discriminate.
  - discriminate.
Defined.

(** ** Callbacks that know only the broker id *)

Lemma refs_step_mono m ev k r :
  r ∈ default ∅ (m !! k) -> r ∈ default ∅ (refsByOrderID_step m ev !! k).
Proof.
  intros H. unfold refsByOrderID_step. case_if; [done|].
  destruct (decide (orderJournalScopedOrderIDKey ev = k)) as [<-|Hne].
  - rewrite lookup_insert_eq. simpl. set_solver.
  - by rewrite lookup_insert_ne.
Qed.

Lemma refsByOrderID_collects evs m ev :
  In ev evs -> e_ReservedOrderID ev <> 0 -> e_OrderRef ev <> "" ->
  e_OrderRef ev ∈ default ∅ (fold_left refsByOrderID_step evs m !! orderJournalScopedOrderIDKey ev).
Proof.
  revert m. induction evs as [|e evs IH]; intros m Hin H1 H2; [done|].
  destruct Hin as [-> | Hin]; simpl; [|by apply IH].
  assert (Hnow : e_OrderRef ev ∈
    default ∅ (refsByOrderID_step m ev !! orderJournalScopedOrderIDKey ev)).
  { unfold refsByOrderID_step. apply Z.eqb_neq in H1 as ->. apply String.eqb_neq in H2 as ->.
    cbn [orb]. rewrite lookup_insert_eq. simpl. set_solver. }
  clear IH H1 H2. revert Hnow. generalize (refsByOrderID_step m ev) as m'.
  induction evs as [|e evs IH]; intros m' Hnow; [done|]. simpl. apply IH. by apply refs_step_mono.
Qed.

(** An unambiguous broker id has one reference. *)
Lemma unambiguous_one_ref evs ev1 ev2 :
  In ev1 evs -> In ev2 evs -> e_ReservedOrderID ev1 <> 0 -> e_ReservedOrderID ev2 <> 0 ->
  e_OrderRef ev1 <> "" -> e_OrderRef ev2 <> "" ->
  orderJournalScopedOrderIDKey ev1 = orderJournalScopedOrderIDKey ev2 ->
  orderJournalScopedOrderIDKey ev1 ∉ ambiguousReservedOrderIDs evs ->
  e_OrderRef ev1 = e_OrderRef ev2.
Proof.
  intros Hi1 Hi2 Hd1 Hd2 Hr1 Hr2 Hk Ham.
  assert (H1 := refsByOrderID_collects evs ∅ ev1 Hi1 Hd1 Hr1).
  assert (H2 := refsByOrderID_collects evs ∅ ev2 Hi2 Hd2 Hr2). rewrite <- Hk in H2.
  fold (refsByOrderID evs) in H1, H2.
  destruct (refsByOrderID evs !! orderJournalScopedOrderIDKey ev1) as [refs|] eqn:Hl;
    [|simpl in H1; set_solver]. simpl in H1, H2.
  destruct (decide (e_OrderRef ev1 = e_OrderRef ev2)) as [|Hne]; [done|]. exfalso. apply Ham.
  unfold ambiguousReservedOrderIDs. apply elem_of_dom. exists refs.
  apply map_lookup_filter_Some. split; [done|]. simpl.
  assert (Hsub : {[e_OrderRef ev1; e_OrderRef ev2]} ⊆ refs)
    by (apply union_subseteq; split; by apply singleton_subseteq_l).
  apply subseteq_size in Hsub. rewrite size_union, !size_singleton in Hsub by set_solver. lia.
Qed.

Section Callback.
Context (evs : list orderJournalEvent) (ev0 : orderJournalEvent).
Context (Hwf : Forall (fun e => wf_event_route e = true) evs).
Context (Hin0 : In ev0 evs) (Href0 : e_OrderRef ev0 <> "") (Hid0 : e_ReservedOrderID ev0 <> 0).

Let am := ambiguousReservedOrderIDs evs.
Let pl := reservedOrderIDsWithPrelinkedBrokerOnlyEvents evs.
Context (Ham : orderJournalScopedOrderIDKey ev0 ∉ am) (Hpl : orderJournalScopedOrderIDKey ev0 ∉ pl).

Let R := refKey (event_scope ev0) (e_OrderRef ev0).
Let K := orderIDKey (event_scope ev0) (e_ReservedOrderID ev0).

Local Lemma wf_in e : In e evs -> wf_event_route e = true.
Proof. intros He. rewrite Forall_forall in Hwf. apply Hwf. by apply list_elem_of_In. Qed.

(** An event that touches the broker id names this order's reference, or none. *)
Local Lemma id_key_owner ev :
  In ev evs -> In K (orderJournalIdentityKeysForAliases ev am pl) ->
  event_scope ev = event_scope ev0 /\ e_ReservedOrderID ev = e_ReservedOrderID ev0 /\
  (e_OrderRef ev = "" \/ e_OrderRef ev = e_OrderRef ev0).
Proof.
  intros Hin Hk. apply identity_keys_shape in Hk as [[_ Hk] | [[Hid Hk] | [_ Hk]]].
  - apply route_key_inj in Hk as [_ Hk]; [discriminate Hk | auto using wf_in..].
  - apply orderIDKey_inj in Hk as [Hs Heq]; [|auto using wf_in..].
    apply same_route_scope in Hs. split_and!; [done | done |].
    destruct (decide (e_OrderRef ev = "")) as [|Hne]; [tauto|]. right. symmetry.
    apply (unambiguous_one_ref evs); try done.
    unfold orderJournalScopedOrderIDKey. by rewrite Hs, Heq.
  - apply route_key_inj in Hk as [_ Hk]; [discriminate Hk | auto using wf_in..].
Qed.

Local Lemma callback_link_step m ev :
  flat m -> In ev evs -> m !! K = Some R -> alias_step am pl m ev !! K = Some R.
Proof.
  intros Hf Hin Hm.
  destruct (orderJournalIdentityKeysForAliases ev am pl) as [|key0 rest] eqn:Hk.
  { unfold alias_step. by rewrite Hk. }
  rewrite (alias_step_lookup am pl m ev key0 rest) by done.
  assert (Hroot : one_of K (key0 :: rest) || one_of R (key0 :: rest) = true ->
                  step_root ev key0 m = R).
  { intros H. apply orb_true_iff in H as [H | H]; apply one_of_true in H; rewrite <- Hk in H.
    - apply id_key_owner in H as (Hs & Hid & Hr); [|done]. unfold step_root.
      destruct Hr as [Hr | Hr]; rewrite Hr.
      + simpl. assert (key0 = K) as ->; [|by rewrite Hm].
        revert Hk. unfold orderJournalIdentityKeysForAliases. rewrite Hr, Hid, Hs.
        apply Z.eqb_neq in Hid0 as ->. by intros [= <- _].
      + apply String.eqb_neq in Href0 as ->. simpl. by rewrite Hs.
    - apply identity_key_is_ref in H as [Hr Heq]; [|auto using wf_in..].
      unfold step_root. apply String.eqb_neq in Hr as ->. exact Heq. }
  destruct (one_of K (key0 :: rest)) eqn:EK; simpl.
  - rewrite Hroot by done. by case_if.
  - rewrite Hm. simpl. case_if; [|done]. by rewrite Hroot.
Qed.

Local Lemma callback_link_steps l m :
  flat m -> incl l evs -> m !! K = Some R -> fold_left (alias_step am pl) l m !! K = Some R.
Proof.
  revert m. induction l as [|ev l IH]; intros m Hf Hl Hm; [done|]. simpl.
  apply IH; [by apply alias_step_flat | intros e He; apply Hl; by right |].
  apply callback_link_step; [done | by apply Hl; left | done].
Qed.

(** The placing event links its broker id to its reference. *)
Local Lemma place_links m : flat m -> alias_step am pl m ev0 !! K = Some R.
Proof.
  intros Hf.
  assert (Hk : exists rest, orderJournalIdentityKeysForAliases ev0 am pl = R :: K :: rest).
  { unfold orderJournalIdentityKeysForAliases. apply String.eqb_neq in Href0 as ->.
    apply Z.eqb_neq in Hid0 as ->. rewrite !bool_decide_eq_false_2 by done. simpl. eauto. }
  destruct Hk as [rest Hk]. rewrite (alias_step_lookup am pl m ev0 R (K :: rest)) by done.
  assert (one_of K (R :: K :: rest) = true) as -> by (apply one_of_true; by right; left).
  assert (step_root ev0 R m = R) as ->.
  { unfold step_root. by apply String.eqb_neq in Href0 as ->. }
  simpl. by case_if.
Qed.

Lemma broker_id_linked : alias_links evs !! K = Some R.
Proof.
  unfold alias_links. destruct (in_split _ _ Hin0) as (l1 & l2 & Hevs).
  fold am. fold pl. rewrite Hevs at 1. rewrite fold_left_app. simpl.
  assert (Hf : flat (fold_left (alias_step am pl) l1 ∅)).
  { apply alias_steps_flat. intros k v H. by rewrite lookup_empty in H. }
  apply callback_link_steps; [by apply alias_step_flat | | by apply place_links].
  intros e He. rewrite Hevs. apply in_or_app. right. by right.
Qed.
End Callback.

(** A broker callback that carries only the broker order id is filed under
    the order that reserved that id on the same write route, provided the id is
    claimed by one reference only and was not already in use before the
    reservation was journaled (the two cases in which the code refuses to link). *)
Theorem broker_callback_joins_its_order evs ev0 cb :
  Forall (fun e => wf_event_route e = true) evs -> In ev0 evs ->
  e_OrderRef ev0 <> "" -> e_ReservedOrderID ev0 <> 0 ->
  orderJournalScopedOrderIDKey ev0 ∉ ambiguousReservedOrderIDs evs ->
  orderJournalScopedOrderIDKey ev0 ∉ reservedOrderIDsWithPrelinkedBrokerOnlyEvents evs ->
  e_OrderRef cb = "" -> same_route cb ev0 -> e_ReservedOrderID cb = e_ReservedOrderID ev0 ->
  let m := orderJournalKeyAliases evs in
  orderJournalCanonicalKey cb m = orderJournalCanonicalKey ev0 m.
Proof.
  intros Hwf Hin Href Hid Ham Hpl Hcr Hroute Hcid m. unfold m.
  assert (Hw0 : wf_event_route ev0 = true).
  { rewrite Forall_forall in Hwf. apply Hwf. by apply list_elem_of_In. }
  rewrite (canonical_ref_key evs ev0) by done.
  rewrite orderJournalKeyAliases_links. unfold orderJournalCanonicalKey, orderJournalKey.
  rewrite Hcr, Hcid, (same_route_scope _ _ Hroute). apply Z.eqb_neq in Hid as Hid'. rewrite Hid'.
  cbn [negb String.eqb]. rewrite resolve_flat by (apply alias_links_flat || apply app_nonempty).
  by rewrite (broker_id_linked evs ev0).
Qed.

Lemma broker_callback_joins_its_order_witness :
  orderJournalCanonicalKey ev_key_callback (orderJournalKeyAliases key_journal) =
  orderJournalCanonicalKey ev_key_place (orderJournalKeyAliases key_journal).
Proof.
  apply (broker_callback_joins_its_order key_journal ev_key_place ev_key_callback).
  - repeat constructor.
  - by left.
  - discriminate.
  - discriminate.
  - apply (bool_decide_eq_true_1 _). vm_compute. reflexivity.
  - apply (bool_decide_eq_true_1 _). vm_compute. reflexivity.
  - reflexivity.
  - repeat split.
  - reflexivity.
Defined.
