(* ===== verification/BrokerScope.v ===== *)
(** * Broker scope and portfolio evidence

    The account/mode identity scoped state binds to
    (src/internal/daemon/broker_evidence.go) and the trust boundary of the
    cached portfolio stream (src/internal/daemon/order_read_model.go): which
    cached rows may be read, and when an empty book counts as evidence. *)

From stdpp Require Import base decidable list strings.
From Stdlib Require Import ZArith Lia String Ascii.
From S2P Require Import Prelude OrderTypes.

Definition AccountModeUnknown : string := "unknown".
Definition AccountModePaper : string := "paper".
Definition AccountModeLive : string := "live".

Record brokerStateScope := mkScope { sc_Account : string; sc_Mode : string }.

(** strings.ContainsAny(s, ", \t") *)
Definition contains_list_sep (s : string) : bool :=
  has_char ","%char s || has_char " "%char s || has_char (Ascii.ascii_of_nat 9) s.

Definition brokerScopeAccountConcrete (account : string) : bool :=
  let account := TrimSpace account in
  if (account =s "") || EqualFold account "All" then false
  else negb (contains_list_sep account).

Definition brokerScopeConcrete (scope : brokerStateScope) : bool :=
  if negb (brokerScopeAccountConcrete (sc_Account scope)) then false
  else one_of (sc_Mode scope) [AccountModePaper; AccountModeLive].

Definition sameBrokerScope (a b : brokerStateScope) : bool :=
  EqualFold (TrimSpace (sc_Account a)) (TrimSpace (sc_Account b)) &&
  EqualFold (TrimSpace (sc_Mode a)) (TrimSpace (sc_Mode b)).

Definition brokerScopedModeMatches (rowMode scopeMode : string) : bool :=
  let scopeMode := TrimSpace scopeMode in
  if (scopeMode =s "") || (scopeMode =s AccountModeUnknown) then true
  else EqualFold (TrimSpace rowMode) scopeMode.

Definition brokerScopeIsUnfiltered (scope : brokerStateScope) : bool :=
  (TrimSpace (sc_Account scope) =s "") && (TrimSpace (sc_Mode scope) =s "").

Definition brokerScopedAccountMatches (rowAccount : string) (scope : brokerStateScope) : bool :=
  if brokerScopeIsUnfiltered scope then true
  else if negb (brokerScopeAccountConcrete (sc_Account scope)) then false
  else EqualFold (TrimSpace rowAccount) (sc_Account scope).

Definition orderViewMatchesBrokerScope (view : OrderView) (scope : brokerStateScope) : bool :=
  brokerScopedAccountMatches (v_Account view) scope &&
  brokerScopedModeMatches (v_Mode view) (sc_Mode scope).

Definition orderJournalEventMatchesBrokerScope (ev : orderJournalEvent) (scope : brokerStateScope) : bool :=
  brokerScopedAccountMatches (e_Account ev) scope &&
  brokerScopedModeMatches (e_Mode ev) (sc_Mode scope).

(** ** The portfolio stream's receipt *)

(** ibkr.PortfolioStreamHealth *)
Record PortfolioStreamHealth := mkHealth {
  h_Account : string; h_RequestedAt : time; h_InitialCompletedAt : time; h_LastUpdateAt : time;
  h_ProjectionGeneration : Z; h_ScopeConflictAt : time; h_InvalidPayloadAt : time;
  h_DownloadShortAt : time
}.
#[global] Instance PortfolioStreamHealth_eta : Eta PortfolioStreamHealth := fun r => mkHealth
  (h_Account r) (h_RequestedAt r) (h_InitialCompletedAt r) (h_LastUpdateAt r)
  (h_ProjectionGeneration r) (h_ScopeConflictAt r) (h_InvalidPayloadAt r) (h_DownloadShortAt r).

Definition orderIntegrityHealthCurrent : string := "current".
Definition orderIntegrityHealthStale : string := "stale".
Definition orderIntegrityHealthUnavailable : string := "unavailable".
Definition portfolioStreamReceiptMaxAge : Z := 5 * Minute.

(** The evidence time classifyPortfolioStreamHealthArm computes first. *)
Definition receiptAt (health : PortfolioStreamHealth) : time :=
  if After (h_LastUpdateAt health) (h_InitialCompletedAt health)
  then h_LastUpdateAt health else h_InitialCompletedAt health.

(** classifyPortfolioStreamHealthArm: the verdict and its first failing arm. *)
Definition classifyPortfolioStreamHealthArm
    (scope : brokerStateScope) (health : PortfolioStreamHealth) (now : time) : string * string :=
  let evidenceAt := receiptAt health in
  if negb (IsZero (h_ScopeConflictAt health))
  then (orderIntegrityHealthUnavailable, "stream_scope_conflict_latched")
  else if negb (IsZero (h_InvalidPayloadAt health))
  then (orderIntegrityHealthUnavailable, "stream_invalid_payload")
  else if negb (brokerScopeConcrete scope)
  then (orderIntegrityHealthUnavailable, "daemon_scope_not_concrete")
  else if negb (brokerScopeAccountConcrete (h_Account health))
  then (orderIntegrityHealthUnavailable, "stream_account_unbound")
  else if negb (EqualFold (h_Account health) (sc_Account scope))
  then (orderIntegrityHealthUnavailable, "stream_account_mismatch")
  else if negb (IsZero (h_DownloadShortAt health))
  then (orderIntegrityHealthUnavailable, "download_short_of_gross_position_value")
  else if IsZero (h_InitialCompletedAt health)
  then (orderIntegrityHealthUnavailable, "initial_download_incomplete")
  else if After evidenceAt now
  then (orderIntegrityHealthUnavailable, "evidence_time_in_future")
  else if portfolioStreamReceiptMaxAge <? Sub now evidenceAt
  then (orderIntegrityHealthStale, "receipt_stale")
  else (orderIntegrityHealthCurrent, "").

Definition classifyPortfolioStreamHealth
    (scope : brokerStateScope) (health : PortfolioStreamHealth) (now : time) : string :=
  fst (classifyPortfolioStreamHealthArm scope health now).

Definition portfolioStreamEvidenceAsOf (health : PortfolioStreamHealth) : time :=
  let evidenceAt := receiptAt health in
  let evidenceAt :=
    if After (h_ScopeConflictAt health) evidenceAt then h_ScopeConflictAt health else evidenceAt in
  if After (h_InvalidPayloadAt health) evidenceAt then h_InvalidPayloadAt health else evidenceAt.

(** ibkr.Contract and ibkr.RawPosition, the fields the order model reads. *)
Record Contract := mkContract {
  k_ConID : Z; k_Symbol : string; k_SecType : string; k_Expiry : string; k_Strike : float64;
  k_Right : string; k_Exchange : string; k_Currency : string; k_LocalSymbol : string;
  k_TradingClass : string; k_Multiplier : Z
}.

Record RawPosition := mkRawPosition { rp_Account : string; rp_Contract : Contract; rp_Position : float64; rp_AverageCost : float64 }.

(** cachedPositionsMatchBrokerScope; a slice element may be nil. *)
Definition cachedPositionsMatchBrokerScope
    (raw : list (option RawPosition)) (scope : brokerStateScope) : bool :=
  if negb (brokerScopeConcrete scope) then false
  else forallb (fun p =>
    match p with
    | Some p => negb ((rp_Position p <>f f0) && negb (brokerScopedAccountMatches (rp_Account p) scope))
    | None => true
    end) raw.

Definition scopedPortfolioStreamHealth (raw : list (option RawPosition))
    (health : PortfolioStreamHealth) (scope : brokerStateScope) (observedAt : time)
    : PortfolioStreamHealth * bool :=
  if cachedPositionsMatchBrokerScope raw scope then (health, true)
  else (health <| h_ScopeConflictAt := observedAt |>, false).

(** ** Theorems *)

(** A "current" verdict, the only one that lets an empty portfolio stand as
    evidence, certifies the whole receipt: no latched conflict, no invalid
    payload, no short download, a concrete scope whose account is the stream's
    own, a completed initial download, and an evidence time that is not in the
    future and at most five minutes old. *)
Theorem current_health_certifies_receipt scope health now :
  classifyPortfolioStreamHealth scope health now = orderIntegrityHealthCurrent <->
  h_ScopeConflictAt health = 0 /\ h_InvalidPayloadAt health = 0 /\ h_DownloadShortAt health = 0 /\
  h_InitialCompletedAt health <> 0 /\ brokerScopeConcrete scope = true /\
  brokerScopeAccountConcrete (h_Account health) = true /\
  EqualFold (h_Account health) (sc_Account scope) = true /\
  now - portfolioStreamReceiptMaxAge <=
    Z.max (h_InitialCompletedAt health) (h_LastUpdateAt health) <= now.
Proof.
  assert (Hr : receiptAt health = Z.max (h_InitialCompletedAt health) (h_LastUpdateAt health)).
  { unfold receiptAt, After. case_if; bool_hyps; lia. }
  unfold classifyPortfolioStreamHealth, classifyPortfolioStreamHealthArm.
  rewrite Hr. unfold IsZero, After, Sub, portfolioStreamReceiptMaxAge, min_duration, max_duration,
    Minute, Second.
  split.
  - intros H. repeat case_if_in H; try discriminate H. bool_hyps. split_and!; try done; lia.
  - intros (H1 & H2 & H3 & H4 & H5 & H6 & H7 & H8).
    rewrite H1, H2, H3, H5, H6, H7. simpl. repeat case_if; bool_hyps; try done; lia.
Qed.

Lemma EqualFold_TrimSpace_scope row scope :
  brokerScopedAccountMatches row scope = true -> brokerScopeConcrete scope = true ->
  EqualFold (TrimSpace row) (sc_Account scope) = true.
Proof.
  unfold brokerScopedAccountMatches, brokerScopeConcrete. intros H Hc.
  destruct (brokerScopeAccountConcrete (sc_Account scope)) eqn:Ha; [|done].
  assert (Hf : brokerScopeIsUnfiltered scope = false); [|by rewrite Hf in H].
  unfold brokerScopeIsUnfiltered. apply andb_false_iff. left.
  unfold brokerScopeAccountConcrete in Ha. case_if_in Ha; [done|].
  by apply orb_false_iff in Hc0 as [? _].
Qed.

(** The cached portfolio is readable for a scope only if every held row (a
    non-zero position) belongs to the scope's account; one foreign row rejects
    the whole snapshot and latches the conflict, after which no verdict but
    "unavailable" is possible. *)
Theorem foreign_row_rejects_snapshot raw health scope p observedAt now :
  In (Some p) raw -> (rp_Position p =f f0) = false ->
  EqualFold (TrimSpace (rp_Account p)) (sc_Account scope) = false -> observedAt <> 0 ->
  brokerScopeConcrete scope = true ->
  let h := scopedPortfolioStreamHealth raw health scope observedAt in
  h.2 = false /\ classifyPortfolioStreamHealth scope h.1 now = orderIntegrityHealthUnavailable.
Proof.
  intros Hin Hp Hne Hat Hc h.
  assert (Hm : cachedPositionsMatchBrokerScope raw scope = false).
  { unfold cachedPositionsMatchBrokerScope. rewrite Hc. simpl.
    apply not_true_iff_false. intros Hall. rewrite forallb_forall in Hall.
    specialize (Hall _ Hin). simpl in Hall. rewrite Hp in Hall. cbn [negb andb] in Hall.
    rewrite negb_involutive in Hall.
    rewrite (EqualFold_TrimSpace_scope _ _ Hall Hc) in Hne. discriminate. }
  unfold h, scopedPortfolioStreamHealth. rewrite Hm. split; [done|].
  unfold classifyPortfolioStreamHealth, classifyPortfolioStreamHealthArm, IsZero.
  apply Z.eqb_neq in Hat. cbn [h_ScopeConflictAt set_field fst]. by rewrite Hat.
Qed.

Definition scope_ex : brokerStateScope := mkScope "DU123" AccountModePaper.
Definition contract_ex : Contract := mkContract 265598 "AAPL" "STK" "" f0 "" "SMART" "USD" "AAPL" "NMS" 0.
Definition foreign_ex : RawPosition := mkRawPosition "U999" contract_ex (f_of_Z 5) f0.
Definition health_ex : PortfolioStreamHealth :=
  mkHealth "DU123" 1 (100 * Second) (160 * Second) 1 0 0 0.

Lemma foreign_row_rejects_snapshot_witness :
  let h := scopedPortfolioStreamHealth [None; Some foreign_ex] health_ex scope_ex (200 * Second) in
  h.2 = false /\
  classifyPortfolioStreamHealth scope_ex h.1 (200 * Second) = orderIntegrityHealthUnavailable.
Proof.
  apply (foreign_row_rejects_snapshot [None; Some foreign_ex] health_ex scope_ex foreign_ex).
  - by right; left.
  - vm_compute. reflexivity.
  - vm_compute. reflexivity.
  - discriminate.
  - vm_compute. reflexivity.
Defined.

Example health_ex_current :
  classifyPortfolioStreamHealth scope_ex health_ex (200 * Second) = orderIntegrityHealthCurrent.
Proof. vm_compute. reflexivity. Qed.
