(* ===== verification/OrderViews.v ===== *)
(** * The order read model

    From journal events to product rows
    (src/internal/daemon/order_read_model.go and
    stock_entry_stop_lifecycle.go): projections between journal events, rows
    and broker callbacks; the per-order fold over the whole journal; and the
    derived state of attached-stop children. *)

From stdpp Require Import base decidable list strings gmap sorting.
From Stdlib Require Import ZArith Lia String Ascii.
From S2P Require Import Prelude OrderTypes OrderStatus OrderFold OrderFoldFacts OrderKeys BrokerScope.

(** ** Projections *)

(** orderJournalEventFromView *)
Definition orderJournalEventFromView (view : OrderView) (eventType : string) (at_ : time)
    : orderJournalEvent := mkorderJournalEvent
  (v_AttachedStop view) (v_EntryLink view) (v_FixedStopPrice view) (v_BrokerParentID view)
  (v_Deactivated view) (v_AlgoStrategy view) (v_AlgoKnown view) (v_AdaptivePriority view) false
  0 at_ eventType (v_OrderRef view) (v_PreviewTokenID view) (v_ReservedOrderID view)
  (v_ClientID view) 0 (v_Account view) (v_Endpoint view) (v_Mode view) (v_Source view) ""
  (v_PurgeID view) (v_LegID view) (v_BypassPreview view) (v_Symbol view) (v_SecType view)
  (v_ConID view) (v_Exchange view) (v_PrimaryExch view) (v_Currency view) (v_LocalSymbol view)
  (v_TradingClass view) (v_Expiry view) (v_Strike view) (v_Right view) (v_Multiplier view)
  (v_Action view) (v_OrderType view) (v_TIF view) (v_TriggerMethod view) (v_OutsideRTH view)
  (v_Quantity view) (v_LimitPrice view) (v_Trail view) (v_OpenClose view) (v_OCAGroup view)
  (v_OCAType view) (v_Status view) (v_Filled view) (v_Remaining view) (v_AvgFillPrice view)
  (v_LastFillPrice view) (v_WhyHeld view) (v_MktCapPrice view) "" "" f0 "" 0 "" "" "" "" "" ""
  None "" false.

(** orderEventFromJournal *)
Definition orderEventFromJournal (ev : orderJournalEvent) : OrderEvent := mkOrderEvent
  (e_AttachedStop ev) (e_EntryLink ev) (e_FixedStopPrice ev) (e_BrokerParentID ev) ""
  (e_Deactivated ev) (e_AlgoStrategy ev) (e_AlgoKnown ev) (e_AdaptivePriority ev) (e_At ev)
  (e_Type ev) (e_OrderRef ev) (e_PreviewTokenID ev) (e_ReservedOrderID ev) (e_ClientID ev)
  (e_PermID ev) (e_Account ev) (e_Endpoint ev) (e_Mode ev) (e_Source ev) (e_PurgeID ev)
  (e_LegID ev) (e_BypassPreview ev) (e_Symbol ev) (e_SecType ev) (e_ConID ev) (e_Exchange ev)
  (e_PrimaryExch ev) (e_Currency ev) (e_LocalSymbol ev) (e_TradingClass ev) (e_Expiry ev)
  (e_Strike ev) (e_Right ev) (e_Multiplier ev) (e_Action ev) (e_OrderType ev) (e_TIF ev)
  (e_TriggerMethod ev) (e_OutsideRTH ev) (e_Quantity ev) (e_LimitPrice ev) (e_Trail ev)
  (e_OpenClose ev) (e_Status ev) (mapOrderJournalLifecycleStatus ev) (e_Filled ev)
  (e_Remaining ev) (e_AvgFillPrice ev) (e_LastFillPrice ev) (e_WhyHeld ev) (e_MktCapPrice ev)
  (e_ExecID ev) (e_ExecTime ev) (e_ErrorCode ev) (e_SendState ev) (e_Message ev)
  (orderOriginForRead (e_Origin ev)).

(** trailSpecFromLifecycle *)
Definition trailSpecFromLifecycle (ev : OrderLifecycleEvent) : option OrderTrailSpec :=
  if one_of (ToUpper (TrimSpace (b_OrderType ev))) [OrderTypeTRAIL; OrderTypeTRAILLIMIT] then
    let trail := zero_OrderTrailSpec <| t_Basis := OrderTrailBasisInstrumentPrice |>
                   <| t_InitialStopPrice := b_TrailStopPrice ev |> in
    let trail :=
      if b_TrailingPercent ev >f f0 then
        trail <| t_OffsetType := OrderTrailOffsetPercent |>
          <| t_TrailingPercent := Some (b_TrailingPercent ev) |>
      else if b_AuxPrice ev >f f0 then
        trail <| t_OffsetType := OrderTrailOffsetAmount |>
          <| t_TrailingAmount := Some (b_AuxPrice ev) |>
      else trail in
    let trail :=
      if b_LmtPriceOffset ev >f f0
      then trail <| t_LimitOffset := Some (b_LmtPriceOffset ev) |> else trail in
    if (t_InitialStopPrice trail <=f f0) && negb (present (t_TrailingPercent trail)) &&
       negb (present (t_TrailingAmount trail)) && negb (present (t_LimitOffset trail))
    then None else Some trail
  else None.

(** The composite literal of orderJournalEventFromLifecycle. *)
Definition lifecycleEventBase (ev : OrderLifecycleEvent) (at_ : time)
    : orderJournalEvent := mkorderJournalEvent
  None None f0 (b_ParentID ev) (b_Deactivated ev) (b_AlgoStrategy ev) (b_AlgoKnown ev)
  (b_AdaptivePriority ev) false 0 at_ "" (b_OrderRef ev) "" (b_OrderID ev) (b_ClientID ev)
  (b_PermID ev) (b_Account ev) "" "" "" "" "" "" false (b_Symbol ev) (b_SecType ev)
  (b_ConID ev) (b_Exchange ev) "" (b_Currency ev) (b_LocalSymbol ev) (b_TradingClass ev)
  (b_Expiry ev) (b_Strike ev) (b_Right ev) (b_Multiplier ev) (b_Action ev) (b_OrderType ev)
  (b_TIF ev) (b_TriggerMethod ev) (b_OutsideRth ev) (b_TotalQuantity ev) (b_LimitPrice ev)
  (trailSpecFromLifecycle ev) "" (b_OcaGroup ev) (b_OcaType ev) (b_Status ev) (b_Filled ev)
  (b_Remaining ev) (b_AvgFillPrice ev) (b_LastFillPrice ev) (b_WhyHeld ev) (b_MktCapPrice ev)
  (b_ExecID ev) (b_ExecTime ev) f0 "" (b_ErrorCode ev) "" "" "" "" "" (b_Message ev) None ""
  (b_ClientIDPresent ev).

(** orderJournalEventFromLifecycle; the event is meaningful when the flag is set. *)
Definition orderJournalEventFromLifecycle (ev : OrderLifecycleEvent) (at_ : time)
    : orderJournalEvent * bool :=
  let out := lifecycleEventBase ev at_ in
  let out :=
    if (b_OrderType ev =s "STP") && (b_AuxPrice ev >f f0)
    then out <| e_FixedStopPrice := b_AuxPrice ev |> else out in
  let keyed (out : orderJournalEvent) :=
    (out, (0 <? e_ReservedOrderID out) || (e_OrderRef out <>s "") || (0 <? e_PermID out)) in
  if b_Type ev =s OrderLifecycleEventOpenOrder then
    let out := out <| e_Type := orderJournalEventBrokerAcknowledged |>
                 <| e_SendState := orderSendStateBrokerAcknowledged |> in
    keyed (if e_Status out =s "" then out <| e_Status := "Submitted" |> else out)
  else if b_Type ev =s OrderLifecycleEventStatus then
    let out := out <| e_Type := orderJournalEventStatusUpdated |> in
    keyed
      (if orderLifecycleStatusIsTerminal
            (mapBrokerOrderLifecycleWithDeactivation (b_Status ev) (b_Filled ev) (b_Remaining ev)
               (b_Deactivated ev))
       then out <| e_SendState := orderSendStateTerminal |>
       else if brokerOrderStatusIsUncertainPending (b_Status ev)
       then out <| e_SendState := orderSendStateUncertainSend |>
       else if b_Status ev <>s "" then out <| e_SendState := orderSendStateBrokerAcknowledged |>
       else out)
  else if b_Type ev =s OrderLifecycleEventExecDetails then
    let out := out <| e_Type := orderJournalEventStatusUpdated |> <| e_Status := "Execution" |>
                 <| e_Filled := b_CumQty ev |> <| e_LastFillPrice := b_Price ev |>
                 <| e_ExecShares := b_Shares ev |> <| e_ExecSide := b_ExecutionSide ev |>
                 <| e_AvgFillPrice := b_AvgFillPrice ev |> in
    keyed
      (if (e_Quantity out >f f0) &&
          (e_Filled out >=f fsub (e_Quantity out) (f_const 1 1000000000))
       then out <| e_Status := "Filled" |> <| e_Remaining := f0 |>
              <| e_SendState := orderSendStateTerminal |>
       else out)
  else if b_Type ev =s OrderLifecycleEventError then
    let out := out <| e_Type := orderJournalEventBrokerError |> in
    keyed
      (if orderLifecycleStatusIsTerminal
            (mapBrokerErrorLifecycleStatus (e_ErrorCode out) (e_Status out))
       then out <| e_SendState := orderSendStateTerminal |>
       else out <| e_SendState := orderSendStateUncertainSend |>)
  else (zero_orderJournalEvent, false).

(** ** Attached-stop children (deriveStockEntryStates) *)

Definition EntryStateUnknown : string := "relationship_unknown".

(** The parent test of the inner loop. *)
Definition isEntryParent (child : OrderView) (link : StockEntryLink) (p : OrderView) : bool :=
  (v_OrderRef p =s el_ParentRef link) && (v_ReservedOrderID p =? el_ParentID link) &&
  (v_Account p =s v_Account child) && (v_ClientID p =? v_ClientID child) &&
  (v_Endpoint p =s v_Endpoint child) && (v_Mode p =s v_Mode child).

(** The guard on the terms of a matched pair (its negation skips the child). *)
Definition entryTermsAgree (child : OrderView) (link : StockEntryLink) (parent : OrderView) : bool :=
  match v_AttachedStop parent with
  | None => false
  | Some stop =>
      (el_PairRef link =s v_OrderRef parent) && (v_Action parent =s "BUY") &&
      (v_SecType parent =s "STK") && (v_ConID parent =? v_ConID child) &&
      (v_Currency parent =s v_Currency child) &&
      (v_Quantity parent =f f_of_Z (el_EntryQuantity link)) &&
      negb ((v_Quantity child <=f f0) || (v_Quantity child >f f_of_Z (el_EntryQuantity link))) &&
      (v_OrderType child =s "STP") && (v_Action child =s "SELL") &&
      (v_FixedStopPrice child =f as_Price stop) && (v_TIF child =s "GTC") &&
      negb (v_OutsideRTH child) && (v_TriggerMethod child =? 2)
  end.

(** The loop over the journal: positions of the full parent fill and of the
    child's last working report, and the proof of a quantity reduction. *)
Record entryScan := mkScan {
  es_fullAt : Z; es_workingAt : Z; es_shrinkProven : bool;
  es_shrinkIntent : option orderJournalEvent
}.
#[global] Instance entryScan_eta : Eta entryScan := fun r => mkScan
  (es_fullAt r) (es_workingAt r) (es_shrinkProven r) (es_shrinkIntent r).

Definition isWorkingReport (link : StockEntryLink) (e : orderJournalEvent) : bool :=
  match e_BrokerParentID e with Some p => p =? el_ParentID link | None => false end &&
  ((e_Status e =s "Submitted") || (e_Status e =s "PreSubmitted")) &&
  (e_WhyHeld e =s "") && negb (deref_true (e_Deactivated e)).

Definition isShrinkIntent (child : OrderView) (link : StockEntryLink) (stop : AttachedStockStop)
    (e : orderJournalEvent) : bool :=
  (orderJournalKey e =s orderViewKey child) && (e_Type e =s orderJournalEventModifyRequested) &&
  present (e_EntryLink e) && stockEntryLinksEqual (e_EntryLink e) (Some link) &&
  (e_FixedStopPrice e =f as_Price stop) && (e_Quantity e =f v_Quantity child).

Definition entryScanStep (child : OrderView) (link : StockEntryLink) (parent : OrderView)
    (stop : AttachedStockStop) (s : entryScan) (ne : Z * orderJournalEvent) : entryScan :=
  let '(n, e) := ne in
  let s := if isShrinkIntent child link stop e then s <| es_shrinkIntent := Some e |> else s in
  let s :=
    match es_shrinkIntent s with
    | Some i =>
        if (orderJournalKey e =s orderViewKey child) && orderModifyAcknowledgementMatches i e
        then s <| es_shrinkProven := true |> else s
    | None => s
    end in
  if negb ((e_Type e =s orderJournalEventBrokerAcknowledged) ||
           (e_Type e =s orderJournalEventStatusUpdated)) then s
  else
    let s :=
      if (orderJournalKey e =s orderViewKey parent) &&
         (e_ReservedOrderID e =? v_ReservedOrderID parent) &&
         (e_Filled e >=f f_of_Z (el_EntryQuantity link))
      then if es_fullAt s <? 0 then s <| es_fullAt := n |> else s
      else s in
    if (orderJournalKey e =s orderViewKey child) &&
       (e_ReservedOrderID e =? v_ReservedOrderID child) && (e_Status e <>s "Execution")
    then s <| es_workingAt := if isWorkingReport link e then n else -1 |>
    else s.

Fixpoint indexed {A} (n : Z) (l : list A) : list (Z * A) :=
  match l with [] => [] | x :: r => (n, x) :: indexed (n + 1) r end.

Definition entryScanEvents (child : OrderView) (link : StockEntryLink) (parent : OrderView)
    (stop : AttachedStockStop) (events : list orderJournalEvent) : entryScan :=
  fold_left (entryScanStep child link parent stop) (indexed 0 events)
    (mkScan (-1) (-1) (v_Quantity child =f f_of_Z (el_EntryQuantity link)) None).

Definition isWorkingLifecycle (status : string) : bool :=
  one_of status [OrderLifecycleSubmitted; OrderLifecyclePreSubmitted; OrderLifecyclePartiallyFilled].

(** The state of a child whose parent relation holds. *)
Definition entryStateFromEvidence (child : OrderView) (link : StockEntryLink) (parent : OrderView)
    (stop : AttachedStockStop) (events : list orderJournalEvent) : OrderView :=
  let s := entryScanEvents child link parent stop events in
  if negb (es_shrinkProven s) then child
  else if (0 <=? es_fullAt s) && (v_Filled parent >=f f_of_Z (el_EntryQuantity link)) then
    let child := child <| v_EntryState := "activation_pending" |> in
    let child :=
      if (es_fullAt s <? es_workingAt s) && v_Open child &&
         isWorkingLifecycle (v_LifecycleStatus child) && negb (deref_true (v_Deactivated child))
      then
        let child := child <| v_EntryState := "active" |> in
        child <| v_ModifyEligible := orderViewModifyEligible child |>
      else child in
    if negb (v_Open child) then child <| v_EntryState := "terminal" |> else child
  else if v_Open parent && isWorkingLifecycle (v_LifecycleStatus parent) && v_Open child &&
          EqualFold (v_Status child) "PreSubmitted"
  then child <| v_EntryState := "held" |>
  else child.

(** One iteration of the outer loop, for the row [child] among [views]. *)
Definition deriveStockEntryState (views : list OrderView) (events : list orderJournalEvent)
    (child : OrderView) : OrderView :=
  match v_EntryLink child with
  | None => child
  | Some link =>
      let child := child <| v_ModifyEligible := false |> <| v_EntryState := EntryStateUnknown |> in
      match List.filter (isEntryParent child link) views with
      | [parent] =>
          if negb (entryTermsAgree child link parent) then child
          else
            match v_BrokerParentID child, v_AttachedStop parent with
            | Some b, Some stop =>
                if negb (b =? el_ParentID link) then child
                else entryStateFromEvidence child link parent stop events
            | _, _ =>
                if v_SendState child =s orderSendStateSendAttempted
                then child <| v_EntryState := "awaiting_broker" |> else child
            end
      | _ => child
      end
  end.

(** deriveStockEntryStates: row by row, in place. *)
Definition deriveStockEntryStates (views : list OrderView) (events : list orderJournalEvent) : list OrderView :=
  in_place (fun views child => deriveStockEntryState views events child) views.

(** ** Building the rows *)

(** sortOrderViews: latest update first, stable. *)
Definition laterFirst (a b : OrderView) : bool := v_UpdatedAt b <=? v_UpdatedAt a.
Definition sortOrderViews (views : list OrderView) : list OrderView := stable_sort laterFirst views.

(** The per-order folds: foldsByKey of buildOrderViews. *)
Definition foldsByKey_step (aliases : gmap string string) (m : gmap string orderViewFold)
    (ev : orderJournalEvent) : gmap string orderViewFold :=
  let key := orderJournalCanonicalKey ev aliases in
  if key =s "" then m else <[key := fold_merge (default emptyFold (m !! key)) ev]> m.

Definition foldsByKey (events : list orderJournalEvent) : gmap string orderViewFold :=
  fold_left (foldsByKey_step (orderJournalKeyAliases events)) events ∅.

(** The rows in the order [keys] in which Go ranges over the folds. *)
Definition publishedRows (keys : list string) (folds : gmap string orderViewFold) : list OrderView :=
  omap (fun k => publish <$> folds !! k) keys.

(** buildOrderViews; [range] is Go's (unspecified) map iteration order. *)
Definition buildOrderViews (range : gmap string orderViewFold -> list string)
    (events : list orderJournalEvent) : list OrderView :=
  let folds := foldsByKey events in
  sortOrderViews (deriveStockEntryStates (publishedRows (range folds) folds) events).

(** What Go guarantees of ranging over a map: every key once. *)
Definition ranges_once (range : gmap string orderViewFold -> list string) : Prop :=
  forall m, range m ≡ₚ (map_to_list m).*1.

Definition range_sorted (m : gmap string orderViewFold) : list string := (map_to_list m).*1.

(** buildOrderEventsByKey *)
Definition eventsByKey_step (aliases : gmap string string) (m : gmap string (list OrderEvent))
    (ev : orderJournalEvent) : gmap string (list OrderEvent) :=
  let key := orderJournalCanonicalKey ev aliases in
  if key =s "" then m else <[key := default [] (m !! key) ++ [orderEventFromJournal ev]]> m.

Definition buildOrderEventsByKey (events : list orderJournalEvent) : gmap string (list OrderEvent) :=
  fold_left (eventsByKey_step (orderJournalKeyAliases events)) events ∅.

(** ** Deriving child states is row-wise *)

(** Rows that differ only in what deriveStockEntryStates writes. *)
Definition same_core (a b : OrderView) : Prop :=
  exists es me, b = a <| v_EntryState := es |> <| v_ModifyEligible := me |>.

Lemma same_core_refl a : same_core a a.
Proof. exists (v_EntryState a), (v_ModifyEligible a). by destruct a. Qed.

Lemma same_core_trans a b c : same_core a b -> same_core b c -> same_core a c.
Proof. intros (es1 & me1 & ->) (es2 & me2 & ->). exists es2, me2. by destruct a. Qed.

Lemma same_core_state a es : same_core a (a <| v_EntryState := es |>).
Proof. exists es, (v_ModifyEligible a). by destruct a. Qed.

Lemma same_core_modify a me : same_core a (a <| v_ModifyEligible := me |>).
Proof. exists (v_EntryState a), me. by destruct a. Qed.

#[export] Hint Resolve same_core_refl same_core_state same_core_modify : canary.

(** Peel the derivation's field writes. *)
Ltac core_steps :=
  repeat first [apply same_core_refl |
    eapply same_core_trans; [|first [apply same_core_state | apply same_core_modify]]].

Lemma entryStateFromEvidence_core child link parent stop events :
  same_core child (entryStateFromEvidence child link parent stop events).
Proof.
  unfold entryStateFromEvidence. generalize (entryScanEvents child link parent stop events).
  intros s. cbv zeta. case_if; [core_steps|]. case_if; [|case_if; core_steps].
  match goal with |- context [negb (v_Open ?c)] => assert (Hd : same_core child c) end.
  { case_if; core_steps. }
  revert Hd. match goal with |- same_core _ ?c -> _ => generalize c end. intros d Hd.
  case_if; [eapply same_core_trans; [exact Hd | core_steps] | done].
Qed.

Lemma derive_core views events child :
  same_core child (deriveStockEntryState views events child).
Proof.
  unfold deriveStockEntryState. destruct (v_EntryLink child) as [link|]; [|apply same_core_refl].
  set (c := child <| v_ModifyEligible := false |> <| v_EntryState := EntryStateUnknown |>).
  assert (Hc : same_core child c) by (unfold c; core_steps).
  clearbody c. apply (same_core_trans _ _ _ Hc).
  destruct (List.filter _ views) as [|parent [|]]; [core_steps| |core_steps].
  case_if; [core_steps|].
  destruct (v_BrokerParentID c), (v_AttachedStop parent); repeat case_if;
    first [apply entryStateFromEvidence_core | core_steps].
Qed.

(** The parts of a parent row the derivation reads. *)
Lemma core_parent_reads child link p p' stop events :
  same_core p p' ->
  isEntryParent child link p' = isEntryParent child link p /\
  entryTermsAgree child link p' = entryTermsAgree child link p /\
  v_AttachedStop p' = v_AttachedStop p /\
  entryStateFromEvidence child link p' stop events =
  entryStateFromEvidence child link p stop events.
Proof. intros (es & me & ->). by destruct p. Qed.

Lemma derive_same_core views views' events child :
  Forall2 same_core views views' ->
  deriveStockEntryState views' events child = deriveStockEntryState views events child.
Proof.
  intros Hv. unfold deriveStockEntryState. destruct (v_EntryLink child) as [link|]; [|done].
  generalize (child <| v_ModifyEligible := false |> <| v_EntryState := EntryStateUnknown |>) as c.
  intros c.
  assert (Hf : Forall2 same_core (List.filter (isEntryParent c link) views)
                 (List.filter (isEntryParent c link) views')).
  { induction Hv as [|p p' l l' Hp _ IH]; simpl; [done|].
    destruct (core_parent_reads c link p p' zero_AttachedStockStop events Hp) as (-> & _).
    case_if; [by constructor | done]. }
  destruct Hf as [|p p' l l' Hp Hl]; [done|]. destruct Hl; [|done].
  assert (Hr := fun stop => core_parent_reads c link p p' stop events Hp).
  destruct (Hr zero_AttachedStockStop) as (_ & -> & -> & _).
  case_if; [done|]. destruct (v_BrokerParentID c), (v_AttachedStop p) as [stop|]; try done.
  case_if; [done|]. by destruct (Hr stop) as (_ & _ & _ & ->).
Qed.

Lemma derive_states_map views events :
  deriveStockEntryStates views events = map (deriveStockEntryState views events) views.
Proof.
  apply in_place_map. intros pre x post ->. apply derive_same_core. apply Forall2_app.
  - generalize (pre ++ x :: post) as all. intros all.
    induction pre; simpl; constructor; [apply derive_core | done].
  - induction (x :: post); constructor; [apply same_core_refl | done].
Qed.

Lemma derive_perm views views' events child :
  views ≡ₚ views' ->
  deriveStockEntryState views events child = deriveStockEntryState views' events child.
Proof.
  intros Hp. unfold deriveStockEntryState. destruct (v_EntryLink child) as [link|]; [|done].
  generalize (child <| v_ModifyEligible := false |> <| v_EntryState := EntryStateUnknown |>) as c.
  intros c.
  assert (Hf : List.filter (isEntryParent c link) views ≡ₚ List.filter (isEntryParent c link) views').
  { induction Hp; simpl; repeat case_if; try done; [by f_equiv | apply Permutation_swap | by etrans]. }
  assert (Hl := Permutation_length Hf).
  destruct (List.filter _ views) as [|p [|q l]] eqn:E1.
  - by destruct (List.filter _ views').
  - destruct (List.filter _ views') as [|p' [|]]; try discriminate Hl.
    apply Permutation_singleton_l in Hf. injection Hf as ->. done.
  - by destruct (List.filter _ views') as [|p' [|]].
Qed.

(** ** One row per order *)

(** The journal of one order, in event order. *)
Definition events_of (events : list orderJournalEvent) (key : string) : list orderJournalEvent :=
  List.filter (fun ev => orderJournalCanonicalKey ev (orderJournalKeyAliases events) =s key) events.

(** The orders of a journal. *)
Definition order_keys (events : list orderJournalEvent) : list string :=
  remove_dups (List.filter (fun k => k <>s "")
    (map (fun ev => orderJournalCanonicalKey ev (orderJournalKeyAliases events)) events)).

(** The rows before child states are derived: each order folded on its own. *)
Definition order_rows (events : list orderJournalEvent) : list OrderView :=
  map (fun k => order_row (events_of events k)) (order_keys events).

Lemma foldsByKey_lookup al evs m k :
  k <> "" ->
  fold_left (foldsByKey_step al) evs m !! k =
  match List.filter (fun ev => orderJournalCanonicalKey ev al =s k) evs with
  | [] => m !! k
  | l => Some (fold_events (default emptyFold (m !! k)) l)
  end.
Proof.
  intros Hk. revert m. induction evs as [|ev evs IH]; intros m; [done|]. simpl.
  rewrite IH. unfold foldsByKey_step. clear IH.
  destruct (orderJournalCanonicalKey ev al =s k) eqn:E.
  - bool_hyps. rewrite E. apply String.eqb_neq in Hk as ->. rewrite lookup_insert_eq.
    by destruct (List.filter _ evs).
  - case_if; [done|]. bool_hyps. by rewrite lookup_insert_ne by congruence.
Qed.

Lemma foldsByKey_empty_key al evs m :
  m !! "" = None -> fold_left (foldsByKey_step al) evs m !! "" = None.
Proof.
  revert m. induction evs as [|ev evs IH]; intros m Hm; [done|]. simpl. apply IH.
  unfold foldsByKey_step. case_if; [done|]. bool_hyps. by rewrite lookup_insert_ne.
Qed.

Lemma order_keys_spec events k :
  k ∈ order_keys events <-> k <> "" /\ events_of events k <> [].
Proof.
  unfold order_keys. rewrite elem_of_remove_dups, list_elem_of_In, filter_In, in_map_iff. split.
  - intros [(ev & Hk & Hin) Hne]. bool_hyps. split; [done|].
    intros Hnil. assert (Hf : In ev (events_of events k)); [|by rewrite Hnil in Hf].
    apply filter_In. split; [done|]. by apply String.eqb_eq.
  - intros [Hne Hnil]. split; [|by apply negb_true_iff, String.eqb_neq].
    destruct (events_of events k) as [|ev l] eqn:E; [done|].
    assert (Hin : In ev (events_of events k)) by (rewrite E; by left).
    apply filter_In in Hin as [Hin Hk]. bool_hyps. eauto.
Qed.

Lemma foldsByKey_spec events k :
  foldsByKey events !! k =
  if bool_decide (k ∈ order_keys events) then Some (fold_events emptyFold (events_of events k)) else None.
Proof.
  destruct (decide (k = "")) as [->|Hk].
  { rewrite bool_decide_eq_false_2 by (rewrite order_keys_spec; tauto).
    apply foldsByKey_empty_key, lookup_empty. }
  unfold foldsByKey. rewrite foldsByKey_lookup by done. rewrite lookup_empty. simpl.
  fold (events_of events k). assert (Hs := order_keys_spec events k).
  case_bool_decide as Hin; destruct (events_of events k) as [|ev l]; try done.
  - destruct (proj1 Hs Hin) as [_ Hn]. by destruct Hn.
  - destruct Hin. by apply Hs.
Qed.

Lemma foldsByKey_keys events : (map_to_list (foldsByKey events)).*1 ≡ₚ order_keys events.
Proof.
  apply NoDup_Permutation; [apply NoDup_fst_map_to_list | apply NoDup_remove_dups |].
  intros k. rewrite list_elem_of_fmap. split.
  - intros ([k' f] & -> & Hin). apply elem_of_map_to_list in Hin. rewrite foldsByKey_spec in Hin.
    case_bool_decide; done.
  - intros Hk. exists (k, fold_events emptyFold (events_of events k)). split; [done|].
    apply elem_of_map_to_list. rewrite foldsByKey_spec. by rewrite bool_decide_eq_true_2.
Qed.

Lemma publishedRows_perm range events :
  ranges_once range ->
  publishedRows (range (foldsByKey events)) (foldsByKey events) ≡ₚ order_rows events.
Proof.
  intros Hr. specialize (Hr (foldsByKey events)). unfold publishedRows.
  rewrite Hr, foldsByKey_keys. unfold order_rows.
  assert (Hall : forall k, k ∈ order_keys events ->
    publish <$> foldsByKey events !! k = Some (order_row (events_of events k))).
  { intros k Hk. rewrite foldsByKey_spec. by rewrite bool_decide_eq_true_2. }
  induction (order_keys events) as [|k ks IH]; [done|]. simpl.
  rewrite Hall by (by left). simpl. f_equiv. apply IH. intros k' Hk'. apply Hall. by right.
Qed.

Lemma laterFirst_total x y : laterFirst x y = false -> laterFirst y x = true.
Proof. unfold laterFirst. intros H. bool_hyps. apply Z.leb_le. lia. Qed.

Lemma buildOrderViews_perm range events :
  ranges_once range ->
  buildOrderViews range events ≡ₚ
  map (deriveStockEntryState (order_rows events) events) (order_rows events).
Proof.
  intros Hr. unfold buildOrderViews, sortOrderViews.
  rewrite stable_sort_perm, derive_states_map.
  assert (Hp := publishedRows_perm range events Hr).
  rewrite (map_ext _ (deriveStockEntryState (order_rows events) events)).
  - by rewrite Hp.
  - intros c. by apply derive_perm.
Qed.

Lemma buildOrderViews_sorted range events :
  Sorted (fun a b => laterFirst a b = true) (buildOrderViews range events).
Proof. apply stable_sort_sorted, laterFirst_total. Qed.

(** C28. The read model is its specification: whatever order Go ranges over the
    folds, the rows are exactly one row per order of the journal, each the
    fold of that order's own events in journal order with its child state
    derived against all rows, sorted by latest update first. *)
Theorem read_model_refines_per_order_fold range events :
  ranges_once range ->
  buildOrderViews range events ≡ₚ
    map (deriveStockEntryState (order_rows events) events)
        (map (fun k => order_row (events_of events k)) (order_keys events)) /\
  Sorted (fun a b => laterFirst a b = true) (buildOrderViews range events).
Proof. intros Hr. split; [by apply buildOrderViews_perm | apply buildOrderViews_sorted]. Qed.

Definition view_journal : list orderJournalEvent := [ev_place; ev_ack].

Lemma read_model_refines_per_order_fold_witness :
  buildOrderViews range_sorted view_journal ≡ₚ
    map (deriveStockEntryState (order_rows view_journal) view_journal)
        (map (fun k => order_row (events_of view_journal k)) (order_keys view_journal)) /\
  Sorted (fun a b => laterFirst a b = true) (buildOrderViews range_sorted view_journal).
Proof. apply (read_model_refines_per_order_fold range_sorted view_journal). intros m. reflexivity. Defined.

(** The published list does not depend on Go's map iteration order as long
    as no two rows share an update time; with ties the rows are the same up to
    order. *)
Theorem read_model_independent_of_map_order r1 r2 events :
  ranges_once r1 -> ranges_once r2 ->
  buildOrderViews r1 events ≡ₚ buildOrderViews r2 events /\
  (NoDup (v_UpdatedAt <$> buildOrderViews r1 events) ->
   buildOrderViews r1 events = buildOrderViews r2 events).
Proof.
  intros H1 H2.
  assert (Hp : buildOrderViews r1 events ≡ₚ buildOrderViews r2 events).
  { rewrite (buildOrderViews_perm r1), (buildOrderViews_perm r2) by done. done. }
  split; [done|]. intros Hnd.
  apply (sorted_perm_unique v_UpdatedAt); [done | done | apply buildOrderViews_sorted..].
Qed.

Definition range_reversed (m : gmap string orderViewFold) : list string := reverse (range_sorted m).

Lemma read_model_independent_of_map_order_witness :
  buildOrderViews range_sorted key_journal ≡ₚ buildOrderViews range_reversed key_journal /\
  (NoDup (v_UpdatedAt <$> buildOrderViews range_sorted key_journal) ->
   buildOrderViews range_sorted key_journal = buildOrderViews range_reversed key_journal).
Proof.
  apply (read_model_independent_of_map_order range_sorted range_reversed key_journal).
  - intros m. reflexivity.
  - intros m. apply reverse_Permutation.
Defined.

(** ** The events of a row *)

Lemma eventsByKey_lookup al evs m k :
  k <> "" ->
  fold_left (eventsByKey_step al) evs m !! k =
  match List.filter (fun ev => orderJournalCanonicalKey ev al =s k) evs with
  | [] => m !! k
  | l => Some (default [] (m !! k) ++ map orderEventFromJournal l)
  end.
Proof.
  intros Hk. revert m. induction evs as [|ev evs IH]; intros m; [done|]. simpl.
  rewrite IH. unfold eventsByKey_step. clear IH.
  destruct (orderJournalCanonicalKey ev al =s k) eqn:E.
  - bool_hyps. rewrite E. apply String.eqb_neq in Hk as ->. rewrite lookup_insert_eq. simpl.
    destruct (List.filter _ evs); simpl; [done|]. by rewrite <- List.app_assoc.
  - case_if; [done|]. bool_hyps. by rewrite lookup_insert_ne by congruence.
Qed.

Lemma eventsByKey_present events k l :
  buildOrderEventsByKey events !! k = Some l ->
  k <> "" /\ exists ev, In ev events /\ orderJournalCanonicalKey ev (orderJournalKeyAliases events) = k.
Proof.
  intros H. destruct (decide (k = "")) as [->|Hk].
  - exfalso. revert H. unfold buildOrderEventsByKey.
    assert (Hn : (∅ : gmap string (list OrderEvent)) !! "" = None) by apply lookup_empty.
    revert Hn. generalize (∅ : gmap string (list OrderEvent)) as m.
    generalize (orderJournalKeyAliases events) as al. intros al.
    induction events as [|ev evs IH]; intros m Hm; simpl; [by rewrite Hm|].
    apply IH. unfold eventsByKey_step. case_if; [done|]. bool_hyps. by rewrite lookup_insert_ne.
  - split; [done|]. unfold buildOrderEventsByKey in H. rewrite eventsByKey_lookup in H by done.
    destruct (List.filter _ events) as [|ev r] eqn:E; [by rewrite lookup_empty in H|].
    assert (Hin : In ev (ev :: r)) by (by left). rewrite <- E in Hin.
    apply filter_In in Hin as [Hin Hk']. bool_hyps. eauto.
Qed.

(** ** Broker callbacks enter the journal well-formed *)

(** The four callback kinds the daemon journals, and the type each becomes. *)
Definition journaledKinds : list (string * string) :=
  [(OrderLifecycleEventOpenOrder, orderJournalEventBrokerAcknowledged);
   (OrderLifecycleEventStatus, orderJournalEventStatusUpdated);
   (OrderLifecycleEventExecDetails, orderJournalEventStatusUpdated);
   (OrderLifecycleEventError, orderJournalEventBrokerError)].

(** What the journal event keeps of the callback, whatever its kind. *)
Definition sameOrder (ev : OrderLifecycleEvent) (at_ : time) (out : orderJournalEvent) : Prop :=
  e_ReservedOrderID out = b_OrderID ev /\ e_OrderRef out = b_OrderRef ev /\ e_PermID out = b_PermID ev /\
  e_ClientID out = b_ClientID ev /\ e_Account out = b_Account ev /\ e_ConID out = b_ConID ev /\
  e_Symbol out = b_Symbol ev /\ e_Action out = b_Action ev /\ e_Quantity out = b_TotalQuantity ev /\
  e_ExecID out = b_ExecID ev /\ e_ErrorCode out = b_ErrorCode ev /\ e_At out = at_ /\
  e_Filled out = (if b_Type ev =s OrderLifecycleEventExecDetails then b_CumQty ev else b_Filled ev).

Lemma keyed_spec (o : orderJournalEvent) :
  (0 <? e_ReservedOrderID o) || (e_OrderRef o <>s "") || (0 <? e_PermID o) = true <->
  0 < e_ReservedOrderID o \/ e_OrderRef o <> "" \/ 0 < e_PermID o.
Proof. rewrite !orb_true_iff, !Z.ltb_lt, negb_true_iff, String.eqb_neq. tauto. Qed.

(** C34.  A broker callback enters the journal exactly when its kind is one of
    the four the daemon knows (open order, status, execution, error) and it
    names an order: a positive order id, an order reference or a positive
    permanent id; every other kind, and a callback without identity, is dropped.
    What enters has the type that belongs to its kind (acknowledgement for an
    open order, status update for a status or an execution, broker error for an
    error), names the callback's own order, contract, side, quantity and
    execution, takes its filled quantity from the cumulative quantity for an
    execution and from the callback's fill otherwise, counts as broker evidence,
    and satisfies the well-formedness the fold theorems assume whenever the
    callback's status is empty or in the broker's vocabulary. *)
Theorem lifecycle_callbacks_are_well_formed ev at_ :
  let r := orderJournalEventFromLifecycle ev at_ in
  (r.2 = true <->
     In (b_Type ev) (map fst journaledKinds) /\ (0 < b_OrderID ev \/ b_OrderRef ev <> "" \/ 0 < b_PermID ev)) /\
  (r.2 = true ->
     In (b_Type ev, e_Type r.1) journaledKinds /\ sameOrder ev at_ r.1 /\ isEvidenceType (e_Type r.1) = true /\
     ((b_Status ev =s "") || recognizedStatus (b_Status ev) = true -> wf_event r.1 = true)).
Proof.
  intros r. unfold r, orderJournalEventFromLifecycle, sameOrder.
  set (out := if (b_OrderType ev =s "STP") && _ then _ else _).
  assert (Hout : e_Status out = b_Status ev /\ e_ReservedOrderID out = b_OrderID ev /\ e_OrderRef out = b_OrderRef ev /\
    e_PermID out = b_PermID ev /\ e_ClientID out = b_ClientID ev /\ e_Account out = b_Account ev /\
    e_ConID out = b_ConID ev /\ e_Symbol out = b_Symbol ev /\ e_Action out = b_Action ev /\
    e_Quantity out = b_TotalQuantity ev /\ e_ExecID out = b_ExecID ev /\ e_ErrorCode out = b_ErrorCode ev /\
    e_At out = at_ /\ e_Filled out = b_Filled ev) by (unfold out; case_if; done).
  destruct Hout as (Hst & Hid & Href & Hperm & Hcl & Hac & Hcon & Hsym & Hact & Hq & Hx & Hec & Hat & Hf).
  clearbody out. cbv zeta.
  assert (Hkey : forall o, e_ReservedOrderID o = e_ReservedOrderID out -> e_OrderRef o = e_OrderRef out ->
    e_PermID o = e_PermID out -> In (b_Type ev) (map fst journaledKinds) ->
    ((0 <? e_ReservedOrderID o) || (e_OrderRef o <>s "") || (0 <? e_PermID o) = true <->
     In (b_Type ev) (map fst journaledKinds) /\ (0 < b_OrderID ev \/ b_OrderRef ev <> "" \/ 0 < b_PermID ev))).
  { intros o H1 H2 H3 Hin. rewrite keyed_spec, H1, H2, H3, Hid, Href, Hperm. tauto. }
  destruct (b_Type ev =s OrderLifecycleEventOpenOrder) eqn:K1; [|
  destruct (b_Type ev =s OrderLifecycleEventStatus) eqn:K2; [|
  destruct (b_Type ev =s OrderLifecycleEventExecDetails) eqn:K3; [|
  destruct (b_Type ev =s OrderLifecycleEventError) eqn:K4]]].
  5: { apply String.eqb_neq in K1, K2, K3, K4. cbn. split; [|done]. split; [done|]. intros [Hin _].
       destruct Hin as [Hin|[Hin|[Hin|[Hin|[]]]]]; congruence. }
  all: bool_hyps; match goal with Hk : b_Type _ = _ |- _ => rewrite Hk in * end.
  all: cbn [fst snd]; split;
    [apply Hkey; [by repeat case_if | by repeat case_if | by repeat case_if | cbn; tauto] | intros _].
  all: split; [by repeat case_if; cbn; tauto|].
  all: unfold wf_event; repeat case_if; cbn [fst snd e_Type e_Status e_SendState set_field] in *;
    (split; [by split_and!; cbn|]); (split; [reflexivity|]); intros Hs; cbn [orb negb andb];
    try reflexivity; rewrite ?Hst in *; try (by rewrite Hs); try exact Hs.
Qed.

Definition cb_filled : OrderLifecycleEvent :=
  zero_OrderLifecycleEvent <| b_Type := OrderLifecycleEventStatus |> <| b_OrderID := 41 |>
    <| b_Status := "Filled" |> <| b_Filled := f_of_Z 100 |>.

Lemma lifecycle_callbacks_are_well_formed_witness :
  let r := orderJournalEventFromLifecycle cb_filled 7 in
  r.2 = true /\ e_Type r.1 = orderJournalEventStatusUpdated /\ wf_event r.1 = true /\
  (orderJournalEventFromLifecycle (cb_filled <| b_Type := "commission" |>) 7).2 = false.
Proof.
  assert (Hr : (orderJournalEventFromLifecycle cb_filled 7).2 = true) by (vm_compute; reflexivity).
  destruct (lifecycle_callbacks_are_well_formed cb_filled 7) as [_ H]. destruct (H Hr) as (_ & _ & _ & Hwf).
  intros r. split; [exact Hr|]. split; [reflexivity|]. split; [apply Hwf; vm_compute; reflexivity|]. reflexivity.
Defined.

(** ** Activation of an attached stop *)

Definition isBrokerReport (e : orderJournalEvent) : bool :=
  (e_Type e =s orderJournalEventBrokerAcknowledged) || (e_Type e =s orderJournalEventStatusUpdated).

(** The broker reports the parent entry completely filled. *)
Definition reportsFullEntry (link : StockEntryLink) (parent : OrderView) (e : orderJournalEvent) : bool :=
  isBrokerReport e && (orderJournalKey e =s orderViewKey parent) &&
  (e_ReservedOrderID e =? v_ReservedOrderID parent) &&
  (e_Filled e >=f f_of_Z (el_EntryQuantity link)).

(** The broker reports on the child itself. *)
Definition reportsChild (child : OrderView) (e : orderJournalEvent) : bool :=
  isBrokerReport e && (orderJournalKey e =s orderViewKey child) &&
  (e_ReservedOrderID e =? v_ReservedOrderID child) && (e_Status e <>s "Execution").

Definition scan_ok (child : OrderView) (link : StockEntryLink) (parent : OrderView)
    (events : list orderJournalEvent) (s : entryScan) : Prop :=
  (es_fullAt s = -1 \/ exists n e, es_fullAt s = Z.of_nat n /\ events !! n = Some e /\
     reportsFullEntry link parent e = true) /\
  (es_workingAt s = -1 \/ exists n e, es_workingAt s = Z.of_nat n /\ events !! n = Some e /\
     reportsChild child e = true /\ isWorkingReport link e = true /\
     forall m e', (n < m)%nat -> events !! m = Some e' -> reportsChild child e' = false).

Lemma indexed_app {A} n (l : list A) x :
  indexed n (l ++ [x]) = indexed n l ++ [(n + Z.of_nat (List.length l), x)].
Proof.
  revert n. induction l as [|y l IH]; intros n; [simpl; by rewrite Z.add_0_r|].
  cbn [app indexed List.length]. rewrite IH.
  by replace (n + Z.of_nat (S (List.length l))) with (n + 1 + Z.of_nat (List.length l)) by lia.
Qed.

(** What one event does to the two positions. *)
Lemma entryScanStep_positions child link parent stop s n e :
  let s' := entryScanStep child link parent stop s (n, e) in
  es_fullAt s' = (if reportsFullEntry link parent e && (es_fullAt s <? 0) then n else es_fullAt s) /\
  es_workingAt s' =
    (if reportsChild child e then (if isWorkingReport link e then n else -1) else es_workingAt s).
Proof.
  unfold entryScanStep, reportsFullEntry, reportsChild, isBrokerReport. cbv zeta.
  set (s0 := if isShrinkIntent child link stop e then _ else _).
  assert (H0 : es_fullAt s0 = es_fullAt s /\ es_workingAt s0 = es_workingAt s)
    by (unfold s0; by case_if).
  set (s1 := match es_shrinkIntent s0 with Some _ => _ | None => _ end).
  assert (H1 : es_fullAt s1 = es_fullAt s /\ es_workingAt s1 = es_workingAt s)
    by (unfold s1; destruct (es_shrinkIntent s0); [by case_if | done]).
  clearbody s1. clear H0. clearbody s0. destruct H1 as [<- <-].
  destruct ((e_Type e =s orderJournalEventBrokerAcknowledged) ||
            (e_Type e =s orderJournalEventStatusUpdated)); cbn [negb andb]; [|done].
  destruct ((orderJournalKey e =s orderViewKey parent) && _ && _); cbn [andb];
    destruct ((orderJournalKey e =s orderViewKey child) && _ && _);
    destruct (es_fullAt s1 <? 0); done.
Qed.

Lemma lookup_snoc_cases {A} (l : list A) x m y :
  (l ++ [x]) !! m = Some y -> l !! m = Some y \/ (m = List.length l /\ y = x).
Proof.
  intros H. apply lookup_app_Some in H as [H | [Hle H]]; [by left|]. right.
  apply list_lookup_singleton_Some in H as [H ->]. split; [lia | done].
Qed.

Lemma scan_ok_events child link parent stop events :
  scan_ok child link parent events (entryScanEvents child link parent stop events).
Proof.
  unfold entryScanEvents. induction events as [|e events IH] using rev_ind.
  { split; left; done. }
  rewrite indexed_app, fold_left_app, Z.add_0_l. cbn [fold_left]. revert IH. generalize (fold_left
    (entryScanStep child link parent stop) (indexed 0 events)
    (mkScan (-1) (-1) (v_Quantity child =f f_of_Z (el_EntryQuantity link)) None)). intros s [Hf Hw].
  set (n := Z.of_nat (List.length events)).
  destruct (entryScanStep_positions child link parent stop s n e) as [Ef Ew].
  assert (Hlast : (events ++ [e]) !! List.length events = Some e) by (by apply list_lookup_middle).
  assert (Hold : forall k x, events !! k = Some x -> (events ++ [e]) !! k = Some x)
    by (intros; by apply lookup_app_l_Some).
  split.
  - rewrite Ef. destruct (reportsFullEntry link parent e && (es_fullAt s <? 0)) eqn:Hc.
    + right. exists (List.length events), e. by apply andb_true_iff in Hc as [? _].
    + destruct Hf as [Hf | (k & x & Hk & Hx & Hr)]; [by left | right; exists k, x; auto].
  - rewrite Ew. destruct (reportsChild child e) eqn:Hc.
    + case_if; [|by left]. right. exists (List.length events), e. split_and!; try done.
      intros m e' Hm He'. apply lookup_lt_Some in He'. rewrite length_app in He'. simpl in He'. lia.
    + destruct Hw as [Hw | (k & x & Hk & Hx & Hr & Hi & Hlater)]; [by left|]. right.
      exists k, x. split_and!; auto. intros m e' Hm He'.
      apply lookup_snoc_cases in He' as [He' | [_ ->]]; [by eapply Hlater | done].
Qed.

(** The evidence behind an active child. *)
Definition active_evidence (views : list OrderView) (events : list orderJournalEvent)
    (child : OrderView) (link : StockEntryLink) : Prop :=
  exists parent n1 e1 n2 e2,
    In parent views /\ isEntryParent child link parent = true /\
    entryTermsAgree child link parent = true /\
    (n1 < n2)%nat /\ events !! n1 = Some e1 /\ reportsFullEntry link parent e1 = true /\
    events !! n2 = Some e2 /\ reportsChild child e2 = true /\ isWorkingReport link e2 = true /\
    forall m e, (n2 < m)%nat -> events !! m = Some e -> reportsChild child e = false.

Lemma entry_evidence_active child link parent stop events :
  v_EntryState child = EntryStateUnknown ->
  v_EntryState (entryStateFromEvidence child link parent stop events) = "active" ->
  let s := entryScanEvents child link parent stop events in
  0 <= es_fullAt s < es_workingAt s /\ v_Open child = true.
Proof.
  intros Hu H s. unfold entryStateFromEvidence in H. fold s in H. cbv zeta in H.
  case_if_in H; [rewrite Hu in H; discriminate|].
  destruct ((0 <=? es_fullAt s) && _) eqn:Hfull.
  - apply andb_true_iff in Hfull as [Hfull _].
    destruct ((es_fullAt s <? es_workingAt s) && _ && _ && _) eqn:Hact.
    + bool_hyps. split; [lia | done].
    + case_if_in H; discriminate H.
  - case_if_in H; [discriminate H | rewrite Hu in H; discriminate].
Qed.

(** A protective child is reported active, and only then offered for
    amendment, on broker evidence alone: the journal holds a broker report of the
    complete parent fill, a later broker report that the child itself works
    under that parent, and nothing later from the broker about the child. *)
Theorem active_child_has_ordered_broker_evidence views events child link :
  v_EntryLink child = Some link ->
  let row := deriveStockEntryState views events child in
  (v_EntryState row = "active" -> active_evidence views events child link) /\
  (v_ModifyEligible row = true -> v_EntryState row = "active").
Proof.
  intros Hl row. unfold row, deriveStockEntryState. rewrite Hl.
  set (c := child <| v_ModifyEligible := false |> <| v_EntryState := EntryStateUnknown |>).
  assert (Hcm : v_ModifyEligible c = false) by reflexivity.
  assert (Hcs : v_EntryState c = EntryStateUnknown) by reflexivity.
  assert (Hkey : reportsChild c = reportsChild child) by reflexivity.
  assert (Hpar : isEntryParent c link = isEntryParent child link) by reflexivity.
  assert (Hterms : entryTermsAgree c link = entryTermsAgree child link) by reflexivity.
  rewrite Hpar, Hterms. unfold active_evidence. rewrite <- Hkey. clearbody c.
  destruct (List.filter (isEntryParent child link) views) as [|parent [|]] eqn:Hfl;
    try (split; [rewrite Hcs | rewrite Hcm]; discriminate).
  assert (Hin : In parent (List.filter (isEntryParent child link) views)) by (rewrite Hfl; by left).
  apply filter_In in Hin as [Hin Hisp].
  destruct (entryTermsAgree child link parent) eqn:Hta; simpl;
    [|split; [rewrite Hcs | rewrite Hcm]; discriminate].
  destruct (v_BrokerParentID c) as [b|], (v_AttachedStop parent) as [stop|] eqn:Hstop;
    try (case_if; cbn; rewrite ?Hcs, ?Hcm; split; discriminate).
  case_if; [split; [rewrite Hcs | rewrite Hcm]; discriminate|]. split.
  - intros Ha. destruct (entry_evidence_active c link parent stop events Hcs Ha) as [Hpos _].
    destruct (scan_ok_events c link parent stop events) as [Hf Hw].
    destruct Hf as [Hf | (n1 & e1 & Hn1 & He1 & Hr1)]; [lia|].
    destruct Hw as [Hw | (n2 & e2 & Hn2 & He2 & Hr2 & Hi2 & Hlater)]; [lia|].
    exists parent, n1, e1, n2, e2. split_and!; try done. lia.
  - intros Hm. unfold entryStateFromEvidence in *. cbv zeta in *.
    case_if; [by rewrite Hcm in Hm|].
    destruct ((0 <=? _) && _).
    + destruct ((_ <? _) && _ && _ && _) eqn:Hact.
      * bool_hyps. cbn. cbn in Hm. assert (Ho : v_Open c = true) by done. rewrite Ho in *. done.
      * case_if_in Hm; cbn in Hm; congruence.
    + case_if_in Hm; cbn in Hm; congruence.
Qed.

Definition link_ex : StockEntryLink := mkStockEntryLink "canary-9" "canary-9" 50 10.
Definition parent_row : OrderView :=
  zero_OrderView <| v_OrderRef := "canary-9" |> <| v_ReservedOrderID := 50 |>
    <| v_Account := "DU123" |> <| v_Endpoint := "gw" |> <| v_Mode := "paper" |>
    <| v_AttachedStop := Some (mkAttachedStockStop (f_of_Z 90)) |> <| v_Action := "BUY" |>
    <| v_SecType := "STK" |> <| v_Quantity := f_of_Z 10 |> <| v_Filled := f_of_Z 10 |>.
Definition child_row : OrderView :=
  zero_OrderView <| v_OrderRef := "canary-9-stop" |> <| v_ReservedOrderID := 51 |>
    <| v_Account := "DU123" |> <| v_Endpoint := "gw" |> <| v_Mode := "paper" |>
    <| v_EntryLink := Some link_ex |> <| v_BrokerParentID := Some 50 |> <| v_Action := "SELL" |>
    <| v_SecType := "STK" |> <| v_OrderType := "STP" |> <| v_FixedStopPrice := f_of_Z 90 |>
    <| v_TIF := "GTC" |> <| v_TriggerMethod := 2 |> <| v_Quantity := f_of_Z 10 |>
    <| v_Open := true |> <| v_SendState := orderSendStateBrokerAcknowledged |>
    <| v_LifecycleStatus := OrderLifecycleSubmitted |>.
Definition entry_fill : orderJournalEvent :=
  zero_orderJournalEvent <| e_Type := orderJournalEventStatusUpdated |> <| e_Status := "Filled" |>
    <| e_OrderRef := "canary-9" |> <| e_ReservedOrderID := 50 |> <| e_Account := "DU123" |>
    <| e_Endpoint := "gw" |> <| e_Mode := "paper" |> <| e_Filled := f_of_Z 10 |>.
Definition child_works : orderJournalEvent :=
  zero_orderJournalEvent <| e_Type := orderJournalEventBrokerAcknowledged |>
    <| e_Status := "Submitted" |> <| e_OrderRef := "canary-9-stop" |> <| e_ReservedOrderID := 51 |>
    <| e_Account := "DU123" |> <| e_Endpoint := "gw" |> <| e_Mode := "paper" |>
    <| e_BrokerParentID := Some 50 |>.

Lemma active_child_has_ordered_broker_evidence_witness :
  v_EntryState (deriveStockEntryState [parent_row; child_row] [entry_fill; child_works] child_row) =
    "active" /\
  active_evidence [parent_row; child_row] [entry_fill; child_works] child_row link_ex.
Proof.
  split; [vm_compute; reflexivity|].
  apply (active_child_has_ordered_broker_evidence [parent_row; child_row]
           [entry_fill; child_works] child_row link_ex); [reflexivity | vm_compute; reflexivity].
Defined.

(** The same two reports in the other order do not activate the child. *)
Example child_report_before_fill_does_not_activate :
  v_EntryState (deriveStockEntryState [parent_row; child_row] [child_works; entry_fill] child_row) =
    "activation_pending".
Proof. vm_compute. reflexivity. Qed.
