(* ===== verification/OrderHistory.v ===== *)
(** * Order queries and local DAY expiry

    The read handlers of src/internal/daemon/order_read_model.go over the
    built rows: open orders, one order's status, the bounded history query and
    the calendar inference that closes stale DAY rows
    (order_read_cache.go, viewsAt).  Request decoding is the caller's; the
    market calendar (internal/marketcal) and the two [time.Parse] layouts are
    parameters. *)

From stdpp Require Import base decidable list strings gmap sorting.
From Stdlib Require Import ZArith Lia String Ascii.
From S2P Require Import Prelude OrderTypes OrderStatus OrderFold OrderFoldFacts OrderKeys.
From S2P Require Import BrokerScope OrderViews.

Definition errBadRequest (msg : string) : goerr := mkErr "bad_request" msg.

Definition Day : Z := 24 * Hour.
Definition orderHistoryDefaultLookback : Z := 7 * Day.
Definition orderHistoryDefaultLimit : Z := 50.
Definition orderHistoryMaxLimit : Z := 500.
Definition orderHistoryDefaultEvents : Z := 20.
Definition orderHistoryMaxEvents : Z := 200.

Definition MarketUSEquity : string := "us_equity".
Definition MarketDEXetra : string := "de_xetra".
Definition MarketUKLSE : string := "uk_lse".

(** quoteMarketForStockContract, on the three contract fields it reads. *)
Definition quoteMarketForStockContract (market exchange primaryExch : string) : string :=
  let market := ToLower (TrimSpace market) in
  let exchange := ToUpper (TrimSpace exchange) in
  let primary := ToUpper (TrimSpace primaryExch) in
  if one_of market ["de"; "germany"; "xetra"; "ibis"] then MarketDEXetra
  else if (exchange =s "IBIS") || (primary =s "IBIS") || (exchange =s "IBIS2") || (primary =s "IBIS2")
  then MarketDEXetra
  else if one_of market ["uk"; "london"; "lse"] then MarketUKLSE
  else if (exchange =s "LSE") || (exchange =s "LSEETF") || (primary =s "LSE") || (primary =s "LSEETF")
  then MarketUKLSE
  else MarketUSEquity.

(** The part of marketcal.Session read here. *)
Record marketSession := mkSession { ses_Close : time; ses_NextClose : option time }.

(** orderViewPlacedAt *)
Definition orderViewPlacedAt (view : OrderView) (eventsByKey : gmap string (list OrderEvent)) : time :=
  if v_OrderRef view <>s "" then
    match default [] (eventsByKey !! ("ref:" ++s v_OrderRef view)) with
    | first :: _ => o_At first
    | [] => v_UpdatedAt view
    end
  else v_UpdatedAt view.

Definition expiryMessage : string :=
  "DAY order is past its session close; expiry inferred locally (not broker-confirmed)".

Section Expiry.
(** marketcal.Calendar.SessionAt; [None] is its error. *)
Context (sessionAt : string -> time -> option marketSession).

Definition dayOrderSessionDeadline (view : OrderView) (placed : time) : option time :=
  match sessionAt (quoteMarketForStockContract "" (v_Exchange view) (v_PrimaryExch view)) placed with
  | None => None
  | Some ses =>
      if negb (IsZero (ses_Close ses)) && Before placed (ses_Close ses) then Some (ses_Close ses)
      else ses_NextClose ses
  end.

Definition inferDayExpiryRow (eventsByKey : gmap string (list OrderEvent)) (now : time)
    (view : OrderView) : OrderView :=
  if negb (v_Open view) || negb (EqualFold (v_TIF view) OrderTIFDay) then view
  else if negb (EqualFold (v_SecType view) "STK") && negb (EqualFold (v_SecType view) "ETF") then view
  else
    let placed := orderViewPlacedAt view eventsByKey in
    if IsZero placed then view
    else
      match dayOrderSessionDeadline view placed with
      | None => view
      | Some deadline =>
          if Before now (deadline + Hour) then view
          else view <| v_LifecycleStatus := OrderLifecycleExpiredInferred |> <| v_Open := false |>
                 <| v_ModifyEligible := false |> <| v_CancelEligible := false |>
                 <| v_LastMessage := expiryMessage |>
      end.

(** inferDayOrderExpiry: row by row, no row reads another. *)
Definition inferDayOrderExpiry (views : list OrderView) (eventsByKey : gmap string (list OrderEvent))
    (now : time) : list OrderView :=
  map (inferDayExpiryRow eventsByKey now) views.

(** orderReadProjection.viewsAt, over the projection of loadOrderReadProjection. *)
Definition viewsAt (range : gmap string orderViewFold -> list string)
    (events : list orderJournalEvent) (now : time) : list OrderView :=
  inferDayOrderExpiry (buildOrderViews range events) (buildOrderEventsByKey events) now.
End Expiry.

(** ** History bounds *)

Record OrdersHistoryParams := mkHistoryParams {
  hp_Since : string; hp_Until : string; hp_Limit : Z; hp_EventLimit : Z
}.

Section HistoryRange.
(** [time.Parse(time.RFC3339, _)] and [time.ParseInLocation("2006-01-02", _, UTC)]. *)
Context (parseRFC3339 parseDate : string -> option time).

Definition parseOrderHistoryTime (raw : string) : result goerr (time * bool) :=
  let raw := TrimSpace raw in
  if raw =s "" then Err (errBadRequest "orders history: empty time boundary")
  else
    match parseRFC3339 raw with
    | Some t => Ok (t, false)
    | None =>
        match parseDate raw with
        | Some t => Ok (t, true)
        | None => Err (errBadRequest "orders history: time boundaries must be YYYY-MM-DD or RFC3339")
        end
    end.

Definition orderHistoryRange (p : OrdersHistoryParams) (now : time) : result goerr (time * time) :=
  let? until :=
    if TrimSpace (hp_Until p) <>s "" then
      let? parsed := parseOrderHistoryTime (TrimSpace (hp_Until p)) in
      Ok (if snd parsed then fst parsed + 24 * Hour else fst parsed)
    else Ok now in
  let? since :=
    if TrimSpace (hp_Since p) <>s "" then
      let? parsed := parseOrderHistoryTime (TrimSpace (hp_Since p)) in Ok (fst parsed)
    else Ok (until - orderHistoryDefaultLookback) in
  if negb (Before since until)
  then Err (errBadRequest "orders history: since must be before until")
  else Ok (since, until).
End HistoryRange.

Definition orderHistoryLimit (limit : Z) : result goerr Z :=
  if limit =? 0 then Ok orderHistoryDefaultLimit
  else if (limit <? 0) || (orderHistoryMaxLimit <? limit)
  then Err (errBadRequest "orders history: limit must be between 1 and 500")
  else Ok limit.

Definition orderHistoryEventLimit (limit : Z) : result goerr Z :=
  if limit =? 0 then Ok orderHistoryDefaultEvents
  else if (limit <? 0) || (orderHistoryMaxEvents <? limit)
  then Err (errBadRequest "orders history: event_limit must be between 1 and 200")
  else Ok limit.

Definition orderJournalEventInRange (ev : orderJournalEvent) (since until : time) : bool :=
  negb (IsZero (e_At ev)) && negb (Before (e_At ev) since) && Before (e_At ev) until.

(** loadScopedOrderHistoryEvents, over the loaded journal. *)
Definition loadScopedOrderHistoryEvents (journal : list orderJournalEvent) (since until : time)
    (scope : brokerStateScope) : list orderJournalEvent :=
  List.filter (fun ev => negb (negb (orderJournalEventMatchesBrokerScope ev scope) ||
                               negb (orderJournalEventInRange ev since until))) journal.

Definition limitOrderHistoryEvents (events : list OrderEvent) (limit : Z) : list OrderEvent * bool :=
  if (limit <=? 0) || (Z.of_nat (List.length events) <=? limit) then (events, false)
  else if limit =? 1 then (take 1 events, true)
  else
    let head := Z.quot limit 2 in
    let tail := limit - head in
    (take (Z.to_nat head) events ++ drop (List.length events - Z.to_nat tail) events, true).

Record OrdersHistoryRow := mkHistoryRow {
  hr_Order : OrderView; hr_Events : list OrderEvent; hr_EventsCount : Z;
  hr_TotalEventsCount : Z; hr_EventsTruncated : bool
}.

(** [events[len(events)-1].At], the zero time when there is none. *)
Definition latestOrderEventAt (events : list OrderEvent) : time :=
  match last events with Some e => o_At e | None => 0 end.

Definition latestOrderHistoryEventAt (row : OrdersHistoryRow) : time := latestOrderEventAt (hr_Events row).

Definition historyRowLe (a b : OrdersHistoryRow) : bool :=
  let ua := v_UpdatedAt (hr_Order a) in let ub := v_UpdatedAt (hr_Order b) in
  if ua =? ub then latestOrderHistoryEventAt b <=? latestOrderHistoryEventAt a else ub <? ua.

Definition sortOrderHistoryRows (rows : list OrdersHistoryRow) : list OrdersHistoryRow :=
  stable_sort historyRowLe rows.

Definition latestScopedOrderEventAt (views : list OrderView) (eventsByKey : gmap string (list OrderEvent))
    (scope : brokerStateScope) : time :=
  fold_left (fun latest view =>
    if negb (orderViewMatchesBrokerScope view scope) then latest
    else
      let at_ := latestOrderEventAt (default [] (eventsByKey !! orderViewKey view)) in
      if After at_ latest then at_ else latest) views 0.

Definition orderHistoryNotBrokerStatement : string :=
  "local order journal only; not an IBKR Activity Statement, trade confirmation, execution report, or historical broker audit".

Definition orderHistoryLimitations : list string :=
  ["Reduced from the daemon's local append-only order journal for the current broker account/mode only.";
   "May miss manual orders, other-client orders, broker activity while the daemon was offline, and rows outside the selected account/mode scope.";
   "Broker callbacks remain authoritative when journaled; absence of a local event is not proof that no broker activity occurred."].

Record OrdersHistoryResult := mkHistoryResult {
  hs_Orders : list OrdersHistoryRow; hs_AsOf : time; hs_Since : time; hs_Until : time;
  hs_Account : string; hs_Mode : string; hs_Count : Z; hs_TotalCount : Z; hs_EventsCount : Z;
  hs_TotalEventsCount : Z; hs_Limit : Z; hs_EventLimit : Z; hs_Truncated : bool;
  hs_EventsTruncated : bool; hs_NotBrokerStatement : string; hs_Limitations : list string
}.

(** The row of one view, unless it is out of scope or has no events. *)
Definition historyRow (eventsByKey : gmap string (list OrderEvent)) (scope : brokerStateScope)
    (eventLimit : Z) (view : OrderView) : option OrdersHistoryRow :=
  if negb (orderViewMatchesBrokerScope view scope) then None
  else
    match default [] (eventsByKey !! orderViewKey view) with
    | [] => None
    | events =>
        let '(kept, truncated) := limitOrderHistoryEvents events eventLimit in
        Some (mkHistoryRow view kept (Z.of_nat (List.length kept)) (Z.of_nat (List.length events)) truncated)
    end.

(** handleOrdersHistory after parameter decoding. *)
Definition handleOrdersHistory (sessionAt : string -> time -> option marketSession)
    (parseRFC3339 parseDate : string -> option time)
    (range : gmap string orderViewFold -> list string) (journal : list orderJournalEvent)
    (scope : brokerStateScope) (now : time) (p : OrdersHistoryParams) : result goerr OrdersHistoryResult :=
  let? bounds := orderHistoryRange parseRFC3339 parseDate p now in
  let? limit := orderHistoryLimit (hp_Limit p) in
  let? eventLimit := orderHistoryEventLimit (hp_EventLimit p) in
  let '(since, until) := bounds in
  let events := loadScopedOrderHistoryEvents journal since until scope in
  let eventsByKey := buildOrderEventsByKey events in
  let views := inferDayOrderExpiry sessionAt (buildOrderViews range events) eventsByKey now in
  let rows := sortOrderHistoryRows (omap (historyRow eventsByKey scope eventLimit) views) in
  let kept := take (Z.to_nat limit) rows in
  Ok (mkHistoryResult kept now since until (sc_Account scope) (sc_Mode scope)
        (Z.of_nat (List.length kept)) (Z.of_nat (List.length rows))
        (fold_left (fun n r => n + hr_EventsCount r) kept 0)
        (fold_left (fun n r => n + hr_TotalEventsCount r) kept 0)
        limit eventLimit (limit <? Z.of_nat (List.length rows))
        (fold_left (fun b r => b || hr_EventsTruncated r) kept false)
        orderHistoryNotBrokerStatement orderHistoryLimitations).

(** ** Open orders and single-order status *)

(** The order list of handleOrdersOpen. *)
Definition ordersOpenList (views : list OrderView) (scope : brokerStateScope) : list OrderView :=
  sortOrderViews (List.filter (fun v => orderViewMatchesBrokerScope v scope && v_Open v) views).

(** The attached-stop search: the child when exactly one row links to the parent. *)
Definition isChildOf (view candidate : OrderView) : bool :=
  match v_EntryLink candidate with
  | None => false
  | Some l =>
      (el_ParentRef l =s v_OrderRef view) && (el_ParentID l =? v_ReservedOrderID view) &&
      (v_Endpoint candidate =s v_Endpoint view) && (v_Account candidate =s v_Account view) &&
      (v_ClientID candidate =? v_ClientID view) && (v_Mode candidate =s v_Mode view)
  end.

(** The loop with its break: a second candidate clears the result. *)
Fixpoint findChild (view : OrderView) (views : list OrderView) (child : option OrderView)
    : option OrderView :=
  match views with
  | [] => child
  | c :: rest =>
      if isChildOf view c then
        match child with
        | Some _ => None
        | None => findChild view rest (Some c)
        end
      else findChild view rest child
  end.

Record OrderStatusResult := mkStatusResult {
  os_AttachedStop : option OrderView; os_Found : bool; os_Order : OrderView;
  os_Events : list OrderEvent; os_AsOf : time; os_Account : string; os_Mode : string;
  os_LastLocalEventAt : time; os_NotBrokerStatement : string; os_Limitations : list string
}.

Definition statusMatches (id : string) (scope : brokerStateScope) (view : OrderView) : bool :=
  negb (present (v_EntryLink view) && (id =s v_PreviewTokenID view)) &&
  orderViewMatchesID view id && orderViewMatchesBrokerScope view scope.

(** handleOrderStatus over the reconciled rows. *)
Definition handleOrderStatus (views : list OrderView) (eventsByKey : gmap string (list OrderEvent))
    (scope : brokerStateScope) (now : time) (rawID : string) : result goerr OrderStatusResult :=
  let id := TrimSpace rawID in
  if id =s "" then Err (errBadRequest "order status id is required")
  else
    match List.find (statusMatches id scope) views with
    | Some view =>
        let child := if present (v_AttachedStop view) then findChild view views None else None in
        let events := default [] (eventsByKey !! orderViewKey view) in
        Ok (mkStatusResult child true view events now (sc_Account scope) (sc_Mode scope)
              (latestOrderEventAt events) orderHistoryNotBrokerStatement orderHistoryLimitations)
    | None =>
        Ok (mkStatusResult None false zero_OrderView [] now (sc_Account scope) (sc_Mode scope)
              (latestScopedOrderEventAt views eventsByKey scope)
              orderHistoryNotBrokerStatement orderHistoryLimitations)
    end.

(** ** The placement time of a DAY order *)

Lemma has_char_app c a b : has_char c (a ++s b) = has_char c a || has_char c b.
Proof. induction a as [|d a IH]; [done|]. rewrite append_cons_s. simpl. by rewrite IH, orb_assoc. Qed.

Lemma scope_has_sep ev x : has_char unit_sep (event_scope ev ++s x) = true.
Proof.
  unfold event_scope, orderJournalRouteIdentity. rewrite !has_char_app. simpl. by rewrite orb_true_r.
Qed.

Lemma identity_key_has_sep ev am pl k :
  In k (orderJournalIdentityKeysForAliases ev am pl) -> has_char unit_sep k = true.
Proof. intros H. apply identity_keys_shape in H as [[_ ->] | [[_ ->] | [_ ->]]]; apply scope_has_sep. Qed.

Definition sep_values (m : gmap string string) : Prop :=
  forall k v, m !! k = Some v -> has_char unit_sep v = true.

Lemma alias_step_sep am pl m ev : flat m -> sep_values m -> sep_values (alias_step am pl m ev).
Proof.
  intros Hf Hs k v. destruct (orderJournalIdentityKeysForAliases ev am pl) as [|key0 rest] eqn:Hk.
  { unfold alias_step. rewrite Hk. apply Hs. }
  rewrite (alias_step_lookup am pl m ev key0 rest) by done.
  assert (Hroot : has_char unit_sep (step_root ev key0 m) = true).
  { unfold step_root. case_if; [apply scope_has_sep|].
    destruct (m !! key0) eqn:Hl; simpl; [by eapply Hs|].
    apply (identity_key_has_sep ev am pl). rewrite Hk. by left. }
  intros Hl. apply fmap_Some in Hl as (w & Hw & ->). case_if; [done|].
  case_if_in Hw; [by injection Hw as <- | by eapply Hs].
Qed.

Lemma alias_links_sep events : sep_values (alias_links events).
Proof.
  unfold alias_links. generalize (ambiguousReservedOrderIDs events) as am.
  generalize (reservedOrderIDsWithPrelinkedBrokerOnlyEvents events) as pl. intros pl am.
  assert (H0 : flat ∅ /\ sep_values ∅) by (split; intros k v H; by rewrite lookup_empty in H).
  destruct H0 as [Hf Hs]. revert Hf Hs. generalize (∅ : gmap string string) as m.
  induction events as [|ev evs IH]; intros m Hf Hs; [done|]. simpl.
  apply IH; [by apply alias_step_flat | by apply alias_step_sep].
Qed.

(** Every row key is route-scoped. *)
Lemma canonical_key_has_sep events ev :
  orderJournalCanonicalKey ev (orderJournalKeyAliases events) <> "" ->
  has_char unit_sep (orderJournalCanonicalKey ev (orderJournalKeyAliases events)) = true.
Proof.
  rewrite orderJournalKeyAliases_links. unfold orderJournalCanonicalKey. intros Hne.
  destruct (decide (orderJournalKey ev = "")) as [E|E]; [by rewrite E in Hne|].
  rewrite resolve_flat by (done || apply alias_links_flat).
  destruct (alias_links events !! orderJournalKey ev) eqn:Hl; simpl; [by eapply alias_links_sep|].
  revert E. unfold orderJournalKey. repeat case_if; intros E; try apply scope_has_sep. done.
Qed.

(** The placement time of a DAY order is never used: the lookup key lacks
    the route scope every row key carries, so for a reference free of the unit
    separator it always misses and the row's latest update stands in for its
    placement. *)
Theorem placement_time_lookup_always_misses view events :
  has_char unit_sep (v_OrderRef view) = false ->
  orderViewPlacedAt view (buildOrderEventsByKey events) = v_UpdatedAt view.
Proof.
  intros Href. unfold orderViewPlacedAt. case_if; [|done].
  destruct (buildOrderEventsByKey events !! ("ref:" ++s v_OrderRef view)) as [l|] eqn:Hl; [|done].
  exfalso. apply eventsByKey_present in Hl as (Hne & ev & _ & Hk).
  assert (Hsep := canonical_key_has_sep events ev). rewrite Hk in Hsep.
  rewrite has_char_app, Href in Hsep. specialize (Hsep Hne). discriminate Hsep.
Qed.

Definition day_order : OrderView :=
  zero_OrderView <| v_OrderRef := "canary-1" |> <| v_UpdatedAt := 5000 |>.

(** The journal does hold the order's placement at time 10, under its route. *)
Lemma placement_time_lookup_always_misses_witness :
  orderViewPlacedAt day_order (buildOrderEventsByKey [ev_key_place <| e_At := 10 |>]) = 5000 /\
  (default [] (buildOrderEventsByKey [ev_key_place <| e_At := 10 |>]
     !! orderJournalKey ev_key_place)) = [orderEventFromJournal (ev_key_place <| e_At := 10 |>)].
Proof.
  split; [|vm_compute; reflexivity].
  apply (placement_time_lookup_always_misses day_order [ev_key_place <| e_At := 10 |>]).
  vm_compute. reflexivity.
Defined.

(** ** Inferred expiry *)

(** Calendar inference only ever closes: a row is left as it is, or it was
    an open DAY stock or ETF order at least one hour past its session deadline
    and becomes final with no write offered, keeping its identity. *)
Theorem inferred_expiry_only_closes sessionAt eventsByKey now view :
  let row := inferDayExpiryRow sessionAt eventsByKey now view in
  row = view \/
  (v_Open view = true /\ EqualFold (v_TIF view) OrderTIFDay = true /\
   (EqualFold (v_SecType view) "STK" = true \/ EqualFold (v_SecType view) "ETF" = true) /\
   (exists deadline,
      dayOrderSessionDeadline sessionAt view (orderViewPlacedAt view eventsByKey) = Some deadline /\
      deadline + Hour <= now) /\
   row_final row /\ v_LifecycleStatus row = OrderLifecycleExpiredInferred /\
   orderViewKey row = orderViewKey view).
Proof.
  intros row. unfold row, inferDayExpiryRow.
  case_if; [by left|]. case_if; [by left|]. case_if; [by left|].
  destruct (dayOrderSessionDeadline _ _ _) as [d|] eqn:Hd; [|by left].
  unfold Before. case_if; [by left|]. right. bool_hyps.
  apply andb_false_iff in Hc0.
  split_and!; try done.
  - destruct Hc0 as [Ht|Ht]; apply negb_false_iff in Ht; tauto.
  - exists d. split; [done | lia].
Qed.

(** ** Bounded history *)

Lemma limit_events_spec events limit :
  0 < limit ->
  let r := limitOrderHistoryEvents events limit in
  Z.of_nat (List.length r.1) <= limit /\
  r.2 = (limit <? Z.of_nat (List.length events)) /\
  (r.2 = false -> r.1 = events) /\ hd_error r.1 = hd_error events /\
  (1 < limit -> last r.1 = last events).
Proof.
  intros Hl r. unfold r, limitOrderHistoryEvents.
  destruct ((limit <=? 0) || (Z.of_nat (List.length events) <=? limit)) eqn:Hc; cbn [fst snd].
  { apply orb_true_iff in Hc as [Hc|Hc]; bool_hyps; [lia|].
    split_and!; try done. symmetry. apply Z.ltb_ge. lia. }
  bool_hyps. destruct (limit =? 1) eqn:H1; bool_hyps; cbn [fst snd].
  { subst. destruct events as [|e l]; simpl in *; [lia|]. split_and!; try done; try lia.
    symmetry. apply Z.ltb_lt. lia. }
  assert (Hq : 1 <= Z.quot limit 2 <= limit - 1).
  { rewrite Z.quot_div_nonneg by lia. pose proof (Z.div_mod limit 2 ltac:(lia)).
    pose proof (Z.mod_pos_bound limit 2 ltac:(lia)). lia. }
  set (h := Z.to_nat (Z.quot limit 2)). set (t := Z.to_nat (limit - Z.quot limit 2)).
  assert (Hh : (1 <= h)%nat) by lia. assert (Ht : (1 <= t)%nat) by lia.
  assert (Hsum : Z.of_nat h + Z.of_nat t = limit) by lia. clearbody h t.
  split_and!.
  - rewrite length_app, length_take, length_drop. lia.
  - symmetry. apply Z.ltb_lt. lia.
  - done.
  - destruct h; [lia|]. by destruct events.
  - intros _. rewrite last_app.
    assert (Hd : last (drop (List.length events - t) events) = last events).
    { rewrite <- (take_drop (List.length events - t) events) at 3. rewrite last_app.
      destruct (last (drop _ events)) eqn:E; [done|]. apply last_None in E.
      apply (f_equal List.length) in E. rewrite length_drop in E. simpl in E. lia. }
    rewrite Hd. destruct (last events) eqn:E; [done|]. apply last_None in E. subst. simpl in *. lia.
Qed.

Lemma historyRow_spec ebk scope limit view r :
  0 < limit -> historyRow ebk scope limit view = Some r ->
  hr_Order r = view /\ orderViewMatchesBrokerScope view scope = true /\
  Z.of_nat (List.length (hr_Events r)) = hr_EventsCount r /\ 0 <= hr_EventsCount r <= limit /\
  hr_EventsTruncated r = (limit <? hr_TotalEventsCount r).
Proof.
  intros Hl. unfold historyRow. case_if; [done|]. bool_hyps.
  destruct (default [] _) as [|e l]; [done|].
  destruct (limit_events_spec (e :: l) limit Hl) as (H1 & H2 & _).
  destruct (limitOrderHistoryEvents (e :: l) limit) as [kept tr]. intros [= <-]. cbn in *.
  split_and!; try done; lia.
Qed.

Lemma limits_positive l n : orderHistoryLimit l = Ok n -> 1 <= n <= orderHistoryMaxLimit.
Proof.
  unfold orderHistoryLimit, orderHistoryDefaultLimit, orderHistoryMaxLimit.
  repeat case_if; intros [= <-]; bool_hyps; lia.
Qed.

Lemma event_limits_positive l n : orderHistoryEventLimit l = Ok n -> 1 <= n <= orderHistoryMaxEvents.
Proof.
  unfold orderHistoryEventLimit, orderHistoryDefaultEvents, orderHistoryMaxEvents.
  repeat case_if; intros [= <-]; bool_hyps; lia.
Qed.

(** The history answer is bounded and discloses its truncation: at most
    [limit] (never more than 500) rows of at most [event_limit] (never more than
    200) events each, all in the requested scope, over a non-empty time range;
    the truncation flags are set exactly when rows or events were dropped. *)
Theorem history_answer_bounded sessionAt p1 p2 range journal scope now p r :
  handleOrdersHistory sessionAt p1 p2 range journal scope now p = Ok r ->
  hs_Since r < hs_Until r /\ 1 <= hs_Limit r <= 500 /\ 1 <= hs_EventLimit r <= 200 /\
  hs_Count r = Z.of_nat (List.length (hs_Orders r)) /\
  hs_Count r = Z.min (hs_Limit r) (hs_TotalCount r) /\
  hs_Truncated r = (hs_Limit r <? hs_TotalCount r) /\
  Forall (fun row =>
    orderViewMatchesBrokerScope (hr_Order row) scope = true /\
    Z.of_nat (List.length (hr_Events row)) <= hs_EventLimit r /\
    hr_EventsTruncated row = (hs_EventLimit r <? hr_TotalEventsCount row)) (hs_Orders r).
Proof.
  unfold handleOrdersHistory. intros H. ok_inv H. destruct a as [since until].
  injection H as <-. cbn.
  apply limits_positive in Ha0. apply event_limits_positive in Ha1.
  unfold orderHistoryMaxLimit, orderHistoryMaxEvents in *.
  assert (Hsu : since < until).
  { unfold orderHistoryRange in Ha. ok_inv Ha. injection Ha as <- <-.
    apply negb_false_iff in Hg. unfold Before in Hg. by bool_hyps. }
  split_and!; try done; try lia.
  - rewrite length_take. lia.
  - apply Forall_take. set (ebk := buildOrderEventsByKey _). set (views := inferDayOrderExpiry _ _ _ _).
    unfold sortOrderHistoryRows. rewrite stable_sort_perm.
    apply Forall_forall. intros row Hrow. apply list_elem_of_omap in Hrow as (view & _ & Hv).
    apply historyRow_spec in Hv as (Ho & Hs & Hlen & Hb & Ht); [|lia].
    rewrite Ho. split_and!; [done | lia | done].
Qed.

(** A calendar with one session per day, closing at hour 21 (times in UTC). *)
Definition cal_ex (_ : string) (at_ : time) : option marketSession :=
  let close := (at_ / (24 * Hour)) * (24 * Hour) + 21 * Hour in
  Some (mkSession close (Some (close + 24 * Hour))).

Lemma history_answer_bounded_witness :
  exists r,
    handleOrdersHistory cal_ex (fun _ => None) (fun _ => None) range_sorted
      [ev_key_place <| e_At := 10 * Hour |>] scope_ex (30 * Hour) (mkHistoryParams "" "" 0 0) = Ok r /\
    hs_Count r = 1 /\ hs_Count r = Z.min (hs_Limit r) (hs_TotalCount r).
Proof.
  eexists. split; [vm_compute; reflexivity|]. split; [vm_compute; reflexivity|].
  apply (history_answer_bounded cal_ex (fun _ => None) (fun _ => None) range_sorted
    [ev_key_place <| e_At := 10 * Hour |>] scope_ex (30 * Hour) (mkHistoryParams "" "" 0 0)).
  vm_compute. reflexivity.
Defined.

(** The attached stop of a status answer is the unique linked child. *)
Lemma findChild_spec view views child :
  findChild view views child =
  match child, List.filter (isChildOf view) views with
  | None, [c] => Some c
  | Some c, [] => Some c
  | _, _ => None
  end.
Proof.
  revert child. induction views as [|c views IH]; intros child; simpl.
  - by destruct child.
  - destruct (isChildOf view c); [|apply IH].
    destruct child; simpl; [done|]. rewrite IH. by destruct (List.filter _ views).
Qed.
