(* ===== verification/GoTime.v ===== *)
(** * Civil time as Go's time package computes it

    The part of package time that the market calendar and the session code use:
    proleptic Gregorian dates, weekdays, the "2006-01-02" layout, time zones and
    time.Date.  An instant is nanoseconds since 0001-01-01 00:00 UTC, Go's zero
    time; a civil date is its day number from there.  A zone is its lookup
    function (offset and validity span of an instant), the tz database's data;
    [Date] is Go's two-step search for the offset of a wall clock. *)

From stdpp Require Import base decidable list strings.
From Stdlib Require Import ZArith Lia Ascii String.
From S2P Require Import Prelude.

(** ** Dates *)

Definition daySeconds : Z := 86400.

(** Days before 1 January of a year. *)
Definition daysBeforeYear (y : Z) : Z := let p := y - 1 in 365 * p + p / 4 - p / 100 + p / 400.

Definition isLeap (y : Z) : bool := (y mod 4 =? 0) && (negb (y mod 100 =? 0) || (y mod 400 =? 0)).

Definition yearOf (n : Z) : Z :=
  let y := n * 400 / 146097 + 1 in
  if n <? daysBeforeYear y then y - 1 else if daysBeforeYear (y + 1) <=? n then y + 1 else y.

Definition monthLengths (leap : bool) : list Z := [31; if leap then 29 else 28; 31; 30; 31; 30; 31; 31; 30; 31; 30; 31].

(** Month and day of the zero-based day of the year. *)
Fixpoint monthDay (lengths : list Z) (m doy : Z) : Z * Z :=
  match lengths with
  | [] => (m, doy + 1)
  | l :: rest => if doy <? l then (m, doy + 1) else monthDay rest (m + 1) (doy - l)
  end.

(** [t.Date()] of a day number. *)
Definition civilDate (n : Z) : Z * (Z * Z) :=
  let y := yearOf n in (y, monthDay (monthLengths (isLeap y)) 1 (n - daysBeforeYear y)).

(** [t.Weekday()]: Sunday is 0; the zero time is a Monday. *)
Definition Weekday (n : Z) : Z := (n + 1) mod 7.
Definition Sunday : Z := 0.
Definition Saturday : Z := 6.

(** *** The layout "2006-01-02" *)

Definition digit (n : Z) : ascii := ascii_of_N (Z.to_N (48 + n)).
Definition pad2 (n : Z) : string := String (digit (n / 10)) (String (digit (n mod 10)) "").
Definition pad4 (n : Z) : string := String.append (pad2 (n / 100)) (pad2 (n mod 100)).
(** Go pads a year to four digits and keeps more. *)
Definition yearText (y : Z) : string :=
  String.append (if y <? 0 then "-" else "") (if Z.abs y <=? 9999 then pad4 (Z.abs y) else Itoa (Z.abs y)).

Definition FormatDate (n : Z) : string :=
  let '(y, (m, d)) := civilDate n in
  String.append (yearText y) (String "-" (String.append (pad2 m) (String "-" (pad2 d)))).

Definition digitOf (c : ascii) : option Z :=
  let n := Z.of_N (N_of_ascii c) in if (48 <=? n) && (n <=? 57) then Some (n - 48) else None.

Definition two (a b : ascii) : option Z :=
  match digitOf a, digitOf b with Some x, Some y => Some (10 * x + y) | _, _ => None end.

Fixpoint dayOfYear (lengths : list Z) (m d : Z) : Z :=
  match lengths with
  | [] => 0
  | l :: rest => if m <=? 1 then d - 1 else l + dayOfYear rest (m - 1) d
  end.

Definition monthLength (y m : Z) : Z := default 0 (monthLengths (isLeap y) !! Z.to_nat (m - 1)).

(** [time.Parse("2006-01-02", s)] as a day number. *)
Definition ParseDate (s : string) : option Z :=
  match list_ascii_of_string s with
  | [y1; y2; y3; y4; s1; m1; m2; s2; d1; d2] =>
      match two y1 y2, two y3 y4, two m1 m2, two d1 d2 with
      | Some yh, Some yl, Some m, Some d =>
          let y := 100 * yh + yl in
          if Ascii.eqb s1 "-" && Ascii.eqb s2 "-" && (1 <=? m) && (m <=? 12) && (1 <=? d) && (d <=? monthLength y m)
          then Some (daysBeforeYear y + dayOfYear (monthLengths (isLeap y)) m d) else None
      | _, _, _, _ => None
      end
  | _ => None
  end.

(** ** Zones *)

(** What (Location).lookup answers for an instant in seconds. *)
Record zoneSpan := mkSpan { zs_offset : Z; zs_start : Z; zs_end : Z }.
Definition location : Type := Z -> zoneSpan.

Definition secondsOf (t : time) : Z := t / Second.
Definition offsetAt (loc : location) (t : time) : Z := zs_offset (loc (secondsOf t)).
(** The wall clock, in seconds since 0001-01-01 00:00. *)
Definition wallClock (loc : location) (t : time) : Z := secondsOf t + offsetAt loc t.
Definition localDay (loc : location) (t : time) : Z := wallClock loc t / daySeconds.

(** [time.Date] on a day number and seconds of that day. *)
Definition Date (loc : location) (day sec : Z) : time :=
  let wall := day * daySeconds + sec in
  let z := loc wall in
  let offset :=
    if zs_offset z =? 0 then 0
    else
      let utc := wall - zs_offset z in
      if (utc <? zs_start z) || (zs_end z <=? utc) then zs_offset (loc utc) else zs_offset z in
  (wall - offset) * Second.

(** [t.AddDate(0, 0, i)] *)
Definition AddDays (loc : location) (t : time) (i : Z) : time :=
  Date loc (localDay loc t + i) (wallClock loc t mod daySeconds) + t mod Second.

#[global] Arguments Date : simpl never.
#[global] Arguments FormatDate : simpl never.
#[global] Arguments ParseDate : simpl never.

(** A zone from its table of transitions, as the tz database gives them. *)
Fixpoint spanFrom (start offset : Z) (transitions : list (Z * Z)) (final s : Z) : zoneSpan :=
  match transitions with
  | [] => mkSpan offset start final
  | (at_, next) :: rest => if s <? at_ then mkSpan offset start at_ else spanFrom at_ next rest final s
  end.
Definition zoneOf (offset : Z) (transitions : list (Z * Z)) : location :=
  fun s => spanFrom (- 2 ^ 63) offset transitions (2 ^ 63) s.

(** Linear arithmetic with division and remainder by constants. *)
Ltac zdiv := Z.to_euclidean_division_equations; lia.

(** ** Dates are ordered as their text is *)

Lemma year_bounds n : 0 <= n -> daysBeforeYear (yearOf n) <= n < daysBeforeYear (yearOf n + 1).
Proof.
  intros Hn. unfold yearOf. set (y := n * 400 / 146097 + 1).
  assert (Hy : 146097 * (y - 1) <= n * 400 < 146097 * y) by (unfold y; zdiv). clearbody y.
  destruct (n <? daysBeforeYear y) eqn:E1; [|destruct (daysBeforeYear (y + 1) <=? n) eqn:E2];
    bool_hyps; unfold daysBeforeYear in *; cbv zeta in *; zdiv.
Qed.

Lemma year_positive n : 0 <= n -> 1 <= yearOf n.
Proof. intros Hn. assert (H := year_bounds n Hn). unfold daysBeforeYear in H. cbv zeta in H. zdiv. Qed.

Lemma year_length n : daysBeforeYear (n + 1) - daysBeforeYear n = if isLeap n then 366 else 365.
Proof.
  unfold daysBeforeYear, isLeap. cbv zeta.
  destruct (n mod 4 =? 0) eqn:E4, (n mod 100 =? 0) eqn:E100, (n mod 400 =? 0) eqn:E400; bool_hyps; cbn [andb orb negb]; zdiv.
Qed.

Lemma compare_app a b x y :
  String.length a = String.length b ->
  String.compare (String.append a x) (String.append b y) =
  match String.compare a b with Eq => String.compare x y | c => c end.
Proof.
  revert b. induction a as [|c a IH]; intros [|d b]; rewrite ?append_cons_s; cbn; try done.
  intros [= Hl]. specialize (IH b Hl). destruct (Ascii.compare c d); [exact IH | done..].
Qed.

Lemma digit_compare a b : 0 <= a < 10 -> 0 <= b < 10 -> Ascii.compare (digit a) (digit b) = (a ?= b).
Proof.
  intros Ha Hb. unfold Ascii.compare, digit. rewrite !N_ascii_embedding by lia.
  rewrite Z2N.inj_compare by lia. apply Z.add_compare_mono_l.
Qed.

(** Comparing in base [k] is comparing quotients, then remainders. *)
Lemma compare_base k a b :
  0 < k -> match a / k ?= b / k with Eq => a mod k ?= b mod k | c => c end = (a ?= b).
Proof.
  intros Hk. assert (Ha := Z.div_mod a k ltac:(lia)). assert (Hb := Z.div_mod b k ltac:(lia)).
  assert (Hra := Z.mod_pos_bound a k Hk). assert (Hrb := Z.mod_pos_bound b k Hk). symmetry.
  destruct (Z.compare_spec (a / k) (b / k)) as [E|E|E].
  - rewrite Ha, Hb, E at 1. apply Z.add_compare_mono_l.
  - apply Z.compare_lt_iff. nia.
  - apply Z.compare_gt_iff. nia.
Qed.

Lemma pad2_compare a b : 0 <= a < 100 -> 0 <= b < 100 -> String.compare (pad2 a) (pad2 b) = (a ?= b).
Proof.
  intros Ha Hb. unfold pad2. cbn. rewrite !digit_compare by zdiv. rewrite <- (compare_base 10 a b) by lia.
  destruct (a / 10 ?= b / 10); [|done..]. by destruct (a mod 10 ?= b mod 10).
Qed.

Lemma pad4_compare a b : 0 <= a < 10000 -> 0 <= b < 10000 -> String.compare (pad4 a) (pad4 b) = (a ?= b).
Proof.
  intros Ha Hb. unfold pad4. rewrite compare_app by done. rewrite !pad2_compare by zdiv. apply compare_base. lia.
Qed.

(** Month and day stay in two digits and follow the day of the year. *)
Definition monthDayCode (leap : bool) (doy : Z) : Z := let '(m, d) := monthDay (monthLengths leap) 1 doy in 100 * m + d.

Lemma monthDay_range leap doy : 0 <= doy < 366 ->
  let '(m, d) := monthDay (monthLengths leap) 1 doy in 0 <= m < 100 /\ 0 < d < 100.
Proof.
  intros H. cbn [monthDay monthLengths]. destruct leap; repeat (case_if; bool_hyps; [cbv iota beta; lia|]); cbv iota beta; lia.
Qed.

Lemma monthDay_next leap doy : 0 <= doy -> monthDayCode leap doy < monthDayCode leap (doy + 1).
Proof.
  intros H. unfold monthDayCode. cbn [monthDay monthLengths]. destruct leap; repeat (case_if; bool_hyps; cbv iota beta; try lia).
Qed.

Lemma monthDay_mono leap a b : 0 <= a < b -> monthDayCode leap a < monthDayCode leap b.
Proof.
  intros H. replace b with (a + 1 + Z.of_nat (Z.to_nat (b - a - 1))) by lia.
  induction (Z.to_nat (b - a - 1)) as [|k IH].
  - rewrite Z.add_0_r. apply monthDay_next. lia.
  - etransitivity; [exact IH|]. replace (a + 1 + Z.of_nat (S k)) with (a + 1 + Z.of_nat k + 1) by lia.
    apply monthDay_next. lia.
Qed.

Lemma monthDay_compare leap a b :
  0 <= a < 366 -> 0 <= b < 366 -> (monthDayCode leap a ?= monthDayCode leap b) = (a ?= b).
Proof.
  intros Ha Hb. destruct (Z.compare_spec a b) as [->|H|H].
  - apply Z.compare_refl.
  - apply Z.compare_lt_iff, monthDay_mono. lia.
  - apply Z.compare_gt_iff, monthDay_mono. lia.
Qed.

Lemma dash_compare a b x y :
  0 <= a < 100 -> 0 <= b < 100 ->
  String.compare (String "-" (String.append (pad2 a) x)) (String "-" (String.append (pad2 b) y)) =
  match a ?= b with Eq => String.compare x y | c => c end.
Proof. intros Ha Hb. cbn [String.compare Ascii.compare]. rewrite compare_app, pad2_compare by done. done. Qed.

Lemma monthDay_text_compare leap a b :
  0 <= a < 366 -> 0 <= b < 366 ->
  let '(m, d) := monthDay (monthLengths leap) 1 a in
  let '(m', d') := monthDay (monthLengths leap) 1 b in
  String.compare (String "-" (String.append (pad2 m) (String "-" (pad2 d))))
                 (String "-" (String.append (pad2 m') (String "-" (pad2 d')))) = (a ?= b).
Proof.
  intros Ha Hb. rewrite <- (monthDay_compare leap a b) by done. unfold monthDayCode.
  assert (Hra := monthDay_range leap a Ha). assert (Hrb := monthDay_range leap b Hb).
  destruct (monthDay _ 1 a) as [m d], (monthDay _ 1 b) as [m' d']. rewrite dash_compare by lia.
  rewrite <- (compare_base 100 (100 * m + d)) by lia.
  replace ((100 * m + d) / 100) with m by zdiv. replace ((100 * m' + d') / 100) with m' by zdiv.
  replace ((100 * m + d) mod 100) with d by zdiv. replace ((100 * m' + d') mod 100) with d' by zdiv.
  destruct (m ?= m'); [|done..]. cbn [String.compare Ascii.compare]. apply pad2_compare; lia.
Qed.

(** For the years the layout prints with four digits, date strings compare as
    the days they name. *)
Theorem date_text_compare a b :
  0 <= a -> 0 <= b -> yearOf a <= 9999 -> yearOf b <= 9999 ->
  String.compare (FormatDate a) (FormatDate b) = (a ?= b).
Proof.
  intros Ha Hb Hya Hyb. unfold FormatDate, civilDate.
  assert (Pa := year_positive a Ha). assert (Pb := year_positive b Hb).
  assert (Ba := year_bounds a Ha). assert (Bb := year_bounds b Hb).
  set (y := yearOf a) in *. set (y' := yearOf b) in *.
  assert (La := year_length y). assert (Lb := year_length y').
  assert (Hmd := monthDay_text_compare (isLeap y) (a - daysBeforeYear y) (b - daysBeforeYear y)).
  destruct (monthDay (monthLengths (isLeap y)) 1 (a - daysBeforeYear y)) as [m d] eqn:Ea.
  destruct (monthDay (monthLengths (isLeap y')) 1 (b - daysBeforeYear y')) as [m' d'] eqn:Eb.
  assert (Ht : forall z, 1 <= z <= 9999 -> yearText z = pad4 z).
  { intros z Hz. unfold yearText. rewrite Z.abs_eq by lia. replace (z <? 0) with false by lia.
    replace (z <=? 9999) with true by lia. done. }
  rewrite !Ht, compare_app, pad4_compare by (done || lia). clear Ht.
  destruct (Z.compare_spec y y') as [E|E|E].
  - rewrite <- E in *. rewrite Eb in Hmd. rewrite Hmd by (destruct (isLeap y); lia).
    rewrite <- !Z.add_opp_r, !(Z.add_comm _ (- _)). apply Z.add_compare_mono_l.
  - symmetry. apply Z.compare_lt_iff. unfold daysBeforeYear in Ba, Bb. cbv zeta in *. zdiv.
  - symmetry. apply Z.compare_gt_iff. unfold daysBeforeYear in Ba, Bb. cbv zeta in *. zdiv.
Qed.

Lemma append_nil_s x : String.append "" x = x.
Proof. done. Qed.

Lemma digitOf_digit k : 0 <= k < 10 -> digitOf (digit k) = Some k.
Proof.
  intros H. unfold digitOf, digit. rewrite N_ascii_embedding by lia. rewrite Z2N.id by lia.
  replace ((48 <=? 48 + k) && (48 + k <=? 57)) with true by lia. f_equal. lia.
Qed.

Lemma two_pad2 n : 0 <= n < 100 -> two (digit (n / 10)) (digit (n mod 10)) = Some n.
Proof. intros H. unfold two. rewrite !digitOf_digit by zdiv. f_equal. zdiv. Qed.

Lemma monthDay_inverse_from ls m doy :
  0 <= doy < foldr Z.add 0 ls ->
  let '(m', d) := monthDay ls m doy in
  m <= m' < m + Z.of_nat (List.length ls) /\ 1 <= d <= default 0 (ls !! Z.to_nat (m' - m)) /\
  dayOfYear ls (m' - m + 1) d = doy.
Proof.
  revert m doy. induction ls as [|l ls IH]; intros m doy H; cbn [foldr monthDay dayOfYear List.length] in *; [lia|].
  destruct (doy <? l) eqn:E; bool_hyps.
  - rewrite Z.sub_diag. change (default 0 ((l :: ls) !! Z.to_nat 0)) with l. change (0 + 1 <=? 1) with true. cbv iota. lia.
  - specialize (IH (m + 1) (doy - l) ltac:(lia)). destruct (monthDay ls (m + 1) (doy - l)) as [m' d].
    destruct IH as (Hm & Hd & Hy). replace (m' - m + 1 <=? 1) with false by lia.
    replace (m' - m + 1 - 1) with (m' - (m + 1) + 1) by lia. rewrite Hy.
    replace (Z.to_nat (m' - m)) with (S (Z.to_nat (m' - (m + 1)))) by lia. cbn [lookup list_lookup].
    split; [lia|]. split; [exact Hd | lia].
Qed.

Lemma monthDay_inverse (leap : bool) doy :
  0 <= doy < (if leap then 366 else 365) ->
  let '(m, d) := monthDay (monthLengths leap) 1 doy in
  1 <= m <= 12 /\ 1 <= d <= default 0 (monthLengths leap !! Z.to_nat (m - 1)) /\
  dayOfYear (monthLengths leap) m d = doy.
Proof.
  intros H. assert (Hi := monthDay_inverse_from (monthLengths leap) 1 doy).
  destruct (monthDay (monthLengths leap) 1 doy) as [m d].
  destruct Hi as (Hm & Hd & Hy); [destruct leap; exact H|]. replace (m - 1 + 1) with m in Hy by lia.
  split; [destruct leap; cbn in Hm; lia | done].
Qed.

(** The layout round-trips: parsing what was printed gives the day back. *)
Theorem date_text_roundtrip n : 0 <= n -> yearOf n <= 9999 -> ParseDate (FormatDate n) = Some n.
Proof.
  intros Hn Hy. unfold FormatDate, civilDate. assert (Hp := year_positive n Hn). assert (Hb := year_bounds n Hn).
  set (y := yearOf n) in *. assert (Hl := year_length y).
  assert (Hi := monthDay_inverse (isLeap y) (n - daysBeforeYear y) ltac:(destruct (isLeap y); lia)).
  destruct (monthDay _ 1 _) as [m d]. destruct Hi as (Hm & Hd & Hdoy).
  unfold yearText. rewrite Z.abs_eq by lia. replace (y <? 0) with false by lia. replace (y <=? 9999)%Z with true by lia.
  unfold ParseDate, pad4, pad2. repeat (rewrite append_cons_s || rewrite append_nil_s). cbn [list_ascii_of_string].
  assert (m < 100 /\ d < 100) as [Hm2 Hd2].
  { split; [lia|]. enough (default 0 (monthLengths (isLeap y) !! Z.to_nat (m - 1)) < 100) by lia.
    destruct (monthLengths _ !! _) as [l|] eqn:El; [|done]. apply list_elem_of_lookup_2 in El.
    assert (Hall : Forall (fun l => l < 100) (monthLengths (isLeap y))) by (destruct (isLeap y); repeat constructor).
    by apply (proj1 (Forall_forall _ _) Hall). }
  rewrite !two_pad2 by zdiv. replace (100 * (y / 100) + y mod 100) with y by zdiv. unfold monthLength.
  rewrite !Ascii.eqb_refl. cbn [andb].
  replace ((1 <=? m) && (m <=? 12) && (1 <=? d) && (d <=? default 0 (monthLengths (isLeap y) !! Z.to_nat (m - 1)))) with true by lia.
  f_equal. lia.
Qed.
