(* ===== verification/MarketSpecs.v ===== *)
(** * The embedded exchange calendars

    src/internal/marketcal/data.go and international.go: the calendar of each
    market, table for table (a Go map whose keys are distinct is the list of its
    entries), with the markets of types.go. *)

From stdpp Require Import base decidable list strings.
From Stdlib Require Import ZArith Lia Ascii String.
From S2P Require Import Prelude OrderHistory.

Definition Market : Type := string.
Definition MarketUSOptions : Market := "us_options".
Definition MarketJPTSE : Market := "jp_tse".
Definition MarketHKHKEX : Market := "hk_hkex".
Definition MarketSGSGX : Market := "sg_sgx".
Definition MarketAUASX : Market := "au_asx".
Definition MarketCNAShares : Market := "cn_ashares".

Definition AllMarkets : list Market :=
  [MarketUSEquity; MarketUSOptions; MarketDEXetra; MarketUKLSE; MarketJPTSE; MarketHKHKEX; MarketSGSGX; MarketAUASX;
   MarketCNAShares].

Record hm := mkHM { hm_h : Z; hm_m : Z }.
Record dayOverride := mkOverride { ov_reason : string; ov_close : hm }.
Record sessionBreak := mkBreak { br_start : hm; br_end : hm }.

Record calendarSpec := mkSpec {
  sp_market : Market; sp_label : string; sp_timezone : string; sp_open : hm; sp_close : hm;
  sp_breaks : list sessionBreak; sp_coverageStart : string; sp_coverageEnd : string;
  sp_source : string; sp_sourceURL : string; sp_notes : string;
  sp_holidays : list (string * string); sp_earlyCloses : list (string * dayOverride)
}.

Definition specUSEquity : calendarSpec :=
  mkSpec MarketUSEquity "US equities" "America/New_York" (mkHM 9 30) (mkHM 16 0)
    []
    "2026-01-01" "2028-12-31" "official_exchange_calendar"
    "https://www.nyse.com/markets/hours-calendars"
    "Official NYSE/Nasdaq cash-equity holidays and early closes; other U.S. products may differ."
    [("2026-01-01", "New Year's Day"); ("2026-01-19", "Martin Luther King Jr. Day");
     ("2026-02-16", "Washington's Birthday"); ("2026-04-03", "Good Friday"); ("2026-05-25", "Memorial Day");
     ("2026-06-19", "Juneteenth National Independence Day"); ("2026-07-03", "Independence Day observed");
     ("2026-09-07", "Labor Day"); ("2026-11-26", "Thanksgiving Day"); ("2026-12-25", "Christmas Day");
     ("2027-01-01", "New Year's Day"); ("2027-01-18", "Martin Luther King Jr. Day");
     ("2027-02-15", "Washington's Birthday"); ("2027-03-26", "Good Friday"); ("2027-05-31", "Memorial Day");
     ("2027-06-18", "Juneteenth National Independence Day observed"); ("2027-07-05", "Independence Day observed");
     ("2027-09-06", "Labor Day"); ("2027-11-25", "Thanksgiving Day"); ("2027-12-24", "Christmas Day observed");
     ("2028-01-17", "Martin Luther King Jr. Day"); ("2028-02-21", "Washington's Birthday");
     ("2028-04-14", "Good Friday"); ("2028-05-29", "Memorial Day");
     ("2028-06-19", "Juneteenth National Independence Day"); ("2028-07-04", "Independence Day");
     ("2028-09-04", "Labor Day"); ("2028-11-23", "Thanksgiving Day"); ("2028-12-25", "Christmas Day")]
    [("2026-11-27", mkOverride "Thanksgiving early close" (mkHM 13 0));
     ("2026-12-24", mkOverride "Christmas early close" (mkHM 13 0));
     ("2027-11-26", mkOverride "Thanksgiving early close" (mkHM 13 0));
     ("2028-07-03", mkOverride "Independence Day early close" (mkHM 13 0));
     ("2028-11-24", mkOverride "Thanksgiving early close" (mkHM 13 0))].

Definition specUSOptions : calendarSpec :=
  mkSpec MarketUSOptions "US listed options" "America/New_York" (mkHM 9 30) (mkHM 16 15)
    []
    "2026-01-01" "2028-12-31" "official_exchange_calendar"
    "https://www.cboe.com/about/hours/us-options"
    "Models the regular U.S. listed-options session; SPX/VIX global hours, curb trading, and per-class exceptions are not modeled in v1."
    [("2026-01-01", "New Year's Day"); ("2026-01-19", "Martin Luther King Jr. Day");
     ("2026-02-16", "Presidents' Day"); ("2026-04-03", "Good Friday"); ("2026-05-25", "Memorial Day");
     ("2026-06-19", "Juneteenth Holiday"); ("2026-07-03", "Independence Day observed");
     ("2026-09-07", "Labor Day"); ("2026-11-26", "Thanksgiving Day"); ("2026-12-25", "Christmas Day");
     ("2027-01-01", "New Year's Day"); ("2027-01-18", "Martin Luther King Jr. Day");
     ("2027-02-15", "Presidents' Day"); ("2027-03-26", "Good Friday"); ("2027-05-31", "Memorial Day");
     ("2027-06-18", "Juneteenth Holiday observed"); ("2027-07-05", "Independence Day observed");
     ("2027-09-06", "Labor Day"); ("2027-11-25", "Thanksgiving Day"); ("2027-12-24", "Christmas Day observed");
     ("2028-01-17", "Martin Luther King Jr. Day"); ("2028-02-21", "Presidents' Day");
     ("2028-04-14", "Good Friday"); ("2028-05-29", "Memorial Day"); ("2028-06-19", "Juneteenth Holiday");
     ("2028-07-04", "Independence Day"); ("2028-09-04", "Labor Day"); ("2028-11-23", "Thanksgiving Day");
     ("2028-12-25", "Christmas Day")]
    [("2026-11-27", mkOverride "Thanksgiving early close" (mkHM 13 0));
     ("2026-12-24", mkOverride "Christmas early close" (mkHM 13 0));
     ("2027-11-26", mkOverride "Thanksgiving early close" (mkHM 13 0));
     ("2028-07-03", mkOverride "Independence Day early close" (mkHM 13 0));
     ("2028-11-24", mkOverride "Thanksgiving early close" (mkHM 13 0))].

Definition specDEXetra : calendarSpec :=
  mkSpec MarketDEXetra "Xetra" "Europe/Berlin" (mkHM 9 0) (mkHM 17 30)
    []
    "2026-01-01" "2028-12-31" "official_exchange_calendar"
    "https://www.cashmarket.deutsche-boerse.com/cash-en/trading/trading-calendar-and-trading-hours"
    "Official Deutsche Boerse Xetra cash-equity calendar; Frankfurt floor trading and Eurex derivatives are not modeled in v1."
    [("2026-01-01", "New Year's Day"); ("2026-04-03", "Good Friday"); ("2026-04-06", "Easter Monday");
     ("2026-05-01", "Labour Day"); ("2026-12-24", "Christmas Eve"); ("2026-12-25", "Christmas Day");
     ("2026-12-31", "New Year's Eve"); ("2027-01-01", "New Year's Day"); ("2027-03-26", "Good Friday");
     ("2027-03-29", "Easter Monday"); ("2027-12-24", "Christmas Eve"); ("2027-12-31", "New Year's Eve");
     ("2028-04-14", "Good Friday"); ("2028-04-17", "Easter Monday"); ("2028-05-01", "Labour Day");
     ("2028-12-25", "Christmas Day"); ("2028-12-26", "Boxing Day")]
    [].

Definition specUKLSE : calendarSpec :=
  mkSpec MarketUKLSE "London SETS" "Europe/London" (mkHM 8 0) (mkHM 16 30)
    []
    "2026-01-01" "2028-12-31" "official_exchange_calendar"
    "https://www.londonstockexchange.com/trade/trading-access/business-days"
    "SETS ordinary cash session. Closing auctions and other trading services are excluded. England and Wales bank holidays apply; earlier 2026 dates verified against https://www.gov.uk/bank-holidays. Hours: Millennium Exchange business parameters."
    [("2026-01-01", "New Year's Day"); ("2026-04-03", "Good Friday"); ("2026-04-06", "Easter Monday");
     ("2026-05-04", "Early May Bank Holiday"); ("2026-05-25", "Spring Bank Holiday");
     ("2026-08-31", "Summer Bank Holiday"); ("2026-12-25", "Christmas Day"); ("2026-12-28", "Boxing Day observed");
     ("2027-01-01", "New Year's Day"); ("2027-03-26", "Good Friday"); ("2027-03-29", "Easter Monday");
     ("2027-05-03", "Early May Bank Holiday"); ("2027-05-31", "Spring Bank Holiday");
     ("2027-08-30", "Summer Bank Holiday"); ("2027-12-27", "Christmas Day observed");
     ("2027-12-28", "Boxing Day observed"); ("2028-01-03", "New Year's Day observed");
     ("2028-04-14", "Good Friday"); ("2028-04-17", "Easter Monday"); ("2028-05-01", "Early May Bank Holiday");
     ("2028-05-29", "Spring Bank Holiday"); ("2028-08-28", "Summer Bank Holiday"); ("2028-12-25", "Christmas Day");
     ("2028-12-26", "Boxing Day")]
    [("2026-12-24", mkOverride "Christmas early close" (mkHM 12 30));
     ("2026-12-31", mkOverride "New Year early close" (mkHM 12 30));
     ("2027-12-24", mkOverride "Christmas early close" (mkHM 12 30));
     ("2027-12-31", mkOverride "New Year early close" (mkHM 12 30));
     ("2028-12-22", mkOverride "Christmas early close" (mkHM 12 30));
     ("2028-12-29", mkOverride "New Year early close" (mkHM 12 30))].

Definition specJPTSE : calendarSpec :=
  mkSpec MarketJPTSE "Tokyo cash equities" "Asia/Tokyo" (mkHM 9 0) (mkHM 15 30)
    [mkBreak (mkHM 11 30) (mkHM 12 30)]
    "2026-01-01" "2027-12-31" "official_exchange_calendar"
    "https://www.jpx.co.jp/english/corporate/about-jpx/calendar/"
    "Tokyo cash equities; derivatives holiday trading is excluded. Scheduled lunch is not an open session. Hours: https://www.jpx.co.jp/english/equities/trading/domestic/01.html."
    [("2026-01-01", "New Year's Day"); ("2026-01-02", "Market Holiday"); ("2026-01-03", "Market Holiday");
     ("2026-01-12", "Coming of Age Day"); ("2026-02-11", "National Foundation Day");
     ("2026-02-23", "Emperor's Birthday"); ("2026-03-20", "Vernal Equinox"); ("2026-04-29", "Showa Day");
     ("2026-05-03", "Constitution Memorial Day"); ("2026-05-04", "Greenery Day"); ("2026-05-05", "Children's Day");
     ("2026-05-06", "Constitution Memorial Day observed"); ("2026-07-20", "Marine Day");
     ("2026-08-11", "Mountain Day"); ("2026-09-21", "Respect for the Aged Day");
     ("2026-09-22", "National holiday"); ("2026-09-23", "Autumnal Equinox"); ("2026-10-12", "Sports Day");
     ("2026-11-03", "Culture Day"); ("2026-11-23", "Labor Thanksgiving Day"); ("2026-12-31", "Market Holiday");
     ("2027-01-01", "New Year's Day"); ("2027-01-02", "Market Holiday"); ("2027-01-03", "Market Holiday");
     ("2027-01-11", "Coming of Age Day"); ("2027-02-11", "National Foundation Day");
     ("2027-02-23", "Emperor's Birthday"); ("2027-03-21", "Vernal Equinox");
     ("2027-03-22", "Vernal Equinox observed"); ("2027-04-29", "Showa Day");
     ("2027-05-03", "Constitution Memorial Day"); ("2027-05-04", "Greenery Day"); ("2027-05-05", "Children's Day");
     ("2027-07-19", "Marine Day"); ("2027-08-11", "Mountain Day"); ("2027-09-20", "Respect for the Aged Day");
     ("2027-09-23", "Autumnal Equinox"); ("2027-10-11", "Sports Day"); ("2027-11-03", "Culture Day");
     ("2027-11-23", "Labor Thanksgiving Day"); ("2027-12-31", "Market Holiday")]
    [].

Definition specHKHKEX : calendarSpec :=
  mkSpec MarketHKHKEX "Hong Kong cash equities" "Asia/Hong_Kong" (mkHM 9 30) (mkHM 16 0)
    [mkBreak (mkHM 12 0) (mkHM 13 0)]
    "2026-01-01" "2027-12-31" "official_exchange_calendar"
    "https://www.hkex.com.hk/Services/Circulars-and-Notices/Participant-and-Members-Circulars/SEHK/2026/SEHK_CT_077_2026Jun01162846?sc_lang=en"
    "Ordinary cash-equity continuous sessions only. Closing auctions (random end), extended-morning eligible products, Stock Connect and derivatives are excluded. Hours: https://www.hkex.com.hk/Services/Trading-hours-and-Severe-Weather-Arrangements/Trading-Hours/Securities-Market."
    [("2026-01-01", "New Year's Day"); ("2026-02-17", "Lunar New Year"); ("2026-02-18", "Lunar New Year");
     ("2026-02-19", "Lunar New Year"); ("2026-04-03", "Good Friday"); ("2026-04-06", "Ching Ming observed");
     ("2026-04-07", "Easter Monday observed"); ("2026-05-01", "Labour Day");
     ("2026-05-25", "Buddha's Birthday observed"); ("2026-06-19", "Tuen Ng Festival");
     ("2026-07-01", "Establishment Day"); ("2026-10-01", "National Day"); ("2026-10-19", "Chung Yeung observed");
     ("2026-12-25", "Christmas Day"); ("2027-01-01", "New Year's Day"); ("2027-02-08", "Lunar New Year");
     ("2027-02-09", "Lunar New Year observed"); ("2027-03-26", "Good Friday"); ("2027-03-29", "Easter Monday");
     ("2027-04-05", "Ching Ming Festival"); ("2027-05-13", "Buddha's Birthday");
     ("2027-06-09", "Tuen Ng Festival"); ("2027-07-01", "Establishment Day");
     ("2027-09-16", "Day after Mid-Autumn Festival"); ("2027-10-01", "National Day");
     ("2027-10-08", "Chung Yeung Festival"); ("2027-12-27", "First weekday after Christmas")]
    [("2026-02-16", mkOverride "Lunar New Year early close" (mkHM 12 0));
     ("2026-12-24", mkOverride "Christmas early close" (mkHM 12 0));
     ("2026-12-31", mkOverride "New Year early close" (mkHM 12 0));
     ("2027-02-05", mkOverride "Lunar New Year early close" (mkHM 12 0));
     ("2027-12-24", mkOverride "Christmas early close" (mkHM 12 0));
     ("2027-12-31", mkOverride "New Year early close" (mkHM 12 0))].

Definition specSGSGX : calendarSpec :=
  mkSpec MarketSGSGX "Singapore securities" "Asia/Singapore" (mkHM 9 0) (mkHM 17 0)
    [mkBreak (mkHM 12 0) (mkHM 13 0)]
    "2026-01-01" "2027-12-31" "official_exchange_calendar"
    "https://www.mom.gov.sg/employment-practices/public-holidays"
    "SGX securities market continuous sessions only; the pre-open, closing routine and trade-at-close phases are excluded. Holidays: Singapore's gazetted public holidays as SGX observes them. Half days end at 12:00 with no afternoon session. Hours: https://www.sgx.com/securities/trading."
    [("2026-01-01", "New Year's Day"); ("2026-02-17", "Chinese New Year"); ("2026-02-18", "Chinese New Year");
     ("2026-04-03", "Good Friday"); ("2026-05-01", "Labour Day"); ("2026-05-27", "Hari Raya Haji");
     ("2026-06-01", "Vesak Day observed"); ("2026-08-10", "National Day observed");
     ("2026-11-09", "Deepavali observed"); ("2026-12-25", "Christmas Day"); ("2027-01-01", "New Year's Day");
     ("2027-02-08", "Chinese New Year observed"); ("2027-03-10", "Hari Raya Puasa"); ("2027-03-26", "Good Friday");
     ("2027-05-17", "Hari Raya Haji"); ("2027-05-20", "Vesak Day"); ("2027-08-09", "National Day");
     ("2027-10-28", "Deepavali")]
    [("2026-02-16", mkOverride "Chinese New Year eve half day" (mkHM 12 0));
     ("2026-12-24", mkOverride "Christmas eve half day" (mkHM 12 0));
     ("2026-12-31", mkOverride "New Year eve half day" (mkHM 12 0));
     ("2027-02-05", mkOverride "Chinese New Year eve half day" (mkHM 12 0));
     ("2027-12-24", mkOverride "Christmas eve half day" (mkHM 12 0));
     ("2027-12-31", mkOverride "New Year eve half day" (mkHM 12 0))].

Definition specAUASX : calendarSpec :=
  mkSpec MarketAUASX "ASX cash equities" "Australia/Sydney" (mkHM 10 0) (mkHM 16 0)
    []
    "2026-01-01" "2027-12-31" "official_exchange_calendar"
    "https://www.asx.com.au/markets/market-resources/trading-hours-calendar/cash-market-trading-hours/trading-calendar"
    "ASX normal trading only. The staggered open (10:00 to 10:09 by security group), the pre-CSPA phase and the closing single price auction from 16:10 are excluded. Early closes end normal trading at 14:10. Hours: https://www.asx.com.au/markets/market-resources/trading-hours-calendar/cash-market-trading-hours."
    [("2026-01-01", "New Year's Day"); ("2026-01-26", "Australia Day"); ("2026-04-03", "Good Friday");
     ("2026-04-06", "Easter Monday"); ("2026-06-08", "King's Birthday"); ("2026-12-25", "Christmas Day");
     ("2026-12-28", "Boxing Day observed"); ("2027-01-01", "New Year's Day"); ("2027-01-26", "Australia Day");
     ("2027-03-26", "Good Friday"); ("2027-03-29", "Easter Monday"); ("2027-06-14", "King's Birthday");
     ("2027-12-27", "Christmas Day observed"); ("2027-12-28", "Boxing Day observed")]
    [("2026-12-24", mkOverride "Christmas early close" (mkHM 14 10));
     ("2026-12-31", mkOverride "New Year early close" (mkHM 14 10));
     ("2027-12-24", mkOverride "Christmas early close" (mkHM 14 10));
     ("2027-12-31", mkOverride "New Year early close" (mkHM 14 10))].

Definition specCNAShares : calendarSpec :=
  mkSpec MarketCNAShares "China A-shares (SSE/SZSE)" "Asia/Shanghai" (mkHM 9 30) (mkHM 15 0)
    [mkBreak (mkHM 11 30) (mkHM 13 0)]
    "2026-01-01" "2026-12-31" "official_exchange_calendar"
    "https://www.sse.com.cn/disclosure/announcement/general/c/c_20251222_10802507.shtml"
    "Shanghai and Shenzhen A-share sessions; the afternoon window ends with the 14:57 to 15:00 closing call auction. Northbound Stock Connect, which is how IBKR routes A-shares (SEHKNTL, SEHKSZSE), trades only on days both this calendar and Hong Kong are open and skips some settlement-constrained days; consult the HKEX Stock Connect calendar before relying on a date. Hours: https://english.sse.com.cn/start/trading/schedule/."
    [("2026-01-01", "New Year's Day"); ("2026-01-02", "New Year's Day holiday"); ("2026-02-16", "Spring Festival");
     ("2026-02-17", "Spring Festival"); ("2026-02-18", "Spring Festival"); ("2026-02-19", "Spring Festival");
     ("2026-02-20", "Spring Festival"); ("2026-02-23", "Spring Festival"); ("2026-04-06", "Qingming Festival");
     ("2026-05-01", "Labour Day"); ("2026-05-04", "Labour Day holiday"); ("2026-05-05", "Labour Day holiday");
     ("2026-06-19", "Dragon Boat Festival"); ("2026-09-25", "Mid-Autumn Festival"); ("2026-10-01", "National Day");
     ("2026-10-02", "National Day holiday"); ("2026-10-05", "National Day holiday");
     ("2026-10-06", "National Day holiday"); ("2026-10-07", "National Day holiday")]
    [].

Definition specs : list (Market * calendarSpec) :=
  [(MarketUSEquity, specUSEquity); (MarketUSOptions, specUSOptions); (MarketDEXetra, specDEXetra);
   (MarketUKLSE, specUKLSE); (MarketJPTSE, specJPTSE); (MarketHKHKEX, specHKHKEX); (MarketSGSGX, specSGSGX);
   (MarketAUASX, specAUASX); (MarketCNAShares, specCNAShares)].

(** [m[key]] of a map given by its entries. *)
Fixpoint mapGet {A} (key : string) (entries : list (string * A)) : option A :=
  match entries with
  | [] => None
  | (k, v) :: rest => if k =s key then Some v else mapGet key rest
  end.

(** NormalizeMarket *)
Definition NormalizeMarket (v : string) : option Market :=
  let v := ToLower (TrimSpace v) in
  if one_of v [""; "us"; "usa"; "us-equity"; "us_equity"; "equity"; "equities"; "stocks"; "stock"] then Some MarketUSEquity else
  if one_of v ["us-options"; "us_options"; "options"; "option"] then Some MarketUSOptions else
  if one_of v ["de"; "de-xetra"; "de_xetra"; "xetra"; "germany"; "ibis"] then Some MarketDEXetra else
  if one_of v ["uk"; "uk_lse"; "uk-lse"; "lse"; "london"] then Some MarketUKLSE else
  if one_of v ["jp"; "jp_tse"; "jp-tse"; "tse"; "tsej"; "tokyo"] then Some MarketJPTSE else
  if one_of v ["hk"; "hk_hkex"; "hk-hkex"; "hkex"; "sehk"] then Some MarketHKHKEX else
  if one_of v ["sg"; "sg_sgx"; "sg-sgx"; "sgx"; "singapore"] then Some MarketSGSGX else
  if one_of v ["au"; "au_asx"; "au-asx"; "asx"; "australia"; "sydney"] then Some MarketAUASX else
  if one_of v ["cn"; "cn_ashares"; "cn-ashares"; "sse"; "szse"; "a-shares"; "ashares"; "china"; "sehkntl"; "sehkszse"] then Some MarketCNAShares else
  None.

(** Label *)
Definition Label (m : Market) : string := match mapGet m specs with Some s => sp_label s | None => "" end.
