(* ===== verification/MarketCalendar.v ===== *)
(** * The market calendar

    src/internal/marketcal/calendar.go (Query, SessionAt, queryTime,
    sessionForDate, attachNext, nextTradable) over the tables of [MarketSpecs]
    and the civil time of [GoTime].  A location comes from the tz database, so
    loading one is a parameter; what the theorems need of a zone is
    [ZoneLaws] (bounded offsets, no clock change during trading hours).
    sessionForDate and nextTradable call each other, so they take fuel;
    [session_answers] shows the fuel of the entry points never runs out and the
    indexing of the next session's windows never fails.  Proved: the session at
    an instant says whether the market trades then and otherwise names exactly
    the next trading window of the calendar, and the deadline of a DAY order is
    the first close after its placement. *)

From stdpp Require Import base decidable list strings numbers sorting.
From Stdlib Require Import ZArith Lia Ascii String.
From S2P Require Import Prelude OrderTypes OrderHistory GoTime MarketSpecs.

(** ** Sessions *)

Inductive State := StateRegular | StateClosed | StateHoliday | StateEarlyClose | StateUnknown.
#[global] Instance State_eq_dec : EqDecision State.
Proof. solve_decision. Defined.

Record Window := mkWindow { wn_Open : time; wn_Close : time }.

Record Session := mkSess {
  ss_Market : Market; ss_Label : string; ss_Date : string; ss_Timezone : string; ss_State : State; ss_IsOpen : bool;
  ss_Reason : string; ss_Open : time; ss_Close : time; ss_Windows : list Window; ss_NextOpen : option time;
  ss_NextClose : option time; ss_Source : string; ss_SourceURL : string; ss_CoverageStart : string;
  ss_CoverageEnd : string; ss_Notes : string
}.
#[global] Instance Session_eta : Eta Session := fun s =>
  mkSess (ss_Market s) (ss_Label s) (ss_Date s) (ss_Timezone s) (ss_State s) (ss_IsOpen s) (ss_Reason s) (ss_Open s)
    (ss_Close s) (ss_Windows s) (ss_NextOpen s) (ss_NextClose s) (ss_Source s) (ss_SourceURL s) (ss_CoverageStart s)
    (ss_CoverageEnd s) (ss_Notes s).

Record Query := mkQuery { q_Market : Market; q_Date : string; q_At : time; q_Days : Z }.

Record Result := mkResult {
  rs_Market : Market; rs_Label : string; rs_Timezone : string; rs_AsOf : time; rs_CoverageStart : string;
  rs_CoverageEnd : string; rs_Source : string; rs_SourceURL : string; rs_Session : Session; rs_Sessions : list Session
}.

Definition defaultDays : Z := 14.
Definition maxDays : Z := 400.

(** How a computation of a session stops short: it ran out of fuel, or indexed
    an empty slice, which panics. *)
Inductive stuck := OutOfFuel | IndexPanic.

Definition secondsOfDay (v : hm) : Z := 3600 * hm_h v + 60 * hm_m v.

(** atLocal *)
Definition atLocal (loc : location) (day : time) (v : hm) : time := Date loc (localDay loc day) (secondsOfDay v).
(** localDate *)
Definition localDate (loc : location) (t : time) : time := Date loc (localDay loc t) 0.

Definition string_lt (a b : string) : bool := String.ltb a b.

(** The windows between the breaks: the loop over spec.breaks, and what is left
    up to the close. *)
Fixpoint splitWindows (at_ : hm -> time) (breaks : list sessionBreak) (start close : time) : list Window :=
  let rest := if Before start close then [mkWindow start close] else [] in
  match breaks with
  | [] => rest
  | pause :: breaks =>
      if negb (Before (at_ (br_start pause)) close) then rest
      else (if Before start (at_ (br_start pause)) then [mkWindow start (at_ (br_start pause))] else []) ++
           splitWindows at_ breaks (at_ (br_end pause)) close
  end.

Definition inWindow (at_ : time) (w : Window) : bool := negb (Before at_ (wn_Open w)) && Before at_ (wn_Close w).

Definition windowAfter (at_ : time) (ws : list Window) : option Window :=
  List.find (fun w => Before at_ (wn_Open w)) ws.

Section Calendar.
Context (spec : calendarSpec) (loc : location).

Definition blankSession (date : string) : Session :=
  mkSess (sp_market spec) (sp_label spec) date (sp_timezone spec) StateUnknown false "" 0 0 [] None None
    (sp_source spec) (sp_sourceURL spec) (sp_coverageStart spec) (sp_coverageEnd spec) (sp_notes spec).

(** attachNext, given what nextTradable answered. *)
Definition attachNext (next : result stuck Session) (s : Session) : result stuck Session :=
  let? next := next in
  if IsZero (ss_Open next) then Ok s
  else
    match ss_Windows next with
    | [] => Err IndexPanic
    | w :: _ => Ok (s <| ss_NextOpen := Some (ss_Open next) |> <| ss_NextClose := Some (wn_Close w) |>)
    end.

(** sessionForDate on a day the market trades. *)
Definition tradingSession (next : Session -> result stuck Session) (day at_ : time) (closeHM : hm) (s : Session)
    : result stuck Session :=
  let open := atLocal loc day (sp_open spec) in
  let close := atLocal loc day closeHM in
  let windows := splitWindows (atLocal loc day) (sp_breaks spec) open close in
  let isOpen := negb (IsZero at_) && existsb (inWindow at_) windows in
  let s := s <| ss_Open := open |> <| ss_Close := close |> <| ss_Windows := windows |> <| ss_IsOpen := isOpen |> in
  if negb isOpen && negb (IsZero at_) then
    match windowAfter at_ windows with
    | Some w => Ok (s <| ss_NextOpen := Some (wn_Open w) |> <| ss_NextClose := Some (wn_Close w) |>)
    | None => next s
    end
  else Ok s.

(** sessionForDate, given nextTradable. *)
Definition sessionForDateWith (nextTradable : time -> result stuck Session) (day at_ : time) : result stuck Session :=
  let n := localDay loc day in
  let date := FormatDate n in
  let s := blankSession date in
  let next s := attachNext (nextTradable (AddDays loc day 1)) s in
  if string_lt date (sp_coverageStart spec) || string_lt (sp_coverageEnd spec) date
  then Ok (s <| ss_State := StateUnknown |> <| ss_Reason := "outside embedded official calendar coverage" |>)
  else if (Weekday n =? Saturday) || (Weekday n =? Sunday)
  then next (s <| ss_State := StateClosed |> <| ss_Reason := "weekend" |>)
  else
    match mapGet date (sp_holidays spec) with
    | Some reason => next (s <| ss_State := StateHoliday |> <| ss_Reason := reason |>)
    | None =>
        match mapGet date (sp_earlyCloses spec) with
        | Some o =>
            tradingSession next day at_ (ov_close o) (s <| ss_State := StateEarlyClose |> <| ss_Reason := ov_reason o |>)
        | None => tradingSession next day at_ (sp_close spec) (s <| ss_State := StateRegular |>)
        end
    end.

(** The loop of nextTradable over the remaining offsets from the base date. *)
Fixpoint nextTradableLoop (session : time -> result stuck Session) (base start : time) (offsets : list Z)
    : result stuck Session :=
  match offsets with
  | [] =>
      Ok (mkSess (sp_market spec) "" (FormatDate (localDay loc start)) "" StateUnknown false
            "no open session inside lookup horizon" 0 0 [] None None "" "" "" "" "")
  | i :: rest =>
      let? s := session (AddDays loc base i) in
      match ss_State s with
      | StateRegular | StateEarlyClose | StateUnknown => Ok s
      | _ => nextTradableLoop session base start rest
      end
  end.

(** sessionForDate and nextTradable; each nested search costs one unit of fuel. *)
Fixpoint sessionForDate (fuel : nat) (day at_ : time) : result stuck Session :=
  match fuel with
  | O => Err OutOfFuel
  | S fuel =>
      sessionForDateWith
        (fun start => nextTradableLoop (fun d => sessionForDate fuel d 0) (localDate loc start) start
                        (seqZ 0 (maxDays + 1)))
        day at_
  end.

(** A search moves at least one day forward and stops after the last covered
    day. *)
Definition calendarFuel : nat :=
  match ParseDate (sp_coverageStart spec), ParseDate (sp_coverageEnd spec) with
  | Some a, Some b => Z.to_nat (b - a + 3)
  | _, _ => 1
  end.

(** sessionAt *)
Definition sessionAt (at_ : time) : result stuck Session := sessionForDate calendarFuel (localDate loc at_) at_.
End Calendar.

(** Query errors: an unknown market, a zone that does not load, a bad date. *)
Inductive queryErr := QueryErr (e : string) | QueryStuck (s : stuck).

Definition lift {A} (r : result stuck A) : result queryErr A := match r with Ok a => Ok a | Err e => Err (QueryStuck e) end.

Fixpoint mapR {A B E} (f : A -> result E B) (l : list A) : result E (list B) :=
  match l with
  | [] => Ok []
  | x :: rest => let? y := f x in let? ys := mapR f rest in Ok (y :: ys)
  end.

(** queryTime *)
Definition queryTime (clock : time) (q : Query) (loc : location) : result queryErr time :=
  if negb (IsZero (q_At q)) then Ok (q_At q)
  else if TrimSpace (q_Date q) <>s "" then
    match ParseDate (TrimSpace (q_Date q)) with
    | None => Err (QueryErr "date must be YYYY-MM-DD")
    | Some n => let day := Date loc n 0 in Ok (Date loc (localDay loc day) (12 * 3600))
    end
  else Ok clock.

(** Query; [load] is time.LoadLocation, which the code caches. *)
Definition calendarQuery (load : string -> option location) (clock : time) (q : Query) : result queryErr Result :=
  match mapGet (q_Market q) specs with
  | None => Err (QueryErr "unsupported market")
  | Some spec =>
      match load (sp_timezone spec) with
      | None => Err (QueryErr "load zone")
      | Some loc =>
          let? at_ := queryTime clock q loc in
          let days := if q_Days q <=? 0 then defaultDays else q_Days q in
          let days := if maxDays <? days then maxDays else days in
          let? session := lift (sessionAt spec loc at_) in
          let startDate := localDate loc at_ in
          let? sessions :=
            mapR (fun i =>
                    let day := AddDays loc startDate i in
                    if day =? startDate then Ok session
                    else lift (sessionForDate spec loc (calendarFuel spec) day 0)) (seqZ 0 days) in
          Ok (mkResult (sp_market spec) (sp_label spec) (sp_timezone spec) clock (sp_coverageStart spec)
                (sp_coverageEnd spec) (sp_source spec) (sp_sourceURL spec) session sessions)
      end
  end.

(** SessionAt *)
Definition SessionAt (load : string -> option location) (clock : time) (market : Market) (at_ : time)
    : result queryErr Session :=
  let? res := calendarQuery load clock (mkQuery market "" at_ 1) in Ok (rs_Session res).

#[global] Arguments string_lt : simpl never.
#[global] Arguments localDate : simpl never.
#[global] Arguments AddDays : simpl never.

(** ** What the calendar promises *)

Definition firstDay (spec : calendarSpec) : Z := default 0 (ParseDate (sp_coverageStart spec)).
Definition lastDay (spec : calendarSpec) : Z := default 0 (ParseDate (sp_coverageEnd spec)).

Definition closeOn (spec : calendarSpec) (n : Z) : hm :=
  match mapGet (FormatDate n) (sp_earlyCloses spec) with Some o => ov_close o | None => sp_close spec end.

(** The covered days the market trades on, and its windows on such a day. *)
Definition tradesOn (spec : calendarSpec) (n : Z) : bool :=
  (firstDay spec <=? n) && (n <=? lastDay spec) && negb ((Weekday n =? Saturday) || (Weekday n =? Sunday)) &&
  negb (present (mapGet (FormatDate n) (sp_holidays spec))).

Definition windowsOn (spec : calendarSpec) (loc : location) (n : Z) : list Window :=
  splitWindows (fun v => Date loc n (secondsOfDay v)) (sp_breaks spec) (Date loc n (secondsOfDay (sp_open spec)))
    (Date loc n (secondsOfDay (closeOn spec n))).

(** The instants the calendar calls tradable. *)
Definition trading (spec : calendarSpec) (loc : location) (t : time) : Prop :=
  exists n w, tradesOn spec n = true /\ In w (windowsOn spec loc n) /\ wn_Open w <= t < wn_Close w.

(** The same, instant by instant: on a trading day, between the open and that day's
    close, in none of the breaks. *)
Definition tradesAt (spec : calendarSpec) (loc : location) (t : time) : Prop :=
  exists n, tradesOn spec n = true /\
    Date loc n (secondsOfDay (sp_open spec)) <= t < Date loc n (secondsOfDay (closeOn spec n)) /\
    forall b, In b (sp_breaks spec) -> ~ (Date loc n (secondsOfDay (br_start b)) <= t < Date loc n (secondsOfDay (br_end b))).

(** ** What the tables satisfy *)

Definition closes (spec : calendarSpec) : list Z :=
  secondsOfDay (sp_close spec) :: map (fun o => secondsOfDay (ov_close o.2)) (sp_earlyCloses spec).

(** Breaks follow each other inside the day. *)
Fixpoint breaksOk (after : Z) (breaks : list sessionBreak) : bool :=
  match breaks with
  | [] => true
  | b :: rest =>
      (after <? secondsOfDay (br_start b)) && (secondsOfDay (br_start b) <? secondsOfDay (br_end b)) &&
      (secondsOfDay (br_end b) <? daySeconds) && breaksOk (secondsOfDay (br_end b)) rest
  end.

(** Some trading days, not further apart than the search horizon. *)
Fixpoint anchored (spec : calendarSpec) (from : Z) (anchors : list Z) : bool :=
  match anchors with
  | [] => lastDay spec <=? from + maxDays
  | m :: rest => tradesOn spec m && (m <=? from + maxDays) && anchored spec m rest
  end.

Definition specOk (spec : calendarSpec) (anchors : list Z) : bool :=
  (sp_coverageStart spec =s FormatDate (firstDay spec)) && (sp_coverageEnd spec =s FormatDate (lastDay spec)) &&
  (1000 <? firstDay spec) && (firstDay spec <=? lastDay spec) && (lastDay spec <? 3652000) &&
  (7200 <=? secondsOfDay (sp_open spec)) &&
  forallb (fun c => (secondsOfDay (sp_open spec) <? c) && (c <=? 79200)) (closes spec) &&
  breaksOk (secondsOfDay (sp_open spec)) (sp_breaks spec) && anchored spec (firstDay spec) anchors.

(** Days every market trades on while its coverage lasts. *)
Definition tableAnchors (spec : calendarSpec) : list Z :=
  List.filter (fun n => n <=? lastDay spec)
    (omap ParseDate ["2026-06-15"; "2026-12-09"; "2027-06-08"; "2027-12-08"; "2028-06-07"]).

Lemma specs_ok : forallb (fun e => specOk e.2 (tableAnchors e.2)) specs = true.
Proof. vm_compute. reflexivity. Qed.

(** Every early close of the tables falls on a day the market trades. *)
Lemma early_closes_trade :
  forallb (fun e => forallb (fun o => match ParseDate o.1 with Some n => tradesOn e.2 n | None => false end)
                      (sp_earlyCloses e.2)) specs = true.
Proof. vm_compute. reflexivity. Qed.

(** The wall clocks a calendar asks for. *)
Definition hours (spec : calendarSpec) : list Z :=
  secondsOfDay (sp_open spec) :: closes spec ++
  flat_map (fun b => [secondsOfDay (br_start b); secondsOfDay (br_end b)]) (sp_breaks spec).

(** What is relied on of a zone: offsets of at most 14 hours that vary by at
    most two over the coverage, and a clock that is not changed at midnight or
    between the hours of one day's session. *)
Record ZoneLaws (spec : calendarSpec) (loc : location) : Prop := {
  zl_bound : forall s, -50400 <= zs_offset (loc s) <= 50400;
  zl_swing : forall s s',
    (firstDay spec - 1) * daySeconds <= s <= (lastDay spec + 3) * daySeconds ->
    (firstDay spec - 1) * daySeconds <= s' <= (lastDay spec + 3) * daySeconds ->
    zs_offset (loc s) - zs_offset (loc s') <= 7200;
  zl_midnight : forall n, firstDay spec <= n <= lastDay spec + 1 -> wallClock loc (Date loc n 0) = n * daySeconds;
  zl_hours : forall n h, firstDay spec <= n <= lastDay spec -> In h (hours spec) ->
    wallClock loc (Date loc n h) = n * daySeconds + h /\
    offsetAt loc (Date loc n h) = offsetAt loc (Date loc n (secondsOfDay (sp_open spec)))
}.

(** *** Windows of a day *)

(** Breaks in order after [start], as instants. *)
Fixpoint chain (at_ : hm -> time) (start : time) (breaks : list sessionBreak) : Prop :=
  match breaks with
  | [] => True
  | b :: rest => start < at_ (br_start b) < at_ (br_end b) /\ chain at_ (at_ (br_end b)) rest
  end.

Lemma splitWindows_bounds at_ breaks start close w :
  chain at_ start breaks -> In w (splitWindows at_ breaks start close) ->
  start <= wn_Open w /\ wn_Open w < wn_Close w /\ wn_Close w <= close.
Proof.
  revert start. induction breaks as [|b breaks IH]; intros start; cbn [splitWindows chain].
  - intros _. destruct (Before start close) eqn:E; [|done]. intros [<-|[]]. unfold Before in E. cbn. lia.
  - intros [Hb Hc]. unfold Before. destruct (at_ (br_start b) <? close) eqn:E1; cbn [negb].
    + replace (start <? at_ (br_start b)) with true by lia. intros [<-|H]; [cbn; lia|].
      specialize (IH _ Hc H). lia.
    + destruct (start <? close) eqn:E; [|done]. intros [<-|[]]. cbn. lia.
Qed.

Lemma chain_after at_ breaks start b : chain at_ start breaks -> In b breaks -> start < at_ (br_start b).
Proof.
  revert start. induction breaks as [|b' breaks IH]; intros start; cbn [chain]; [done|]. intros [H Hc] [->|Hin]; [lia|].
  specialize (IH _ Hc Hin). lia.
Qed.

(** The windows hold exactly what lies outside the breaks. *)
Lemma splitWindows_instants at_ breaks start close t : chain at_ start breaks ->
  (exists w, In w (splitWindows at_ breaks start close) /\ wn_Open w <= t < wn_Close w) <->
  start <= t < close /\ forall b, In b breaks -> ~ (at_ (br_start b) <= t < at_ (br_end b)).
Proof.
  revert start. induction breaks as [|b breaks IH]; intros start Hc; cbn [splitWindows] in *; unfold Before.
  { destruct (start <? close) eqn:Hlt; split.
    - intros (w & [<-|[]] & H). cbn in H. split; [lia | by intros ? []].
    - intros [H _]. eexists. split; [by left | cbn; lia].
    - by intros (w & [] & _).
    - intros [H _]. lia. }
  assert (Hlater := fun x => chain_after at_ _ start x Hc). cbn [chain] in Hc. destruct Hc as [Hb Hc].
  destruct (at_ (br_start b) <? close) eqn:Hin; cbn [negb].
  - replace (start <? at_ (br_start b)) with true by lia. cbn [app]. specialize (IH _ Hc). split.
    + intros (w & [<-|Hw] & H); cbn in H.
      * split; [lia|]. intros x [<-|Hx]; [lia|]. assert (Hx' := chain_after at_ _ _ x Hc Hx). lia.
      * destruct (proj1 IH (ex_intro _ w (conj Hw H))) as [H1 H2]. split; [lia|]. intros x [<-|Hx]; [lia | by apply H2].
    + intros [H1 H2]. destruct (Z.lt_ge_cases t (at_ (br_start b))) as [Hlt|Hge]; [eexists; split; [by left | cbn; lia]|].
      assert (Hn := H2 b ltac:(by left)). destruct (proj2 IH) as (w & Hw & H); [split; [lia | intros x Hx; apply H2; by right]|].
      exists w. split; [by right | done].
  - assert (Hout : t < close -> forall x, In x (b :: breaks) -> ~ (at_ (br_start x) <= t < at_ (br_end x))).
    { intros Ht x [<-|Hx]; [lia|]. assert (Hx' := chain_after at_ _ _ x Hc Hx). lia. }
    destruct (start <? close) eqn:Hlt; split.
    + intros (w & [<-|[]] & H). cbn in H. split; [lia | apply Hout; lia].
    + intros [H _]. eexists. split; [by left | cbn; lia].
    + by intros (w & [] & _).
    + intros [H _]. lia.
Qed.

Lemma splitWindows_sorted at_ breaks start close :
  chain at_ start breaks ->
  StronglySorted (fun w w' => wn_Close w <= wn_Open w') (splitWindows at_ breaks start close).
Proof.
  revert start. induction breaks as [|b breaks IH]; intros start; cbn [splitWindows chain].
  - intros _. destruct (Before start close); repeat constructor.
  - intros [Hb Hc]. destruct (negb _); [destruct (Before start close); repeat constructor|].
    unfold Before at 1. replace (start <? at_ (br_start b)) with true by lia. cbn [app]. constructor; [by apply IH|].
    apply List.Forall_forall. intros w Hw. apply splitWindows_bounds in Hw; [|done]. cbn. lia.
Qed.

Lemma splitWindows_head at_ breaks start close :
  chain at_ start breaks -> start < close ->
  exists c rest, splitWindows at_ breaks start close = mkWindow start c :: rest.
Proof.
  intros Hc Hs. destruct breaks as [|b breaks]; cbn [splitWindows chain] in *; unfold Before.
  - replace (start <? close) with true by lia. eauto.
  - destruct (negb _); [replace (start <? close) with true by lia; eauto|].
    replace (start <? at_ (br_start b)) with true by lia. cbn [app]. eauto.
Qed.

Section Facts.
Context (spec : calendarSpec) (loc : location) (anchors : list Z).
Context (Hok : specOk spec anchors = true) (Hzone : ZoneLaws spec loc).

Abbreviation first := (firstDay spec).
Abbreviation last := (lastDay spec).
Abbreviation midnight n := (Date loc n 0).

Lemma spec_range : 1000 < first <= last /\ last < 3652000.
Proof. unfold specOk in Hok. bool_hyps. lia. Qed.

Lemma spec_hours : 7200 <= secondsOfDay (sp_open spec) /\
  forall c, In c (closes spec) -> secondsOfDay (sp_open spec) < c <= 79200.
Proof.
  unfold specOk in Hok. bool_hyps. split; [done|]. intros c Hc.
  match goal with H : forallb _ _ = true |- _ => rewrite forallb_forall in H; specialize (H c Hc) end. bool_hyps. lia.
Qed.

Lemma mapGet_In {A} k (l : list (string * A)) v : mapGet k l = Some v -> In (k, v) l.
Proof.
  induction l as [|[k' v'] l IH]; [done|]. cbn. destruct (k' =s k) eqn:E; bool_hyps.
  - intros [= ->]. subst. by left.
  - intros H. right. auto.
Qed.

Lemma closeOn_In n : In (secondsOfDay (closeOn spec n)) (closes spec).
Proof.
  unfold closeOn, closes. destruct (mapGet _ _) as [o|] eqn:E; [right | by left].
  apply mapGet_In in E. apply in_map_iff. by exists (FormatDate n, o).
Qed.

(** Instants of one covered day are its base plus the seconds of the hour. *)
Definition dayBase (n : Z) : Z := n * daySeconds - offsetAt loc (Date loc n (secondsOfDay (sp_open spec))).

Lemma Date_whole n h : Date loc n h mod Second = 0.
Proof. unfold Date. apply Z_mod_mult. Qed.

Lemma hour_instant n h :
  first <= n <= last -> In h (hours spec) -> Date loc n h = (dayBase n + h) * Second.
Proof.
  intros Hn Hh. destruct (zl_hours _ _ Hzone n h Hn Hh) as [Hw Ho]. unfold wallClock, secondsOf in Hw.
  rewrite Ho in Hw. fold (dayBase n). assert (Hm := Date_whole n h). unfold dayBase.
  rewrite (Z.div_mod (Date loc n h) Second) by done. rewrite Hm. lia.
Qed.

Lemma midnight_day n : first <= n <= last + 1 -> localDay loc (midnight n) = n.
Proof. intros Hn. unfold localDay. rewrite (zl_midnight _ _ Hzone n Hn). apply Z.div_mul. done. Qed.

Lemma midnight_add n i : first <= n <= last + 1 -> AddDays loc (midnight n) i = midnight (n + i).
Proof.
  intros Hn. unfold AddDays. rewrite (midnight_day n Hn), (zl_midnight _ _ Hzone n Hn), Date_whole.
  rewrite Z.mod_mul by done. lia.
Qed.

Lemma midnight_date n : first <= n <= last + 1 -> localDate loc (midnight n) = midnight n.
Proof. intros Hn. unfold localDate. by rewrite midnight_day. Qed.

(** The coverage test on date strings is the test on day numbers. *)
Lemma year_small n : 0 <= n < 3652058 -> yearOf n <= 9999.
Proof.
  intros Hn. assert (H := year_bounds n ltac:(lia)). unfold daysBeforeYear in H. cbv zeta in H. zdiv.
Qed.

Lemma string_lt_date a b : 0 <= a < 3652058 -> 0 <= b < 3652058 -> string_lt (FormatDate a) (FormatDate b) = (a <? b).
Proof.
  intros Ha Hb. unfold string_lt, String.ltb. rewrite date_text_compare; try apply year_small; try lia.
  unfold Z.ltb. done.
Qed.

Lemma covered_iff n : 0 <= n < 3652058 ->
  string_lt (FormatDate n) (sp_coverageStart spec) || string_lt (sp_coverageEnd spec) (FormatDate n) =
  negb ((first <=? n) && (n <=? last)).
Proof.
  intros Hn. assert (Hr := spec_range). unfold specOk in Hok. bool_hyps.
  repeat match goal with H : sp_coverageStart _ = _ |- _ => rewrite H at 1; clear H
                       | H : sp_coverageEnd _ = _ |- _ => rewrite H at 1; clear H end.
  rewrite !string_lt_date by lia. lia.
Qed.

Lemma hours_open : In (secondsOfDay (sp_open spec)) (hours spec).
Proof. by left. Qed.

Lemma hours_close c : In c (closes spec) -> In c (hours spec).
Proof. intros H. right. apply in_or_app. by left. Qed.

Lemma break_chain n : first <= n <= last -> forall breaks after,
  (forall b, In b breaks -> In (secondsOfDay (br_start b)) (hours spec) /\ In (secondsOfDay (br_end b)) (hours spec)) ->
  breaksOk after breaks = true ->
  chain (fun v => Date loc n (secondsOfDay v)) ((dayBase n + after) * Second) breaks.
Proof.
  intros Hn. induction breaks as [|b breaks IH]; intros after Hin Hb; cbn [breaksOk chain] in *; [done|]. bool_hyps.
  destruct (Hin b ltac:(by left)) as [Hs He]. rewrite (hour_instant n _ Hn Hs), (hour_instant n _ Hn He).
  unfold Second. split; [lia|]. apply IH; [intros b' Hb'; apply Hin; by right | done].
Qed.

Lemma day_chain n : first <= n <= last ->
  chain (fun v => Date loc n (secondsOfDay v)) (Date loc n (secondsOfDay (sp_open spec))) (sp_breaks spec).
Proof.
  intros Hn. rewrite (hour_instant n _ Hn hours_open). apply break_chain; [done| |].
  - intros b Hb. unfold hours. split; right; apply in_or_app; right; apply in_flat_map; exists b; cbn; auto.
  - unfold specOk in Hok. by bool_hyps.
Qed.

Lemma window_bounds n w : first <= n <= last -> In w (windowsOn spec loc n) ->
  (dayBase n + 7200) * Second <= wn_Open w /\ wn_Open w < wn_Close w /\ wn_Close w <= (dayBase n + 79200) * Second.
Proof.
  intros Hn Hw. apply splitWindows_bounds in Hw; [|by apply day_chain]. destruct spec_hours as [Ho Hc].
  specialize (Hc _ (closeOn_In n)). assert (H1 := hour_instant n _ Hn hours_open).
  assert (H2 := hour_instant n _ Hn (hours_close _ (closeOn_In n))). unfold Second in *. lia.
Qed.

Lemma windows_sorted n : first <= n <= last ->
  StronglySorted (fun w w' => wn_Close w <= wn_Open w') (windowsOn spec loc n).
Proof. intros Hn. by apply splitWindows_sorted, day_chain. Qed.

Lemma windows_instants n t : first <= n <= last ->
  (exists w, In w (windowsOn spec loc n) /\ wn_Open w <= t < wn_Close w) <->
  Date loc n (secondsOfDay (sp_open spec)) <= t < Date loc n (secondsOfDay (closeOn spec n)) /\
  forall b, In b (sp_breaks spec) -> ~ (Date loc n (secondsOfDay (br_start b)) <= t < Date loc n (secondsOfDay (br_end b))).
Proof. intros Hn. by apply splitWindows_instants, day_chain. Qed.

Lemma windows_head n : first <= n <= last ->
  exists c rest, windowsOn spec loc n = mkWindow (Date loc n (secondsOfDay (sp_open spec))) c :: rest.
Proof.
  intros Hn. apply splitWindows_head; [by apply day_chain|]. destruct spec_hours as [_ Hc]. specialize (Hc _ (closeOn_In n)).
  rewrite (hour_instant n _ Hn hours_open), (hour_instant n _ Hn (hours_close _ (closeOn_In n))). unfold Second. lia.
Qed.

Lemma trades_covered n : tradesOn spec n = true -> first <= n <= last.
Proof. unfold tradesOn. intros H. bool_hyps. lia. Qed.

(** An instant of a covered date lies between the windows of the days before
    and after. *)
Lemma offsets_near t n : first <= localDay loc t <= last + 1 -> first <= n <= last ->
  Z.abs (offsetAt loc t - offsetAt loc (Date loc n (secondsOfDay (sp_open spec)))) <= 7200.
Proof.
  intros Ht Hn. destruct (zl_hours _ _ Hzone n _ Hn hours_open) as [Hw _]. destruct spec_hours as [Ho Hc].
  specialize (Hc _ (closeOn_In n)). unfold localDay, wallClock, offsetAt, daySeconds in *.
  set (d := Date loc n _) in *. assert (Hb := zl_bound _ _ Hzone (secondsOf t)). assert (Hb' := zl_bound _ _ Hzone (secondsOf d)).
  assert (Hsw := fun H H' => zl_swing _ _ Hzone (secondsOf t) (secondsOf d) H H').
  assert (Hsw' := fun H H' => zl_swing _ _ Hzone (secondsOf d) (secondsOf t) H H'). unfold daySeconds in *.
  specialize (Hsw ltac:(zdiv) ltac:(zdiv)). specialize (Hsw' ltac:(zdiv) ltac:(zdiv)). lia.
Qed.

Lemma before_later_windows t n w :
  first <= localDay loc t <= last + 1 -> tradesOn spec n = true -> localDay loc t < n -> In w (windowsOn spec loc n) ->
  t < wn_Open w.
Proof.
  intros Ht Hn Hlt Hw. apply trades_covered in Hn. apply window_bounds in Hw; [|done].
  assert (Ho := offsets_near t n Ht Hn). unfold dayBase, localDay, wallClock, secondsOf, daySeconds, Second in *. zdiv.
Qed.

Lemma after_earlier_windows t n w :
  first <= localDay loc t <= last + 1 -> tradesOn spec n = true -> n < localDay loc t -> In w (windowsOn spec loc n) ->
  wn_Close w <= t.
Proof.
  intros Ht Hn Hlt Hw. apply trades_covered in Hn. apply window_bounds in Hw; [|done].
  assert (Ho := offsets_near t n Ht Hn). unfold dayBase, localDay, wallClock, secondsOf, daySeconds, Second in *. zdiv.
Qed.

(** The windows of a day end before those of a later one begin. *)
Lemma windows_ordered n m w w' :
  tradesOn spec n = true -> tradesOn spec m = true -> n < m ->
  In w (windowsOn spec loc n) -> In w' (windowsOn spec loc m) -> wn_Close w <= wn_Open w'.
Proof.
  intros Hn Hm Hlt Hw Hw'. apply trades_covered in Hn, Hm. apply window_bounds in Hw, Hw'; try done.
  destruct (zl_hours _ _ Hzone n _ Hn hours_open) as [Hwall _]. destruct spec_hours as [Ho Hc].
  specialize (Hc _ (closeOn_In n)). set (d := Date loc n _) in *.
  assert (Hd : localDay loc d = n) by (unfold localDay; rewrite Hwall; unfold daySeconds; zdiv).
  assert (Hnear := offsets_near d m ltac:(lia) Hm). unfold dayBase, daySeconds, Second in *. fold d in Hw. lia.
Qed.

(** *** The search *)

(** What sessionForDate answers without an instant: whether a day trades, and
    its windows; the day after the coverage is unknown. *)
Definition plainSession (n : Z) (s : Session) : Prop :=
  if tradesOn spec n
  then (ss_State s = StateRegular \/ ss_State s = StateEarlyClose) /\
       ss_Open s = Date loc n (secondsOfDay (sp_open spec)) /\ ss_Windows s = windowsOn spec loc n
  else if n =? last + 1 then ss_State s = StateUnknown /\ ss_Open s = 0
  else ss_State s = StateClosed \/ ss_State s = StateHoliday.

(** What nextTradable finds after day [n]. *)
Definition nextSession (n : Z) (s : Session) : Prop :=
  (exists m, n < m /\ tradesOn spec m = true /\ (forall k, n < k < m -> tradesOn spec k = false) /\
     ss_Open s = Date loc m (secondsOfDay (sp_open spec)) /\ ss_Windows s = windowsOn spec loc m) \/
  ((forall k, n < k -> tradesOn spec k = false) /\ ss_Open s = 0).

Lemma anchored_gap from as_ n : anchored spec from as_ = true -> from <= n -> n + maxDays + 1 <= last ->
  exists m, n < m <= n + maxDays + 1 /\ tradesOn spec m = true.
Proof.
  revert from. induction as_ as [|m rest IH]; intros from H Hf Hn; cbn [anchored] in H; bool_hyps; [lia|].
  destruct (decide (n < m)); [exists m; unfold maxDays in *; split; [lia | done]|]. apply (IH m); [done | lia | done].
Qed.

Lemma search_finds session start n :
  first <= n <= last ->
  (forall k, n < k <= last + 1 -> exists s, session (midnight k) = Ok s /\ plainSession k s) ->
  exists s, nextTradableLoop spec loc session (midnight (n + 1)) start (seqZ 0 (maxDays + 1)) = Ok s /\ nextSession n s.
Proof.
  intros Hn Hsess.
  assert (Hgen : forall len i, 0 <= i -> i + Z.of_nat len = maxDays + 1 ->
    (forall k, n < k < n + 1 + i -> tradesOn spec k = false) -> n + i <= last ->
    exists s, nextTradableLoop spec loc session (midnight (n + 1)) start (seqZ i (Z.of_nat len)) = Ok s /\ nextSession n s).
  { induction len as [|len IH]; intros i Hi Hlen Hno Hlast.
    - exfalso. unfold specOk in Hok. bool_hyps.
      match goal with H : anchored _ _ _ = true |- _ => destruct (anchored_gap _ _ n H) as (m & Hm & Htr); [lia.. |] end.
      rewrite Hno in Htr; [done | lia].
    - rewrite seqZ_cons by lia. cbn [nextTradableLoop]. rewrite midnight_add by lia.
      destruct (Hsess (n + 1 + i) ltac:(lia)) as (s & -> & Hs). cbn [rbind]. unfold plainSession in Hs.
      destruct (tradesOn spec (n + 1 + i)) eqn:Htr; [|destruct (n + 1 + i =? last + 1) eqn:El; bool_hyps].
      + destruct Hs as (Hst & Ho & Hw). exists s. split; [by destruct Hst as [-> | ->]|]. left. exists (n + 1 + i).
        split_and!; [lia | done | done | done | done].
      + destruct Hs as [-> Ho]. exists s. split; [done|]. right. split; [|done]. intros k Hk.
        destruct (decide (k < n + 1 + i)) as [Hlt|Hge]; [by apply Hno|]. unfold tradesOn.
        replace (k <=? last) with false by lia. by rewrite andb_false_r.
      + replace (Z.pred (Z.of_nat (S len))) with (Z.of_nat len) by lia. replace (Z.succ i) with (i + 1) by lia.
        destruct (IH (i + 1)) as (s' & Heq & Hs'); [lia | lia | | lia |].
        { intros k Hk. destruct (decide (k = n + 1 + i)) as [->|]; [done | apply Hno; lia]. }
        exists s'. split; [by destruct Hs as [-> | ->] | done]. }
  apply (Hgen 401%nat 0); [done | done | lia | lia].
Qed.

(** The first window after day [n], as a session names it. *)
Definition nextFields (n : Z) (nextOpen nextClose : option time) : Prop :=
  (exists m w rest, n < m /\ tradesOn spec m = true /\ (forall k, n < k < m -> tradesOn spec k = false) /\
     windowsOn spec loc m = w :: rest /\ nextOpen = Some (wn_Open w) /\ nextClose = Some (wn_Close w)) \/
  ((forall k, n < k -> tradesOn spec k = false) /\ nextOpen = None /\ nextClose = None).

Lemma open_positive m : first <= m <= last -> 0 < Date loc m (secondsOfDay (sp_open spec)).
Proof.
  intros Hm. rewrite (hour_instant m _ Hm hours_open). destruct spec_hours as [Ho _]. assert (Hr := spec_range).
  assert (Hb := zl_bound _ _ Hzone (secondsOf (Date loc m (secondsOfDay (sp_open spec))))).
  unfold dayBase, offsetAt, daySeconds, Second. lia.
Qed.

Lemma attach_next n next s :
  nextSession n next -> ss_NextOpen s = None -> ss_NextClose s = None ->
  exists o c, attachNext (Ok next) s = Ok (s <| ss_NextOpen := o |> <| ss_NextClose := c |>) /\ nextFields n o c.
Proof.
  intros Hn Ho Hc. unfold attachNext, nextFields. cbn [rbind].
  destruct Hn as [(m & Hlt & Htr & Hno & HO & HW)|[Hno HO]]; rewrite HO.
  - assert (Hm := trades_covered m Htr). unfold IsZero. replace (_ =? 0) with false by (assert (Hp := open_positive m Hm); lia).
    destruct (windows_head m Hm) as (c & rest & Hw). rewrite HW, Hw. do 2 eexists. split; [reflexivity|]. left.
    exists m. do 2 eexists. split_and!; done.
  - exists None, None. split; [|by right]. destruct s; cbn in *. by subst.
Qed.

(** What a session says of an instant of its date. *)
Definition instantSession (n : Z) (at_ : time) (s : Session) : Prop :=
  let ws := if tradesOn spec n then windowsOn spec loc n else [] in
  ss_State s <> StateUnknown /\ ss_IsOpen s = existsb (inWindow at_) ws /\
  ss_Close s = (if tradesOn spec n then Date loc n (secondsOfDay (closeOn spec n)) else 0) /\
  (ss_IsOpen s = false ->
   match windowAfter at_ ws with
   | Some w => ss_NextOpen s = Some (wn_Open w) /\ ss_NextClose s = Some (wn_Close w)
   | None => nextFields n (ss_NextOpen s) (ss_NextClose s)
   end).

Lemma trading_base n next at_ closeHM s :
  first <= n <= last + 1 -> nextSession n next -> ss_NextOpen s = None -> ss_NextClose s = None ->
  let at_n := fun v => Date loc n (secondsOfDay v) in
  let ws := splitWindows at_n (sp_breaks spec) (at_n (sp_open spec)) (at_n closeHM) in
  exists s', tradingSession spec loc (attachNext (Ok next)) (midnight n) at_ closeHM s = Ok s' /\
    ss_State s' = ss_State s /\ ss_Open s' = at_n (sp_open spec) /\ ss_Close s' = at_n closeHM /\ ss_Windows s' = ws /\
    (at_ <> 0 -> ss_IsOpen s' = existsb (inWindow at_) ws /\
       (ss_IsOpen s' = false ->
        match windowAfter at_ ws with
        | Some w => ss_NextOpen s' = Some (wn_Open w) /\ ss_NextClose s' = Some (wn_Close w)
        | None => nextFields n (ss_NextOpen s') (ss_NextClose s')
        end)).
Proof.
  intros Hn Hspec Ho Hc at_n ws. unfold tradingSession.
  assert (Hat : atLocal loc (midnight n) = at_n) by (unfold atLocal; by rewrite midnight_day).
  rewrite Hat. fold ws. unfold IsZero. destruct (at_ =? 0) eqn:Ez; bool_hyps; cbn [negb andb].
  { eexists. split; [reflexivity|]. cbn. split_and!; done. }
  destruct (existsb (inWindow at_) ws) eqn:Ei; cbn [negb andb]; [eexists; split; [reflexivity|]; cbn; split_and!; done|].
  destruct (windowAfter at_ ws) as [w|] eqn:Ew; [eexists; split; [reflexivity|]; cbn; split_and!; done|].
  match goal with |- exists s', attachNext _ ?x = Ok s' /\ _ =>
    destruct (attach_next n next x Hspec Ho Hc) as (o & c & Heq & Hf) end.
  eexists. split; [exact Heq|]. cbn. split_and!; done.
Qed.

Lemma session_base next n at_ :
  first <= n <= last + 1 ->
  (n <= last -> exists s, next (midnight (n + 1)) = Ok s /\ nextSession n s) ->
  exists s, sessionForDateWith spec loc next (midnight n) at_ = Ok s /\ plainSession n s /\
    (n <= last -> at_ <> 0 -> instantSession n at_ s).
Proof.
  intros Hn Hnext. assert (Hr := spec_range). unfold sessionForDateWith. rewrite midnight_day, covered_iff by lia.
  rewrite midnight_add by lia. destruct (decide (n = last + 1)) as [->|Hne].
  { replace (last + 1 <=? last) with false by lia. rewrite andb_false_r. cbn [negb]. eexists. split; [reflexivity|].
    split; [|lia]. unfold plainSession, tradesOn. replace (last + 1 <=? last) with false by lia.
    rewrite andb_false_r. cbn. by rewrite Z.eqb_refl. }
  replace ((first <=? n) && (n <=? last)) with true by lia. cbn [negb].
  destruct (Hnext ltac:(lia)) as (s' & Hs' & Hspec). rewrite Hs'. clear Hnext Hs'.
  assert (Hclosed : forall st reason, (st = StateClosed \/ st = StateHoliday) -> tradesOn spec n = false ->
    exists s, attachNext (Ok s') ((blankSession spec (FormatDate n)) <| ss_State := st |> <| ss_Reason := reason |>) = Ok s /\
      plainSession n s /\ (n <= last -> at_ <> 0 -> instantSession n at_ s)).
  { intros st reason Hst Htr. destruct (attach_next n s' ((blankSession spec (FormatDate n)) <| ss_State := st |>
      <| ss_Reason := reason |>) Hspec ltac:(done) ltac:(done)) as (o & c & Heq & Hf). eexists. split; [exact Heq|].
    unfold plainSession, instantSession. rewrite Htr. replace (n =? last + 1) with false by lia. cbn.
    split; [done|]. intros _ _. split_and!; [by destruct Hst as [-> | ->] | done | done | done]. }
  assert (Hcov : (first <=? n) && (n <=? last) = true) by lia.
  destruct (_ || _) eqn:Hwk; [apply Hclosed; [by left|]; unfold tradesOn; by rewrite Hcov, Hwk|].
  destruct (mapGet (FormatDate n) (sp_holidays spec)) as [reason|] eqn:Hh;
    [apply Hclosed; [by right|]; unfold tradesOn; by rewrite Hcov, Hwk, Hh|].
  assert (Htr : tradesOn spec n = true) by (unfold tradesOn; by rewrite Hcov, Hwk, Hh).
  unfold plainSession, instantSession. rewrite Htr. unfold windowsOn, closeOn.
  destruct (mapGet (FormatDate n) (sp_earlyCloses spec)) as [o|];
    match goal with |- exists s, tradingSession _ _ _ _ _ ?c ?s0 = Ok s /\ _ =>
      destruct (trading_base n s' at_ c s0 Hn Hspec ltac:(done) ltac:(done)) as (s & Heq & Hst & HO & HC & HW & Hat) end;
    exists s; (split; [exact Heq|]); rewrite Hst; (split; [cbn; auto|]); intros _ Ha; destruct (Hat Ha); split_and!; done.
Qed.

Lemma next_of_sessions fuel n :
  first <= n <= last ->
  (forall k, n < k <= last + 1 -> exists s, sessionForDate spec loc fuel (midnight k) 0 = Ok s /\ plainSession k s) ->
  exists s, nextTradableLoop spec loc (fun d => sessionForDate spec loc fuel d 0) (localDate loc (midnight (n + 1)))
              (midnight (n + 1)) (seqZ 0 (maxDays + 1)) = Ok s /\ nextSession n s.
Proof. intros Hn H. rewrite midnight_date by lia. by apply search_finds. Qed.

Lemma session_plain fuel n :
  first <= n <= last + 1 -> last + 1 - n < Z.of_nat fuel ->
  exists s, sessionForDate spec loc fuel (midnight n) 0 = Ok s /\ plainSession n s.
Proof.
  revert n. induction fuel as [|fuel IH]; intros n Hn Hf; [lia|]. cbn [sessionForDate].
  edestruct session_base as (s & Heq & Hs & _); [exact Hn | | exists s; split; [exact Heq | done]].
  intros Hl. apply next_of_sessions; [lia|]. intros k Hk. apply IH; lia.
Qed.

Lemma coverage_parses : ParseDate (sp_coverageStart spec) = Some first /\ ParseDate (sp_coverageEnd spec) = Some last.
Proof.
  assert (Hr := spec_range). unfold firstDay, lastDay in *. destruct (ParseDate (sp_coverageStart spec)); cbn in *; [|lia].
  destruct (ParseDate (sp_coverageEnd spec)); cbn in *; [done | lia].
Qed.

(** Every instant of the coverage is answered, by the session of its date. *)
Lemma session_answers at_ : at_ <> 0 -> first <= localDay loc at_ <= last ->
  exists s, sessionAt spec loc at_ = Ok s /\ instantSession (localDay loc at_) at_ s.
Proof.
  intros Ha Hc. unfold sessionAt, localDate, calendarFuel. destruct coverage_parses as [-> ->]. assert (Hr := spec_range).
  replace (Z.to_nat (last - first + 3)) with (S (Z.to_nat (last - first + 2))) by lia. cbn [sessionForDate].
  edestruct session_base as (s & Heq & _ & Hs); [| |exists s; split; [exact Heq | apply Hs; [lia | done]]]; [lia|].
  intros _. apply next_of_sessions; [lia|]. intros k Hk. apply session_plain; lia.
Qed.

(** *** Where the next window is *)

Lemma open_now n at_ : localDay loc at_ = n -> first <= n <= last ->
  existsb (inWindow at_) (if tradesOn spec n then windowsOn spec loc n else []) = true <-> trading spec loc at_.
Proof.
  intros Hd Hn. split.
  - intros H. apply existsb_exists in H as (w & Hw & Hin). destruct (tradesOn spec n) eqn:Htr; [|done].
    exists n, w. split_and!; [done | done |..]; unfold inWindow, Before in Hin; bool_hyps; lia.
  - intros (m & w & Htr & Hw & Ht). apply existsb_exists. exists w.
    assert (m = n) as ->.
    { destruct (Z.lt_trichotomy m n) as [Hlt|[?|Hlt]]; [|done|].
      - assert (Hx := after_earlier_windows at_ m w ltac:(lia) Htr ltac:(lia) Hw). lia.
      - assert (Hx := before_later_windows at_ m w ltac:(lia) Htr ltac:(lia) Hw). lia. }
    rewrite Htr. split; [done|]. unfold inWindow, Before. apply andb_true_iff. split; lia.
Qed.

(** In a sorted list, the window found is the first that begins after [at_]. *)
Lemma window_after_first at_ ws w w' :
  StronglySorted (fun a b => wn_Close a <= wn_Open b) ws -> (forall a, In a ws -> wn_Open a < wn_Close a) ->
  windowAfter at_ ws = Some w -> In w' ws -> at_ < wn_Open w' -> wn_Open w <= wn_Open w'.
Proof.
  intros Hs Hpos Hf Hin Hlt. induction Hs as [|a ws Hs IH Hall]; [done|]. unfold windowAfter in Hf. cbn in Hf.
  rewrite List.Forall_forall in Hall. destruct (Before at_ (wn_Open a)) eqn:E.
  - injection Hf as ->. destruct Hin as [->|Hin]; [lia|]. specialize (Hall _ Hin). specialize (Hpos w ltac:(by left)). lia.
  - destruct Hin as [->|Hin]; [unfold Before in E; lia|]. apply IH; [|done|done]. intros b Hb. apply Hpos. by right.
Qed.

Lemma window_after_ok at_ ws w : windowAfter at_ ws = Some w -> In w ws /\ at_ < wn_Open w.
Proof. intros H. apply find_some in H as [H1 H2]. unfold Before in H2. split; [done | lia]. Qed.

(** An instant from [at_] on that trades, on the date of [at_] while the market
    is closed at [at_]: a window of the date begins after [at_]. *)
Lemma trading_later_today n at_ t w :
  existsb (inWindow at_) (windowsOn spec loc n) = false -> In w (windowsOn spec loc n) ->
  at_ <= t < wn_Close w -> at_ < wn_Open w.
Proof.
  intros Hno Hw Ht. destruct (decide (at_ < wn_Open w)) as [|Hge]; [done|]. exfalso.
  assert (Hx : existsb (inWindow at_) (windowsOn spec loc n) = true); [|congruence].
  apply existsb_exists. exists w. split; [done|]. unfold inWindow, Before. apply andb_true_iff. split; lia.
Qed.

Lemma next_window_is_next at_ n s :
  localDay loc at_ = n -> first <= n <= last -> instantSession n at_ s -> ss_IsOpen s = false ->
  match ss_NextOpen s, ss_NextClose s with
  | Some o, Some c =>
      at_ < o /\ (exists m, tradesOn spec m = true /\ In (mkWindow o c) (windowsOn spec loc m)) /\
      forall t, at_ <= t < o -> ~ trading spec loc t
  | None, None => forall t, at_ <= t -> ~ trading spec loc t
  | _, _ => False
  end.
Proof.
  intros Hd Hn (_ & Hopen & _ & Hnext) Hclosed. specialize (Hnext Hclosed). rewrite Hclosed in Hopen.
  set (ws := if tradesOn spec n then _ else _) in *.
  assert (Htoday : forall t m w, at_ <= t -> tradesOn spec m = true -> In w (windowsOn spec loc m) ->
    wn_Open w <= t < wn_Close w -> (m = n /\ In w ws /\ at_ < wn_Open w) \/ n < m).
  { intros t m w Ht Htr Hw Hin. destruct (Z.lt_trichotomy m n) as [Hlt|[->|Hlt]]; [|left|by right].
    - assert (Hx := after_earlier_windows at_ m w ltac:(lia) Htr ltac:(lia) Hw). lia.
    - unfold ws in *. rewrite Htr in *. split_and!; [done | done |]. apply (trading_later_today n at_ t w); [done | done | lia]. }
  destruct (windowAfter at_ ws) as [w|] eqn:Ew.
  - destruct Hnext as [-> ->]. apply window_after_ok in Ew as Hw. destruct Hw as [Hw Hlt].
    assert (Htr : tradesOn spec n = true) by (unfold ws in Hw; by destruct (tradesOn spec n)).
    split; [done|]. split; [exists n; split; [done|]; unfold ws in Hw; rewrite Htr in Hw; by destruct w|].
    intros t Ht (m & w' & Htm & Hw' & Hin). destruct (Htoday t m w' ltac:(lia) Htm Hw' Hin) as [(-> & Hw'' & Ha)|Hnm].
    + assert (Hx : wn_Open w <= wn_Open w'); [|lia]. apply (window_after_first at_ ws); try done; unfold ws; rewrite Htr.
      * by apply windows_sorted.
      * intros a Hina. apply (window_bounds n a Hn Hina).
    + assert (Hx := windows_ordered n m w w' Htr Htm Hnm ltac:(unfold ws in Hw; by rewrite Htr in Hw) Hw').
      assert (Hb := window_bounds n w Hn ltac:(unfold ws in Hw; by rewrite Htr in Hw)). lia.
  - assert (Hnone : forall t m w', at_ <= t -> tradesOn spec m = true -> In w' (windowsOn spec loc m) ->
      wn_Open w' <= t < wn_Close w' -> n < m).
    { intros t m w' Ht Htm Hw' Hin. destruct (Htoday t m w' Ht Htm Hw' Hin) as [(-> & Hw'' & Ha)|]; [|done]. exfalso.
      unfold windowAfter in Ew. apply (find_none _ _ Ew) in Hw''. unfold Before in Hw''. lia. }
    destruct Hnext as [(m & w & rest & Hlt & Htr & Hno & Hws & -> & ->)|(Hno & -> & ->)].
    + assert (Hw : In w (windowsOn spec loc m)) by (rewrite Hws; by left).
      split; [by apply (before_later_windows at_ m w); [lia | done | lia | done]|].
      split; [exists m; split; [done|]; by destruct w|].
      intros t Ht (m' & w' & Htm & Hw' & Hin). specialize (Hnone t m' w' ltac:(lia) Htm Hw' Hin).
      destruct (Z.lt_trichotomy m' m) as [Hl|[->|Hl]].
      * rewrite Hno in Htm; [done | lia].
      * assert (Hs := windows_sorted m (trades_covered m Htr)). rewrite Hws in Hs, Hw'. apply StronglySorted_inv in Hs as [_ Hall].
        destruct Hw' as [->|Hw']; [lia|]. rewrite List.Forall_forall in Hall. specialize (Hall w' Hw').
        assert (Hb := window_bounds m w (trades_covered m Htr) Hw). lia.
      * assert (Hx := windows_ordered m m' w w' Htr Htm Hl Hw Hw').
        assert (Hb := window_bounds m w (trades_covered m Htr) Hw). lia.
    + intros t Ht (m' & w' & Htm & Hw' & Hin). specialize (Hnone t m' w' Ht Htm Hw' Hin). by rewrite Hno in Htm.
Qed.
End Facts.

(** ** The exported queries *)

Lemma spec_anchored m spec : mapGet m specs = Some spec -> specOk spec (tableAnchors spec) = true.
Proof.
  intros H. apply mapGet_In in H. assert (Hall := specs_ok). rewrite forallb_forall in Hall. by apply (Hall (m, spec)).
Qed.

Lemma SessionAt_session load clock m spec loc at_ :
  mapGet m specs = Some spec -> load (sp_timezone spec) = Some loc -> ZoneLaws spec loc -> at_ <> 0 ->
  firstDay spec <= localDay loc at_ <= lastDay spec ->
  exists s, SessionAt load clock m at_ = Ok s /\ instantSession spec loc (localDay loc at_) at_ s.
Proof.
  intros Hm Hl Hz Ha Hd. assert (Hok := spec_anchored m spec Hm).
  destruct (session_answers spec loc _ Hok Hz at_ Ha Hd) as (s & Hs & Hi). exists s. split; [|done].
  unfold SessionAt, calendarQuery. cbn [q_Market q_At q_Date q_Days]. rewrite Hm, Hl. unfold queryTime, IsZero.
  cbn [q_At]. replace (at_ =? 0) with false by lia. cbn [negb rbind].
  cbv zeta. change (1 <=? 0) with false. cbv iota. change (maxDays <? 1) with false. cbv iota. rewrite Hs. cbn [lift rbind].
  change (seqZ 0 1) with [0]. cbn [mapR]. unfold localDate. cbv beta zeta.
  rewrite (midnight_add spec loc Hz) by lia.
  rewrite Z.add_0_r. by rewrite Z.eqb_refl.
Qed.

Lemma trading_instants spec loc anchors t : specOk spec anchors = true -> ZoneLaws spec loc -> trading spec loc t <-> tradesAt spec loc t.
Proof.
  intros Hok Hz. split.
  - intros (n & w & Htr & Hw). exists n. split; [done|]. apply (windows_instants spec loc anchors Hok Hz n t (trades_covered spec n Htr)). eauto.
  - intros (n & Htr & Hn). apply (windows_instants spec loc anchors Hok Hz n t (trades_covered spec n Htr)) in Hn as (w & Hw). by exists n, w.
Qed.

(** C39. The calendar names the next trading window.  For every market of the
    tables, a zone that keeps [ZoneLaws], and every instant whose local date is
    covered, SessionAt answers; it says "open" exactly when the instant lies in
    a trading window of the calendar, and those windows hold exactly the instants
    of a covered weekday that is no holiday, between its open and its close or
    early close, in none of the breaks; when the
    market is closed it names a window of the calendar that begins after the
    instant, and no instant before it trades; and it names none exactly when
    nothing trades any more in the coverage. *)
Theorem session_names_the_next_window load clock m spec loc at_ :
  mapGet m specs = Some spec -> load (sp_timezone spec) = Some loc -> ZoneLaws spec loc -> at_ <> 0 ->
  firstDay spec <= localDay loc at_ <= lastDay spec ->
  exists s, SessionAt load clock m at_ = Ok s /\ ss_State s <> StateUnknown /\
    (ss_IsOpen s = true <-> trading spec loc at_) /\ (forall t, trading spec loc t <-> tradesAt spec loc t) /\
    (ss_IsOpen s = false ->
     match ss_NextOpen s, ss_NextClose s with
     | Some o, Some c =>
         at_ < o /\ (exists n, tradesOn spec n = true /\ In (mkWindow o c) (windowsOn spec loc n)) /\
         forall t, at_ <= t < o -> ~ trading spec loc t
     | None, None => forall t, at_ <= t -> ~ trading spec loc t
     | _, _ => False
     end).
Proof.
  intros Hm Hl Hz Ha Hd. assert (Hok := spec_anchored m spec Hm).
  destruct (SessionAt_session load clock m spec loc at_ Hm Hl Hz Ha Hd) as (s & Hs & Hi). exists s.
  split_and!; [done | apply Hi | | intros t; by eapply trading_instants | by apply (next_window_is_next _ _ _ Hok Hz at_ _ s eq_refl Hd Hi)].
  destruct Hi as (_ & -> & _). by eapply open_now.
Qed.

(** ** The deadline of a DAY order *)

(** The calendar as the expiry inference uses it. *)
Definition calendarSession (load : string -> option location) (clock : time) (m : string) (at_ : time) : option marketSession :=
  match SessionAt load clock m at_ with
  | Ok s => Some (mkSession (ss_Close s) (ss_NextClose s))
  | Err _ => None
  end.

Definition closeInstant (spec : calendarSpec) (loc : location) (n : Z) : time :=
  Date loc n (secondsOfDay (closeOn spec n)).

Lemma quote_market_spec exchange primary :
  exists spec, mapGet (quoteMarketForStockContract "" exchange primary) specs = Some spec /\ sp_breaks spec = [].
Proof.
  unfold quoteMarketForStockContract. cbv zeta. repeat case_if; eexists; split; reflexivity.
Qed.

Lemma windows_unbroken spec loc anchors n :
  specOk spec anchors = true -> ZoneLaws spec loc -> sp_breaks spec = [] -> tradesOn spec n = true ->
  windowsOn spec loc n = [mkWindow (Date loc n (secondsOfDay (sp_open spec))) (closeInstant spec loc n)].
Proof.
  intros Hok Hz Hb Htr. destruct (windows_head spec loc anchors Hok Hz n (trades_covered spec n Htr)) as (c & rest & Hw).
  unfold windowsOn in *. rewrite Hb in *. cbn [splitWindows] in *. destruct (Before _ _); [reflexivity | done].
Qed.

Section Deadline.
Context (spec : calendarSpec) (loc : location) (anchors : list Z).
Context (Hok : specOk spec anchors = true) (Hzone : ZoneLaws spec loc) (Hbreaks : sp_breaks spec = []).

Lemma close_window n : tradesOn spec n = true -> exists o, o < closeInstant spec loc n /\
  windowsOn spec loc n = [mkWindow o (closeInstant spec loc n)].
Proof.
  intros Htr. assert (Hw := windows_unbroken spec loc anchors n Hok Hzone Hbreaks Htr). eexists. split; [|exact Hw].
  assert (Hb := window_bounds spec loc anchors Hok Hzone n _ (trades_covered spec n Htr) ltac:(rewrite Hw; by left)). cbn in Hb. lia.
Qed.

Lemma closes_increase n m : tradesOn spec n = true -> tradesOn spec m = true -> n < m ->
  closeInstant spec loc n < closeInstant spec loc m.
Proof.
  intros Hn Hm Hlt. destruct (close_window n Hn) as (o & Ho & Hw), (close_window m Hm) as (o' & Ho' & Hw').
  assert (Hx := windows_ordered spec loc anchors Hok Hzone n m _ _ Hn Hm Hlt ltac:(rewrite Hw; by left) ltac:(rewrite Hw'; by left)).
  cbn in Hx. lia.
Qed.

(** The first close after an instant of a covered date. *)
Definition firstCloseAfter (placed : time) (d : option time) : Prop :=
  match d with
  | Some d =>
      placed < d /\ (exists n, tradesOn spec n = true /\ d = closeInstant spec loc n) /\
      forall n, tradesOn spec n = true -> placed < closeInstant spec loc n -> d <= closeInstant spec loc n
  | None => forall n, tradesOn spec n = true -> closeInstant spec loc n <= placed
  end.

Lemma first_close n placed :
  tradesOn spec n = true -> placed < closeInstant spec loc n ->
  (forall k, k < n -> tradesOn spec k = true -> closeInstant spec loc k <= placed) ->
  firstCloseAfter placed (Some (closeInstant spec loc n)).
Proof.
  intros Htr Hlt Hbefore. split_and!; [done | by exists n|]. intros k Hk Hpk.
  destruct (Z.lt_trichotomy k n) as [Hkn|[->|Hkn]]; [specialize (Hbefore k Hkn Hk); lia | lia|].
  assert (Hx := closes_increase n k Htr Hk Hkn). lia.
Qed.

Lemma deadline_of_session n placed s :
  localDay loc placed = n -> firstDay spec <= n <= lastDay spec -> instantSession spec loc n placed s ->
  firstCloseAfter placed
    (if negb (IsZero (ss_Close s)) && Before placed (ss_Close s) then Some (ss_Close s) else ss_NextClose s).
Proof.
  intros Hd Hn (_ & Hopen & Hclose & Hnext).
  assert (Hearly : forall k, k < n -> tradesOn spec k = true -> closeInstant spec loc k <= placed).
  { intros k Hk Htr. destruct (close_window k Htr) as (o & _ & Hw).
    apply (after_earlier_windows spec loc anchors Hok Hzone placed k (mkWindow o (closeInstant spec loc k))); [lia | done | lia|].
    rewrite Hw. by left. }
  assert (Hlate : tradesOn spec n = false \/ closeInstant spec loc n <= placed ->
    windowAfter placed (if tradesOn spec n then windowsOn spec loc n else []) = None /\ ss_IsOpen s = false /\
    forall k, k <= n -> tradesOn spec k = true -> closeInstant spec loc k <= placed).
  { intros Hc. rewrite Hopen. destruct (tradesOn spec n) eqn:Htr.
    - destruct Hc as [Hc|Hc]; [done|]. destruct (close_window n Htr) as (o & Ho & ->). unfold windowAfter, inWindow, Before.
      cbn. replace (placed <? o) with false by lia. replace (placed <? closeInstant spec loc n) with false by lia.
      rewrite andb_false_r. split_and!; [done | done |]. intros k Hk Hkt.
      destruct (decide (k = n)) as [->|]; [done|]. apply Hearly; [lia | done].
    - split_and!; [done | done |]. intros k Hk Hkt. destruct (decide (k = n)) as [->|]; [congruence|]. apply Hearly; [lia | done]. }
  destruct (negb (IsZero (ss_Close s)) && Before placed (ss_Close s)) eqn:E.
  - unfold Before, IsZero in E. bool_hyps. rewrite Hclose in *. destruct (tradesOn spec n) eqn:Htr; [|done].
    by apply first_close.
  - assert (Hc : tradesOn spec n = false \/ closeInstant spec loc n <= placed).
    { destruct (tradesOn spec n) eqn:Htr; [right | by left]. rewrite Hclose in E. fold (closeInstant spec loc n) in E.
      destruct (close_window n Htr) as (o & Ho & Hw). assert (Hpos := open_positive spec loc anchors Hok Hzone n Hn).
      assert (Hw2 := windows_unbroken spec loc anchors n Hok Hzone Hbreaks Htr). rewrite Hw in Hw2. injection Hw2 as ->.
      unfold IsZero, Before in E. apply andb_false_iff in E. destruct E as [E|E]; bool_hyps; lia. }
    destruct (Hlate Hc) as (Hwa & Hcl & Hall). specialize (Hnext Hcl). rewrite Hwa in Hnext.
    destruct Hnext as [(m & w & rest & Hlt & Htr & Hno & Hws & _ & ->)|(Hno & _ & ->)].
    + destruct (close_window m Htr) as (o & Ho & Hw). rewrite Hw in Hws. injection Hws as <- _. cbn.
      assert (Hp := before_later_windows spec loc anchors Hok Hzone placed m _ ltac:(lia) Htr ltac:(lia) ltac:(rewrite Hw; by left)).
      apply first_close; [done | cbn in Hp; lia|]. intros k Hk Hkt. destruct (decide (k <= n)); [by apply Hall|].
      rewrite Hno in Hkt; [done | lia].
    + intros k Hk. destruct (decide (k <= n)); [by apply Hall|]. rewrite Hno in Hk; [done | lia].
Qed.
End Deadline.

(** A DAY order lives to the first close after it was placed.  With the
    calendar of the tables behind it, the deadline the expiry inference uses for
    a stock or ETF order is the close (early closes included) of some trading
    day of the order's market, later than the placement, and no later than any
    other close that follows the placement; it has no deadline exactly when no
    covered session of the market closes after the placement.  The exchange
    always selects one of the calendars of the tables. *)
Theorem day_order_expires_at_the_first_close load clock view placed spec loc :
  mapGet (quoteMarketForStockContract "" (v_Exchange view) (v_PrimaryExch view)) specs = Some spec ->
  load (sp_timezone spec) = Some loc -> ZoneLaws spec loc -> placed <> 0 ->
  firstDay spec <= localDay loc placed <= lastDay spec ->
  firstCloseAfter spec loc placed (dayOrderSessionDeadline (calendarSession load clock) view placed).
Proof.
  intros Hm Hl Hz Hp Hd. destruct (quote_market_spec (v_Exchange view) (v_PrimaryExch view)) as (sp & Hsp & Hb).
  rewrite Hm in Hsp. injection Hsp as <-.
  destruct (SessionAt_session load clock _ spec loc placed Hm Hl Hz Hp Hd) as (s & Hs & Hi).
  unfold dayOrderSessionDeadline, calendarSession. rewrite Hs. cbn [ses_Close ses_NextClose].
  by apply (deadline_of_session spec loc _ (spec_anchored _ spec Hm) Hz Hb _ placed s eq_refl Hd Hi).
Qed.

(** ** A concrete zone

    New York's clock changes during the coverage, as (instant, new offset). *)
Definition changeAt (day hour : Z) : Z := day * daySeconds + hour * 3600.
Definition newYork : location :=
  zoneOf (-18000)
    [(changeAt 739682 7, -14400); (changeAt 739920 6, -18000); (changeAt 740053 7, -14400);
     (changeAt 740291 6, -18000); (changeAt 740417 7, -14400); (changeAt 740655 6, -18000)].

Example newYork_changes :
  map FormatDate [739682; 739920; 740053; 740291; 740417; 740655] =
  ["2026-03-08"; "2026-11-01"; "2027-03-14"; "2027-11-07"; "2028-03-12"; "2028-11-05"].
Proof. vm_compute. reflexivity. Qed.

Lemma spanFrom_offset start o ts final s : In (zs_offset (spanFrom start o ts final s)) (o :: map snd ts).
Proof.
  revert start o. induction ts as [|[a o'] ts IH]; intros start o; cbn; [by left|].
  destruct (s <? a); [by left|]. right. exact (IH a o').
Qed.

Lemma newYork_offset s : zs_offset (newYork s) = -18000 \/ zs_offset (newYork s) = -14400.
Proof.
  unfold newYork, zoneOf. match goal with |- zs_offset ?z = _ \/ _ => assert (H : In (zs_offset z) _) by apply spanFrom_offset end.
  cbn [map snd In] in H. naive_solver.
Qed.

(** The clock laws, day by day and hour by hour. *)
Definition clockKept (spec : calendarSpec) (loc : location) (n : Z) : bool :=
  (wallClock loc (Date loc n 0) =? n * daySeconds) &&
  forallb (fun h => (wallClock loc (Date loc n h) =? n * daySeconds + h) &&
                    (offsetAt loc (Date loc n h) =? offsetAt loc (Date loc n (secondsOfDay (sp_open spec)))))
    (remove_dups (hours spec)).

Lemma clock_laws spec loc :
  forallb (clockKept spec loc) (seqZ (firstDay spec) (lastDay spec - firstDay spec + 2)) = true ->
  (forall s, zs_offset (loc s) = -18000 \/ zs_offset (loc s) = -14400) -> ZoneLaws spec loc.
Proof.
  intros Hall Ho. rewrite forallb_forall in Hall.
  assert (Hday : forall n, firstDay spec <= n <= lastDay spec + 1 -> clockKept spec loc n = true).
  { intros n Hn. apply Hall, list_elem_of_In, elem_of_seqZ. lia. }
  split.
  - intros s. destruct (Ho s); lia.
  - intros s s' _ _. destruct (Ho s), (Ho s'); lia.
  - intros n Hn. apply Hday in Hn. unfold clockKept in Hn. bool_hyps. lia.
  - intros n h Hn Hh. specialize (Hday n ltac:(lia)). unfold clockKept in Hday. bool_hyps.
    match goal with H : forallb _ _ = true |- _ => rewrite forallb_forall in H; specialize (H h) end.
    rewrite <- list_elem_of_In, elem_of_remove_dups, list_elem_of_In in H0. specialize (H0 Hh). bool_hyps. lia.
Qed.

Lemma newYork_laws : ZoneLaws specUSEquity newYork.
Proof. apply clock_laws; [vm_compute; reflexivity | apply newYork_offset]. Qed.

Definition loadNewYork (name : string) : option location := if name =s "America/New_York" then Some newYork else None.

(** Friday 3 July 2026, 15:00 UTC: the observed Independence Day. *)
Definition july3 : time := (739799 * daySeconds + 15 * 3600) * Second.

Example july3_is_a_holiday :
  match SessionAt loadNewYork 0 MarketUSEquity july3 with
  | Ok s => (ss_Date s, ss_State s, ss_IsOpen s, ss_NextOpen s, ss_NextClose s)
  | Err _ => ("", StateUnknown, false, None, None)
  end =
  ("2026-07-03", StateHoliday, false, Some ((739802 * daySeconds + 48600) * Second),
   Some ((739802 * daySeconds + 72000) * Second)).
Proof. vm_compute. reflexivity. Qed.

Lemma session_names_the_next_window_witness :
  exists s o c, SessionAt loadNewYork 0 MarketUSEquity july3 = Ok s /\ ss_NextOpen s = Some o /\ ss_NextClose s = Some c /\
    forall t, july3 <= t < o -> ~ trading specUSEquity newYork t.
Proof.
  destruct (session_names_the_next_window loadNewYork 0 MarketUSEquity specUSEquity newYork july3
    eq_refl eq_refl newYork_laws ltac:(done) ltac:(vm_compute; split; discriminate)) as (s & Hs & _ & _ & _ & Hn).
  assert (Hc : ss_IsOpen s = false /\ present (ss_NextOpen s) = true /\ present (ss_NextClose s) = true).
  { assert (Hj := july3_is_a_holiday). rewrite Hs in Hj. clear Hs Hn. injection Hj as _ _ -> -> ->. split_and!; reflexivity. }
  destruct Hc as (Hc & Ho & Hcl). specialize (Hn Hc). exists s.
  destruct (ss_NextOpen s) as [o|]; [|discriminate Ho]. destruct (ss_NextClose s) as [c|]; [|discriminate Hcl].
  exists o, c. split_and!; [exact Hs | reflexivity | reflexivity | apply Hn].
Defined.

Lemma day_order_expires_at_the_first_close_witness :
  firstCloseAfter specUSEquity newYork july3
    (dayOrderSessionDeadline (calendarSession loadNewYork 0) zero_OrderView july3).
Proof.
  apply day_order_expires_at_the_first_close;
    [reflexivity | reflexivity | apply newYork_laws | done | vm_compute; split; discriminate].
Defined.
