(* ===== verification/CoreStore.v ===== *)
(** * The durable order authority

    The SQLite-backed store of src/internal/daemon/corestore (orders.go,
    store.go, state.go, types.go; table constraints from schema.go): the
    authority head, preview-token tombstones, order-id floors, broker-scope
    bindings, the append-only event log with its order projection, and state
    documents, with the one critical section all mutations go through.

    The database is a value; a transaction is a function from the database to
    an error or a new database, so a failed transaction changes nothing
    (SQLite's rollback).  Environment faults of one mutation are explicit
    ([faults]).  SHA-256, the JSON validity checks and the decoding of a
    retained payload are parameters.  Integers are unbounded; wall-clock
    columns other than a state document's commit time are left out. *)

From stdpp Require Import base decidable list strings gmap.
From Stdlib Require Import ZArith Lia String Ascii.
From S2P Require Import Prelude OrderTypes OrderKeys.

(** ** Errors (types.go) *)

Inductive coreErr : Type :=
| ErrRevisionConflict (expected actual : Z) (exists_ : bool)
| ErrHeadWentBack
| ErrPreviewTokenConsumed
| ErrBrokerScopeCollision
| ErrAuthorityMismatch
| ErrRollback
| ErrBlocked
| ErrOrderIDFloor
| ErrOrderNotModifiable
| ErrFreshAuthorityConflict (label : string)
| ErrRecoveryNotEligible
| ErrIntegrity
| ErrInvalid (msg : string)
| ErrObserver
| ErrDeadline
| ErrSQL (critical : option string).

(** (RevisionConflictError).LostWrite *)
Definition LostWrite (e : coreErr) : bool :=
  match e with ErrRevisionConflict expected actual exists_ => exists_ && (actual <? expected) | _ => false end.

(** criticalSQLiteCode: the permanent failure class of a SQLite result code. *)
Definition criticalSQLiteClass (code : Z) : option string :=
  let c := Z.land code 255 in
  if c =? 5 then Some "busy"
  else if c =? 8 then Some "readonly"
  else if c =? 10 then Some "ioerr"
  else if (c =? 11) || (c =? 26) then Some "corrupt"
  else if c =? 13 then Some "full"
  else None.

Definition criticalSQLiteCode (e : coreErr) : option string :=
  match e with ErrSQL c => c | _ => None end.

Abbreviation cres := (result coreErr).

(** ** Records *)

Record AuthorityHead := mkHead {
  ah_AuthorityEpoch : string; ah_HeadGeneration : Z; ah_LastEventSeq : Z; ah_SignerGeneration : Z
}.
#[global] Instance AuthorityHead_eta : Eta AuthorityHead := fun r => mkHead
  (ah_AuthorityEpoch r) (ah_HeadGeneration r) (ah_LastEventSeq r) (ah_SignerGeneration r).
Definition zero_AuthorityHead : AuthorityHead := mkHead "" 0 0 0.
#[global] Instance AuthorityHead_eq_dec : EqDecision AuthorityHead.
Proof. solve_decision. Defined.

Record BrokerScope := mkBrokerScope {
  bs_ScopeKey : string; bs_Endpoint : string; bs_ClientID : Z; bs_Account : string; bs_Mode : string
}.
#[global] Instance BrokerScope_eq_dec : EqDecision BrokerScope.
Proof. solve_decision. Defined.
Definition zero_BrokerScope : BrokerScope := mkBrokerScope "" "" 0 "" "".

Record OrderEventRecord := mkOrderEventRecord {
  r_EventSeq : Z; r_Scope : BrokerScope; r_EventKey : string; r_AtMS : Z; r_Type : string;
  r_Action : ActionKind; r_Origin : TransmitOrigin; r_OrderRef : string; r_PreviewTokenID : string;
  r_ReservedOrderID : Z; r_PermID : Z; r_Status : string; r_RawJSON : string
}.
#[global] Instance OrderEventRecord_eta : Eta OrderEventRecord := fun r => mkOrderEventRecord
  (r_EventSeq r) (r_Scope r) (r_EventKey r) (r_AtMS r) (r_Type r) (r_Action r) (r_Origin r)
  (r_OrderRef r) (r_PreviewTokenID r) (r_ReservedOrderID r) (r_PermID r) (r_Status r) (r_RawJSON r).

(** A PreviewTokenDigest is 32 bytes; the zero array means "no token". *)
Fixpoint zeros (n : nat) : string := match n with O => "" | S n => String (ascii_of_nat 0) (zeros n) end.
Definition zero_digest : string := zeros 32.
Definition zeroDigest (d : string) : bool := d =s zero_digest.

Record PreTransmitRequest := mkPreTransmit {
  q_Scope : BrokerScope; q_TokenDigest : string; q_AuthorityEpoch : string; q_SignerGeneration : Z;
  q_RequestedOrderIDFloor : Z; q_ReservedOrderID : Z; q_ExpectedOrderEventSeq : option Z;
  q_Action : ActionKind; q_Origin : TransmitOrigin; q_Events : list OrderEventRecord
}.

Record PreTransmitResult := mkPreTransmitResult {
  pr_EffectiveOrderIDFloor : Z; pr_EventSeqs : list Z; pr_Head : AuthorityHead
}.

Record StateDocument := mkStateDocument {
  sd_ScopeKey : string; sd_Kind : string; sd_Revision : Z; sd_JSON : string; sd_UpdatedAt : time
}.

Record StateDocumentCAS := mkStateCAS {
  cas_ExpectedHead : option AuthorityHead; cas_ScopeKey : string; cas_Kind : string;
  cas_ExpectedRevision : Z; cas_JSON : string; cas_UpdatedAtNotBefore : time
}.

Record LifecycleCommit := mkLifecycleCommit {
  lc_Scope : BrokerScope; lc_Events : list OrderEventRecord; lc_State : option StateDocumentCAS
}.

Record LifecycleResult := mkLifecycleResult {
  lr_EventSeqs : list Z; lr_State : option StateDocument; lr_Head : AuthorityHead
}.

(** ** Tables (schema.go) *)

Record logRow := mkLogRow {
  log_seq : Z; log_scope_key : string; log_event_key : string; log_event_type : string;
  log_action_kind : string; log_origin : string; log_occurred_at_ms : Z; log_payload : string;
  log_payload_sha256 : string
}.

(** A NULLable column is an [option]. *)
Record orderRow := mkOrderRow {
  row_seq : Z; row_scope_key : string; row_batch_ordinal : Z; row_type : string;
  row_order_ref : option string; row_preview_token_id : option string;
  row_reserved_order_id : option Z; row_perm_id : option Z; row_status : option string;
  row_token_digest : option string
}.

(** consumed_preview_tokens, keyed by digest. *)
Record tokenRow := mkTokenRow {
  tok_scope_key : string; tok_authority_epoch : string; tok_signer_generation : Z;
  tok_head_generation : Z
}.

Record db := mkDb {
  db_head : AuthorityHead;
  (** sqlite_sequence of event_log: the largest event_seq ever assigned. *)
  db_autoincrement : Z;
  db_log : list logRow;
  db_orders : list orderRow;
  db_tokens : gmap string tokenRow;
  db_global_floor : option Z;
  db_broker_floors : gmap string Z;
  db_scopes : gmap string BrokerScope;
  (** legacy_imports holds the ('authority','orders') marker. *)
  db_orders_imported : bool;
  db_documents : gmap (string * string) StateDocument
}.
#[global] Instance db_eta : Eta db := fun r => mkDb
  (db_head r) (db_autoincrement r) (db_log r) (db_orders r) (db_tokens r) (db_global_floor r)
  (db_broker_floors r) (db_scopes r) (db_orders_imported r) (db_documents r).

(** ** Key validation (state.go) *)

(** utf8.ValidString on bytes. *)
Fixpoint utf8_valid (fuel : nat) (s : list N) : bool :=
  match fuel with
  | O => true
  | S fuel =>
    let cont b := (0x80 <=? b)%N && (b <=? 0xBF)%N in
    match s with
    | [] => true
    | b0 :: r =>
        if (b0 <? 0x80)%N then utf8_valid fuel r
        else match r with
        | [] => false
        | b1 :: r1 =>
            if (0xC2 <=? b0)%N && (b0 <=? 0xDF)%N then cont b1 && utf8_valid fuel r1
            else match r1 with
            | [] => false
            | b2 :: r2 =>
                if (0xE0 <=? b0)%N && (b0 <=? 0xEF)%N then
                  (if (b0 =? 0xE0)%N then (0xA0 <=? b1)%N && (b1 <=? 0xBF)%N
                   else if (b0 =? 0xED)%N then (0x80 <=? b1)%N && (b1 <=? 0x9F)%N
                   else cont b1) && cont b2 && utf8_valid fuel r2
                else match r2 with
                | [] => false
                | b3 :: r3 =>
                    (0xF0 <=? b0)%N && (b0 <=? 0xF4)%N &&
                    (if (b0 =? 0xF0)%N then (0x90 <=? b1)%N && (b1 <=? 0xBF)%N
                     else if (b0 =? 0xF4)%N then (0x80 <=? b1)%N && (b1 <=? 0x8F)%N
                     else cont b1) && cont b2 && cont b3 && utf8_valid fuel r3
                end
            end
        end
    end
  end.

Definition bytes_of (s : string) : list N := map N_of_ascii (list_ascii_of_string s).
Definition ValidString (s : string) : bool := utf8_valid (S (String.length s)) (bytes_of s).
Definition has_control (s : string) : bool := existsb (fun b => (b <? 0x20)%N || (b =? 0x7F)%N) (bytes_of s).

Definition validateKey (label value : string) (limit : Z) : cres unit :=
  if (value =s "") || (TrimSpace value =s "") then Err (ErrInvalid (label ++s " is required"))
  else if (limit <? Z.of_nat (String.length value)) || negb (ValidString value)
  then Err (ErrInvalid (label ++s " is invalid"))
  else if has_control value then Err (ErrInvalid (label ++s " is invalid"))
  else Ok tt.

(** ** Validation (orders.go) *)

Definition validAction (action : ActionKind) : bool :=
  one_of action [ActionPlace; ActionModify; ActionCancel; ActionPurge; ActionRestore; ActionExercise;
                 ActionSmokeCleanup].

Definition validOrigin (origin : TransmitOrigin) : bool :=
  one_of origin [OriginAgentCLI; OriginHumanCLI; OriginDaemon].

Definition sameScope (a b : BrokerScope) : bool := bool_decide (a = b).
Definition scopeZero (s : BrokerScope) : bool := bool_decide (s = zero_BrokerScope).

Definition nullableString (v : string) : option string := if v =s "" then None else Some v.
Definition nullablePositive (v : Z) : option Z := if v =? 0 then None else Some v.

Definition validateBrokerScope (scope : BrokerScope) : cres unit :=
  let? _ := validateKey "scope key" (bs_ScopeKey scope) 512 in
  let? _ := validateKey "broker endpoint" (bs_Endpoint scope) 512 in
  let? _ := validateKey "broker account" (bs_Account scope) 256 in
  let? _ := validateKey "broker mode" (bs_Mode scope) 32 in
  if bs_ClientID scope <? 0 then Err (ErrInvalid "broker client id must not be negative")
  else if (bs_Mode scope <>s "paper") && (bs_Mode scope <>s "live")
  then Err (ErrInvalid "broker mode is invalid")
  else Ok tt.

(** terminalOrderStatus *)
Definition terminalStatusNames : list string :=
  ["filled"; "cancelled"; "canceled"; "apicancelled"; "inactive"; "rejected"].
Definition terminalOrderStatus (status : string) : bool :=
  one_of (ToLower (TrimSpace status)) terminalStatusNames.

(** binary.Write(h, binary.BigEndian, uint32(len(value))) followed by the value. *)
Definition be32 (n : Z) : string :=
  let byte i := ascii_of_N (Z.to_N (Z.land (Z.shiftr n i) 255)) in
  String (byte 24) (String (byte 16) (String (byte 8) (String (byte 0) ""))).
Definition frame (value : string) : string :=
  be32 (Z.modulo (Z.of_nat (String.length value)) (2 ^ 32)) ++s value.
Definition scopeBinding (scope : BrokerScope) : string :=
  frame (bs_Endpoint scope) ++s frame (Itoa (bs_ClientID scope)) ++s
  frame (bs_Account scope) ++s frame (bs_Mode scope).

(** cancelAttemptAdmissionPayload *)
Record cancelPayload := mkCancelPayload {
  cp_Type : string; cp_AttemptID : string; cp_ActionKind : ActionKind; cp_SendDisposition : string
}.
Definition zero_cancelPayload : cancelPayload := mkCancelPayload "" "" "" "".

(** cancelAttemptAdmissionState *)
Record cancelState := mkCancelState {
  cs_action : ActionKind; cs_outcomeCount : Z; cs_definitelyUnsent : bool
}.

(** What the store takes from elsewhere: sha256.Sum256; encoding/json's Valid
    and SQLite's json_valid; and json.Unmarshal into the payload struct (whether
    it succeeded, and the struct it left behind). *)
Class CoreEnv := {
  sha256 : string -> string;
  json_valid : string -> bool;
  sql_json_valid : string -> bool;
  unmarshal_cancel : string -> bool * cancelPayload
}.

Section CoreStore.
Context `{CoreEnv}.

Definition HashPreviewTokenID (id : string) : string := sha256 id.
Definition brokerScopeDigest (scope : BrokerScope) : string := sha256 (scopeBinding scope).

Definition validateOrderEvent (event : OrderEventRecord) : cres unit :=
  if negb (r_EventSeq event =? 0)
  then Err (ErrInvalid "new order event must not set event sequence")
  else
    let? _ := validateKey "event key" (r_EventKey event) 512 in
    let? _ := validateKey "event type" (r_Type event) 128 in
    if r_AtMS event <=? 0 then Err (ErrInvalid "event time is required")
    else if negb (validAction (r_Action event)) || negb (validOrigin (r_Origin event))
    then Err (ErrInvalid "invalid event provenance")
    else if negb (json_valid (r_RawJSON event))
    then Err (ErrInvalid "order event payload must be valid JSON")
    else if (r_ReservedOrderID event <? 0) || (r_PermID event <? 0)
    then Err (ErrInvalid "order identifiers must not be negative")
    else Ok tt.

(** ** Statements inside a transaction *)

(** advanceHeadTx *)
Definition advanceHeadTx (d : db) (lastEventSeq : Z) : db * AuthorityHead :=
  let h := db_head d in
  let h' := h <| ah_HeadGeneration := ah_HeadGeneration h + 1 |>
              <| ah_LastEventSeq :=
                   if ah_LastEventSeq h <? lastEventSeq then lastEventSeq else ah_LastEventSeq h |> in
  (d <| db_head := h' |>, h').

(** bindBrokerScopeTx: scope_key is the primary key, binding_sha256 is UNIQUE. *)
Definition bindBrokerScopeTx (d : db) (scope : BrokerScope) : cres db :=
  match db_scopes d !! bs_ScopeKey scope with
  | Some bound => if sameScope bound scope then Ok d else Err ErrBrokerScopeCollision
  | None =>
      if existsb (fun p => brokerScopeDigest p.2 =s brokerScopeDigest scope) (map_to_list (db_scopes d))
      then Err ErrBrokerScopeCollision
      else Ok (d <| db_scopes := <[bs_ScopeKey scope := scope]> (db_scopes d) |>)
  end.

Definition readGlobalFloor (d : db) : Z := default 0 (db_global_floor d).
Definition readBrokerFloor (d : db) (key : string) : Z := default 0 (db_broker_floors d !! key).

(** advanceOrderIDFloorsTx: two upserts with MAX, then the broker floor is
    raised to the global one. *)
Definition upsertMax (old : option Z) (requested : Z) : Z :=
  match old with Some f => Z.max f requested | None => requested end.
Definition advanceOrderIDFloorsTx (d : db) (scopeKey : string) (requested : Z) : db * Z :=
  let global := upsertMax (db_global_floor d) requested in
  let broker := upsertMax (db_broker_floors d !! scopeKey) requested in
  (d <| db_global_floor := Some global |>
     <| db_broker_floors := <[scopeKey := Z.max broker global]> (db_broker_floors d) |>, global).

(** One row of appendOrderEventsTx: CHECK (json_valid(payload_json)) and
    UNIQUE (scope_key, event_key) on the log. *)
Definition appendOrderEventTx (d : db) (ordinal : Z) (event : OrderEventRecord)
    (tokenDigest : option string) : cres (db * Z) :=
  let key := bs_ScopeKey (r_Scope event) in
  if negb (sql_json_valid (r_RawJSON event)) ||
     existsb (fun l => (log_scope_key l =s key) && (log_event_key l =s r_EventKey event)) (db_log d)
  then Err (ErrSQL None)
  else
    let seq := db_autoincrement d + 1 in
    let l := mkLogRow seq key (r_EventKey event) (r_Type event) (r_Action event) (r_Origin event)
               (r_AtMS event) (r_RawJSON event) (sha256 (r_RawJSON event)) in
    let o := mkOrderRow seq key ordinal (r_Type event) (nullableString (r_OrderRef event))
               (nullableString (r_PreviewTokenID event)) (nullablePositive (r_ReservedOrderID event))
               (nullablePositive (r_PermID event)) (nullableString (r_Status event)) tokenDigest in
    Ok (d <| db_autoincrement := seq |> <| db_log := db_log d ++ [l] |>
          <| db_orders := db_orders d ++ [o] |>, seq).

Fixpoint appendOrderEventsLoop (d : db) (ordinal : Z) (events : list OrderEventRecord)
    (tokenDigest : option string) : cres (db * list Z) :=
  match events with
  | [] => Ok (d, [])
  | event :: rest =>
      let? p := appendOrderEventTx d ordinal event tokenDigest in
      let? q := appendOrderEventsLoop p.1 (ordinal + 1) rest tokenDigest in
      Ok (q.1, p.2 :: q.2)
  end.

(** appendOrderEventsTx *)
Definition appendOrderEventsTx (d : db) (events : list OrderEventRecord) (tokenDigest : option string)
    : cres (db * list Z) := appendOrderEventsLoop d 0 events tokenDigest.

(** seqs[len(seqs)-1] *)
Definition last_seq (seqs : list Z) : Z := default 0 (last seqs).

(** ** StagePreTransmit *)

(** The defaulting and provenance checks of one staged event; the flag says
    whether it carries the canonical token identifier. *)
Definition stageEvent (request : PreTransmitRequest) (hasToken : bool) (event : OrderEventRecord)
    : cres (OrderEventRecord * bool) :=
  let? event :=
    if scopeZero (r_Scope event) then Ok (event <| r_Scope := q_Scope request |>)
    else if negb (sameScope (r_Scope event) (q_Scope request)) then Err ErrBrokerScopeCollision
    else Ok event in
  let event := if r_Action event =s "" then event <| r_Action := q_Action request |> else event in
  let event := if r_Origin event =s "" then event <| r_Origin := q_Origin request |> else event in
  if (r_Action event <>s q_Action request) || (r_Origin event <>s q_Origin request)
  then Err (ErrInvalid "event provenance does not match staged action")
  else
    let named := hasToken && (r_PreviewTokenID event <>s "") in
    if named && (HashPreviewTokenID (r_PreviewTokenID event) <>s q_TokenDigest request)
    then Err (ErrInvalid "preview token identifier does not match digest")
    else
      let? _ := validateOrderEvent event in
      Ok (event, named).

Fixpoint stageEvents (request : PreTransmitRequest) (hasToken : bool) (events : list OrderEventRecord)
    (matching : bool) : cres (list OrderEventRecord * bool) :=
  match events with
  | [] => Ok ([], matching)
  | event :: rest =>
      let? p := stageEvent request hasToken event in
      let? q := stageEvents request hasToken rest (matching || p.2) in
      Ok (p.1 :: q.1, q.2)
  end.

(** Everything StagePreTransmit checks before its transaction. *)
Definition stageValidate (request : PreTransmitRequest) : cres (list OrderEventRecord) :=
  let? _ := validateBrokerScope (q_Scope request) in
  if negb (validAction (q_Action request)) || negb (validOrigin (q_Origin request))
  then Err (ErrInvalid "invalid pre-transmit provenance")
  else if (q_RequestedOrderIDFloor request <? 0) || (q_ReservedOrderID request <? 0)
  then Err (ErrInvalid "order id floor must not be negative")
  else if match q_Events request with [] => true | _ => false end
  then Err (ErrInvalid "at least one pre-transmit event is required")
  else
    let hasToken := negb (zeroDigest (q_TokenDigest request)) in
    if hasToken && ((q_AuthorityEpoch request =s "") || (q_SignerGeneration request <? 1))
    then Err (ErrInvalid "token authority identity is required")
    else
      let? staged := stageEvents request hasToken (q_Events request) (negb hasToken) in
      if negb staged.2 then Err (ErrInvalid "canonical preview token identifier is required")
      else Ok staged.1.

(** The order_events rows of one broker order (reserved_order_id is NULL for 0). *)
Definition orderRowsFor (d : db) (scopeKey : string) (reservedOrderID : Z) : list orderRow :=
  List.filter (fun r => (row_scope_key r =s scopeKey) &&
    match row_reserved_order_id r with Some id => id =? reservedOrderID | None => false end)
    (db_orders d).

(** ORDER BY event_seq DESC LIMIT 1 *)
Definition later_row (a : option orderRow) (r : orderRow) : option orderRow :=
  match a with
  | Some x => if row_seq x <? row_seq r then Some r else a
  | None => Some r
  end.
Definition latestRow (rows : list orderRow) : option orderRow := fold_left later_row rows None.

(** MAX(CASE WHEN lower(COALESCE(status,'')) IN (...) THEN event_seq END), 0 for NULL. *)
Definition lastTerminalSeq (rows : list orderRow) : Z :=
  fold_left (fun m r =>
    if one_of (ToLower (default "" (row_status r))) terminalStatusNames then Z.max m (row_seq r) else m)
    rows 0.

(** One scanned row of hasUnresolvedCancelAttemptTx; [None]: unresolved at once. *)
Definition cancelScanStep (attempts : option (gmap string cancelState)) (r : orderRow * logRow)
    : option (gmap string cancelState) :=
  match attempts with
  | None => None
  | Some attempts =>
      let '(ok, payload) := unmarshal_cancel (log_payload r.2) in
      let eventType := row_type r.1 in
      let payloadOK := ok && (cp_Type payload =s eventType) && (cp_AttemptID payload <>s "") &&
        (TrimSpace (cp_AttemptID payload) =s cp_AttemptID payload) &&
        (cp_ActionKind payload =s log_action_kind r.2) in
      if eventType =s "cancel-requested" then
        let cancelAction := (cp_ActionKind payload =s ActionCancel) ||
                            (cp_ActionKind payload =s ActionSmokeCleanup) in
        if negb payloadOK || negb cancelAction then None
        else if present (attempts !! cp_AttemptID payload) then None
        else Some (<[cp_AttemptID payload := mkCancelState (cp_ActionKind payload) 0 false]> attempts)
      else
        match attempts !! cp_AttemptID payload with
        | None => Some attempts
        | Some a =>
            let n := cs_outcomeCount a + 1 in
            Some (<[cp_AttemptID payload := mkCancelState (cs_action a) n
              ((n =? 1) && payloadOK && (eventType =s "send-error") &&
               (cp_ActionKind payload =s cs_action a) &&
               (cp_SendDisposition payload =s "definitely_unsent"))]> attempts)
        end
  end.

(** JOIN event_log USING (event_seq) *)
Definition joinLog (d : db) (rows : list orderRow) : list (orderRow * logRow) :=
  omap (fun r => match List.find (fun l => log_seq l =? row_seq r) (db_log d) with
                 | Some l => Some (r, l) | None => None end) rows.

Definition cancelScanRows (d : db) (scopeKey : string) (reservedOrderID afterEventSeq : Z)
    : list (orderRow * logRow) :=
  joinLog d (stable_sort (fun a b => row_seq a <=? row_seq b)
    (List.filter (fun r => (afterEventSeq <? row_seq r) &&
       one_of (row_type r) ["cancel-requested"; "send-completed"; "send-error"])
       (orderRowsFor d scopeKey reservedOrderID))).

(** hasUnresolvedCancelAttemptTx *)
Definition hasUnresolvedCancelAttemptTx (d : db) (scopeKey : string)
    (reservedOrderID afterEventSeq : Z) : bool :=
  match fold_left cancelScanStep (cancelScanRows d scopeKey reservedOrderID afterEventSeq) (Some ∅) with
  | None => true
  | Some attempts => existsb (fun p => negb (cs_definitelyUnsent p.2)) (map_to_list attempts)
  end.

(** The per-order frontier check of a staged modify. *)
Definition checkFrontier (d : db) (request : PreTransmitRequest) (expected : Z) : cres unit :=
  let rows := orderRowsFor d (bs_ScopeKey (q_Scope request)) (q_ReservedOrderID request) in
  let latest := latestRow rows in
  let actual := match latest with Some r => row_seq r | None => 0 end in
  if negb (actual =? expected) then Err (ErrRevisionConflict expected actual (present latest))
  else if q_Action request =s ActionModify then
    match latest with
    | None => Err ErrOrderNotModifiable
    | Some r =>
        if (row_type r =s "cancel-requested") || terminalOrderStatus (default "" (row_status r))
        then Err ErrOrderNotModifiable
        else if hasUnresolvedCancelAttemptTx d (bs_ScopeKey (q_Scope request))
                  (q_ReservedOrderID request) (lastTerminalSeq rows)
        then Err ErrOrderNotModifiable
        else Ok tt
    end
  else Ok tt.

(** consumed_preview_tokens.token_digest is the primary key. *)
Definition consumeTokenTx (d : db) (request : PreTransmitRequest) : cres db :=
  let h := db_head d in
  if (ah_AuthorityEpoch h <>s q_AuthorityEpoch request) ||
     negb (ah_SignerGeneration h =? q_SignerGeneration request)
  then Err ErrAuthorityMismatch
  else if present (db_tokens d !! q_TokenDigest request) then Err ErrPreviewTokenConsumed
  else Ok (d <| db_tokens := <[q_TokenDigest request :=
              mkTokenRow (bs_ScopeKey (q_Scope request)) (ah_AuthorityEpoch h)
                (ah_SignerGeneration h) (ah_HeadGeneration h + 1)]> (db_tokens d) |>).

(** The transaction body of StagePreTransmit. *)
Definition stageTx (request : PreTransmitRequest) (events : list OrderEventRecord) (d : db)
    : cres (db * PreTransmitResult) :=
  let hasToken := negb (zeroDigest (q_TokenDigest request)) in
  let? d := bindBrokerScopeTx d (q_Scope request) in
  let? d := if hasToken then consumeTokenTx d request else Ok d in
  let? _ := match q_ExpectedOrderEventSeq request with
            | Some expected => checkFrontier d request expected
            | None => Ok tt
            end in
  if (q_Action request =s ActionPlace) && (q_ReservedOrderID request <=? readGlobalFloor d)
  then Err ErrOrderIDFloor
  else
    let '(d, effective) := advanceOrderIDFloorsTx d (bs_ScopeKey (q_Scope request))
      (Z.max (q_ReservedOrderID request) (q_RequestedOrderIDFloor request)) in
    let? p := appendOrderEventsTx d events
                (if hasToken then Some (q_TokenDigest request) else None) in
    let '(d, head) := advanceHeadTx p.1 (last_seq p.2) in
    Ok (d, mkPreTransmitResult effective p.2 head).

(** ** Lifecycle appends *)

Definition validateEvents (events : list OrderEventRecord) : cres unit :=
  fold_left (fun acc event =>
    let? _ := acc in
    let? _ := validateBrokerScope (r_Scope event) in
    validateOrderEvent event) events (Ok tt).

(** The scope of each key, or a collision. *)
Definition collectScopes (events : list OrderEventRecord) : cres (gmap string BrokerScope) :=
  fold_left (fun acc event =>
    let? seen := acc in
    match seen !! bs_ScopeKey (r_Scope event) with
    | Some prior =>
        if negb (sameScope prior (r_Scope event)) then Err ErrBrokerScopeCollision
        else Ok (<[bs_ScopeKey (r_Scope event) := r_Scope event]> seen)
    | None => Ok (<[bs_ScopeKey (r_Scope event) := r_Scope event]> seen)
    end) events (Ok ∅).

Definition bindScopes (d : db) (scopes : list BrokerScope) : cres db :=
  fold_left (fun acc scope => let? d := acc in bindBrokerScopeTx d scope) scopes (Ok d).

(** The transaction body of appendOrderEventsAtHead; [order] is the order in
    which Go ranges over the collected scopes. *)
Definition appendAtHeadTx (order : gmap string BrokerScope -> list BrokerScope)
    (expectedLastEventSeq : Z) (events : list OrderEventRecord) (d : db) : cres (db * list Z) :=
  if (0 <=? expectedLastEventSeq) && negb (ah_LastEventSeq (db_head d) =? expectedLastEventSeq)
  then Err (ErrRevisionConflict expectedLastEventSeq (ah_LastEventSeq (db_head d)) true)
  else
    let? seen := collectScopes events in
    let? d := bindScopes d (order seen) in
    let? p := appendOrderEventsTx d events None in
    Ok ((advanceHeadTx p.1 (last_seq p.2)).1, p.2).

(** ** State documents (state.go) *)

Definition validateStateCASCoordinates (update : StateDocumentCAS) : cres unit :=
  let? _ := validateKey "scope key" (cas_ScopeKey update) 512 in
  let? _ := validateKey "state kind" (cas_Kind update) 128 in
  if cas_ExpectedRevision update <? 0 then Err (ErrInvalid "expected revision must not be negative")
  else Ok tt.

Definition validateStateCAS (update : StateDocumentCAS) : cres unit :=
  let? _ := validateStateCASCoordinates update in
  if negb (json_valid (cas_JSON update)) then Err (ErrInvalid "state document must be valid JSON")
  else Ok tt.

(** compareAndSwapStateTx at commit clock [now]. *)
Definition compareAndSwapStateTx (d : db) (update : StateDocumentCAS) (now : time)
    : cres (db * StateDocument) :=
  if match cas_ExpectedHead update with
     | Some h => negb (bool_decide (db_head d = h)) | None => false end
  then Err ErrAuthorityMismatch
  else if negb (IsZero (cas_UpdatedAtNotBefore update)) && Before now (cas_UpdatedAtNotBefore update)
  then Err ErrRollback
  else if negb (sql_json_valid (cas_JSON update)) then Err (ErrSQL None)
  else
    let key := (cas_ScopeKey update, cas_Kind update) in
    let expected := cas_ExpectedRevision update in
    let saved := mkStateDocument (cas_ScopeKey update) (cas_Kind update) (expected + 1)
                   (cas_JSON update) now in
    let write := Ok (d <| db_documents := <[key := saved]> (db_documents d) |>, saved) in
    match db_documents d !! key with
    | None =>
        if expected =? 0 then write else Err (ErrRevisionConflict expected 0 false)
    | Some doc =>
        if negb (expected =? 0) && (sd_Revision doc =? expected) then write
        else Err (ErrRevisionConflict expected (sd_Revision doc) true)
    end.

(** The transaction bodies of CompareAndSwapStateDocument and CommitLifecycle. *)
Definition casTx (update : StateDocumentCAS) (now : time) (d : db) : cres (db * StateDocument) :=
  let? p := compareAndSwapStateTx d update now in
  Ok ((advanceHeadTx p.1 0).1, p.2).

Definition lifecycleEvents (commit : LifecycleCommit) : cres (list OrderEventRecord) :=
  foldr (fun event acc =>
    let event := if scopeZero (r_Scope event) then event <| r_Scope := lc_Scope commit |> else event in
    if negb (sameScope (r_Scope event) (lc_Scope commit)) then Err ErrBrokerScopeCollision
    else
      let? _ := validateOrderEvent event in
      let? rest := acc in
      Ok (event :: rest)) (Ok []) (lc_Events commit).

Definition lifecycleTx (commit : LifecycleCommit) (events : list OrderEventRecord) (now : time) (d : db)
    : cres (db * LifecycleResult) :=
  let? d := bindBrokerScopeTx d (lc_Scope commit) in
  let? p := appendOrderEventsTx d events None in
  let? s := match lc_State commit with
            | Some update =>
                let? q := compareAndSwapStateTx p.1 update now in Ok (q.1, Some q.2)
            | None => Ok (p.1, None)
            end in
  let '(d, head) := advanceHeadTx s.1 (last_seq p.2) in
  Ok (d, mkLifecycleResult p.2 s.2 head).

(** The transaction bodies of AdvanceSignerGeneration and
    InitializeFreshOrderAuthority. *)
Definition advanceSignerTx (expected next : Z) (d : db) : cres (db * AuthorityHead) :=
  let h := db_head d in
  if negb (ah_SignerGeneration h =? expected) then Err ErrAuthorityMismatch
  else
    let h' := h <| ah_SignerGeneration := next |> <| ah_HeadGeneration := ah_HeadGeneration h + 1 |> in
    Ok (d <| db_head := h' |>, h').

Definition initFreshTx (d : db) : cres (db * unit) :=
  if match db_orders d with [] => false | _ => true end
  then Err (ErrFreshAuthorityConflict "order events")
  else if negb (bool_decide (db_tokens d = ∅))
  then Err (ErrFreshAuthorityConflict "preview-token tombstones")
  else if present (db_global_floor d) || negb (bool_decide (db_broker_floors d = ∅))
  then Err (ErrFreshAuthorityConflict "order-ID floors")
  else if negb (bool_decide (db_scopes d = ∅)) then Err (ErrFreshAuthorityConflict "broker scopes")
  else if db_orders_imported d then Err (ErrFreshAuthorityConflict "order import marker")
  else
    Ok ((advanceHeadTx (d <| db_global_floor := Some 0 |> <| db_orders_imported := true |>) 0).1, tt).
End CoreStore.
