(* ===== verification/CoreStoreOps.v ===== *)
(** * The store's operations and its fail-closed health

    The public mutations and reads of src/internal/daemon/corestore over the
    transactions of [CoreStore]: the critical section with its commit observer
    and health latches (store.go), and the transition system they form. *)

From stdpp Require Import base decidable list strings gmap.
From Stdlib Require Import ZArith Lia String Ascii.
From S2P Require Import Prelude OrderTypes OrderKeys CoreStore.

(** Health without its timestamp. *)
Record Health := mkStoreHealth { hl_Ready : bool; hl_Code : string; hl_RecoveryEligible : bool }.

Record store := mkStore {
  st_db : db; st_health : Health; st_recoveryMinimumHead : AuthorityHead;
  st_lastObservedHead : AuthorityHead; st_observed : bool
}.
#[global] Instance store_eta : Eta store := fun r => mkStore
  (st_db r) (st_health r) (st_recoveryMinimumHead r) (st_lastObservedHead r) (st_observed r).

(** Reading the committed head: fine, past its deadline, or a SQLite error. *)
Inductive headRead := HeadOK | HeadTimeout | HeadError (critical : option string).

(** What the environment does to one mutation: a SQLite error at begin, in a
    statement or at commit (an error at commit leaves the old state), the
    outcome of the post-commit head read and of the commit observer. *)
Record faults := mkFaults {
  ft_begin : option (option string); ft_statement : option (option string);
  ft_commit : option (option string); ft_headRead : headRead; ft_observer_fails : bool
}.
Definition no_faults : faults := mkFaults None None None HeadOK false.

(** ** Latches (store.go) *)

Definition latchHealth (s : store) (code : string) : store :=
  if hl_Ready (st_health s) then
    s <| st_health := mkStoreHealth false code false |>
      <| st_recoveryMinimumHead := zero_AuthorityHead |>
  else s.

Definition latchCritical (s : store) (e : coreErr) : store :=
  match criticalSQLiteCode e with Some code => latchHealth s code | None => s end.

Definition latchRecoverableHeadWatermark (s : store) (minimum : AuthorityHead) : store :=
  if hl_Ready (st_health s) then
    s <| st_health := mkStoreHealth false "head_watermark" true |>
      <| st_recoveryMinimumHead := minimum |>
  else s.

Definition disableTransientRecovery (s : store) (code : string) : store :=
  if hl_Ready (st_health s) then s
  else s <| st_health := mkStoreHealth false
              (if TrimSpace code <>s "" then code else hl_Code (st_health s)) false |>
         <| st_recoveryMinimumHead := zero_AuthorityHead |>.

Definition disableTransientRecoveryForCritical (s : store) (e : coreErr) : store :=
  match criticalSQLiteCode e with Some code => disableTransientRecovery s code | None => s end.

(** headNotBackTx *)
Definition headNotBack (s : store) : cres unit :=
  let head := db_head (st_db s) in
  let last := st_lastObservedHead s in
  if (ah_AuthorityEpoch head =s ah_AuthorityEpoch last) &&
     (ah_HeadGeneration head <? ah_HeadGeneration last)
  then Err ErrHeadWentBack else Ok tt.

Definition sql_fault (f : option (option string)) : cres unit :=
  match f with Some c => Err (ErrSQL c) | None => Ok tt end.

(** The transaction: begin, the head check, the body, commit. *)
Definition transaction {A} (s : store) (f : faults) (fn : db -> cres (db * A)) : cres (db * A) :=
  let? _ := sql_fault (ft_begin f) in
  let? _ := if st_observed s then headNotBack s else Ok tt in
  let? _ := sql_fault (ft_statement f) in
  let? r := fn (st_db s) in
  let? _ := sql_fault (ft_commit f) in
  Ok r.

(** After a commit, with an observer: read the head back and persist it. *)
Definition observeCommit (s : store) (f : faults) : store * cres unit :=
  if negb (st_observed s) then (s, Ok tt)
  else
    let head := db_head (st_db s) in
    match ft_headRead f with
    | HeadTimeout => (latchRecoverableHeadWatermark s (st_lastObservedHead s), Err ErrDeadline)
    | HeadError c => (latchHealth (latchCritical s (ErrSQL c)) "head_watermark", Err (ErrSQL c))
    | HeadOK =>
        if ft_observer_fails f then (latchRecoverableHeadWatermark s head, Err ErrObserver)
        else (s <| st_lastObservedHead := head |>, Ok tt)
    end.

(** The latches of a failed mutation. *)
Definition latchFailure (s : store) (e : coreErr) : store :=
  let s := latchCritical s e in
  let s := if LostWrite e then latchHealth s "lost_write" else s in
  match e with ErrHeadWentBack => latchHealth s "lost_write" | _ => s end.

(** criticalMutation *)
Definition criticalMutation {A} (s : store) (f : faults) (fn : db -> cres (db * A))
    : store * cres A :=
  if negb (hl_Ready (st_health s)) then (s, Err ErrBlocked)
  else
    match transaction s f fn with
    | Err e => (latchFailure s e, Err e)
    | Ok (d, a) =>
        match observeCommit (s <| st_db := d |>) f with
        | (s', Ok _) => (s', Ok a)
        | (s', Err e) => (latchFailure s' e, Err e)
        end
    end.

(** requireMinimumHead *)
Definition requireMinimumHead (got minimum : AuthorityHead) : cres unit :=
  if (ah_AuthorityEpoch minimum <>s "") && (ah_AuthorityEpoch got <>s ah_AuthorityEpoch minimum)
  then Err ErrRollback
  else if (ah_HeadGeneration got <? ah_HeadGeneration minimum) ||
          (ah_LastEventSeq got <? ah_LastEventSeq minimum) ||
          (ah_SignerGeneration got <? ah_SignerGeneration minimum)
  then Err ErrRollback
  else Ok tt.

(** The integrity check of a recovery: clean, damaged, interrupted, or a SQLite error. *)
Inductive integrityOutcome := IntegrityOK | IntegrityBad | IntegrityDeadline
| IntegrityError (critical : option string).

(** recoverTransientHeadWatermarkLocked *)
Definition RecoverTransientHeadWatermark (s : store) (check : integrityOutcome) (f : faults)
    : store * cres bool :=
  let health := st_health s in
  if hl_Ready health then (s, Ok false)
  else if (hl_Code health <>s "head_watermark") || negb (hl_RecoveryEligible health) ||
          negb (st_observed s)
  then (s, Err ErrRecoveryNotEligible)
  else
    match check with
    | IntegrityDeadline => (s, Err ErrDeadline)
    | IntegrityError c =>
        (match c with
         | Some code => disableTransientRecovery s code
         | None => disableTransientRecovery s "integrity"
         end, Err (ErrSQL c))
    | IntegrityBad => (disableTransientRecovery s "corrupt", Err ErrIntegrity)
    | IntegrityOK =>
        match ft_headRead f with
        | HeadTimeout => (s, Err ErrDeadline)
        | HeadError c => (disableTransientRecoveryForCritical s (ErrSQL c), Err (ErrSQL c))
        | HeadOK =>
            let head := db_head (st_db s) in
            match requireMinimumHead head (st_recoveryMinimumHead s) with
            | Err e => (disableTransientRecovery s "rollback", Err e)
            | Ok _ =>
                if ft_observer_fails f then (s, Err ErrObserver)
                else (s <| st_health := mkStoreHealth true "" false |>
                        <| st_recoveryMinimumHead := zero_AuthorityHead |>
                        <| st_lastObservedHead := head |>, Ok true)
            end
        end
    end.

Section Ops.
Context `{CoreEnv}.

(** StagePreTransmit *)
Definition StagePreTransmit (s : store) (f : faults) (request : PreTransmitRequest)
    : store * cres PreTransmitResult :=
  match stageValidate request with
  | Err e => (s, Err e)
  | Ok events => criticalMutation s f (stageTx request events)
  end.

(** appendOrderEventsAtHead; AppendOrderEvents passes -1. *)
Definition appendOrderEventsAtHead (order : gmap string BrokerScope -> list BrokerScope)
    (s : store) (f : faults) (expectedLastEventSeq : Z) (events : list OrderEventRecord)
    : store * cres (list Z) :=
  match events with
  | [] => (s, Err (ErrInvalid "at least one order event is required"))
  | _ =>
      match validateEvents events with
      | Err e => (s, Err e)
      | Ok _ => criticalMutation s f (appendAtHeadTx order expectedLastEventSeq events)
      end
  end.

Definition AppendOrderEventsAtHead order (s : store) (f : faults) (expectedLastEventSeq : Z)
    (events : list OrderEventRecord) : store * cres (list Z) :=
  if expectedLastEventSeq <? 0
  then (s, Err (ErrInvalid "expected order event head must not be negative"))
  else appendOrderEventsAtHead order s f expectedLastEventSeq events.

Definition AppendOrderEvents order (s : store) (f : faults) (events : list OrderEventRecord)
    : store * cres (list Z) := appendOrderEventsAtHead order s f (-1) events.

(** CommitLifecycle *)
Definition CommitLifecycle (s : store) (f : faults) (now : time) (commit : LifecycleCommit)
    : store * cres LifecycleResult :=
  match
    let? _ := validateBrokerScope (lc_Scope commit) in
    let? _ := match lc_Events commit with
              | [] => Err (ErrInvalid "at least one lifecycle event is required")
              | _ => Ok tt
              end in
    let? events := lifecycleEvents commit in
    let? _ := match lc_State commit with Some u => validateStateCAS u | None => Ok tt end in
    Ok events
  with
  | Err e => (s, Err e)
  | Ok events => criticalMutation s f (lifecycleTx commit events now)
  end.

(** CompareAndSwapStateDocument *)
Definition CompareAndSwapStateDocument (s : store) (f : faults) (now : time) (update : StateDocumentCAS)
    : store * cres StateDocument :=
  match validateStateCAS update with
  | Err e => (s, Err e)
  | Ok _ => criticalMutation s f (casTx update now)
  end.

Definition AdvanceSignerGeneration (s : store) (f : faults) (expected next : Z)
    : store * cres AuthorityHead :=
  if (expected <? 1) || (next <=? expected)
  then (s, Err (ErrInvalid "signer generation must increase"))
  else criticalMutation s f (advanceSignerTx expected next).

Definition InitializeFreshOrderAuthority (s : store) (f : faults) : store * cres unit :=
  criticalMutation s f initFreshTx.

(** LatchDamaged *)
Definition LatchDamaged (s : store) (code : string) : store := latchHealth s code.

(** ** Reads *)

Definition PreviewTokenConsumed (s : store) (digest : string) : cres bool :=
  if negb (hl_Ready (st_health s)) then Err ErrBlocked
  else if zeroDigest digest then Err (ErrInvalid "preview token digest is required")
  else Ok (present (db_tokens (st_db s) !! digest)).

Definition LatestOrderEventSeq (s : store) (scope : BrokerScope) (reservedOrderID : Z) : cres Z :=
  let? _ := validateBrokerScope scope in
  if reservedOrderID <=? 0 then Err (ErrInvalid "reserved order id must be positive")
  else Ok (match latestRow (orderRowsFor (st_db s) (bs_ScopeKey scope) reservedOrderID) with
           | Some r => row_seq r | None => 0 end).

Definition GlobalOrderIDFloor (s : store) : Z := readGlobalFloor (st_db s).

Definition ScopedOrderIDFloor (s : store) (scopeKey : string) : cres Z :=
  let? _ := validateKey "scope key" scopeKey 512 in
  let global := readGlobalFloor (st_db s) in
  let scoped := readBrokerFloor (st_db s) scopeKey in
  Ok (if scoped <? global then global else scoped).

Record OrderQuery := mkOrderQuery {
  oq_ScopeKey : string; oq_FromAtMS : Z; oq_ToAtMS : Z; oq_AfterEventSeq : Z; oq_OrderRef : string;
  oq_ReservedOrderID : option Z; oq_PermID : option Z; oq_PreviewTokenID : string; oq_Limit : Z
}.
Definition all_orders : OrderQuery := mkOrderQuery "" 0 0 0 "" None None "" 0.

Definition opt_is {A} (eqb : A -> A -> bool) (o : option A) (v : A) : bool :=
  match o with Some x => eqb x v | None => false end.

(** The WHERE clause. *)
Definition queryMatches (q : OrderQuery) (r : orderRow) (l : logRow) : bool :=
  ((oq_ScopeKey q =s "") || (row_scope_key r =s oq_ScopeKey q)) &&
  ((oq_FromAtMS q =? 0) || (oq_FromAtMS q <=? log_occurred_at_ms l)) &&
  ((oq_ToAtMS q =? 0) || (log_occurred_at_ms l <=? oq_ToAtMS q)) &&
  ((oq_AfterEventSeq q =? 0) || (oq_AfterEventSeq q <? row_seq r)) &&
  ((oq_OrderRef q =s "") || opt_is String.eqb (row_order_ref r) (oq_OrderRef q)) &&
  match oq_ReservedOrderID q with Some v => opt_is Z.eqb (row_reserved_order_id r) v | None => true end &&
  match oq_PermID q with Some v => opt_is Z.eqb (row_perm_id r) v | None => true end &&
  ((oq_PreviewTokenID q =s "") || opt_is String.eqb (row_preview_token_id r) (oq_PreviewTokenID q)).

(** One scanned row, joined with its log row and its scope binding. *)
Definition loadRow (d : db) (r : orderRow) (l : logRow) : option OrderEventRecord :=
  match db_scopes d !! row_scope_key r with
  | Some scope =>
      Some (mkOrderEventRecord (row_seq r) scope (log_event_key l) (log_occurred_at_ms l) (row_type r)
              (log_action_kind l) (log_origin l) (default "" (row_order_ref r))
              (default "" (row_preview_token_id r)) (default 0 (row_reserved_order_id r))
              (default 0 (row_perm_id r)) (default "" (row_status r)) (log_payload l))
  | None => None
  end.

(** LoadOrderEvents *)
Definition LoadOrderEvents (s : store) (q : OrderQuery) : cres (list OrderEventRecord) :=
  let? _ := if oq_ScopeKey q <>s "" then validateKey "scope key" (oq_ScopeKey q) 512 else Ok tt in
  if (oq_Limit q <? 0) || (10000 <? oq_Limit q) then Err (ErrInvalid "order query limit is invalid")
  else
    let limit := if oq_Limit q =? 0 then 1000 else oq_Limit q in
    let d := st_db s in
    let joined := joinLog d (stable_sort (fun a b => row_seq a <=? row_seq b) (db_orders d)) in
    Ok (take (Z.to_nat limit)
          (omap (fun p => if queryMatches q p.1 p.2 then loadRow d p.1 p.2 else None) joined)).

(** ** The transition system of mutations *)

Inductive op :=
| OpStage (f : faults) (request : PreTransmitRequest)
| OpAppend (f : faults) (order : gmap string BrokerScope -> list BrokerScope)
    (expected : Z) (events : list OrderEventRecord)
| OpLifecycle (f : faults) (now : time) (commit : LifecycleCommit)
| OpCAS (f : faults) (now : time) (update : StateDocumentCAS)
| OpSigner (f : faults) (expected next : Z)
| OpInit (f : faults)
| OpRecover (check : integrityOutcome) (f : faults)
| OpDamaged (code : string).

Definition step (s : store) (o : op) : store :=
  match o with
  | OpStage f request => (StagePreTransmit s f request).1
  | OpAppend f order expected events => (appendOrderEventsAtHead order s f expected events).1
  | OpLifecycle f now commit => (CommitLifecycle s f now commit).1
  | OpCAS f now update => (CompareAndSwapStateDocument s f now update).1
  | OpSigner f expected next => (AdvanceSignerGeneration s f expected next).1
  | OpInit f => (InitializeFreshOrderAuthority s f).1
  | OpRecover check f => (RecoverTransientHeadWatermark s check f).1
  | OpDamaged code => LatchDamaged s code
  end.

Definition run (s : store) (ops : list op) : store := fold_left step ops s.
End Ops.
