(* ===== verification/CoreStoreFacts.v ===== *)
(** * Theorems about the durable order authority

    Monotonicity, single use of preview tokens, strictly increasing broker
    order ids, atomicity and fail-closed health of the store of [CoreStoreOps],
    over every sequence of operations and faults. *)

From stdpp Require Import base decidable list strings gmap sorting.
From Stdlib Require Import ZArith Lia String Ascii.
From S2P Require Import Prelude OrderTypes OrderKeys CoreStore CoreStoreOps.

(** ** The critical section *)

Lemma latchHealth_db s c : st_db (latchHealth s c) = st_db s.
Proof. unfold latchHealth. by case_if. Qed.

Lemma latchCritical_db s e : st_db (latchCritical s e) = st_db s.
Proof. unfold latchCritical. destruct (criticalSQLiteCode e); [apply latchHealth_db | done]. Qed.

Lemma latchFailure_db s e : st_db (latchFailure s e) = st_db s.
Proof.
  unfold latchFailure. destruct (LostWrite e), e; rewrite ?latchHealth_db; apply latchCritical_db.
Qed.

Lemma latchHealth_blocked s c : hl_Ready (st_health (latchHealth s c)) = false.
Proof. unfold latchHealth. by destruct (hl_Ready (st_health s)) eqn:E. Qed.

Lemma latchHealth_keeps s c : hl_Ready (st_health s) = false -> latchHealth s c = s.
Proof. intros E. unfold latchHealth. by rewrite E. Qed.

Lemma latchFailure_keeps s e : hl_Ready (st_health s) = false -> latchFailure s e = s.
Proof.
  intros E. unfold latchFailure.
  assert (Hc : latchCritical s e = s).
  { unfold latchCritical. destruct (criticalSQLiteCode e); [by apply latchHealth_keeps | done]. }
  rewrite Hc. destruct (LostWrite e), e; rewrite ?(latchHealth_keeps s) by done; done.
Qed.

Lemma observeCommit_cases s f :
  let r := observeCommit s f in
  st_db r.1 = st_db s /\
  ((r.2 = Ok tt /\ st_health r.1 = st_health s) \/
   (exists e, r.2 = Err e /\ hl_Ready (st_health r.1) = false)).
Proof.
  unfold observeCommit. destruct (st_observed s); simpl; [|by split; [|left]].
  destruct (ft_headRead f).
  - destruct (ft_observer_fails f); simpl; [|by split; [|left]].
    split; [unfold latchRecoverableHeadWatermark; by case_if|]. right. eexists. split; [done|].
    unfold latchRecoverableHeadWatermark. by destruct (hl_Ready (st_health s)) eqn:E.
  - simpl. split; [unfold latchRecoverableHeadWatermark; by case_if|]. right. eexists. split; [done|].
    unfold latchRecoverableHeadWatermark. by destruct (hl_Ready (st_health s)) eqn:E.
  - simpl. split; [by rewrite latchHealth_db, latchCritical_db|]. right. eexists. split; [done|].
    apply latchHealth_blocked.
Qed.

(** A mutation is refused, fails without effect, commits and reports so, or
    commits without a proven watermark and leaves the store blocked. *)
Inductive mutation_outcome {A} (s : store) (fn : db -> cres (db * A)) : store * cres A -> Prop :=
| mo_blocked : hl_Ready (st_health s) = false -> mutation_outcome s fn (s, Err ErrBlocked)
| mo_failed s' e : hl_Ready (st_health s) = true -> st_db s' = st_db s ->
    mutation_outcome s fn (s', Err e)
| mo_committed s' d a : hl_Ready (st_health s) = true -> fn (st_db s) = Ok (d, a) -> st_db s' = d ->
    st_health s' = st_health s -> mutation_outcome s fn (s', Ok a)
| mo_unproven s' d a e : hl_Ready (st_health s) = true -> fn (st_db s) = Ok (d, a) -> st_db s' = d ->
    hl_Ready (st_health s') = false -> mutation_outcome s fn (s', Err e).

Lemma transaction_ok {A} s f (fn : db -> cres (db * A)) r :
  transaction s f fn = Ok r -> fn (st_db s) = Ok r.
Proof.
  unfold transaction. intros H. ok_inv H. injection H as <-. done.
Qed.

Lemma criticalMutation_outcome {A} s f (fn : db -> cres (db * A)) :
  mutation_outcome s fn (criticalMutation s f fn).
Proof.
  unfold criticalMutation. destruct (hl_Ready (st_health s)) eqn:Hr; simpl; [|by constructor].
  destruct (transaction s f fn) as [[d a]|e] eqn:Ht.
  - apply transaction_ok in Ht.
    destruct (observeCommit_cases (s <| st_db := d |>) f) as [Hd Ho].
    destruct (observeCommit (s <| st_db := d |>) f) as [s' r]. simpl in *.
    destruct Ho as [[-> Hh] | (e & -> & Hh)].
    + by eapply mo_committed.
    + rewrite latchFailure_keeps by done. by eapply mo_unproven.
  - apply mo_failed; [done | apply latchFailure_db].
Qed.

(** ** Extension: what a committed transaction may do to the database *)

Record extends (d d' : db) : Prop := {
  ex_epoch : ah_AuthorityEpoch (db_head d') = ah_AuthorityEpoch (db_head d);
  ex_generation : ah_HeadGeneration (db_head d) <= ah_HeadGeneration (db_head d');
  ex_seq : ah_LastEventSeq (db_head d) <= ah_LastEventSeq (db_head d');
  ex_signer : ah_SignerGeneration (db_head d) <= ah_SignerGeneration (db_head d');
  ex_auto : db_autoincrement d <= db_autoincrement d';
  ex_log : db_log d `prefix_of` db_log d';
  ex_orders : db_orders d `prefix_of` db_orders d';
  ex_tokens : db_tokens d ⊆ db_tokens d';
  ex_global : readGlobalFloor d <= readGlobalFloor d';
  ex_broker : forall k, readBrokerFloor d k <= readBrokerFloor d' k;
  ex_scopes : db_scopes d ⊆ db_scopes d';
  ex_docs : forall k doc, db_documents d !! k = Some doc ->
    exists doc', db_documents d' !! k = Some doc' /\ sd_Revision doc <= sd_Revision doc'
}.

Lemma extends_refl d : extends d d.
Proof. split; try done; try lia. intros k doc Hk. exists doc. split; [done | lia]. Qed.

Lemma extends_trans d1 d2 d3 : extends d1 d2 -> extends d2 d3 -> extends d1 d3.
Proof.
  intros [] []. split; try (by etrans); try lia.
  - intros k. etrans; [apply ex_broker0 | apply ex_broker1].
  - intros k doc Hk. destruct (ex_docs0 k doc Hk) as (doc' & Hk' & Hle).
    destruct (ex_docs1 k doc' Hk') as (doc'' & Hk'' & Hle'). exists doc''. split; [done | lia].
Qed.

#[global] Instance extends_preorder : PreOrder extends.
Proof. split; [exact extends_refl | exact extends_trans]. Qed.

(** Solve an extension in which most columns are untouched. *)
Ltac extends_cols :=
  split; cbn; try done; try lia;
  try (intros ? doc ?; exists doc; split; [done | lia]).

Lemma advanceHeadTx_extends d q : extends d (advanceHeadTx d q).1.
Proof. extends_cols. case_if; bool_hyps; lia. Qed.

Section Facts.
Context `{CoreEnv}.

Lemma bindBrokerScopeTx_extends d scope d' : bindBrokerScopeTx d scope = Ok d' -> extends d d'.
Proof.
  unfold bindBrokerScopeTx. destruct (db_scopes d !! bs_ScopeKey scope) eqn:Hl.
  - case_if; [|done]. intros [= <-]. reflexivity.
  - case_if; [done|]. intros [= <-]. extends_cols. by apply insert_subseteq.
Qed.

Lemma consumeTokenTx_extends d q d' : consumeTokenTx d q = Ok d' -> extends d d'.
Proof.
  unfold consumeTokenTx. case_if; [done|]. destruct (db_tokens d !! q_TokenDigest q) eqn:Hl; [done|].
  simpl. intros [= <-]. extends_cols. by apply insert_subseteq.
Qed.

Lemma advanceFloors_extends d k n : 0 <= n -> extends d (advanceOrderIDFloorsTx d k n).1.
Proof.
  intros Hn. unfold advanceOrderIDFloorsTx. extends_cols.
  - unfold readGlobalFloor, upsertMax. cbn. destruct (db_global_floor d); simpl; lia.
  - intros k'. unfold readBrokerFloor, upsertMax. cbn.
    destruct (decide (k = k')) as [<-|Hne].
    + rewrite lookup_insert_eq. destruct (db_broker_floors d !! k), (db_global_floor d); simpl; lia.
    + by rewrite lookup_insert_ne.
Qed.

Lemma appendEvent_extends d n e t d' q :
  appendOrderEventTx d n e t = Ok (d', q) -> extends d d' /\ q = db_autoincrement d + 1.
Proof.
  unfold appendOrderEventTx. case_if; [done|]. intros [= <- <-]. split; [|done].
  extends_cols; by apply prefix_app_r.
Qed.

Lemma appendEvents_extends d n events t d' qs :
  appendOrderEventsLoop d n events t = Ok (d', qs) -> extends d d'.
Proof.
  revert d n qs. induction events as [|e events IH]; intros d n qs Ha; simpl in Ha.
  { injection Ha as <- _. reflexivity. }
  ok_inv Ha. injection Ha as <- _. destruct a as [d1 q1], a0 as [d2 q2]. simpl in *.
  apply appendEvent_extends in Ha0 as [He _]. etrans; [exact He | by eapply IH].
Qed.

Lemma bindScopes_extends scopes d d' : bindScopes d scopes = Ok d' -> extends d d'.
Proof.
  unfold bindScopes.
  assert (Hgen : forall acc, fold_left (fun acc scope => let? d := acc in bindBrokerScopeTx d scope)
    scopes acc = Ok d' -> exists d0, acc = Ok d0 /\ extends d0 d').
  { induction scopes as [|x scopes IH]; intros acc Hacc; simpl in Hacc.
    - exists d'. split; [done | reflexivity].
    - apply IH in Hacc as (d1 & Hd1 & Hx). apply rbind_ok in Hd1 as (d0 & -> & Hb).
      exists d0. split; [done|]. etrans; [by eapply bindBrokerScopeTx_extends | done]. }
  intros Hb. apply Hgen in Hb as (d0 & [= <-] & Hx). done.
Qed.

Lemma casStateTx_extends d u now d' s :
  compareAndSwapStateTx d u now = Ok (d', s) -> extends d d'.
Proof.
  unfold compareAndSwapStateTx. case_if; [done|]. case_if; [done|]. case_if; [done|].
  destruct (db_documents d !! (cas_ScopeKey u, cas_Kind u)) as [doc|] eqn:Hl;
    (case_if; [|done]); intros [= <- _]; (split; cbn; try done; try lia);
    intros k x Hk; destruct (decide ((cas_ScopeKey u, cas_Kind u) = k)) as [<-|Hne];
    rewrite ?lookup_insert_eq, ?lookup_insert_ne by done;
    try (exists x; split; [done | lia]); [|congruence].
  eexists. split; [reflexivity|]. simpl. assert (x = doc) as -> by congruence. bool_hyps. lia.
Qed.

(** The validated request of a staged event. *)
Lemma stageValidate_floor request events :
  stageValidate request = Ok events ->
  0 <= Z.max (q_ReservedOrderID request) (q_RequestedOrderIDFloor request) /\
  0 <= q_ReservedOrderID request /\ events <> [].
Proof.
  unfold stageValidate. intros Hs. ok_inv Hs. bool_hyps. split_and!; [lia | lia |].
  injection Hs as <-. destruct (q_Events request) as [|e l]; [done|].
  simpl in Ha0. ok_inv Ha0. injection Ha0 as <-. done.
Qed.

Lemma stageTx_extends request events d d' r :
  0 <= Z.max (q_ReservedOrderID request) (q_RequestedOrderIDFloor request) ->
  stageTx request events d = Ok (d', r) -> extends d d'.
Proof.
  intros Hf. unfold stageTx. intros Hs. ok_inv Hs.
  apply bindBrokerScopeTx_extends in Ha.
  assert (Hx : extends a a0).
  { case_if_in Ha0; [by eapply consumeTokenTx_extends | injection Ha0 as <-; reflexivity]. }
  destruct (advanceOrderIDFloorsTx a0 _ _) as [d1 eff] eqn:Hfl.
  assert (Hx1 := advanceFloors_extends a0 (bs_ScopeKey (q_Scope request)) _ Hf).
  rewrite Hfl in Hx1. simpl in Hx1. ok_inv Hs. destruct a2 as [d2 qs].
  apply appendEvents_extends in Ha2. injection Hs as <- _.
  repeat (etrans; [eassumption|]). apply (advanceHeadTx_extends d2 (last_seq qs)).
Qed.

Lemma appendAtHeadTx_extends order n events d d' qs :
  appendAtHeadTx order n events d = Ok (d', qs) -> extends d d'.
Proof.
  unfold appendAtHeadTx. intros Hs. ok_inv Hs. injection Hs as <- _. destruct a1 as [d2 q2].
  apply bindScopes_extends in Ha0. apply appendEvents_extends in Ha1. simpl.
  etrans; [exact Ha0|]. etrans; [exact Ha1|]. apply advanceHeadTx_extends.
Qed.

Lemma casTx_extends u now d d' s : casTx u now d = Ok (d', s) -> extends d d'.
Proof.
  unfold casTx. intros Hs. ok_inv Hs. injection Hs as <- _. destruct a as [d1 s1].
  apply casStateTx_extends in Ha. etrans; [exact Ha | apply advanceHeadTx_extends].
Qed.

Lemma lifecycleTx_extends commit events now d d' r :
  lifecycleTx commit events now d = Ok (d', r) -> extends d d'.
Proof.
  unfold lifecycleTx. intros Hs. ok_inv Hs. destruct a0 as [d1 q1], a1 as [d2 s2]. simpl in *.
  injection Hs as <- _. apply bindBrokerScopeTx_extends in Ha. apply appendEvents_extends in Ha0.
  assert (Hx : extends d1 d2).
  { destruct (lc_State commit); [|injection Ha1 as <- _; reflexivity].
    ok_inv Ha1. destruct a0 as [d3 s3]. injection Ha1 as <- _. by eapply casStateTx_extends. }
  etrans; [exact Ha|]. etrans; [exact Ha0|]. etrans; [exact Hx|].
  apply (advanceHeadTx_extends d2 (last_seq q1)).
Qed.

Lemma advanceSignerTx_extends expected next d d' r :
  expected < next -> advanceSignerTx expected next d = Ok (d', r) -> extends d d'.
Proof.
  intros Hn. unfold advanceSignerTx. case_if; [done|]. intros [= <- _]. bool_hyps. extends_cols.
Qed.

Lemma initFreshTx_extends d d' r : initFreshTx d = Ok (d', r) -> extends d d'.
Proof.
  unfold initFreshTx. intros Hs. ok_inv Hs. injection Hs as <- _. apply orb_false_iff in Hg1 as [Hg1 _].
  set (d1 := d <| db_global_floor := Some 0 |> <| db_orders_imported := true |>).
  apply (extends_trans d d1); [|apply (advanceHeadTx_extends d1 0)]. extends_cols.
  unfold readGlobalFloor. destruct (db_global_floor d); [done | simpl; lia].
Qed.

(** ** Every operation *)

Lemma criticalMutation_extends {A} s f (fn : db -> cres (db * A)) :
  (forall d a, fn (st_db s) = Ok (d, a) -> extends (st_db s) d) ->
  extends (st_db s) (st_db (criticalMutation s f fn).1).
Proof.
  intros Hfn. destruct (criticalMutation_outcome s f fn); simpl; subst; eauto using extends_refl.
  rewrite H1. reflexivity.
Qed.

Lemma disable_db s c : st_db (disableTransientRecovery s c) = st_db s.
Proof. unfold disableTransientRecovery. by case_if. Qed.

Lemma recover_db s check f : st_db (RecoverTransientHeadWatermark s check f).1 = st_db s.
Proof.
  unfold RecoverTransientHeadWatermark. case_if; [done|]. case_if; [done|].
  destruct check as [| | |[]]; simpl; try apply disable_db; try done.
  destruct (ft_headRead f) as [| |[]]; simpl; try apply disable_db; try done.
  destruct (requireMinimumHead _ _); simpl; [by case_if | apply disable_db].
Qed.

Lemma step_extends s o : extends (st_db s) (st_db (step s o)).
Proof.
  destruct o; simpl.
  - unfold StagePreTransmit. destruct (stageValidate request) as [evs|] eqn:Hv; [|reflexivity].
    apply stageValidate_floor in Hv as [Hf _].
    apply criticalMutation_extends. intros d a Hd. by eapply stageTx_extends.
  - unfold appendOrderEventsAtHead. destruct events; [reflexivity|].
    destruct (validateEvents _); [|reflexivity].
    apply criticalMutation_extends. intros d qs Hd. by eapply appendAtHeadTx_extends.
  - unfold CommitLifecycle. destruct (let? _ := _ in _) as [evs|]; [|reflexivity].
    apply criticalMutation_extends. intros d r Hd. by eapply lifecycleTx_extends.
  - unfold CompareAndSwapStateDocument. destruct (validateStateCAS update); [|reflexivity].
    apply criticalMutation_extends. intros d r Hd. by eapply casTx_extends.
  - unfold AdvanceSignerGeneration. case_if; [reflexivity|]. bool_hyps.
    apply criticalMutation_extends. intros d r Hd. by eapply advanceSignerTx_extends.
  - apply criticalMutation_extends. intros d r Hd. by eapply initFreshTx_extends.
  - rewrite recover_db. reflexivity.
  - unfold LatchDamaged. rewrite latchHealth_db. reflexivity.
Qed.

Lemma run_extends ops s : extends (st_db s) (st_db (run s ops)).
Proof.
  revert s. induction ops as [|o ops IH]; intros s; [reflexivity|].
  etrans; [apply step_extends | apply IH].
Qed.

(** Whatever sequence of operations and faults the store goes through, its
    durable state only grows: the event log and the order projection are
    extended at the end, token tombstones and broker-scope bindings are kept,
    order-id floors, document revisions and all parts of the authority head
    never decrease, and the authority epoch never changes. *)
Theorem authority_state_only_grows s ops :
  let d := st_db s in
  let d' := st_db (run s ops) in
  db_log d `prefix_of` db_log d' /\ db_orders d `prefix_of` db_orders d' /\
  db_tokens d ⊆ db_tokens d' /\ db_scopes d ⊆ db_scopes d' /\
  readGlobalFloor d <= readGlobalFloor d' /\
  (forall k, readBrokerFloor d k <= readBrokerFloor d' k) /\
  (forall k doc, db_documents d !! k = Some doc ->
     exists doc', db_documents d' !! k = Some doc' /\ sd_Revision doc <= sd_Revision doc') /\
  ah_AuthorityEpoch (db_head d') = ah_AuthorityEpoch (db_head d) /\
  ah_HeadGeneration (db_head d) <= ah_HeadGeneration (db_head d') /\
  ah_LastEventSeq (db_head d) <= ah_LastEventSeq (db_head d') /\
  ah_SignerGeneration (db_head d) <= ah_SignerGeneration (db_head d').
Proof. intros d d'. destruct (run_extends ops s). by split_and!. Qed.

(** ** Staging *)

(** The parts of the database a staging transaction reads its verdicts from. *)
Lemma bindBrokerScopeTx_frame d scope d' :
  bindBrokerScopeTx d scope = Ok d' ->
  db_tokens d' = db_tokens d /\ db_global_floor d' = db_global_floor d /\ db_head d' = db_head d /\
  db_orders d' = db_orders d /\ db_log d' = db_log d /\ db_autoincrement d' = db_autoincrement d /\
  db_scopes d' !! bs_ScopeKey scope = Some scope.
Proof.
  unfold bindBrokerScopeTx. destruct (db_scopes d !! bs_ScopeKey scope) as [b|] eqn:Hl.
  - unfold sameScope. case_bool_decide; [|done]. intros [= <-]. subst. done.
  - case_if; [done|]. intros [= <-]. split_and!; try done. cbn. apply lookup_insert_eq.
Qed.

Lemma consumeTokenTx_frame d q d' :
  consumeTokenTx d q = Ok d' ->
  db_tokens d !! q_TokenDigest q = None /\ is_Some (db_tokens d' !! q_TokenDigest q) /\
  ah_AuthorityEpoch (db_head d) = q_AuthorityEpoch q /\
  ah_SignerGeneration (db_head d) = q_SignerGeneration q /\
  db_global_floor d' = db_global_floor d /\ db_head d' = db_head d /\ db_orders d' = db_orders d /\
  db_log d' = db_log d /\ db_autoincrement d' = db_autoincrement d /\ db_scopes d' = db_scopes d.
Proof.
  unfold consumeTokenTx. case_if; [done|]. bool_hyps.
  destruct (db_tokens d !! q_TokenDigest q) eqn:Hl; [done|]. simpl. intros [= <-].
  split_and!; try done. cbn. rewrite lookup_insert_eq. eauto.
Qed.

Lemma appendEvents_frame d n events t d' qs :
  appendOrderEventsLoop d n events t = Ok (d', qs) ->
  db_tokens d' = db_tokens d /\ db_global_floor d' = db_global_floor d /\
  db_head d' = db_head d /\ db_scopes d' = db_scopes d /\
  db_broker_floors d' = db_broker_floors d /\ db_documents d' = db_documents d.
Proof.
  revert d n qs. induction events as [|e events IH]; intros d n qs Ha; simpl in Ha.
  { by injection Ha as <- _. }
  ok_inv Ha. injection Ha as <- _. destruct a as [d1 q1], a0 as [d2 q2]. simpl in *.
  unfold appendOrderEventTx in Ha0. ok_inv Ha0. injection Ha0 as <- _.
  apply IH in Ha1. cbn in *. done.
Qed.

(** What a committed staging says about the token and the order id. *)
Lemma stageTx_effect request events d d' r :
  stageTx request events d = Ok (d', r) ->
  (zeroDigest (q_TokenDigest request) = false ->
     db_tokens d !! q_TokenDigest request = None /\ is_Some (db_tokens d' !! q_TokenDigest request) /\
     ah_AuthorityEpoch (db_head d) = q_AuthorityEpoch request /\
     ah_SignerGeneration (db_head d) = q_SignerGeneration request) /\
  (q_Action request = ActionPlace -> readGlobalFloor d < q_ReservedOrderID request) /\
  q_ReservedOrderID request <= readGlobalFloor d' /\
  pr_EffectiveOrderIDFloor r = readGlobalFloor d'.
Proof.
  unfold stageTx. intros Hs. ok_inv Hs. cbn [advanceOrderIDFloorsTx] in Hs.
  unfold advanceOrderIDFloorsTx in Hs. ok_inv Hs. destruct a2 as [d2 qs].
  injection Hs as <- <-. cbn [pr_EffectiveOrderIDFloor].
  apply bindBrokerScopeTx_frame in Ha as (Ht1 & Hg1 & Hh1 & _).
  apply appendEvents_frame in Ha2 as (Ht2 & Hg2 & _).
  unfold readGlobalFloor. cbn in Ht2, Hg2 |- *. rewrite Hg2, Ht2.
  destruct (negb (zeroDigest (q_TokenDigest request))) eqn:Hz.
  - apply consumeTokenTx_frame in Ha0 as (Hn & Hs1 & He & Hsg & Hg3 & _).
    unfold readGlobalFloor in Hg. rewrite Hg3, Hg1 in *. rewrite Ht1, Hh1 in *. split_and!; try done.
    + intros Hp. rewrite Hp in Hg. cbn in Hg. bool_hyps. done.
    + simpl. unfold upsertMax. destruct (db_global_floor d); simpl; lia.
  - injection Ha0 as <-. unfold readGlobalFloor in Hg. rewrite Hg1 in *. split_and!.
    + intros Hz'. rewrite Hz' in Hz. discriminate.
    + intros Hp. rewrite Hp in Hg. cbn in Hg. bool_hyps. done.
    + simpl. unfold upsertMax. destruct (db_global_floor d); simpl; lia.
    + done.
Qed.

(** A durable staging, whether or not it was reported as a success. *)
Lemma stage_committed s f request :
  st_db (StagePreTransmit s f request).1 <> st_db s \/ is_ok (StagePreTransmit s f request).2 = true ->
  exists events r,
    stageValidate request = Ok events /\
    stageTx request events (st_db s) = Ok (st_db (StagePreTransmit s f request).1, r).
Proof.
  unfold StagePreTransmit. destruct (stageValidate request) as [events|e] eqn:Hv; simpl;
    [|intros [? | ?]; done].
  intros Hc. exists events. destruct (criticalMutation_outcome s f (stageTx request events));
    simpl in *; subst; eauto; destruct Hc; done.
Qed.

Lemma stage_refused s f request :
  (forall events d r, stageTx request events (st_db s) <> Ok (d, r)) ->
  st_db (StagePreTransmit s f request).1 = st_db s /\
  exists e, (StagePreTransmit s f request).2 = Err e.
Proof.
  intros Hno. unfold StagePreTransmit. destruct (stageValidate request) as [events|e]; simpl; [|eauto].
  destruct (criticalMutation_outcome s f (stageTx request events)); simpl; eauto;
    exfalso; by eapply Hno.
Qed.

(** A preview token is spent at most once: after a staging that carried
    the token became durable (even one reported as failed because its
    watermark could not be persisted), every later staging with the same
    token is refused and changes nothing, across any operations, faults and
    recoveries in between. *)
Theorem preview_token_single_use s f request ops f' request' :
  st_db (StagePreTransmit s f request).1 <> st_db s ->
  zeroDigest (q_TokenDigest request) = false ->
  q_TokenDigest request' = q_TokenDigest request ->
  let s2 := run (StagePreTransmit s f request).1 ops in
  st_db (StagePreTransmit s2 f' request').1 = st_db s2 /\
  exists e, (StagePreTransmit s2 f' request').2 = Err e.
Proof.
  intros Hc Hz Hd s2.
  destruct (stage_committed s f request) as (events & r & _ & Htx); [by left|].
  apply stageTx_effect in Htx as [Htok _]. destruct (Htok Hz) as (_ & [row Hrow] & _).
  assert (Hin : db_tokens (st_db s2) !! q_TokenDigest request = Some row).
  { eapply lookup_weaken; [exact Hrow | apply run_extends]. }
  apply stage_refused. intros events' d' r' Htx'. apply stageTx_effect in Htx' as [Htok' _].
  rewrite Hd in Htok'. destruct (Htok' Hz) as [Hn _]. congruence.
Qed.

(** Broker order ids of staged placements strictly increase, across
    accounts, faults and recoveries: a placement that becomes durable after
    another one carries a larger id, and no id at or below the global floor
    is ever staged again. *)
Theorem placed_order_ids_strictly_increase s f request ops f' request' :
  st_db (StagePreTransmit s f request).1 <> st_db s ->
  q_Action request' = ActionPlace ->
  let s2 := run (StagePreTransmit s f request).1 ops in
  st_db (StagePreTransmit s2 f' request').1 <> st_db s2 ->
  q_ReservedOrderID request < q_ReservedOrderID request'.
Proof.
  intros Hc Hp s2 Hc2.
  destruct (stage_committed s f request) as (ev1 & r1 & _ & Htx1); [by left|].
  destruct (stage_committed s2 f' request') as (ev2 & r2 & _ & Htx2); [by left|].
  apply stageTx_effect in Htx1 as (_ & _ & Hle & _).
  apply stageTx_effect in Htx2 as (_ & Hlt & _). specialize (Hlt Hp).
  destruct (run_extends ops (StagePreTransmit s f request).1). unfold s2 in Hlt. lia.
Qed.

(** ** Atomicity and fail-closed health *)

(** C24. A mutation that reports an error left the durable state untouched, or
    its commit landed but could not be proven to the external watermark and
    the store refuses further writes; a mutation of a blocked store is refused
    outright. *)
Theorem failed_mutation_is_atomic_or_blocks {A} s f (fn : db -> cres (db * A)) :
  let r := criticalMutation s f fn in
  (is_ok r.2 = false -> st_db r.1 = st_db s \/ hl_Ready (st_health r.1) = false) /\
  (hl_Ready (st_health s) = false -> r = (s, Err ErrBlocked)).
Proof.
  intros r. unfold r. split.
  - destruct (criticalMutation_outcome s f fn); simpl; auto. done.
  - intros Hb. unfold criticalMutation. by rewrite Hb.
Qed.

Definition isRecover (o : op) : bool := match o with OpRecover _ _ => true | _ => false end.

Lemma blocked_step s o : hl_Ready (st_health s) = false -> isRecover o = false -> step s o = s.
Proof.
  intros Hb Hr.
  assert (Hcm : forall A f (fn : db -> cres (db * A)), criticalMutation s f fn = (s, Err ErrBlocked)).
  { intros A f fn. unfold criticalMutation. by rewrite Hb. }
  destruct o; simpl; try done.
  - unfold StagePreTransmit. destruct (stageValidate request); [by rewrite Hcm | done].
  - unfold appendOrderEventsAtHead. destruct events; [done|].
    destruct (validateEvents _); [by rewrite Hcm | done].
  - unfold CommitLifecycle. destruct (let? _ := _ in _); [by rewrite Hcm | done].
  - unfold CompareAndSwapStateDocument. destruct (validateStateCAS update); [by rewrite Hcm | done].
  - unfold AdvanceSignerGeneration. case_if; [done | by rewrite Hcm].
  - unfold InitializeFreshOrderAuthority. by rewrite Hcm.
  - by apply latchHealth_keeps.
Qed.

(** A latched store is frozen: until a recovery is attempted, no sequence
    of operations changes anything; and a recovery reopens writes only for a
    watermark latch that is still eligible, after the head was proven at least
    as new as the latch's floor, without changing the durable state. *)
Theorem latched_store_frozen_until_proven_recovery s ops check f :
  hl_Ready (st_health s) = false ->
  (Forall (fun o => isRecover o = false) ops -> run s ops = s) /\
  (let r := RecoverTransientHeadWatermark s check f in
   hl_Ready (st_health r.1) = true ->
   r.2 = Ok true /\ st_db r.1 = st_db s /\ check = IntegrityOK /\
   hl_Code (st_health s) = "head_watermark" /\ hl_RecoveryEligible (st_health s) = true /\
   ah_HeadGeneration (st_recoveryMinimumHead s) <= ah_HeadGeneration (db_head (st_db s)) /\
   ah_LastEventSeq (st_recoveryMinimumHead s) <= ah_LastEventSeq (db_head (st_db s)) /\
   st_lastObservedHead r.1 = db_head (st_db s)).
Proof.
  intros Hb. split.
  - intros Hops. unfold run. induction Hops as [|o ops Ho _ IH]; [done|]. simpl.
    by rewrite blocked_step.
  - intros r. unfold r, RecoverTransientHeadWatermark. rewrite Hb.
    assert (Hdis : forall c, hl_Ready (st_health (disableTransientRecovery s c)) = false).
    { intros c. unfold disableTransientRecovery. by rewrite Hb. }
    destruct ((hl_Code (st_health s) <>s "head_watermark") || _ || _) eqn:He; simpl;
      [by rewrite Hb|]. bool_hyps.
    destruct check as [| | |[c|]]; simpl; rewrite ?Hdis, ?Hb; try done.
    destruct (ft_headRead f) as [| |[c|]]; unfold disableTransientRecoveryForCritical; simpl;
      rewrite ?Hdis, ?Hb; try done.
    unfold requireMinimumHead. destruct (_ && _); simpl; [by rewrite Hdis|].
    destruct (_ || _) eqn:Hm; simpl; [by rewrite Hdis|].
    destruct (ft_observer_fails f); simpl; [by rewrite Hb|]. intros _. bool_hyps. done.
Qed.
End Facts.

(** ** A concrete store *)

(** A stand-in environment: the digest is the text itself, every non-empty
    payload is valid, and a payload decodes to a cancel attempt of that name. *)
Definition env_ex : CoreEnv := {|
  sha256 := fun s => s;
  json_valid := fun s => s <>s "";
  sql_json_valid := fun s => s <>s "";
  unmarshal_cancel := fun s => (true, mkCancelPayload "cancel-requested" s ActionCancel "")
|}.
#[local] Existing Instance env_ex.

Definition bscope_ex : BrokerScope := mkBrokerScope "gw|15|DU123|paper" "127.0.0.1:4002" 15 "DU123" "paper".
Definition fresh_db : db := mkDb (mkHead "epoch-1" 0 0 1) 0 [] [] ∅ None ∅ ∅ false ∅.
Definition ready_store : store :=
  mkStore fresh_db (mkStoreHealth true "" false) zero_AuthorityHead (mkHead "epoch-1" 0 0 1) true.
Definition record_ex (key token : string) (id : Z) : OrderEventRecord :=
  mkOrderEventRecord 0 zero_BrokerScope key 1700000000000 "send-attempted" "" "" "canary-1" token id 0 "" "{}".
Definition place_ex (key token : string) (id : Z) : PreTransmitRequest :=
  mkPreTransmit bscope_ex token "epoch-1" 1 0 id None ActionPlace OriginHumanCLI [record_ex key token id].

Lemma db_neq_by_generation d d' :
  ah_HeadGeneration (db_head d) <> ah_HeadGeneration (db_head d') -> d <> d'.
Proof. congruence. Qed.

(** The watermark fails: the staging is durable although it reports an error. *)
Lemma preview_token_single_use_witness :
  let s1 := (StagePreTransmit ready_store (mkFaults None None None HeadOK true)
               (place_ex "k1" "tok" 41)).1 in
  let s2 := run s1 [OpRecover IntegrityOK no_faults] in
  st_db (StagePreTransmit s2 no_faults (place_ex "k2" "tok" 42)).1 = st_db s2 /\
  exists e, (StagePreTransmit s2 no_faults (place_ex "k2" "tok" 42)).2 = Err e.
Proof.
  apply (preview_token_single_use ready_store (mkFaults None None None HeadOK true)
           (place_ex "k1" "tok" 41) [OpRecover IntegrityOK no_faults] no_faults (place_ex "k2" "tok" 42)).
  - apply db_neq_by_generation. vm_compute. discriminate.
  - vm_compute. reflexivity.
  - vm_compute. reflexivity.
Defined.

Lemma placed_order_ids_strictly_increase_witness : 41 < 42.
Proof.
  apply (placed_order_ids_strictly_increase ready_store no_faults (place_ex "k1" "tok" 41) []
           no_faults (place_ex "k2" "tok2" 42)).
  - apply db_neq_by_generation. vm_compute. discriminate.
  - reflexivity.
  - apply db_neq_by_generation. vm_compute. discriminate.
Defined.

Lemma latched_store_frozen_until_proven_recovery_witness :
  let s1 := (StagePreTransmit ready_store (mkFaults None None None HeadOK true)
               (place_ex "k1" "tok" 41)).1 in
  run s1 [OpStage no_faults (place_ex "k3" "tok3" 43)] = s1 /\
  hl_Ready (st_health (RecoverTransientHeadWatermark s1 IntegrityOK no_faults).1) = true.
Proof.
  split; [|vm_compute; reflexivity].
  apply (latched_store_frozen_until_proven_recovery
    (StagePreTransmit ready_store (mkFaults None None None HeadOK true) (place_ex "k1" "tok" 41)).1
    [OpStage no_faults (place_ex "k3" "tok3" 43)] IntegrityOK no_faults).
  - vm_compute. reflexivity.
  - repeat constructor.
Defined.
