(* ===== verification/CoreStoreLog.v ===== *)
(** * The event log: sequence numbers, order, and the append/load round trip

    Over the store of [CoreStoreOps] (src/internal/daemon/corestore/orders.go):
    the well-formedness invariant that ties the event log, its order projection,
    the bound scopes and the authority head together, kept by every operation;
    compare-and-append at the head; and the cursor read that returns what was
    appended. *)

From stdpp Require Import base decidable list strings gmap sorting.
From Stdlib Require Import ZArith Lia String Ascii.
From S2P Require Import Prelude OrderTypes OrderKeys CoreStore CoreStoreOps CoreStoreFacts.

Section Log.
Context `{CoreEnv}.

(** The rows a batch adds after sequence number [seq]. *)
Fixpoint newLogRows (seq : Z) (events : list OrderEventRecord) : list logRow :=
  match events with
  | [] => []
  | e :: rest =>
      mkLogRow (seq + 1) (bs_ScopeKey (r_Scope e)) (r_EventKey e) (r_Type e) (r_Action e) (r_Origin e)
        (r_AtMS e) (r_RawJSON e) (sha256 (r_RawJSON e)) :: newLogRows (seq + 1) rest
  end.

Fixpoint newOrderRows (seq ordinal : Z) (events : list OrderEventRecord) (t : option string)
    : list orderRow :=
  match events with
  | [] => []
  | e :: rest =>
      mkOrderRow (seq + 1) (bs_ScopeKey (r_Scope e)) ordinal (r_Type e) (nullableString (r_OrderRef e))
        (nullableString (r_PreviewTokenID e)) (nullablePositive (r_ReservedOrderID e))
        (nullablePositive (r_PermID e)) (nullableString (r_Status e)) t
      :: newOrderRows (seq + 1) (ordinal + 1) rest t
  end.

Fixpoint newSeqs (seq : Z) (events : list OrderEventRecord) : list Z :=
  match events with [] => [] | _ :: rest => (seq + 1) :: newSeqs (seq + 1) rest end.

Lemma append_rows d n events t d' qs :
  appendOrderEventsLoop d n events t = Ok (d', qs) ->
  db_log d' = db_log d ++ newLogRows (db_autoincrement d) events /\
  db_orders d' = db_orders d ++ newOrderRows (db_autoincrement d) n events t /\
  db_autoincrement d' = db_autoincrement d + Z.of_nat (List.length events) /\
  qs = newSeqs (db_autoincrement d) events.
Proof.
  revert d n qs. induction events as [|e events IH]; intros d n qs Ha; simpl in Ha.
  { injection Ha as <- <-. rewrite !List.app_nil_r. split_and!; try done. simpl. lia. }
  ok_inv Ha. injection Ha as <- <-. destruct a as [d1 q1], a0 as [d2 q2]. simpl in *.
  unfold appendOrderEventTx in Ha0. ok_inv Ha0. injection Ha0 as <- <-.
  apply IH in Ha1 as (Hl & Ho & Hn & Hq). cbn [db_log db_orders db_autoincrement set_field] in *.
  rewrite Hl, Ho, Hq, <- !List.app_assoc. split_and!; try done. rewrite Hn. simpl. lia.
Qed.

Lemma last_newSeqs seq e events :
  last_seq (newSeqs seq (e :: events)) = seq + Z.of_nat (S (List.length events)).
Proof.
  revert seq e. induction events as [|e' events IH]; intros seq e; [cbn; lia|].
  change (newSeqs seq (e :: e' :: events)) with ((seq + 1) :: newSeqs (seq + 1) (e' :: events)).
  unfold last_seq in *. change (last (?x :: newSeqs ?s (?a :: ?l))) with (last (newSeqs s (a :: l))).
  rewrite IH. simpl. lia.
Qed.

Lemma newLogRows_bounds seq events :
  Forall (fun l => seq < log_seq l <= seq + Z.of_nat (List.length events)) (newLogRows seq events) /\
  StronglySorted Z.lt (log_seq <$> newLogRows seq events).
Proof.
  revert seq. induction events as [|e events IH]; intros seq; [split; constructor|].
  destruct (IH (seq + 1)) as [Hb Hs]. cbn [newLogRows]. split.
  - constructor; [simpl; lia|]. eapply Forall_impl; [exact Hb|]. simpl. intros; lia.
  - simpl. constructor; [done|]. apply Forall_fmap. eapply Forall_impl; [exact Hb|]. simpl. intros; lia.
Qed.

(** An order row and the log row of the same event. *)
Definition paired (r : orderRow) (l : logRow) : Prop :=
  log_seq l = row_seq r /\ log_scope_key l = row_scope_key r /\ log_event_type l = row_type r.

Lemma new_rows_paired seq n events t :
  Forall2 paired (newOrderRows seq n events t) (newLogRows seq events).
Proof.
  revert seq n. induction events as [|e events IH]; intros seq n; simpl; constructor; [done | apply IH].
Qed.

(** ** Well-formed authorities *)

Record db_wf (d : db) : Prop := {
  wf_auto : 0 <= db_autoincrement d;
  wf_head : ah_LastEventSeq (db_head d) = db_autoincrement d;
  wf_log_bound : Forall (fun l => 0 < log_seq l <= db_autoincrement d) (db_log d);
  wf_log_sorted : StronglySorted Z.lt (log_seq <$> db_log d);
  wf_paired : Forall2 paired (db_orders d) (db_log d);
  wf_scoped : Forall (fun r => is_Some (db_scopes d !! row_scope_key r)) (db_orders d)
}.

Lemma db_wf_frame d d' :
  db_wf d -> db_autoincrement d' = db_autoincrement d -> db_log d' = db_log d ->
  db_orders d' = db_orders d -> ah_LastEventSeq (db_head d') = ah_LastEventSeq (db_head d) ->
  db_scopes d ⊆ db_scopes d' -> db_wf d'.
Proof.
  intros [] Ha Hl Ho Hh Hs. split; rewrite ?Ha, ?Hl, ?Ho, ?Hh; try done.
  eapply Forall_impl; [exact wf_scoped0|]. intros r [sc Hsc]. exists sc. by eapply lookup_weaken.
Qed.

Lemma StronglySorted_app_lt (l1 l2 : list Z) m :
  StronglySorted Z.lt l1 -> StronglySorted Z.lt l2 -> Forall (fun x => x <= m) l1 ->
  Forall (fun x => m < x) l2 -> StronglySorted Z.lt (l1 ++ l2).
Proof.
  intros H1 H2 Hb1 Hb2. induction H1 as [|x l1 H1 IH Hx]; [done|]. simpl.
  apply Forall_cons in Hb1 as [Hxm Hb1]. constructor; [by apply IH|].
  apply Forall_app. split; [done|]. eapply Forall_impl; [exact Hb2|]. simpl. intros; lia.
Qed.

(** Appending a batch and advancing the head to its last sequence number. *)
Lemma append_batch_wf d n e events t d' qs :
  db_wf d -> Forall (fun ev => is_Some (db_scopes d !! bs_ScopeKey (r_Scope ev))) (e :: events) ->
  appendOrderEventsLoop d n (e :: events) t = Ok (d', qs) ->
  db_wf (advanceHeadTx d' (last_seq qs)).1.
Proof.
  intros [Ha Hh Hb Hs Hp Hsc] Hev Happ.
  assert (Hfr := appendEvents_frame _ _ _ _ _ _ Happ). destruct Hfr as (_ & _ & Hhd & Hscd & _).
  apply append_rows in Happ as (Hl & Ho & Hn & ->).
  destruct (newLogRows_bounds (db_autoincrement d) (e :: events)) as [Hnb Hns].
  split; cbn [advanceHeadTx fst db_head db_autoincrement db_log db_orders db_scopes set_field
              ah_LastEventSeq].
  - lia.
  - rewrite Hhd, Hh, Hn, last_newSeqs. simpl List.length. case_if; bool_hyps; lia.
  - rewrite Hl. apply Forall_app. split; (eapply Forall_impl; [eassumption|]); unfold compose; cbn beta; intros; lia.
  - rewrite Hl, fmap_app. apply (StronglySorted_app_lt _ _ (db_autoincrement d)); [done | done | |];
      apply Forall_fmap; (eapply Forall_impl; [eassumption|]); unfold compose; cbn beta; intros; lia.
  - rewrite Hl, Ho. apply Forall2_app; [done | apply new_rows_paired].
  - rewrite Ho, Hscd. apply Forall_app. split; [done|].
    clear -Hev. revert n. generalize (db_autoincrement d) as q.
    induction Hev as [|x l Hx _ IH]; intros q n; simpl; constructor; [done | apply IH].
Qed.

(** ** The scopes of a batch are bound before it is appended *)

Lemma stageEvents_scope request hasToken events b out b' :
  stageEvents request hasToken events b = Ok (out, b') ->
  Forall (fun ev => r_Scope ev = q_Scope request) out.
Proof.
  revert b out b'. induction events as [|e events IH]; intros b out b' Hs; simpl in Hs.
  { injection Hs as <- _. constructor. }
  ok_inv Hs. injection Hs as <- _. destruct a as [e1 n1], a0 as [out2 b2]. simpl in *.
  constructor; [|by eapply IH]. clear Ha0 IH.
  unfold stageEvent in Ha. apply rbind_ok in Ha as (e0 & He0 & Ha).
  assert (Hsc : r_Scope e0 = q_Scope request).
  { case_if_in He0; [by injection He0 as <-|]. unfold sameScope in He0.
    case_bool_decide; [|done]. by injection He0 as <-. }
  cbv zeta in Ha. ok_inv Ha. injection Ha as <- _. by repeat case_if.
Qed.

Lemma stageValidate_scope request events :
  stageValidate request = Ok events -> Forall (fun ev => r_Scope ev = q_Scope request) events.
Proof.
  unfold stageValidate. intros Hs. ok_inv Hs. injection Hs as <-. destruct a0 as [out b].
  by eapply stageEvents_scope.
Qed.

Lemma lifecycleEvents_scope commit events :
  lifecycleEvents commit = Ok events -> Forall (fun ev => r_Scope ev = lc_Scope commit) events.
Proof.
  unfold lifecycleEvents. revert events. induction (lc_Events commit) as [|e l IH]; intros events Hs;
    simpl in Hs; [injection Hs as <-; constructor|].
  ok_inv Hs. injection Hs as <-. constructor; [|by apply IH].
  unfold sameScope in Hg. by case_bool_decide.
Qed.

Definition order_ok (order : gmap string BrokerScope -> list BrokerScope) : Prop :=
  forall m, order m ≡ₚ (map_to_list m).*2.

Lemma collectScopes_spec events seen :
  collectScopes events = Ok seen ->
  Forall (fun ev => seen !! bs_ScopeKey (r_Scope ev) = Some (r_Scope ev)) events.
Proof.
  unfold collectScopes. generalize (∅ : gmap string BrokerScope) as m0. revert seen.
  induction events as [|e events IH] using rev_ind; intros seen m0; [constructor|].
  rewrite fold_left_app. simpl. intros Hs. apply rbind_ok in Hs as (m1 & Hm1 & Hs).
  apply IH in Hm1. clear IH.
  assert (Hm : seen = <[bs_ScopeKey (r_Scope e) := r_Scope e]> m1 /\
               forall prior, m1 !! bs_ScopeKey (r_Scope e) = Some prior -> prior = r_Scope e).
  { destruct (m1 !! bs_ScopeKey (r_Scope e)) as [prior|]; [|by injection Hs as <-].
    unfold sameScope in Hs. case_bool_decide; [|done]. injection Hs as <-.
    split; [done|]. by intros ? [= <-]. }
  destruct Hm as [-> Hprior]. apply Forall_app. split.
  - eapply Forall_impl; [exact Hm1|]. simpl. intros x Hx.
    destruct (decide (bs_ScopeKey (r_Scope e) = bs_ScopeKey (r_Scope x))) as [E|E].
    + rewrite E, lookup_insert_eq. rewrite <- E in Hx. by rewrite (Hprior _ Hx).
    + by rewrite lookup_insert_ne.
  - constructor; [|constructor]. apply lookup_insert_eq.
Qed.

Lemma bindScopes_bound scopes d d' sc :
  bindScopes d scopes = Ok d' -> sc ∈ scopes -> db_scopes d' !! bs_ScopeKey sc = Some sc.
Proof.
  intros Hb Hin. apply list_elem_of_split in Hin as (l1 & l2 & ->). revert Hb.
  unfold bindScopes. rewrite fold_left_app. simpl.
  set (acc := fold_left _ l1 (Ok d)). intros Hb.
  destruct (let? d0 := acc in bindBrokerScopeTx d0 sc) as [d1|] eqn:Hd1.
  - apply rbind_ok in Hd1 as (d0 & _ & Hd1). apply bindBrokerScopeTx_frame in Hd1 as (_ & _ & _ & _ & _ & _ & Hl).
    eapply lookup_weaken; [exact Hl | by eapply (bindScopes_extends l2)].
  - exfalso. clear -Hb. induction l2; simpl in Hb; [discriminate | by apply IHl2].
Qed.

Lemma bindScopes_frame scopes d d' :
  bindScopes d scopes = Ok d' ->
  db_orders d' = db_orders d /\ db_log d' = db_log d /\ db_autoincrement d' = db_autoincrement d /\
  db_head d' = db_head d.
Proof.
  unfold bindScopes.
  assert (Hgen : forall acc, fold_left (fun acc scope => let? d := acc in bindBrokerScopeTx d scope)
    scopes acc = Ok d' -> exists d0, acc = Ok d0 /\ db_orders d' = db_orders d0 /\
      db_log d' = db_log d0 /\ db_autoincrement d' = db_autoincrement d0 /\ db_head d' = db_head d0).
  { induction scopes as [|x scopes IH]; intros acc Hacc; simpl in Hacc; [by exists d'|].
    apply IH in Hacc as (d1 & Hd1 & Hx). apply rbind_ok in Hd1 as (d0 & -> & Hb).
    apply bindBrokerScopeTx_frame in Hb as (_ & _ & H1 & H2 & H3 & H4 & _).
    exists d0. split; [done|]. by rewrite <- H1, <- H2, <- H3, <- H4. }
  intros Hb. apply Hgen in Hb as (d0 & [= <-] & Hx). done.
Qed.

(** ** Preservation *)

Lemma stageTx_wf request events d d' r :
  Forall (fun ev => r_Scope ev = q_Scope request) events -> events <> [] ->
  0 <= Z.max (q_ReservedOrderID request) (q_RequestedOrderIDFloor request) ->
  db_wf d -> stageTx request events d = Ok (d', r) -> db_wf d'.
Proof.
  intros Hev Hne Hf Hwf. unfold stageTx. intros Hs. ok_inv Hs.
  unfold advanceOrderIDFloorsTx in Hs. ok_inv Hs. destruct a2 as [d2 qs]. injection Hs as <- _.
  assert (Hx1 := bindBrokerScopeTx_extends _ _ _ Ha).
  apply bindBrokerScopeTx_frame in Ha as (_ & _ & Hh1 & Ho1 & Hl1 & Ha1' & Hsc).
  assert (Hmid : db_wf a0 /\ db_scopes a0 = db_scopes a).
  { assert (Hwa : db_wf a).
    { eapply db_wf_frame; [exact Hwf | done | done | done | by rewrite Hh1 | apply Hx1]. }
    case_if_in Ha0; [|by injection Ha0 as <-].
    apply consumeTokenTx_frame in Ha0 as (_ & _ & _ & _ & _ & Hh2 & Ho2 & Hl2 & Ha2' & Hs2).
    split; [|done]. eapply db_wf_frame; [exact Hwa | done | done | done | by rewrite Hh2 | by rewrite Hs2]. }
  destruct Hmid as [Hw0 Hs0]. destruct events as [|e events]; [done|].
  unfold appendOrderEventsTx in Ha2. eapply append_batch_wf; [| |exact Ha2].
  - eapply db_wf_frame; [exact Hw0 | done | done | done | done | done].
  - eapply Forall_impl; [exact Hev|]. simpl. intros x ->. cbn. rewrite Hs0, Hsc. eauto.
Qed.

Lemma appendAtHeadTx_wf order n e events d d' qs :
  order_ok order -> db_wf d -> appendAtHeadTx order n (e :: events) d = Ok (d', qs) -> db_wf d'.
Proof.
  intros Hord Hwf. unfold appendAtHeadTx. intros Hs. ok_inv Hs. injection Hs as <- _.
  destruct a1 as [d2 q2]. assert (Hx := bindScopes_extends _ _ _ Ha0).
  assert (Hfr := bindScopes_frame _ _ _ Ha0). destruct Hfr as (Ho & Hl & Ha' & Hh).
  eapply append_batch_wf; [| |exact Ha1].
  - eapply db_wf_frame; [exact Hwf | done | done | done | by rewrite Hh | apply Hx].
  - apply collectScopes_spec in Ha. eapply Forall_impl; [exact Ha|]. cbn beta. intros x Hx'.
    exists (r_Scope x). eapply bindScopes_bound; [exact Ha0|]. rewrite (Hord a).
    apply list_elem_of_fmap. exists (bs_ScopeKey (r_Scope x), r_Scope x). split; [done|].
    by apply elem_of_map_to_list.
Qed.

Lemma casState_frame d u now d' s :
  compareAndSwapStateTx d u now = Ok (d', s) ->
  db_orders d' = db_orders d /\ db_log d' = db_log d /\ db_autoincrement d' = db_autoincrement d /\
  db_head d' = db_head d /\ db_scopes d' = db_scopes d.
Proof.
  unfold compareAndSwapStateTx. case_if; [done|]. case_if; [done|]. case_if; [done|].
  destruct (db_documents d !! _); (case_if; [|done]); intros [= <- _]; done.
Qed.

Lemma advance_zero_wf d : db_wf d -> db_wf (advanceHeadTx d 0).1.
Proof.
  intros Hwf. eapply db_wf_frame; [exact Hwf | done | done | done | | done].
  destruct Hwf. cbn. case_if; [|done]. bool_hyps. lia.
Qed.

Lemma lifecycleTx_wf commit events now d d' r :
  Forall (fun ev => r_Scope ev = lc_Scope commit) events -> events <> [] ->
  db_wf d -> lifecycleTx commit events now d = Ok (d', r) -> db_wf d'.
Proof.
  intros Hev Hne Hwf. unfold lifecycleTx. intros Hs. ok_inv Hs.
  destruct a0 as [d1 q1], a1 as [d2 s2]. simpl in *. injection Hs as <- _.
  assert (Hx := bindBrokerScopeTx_extends _ _ _ Ha).
  apply bindBrokerScopeTx_frame in Ha as (_ & _ & Hh1 & Ho1 & Hl1 & Ha1' & Hsc).
  assert (Hwa : db_wf a).
  { eapply db_wf_frame; [exact Hwf | done | done | done | by rewrite Hh1 | apply Hx]. }
  destruct events as [|e events]; [done|].
  assert (Hw1 : db_wf (advanceHeadTx d1 (last_seq q1)).1).
  { eapply append_batch_wf; [exact Hwa | | exact Ha0].
    eapply Forall_impl; [exact Hev|]. simpl. intros x ->. eauto. }
  assert (Hfr : db_orders d2 = db_orders d1 /\ db_log d2 = db_log d1 /\
    db_autoincrement d2 = db_autoincrement d1 /\ db_head d2 = db_head d1 /\ db_scopes d2 = db_scopes d1).
  { destruct (lc_State commit); [|by injection Ha1 as <- _].
    ok_inv Ha1. destruct a0 as [d3 s3]. injection Ha1 as <- _. by eapply casState_frame. }
  destruct Hfr as (H1 & H2 & H3 & H4 & H5).
  eapply (db_wf_frame _ _ Hw1); cbn; [done | done | done | by rewrite H4 | by rewrite H5].
Qed.

Definition op_ok (o : op) : Prop := match o with OpAppend _ order _ _ => order_ok order | _ => True end.

Lemma criticalMutation_wf {A} s f (fn : db -> cres (db * A)) :
  db_wf (st_db s) -> (forall d a, fn (st_db s) = Ok (d, a) -> db_wf d) ->
  db_wf (st_db (criticalMutation s f fn).1).
Proof.
  intros Hw Hfn. destruct (criticalMutation_outcome s f fn) as [|s' e ? Hd| | ];
    cbn [fst]; subst; eauto. by rewrite Hd.
Qed.

Lemma step_wf s o : op_ok o -> db_wf (st_db s) -> db_wf (st_db (step s o)).
Proof.
  intros Hop Hw. destruct o; simpl.
  - unfold StagePreTransmit. destruct (stageValidate request) as [evs|] eqn:Hv; [|done].
    assert (Hsc := stageValidate_scope _ _ Hv). apply stageValidate_floor in Hv as (Hf & _ & Hne).
    apply criticalMutation_wf; [done|]. intros d r Hd. by eapply stageTx_wf.
  - unfold appendOrderEventsAtHead. destruct events as [|e events]; [done|].
    destruct (validateEvents _); [|done].
    apply criticalMutation_wf; [done|]. intros d qs Hd. by eapply appendAtHeadTx_wf.
  - unfold CommitLifecycle. destruct (let? _ := _ in _) as [evs|] eqn:Hv; [|done].
    apply criticalMutation_wf; [done|]. intros d r Hd.
    ok_inv Hv. injection Hv as <-. assert (Hsc := lifecycleEvents_scope _ _ Ha1).
    eapply lifecycleTx_wf; [done | | done | done]. intros ->.
    unfold lifecycleEvents in Ha1. destruct (lc_Events commit) as [|e l]; [done|].
    simpl in Ha1. ok_inv Ha1. discriminate Ha1.
  - unfold CompareAndSwapStateDocument. destruct (validateStateCAS update); [|done].
    apply criticalMutation_wf; [done|]. intros d r Hd. unfold casTx in Hd. ok_inv Hd.
    injection Hd as <- _. destruct a0 as [d1 s1].
    apply casState_frame in Ha as (H1 & H2 & H3 & H4 & H5). apply advance_zero_wf. simpl.
    eapply db_wf_frame; [exact Hw | done | done | done | by rewrite H4 | by rewrite H5].
  - unfold AdvanceSignerGeneration. case_if; [done|].
    apply criticalMutation_wf; [done|]. intros d r Hd. unfold advanceSignerTx in Hd. ok_inv Hd.
    injection Hd as <- _. by eapply db_wf_frame.
  - apply criticalMutation_wf; [done|]. intros d r Hd. unfold initFreshTx in Hd. ok_inv Hd.
    injection Hd as <- _. eapply db_wf_frame; [exact Hw | done | done | done | | done].
    destruct Hw. cbn. case_if; [|done]. bool_hyps. lia.
  - by rewrite recover_db.
  - unfold LatchDamaged. by rewrite latchHealth_db.
Qed.

Lemma run_wf ops s : Forall op_ok ops -> db_wf (st_db s) -> db_wf (st_db (run s ops)).
Proof.
  intros Hops. revert s. unfold run. induction Hops as [|o ops Ho _ IH]; intros s Hw; [done|].
  simpl. by apply IH, step_wf.
Qed.

(** Event sequence numbers are a total order of the journal: in every
    store reachable from a well-formed one they are positive and strictly
    increasing in log order, the order projection pairs with the log row by
    row, every row's broker scope is bound, and the authority head is exactly
    the last sequence number assigned. *)
Theorem event_sequence_numbers_strictly_increase s ops :
  db_wf (st_db s) -> Forall op_ok ops ->
  let d := st_db (run s ops) in
  StronglySorted Z.lt (log_seq <$> db_log d) /\
  Forall (fun l => 0 < log_seq l <= ah_LastEventSeq (db_head d)) (db_log d) /\
  Forall2 paired (db_orders d) (db_log d) /\
  Forall (fun r => is_Some (db_scopes d !! row_scope_key r)) (db_orders d) /\
  ah_LastEventSeq (db_head d) = db_autoincrement d.
Proof.
  intros Hw Hops d. assert (Hd := run_wf ops s Hops Hw). fold d in Hd. clearbody d.
  destruct Hd as [? Hh ? ? ? ?]. split_and!; try done. by rewrite Hh.
Qed.

(** ** Compare-and-append at the head *)

Lemma append_at_head_tx order s f expected events s' qs :
  AppendOrderEventsAtHead order s f expected events = (s', Ok qs) ->
  0 <= expected /\ events <> [] /\
  appendAtHeadTx order expected events (st_db s) = Ok (st_db s', qs).
Proof.
  unfold AppendOrderEventsAtHead, appendOrderEventsAtHead.
  destruct (expected <? 0) eqn:Hneg; [done|]. bool_hyps.
  destruct events as [|e events]; [done|]. destruct (validateEvents _); [|done]. intros Hr.
  assert (Ho := criticalMutation_outcome s f (appendAtHeadTx order expected (e :: events))).
  rewrite Hr in Ho. inversion Ho; subst. done.
Qed.

Lemma append_at_head_facts order expected events d d' qs :
  db_wf d -> 0 <= expected -> events <> [] -> appendAtHeadTx order expected events d = Ok (d', qs) ->
  ah_LastEventSeq (db_head d) = expected /\ qs = newSeqs expected events /\
  db_orders d' = db_orders d ++ newOrderRows expected 0 events None /\
  db_log d' = db_log d ++ newLogRows expected events /\
  ah_LastEventSeq (db_head d') = expected + Z.of_nat (List.length events) /\
  (order_ok order ->
     Forall (fun e => db_scopes d' !! bs_ScopeKey (r_Scope e) = Some (r_Scope e)) events).
Proof.
  intros Hw Hneg Hne. unfold appendAtHeadTx. intros Htx. ok_inv Htx.
  assert (Hexp : ah_LastEventSeq (db_head d) = expected).
  { destruct (0 <=? expected) eqn:E; bool_hyps; [|lia]. cbn in Hg. by bool_hyps. }
  destruct a1 as [d2 q2]. injection Htx as <- <-.
  assert (Hfr := bindScopes_frame _ _ _ Ha0). destruct Hfr as (Ho & Hl & Ha' & Hh').
  assert (Hfr := appendEvents_frame _ _ _ _ _ _ Ha1). destruct Hfr as (_ & _ & Hhd & Hs & _).
  apply append_rows in Ha1 as (Hl2 & Ho2 & Hn2 & Hq2).
  assert (Hauto : db_autoincrement a0 = expected) by (rewrite Ha', <- Hexp; by destruct Hw).
  rewrite Hauto in *. cbn. rewrite Ho2, Hl2, Hhd, Hh', Hexp, Ho, Hl, Hs. split_and!; try done.
  - destruct events as [|e events]; [done|]. rewrite Hq2, last_newSeqs. cbn [List.length].
    case_if; bool_hyps; lia.
  - intros Hord. apply collectScopes_spec in Ha. eapply Forall_impl; [exact Ha|]. cbn beta.
    intros x Hx. eapply bindScopes_bound; [exact Ha0|]. rewrite (Hord a).
    apply list_elem_of_fmap. exists (bs_ScopeKey (r_Scope x), r_Scope x). split; [done|].
    by apply elem_of_map_to_list.
Qed.

(** Reconciliation appends against the head it read: a compare-and-append
    that succeeds found the authority head exactly where the caller left it,
    so no event was journaled in between, and it adds exactly the caller's
    events, in order, under consecutive new sequence numbers. *)
Theorem append_at_head_is_compare_and_append order s f expected events s' qs :
  db_wf (st_db s) -> AppendOrderEventsAtHead order s f expected events = (s', Ok qs) ->
  let d := st_db s in
  ah_LastEventSeq (db_head d) = expected /\
  qs = newSeqs expected events /\
  db_orders (st_db s') = db_orders d ++ newOrderRows expected 0 events None /\
  db_log (st_db s') = db_log d ++ newLogRows expected events /\
  ah_LastEventSeq (db_head (st_db s')) = expected + Z.of_nat (List.length events).
Proof.
  intros Hw Hr d. apply append_at_head_tx in Hr as (Hn & Hne & Htx).
  destruct (append_at_head_facts _ _ _ _ _ _ Hw Hn Hne Htx) as (H1 & H2 & H3 & H4 & H5 & _).
  by split_and!.
Qed.

(** ** Append, then load *)

Lemma find_by_seq (log : list logRow) l :
  StronglySorted Z.lt (log_seq <$> log) -> l ∈ log ->
  List.find (fun x => log_seq x =? log_seq l) log = Some l.
Proof.
  induction log as [|x log IH]; intros Hs Hin; [by apply not_elem_of_nil in Hin|].
  rewrite fmap_cons in Hs. cbn [List.find].
  apply StronglySorted_inv in Hs as [Hs Hx]. apply elem_of_cons in Hin as [->|Hin].
  - by rewrite Z.eqb_refl.
  - assert (Hlt : log_seq x < log_seq l).
    { rewrite Forall_forall in Hx. apply Hx, list_elem_of_fmap. eauto. }
    destruct (log_seq x =? log_seq l) eqn:E; bool_hyps; [lia|]. by apply IH.
Qed.

Lemma joinLog_paired d rows logs :
  StronglySorted Z.lt (log_seq <$> db_log d) -> Forall2 paired rows logs ->
  Forall (fun l => l ∈ db_log d) logs -> joinLog d rows = zip rows logs.
Proof.
  intros Hs Hp. unfold joinLog. induction Hp as [|r l rows logs [Hseq _] _ IH]; intros Hin; [done|].
  apply Forall_cons in Hin as [Hl Hin]. rewrite omap_cons_eq, <- Hseq, find_by_seq by done.
  by rewrite IH.
Qed.

Definition stamped (seq : Z) (e : OrderEventRecord) : OrderEventRecord := e <| r_EventSeq := seq |>.

Lemma default_nullableString s : default "" (nullableString s) = s.
Proof. unfold nullableString. case_if; [|done]. by bool_hyps. Qed.

Lemma default_nullablePositive n : default 0 (nullablePositive n) = n.
Proof. unfold nullablePositive. case_if; [|done]. by bool_hyps. Qed.

(** The scanned rows of a batch are the batch. *)
Lemma load_new_rows d q seq n events t :
  oq_ScopeKey q = "" -> oq_FromAtMS q = 0 -> oq_ToAtMS q = 0 -> oq_OrderRef q = "" ->
  oq_ReservedOrderID q = None -> oq_PermID q = None -> oq_PreviewTokenID q = "" ->
  oq_AfterEventSeq q <= seq ->
  Forall (fun e => db_scopes d !! bs_ScopeKey (r_Scope e) = Some (r_Scope e)) events ->
  omap (fun p => if queryMatches q p.1 p.2 then loadRow d p.1 p.2 else None)
    (zip (newOrderRows seq n events t) (newLogRows seq events)) =
  zip_with stamped (newSeqs seq events) events.
Proof.
  intros H1 H2 H3 H4 H5 H6 H7. revert seq n.
  induction events as [|e events IH]; intros seq n Hq Hsc; [done|].
  apply Forall_cons in Hsc as [He Hsc]. cbn [newOrderRows newLogRows zip_with newSeqs]. rewrite omap_cons_eq.
  assert (Hm : forall r l, row_seq r = seq + 1 -> queryMatches q r l = true).
  { intros r l Hr. unfold queryMatches. rewrite H1, H2, H3, H4, H5, H6, H7, Hr. cbn.
    rewrite andb_true_r. replace (oq_AfterEventSeq q <? seq + 1) with true; [by rewrite orb_true_r|].
    symmetry. apply Z.ltb_lt. lia. }
  cbn [fst snd]. rewrite Hm by done. unfold loadRow at 1. cbn [row_scope_key].
  rewrite He. cbn [row_seq log_event_key log_occurred_at_ms row_type log_action_kind log_origin
    row_order_ref row_preview_token_id row_reserved_order_id row_perm_id row_status log_payload].
  rewrite !default_nullableString, !default_nullablePositive. f_equal.
  apply IH; [lia | done].
Qed.

(** Rows at or below the cursor are filtered out. *)
Lemma load_old_rows d q rows logs :
  oq_AfterEventSeq q <> 0 -> Forall2 paired rows logs ->
  Forall (fun l => log_seq l <= oq_AfterEventSeq q) logs ->
  omap (fun p => if queryMatches q p.1 p.2 then loadRow d p.1 p.2 else None) (zip rows logs) = [].
Proof.
  intros Hq Hp. induction Hp as [|r l rows logs [Hseq _] _ IH]; intros Hb; [done|].
  apply Forall_cons in Hb as [Hl Hb]. cbn [zip_with]. rewrite omap_cons_eq. cbn [fst snd].
  assert (Hm : queryMatches q r l = false).
  { unfold queryMatches. replace (oq_AfterEventSeq q <? row_seq r) with false
      by (symmetry; apply Z.ltb_ge; lia).
    apply Z.eqb_neq in Hq as ->. cbn [orb]. by rewrite andb_false_r. }
  rewrite Hm. by apply IH.
Qed.

(** A cursor read of everything after [seq]. *)
Definition afterQuery (seq : Z) : OrderQuery := mkOrderQuery "" 0 0 seq "" None None "" 0.

Lemma orders_sorted d : db_wf d -> Sorted (fun a b => (row_seq a <=? row_seq b) = true) (db_orders d).
Proof.
  intros [_ _ _ Hs Hp _]. apply StronglySorted_Sorted. revert Hs.
  induction Hp as [|r l rows logs [Hrl _] Hp IH]; intros Hs; [constructor|].
  rewrite fmap_cons in Hs. apply StronglySorted_inv in Hs as [Hs Hl]. constructor; [by apply IH|].
  clear -Hp Hl Hrl. induction Hp as [|r' l' rows logs [Hrl' _] _ IH]; [constructor|].
  rewrite fmap_cons in Hl. apply Forall_cons in Hl as [Hll Hl].
  constructor; [apply Z.leb_le; lia | by apply IH].
Qed.

Lemma zip_app_paired rows1 logs1 rows2 logs2 :
  Forall2 paired rows1 logs1 -> zip (rows1 ++ rows2) (logs1 ++ logs2) = zip rows1 logs1 ++ zip rows2 logs2.
Proof. intros Hp. by rewrite zip_with_app by (by eapply Forall2_length). Qed.

(** Append, then load: events journaled through a successful
    compare-and-append come back from a cursor read placed at the old head,
    all of them, in order, unchanged except for the sequence numbers the
    append reported (one page of at most 1000 events). *)
Theorem appended_events_are_loaded_back order s f expected events s' qs :
  db_wf (st_db s) -> order_ok order -> (List.length events <= 1000)%nat ->
  AppendOrderEventsAtHead order s f expected events = (s', Ok qs) ->
  LoadOrderEvents s' (afterQuery expected) = Ok (zip_with stamped qs events).
Proof.
  intros Hw Hord Hlen Happ. apply append_at_head_tx in Happ as (Hn & Hne & Htx).
  destruct (append_at_head_facts _ _ _ _ _ _ Hw Hn Hne Htx) as (Hexp & -> & Ho & Hl & _ & Hsc).
  specialize (Hsc Hord).
  assert (Hw' : db_wf (st_db s')).
  { destruct events as [|e events]; [done|]. by eapply appendAtHeadTx_wf. }
  unfold LoadOrderEvents. cbn [oq_ScopeKey afterQuery].
  change (Ok (take 1000 (omap (fun p => if queryMatches (afterQuery expected) p.1 p.2
    then loadRow (st_db s') p.1 p.2 else None) (joinLog (st_db s')
      (stable_sort (fun a b => row_seq a <=? row_seq b) (db_orders (st_db s')))))) =
    Ok (E := coreErr) (zip_with stamped (newSeqs expected events) events)). f_equal.
  rewrite stable_sort_id by (by apply orders_sorted).
  rewrite (joinLog_paired _ _ (db_log (st_db s')));
    [|apply Hw' | apply Hw' | by apply Forall_forall].
  rewrite Ho, Hl, zip_app_paired, omap_app by apply Hw.
  rewrite (load_new_rows (st_db s') (afterQuery expected) expected 0 events None) by done.
  assert (Hold : omap (fun p => if queryMatches (afterQuery expected) p.1 p.2
    then loadRow (st_db s') p.1 p.2 else None) (zip (db_orders (st_db s)) (db_log (st_db s))) = []).
  { destruct Hw as [Ha Hh Hb _ Hp _]. destruct (decide (expected = 0)) as [->|Hz].
    - assert (Hnil : db_log (st_db s) = []); [|by rewrite Hnil, zip_with_nil_r].
      destruct (db_log (st_db s)) as [|l rest]; [done|].
      apply Forall_cons in Hb as [Hb _]. lia.
    - apply load_old_rows; [done | done |]. eapply Forall_impl; [exact Hb|]. cbn. intros; lia. }
  rewrite Hold. simpl app. apply take_ge. rewrite length_zip_with. lia.
Qed.
End Log.
