(* ===== verification/CoreStoreGuards.v ===== *)
(** * Guards of the durable authority: modify frontiers, scope bindings, revisions

    What the transactions of [CoreStore] refuse
    (src/internal/daemon/corestore/orders.go, state.go): a scope bound to another
    route, a modify decided on a stale or contested frontier, and a document
    write at another revision; with the witnesses of the store's theorems. *)

From stdpp Require Import base decidable list strings gmap sorting.
From Stdlib Require Import ZArith Lia String Ascii.
From S2P Require Import Prelude OrderTypes OrderKeys CoreStore CoreStoreOps CoreStoreFacts CoreStoreLog.

(** ** The scope binding text determines the route *)

Lemma land255 n : Z.land n 255 = n mod 256.
Proof. change 255 with (Z.ones 8). by rewrite Z.land_ones. Qed.

Lemma byte_inj a b :
  ascii_of_N (Z.to_N (Z.land a 255)) = ascii_of_N (Z.to_N (Z.land b 255)) -> a mod 256 = b mod 256.
Proof.
  rewrite !land255. intros Heq.
  assert (Ha := Z.mod_pos_bound a 256 ltac:(lia)). assert (Hb := Z.mod_pos_bound b 256 ltac:(lia)).
  apply (f_equal N_of_ascii) in Heq. rewrite !N_ascii_embedding in Heq by lia. lia.
Qed.

Lemma string4_inj a b c d a' b' c' d' x y :
  String a (String b (String c (String d x))) = String a' (String b' (String c' (String d' y))) ->
  a = a' /\ b = b' /\ c = c' /\ d = d' /\ x = y.
Proof. by intros [=]. Qed.

Lemma be32_inj n m x y :
  0 <= n < 2 ^ 32 -> 0 <= m < 2 ^ 32 -> be32 n ++s x = be32 m ++s y -> n = m /\ x = y.
Proof.
  intros Hn Hm Heq. unfold be32 in Heq. rewrite !append_cons_s in Heq.
  apply string4_inj in Heq as (H24 & H16 & H8 & H0 & Hxy). split; [|exact Hxy].
  apply byte_inj in H24, H16, H8, H0. rewrite !Z.shiftr_div_pow2 in * by lia.
  change (2 ^ 24) with 16777216 in *. change (2 ^ 16) with 65536 in *. change (2 ^ 8) with 256 in *.
  change (2 ^ 0) with 1 in *. change (2 ^ 32) with 4294967296 in *. rewrite !Z.div_1_r in *.
  Z.to_euclidean_division_equations. lia.
Qed.

Definition short (s : string) : Prop := Z.of_nat (String.length s) < 2 ^ 32.

Lemma append_inj_length v w x y :
  String.length v = String.length w -> v ++s x = w ++s y -> v = w /\ x = y.
Proof.
  revert w. induction v as [|c v IH]; intros [|e w] Hlen Heq; try discriminate Hlen; [done|].
  rewrite !append_cons_s in Heq. injection Heq as -> Heq. injection Hlen as Hlen.
  destruct (IH w Hlen Heq) as [-> ->]. done.
Qed.

Lemma frame_inj v w x y : short v -> short w -> frame v ++s x = frame w ++s y -> v = w /\ x = y.
Proof.
  unfold short, frame. intros Hv Hw. rewrite !append_assoc_s. intros Heq.
  rewrite !Z.mod_small in Heq by lia. apply be32_inj in Heq as [Hn Heq]; [|lia..].
  apply append_inj_length in Heq; [done | lia].
Qed.

Definition short_scope (s : BrokerScope) : Prop :=
  short (bs_Endpoint s) /\ short (Itoa (bs_ClientID s)) /\ short (bs_Account s) /\ short (bs_Mode s).

Lemma append_empty_r s : s ++s "" = s.
Proof. induction s as [|c s IH]; [done | exact (f_equal (String c) IH)]. Qed.

(** The length-prefixed text hashed into a broker scope's binding
    determines its endpoint, client id, account and mode: two scopes share a
    binding only if they are the same route (or SHA-256 collides), whatever
    characters the parts contain. *)
Theorem scope_binding_determines_route a b :
  short_scope a -> short_scope b -> scopeBinding a = scopeBinding b ->
  bs_Endpoint a = bs_Endpoint b /\ bs_ClientID a = bs_ClientID b /\
  bs_Account a = bs_Account b /\ bs_Mode a = bs_Mode b.
Proof.
  intros (Ha1 & Ha2 & Ha3 & Ha4) (Hb1 & Hb2 & Hb3 & Hb4) Heq. unfold scopeBinding in Heq.
  apply frame_inj in Heq as [He Heq]; [|done..]. apply frame_inj in Heq as [Hc Heq]; [|done..].
  apply frame_inj in Heq as [Hac Heq]; [|done..].
  rewrite <- (append_empty_r (frame (bs_Mode a))), <- (append_empty_r (frame (bs_Mode b))) in Heq.
  apply frame_inj in Heq as [Hm _]; [|done..]. split_and!; [done | by apply Itoa_inj | done | done].
Qed.

Definition bscope_other : BrokerScope := mkBrokerScope "alias" "127.0.0.1:4002" 15 "DU123" "paper".

Lemma scope_binding_determines_route_witness :
  bs_Endpoint bscope_ex = bs_Endpoint bscope_other /\ bs_ClientID bscope_ex = bs_ClientID bscope_other /\
  bs_Account bscope_ex = bs_Account bscope_other /\ bs_Mode bscope_ex = bs_Mode bscope_other.
Proof.
  apply (scope_binding_determines_route bscope_ex bscope_other).
  - repeat split; vm_compute; reflexivity.
  - repeat split; vm_compute; reflexivity.
  - vm_compute. reflexivity.
Defined.

Section Guards.
Context `{CoreEnv}.

(** ** Rebinding *)

(** A broker scope key is bound once and for all: after a successful
    binding, a different route under the same key, and the same route under a
    new key, are both refused as collisions. *)
Theorem broker_scope_never_rebound d scope d' other :
  bindBrokerScopeTx d scope = Ok d' ->
  (bs_ScopeKey other = bs_ScopeKey scope -> other <> scope ->
     bindBrokerScopeTx d' other = Err ErrBrokerScopeCollision) /\
  (db_scopes d' !! bs_ScopeKey other = None -> scopeBinding other = scopeBinding scope ->
     bindBrokerScopeTx d' other = Err ErrBrokerScopeCollision).
Proof.
  intros Hb. apply bindBrokerScopeTx_frame in Hb as (_ & _ & _ & _ & _ & _ & Hl).
  unfold bindBrokerScopeTx. split.
  - intros Hk Hne. rewrite Hk, Hl. unfold sameScope. rewrite bool_decide_eq_false_2; [done|].
    congruence.
  - intros Hn Hbind. rewrite Hn.
    assert (existsb (fun p => brokerScopeDigest p.2 =s brokerScopeDigest other)
              (map_to_list (db_scopes d')) = true) as ->; [|done].
    apply existsb_exists. exists (bs_ScopeKey scope, scope). split.
    + apply list_elem_of_In. by apply elem_of_map_to_list.
    + unfold brokerScopeDigest. rewrite Hbind. apply eqb_s_refl.
Qed.

(** ** The modify frontier *)

Lemma latestRow_from a rows :
  match fold_left later_row rows a with
  | Some r => (r ∈ rows \/ a = Some r) /\ Forall (fun r' => row_seq r' <= row_seq r) rows /\
              (forall x, a = Some x -> row_seq x <= row_seq r)
  | None => rows = [] /\ a = None
  end.
Proof.
  revert a. induction rows as [|r rows IH]; intros a; simpl.
  { destruct a as [x|]; [|done]. split_and!; [by right | constructor | intros ? [= <-]; lia]. }
  specialize (IH (later_row a r)).
  destruct (fold_left later_row rows (later_row a r)) as [m|].
  - destruct IH as (Hin & Hall & Hx). unfold later_row in *.
    assert (Hr : row_seq r <= row_seq m /\ forall x, a = Some x -> row_seq x <= row_seq m).
    { destruct a as [x|].
      - destruct (row_seq x <? row_seq r) eqn:E; bool_hyps; specialize (Hx _ eq_refl);
          split; [lia | intros ? [= <-]; lia | lia | intros ? [= <-]; lia].
      - split; [by apply Hx | done]. }
    split_and!; [|constructor; tauto | tauto].
    destruct Hin as [Hin | Hin]; [left; by right|].
    destruct a as [x|]; [|left; injection Hin as ->; by left].
    case_if_in Hin; injection Hin as <-; [left; by left | by right].
  - destruct IH as [-> Hn]. unfold later_row in Hn. destruct a; [by case_if_in Hn | done].
Qed.

Lemma latestRow_spec rows r :
  latestRow rows = Some r -> r ∈ rows /\ Forall (fun r' => row_seq r' <= row_seq r) rows.
Proof.
  intros Hl. assert (Hf := latestRow_from None rows). unfold latestRow in Hl.
  rewrite Hl in Hf. destruct Hf as ([Hin | Hin] & Hall & _); [done | done].
Qed.

(** The payload fields of a scanned row. *)
Definition scannedPayload (p : orderRow * logRow) : cancelPayload := (unmarshal_cancel (log_payload p.2)).2.

(** A cancel attempt proven never to have left the process. *)
Definition provenUnsent (scanned : list (orderRow * logRow)) (id : string) : Prop :=
  exists q, q ∈ scanned /\ row_type q.1 = "send-error" /\ cp_AttemptID (scannedPayload q) = id /\
    cp_SendDisposition (scannedPayload q) = "definitely_unsent".

Definition scan_inv (scanned : list (orderRow * logRow)) (attempts : gmap string cancelState) : Prop :=
  (forall p, p ∈ scanned -> row_type p.1 = "cancel-requested" ->
     is_Some (attempts !! cp_AttemptID (scannedPayload p))) /\
  (forall id a, attempts !! id = Some a -> cs_definitelyUnsent a = true -> provenUnsent scanned id).

Lemma provenUnsent_snoc scanned p id : provenUnsent scanned id -> provenUnsent (scanned ++ [p]) id.
Proof.
  intros (q & Hq & Hr). exists q. split; [|done]. apply elem_of_app. by left.
Qed.

Lemma cancelScan_step_inv scanned p attempts attempts' :
  scan_inv scanned attempts -> cancelScanStep (Some attempts) p = Some attempts' ->
  scan_inv (scanned ++ [p]) attempts'.
Proof.
  intros [Hreq Huns] Hs. unfold cancelScanStep in Hs.
  assert (Hpay : unmarshal_cancel (log_payload p.2) =
    ((unmarshal_cancel (log_payload p.2)).1, scannedPayload p)) by apply surjective_pairing.
  rewrite Hpay in Hs. cbv zeta in Hs.
  set (ok := (unmarshal_cancel (log_payload p.2)).1) in *. clearbody ok. clear Hpay.
  set (id := cp_AttemptID (scannedPayload p)) in *.
  destruct (row_type p.1 =s "cancel-requested") eqn:Ht.
  - ok_inv Hs. destruct (negb _ || negb _) in Hs; [discriminate|].
    destruct (attempts !! id) eqn:Hid; [discriminate|]. simpl in Hs. injection Hs as <-. split.
    + intros q Hq Hqt. apply elem_of_app in Hq as [Hq | Hq].
      * destruct (decide (id = cp_AttemptID (scannedPayload q))) as [<-|Hne];
          [rewrite lookup_insert_eq; eauto | rewrite lookup_insert_ne by done; auto].
      * apply list_elem_of_singleton in Hq as ->. unfold id. rewrite lookup_insert_eq. eauto.
    + intros i a Ha Hu. destruct (decide (id = i)) as [<-|Hne].
      * rewrite lookup_insert_eq in Ha. injection Ha as <-. discriminate Hu.
      * rewrite lookup_insert_ne in Ha by done. apply provenUnsent_snoc. eauto.
  - apply String.eqb_neq in Ht. destruct (attempts !! id) as [a0|] eqn:Hid.
    + injection Hs as <-. split.
      * intros q Hq Hqt. apply elem_of_app in Hq as [Hq | Hq];
          [|apply list_elem_of_singleton in Hq as ->; done].
        destruct (decide (id = cp_AttemptID (scannedPayload q))) as [<-|Hne];
          [rewrite lookup_insert_eq; eauto | rewrite lookup_insert_ne by done; auto].
      * intros i a Ha Hu. destruct (decide (id = i)) as [<-|Hne].
        -- rewrite lookup_insert_eq in Ha. injection Ha as <-. simpl in Hu. bool_hyps.
           exists p. split_and!; [apply elem_of_app; right; by apply list_elem_of_singleton | done..].
        -- rewrite lookup_insert_ne in Ha by done. apply provenUnsent_snoc. eauto.
    + injection Hs as <-. split.
      * intros q Hq Hqt. apply elem_of_app in Hq as [Hq | Hq]; [auto|].
        apply list_elem_of_singleton in Hq as ->. done.
      * intros i a Ha Hu. apply provenUnsent_snoc. eauto.
Qed.

Lemma cancelScan_inv rows attempts :
  fold_left cancelScanStep rows (Some ∅) = Some attempts -> scan_inv rows attempts.
Proof.
  revert attempts. induction rows as [|p rows IH] using rev_ind; intros attempts Hs.
  { injection Hs as <-. split.
    - intros p Hp. by apply not_elem_of_nil in Hp.
    - intros id a Ha. by rewrite lookup_empty in Ha. }
  rewrite fold_left_app in Hs. simpl in Hs.
  destruct (fold_left cancelScanStep rows (Some ∅)) as [m|] eqn:Hm; [|discriminate].
  by apply (cancelScan_step_inv rows p m attempts); [apply IH|].
Qed.

(** No unresolved cancel: every cancel request in the window was proven unsent. *)
Lemma resolved_cancels d key id after :
  hasUnresolvedCancelAttemptTx d key id after = false ->
  forall p, p ∈ cancelScanRows d key id after -> row_type p.1 = "cancel-requested" ->
    provenUnsent (cancelScanRows d key id after) (cp_AttemptID (scannedPayload p)).
Proof.
  unfold hasUnresolvedCancelAttemptTx. intros Hu p Hp Ht.
  destruct (fold_left cancelScanStep _ (Some ∅)) as [m|] eqn:Hm; [|discriminate].
  apply cancelScan_inv in Hm as [Hreq Huns]. destruct (Hreq p Hp Ht) as [a Ha].
  apply (Huns _ a Ha). apply not_false_iff_true. intros Hf.
  assert (existsb (fun p => negb (cs_definitelyUnsent p.2)) (map_to_list m) = true); [|congruence].
  apply existsb_exists. exists (cp_AttemptID (scannedPayload p), a). split; [|cbn; by rewrite Hf].
  apply list_elem_of_In. by apply elem_of_map_to_list.
Qed.

(** C23. A modify is staged only against a settled frontier: the durable latest
    event of that broker order is exactly the one the caller decided on, it is
    neither a cancel request nor a final status, and every cancel request
    since the order's last final status was proven never sent. *)
Theorem modify_staged_only_on_settled_frontier request events d d' r expected :
  stageTx request events d = Ok (d', r) -> q_Action request = ActionModify ->
  q_ExpectedOrderEventSeq request = Some expected ->
  let key := bs_ScopeKey (q_Scope request) in
  let rows := orderRowsFor d key (q_ReservedOrderID request) in
  let scanned := cancelScanRows d key (q_ReservedOrderID request) (lastTerminalSeq rows) in
  exists latest, latest ∈ rows /\ row_seq latest = expected /\
    Forall (fun r => row_seq r <= expected) rows /\ row_type latest <> "cancel-requested" /\
    terminalOrderStatus (default "" (row_status latest)) = false /\
    forall p, p ∈ scanned -> row_type p.1 = "cancel-requested" ->
      provenUnsent scanned (cp_AttemptID (scannedPayload p)).
Proof.
  intros Hs Hact Hexp key rows scanned. unfold stageTx in Hs. rewrite Hexp in Hs. ok_inv Hs.
  apply bindBrokerScopeTx_frame in Ha as (_ & _ & _ & Ho1 & Hl1 & _).
  assert (Heq : db_orders a0 = db_orders d /\ db_log a0 = db_log d).
  { case_if_in Ha0; [|injection Ha0 as <-; done].
    apply consumeTokenTx_frame in Ha0 as (_ & _ & _ & _ & _ & _ & -> & -> & _). done. }
  destruct Heq as [Ho Hl].
  assert (Hrows : orderRowsFor a0 key (q_ReservedOrderID request) = rows)
    by (unfold orderRowsFor, rows; by rewrite Ho).
  unfold checkFrontier in Ha1. fold key in Ha1. rewrite Hrows, Hact in Ha1. ok_inv Ha1.
  change (ActionModify =s ActionModify) with true in Ha1. cbn [negb] in Ha1.
  destruct (latestRow rows) as [m|] eqn:Hm; [|discriminate].
  apply latestRow_spec in Hm as [Hin Hall]. ok_inv Ha1. bool_hyps.
  assert (Hun : hasUnresolvedCancelAttemptTx d key (q_ReservedOrderID request) (lastTerminalSeq rows) = false).
  { unfold hasUnresolvedCancelAttemptTx, cancelScanRows, joinLog, orderRowsFor in *.
    by rewrite Ho, Hl in *. }
  exists m. split_and!; try done; [by rewrite <- Hg0 | by apply resolved_cancels].
Qed.

(** ** Revisions of state documents *)

Definition revisionOf (d : db) (key : string * string) : Z :=
  match db_documents d !! key with Some doc => sd_Revision doc | None => 0 end.

(** A state document is written by compare-and-swap: a write succeeds only
    when the stored revision is the expected one (zero: no document), stores
    exactly the given content under the next revision, touches no other
    document, and never goes behind the caller's head or clock bounds; so of
    two writers that expect the same revision at most one succeeds. *)
Theorem state_document_compare_and_swap d update now d' saved :
  (forall key doc, db_documents d !! key = Some doc -> 1 <= sd_Revision doc) ->
  compareAndSwapStateTx d update now = Ok (d', saved) ->
  let key := (cas_ScopeKey update, cas_Kind update) in
  revisionOf d key = cas_ExpectedRevision update /\
  revisionOf d' key = cas_ExpectedRevision update + 1 /\
  db_documents d' !! key = Some saved /\ sd_JSON saved = cas_JSON update /\
  (forall k, k <> key -> db_documents d' !! k = db_documents d !! k) /\
  (forall h, cas_ExpectedHead update = Some h -> db_head d = h) /\
  (cas_UpdatedAtNotBefore update <> 0 -> cas_UpdatedAtNotBefore update <= now) /\
  (forall update' now', cas_ScopeKey update' = cas_ScopeKey update ->
     cas_Kind update' = cas_Kind update ->
     cas_ExpectedRevision update' = cas_ExpectedRevision update ->
     exists e, compareAndSwapStateTx d' update' now' = Err e).
Proof.
  intros Hpos Hs key. unfold compareAndSwapStateTx in Hs. cbv zeta in Hs. fold key in Hs. ok_inv Hs.
  assert (Hw : revisionOf d key = cas_ExpectedRevision update /\
    d' = d <| db_documents := <[key := saved]> (db_documents d) |> /\
    saved = mkStateDocument (cas_ScopeKey update) (cas_Kind update)
              (cas_ExpectedRevision update + 1) (cas_JSON update) now /\
    cas_ExpectedRevision update + 1 <> cas_ExpectedRevision update).
  { unfold revisionOf. destruct (db_documents d !! key) as [doc|]; ok_inv Hs;
      injection Hs as <- <-; bool_hyps; split_and!; try done; lia. }
  destruct Hw as (Hrev & -> & -> & _). unfold revisionOf. cbn. rewrite lookup_insert_eq. cbn.
  split_and!; try done.
  - intros k Hk. by rewrite lookup_insert_ne.
  - intros h Hh. rewrite Hh in Hg. by case_bool_decide.
  - intros Hz. unfold IsZero, Before in Hg0. apply andb_false_iff in Hg0 as [Hg0 | Hg0]; bool_hyps; lia.
  - intros u now' H1 H2 H3. unfold compareAndSwapStateTx. rewrite H1, H2, H3.
    do 3 (case_if; [eauto|]). cbn [db_documents set_field]. fold key. rewrite lookup_insert_eq. cbn [sd_Revision].
    destruct (cas_ExpectedRevision update + 1 =? cas_ExpectedRevision update) eqn:E; bool_hyps; [lia|].
    rewrite andb_false_r. eauto.
Qed.
End Guards.

(** ** Witnesses on a concrete store *)

#[local] Existing Instance env_ex.

Definition order_values (m : gmap string BrokerScope) : list BrokerScope := (map_to_list m).*2.

Lemma order_values_ok : order_ok order_values.
Proof. intros m. reflexivity. Qed.

Lemma fresh_db_wf : db_wf fresh_db.
Proof. split; try done; constructor. Qed.

Definition placed_store : store := (StagePreTransmit ready_store no_faults (place_ex "k1" "tok" 41)).1.

Lemma placed_store_wf : db_wf (st_db placed_store).
Proof.
  apply (run_wf [OpStage no_faults (place_ex "k1" "tok" 41)] ready_store);
    [repeat constructor | exact fresh_db_wf].
Qed.

Definition status_ex (key status : string) : OrderEventRecord :=
  mkOrderEventRecord 0 bscope_ex key 1700000001000 "status-updated" ActionPlace OriginDaemon "canary-1" ""
    41 9001 status "{}".

Lemma event_sequence_numbers_strictly_increase_witness :
  let d := st_db (run ready_store [OpStage no_faults (place_ex "k1" "tok" 41);
                                   OpAppend no_faults order_values (-1) [status_ex "s1" "Submitted"]]) in
  StronglySorted Z.lt (log_seq <$> db_log d) /\ ah_LastEventSeq (db_head d) = 2.
Proof.
  split; [|vm_compute; reflexivity].
  apply (event_sequence_numbers_strictly_increase ready_store
    [OpStage no_faults (place_ex "k1" "tok" 41);
     OpAppend no_faults order_values (-1) [status_ex "s1" "Submitted"]]).
  - exact fresh_db_wf.
  - repeat constructor. exact order_values_ok.
Defined.

Definition appended : store * cres (list Z) :=
  AppendOrderEventsAtHead order_values placed_store no_faults 1 [status_ex "s1" "Submitted"; status_ex "s2" "Filled"].

Lemma append_at_head_is_compare_and_append_witness :
  ah_LastEventSeq (db_head (st_db placed_store)) = 1 /\
  ah_LastEventSeq (db_head (st_db appended.1)) = 3.
Proof.
  split; [vm_compute; reflexivity|].
  apply (append_at_head_is_compare_and_append order_values placed_store no_faults 1
    [status_ex "s1" "Submitted"; status_ex "s2" "Filled"] appended.1 [2; 3]).
  - exact placed_store_wf.
  - vm_compute. reflexivity.
Defined.

Lemma appended_events_are_loaded_back_witness :
  LoadOrderEvents appended.1 (afterQuery 1) =
  Ok (zip_with stamped [2; 3] [status_ex "s1" "Submitted"; status_ex "s2" "Filled"]).
Proof.
  apply (appended_events_are_loaded_back order_values placed_store no_faults 1
    [status_ex "s1" "Submitted"; status_ex "s2" "Filled"] appended.1 [2; 3]).
  - exact placed_store_wf.
  - exact order_values_ok.
  - cbn. lia.
  - vm_compute. reflexivity.
Defined.

Lemma broker_scope_never_rebound_witness :
  bindBrokerScopeTx (fresh_db <| db_scopes := {[bs_ScopeKey bscope_ex := bscope_ex]} |>) bscope_other =
  Err ErrBrokerScopeCollision.
Proof.
  apply (broker_scope_never_rebound fresh_db bscope_ex); vm_compute; reflexivity.
Defined.

Definition working_db : db :=
  st_db (AppendOrderEventsAtHead order_values placed_store no_faults 1 [status_ex "s1" "Submitted"]).1.
Definition modify_event : OrderEventRecord :=
  mkOrderEventRecord 0 bscope_ex "m1" 1700000002000 "modify-requested" ActionModify OriginHumanCLI
    "canary-1" "" 41 0 "" "{}".
Definition modify_ex : PreTransmitRequest :=
  mkPreTransmit bscope_ex zero_digest "" 0 0 41 (Some 2) ActionModify OriginHumanCLI [modify_event].

Lemma modify_staged_only_on_settled_frontier_witness :
  exists latest, latest ∈ orderRowsFor working_db (bs_ScopeKey bscope_ex) 41 /\ row_seq latest = 2.
Proof.
  destruct (stageTx modify_ex [modify_event] working_db) as [[d' r]|e] eqn:Hs;
    [|revert Hs; vm_compute; discriminate].
  destruct (modify_staged_only_on_settled_frontier modify_ex [modify_event] working_db d' r 2 Hs
    ltac:(reflexivity) ltac:(reflexivity)) as (latest & Hin & Hseq & _).
  exists latest. split; [exact Hin | exact Hseq].
Defined.

Definition doc_update (rev : Z) : StateDocumentCAS := mkStateCAS None "global" "regime" rev "{}" 0.

Lemma state_document_compare_and_swap_witness :
  revisionOf fresh_db ("global", "regime") = 0.
Proof.
  destruct (compareAndSwapStateTx fresh_db (doc_update 0) 7) as [[d' s]|e] eqn:Hs;
    [|revert Hs; vm_compute; discriminate].
  apply (state_document_compare_and_swap fresh_db (doc_update 0) 7 d' s); [|exact Hs].
  intros key doc Hd. exfalso. change (db_documents fresh_db) with (∅ : gmap (string * string) StateDocument) in Hd.
  rewrite lookup_empty in Hd. discriminate Hd.
Defined.
