(* ===== verification/Pairing.v ===== *)
(** * Pairing broker callbacks with journal rows

    src/internal/daemon/order_lifecycle.go: which row a broker callback belongs
    to, what it inherits from that row, and what is journaled.  Proved: a
    pairing never crosses account, mode or client, never contradicts an
    identity both sides carry, and introduces a permanent id only through the
    broker's own openOrder naming the row; and an enriched callback is keyed to
    the row it was paired with. *)

From stdpp Require Import base decidable list strings gmap.
From Stdlib Require Import ZArith Lia String Ascii.
From S2P Require Import Prelude OrderTypes OrderStatus OrderKeys OrderFold OrderFoldFacts BrokerScope OrderViews.

Definition orderJournalEventOnViewSocket (ev : orderJournalEvent) (view : OrderView) : bool :=
  TrimSpace (e_Endpoint ev) =s TrimSpace (v_Endpoint view).

Definition orderJournalRefsDiffer (ev : orderJournalEvent) (view : OrderView) : bool :=
  (e_OrderRef ev <>s "") && (v_OrderRef view <>s "") && (e_OrderRef ev <>s v_OrderRef view).

Definition orderJournalRefNames (ev : orderJournalEvent) (view : OrderView) : bool :=
  (e_OrderRef ev <>s "") && (v_OrderRef view =s e_OrderRef ev).

Definition orderJournalOrderIDNames (ev : orderJournalEvent) (view : OrderView) : bool :=
  (0 <? e_ReservedOrderID ev) && (v_ReservedOrderID view =? e_ReservedOrderID ev).

Definition orderViewPlacedByCanary (view : OrderView) : bool :=
  (TrimSpace (v_PreviewTokenID view) <>s "") || v_BypassPreview view.

Definition orderJournalEventScopeMatchesView (ev : orderJournalEvent) (view : OrderView) : bool :=
  (e_ClientID ev =? v_ClientID view) &&
  EqualFold (TrimSpace (e_Account ev)) (TrimSpace (v_Account view)) &&
  EqualFold (TrimSpace (e_Mode ev)) (TrimSpace (v_Mode view)).

(** orderJournalViewForPermID *)
Definition orderJournalViewForPermID (ev : orderJournalEvent) (scope : list OrderView) : option OrderView :=
  let holders := List.filter (fun view => v_PermID view =? e_PermID ev) scope in
  let placed := List.filter orderViewPlacedByCanary holders in
  match holders with
  | [] =>
      if (e_Type ev <>s orderJournalEventBrokerAcknowledged) || (e_OrderRef ev =s "") then None
      else
        match List.filter (fun view =>
                negb (negb (v_PermID view =? 0) || negb (v_Open view) || orderJournalRefsDiffer ev view) &&
                (orderJournalRefNames ev view || orderJournalOrderIDNames ev view)) scope with
        | [view] =>
            if negb (orderJournalRefNames ev view) then None
            else if orderJournalEventOnViewSocket ev view then Some view
            else if e_clientIDPresent ev && orderJournalOrderIDNames ev view then Some view
            else None
        | _ => None
        end
  | _ =>
      let holder := match holders, placed with
                    | [h], _ => Some h
                    | _, [p] => Some p
                    | _, _ => None
                    end in
      match holder with
      | Some h =>
          if negb (orderJournalEventOnViewSocket ev h) && negb (e_clientIDPresent ev) then None else Some h
      | None => None
      end
  end.

(** orderJournalViewWithoutPermID *)
Definition orderJournalViewWithoutPermID (ev : orderJournalEvent) (scope : list OrderView) : option OrderView :=
  let byRef :=
    if e_OrderRef ev <>s "" then
      List.find (fun view => (v_OrderRef view =s e_OrderRef ev) && orderJournalEventOnViewSocket ev view) scope
    else None in
  match byRef with
  | Some view => Some view
  | None =>
      if (e_ReservedOrderID ev =? 0) || negb (e_clientIDPresent ev) then None
      else
        let matches := List.filter (fun view =>
          negb (negb (v_ReservedOrderID view =? e_ReservedOrderID ev) ||
                negb (orderJournalEventOnViewSocket ev view) || orderJournalRefsDiffer ev view)) scope in
        match List.filter v_Open matches, matches with
        | [view], _ => Some view
        | _, [view] => Some view
        | _, _ => None
        end
  end.

(** orderJournalPairingContradicted *)
Definition orderJournalPairingContradicted (ev : orderJournalEvent) (view : OrderView)
    (scope : list OrderView) : bool :=
  if orderJournalRefsDiffer ev view then true
  else if negb (e_PermID ev =? 0) && negb (v_PermID view =? 0) && negb (e_PermID ev =? v_PermID view)
  then true
  else if negb (e_PermID ev =? 0) && (v_PermID view =? e_PermID ev) &&
          negb (e_ReservedOrderID ev =? 0) && negb (v_ReservedOrderID view =? 0) &&
          negb (e_ReservedOrderID ev =? v_ReservedOrderID view)
  then true
  else if e_PermID ev =? 0 then false
  else existsb (fun other =>
         (orderViewKey other <>s orderViewKey view) && (e_OrderRef ev <>s "") &&
         (v_OrderRef other =s e_OrderRef ev) && negb (v_PermID other =? 0) &&
         negb (v_PermID other =? e_PermID ev)) scope.

(** orderJournalViewForLifecycleEvent *)
Definition orderJournalViewForLifecycleEvent (ev : orderJournalEvent) (views : list OrderView)
    : option OrderView :=
  let scope := List.filter (orderJournalEventScopeMatchesView ev) views in
  match (if negb (e_PermID ev =? 0) then orderJournalViewForPermID ev scope
         else orderJournalViewWithoutPermID ev scope) with
  | Some view => if orderJournalPairingContradicted ev view scope then None else Some view
  | None => None
  end.

(** [if ev.F == zero { ev.F = view.F }] for a string, an integer, a float, a pointer. *)
Definition or_s (a b : string) : string := if a =s "" then b else a.
Definition or_z (a b : Z) : Z := if a =? 0 then b else a.
Definition or_f (a b : float64) : float64 := if a =f f0 then b else a.
Definition or_o {A} (a b : option A) : option A := match a with Some _ => a | None => b end.

(** copyOrderJournalIdentityFromView: the identity every callback inherits. *)
Definition copyIdentity (ev : orderJournalEvent) (view : OrderView) : orderJournalEvent :=
  ev <| e_EntryLink := or_o (e_EntryLink ev) (v_EntryLink view) |>
     <| e_AttachedStop := or_o (e_AttachedStop ev) (v_AttachedStop view) |>
     <| e_FixedStopPrice :=
          if (e_FixedStopPrice ev =f f0) && (e_Type ev <>s orderJournalEventBrokerAcknowledged)
          then v_FixedStopPrice view else e_FixedStopPrice ev |>
     <| e_OrderRef := or_s (e_OrderRef ev) (v_OrderRef view) |>
     <| e_PreviewTokenID := or_s (e_PreviewTokenID ev) (v_PreviewTokenID view) |>
     <| e_Source := or_s (e_Source ev) (v_Source view) |>
     <| e_PurgeID := or_s (e_PurgeID ev) (v_PurgeID view) |>
     <| e_LegID := or_s (e_LegID ev) (v_LegID view) |>
     <| e_BypassPreview := v_BypassPreview view || e_BypassPreview ev |>
     <| e_Account := or_s (e_Account ev) (v_Account view) |>
     <| e_Endpoint := or_s (e_Endpoint ev) (v_Endpoint view) |>
     <| e_Mode := or_s (e_Mode ev) (v_Mode view) |>
     <| e_ClientID := if e_clientIDPresent ev then e_ClientID ev else v_ClientID view |>
     <| e_clientIDPresent := true |>
     <| e_ConID := or_z (e_ConID ev) (v_ConID view) |>
     <| e_OCAType := if e_OCAGroup ev =s "" then v_OCAType view else e_OCAType ev |>
     <| e_OCAGroup := or_s (e_OCAGroup ev) (v_OCAGroup view) |>
     <| e_Symbol := or_s (e_Symbol ev) (v_Symbol view) |>
     <| e_SecType := or_s (e_SecType ev) (v_SecType view) |>
     <| e_Exchange := or_s (e_Exchange ev) (v_Exchange view) |>
     <| e_PrimaryExch := or_s (e_PrimaryExch ev) (v_PrimaryExch view) |>
     <| e_Currency := or_s (e_Currency ev) (v_Currency view) |>
     <| e_LocalSymbol := or_s (e_LocalSymbol ev) (v_LocalSymbol view) |>
     <| e_TradingClass := or_s (e_TradingClass ev) (v_TradingClass view) |>
     <| e_Expiry := or_s (e_Expiry ev) (v_Expiry view) |>
     <| e_Strike := or_f (e_Strike ev) (v_Strike view) |>
     <| e_Right := or_s (e_Right ev) (v_Right view) |>
     <| e_Multiplier := or_z (e_Multiplier ev) (v_Multiplier view) |>.

(** copyOrderJournalIdentityFromView; an openOrder keeps the broker's own terms. *)
Definition copyOrderJournalIdentityFromView (ev : orderJournalEvent) (view : OrderView) : orderJournalEvent :=
  let ev := copyIdentity ev view in
  if e_Type ev =s orderJournalEventBrokerAcknowledged then ev
  else
    ev <| e_Action := or_s (e_Action ev) (v_Action view) |>
       <| e_OrderType := or_s (e_OrderType ev) (v_OrderType view) |>
       <| e_TIF := or_s (e_TIF ev) (v_TIF view) |>
       <| e_TriggerMethod := or_z (e_TriggerMethod ev) (v_TriggerMethod view) |>
       <| e_OutsideRTH := v_OutsideRTH view || e_OutsideRTH ev |>
       <| e_Quantity := or_f (e_Quantity ev) (v_Quantity view) |>
       <| e_LimitPrice := or_f (e_LimitPrice ev) (v_LimitPrice view) |>
       <| e_Trail := or_o (e_Trail ev) (v_Trail view) |>
       <| e_OpenClose := or_s (e_OpenClose ev) (v_OpenClose view) |>.

(** normalizeOrderLifecycleJournalEvent *)
Definition normalizeOrderLifecycleJournalEvent (ev : orderJournalEvent) : orderJournalEvent :=
  if (e_Type ev <>s orderJournalEventStatusUpdated) || negb (EqualFold (e_Status ev) "Execution") then ev
  else if (e_Quantity ev >f f0) && (e_Filled ev >=f fsub (e_Quantity ev) (f_const 1 1000000000)) then
    ev <| e_Status := "Filled" |> <| e_Remaining := f0 |> <| e_SendState := orderSendStateTerminal |>
  else if e_Remaining ev >f f0 then ev <| e_SendState := orderSendStateBrokerAcknowledged |>
  else ev.

(** The current write route (tradingStatus). *)
Record tradingRoute := mkRoute { rt_Account : string; rt_Endpoint : string; rt_Mode : string; rt_ClientID : Z }.

(** The route defaults of appendOrderLifecycleEvent. *)
Definition bindRoute (status : tradingRoute) (ev : orderJournalEvent) : orderJournalEvent :=
  ev <| e_Account := or_s (e_Account ev) (rt_Account status) |>
     <| e_Endpoint := or_s (e_Endpoint ev) (rt_Endpoint status) |>
     <| e_Mode := or_s (e_Mode ev) (rt_Mode status) |>
     <| e_ClientID := if e_clientIDPresent ev then e_ClientID ev else rt_ClientID status |>.

(** enrichOrderLifecycleEventFromJournal over the loaded rows. *)
Definition enrichOrderLifecycleEvent (ev : orderJournalEvent) (views : list OrderView)
    : orderJournalEvent * bool :=
  match orderJournalViewForLifecycleEvent ev views with
  | Some view => (copyOrderJournalIdentityFromView (ev <| e_Endpoint := v_Endpoint view |>) view, true)
  | None => (ev, false)
  end.

(** What appendOrderLifecycleEvent hands to the journal: nothing, or one event.
    [views = None]: the rows could not be loaded. *)
Definition lifecycleAppend (ev : OrderLifecycleEvent) (now : time) (status : tradingRoute)
    (views : option (list OrderView)) : option orderJournalEvent :=
  let '(je, ok) := orderJournalEventFromLifecycle ev now in
  if negb ok then None
  else
    let je := bindRoute status je in
    let '(je, matched) :=
      match views with Some vs => enrichOrderLifecycleEvent je vs | None => (je, false) end in
    if present views && negb matched &&
       ((b_Type ev =s OrderLifecycleEventOpenOrder) || (b_Type ev =s OrderLifecycleEventStatus))
    then None
    else Some (normalizeOrderLifecycleJournalEvent je).

(** ** Facts *)

(** The rows an openOrder could introduce its permanent id to. *)
Definition introducible (ev : orderJournalEvent) (view : OrderView) : bool :=
  negb (negb (v_PermID view =? 0) || negb (v_Open view) || orderJournalRefsDiffer ev view) &&
  (orderJournalRefNames ev view || orderJournalOrderIDNames ev view).

Lemma viewForPermID_cases ev scope v :
  orderJournalViewForPermID ev scope = Some v ->
  In v scope /\
  ((v_PermID v = e_PermID ev /\
    (orderJournalEventOnViewSocket ev v = true \/ e_clientIDPresent ev = true)) \/
   ((forall u, In u scope -> v_PermID u <> e_PermID ev) /\
    e_Type ev = orderJournalEventBrokerAcknowledged /\
    List.filter (introducible ev) scope = [v] /\ orderJournalRefNames ev v = true /\
    (orderJournalEventOnViewSocket ev v = true \/
     (e_clientIDPresent ev = true /\ orderJournalOrderIDNames ev v = true)))).
Proof.
  unfold orderJournalViewForPermID.
  destruct (List.filter (fun view => v_PermID view =? e_PermID ev) scope) as [|h hs] eqn:Hh.
  - case_if; [done|]. intros H. bool_hyps.
    change (List.filter _ scope) with (List.filter (introducible ev) scope) in H.
    destruct (List.filter (introducible ev) scope) as [|w [|]] eqn:Hc; try done.
    assert (Hw : In w scope) by (by apply (filter_singleton_In (introducible ev) scope w)).
    assert (Hno : forall u, In u scope -> v_PermID u <> e_PermID ev).
    { intros u Hu E. assert (Hin : In u []); [|done].
      rewrite <- Hh. apply List.filter_In. split; [done | by apply Z.eqb_eq]. }
    destruct (orderJournalRefNames ev w) eqn:Hr; [|done]. cbn [negb] in H.
    destruct (orderJournalEventOnViewSocket ev w) eqn:Hs.
    + injection H as <-. split; [done | right]. split_and!; auto.
    + case_if_in H; [|done]. injection H as <-. bool_hyps.
      split; [done | right]. split_and!; auto.
  - intros H.
    assert (Hall : forall u, In u (h :: hs) -> In u scope /\ v_PermID u = e_PermID ev).
    { intros u Hu. rewrite <- Hh in Hu. apply List.filter_In in Hu. destruct Hu as [? E].
      split; [done | by apply Z.eqb_eq]. }
    assert (Hsel : In v (h :: hs) /\
      (orderJournalEventOnViewSocket ev v = true \/ e_clientIDPresent ev = true)).
    { destruct hs as [|h2 hs'].
      - case_if_in H; [done|]. injection H as <-. split; [by left|].
        destruct (orderJournalEventOnViewSocket ev h), (e_clientIDPresent ev); auto.
      - destruct (List.filter orderViewPlacedByCanary (h :: h2 :: hs')) as [|p [|]] eqn:Hp; try done.
        case_if_in H; [done|]. injection H as <-.
        split; [by apply (filter_singleton_In orderViewPlacedByCanary)|].
        destruct (orderJournalEventOnViewSocket ev p), (e_clientIDPresent ev); auto. }
    destruct Hsel as [Hin Hs]. destruct (Hall v Hin). split; [done|]. by left.
Qed.

Lemma viewWithoutPermID_cases ev scope v :
  orderJournalViewWithoutPermID ev scope = Some v ->
  In v scope /\ orderJournalEventOnViewSocket ev v = true /\
  (orderJournalRefNames ev v = true \/
   (e_clientIDPresent ev = true /\ v_ReservedOrderID v = e_ReservedOrderID ev /\ e_ReservedOrderID ev <> 0)).
Proof.
  unfold orderJournalViewWithoutPermID. intros H.
  set (m := List.filter _ scope) in H.
  assert (Hm : forall u, In u m -> In u scope /\ orderJournalEventOnViewSocket ev u = true /\
                v_ReservedOrderID u = e_ReservedOrderID ev).
  { intros u Hu. apply List.filter_In in Hu. destruct Hu as [? E]. bool_hyps.
    split_and!; done. }
  destruct (if e_OrderRef ev <>s "" then _ else None) as [w|] eqn:Hf.
  - injection H as <-. destruct (e_OrderRef ev <>s "") eqn:Hne; [|done].
    apply List.find_some in Hf as [Hin HP]. apply andb_prop in HP as [Hr Hs].
    split_and!; auto. left. unfold orderJournalRefNames. by rewrite Hne, Hr.
  - case_if_in H; [done|]. bool_hyps.
    assert (Hin : In v m).
    { destruct (List.filter v_Open m) as [|a [|]] eqn:Ho; simplify_eq.
      2: by apply (filter_singleton_In v_Open).
      all: destruct m as [|b [|]]; simplify_eq; by left. }
    destruct (Hm v Hin) as (? & ? & ?). split_and!; auto.
Qed.

(** The accepted row, before and after the shared check. *)
Lemma pairing_inv ev views v :
  orderJournalViewForLifecycleEvent ev views = Some v ->
  let scope := List.filter (orderJournalEventScopeMatchesView ev) views in
  (if negb (e_PermID ev =? 0) then orderJournalViewForPermID ev scope
   else orderJournalViewWithoutPermID ev scope) = Some v /\
  orderJournalPairingContradicted ev v scope = false.
Proof.
  unfold orderJournalViewForLifecycleEvent.
  destruct (if negb (e_PermID ev =? 0) then _ else _) as [w|]; intros H; [|done].
  case_if_in H; [done|]. by injection H as ->.
Qed.

Lemma pairing_in_scope ev views v :
  orderJournalViewForLifecycleEvent ev views = Some v ->
  In v views /\ orderJournalEventScopeMatchesView ev v = true.
Proof.
  intros H. apply pairing_inv in H as [H _]. apply List.filter_In.
  case_if_in H; [by apply viewForPermID_cases in H as [? _] | by apply viewWithoutPermID_cases in H as [? _]].
Qed.

Lemma pairing_refs_agree ev views v :
  orderJournalViewForLifecycleEvent ev views = Some v -> orderJournalRefsDiffer ev v = false.
Proof.
  intros H. apply pairing_inv in H as [_ H]. unfold orderJournalPairingContradicted in H.
  by case_if_in H.
Qed.

(** Pairing is sound.  The row a broker callback is paired with is one
    of the journal's rows, under the callback's own client, account and mode;
    references and permanent ids agree wherever both sides carry one, and so do
    the order ids of a row that already holds the callback's permanent id; a
    callback without a permanent id pairs on its own socket only; and a row on
    another socket is reached only by a callback that names its client id
    itself and either the row's permanent id or both its reference and its
    order id. *)
Theorem paired_row_is_the_callbacks_order ev views v :
  orderJournalViewForLifecycleEvent ev views = Some v ->
  In v views /\ orderJournalEventScopeMatchesView ev v = true /\
  (e_OrderRef ev <> "" -> v_OrderRef v <> "" -> e_OrderRef ev = v_OrderRef v) /\
  (e_PermID ev <> 0 -> v_PermID v <> 0 ->
     v_PermID v = e_PermID ev /\
     (e_ReservedOrderID ev <> 0 -> v_ReservedOrderID v <> 0 ->
        v_ReservedOrderID v = e_ReservedOrderID ev)) /\
  (orderJournalEventOnViewSocket ev v = false ->
     e_PermID ev <> 0 /\ e_clientIDPresent ev = true /\
     (v_PermID v = e_PermID ev \/
      (orderJournalRefNames ev v = true /\ orderJournalOrderIDNames ev v = true))).
Proof.
  intros H. destruct (pairing_in_scope _ _ _ H) as [Hin Hsc].
  apply pairing_inv in H as [Hsel Hok]. unfold orderJournalPairingContradicted in Hok.
  split_and!; [done | done | | |].
  - intros H1 H2. case_if_in Hok; [done|]. unfold orderJournalRefsDiffer in *.
    apply String.eqb_neq in H1, H2. rewrite H1, H2 in *. cbn in *. bool_hyps. done.
  - intros Hp Hv. apply Z.eqb_neq in Hp, Hv. rewrite Hp, Hv in Hok. cbn [negb andb] in Hok.
    case_if_in Hok; [done|]. destruct (e_PermID ev =? v_PermID v) eqn:E; [|done].
    apply Z.eqb_eq in E. split; [done|]. intros Hr Hw. rewrite E, Z.eqb_refl in Hok.
    apply Z.eqb_neq in Hr, Hw. rewrite Hr, Hw in Hok. cbn in Hok.
    case_if_in Hok; [done|]. bool_hyps. done.
  - intros Hs. destruct (e_PermID ev =? 0) eqn:Hp; cbn [negb] in Hsel.
    + apply viewWithoutPermID_cases in Hsel as (_ & ? & _). congruence.
    + apply Z.eqb_neq in Hp. apply viewForPermID_cases in Hsel as [_ [[Hperm Hc] | (_ & _ & _ & Hr & Hc)]].
      * destruct Hc; [congruence | auto].
      * destruct Hc as [? | [? ?]]; [congruence | auto].
Qed.

(** Only the broker's own openOrder introduces a permanent id.  A
    callback that carries a permanent id is paired with a row that has none
    only when it is an openOrder naming that row's non-empty reference, the row
    is open, no row of the callback's scope holds that permanent id, and no
    other open row without a permanent id is named by it, by reference or by
    order id.  A status or an execution never binds a permanent id. *)
Theorem permanent_id_introduced_only_by_openOrder ev views v :
  orderJournalViewForLifecycleEvent ev views = Some v ->
  e_PermID ev <> 0 -> v_PermID v = 0 ->
  e_Type ev = orderJournalEventBrokerAcknowledged /\
  e_OrderRef ev <> "" /\ v_OrderRef v = e_OrderRef ev /\ v_Open v = true /\
  (forall u, In u views -> orderJournalEventScopeMatchesView ev u = true ->
     v_PermID u <> e_PermID ev /\
     (v_PermID u = 0 -> v_Open u = true -> orderJournalRefsDiffer ev u = false ->
      orderJournalRefNames ev u = true \/ orderJournalOrderIDNames ev u = true -> u = v)).
Proof.
  intros H Hp Hv. apply pairing_inv in H as [Hsel _].
  apply Z.eqb_neq in Hp. rewrite Hp in Hsel. cbn [negb] in Hsel. apply Z.eqb_neq in Hp.
  apply viewForPermID_cases in Hsel as [_ [[Hperm _] | (Hno & Ht & Hc & Hr & _)]]; [congruence|].
  destruct (filter_singleton_In _ _ _ Hc) as [Hin HP].
  unfold introducible in HP. unfold orderJournalRefNames in Hr. bool_hyps.
  split_and!; try done. intros u Hu Hsc.
  assert (Hus : In u (List.filter (orderJournalEventScopeMatchesView ev) views))
    by (by apply List.filter_In).
  split; [by apply Hno|]. intros Hu0 Huo Hud Hun.
  apply (filter_singleton_unique _ _ _ u Hc Hus). unfold introducible.
  rewrite Hu0, Huo, Hud. cbn. by apply orb_true_iff.
Qed.

Lemma scope_match_same_scope ev view :
  orderJournalEventScopeMatchesView ev view = true ->
  orderJournalRouteIdentity (v_Endpoint view) (e_ClientID ev) (e_Account ev) (e_Mode ev) = view_scope view.
Proof.
  unfold orderJournalEventScopeMatchesView, view_scope, orderJournalRouteIdentity. intros H.
  bool_hyps. match goal with H : e_ClientID ev = _ |- _ => rewrite H end.
  assert (Ha : ToUpper (TrimSpace (e_Account ev)) = ToUpper (TrimSpace (v_Account view)))
    by (by apply EqualFold_ToUpper).
  assert (Hm : ToLower (TrimSpace (e_Mode ev)) = ToLower (TrimSpace (v_Mode view)))
    by (by apply String.eqb_eq).
  by rewrite Ha, Hm.
Qed.

Lemma copied_key_is_row_key ev view :
  orderJournalEventScopeMatchesView ev view = true -> orderJournalRefsDiffer ev view = false ->
  v_OrderRef view <> "" ->
  orderJournalKey (copyOrderJournalIdentityFromView (ev <| e_Endpoint := v_Endpoint view |>) view) =
  orderViewKey view.
Proof.
  intros Hsc Hd Hr. set (je := copyOrderJournalIdentityFromView _ view).
  assert (Href : e_OrderRef je = v_OrderRef view).
  { transitivity (or_s (e_OrderRef ev) (v_OrderRef view)).
    - unfold je, copyOrderJournalIdentityFromView. by case_if.
    - unfold or_s. unfold orderJournalRefsDiffer in Hd. apply String.eqb_neq in Hr. rewrite Hr in Hd.
      destruct (e_OrderRef ev =s "") eqn:E; [done|]. cbn in Hd. by bool_hyps. }
  assert (Hscope : event_scope je = view_scope view).
  { rewrite <- (scope_match_same_scope ev view Hsc).
    unfold orderJournalEventScopeMatchesView in Hsc. bool_hyps.
    transitivity (orderJournalRouteIdentity (or_s (v_Endpoint view) (v_Endpoint view))
      (if e_clientIDPresent ev then e_ClientID ev else v_ClientID view)
      (or_s (e_Account ev) (v_Account view)) (or_s (e_Mode ev) (v_Mode view))).
    - unfold je, copyOrderJournalIdentityFromView. by case_if.
    - assert (Hc : (if e_clientIDPresent ev then e_ClientID ev else v_ClientID view) = e_ClientID ev)
        by (by destruct (e_clientIDPresent ev)).
      rewrite Hc. unfold orderJournalRouteIdentity, or_s.
      assert (Ha : ToUpper (TrimSpace (if e_Account ev =s "" then v_Account view else e_Account ev)) =
                   ToUpper (TrimSpace (e_Account ev)))
        by (case_if; [symmetry; by apply EqualFold_ToUpper | done]).
      assert (Hm : ToLower (TrimSpace (if e_Mode ev =s "" then v_Mode view else e_Mode ev)) =
                   ToLower (TrimSpace (e_Mode ev)))
        by (case_if; [symmetry; by apply String.eqb_eq | done]).
      rewrite Ha, Hm. by case_if. }
  unfold orderJournalKey, orderViewKey. rewrite Href, Hscope.
  apply String.eqb_neq in Hr. by rewrite Hr.
Qed.

Lemma normalize_key ev : orderJournalKey (normalizeOrderLifecycleJournalEvent ev) = orderJournalKey ev.
Proof. unfold normalizeOrderLifecycleJournalEvent. by repeat case_if. Qed.

Lemma enrich_matched ev views je :
  enrichOrderLifecycleEvent ev views = (je, true) ->
  exists v, orderJournalViewForLifecycleEvent ev views = Some v /\
    (v_OrderRef v <> "" -> orderJournalKey je = orderViewKey v).
Proof.
  unfold enrichOrderLifecycleEvent. intros H.
  destruct (orderJournalViewForLifecycleEvent ev views) as [v|] eqn:Hp; [|done].
  pose proof (copied_key_is_row_key ev v (proj2 (pairing_in_scope _ _ _ Hp))
                (pairing_refs_agree _ _ _ Hp)) as Hk.
  exists v. split; [done|]. revert H Hk. generalize (copyOrderJournalIdentityFromView
    (ev <| e_Endpoint := v_Endpoint v |>) v). intros c H Hk. injection H as <-. exact Hk.
Qed.

(** Open-order and status callbacks never mint a row.  With the journal
    readable, whatever such a callback leads the daemon to journal was paired
    with a row already there, and when that row carries a reference the event
    is keyed exactly as the row is, whatever socket the callback arrived on:
    one order, one journal row.  An unmatched callback (a manual order, another
    client's order) journals nothing. *)
Theorem inventory_callbacks_never_mint_rows ev now status views je :
  lifecycleAppend ev now status (Some views) = Some je ->
  one_of (b_Type ev) [OrderLifecycleEventOpenOrder; OrderLifecycleEventStatus] = true ->
  exists v, In v views /\
    orderJournalViewForLifecycleEvent (bindRoute status (orderJournalEventFromLifecycle ev now).1) views = Some v /\
    (v_OrderRef v <> "" -> orderJournalKey je = orderViewKey v).
Proof.
  unfold lifecycleAppend. destruct (orderJournalEventFromLifecycle ev now) as [je0 ok].
  intros H Ht. case_if_in H; [done|]. cbn [fst].
  destruct (enrichOrderLifecycleEvent (bindRoute status je0) views) as [je1 matched] eqn:He.
  destruct matched.
  - apply enrich_matched in He as (v & Hp & Hk). exists v.
    destruct (pairing_in_scope _ _ _ Hp) as [Hin _]. split_and!; [done | done |]. intros Hr.
    rewrite <- (Hk Hr), <- (normalize_key je1). revert H. cbn [present negb andb].
    generalize (normalizeOrderLifecycleJournalEvent je1). intros c H. by injection H as <-.
  - exfalso. cbn [present negb andb] in H. apply one_of_true in Ht. simpl in Ht.
    destruct Ht as [E | [E | []]]; by rewrite <- E in H.
Qed.

(** A pairing by reference does not compare order ids.  On its own
    socket, a callback that names a row's reference is paired with that row
    when it carries no permanent id, or is an openOrder for an open row that
    has none, whatever the two broker order ids are: the comment on
    orderJournalPairingContradicted says the order ids agree where both sides
    carry one, and the code compares them only when the permanent ids agree. *)
Theorem reference_pairing_ignores_order_id ev v :
  orderJournalEventScopeMatchesView ev v = true ->
  orderJournalRefNames ev v = true -> orderJournalEventOnViewSocket ev v = true ->
  e_PermID ev = 0 \/
  (e_Type ev = orderJournalEventBrokerAcknowledged /\ v_PermID v = 0 /\ v_Open v = true) ->
  orderJournalViewForLifecycleEvent ev [v] = Some v.
Proof.
  intros Hsc Hr Hs Hcase.
  assert (Hd : orderJournalRefsDiffer ev v = false).
  { unfold orderJournalRefNames in Hr. unfold orderJournalRefsDiffer. bool_hyps.
    match goal with H : v_OrderRef v = _ |- _ => rewrite H, eqb_s_refl end. by rewrite andb_false_r. }
  assert (Hok : orderJournalPairingContradicted ev v [v] = false).
  { unfold orderJournalPairingContradicted. rewrite Hd. cbn [existsb]. rewrite eqb_s_refl. cbn [negb andb orb].
    destruct (e_PermID ev =? 0) eqn:Hp; [done|]. destruct Hcase as [E | (_ & E & _)].
    - by rewrite E in Hp.
    - by rewrite E, (Z.eqb_sym 0 (e_PermID ev)), Hp. }
  unfold orderJournalViewForLifecycleEvent. cbn [List.filter]. rewrite Hsc.
  unfold orderJournalRefNames in Hr. apply andb_prop in Hr as [Hne Heq].
  destruct (e_PermID ev =? 0) eqn:Hp; cbn [negb].
  - unfold orderJournalViewWithoutPermID. cbn [List.find]. rewrite Hne, Heq, Hs. cbn [andb]. by rewrite Hok.
  - destruct Hcase as [E | (Ht & Hv & Ho)]; [by rewrite E in Hp|].
    unfold orderJournalViewForPermID, orderJournalRefNames. cbn [List.filter].
    rewrite Hv, (Z.eqb_sym 0 (e_PermID ev)), Hp, Ht, Ho, Hd, Hne, Heq. cbn [negb orb andb].
    apply negb_true_iff in Hne. rewrite Hne, eqb_s_refl. cbn [negb orb andb Z.eqb].
    rewrite Heq, Hs. cbn [negb orb]. by rewrite Hok.
Qed.

(** Two rows placed through two sockets of one client, and callbacks for them. *)
Definition row_ex : OrderView :=
  zero_OrderView <| v_OrderRef := "canary-9" |> <| v_ReservedOrderID := 41 |> <| v_ClientID := 15 |>
    <| v_Account := "DU123" |> <| v_Mode := "paper" |> <| v_Endpoint := "127.0.0.1:4002" |>
    <| v_Open := true |> <| v_PreviewTokenID := "tok" |>.
Definition held_ex : OrderView :=
  row_ex <| v_OrderRef := "canary-8" |> <| v_ReservedOrderID := 40 |> <| v_PermID := 900 |>
    <| v_Endpoint := "127.0.0.1:7497" |>.
Definition rows_ex : list OrderView := [held_ex; row_ex].
Definition route_ex : tradingRoute := mkRoute "DU123" "127.0.0.1:4002" "paper" 15.
Definition cb_open : OrderLifecycleEvent :=
  zero_OrderLifecycleEvent <| b_Type := OrderLifecycleEventOpenOrder |> <| b_OrderID := 41 |>
    <| b_PermID := 901 |> <| b_OrderRef := "canary-9" |> <| b_ClientID := 15 |>
    <| b_ClientIDPresent := true |> <| b_Account := "du123" |>.
Definition cb_status : OrderLifecycleEvent :=
  cb_open <| b_Type := OrderLifecycleEventStatus |> <| b_OrderID := 40 |> <| b_PermID := 900 |>
    <| b_OrderRef := "" |> <| b_Status := "Submitted" |>.
Definition je_of (ev : OrderLifecycleEvent) : orderJournalEvent :=
  bindRoute route_ex (orderJournalEventFromLifecycle ev 7).1.

Lemma paired_row_is_the_callbacks_order_witness :
  v_PermID held_ex = e_PermID (je_of cb_status) /\
  orderJournalEventOnViewSocket (je_of cb_status) held_ex = false.
Proof.
  split; [|vm_compute; reflexivity].
  apply (paired_row_is_the_callbacks_order (je_of cb_status) rows_ex held_ex);
    [vm_compute; reflexivity | vm_compute; discriminate | vm_compute; discriminate].
Defined.

Lemma permanent_id_introduced_only_by_openOrder_witness :
  orderJournalViewForLifecycleEvent (je_of cb_open) rows_ex = Some row_ex /\
  e_Type (je_of cb_open) = orderJournalEventBrokerAcknowledged.
Proof.
  split; [vm_compute; reflexivity|].
  apply (permanent_id_introduced_only_by_openOrder (je_of cb_open) rows_ex row_ex);
    [vm_compute; reflexivity | vm_compute; discriminate | vm_compute; reflexivity].
Defined.

Lemma inventory_callbacks_never_mint_rows_witness :
  exists je v, lifecycleAppend cb_status 7 route_ex (Some rows_ex) = Some je /\ In v rows_ex /\
    orderJournalViewForLifecycleEvent (je_of cb_status) rows_ex = Some v /\
    (v_OrderRef v <> "" -> orderJournalKey je = orderViewKey v).
Proof.
  destruct (lifecycleAppend cb_status 7 route_ex (Some rows_ex)) as [je|] eqn:H;
    [|vm_compute in H; discriminate H].
  destruct (inventory_callbacks_never_mint_rows cb_status 7 route_ex rows_ex je H) as [v Hv];
    [vm_compute; reflexivity|]. by exists je, v.
Defined.

Lemma reference_pairing_ignores_order_id_witness :
  let ev := je_of (cb_open <| b_OrderID := 77 |>) in
  e_ReservedOrderID ev <> v_ReservedOrderID row_ex /\
  orderJournalViewForLifecycleEvent ev [row_ex] = Some row_ex.
Proof.
  split; [vm_compute; discriminate|]. apply reference_pairing_ignores_order_id;
    [vm_compute; reflexivity | vm_compute; reflexivity | vm_compute; reflexivity |].
  right. vm_compute. repeat split.
Defined.
