(* ===== verification/OrderJournal.v ===== *)
(** * The order journal over the durable store

    src/internal/daemon/order_journal.go: the adapter between journal events and
    the store's records.  An event is normalised, validated, bound to its broker
    scope and encoded; a record is decoded and checked against its own columns;
    the whole journal is read page by page.  Proved: the paged read returns
    every record exactly once, in order, and a batch appended at the head reads
    back as the old journal followed by the normalised batch. *)

From stdpp Require Import base decidable list strings gmap.
From Stdlib Require Import ZArith Lia String Ascii Sorting.Sorted.
From S2P Require Import Prelude OrderTypes OrderStatus OrderKeys CoreStore CoreStoreOps CoreStoreFacts CoreStoreLog CoreStoreGuards.

(** Errors of the adapter: its own, the store's (wrapped), a token used twice. *)
Inductive journalErr : Type :=
| JErr (msg : string)
| JCore (e : coreErr)
| JTokenUsed (tokenID : string).

Abbreviation jres := (result journalErr).

(** ** Event validation *)

Definition validOrderActionKind (action : ActionKind) : bool :=
  one_of action [ActionPlace; ActionModify; ActionCancel; ActionPurge; ActionRestore; ActionExercise;
                 ActionSmokeCleanup].

Definition validOrderTransmitOrigin (origin : TransmitOrigin) : bool :=
  one_of origin [OriginAgentCLI; OriginHumanCLI; OriginDaemon].

Definition validOrderSendDisposition (disposition : SendDisposition) : bool :=
  one_of disposition [SendDispositionDefinitelyUnsent; SendDispositionMayHaveWritten;
                      SendDispositionUnknown].

(** validateOrderJournalEvent *)
Definition validateOrderJournalEvent (ev : orderJournalEvent) : jres unit :=
  if e_Type ev =s "" then Err (JErr "order journal event type is required")
  else if negb (e_Version ev =? orderJournalFileVersion)
  then Err (JErr "unsupported order journal version")
  else if (128 <? String.length (e_AttemptID ev))%nat || (TrimSpace (e_AttemptID ev) <>s e_AttemptID ev)
  then Err (JErr "order journal attempt id is invalid")
  else if (e_ActionKind ev <>s "") && negb (validOrderActionKind (e_ActionKind ev))
  then Err (JErr "order journal action kind is invalid")
  else if (e_TransmitOrigin ev <>s "") && negb (validOrderTransmitOrigin (e_TransmitOrigin ev))
  then Err (JErr "order journal transmit origin is invalid")
  else if (e_AttemptID ev <>s "") && (e_ActionKind ev =s "")
  then Err (JErr "order journal attempt requires an action kind")
  else if (e_SendDisposition ev <>s "") &&
          ((e_Type ev <>s orderJournalEventSendError) || (e_AttemptID ev =s "") ||
           negb (validOrderSendDisposition (e_SendDisposition ev)))
  then Err (JErr "order journal send disposition is invalid")
  else if ((e_Type ev =s orderJournalEventSendCompleted) || (e_Type ev =s orderJournalEventSendError)) &&
          (e_AttemptID ev <>s "") && (e_ActionKind ev =s "")
  then Err (JErr "typed order send outcome requires an action kind")
  else Ok tt.

(** ** Provenance *)

Definition originIsHuman (origin : string) : bool :=
  one_of origin [OrderOriginHumanTTY; OrderOriginPairedDevice].

Definition normalizedWriteOrigin (origin : string) : string :=
  if originIsHuman origin || (origin =s OrderOriginDaemonPreAuthorised) ||
     (origin =s OrderOriginDaemonOwnerQueued) || (origin =s OrderOriginDaemonProtectiveGuard) ||
     (origin =s OrderOriginDeskAutomatic)
  then origin else OrderOriginAgent.

Definition coreOrderOrigin (origin : string) : TransmitOrigin :=
  if TrimSpace origin =s "" then OriginDaemon
  else
    let o := normalizedWriteOrigin origin in
    if (o =s OrderOriginHumanTTY) || (o =s OrderOriginPairedDevice) then OriginHumanCLI
    else if o =s OrderOriginAgent then OriginAgentCLI
    else OriginDaemon.

Definition coreOrderActionForEvent (ev : orderJournalEvent) : ActionKind :=
  if e_ActionKind ev <>s "" then e_ActionKind ev
  else if e_Source ev =s legacyPurgeExecuteSource then ActionPurge
  else if e_Source ev =s legacyPurgeRestoreSource then ActionRestore
  else if e_Source ev =s "opportunity" then ActionExercise
  else if e_Type ev =s orderJournalEventModifyRequested then ActionModify
  else if e_Type ev =s orderJournalEventCancelRequested then ActionCancel
  else if (e_Type ev =s orderJournalEventSendCompleted) || (e_Type ev =s orderJournalEventSendError)
  then ""
  else ActionPlace.

(** hex.EncodeToString *)
Definition hex_digit (n : N) : ascii := ascii_of_N (if (n <? 10)%N then (48 + n)%N else (87 + n)%N).
Fixpoint hex_encode (s : string) : string :=
  match s with
  | EmptyString => ""
  | String c r => String (hex_digit (N_of_ascii c / 16)) (String (hex_digit (N_of_ascii c mod 16)) (hex_encode r))
  end.

(** [t.UnixMilli()]: the zero time is 62135596800 seconds before the epoch. *)
Definition UnixMilli (t : time) : Z := (t - 62135596800 * Second) / 1000000.

(** What json.Unmarshal finds under "client_id". *)
Inductive clientIDField := ClientAbsent | ClientInt (id : Z) | ClientInvalid.

(** encoding/json on an event: Marshal (an error for a NaN or infinite number),
    Unmarshal into the struct (the unexported flag stays false), and the
    "client_id" member of the object. *)
Class JournalEnv := {
  journal_core :: CoreEnv;
  json_marshal : orderJournalEvent -> option string;
  json_unmarshal : string -> option orderJournalEvent;
  json_client_id : string -> clientIDField;
  json_faithful : orderJournalEvent -> Prop
}.

(** What the journal relies on: a faithful event (UTF-8 text, no negative zero,
    a representable time) survives Marshal and Unmarshal, and "client_id,omitempty"
    writes the member exactly when the id is not zero. *)
Class JsonLaws `{JournalEnv} : Prop := {
  json_roundtrip : forall ev raw, json_faithful ev -> json_marshal ev = Some raw ->
    json_unmarshal raw = Some (ev <| e_clientIDPresent := false |>);
  json_client_id_omitempty : forall ev raw, json_faithful ev -> json_marshal ev = Some raw ->
    json_client_id raw = if e_ClientID ev =? 0 then ClientAbsent else ClientInt (e_ClientID ev)
}.

Section Journal.
Context `{JournalEnv}.

(** coreBrokerScopeFromEvent *)
Definition coreBrokerScopeFromEvent (ev : orderJournalEvent) : jres BrokerScope :=
  if (TrimSpace (e_Endpoint ev) =s "") || (TrimSpace (e_Account ev) =s "") || (e_ClientID ev <? 0)
  then Err (JErr "order event requires complete endpoint/client/account/mode identity")
  else
    let mode := ToLower (TrimSpace (e_Mode ev)) in
    if (mode <>s "paper") && (mode <>s "live") then Err (JErr "order event broker mode is invalid")
    else
      let route := orderJournalRouteIdentity (e_Endpoint ev) (e_ClientID ev) (e_Account ev) mode in
      Ok (mkBrokerScope ("broker-" ++s hex_encode (sha256 route)) (TrimSpace (e_Endpoint ev))
            (e_ClientID ev) (ToUpper (TrimSpace (e_Account ev))) mode).

(** The normalisation at the top of coreOrderEventRecord. *)
Definition normalizeRecordEvent (now : time) (ev : orderJournalEvent) : orderJournalEvent :=
  ev <| e_At := if IsZero (e_At ev) then now else e_At ev |>
     <| e_Version := if e_Version ev =? 0 then orderJournalFileVersion else e_Version ev |>
     <| e_Endpoint := TrimSpace (e_Endpoint ev) |>
     <| e_Account := ToUpper (TrimSpace (e_Account ev)) |>
     <| e_Mode := ToLower (TrimSpace (e_Mode ev)) |>.

(** coreOrderEventRecord; [id] is the outcome of randomTokenID. *)
Definition coreOrderEventRecord (now : time) (id : option string) (ev : orderJournalEvent)
    (action : ActionKind) (origin : TransmitOrigin) : jres (OrderEventRecord * orderJournalEvent) :=
  let ev := normalizeRecordEvent now ev in
  let? _ := validateOrderJournalEvent ev in
  let? scope := coreBrokerScopeFromEvent ev in
  let action := if action =s "" then e_ActionKind ev else action in
  let action := if action =s "" then coreOrderActionForEvent ev else action in
  if action =s "" then Err (JErr "order event requires an explicit broker action kind")
  else if (e_ActionKind ev <>s "") && (e_ActionKind ev <>s action)
  then Err (JErr "order event action does not match durable action")
  else
    let ev := ev <| e_ActionKind := action |> in
    let origin := if origin =s "" then e_TransmitOrigin ev else origin in
    let origin := if origin =s "" then coreOrderOrigin (e_Origin ev) else origin in
    if (e_TransmitOrigin ev <>s "") && (e_TransmitOrigin ev <>s origin)
    then Err (JErr "order event origin does not match durable origin")
    else
      let ev := ev <| e_TransmitOrigin := origin |> in
      match json_marshal ev with
      | None => Err (JErr "marshal order event")
      | Some raw =>
          match id with
          | None => Err (JErr "generate order event key")
          | Some eventID =>
              Ok (mkOrderEventRecord 0 scope ("order-" ++s eventID) (UnixMilli (e_At ev)) (e_Type ev)
                    action origin (e_OrderRef ev) (e_PreviewTokenID ev) (e_ReservedOrderID ev)
                    (e_PermID ev) (e_Status ev) raw, ev)
          end
      end.

(** decodeOrderJournalLine *)
Definition decodeOrderJournalLine (raw : string) : jres orderJournalEvent :=
  match json_unmarshal raw with
  | None => Err (JErr "decode")
  | Some ev =>
      let? ev := match json_client_id raw with
                 | ClientAbsent => Ok ev
                 | ClientInt id => Ok (ev <| e_ClientID := id |> <| e_clientIDPresent := true |>)
                 | ClientInvalid => Err (JErr "client_id must be an integer")
                 end in
      if negb (e_Version ev =? orderJournalFileVersion) then Err (JErr "unsupported order journal version")
      else let? _ := validateOrderJournalEvent ev in Ok ev
  end.

(** decodeCoreOrderEvent *)
Definition decodeCoreOrderEvent (record : OrderEventRecord) : jres orderJournalEvent :=
  let? ev := decodeOrderJournalLine (r_RawJSON record) in
  let? want := coreBrokerScopeFromEvent ev in
  let? ev := if e_ActionKind ev =s "" then Ok (ev <| e_ActionKind := r_Action record |>)
             else if e_ActionKind ev <>s r_Action record
             then Err (JErr "action projection does not match payload") else Ok ev in
  let? ev := if e_TransmitOrigin ev =s "" then Ok (ev <| e_TransmitOrigin := r_Origin record |>)
             else if e_TransmitOrigin ev <>s r_Origin record
             then Err (JErr "origin projection does not match payload") else Ok ev in
  if negb (sameScope want (r_Scope record)) || (e_Type ev <>s r_Type record) ||
     (e_OrderRef ev <>s r_OrderRef record) || (e_PreviewTokenID ev <>s r_PreviewTokenID record) ||
     negb (e_ReservedOrderID ev =? r_ReservedOrderID record) ||
     negb (e_PermID ev =? r_PermID record) || (e_Status ev <>s r_Status record)
  then Err (JErr "projection does not match payload")
  else Ok ev.

(** ** The adapter's operations

    The journal holds at most one attached store ([None]: not attached). *)

(** coreStore *)
Definition coreStore (j : option store) : jres store :=
  match j with
  | None => Err (JErr "order journal authority is unavailable")
  | Some s => if negb (hl_Ready (st_health s)) then Err (JErr "order journal authority is blocked") else Ok s
  end.

(** What one append takes from its environment: the clock, the random event
    keys, Go's map order and the store's faults. *)
Record appendEnv := mkAppendEnv {
  ae_clock : nat -> time; ae_ids : nat -> option string;
  ae_order : gmap string BrokerScope -> list BrokerScope; ae_faults : faults
}.

(** The records of a batch, from its [i]-th event on. *)
Fixpoint encodeEvents (env : appendEnv) (i : nat) (action : ActionKind) (origin : TransmitOrigin)
    (events : list orderJournalEvent) : jres (list (OrderEventRecord * orderJournalEvent)) :=
  match events with
  | [] => Ok []
  | ev :: rest =>
      let? p := coreOrderEventRecord (ae_clock env i) (ae_ids env i) ev action origin in
      let? ps := encodeEvents env (S i) action origin rest in
      Ok (p :: ps)
  end.

Definition core_err {A} (r : cres A) : jres A := match r with Ok a => Ok a | Err e => Err (JCore e) end.

(** appendAllAtHead with appendAllAtHeadLocked; AppendAll passes -1. *)
Definition appendAllAtHead (env : appendEnv) (j : option store) (events : list orderJournalEvent)
    (expectedLastEventSeq : Z) : option store * jres unit :=
  match events with
  | [] => (j, Ok tt)
  | _ =>
      match coreStore j with
      | Err e => (j, Err e)
      | Ok s =>
          match encodeEvents env 0 "" "" events with
          | Err e => (j, Err e)
          | Ok ps =>
              let '(s', r) :=
                if 0 <=? expectedLastEventSeq
                then AppendOrderEventsAtHead (ae_order env) s (ae_faults env) expectedLastEventSeq (map fst ps)
                else AppendOrderEvents (ae_order env) s (ae_faults env) (map fst ps) in
              (Some s', let? _ := core_err r in Ok tt)
          end
      end
  end.

Definition AppendAll env (j : option store) (events : list orderJournalEvent) : option store * jres unit :=
  appendAllAtHead env j events (-1).

Definition Append env (j : option store) (ev : orderJournalEvent) : option store * jres unit :=
  AppendAll env j [ev].

Definition AppendAllAtHead env (j : option store) (events : list orderJournalEvent)
    (expectedLastEventSeq : Z) : option store * jres unit :=
  if expectedLastEventSeq <? 0 then (j, Err (JErr "expected order event head must not be negative"))
  else appendAllAtHead env j events expectedLastEventSeq.

(** AuthorityHead *)
Definition JournalAuthorityHead (j : option store) : jres AuthorityHead :=
  let? s := coreStore j in Ok (db_head (st_db s)).

(** LatestOrderEventSeq *)
Definition JournalLatestOrderEventSeq (j : option store) (ev : orderJournalEvent) : jres Z :=
  let? s := coreStore j in
  let? scope := coreBrokerScopeFromEvent ev in
  core_err (LatestOrderEventSeq s scope (e_ReservedOrderID ev)).

(** ** Reading the whole journal *)

Definition pageQuery (after limit : Z) : OrderQuery := mkOrderQuery "" 0 0 after "" None None "" limit.
Definition pageSize : Z := 10000.

(** The paging loop of LoadEvents; [None] is out of fuel. *)
Fixpoint loadPages (fuel : nat) (s : store) (after : Z) (records : list OrderEventRecord)
    : option (jres (list OrderEventRecord)) :=
  match fuel with
  | O => None
  | S n =>
      match LoadOrderEvents s (pageQuery after pageSize) with
      | Err e => Some (Err (JCore e))
      | Ok page =>
          let records := records ++ page in
          if Z.of_nat (List.length page) <? pageSize then Some (Ok records)
          else loadPages n s (match last page with Some r => r_EventSeq r | None => after end) records
      end
  end.

Definition page_fuel (s : store) : nat := S (List.length (db_orders (st_db s))).

Fixpoint decodeAll (records : list OrderEventRecord) : jres (list orderJournalEvent) :=
  match records with
  | [] => Ok []
  | r :: rest =>
      let? ev := decodeCoreOrderEvent r in
      let? evs := decodeAll rest in
      Ok (ev :: evs)
  end.

(** LoadEvents *)
Definition LoadEvents (j : option store) (limit : Z) : jres (list orderJournalEvent) :=
  let? s := coreStore j in
  match loadPages (page_fuel s) s 0 [] with
  | None => Err (JErr "out of fuel")
  | Some r =>
      let? records := r in
      let? events := decodeAll records in
      let n := Z.of_nat (List.length events) in
      Ok (if (0 <? limit) && (limit <? n) then drop (Z.to_nat (n - limit)) events else events)
  end.

(** ** Staging a broker write *)

(** The loop of stagePreTransmitLocked: the records, their common scope and
    the highest reserved id. *)
Fixpoint stageLoop (env : appendEnv) (i : nat) (action : ActionKind) (origin : TransmitOrigin)
    (events : list orderJournalEvent) (scope : BrokerScope) (reserved : Z)
    : jres (list OrderEventRecord * BrokerScope * Z) :=
  match events with
  | [] => Ok ([], scope, reserved)
  | ev :: rest =>
      let? p := coreOrderEventRecord (ae_clock env i) (ae_ids env i) ev action origin in
      let? scope := if scopeZero scope then Ok (r_Scope p.1)
                    else if negb (sameScope (r_Scope p.1) scope) then Err (JCore ErrBrokerScopeCollision)
                    else Ok scope in
      let reserved := if reserved <? e_ReservedOrderID p.2 then e_ReservedOrderID p.2 else reserved in
      let? q := stageLoop env (S i) action origin rest scope reserved in
      Ok (p.1 :: q.1.1, q.1.2, q.2)
  end.

(** stagePreTransmitLocked *)
Definition stagePreTransmitLocked (env : appendEnv) (j : option store) (tokenID authorityEpoch : string)
    (signerGeneration requestedFloor : Z) (action : ActionKind) (origin : TransmitOrigin)
    (events : list orderJournalEvent) (expectedOrderEventSeq : option Z)
    : option store * jres PreTransmitResult :=
  match
    let? s := coreStore j in
    if match events with [] => true | _ => false end
    then Err (JErr "pre-transmit order events are required")
    else
      let? a := stageLoop env 0 action origin events zero_BrokerScope requestedFloor in
      Ok (s, mkPreTransmit a.1.2 (if tokenID <>s "" then HashPreviewTokenID tokenID else zero_digest)
               authorityEpoch signerGeneration requestedFloor a.2 expectedOrderEventSeq action origin a.1.1)
  with
  | Err e => (j, Err e)
  | Ok (s, request) =>
      let '(s', r) := StagePreTransmit s (ae_faults env) request in
      (Some s', match r with
                | Ok a => Ok a
                | Err ErrPreviewTokenConsumed => Err (JTokenUsed tokenID)
                | Err e => Err (JCore e)
                end)
  end.

(** StagePreTransmit *)
Definition JournalStagePreTransmit env j tokenID authorityEpoch signerGeneration requestedFloor action origin
    events : option store * jres unit :=
  let '(j', r) := stagePreTransmitLocked env j tokenID authorityEpoch signerGeneration requestedFloor action
                    origin events None in
  (j', let? _ := r in Ok tt).

(** StageModifyPreTransmit *)
Definition StageModifyPreTransmit env j tokenID authorityEpoch signerGeneration requestedFloor origin
    (expectedOrderEventSeq : Z) events : option store * jres Z :=
  let '(j', r) := stagePreTransmitLocked env j tokenID authorityEpoch signerGeneration requestedFloor
                    ActionModify origin events (Some expectedOrderEventSeq) in
  (j', let? a := r in
       match last (pr_EventSeqs a) with
       | None => Err (JErr "modify pre-transmit stage returned no durable event sequence")
       | Some seq => Ok seq
       end).

(** WithStableAuthorityHead: [commit] runs only at the expected head. *)
Definition WithStableAuthorityHead {S} (j : option store) (expectedLastEventSeq : Z)
    (commit : S -> S * jres unit) (w : S) : S * jres bool :=
  if expectedLastEventSeq <? 0 then (w, Ok false)
  else
    match JournalAuthorityHead j with
    | Err e => (w, Err e)
    | Ok head =>
        if negb (ah_LastEventSeq head =? expectedLastEventSeq) then (w, Ok false)
        else let '(w', r) := commit w in (w', let? _ := r in Ok true)
    end.

(** ** Encode, then decode *)

(** What a decoded event reads back as: the presence flag is recomputed from
    the payload, where client 0 is not written. *)
Definition readBack (ev : orderJournalEvent) : orderJournalEvent :=
  ev <| e_clientIDPresent := negb (e_ClientID ev =? 0) |>.

Lemma validate_provenance ev a o :
  validateOrderJournalEvent ev = Ok tt -> validOrderActionKind a = true ->
  validOrderTransmitOrigin o = true ->
  validateOrderJournalEvent (ev <| e_ActionKind := a |> <| e_TransmitOrigin := o |>) = Ok tt.
Proof.
  intros Hv Ha Ho. unfold validateOrderJournalEvent in *.
  assert (Hne : (a =s "") = false) by (apply String.eqb_neq; by intros ->).
  cbn [e_Type e_Version e_AttemptID e_ActionKind e_TransmitOrigin e_SendDisposition set_field].
  rewrite Ha, Ho, Hne, ?andb_false_r. cbn [negb]. rewrite ?andb_false_r.
  repeat (case_if_in Hv; [done|]). done.
Qed.

Lemma coreOrderActionForEvent_valid ev :
  e_ActionKind ev = "" -> coreOrderActionForEvent ev <> "" ->
  validOrderActionKind (coreOrderActionForEvent ev) = true.
Proof. intros E. unfold coreOrderActionForEvent. rewrite E. repeat case_if; done. Qed.

Lemma coreOrderOrigin_valid o : validOrderTransmitOrigin (coreOrderOrigin o) = true.
Proof. unfold coreOrderOrigin. by repeat case_if. Qed.

(** What a successful encoding with the event's own provenance says. *)
Lemma encode_inv now id ev r ev' :
  coreOrderEventRecord now id ev "" "" = Ok (r, ev') ->
  exists scope, validateOrderJournalEvent ev' = Ok tt /\ coreBrokerScopeFromEvent ev' = Ok scope /\
    json_marshal ev' = Some (r_RawJSON r) /\ e_ActionKind ev' <> "" /\ e_TransmitOrigin ev' <> "" /\
    r = mkOrderEventRecord 0 scope (r_EventKey r) (r_AtMS r) (e_Type ev') (e_ActionKind ev')
          (e_TransmitOrigin ev') (e_OrderRef ev') (e_PreviewTokenID ev') (e_ReservedOrderID ev')
          (e_PermID ev') (e_Status ev') (r_RawJSON r).
Proof.
  unfold coreOrderEventRecord. set (n := normalizeRecordEvent now ev). clearbody n.
  change ("" =s "") with true. cbv iota zeta. intros He.
  apply rbind_ok in He as ([] & Hval & He). apply rbind_ok in He as (scope & Hsc & He).
  set (a := if e_ActionKind n =s "" then coreOrderActionForEvent n else e_ActionKind n) in He.
  destruct (a =s "") eqn:Ha; [done|]. case_if_in He; [done|].
  change (e_TransmitOrigin (n <| e_ActionKind := a |>)) with (e_TransmitOrigin n) in He.
  change (e_Origin (n <| e_ActionKind := a |>)) with (e_Origin n) in He.
  set (o := if e_TransmitOrigin n =s "" then coreOrderOrigin (e_Origin n) else e_TransmitOrigin n) in He.
  case_if_in He; [done|].
  assert (Hva : validOrderActionKind a = true).
  { unfold a in *. destruct (e_ActionKind n =s "") eqn:E; bool_hyps.
    - by apply coreOrderActionForEvent_valid.
    - unfold validateOrderJournalEvent in Hval. repeat (case_if_in Hval; [done|]).
      destruct (validOrderActionKind (e_ActionKind n)); [done|].
      apply String.eqb_neq in E. rewrite E in *. done. }
  assert (Hvo : validOrderTransmitOrigin o = true).
  { unfold o. destruct (e_TransmitOrigin n =s "") eqn:E; [apply coreOrderOrigin_valid|].
    unfold validateOrderJournalEvent in Hval. repeat (case_if_in Hval; [done|]).
    destruct (validOrderTransmitOrigin (e_TransmitOrigin n)); [done|]. rewrite E in *. done. }
  assert (Hval' := validate_provenance n a o Hval Hva Hvo).
  assert (Hon : o <> "") by (by intros E; rewrite E in Hvo).
  bool_hyps. revert He Hval'. clearbody a o.
  set (ev1 := n <| e_ActionKind := a |> <| e_TransmitOrigin := o |>). intros He Hval'.
  destruct (json_marshal ev1) as [raw|] eqn:Hj; [|done]. destruct id as [key|]; [|done].
  injection He as <- <-. exists scope. cbn [r_RawJSON r_EventKey r_AtMS]. split_and!; done.
Qed.

(** The stored event is the normalised one with its provenance. *)
Lemma encode_event now id ev r ev' :
  coreOrderEventRecord now id ev "" "" = Ok (r, ev') ->
  exists a o, ev' = (normalizeRecordEvent now ev) <| e_ActionKind := a |> <| e_TransmitOrigin := o |>.
Proof.
  unfold coreOrderEventRecord. generalize (normalizeRecordEvent now ev). intros n.
  change ("" =s "") with true. cbv iota zeta. intros He.
  apply rbind_ok in He as ([] & _ & He). apply rbind_ok in He as (scope & _ & He).
  generalize dependent (if e_ActionKind n =s "" then coreOrderActionForEvent n else e_ActionKind n).
  intros a He. do 2 (case_if_in He; [done|]).
  change (e_TransmitOrigin (n <| e_ActionKind := a |>)) with (e_TransmitOrigin n) in He.
  change (e_Origin (n <| e_ActionKind := a |>)) with (e_Origin n) in He.
  generalize dependent (if e_TransmitOrigin n =s "" then coreOrderOrigin (e_Origin n) else e_TransmitOrigin n).
  intros o He. case_if_in He; [done|]. exists a, o. revert He.
  generalize (n <| e_ActionKind := a |> <| e_TransmitOrigin := o |>). intros ev1 He.
  destruct (json_marshal ev1); [|done]. destruct id; [|done]. by injection He as _ <-.
Qed.

(** The checks of decodeCoreOrderEvent against the record's columns. *)
Lemma decode_checks ev r scope :
  coreBrokerScopeFromEvent ev = Ok scope -> e_ActionKind ev <> "" -> e_TransmitOrigin ev <> "" ->
  decodeOrderJournalLine (r_RawJSON r) = Ok ev ->
  r_Scope r = scope -> r_Type r = e_Type ev -> r_Action r = e_ActionKind ev ->
  r_Origin r = e_TransmitOrigin ev -> r_OrderRef r = e_OrderRef ev ->
  r_PreviewTokenID r = e_PreviewTokenID ev -> r_ReservedOrderID r = e_ReservedOrderID ev ->
  r_PermID r = e_PermID ev -> r_Status r = e_Status ev ->
  decodeCoreOrderEvent r = Ok ev.
Proof.
  intros Hsc Ha Ho Hd <- E1 E2 E3 E4 E5 E6 E7 E8. unfold decodeCoreOrderEvent. rewrite Hd. cbn [rbind].
  rewrite Hsc. cbn [rbind]. apply String.eqb_neq in Ha, Ho.
  rewrite Ha, E2, eqb_s_refl. cbn [negb rbind]. rewrite Ho, E3, eqb_s_refl. cbn [negb rbind].
  rewrite E1, E4, E5, E6, E7, E8, !eqb_s_refl, !Z.eqb_refl. unfold sameScope.
  by rewrite bool_decide_eq_true_2.
Qed.

Lemma decode_encode `{!JsonLaws} now id ev r ev' seq :
  coreOrderEventRecord now id ev "" "" = Ok (r, ev') -> json_faithful ev' ->
  decodeCoreOrderEvent (stamped seq r) = Ok (readBack ev').
Proof.
  intros He Hf. apply encode_inv in He as (scope & Hval & Hsc & Hj & Ha & Ho & Hr).
  assert (Hver : e_Version ev' = orderJournalFileVersion).
  { unfold validateOrderJournalEvent in Hval. do 2 (case_if_in Hval; [done|]). by bool_hyps. }
  assert (Hline : decodeOrderJournalLine (r_RawJSON r) = Ok (readBack ev')).
  { unfold decodeOrderJournalLine. rewrite (json_roundtrip _ _ Hf Hj), (json_client_id_omitempty _ _ Hf Hj).
    assert (Hv' : forall b, validateOrderJournalEvent (ev' <| e_clientIDPresent := b |>) = Ok tt)
      by (intros b; exact Hval).
    unfold readBack. destruct (e_ClientID ev' =? 0); cbn [rbind negb].
    - change (e_Version (ev' <| e_clientIDPresent := false |>)) with (e_Version ev').
      by rewrite Hver, Z.eqb_refl, Hv'.
    - change (ev' <| e_clientIDPresent := false |> <| e_ClientID := e_ClientID ev' |>
        <| e_clientIDPresent := true |>) with (ev' <| e_clientIDPresent := true |>).
      change (e_Version (ev' <| e_clientIDPresent := true |>)) with (e_Version ev').
      by rewrite Hver, Z.eqb_refl, Hv'. }
  rewrite Hr in Hline |- *. eapply (decode_checks _ _ scope); [exact Hsc | done | done | exact Hline | ..]; done.
Qed.

(** ** Paging *)

(** Every stored record, in sequence order: what a read without a limit is. *)
Definition allRecords (d : db) : list OrderEventRecord :=
  omap (fun p => loadRow d p.1 p.2) (zip (db_orders d) (db_log d)).

Definition keepAfter (after : Z) (r : OrderEventRecord) : bool := (after =? 0) || (after <? r_EventSeq r).

Lemma pageQuery_matches after n r l : queryMatches (pageQuery after n) r l = (after =? 0) || (after <? row_seq r).
Proof. unfold queryMatches. cbn. by rewrite !andb_true_r. Qed.

Lemma loadRow_seq d r l x : loadRow d r l = Some x -> r_EventSeq x = row_seq r.
Proof. unfold loadRow. destruct (db_scopes d !! row_scope_key r); [|done]. by intros [= <-]. Qed.

(** The rows a cursor query selects, before its limit. *)
Lemma cursor_rows s after n :
  db_wf (st_db s) ->
  omap (fun p => if queryMatches (pageQuery after n) p.1 p.2 then loadRow (st_db s) p.1 p.2 else None)
    (joinLog (st_db s) (stable_sort (fun a b => row_seq a <=? row_seq b) (db_orders (st_db s)))) =
  List.filter (keepAfter after) (allRecords (st_db s)).
Proof.
  intros Hw. rewrite stable_sort_id by (by apply orders_sorted).
  rewrite (joinLog_paired _ _ (db_log (st_db s))) by (first [apply Hw | by apply Forall_forall]).
  unfold allRecords. induction (zip _ _) as [|[r l] ps IH]; [done|].
  rewrite !omap_cons_eq, pageQuery_matches. cbn [fst snd]. rewrite IH.
  destruct (loadRow (st_db s) r l) as [x|] eqn:Hx; [|by case_if].
  cbn [List.filter]. unfold keepAfter at 3. rewrite (loadRow_seq _ _ _ _ Hx). by case_if.
Qed.

Lemma page_of_all s after n :
  db_wf (st_db s) -> 0 < n <= 10000 ->
  LoadOrderEvents s (pageQuery after n) =
  Ok (take (Z.to_nat n) (List.filter (keepAfter after) (allRecords (st_db s)))).
Proof.
  intros Hw Hn. unfold LoadOrderEvents. cbn [rbind pageQuery oq_ScopeKey oq_Limit negb String.eqb].
  replace (n <? 0) with false by lia. replace (10000 <? n) with false by lia. replace (n =? 0) with false by lia.
  cbn [orb]. by rewrite cursor_rows.
Qed.

(** Under a well-formed store the records carry the log's sequence numbers. *)
Lemma allRecords_seqs d : db_wf d -> r_EventSeq <$> allRecords d = log_seq <$> db_log d.
Proof.
  intros [_ _ _ _ Hp Hs]. unfold allRecords. revert Hs.
  induction Hp as [|r l rows logs [Hseq _] _ IH]; intros Hs; [done|].
  apply Forall_cons in Hs as [[sc Hr] Hs]. cbn [zip_with]. rewrite omap_cons_eq. cbn [fst snd].
  unfold loadRow at 1. rewrite Hr, !fmap_cons, IH by done. cbn [r_EventSeq]. by rewrite Hseq.
Qed.

Lemma filter_after pre rest after :
  0 <= after -> Forall (fun r => 0 < r_EventSeq r <= after) pre ->
  Forall (fun r => after < r_EventSeq r) rest ->
  List.filter (keepAfter after) (pre ++ rest) = rest.
Proof.
  intros Ha Hpre Hrest. rewrite List.filter_app.
  assert (H1 : List.filter (keepAfter after) pre = []).
  { induction Hpre as [|r pre Hr _ IH]; [done|]. cbn [List.filter]. unfold keepAfter at 1.
    replace (after =? 0) with false by (symmetry; apply Z.eqb_neq; lia).
    by replace (after <? r_EventSeq r) with false by (symmetry; apply Z.ltb_ge; lia). }
  assert (H2 : List.filter (keepAfter after) rest = rest).
  { induction Hrest as [|r rest Hr _ IH]; [done|]. cbn [List.filter]. unfold keepAfter at 1.
    replace (after <? r_EventSeq r) with true by (symmetry; apply Z.ltb_lt; lia).
    rewrite orb_true_r. by rewrite IH. }
  by rewrite H1, H2.
Qed.

Lemma sorted_split (l1 l2 : list Z) x :
  StronglySorted Z.lt (l1 ++ x :: l2) -> Forall (fun y => y <= x) l1 /\ Forall (fun y => x < y) l2.
Proof.
  induction l1 as [|y l1 IH]; intros Hs; cbn [app] in Hs; apply StronglySorted_inv in Hs as [Hs Hy].
  - split; [constructor | done].
  - destruct (IH Hs) as [H1 H2]. split; [|done]. constructor; [|done].
    apply Forall_app in Hy as [_ Hy]. apply Forall_cons in Hy as [Hy _]. lia.
Qed.

(** Moving the cursor to the last record of a page. *)
Lemma cursor_advance pre front r rest after :
  StronglySorted Z.lt (r_EventSeq <$> pre ++ front ++ r :: rest) -> 0 <= after ->
  Forall (fun r => 0 < r_EventSeq r <= after) pre ->
  Forall (fun r => after < r_EventSeq r) (front ++ r :: rest) ->
  0 <= r_EventSeq r /\ Forall (fun x => 0 < r_EventSeq x <= r_EventSeq r) (pre ++ front ++ [r]) /\
  Forall (fun x => r_EventSeq r < r_EventSeq x) rest.
Proof.
  intros Hs Ha Hpre Hrest. rewrite !fmap_app, fmap_cons, List.app_assoc in Hs.
  apply sorted_split in Hs as [Hle Hgt]. apply Forall_app in Hle as [_ Hle].
  apply Forall_app in Hrest as [Hf Hr]. apply Forall_cons in Hr as [Hr _]. cbn beta in Hr.
  split_and!; [lia | | exact (proj1 (Forall_fmap r_EventSeq (fun y => r_EventSeq r < y) rest) Hgt)].
  apply Forall_app. split; [eapply Forall_impl; [exact Hpre|]; cbn beta; intros; lia|].
  apply Forall_app. split; [|repeat constructor; lia]. apply (Forall_fmap r_EventSeq (fun y => y <= r_EventSeq r)) in Hle.
  rewrite Forall_forall in Hf, Hle. apply Forall_forall. intros x Hx.
  specialize (Hf x Hx). specialize (Hle x Hx). cbn in Hf, Hle. lia.
Qed.

(** The paging loop collects exactly the records after its cursor. *)
Lemma loadPages_rest s fuel after acc pre rest :
  db_wf (st_db s) -> allRecords (st_db s) = pre ++ rest -> 0 <= after ->
  Forall (fun r => 0 < r_EventSeq r <= after) pre -> Forall (fun r => after < r_EventSeq r) rest ->
  (List.length rest < fuel)%nat -> loadPages fuel s after acc = Some (Ok (acc ++ rest)).
Proof.
  intros Hw. revert after acc pre rest.
  assert (Hsorted : StronglySorted Z.lt (r_EventSeq <$> allRecords (st_db s)))
    by (rewrite allRecords_seqs by done; apply Hw).
  assert (Hps : (0 < Z.to_nat pageSize)%nat) by (unfold pageSize; lia).
  induction fuel as [|fuel IH]; intros after acc pre rest Hall Ha Hpre Hrest Hlen; [lia|].
  cbn [loadPages]. rewrite page_of_all, Hall, filter_after by (first [done | unfold pageSize; lia]).
  set (n := Z.to_nat pageSize) in *.
  destruct (Z.of_nat (List.length (take n rest)) <? pageSize) eqn:Hshort; bool_hyps;
    rewrite length_take in Hshort; [by rewrite take_ge by (unfold n in *; lia)|].
  assert (Hn : (n <= List.length rest)%nat) by (unfold n in *; lia).
  destruct (last (take n rest)) as [r|] eqn:Hlast.
  2: { apply last_None, (f_equal List.length) in Hlast. rewrite length_take in Hlast. cbn [List.length] in Hlast.
       clearbody n. lia. }
  apply last_Some in Hlast as [front Hfront].
  assert (Hsplit : rest = front ++ r :: drop n rest).
  { rewrite <- (take_drop n rest) at 1. by rewrite Hfront, <- List.app_assoc. }
  rewrite Hall, Hsplit in Hsorted. rewrite Hsplit in Hrest.
  destruct (cursor_advance _ _ _ _ _ Hsorted Ha Hpre Hrest) as (H1 & H2 & H3).
  rewrite (IH (r_EventSeq r) _ (pre ++ take n rest) (drop n rest)); rewrite ?Hfront, ?length_drop; try done.
  - by rewrite <- List.app_assoc, <- Hfront, take_drop.
  - by rewrite <- List.app_assoc, <- Hfront, take_drop.
  - lia.
Qed.

Lemma loadPages_all s :
  db_wf (st_db s) -> loadPages (page_fuel s) s 0 [] = Some (Ok (allRecords (st_db s))).
Proof.
  intros Hw. assert (Hseq := allRecords_seqs _ Hw).
  assert (Hb := wf_log_bound _ Hw). assert (Hp := wf_paired _ Hw).
  rewrite (loadPages_rest s _ 0 [] [] (allRecords (st_db s))); try done.
  - apply Forall_forall. intros r Hr. rewrite Forall_forall in Hb.
    assert (Hin : r_EventSeq r ∈ log_seq <$> db_log (st_db s)) by (rewrite <- Hseq; by apply list_elem_of_fmap_2).
    apply list_elem_of_fmap in Hin as (l & -> & Hl). apply Hb in Hl. lia.
  - apply (f_equal List.length) in Hseq. rewrite !length_fmap in Hseq.
    apply Forall2_length in Hp. unfold page_fuel. lia.
Qed.

(** LoadEvents, without its paging. *)
Lemma LoadEvents_all s :
  db_wf (st_db s) -> hl_Ready (st_health s) = true ->
  LoadEvents (Some s) 0 = decodeAll (allRecords (st_db s)).
Proof.
  intros Hw Hr. unfold LoadEvents, coreStore. rewrite Hr. cbn [negb rbind].
  rewrite loadPages_all by done. cbn [rbind].
  destruct (decodeAll (allRecords (st_db s))); reflexivity.
Qed.

(** ** Append, then read the whole journal *)

Lemma decodeAll_app rs1 rs2 evs1 :
  decodeAll rs1 = Ok evs1 ->
  decodeAll (rs1 ++ rs2) = let? evs2 := decodeAll rs2 in Ok (evs1 ++ evs2).
Proof.
  revert evs1. induction rs1 as [|r rs1 IH]; intros evs1 Hd; cbn [decodeAll app] in *.
  - injection Hd as <-. cbn [app]. by destruct (decodeAll rs2).
  - apply rbind_ok in Hd as (ev & -> & Hd). apply rbind_ok in Hd as (evs & Hevs & [= <-]).
    cbn [rbind]. rewrite (IH _ Hevs). by destruct (decodeAll rs2).
Qed.

Lemma decodeAll_cons r rest ev :
  decodeCoreOrderEvent r = Ok ev ->
  decodeAll (r :: rest) = let? evs := decodeAll rest in Ok (ev :: evs).
Proof. intros Hr. cbn [decodeAll]. by rewrite Hr. Qed.

(** From here on an encoding is used through its lemmas only. *)
#[local] Opaque coreOrderEventRecord decodeCoreOrderEvent.

Lemma encodeEvents_cons env i ev events ps :
  encodeEvents env i "" "" (ev :: events) = Ok ps ->
  exists r ev' ps', ps = (r, ev') :: ps' /\
    coreOrderEventRecord (ae_clock env i) (ae_ids env i) ev "" "" = Ok (r, ev') /\
    encodeEvents env (S i) "" "" events = Ok ps'.
Proof.
  intros He. apply rbind_ok in He as ([r ev'] & Hr & He). apply rbind_ok in He as (ps' & Hps & He).
  exists r, ev', ps'. injection He as <-. done.
Qed.

Lemma encoded_decode `{!JsonLaws} env i events ps seq :
  encodeEvents env i "" "" events = Ok ps -> Forall (fun p => json_faithful p.2) ps ->
  decodeAll (zip_with stamped (newSeqs seq (map fst ps)) (map fst ps)) = Ok (map (fun p => readBack p.2) ps).
Proof.
  revert i ps seq. induction events as [|ev events IH]; intros i ps seq He Hf.
  - injection He as <-. reflexivity.
  - apply encodeEvents_cons in He as (r & ev' & ps' & -> & Hr & Hps).
    apply Forall_cons in Hf as [Hf1 Hf]. cbn [map fst snd newSeqs zip_with].
    rewrite (decodeAll_cons _ _ _ (decode_encode _ _ _ _ _ (seq + 1) Hr Hf1)).
    by rewrite (IH _ _ (seq + 1) Hps Hf).
Qed.

Lemma allRecords_append order expected events d d' qs :
  db_wf d -> order_ok order -> 0 <= expected -> events <> [] ->
  appendAtHeadTx order expected events d = Ok (d', qs) ->
  allRecords d' = allRecords d ++ zip_with stamped qs events.
Proof.
  intros Hw Hord He Hne Htx. assert (Hx := appendAtHeadTx_extends _ _ _ _ _ _ Htx).
  destruct (append_at_head_facts _ _ _ _ _ _ Hw He Hne Htx) as (_ & -> & Ho & Hl & _ & Hsc).
  unfold allRecords. rewrite Ho, Hl, zip_app_paired, omap_app by apply Hw. f_equal.
  - assert (Hs := wf_scoped _ Hw). assert (Hp := wf_paired _ Hw). clear -Hs Hp Hx.
    induction Hp as [|r l rows logs _ _ IH]; [done|]. apply Forall_cons in Hs as [[sc Hr] Hs].
    assert (Hl : loadRow d' r l = loadRow d r l).
    { unfold loadRow. by rewrite Hr, (lookup_weaken _ _ _ _ Hr (ex_scopes _ _ Hx)). }
    cbn [zip_with]. rewrite !omap_cons_eq, IH by done. cbn [fst snd]. by rewrite Hl.
  - rewrite <- (load_new_rows d' (pageQuery 0 pageSize) expected 0 events None) by (try done; by apply Hsc).
    induction (zip _ _) as [|p ps IH]; [done|]. rewrite !omap_cons_eq, pageQuery_matches, IH. done.
Qed.

(** A successful append at the head, seen from the store. *)
Lemma append_all_inv env s j' events expected :
  AppendAllAtHead env (Some s) events expected = (j', Ok tt) -> events <> [] ->
  exists s' ps qs, j' = Some s' /\ hl_Ready (st_health s) = true /\ hl_Ready (st_health s') = true /\
    encodeEvents env 0 "" "" events = Ok ps /\ 0 <= expected /\ map fst ps <> [] /\
    appendAtHeadTx (ae_order env) expected (map fst ps) (st_db s) = Ok (st_db s', qs).
Proof.
  unfold AppendAllAtHead. intros Ha Hne. destruct (expected <? 0) eqn:Hn; [done|]. bool_hyps.
  unfold appendAllAtHead in Ha. destruct events as [|ev events]; [done|].
  unfold coreStore in Ha. destruct (hl_Ready (st_health s)) eqn:Hr; [|done]. cbn [negb] in Ha.
  destruct (encodeEvents env 0 "" "" (ev :: events)) as [ps|] eqn:He; [|done].
  assert (Hps : map fst ps <> []).
  { apply encodeEvents_cons in He as (r & ev' & ps' & -> & _). done. }
  replace (0 <=? expected) with true in Ha by (symmetry; by apply Z.leb_le).
  unfold AppendOrderEventsAtHead, appendOrderEventsAtHead in Ha. apply Z.ltb_ge in Hn. rewrite Hn in Ha.
  apply Z.ltb_ge in Hn. destruct (map fst ps) as [|r rs] eqn:Hm; [done|].
  destruct (validateEvents (r :: rs)); [|done].
  assert (Ho := criticalMutation_outcome s (ae_faults env) (appendAtHeadTx (ae_order env) expected (r :: rs))).
  destruct (criticalMutation s _ _) as [s' [qs|e]]; [|done]. injection Ha as <-.
  inversion Ho; subst. exists s', ps, qs. rewrite Hm. by split_and!; congruence.
Qed.

Lemma load_after_append `{!JsonLaws} env s s' events ps qs expected old :
  db_wf (st_db s) -> order_ok (ae_order env) -> 0 <= expected ->
  encodeEvents env 0 "" "" events = Ok ps -> Forall (fun p => json_faithful p.2) ps -> map fst ps <> [] ->
  hl_Ready (st_health s) = true -> hl_Ready (st_health s') = true ->
  appendAtHeadTx (ae_order env) expected (map fst ps) (st_db s) = Ok (st_db s', qs) ->
  LoadEvents (Some s) 0 = Ok old ->
  LoadEvents (Some s') 0 = Ok (old ++ map (fun p => readBack p.2) ps).
Proof.
  intros Hw Hord Hn He Hf Hps Hr Hr' Htx Hold.
  destruct (append_at_head_facts _ _ _ _ _ _ Hw Hn Hps Htx) as (_ & Hqs & _).
  assert (Hw' : db_wf (st_db s')).
  { destruct (map fst ps) as [|r rs]; [done|]. by eapply appendAtHeadTx_wf. }
  rewrite LoadEvents_all in Hold |- * by done.
  rewrite (allRecords_append _ _ _ _ _ _ Hw Hord Hn Hps Htx), (decodeAll_app _ _ _ Hold), Hqs.
  by rewrite (encoded_decode _ _ _ _ _ He Hf).
Qed.

(** C25.  Append, then read: when a batch is journaled at an expected head,
    the journal's head was exactly that, and reading the whole journal (page
    by page, decoding every record and checking it against its columns)
    returns what it returned before followed by the batch, each event
    normalised and stamped with its provenance.  Nothing is lost, reordered,
    duplicated or altered. *)
Theorem journal_reads_back_what_it_appended `{!JsonLaws} env s j' events expected old :
  db_wf (st_db s) -> order_ok (ae_order env) -> events <> [] ->
  (forall ps, encodeEvents env 0 "" "" events = Ok ps -> Forall (fun p => json_faithful p.2) ps) ->
  AppendAllAtHead env (Some s) events expected = (j', Ok tt) ->
  LoadEvents (Some s) 0 = Ok old ->
  exists ps, encodeEvents env 0 "" "" events = Ok ps /\
    ah_LastEventSeq (db_head (st_db s)) = expected /\
    LoadEvents j' 0 = Ok (old ++ map (fun p => readBack p.2) ps).
Proof.
  intros Hw Hord Hne Hf Ha Hold.
  apply append_all_inv in Ha as (s' & ps & qs & -> & Hr & Hr' & He & Hn & Hps & Htx); [|done].
  exists ps. split; [done|].
  destruct (append_at_head_facts _ _ _ _ _ _ Hw Hn Hps Htx) as (Hexp & _). split; [done|].
  exact (load_after_append _ _ _ _ _ _ _ _ Hw Hord Hn He (Hf ps He) Hps Hr Hr' Htx Hold).
Qed.
End Journal.

(** ** A concrete codec and journal *)

(** Events that differ from a template in their reference only; the payload is
    the reference. *)
Definition wire_template : orderJournalEvent :=
  zero_orderJournalEvent <| e_Version := 1 |> <| e_At := 63900000000 * Second |>
    <| e_Type := orderJournalEventStatusUpdated |> <| e_ReservedOrderID := 41 |> <| e_ClientID := 15 |>
    <| e_Account := "DU123" |> <| e_Endpoint := "127.0.0.1:4002" |> <| e_Mode := "paper" |>
    <| e_Status := "Submitted" |> <| e_ActionKind := ActionPlace |> <| e_TransmitOrigin := OriginDaemon |>.

Definition journal_env_ex : JournalEnv := {|
  journal_core := env_ex;
  json_marshal := fun ev => Some (e_OrderRef ev);
  json_unmarshal := fun raw => Some (wire_template <| e_OrderRef := raw |>);
  json_client_id := fun _ => ClientInt 15;
  json_faithful := fun ev => ev <| e_clientIDPresent := false |> = wire_template <| e_OrderRef := e_OrderRef ev |>
|}.
#[local] Existing Instance journal_env_ex.

#[local] Instance json_laws_ex : JsonLaws.
Proof.
  split; intros ev raw Hf [= <-].
  - cbn. by rewrite Hf.
  - apply (f_equal e_ClientID) in Hf. change (e_ClientID ev = 15) in Hf. by rewrite Hf.
Qed.

Definition append_env_ex : appendEnv :=
  mkAppendEnv (fun _ => 0) (fun i => Some (Itoa (Z.of_nat i))) order_values no_faults.
(** A callback as the daemon hands it over: untrimmed route, no provenance yet. *)
Definition ev_journal (ref : string) : orderJournalEvent :=
  wire_template <| e_OrderRef := ref |> <| e_Account := " du123" |> <| e_Version := 0 |>
    <| e_ActionKind := "" |> <| e_TransmitOrigin := "" |> <| e_clientIDPresent := true |>.

Lemma journal_reads_back_what_it_appended_witness :
  exists j', AppendAllAtHead append_env_ex (Some ready_store) [ev_journal "canary-1"; ev_journal "canary-2"] 0 =
               (j', Ok tt) /\
    exists ps, encodeEvents append_env_ex 0 "" "" [ev_journal "canary-1"; ev_journal "canary-2"] = Ok ps /\
      ah_LastEventSeq (db_head (st_db ready_store)) = 0 /\
      LoadEvents j' 0 = Ok ([] ++ map (fun p => readBack p.2) ps).
Proof.
  destruct (AppendAllAtHead append_env_ex (Some ready_store) [ev_journal "canary-1"; ev_journal "canary-2"] 0)
    as [j' r] eqn:Ha.
  assert (Hr : r = Ok tt) by (apply (f_equal snd) in Ha; vm_compute in Ha; by symmetry).
  rewrite Hr in *. exists j'. split; [reflexivity|].
  apply (journal_reads_back_what_it_appended append_env_ex ready_store j'
           [ev_journal "canary-1"; ev_journal "canary-2"] 0 []).
  - exact fresh_db_wf.
  - exact order_values_ok.
  - discriminate.
  - intros ps He. vm_compute in He. injection He as <-.
    constructor; [vm_compute; reflexivity|]. constructor; [vm_compute; reflexivity | constructor].
  - exact Ha.
  - vm_compute. reflexivity.
Defined.
