(* ===== verification/Protective.v ===== *)
(** * Protective orders against current positions

    src/internal/daemon/order_read_model.go: the order-integrity pass that
    compares every open close-only protective order with the position it is
    meant to close, over the portfolio cache of one broker scope.  Proved: an
    open protective row leaves the pass untouched exactly when the position
    covers what is left of it; otherwise it stays open and cancellable, loses
    modify, and is graded critical with the quantity that would open a short
    (or long) position and, under partial coverage, the quantity to reduce to. *)

From stdpp Require Import base decidable list strings.
From Stdlib Require Import ZArith Lia String.
From S2P Require Import Prelude OrderTypes OrderStatus OrderFold BrokerScope.

Definition SecTypeStock : string := "STOCK".
Definition SecTypeOption : string := "OPTION".
Definition SecTypeFuture : string := "FUTURE".
Definition SecTypeIndex : string := "INDEX".
Definition proposalOrderSource : string := "trade_proposals".

(** The identity fields of rpc.PositionView that this pass reads. *)
Record PositionView := mkPositionView {
  pv_Symbol : string; pv_SecType : string; pv_ConID : Z; pv_Exchange : string; pv_Currency : string;
  pv_LocalSymbol : string; pv_TradingClass : string; pv_Quantity : float64;
  pv_Expiry : string; pv_Right : string; pv_Strike : float64
}.
#[global] Instance PositionView_eta : Eta PositionView := fun r => mkPositionView
  (pv_Symbol r) (pv_SecType r) (pv_ConID r) (pv_Exchange r) (pv_Currency r) (pv_LocalSymbol r)
  (pv_TradingClass r) (pv_Quantity r) (pv_Expiry r) (pv_Right r) (pv_Strike r).

Record PositionsResult := mkPositions { ps_AsOf : time; ps_Stocks : list PositionView; ps_Options : list PositionView }.

Definition positionSecType (raw : string) : string :=
  if raw =s "STK" then SecTypeStock
  else if raw =s "OPT" then SecTypeOption
  else if raw =s "FUT" then SecTypeFuture
  else if raw =s "IND" then SecTypeIndex
  else raw.

(** The row of one cached position, and whether it is an option. *)
Definition positionViewFromCache (p : RawPosition) : PositionView * bool :=
  let c := rp_Contract p in
  let view := mkPositionView (ToUpper (TrimSpace (k_Symbol c))) (positionSecType (k_SecType c)) (k_ConID c)
                (k_Exchange c) (k_Currency c) (k_LocalSymbol c) (k_TradingClass c) (rp_Position p) "" "" f0 in
  if EqualFold (k_SecType c) "OPT"
  then (view <| pv_Expiry := k_Expiry c |> <| pv_Right := k_Right c |> <| pv_Strike := k_Strike c |>, true)
  else (view, false).

(** orderIntegrityPositionsFromCache *)
Definition orderIntegrityPositionsFromCache (raw : list (option RawPosition)) (scope : brokerStateScope)
    (asOf : time) : PositionsResult * bool :=
  if negb (cachedPositionsMatchBrokerScope raw scope) then (mkPositions asOf [] [], false)
  else
    let rows := omap (fun p => match p with
                               | Some p => if rp_Position p =f f0 then None else Some (positionViewFromCache p)
                               | None => None
                               end) raw in
    (mkPositions asOf (map fst (List.filter (fun r => negb r.2) rows)) (map fst (List.filter snd rows)), true).

(** ** Quantities *)

Definition isOption (secType : string) : bool := EqualFold secType "OPT" || EqualFold secType "OPTION".

(** equivalentStockSecType *)
Definition normStockSecType (s : string) : string :=
  let s := ToUpper (TrimSpace s) in if (s =s "ETF") || (s =s "STOCK") then "STK" else s.
Definition equivalentStockSecType (a b : string) : bool := normStockSecType a =s normStockSecType b.

Definition positionViewMatchesOrderView (row : PositionView) (view : OrderView) : bool :=
  if negb (v_ConID view =? 0) && negb (pv_ConID row =? 0) then v_ConID view =? pv_ConID row
  else if negb (EqualFold (pv_Symbol row) (v_Symbol view)) then false
  else if isOption (v_SecType view) then
    if negb (EqualFold (pv_SecType row) "OPT") && negb (EqualFold (pv_SecType row) "OPTION") then false
    else EqualFold (pv_Expiry row) (v_Expiry view) && EqualFold (pv_Right row) (v_Right view) &&
         (fabs (fsub (pv_Strike row) (v_Strike view)) <f f_1e9)
  else equivalentStockSecType (pv_SecType row) (v_SecType view).

(** positionQuantityForOrderView *)
Definition positionQuantityForOrderView (pos : PositionsResult) (view : OrderView) : float64 :=
  if isOption (v_SecType view) then
    match List.find (fun row => positionViewMatchesOrderView row view) (ps_Options pos) with
    | Some row => pv_Quantity row
    | None => f0
    end
  else
    fold_left (fun qty row => if positionViewMatchesOrderView row view then fadd qty (pv_Quantity row) else qty)
      (ps_Stocks pos) f0.

Definition orderViewRemainingQuantity (view : OrderView) : float64 :=
  if v_Remaining view >f f0 then v_Remaining view
  else if (v_Quantity view >f f0) && (v_Filled view <f v_Quantity view)
  then fsub (v_Quantity view) (v_Filled view)
  else v_Quantity view.

Definition orderViewActionCanCloseQuantity (view : OrderView) (current remaining : float64) : bool :=
  if remaining <=f f0 then false
  else
    let action := ToUpper (TrimSpace (v_Action view)) in
    if action =s OrderActionSell then (current >f f0) && (fadd current f_1e9 >=f remaining)
    else if action =s OrderActionBuy then (current <f f0) && (fadd (fabs current) f_1e9 >=f remaining)
    else false.

Definition orderViewIsCloseProtective (view : OrderView) : bool :=
  if present (v_EntryLink view) then (v_EntryState view =s "active") && (v_OrderType view =s "STP")
  else if negb (EqualFold (v_OpenClose view) "C") && negb (EqualFold (v_Source view) proposalOrderSource)
  then false
  else one_of (ToUpper (TrimSpace (v_OrderType view))) [OrderTypeTRAIL; OrderTypeTRAILLIMIT; OrderTypeLMT].

Definition protectiveCloseCoverage (view : OrderView) (current : float64) : float64 :=
  let action := ToUpper (TrimSpace (v_Action view)) in
  if action =s OrderActionSell then current
  else if action =s OrderActionBuy then fopp current
  else f0.

(** ** The pass *)

Definition classifyProtectiveMismatch (view : OrderView) (current remaining : float64) : OrderView :=
  let coverage := protectiveCloseCoverage view current in
  let view := view <| v_ReconciliationSeverity := OrderReconciliationSeverityCritical |> in
  if (coverage >f f0) && (coverage <f remaining) then
    view <| v_ReconciliationKind := OrderReconciliationKindShortEntryExcess |>
         <| v_ShortRiskQuantity := fsub remaining coverage |>
         <| v_ReduceToQuantity := coverage |>
  else
    view <| v_ReconciliationKind := OrderReconciliationKindShortEntryFull |>
         <| v_ShortRiskQuantity := remaining |>.

Section Protective.
(** The "%.4g" of the message shown to the operator. *)
Variable g4 : float64 -> string.

Definition mismatchMessage (current remaining : float64) : string :=
  String.concat "" ["current position "; g4 current;
    " no longer supports close-only protective order remaining "; g4 remaining;
    "; broker reconciliation required"].

(** One row of reconcileFlatPositionProtectiveOrders. *)
Definition reconcileProtectiveRow (pos : PositionsResult) (now : time) (view : OrderView) : OrderView :=
  if negb (v_Open view) || negb (orderViewIsCloseProtective view) then view
  else
    let current := positionQuantityForOrderView pos view in
    let remaining := orderViewRemainingQuantity view in
    if orderViewActionCanCloseQuantity view current remaining then view
    else
      classifyProtectiveMismatch
        (view <| v_ModifyEligible := false |>
              <| v_LifecycleStatus := OrderLifecycleUnknownReconcileRequired |>
              <| v_ReconciliationState := "position_mismatch" |>
              <| v_BrokerTruthAsOf := now |>
              <| v_LastMessage := mismatchMessage current remaining |>) current remaining.

(** reconcileFlatPositionProtectiveOrders; [None] is a nil result. *)
Definition reconcileFlatPositionProtectiveOrders (views : list OrderView) (pos : option PositionsResult)
    (now : time) : list OrderView :=
  match pos with
  | None => views
  | Some pos => map (reconcileProtectiveRow pos now) views
  end.

(** reconcileOrderViewsFromCachedPositionsBound, its evaluation reduced to
    status, arm and evidence time.  [read = None]: the cache could not be read;
    [scopeNow] is the scope after the read. *)
Definition reconcileOrderViewsFromCachedPositions (views : list OrderView) (scope scopeNow : brokerStateScope)
    (read : option (list (option RawPosition) * PortfolioStreamHealth)) (completedAt : time)
    : list OrderView * (string * string * time) :=
  if negb (brokerScopeConcrete scope)
  then (views, (orderIntegrityHealthUnavailable, "request_context_or_scope_unavailable", 0))
  else
    match read with
    | None => (views, (orderIntegrityHealthUnavailable, "portfolio_read_failed_or_scope_moved", 0))
    | Some (raw, health) =>
        if negb (sameBrokerScope scope scopeNow)
        then (views, (orderIntegrityHealthUnavailable, "portfolio_read_failed_or_scope_moved", 0))
        else
          let asOf := portfolioStreamEvidenceAsOf health in
          let '(positions, scoped) := orderIntegrityPositionsFromCache raw scope completedAt in
          if negb scoped then (views, (orderIntegrityHealthUnavailable, "cached_rows_outside_scope", asOf))
          else
            let '(status, arm) := classifyPortfolioStreamHealthArm scope health completedAt in
            (reconcileFlatPositionProtectiveOrders views (Some positions) completedAt, (status, arm, asOf))
    end.
End Protective.

(** ** Covered or flagged *)

(** What it means for a position to cover the rest of a protective order. *)
Definition covered (view : OrderView) (current remaining : float64) : Prop :=
  (remaining <=f f0) = false /\
  ((ToUpper (TrimSpace (v_Action view)) = OrderActionSell /\
    (f0 <f current) = true /\ (remaining <=f fadd current f_1e9) = true) \/
   (ToUpper (TrimSpace (v_Action view)) = OrderActionBuy /\
    (current <f f0) = true /\ (remaining <=f fadd (fabs current) f_1e9) = true)).

Lemma can_close_covered view current remaining :
  orderViewActionCanCloseQuantity view current remaining = true <-> covered view current remaining.
Proof.
  unfold orderViewActionCanCloseQuantity, covered. destruct (remaining <=f f0); [split; [done | by intros []]|].
  destruct (ToUpper (TrimSpace (v_Action view)) =s OrderActionSell) eqn:Hs; bool_hyps.
  - rewrite andb_true_iff. rewrite Hs. split; [intros []; auto|]. intros [_ [[_ H]|[H _]]]; [done | discriminate H].
  - destruct (ToUpper (TrimSpace (v_Action view)) =s OrderActionBuy) eqn:Hb; bool_hyps.
    + rewrite andb_true_iff. rewrite Hb. split; [intros []; auto|]. intros [_ [[H _]|[_ H]]]; [discriminate H | done].
    + split; [done|]. by intros [_ [[H _]|[H _]]].
Qed.

(** The grading of an uncovered row: partial coverage is reduced to exactly
    what the position supports, anything else is wholly at risk. *)
Definition graded (view row : OrderView) (current remaining : float64) : Prop :=
  let coverage := protectiveCloseCoverage view current in
  v_ReconciliationSeverity row = OrderReconciliationSeverityCritical /\
  v_ReconciliationState row = "position_mismatch" /\
  v_LifecycleStatus row = OrderLifecycleUnknownReconcileRequired /\
  v_Open row = true /\ v_ModifyEligible row = false /\ v_CancelEligible row = v_CancelEligible view /\
  if (coverage >f f0) && (coverage <f remaining)
  then v_ReconciliationKind row = OrderReconciliationKindShortEntryExcess /\
       v_ReduceToQuantity row = coverage /\ v_ShortRiskQuantity row = fsub remaining coverage
  else v_ReconciliationKind row = OrderReconciliationKindShortEntryFull /\
       v_ShortRiskQuantity row = remaining.

Lemma classify_graded view base current remaining :
  v_Action base = v_Action view -> v_ReconciliationState base = "position_mismatch" ->
  v_LifecycleStatus base = OrderLifecycleUnknownReconcileRequired ->
  v_Open base = true -> v_ModifyEligible base = false -> v_CancelEligible base = v_CancelEligible view ->
  graded view (classifyProtectiveMismatch base current remaining) current remaining.
Proof.
  intros Ha Hs Hl Ho Hm Hc. unfold graded, classifyProtectiveMismatch.
  assert (Hcov : protectiveCloseCoverage base current = protectiveCloseCoverage view current)
    by (unfold protectiveCloseCoverage; by rewrite Ha).
  rewrite Hcov. generalize (protectiveCloseCoverage view current). intros coverage.
  destruct ((coverage >f f0) && _); cbn; by split_and!.
Qed.

Lemma mismatch_graded g4 pos now view :
  v_Open view = true -> orderViewIsCloseProtective view = true ->
  let current := positionQuantityForOrderView pos view in
  let remaining := orderViewRemainingQuantity view in
  orderViewActionCanCloseQuantity view current remaining = false ->
  graded view (reconcileProtectiveRow g4 pos now view) current remaining.
Proof.
  intros Ho Hp current remaining Hn. unfold reconcileProtectiveRow. rewrite Ho, Hp. cbn [negb orb].
  fold current remaining. rewrite Hn. clearbody current remaining.
  generalize (mismatchMessage g4 current remaining). intros msg.
  apply classify_graded; [reflexivity | reflexivity | reflexivity | exact Ho | reflexivity | reflexivity].
Qed.

(** C31.  Every open protective order is covered or flagged.  The integrity
    pass keeps the rows in place, leaves every other row as it is, and an open
    close-only protective order comes out unchanged exactly when the current
    position, on the closing side, covers the whole remaining quantity (up to the code's tolerance of 1e-9);
    otherwise it stays open and cancellable but not modifiable, is critical,
    and carries the quantity that would overshoot the position and, when the
    position covers part of it, the quantity to reduce to. *)
Theorem protective_orders_covered_or_flagged g4 pos now views i view :
  views !! i = Some view ->
  exists row, reconcileFlatPositionProtectiveOrders g4 views (Some pos) now !! i = Some row /\
    List.length (reconcileFlatPositionProtectiveOrders g4 views (Some pos) now) = List.length views /\
    let current := positionQuantityForOrderView pos view in
    let remaining := orderViewRemainingQuantity view in
    if v_Open view && orderViewIsCloseProtective view
    then (covered view current remaining /\ row = view) \/
         (~ covered view current remaining /\ graded view row current remaining)
    else row = view.
Proof.
  intros Hi. exists (reconcileProtectiveRow g4 pos now view).
  split; [by apply (map_lookup_Some_2 _ _ _ _ Hi) || (cbn; by rewrite list_lookup_fmap, Hi)|].
  split; [apply length_map|]. intros current remaining.
  destruct (v_Open view) eqn:Ho, (orderViewIsCloseProtective view) eqn:Hp; cbn [andb];
    try (unfold reconcileProtectiveRow; by rewrite Ho, ?Hp).
  destruct (orderViewActionCanCloseQuantity view current remaining) eqn:Hc.
  - left. split; [by apply can_close_covered|]. unfold reconcileProtectiveRow. rewrite Ho, Hp. cbn [negb orb].
    fold current remaining. by rewrite Hc.
  - right. assert (Hn : ~ covered view current remaining) by (rewrite <- can_close_covered; by rewrite Hc).
    split; [done|]. apply (mismatch_graded g4 pos now view Ho Hp Hc).
Qed.

Definition trail_row : OrderView :=
  zero_OrderView <| v_OrderRef := "canary-5" |> <| v_Symbol := "AAPL" |> <| v_SecType := "STK" |>
    <| v_Action := "SELL" |> <| v_OrderType := OrderTypeTRAIL |> <| v_OpenClose := "C" |>
    <| v_Quantity := f_of_Z 100 |> <| v_Open := true |> <| v_CancelEligible := true |>.
Definition held_40 : PositionsResult :=
  mkPositions 7 [mkPositionView "AAPL" "STOCK" 0 "" "USD" "AAPL" "" (f_of_Z 40) "" "" f0] [].

Lemma protective_orders_covered_or_flagged_witness :
  exists row, reconcileFlatPositionProtectiveOrders (fun _ => "") [trail_row] (Some held_40) 9 !! 0%nat = Some row /\
    v_ReduceToQuantity row = f_of_Z 40 /\ v_ShortRiskQuantity row = f_of_Z 60.
Proof.
  destruct (protective_orders_covered_or_flagged (fun _ => "") held_40 9 [trail_row] 0 trail_row eq_refl)
    as (row & Hrow & _ & [[Hc _] | [_ Hg]]).
  - apply can_close_covered in Hc. vm_compute in Hc. discriminate Hc.
  - exists row. split; [exact Hrow|]. destruct Hg as (_ & _ & _ & _ & _ & _ & _ & -> & ->).
    split; vm_compute; reflexivity.
Defined.
