(* ===== verification/Authority.v ===== *)
(** * The order authority: what the journal promises its clients

    The reconciliation sweep and the read model see the journal through three
    operations (head, load, append at head) while other writers run.  The
    interface [OrderAuthority] states what they rely on: the head determines
    the journal, and a committed append extends the journal it was computed
    from, by exactly its events.  The journal of [OrderJournal] over the store
    of [CoreStore] implements it, for every interleaving of store operations
    (src/internal/daemon/order_journal.go, src/internal/daemon/corestore). *)

From stdpp Require Import base decidable list strings gmap.
From Stdlib Require Import ZArith Lia String Ascii.
From S2P Require Import Prelude OrderTypes OrderKeys CoreStore CoreStoreOps CoreStoreFacts CoreStoreLog OrderJournal.

(** A stored event: the one that was appended, normalised and stamped. *)
Definition stored_as (ev ev' : orderJournalEvent) : Prop :=
  exists now action origin,
    ev' = readBack ((normalizeRecordEvent now ev) <| e_ActionKind := action |> <| e_TransmitOrigin := origin |>).

Class OrderAuthority (J : Type) := {
  oa_head : J -> jres Z;
  oa_load : J -> jres (list orderJournalEvent);
  oa_append : appendEnv -> J -> list orderJournalEvent -> Z -> J * jres unit;
  (** [oa_evolves j j']: other writers may take the authority from [j] to [j']. *)
  oa_evolves : J -> J -> Prop;
  oa_inv : J -> Prop;
  (** The batches the environment stores without loss. *)
  oa_storable : appendEnv -> list orderJournalEvent -> Prop
}.

Class OrderAuthorityLaws (J : Type) `{OrderAuthority J} : Prop := {
  oa_evolves_inv : forall j j', oa_inv j -> oa_evolves j j' -> oa_inv j';
  oa_evolves_refl : forall j, oa_evolves j j;
  oa_evolves_trans : forall j1 j2 j3, oa_evolves j1 j2 -> oa_evolves j2 j3 -> oa_evolves j1 j3;
  oa_head_determines : forall j j' h, oa_inv j -> oa_evolves j j' ->
    oa_head j = Ok h -> oa_head j' = Ok h -> oa_load j' = oa_load j;
  oa_load_between : forall j1 j2 j3 h evs, oa_inv j1 -> oa_evolves j1 j2 -> oa_evolves j2 j3 ->
    oa_head j1 = Ok h -> oa_head j3 = Ok h -> oa_load j2 = Ok evs -> oa_load j1 = Ok evs;
  oa_append_extends : forall env j j' evs h, oa_inv j -> oa_storable env evs -> evs <> [] ->
    oa_append env j evs h = (j', Ok tt) ->
    oa_head j = Ok h /\ forall old, oa_load j = Ok old ->
      exists stored, Forall2 stored_as evs stored /\ oa_load j' = Ok (old ++ stored)
}.

(** ** The store only grows at the end, and the head counts it *)

Section Growth.
Context `{JournalEnv}.

Definition grows (d d' : db) : Prop :=
  exists rows logs, db_orders d' = db_orders d ++ rows /\ db_log d' = db_log d ++ logs /\
    db_autoincrement d' = db_autoincrement d + Z.of_nat (List.length logs) /\
    List.length rows = List.length logs /\ Forall (fun l => db_autoincrement d < log_seq l) logs.

Lemma grows_same d d' :
  db_orders d' = db_orders d -> db_log d' = db_log d -> db_autoincrement d' = db_autoincrement d -> grows d d'.
Proof. intros H1 H2 H3. exists [], []. rewrite H1, H2, H3, !List.app_nil_r. simpl. split_and!; try done. lia. Qed.

#[global] Instance grows_preorder : PreOrder grows.
Proof.
  split; [intros d; by apply grows_same|].
  intros d1 d2 d3 (r & l & Ho & Hl & Ha & Hn & Hs) (r' & l' & Ho' & Hl' & Ha' & Hn' & Hs').
  exists (r ++ r'), (l ++ l'). rewrite Ho', Ho, Hl', Hl, Ha', Ha, !length_app, <- !List.app_assoc.
  split_and!; try done; [lia | lia |]. apply Forall_app. split; [done|].
  eapply Forall_impl; [exact Hs'|]. cbn beta. lia.
Qed.

Lemma new_rows_length seq n events t :
  List.length (newOrderRows seq n events t) = List.length events /\
  List.length (newLogRows seq events) = List.length events.
Proof.
  revert seq n. induction events as [|e events IH]; intros seq n; [done|]. simpl.
  destruct (IH (seq + 1) (n + 1)) as [-> ->]. done.
Qed.

Lemma append_grows d n events t d' qs : appendOrderEventsLoop d n events t = Ok (d', qs) -> grows d d'.
Proof.
  intros Ha. apply append_rows in Ha as (Hl & Ho & Hn & _).
  destruct (new_rows_length (db_autoincrement d) n events t) as [H1 H2].
  exists (newOrderRows (db_autoincrement d) n events t), (newLogRows (db_autoincrement d) events).
  rewrite H1, H2. split_and!; try done. eapply Forall_impl; [apply newLogRows_bounds|]. cbn beta. lia.
Qed.

Lemma advanceHead_grows d q : grows d (advanceHeadTx d q).1.
Proof. by apply grows_same. Qed.

Lemma bind_grows d scope d' : bindBrokerScopeTx d scope = Ok d' -> grows d d'.
Proof. intros Hb. apply bindBrokerScopeTx_frame in Hb as (_ & _ & _ & ? & ? & ? & _). by apply grows_same. Qed.

Lemma stageTx_grows request events d d' r : stageTx request events d = Ok (d', r) -> grows d d'.
Proof.
  unfold stageTx. intros Hs. ok_inv Hs. unfold advanceOrderIDFloorsTx in Hs. ok_inv Hs.
  destruct a2 as [d2 qs]. injection Hs as <- _. etrans; [exact (bind_grows _ _ _ Ha)|].
  assert (Hc : grows a a0).
  { case_if_in Ha0; [|by injection Ha0 as <-].
    apply consumeTokenTx_frame in Ha0 as (_ & _ & _ & _ & _ & _ & ? & ? & ? & _). by apply grows_same. }
  etrans; [exact Hc|]. etrans; [|apply (advanceHead_grows d2 (last_seq qs))].
  etrans; [|exact (append_grows _ _ _ _ _ _ Ha2)]. by apply grows_same.
Qed.

Lemma appendAtHeadTx_grows order n events d d' qs :
  appendAtHeadTx order n events d = Ok (d', qs) -> grows d d'.
Proof.
  unfold appendAtHeadTx. intros Hs. ok_inv Hs. injection Hs as <- _. destruct a1 as [d2 q2].
  apply bindScopes_frame in Ha0 as (? & ? & ? & _).
  etrans; [by apply grows_same|]. etrans; [exact (append_grows _ _ _ _ _ _ Ha1) | apply advanceHead_grows].
Qed.

Lemma casState_grows d u now d' s : compareAndSwapStateTx d u now = Ok (d', s) -> grows d d'.
Proof. intros Hc. apply casState_frame in Hc as (? & ? & ? & _). by apply grows_same. Qed.

Lemma lifecycleTx_grows commit events now d d' r : lifecycleTx commit events now d = Ok (d', r) -> grows d d'.
Proof.
  unfold lifecycleTx. intros Hs. ok_inv Hs. destruct a0 as [d1 q1], a1 as [d2 s2]. injection Hs as <- _.
  etrans; [exact (bind_grows _ _ _ Ha)|]. etrans; [exact (append_grows _ _ _ _ _ _ Ha0)|].
  etrans; [|apply (advanceHead_grows d2 (last_seq q1))]. cbn [fst] in Ha1.
  destruct (lc_State commit); [|by injection Ha1 as <- _].
  ok_inv Ha1. destruct a0 as [d3 s3]. injection Ha1 as <- _. by eapply casState_grows.
Qed.

Lemma criticalMutation_grows {A} s f (fn : db -> cres (db * A)) :
  (forall d a, fn (st_db s) = Ok (d, a) -> grows (st_db s) d) -> grows (st_db s) (st_db (criticalMutation s f fn).1).
Proof.
  intros Hfn. destruct (criticalMutation_outcome s f fn) as [|s' e ? Hd| | ]; cbn [fst]; subst; eauto.
  - reflexivity.
  - by rewrite Hd.
Qed.

Lemma step_grows s o : grows (st_db s) (st_db (step s o)).
Proof.
  destruct o; cbn [step].
  - unfold StagePreTransmit. destruct (stageValidate request); [|done].
    apply criticalMutation_grows. intros d r. apply stageTx_grows.
  - unfold appendOrderEventsAtHead. destruct events as [|e events]; [done|].
    destruct (validateEvents _); [|done]. apply criticalMutation_grows. intros d qs. apply appendAtHeadTx_grows.
  - unfold CommitLifecycle. destruct (let? _ := _ in _); [|done].
    apply criticalMutation_grows. intros d r. apply lifecycleTx_grows.
  - unfold CompareAndSwapStateDocument. destruct (validateStateCAS update); [|done].
    apply criticalMutation_grows. intros d r Hd. unfold casTx in Hd. ok_inv Hd. injection Hd as <- _.
    destruct a0 as [d1 s1]. etrans; [exact (casState_grows _ _ _ _ _ Ha) | apply (advanceHead_grows d1)].
  - unfold AdvanceSignerGeneration. case_if; [done|]. apply criticalMutation_grows. intros d r Hd.
    unfold advanceSignerTx in Hd. ok_inv Hd. injection Hd as <- _. by apply grows_same.
  - apply criticalMutation_grows. intros d r Hd. unfold initFreshTx in Hd. ok_inv Hd. injection Hd as <- _.
    by apply grows_same.
  - by rewrite recover_db.
  - unfold LatchDamaged. by rewrite latchHealth_db.
Qed.

Lemma run_grows ops s : grows (st_db s) (st_db (run s ops)).
Proof.
  revert s. unfold run. induction ops as [|o ops IH]; intros s; [reflexivity|].
  cbn [fold_left]. etrans; [apply step_grows | apply IH].
Qed.
End Growth.

(** ** The journal implements the interface *)

Section Implementation.
Context `{JournalEnv} `{!JsonLaws}.

Definition journal_append (env : appendEnv) (s : store) (evs : list orderJournalEvent) (h : Z) : store * jres unit :=
  let '(j, r) := AppendAllAtHead env (Some s) evs h in (default s j, r).

#[global] Instance journal_authority : OrderAuthority store := {|
  oa_head := fun s => let? h := JournalAuthorityHead (Some s) in Ok (ah_LastEventSeq h);
  oa_load := fun s => LoadEvents (Some s) 0;
  oa_append := journal_append;
  oa_evolves := fun s s' => exists ops, Forall op_ok ops /\ s' = run s ops;
  oa_inv := fun s => db_wf (st_db s);
  oa_storable := fun env evs => order_ok (ae_order env) /\
    forall ps, encodeEvents env 0 "" "" evs = Ok ps -> Forall (fun p => json_faithful p.2) ps
|}.

Lemma head_inv s h :
  oa_head s = Ok h -> hl_Ready (st_health s) = true /\ ah_LastEventSeq (db_head (st_db s)) = h.
Proof.
  cbn. unfold JournalAuthorityHead, coreStore. destruct (hl_Ready (st_health s)); [|done].
  cbn. by intros [= <-].
Qed.

Lemma allRecords_same d d' :
  db_wf d -> extends d d' -> db_orders d' = db_orders d -> db_log d' = db_log d -> allRecords d' = allRecords d.
Proof.
  intros Hw Hx Ho Hl. unfold allRecords. rewrite Ho, Hl.
  assert (Hs := wf_scoped _ Hw). assert (Hp := wf_paired _ Hw). clear -Hs Hp Hx.
  induction Hp as [|r l rows logs _ _ IH]; [done|]. apply Forall_cons in Hs as [[sc Hr] Hs].
  assert (Hload : loadRow d' r l = loadRow d r l).
  { unfold loadRow. by rewrite Hr, (lookup_weaken _ _ _ _ Hr (ex_scopes _ _ Hx)). }
  cbn [zip_with]. rewrite !omap_cons_eq, IH by done. cbn [fst snd]. by rewrite Hload.
Qed.

Lemma same_head_same_rows s ops :
  db_wf (st_db s) -> Forall op_ok ops ->
  ah_LastEventSeq (db_head (st_db (run s ops))) = ah_LastEventSeq (db_head (st_db s)) ->
  allRecords (st_db (run s ops)) = allRecords (st_db s).
Proof.
  intros Hw Hops Hh. assert (Hw' := run_wf ops s Hops Hw).
  destruct (run_grows ops s) as (rows & logs & Ho & Hl & Ha & Hn & _).
  rewrite (wf_head _ Hw), (wf_head _ Hw') in Hh. rewrite Ha in Hh.
  destruct logs; [|simpl in Hh; lia]. destruct rows; [|done]. rewrite List.app_nil_r in Ho, Hl.
  apply allRecords_same; try done. apply run_extends.
Qed.

Lemma encoded_stored env i evs ps :
  encodeEvents env i "" "" evs = Ok ps -> Forall2 stored_as evs (map (fun p => readBack p.2) ps).
Proof.
  revert i ps. induction evs as [|ev evs IH]; intros i ps He.
  - injection He as <-. constructor.
  - apply encodeEvents_cons in He as (r & ev' & ps' & -> & Hr & Hps). cbn [map]. constructor; [|by eapply IH].
    apply encode_event in Hr as (a & o & ->). by exists (ae_clock env i), a, o.
Qed.

#[global] Instance journal_authority_laws : OrderAuthorityLaws store.
Proof.
  split.
  - intros j j' Hw (ops & Hops & ->). by apply run_wf.
  - intros j. by exists [].
  - intros j1 j2 j3 (o1 & H1 & ->) (o2 & H2 & ->). exists (o1 ++ o2).
    split; [by apply Forall_app|]. unfold run. by rewrite fold_left_app.
  - intros j j' h Hw (ops & Hops & ->) Hh Hh'.
    apply head_inv in Hh as [Hr Hh], Hh' as [Hr' Hh']. cbn [oa_load journal_authority].
    rewrite !LoadEvents_all; [|done|done|by apply run_wf|done].
    rewrite same_head_same_rows; [done | done | done | congruence].
  - intros j1 j2 j3 h evs Hw (o1 & Ho1 & ->) (o2 & Ho2 & ->) Hh1 Hh3 Hload.
    apply head_inv in Hh1 as [Hr1 Hh1], Hh3 as [Hr3 Hh3]. cbn [oa_load journal_authority] in *.
    assert (Hr2 : hl_Ready (st_health (run j1 o1)) = true).
    { unfold LoadEvents, coreStore in Hload. by destruct (hl_Ready (st_health (run j1 o1))). }
    rewrite LoadEvents_all in Hload |- *; try done; [|by apply run_wf].
    rewrite same_head_same_rows in Hload; try done.
    assert (H1 := ex_seq _ _ (run_extends o1 j1)). assert (H2 := ex_seq _ _ (run_extends o2 (run j1 o1))). lia.
  - intros env j j' evs h Hw [Hord Hf] Hne Ha. cbn in Ha. unfold journal_append in Ha.
    destruct (AppendAllAtHead env (Some j) evs h) as [jo r] eqn:Happ. injection Ha as <- ->.
    destruct (append_all_inv _ _ _ _ _ Happ Hne) as (s' & ps & qs & Hjo & Hr & Hr' & He & Hn & Hps & Htx).
    destruct (append_at_head_facts _ _ _ _ _ _ Hw Hn Hps Htx) as (Hexp & _).
    split.
    + cbn. unfold JournalAuthorityHead, coreStore. rewrite Hr. cbn. by rewrite Hexp.
    + intros old Hold. exists (map (fun p => readBack p.2) ps). split; [by eapply encoded_stored|].
      subst jo. cbn [default from_option].
      exact (load_after_append _ _ _ _ _ _ _ _ Hw Hord Hn He (Hf ps He) Hps Hr Hr' Htx Hold).
Qed.
End Implementation.

(** ** A stored event keeps what the read model keys and folds on *)

Lemma stored_fields ev ev' :
  stored_as ev ev' ->
  e_Type ev' = e_Type ev /\ e_OrderRef ev' = e_OrderRef ev /\ e_ReservedOrderID ev' = e_ReservedOrderID ev /\
  e_PermID ev' = e_PermID ev /\ e_Status ev' = e_Status ev /\ e_AttemptID ev' = e_AttemptID ev /\
  e_SendState ev' = e_SendState ev.
Proof. intros (now & a & o & ->). split_and!; reflexivity. Qed.

Lemma stored_scope ev ev' : stored_as ev ev' -> event_scope ev' = event_scope ev.
Proof.
  intros (now & a & o & ->). unfold event_scope.
  change (orderJournalRouteIdentity (TrimSpace (e_Endpoint ev)) (e_ClientID ev)
    (ToUpper (TrimSpace (e_Account ev))) (ToLower (TrimSpace (e_Mode ev))) =
    orderJournalRouteIdentity (e_Endpoint ev) (e_ClientID ev) (e_Account ev) (e_Mode ev)).
  unfold orderJournalRouteIdentity.
  by rewrite TrimSpace_idem, TrimSpace_ToUpper, TrimSpace_ToLower, ToUpper_idem, ToLower_idem.
Qed.

Lemma stored_key ev ev' : stored_as ev ev' -> orderJournalKey ev' = orderJournalKey ev.
Proof.
  intros Hs. unfold orderJournalKey. rewrite (stored_scope _ _ Hs).
  destruct (stored_fields _ _ Hs) as (_ & -> & -> & -> & _). done.
Qed.
