(* ===== verification/OrderReadCache.v ===== *)
(** * The order read cache

    src/internal/daemon/order_read_cache.go: order readers reuse the fold of the
    journal while the storage authority proves that no order event was added.
    The cache is modelled over an interface ([OrderReads]) of head, one-row probe
    and load, each reading the authority as it is at that moment.  Proved: in any
    session of calls interleaved with any writers, every answer is the projection
    of the journal at some moment of that very call, so a reader never sees rows
    older than its request; the journal over the store implements the
    interface. *)

From stdpp Require Import base decidable list strings gmap.
From Stdlib Require Import ZArith Lia String Ascii.
From S2P Require Import Prelude OrderTypes OrderFold OrderFoldFacts OrderKeys OrderViews OrderHistory.
From S2P Require Import CoreStore CoreStoreOps CoreStoreFacts CoreStoreLog OrderJournal Authority.

(** ** What the cache reads *)

Class OrderReads (J : Type) := {
  or_head : J -> jres AuthorityHead;
  (** LoadOrderEvents after a sequence number, limit 1 *)
  or_probe : J -> Z -> jres (list OrderEventRecord);
  or_load : J -> jres (list orderJournalEvent);
  or_evolves : J -> J -> Prop;
  or_inv : J -> Prop;
  (** The journal's content, whether or not it may be read right now. *)
  or_history : J -> jres (list orderJournalEvent)
}.

Class OrderReadsLaws (J : Type) `{OrderReads J} : Prop := {
  or_evolves_inv : forall j j', or_inv j -> or_evolves j j' -> or_inv j';
  or_evolves_preorder :: PreOrder or_evolves;
  or_load_history : forall j evs, or_inv j -> or_load j = Ok evs -> or_history j = Ok evs;
  or_same_head : forall j j1 j2 h h2, or_inv j -> or_evolves j j1 -> or_evolves j1 j2 ->
    or_head j = Ok h -> or_head j2 = Ok h2 -> ah_LastEventSeq h2 = ah_LastEventSeq h ->
    or_history j1 = or_history j;
  or_empty_probe : forall j j1 j2 h, or_inv j -> or_evolves j j1 -> or_evolves j1 j2 ->
    or_head j = Ok h -> or_probe j2 (ah_LastEventSeq h) = Ok [] -> or_history j1 = or_history j
}.

(** orderJournalEventLabel *)
Definition orderJournalEventLabel (ev : orderJournalEvent) : string :=
  if e_OrderRef ev <>s "" then e_OrderRef ev
  else if negb (e_ReservedOrderID ev =? 0) then "order:" +:+ Itoa (e_ReservedOrderID ev)
  else if negb (e_PermID ev =? 0) then "perm:" +:+ Itoa (e_PermID ev)
  else "unknown-order".

Record orderReadProjection := mkProjection {
  pj_views : list OrderView; pj_eventsByKey : gmap string (list OrderEvent); pj_lastEvent : string
}.

Section Cache.
Context {J : Type} `{OrderReads J}.
(** Go's map order, the layout time.RFC3339 and the market calendar. *)
Context (range : gmap string orderViewFold -> list string) (rfc3339 : time -> string).
Context (sessionAt : string -> time -> option marketSession).

(** The projection loadOrderReadProjection builds from the loaded events. *)
Definition projectionOf (events : list orderJournalEvent) : orderReadProjection :=
  mkProjection (buildOrderViews range events) (buildOrderEventsByKey events)
    match last events with
    | Some e =>
        if IsZero (e_At e) then ""
        else String.concat "" [e_Type e; " "; orderJournalEventLabel e; " at "; rfc3339 (e_At e)]
    | None => ""
    end.

(** viewsAt; the copies of views and trail terms are values here. *)
Definition projectionViewsAt (p : orderReadProjection) (now : time) : list OrderView :=
  inferDayOrderExpiry sessionAt (pj_views p) (pj_eventsByKey p) now.

(** The cache: the store it was filled from ([None]: nil), its head, its fold. *)
Record orderReadCache := mkReadCache {
  rc_store : option Z; rc_head : AuthorityHead; rc_projection : option orderReadProjection
}.
Definition emptyReadCache : orderReadCache := mkReadCache None zero_AuthorityHead None.

(** orderReadHistoryUnchanged, its probe answered by the authority at [probe]. *)
Definition orderReadHistoryUnchanged (probe : J) (before after : AuthorityHead) : jres bool :=
  if (ah_AuthorityEpoch before <>s ah_AuthorityEpoch after) ||
     (ah_LastEventSeq after <? ah_LastEventSeq before) then Ok false
  else if ah_LastEventSeq before =? ah_LastEventSeq after then Ok true
  else
    let? newOrders := or_probe probe (ah_LastEventSeq before) in
    Ok match newOrders with [] => true | _ => false end.

(** What one attempt of the loop observes, in order: the attached store
    (coreStore: its identity or why there is none), the head, the reuse probe,
    the load, the head again, the attached store again, and the second probe.
    The load is taken at one moment: a load whose pages straddle an append fails
    the second test and is not used. *)
Record readAttempt := mkReadAttempt {
  at_store : jres Z; at_head : J; at_probe : J; at_load : J; at_headAgain : J;
  at_storeAgain : jres Z; at_probeAgain : J
}.

(** One attempt: an answer with the new cache, or [None] to try again. *)
Definition readAttemptStep (c : orderReadCache) (a : readAttempt)
    : option (orderReadCache * jres (option orderReadProjection)) :=
  match
    let? store := at_store a in
    let? before := or_head (at_head a) in
    let? reuse := if bool_decide (rc_store c = Some store)
                  then orderReadHistoryUnchanged (at_probe a) (rc_head c) before else Ok false in
    if reuse then Ok (Some (mkReadCache (rc_store c) before (rc_projection c)))
    else
      let? events := or_load (at_load a) in
      let? after := or_head (at_headAgain a) in
      let? current := at_storeAgain a in
      let? stable := orderReadHistoryUnchanged (at_probeAgain a) before after in
      if negb (current =? store) || negb stable then Ok None
      else Ok (Some (mkReadCache (Some store) after (Some (projectionOf events))))
  with
  | Err e => Some (c, Err e)
  | Ok None => None
  | Ok (Some c') => Some (c', Ok (rc_projection c'))
  end.

(** The three attempts of loadOrderReadProjection. *)
Fixpoint readLoop (n : nat) (c : orderReadCache) (attempts : list readAttempt)
    : orderReadCache * jres (option orderReadProjection) :=
  match n, attempts with
  | S n, a :: attempts =>
      match readAttemptStep c a with Some r => r | None => readLoop n c attempts end
  | _, _ => (c, Err (JErr "order journal changed during reconciliation reload"))
  end.
Definition loadOrderReadProjection (c : orderReadCache) (attempts : list readAttempt)
    : orderReadCache * jres (option orderReadProjection) := readLoop 3 c attempts.

(** orderHealthSnapshot: the rows at [now] and the last event's text. *)
Definition orderHealthSnapshot (c : orderReadCache) (attempts : list readAttempt) (now : time)
    : orderReadCache * jres (list OrderView * string) :=
  let '(c, r) := loadOrderReadProjection c attempts in
  (c, let? p := r in
      Ok match p with Some p => (projectionViewsAt p now, pj_lastEvent p) | None => ([], "") end).

(** A session of reads: each call with the attempts it makes. *)
Fixpoint serve (c : orderReadCache) (calls : list (list readAttempt)) : list (jres (option orderReadProjection)) :=
  match calls with
  | [] => []
  | attempts :: calls =>
      let r := loadOrderReadProjection c attempts in r.2 :: serve r.1 calls
  end.

(** ** Coherence *)

(** The moments of an attempt and of a call, in order. *)
Definition moments (a : readAttempt) : list J := [at_head a; at_probe a; at_load a; at_headAgain a; at_probeAgain a].
Definition callMoments (attempts : list readAttempt) : list J := List.concat (map moments attempts).

(** Other writers take the authority from each moment to the next. *)
Fixpoint evolving (j : J) (l : list J) : Prop :=
  match l with [] => True | x :: l => or_evolves j x /\ evolving x l end.

(** One store is attached while the daemon serves. *)
Definition attachedOnce (id : Z) (a : readAttempt) : Prop := forall i, at_store a = Ok i -> i = id.

Context `{!OrderReadsLaws J}.

(** A filled cache holds the projection of the journal at its head. *)
Definition cacheCoherent (c : orderReadCache) (j : J) : Prop :=
  forall id, rc_store c = Some id ->
    exists j0 evs, or_inv j0 /\ or_evolves j0 j /\ or_head j0 = Ok (rc_head c) /\
      or_history j0 = Ok evs /\ rc_projection c = Some (projectionOf evs).

Lemma coherent_later c j j' : cacheCoherent c j -> or_evolves j j' -> cacheCoherent c j'.
Proof.
  intros Hc He id Hid. destruct (Hc id Hid) as (j0 & evs & ? & ? & ? & ? & ?). exists j0, evs.
  split_and!; try done. by etrans.
Qed.

(** The test is sound: when it passes, the journal between the two heads is the
    journal at the first. *)
Lemma unchanged_sound j j1 j2 probe before after :
  or_inv j -> or_evolves j j1 -> or_evolves j1 j2 -> or_evolves j2 probe ->
  or_head j = Ok before -> or_head j2 = Ok after ->
  orderReadHistoryUnchanged probe before after = Ok true -> or_history j1 = or_history j.
Proof.
  intros Hi E1 E2 E3 Hb Ha. unfold orderReadHistoryUnchanged. case_if; [done|].
  destruct (ah_LastEventSeq before =? ah_LastEventSeq after) eqn:E; bool_hyps.
  - intros _. by eapply or_same_head.
  - intros Hp. apply rbind_ok in Hp as ([|] & Hp & Hr); [|done].
    eapply or_empty_probe; [done | exact E1 | etrans; [exact E2 | exact E3] | exact Hb | exact Hp].
Qed.

Lemma evolving_to j l x : evolving j l -> In x l -> or_evolves j x.
Proof.
  revert j. induction l as [|y l IH]; intros j He Hin; [done|]. destruct He as [E1 E2].
  destruct Hin as [<- | Hin]; [done|]. etrans; [exact E1 | by apply IH].
Qed.

(** The last moment of [l], or [j]. *)
Definition latest (j : J) (l : list J) : J := fold_left (fun _ x => x) l j.

Lemma evolving_app j l l' : evolving j (l ++ l') -> evolving j l /\ evolving (latest j l) l'.
Proof.
  revert j. induction l as [|x l IH]; intros j He; [done|]. destruct He as [E1 E2].
  apply IH in E2 as [E2 E3]. done.
Qed.

Lemma evolving_latest j l : evolving j l -> or_evolves j (latest j l).
Proof.
  revert j. induction l as [|x l IH]; intros j He; [done|]. destruct He as [E1 E2].
  etrans; [exact E1 | by apply IH].
Qed.

(** What an answer must be: the projection of the journal at one of [ms]. *)
Definition answersFrom (ms : list J) (r : jres (option orderReadProjection)) : Prop :=
  forall p, r = Ok p -> exists m evs, In m ms /\ or_history m = Ok evs /\ p = Some (projectionOf evs).

Lemma attempt_coherent id c a j r :
  or_inv j -> attachedOnce id a -> (forall i, rc_store c = Some i -> i = id) ->
  cacheCoherent c j -> evolving j (moments a) -> readAttemptStep c a = Some r ->
  cacheCoherent r.1 (at_probeAgain a) /\ (forall i, rc_store r.1 = Some i -> i = id) /\
  answersFrom (moments a) r.2.
Proof.
  intros Hi Hid Hcid Hc (E1 & E2 & E3 & E4 & E5 & _) Hs.
  assert (Hend : or_evolves j (at_probeAgain a)) by (do 4 (etrans; [eassumption|]); done).
  unfold readAttemptStep in Hs. revert Hs.
  destruct (let? store := at_store a in _) as [[c'|]|e] eqn:Hr; [|done|]; intros [= <-]; cbn [fst snd].
  2: { split; [by eapply coherent_later|]. by split; [|intros p]. }
  apply rbind_ok in Hr as (store & Hst & Hr). apply rbind_ok in Hr as (before & Hb & Hr).
  apply rbind_ok in Hr as (reuse & Hreuse & Hr).
  assert (Hih : or_inv (at_head a)) by (by eapply or_evolves_inv).
  destruct reuse.
  - injection Hr as <-. case_bool_decide as Hsame; [|done]. destruct (Hc store Hsame) as (j0 & evs & Hi0 & He & Hh & Hhist & Hp).
    assert (Hnow : or_history (at_head a) = Ok evs).
    { rewrite <- Hhist. eapply unchanged_sound with (j2 := at_head a);
        [exact Hi0 | etrans; [exact He | exact E1] | reflexivity | exact E2 | exact Hh | exact Hb | exact Hreuse]. }
    split; [|split].
    + intros i Hi'. cbn in Hi'. exists (at_head a), evs. split_and!; try done.
      do 3 (etrans; [eassumption|]). done.
    + intros i Hi'. by apply Hcid.
    + intros p [= <-]. exists (at_head a), evs. split_and!; [by left | done | done].
  - apply rbind_ok in Hr as (evs & Hload & Hr). apply rbind_ok in Hr as (after & Ha & Hr).
    apply rbind_ok in Hr as (current & _ & Hr). apply rbind_ok in Hr as (stable & Hstable & Hr).
    destruct (negb (current =? store)); [done|]. destruct stable; [|done]. injection Hr as <-.
    assert (Hil : or_inv (at_load a)) by (eapply or_evolves_inv; [|exact E3]; by eapply or_evolves_inv).
    assert (Hia : or_inv (at_headAgain a)) by (by eapply or_evolves_inv).
    assert (El : or_evolves (at_head a) (at_load a)) by (by etrans).
    assert (Hl : or_history (at_load a) = Ok evs) by (by apply or_load_history).
    assert (Hsame : or_history (at_headAgain a) = or_history (at_head a)).
    { eapply unchanged_sound with (j2 := at_headAgain a);
        [exact Hih | etrans; [exact El | exact E4] | reflexivity | exact E5 | exact Hb | exact Ha | exact Hstable]. }
    assert (Hl2 : or_history (at_load a) = or_history (at_head a)).
    { eapply unchanged_sound; [exact Hih | exact El | exact E4 | exact E5 | exact Hb | exact Ha | exact Hstable]. }
    split; [|split].
    + intros i [= <-]. exists (at_headAgain a), evs. split_and!; try done. congruence.
    + intros i [= <-]. by apply Hid.
    + intros p [= <-]. exists (at_load a), evs. split_and!; [by right; right; left | done | done].
Qed.

(** A cache of the attached store that is coherent at [j]. *)
Definition cacheAt (id : Z) (c : orderReadCache) (j : J) : Prop :=
  cacheCoherent c j /\ forall i, rc_store c = Some i -> i = id.

Lemma cacheAt_later id c j j' : cacheAt id c j -> or_evolves j j' -> cacheAt id c j'.
Proof. intros [Hc Hi] He. split; [by eapply coherent_later | done]. Qed.

Lemma loop_coherent id n c attempts j :
  or_inv j -> Forall (attachedOnce id) attempts -> cacheAt id c j -> evolving j (callMoments attempts) ->
  let r := readLoop n c attempts in
  cacheAt id r.1 (latest j (callMoments attempts)) /\ answersFrom (callMoments attempts) r.2.
Proof.
  revert n c j. induction attempts as [|a attempts IH]; intros n c j Hi Ha Hc He.
  - destruct n; (split; [exact Hc | by intros p]).
  - destruct n as [|n]; [split; [by eapply cacheAt_later, evolving_latest | by intros p]|].
    cbn [callMoments map List.concat] in *. apply Forall_cons in Ha as [Ha Has].
    destruct (evolving_app _ _ _ He) as [He1 He2]. cbn [readLoop].
    assert (Hcat : latest j (moments a ++ callMoments attempts) = latest (at_probeAgain a) (callMoments attempts))
      by done.
    fold (callMoments attempts) in *. rewrite Hcat.
    destruct (readAttemptStep c a) as [r|] eqn:Hr; cbv zeta.
    + destruct Hc as [Hc Hci]. destruct (attempt_coherent id c a j r) as (H1 & H2 & H3); try done.
      split; [eapply cacheAt_later; [by split | by apply evolving_latest]|].
      intros p Hp. destruct (H3 p Hp) as (m & evs & Hm & ? & ?). exists m, evs. split_and!; try done.
      apply in_or_app. by left.
    + assert (Hlast : or_evolves j (at_probeAgain a)) by exact (evolving_latest _ _ He1).
      destruct (IH n c (at_probeAgain a)) as [H1 H2]; try done.
      { by eapply or_evolves_inv. }
      { by eapply cacheAt_later. }
      split; [exact H1|]. intros p Hp. destruct (H2 p Hp) as (m & evs & Hm & ? & ?). exists m, evs.
      split_and!; try done. apply in_or_app. by right.
Qed.

(** C29.  The read cache is coherent.  In any session of order reads on the one
    attached store, starting from an empty cache, with any writers running
    between any two of the daemon's reads, every answer a call gives is the
    projection of the journal as it was at one of the moments that very call
    read it: a reused fold is never older than the request it answers, and no
    answer mixes two states of the journal. *)
Theorem read_cache_answers_from_its_own_call id j calls i attempts r :
  or_inv j -> Forall (Forall (attachedOnce id)) calls -> evolving j (List.concat (map callMoments calls)) ->
  calls !! i = Some attempts -> serve emptyReadCache calls !! i = Some r ->
  answersFrom (callMoments attempts) r.
Proof.
  assert (Hc : cacheAt id emptyReadCache j) by (by split).
  revert Hc. generalize emptyReadCache. revert j i.
  induction calls as [|call calls IH]; intros j i c Hc Hi Ha He Hcall Hr; [done|].
  cbn [map List.concat serve] in *. apply Forall_cons in Ha as [Ha Has].
  destruct (evolving_app _ _ _ He) as [He1 He2].
  destruct (loop_coherent id 3 c call j Hi Ha Hc He1) as [H1 H2]. destruct i as [|i].
  - injection Hcall as <-. injection Hr as <-. exact H2.
  - cbn in Hcall, Hr. eapply (IH _ i); [exact H1 | | done | exact He2 | exact Hcall | exact Hr].
    by eapply or_evolves_inv, evolving_latest.
Qed.
End Cache.

(** The rows of a projection are those the sweep and the handlers compute from
    the journal. *)
Lemma projection_views sessionAt range rfc events now :
  projectionViewsAt sessionAt (projectionOf range rfc events) now = viewsAt sessionAt range events now.
Proof. reflexivity. Qed.

(** ** The journal over the store implements the interface *)

Section StoreReads.
Context `{JournalEnv}.

#[global] Instance journal_reads : OrderReads store := {|
  or_head := fun s => Ok (db_head (st_db s));
  or_probe := fun s after => core_err (LoadOrderEvents s (pageQuery after 1));
  or_load := fun s => LoadEvents (Some s) 0;
  or_evolves := fun s s' => exists ops, Forall op_ok ops /\ s' = run s ops;
  or_inv := fun s => db_wf (st_db s);
  or_history := fun s => decodeAll (allRecords (st_db s))
|}.

(** No record after the head: nothing was appended. *)
Lemma nothing_after_head s ops :
  db_wf (st_db s) -> Forall op_ok ops ->
  List.filter (keepAfter (ah_LastEventSeq (db_head (st_db s)))) (allRecords (st_db (run s ops))) = [] ->
  ah_LastEventSeq (db_head (st_db (run s ops))) = ah_LastEventSeq (db_head (st_db s)).
Proof.
  intros Hw Hops Hf. assert (Hw' := run_wf ops s Hops Hw). assert (Hseq := allRecords_seqs _ Hw').
  destruct (run_grows ops s) as (rows & logs & Ho & Hl & Ha & Hn & Hs).
  rewrite (wf_head _ Hw), (wf_head _ Hw'), Ha in *. destruct logs as [|l logs]; [cbn; lia|]. exfalso.
  apply Forall_cons in Hs as [Hs _].
  assert (Hin : log_seq l ∈ log_seq <$> db_log (st_db (run s ops))).
  { apply list_elem_of_fmap_2. rewrite Hl. apply elem_of_app. right. by left. }
  rewrite <- Hseq in Hin. apply list_elem_of_fmap in Hin as (r & Hr & Hin).
  apply list_elem_of_In in Hin.
  assert (Hk : In r (List.filter (keepAfter (db_autoincrement (st_db s))) (allRecords (st_db (run s ops))))).
  { apply filter_In. split; [done|]. unfold keepAfter. apply orb_true_iff. right. apply Z.ltb_lt. lia. }
  by rewrite Hf in Hk.
Qed.

#[global] Instance journal_reads_laws : OrderReadsLaws store.
Proof.
  assert (Hbetween : forall j o1 o2, db_wf (st_db j) -> Forall op_ok o1 -> Forall op_ok o2 ->
    ah_LastEventSeq (db_head (st_db (run (run j o1) o2))) = ah_LastEventSeq (db_head (st_db j)) ->
    allRecords (st_db (run j o1)) = allRecords (st_db j)).
  { intros j o1 o2 Hw H1 H2 Hh. apply same_head_same_rows; try done.
    assert (G1 := ex_seq _ _ (run_extends o1 j)). assert (G2 := ex_seq _ _ (run_extends o2 (run j o1))). lia. }
  split.
  - intros j j' Hw (ops & Hops & ->). by apply run_wf.
  - split; [intros j; by exists []|]. intros j1 j2 j3 (o1 & H1 & ->) (o2 & H2 & ->). exists (o1 ++ o2).
    split; [by apply Forall_app|]. unfold run. by rewrite fold_left_app.
  - intros j evs Hw Hl. cbn [or_load or_history journal_reads] in *.
    assert (Hr : hl_Ready (st_health j) = true).
    { unfold LoadEvents, coreStore in Hl. by destruct (hl_Ready (st_health j)). }
    by rewrite LoadEvents_all in Hl.
  - intros j j1 j2 h h2 Hw (o1 & H1 & ->) (o2 & H2 & ->) [= <-] [= <-] Hs. cbn [or_history journal_reads].
    by rewrite (Hbetween j o1 o2).
  - intros j j1 j2 h Hw (o1 & H1 & ->) (o2 & H2 & ->) [= <-] Hp. cbn [or_history or_probe journal_reads] in *.
    rewrite (Hbetween j o1 o2); try done.
    replace (run (run j o1) o2) with (run j (o1 ++ o2)) in * by (unfold run; by rewrite fold_left_app).
    apply nothing_after_head; [done | by apply Forall_app|].
    rewrite page_of_all in Hp; [|by apply run_wf; [apply Forall_app|]|lia].
    cbn in Hp. injection Hp as Hp. by destruct (List.filter _ _).
Qed.
End StoreReads.

(** ** A log shared with other producers *)

(** [Some]: an order event; [None]: another producer's entry, which moves the
    head as well. *)
Definition mixedLog := list (option orderJournalEvent).
Definition mixedEvents (l : mixedLog) : list orderJournalEvent := omap id l.

#[local] Instance mixed_reads : OrderReads mixedLog := {|
  or_head := fun l => Ok (mkHead "epoch" 0 (Z.of_nat (List.length l)) 1);
  or_probe := fun l after => Ok (map (fun _ => record_ex "probe" "" 1) (take 1 (mixedEvents (drop (Z.to_nat after) l))));
  or_load := fun l => Ok (mixedEvents l);
  or_evolves := fun l l' => l `prefix_of` l';
  or_inv := fun _ => True;
  or_history := fun l => Ok (mixedEvents l)
|}.

#[local] Instance mixed_reads_laws : OrderReadsLaws mixedLog.
Proof.
  split; cbn; try done.
  - apply _.
  - intros l ? ? ? ? _ [k ->] [k' ->] [= <-] [= <-]. cbn. rewrite !length_app. intros Hl.
    destruct k; [by rewrite List.app_nil_r | cbn in Hl; lia].
  - intros l ? ? ? _ [k ->] [k' ->] [= <-]. cbn. rewrite Nat2Z.id, <- List.app_assoc, drop_app_length. intros [= Hp].
    unfold mixedEvents in *. rewrite !omap_app in *. do 2 f_equal.
    destruct (omap id k); [by rewrite List.app_nil_r | done].
Qed.

Definition quiet (l : mixedLog) : readAttempt := mkReadAttempt (Ok 7) l l l l (Ok 7) l.
Definition orders_only : mixedLog := [Some ev_place].
Definition orders_and_more : mixedLog := [Some ev_place; None].

(** The second call reuses the fold although another producer moved the head. *)
Lemma read_cache_answers_from_its_own_call_witness :
  rc_head (loadOrderReadProjection range_sorted (fun _ => "") emptyReadCache [quiet orders_only]).1 <>
  mkHead "epoch" 0 (Z.of_nat (List.length orders_and_more)) 1 /\
  exists m evs, In m (callMoments [quiet orders_and_more]) /\ or_history m = Ok evs /\
    rc_projection (loadOrderReadProjection range_sorted (fun _ => "") emptyReadCache [quiet orders_only]).1 =
    Some (projectionOf range_sorted (fun _ => "") evs).
Proof.
  split; [cbn; discriminate|].
  eapply (read_cache_answers_from_its_own_call range_sorted (fun _ => "") 7 []
            [[quiet orders_only]; [quiet orders_and_more]] 1).
  - exact I.
  - repeat constructor; intros i [= <-]; reflexivity.
  - cbn. split_and!; try reflexivity; try exact I; eexists; reflexivity.
  - reflexivity.
  - reflexivity.
  - reflexivity.
Defined.
