(* ===== verification/Reconcile.v ===== *)
(** * The reconciliation sweep

    src/internal/daemon/order_reconcile.go: closing journal rows the broker no
    longer reports.  The sweep takes a complete open-order snapshot, reloads the
    journal at a stable head, and appends one reconciled-absent event per row
    that the snapshot lacks, by compare-and-append at that head.  Proved against
    the [OrderAuthority] interface: whatever other writers do in between, a
    committed sweep extends exactly the journal its decision was computed from;
    the rows it closes are open, broker-accepted, in scope and absent; and a
    closed row stays closed. *)

From stdpp Require Import base decidable list strings gmap.
From Stdlib Require Import ZArith Lia String Ascii.
From S2P Require Import Prelude OrderTypes OrderStatus OrderKeys OrderFold OrderFoldFacts BrokerScope OrderViews.
From S2P Require Import OrderHistory CoreStore CoreStoreOps CoreStoreFacts CoreStoreLog CoreStoreGuards.
From S2P Require Import OrderJournal Authority.

Definition orderReconcileGrace : Z := 10 * Minute.

(** ibkr.OpenOrderSnapshot; the session binding is an opaque comparable token. *)
Record OpenOrderSnapshot := mkSnapshot {
  sn_Complete : bool; sn_Orders : list OrderLifecycleEvent; sn_Session : Z; sn_Generation : Z; sn_AsOf : time
}.

(** ** Is a row still in the snapshot? *)

(** openOrderSameIntent *)
Definition openOrderSameIntent (order : OrderLifecycleEvent) (view : OrderView) : bool :=
  (if (0 <? b_ConID order) && (0 <? v_ConID view) then b_ConID order =? v_ConID view
   else EqualFold (TrimSpace (b_Symbol order)) (TrimSpace (v_Symbol view)) &&
        EqualFold (TrimSpace (b_SecType order)) (TrimSpace (v_SecType view))) &&
  EqualFold (TrimSpace (b_Action order)) (TrimSpace (v_Action view)) &&
  (fabs (fsub (b_TotalQuantity order) (v_Quantity view)) <f f_1e9).

(** openOrderSnapshotEventMatches *)
Definition openOrderSnapshotEventMatches (order : OrderLifecycleEvent) (view : OrderView) : bool :=
  if negb (v_PermID view =? 0) && negb (b_PermID order =? 0) then b_PermID order =? v_PermID view
  else if (v_ReservedOrderID view <=? 0) || negb (b_OrderID order =? v_ReservedOrderID view) ||
          negb (b_ClientIDPresent order) || negb (b_ClientID order =? v_ClientID view)
  then false
  else openOrderSameIntent order view.

(** openOrderSnapshotMatch: the first matching order and its index. *)
Fixpoint snapshotMatchFrom (i : nat) (orders : list OrderLifecycleEvent) (view : OrderView)
    : option (nat * OrderLifecycleEvent) :=
  match orders with
  | [] => None
  | order :: rest =>
      if openOrderSnapshotEventMatches order view then Some (i, order) else snapshotMatchFrom (S i) rest view
  end.
Definition openOrderSnapshotMatch (snap : OpenOrderSnapshot) (view : OrderView)
    : option (nat * OrderLifecycleEvent) := snapshotMatchFrom 0 (sn_Orders snap) view.

Definition openOrderSnapshotContains (snap : OpenOrderSnapshot) (view : OrderView) : bool :=
  present (openOrderSnapshotMatch snap view).

(** ** The decision *)

Definition sweepMessage : string :=
  "broker open-order snapshot did not include this order; closed by reconciliation. Final broker state unknown (cancelled or filled outside daemon view) — confirm against broker statements.".

(** The reconciled-absent event of a row. *)
Definition reconciledAbsentEvent (at_ : time) (v : OrderView) : orderJournalEvent :=
  (orderJournalEventFromView v orderJournalEventReconciledAbsent at_)
    <| e_PermID := v_PermID v |> <| e_Status := "" |> <| e_SendState := orderSendStateTerminal |>
    <| e_Message := sweepMessage |>.

(** A row the sweep may look at, and one old enough to be left to it. *)
Definition sweepInScope (scope : brokerStateScope) (v : OrderView) : bool :=
  v_Open v && negb (v_PermID v =? 0) && orderViewMatchesBrokerScope v scope.
Definition pastGrace (now : time) (v : OrderView) : bool :=
  negb (IsZero (v_UpdatedAt v) || (Sub now (v_UpdatedAt v) <? orderReconcileGrace)).

(** The rows that make a sweep worth a broker round trip. *)
Definition sweepCandidates (scope : brokerStateScope) (now : time) (views : list OrderView) : list OrderView :=
  List.filter (fun v => sweepInScope scope v && pastGrace now v) views.

(** The rows a complete snapshot closes; after a lost callback the grace window
    does not protect a row. *)
Definition sweepable (scope : brokerStateScope) (persistenceUncertain : bool) (now : time)
    (snap : OpenOrderSnapshot) (v : OrderView) : bool :=
  sweepInScope scope v && (persistenceUncertain || pastGrace now v) && negb (openOrderSnapshotContains snap v).

Definition sweepEvents (scope : brokerStateScope) (persistenceUncertain : bool) (now : time)
    (clock : nat -> time) (snap : OpenOrderSnapshot) (views : list OrderView) : list orderJournalEvent :=
  imap (fun i v => reconciledAbsentEvent (clock i) v)
    (List.filter (sweepable scope persistenceUncertain now snap) views).

(** ** The sweep over an authority *)

Section Sweep.
Context {J : Type} `{OrderAuthority J}.
(** The read model: Go's map order and the market calendar. *)
Context (sessionAt : string -> time -> option marketSession) (range : gmap string orderViewFold -> list string).

(** One attempt reads the head, the rows and the head again, each from the
    authority as it is at that moment.  The rows come through the read cache,
    whose answer is the journal of one moment of its call (see
    [OrderReadCache]); [ra_load] is that moment. *)
Record attempt := mkAttemptRead { ra_before : J; ra_load : J; ra_now : time; ra_after : J }.

(** loadOrderViewsAtStableHead: the rows and the head they were read at. *)
Fixpoint stableHeadLoop (n : nat) (reads : list attempt) : jres (list OrderView * Z) :=
  match n, reads with
  | S n, r :: reads =>
      let? before := oa_head (ra_before r) in
      let? events := oa_load (ra_load r) in
      let? after := oa_head (ra_after r) in
      if before =? after then Ok (viewsAt sessionAt range events (ra_now r), after)
      else stableHeadLoop n reads
  | _, _ => Err (JErr "order journal changed during reconciliation reload")
  end.
Definition loadOrderViewsAtStableHead (reads : list attempt) : jres (list OrderView * Z) := stableHeadLoop 3 reads.

(** Everything one run of the sweep observes, in the order it observes it. *)
Record sweepRun := mkSweep {
  sw_scope : brokerStateScope;             (** the current scope *)
  sw_first : J; sw_firstNow : time;        (** the first load, and the clock *)
  sw_uncertain : bool;                     (** the persistence latch *)
  sw_failures : Z;                         (** its failure generation *)
  sw_snapshot : OpenOrderSnapshot; sw_snapshotErr : bool;
  sw_reads : list attempt;                 (** the reload attempts *)
  sw_now : time; sw_clock : nat -> time;   (** the clock, and the event times *)
  sw_binding : option (Z * Z);             (** CaptureBrokerEvidence: session and generation *)
  sw_admitted : bool;                      (** withStableBrokerEvidence admits the commit *)
  sw_appendEnv : appendEnv;
  sw_failuresBefore : Z; sw_failuresAfter : Z (** the generation around the latch clear *)
}.

Inductive sweepOutcome :=
| SweepSkipped
| SweepFailed (e : journalErr)
| SweepCommitted (events : list orderJournalEvent).

(** The latch writes of a commit: none, or the value last stored. *)
Definition latchAfterCommit (w : sweepRun) : option bool :=
  if sw_uncertain w && (sw_failuresBefore w =? sw_failures w)
  then Some (negb (sw_failuresAfter w =? sw_failures w))
  else None.

(** The commit closure, at the authority as it is then. *)
Definition sweepCommit (w : sweepRun) (j : J) (head : Z) (events : list orderJournalEvent) : J * jres unit :=
  match events with
  | [] => (j, let? current := oa_head j in
              if negb (current =? head) then Err (JErr (String.concat "" ["order journal head changed from "; Itoa head; " to "; Itoa current])) else Ok tt)
  | _ => oa_append (sw_appendEnv w) j events head
  end.

(** reconcileOrderJournalWithBroker with a live connector; [j] is the authority
    when the commit runs.  Returns it after the run, the latch write, and how
    the run ended. *)
Definition reconcileOrderJournalWithBroker (w : sweepRun) (j : J) : J * option bool * sweepOutcome :=
  if negb (brokerScopeConcrete (sw_scope w)) then (j, None, SweepSkipped)
  else
    match oa_load (sw_first w) with
    | Err e => (j, None, SweepFailed e)
    | Ok first =>
        let views := viewsAt sessionAt range first (sw_firstNow w) in
        if match sweepCandidates (sw_scope w) (sw_firstNow w) views with [] => true | _ => false end &&
           negb (sw_uncertain w)
        then (j, None, SweepSkipped)
        else if sw_snapshotErr w && negb (sn_Complete (sw_snapshot w)) then (j, None, SweepSkipped)
        else if negb (sn_Complete (sw_snapshot w)) then (j, None, SweepSkipped)
        else
          match loadOrderViewsAtStableHead (sw_reads w) with
          | Err e => (j, None, SweepFailed e)
          | Ok (current, head) =>
              let events := sweepEvents (sw_scope w) (sw_uncertain w) (sw_now w) (sw_clock w)
                              (sw_snapshot w) current in
              match sw_binding w with
              | None => (j, None, SweepSkipped)
              | Some (session, generation) =>
                  if negb (session =? sn_Session (sw_snapshot w)) ||
                     negb (generation =? sn_Generation (sw_snapshot w))
                  then (j, None, SweepSkipped)
                  else if negb (sw_admitted w) then (j, None, SweepSkipped)
                  else
                    match sweepCommit w j head events with
                    | (j', Err e) => (j', None, SweepFailed e)
                    | (j', Ok _) => (j', latchAfterCommit w, SweepCommitted events)
                    end
              end
          end
    end.

(** ** The sweep is linearised at its commit *)

Context `{!OrderAuthorityLaws J}.

(** Each attempt observes the authority on its way to the commit at [j]. *)
Definition reads_before (reads : list attempt) (j : J) : Prop :=
  Forall (fun r => oa_inv (ra_before r) /\ oa_evolves (ra_before r) (ra_load r) /\
    oa_evolves (ra_load r) (ra_after r) /\ oa_evolves (ra_after r) j) reads.

Lemma stable_read n reads j views h :
  reads_before reads j -> stableHeadLoop n reads = Ok (views, h) -> oa_head j = Ok h ->
  exists old now, oa_load j = Ok old /\ views = viewsAt sessionAt range old now.
Proof.
  intros Hr. revert n. induction Hr as [|r reads (Hinv & E1 & E2 & E3) _ IH]; intros [|n] Hl Hh; try done.
  cbn [stableHeadLoop] in Hl. apply rbind_ok in Hl as (hb & Hb & Hl). apply rbind_ok in Hl as (evs & He & Hl).
  apply rbind_ok in Hl as (ha & Ha & Hl). destruct (hb =? ha) eqn:E; [|by eapply IH]. bool_hyps. subst hb.
  injection Hl as <- <-. exists evs, (ra_now r). split; [|done].
  rewrite <- (oa_load_between _ _ _ _ _ Hinv E1 E2 Hb Ha He).
  apply (oa_head_determines _ _ ha); try done.
  eapply oa_evolves_trans; [eapply oa_evolves_trans|]; eassumption.
Qed.

(** C30.  A committed sweep decided on the journal it extends.  However other
    writers interleave with the snapshot, the reload attempts and the commit,
    when a sweep commits events then the snapshot was complete, the scope
    concrete and the broker evidence the one the snapshot was taken on; the
    authority at commit still holds exactly the journal the rows were computed
    from; the events are the reconciled-absent events of exactly its sweepable
    rows; and the journal afterwards is that journal followed by them. *)
Theorem committed_sweep_is_linearised w j j' latch events :
  oa_inv j -> reads_before (sw_reads w) j -> oa_storable (sw_appendEnv w) events -> events <> [] ->
  reconcileOrderJournalWithBroker w j = (j', latch, SweepCommitted events) ->
  sn_Complete (sw_snapshot w) = true /\ brokerScopeConcrete (sw_scope w) = true /\
  sw_binding w = Some (sn_Session (sw_snapshot w), sn_Generation (sw_snapshot w)) /\
  exists old now stored,
    oa_load j = Ok old /\
    events = sweepEvents (sw_scope w) (sw_uncertain w) (sw_now w) (sw_clock w) (sw_snapshot w)
               (viewsAt sessionAt range old now) /\
    Forall2 stored_as events stored /\ oa_load j' = Ok (old ++ stored).
Proof.
  intros Hinv Hreads Hstore Hne. unfold reconcileOrderJournalWithBroker.
  destruct (brokerScopeConcrete (sw_scope w)) eqn:Hsc; [|done]. cbn [negb].
  destruct (oa_load (sw_first w)) as [first|]; [|done].
  destruct (match sweepCandidates _ _ _ with [] => true | _ => false end && _); [done|].
  destruct (sw_snapshotErr w && _); [done|].
  destruct (sn_Complete (sw_snapshot w)) eqn:Hc; [|done]. cbn [negb].
  destruct (loadOrderViewsAtStableHead (sw_reads w)) as [[current head]|] eqn:Hload; [|done].
  destruct (sw_binding w) as [[session generation]|]; [|done].
  destruct (session =? sn_Session (sw_snapshot w)) eqn:E1; [|done].
  destruct (generation =? sn_Generation (sw_snapshot w)) eqn:E2; [|done].
  cbn [negb orb]. destruct (sw_admitted w); [|done]. cbn [negb]. bool_hyps. subst session generation.
  set (evs := sweepEvents _ _ _ _ _ current).
  destruct (sweepCommit w j head evs) as [j1 [[]|e]] eqn:Hcommit; [|done].
  intros [= <- _ <-]. split_and!; try done.
  assert (Happ : oa_append (sw_appendEnv w) j evs head = (j1, Ok tt)).
  { revert Hcommit. unfold sweepCommit. by destruct evs. }
  destruct (oa_append_extends _ _ _ _ _ Hinv Hstore Hne Happ) as [Hhead Hext].
  destruct (stable_read _ _ _ _ _ Hreads Hload Hhead) as (old & now & Hold & Hviews).
  destruct (Hext old Hold) as (stored & Hst & Hj'). exists old, now, stored.
  unfold evs. rewrite <- Hviews. by split_and!.
Qed.
End Sweep.

(** ** A swept row is closed for good *)

Lemma absent_key at_ v : orderJournalKey (reconciledAbsentEvent at_ v) = orderViewKey v.
Proof. reflexivity. Qed.

(** A reconciled-absent event without a broker status settles any fold. *)
Lemma absent_settles f ev :
  e_Type ev = orderJournalEventReconciledAbsent -> e_Status ev = "" -> e_AttemptID ev = "" ->
  settled (fold_merge f ev) /\
  v_LifecycleStatus (publish (fold_merge f ev)) = OrderLifecycleClosedReconciled.
Proof.
  intros Ht Hs Ha.
  assert (Hterm : orderJournalEventIsTerminal ev = true) by (unfold orderJournalEventIsTerminal; by rewrite Ht).
  set (g := reopenRetained f ev).
  assert (Hm : fold_merge f ev = mergeEvidence g ev).
  { unfold fold_merge. rewrite inherit_other by (by rewrite Ht). fold g. rewrite Hterm, andb_false_r.
    unfold orderJournalEventStartsAttempt, isSendOutcome. rewrite Ha. done. }
  destruct (mergeEvidence_terminal g ev Hterm) as (H1 & H2 & H3 & _).
  assert (Hd : fold_definitiveTerminal (mergeEvidence g ev) = true).
  { unfold mergeEvidence. rewrite Hterm. unfold mapOrderJournalLifecycleStatus. by rewrite Ht, Hs. }
  assert (Hl : forall view b, mapOrderViewLifecycleStatus view ev b = OrderLifecycleClosedReconciled)
    by (intros view b; unfold mapOrderViewLifecycleStatus; by rewrite Ht).
  rewrite Hm. split.
  - split; [done | done | rewrite H3, Hl; done | rewrite H2; cbn; rewrite Ht; reflexivity].
  - unfold publish, fold_finish. rewrite H1. cbn [negb andb]. rewrite H3, Hl. reflexivity.
Qed.

(** A swept row is closed for good.  The event a sweep stores for a row is
    filed under that row's own key, and whatever the row's history was, merging
    it classifies the order closed_reconciled; no well-formed event that follows
    (late callbacks, send returns, write requests) makes it open, modifiable or
    cancellable again. *)
Theorem swept_row_stays_closed f v at_ ev post :
  stored_as (reconciledAbsentEvent at_ v) ev -> Forall (fun e => wf_event e = true) post ->
  orderJournalKey ev = orderViewKey v /\
  v_LifecycleStatus (publish (fold_merge f ev)) = OrderLifecycleClosedReconciled /\
  row_final (publish (fold_events (fold_merge f ev) post)).
Proof.
  intros Hst Hpost. split; [by rewrite (stored_key _ _ Hst), absent_key|].
  destruct (stored_fields _ _ Hst) as (Ht & _ & _ & _ & Hs & Ha & _).
  destruct (absent_settles f ev) as [Hset Hl]; [by rewrite Ht | by rewrite Hs | by rewrite Ha |].
  split; [done|]. by apply settled_row_final, settled_events.
Qed.

(** ** A concrete sweep *)

(** Two kinds of payload, told apart by their first byte; the rest is the reference. *)
Definition sweep_status : orderJournalEvent :=
  wire_template <| e_PermID := 900 |> <| e_SendState := orderSendStateBrokerAcknowledged |>.
Definition sweep_row : OrderView :=
  publish (fold_events emptyFold [sweep_status <| e_OrderRef := "canary-1" |>]).
Definition sweep_absent : orderJournalEvent :=
  (normalizeRecordEvent 0 (reconciledAbsentEvent (64000000000 * Second) sweep_row))
    <| e_ActionKind := ActionPlace |> <| e_TransmitOrigin := OriginDaemon |>.
Definition sweep_template (absent : bool) (ref : string) : orderJournalEvent :=
  (if absent then sweep_absent else sweep_status) <| e_OrderRef := ref |>.

Definition sweep_env : JournalEnv := {|
  journal_core := env_ex;
  json_marshal := fun ev =>
    Some (String (if e_Type ev =s orderJournalEventReconciledAbsent then "a" else "s")%char (e_OrderRef ev));
  json_unmarshal := fun raw =>
    match raw with
    | String c ref => Some (sweep_template (Ascii.eqb c "a") ref)
    | EmptyString => None
    end;
  json_client_id := fun _ => ClientInt 15;
  json_faithful := fun ev => ev <| e_clientIDPresent := false |> =
    sweep_template (e_Type ev =s orderJournalEventReconciledAbsent) (e_OrderRef ev)
|}.
#[local] Existing Instance sweep_env.

#[local] Instance sweep_laws : JsonLaws.
Proof.
  split; intros ev raw Hf [= <-]; cbn [json_unmarshal json_client_id json_faithful sweep_env] in *.
  - rewrite Hf. by destruct (e_Type ev =s orderJournalEventReconciledAbsent).
  - apply (f_equal e_ClientID) in Hf. change (e_ClientID ev = e_ClientID (sweep_template
      (e_Type ev =s orderJournalEventReconciledAbsent) (e_OrderRef ev))) in Hf.
    rewrite Hf. by destruct (e_Type ev =s orderJournalEventReconciledAbsent).
Qed.

Definition sweep_records : list OrderEventRecord :=
  match encodeEvents append_env_ex 0 "" "" [sweep_status <| e_OrderRef := "canary-1" |>] with
  | Ok ps => map fst ps | Err _ => [] end.
Definition sweep_store : store := run ready_store [OpAppend no_faults order_values 0 sweep_records].
Definition sweep_read : attempt := mkAttemptRead sweep_store sweep_store (64000000000 * Second) sweep_store.
(** The broker reports another order only; keys of the next append start at "7". *)
Definition sweep_run : sweepRun :=
  mkSweep (mkScope "DU123" "paper") sweep_store (64000000000 * Second) false 3
    (mkSnapshot true [zero_OrderLifecycleEvent <| b_PermID := 901 |>] 5 6 0) false [sweep_read]
    (64000000000 * Second) (fun _ => 64000000000 * Second) (Some (5, 6)) true
    (mkAppendEnv (fun _ => 0) (fun i => Some (Itoa (7 + Z.of_nat i))) order_values no_faults) 3 3.
Lemma sweep_store_inv : oa_inv sweep_store.
Proof.
  apply (run_wf [OpAppend no_faults order_values 0 sweep_records] ready_store); [|exact fresh_db_wf].
  constructor; [exact order_values_ok | constructor].
Qed.

#[local] Opaque sweep_store.

Lemma sweep_reads_inv : reads_before (sw_reads sweep_run) sweep_store.
Proof.
  constructor; [|constructor]. cbn [ra_before ra_load ra_after sweep_read].
  split; [exact sweep_store_inv|]. split_and!; apply oa_evolves_refl.
Qed.

Lemma committed_sweep_is_linearised_witness :
  exists j' latch events,
    reconcileOrderJournalWithBroker cal_ex range_sorted sweep_run sweep_store =
      (j', latch, SweepCommitted events) /\
    List.length events = 1%nat /\ sn_Complete (sw_snapshot sweep_run) = true /\
    exists old now stored,
      oa_load sweep_store = Ok old /\
      events = sweepEvents (sw_scope sweep_run) (sw_uncertain sweep_run) (sw_now sweep_run) (sw_clock sweep_run)
                 (sw_snapshot sweep_run) (viewsAt cal_ex range_sorted old now) /\
      Forall2 stored_as events stored /\ oa_load j' = Ok (old ++ stored).
Proof.
  destruct (reconcileOrderJournalWithBroker cal_ex range_sorted sweep_run sweep_store)
    as [[j' latch] out] eqn:Hrun.
  assert (Hout := f_equal snd Hrun). cbn [snd] in Hout. vm_compute in Hout.
  destruct out as [|e|events]; [discriminate Hout | discriminate Hout |]. injection Hout as Hevs.
  exists j', latch, events. split; [reflexivity|]. split; [by rewrite <- Hevs|].
  destruct (committed_sweep_is_linearised cal_ex range_sorted sweep_run sweep_store j' latch events)
    as (Hc & _ & _ & Hex).
  - exact sweep_store_inv.
  - exact sweep_reads_inv.
  - split; [exact order_values_ok|]. intros ps He. rewrite <- Hevs in He. vm_compute in He. injection He as <-.
    constructor; [vm_compute; reflexivity | constructor].
  - by rewrite <- Hevs.
  - exact Hrun.
  - split; [exact Hc | exact Hex].
Defined.

Lemma swept_row_stays_closed_witness :
  let ev := readBack sweep_absent in
  orderJournalKey ev = orderViewKey sweep_row /\
  v_LifecycleStatus (publish (fold_merge emptyFold ev)) = OrderLifecycleClosedReconciled /\
  row_final (publish (fold_events (fold_merge emptyFold ev) [ev_late_submitted])).
Proof.
  apply (swept_row_stays_closed emptyFold sweep_row (64000000000 * Second) (readBack sweep_absent)
           [ev_late_submitted]).
  - exists 0, ActionPlace, OriginDaemon. reflexivity.
  - constructor; [vm_compute; reflexivity | constructor].
Defined.
