(* ===== verification/WriteGate.v ===== *)
(** * The gates of a modify or cancel

    src/internal/daemon/order_write_helpers.go: which row a write names, whether
    the broker's own report of the order id stands behind it, and which terms a
    replacement may change.  Proved: a modify that passes the gates is aimed at
    an open row of the current account, mode and client that the broker (or this
    process's own placement) identifies, keeps everything that makes it that
    order, never grows what is left to fill, and on an under-covered protective
    order only shrinks it to the position with the trail unchanged. *)

From stdpp Require Import base decidable list strings.
From Stdlib Require Import ZArith Lia String.
From S2P Require Import Prelude OrderTypes OrderStatus OrderFold OrderKeys OrderHistory Protective Pairing.

(** rpc.ContractParams, and the fields of rpc.OrderDraft and of what it carries
    that a write reads (an Add review is read for its plan's warnings only). *)
Record ContractParams := mkContractParams {
  cp_ConID : Z; cp_Symbol : string; cp_SecType : string; cp_Market : string; cp_Exchange : string; cp_PrimaryExch : string;
  cp_Currency : string; cp_LocalSymbol : string; cp_TradingClass : string; cp_Expiry : string;
  cp_Strike : float64; cp_Right : string; cp_Multiplier : Z; cp_MinTick : float64
}.
Record StrategyOrderLeg := mkStrategyLeg {
  sl_Contract : ContractParams; sl_Ratio : Z; sl_Action : string; sl_Quantity : Z;
  sl_Before : float64; sl_After : float64
}.
Record StrategyOrderDraft := mkStrategyDraft {
  sd_StrategyID : string; sd_StrategyRevision : Z; sd_PositionFingerprint : string; sd_Operation : string;
  sd_Units : Z; sd_UnitsBefore : Z; sd_UnitsAfter : Z; sd_GuaranteedCombo : bool; sd_Legs : list StrategyOrderLeg
}.
Record StockAddBlocker := mkAddBlocker { sb_Kind : string; sb_Code : string; sb_Message : string }.
Record AddReview := mkAddReview {
  ar_RegimeStage : string; ar_RegimeAsOf : time; ar_PolicyFingerprint : string; ar_RulebookFingerprint : string;
  ar_CashPolicyFingerprint : string; ar_AsOf : time; ar_PlanWarnings : list StockAddBlocker
}.
(** The part of rpc.OrderBondTerms that the broker's order rules and the order limits read. *)
Record OrderBondTerms := mkBondTerms {
  bt_Maturity : string; bt_Instrument : string; bt_MinTick : float64; bt_MinSize : float64; bt_SizeIncrement : float64;
  bt_TradingCapExemptUpToBase : float64
}.
Record OrderDraft := mkDraft {
  dr_AttachedStop : option AttachedStockStop; dr_EntryLink : option StockEntryLink; dr_FixedStopPrice : float64;
  dr_AdaptivePriority : string; dr_Add : option AddReview;
  dr_Action : string; dr_Contract : ContractParams; dr_Quantity : Z; dr_OrderType : string;
  dr_LimitPrice : float64; dr_Trail : option OrderTrailSpec; dr_TriggerMethod : Z; dr_TIF : string;
  dr_OutsideRTH : bool; dr_OrderRef : string; dr_OpenClose : string; dr_Source : string;
  dr_StrategyGroup : option StrategyOrderDraft; dr_OCAGroup : string; dr_OCAType : Z;
  dr_Bond : option OrderBondTerms
}.
#[global] Instance OrderDraft_eta : Eta OrderDraft := fun r => mkDraft
  (dr_AttachedStop r) (dr_EntryLink r) (dr_FixedStopPrice r) (dr_AdaptivePriority r) (dr_Add r) (dr_Action r)
  (dr_Contract r) (dr_Quantity r) (dr_OrderType r) (dr_LimitPrice r) (dr_Trail r) (dr_TriggerMethod r) (dr_TIF r)
  (dr_OutsideRTH r) (dr_OrderRef r) (dr_OpenClose r) (dr_Source r) (dr_StrategyGroup r) (dr_OCAGroup r) (dr_OCAType r) (dr_Bond r).

Abbreviation wres := (result goerr).
Definition bad {A} (msg : string) : wres A := Err (errBadRequest msg).
Definition say (parts : list string) : string := String.concat "" parts.
Definition tradingDisabled {A} (parts : list string) : wres A :=
  Err (mkErr "trading_disabled" (say ("trading disabled: " :: parts))).

(** ** The row a write names *)

(** validateOrderViewMatchesGate *)
Definition validateOrderViewMatchesGate (view : OrderView) (status : tradingRoute) : wres unit :=
  if negb (EqualFold (v_Mode view) (rt_Mode status))
  then tradingDisabled ["order mode "; v_Mode view; " does not match current mode "; rt_Mode status]
  else if negb (EqualFold (v_Account view) (rt_Account status))
  then tradingDisabled ["order account "; v_Account view; " does not match current account "; rt_Account status]
  else if negb (v_ClientID view =? rt_ClientID status)
  then tradingDisabled ["order client ID "; Itoa (v_ClientID view); " does not match current client ID ";
                        Itoa (rt_ClientID status)]
  else Ok tt.

(** The loop of openOrderViewForWrite over the loaded rows. *)
Fixpoint findForWrite (id : string) (status : tradingRoute) (views : list OrderView) (scopeErr : option goerr)
    : wres OrderView :=
  match views with
  | [] => match scopeErr with Some e => Err e | None => bad "order not found" end
  | view :: rest =>
      if negb (orderViewMatchesID view id) then findForWrite id status rest scopeErr
      else
        match validateOrderViewMatchesGate view status with
        | Err e => findForWrite id status rest (Some e)
        | Ok _ => if negb (v_Open view) then bad "order is not open" else Ok view
        end
  end.

(** openOrderViewForWrite; [loaded] is what loadOrderViews answers.  The
    once-per-socket log line is not part of the result. *)
Definition openOrderViewForWrite (rawID : string) (status : tradingRoute) (loaded : wres (list OrderView))
    : wres OrderView :=
  let id := TrimSpace rawID in
  if id =s "" then bad "order id is required"
  else let? views := loaded in findForWrite id status views None.

(** orderJournalStatusFor *)
Definition orderJournalStatusFor (view : OrderView) (status : tradingRoute) : tradingRoute :=
  mkRoute (rt_Account status) (v_Endpoint view) (rt_Mode status) (rt_ClientID status).

(** ** Does the broker report stand behind the order id? *)

Record ReportedOwnOrder := mkReported {
  ro_PermID : Z; ro_Account : string; ro_OrderRef : string; ro_Conflicted : bool
}.

(** What the bound socket knows of an order id: its report, and whether this
    process placed it. *)
Record brokerOrderReports := mkReports { br_report : Z -> option ReportedOwnOrder; br_placedHere : Z -> bool }.

(** orderChangeIdentity *)
Definition orderChangeIdentity (view : OrderView) : option (Z * string * string) :=
  if v_PermID view <=? 0 then None else Some (v_PermID view, v_Account view, v_OrderRef view).

(** validateReportedOwnOrder; [None]: no connector, nothing to compare. *)
Definition validateReportedOwnOrder (reports : option brokerOrderReports) (view : OrderView) (modify : bool)
    : wres unit :=
  match reports with
  | None => Ok tt
  | Some reports =>
      if v_ReservedOrderID view <=? 0 then Ok tt
      else
        let id := v_ReservedOrderID view in
        let refused before after := bad (say (before :: Itoa id :: after)) in
        let it := ["; refusing to "; if modify then "change" else "cancel"; " it"] in
        let placed := br_placedHere reports id in
        match br_report reports id with
        | None =>
            if placed then Ok tt
            else refused "the broker has not reported order ID "
                   (" as this client's open order on the current connection, and this daemon process did not place it"
                     :: it ++ [" until the broker's open-order report arrives"])
        | Some report =>
            if ro_Conflicted report
            then refused "the broker reported order ID " (" twice with different identities on this connection" :: it)
            else if negb (EqualFold (TrimSpace (ro_Account report)) (TrimSpace (v_Account view)))
            then refused "the broker reports order ID " (" for another account" :: it)
            else if (ro_OrderRef report <>s "") && (v_OrderRef view <>s "") &&
                    (ro_OrderRef report <>s v_OrderRef view)
            then refused "the broker reports order ID " (" under another order reference" :: it)
            else if negb placed && (v_OrderRef view <>s "") && (ro_OrderRef report =s "")
            then refused "the broker's report of order ID "
                   (" carries no order reference to prove it is this order" :: it)
            else if (0 <? v_PermID view) && negb (ro_PermID report =? v_PermID view)
            then refused "the broker reports order ID "
                   (" as permanent ID " :: Itoa (ro_PermID report) :: ", not this order's " :: Itoa (v_PermID view) :: it)
            else if (0 <? v_PermID view) || placed then Ok tt
            else if modify
            then refused "the journal has no permanent ID to prove the broker's order ID "
                   [" is this order; refusing to change it"]
            else if (ro_OrderRef report =s "") || (ro_OrderRef report <>s v_OrderRef view)
            then refused "the journal has no permanent ID and the broker's report of order ID "
                   [" does not carry this order's reference; refusing to cancel it"]
            else Ok tt
        end
  end.

(** ** What a replacement may change *)

Definition isTrailOrderType (orderType : string) : bool :=
  one_of (ToUpper (TrimSpace orderType)) [OrderTypeTRAIL; OrderTypeTRAILLIMIT].

(** validateModifyTrailDraft *)
Definition validateModifyTrailDraft (orderType : string) (draft : OrderDraft) : wres unit :=
  if dr_LimitPrice draft <>f f0 then bad "order modify TRAIL draft must not include limit_price"
  else
    match dr_Trail draft with
    | None => bad "order modify requires trail fields for TRAIL orders"
    | Some trail =>
        let percent := t_TrailingPercent trail in
        let amount := t_TrailingAmount trail in
        if Bool.eqb (present percent) (present amount)
        then bad "order modify trail requires exactly one of trailing_percent or trailing_amount"
        else if match percent with Some p => negb (positiveFinite p) | None => false end
        then bad "order modify trailing_percent must be positive"
        else if match amount with Some a => negb (positiveFinite a) | None => false end
        then bad "order modify trailing_amount must be positive"
        else if negb (positiveFinite (t_InitialStopPrice trail))
        then bad "order modify requires a positive initial stop price"
        else if orderType =s OrderTypeTRAIL then
          if present (t_LimitOffset trail) then bad "order modify TRAIL draft must not include limit_offset" else Ok tt
        else if orderType =s OrderTypeTRAILLIMIT then
          if match t_LimitOffset trail with Some o => negb (positiveFinite o) | None => true end
          then bad "order modify TRAIL LIMIT draft requires positive limit_offset" else Ok tt
        else Ok tt
    end.

(** One "cannot change" comparison of validateModifyContractRouting. *)
Definition routingDiffers (a b : string) : bool := (a <>s "") && (b <>s "") && negb (EqualFold a b).

Definition validateModifyContractRouting (view : OrderView) (c : ContractParams) : wres unit :=
  if routingDiffers (v_Exchange view) (cp_Exchange c) then bad "order modify cannot change exchange"
  else if routingDiffers (v_PrimaryExch view) (cp_PrimaryExch c) then bad "order modify cannot change primary exchange"
  else if routingDiffers (v_Currency view) (cp_Currency c) then bad "order modify cannot change currency"
  else if routingDiffers (v_LocalSymbol view) (cp_LocalSymbol c) then bad "order modify cannot change local symbol"
  else if routingDiffers (v_TradingClass view) (cp_TradingClass c) then bad "order modify cannot change trading class"
  else Ok tt.

(** modifyContractForView: the open order's contract, whatever was asked; only
    the request's market and tick hints survive. *)
Definition modifyContractForView (view : OrderView) (c : ContractParams) : ContractParams :=
  mkContractParams (v_ConID view) (v_Symbol view) (v_SecType view) (cp_Market c) (v_Exchange view) (v_PrimaryExch view)
    (v_Currency view) (v_LocalSymbol view) (v_TradingClass view) (v_Expiry view) (v_Strike view)
    (v_Right view) (v_Multiplier view) (cp_MinTick c).

(** The most a replacement may ask for. *)
Definition modifyMaxQuantity (view : OrderView) : float64 :=
  let maxQty := v_Remaining view in
  let maxQty := if maxQty <=f f0 then fsub (v_Quantity view) (v_Filled view) else maxQty in
  if maxQty <=f f0 then v_Quantity view else maxQty.

(** The terms of an attached-stop replacement. *)
Definition stopReplacementInvalid (view : OrderView) (draft : OrderDraft) : bool :=
  (v_EntryState view <>s "active") || negb (present (v_EntryLink view)) ||
  negb (stockEntryLinksEqual (v_EntryLink view) (dr_EntryLink draft)) ||
  negb (positiveFinite (dr_FixedStopPrice draft)) || (dr_FixedStopPrice draft <>f v_FixedStopPrice view) ||
  (dr_LimitPrice draft <>f f0) || present (dr_Trail draft) || (v_Action view <>s "SELL") ||
  (v_TIF view <>s "GTC") || v_OutsideRTH view || negb (v_TriggerMethod view =? 2) ||
  (f_of_Z (dr_Quantity draft) >=f orderViewRemainingQuantity view).

Section Messages.
(** The "%.4g" of the messages shown to the operator. *)
Variable g4 : float64 -> string.

(** validateModifyDraft *)
Definition validateModifyDraft (view : OrderView) (draft : OrderDraft) : wres unit :=
  let viewSecType := ToUpper (TrimSpace (v_SecType view)) in
  let viewType := ToUpper (TrimSpace (v_OrderType view)) in
  let draftType := ToUpper (TrimSpace (dr_OrderType draft)) in
  guard? orderAlgorithmMatches (dr_AdaptivePriority draft) (v_AdaptivePriority view) (v_AlgoStrategy view)
           (v_AlgoKnown view)
    else errBadRequest "order modify cannot change or discard the broker algorithm";
  guard? negb (((viewSecType <>s "STK") && (viewSecType <>s "OPT")) ||
               (ToUpper (TrimSpace (cp_SecType (dr_Contract draft))) <>s viewSecType))
    else errBadRequest "order modify supports STK and OPT contracts only, and cannot change the security type";
  guard? EqualFold (v_Symbol view) (cp_Symbol (dr_Contract draft))
    else errBadRequest "order modify cannot change symbol";
  guard? EqualFold (v_Action view) (dr_Action draft) else errBadRequest "order modify cannot change action";
  guard? one_of viewType [OrderTypeLMT; OrderTypeTRAIL; OrderTypeTRAILLIMIT; "STP"]
    else errBadRequest "order modify supports LMT, TRAIL, and TRAIL LIMIT orders only";
  guard? viewType =s draftType else errBadRequest "order modify cannot change order type";
  guard? EqualFold (v_TIF view) (dr_TIF draft) else errBadRequest "order modify cannot change time-in-force";
  guard? v_TriggerMethod view =? dr_TriggerMethod draft
    else errBadRequest "order modify cannot change trigger_method";
  let? _ :=
    if isTrailOrderType viewType || (viewType =s "STP") then
      if negb (EqualFold (v_TIF view) OrderTIFDay) && negb (EqualFold (v_TIF view) OrderTIFGTC)
      then bad "order modify supports DAY or GTC time-in-force for TRAIL orders" else Ok tt
    else if negb (EqualFold (v_TIF view) OrderTIFDay)
    then bad "order modify supports DAY time-in-force only" else Ok tt in
  guard? Bool.eqb (dr_OutsideRTH draft) (v_OutsideRTH view)
    else errBadRequest "order modify cannot change outside_rth";
  let? _ :=
    if draftType =s "STP" then
      if stopReplacementInvalid view draft
      then bad "attached stop replacement may only reduce quantity with its fixed price and parent unchanged"
      else Ok tt
    else if isTrailOrderType draftType then validateModifyTrailDraft draftType draft
    else if (dr_LimitPrice draft <=f f0) || IsNaN (dr_LimitPrice draft) || IsInf (dr_LimitPrice draft)
    then bad "order modify requires a positive limit price"
    else Ok tt in
  guard? negb ((dr_Quantity draft <=? 0) || (f_of_Z (dr_Quantity draft) >f modifyMaxQuantity view))
    else errBadRequest (say ["order modify quantity must be positive and no more than remaining ";
                              g4 (modifyMaxQuantity view)]);
  validateModifyContractRouting view (dr_Contract draft).

(** validateProtectiveModifyQuantity at the freshly read position. *)
Definition validateProtectiveModifyQuantity (view : OrderView) (draft : OrderDraft) (current : float64)
    : wres unit :=
  if negb (orderViewIsCloseProtective view) then Ok tt
  else
    let remaining := orderViewRemainingQuantity view in
    if orderViewActionCanCloseQuantity view current remaining then Ok tt
    else
      let coverage := protectiveCloseCoverage view current in
      if coverage <=f f0 then bad "position is flat or reversed; this protective order cannot be modified — cancel it instead"
      else if fabs (fsub (f_of_Z (dr_Quantity draft)) coverage) >f f_1e9
      then bad (say ["position no longer covers this protective order; modify must reduce quantity to exactly ";
                     g4 coverage])
      else if negb (trailSpecsEquivalent (v_Trail view) (dr_Trail draft))
      then bad "protective-order reduce must keep the existing trail parameters unchanged; re-price after the size matches the position"
      else Ok tt.
End Messages.

(** ** What an admitted modify is *)

Lemma findForWrite_ok id status views e view :
  findForWrite id status views e = Ok view ->
  In view views /\ orderViewMatchesID view id = true /\ v_Open view = true /\
  validateOrderViewMatchesGate view status = Ok tt.
Proof.
  revert e. induction views as [|v views IH]; intros e H; cbn [findForWrite] in H; [by destruct e|].
  destruct (orderViewMatchesID v id) eqn:Hm; cbn [negb] in H.
  2: { apply IH in H as [? ?]. split; [by right | done]. }
  destruct (validateOrderViewMatchesGate v status) as [[]|] eqn:Hg.
  - destruct (v_Open v) eqn:Ho; cbn [negb] in H; [|done]. injection H as <-. by split; [left|].
  - apply IH in H as [? ?]. split; [by right | done].
Qed.

Lemma gate_ok view status :
  validateOrderViewMatchesGate view status = Ok tt ->
  EqualFold (v_Mode view) (rt_Mode status) = true /\ EqualFold (v_Account view) (rt_Account status) = true /\
  v_ClientID view = rt_ClientID status.
Proof.
  unfold validateOrderViewMatchesGate.
  destruct (EqualFold (v_Mode view) _), (EqualFold (v_Account view) _), (v_ClientID view =? _) eqn:E; try done.
  bool_hyps. done.
Qed.

(** The broker's report names the row's order. *)
Definition reportNames (r : ReportedOwnOrder) (view : OrderView) : Prop :=
  ro_Conflicted r = false /\ EqualFold (TrimSpace (ro_Account r)) (TrimSpace (v_Account view)) = true /\
  0 < v_PermID view /\ ro_PermID r = v_PermID view /\
  (v_OrderRef view <> "" -> ro_OrderRef r = v_OrderRef view).

(** What a broker's report must say of the row before it may be changed: without a
    report this process placed the order; with one, it is free of conflict, of the
    row's account, reference (a report may lack it only for an order placed here) and
    permanent id, and the row has a permanent id or was placed here. *)
Definition brokerConfirms (reports : brokerOrderReports) (view : OrderView) : Prop :=
  match br_report reports (v_ReservedOrderID view) with
  | None => br_placedHere reports (v_ReservedOrderID view) = true
  | Some r =>
      ro_Conflicted r = false /\ EqualFold (TrimSpace (ro_Account r)) (TrimSpace (v_Account view)) = true /\
      (v_OrderRef view <> "" -> ro_OrderRef r = v_OrderRef view \/
         (ro_OrderRef r = "" /\ br_placedHere reports (v_ReservedOrderID view) = true)) /\
      (0 < v_PermID view -> ro_PermID r = v_PermID view) /\
      (0 < v_PermID view \/ br_placedHere reports (v_ReservedOrderID view) = true)
  end.

Lemma reported_confirms reports view :
  0 < v_ReservedOrderID view -> validateReportedOwnOrder (Some reports) view true = Ok tt -> brokerConfirms reports view.
Proof.
  intros Hid. unfold validateReportedOwnOrder, brokerConfirms. apply Z.leb_gt in Hid. rewrite Hid.
  destruct (br_report reports _) as [r|]; [|by destruct (br_placedHere reports _)]. intros H.
  destruct (ro_Conflicted r) eqn:Hc; [done|]. destruct (EqualFold _ _) eqn:Ha; [|done]. cbn [negb] in H.
  destruct ((ro_OrderRef r <>s "") && (v_OrderRef view <>s "") && _) eqn:Hr; [done|].
  destruct (negb (br_placedHere reports _) && (v_OrderRef view <>s "") && (ro_OrderRef r =s "")) eqn:Hn; [done|].
  destruct ((0 <? v_PermID view) && negb (ro_PermID r =? v_PermID view)) eqn:Hperm; [done|].
  destruct ((0 <? v_PermID view) || br_placedHere reports _) eqn:Hor; [|done].
  split; [done|]. split; [done|]. split; [|split].
  - intros Hv. apply String.eqb_neq in Hv. rewrite Hv in *. cbn [negb andb] in *.
    destruct (String.eqb_spec (ro_OrderRef r) "") as [He|He]; cbn [negb andb] in *.
    + right. split; [done|]. by destruct (br_placedHere reports _).
    + left. by destruct (String.eqb_spec (ro_OrderRef r) (v_OrderRef view)).
  - intros Hp. apply Z.ltb_lt in Hp. rewrite Hp in Hperm. cbn [andb] in Hperm. apply negb_false_iff in Hperm. by apply Z.eqb_eq.
  - apply orb_true_iff in Hor as [Hor|Hor]; [left; by apply Z.ltb_lt | by right].
Qed.

Lemma reported_modify_ok reports view :
  0 < v_ReservedOrderID view -> validateReportedOwnOrder (Some reports) view true = Ok tt ->
  br_placedHere reports (v_ReservedOrderID view) = true \/
  exists r, br_report reports (v_ReservedOrderID view) = Some r /\ reportNames r view.
Proof.
  intros Hid. unfold validateReportedOwnOrder. apply Z.leb_gt in Hid. rewrite Hid.
  destruct (br_placedHere reports _) eqn:Hp; [by left|]. intros H. right.
  destruct (br_report reports _) as [r|]; [|done]. exists r. split; [done|].
  destruct (ro_Conflicted r) eqn:Hc; [done|]. destruct (EqualFold _ _) eqn:Ha; [|done]. cbn [negb andb] in H.
  destruct ((ro_OrderRef r <>s "") && (v_OrderRef view <>s "") && _) eqn:Hr; [done|].
  destruct ((v_OrderRef view <>s "") && (ro_OrderRef r =s "")) eqn:Hn; [done|].
  destruct (0 <? v_PermID view) eqn:Hperm; [|done]. cbn [andb orb] in H.
  destruct (ro_PermID r =? v_PermID view) eqn:E; [|done]. bool_hyps.
  split_and!; try done. intros Hv. apply String.eqb_neq in Hv. rewrite Hv in *. cbn [negb andb] in *.
  bool_hyps. apply String.eqb_neq in Hn. rewrite Hn in Hr. cbn in Hr. by bool_hyps.
Qed.

(** Everything but price, trail and size is the open order's. *)
Definition sameTerms (view : OrderView) (draft : OrderDraft) : Prop :=
  ToUpper (TrimSpace (cp_SecType (dr_Contract draft))) = ToUpper (TrimSpace (v_SecType view)) /\
  EqualFold (v_Symbol view) (cp_Symbol (dr_Contract draft)) = true /\
  EqualFold (v_Action view) (dr_Action draft) = true /\
  ToUpper (TrimSpace (v_OrderType view)) = ToUpper (TrimSpace (dr_OrderType draft)) /\
  EqualFold (v_TIF view) (dr_TIF draft) = true /\ v_TriggerMethod view = dr_TriggerMethod draft /\
  dr_OutsideRTH draft = v_OutsideRTH view /\
  dr_AdaptivePriority draft = v_AdaptivePriority view.

Lemma modify_draft_ok g4 view draft :
  validateModifyDraft g4 view draft = Ok tt ->
  sameTerms view draft /\ 0 < dr_Quantity draft /\
  (modifyMaxQuantity view <f f_of_Z (dr_Quantity draft)) = false /\
  validateModifyContractRouting view (dr_Contract draft) = Ok tt.
Proof.
  unfold validateModifyDraft. cbv zeta. intros H.
  apply guard_ok in H as [Halg H]. apply guard_ok in H as [Hsec H]. apply guard_ok in H as [Hsym H].
  apply guard_ok in H as [Hact H]. apply guard_ok in H as [_ H]. apply guard_ok in H as [Htype H].
  apply guard_ok in H as [Htif H]. apply guard_ok in H as [Htrig H]. apply rbind_ok in H as (_ & _ & H).
  apply guard_ok in H as [Hrth H]. apply rbind_ok in H as (_ & _ & H). apply guard_ok in H as [Hq H].
  apply Bool.eqb_prop in Hrth. bool_hyps.
  assert (Hpri : dr_AdaptivePriority draft = v_AdaptivePriority view).
  { unfold orderAlgorithmMatches in Halg. destruct (dr_AdaptivePriority draft =s v_AdaptivePriority view) eqn:E;
      [by bool_hyps | done]. }
  split; [|split_and!; done]. unfold sameTerms. split_and!; try done.
Qed.

Lemma protective_modify_ok g4 view draft current :
  validateProtectiveModifyQuantity g4 view draft current = Ok tt -> orderViewIsCloseProtective view = true ->
  covered view current (orderViewRemainingQuantity view) \/
  (protectiveCloseCoverage view current <=f f0) = false /\
  (f_1e9 <f fabs (fsub (f_of_Z (dr_Quantity draft)) (protectiveCloseCoverage view current))) = false /\
  trailSpecsEquivalent (v_Trail view) (dr_Trail draft) = true.
Proof.
  unfold validateProtectiveModifyQuantity. intros H Hp. rewrite Hp in H. cbn [negb] in H.
  destruct (orderViewActionCanCloseQuantity _ _ _) eqn:Hc; [left; by apply can_close_covered|]. right.
  destruct (_ <=f f0); [done|]. destruct (f_1e9 <f _); [done|].
  destruct (trailSpecsEquivalent _ _); done.
Qed.

(** An admitted modify is a change of the same order.  When the gates let
    a modify through, the row it was asked for is an open row of the current
    mode, account and client; this process placed that order id or the broker's
    own report of it names the row's account, permanent id and reference without
    conflict; the replacement keeps contract, action, order type, time in force,
    trigger, session and algorithm, asks for a positive quantity no larger than
    what is left, and on a protective order that the position does not cover it
    asks for exactly the coverage with the trail unchanged. *)
Theorem admitted_modify_changes_the_same_order g4 rawID status views reports view draft current :
  openOrderViewForWrite rawID status (Ok views) = Ok view -> 0 < v_ReservedOrderID view ->
  validateReportedOwnOrder (Some reports) view true = Ok tt ->
  validateModifyDraft g4 view draft = Ok tt -> validateProtectiveModifyQuantity g4 view draft current = Ok tt ->
  (In view views /\ v_Open view = true /\ EqualFold (v_Mode view) (rt_Mode status) = true /\
   EqualFold (v_Account view) (rt_Account status) = true /\ v_ClientID view = rt_ClientID status) /\
  (br_placedHere reports (v_ReservedOrderID view) = true \/
   exists r, br_report reports (v_ReservedOrderID view) = Some r /\ reportNames r view) /\
  sameTerms view draft /\
  0 < dr_Quantity draft /\ (modifyMaxQuantity view <f f_of_Z (dr_Quantity draft)) = false /\
  (orderViewIsCloseProtective view = true ->
   covered view current (orderViewRemainingQuantity view) \/
   (protectiveCloseCoverage view current <=f f0) = false /\
   (f_1e9 <f fabs (fsub (f_of_Z (dr_Quantity draft)) (protectiveCloseCoverage view current))) = false /\
   trailSpecsEquivalent (v_Trail view) (dr_Trail draft) = true).
Proof.
  intros Hopen Hid Hrep Hdraft Hprot. unfold openOrderViewForWrite in Hopen. case_if_in Hopen; [done|].
  apply findForWrite_ok in Hopen as (Hin & _ & Ho & Hg). apply gate_ok in Hg as (? & ? & ?).
  apply modify_draft_ok in Hdraft as (? & ? & ? & _).
  split_and!; try done; [by apply reported_modify_ok | by eapply protective_modify_ok].
Qed.

Definition gate_row : OrderView :=
  trail_row <| v_ReservedOrderID := 41 |> <| v_PermID := 900 |> <| v_Account := "DU123" |> <| v_Mode := "paper" |>
    <| v_ClientID := 15 |> <| v_TIF := "GTC" |>
    <| v_Trail := Some (mkOrderTrailSpec "" "" (Some (f_of_Z 5)) None (f_of_Z 90) None) |>.
Definition gate_draft : OrderDraft :=
  mkDraft None None f0 "" None "SELL" (mkContractParams 0 "AAPL" "STK" "" "" "" "" "" "" "" f0 "" 0 f0) 40
    OrderTypeTRAIL f0 (v_Trail gate_row) 0 "GTC" false "canary-5" "" "" None "" 0 None.
Definition gate_reports : brokerOrderReports :=
  mkReports (fun id => if id =? 41 then Some (mkReported 900 "du123" "canary-5" false) else None) (fun _ => false).

Lemma admitted_modify_changes_the_same_order_witness :
  reportNames (mkReported 900 "du123" "canary-5" false) gate_row /\ sameTerms gate_row gate_draft /\
  trailSpecsEquivalent (v_Trail gate_row) (dr_Trail gate_draft) = true.
Proof.
  destruct (admitted_modify_changes_the_same_order (fun _ => "") " 41" (mkRoute "DU123" "127.0.0.1:4002" "paper" 15) [gate_row]
              gate_reports gate_row gate_draft (f_of_Z 40)) as (_ & [Hp | (r & Hr & Hn)] & Hs & _ & _ & Hprot);
    [vm_compute; reflexivity | vm_compute; reflexivity | vm_compute; reflexivity | vm_compute; reflexivity
    | vm_compute; reflexivity | discriminate Hp |].
  injection Hr as <-. split; [exact Hn|]. split; [exact Hs|].
  destruct Hprot as [Hc | (_ & _ & Ht)]; [vm_compute; reflexivity | | exact Ht].
  apply can_close_covered in Hc. vm_compute in Hc. discriminate Hc.
Defined.
