(* ===== verification/CoreEvaluator.v ===== *)
(** * The strategy evaluator's arithmetic

    src/internal/core/core.go and replay.go: the month's signal (MeasureWith),
    the target it is sized to (SizeTarget), the data guards (GuardWith), the
    headroom search, the decision (Decide) and the replay of the rule over the
    month-ends of a series.  Floats are IEEE doubles and package math is computed
    as Go computes it.  strconv's decimal rendering of a float and the SHA-256
    digest are parameters.  Proved: the bisection of Headroom ends and returns
    the largest admitted step, a decision never sells more than is held, never
    buys past the target or the headroom and always leaves when the trend is off,
    and the paper path of a replay is the bookkeeping of its own decisions. *)

From stdpp Require Import base decidable list strings gmap.
From Stdlib Require Import ZArith Lia Ascii String SpecFloat.
From S2P Require Import Prelude Floats WriteGate.

(** ** Package math *)

Definition Sqrt (x : float64) : float64 := SFsqrt f_prec f_emax x.

(** The loop of math.Pow over the bits of a non-negative integer exponent. *)
Fixpoint powLoop (bits : positive) (x1 : float64) (xe : Z) (a1 : float64) (ae : Z) : float64 * Z :=
  let '(a1', ae') := match bits with xO _ => (a1, ae) | _ => (fmul a1 x1, ae + xe) end in
  let sq := fmul x1 x1 in
  let '(x1', xe') := if sq <f f_const 1 2 then (fadd sq sq, 2 * xe - 1) else (sq, 2 * xe) in
  match bits with
  | xH => (a1', ae')
  | xO rest | xI rest => powLoop rest x1' xe' a1' ae'
  end.

(** math.Pow(x, float64(n)) for a finite positive [x] and [0 <= n < 4096], where
    the loop's overflow exit is not taken. *)
Definition powInt (x : float64) (n : Z) : float64 :=
  match n with
  | Zpos p =>
      if n =? 1 then x
      else if x =f f_of_Z 1 then f_of_Z 1
      else
        let '(x1, xe) := SFfrexp f_prec f_emax x in
        let '(a1, ae) := powLoop p x1 xe (f_of_Z 1) 0 in
        SFldexp f_prec f_emax a1 ae
  | _ => f_of_Z 1
  end.

(** ** The rule's numbers *)

Definition WindowCloses : nat := 253.
Definition TrendMonths : nat := 10.
Definition EWMASpan : Z := 63.
Definition VolFloor : float64 := f_const 15 100.
Definition AnnualDays : float64 := f_of_Z 252.
Definition JumpPct : float64 := f_of_Z 8.
Definition SigmaMin : float64 := f_const 5 100.
Definition SigmaMax : float64 := f_of_Z 1.
Definition coreSymbol : string := "IBCF".

Record Trend := mkTrend { tr_ID : string; tr_Months : nat }.
Definition TrendSMA10 : Trend := mkTrend "trend-sma10m" TrendMonths.
Definition Trends : list Trend := [TrendSMA10].
Definition FindTrend (id : string) : option Trend := List.find (fun t => tr_ID t =s id) Trends.

Definition StatusOK : string := "ok".
Definition StatusHold : string := "hold".
Definition StatusNotLive : string := "not_live".

Definition BindingEWMA : string := "ewma".
Definition Binding252 : string := "252".
Definition BindingFloor : string := "floor".

Record Signal := mkSignal {
  sg_Status : string; sg_Reason : string; sg_Decision : string; sg_WindowFrom : string; sg_MonthEnds : list string;
  sg_MonthEndCloses : list float64; sg_Close : float64; sg_SMA10 : float64; sg_TrendOn : bool; sg_SigmaEWMA : float64;
  sg_Sigma252 : float64; sg_Sigma : float64; sg_Binding : string; sg_Digest : string
}.
#[global] Instance Signal_eta : Eta Signal := fun s =>
  mkSignal (sg_Status s) (sg_Reason s) (sg_Decision s) (sg_WindowFrom s) (sg_MonthEnds s) (sg_MonthEndCloses s)
    (sg_Close s) (sg_SMA10 s) (sg_TrendOn s) (sg_SigmaEWMA s) (sg_Sigma252 s) (sg_Sigma s) (sg_Binding s) (sg_Digest s).

Record Window := mkWindow { wi_Dates : list string; wi_Closes : list float64 }.
Record Series := mkSeries { se_Dates : list string; se_Closes : list float64 }.

(** ** Months *)

(** month *)
Definition month (date : string) : string := if Nat.ltb (String.length date) 7 then date else String.substring 0 7 date.

(** MonthEnds *)
Fixpoint MonthEnds (sessions : list string) : list string :=
  match sessions with
  | [] => []
  | d :: rest =>
      match rest with
      | [] => [d]
      | next :: _ => if month next <>s month d then d :: MonthEnds rest else MonthEnds rest
      end
  end.

(** [s[len(s)-n:]] *)
Definition lastN {A} (n : nat) (l : list A) : list A := drop (List.length l - n) l.

(** The index of the first element equal to [d]. *)
Fixpoint indexOf (d : string) (l : list string) : option nat :=
  match l with
  | [] => None
  | x :: rest => if x =s d then Some O else match indexOf d rest with Some i => Some (S i) | None => None end
  end.

(** ** Volatility *)

(** SigmaEWMA *)
Definition SigmaEWMA (r : list float64) : float64 :=
  let n := Z.of_nat (List.length r) in
  if n <? EWMASpan then f0
  else
    let alpha := fdiv (f_of_Z 2) (f_of_Z (EWMASpan + 1)) in
    let base := fsub (f_of_Z 1) alpha in
    let w := imap (fun i _ => powInt base (n - 1 - Z.of_nat i)) r in
    let wr := combine w r in
    let '(sw, sw2, swx) :=
      fold_left (fun '(sw, sw2, swx) '(w, x) => (fadd sw w, fadd sw2 (fmul w w), fadd swx (fmul w x))) wr (f0, f0, f0) in
    let mean := fdiv swx sw in
    let ss := fold_left (fun ss '(w, x) => let d := fsub x mean in fadd ss (fmul (fmul w d) d)) wr f0 in
    let biased := fdiv ss sw in
    Sqrt (fmul (fdiv (fmul (fmul biased sw) sw) (fsub (fmul sw sw) sw2)) AnnualDays).

(** SigmaSample *)
Definition SigmaSample (r : list float64) : float64 :=
  let n := Z.of_nat (List.length r) in
  if n <? 2 then f0
  else
    let mean := fdiv (fold_left fadd r f0) (f_of_Z n) in
    let ss := fold_left (fun ss v => fadd ss (fmul (fsub v mean) (fsub v mean))) r f0 in
    Sqrt (fmul (fdiv ss (f_of_Z (n - 1))) AnnualDays).

(** ** The month's signal *)

(** The closes by date; a later entry of the same date wins. *)
Definition closesByDate (dates : list string) (closes : list float64) : gmap string float64 :=
  fold_left (fun m '(d, c) => <[d := c]> m) (combine dates closes) ∅.

(** The window's closes, or why there are none. *)
Fixpoint windowCloses (byDate : gmap string float64) (window : list string) : result string (list float64) :=
  match window with
  | [] => Ok []
  | d :: rest =>
      match byDate !! d with
      | None => Err (say ["no close on "; d])
      | Some c =>
          if negb (c >f f0) || IsInf c then Err (say ["no usable close on "; d])
          else let? cs := windowCloses byDate rest in Ok (c :: cs)
      end
  end.

Fixpoint dailyReturns (closes : list float64) : list float64 :=
  match closes with
  | a :: ((b :: _) as rest) => fsub (fdiv b a) (f_of_Z 1) :: dailyReturns rest
  | _ => []
  end.

Definition bindingOf (ewma sample : float64) : string :=
  if mathMax ewma sample <f VolFloor then BindingFloor else if ewma >=f sample then BindingEWMA else Binding252.

Section Evaluator.
(** DigestFor's SHA-256 over the label and the window. *)
Context (DigestFor : string -> Window -> string).

Definition heldSignal (status reason decision : string) : Signal :=
  mkSignal status reason decision "" [] [] f0 f0 false f0 f0 f0 "" "".

(** MeasureWith *)
Definition MeasureWith (trend : Trend) (label : string) (calendar dates : list string) (closes : list float64)
    (decision : string) : Signal * Window :=
  let none := mkWindow [] [] in
  match indexOf decision calendar with
  | None => (heldSignal StatusHold (say [decision; " is not a session"]) decision, none)
  | Some k =>
      if match calendar !! S k with Some next => month next =s month decision | None => false end
      then (heldSignal StatusHold (say [decision; " is not the last session of its month"]) decision, none)
      else if Nat.ltb (k + 1) WindowCloses
      then (heldSignal StatusNotLive
              (say ["needs "; Itoa (Z.of_nat WindowCloses); " sessions to "; decision; ", has "; Itoa (Z.of_nat (k + 1))])
              decision, none)
      else
        let window := take WindowCloses (drop (k + 1 - WindowCloses) calendar) in
        let byDate := closesByDate dates closes in
        match windowCloses byDate window with
        | Err reason => (heldSignal StatusHold reason decision, none)
        | Ok cs =>
            let ends := MonthEnds window in
            if Nat.ltb (List.length ends) (tr_Months trend) || negb (default "" (last ends) =s decision)
            then (heldSignal StatusNotLive (say ["needs "; Itoa (Z.of_nat (tr_Months trend)); " month-ends"]) decision, none)
            else
              let ends := lastN (tr_Months trend) ends in
              let endCloses := map (fun d => default f0 (byDate !! d)) ends in
              let returns := dailyReturns cs in
              let close := default f0 (byDate !! decision) in
              let sma := fdiv (fold_left fadd endCloses f0) (f_of_Z (Z.of_nat (List.length ends))) in
              let ewma := SigmaEWMA returns in
              let sample := SigmaSample returns in
              let w := mkWindow window cs in
              (mkSignal StatusOK "" decision (default "" (head window)) ends endCloses close sma (close >f sma) ewma sample
                 (mathMax (mathMax ewma sample) VolFloor) (bindingOf ewma sample) (DigestFor label w), w)
        end
  end.

(** ** Sizing *)

Record Sizing := mkSizing {
  sz_AllocationPct : float64; sz_ScalePct : float64; sz_MaxValuePct : float64; sz_BudgetBase : float64; sz_Room : float64
}.
Record Size := mkSize { si_SleeveBudget : float64; si_Cap : float64; si_Notional : float64; si_TargetShares : Z }.

(** SizeTarget *)
Definition SizeTarget (sig : Signal) (s : Sizing) : Size :=
  let pct p := fmul (fmul (fdiv p (f_of_Z 100)) (sz_BudgetBase s)) (sz_Room s) in
  let budget := pct (sz_AllocationPct s) in
  let cap := pct (sz_MaxValuePct s) in
  if (sg_Status sig <>s StatusOK) || negb (sg_TrendOn sig) || negb (sg_Sigma sig >f f0) || negb (sg_Close sig >f f0)
  then mkSize budget cap f0 0
  else
    let notional := mathMin (fdiv budget (sg_Sigma sig)) cap in
    let shares := Floor (fdiv (fdiv (fmul notional (sz_ScalePct s)) (f_of_Z 100)) (sg_Close sig)) in
    mkSize budget cap notional (if (shares >f f0) && negb (IsInf shares) then int_of_float shares else 0).

(** ** Data guards *)

(** fmt.Sprintf of one verb and one float. *)
Context (Sprintf : string -> float64 -> string).

Definition Abs : float64 -> float64 := fabs.
Definition percent (x : float64) : float64 := fmul x (f_of_Z 100).

(** The last date before [prev] and the first from [day] on. *)
Definition spanning (dates : list string) (prev day : string) : option nat * option nat :=
  snd (fold_left (fun '(j, (from, to)) d =>
         (S j, (if String.ltb d prev then Some j else from,
                match to with Some _ => to | None => if negb (String.ltb d day) then Some j else None end)))
       dates (O, (None, None))).

(** The reason one daily move gives, if any; [None] is an index out of range. *)
Definition moveReason (index : Series) (proxy prev day : string) (r : float64) : option (list string) :=
  if percent (Abs r) <=f JumpPct then Some []
  else
    let move := Sprintf "%+.1f%%" (percent r) in
    if proxy =s "" then
      Some [say ["a "; move; " close on "; day; " has no index to corroborate it: a probable price error, held for review"]]
    else
      let waits := Some [say ["a "; move; " close on "; day; " waits for "; proxy; "'s close to corroborate it"]] in
      match spanning (se_Dates index) prev day with
      | (Some from, Some to) =>
          match se_Closes index !! from with
          | None => None
          | Some c0 =>
              if negb (c0 >f f0) then waits
              else
                match se_Closes index !! to with
                | None => None
                | Some c1 =>
                    let ir := fsub (fdiv c1 c0) (f_of_Z 1) in
                    if (fmul ir r <=f f0) || (Abs ir <f fdiv (Abs r) (f_of_Z 2))
                    then Some [say ["a "; move; " close on "; day; " is not in "; proxy; "'s "; Sprintf "%+.1f%%" (percent ir);
                                    " over the same two days: a probable price error"]]
                    else Some []
                end
          end
      | _ => waits
      end.

Fixpoint moveReasons (index : Series) (proxy : string) (moves : list (string * float64)) : option (list string) :=
  match moves with
  | (prev, a) :: (((day, b) :: _) as rest) =>
      match moveReason index proxy prev day (fsub (fdiv b a) (f_of_Z 1)), moveReasons index proxy rest with
      | Some l, Some l' => Some (l ++ l')
      | _, _ => None
      end
  | _ => Some []
  end.

Definition volatilityReason (name : string) (v : float64) : list string :=
  if (v <f SigmaMin) || (v >f SigmaMax)
  then [say [name; " "; Sprintf "%.1f%%" (percent v); " is outside "; Sprintf "%.0f%%" (f_of_Z 5); " to ";
             Sprintf "%.0f%%" (f_of_Z 100)]]
  else [].

(** GuardWith, Guard *)
Definition GuardWith (sig : Signal) (w : Window) (index : Series) (proxy : string) : option (list string) :=
  if sg_Status sig <>s StatusOK then Some []
  else
    match moveReasons index proxy (combine (wi_Dates w) (wi_Closes w)) with
    | None => None
    | Some moves =>
        Some (volatilityReason "the EWMA volatility" (sg_SigmaEWMA sig) ++
              volatilityReason "the 252-day volatility" (sg_Sigma252 sig) ++ moves)
    end.
Definition Guard (sig : Signal) (w : Window) (index : Series) : option (list string) := GuardWith sig w index "SPY".

(** ** Headroom *)

(** The bisection of Headroom: [fits lo] is assumed, [fits hi] is false. *)
Fixpoint bisect (fits : Z -> bool) (fuel : nat) (lo hi : Z) : option Z :=
  if 1 <? hi - lo then
    match fuel with
    | O => None
    | S fuel => let mid := lo + (hi - lo) / 2 in if fits mid then bisect fits fuel mid hi else bisect fits fuel lo mid
    end
  else Some lo.

(** Headroom; a search among [want] steps halves its range each time. *)
Definition Headroom (want : Z) (fits : Z -> bool) : option Z :=
  if want <=? 0 then Some 0
  else if fits want then Some want
  else bisect fits (Z.to_nat (Z.log2_up want)) 0 want.

(** ** The decision *)

Definition ActionNone : string := "none".
Definition ActionBuy : string := "buy".
Definition ActionSell : string := "sell".
Definition ActionSellAll : string := "sell_all".
Definition ActionWait : string := "wait".
Definition ActionHold : string := "hold".

Record DecideInput := mkDecideInput {
  di_Target : Z; di_TrendOn : bool; di_Held : Z; di_Price : float64; di_BandPct : float64; di_MinOrderBase : float64;
  di_Holdable : Z; di_BuyBlocked : string; di_Symbol : string; di_Name : string
}.

Record Decision := mkDecision {
  dc_Kind : string; dc_Quantity : Z; dc_Why : string; dc_Diff : Z; dc_BandShares : float64; dc_InsideBand : bool;
  dc_OrderValue : float64; dc_BelowMinimum : bool; dc_HeadroomCut : bool
}.
#[global] Instance Decision_eta : Eta Decision := fun d =>
  mkDecision (dc_Kind d) (dc_Quantity d) (dc_Why d) (dc_Diff d) (dc_BandShares d) (dc_InsideBand d) (dc_OrderValue d)
    (dc_BelowMinimum d) (dc_HeadroomCut d).

Definition noHeadroom (i : DecideInput) : string :=
  let symbol := if di_Symbol i =s "" then coreSymbol else di_Symbol i in
  let name := if di_Name i =s "" then "the core" else di_Name i in
  say ["no headroom: more "; symbol; " would take the book past "; Sprintf "%.0f%%" (f_of_Z 95);
       " of the budget or a gap cap, or "; name; " past its allocation"].

(** Decide *)
Definition Decide (i : DecideInput) : Decision :=
  let held := Z.max (di_Held i) 0 in
  let diff := di_Target i - held in
  let band := fmul (fdiv (di_BandPct i) (f_of_Z 100)) (f_of_Z (di_Target i)) in
  let value q := fmul (f_of_Z q) (di_Price i) in
  let d := mkDecision "" 0 "" diff band false f0 false false in
  if negb (di_TrendOn i) && (0 <? held) then
    d <| dc_Kind := ActionSellAll |> <| dc_Quantity := held |> <| dc_OrderValue := value held |>
      <| dc_Why := "the trend is off: sell every share; the band and the minimum do not apply" |>
  else if diff =? 0 then
    d <| dc_Kind := ActionNone |>
      <| dc_Why := if di_Target i =? 0 then "the target is zero and nothing is held" else "the holding equals the target" |>
  else
    let first := (held =? 0) && (0 <? di_Target i) in
    if negb first && (Abs (f_of_Z diff) <=f band) then
      d <| dc_Kind := ActionNone |> <| dc_InsideBand := true |>
        <| dc_Why := say ["inside the band: off the target by "; Itoa (Z.abs diff); " shares, the band is "; Sprintf "%.0f" band] |>
    else if diff <? 0 then
      let q := Z.min (- diff) held in
      let d := d <| dc_Quantity := q |> <| dc_OrderValue := value q |> in
      if value q <f di_MinOrderBase i then
        d <| dc_Kind := ActionWait |> <| dc_BelowMinimum := true |>
          <| dc_Why := say ["a sale of "; Itoa q; " shares is below the minimum order"] |>
      else
        d <| dc_Kind := ActionSell |>
          <| dc_Why := say ["the holding is "; Itoa q; " shares over the target, beyond the band"] |>
    else if di_BuyBlocked i <>s "" then
      d <| dc_Kind := ActionWait |> <| dc_Why := say ["no buy: "; di_BuyBlocked i] |>
    else
      let q := Z.min diff (di_Holdable i - held) in
      if q <=? 0 then d <| dc_Kind := ActionWait |> <| dc_HeadroomCut := true |> <| dc_Why := noHeadroom i |>
      else
        let cut := q <? diff in
        let d := d <| dc_Quantity := q |> <| dc_OrderValue := value q |> <| dc_HeadroomCut := cut |> in
        if value q <f di_MinOrderBase i then
          d <| dc_Kind := ActionWait |> <| dc_BelowMinimum := true |>
            <| dc_Why := say ["a buy of "; Itoa q; " shares is below the minimum order"] |>
        else
          d <| dc_Kind := ActionBuy |>
            <| dc_Why :=
              if first && cut then say ["first buy, cut by the mandate's headroom from "; Itoa diff; " shares"]
              else if first then "first buy toward the target"
              else if cut then say ["the holding is "; Itoa diff; " shares under the target; cut by the mandate's headroom"]
              else say ["the holding is "; Itoa diff; " shares under the target, beyond the band"] |>.

(** ** The replay *)

Definition ReplaySizing : Sizing := mkSizing (f_of_Z 6) (f_of_Z 100) (f_of_Z 40) (f_of_Z 250000) (f_of_Z 1).
Definition maxInt32 : Z := 2147483647.

Record ReplayTerms := mkReplayTerms { rt_BandPct : float64; rt_MinOrderBase : float64 }.

Record ReplayRow := mkReplayRow {
  rr_Signal : Signal; rr_Notional : float64; rr_TargetShares : Z; rr_Action : string; rr_Quantity : Z;
  rr_HeldBefore : Z; rr_HeldAfter : Z
}.

(** The holding after a decision. *)
Definition applyAction (kind : string) (q held : Z) : Z :=
  if kind =s ActionBuy then held + q
  else if one_of kind [ActionSell; ActionSellAll] then held - q else held.

(** One month of the replay. *)
Definition replayRow (sig : Signal) (terms : ReplayTerms) (held : Z) : ReplayRow :=
  if sg_Status sig =s StatusOK then
    let size := SizeTarget sig ReplaySizing in
    let dec := Decide (mkDecideInput (si_TargetShares size) (sg_TrendOn sig) held (sg_Close sig) (rt_BandPct terms)
                         (rt_MinOrderBase terms) maxInt32 "" "" "") in
    mkReplayRow sig (si_Notional size) (si_TargetShares size) (dc_Kind dec) (dc_Quantity dec) held
      (applyAction (dc_Kind dec) (dc_Quantity dec) held)
  else mkReplayRow sig f0 0 ActionHold 0 held held.

Fixpoint replayFrom (measure : string -> Signal) (terms : ReplayTerms) (held : Z) (decisions : list string)
    : list ReplayRow :=
  match decisions with
  | [] => []
  | d :: rest =>
      let row := replayRow (measure d) terms held in
      row :: replayFrom measure terms (rr_HeldAfter row) rest
  end.

(** Replay *)
Definition Replay (trend : Trend) (label : string) (calendar dates : list string) (closes : list float64)
    (from to : string) (terms : ReplayTerms) : list ReplayRow :=
  replayFrom (fun d => (MeasureWith trend label calendar dates closes d).1) terms 0
    (List.filter (fun d => negb (String.ltb d from || String.ltb to d)) (MonthEnds calendar)).
End Evaluator.

(** ** The headroom search *)

Lemma bisect_finds fits fuel : forall lo hi, 0 <= lo < hi -> hi - lo <= 2 ^ Z.of_nat fuel -> fits hi = false ->
  (0 < lo -> fits lo = true) ->
  exists q, bisect fits fuel lo hi = Some q /\ lo <= q < hi /\ (0 < q -> fits q = true) /\ fits (q + 1) = false.
Proof.
  induction fuel as [|fuel IH]; intros lo hi Hlh Hf Hhi Hlo; cbn [bisect].
  - change (2 ^ Z.of_nat 0) with 1 in Hf. replace (1 <? hi - lo) with false by lia. exists lo.
    replace (lo + 1) with hi by lia. split_and!; [done | lia | lia | done | done].
  - destruct (1 <? hi - lo) eqn:E; bool_hyps.
    + rewrite Nat2Z.inj_succ, Z.pow_succ_r in Hf by lia. set (mid := lo + (hi - lo) / 2).
      assert (Hmid : lo < mid < hi /\ mid - lo <= 2 ^ Z.of_nat fuel /\ hi - mid <= 2 ^ Z.of_nat fuel).
      { unfold mid. assert (H2 := Z.div_mod (hi - lo) 2 ltac:(lia)). assert (Hr := Z.mod_pos_bound (hi - lo) 2 ltac:(lia)).
        assert (Hp : 0 < 2 ^ Z.of_nat fuel) by (apply Z.pow_pos_nonneg; lia). nia. }
      destruct Hmid as (Hm & Hl & Hh). destruct (fits mid) eqn:Em.
      * destruct (IH mid hi) as (q & Hq & Hb & Hx); [lia | done | done | done|]. exists q. split_and!; [done | lia | lia | apply Hx | apply Hx].
      * destruct (IH lo mid) as (q & Hq & Hb & Hx); [lia | done | done | done|]. exists q. split_and!; [done | lia | lia | apply Hx | apply Hx].
    + exists lo. replace (lo + 1) with hi by lia. split_and!; [done | lia | lia | done | done].
Qed.

(** C40. The headroom search ends, and finds the largest step that fits.  For
    every predicate the bisection returns within the halvings it is given; the
    result is zero or a step the predicate accepted, between zero and the wish,
    so a book that is not monotone can only make it smaller than what fits; and
    when a smaller step fits whenever a larger one does, no larger step up to
    the wish fits. *)
Theorem headroom_is_the_largest_fit want fits :
  exists q, Headroom want fits = Some q /\ 0 <= q <= Z.max want 0 /\ (0 < q -> fits q = true) /\
    ((forall a b, 0 < a <= b -> b <= want -> fits b = true -> fits a = true) ->
     forall b, 0 < b <= want -> fits b = true -> b <= q).
Proof.
  unfold Headroom. destruct (want <=? 0) eqn:E; bool_hyps; [exists 0; split_and!; [done | lia.. |]; lia|].
  destruct (fits want) eqn:Ew; [exists want; split_and!; [done | lia | lia | done | lia]|].
  destruct (bisect_finds fits (Z.to_nat (Z.log2_up want)) 0 want) as (q & Hq & Hb & Hx & Hn); [lia | | done | lia|].
  { rewrite Z2Nat.id by apply Z.log2_up_nonneg. rewrite Z.sub_0_r. destruct (decide (want = 1)) as [->|]; [done|].
    apply Z.log2_up_spec. lia. }
  exists q. split_and!; [done | lia | lia | done |]. intros Hmono b Hbw Hfb. destruct (decide (b <= q)); [done|].
  rewrite (Hmono (q + 1) b) in Hn; [done | lia | lia | done].
Qed.

(** ** Decisions *)

Section DecideFacts.
Context (Sprintf : string -> float64 -> string).

(** What a decision may do to the holding. *)
Record decisionOk (i : DecideInput) (d : Decision) : Prop := {
  do_kind : In (dc_Kind d) [ActionNone; ActionBuy; ActionSell; ActionSellAll; ActionWait];
  do_buy : dc_Kind d = ActionBuy ->
    0 < dc_Quantity d /\ Z.max (di_Held i) 0 + dc_Quantity d <= di_Target i /\
    Z.max (di_Held i) 0 + dc_Quantity d <= di_Holdable i /\ di_BuyBlocked i = "" /\
    (dc_OrderValue d <f di_MinOrderBase i) = false /\
    (di_Held i <= 0 \/ (fabs (f_of_Z (dc_Diff d)) <=f dc_BandShares d) = false);
  do_sell : dc_Kind d = ActionSell ->
    0 < dc_Quantity d /\ di_Held i - dc_Quantity d = di_Target i /\ (dc_OrderValue d <f di_MinOrderBase i) = false /\
    (fabs (f_of_Z (dc_Diff d)) <=f dc_BandShares d) = false;
  do_sell_all : dc_Kind d = ActionSellAll <-> di_TrendOn i = false /\ 0 < di_Held i;
  do_all : dc_Kind d = ActionSellAll -> dc_Quantity d = di_Held i
}.

Lemma decide_ok i : 0 <= di_Target i -> decisionOk i (Decide Sprintf i).
Proof.
  intros Ht. unfold Decide. cbv zeta. set (held := Z.max (di_Held i) 0).
  destruct (negb (di_TrendOn i) && (0 <? held)) eqn:E1.
  { bool_hyps. split; cbn; [auto 10 | done | done | | ]; [|lia]. split; [|done]. intros _. split; [done | lia]. }
  assert (Hno : ~ (di_TrendOn i = false /\ 0 < di_Held i)).
  { intros [H1 H2]. rewrite H1 in E1. cbn in E1. lia. }
  assert (Hfinish : forall d, In (dc_Kind d) [ActionNone; ActionBuy; ActionSell; ActionWait] ->
    (dc_Kind d = ActionBuy -> 0 < dc_Quantity d /\ held + dc_Quantity d <= di_Target i /\
       held + dc_Quantity d <= di_Holdable i /\ di_BuyBlocked i = "" /\ (dc_OrderValue d <f di_MinOrderBase i) = false /\
       (di_Held i <= 0 \/ (fabs (f_of_Z (dc_Diff d)) <=f dc_BandShares d) = false)) ->
    (dc_Kind d = ActionSell -> 0 < dc_Quantity d /\ di_Held i - dc_Quantity d = di_Target i /\
       (dc_OrderValue d <f di_MinOrderBase i) = false /\ (fabs (f_of_Z (dc_Diff d)) <=f dc_BandShares d) = false) ->
    decisionOk i d).
  { intros d Hk Hb Hs. assert (Hn : dc_Kind d <> ActionSellAll).
    { intros H. rewrite H in Hk. cbn in Hk. naive_solver. }
    split; [cbn in *; naive_solver | done | done | split; [done | naive_solver] | done]. }
  repeat match goal with
  | |- decisionOk _ (if ?c then _ else _) => let E := fresh "E" in destruct c eqn:E
  end; apply Hfinish; cbn; try (intros H; discriminate H); auto; intros _; bool_hyps; unfold Abs, held in *.
  - split_and!; [lia | lia | done |].
    match goal with H : negb _ && _ = false |- _ => apply andb_false_iff in H as [H|H]; bool_hyps end; [lia | done].
  - split_and!; [lia | lia | lia | done | done |].
    match goal with H : negb _ && _ = false |- _ => apply andb_false_iff in H as [H|H]; bool_hyps end; [left; lia | by right].
Qed.
End DecideFacts.

Section ReplayFacts.
Context (DigestFor : string -> Window -> string) (Sprintf : string -> float64 -> string).

Lemma measure_decision trend label calendar dates closes d :
  sg_Decision (MeasureWith DigestFor trend label calendar dates closes d).1 = d.
Proof. unfold MeasureWith. cbv zeta. by repeat case_match. Qed.

Lemma positive_int x : (x >f f0) = true -> 0 <= int_of_float x.
Proof.
  destruct x as [s|s| |s m e]; cbn; try lia. destruct s; [done|]. intros _.
  destruct (0 <=? e) eqn:E; bool_hyps; [assert (H := Z.pow_nonneg 2 e ltac:(lia)); lia|].
  apply Z.div_pos; [lia|]. apply Z.pow_pos_nonneg; lia.
Qed.

Lemma target_nonneg sig s : 0 <= si_TargetShares (SizeTarget sig s).
Proof.
  unfold SizeTarget. cbv zeta. destruct (_ || _); [done|]. cbn [si_TargetShares].
  destruct (_ && _) eqn:E; [|done]. bool_hyps. by apply positive_int.
Qed.

Lemma target_off sig s : sg_TrendOn sig = false -> si_TargetShares (SizeTarget sig s) = 0.
Proof. intros H. unfold SizeTarget. cbv zeta. rewrite H. cbn [negb]. by rewrite orb_true_r. Qed.

(** What one month of the replay does with the paper holding. *)
Record rowOk (r : ReplayRow) : Prop := {
  ro_nonneg : 0 <= rr_HeldAfter r;
  ro_hold : sg_Status (rr_Signal r) <> StatusOK -> rr_Action r = ActionHold /\ rr_HeldAfter r = rr_HeldBefore r;
  ro_off : sg_Status (rr_Signal r) = StatusOK -> sg_TrendOn (rr_Signal r) = false -> rr_HeldAfter r = 0;
  ro_buy : rr_Action r = ActionBuy ->
    rr_HeldAfter r = rr_HeldBefore r + rr_Quantity r /\ rr_HeldBefore r < rr_HeldAfter r <= rr_TargetShares r;
  ro_sell : rr_Action r = ActionSell -> rr_HeldAfter r = rr_HeldBefore r - rr_Quantity r /\ rr_HeldAfter r = rr_TargetShares r;
  ro_rest : ~ In (rr_Action r) [ActionBuy; ActionSell; ActionSellAll] -> rr_HeldAfter r = rr_HeldBefore r
}.

Lemma apply_none q h : applyAction ActionNone q h = h. Proof. done. Qed.
Lemma apply_wait q h : applyAction ActionWait q h = h. Proof. done. Qed.
Lemma apply_buy q h : applyAction ActionBuy q h = h + q. Proof. done. Qed.
Lemma apply_sell q h : applyAction ActionSell q h = h - q. Proof. done. Qed.
Lemma apply_sell_all q h : applyAction ActionSellAll q h = h - q. Proof. done. Qed.

Lemma replay_row_ok sig terms held : 0 <= held -> rowOk (replayRow Sprintf sig terms held).
Proof.
  intros Hh. unfold replayRow. destruct (sg_Status sig =s StatusOK) eqn:Es; bool_hyps; [|by split].
  set (i := mkDecideInput _ _ _ _ _ _ _ _ _ _).
  assert (Hd := decide_ok Sprintf i (target_nonneg sig ReplaySizing)). cbv zeta. destruct Hd as [Hk Hb Hs Hiff Hall].
  set (d := Decide Sprintf i) in *. change (di_Held i) with held in *.
  change (di_Target i) with (si_TargetShares (SizeTarget sig ReplaySizing)) in *. change (di_TrendOn i) with (sg_TrendOn sig) in *.
  assert (Ht := target_nonneg sig ReplaySizing). set (target := si_TargetShares _) in *. rewrite Z.max_l in Hb by lia.
  assert (Hoff : sg_TrendOn sig = false -> dc_Kind d = ActionSellAll \/ held = 0 /\ target = 0).
  { intros H. destruct (decide (0 < held)); [left; by apply Hiff|]. right. split; [lia|]. by apply target_off. }
  clearbody d target. assert (Hdiff : forall a b : string, (a =s b) = false -> a = b -> False) by (intros a b H ->; by rewrite eqb_s_refl in H).
  destruct Hk as [Hk|[Hk|[Hk|[Hk|[Hk|[]]]]]]; rewrite <- Hk in *;
    first [specialize (Hb eq_refl) | clear Hb]; first [specialize (Hs eq_refl) | clear Hs];
    first [specialize (Hall eq_refl) | clear Hall]; split;
    cbn [rr_HeldAfter rr_HeldBefore rr_Action rr_Quantity rr_TargetShares rr_Signal];
    rewrite ?apply_none, ?apply_wait, ?apply_buy, ?apply_sell, ?apply_sell_all; try lia; try done.
  all: try (intros H; exfalso; revert H; apply Hdiff; reflexivity).
  all: try (intros H; exfalso; apply H; cbn; auto).
  all: try (intros _ H; destruct (Hoff H) as [Hx|[? ?]]; [exfalso; revert Hx; apply Hdiff; reflexivity | lia]).
Qed.

(** Rows whose holdings connect, from [held] on. *)
Fixpoint paperPath (held : Z) (rows : list ReplayRow) : Prop :=
  match rows with
  | [] => True
  | r :: rest => rr_HeldBefore r = held /\ rowOk r /\ paperPath (rr_HeldAfter r) rest
  end.

Lemma replay_path measure terms decisions : forall held, 0 <= held ->
  paperPath held (replayFrom Sprintf measure terms held decisions).
Proof.
  induction decisions as [|d rest IH]; intros held Hh; cbn [replayFrom paperPath]; [done|].
  assert (Hr := replay_row_ok (measure d) terms held Hh). split_and!; [|done | apply IH, Hr].
  unfold replayRow. by destruct (_ =s _).
Qed.
End ReplayFacts.

(** A replay is the bookkeeping of its own decisions.  Its rows are the
    month-ends of the calendar between the bounds, in order; the paper holding
    starts at zero, each row begins with what the one before left, and it is
    never negative; a month without a signal keeps it; a month with the trend
    off ends at zero, whatever the band and the minimum; a buy adds a positive
    quantity and stops at the month's target, a sale ends exactly at the target,
    and nothing else moves the holding. *)
Theorem replay_follows_its_decisions DigestFor Sprintf trend label calendar dates closes from to terms :
  let rows := Replay DigestFor Sprintf trend label calendar dates closes from to terms in
  paperPath 0 rows /\
  map (fun r => sg_Decision (rr_Signal r)) rows =
    List.filter (fun d => negb (String.ltb d from || String.ltb to d)) (MonthEnds calendar).
Proof.
  cbv zeta. unfold Replay. split; [by apply replay_path|].
  generalize (List.filter (fun d => negb (String.ltb d from || String.ltb to d)) (MonthEnds calendar)). intros l.
  generalize 0. induction l as [|d l IH]; intros held; cbn [replayFrom map]; [done|]. rewrite IH. f_equal.
  unfold replayRow. destruct (_ =s StatusOK); cbn; apply measure_decision.
Qed.

(** A month that starts the core: the trend is on, nothing is held. *)
Definition plainFormat (verb : string) (x : float64) : string := verb.
Definition signal_ex (on : bool) : Signal :=
  mkSignal StatusOK "" "2026-01-30" "" [] [] (f_of_Z 100) (f_of_Z 90) on (f_of_Z 0) (f_of_Z 0) (f_const 1 4) "" "".

(** Six percent of 250,000 at a volatility of one quarter is 600 shares of 100. *)
Example first_month_buys :
  let r := replayRow plainFormat (signal_ex true) (mkReplayTerms (f_of_Z 20) (f_of_Z 1000)) 0 in
  (rr_Action r, rr_Quantity r, rr_HeldAfter r) = (ActionBuy, 600, 600).
Proof. vm_compute. reflexivity. Qed.

Example trend_break_sells_all :
  let r := replayRow plainFormat (signal_ex false) (mkReplayTerms (f_of_Z 20) (f_of_Z 1000000)) 600 in
  (rr_Action r, rr_Quantity r, rr_HeldAfter r) = (ActionSellAll, 600, 0).
Proof. vm_compute. reflexivity. Qed.

Example headroom_of_700 : Headroom 1000 (fun q => q <=? 700) = Some 700.
Proof. reflexivity. Qed.

Example pow_half : powInt (f_const 1 2) 3 = f_const 1 8.
Proof. vm_compute. reflexivity. Qed.
