(* ===== verification/RegimeGate.v ===== *)
(** * The regime gate

    src/internal/core/regime_gate.go: MeasureGate, gateWalk and the three
    readers.  A reader is a function of the session's date; the gate is a
    function of the supplied history alone.  Proved: the confirmed reading the
    loop of gateWalk maintains is the last run of agreeing closes in the history,
    so the confirmation is exactly the documented hysteresis, and the gate's
    scale is a function of how many fresh readings are confirmed on. *)

From stdpp Require Import base decidable list strings gmap.
From Stdlib Require Import ZArith Lia Ascii String SpecFloat.
From S2P Require Import Prelude WriteGate CoreEvaluator.

Definition GateTrend : string := "trend".
Definition GateBreadth : string := "breadth".
Definition GateCredit : string := "credit".
Definition GateOn : string := "on".
Definition GateHalf : string := "half".
Definition GateOff : string := "off".
Definition GateCreditDays : nat := 50.

Record GateParams := mkGateParams {
  gp_BreadthMinPct : float64; gp_HalfScalePct : float64; gp_StaleAfterSessions : Z; gp_ConfirmCloses : Z
}.
Record GateInput := mkGateInput {
  gi_Calendar : list string; gi_SPY : Series; gi_HYG : Series; gi_Breadth : gmap string float64
}.

Record GateReading := mkReading {
  gr_ID : string; gr_On : bool; gr_Latest : bool; gr_AsOf : string; gr_Value : float64; gr_Level : float64;
  gr_Since : string; gr_Pending : bool; gr_Reason : string
}.
#[global] Instance GateReading_eta : Eta GateReading := fun r =>
  mkReading (gr_ID r) (gr_On r) (gr_Latest r) (gr_AsOf r) (gr_Value r) (gr_Level r) (gr_Since r) (gr_Pending r) (gr_Reason r).

Record Gate := mkGate {
  ga_State : string; ga_ScalePct : float64; ga_Session : string; ga_Readings : list GateReading; ga_Params : GateParams
}.

(** gateReader: the reading, the compared value and level, or why it cannot. *)
Definition gateReader : Type := string -> result string (bool * float64 * float64).

(** ** The readers *)

(** seriesTo: the usable dates and closes up to [last], and where each date is. *)
Definition seriesTo (s : Series) (last : string) : list string * list float64 * gmap string nat :=
  let kept := List.filter (fun '(d, c) => negb ((last <>s "") && String.ltb last d) && (c >f f0))
                (combine (se_Dates s) (se_Closes s)) in
  (map fst kept, map snd kept, fold_left (fun m '(i, d) => <[d := i]> m) (imap (fun i p => (i, fst p)) kept) ∅).

(** trendReader *)
Definition trendReader (spy : Series) (last : string) : gateReader :=
  let '(dates, closes, at_) := seriesTo spy last in
  fun d =>
    match at_ !! d with
    | None => Err (say ["no SPY close on "; d])
    | Some i =>
        let ends := MonthEnds (take (i + 1) dates) in
        if Nat.ltb (List.length ends) (tr_Months TrendSMA10)
        then Err (say ["SPY needs "; Itoa (Z.of_nat (tr_Months TrendSMA10)); " month-ends to "; d; ", has ";
                       Itoa (Z.of_nat (List.length ends))])
        else
          let closeOf e := default f0 (closes !! default O (at_ !! e)) in
          let sum := fold_left (fun s e => fadd s (closeOf e)) (lastN (tr_Months TrendSMA10) ends) f0 in
          let avg := fdiv sum (f_of_Z (Z.of_nat (tr_Months TrendSMA10))) in
          let c := default f0 (closes !! i) in
          Ok (c >f avg, c, avg)
    end.

(** averageReader *)
Definition averageReader (s : Series) (last : string) (n : nat) : gateReader :=
  let '(_, closes, at_) := seriesTo s last in
  fun d =>
    match at_ !! d with
    | None => Err (say ["no HYG close on "; d])
    | Some i =>
        if Nat.ltb (i + 1) n
        then Err (say ["HYG needs "; Itoa (Z.of_nat n); " closes to "; d; ", has "; Itoa (Z.of_nat (i + 1))])
        else
          let sum := fold_left fadd (take n (drop (i + 1 - n) closes)) f0 in
          let avg := fdiv sum (f_of_Z (Z.of_nat n)) in
          let c := default f0 (closes !! i) in
          Ok (c >f avg, c, avg)
    end.

Definition breadthReader (breadth : gmap string float64) (level : float64) : gateReader := fun d =>
  match breadth !! d with
  | None => Err (say ["no breadth reading on "; d])
  | Some v => Ok (v >f level, v, level)
  end.

(** ** The walk *)

(** allEqual *)
Definition allEqual (v : list bool) (want : bool) : bool := forallb (Bool.eqb want) v.

Record walk := mkWalk {
  wk_out : GateReading; wk_seen : list bool; wk_held : bool; wk_confirmed : bool; wk_missing : string
}.
#[global] Instance walk_eta : Eta walk := fun w =>
  mkWalk (wk_out w) (wk_seen w) (wk_held w) (wk_confirmed w) (wk_missing w).

(** One session of gateWalk. *)
Definition walkStep (confirm : nat) (read : gateReader) (w : walk) (d : string) : walk :=
  match read d with
  | Err missing => w <| wk_missing := missing |>
  | Ok (on, v, lvl) =>
      let seen := wk_seen w ++ [on] in
      let out := (wk_out w) <| gr_AsOf := d |> <| gr_Value := v |> <| gr_Level := lvl |> <| gr_Latest := on |> in
      if (negb (wk_confirmed w) || negb (Bool.eqb on (wk_held w))) && Nat.leb confirm (List.length seen) &&
         allEqual (lastN confirm seen) on
      then mkWalk (out <| gr_Since := d |>) seen on true (wk_missing w)
      else mkWalk out seen (wk_held w) (wk_confirmed w) (wk_missing w)
  end.

Definition emptyReading (id : string) : GateReading := mkReading id false false "" f0 f0 "" false "".

Definition confirmOf (p : GateParams) : nat := Z.to_nat (Z.max (gp_ConfirmCloses p) 1).

(** The sessions after the one a reading rests on. *)
Definition ageOf (cal : list string) (asOf : string) : Z :=
  Z.of_nat (List.length cal) - 1 - match indexOf asOf cal with Some i => Z.of_nat i | None => -1 end.

(** What gateWalk publishes after the loop. *)
Definition finishWalk (cal : list string) (p : GateParams) (w : walk) : GateReading :=
  let out := wk_out w in
  if gr_AsOf out =s "" then
    out <| gr_Reason := if wk_missing w <>s "" then wk_missing w
                        else say ["no reading in the last "; Itoa (Z.of_nat (List.length cal)); " sessions"] |>
  else
    let out := out <| gr_On := wk_held w |> <| gr_Pending := negb (Bool.eqb (gr_Latest out) (wk_held w)) |> in
    let out := if negb (wk_confirmed w)
               then out <| gr_Reason := say ["no run of "; Itoa (Z.of_nat (confirmOf p));
                                             " agreeing observed closes in the available history"] |> else out in
    let age := ageOf cal (gr_AsOf out) in
    if gp_StaleAfterSessions p <? age then
      out <| gr_On := false |> <| gr_Pending := false |>
        <| gr_Reason := say ["the latest reading is from "; gr_AsOf out; ", "; Itoa age; " sessions old"] |>
    else out.

(** gateWalk *)
Definition gateWalk (id : string) (cal : list string) (p : GateParams) (read : gateReader) : GateReading :=
  finishWalk cal p (fold_left (walkStep (confirmOf p) read) cal (mkWalk (emptyReading id) [] false false "")).

(** The three readings of MeasureGate. *)
Definition gateReadings (i : GateInput) (p : GateParams) : list GateReading :=
  let cal := gi_Calendar i in
  let session := default "" (last cal) in
  [gateWalk GateTrend cal p (trendReader (gi_SPY i) session);
   gateWalk GateBreadth cal p (breadthReader (gi_Breadth i) (gp_BreadthMinPct p));
   gateWalk GateCredit cal p (averageReader (gi_HYG i) session GateCreditDays)].

(** MeasureGate *)
Definition MeasureGate (i : GateInput) (p : GateParams) : Gate :=
  let readings := gateReadings i p in
  let on := List.length (List.filter gr_On readings) in
  let state := if Nat.eqb on 3 then GateOn else if Nat.eqb on 2 then GateHalf else GateOff in
  let scale := if Nat.eqb on 3 then f_of_Z 100 else if Nat.eqb on 2 then gp_HalfScalePct p else f0 in
  mkGate state scale (default "" (last (gi_Calendar i))) readings p.

(** ** Confirmation as a property of the history *)

(** The readings of the readable sessions, and the latest such session. *)
Definition observed (read : gateReader) (cal : list string) : list bool :=
  omap (fun d => match read d with Ok (on, _, _) => Some on | Err _ => None end) cal.
Definition lastRead (read : gateReader) (cal : list string) : string :=
  default "" (last (List.filter (fun d => is_ok (read d)) cal)).

(** [c] consecutive closes from the [k]th on read [b]. *)
Definition runAt (c : nat) (b : bool) (k : nat) (l : list bool) : Prop := take c (drop k l) = replicate c b.

(** The history confirms "on": some run of agreeing closes is on, and later than
    every run that is off. *)
Definition confirmedOn (c : nat) (l : list bool) : Prop :=
  exists k, runAt c true k l /\ forall j, runAt c false j l -> (j < k)%nat.

Lemma runAt_fits c b k l : runAt c b k l -> (0 < c)%nat -> (k + c <= List.length l)%nat.
Proof.
  unfold runAt. intros H Hc. apply (f_equal List.length) in H. rewrite length_take, length_drop, length_replicate in H. lia.
Qed.

(** A run of an extended history is a run of the history, or ends it. *)
Lemma runAt_snoc c b k l x : (0 < c)%nat ->
  runAt c b k (l ++ [x]) <->
  runAt c b k l \/ ((k + c = S (List.length l))%nat /\ lastN c (l ++ [x]) = replicate c b).
Proof.
  intros Hc. unfold lastN. rewrite length_app. cbn [List.length]. split.
  - intros H. assert (Hf := runAt_fits _ _ _ _ H Hc). rewrite length_app in Hf. cbn in Hf.
    destruct (decide (k + c <= List.length l)%nat) as [Hle|Hgt].
    + left. unfold runAt in *. rewrite drop_app_le, take_app_le in H; [done | rewrite length_drop; lia | lia].
    + right. split; [lia|]. unfold runAt in H. replace (List.length l + 1 - c)%nat with k by lia.
      rewrite <- H. symmetry. apply take_ge. rewrite length_drop, length_app. cbn. lia.
  - intros [H|[Hk H]].
    + assert (Hf := runAt_fits _ _ _ _ H Hc). unfold runAt in *.
      rewrite drop_app_le, take_app_le; [done | rewrite length_drop; lia | lia].
    + unfold runAt. replace (List.length l + 1 - c)%nat with k in H by lia. rewrite H.
      apply take_ge. by rewrite length_replicate.
Qed.

Lemma allEqual_replicate v b : allEqual v b = true <-> v = replicate (List.length v) b.
Proof.
  unfold allEqual. induction v as [|x v IH]; cbn; [done|]. rewrite andb_true_iff, IH.
  split; [intros [->%eqb_prop <-] | intros [= -> <-]]; rewrite ?eqb_reflx; auto.
Qed.

(** The confirmed state of a history: the value of its latest run. *)
Definition holds (c : nat) (l : list bool) (confirmed held : bool) : Prop :=
  if confirmed then exists k, runAt c held k l /\ forall j, runAt c (negb held) j l -> (j < k)%nat
  else held = false /\ forall b k, ~ runAt c b k l.

Lemma lastN_last c (l : list bool) x b : (0 < c)%nat -> lastN c (l ++ [x]) = replicate c b -> x = b.
Proof.
  intros Hc H. assert (Hl : last (lastN c (l ++ [x])) = Some x).
  { unfold lastN. rewrite drop_app_le by (rewrite length_app; cbn; lia). apply last_snoc. }
  rewrite H in Hl. destruct c as [|c]; [lia|]. rewrite replicate_S_end, last_snoc in Hl. congruence.
Qed.

Lemma lastN_all c (l : list bool) x :
  (c <= List.length (l ++ [x]))%nat -> allEqual (lastN c (l ++ [x])) x = true <-> lastN c (l ++ [x]) = replicate c x.
Proof.
  intros Hc. rewrite allEqual_replicate. replace (List.length (lastN c (l ++ [x]))) with c; [done|].
  unfold lastN. rewrite length_drop. lia.
Qed.

Lemma holds_step c l x confirmed held : (0 < c)%nat -> holds c l confirmed held ->
  if (negb confirmed || negb (Bool.eqb x held)) && Nat.leb c (List.length (l ++ [x])) && allEqual (lastN c (l ++ [x])) x
  then holds c (l ++ [x]) true x else holds c (l ++ [x]) confirmed held.
Proof.
  intros Hc Hh. destruct (Nat.leb c (List.length (l ++ [x]))) eqn:El; [apply Nat.leb_le in El | apply Nat.leb_gt in El].
  2: { rewrite andb_false_r. cbn [andb]. assert (Hno : forall b k, ~ runAt c b k (l ++ [x])).
       { intros b k H. apply runAt_fits in H; [lia | done]. }
       destruct confirmed; [|by split; [apply Hh|]]. destruct Hh as (k & Hk & _). apply runAt_fits in Hk; [|done].
       rewrite length_app in El. cbn in El. lia. }
  rewrite andb_true_r. destruct (allEqual (lastN c (l ++ [x])) x) eqn:Ea.
  - apply lastN_all in Ea; [|done]. rewrite andb_true_r.
    assert (Hend : runAt c x (List.length l + 1 - c) (l ++ [x])).
    { apply runAt_snoc; [done|]. right. rewrite length_app in El. cbn in El. split; [lia | done]. }
    assert (Hother : forall j, runAt c (negb x) j (l ++ [x]) -> runAt c (negb x) j l).
    { intros j Hj. apply runAt_snoc in Hj as [Hj|[_ Hj]]; [done | | done]. rewrite Ea in Hj. destruct c; [lia|].
      cbn in Hj. injection Hj as Hx _. by destruct x. }
    destruct (negb confirmed || negb (Bool.eqb x held)) eqn:Ec.
    + exists (List.length l + 1 - c)%nat. split; [done|]. intros j Hj. apply Hother, runAt_fits in Hj; [lia | done].
    + apply orb_false_iff in Ec as [Ec1 Ec2]. apply negb_false_iff in Ec1, Ec2. apply eqb_prop in Ec2. subst.
      destruct Hh as (k & Hk & Hlt). exists k. split; [apply runAt_snoc; [done | by left]|]. intros j Hj. apply Hlt, Hother, Hj.
  - rewrite andb_false_r. assert (Hsame : forall b k, runAt c b k (l ++ [x]) <-> runAt c b k l).
    { intros b k. rewrite runAt_snoc by done. split; [|by left]. intros [H|[_ H]]; [done|].
      assert (x = b) as -> by (by eapply lastN_last). apply lastN_all in H; [congruence | done]. }
    unfold holds in *. destruct confirmed; [|split; [apply Hh|]; intros b k; rewrite Hsame; apply Hh].
    destruct Hh as (k & Hk & Hlt). exists k. rewrite Hsame. split; [done|]. intros j. rewrite Hsame. apply Hlt.
Qed.

(** The loop keeps the confirmed state of what it has read. *)
Lemma walk_invariant id c read cal : (0 < c)%nat ->
  let w := fold_left (walkStep c read) cal (mkWalk (emptyReading id) [] false false "") in
  wk_seen w = observed read cal /\ holds c (observed read cal) (wk_confirmed w) (wk_held w) /\
  gr_AsOf (wk_out w) = lastRead read cal /\ gr_On (wk_out w) = false.
Proof.
  intros Hc. induction cal as [|d cal IH] using rev_ind; cbn zeta.
  - split_and!; [done| |done|done]. split; [done|]. intros b k H. apply runAt_fits in H; [cbn in H; lia | done].
  - rewrite fold_left_app. cbn [fold_left]. set (w := fold_left _ cal _) in *. destruct IH as (Hs & Hh & Ha & Ho).
    unfold observed, lastRead. rewrite omap_app, List.filter_app. cbn [List.filter]. fold (observed read cal). unfold walkStep.
    destruct (read d) as [[[on v] lvl]|missing] eqn:Er; cbn [is_ok omap list_omap]; rewrite Er.
    + rewrite last_snoc. cbn [default]. rewrite Hs. assert (Hstep := holds_step c _ on _ _ Hc Hh).
      destruct (_ && _) eqn:E; cbn; split_and!; done.
    + rewrite !app_nil_r. cbn. split_and!; done.
Qed.

Lemma confirm_positive p : (0 < confirmOf p)%nat.
Proof. unfold confirmOf. lia. Qed.

(** A reading counts when the history confirms it and its latest close is fresh. *)
Definition readingCounts (cal : list string) (p : GateParams) (read : gateReader) : Prop :=
  lastRead read cal <> "" /\ ageOf cal (lastRead read cal) <= gp_StaleAfterSessions p /\
  confirmedOn (confirmOf p) (observed read cal).

Lemma gate_walk_counts id cal p read : gr_On (gateWalk id cal p read) = true <-> readingCounts cal p read.
Proof.
  unfold gateWalk, readingCounts. assert (Hw := walk_invariant id (confirmOf p) read cal (confirm_positive p)).
  set (w := fold_left _ cal _) in *. destruct Hw as (_ & Hh & Ha & Ho). clearbody w. unfold finishWalk. rewrite Ha.
  destruct (lastRead read cal =s "") eqn:El; bool_hyps.
  { cbn. rewrite Ho. split; [done | intros [? _]; done]. }
  assert (Hon : wk_held w = true <-> confirmedOn (confirmOf p) (observed read cal)).
  { unfold holds in Hh. destruct (wk_confirmed w).
    - destruct Hh as (k & Hk & Hlt). destruct (wk_held w); split; try done; [intros _; by exists k|].
      intros (k' & Hk' & Hlt'). specialize (Hlt k' Hk'). specialize (Hlt' k Hk). lia.
    - destruct Hh as [-> Hno]. split; [done|]. intros (k & Hk & _). by destruct (Hno true k). }
  destruct (wk_confirmed w); cbn [negb]; cbn; rewrite Ha; destruct (gp_StaleAfterSessions p <? _) eqn:Es; bool_hyps; cbn;
    rewrite ?Hon; split; try done; try (intros (? & ? & ?); try lia; done); intros H; split_and!; try done; lia.
Qed.

(** The bars the gate may read: those up to the last session. *)
Definition upTo (last : string) (s : Series) : Series :=
  let kept := List.filter (fun '(d, _) => negb ((last <>s "") && String.ltb last d)) (combine (se_Dates s) (se_Closes s)) in
  mkSeries (map fst kept) (map snd kept).

Lemma combine_split_map {A B} (l : list (A * B)) : combine (map fst l) (map snd l) = l.
Proof. induction l as [|[a b] l IH]; cbn; congruence. Qed.

Lemma seriesTo_upTo s last : seriesTo (upTo last s) last = seriesTo s last.
Proof.
  unfold seriesTo, upTo. cbn [se_Dates se_Closes]. rewrite combine_split_map.
  assert (Hf : forall l : list (string * float64),
    List.filter (fun '(d, c) => negb ((last <>s "") && String.ltb last d) && (c >f f0))
      (List.filter (fun '(d, _) => negb ((last <>s "") && String.ltb last d)) l) =
    List.filter (fun '(d, c) => negb ((last <>s "") && String.ltb last d) && (c >f f0)) l); [|by rewrite Hf].
  induction l as [|[d c] l IH]; [done|]. cbn [List.filter].
  destruct (negb ((last <>s "") && String.ltb last d)) eqn:E; cbn [andb]; [|exact IH].
  cbn [List.filter]. rewrite E. cbn [andb]. destruct (c >f f0); by rewrite IH.
Qed.

(** The regime gate is its documented rule.  Each of the three readings
    counts exactly when its latest readable close is at most the stale limit
    old and the history holds a run of confirm_closes consecutive readable
    closes that are on, later than every such run that is off: a single close
    never flips a reading, a missing close never counts as one, and the state
    does not depend on anything but the history.  Three readings give state on
    at 100 percent, two give half at the owner's scale, fewer give off at zero.
    And no bar dated after the last completed session is read. *)
Theorem gate_is_its_confirmed_readings i p :
  let cal := gi_Calendar i in
  let session := default "" (last cal) in
  let reads := [trendReader (gi_SPY i) session; breadthReader (gi_Breadth i) (gp_BreadthMinPct p);
                averageReader (gi_HYG i) session GateCreditDays] in
  let g := MeasureGate i p in
  Forall2 (fun r read => gr_On r = true <-> readingCounts cal p read) (ga_Readings g) reads /\
  (ga_State g, ga_ScalePct g) =
    match List.length (List.filter gr_On (ga_Readings g)) with
    | 3%nat => (GateOn, f_of_Z 100) | 2%nat => (GateHalf, gp_HalfScalePct p) | _ => (GateOff, f0)
    end /\
  g = MeasureGate (mkGateInput cal (upTo session (gi_SPY i)) (upTo session (gi_HYG i)) (gi_Breadth i)) p.
Proof.
  cbv zeta. split_and!.
  - unfold MeasureGate. cbn [ga_Readings]. unfold gateReadings. repeat (apply List.Forall2_cons; [apply gate_walk_counts|]). apply List.Forall2_nil.
  - unfold MeasureGate. cbn [ga_State ga_ScalePct ga_Readings]. generalize (List.length (List.filter gr_On (gateReadings i p))).
    by intros [|[|[|[|n]]]].
  - unfold MeasureGate, gateReadings. cbn [gi_Calendar gi_SPY gi_HYG gi_Breadth].
    unfold trendReader, averageReader. by rewrite !seriesTo_upTo.
Qed.

(** Breadth readings of six sessions, confirmed by two closes. *)
Definition breadth_ex (l : list Z) : gateReader := fun d =>
  match indexOf d ["1"; "2"; "3"; "4"; "5"; "6"] with
  | Some i => match l !! i with Some v => Ok (f_of_Z v >f f_of_Z 50, f_of_Z v, f_of_Z 50) | None => Err "none" end
  | None => Err "none"
  end.
Definition params_ex : GateParams := mkGateParams (f_of_Z 50) (f_of_Z 50) 3 2.

(** One close under the level does not turn the reading off; two do. *)
Example one_close_is_pending :
  let r := gateWalk GateBreadth ["1"; "2"; "3"; "4"; "5"; "6"] params_ex (breadth_ex [60; 61; 40; 62; 63; 41]) in
  (gr_On r, gr_Pending r, gr_Since r) = (true, true, "2").
Proof. vm_compute. reflexivity. Qed.

Example two_closes_flip :
  let r := gateWalk GateBreadth ["1"; "2"; "3"; "4"; "5"; "6"] params_ex (breadth_ex [60; 61; 62; 63; 40; 41]) in
  (gr_On r, gr_Pending r, gr_Since r) = (false, false, "6").
Proof. vm_compute. reflexivity. Qed.

(** Without a run of two agreeing closes nothing is confirmed. *)
Example no_run_is_off :
  gr_On (gateWalk GateBreadth ["1"; "2"; "3"] params_ex (breadth_ex [60; 40; 60])) = false.
Proof. vm_compute. reflexivity. Qed.
