(* ===== verification/OrderLimits.v ===== *)
(** * The order limits in force

    src/internal/risk/order_limits.go, internal/risk/mandate.go (the index hedge
    table) and internal/daemon/order_limits.go: the [order_limits] table of the
    risk constitution (every key optional), the keys an order cannot be judged
    without, the cap in force and the term that binds it, the bond maturity limit,
    the account reading the cap scales with and the one-shot override of the floor.
    strconv.FormatFloat is a parameter.  Proved: the cap is the documented
    min(ceiling, max(floor, pct of NLV)) on IEEE doubles and lies between the floor
    and the ceiling, limits are complete only for a loaded policy that writes the
    six common keys in the account's currency, and a cap above the floor rests on a
    current account reading of the selected account or on an unexpired override. *)

From stdpp Require Import base decidable list strings.
From Stdlib Require Import ZArith Lia Ascii String SpecFloat.
From S2P Require Import Prelude Floats OrderStatus BrokerScope GoTime CoreEvaluator.

(** ** The table *)

Definition OrderLimitMaxOrderFloorBase : string := "max_order_floor_base".
Definition OrderLimitMaxOrderPctNLV : string := "max_order_pct_nlv".
Definition OrderLimitMaxOrderCeilingBase : string := "max_order_ceiling_base".
Definition OrderLimitMaxOptionContracts : string := "max_option_contracts".
Definition OrderLimitAllowStockShort : string := "allow_stock_short".
Definition OrderLimitAllowOptionSellToOpen : string := "allow_option_sell_to_open".
Definition OrderLimitMaxBondMaturityYears : string := "max_bond_maturity_years".
Definition OrderLimitReduceAllowancePct : string := "reduce_allowance_pct".
Definition OrderLimitReduceOptionAllowance : string := "reduce_option_allowance_pct".
Definition OrderLimitsTable : string := "order_limits".
Definition OrderLimitFloorOverrideControl : string :=
  String.append OrderLimitsTable (String.append "." OrderLimitMaxOrderFloorBase).

Definition OrderCapBoundFloor : string := "floor".
Definition OrderCapBoundPctNLV : string := "pct_nlv".
Definition OrderCapBoundCeiling : string := "ceiling".
Definition OrderCapBoundOverride : string := "override".

(** Every field is a pointer: [None] is a key that is not written. *)
Record ConstitutionOrderLimits := mkLimits {
  ol_MaxOrderFloorBase : option float64; ol_MaxOrderPctNLV : option float64; ol_MaxOrderCeilingBase : option float64;
  ol_MaxOptionContracts : option Z; ol_AllowStockShort : option bool; ol_AllowOptionSellToOpen : option bool;
  ol_MaxBondMaturityYears : option Z; ol_ReduceAllowancePct : option float64; ol_ReduceOptionAllowancePct : option float64
}.

Definition zero_Limits : ConstitutionOrderLimits := mkLimits None None None None None None None None None.

Definition OrderLimitKeys : list string :=
  [OrderLimitMaxOrderFloorBase; OrderLimitMaxOrderPctNLV; OrderLimitMaxOrderCeilingBase; OrderLimitMaxOptionContracts;
   OrderLimitAllowStockShort; OrderLimitAllowOptionSellToOpen; OrderLimitMaxBondMaturityYears;
   OrderLimitReduceAllowancePct; OrderLimitReduceOptionAllowance].

(** The [present] map of MissingKeys. *)
Definition keyPresent (have : ConstitutionOrderLimits) : list (string * bool) :=
  [(OrderLimitMaxOrderFloorBase, present (ol_MaxOrderFloorBase have));
   (OrderLimitMaxOrderPctNLV, present (ol_MaxOrderPctNLV have));
   (OrderLimitMaxOrderCeilingBase, present (ol_MaxOrderCeilingBase have));
   (OrderLimitMaxOptionContracts, present (ol_MaxOptionContracts have));
   (OrderLimitAllowStockShort, present (ol_AllowStockShort have));
   (OrderLimitAllowOptionSellToOpen, present (ol_AllowOptionSellToOpen have));
   (OrderLimitMaxBondMaturityYears, present (ol_MaxBondMaturityYears have));
   (OrderLimitReduceAllowancePct, present (ol_ReduceAllowancePct have));
   (OrderLimitReduceOptionAllowance, present (ol_ReduceOptionAllowancePct have))].

Definition lookupKey (m : list (string * bool)) (k : string) : bool :=
  match List.find (fun p => fst p =s k) m with Some p => snd p | None => false end.

Definition MissingKeys (o : option ConstitutionOrderLimits) : list string :=
  let have := default zero_Limits o in
  map (fun k => String.append OrderLimitsTable (String.append "." k))
    (List.filter (fun k => negb (lookupKey (keyPresent have) k)) OrderLimitKeys).

(** strings.TrimPrefix *)
Definition TrimPrefix (s prefix : string) : string :=
  if String.prefix prefix s then String.substring (String.length prefix) (String.length s - String.length prefix) s else s.

Definition MissingKeysForEveryOrder (o : option ConstitutionOrderLimits) : list string :=
  List.filter (fun k =>
    negb (one_of (TrimPrefix k (String.append OrderLimitsTable "."))
            [OrderLimitMaxBondMaturityYears; OrderLimitReduceAllowancePct; OrderLimitReduceOptionAllowance]))
    (MissingKeys o).

Definition ReduceAllowancePctFor (o : option ConstitutionOrderLimits) (secType : string) : result string float64 :=
  let isOpt := EqualFold (TrimSpace secType) "OPT" in
  let key := if isOpt then OrderLimitReduceOptionAllowance else OrderLimitReduceAllowancePct in
  let v := match o with Some o => if isOpt then ol_ReduceOptionAllowancePct o else ol_ReduceAllowancePct o | None => None end in
  match v with
  | None => Err (String.append "risk-policy.toml [" (String.append OrderLimitsTable (String.append "] does not write "
              (String.append key ", so a percent reduction cannot be priced; Canary writes it at its next start"))))
  | Some v => Ok v
  end.

Definition finiteFloat (v : float64) : bool := negb (IsNaN v) && negb (IsInf v).

(** A written value fails [bad]; a missing key is never filled. *)
Definition rejects {A} (v : option A) (bad : A -> bool) : bool := match v with Some v => bad v | None => false end.

Definition validate (o : option ConstitutionOrderLimits) : result string unit :=
  match o with
  | None => Ok tt
  | Some o =>
      if rejects (ol_MaxOrderFloorBase o) (fun v => negb (finiteFloat v) || (v <=f f0))
      then Err "order_limits.max_order_floor_base must be positive"
      else if rejects (ol_MaxOrderPctNLV o) (fun v => negb (finiteFloat v) || (v <=f f0) || (v >f f_of_Z 100))
      then Err "order_limits.max_order_pct_nlv must be in (0, 100]"
      else if rejects (ol_MaxOrderCeilingBase o) (fun v => negb (finiteFloat v) || (v <=f f0))
      then Err "order_limits.max_order_ceiling_base must be positive"
      else if rejects (ol_MaxOrderFloorBase o) (fun f => rejects (ol_MaxOrderCeilingBase o) (fun c => f >f c))
      then Err "order_limits.max_order_floor_base must not exceed max_order_ceiling_base"
      else if rejects (ol_MaxOptionContracts o) (fun v => v <=? 0)
      then Err "order_limits.max_option_contracts must be positive"
      else if rejects (ol_MaxBondMaturityYears o) (fun v => (v <=? 0) || (100 <? v))
      then Err "order_limits.max_bond_maturity_years must be in [1, 100]"
      else if rejects (ol_ReduceAllowancePct o) (fun v => negb (finiteFloat v) || (v <=f f0) || (v >f f_of_Z 20))
      then Err "order_limits.reduce_allowance_pct must be in (0, 20]"
      else if rejects (ol_ReduceOptionAllowancePct o) (fun v => negb (finiteFloat v) || (v <=f f0) || (v >f f_of_Z 50))
      then Err "order_limits.reduce_option_allowance_pct must be in (0, 50]"
      else Ok tt
  end.

(** ** The cap in force *)

Record OrderLimitsNLV := mkNLV { nlv_Base : float64; nlv_AsOf : time; nlv_Unavailable : string }.
Record OrderLimitsOverride := mkOverride { ov_ID : string; ov_ExpiresAt : time }.

Record OrderLimitsInForce := mkInForce {
  lf_Complete : bool; lf_Missing : list string; lf_Unavailable : string; lf_BaseCurrency : string;
  lf_FloorBase : float64; lf_PctNLV : float64; lf_CeilingBase : float64;
  lf_NLVBase : option float64; lf_NLVAsOf : time; lf_NLVUnavailable : string; lf_PctNLVBase : option float64;
  lf_CapBase : float64; lf_CapBound : string; lf_OverrideID : string; lf_OverrideExpiresAt : time;
  lf_MaxOptionContracts : Z; lf_AllowStockShort : bool; lf_AllowOptionSellToOpen : bool; lf_MaxBondMaturityYears : Z;
  lf_BondMaturityUnset : bool; lf_IndexHedgeMaxContracts : Z; lf_IndexHedgeRefusal : string; lf_AsOf : time;
  lf_Summary : string
}.
#[global] Instance OrderLimitsInForce_eta : Eta OrderLimitsInForce := fun l => mkInForce
  (lf_Complete l) (lf_Missing l) (lf_Unavailable l) (lf_BaseCurrency l) (lf_FloorBase l) (lf_PctNLV l) (lf_CeilingBase l)
  (lf_NLVBase l) (lf_NLVAsOf l) (lf_NLVUnavailable l) (lf_PctNLVBase l) (lf_CapBase l) (lf_CapBound l) (lf_OverrideID l)
  (lf_OverrideExpiresAt l) (lf_MaxOptionContracts l) (lf_AllowStockShort l) (lf_AllowOptionSellToOpen l)
  (lf_MaxBondMaturityYears l) (lf_BondMaturityUnset l) (lf_IndexHedgeMaxContracts l) (lf_IndexHedgeRefusal l) (lf_AsOf l)
  (lf_Summary l).

Definition zero_InForce : OrderLimitsInForce :=
  mkInForce false [] "" "" f0 f0 f0 None 0 "" None f0 "" "" 0 0 false false 0 false 0 "" 0 "".

(** strings.Join(l, ", ") *)
Definition Join (sep : string) (l : list string) : string := String.concat sep l.

(** [for i, r := range digits]: a comma before every third digit from the end. *)
Fixpoint groupDigits (first : bool) (digits : string) : string :=
  match digits with
  | EmptyString => ""
  | String c rest =>
      String.append (if negb first && (Z.of_nat (String.length digits) mod 3 =? 0) then "," else "")
        (String c (groupDigits false rest))
  end.

(** FormatOrderMoney, for amounts whose cents fit an int64. *)
Definition FormatOrderMoney (v : float64) (ccy : string) : string :=
  let neg := v <f f0 in
  let v := fabs v in
  let cents := int_of_float (Round (fmul v (f_of_Z 100))) in
  let whole := cents / 100 in
  let frac := cents mod 100 in
  let b := String.append (if neg && negb (cents =? 0) then "-" else "") (groupDigits true (Itoa whole)) in
  let b := if negb (frac =? 0) then String.append b (String.append "." (pad2 frac)) else b in
  let ccy := TrimSpace ccy in
  if ccy <>s "" then String.append b (String.append " " ccy) else b.

(** [t.UTC().Format(time.RFC3339)] *)
Definition utcDay (t : time) : Z := secondsOf t / daySeconds.
Definition FormatRFC3339 (t : time) : string :=
  let s := secondsOf t mod daySeconds in
  String.append (FormatDate (utcDay t)) (String.append "T" (String.append (pad2 (s / 3600)) (String.append ":"
    (String.append (pad2 (s / 60 mod 60)) (String.append ":" (String.append (pad2 (s mod 60)) "Z")))))).

Section Evaluate.
(** strconv.FormatFloat(v, 'f', -1, 64) *)
Context (FormatFloat : float64 -> string).

Definition limitsHead (o : option ConstitutionOrderLimits) (base unavailable : string) : OrderLimitsInForce :=
  zero_InForce
    <| lf_BaseCurrency := base |> <| lf_Missing := MissingKeysForEveryOrder o |> <| lf_Unavailable := TrimSpace unavailable |>
    <| lf_BondMaturityUnset := match o with Some o => negb (present (ol_MaxBondMaturityYears o)) | None => true end |>
    <| lf_MaxOptionContracts := match o with Some o => default 0 (ol_MaxOptionContracts o) | None => 0 end |>
    <| lf_MaxBondMaturityYears := match o with Some o => default 0 (ol_MaxBondMaturityYears o) | None => 0 end |>.

Definition incompleteSummary (out : OrderLimitsInForce) : string :=
  if lf_Unavailable out <>s ""
  then String.append (lf_Unavailable out) "; every order preview is refused until risk-policy.toml writes [order_limits] (canary policy ensure)"
  else String.append "risk-policy.toml [order_limits] does not write " (String.append (Join ", " (lf_Missing out))
         "; every order preview is refused until it does (canary policy ensure)").

(** The values of a table that writes the six common keys. *)
Definition withValues (o : ConstitutionOrderLimits) (out : OrderLimitsInForce) : OrderLimitsInForce :=
  out <| lf_Complete := true |>
      <| lf_FloorBase := default f0 (ol_MaxOrderFloorBase o) |> <| lf_PctNLV := default f0 (ol_MaxOrderPctNLV o) |>
      <| lf_CeilingBase := default f0 (ol_MaxOrderCeilingBase o) |>
      <| lf_MaxOptionContracts := default 0 (ol_MaxOptionContracts o) |>
      <| lf_AllowStockShort := default false (ol_AllowStockShort o) |>
      <| lf_AllowOptionSellToOpen := default false (ol_AllowOptionSellToOpen o) |>.

Definition withNLV (nlv : OrderLimitsNLV) (out : OrderLimitsInForce) : OrderLimitsInForce :=
  if (nlv_Base nlv >f f0) && negb (IsNaN (nlv_Base nlv)) && negb (IsInf (nlv_Base nlv)) && (nlv_Unavailable nlv =s "")
  then out <| lf_NLVBase := Some (nlv_Base nlv) |> <| lf_NLVAsOf := nlv_AsOf nlv |>
           <| lf_PctNLVBase := Some (fmul (fdiv (lf_PctNLV out) (f_of_Z 100)) (nlv_Base nlv)) |>
  else
    let u := TrimSpace (nlv_Unavailable nlv) in
    out <| lf_NLVUnavailable := if u =s "" then "net liquidation value cannot be read" else u |>.

Definition withCap (base : string) (nlv : OrderLimitsNLV) (override : option OrderLimitsOverride)
    (out : OrderLimitsInForce) : OrderLimitsInForce :=
  let money v := FormatOrderMoney v base in
  let pctText := String.append (FormatFloat (lf_PctNLV out)) "%" in
  match override, lf_PctNLVBase out with
  | Some ov, _ =>
      out <| lf_CapBase := lf_CeilingBase out |> <| lf_CapBound := OrderCapBoundOverride |>
          <| lf_OverrideID := ov_ID ov |> <| lf_OverrideExpiresAt := ov_ExpiresAt ov |>
          <| lf_Summary := String.append (money (lf_CeilingBase out)) (String.append " (override " (String.append (ov_ID ov)
               (String.append " lifts the floor to the ceiling until " (String.append (FormatRFC3339 (ov_ExpiresAt ov)) "; [order_limits])")))) |>
  | None, None =>
      out <| lf_CapBase := lf_FloorBase out |> <| lf_CapBound := OrderCapBoundFloor |>
          <| lf_Summary := String.append (money (lf_FloorBase out)) (String.append " (the floor: " (String.append (lf_NLVUnavailable out)
               (String.append ", so " (String.append pctText " of NLV cannot apply and the smaller cap holds; [order_limits])")))) |>
  | None, Some p =>
      if p >=f lf_CeilingBase out
      then out <| lf_CapBase := lf_CeilingBase out |> <| lf_CapBound := OrderCapBoundCeiling |>
               <| lf_Summary := String.append (money (lf_CeilingBase out)) (String.append " (the ceiling; " (String.append pctText
                    (String.append " of NLV " (String.append (money (nlv_Base nlv)) (String.append " would be " (String.append (money p) "; [order_limits])")))))) |>
      else if p <=f lf_FloorBase out
      then out <| lf_CapBase := lf_FloorBase out |> <| lf_CapBound := OrderCapBoundFloor |>
               <| lf_Summary := String.append (money (lf_FloorBase out)) (String.append " (the floor; " (String.append pctText
                    (String.append " of NLV " (String.append (money (nlv_Base nlv)) (String.append " is " (String.append (money p) "; [order_limits])")))))) |>
      else out <| lf_CapBase := p |> <| lf_CapBound := OrderCapBoundPctNLV |>
               <| lf_Summary := String.append (money p) (String.append " (" (String.append pctText
                    (String.append " of NLV " (String.append (money (nlv_Base nlv)) "; [order_limits])")))) |>
  end.

Definition EvaluateOrderLimits (o : option ConstitutionOrderLimits) (baseCurrency : string) (nlv : OrderLimitsNLV)
    (override : option OrderLimitsOverride) (unavailable : string) : OrderLimitsInForce :=
  let base := ToUpper (TrimSpace baseCurrency) in
  let out := limitsHead o base unavailable in
  match o, lf_Missing out with
  | Some o, [] => withCap base nlv override (withNLV nlv (withValues o out))
  | _, _ => out <| lf_Summary := incompleteSummary out |>
  end.

(** CheckBondMaturity; "today" and the maturity are day numbers. *)
Definition addYears (day years : Z) : Z :=
  let '(y, (m, d)) := civilDate day in
  daysBeforeYear (y + years) + dayOfYear (monthLengths (isLeap (y + years))) m d.

Definition CheckBondMaturity (l : OrderLimitsInForce) (maturity : string) (now : time) : result string unit :=
  let key := String.append "[" (String.append OrderLimitsTable (String.append "]." OrderLimitMaxBondMaturityYears)) in
  if negb (lf_Complete l) then Err (String.append "the bond maturity cannot be judged: " (lf_Summary l))
  else if lf_BondMaturityUnset l || (lf_MaxBondMaturityYears l <=? 0)
  then Err (String.append key " is not set: bond buys are refused until Canary writes it at its next start")
  else
    match ParseDate (TrimSpace maturity) with
    | None => Err (String.append "the bond maturity " (String.append (quoted maturity)
                (String.append " is not a YYYY-MM-DD date, so " (String.append key " cannot be applied"))))
    | Some due =>
        let limit := addYears (utcDay now) (lf_MaxBondMaturityYears l) in
        if limit <? due
        then Err (String.append "the bond matures " (String.append (FormatDate due) (String.append ", beyond the "
               (String.append (Itoa (lf_MaxBondMaturityYears l)) (String.append "-year limit in force ("
               (String.append (FormatDate limit) (String.append "; " (String.append key ")"))))))))
        else Ok tt
    end.
End Evaluate.

(** ** The daemon's reading of net liquidation value *)

Definition normCcy (s : string) : string := ToUpper (TrimSpace s).
Definition orderLimitsNLVMaxAge : Z := 15 * Minute.
Definition orderLimitsNLVRefreshAge : Z := 5 * Minute.

(** rpc.AccountResult and its AccountDataAuthority, the fields the reading uses. *)
Record AccountFieldAvailability := mkFields { af_BaseCurrency : bool; af_NetLiquidation : bool }.
Record AccountDataAuthority := mkDataAuthority {
  aa_AccountID : string; aa_AccountMode : string; aa_Availability : string; aa_Freshness : string;
  aa_Fields : option AccountFieldAvailability
}.
Record AccountResult := mkAccount {
  ar_AccountID : string; ar_BaseCurrency : string; ar_NetLiquidation : float64; ar_AsOf : time;
  ar_Authority : option AccountDataAuthority
}.
Definition AccountDataAvailable : string := "available".
Definition AccountDataFreshnessCurrent : string := "current".

Definition currentPortfolioAuthority (a : option AccountDataAuthority) : bool :=
  match a with
  | None => false
  | Some a => (aa_Availability a =s AccountDataAvailable) && (aa_Freshness a =s AccountDataFreshnessCurrent) &&
              (aa_AccountID a <>s "") && (aa_AccountMode a <>s "")
  end.

Record orderLimitsNLVReading := mkReading { rd_scope : brokerStateScope; rd_base : string; rd_value : float64; rd_asOf : time }.
Definition emptyReading : orderLimitsNLVReading := mkReading (mkScope "" "") "" f0 0.

(** The account result the first condition of recordOrderLimitsNLV lets through. *)
Definition readableNLV (res : AccountResult) : bool :=
  currentPortfolioAuthority (ar_Authority res) &&
  match ar_Authority res with
  | None => false
  | Some a =>
      (ar_AccountID res =s aa_AccountID a) &&
      match aa_Fields a with Some f => af_NetLiquidation f && af_BaseCurrency f | None => false end
  end &&
  positiveFinite (ar_NetLiquidation res) && (normCcy (ar_BaseCurrency res) <>s "").

Definition recordOrderLimitsNLV (scope : brokerStateScope) (now : time) (res : option AccountResult)
    (prev : orderLimitsNLVReading) : orderLimitsNLVReading :=
  match res with
  | None => prev
  | Some res =>
      if negb (readableNLV res) then prev
      else if negb (EqualFold (TrimSpace (sc_Account scope)) (TrimSpace (ar_AccountID res))) then prev
      else
        let asOf := if IsZero (ar_AsOf res) then now else ar_AsOf res in
        if sameBrokerScope (rd_scope prev) scope && After (rd_asOf prev) asOf then prev
        else mkReading scope (normCcy (ar_BaseCurrency res)) (ar_NetLiquidation res) asOf
  end.

(** Duration.Minutes *)
Definition Minutes (d : Z) : float64 :=
  fadd (f_of_Z (Z.quot d Minute)) (fdiv (f_of_Z (Z.rem d Minute)) (f_of_Z Minute)).

Definition currentOrderLimitsNLV (r : orderLimitsNLVReading) (scope : brokerStateScope) (base : string) (now : time) : OrderLimitsNLV :=
  let unavailable why := mkNLV f0 0 why in
  if IsZero (rd_asOf r) || negb (positiveFinite (rd_value r))
  then unavailable "no current account reading of net liquidation value"
  else if negb (sameBrokerScope (rd_scope r) scope)
  then unavailable "the last net liquidation value read belongs to another account session"
  else if (base <>s "") && negb (EqualFold (rd_base r) base)
  then unavailable (String.append "net liquidation value was read in " (String.append (rd_base r)
         (String.append ", not the base currency " base)))
  else if orderLimitsNLVMaxAge <? Sub now (rd_asOf r)
  then unavailable (String.append "net liquidation value was last read "
         (String.append (Itoa (int_of_float (Round (Minutes (Sub now (rd_asOf r))))))
         (String.append " minutes ago, beyond the "
         (String.append (Itoa (int_of_float (Minutes orderLimitsNLVMaxAge))) " minutes it counts as current"))))
  else mkNLV (rd_value r) (rd_asOf r) "".

(** rpc.OverrideRecord, the fields the choice reads. *)
Record OverrideRecord := mkOverrideRecord { or_ID : string; or_Control : string; or_ExpiresAt : time; or_Active : bool }.

Definition overrideStep (now : time) (best : option OrderLimitsOverride) (o : OverrideRecord) : option OrderLimitsOverride :=
  if negb (or_Active o) || (or_Control o <>s OrderLimitFloorOverrideControl) || negb (Before now (or_ExpiresAt o)) then best
  else
    match best with
    | Some b => if After (or_ExpiresAt o) (ov_ExpiresAt b) then Some (mkOverride (or_ID o) (or_ExpiresAt o)) else best
    | None => Some (mkOverride (or_ID o) (or_ExpiresAt o))
    end.

(** [overrides] is riskCapital's OverridesSnapshotForScope; [None] when there is
    no riskCapital store. *)
Definition orderLimitsFloorOverride (overrides : option (list OverrideRecord)) (now : time) : option OrderLimitsOverride :=
  match overrides with
  | None => None
  | Some l => fold_left (overrideStep now) l None
  end.

(** The parts of risk.Constitution the order limits read. *)
Record ConstitutionMandateIndexHedge := mkIndexHedge { ih_MaxContracts : option Z }.
Record ConstitutionMandate := mkMandate { md_IndexHedge : option ConstitutionMandateIndexHedge }.
Record Constitution := mkConstitution {
  co_BaseCurrency : string; co_OrderLimits : option ConstitutionOrderLimits; co_Mandate : option ConstitutionMandate
}.

Definition IndexHedgeMaxContracts (m : option ConstitutionMandate) : Z * string :=
  match m with
  | Some (mkMandate (Some h)) =>
      match ih_MaxContracts h with
      | None => (0, "the risk constitution writes no mandate.index_hedge.max_contracts; placing an index hedge is refused until it does")
      | Some n => (n, "")
      end
  | _ => (0, "the risk constitution carries no [mandate.index_hedge] table; placing an index hedge is refused until it is written with max_contracts and a higher policy_version")
  end.

Record riskPolicySnapshot := mkPolicySnapshot { ps_policy : option Constitution; ps_message : string }.

Section InForce.
Context (FormatFloat : float64 -> string).

Definition orderLimitsInForce (snap : riskPolicySnapshot) (overrides : option (list OverrideRecord))
    (r : orderLimitsNLVReading) (scope : brokerStateScope) (now : time) (baseCurrency : string) : OrderLimitsInForce :=
  let base := normCcy baseCurrency in
  match ps_policy snap with
  | None =>
      let msg := TrimSpace (ps_message snap) in
      let why := if msg <>s "" then String.append "no risk policy is loaded (" (String.append msg ")") else "no risk policy is loaded" in
      EvaluateOrderLimits FormatFloat None base (mkNLV f0 0 "") None why
  | Some policy =>
      let policyBase := normCcy (co_BaseCurrency policy) in
      let base := if base =s "" then policyBase else base in
      let limits := EvaluateOrderLimits FormatFloat (co_OrderLimits policy) base (currentOrderLimitsNLV r scope base now)
                      (orderLimitsFloorOverride overrides now) "" in
      let '(maxContracts, refusal) := IndexHedgeMaxContracts (co_Mandate policy) in
      let limits := limits <| lf_AsOf := now |> <| lf_IndexHedgeMaxContracts := maxContracts |> <| lf_IndexHedgeRefusal := refusal |> in
      if lf_Complete limits && (policyBase <>s "") && (base <>s "") && (policyBase <>s base)
      then
        let why := String.append "risk-policy.toml states its amounts in " (String.append policyBase
                     (String.append " (capital.base_currency) but the account base currency is " base)) in
        limits <| lf_Complete := false |> <| lf_Unavailable := why |>
               <| lf_Summary := String.append why "; every order preview is refused until they match" |>
      else limits
  end.

Definition orderLimitsNLVNeedsRefresh (r : orderLimitsNLVReading) (scope : brokerStateScope) (now : time) : bool :=
  IsZero (rd_asOf r) || (orderLimitsNLVRefreshAge <? Sub now (rd_asOf r)) || negb (sameBrokerScope (rd_scope r) scope).

(** [read] is what the account read inside the budget hands recordOrderLimitsNLV,
    nothing when it fails or the test seam replaces the broker. *)
Definition orderLimitsInForceForPreview (snap : riskPolicySnapshot) (overrides : option (list OverrideRecord))
    (testSeam : bool) (read : option AccountResult) (scope : brokerStateScope) (now : time) (baseCurrency : string)
    (r : orderLimitsNLVReading) : OrderLimitsInForce * orderLimitsNLVReading :=
  let r := if negb testSeam && orderLimitsNLVNeedsRefresh r scope now then recordOrderLimitsNLV scope now read r else r in
  (orderLimitsInForce snap overrides r scope now baseCurrency, r).

Definition orderLimitsIncompleteError (l : OrderLimitsInForce) : string :=
  String.append "order limits are not in force: " (TrimSpace (lf_Summary l)).
End InForce.

(** ** The cap in force *)

(** The table writes the six keys every order needs. *)
Definition writesCommonKeys (t : ConstitutionOrderLimits) : Prop :=
  present (ol_MaxOrderFloorBase t) && present (ol_MaxOrderPctNLV t) && present (ol_MaxOrderCeilingBase t) &&
  present (ol_MaxOptionContracts t) && present (ol_AllowStockShort t) && present (ol_AllowOptionSellToOpen t) = true.

Lemma no_key_missing o : MissingKeysForEveryOrder o = [] <-> exists t, o = Some t /\ writesCommonKeys t.
Proof.
  unfold writesCommonKeys. destruct o as [[f p c n s w b ra ro]|].
  - split.
    + intros H. eexists. split; [reflexivity|]. cbn.
      destruct f, p, c, n, s, w, b, ra, ro; solve [reflexivity | vm_compute in H; discriminate H].
    + intros (t & [= <-] & H). cbn in H.
      destruct f, p, c, n, s, w, b, ra, ro; solve [discriminate H | vm_compute; reflexivity].
  - split; [intros H; vm_compute in H; discriminate H | intros (t & [=] & _)].
Qed.

Lemma rejects_false {A} (v : option A) bad a : v = Some a -> rejects v bad = false -> bad a = false.
Proof. by intros ->. Qed.

Lemma validated_terms t floor pct ceil :
  validate (Some t) = Ok tt -> ol_MaxOrderFloorBase t = Some floor -> ol_MaxOrderPctNLV t = Some pct ->
  ol_MaxOrderCeilingBase t = Some ceil ->
  positiveFinite floor = true /\ positiveFinite pct = true /\ positiveFinite ceil = true /\ (floor <=f ceil) = true.
Proof.
  unfold validate. intros H Hf Hp Hc. ok_inv H. clear H.
  apply (rejects_false _ _ _ Hf) in Hg, Hg2. apply (rejects_false _ _ _ Hp) in Hg0. apply (rejects_false _ _ _ Hc) in Hg1, Hg2.
  assert (Hpos : forall v, negb (finiteFloat v) || (v <=f f0) = false -> positiveFinite v = true).
  { intros v Hv. unfold finiteFloat in Hv. bool_hyps. unfold positiveFinite. apply andb_true_iff; split; [|by apply negb_true_iff].
    apply andb_true_iff; split; [float_lia | by apply negb_true_iff]. }
  assert (Hn : forall v, positiveFinite v = true -> IsNaN v = false) by (unfold positiveFinite; intros; bool_hyps; done).
  apply orb_false_iff in Hg0 as [Hg0 _]. apply Hpos in Hg, Hg0, Hg1. repeat split; [done..|].
  apply Hn in Hg, Hg1. float_lia.
Qed.

Lemma positive_number v : positiveFinite v = true -> IsNaN v = false /\ finiteNonZero v = true /\ (f0 <f v) = true.
Proof. unfold positiveFinite. intros H. bool_hyps. destruct v; done. Qed.

(** The cap of the documentation's formula, on doubles. *)
Definition capFormula (floor pct ceil nlv : float64) : float64 :=
  mathMin ceil (mathMax floor (fmul (fdiv pct (f_of_Z 100)) nlv)).

(** The account reading can be used: positive, finite and no reason against it. *)
Definition readableReading (n : OrderLimitsNLV) : bool := positiveFinite (nlv_Base n) && (nlv_Unavailable n =s "").

(** math.Max and math.Min against a positive finite double are the comparisons. *)
Lemma mathMax_positive x p : positiveFinite x = true -> IsNaN p = false -> mathMax x p = if x >f p then x else p.
Proof.
  intros Hx Hp. apply positive_number in Hx as (Hx & Hfin & H0). unfold mathMax. rewrite Hx, Hp.
  destruct x as [| | |sx mx ex]; try discriminate. destruct sx; [discriminate H0|].
  destruct p as [|[]| |]; try discriminate; reflexivity.
Qed.

Lemma mathMin_positive x p : positiveFinite x = true -> IsNaN p = false -> mathMin x p = if x <f p then x else p.
Proof.
  intros Hx Hp. apply positive_number in Hx as (Hx & Hfin & H0). unfold mathMin. rewrite Hx, Hp.
  destruct x as [| | |sx mx ex]; try discriminate. destruct sx; [discriminate H0|].
  destruct p as [|[]| |]; try discriminate; reflexivity.
Qed.

Lemma clamp_formula floor ceil p cap :
  positiveFinite floor = true -> positiveFinite ceil = true -> (floor <=f ceil) = true -> IsNaN p = false ->
  cap = (if p >=f ceil then ceil else if p <=f floor then floor else p) ->
  (cap =f mathMin ceil (mathMax floor p)) = true /\ (floor <=f cap) = true /\ (cap <=f ceil) = true.
Proof.
  intros Hf Hc Hfc Hp ->. rewrite (mathMax_positive floor p), (mathMin_positive ceil) by (try case_if; done || by apply positive_number).
  apply positive_number in Hf as (Hf & _ & Hf0), Hc as (Hc & _ & Hc0).
  destruct (ceil <=f p) eqn:E1, (p <f floor) eqn:E2; try (destruct (p <=f floor) eqn:E3);
    match goal with |- context [if ?b then _ else _] => destruct b eqn:E4 end; repeat split; float_lia.
Qed.

Section Cap.
Context (FormatFloat : float64 -> string).

Lemma withCap_terms base nlv ov out :
  let l := withCap FormatFloat base nlv ov out in
  lf_Complete l = lf_Complete out /\ lf_FloorBase l = lf_FloorBase out /\ lf_CeilingBase l = lf_CeilingBase out /\
  lf_NLVBase l = lf_NLVBase out /\
  lf_CapBase l =
    match ov, lf_PctNLVBase out with
    | Some _, _ => lf_CeilingBase out
    | None, None => lf_FloorBase out
    | None, Some p => if p >=f lf_CeilingBase out then lf_CeilingBase out else if p <=f lf_FloorBase out then lf_FloorBase out else p
    end.
Proof. unfold withCap. destruct ov; [done|]. destruct (lf_PctNLVBase out); [|done]. case_if; [done|]. by case_if. Qed.

Lemma withNLV_terms nlv out :
  let l := withNLV nlv out in
  lf_Complete l = lf_Complete out /\ lf_FloorBase l = lf_FloorBase out /\ lf_CeilingBase l = lf_CeilingBase out /\
  lf_PctNLVBase l = if readableReading nlv then Some (fmul (fdiv (lf_PctNLV out) (f_of_Z 100)) (nlv_Base nlv)) else lf_PctNLVBase out.
Proof. unfold withNLV, readableReading, positiveFinite. by case_if. Qed.

Lemma complete_iff o base nlv ov why :
  lf_Complete (EvaluateOrderLimits FormatFloat o base nlv ov why) = true <-> exists t, o = Some t /\ writesCommonKeys t.
Proof.
  rewrite <- no_key_missing. unfold EvaluateOrderLimits. cbv zeta. change (lf_Missing (limitsHead o _ why)) with (MissingKeysForEveryOrder o).
  destruct o as [t|].
  - destruct (MissingKeysForEveryOrder (Some t)) eqn:E; [|split; done].
    destruct (withCap_terms (ToUpper (TrimSpace base)) nlv ov (withNLV nlv (withValues t (limitsHead (Some t) (ToUpper (TrimSpace base)) why)))) as (-> & _).
    destruct (withNLV_terms nlv (withValues t (limitsHead (Some t) (ToUpper (TrimSpace base)) why))) as (-> & _). split; done.
  - destruct (MissingKeysForEveryOrder None) eqn:E; [vm_compute in E; discriminate E|]. split; done.
Qed.

(** The cap in force, on IEEE doubles.  For a table that passed validation the
    limits are complete exactly when it writes the six keys every order needs.  The
    cap then lies between the table's floor and ceiling; an override lifts it to the
    ceiling, a net liquidation value that cannot be read leaves the floor, and
    otherwise the cap is min(ceiling, max(floor, pct/100 times NLV)), rounding and
    overflow of the product included. *)
Theorem cap_in_force_is_the_formula o base nlv ov why :
  validate o = Ok tt ->
  let l := EvaluateOrderLimits FormatFloat o base nlv ov why in
  (lf_Complete l = true <-> exists t, o = Some t /\ writesCommonKeys t) /\
  forall t floor pct ceil,
    lf_Complete l = true -> o = Some t -> ol_MaxOrderFloorBase t = Some floor -> ol_MaxOrderPctNLV t = Some pct ->
    ol_MaxOrderCeilingBase t = Some ceil ->
    (floor <=f lf_CapBase l) = true /\ (lf_CapBase l <=f ceil) = true /\ (f0 <f lf_CapBase l) = true /\
    (present ov = true -> lf_CapBase l = ceil) /\
    (ov = None -> readableReading nlv = false -> lf_CapBase l = floor) /\
    (ov = None -> readableReading nlv = true -> (lf_CapBase l =f capFormula floor pct ceil (nlv_Base nlv)) = true).
Proof.
  intros Hv l. split; [apply complete_iff|]. intros t floor pct ceil Hcomp -> Hf Hp Hc.
  destruct (validated_terms t floor pct ceil Hv Hf Hp Hc) as (Hfp & Hpp & Hcp & Hfc).
  apply complete_iff in Hcomp as Hkeys. apply no_key_missing in Hkeys.
  revert l Hcomp. unfold EvaluateOrderLimits. cbv zeta.
  set (head := limitsHead (Some t) (ToUpper (TrimSpace base)) why).
  change (lf_Missing head) with (MissingKeysForEveryOrder (Some t)). rewrite Hkeys. intros _.
  destruct (withCap_terms (ToUpper (TrimSpace base)) nlv ov (withNLV nlv (withValues t head))) as (_ & _ & _ & _ & ->).
  destruct (withNLV_terms nlv (withValues t head)) as (_ & -> & -> & ->).
  replace (lf_FloorBase (withValues t head)) with floor by (cbn; by rewrite Hf).
  replace (lf_CeilingBase (withValues t head)) with ceil by (cbn; by rewrite Hc).
  replace (lf_PctNLV (withValues t head)) with pct by (cbn; by rewrite Hp).
  change (lf_PctNLVBase (withValues t head)) with (@None float64).
  destruct (positive_number _ Hfp) as (Hfn & _ & Hf0), (positive_number _ Hcp) as (Hcn & _ & Hc0).
  destruct ov as [ov|]; [repeat split; try done; float_lia|].
  destruct (readableReading nlv) eqn:Hr; [|repeat split; try done; float_lia].
  unfold readableReading in Hr. apply andb_true_iff in Hr as [Hr _].
  unfold capFormula. set (p := fmul _ _). assert (Hpn : IsNaN p = false).
  { apply fmul_number; [apply fdiv_number|]; [by apply positive_number | reflexivity | by apply positive_number]. }
  clearbody p. destruct (clamp_formula floor ceil p _ Hfp Hcp Hfc Hpn eq_refl) as (Heq & Hlo & Hhi).
  repeat split; try done. apply (fltb_fleb_trans _ floor); [done | done | repeat case_if; done | done | done].
Qed.
End Cap.

(** ** What a raised cap rests on *)

(** An account read as the daemon records it: the selected scope and the clock. *)
Record accountRead := mkRead { rr_scope : brokerStateScope; rr_now : time; rr_result : option AccountResult }.
Definition recordRead (r : orderLimitsNLVReading) (a : accountRead) : orderLimitsNLVReading :=
  recordOrderLimitsNLV (rr_scope a) (rr_now a) (rr_result a) r.
Definition readingAfter (reads : list accountRead) : orderLimitsNLVReading := fold_left recordRead reads emptyReading.

Definition readAt (a : accountRead) (res : AccountResult) : time := if IsZero (ar_AsOf res) then rr_now a else ar_AsOf res.

(** The reading is a readable result of the account selected when it was read. *)
Definition readingFrom (reads : list accountRead) (r : orderLimitsNLVReading) : Prop :=
  exists a res, In a reads /\ rr_result a = Some res /\ readableNLV res = true /\
    EqualFold (TrimSpace (sc_Account (rr_scope a))) (TrimSpace (ar_AccountID res)) = true /\
    r = mkReading (rr_scope a) (normCcy (ar_BaseCurrency res)) (ar_NetLiquidation res) (readAt a res).

Lemma recorded_reading reads : readingAfter reads = emptyReading \/ readingFrom reads (readingAfter reads).
Proof.
  unfold readingAfter. induction reads as [|a reads IH] using rev_ind; [by left|].
  rewrite fold_left_app. simpl. set (r := fold_left recordRead reads emptyReading) in *.
  assert (Hkeep : r = emptyReading \/ readingFrom (reads ++ [a]) r).
  { destruct IH as [IH|(b & res & Hin & H)]; [by left | right]. exists b, res. split; [apply in_app_iff; by left | done]. }
  unfold recordRead, recordOrderLimitsNLV. destruct (rr_result a) as [res|] eqn:Ea; [|done].
  destruct (readableNLV res) eqn:Hr; [cbn [negb]|done].
  destruct (EqualFold (TrimSpace (sc_Account (rr_scope a))) (TrimSpace (ar_AccountID res))) eqn:Hacc; [cbn [negb]|done].
  destruct (sameBrokerScope _ _ && _); [done|].
  right. exists a, res. split; [apply in_app_iff; right; by left | done].
Qed.

Lemma current_reading r scope base now :
  nlv_Unavailable (currentOrderLimitsNLV r scope base now) = "" ->
  IsZero (rd_asOf r) = false /\ sameBrokerScope (rd_scope r) scope = true /\ (base = "" \/ EqualFold (rd_base r) base = true) /\
  Sub now (rd_asOf r) <= orderLimitsNLVMaxAge /\
  currentOrderLimitsNLV r scope base now = mkNLV (rd_value r) (rd_asOf r) "".
Proof.
  unfold currentOrderLimitsNLV.
  destruct (IsZero (rd_asOf r)) eqn:E1; [discriminate|]. destruct (positiveFinite (rd_value r)); [|discriminate]. cbn [negb orb].
  destruct (sameBrokerScope (rd_scope r) scope); [|discriminate]. cbn [negb].
  destruct (base =s "") eqn:Eb; cbn [negb andb].
  - case_if; [discriminate|]. bool_hyps. auto.
  - destruct (EqualFold (rd_base r) base) eqn:Ef; [|discriminate]. cbn [negb]. case_if; [discriminate|]. bool_hyps. auto.
Qed.

Lemma override_step_sound now l : forall best b,
  fold_left (overrideStep now) l best = Some b ->
  best = Some b \/ exists o, In o l /\ or_Active o = true /\ or_Control o = OrderLimitFloorOverrideControl /\
    now < or_ExpiresAt o /\ b = mkOverride (or_ID o) (or_ExpiresAt o).
Proof.
  induction l as [|o l IH]; simpl; intros best b H; [by left|].
  destruct (IH _ _ H) as [Hb|(o' & Hin & Ho')]; [|right; exists o'; auto].
  unfold overrideStep in Hb. case_if_in Hb; [by left|]. unfold Before in *. bool_hyps.
  destruct best as [b0|]; [case_if_in Hb; [|by left]|]; injection Hb as <-; right; exists o; repeat split; auto.
Qed.

Section RaisedCap.
Context (FormatFloat : float64 -> string).

(** The base currency an order is judged in. *)
Definition baseInForce (policy : Constitution) (baseCurrency : string) : string :=
  if normCcy baseCurrency =s "" then normCcy (co_BaseCurrency policy) else normCcy baseCurrency.

(** An override of the floor that is in force at [now]. *)
Definition floorOverrideActive (overrides : option (list OverrideRecord)) (now : time) (id : string) : Prop :=
  exists l o, overrides = Some l /\ In o l /\ or_Active o = true /\ or_Control o = OrderLimitFloorOverrideControl /\
    now < or_ExpiresAt o /\ or_ID o = id.

(** A recorded account result that is current for the scope, the currency and the clock. *)
Definition currentNLVRead (reads : list accountRead) (scope : brokerStateScope) (base : string) (now : time) (nlv : float64) : Prop :=
  exists a res, In a reads /\ rr_result a = Some res /\ readableNLV res = true /\
    EqualFold (TrimSpace (sc_Account (rr_scope a))) (TrimSpace (ar_AccountID res)) = true /\
    sameBrokerScope (rr_scope a) scope = true /\ (base = "" \/ EqualFold (normCcy (ar_BaseCurrency res)) base = true) /\
    Sub now (readAt a res) <= orderLimitsNLVMaxAge /\ ar_NetLiquidation res = nlv.

Lemma evaluated_cap t base nlv ov why :
  MissingKeysForEveryOrder (Some t) = [] ->
  let l := EvaluateOrderLimits FormatFloat (Some t) base nlv ov why in
  lf_CapBase l = lf_FloorBase l \/
  (lf_CapBound l = OrderCapBoundOverride /\ exists o, ov = Some o /\ lf_OverrideID l = ov_ID o) \/
  (nlv_Unavailable nlv = "" /\ lf_NLVBase l = Some (nlv_Base nlv)).
Proof.
  intros Hk. unfold EvaluateOrderLimits. cbv zeta.
  set (head := limitsHead _ _ _). change (lf_Missing head) with (MissingKeysForEveryOrder (Some t)). rewrite Hk.
  destruct ov as [o|]; [right; left; split; [done | by exists o]|].
  destruct (withCap_terms FormatFloat (ToUpper (TrimSpace base)) nlv None (withNLV nlv (withValues t head))) as (_ & -> & _ & -> & ->).
  unfold withNLV. case_if; [bool_hyps; right; right; done | by left].
Qed.

Lemma current_read reads scope base now :
  nlv_Unavailable (currentOrderLimitsNLV (readingAfter reads) scope base now) = "" ->
  currentNLVRead reads scope base now (nlv_Base (currentOrderLimitsNLV (readingAfter reads) scope base now)).
Proof.
  intros H. apply current_reading in H as (Hz & Hs & Hb & Hage & ->). cbn [nlv_Base].
  destruct (recorded_reading reads) as [E|(a & res & Hin & Hres & Hr & Hacc & E)]; rewrite E in *; [discriminate Hz|].
  exists a, res. auto 10.
Qed.

(** Order limits judge an order only from current evidence.  For any sequence of
    account reads, whatever accounts were selected meanwhile: limits are complete
    only when a policy is loaded whose table writes the six common keys and whose
    currency is the account's, and the cap then is the floor, or an active,
    unexpired override of the floor names it, or it scales with a net liquidation
    value that was read with current authority from the account selected now, in
    the base currency, at most fifteen minutes ago. *)
Theorem raised_cap_rests_on_current_evidence snap overrides reads scope now baseCurrency :
  let l := orderLimitsInForce FormatFloat snap overrides (readingAfter reads) scope now baseCurrency in
  lf_Complete l = true ->
  exists policy t, ps_policy snap = Some policy /\ co_OrderLimits policy = Some t /\ writesCommonKeys t /\
    (normCcy (co_BaseCurrency policy) = "" \/ baseInForce policy baseCurrency = normCcy (co_BaseCurrency policy)) /\
    (lf_CapBase l = lf_FloorBase l \/
     (lf_CapBound l = OrderCapBoundOverride /\ floorOverrideActive overrides now (lf_OverrideID l)) \/
     (exists nlv, lf_NLVBase l = Some nlv /\ currentNLVRead reads scope (baseInForce policy baseCurrency) now nlv)).
Proof.
  unfold orderLimitsInForce. destruct (ps_policy snap) as [policy|].
  2: { intros H. apply complete_iff in H as (t & [=] & _). }
  fold (baseInForce policy baseCurrency). set (base := baseInForce policy baseCurrency).
  set (r := currentOrderLimitsNLV _ _ _ _). set (e := EvaluateOrderLimits _ _ _ _ _ _).
  destruct (IndexHedgeMaxContracts (co_Mandate policy)) as [n why]. cbv zeta.
  destruct (_ && _ && _ && _) eqn:Hm; [discriminate|]. intros Hc. change (lf_Complete e = true) in Hc.
  change (lf_Complete e && (normCcy (co_BaseCurrency policy) <>s "") && (base <>s "") && (normCcy (co_BaseCurrency policy) <>s base) = false) in Hm.
  rewrite Hc in Hm. apply complete_iff in Hc as (t & Ht & Hk). exists policy, t. split; [done|]. split; [done|]. split; [done|].
  split.
  { destruct (normCcy (co_BaseCurrency policy) =s "") eqn:E1; [left; by bool_hyps|]. right.
    destruct (base =s "") eqn:E2; [|destruct (normCcy (co_BaseCurrency policy) =s base) eqn:E3; [by bool_hyps | discriminate Hm]].
    bool_hyps. unfold base, baseInForce in E2. case_if_in E2; bool_hyps; congruence. }
  assert (Hcap := evaluated_cap t base r (orderLimitsFloorOverride overrides now) "" ltac:(apply no_key_missing; by exists t)).
  cbv zeta in Hcap. rewrite <- Ht in Hcap. fold e in Hcap.
  destruct Hcap as [Hcap|[[Hb (o & Ho & Hid)]|[Hu Hn]]]; [by left | right; left | right; right].
  - split; [done|]. unfold orderLimitsFloorOverride in Ho. destruct overrides as [os|]; [|discriminate].
    apply override_step_sound in Ho as [[=]|(rec & Hin & Ha & Hctl & Hexp & ->)].
    exists os, rec. repeat (split; [done|]). symmetry. exact Hid.
  - exists (nlv_Base r). split; [exact Hn|]. by apply current_read.
Qed.
End RaisedCap.

(** ** Concrete limits *)

Definition limits_ex : ConstitutionOrderLimits :=
  mkLimits (Some (f_of_Z 12000)) (Some (f_of_Z 5)) (Some (f_of_Z 50000)) (Some 20) (Some false) (Some false) (Some 30) None None.
Definition policy_ex : riskPolicySnapshot := mkPolicySnapshot (Some (mkConstitution "eur" (Some limits_ex) None)) "".
Definition scope_ex : brokerStateScope := mkScope "U1" "live".
Definition now_ex : time := 63900000000 * Second.
Definition account_ex : AccountResult :=
  mkAccount "U1" "EUR" (f_of_Z 400000) (now_ex - 60 * Second)
    (Some (mkDataAuthority "U1" "live" AccountDataAvailable AccountDataFreshnessCurrent (Some (mkFields true true)))).
Definition text_ex (_ : float64) : string := "5".

Example cap_ex :
  lf_Summary (EvaluateOrderLimits text_ex (Some limits_ex) "EUR" (mkNLV (f_of_Z 400000) 0 "") None "") =
  "20,000 EUR (5% of NLV 400,000 EUR; [order_limits])".
Proof. vm_compute. reflexivity. Qed.

Example maturity_ex :
  (CheckBondMaturity (orderLimitsInForce text_ex policy_ex None emptyReading scope_ex now_ex "EUR") "2055-11-29" now_ex,
   FormatDate (utcDay now_ex)) = (Ok tt, "2025-11-29") /\
  is_ok (CheckBondMaturity (orderLimitsInForce text_ex policy_ex None emptyReading scope_ex now_ex "EUR") "2055-11-30" now_ex) = false.
Proof. vm_compute. split; reflexivity. Qed.

Lemma cap_in_force_is_the_formula_witness :
  let l := EvaluateOrderLimits text_ex (Some limits_ex) "EUR" (mkNLV (f_of_Z 400000) 0 "") None "" in
  (lf_CapBase l =f capFormula (f_of_Z 12000) (f_of_Z 5) (f_of_Z 50000) (f_of_Z 400000)) = true.
Proof.
  refine (proj2 (proj2 (proj2 (proj2 (proj2 (proj2 (cap_in_force_is_the_formula text_ex (Some limits_ex) "EUR" (mkNLV (f_of_Z 400000) 0 "") None ""
    ltac:(vm_compute; reflexivity)) limits_ex _ _ _ _ eq_refl eq_refl eq_refl eq_refl))))) eq_refl _); vm_compute; reflexivity.
Defined.

Lemma raised_cap_rests_on_current_evidence_witness :
  exists nlv, currentNLVRead [mkRead scope_ex now_ex (Some account_ex)] scope_ex "EUR" now_ex nlv.
Proof.
  destruct (raised_cap_rests_on_current_evidence text_ex policy_ex None [mkRead scope_ex now_ex (Some account_ex)] scope_ex now_ex "EUR"
    ltac:(vm_compute; reflexivity)) as (p & t & Hp & _ & _ & _ & H).
  assert (Hb : baseInForce p "EUR" = "EUR") by (injection Hp as <-; vm_compute; reflexivity). rewrite Hb in H.
  destruct H as [H|[[H _]|(nlv & _ & H)]]; [vm_compute in H; discriminate H | vm_compute in H; discriminate H | exact (ex_intro _ nlv H)].
Defined.
