(* ===== verification/Base64.v ===== *)
(** * encoding/base64's RawURLEncoding and strings.Split

    What the preview tokens use of Go's standard library, written out: the
    unpadded URL alphabet on byte strings, Go's lenient decoder (line breaks are
    skipped, the unused bits of a final group are not checked) and splitting at a
    separator byte.  Proved: decoding inverts encoding, and a text without the
    separator survives joining and splitting. *)

From stdpp Require Import base decidable list strings.
From Stdlib Require Import ZArith Lia Ascii String.
From S2P Require Import Prelude.

(** Six bits, most significant first. *)
Inductive sextet := Sx (b5 b4 b3 b2 b1 b0 : bool).

Definition url_alphabet : list ascii :=
  list_ascii_of_string "ABCDEFGHIJKLMNOPQRSTUVWXYZabcdefghijklmnopqrstuvwxyz0123456789-_".

Definition sextet_index (s : sextet) : nat :=
  let bit (b : bool) (n : nat) := if b then n else O in
  match s with
  | Sx b5 b4 b3 b2 b1 b0 => (bit b5 32 + bit b4 16 + bit b3 8 + bit b2 4 + bit b1 2 + bit b0 1)%nat
  end.

Definition url_char (s : sextet) : ascii := nth (sextet_index s) url_alphabet zero.

Definition all_sextets : list sextet :=
  let bools := [false; true] in
  b5 ← bools; b4 ← bools; b3 ← bools; b2 ← bools; b1 ← bools; b0 ← bools; [Sx b5 b4 b3 b2 b1 b0].

(** The decode map; [None] is a byte outside the alphabet. *)
Definition url_value (c : ascii) : option sextet :=
  List.find (fun s => Ascii.eqb (url_char s) c) all_sextets.

(** The bytes of a group, cut into sextets.  Coq's [Ascii] lists its bits from
    the least significant one. *)
Fixpoint b64_encode (s : string) : string :=
  match s with
  | EmptyString => ""
  | String (Ascii a0 a1 a2 a3 a4 a5 a6 a7) EmptyString =>
      String (url_char (Sx a7 a6 a5 a4 a3 a2)) (String (url_char (Sx a1 a0 false false false false)) "")
  | String (Ascii a0 a1 a2 a3 a4 a5 a6 a7) (String (Ascii b0 b1 b2 b3 b4 b5 b6 b7) EmptyString) =>
      String (url_char (Sx a7 a6 a5 a4 a3 a2)) (String (url_char (Sx a1 a0 b7 b6 b5 b4))
        (String (url_char (Sx b3 b2 b1 b0 false false)) ""))
  | String (Ascii a0 a1 a2 a3 a4 a5 a6 a7) (String (Ascii b0 b1 b2 b3 b4 b5 b6 b7)
      (String (Ascii c0 c1 c2 c3 c4 c5 c6 c7) rest)) =>
      String (url_char (Sx a7 a6 a5 a4 a3 a2)) (String (url_char (Sx a1 a0 b7 b6 b5 b4))
        (String (url_char (Sx b3 b2 b1 b0 c7 c6)) (String (url_char (Sx c5 c4 c3 c2 c1 c0)) (b64_encode rest))))
  end.

(** The sextets of a text; "\n" and "\r" are skipped. *)
Fixpoint b64_values (s : string) : option (list sextet) :=
  match s with
  | EmptyString => Some []
  | String c r =>
      match url_value c with
      | Some v => vs ← b64_values r; Some (v :: vs)
      | None => if Ascii.eqb c "010" || Ascii.eqb c "013" then b64_values r else None
      end
  end.

(** Groups of four; a single left-over sextet is an error. *)
Fixpoint b64_bytes (vs : list sextet) : option string :=
  match vs with
  | [] => Some ""
  | [_] => None
  | [Sx a7 a6 a5 a4 a3 a2; Sx a1 a0 _ _ _ _] => Some (String (Ascii a0 a1 a2 a3 a4 a5 a6 a7) "")
  | [Sx a7 a6 a5 a4 a3 a2; Sx a1 a0 b7 b6 b5 b4; Sx b3 b2 b1 b0 _ _] =>
      Some (String (Ascii a0 a1 a2 a3 a4 a5 a6 a7) (String (Ascii b0 b1 b2 b3 b4 b5 b6 b7) ""))
  | Sx a7 a6 a5 a4 a3 a2 :: Sx a1 a0 b7 b6 b5 b4 :: Sx b3 b2 b1 b0 c7 c6 :: Sx c5 c4 c3 c2 c1 c0 :: rest =>
      r ← b64_bytes rest;
      Some (String (Ascii a0 a1 a2 a3 a4 a5 a6 a7) (String (Ascii b0 b1 b2 b3 b4 b5 b6 b7)
             (String (Ascii c0 c1 c2 c3 c4 c5 c6 c7) r)))
  end.

Definition b64_decode (s : string) : option string := vs ← b64_values s; b64_bytes vs.

(** strings.Split at a one-byte separator. *)
Fixpoint split_at (sep : ascii) (s : string) : list string :=
  match s with
  | EmptyString => [""]
  | String c r =>
      if Ascii.eqb c sep then "" :: split_at sep r
      else match split_at sep r with
           | [] => [String c ""]
           | x :: l => String c x :: l
           end
  end.

(** ** Decoding inverts encoding *)

Lemma url_value_char s : url_value (url_char s) = Some s.
Proof. destruct s as [[] [] [] [] [] []]; reflexivity. Qed.

(** No letter of the alphabet is a separator or a space. *)
Lemma url_char_plain s : Ascii.eqb (url_char s) "." = false /\ is_space (url_char s) = false.
Proof. destruct s as [[] [] [] [] [] []]; split; reflexivity. Qed.

(** Induction three bytes at a time. *)
Lemma string_ind3 (P : string -> Prop) :
  P "" -> (forall a, P (String a "")) -> (forall a b, P (String a (String b ""))) ->
  (forall a b c s, P s -> P (String a (String b (String c s)))) -> forall s, P s.
Proof.
  intros H0 H1 H2 H3 s. remember (String.length s) as n eqn:Hn. revert s Hn.
  induction (lt_wf n) as [n _ IH]. intros [|a [|b [|c s]]] ->; try done.
  apply H3. apply (IH (String.length s)); [simpl; lia | done].
Qed.

Lemma b64_values_char v s : b64_values (String (url_char v) s) = (vs ← b64_values s; Some (v :: vs)).
Proof. cbn [b64_values]. by rewrite url_value_char. Qed.

Lemma b64_roundtrip s : b64_decode (b64_encode s) = Some s.
Proof.
  unfold b64_decode. induction s as [|[] |[] []|[] [] [] s IH] using string_ind3.
  1: reflexivity.
  1,2: cbn [b64_encode]; rewrite !b64_values_char; reflexivity.
  cbn [b64_encode]. rewrite !b64_values_char.
  destruct (b64_values (b64_encode s)) as [vs|]; cbn in IH |- *; [|done]. by rewrite IH.
Qed.

(** A string without a byte that satisfies [p]. *)
Fixpoint free_of (p : ascii -> bool) (s : string) : bool :=
  match s with
  | EmptyString => true
  | String c r => negb (p c) && free_of p r
  end.

Lemma free_of_app p a b : free_of p (String.append a b) = free_of p a && free_of p b.
Proof. induction a as [|c a IH]; simpl; [done|]. by rewrite IH, andb_assoc. Qed.

Lemma b64_free p s : (forall v, p (url_char v) = false) -> free_of p (b64_encode s) = true.
Proof.
  intros Hp. induction s as [|[] |[] []|[] [] [] s IH] using string_ind3; cbn [b64_encode free_of];
    rewrite ?Hp, ?IH; reflexivity.
Qed.

Lemma b64_no_dot s : free_of (fun c => Ascii.eqb c ".") (b64_encode s) = true.
Proof. apply b64_free. intros v. apply url_char_plain. Qed.

Lemma b64_no_space s : free_of is_space (b64_encode s) = true.
Proof. apply b64_free. intros v. apply url_char_plain. Qed.

(** ** Split inverts join *)

Lemma split_at_plain sep a : free_of (fun c => Ascii.eqb c sep) a = true -> split_at sep a = [a].
Proof.
  induction a as [|c a IH]; simpl; intros H; [done|]. bool_hyps. by rewrite H, IH.
Qed.

Lemma split_at_join sep a rest :
  free_of (fun c => Ascii.eqb c sep) a = true ->
  split_at sep (String.append a (String sep rest)) = a :: split_at sep rest.
Proof.
  induction a as [|c a IH]; simpl; intros H.
  - by rewrite Ascii.eqb_refl.
  - bool_hyps. by rewrite H, IH.
Qed.

(** Text without spaces is its own TrimSpace. *)
Lemma TrimSpace_plain s : free_of is_space s = true -> TrimSpace s = s.
Proof.
  intros H. unfold TrimSpace.
  assert (Hl : trim_left s = s) by (destruct s as [|c s]; simpl in *; [done|]; bool_hyps; by rewrite H).
  rewrite Hl. clear Hl. induction s as [|c s IH]; simpl in *; [done|]. bool_hyps.
  rewrite H. cbn [andb]. by rewrite IH.
Qed.
