(* ===== verification/PreviewToken.v ===== *)
(** * Preview tokens: signing, verification and redemption checks

    src/internal/daemon/order_preview.go (payload, replace target, signer),
    order_token_redemption.go (the gate checks of a place) and
    order_place_trading.go (the checks of a modify).  A token is
    "ibkrp4.<body>.<signature>" with the body the base64 of the JSON payload and
    the signature the base64 of the body's HMAC.  HMAC-SHA-256 and the JSON codec
    are parameters.  Proved: a minted token verifies exactly until it expires and
    only under the signer identity that minted it; what verification accepts is
    authenticated, current and for this gate; and a modify token is refused when
    the order it was previewed on has drifted. *)

From stdpp Require Import base decidable list strings.
From Stdlib Require Import ZArith Lia Ascii String SpecFloat.
From S2P Require Import Prelude OrderTypes OrderStatus OrderFold OrderKeys OrderHistory Protective Pairing WriteGate Base64.

Definition orderPreviewTokenVersion : Z := 4.
Definition orderPreviewTokenPrefix : string := "ibkrp4".
Definition orderPreviewTokenTTL : Z := 10 * Minute.

Definition TradingModeDisabled : string := "disabled".

(** rpc.TradingBlocker and the fields of rpc.TradingStatus the write path reads. *)
Record TradingBlocker := mkBlocker { tb_Code : string; tb_Message : string; tb_Action : string }.
Record TradingStatus := mkTradingStatus {
  ts_route : tradingRoute; ts_Blocked : bool; ts_Blockers : list TradingBlocker
}.

Record orderPreviewReplaceTarget := mkReplaceTarget {
  rp_EntryLink : option StockEntryLink; rp_FixedStopPrice : float64; rp_OrderRef : string;
  rp_ReservedOrderID : Z; rp_PermID : Z; rp_ClientID : Z; rp_Account : string; rp_Endpoint : string;
  rp_Mode : string; rp_Status : string; rp_LifecycleStatus : string; rp_ConID : Z; rp_Symbol : string;
  rp_SecType : string; rp_Exchange : string; rp_PrimaryExch : string; rp_Currency : string;
  rp_LocalSymbol : string; rp_TradingClass : string; rp_Expiry : string; rp_Strike : float64;
  rp_Right : string; rp_Multiplier : Z; rp_OrderType : string; rp_TIF : string; rp_TriggerMethod : Z;
  rp_Quantity : float64; rp_Filled : float64; rp_Remaining : float64; rp_LimitPrice : float64;
  rp_Trail : option OrderTrailSpec; rp_OutsideRTH : bool
}.
Definition zero_ReplaceTarget : orderPreviewReplaceTarget :=
  mkReplaceTarget None f0 "" 0 0 0 "" "" "" "" "" 0 "" "" "" "" "" "" "" "" f0 "" 0 "" "" 0 f0 f0 f0 f0 None false.

(** rpc.OrderPositionImpact; rpc.OrderWhatIfResult without its texts and margin. *)
Record OrderPositionImpact := mkImpact {
  pi_Before : float64; pi_After : float64; pi_Effect : string; pi_AverageCost : float64; pi_Multiplier : Z
}.
Record OrderWhatIfResult := mkWhatIf { wi_Status : string; wi_RequiredForSubmit : bool; wi_Available : bool }.

(** The payload, less the quote, notional and option-exit evidence and the
    exercised underlying, which no function below reads. *)
Record orderPreviewTokenPayload := mkPayload {
  tp_Version : Z; tp_AuthorityEpoch : string; tp_SignerGeneration : Z; tp_TokenID : string; tp_Scope : string;
  tp_IssuedAt : time; tp_ExpiresAt : time; tp_Mode : string; tp_Account : string; tp_Endpoint : string;
  tp_ClientID : Z; tp_Draft : OrderDraft; tp_Position : OrderPositionImpact; tp_PortfolioGeneration : Z;
  tp_PortfolioAccount : string; tp_PortfolioEvidenceAt : time; tp_BaseCurrency : string;
  tp_BaseCurrencyProvenance : string; tp_TradingControlGeneration : Z; tp_Notional : float64;
  tp_WhatIf : OrderWhatIfResult; tp_WhatIfStatus : string; tp_Replace : orderPreviewReplaceTarget;
  tp_ExerciseKey : string; tp_ExerciseRevision : string
}.
#[global] Instance payload_eta : Eta orderPreviewTokenPayload := fun r => mkPayload
  (tp_Version r) (tp_AuthorityEpoch r) (tp_SignerGeneration r) (tp_TokenID r) (tp_Scope r) (tp_IssuedAt r)
  (tp_ExpiresAt r) (tp_Mode r) (tp_Account r) (tp_Endpoint r) (tp_ClientID r) (tp_Draft r) (tp_Position r)
  (tp_PortfolioGeneration r) (tp_PortfolioAccount r) (tp_PortfolioEvidenceAt r) (tp_BaseCurrency r)
  (tp_BaseCurrencyProvenance r) (tp_TradingControlGeneration r) (tp_Notional r) (tp_WhatIf r)
  (tp_WhatIfStatus r) (tp_Replace r) (tp_ExerciseKey r) (tp_ExerciseRevision r).
#[global] Instance whatif_eta : Eta OrderWhatIfResult := fun r =>
  mkWhatIf (wi_Status r) (wi_RequiredForSubmit r) (wi_Available r).

(** The signer, without its clock (an argument of its operations) and its lock. *)
Record orderTokenSigner := mkSigner { sg_key : string; sg_authorityEpoch : string; sg_signerGeneration : Z }.

Definition plain {A} (parts : list string) : wres A := Err (mkErr "" (say parts)).

Definition signerConfigured (s : option orderTokenSigner) : bool :=
  match s with Some sg => sg_key sg <>s "" | None => false end.

(** bindAuthority *)
Definition bindAuthority (s : option orderTokenSigner) (authorityEpoch : string) (signerGeneration : Z)
    : wres orderTokenSigner :=
  match s with
  | Some sg =>
      if sg_key sg =s "" then plain ["order preview token signer is not configured"]
      else
        let authorityEpoch := TrimSpace authorityEpoch in
        if (authorityEpoch =s "") || (signerGeneration <? 1)
        then plain ["order preview token authority identity is invalid"]
        else Ok (mkSigner (sg_key sg) authorityEpoch signerGeneration)
  | None => plain ["order preview token signer is not configured"]
  end.

(** authorityIdentity *)
Definition authorityIdentity (s : option orderTokenSigner) : string * Z :=
  match s with Some sg => (sg_authorityEpoch sg, sg_signerGeneration sg) | None => ("", 0) end.

(** The switch over the supported scopes. *)
Definition supportedScope (scope : string) : bool :=
  one_of scope [OrderTokenScopePlace; OrderTokenScopeModify; OrderTokenScopeExercise; OrderTokenScopeStrategy;
                OrderTokenScopeProtectedAdd].

(** crypto/hmac with SHA-256, encoding/json on the payload, RFC 3339 text. *)
Class TokenEnv := {
  hmac_sha256 : string -> string -> string;
  payload_marshal : orderPreviewTokenPayload -> option string;
  payload_unmarshal : string -> option orderPreviewTokenPayload;
  payload_faithful : orderPreviewTokenPayload -> Prop;
  format_rfc3339 : time -> string
}.

(** What the tokens rely on: a payload JSON can represent (UTF-8 text, finite
    numbers, representable times) survives Marshal and Unmarshal. *)
Class TokenLaws `{TokenEnv} : Prop := {
  payload_roundtrip : forall p raw, payload_faithful p -> payload_marshal p = Some raw ->
    payload_unmarshal raw = Some p
}.

Section Signer.
Context `{TokenEnv}.

(** The payload mint signs, from the caller's. *)
Definition stampPayload (sg : orderTokenSigner) (now : time) (tokenID : string) (payload : orderPreviewTokenPayload)
    : orderPreviewTokenPayload :=
  payload <| tp_Version := orderPreviewTokenVersion |>
          <| tp_AuthorityEpoch := sg_authorityEpoch sg |> <| tp_SignerGeneration := sg_signerGeneration sg |>
          <| tp_TokenID := tokenID |>
          <| tp_Scope := if tp_Scope payload =s "" then OrderTokenScopePlace else tp_Scope payload |>
          <| tp_IssuedAt := now |>
          <| tp_ExpiresAt := if IsZero (tp_ExpiresAt payload) then now + orderPreviewTokenTTL
                             else tp_ExpiresAt payload |>.

(** The wire form of a signed payload. *)
Definition tokenText (sg : orderTokenSigner) (raw : string) : string :=
  let body := b64_encode raw in
  let sig := b64_encode (hmac_sha256 (sg_key sg) body) in
  String.append orderPreviewTokenPrefix (String "." (String.append body (String "." sig))).

(** mint; [rnd] is the outcome of randomTokenID. *)
Definition mint (s : option orderTokenSigner) (now : time) (rnd : wres string) (payload : orderPreviewTokenPayload)
    : wres (string * string * time) :=
  match s with
  | None => plain ["order preview token signer is not configured"]
  | Some sg =>
      guard? sg_key sg <>s "" else mkErr "" "order preview token signer is not configured";
      let? tokenID := if tp_TokenID payload =s "" then rnd else Ok (tp_TokenID payload) in
      guard? negb ((sg_authorityEpoch sg =s "") || (sg_signerGeneration sg <? 1))
        else mkErr "" "order preview token authority identity is unavailable";
      let payload := stampPayload sg now tokenID payload in
      guard? supportedScope (tp_Scope payload)
        else mkErr "" (say ["unsupported order preview token scope "; quoted (tp_Scope payload)]);
      match payload_marshal payload with
      | None => plain ["marshal order preview token"]
      | Some raw => Ok (tokenText sg raw, tokenID, tp_ExpiresAt payload)
      end
  end.

(** A token of an older client carries its WhatIf status beside the result. *)
Definition liftWhatIfStatus (payload : orderPreviewTokenPayload) : orderPreviewTokenPayload :=
  if (wi_Status (tp_WhatIf payload) =s "") && (tp_WhatIfStatus payload <>s "")
  then payload <| tp_WhatIf := (tp_WhatIf payload) <| wi_Status := tp_WhatIfStatus payload |> |>
  else payload.

(** The checks of verify on a decoded payload. *)
Definition checkPayload (sg : orderTokenSigner) (now : time) (payload : orderPreviewTokenPayload)
    : wres orderPreviewTokenPayload :=
  guard? tp_Version payload =? orderPreviewTokenVersion
    else mkErr "" (say ["unsupported order preview token version "; Itoa (tp_Version payload)]);
  guard? (tp_AuthorityEpoch payload =s sg_authorityEpoch sg) &&
         (tp_SignerGeneration payload =? sg_signerGeneration sg)
    else mkErr "" (say ["order preview token belongs to signer generation "; Itoa (tp_SignerGeneration payload);
                        " in a different authority epoch"]);
  guard? supportedScope (tp_Scope payload)
    else mkErr "" (say ["unsupported order preview token scope "; quoted (tp_Scope payload)]);
  let payload := liftWhatIfStatus payload in
  guard? IsZero (tp_ExpiresAt payload) || Before now (tp_ExpiresAt payload)
    else mkErr "" (say ["order preview token expired at "; format_rfc3339 (tp_ExpiresAt payload)]);
  Ok payload.

(** verify at the signer's clock [now]. *)
Definition verify (s : option orderTokenSigner) (now : time) (token : string) : wres orderPreviewTokenPayload :=
  match s with
  | None => plain ["order preview token signer is not configured"]
  | Some sg =>
      guard? sg_key sg <>s "" else mkErr "" "order preview token signer is not configured";
      match split_at "." token with
      | [prefix; body; sig] =>
          guard? prefix =s orderPreviewTokenPrefix else mkErr "" "invalid order preview token shape";
          match b64_decode sig with
          | None => plain ["decode order preview token signature"]
          | Some gotSig =>
              guard? gotSig =s hmac_sha256 (sg_key sg) body else mkErr "" "invalid order preview token signature";
              match b64_decode body with
              | None => plain ["decode order preview token payload"]
              | Some raw =>
                  match payload_unmarshal raw with
                  | None => plain ["decode order preview token payload"]
                  | Some payload => checkPayload sg now payload
                  end
              end
          end
      | _ => plain ["invalid order preview token shape"]
      end
  end.

(** ** Redemption checks *)

(** firstTradingBlockerMessage *)
Definition firstTradingBlockerMessage (blockers : list TradingBlocker) : string :=
  match blockers with [] => "trading gate is blocked" | b :: _ => tb_Message b end.

(** verifyPreviewTokenForCurrentGate; [journal]: an order journal is attached. *)
Definition verifyPreviewTokenForCurrentGate (s : option orderTokenSigner) (now : time) (status : TradingStatus)
    (journal : bool) (token : string) : wres orderPreviewTokenPayload :=
  let token := TrimSpace token in
  if token =s "" then tradingDisabled ["preview token is required"]
  else
    match s with
    | None => tradingDisabled ["order preview token signer is unavailable"]
    | Some _ =>
        match verify s now token with
        | Err e => tradingDisabled [err_msg e]
        | Ok payload =>
            let rt := ts_route status in
            if rt_Mode rt =s TradingModeDisabled
            then tradingDisabled ["set [trading].mode to paper or live before confirming order preview token"]
            else if ts_Blocked status then tradingDisabled [firstTradingBlockerMessage (ts_Blockers status)]
            else if (tp_Mode payload <>s rt_Mode rt) || (tp_Account payload <>s rt_Account rt) ||
                    (tp_Endpoint payload <>s rt_Endpoint rt) || negb (tp_ClientID payload =? rt_ClientID rt)
            then tradingDisabled ["preview token was minted for "; tp_Mode payload; "/"; tp_Endpoint payload; " client ";
                   Itoa (tp_ClientID payload); " account "; tp_Account payload; ", current gate is "; rt_Mode rt; "/";
                   rt_Endpoint rt; " client "; Itoa (rt_ClientID rt); " account "; rt_Account rt]
            else if negb journal then tradingDisabled ["order journal is unavailable"]
            else Ok payload
        end
    end.

(** requireSubmitEligiblePreviewToken *)
Definition requireSubmitEligiblePreviewToken (payload : orderPreviewTokenPayload) : wres unit :=
  if wi_Status (tp_WhatIf payload) <>s OrderWhatIfStatusAccepted
  then tradingDisabled ["preview token is not backed by an accepted broker WhatIf result"]
  else if wi_RequiredForSubmit (tp_WhatIf payload)
  then tradingDisabled ["accepted broker WhatIf result still requires a submit gate"]
  else Ok tt.

(** validateProtectedAddScope *)
Definition validateProtectedAddScope (scope : string) (d : OrderDraft) : wres unit :=
  if scope <>s OrderTokenScopeProtectedAdd then
    if present (dr_AttachedStop d) || present (dr_EntryLink d) || (dr_FixedStopPrice d <>f f0)
    then bad "attached stop requires a protected Add token" else Ok tt
  else
    match dr_AttachedStop d with
    | None => bad "invalid protected stock Add terms"
    | Some stop =>
        if negb (present (dr_Add d)) || (cp_SecType (dr_Contract d) <>s "STK") || (cp_ConID (dr_Contract d) <=? 0) ||
           (dr_Action d <>s "BUY") || (dr_OrderType d <>s "LMT") || (dr_TIF d <>s "DAY") || dr_OutsideRTH d ||
           present (dr_Trail d) || present (dr_StrategyGroup d) || present (dr_EntryLink d) ||
           (dr_FixedStopPrice d <>f f0) || (dr_Quantity d <? 1) || (1000000 <? dr_Quantity d) ||
           negb (positiveFinite (dr_LimitPrice d)) || negb (positiveFinite (as_Price stop)) ||
           (as_Price stop >=f dr_LimitPrice d)
        then bad "invalid protected stock Add terms" else Ok tt
    end.

(** verifyPreviewTokenForPlace *)
Definition verifyPreviewTokenForPlace (s : option orderTokenSigner) (now : time) (status : TradingStatus)
    (journal : bool) (token : string) : wres orderPreviewTokenPayload :=
  let? payload := verifyPreviewTokenForCurrentGate s now status journal token in
  if (tp_Scope payload <>s OrderTokenScopePlace) && (tp_Scope payload <>s OrderTokenScopeStrategy) &&
     (tp_Scope payload <>s OrderTokenScopeProtectedAdd)
  then tradingDisabled ["preview token scope "; quoted (tp_Scope payload); " cannot be used for place"]
  else
    let? _ := validateProtectedAddScope (tp_Scope payload) (tp_Draft payload) in
    let? _ := requireSubmitEligiblePreviewToken payload in
    Ok payload.
End Signer.

(** ** The order a modify was previewed on *)

(** replaceTargetFromView *)
Definition replaceTargetFromView (view : OrderView) : orderPreviewReplaceTarget :=
  if (v_OrderRef view =s "") && (v_ReservedOrderID view =? 0) && (v_PermID view =? 0) then zero_ReplaceTarget
  else mkReplaceTarget (v_EntryLink view) (v_FixedStopPrice view) (v_OrderRef view) (v_ReservedOrderID view)
    (v_PermID view) (v_ClientID view) (v_Account view) (v_Endpoint view) (v_Mode view) (v_Status view)
    (v_LifecycleStatus view) (v_ConID view) (v_Symbol view) (v_SecType view) (v_Exchange view)
    (v_PrimaryExch view) (v_Currency view) (v_LocalSymbol view) (v_TradingClass view) (v_Expiry view)
    (v_Strike view) (v_Right view) (v_Multiplier view) (v_OrderType view) (v_TIF view) (v_TriggerMethod view)
    (v_Quantity view) (v_Filled view) (v_Remaining view) (v_LimitPrice view) (v_Trail view) (v_OutsideRTH view).

(** sameOrderFloat *)
Definition sameOrderFloat (a b : float64) : bool :=
  if a >f b then fsub a b <f f_1e9 else fsub b a <f f_1e9.

Definition sameOrderFloatPtr (a b : option float64) : bool :=
  match a, b with
  | Some x, Some y => sameOrderFloat x y
  | None, None => true
  | _, _ => false
  end.

Definition sameOrderTrail (a b : option OrderTrailSpec) : bool :=
  match a, b with
  | Some x, Some y =>
      sameOrderFloat (t_InitialStopPrice x) (t_InitialStopPrice y) &&
      sameOrderFloatPtr (t_TrailingPercent x) (t_TrailingPercent y) &&
      sameOrderFloatPtr (t_TrailingAmount x) (t_TrailingAmount y) &&
      sameOrderFloatPtr (t_LimitOffset x) (t_LimitOffset y)
  | None, None => true
  | _, _ => false
  end.

Definition equalText (a b : string) : bool := EqualFold (TrimSpace a) (TrimSpace b).

(** modifyTargetContractIdentityMatches *)
Definition modifyTargetContractIdentityMatches (target : orderPreviewReplaceTarget) (view : OrderView) : bool :=
  equalText (rp_Symbol target) (v_Symbol view) && equalText (rp_SecType target) (v_SecType view) &&
  equalText (rp_Exchange target) (v_Exchange view) && equalText (rp_PrimaryExch target) (v_PrimaryExch view) &&
  equalText (rp_Currency target) (v_Currency view) && equalText (rp_LocalSymbol target) (v_LocalSymbol view) &&
  equalText (rp_TradingClass target) (v_TradingClass view) &&
  (TrimSpace (rp_Expiry target) =s TrimSpace (v_Expiry view)) &&
  sameOrderFloat (rp_Strike target) (v_Strike view) && equalText (rp_Right target) (v_Right view) &&
  (rp_Multiplier target =? v_Multiplier view).

(** validateModifyPreviewTarget *)
Definition validateModifyPreviewTarget (target : orderPreviewReplaceTarget) (view : OrderView) : wres unit :=
  guard? negb (negb (stockEntryLinksEqual (rp_EntryLink target) (v_EntryLink view)) ||
               (rp_FixedStopPrice target <>f v_FixedStopPrice view) ||
               negb (rp_TriggerMethod target =? v_TriggerMethod view))
    else mkErr "" "modify preview target protection terms changed";
  guard? negb (rp_ReservedOrderID target <=? 0)
    else mkErr "" "modify preview token is not bound to a broker order ID";
  guard? rp_ReservedOrderID target =? v_ReservedOrderID view
    else mkErr "" (say ["modify preview token targets broker order ID "; Itoa (rp_ReservedOrderID target);
                        ", current order is "; Itoa (v_ReservedOrderID view)]);
  guard? negb ((rp_ConID target <=? 0) || (v_ConID view <=? 0) || negb (rp_ConID target =? v_ConID view))
    else mkErr "" (say ["modify preview token contract identity changed from ConID "; Itoa (rp_ConID target);
                        " to "; Itoa (v_ConID view)]);
  guard? modifyTargetContractIdentityMatches target view
    else mkErr "" "modify preview token contract identity changed; preview the replacement again";
  guard? negb ((rp_OrderRef target <>s "") && (v_OrderRef view <>s "") && (rp_OrderRef target <>s v_OrderRef view))
    else mkErr "" (say ["modify preview token targets order ref "; rp_OrderRef target; ", current order is ";
                        v_OrderRef view]);
  guard? negb (negb (rp_PermID target =? 0) && negb (v_PermID view =? 0) && negb (rp_PermID target =? v_PermID view))
    else mkErr "" (say ["modify preview token targets permanent ID "; Itoa (rp_PermID target); ", current order is ";
                        Itoa (v_PermID view)]);
  guard? negb (negb (rp_ClientID target =? 0) && negb (v_ClientID view =? 0) &&
               negb (rp_ClientID target =? v_ClientID view))
    else mkErr "" (say ["modify preview token targets client ID "; Itoa (rp_ClientID target); ", current order is ";
                        Itoa (v_ClientID view)]);
  guard? EqualFold (rp_Account target) (v_Account view) && (rp_Endpoint target =s v_Endpoint view) &&
         EqualFold (rp_Mode target) (v_Mode view)
    else mkErr "" "modify preview token target gate no longer matches current order";
  guard? (rp_Status target =s v_Status view) && (rp_LifecycleStatus target =s v_LifecycleStatus view)
    else mkErr "" (say ["modify preview token target status changed from "; rp_Status target; "/";
                        rp_LifecycleStatus target; " to "; v_Status view; "/"; v_LifecycleStatus view]);
  guard? negb (routingDiffers (rp_OrderType target) (v_OrderType view))
    else mkErr "" (say ["modify preview token target order type changed from "; rp_OrderType target; " to ";
                        v_OrderType view]);
  guard? negb (routingDiffers (rp_TIF target) (v_TIF view))
    else mkErr "" (say ["modify preview token target time-in-force changed from "; rp_TIF target; " to "; v_TIF view]);
  guard? sameOrderFloat (rp_Quantity target) (v_Quantity view) && sameOrderFloat (rp_Filled target) (v_Filled view) &&
         sameOrderFloat (rp_Remaining target) (v_Remaining view) &&
         sameOrderFloat (rp_LimitPrice target) (v_LimitPrice view)
    else mkErr "" "modify preview token target quantities/prices changed; preview the replacement again";
  guard? sameOrderTrail (rp_Trail target) (v_Trail view)
    else mkErr "" "modify preview token target trail fields changed; preview the replacement again";
  guard? Bool.eqb (rp_OutsideRTH target) (v_OutsideRTH view)
    else mkErr "" "modify preview token target outside_rth changed; preview the replacement again";
  Ok tt.

(** verifyPreviewTokenForModify *)
Definition verifyPreviewTokenForModify `{TokenEnv} (s : option orderTokenSigner) (now : time) (status : TradingStatus)
    (journal : bool) (token : string) (view : OrderView) : wres orderPreviewTokenPayload :=
  let? payload := verifyPreviewTokenForCurrentGate s now status journal token in
  if tp_Scope payload <>s OrderTokenScopeModify
  then tradingDisabled ["preview token scope "; quoted (tp_Scope payload); " cannot be used for modify"]
  else
    let? _ := requireSubmitEligiblePreviewToken payload in
    match validateModifyPreviewTarget (tp_Replace payload) view with
    | Err e => tradingDisabled [err_msg e]
    | Ok _ => Ok payload
    end.

(** ** Minting and verifying *)

Section Tokens.
Context `{!TokenEnv}.

Lemma tokenText_split sg raw :
  split_at "." (tokenText sg raw) =
  [orderPreviewTokenPrefix; b64_encode raw; b64_encode (hmac_sha256 (sg_key sg) (b64_encode raw))].
Proof.
  unfold tokenText. cbv zeta. rewrite split_at_join by reflexivity.
  rewrite split_at_join by apply b64_no_dot. by rewrite split_at_plain by apply b64_no_dot.
Qed.

Lemma tokenText_trim sg raw : TrimSpace (tokenText sg raw) = tokenText sg raw.
Proof.
  apply TrimSpace_plain. unfold tokenText. cbv zeta. rewrite free_of_app. cbn [free_of].
  rewrite free_of_app. cbn [free_of]. by rewrite !b64_no_space.
Qed.

Lemma mint_ok sg now rnd p tok id exp :
  mint (Some sg) now rnd p = Ok (tok, id, exp) ->
  exists raw, payload_marshal (stampPayload sg now id p) = Some raw /\ tok = tokenText sg raw /\
    exp = tp_ExpiresAt (stampPayload sg now id p) /\
    supportedScope (tp_Scope (stampPayload sg now id p)) = true /\ sg_key sg <> "" /\
    sg_authorityEpoch sg <> "" /\ 1 <= sg_signerGeneration sg.
Proof.
  unfold mint. intros Hm. apply guard_ok in Hm as [Hk Hm]. apply rbind_ok in Hm as (tid & _ & Hm).
  apply guard_ok in Hm as [Hid Hm]. cbv zeta in Hm. apply guard_ok in Hm as [Hs Hm].
  destruct (payload_marshal _) as [raw|] eqn:Hraw; [|done]. injection Hm as <- <- <-.
  bool_hyps. exists raw. split_and!; try done.
Qed.

(** A token's text verifies to the checks of its payload. *)
Lemma verify_tokenText `{!TokenLaws} sg sg' now p raw :
  payload_faithful p -> payload_marshal p = Some raw -> sg_key sg <> "" -> sg_key sg' = sg_key sg ->
  verify (Some sg') now (tokenText sg raw) = checkPayload sg' now p.
Proof.
  intros Hf Hm Hk Hkey. unfold verify. rewrite Hkey. apply String.eqb_neq in Hk. rewrite Hk. cbn [negb].
  rewrite tokenText_split, eqb_s_refl, b64_roundtrip, eqb_s_refl, b64_roundtrip.
  by rewrite (payload_roundtrip p raw).
Qed.

(** What verification accepted: the body carries the signer's MAC, and the
    payload is the one it encodes, current and unexpired. *)
Record authenticated (sg : orderTokenSigner) (now : time) (token : string) (payload : orderPreviewTokenPayload)
    (body sig raw : string) (signed : orderPreviewTokenPayload) : Prop := {
  au_shape : split_at "." token = [orderPreviewTokenPrefix; body; sig];
  au_mac : b64_decode sig = Some (hmac_sha256 (sg_key sg) body);
  au_key : sg_key sg <> "";
  au_body : b64_decode body = Some raw;
  au_payload : payload_unmarshal raw = Some signed;
  au_lift : payload = liftWhatIfStatus signed;
  au_version : tp_Version signed = orderPreviewTokenVersion;
  au_epoch : tp_AuthorityEpoch signed = sg_authorityEpoch sg;
  au_generation : tp_SignerGeneration signed = sg_signerGeneration sg;
  au_scope : supportedScope (tp_Scope signed) = true;
  au_fresh : tp_ExpiresAt signed = 0 \/ now < tp_ExpiresAt signed
}.

Lemma liftWhatIfStatus_expiry p : tp_ExpiresAt (liftWhatIfStatus p) = tp_ExpiresAt p.
Proof. unfold liftWhatIfStatus. by destruct (_ && _). Qed.

Lemma liftWhatIfStatus_scope p : tp_Scope (liftWhatIfStatus p) = tp_Scope p.
Proof. unfold liftWhatIfStatus. by destruct (_ && _). Qed.

Lemma verify_ok s now token payload :
  verify s now token = Ok payload ->
  exists sg body sig raw signed, s = Some sg /\ authenticated sg now token payload body sig raw signed.
Proof.
  unfold verify. intros Hv. destruct s as [sg|]; [|done]. apply guard_ok in Hv as [Hk Hv].
  destruct (split_at "." token) as [|pre [|body [|sig [|]]]] eqn:Hsp; try done.
  apply guard_ok in Hv as [Hpre Hv]. destruct (b64_decode sig) as [got|] eqn:Hsig; [|done].
  apply guard_ok in Hv as [Hmac Hv]. destruct (b64_decode body) as [raw|] eqn:Hb; [|done].
  destruct (payload_unmarshal raw) as [signed|] eqn:Hu; [|done].
  unfold checkPayload in Hv. apply guard_ok in Hv as [Hver Hv]. apply guard_ok in Hv as [Hid Hv].
  apply guard_ok in Hv as [Hsc Hv]. cbv zeta in Hv. apply guard_ok in Hv as [Hexp Hv]. injection Hv as <-.
  rewrite liftWhatIfStatus_expiry in Hexp. bool_hyps.
  exists sg, body, sig, raw, signed. split; [done|]. split; try congruence.
  apply orb_true_iff in Hexp as [Hz | Hb']; [left | right].
  - unfold IsZero in Hz. by bool_hyps.
  - unfold Before in Hb'. by bool_hyps.
Qed.

(** A minted token round-trips, and only while it should.  For a payload
    JSON can represent, the text [mint] returns carries no byte the gate trims,
    and any signer with the same key answers [verify] on it exactly so: under
    the same authority epoch and signer generation, before the expiry, the
    stamped payload; from the expiry on (ten minutes after minting when the
    caller set none), the expired error; under any other identity (a rotated or
    restored authority), the foreign-epoch error at every time. *)
Theorem minted_token_verifies_until_expiry `{!TokenLaws} sg sg' now now' rnd p tok id exp :
  0 <= now -> mint (Some sg) now rnd p = Ok (tok, id, exp) -> payload_faithful (stampPayload sg now id p) ->
  sg_key sg' = sg_key sg ->
  let signed := stampPayload sg now id p in
  exp = (if IsZero (tp_ExpiresAt p) then now + 10 * Minute else tp_ExpiresAt p) /\
  TrimSpace tok = tok /\
  verify (Some sg') now' tok =
    if (sg_authorityEpoch sg =s sg_authorityEpoch sg') && (sg_signerGeneration sg =? sg_signerGeneration sg')
    then if now' <? exp then Ok (liftWhatIfStatus signed)
         else plain ["order preview token expired at "; format_rfc3339 exp]
    else plain ["order preview token belongs to signer generation "; Itoa (sg_signerGeneration sg);
                " in a different authority epoch"].
Proof.
  intros Hnow Hm Hf Hkey signed. apply mint_ok in Hm as (raw & Hraw & -> & -> & Hsc & Hk & _).
  split; [reflexivity|]. split; [apply tokenText_trim|].
  rewrite (verify_tokenText sg sg' now' signed raw) by done. unfold checkPayload.
  change (tp_Version signed) with orderPreviewTokenVersion. rewrite Z.eqb_refl.
  change (tp_AuthorityEpoch signed) with (sg_authorityEpoch sg).
  change (tp_SignerGeneration signed) with (sg_signerGeneration sg).
  destruct (_ && _); [|done]. unfold signed. rewrite Hsc. cbv zeta. rewrite liftWhatIfStatus_expiry.
  assert (Hz : IsZero (tp_ExpiresAt (stampPayload sg now id p)) = false).
  { change (tp_ExpiresAt _) with (if IsZero (tp_ExpiresAt p) then now + orderPreviewTokenTTL else tp_ExpiresAt p).
    destruct (IsZero (tp_ExpiresAt p)) eqn:E; [|done]. apply Z.eqb_neq.
    unfold orderPreviewTokenTTL, Minute, Second. lia. }
  rewrite Hz. cbn [orb]. unfold Before. by destruct (now' <? _).
Qed.

(** ** Redemption *)

Lemma gate_token_ok s now status journal token payload :
  verifyPreviewTokenForCurrentGate s now status journal token = Ok payload ->
  verify s now (TrimSpace token) = Ok payload /\ TrimSpace token <> "" /\ journal = true /\
  rt_Mode (ts_route status) <> TradingModeDisabled /\ ts_Blocked status = false /\
  tp_Mode payload = rt_Mode (ts_route status) /\ tp_Account payload = rt_Account (ts_route status) /\
  tp_Endpoint payload = rt_Endpoint (ts_route status) /\ tp_ClientID payload = rt_ClientID (ts_route status).
Proof.
  unfold verifyPreviewTokenForCurrentGate. cbv zeta. intros Hv.
  destruct (TrimSpace token =s "") eqn:Ht; [done|]. destruct s as [sg|]; [|done].
  destruct (verify (Some sg) now (TrimSpace token)) as [p|]; [|done].
  destruct (rt_Mode _ =s TradingModeDisabled) eqn:Hmode; [done|]. destruct (ts_Blocked status); [done|].
  destruct (_ || _) eqn:Hg in Hv; [done|]. destruct journal; [|done]. injection Hv as <-. bool_hyps. done.
Qed.

Lemma submit_eligible_ok payload :
  requireSubmitEligiblePreviewToken payload = Ok tt ->
  wi_Status (tp_WhatIf payload) = OrderWhatIfStatusAccepted /\ wi_RequiredForSubmit (tp_WhatIf payload) = false.
Proof.
  unfold requireSubmitEligiblePreviewToken. intros Hs. destruct (wi_Status _ =s _) eqn:E; [|done]. cbn [negb] in Hs.
  destruct (wi_RequiredForSubmit _); [done|]. bool_hyps. done.
Qed.

Lemma place_token_ok s now status journal token payload :
  verifyPreviewTokenForPlace s now status journal token = Ok payload ->
  verifyPreviewTokenForCurrentGate s now status journal token = Ok payload /\
  In (tp_Scope payload) [OrderTokenScopePlace; OrderTokenScopeStrategy; OrderTokenScopeProtectedAdd] /\
  validateProtectedAddScope (tp_Scope payload) (tp_Draft payload) = Ok tt /\
  requireSubmitEligiblePreviewToken payload = Ok tt.
Proof.
  unfold verifyPreviewTokenForPlace. intros Hv. apply rbind_ok in Hv as (p & Hg & Hv).
  destruct (_ && _) eqn:Hs in Hv; [done|]. apply rbind_ok in Hv as ([] & Hadd & Hv).
  apply rbind_ok in Hv as ([] & Hel & [= <-]). split_and!; try done.
  apply andb_false_iff in Hs as [Hs|Hs]; [apply andb_false_iff in Hs as [Hs|Hs]|]; bool_hyps; rewrite Hs; simpl; auto.
Qed.

(** Terms that only a protected Add may carry, and the shape it must have. *)
Definition addTermsMatchScope (payload : orderPreviewTokenPayload) : Prop :=
  let d := tp_Draft payload in
  if decide (tp_Scope payload = OrderTokenScopeProtectedAdd) then
    exists stop, dr_AttachedStop d = Some stop /\ dr_Action d = "BUY" /\ cp_SecType (dr_Contract d) = "STK" /\
      dr_OrderType d = "LMT" /\ 1 <= dr_Quantity d <= 1000000 /\
      (dr_LimitPrice d <=f as_Price stop) = false
  else dr_AttachedStop d = None /\ dr_EntryLink d = None.

Lemma add_scope_ok payload :
  validateProtectedAddScope (tp_Scope payload) (tp_Draft payload) = Ok tt -> addTermsMatchScope payload.
Proof.
  unfold validateProtectedAddScope, addTermsMatchScope. cbv zeta. intros Hv.
  destruct (decide _) as [Hs | Hn].
  - rewrite Hs, eqb_s_refl in Hv. cbn [negb] in Hv.
    destruct (dr_AttachedStop _) as [stop|]; [|done]. exists stop.
    destruct (_ || _) eqn:E in Hv; [done|]. bool_hyps. split_and!; done.
  - apply String.eqb_neq in Hn. rewrite Hn in Hv. cbn [negb] in Hv. destruct (_ || _) eqn:E in Hv; [done|].
    bool_hyps. destruct (dr_AttachedStop _), (dr_EntryLink _); done.
Qed.

(** C26.  What a place may redeem.  A token the place path accepts carries, in
    three dot-separated parts, a body whose HMAC under the daemon's own key is
    the presented signature; the payload is the one that body encodes, of the
    current version, epoch and signer generation, unexpired at the clock of the
    check; it was minted for exactly the mode, account, endpoint and client the
    gate shows now, which is neither disabled nor blocked; its scope is one of
    the three placing scopes, with an attached stop exactly when the scope is a
    protected Add (a long stock limit whose stop lies below the limit); and the
    broker accepted its WhatIf without a submit gate left. *)
Theorem redeemed_place_token_is_authentic s now status journal token payload :
  verifyPreviewTokenForPlace s now status journal token = Ok payload ->
  (exists sg body sig raw signed, s = Some sg /\
     authenticated sg now (TrimSpace token) payload body sig raw signed) /\
  tp_Mode payload = rt_Mode (ts_route status) /\ tp_Account payload = rt_Account (ts_route status) /\
  tp_Endpoint payload = rt_Endpoint (ts_route status) /\ tp_ClientID payload = rt_ClientID (ts_route status) /\
  rt_Mode (ts_route status) <> TradingModeDisabled /\ ts_Blocked status = false /\
  In (tp_Scope payload) [OrderTokenScopePlace; OrderTokenScopeStrategy; OrderTokenScopeProtectedAdd] /\
  addTermsMatchScope payload /\
  wi_Status (tp_WhatIf payload) = OrderWhatIfStatusAccepted /\ wi_RequiredForSubmit (tp_WhatIf payload) = false.
Proof.
  intros Hv. apply place_token_ok in Hv as (Hg & Hs & Hadd & Hel).
  apply gate_token_ok in Hg as (Hv & _ & _ & ? & ? & ? & ? & ? & ?). apply verify_ok in Hv.
  apply submit_eligible_ok in Hel as [? ?]. apply add_scope_ok in Hadd. done.
Qed.
End Tokens.

(** ** A modify token and its order *)

Definition finite (x : float64) : bool := negb (IsNaN x) && negb (IsInf x).

Lemma fsub_self x : finite x = true -> exists s, fsub x x = S754_zero s.
Proof.
  destruct x as [s|s| |s m e]; try done; intros _; [by destruct s; eexists|].
  unfold fsub, SFsub. cbv zeta. rewrite Z.min_id. exists false.
  by rewrite Z.sub_diag.
Qed.

Lemma sameOrderFloat_refl x : finite x = true -> sameOrderFloat x x = true.
Proof.
  intros Hx. unfold sameOrderFloat. destruct (fsub_self x Hx) as [s ->].
  destruct (x <f x), s; reflexivity.
Qed.

Lemma sameOrderFloatPtr_refl p : match p with Some x => finite x | None => true end = true -> sameOrderFloatPtr p p = true.
Proof. destruct p; [apply sameOrderFloat_refl | done]. Qed.

Definition trailFinite (t : option OrderTrailSpec) : bool :=
  let opt (p : option float64) := match p with Some x => finite x | None => true end in
  match t with
  | Some t => finite (t_InitialStopPrice t) && opt (t_TrailingPercent t) && opt (t_TrailingAmount t) &&
              opt (t_LimitOffset t)
  | None => true
  end.

Definition rowFinite (v : OrderView) : bool :=
  finite (v_FixedStopPrice v) && finite (v_Strike v) && finite (v_Quantity v) && finite (v_Filled v) &&
  finite (v_Remaining v) && finite (v_LimitPrice v) && trailFinite (v_Trail v).

Lemma feqb_refl x : IsNaN x = false -> (x =f x) = true.
Proof.
  destruct x as [[]|[]| |[] m e]; try done; intros _; unfold feqb, SFeqb, SFcompare;
    by rewrite Z.compare_refl, Pos.compare_cont_refl.
Qed.

Lemma routingDiffers_refl a : routingDiffers a a = false.
Proof. unfold routingDiffers. rewrite EqualFold_refl. by rewrite andb_false_r. Qed.

Lemma links_refl l : stockEntryLinksEqual l l = true.
Proof. destruct l as [l|]; [|done]. by apply StockEntryLink_eqb_eq. Qed.

Lemma trail_refl t : trailFinite t = true -> sameOrderTrail t t = true.
Proof.
  destruct t as [t|]; [|done]. unfold trailFinite. cbv zeta. intros Ht. bool_hyps. cbn [sameOrderTrail].
  by rewrite sameOrderFloat_refl, !sameOrderFloatPtr_refl.
Qed.

(** A row that has not changed since its preview passes. *)
Lemma unchanged_target_validates view :
  0 < v_ReservedOrderID view -> 0 < v_ConID view -> rowFinite view = true ->
  validateModifyPreviewTarget (replaceTargetFromView view) view = Ok tt.
Proof.
  intros Hid Hcon Hfin. unfold rowFinite in Hfin. bool_hyps. unfold replaceTargetFromView.
  replace (v_ReservedOrderID view =? 0) with false by (symmetry; apply Z.eqb_neq; lia).
  rewrite andb_false_r. cbn [andb]. unfold validateModifyPreviewTarget, modifyTargetContractIdentityMatches, equalText.
  cbn [rp_EntryLink rp_FixedStopPrice rp_OrderRef rp_ReservedOrderID rp_PermID rp_ClientID rp_Account rp_Endpoint
       rp_Mode rp_Status rp_LifecycleStatus rp_ConID rp_Symbol rp_SecType rp_Exchange rp_PrimaryExch rp_Currency
       rp_LocalSymbol rp_TradingClass rp_Expiry rp_Strike rp_Right rp_Multiplier rp_OrderType rp_TIF
       rp_TriggerMethod rp_Quantity rp_Filled rp_Remaining rp_LimitPrice rp_Trail rp_OutsideRTH].
  rewrite !EqualFold_refl, !eqb_s_refl, !Z.eqb_refl, !routingDiffers_refl, links_refl, Bool.eqb_reflx.
  rewrite !sameOrderFloat_refl, trail_refl by done.
  assert (Hn : IsNaN (v_FixedStopPrice view) = false) by (unfold finite in *; by bool_hyps).
  rewrite feqb_refl by done.
  replace (v_ReservedOrderID view <=? 0) with false by (symmetry; apply Z.leb_gt; lia).
  replace (v_ConID view <=? 0) with false by (symmetry; apply Z.leb_gt; lia).
  cbn [negb orb andb]. rewrite !andb_false_r. reflexivity.
Qed.

(** The row is still the order that was previewed: identity, route, protection
    terms, status, quantities, prices. *)
Definition sameOrderAsPreviewed (was now : OrderView) : Prop :=
  v_ReservedOrderID now = v_ReservedOrderID was /\ 0 < v_ReservedOrderID was /\
  v_ConID now = v_ConID was /\ 0 < v_ConID was /\
  v_EntryLink now = v_EntryLink was /\ v_TriggerMethod now = v_TriggerMethod was /\
  (v_OrderRef was <> "" -> v_OrderRef now <> "" -> v_OrderRef now = v_OrderRef was) /\
  (v_PermID was <> 0 -> v_PermID now <> 0 -> v_PermID now = v_PermID was) /\
  (v_ClientID was <> 0 -> v_ClientID now <> 0 -> v_ClientID now = v_ClientID was) /\
  EqualFold (v_Account was) (v_Account now) = true /\ v_Endpoint now = v_Endpoint was /\
  EqualFold (v_Mode was) (v_Mode now) = true /\
  equalText (v_Symbol was) (v_Symbol now) = true /\ equalText (v_SecType was) (v_SecType now) = true /\
  equalText (v_Currency was) (v_Currency now) = true /\ TrimSpace (v_Expiry was) = TrimSpace (v_Expiry now) /\
  sameOrderFloat (v_Strike was) (v_Strike now) = true /\ equalText (v_Right was) (v_Right now) = true /\
  v_Multiplier now = v_Multiplier was /\
  v_Status now = v_Status was /\ v_LifecycleStatus now = v_LifecycleStatus was /\
  sameOrderFloat (v_Quantity was) (v_Quantity now) = true /\ sameOrderFloat (v_Filled was) (v_Filled now) = true /\
  sameOrderFloat (v_Remaining was) (v_Remaining now) = true /\
  sameOrderFloat (v_LimitPrice was) (v_LimitPrice now) = true /\
  sameOrderTrail (v_Trail was) (v_Trail now) = true /\ v_OutsideRTH now = v_OutsideRTH was.

Lemma links_equal a b : stockEntryLinksEqual a b = true -> a = b.
Proof.
  destruct a as [a|], b as [b|]; try done. cbn. intros Hl. apply StockEntryLink_eqb_eq in Hl. by subst.
Qed.

(** Two texts or ids that are both present agree. *)
Lemma both_present_s a b : (a <>s "") && (b <>s "") && (a <>s b) = false -> a <> "" -> b <> "" -> b = a.
Proof.
  intros Hb Ha Hb'. apply String.eqb_neq in Ha, Hb'. rewrite Ha, Hb' in Hb. cbn in Hb. by bool_hyps.
Qed.

Lemma both_present_z a b :
  negb (a =? 0) && negb (b =? 0) && negb (a =? b) = false -> a <> 0 -> b <> 0 -> b = a.
Proof.
  intros Hb Ha Hb'. apply Z.eqb_neq in Ha, Hb'. rewrite Ha, Hb' in Hb. cbn in Hb. by bool_hyps.
Qed.


Lemma target_validates_drift was now :
  validateModifyPreviewTarget (replaceTargetFromView was) now = Ok tt -> sameOrderAsPreviewed was now.
Proof.
  unfold replaceTargetFromView. destruct (_ && _ && _) eqn:Hz.
  { intros Hv. unfold validateModifyPreviewTarget in Hv. apply guard_ok in Hv as [_ Hv].
    apply guard_ok in Hv as [Hid _]. discriminate Hid. }
  unfold validateModifyPreviewTarget, modifyTargetContractIdentityMatches.
  cbn [rp_EntryLink rp_FixedStopPrice rp_OrderRef rp_ReservedOrderID rp_PermID rp_ClientID rp_Account rp_Endpoint
       rp_Mode rp_Status rp_LifecycleStatus rp_ConID rp_Symbol rp_SecType rp_Exchange rp_PrimaryExch rp_Currency
       rp_LocalSymbol rp_TradingClass rp_Expiry rp_Strike rp_Right rp_Multiplier rp_OrderType rp_TIF
       rp_TriggerMethod rp_Quantity rp_Filled rp_Remaining rp_LimitPrice rp_Trail rp_OutsideRTH].
  intros Hv. apply guard_ok in Hv as [Hterms Hv]. apply guard_ok in Hv as [Hpos Hv]. apply guard_ok in Hv as [Hid Hv].
  apply guard_ok in Hv as [Hcon Hv]. apply guard_ok in Hv as [Hident Hv]. apply guard_ok in Hv as [Href Hv].
  apply guard_ok in Hv as [Hperm Hv]. apply guard_ok in Hv as [Hcl Hv]. apply guard_ok in Hv as [Hgate Hv].
  apply guard_ok in Hv as [Hst Hv]. apply guard_ok in Hv as [_ Hv]. apply guard_ok in Hv as [_ Hv].
  apply guard_ok in Hv as [Hq Hv]. apply guard_ok in Hv as [Htr Hv]. apply guard_ok in Hv as [Hrth _].
  apply negb_true_iff in Hterms, Hcon. bool_hyps.
  apply Bool.eqb_prop in Hrth. unfold sameOrderAsPreviewed.
  split_and!; try done; try (by symmetry); try lia.
  - symmetry. by apply links_equal.
  - by apply both_present_s.
Qed.

Lemma modify_token_ok `{TokenEnv} s now status journal token view payload :
  verifyPreviewTokenForModify s now status journal token view = Ok payload ->
  verifyPreviewTokenForCurrentGate s now status journal token = Ok payload /\
  tp_Scope payload = OrderTokenScopeModify /\ requireSubmitEligiblePreviewToken payload = Ok tt /\
  validateModifyPreviewTarget (tp_Replace payload) view = Ok tt.
Proof.
  unfold verifyPreviewTokenForModify. intros Hv. apply rbind_ok in Hv as (p & Hg & Hv).
  destruct (tp_Scope p =s _) eqn:Hs; [|done]. cbn [negb] in Hv. apply rbind_ok in Hv as ([] & Hel & Hv).
  destruct (validateModifyPreviewTarget _ _) as [[]|] eqn:Ht; [|done]. injection Hv as <-. bool_hyps. done.
Qed.

(** A modify token is good for the order it was previewed on, as it was.
    If the token's replace target was taken from the row [was] and the modify
    path accepts it for the current row [now], the token is an authentic,
    unexpired modify token for the gate shown now with an accepted WhatIf, and
    the row has not drifted: same broker order and contract id, reference,
    permanent id, account, endpoint, mode, protection terms, status, quantities,
    fills, prices and trail (numbers to 1e-9).  A fill, a status change or
    another order under the same id refuses the token. *)
Theorem modify_token_bound_to_its_order `{TokenEnv} s now status journal token was current payload :
  verifyPreviewTokenForModify s now status journal token current = Ok payload ->
  tp_Replace payload = replaceTargetFromView was ->
  (exists sg body sig raw signed, s = Some sg /\
     authenticated sg now (TrimSpace token) payload body sig raw signed) /\
  tp_Scope payload = OrderTokenScopeModify /\
  tp_Account payload = rt_Account (ts_route status) /\ tp_Endpoint payload = rt_Endpoint (ts_route status) /\
  wi_Status (tp_WhatIf payload) = OrderWhatIfStatusAccepted /\
  sameOrderAsPreviewed was current.
Proof.
  intros Hv Ht. apply modify_token_ok in Hv as (Hg & Hs & Hel & Htarget). rewrite Ht in Htarget.
  apply target_validates_drift in Htarget. apply gate_token_ok in Hg as (Hv & _ & _ & ? & ? & ? & ? & ? & ?).
  apply verify_ok in Hv. apply submit_eligible_ok in Hel as [? _]. done.
Qed.

(** ** Concrete tokens *)

(** A row a modify was previewed on, and a payload bound to it. *)
Definition previewed_row : OrderView :=
  gate_row <| v_ConID := 265598 |> <| v_Endpoint := "127.0.0.1:4002" |> <| v_Status := "Submitted" |>.

Definition token_template (draft : OrderDraft) (scope : string) : orderPreviewTokenPayload :=
  mkPayload 0 "" 0 "" scope 0 0 "paper" "DU123" "127.0.0.1:4002" 15 draft
    (mkImpact (f_of_Z 40) f0 "close" f0 1) 3 "DU123" 1000 "USD" "account" 2 f0 (mkWhatIf "" false true) "accepted"
    (replaceTargetFromView previewed_row) "" "".

Definition token_signer (generation : Z) : orderTokenSigner := mkSigner "key" "epoch-1" generation.

(** The payload minted at second 100 under generation 2. *)
Definition token_payload (scope id : string) : orderPreviewTokenPayload :=
  stampPayload (token_signer 2) (100 * Second) id (token_template gate_draft scope).

(** A codec for those payloads: the scope's first letter, then the token id. *)
Definition toy_unmarshal (raw : string) : option orderPreviewTokenPayload :=
  match raw with
  | String "p" id => Some (token_payload OrderTokenScopePlace id)
  | String "m" id => Some (token_payload OrderTokenScopeModify id)
  | _ => None
  end.

Definition token_env_ex : TokenEnv := {|
  hmac_sha256 := fun key body => String.append key body;
  payload_marshal := fun p => Some (String.append (String.substring 0 1 (tp_Scope p)) (tp_TokenID p));
  payload_unmarshal := toy_unmarshal;
  payload_faithful := fun p => exists id, p = token_payload OrderTokenScopePlace id \/ p = token_payload OrderTokenScopeModify id;
  format_rfc3339 := fun t => Itoa t
|}.
#[local] Existing Instance token_env_ex.

#[local] Instance token_laws_ex : TokenLaws.
Proof. split. intros p raw (id & [-> | ->]) [= <-]; reflexivity. Qed.

Definition minted (scope : string) : string :=
  match mint (Some (token_signer 2)) (100 * Second) (Ok "tok") (token_template gate_draft scope) with
  | Ok (tok, _, _) => tok
  | Err _ => ""
  end.

Definition token_status : TradingStatus :=
  mkTradingStatus (mkRoute "DU123" "127.0.0.1:4002" "paper" 15) false [].

Lemma minted_token_verifies_until_expiry_witness :
  verify (Some (token_signer 2)) (699 * Second) (minted "place") =
    Ok (liftWhatIfStatus (token_payload OrderTokenScopePlace "tok")) /\
  is_ok (verify (Some (token_signer 2)) (700 * Second) (minted "place")) = false /\
  is_ok (verify (Some (token_signer 3)) (101 * Second) (minted "place")) = false.
Proof.
  assert (Hm : mint (Some (token_signer 2)) (100 * Second) (Ok "tok") (token_template gate_draft "place") =
               Ok (minted "place", "tok", 700 * Second)) by (vm_compute; reflexivity).
  assert (Hf : payload_faithful (stampPayload (token_signer 2) (100 * Second) "tok" (token_template gate_draft "place")))
    by (exists "tok"; left; reflexivity).
  destruct (minted_token_verifies_until_expiry (token_signer 2) (token_signer 2) (100 * Second) (699 * Second) (Ok "tok")
              _ _ _ _ ltac:(vm_compute; discriminate) Hm Hf eq_refl) as (_ & _ & H1).
  destruct (minted_token_verifies_until_expiry (token_signer 2) (token_signer 2) (100 * Second) (700 * Second) (Ok "tok")
              _ _ _ _ ltac:(vm_compute; discriminate) Hm Hf eq_refl) as (_ & _ & H2).
  destruct (minted_token_verifies_until_expiry (token_signer 2) (token_signer 3) (100 * Second) (101 * Second) (Ok "tok")
              _ _ _ _ ltac:(vm_compute; discriminate) Hm Hf eq_refl) as (_ & _ & H3).
  rewrite H1, H2, H3. split_and!; reflexivity.
Defined.

Lemma redeemed_place_token_is_authentic_witness :
  exists payload, verifyPreviewTokenForPlace (Some (token_signer 2)) (200 * Second) token_status true
      (String.append " " (minted "place")) = Ok payload /\
    wi_Status (tp_WhatIf payload) = OrderWhatIfStatusAccepted /\ addTermsMatchScope payload.
Proof.
  destruct (verifyPreviewTokenForPlace (Some (token_signer 2)) (200 * Second) token_status true
              (String.append " " (minted "place"))) as [payload|] eqn:Hv.
  - exists payload. split; [reflexivity|].
    destruct (redeemed_place_token_is_authentic _ _ _ _ _ _ Hv) as (_ & _ & _ & _ & _ & _ & _ & _ & Hadd & Hw & _).
    split; [exact Hw | exact Hadd].
  - apply (f_equal is_ok) in Hv. vm_compute in Hv. discriminate Hv.
Defined.

(** The order fills after the preview: the token is refused. *)
Lemma modify_token_bound_to_its_order_witness :
  (exists payload, verifyPreviewTokenForModify (Some (token_signer 2)) (200 * Second) token_status true
     (minted "modify") previewed_row = Ok payload /\ sameOrderAsPreviewed previewed_row previewed_row) /\
  is_ok (verifyPreviewTokenForModify (Some (token_signer 2)) (200 * Second) token_status true (minted "modify")
           (previewed_row <| v_Filled := f_of_Z 10 |>)) = false.
Proof.
  split; [|vm_compute; reflexivity].
  destruct (verifyPreviewTokenForModify (Some (token_signer 2)) (200 * Second) token_status true (minted "modify")
              previewed_row) as [payload|] eqn:Hv.
  - exists payload. split; [reflexivity|].
    assert (Hr : tp_Replace payload = replaceTargetFromView previewed_row)
      by (vm_compute in Hv; injection Hv as <-; vm_compute; reflexivity).
    destruct (modify_token_bound_to_its_order _ _ _ _ _ _ _ _ Hv Hr) as (_ & _ & _ & _ & _ & Hsame). exact Hsame.
  - apply (f_equal is_ok) in Hv. vm_compute in Hv. discriminate Hv.
Defined.
