(* ===== verification/SendDisposition.v ===== *)
(** * What a send error proves

    src/pkg/ibkr/send_disposition.go: an error of the broker transport may carry
    a disposition, the fact it proves about the bytes of one instruction.  A Go
    error is modelled by the sentinels [errors.Is] finds in its chain, the
    disposition [errors.AsType] finds (the innermost one attached), and its text. *)

From stdpp Require Import base decidable list strings.
From Stdlib Require Import ZArith String.
From S2P Require Import Prelude OrderTypes.

Record sendErr := mkSendErr { se_wraps : list string; se_typed : option SendDisposition; se_text : string }.
#[global] Instance sendErr_eta : Eta sendErr := fun e => mkSendErr (se_wraps e) (se_typed e) (se_text e).

(** errors.Is *)
Definition errIs (e : sendErr) (sentinel : string) : bool := one_of sentinel (se_wraps e).

Definition plainErr (text : string) : sendErr := mkSendErr [] None text.
(** [fmt.Errorf("prefix: %w", err)] *)
Definition wrapErr (prefix : string) (e : sendErr) : sendErr :=
  e <| se_text := String.append prefix (String.append ": " (se_text e)) |>.

Definition errCanceled : sendErr := mkSendErr ["context.Canceled"] None "context canceled".
Definition errOutboundSessionEnded : sendErr :=
  mkSendErr ["errOutboundSessionEnded"] None "broker session ended while the send waited for the transport".

(** validSendDisposition *)
Definition validSendDisposition (d : SendDisposition) : bool :=
  one_of d [SendDispositionDefinitelyUnsent; SendDispositionMayHaveWritten; SendDispositionUnknown].

(** WithSendDisposition; [None] is the nil error. *)
Definition WithSendDisposition (err : option sendErr) (d : SendDisposition) : option sendErr :=
  match err with
  | None => None
  | Some e =>
      if present (se_typed e) then Some e
      else Some (e <| se_typed := Some (if validSendDisposition d then d else SendDispositionUnknown) |>)
  end.

(** SendDispositionOf *)
Definition SendDispositionOf (err : option sendErr) : SendDisposition :=
  match err with
  | Some e =>
      match se_typed e with
      | Some d => if validSendDisposition d then d else SendDispositionUnknown
      | None => SendDispositionUnknown
      end
  | None => SendDispositionUnknown
  end.

(** definitelyUnsent *)
Definition definitelyUnsent (err : option sendErr) : option sendErr :=
  WithSendDisposition err SendDispositionDefinitelyUnsent.

(** brokerSendError *)
Definition brokerSendError (err : option sendErr) (d : SendDisposition) (typed : bool) : option sendErr :=
  match err with
  | None => None
  | Some _ => if negb typed then err else WithSendDisposition err d
  end.

(** brokerSendMayHaveBeenWritten *)
Definition brokerSendMayHaveBeenWritten (err : option sendErr) : bool :=
  one_of (SendDispositionOf err) [SendDispositionMayHaveWritten; SendDispositionUnknown].

(** The error says that no byte was written. *)
Definition provesUnsent (err : option sendErr) : bool :=
  SendDispositionOf err =s SendDispositionDefinitelyUnsent.

(** The innermost disposition wins, and attaching one keeps the chain. *)
Lemma with_keeps_inner e d d' :
  se_typed e = Some d' -> WithSendDisposition (Some e) d = Some e.
Proof. intros He. unfold WithSendDisposition. by rewrite He. Qed.

Lemma with_disposition e d :
  se_typed e = None -> validSendDisposition d = true ->
  SendDispositionOf (WithSendDisposition (Some e) d) = d.
Proof.
  destruct e as [w t x]. cbn [se_typed]. intros -> Hd. unfold WithSendDisposition. rewrite Hd.
  change (SendDispositionOf (Some (mkSendErr w (Some d) x)) = d). unfold SendDispositionOf.
  cbn [se_typed]. by rewrite Hd.
Qed.

Lemma may_have_been_written e : brokerSendMayHaveBeenWritten e = negb (provesUnsent e).
Proof.
  unfold brokerSendMayHaveBeenWritten, provesUnsent. destruct e as [[w [d|] t]|]; try reflexivity.
  cbn -[validSendDisposition one_of String.eqb].
  destruct (validSendDisposition d) eqn:Hd; [|reflexivity].
  apply one_of_true in Hd. cbn in Hd. by destruct Hd as [<- | [<- | [<- | []]]].
Qed.

#[global] Arguments brokerSendError : simpl never.
#[global] Arguments WithSendDisposition : simpl never.
#[global] Arguments SendDispositionOf : simpl never.
