(* ===== verification/RateLimiter.v ===== *)
(** * The request limiter

    src/pkg/ibkr/ratelimiter.go.  Three parts: the token bucket; the circuit
    breaker over broker pacing errors; and the life of one submitted request,
    from the queue through its dispatch goroutine, retries and backoff to the
    caller that waits for the result.  The last is concurrent (caller, queue
    processor, dispatch and backoff goroutines, and the owner of the context), so
    it is a step function over an event type, and its theorems hold for every
    interleaving.  How long the token and semaphore waits of executeRequest take
    is left open here: [EvAdmit] may happen whenever the request executes with a
    live context, whatever the pools hold.  LimiterPools has the waits.  Proved: the circuit
    breaker refuses exactly while a run of pacing errors is recent; the callback
    runs at most [MaxRetries + 1] times; every request is closed out exactly
    once. *)

From stdpp Require Import base decidable list strings.
From Stdlib Require Import ZArith Lia String.
From S2P Require Import Prelude OrderTypes SendDisposition.

Inductive RequestType :=
| RequestTypeGeneral | RequestTypeMarketData | RequestTypeHistorical | RequestTypeOrder | RequestTypeHeartbeat
| RequestTypeMarketDataCancel.
#[global] Instance RequestType_eq_dec : EqDecision RequestType.
Proof. solve_decision. Defined.

Inductive RequestPriority := PriorityInteractive | PriorityBackground.

(** effectivePriority; [lane] is what requestPriorityFrom reads of the context. *)
Definition effectivePriority (lane : RequestPriority) (reqType : RequestType) : RequestPriority :=
  match reqType with
  | RequestTypeOrder | RequestTypeHeartbeat => PriorityInteractive
  | _ => lane
  end.

(** submitTimeout *)
Definition submitTimeout (reqType : RequestType) : Z :=
  match reqType with RequestTypeHistorical => 12 * Minute | _ => 30 * Second end.

(** ** Token bucket *)

Record TokenBucket := mkBucket {
  tb_capacity : Z; tb_tokens : float64; tb_refillRate : float64; tb_lastRefill : time
}.
#[global] Instance TokenBucket_eta : Eta TokenBucket := fun b =>
  mkBucket (tb_capacity b) (tb_tokens b) (tb_refillRate b) (tb_lastRefill b).

(** NewTokenBucket *)
Definition NewTokenBucket (capacity : Z) (refillRate : float64) (now : time) : TokenBucket :=
  mkBucket capacity (f_of_Z capacity) refillRate now.

(** [d.Seconds()] of a duration *)
Definition Seconds (d : Z) : float64 :=
  fadd (f_of_Z (Z.quot d Second)) (fdiv (f_of_Z (Z.rem d Second)) (f_of_Z 1000000000)).

(** Go's builtin [min] on floats: NaN if either is NaN, else the smaller one. *)
Definition fmin (x y : float64) : float64 :=
  if IsNaN x || IsNaN y then SpecFloat.S754_nan else if y <f x then y else x.

(** refillLocked *)
Definition refillLocked (tb : TokenBucket) (now : time) : TokenBucket :=
  let elapsed := Seconds (Sub now (tb_lastRefill tb)) in
  let elapsed := if elapsed <f f0 then f0 else elapsed in
  tb <| tb_tokens := fmin (f_of_Z (tb_capacity tb)) (fadd (tb_tokens tb) (fmul elapsed (tb_refillRate tb))) |>
     <| tb_lastRefill := now |>.

(** TryAcquire *)
Definition TryAcquire (tb : TokenBucket) (n : Z) (now : time) : TokenBucket * bool :=
  if n <=? 0 then (tb, true)
  else
    let tb := refillLocked tb now in
    if tb_tokens tb <f f_of_Z n then (tb, false)
    else (tb <| tb_tokens := fsub (tb_tokens tb) (f_of_Z n) |>, true).

(** reserve; [dur] is the conversion of a float to a duration. *)
Definition reserve (dur : float64 -> Z) (tb : TokenBucket) (n : Z) (now : time) : TokenBucket * (Z * bool) :=
  let tb := refillLocked tb now in
  if tb_tokens tb >=f f_of_Z n then (tb <| tb_tokens := fsub (tb_tokens tb) (f_of_Z n) |>, (0, true))
  else if tb_refillRate tb <=f f0 then (tb, (Second, false))
  else
    let needed := fsub (f_of_Z n) (tb_tokens tb) in
    let delay := Z.max (dur (fmul (fdiv needed (tb_refillRate tb)) (f_of_Z Second))) 1000000 in
    (tb <| tb_tokens := fsub (tb_tokens tb) (f_of_Z n) |>, (delay, true)).

(** cancelReservation *)
Definition cancelReservation (tb : TokenBucket) (n : Z) (now : time) : TokenBucket :=
  let tb := refillLocked tb now in
  tb <| tb_tokens := fmin (f_of_Z (tb_capacity tb)) (fadd (tb_tokens tb) (f_of_Z n)) |>.

(** ** Circuit breaker *)

Record circuit := mkCircuit {
  cb_LastRateLimitError : time; cb_ConsecutiveErrors : Z; cb_OpenUntil : time
}.
#[global] Instance circuit_eta : Eta circuit := fun c =>
  mkCircuit (cb_LastRateLimitError c) (cb_ConsecutiveErrors c) (cb_OpenUntil c).
Definition newCircuit : circuit := mkCircuit 0 0 0.

Definition circuitThreshold : Z := 5.
Definition circuitCooldown : Z := 10 * Second.

(** openCircuit *)
Definition openCircuit (c : circuit) (openUntil : time) : circuit :=
  if Before (cb_OpenUntil c) openUntil then c <| cb_OpenUntil := openUntil |> else c.

(** recordRateLimitError *)
Definition recordRateLimitError (c : circuit) (now : time) : circuit :=
  let c := if circuitCooldown <=? Sub now (cb_LastRateLimitError c) then c <| cb_ConsecutiveErrors := 0 |> else c in
  let c := c <| cb_LastRateLimitError := now |> <| cb_ConsecutiveErrors := cb_ConsecutiveErrors c + 1 |> in
  if (0 <? circuitThreshold) && (circuitThreshold <=? cb_ConsecutiveErrors c)
  then openCircuit c (now + circuitCooldown) else c.

(** checkCircuit; the flag is "refused". *)
Definition checkCircuit (c : circuit) (reqType : RequestType) (now : time) : circuit * bool :=
  if IsZero (cb_OpenUntil c) then (c, false)
  else if After now (cb_OpenUntil c) then (c <| cb_OpenUntil := 0 |>, false)
  else if bool_decide (reqType = RequestTypeHeartbeat) || bool_decide (reqType = RequestTypeMarketDataCancel)
  then (c, false)
  else (c, true).

(** ** One request *)

Inductive phase := Queued | Executing | Permitted | Sending | Backoff | Requeue | Finished.
#[global] Instance phase_eq_dec : EqDecision phase.
Proof. solve_decision. Defined.

Inductive callerState := Waiting | Answered (r : option sendErr) | GaveUp (e : sendErr).

(** isContextDone *)
Definition isContextDone (e : sendErr) : bool := errIs e "context.Canceled" || errIs e "context.DeadlineExceeded".

Definition errStopped : sendErr := plainErr "rate limiter stopped".
Definition errTimeout : sendErr := plainErr "request timeout".
Definition errQueueFull : sendErr := plainErr "request queue full (1000 pending)".
Definition errRetryFull : sendErr := plainErr "retry failed: queue full".

(** Who does what next. *)
Inductive event (E : Type) :=
| EvTake                 (** processRequests starts a dispatch *)
| EvThrottled            (** a pacing wait of executeRequest ends with its context *)
| EvAdmit                (** the pacing waits are over and the context is live *)
| EvEnter                (** SendFunc is called *)
| EvSendDone (env : E)   (** SendFunc returns *)
| EvBackoffTimer         (** the backoff timer fires *)
| EvBackoffCtx           (** the backoff goroutine sees the context end *)
| EvBackoffStop          (** the backoff goroutine sees the limiter stop *)
| EvRequeue (full : bool)
| EvResult               (** the caller receives the result *)
| EvTimeout              (** the caller's completion timer fires *)
| EvCallerCtx | EvCallerStop
| EvCancel               (** the owner cancels the caller's context *)
| EvStop.                (** the limiter is stopped *)
Arguments EvTake {E}. Arguments EvThrottled {E}. Arguments EvAdmit {E}. Arguments EvEnter {E}.
Arguments EvSendDone {E} env. Arguments EvBackoffTimer {E}. Arguments EvBackoffCtx {E}.
Arguments EvBackoffStop {E}. Arguments EvRequeue {E} full. Arguments EvResult {E}. Arguments EvTimeout {E}.
Arguments EvCallerCtx {E}. Arguments EvCallerStop {E}. Arguments EvCancel {E}. Arguments EvStop {E}.

Record request (W : Type) := mkRequest {
  rq_phase : phase; rq_retries : nat; rq_chan : list (option sendErr); rq_sent : nat;
  rq_ctx : bool; rq_stopped : bool; rq_caller : callerState; rq_calls : nat; rq_world : W
}.
Arguments mkRequest {W}. Arguments rq_phase {W}. Arguments rq_retries {W}. Arguments rq_chan {W}.
Arguments rq_sent {W}. Arguments rq_ctx {W}. Arguments rq_stopped {W}. Arguments rq_caller {W}.
Arguments rq_calls {W}. Arguments rq_world {W}.
#[global] Instance request_eta {W} : Eta (request W) := fun r =>
  mkRequest (rq_phase r) (rq_retries r) (rq_chan r) (rq_sent r) (rq_ctx r) (rq_stopped r) (rq_caller r)
    (rq_calls r) (rq_world r).

(** What SubmitWithRetriesContextFunc finds before it queues the request. *)
Record submitEnv := mkSubmitEnv {
  su_ctxDone : bool; su_circuitOpen : bool; su_stopped : bool; su_queueFull : bool
}.

(** The early returns of SubmitWithRetriesContextFunc. *)
Definition submitRefusal (env : submitEnv) : option sendErr :=
  if su_ctxDone env then Some errCanceled
  else if su_circuitOpen env then Some (plainErr "rate limiter circuit breaker open")
  else if su_stopped env then Some errStopped
  else if su_queueFull env then Some errQueueFull
  else None.

Definition newRequest {W} (w : W) : request W := mkRequest Queued 0 [] 0 false false Waiting 0 w.

(** The guard of an event that can happen. *)
Lemma if_some {A} (b : bool) (x y : A) : (if b then Some x else None) = Some y -> b = true /\ x = y.
Proof. destruct b; [|done]. intros [= ->]. done. Qed.

Ltac if_inv H :=
  first [injection H as H | apply if_some in H; destruct H as [? H]];
  repeat match goal with
  | Hb : _ && _ = true |- _ => apply andb_true_iff in Hb; destruct Hb
  | Hb : bool_decide _ = true |- _ => apply bool_decide_eq_true in Hb
  end.

Section Machine.
Context {W E : Type}.
(** The callback: from "is the context done", what it meets, and the world. *)
Variable SendFunc : bool -> E -> W -> W * option sendErr.
Variable MaxRetries : nat.

(** shouldRetry *)
Definition shouldRetry (r : request W) (err : option sendErr) : bool :=
  match err with
  | None => false
  | Some e =>
      if (MaxRetries <=? rq_retries r)%nat then false
      else if isContextDone e || rq_stopped r then false
      else if errIs e "errOutboundSessionEnded" then false
      else if rq_ctx r then false
      else true
  end.

(** [req.ResultChan <- err], the buffered channel of one. *)
Definition report (r : request W) (err : option sendErr) : request W :=
  r <| rq_phase := Finished |> <| rq_chan := rq_chan r ++ [err] |> <| rq_sent := S (rq_sent r) |>.

(** The end of dispatch: retry after a backoff, or close the request out. *)
Definition closeOut (r : request W) (err : option sendErr) : request W :=
  if shouldRetry r err then r <| rq_retries := S (rq_retries r) |> <| rq_phase := Backoff |>
  else report r err.

Definition answer (r : request W) (c : callerState) : request W := r <| rq_caller := c |> <| rq_ctx := true |>.

Definition isWaiting (r : request W) : bool := match rq_caller r with Waiting => true | _ => false end.

(** One event; [None] when it cannot happen now. *)
Definition limiterStep (r : request W) (ev : event E) : option (request W) :=
  match ev with
  | EvTake => if bool_decide (rq_phase r = Queued) then Some (r <| rq_phase := Executing |>) else None
  | EvThrottled =>
      if bool_decide (rq_phase r = Executing) && (rq_ctx r || rq_stopped r)
      then Some (closeOut r (Some (wrapErr "rate limit cancelled" errCanceled))) else None
  | EvAdmit =>
      if bool_decide (rq_phase r = Executing) && negb (rq_ctx r) then Some (r <| rq_phase := Permitted |>) else None
  | EvEnter =>
      if bool_decide (rq_phase r = Permitted)
      then Some (r <| rq_phase := Sending |> <| rq_calls := S (rq_calls r) |>) else None
  | EvSendDone env =>
      if bool_decide (rq_phase r = Sending)
      then let '(w, err) := SendFunc (rq_ctx r) env (rq_world r) in Some (closeOut (r <| rq_world := w |>) err)
      else None
  | EvBackoffTimer => if bool_decide (rq_phase r = Backoff) then Some (r <| rq_phase := Requeue |>) else None
  | EvBackoffCtx =>
      if (bool_decide (rq_phase r = Backoff) || bool_decide (rq_phase r = Requeue)) && rq_ctx r
      then Some (report r (Some errCanceled)) else None
  | EvBackoffStop =>
      if (bool_decide (rq_phase r = Backoff) || bool_decide (rq_phase r = Requeue)) && rq_stopped r
      then Some (report r (Some errStopped)) else None
  | EvRequeue full =>
      if bool_decide (rq_phase r = Requeue)
      then Some (if full then report r (Some errRetryFull) else r <| rq_phase := Queued |>) else None
  | EvResult =>
      match rq_chan r with
      | err :: rest => if isWaiting r then Some (answer (r <| rq_chan := rest |>) (Answered err)) else None
      | [] => None
      end
  | EvTimeout => if isWaiting r then Some (answer r (GaveUp errTimeout)) else None
  | EvCallerCtx => if isWaiting r && rq_ctx r then Some (answer r (GaveUp errCanceled)) else None
  | EvCallerStop => if isWaiting r && rq_stopped r then Some (answer r (GaveUp errStopped)) else None
  | EvCancel => Some (r <| rq_ctx := true |>)
  | EvStop => Some (r <| rq_stopped := true |>)
  end.

Fixpoint limiterRun (r : request W) (evs : list (event E)) : option (request W) :=
  match evs with
  | [] => Some r
  | ev :: evs => match limiterStep r ev with Some r' => limiterRun r' evs | None => None end
  end.

(** ** Invariant of a request *)

Definition started (p : phase) : bool := match p with Sending | Finished => true | _ => false end.
Definition isFinished (p : phase) : bool := match p with Finished => true | _ => false end.
Definition isAnswered (c : callerState) : bool := match c with Answered _ => true | _ => false end.

Record request_ok (r : request W) : Prop := {
  ok_retries : (rq_retries r <= MaxRetries)%nat;
  ok_sent : rq_sent r = if isFinished (rq_phase r) then 1%nat else 0%nat;
  ok_chan : (List.length (rq_chan r) + (if isAnswered (rq_caller r) then 1 else 0) = rq_sent r)%nat;
  ok_caller : rq_caller r <> Waiting -> rq_ctx r = true;
  ok_calls : (rq_calls r <= rq_retries r + (if started (rq_phase r) then 1 else 0))%nat
}.

Lemma not_finished p : p <> Finished -> isFinished p = false.
Proof. by destruct p. Qed.

Lemma newRequest_ok w : request_ok (newRequest w).
Proof. split; simpl; try done; lia. Qed.

Lemma should_retry_room r err : shouldRetry r err = true -> (rq_retries r < MaxRetries)%nat.
Proof.
  unfold shouldRetry. destruct err; [|done]. destruct (MaxRetries <=? rq_retries r)%nat eqn:Hm; [done|].
  intros _. by apply Nat.leb_gt.
Qed.

(** Reporting and closing out, from a request that is not finished. *)
Lemma report_ok r err :
  request_ok r -> rq_phase r <> Finished -> request_ok (report r err).
Proof.
  intros [H1 H2 H3 H4 H5] Hp. rewrite not_finished in H2 by done.
  destruct r as [p n ch s c st cl k w]; cbn in *.
  split; cbn; try done; rewrite ?length_app; cbn; destruct (isAnswered cl), (started p); lia.
Qed.

Lemma closeOut_ok r err :
  request_ok r -> rq_phase r <> Finished -> request_ok (closeOut r err).
Proof.
  intros Hok Hp. unfold closeOut. destruct (shouldRetry r err) eqn:Hs; [|by apply report_ok].
  apply should_retry_room in Hs. destruct Hok as [H1 H2 H3 H4 H5].
  rewrite not_finished in H2 by done.
  destruct r as [p n ch s c st cl k w]; cbn in *. split; cbn; try done; try lia. destruct (started p); lia.
Qed.

Lemma set_world_ok r w : request_ok r -> request_ok (r <| rq_world := w |>).
Proof. intros [H1 H2 H3 H4 H5]. by split. Qed.

Lemma waiting_true (r : request W) : isWaiting r = true -> rq_caller r = Waiting.
Proof. unfold isWaiting. by destruct (rq_caller r). Qed.

Lemma backing_off (r : request W) :
  bool_decide (rq_phase r = Backoff) || bool_decide (rq_phase r = Requeue) = true -> rq_phase r <> Finished.
Proof. destruct (rq_phase r); done. Qed.

Lemma send_done_inv r env r' :
  limiterStep r (EvSendDone env) = Some r' ->
  rq_phase r = Sending /\
  r' = closeOut (r <| rq_world := (SendFunc (rq_ctx r) env (rq_world r)).1 |>)
         (SendFunc (rq_ctx r) env (rq_world r)).2.
Proof.
  cbn [limiterStep]. destruct (bool_decide (rq_phase r = Sending)) eqn:Hp; [|done].
  apply bool_decide_eq_true in Hp. destruct (SendFunc _ _ _). intros [= <-]. done.
Qed.

Lemma result_inv r r' :
  limiterStep r EvResult = Some r' ->
  rq_caller r = Waiting /\ exists err rest, rq_chan r = err :: rest /\
    r' = answer (r <| rq_chan := rest |>) (Answered err).
Proof.
  cbn [limiterStep]. destruct (rq_chan r) as [|err rest]; [done|]. intros H. apply if_some in H as [Hw <-].
  apply waiting_true in Hw. eauto.
Qed.

Lemma limiterStep_ok r ev r' : request_ok r -> limiterStep r ev = Some r' -> request_ok r'.
Proof.
  intros Hok H. destruct ev as [| | | |env| | | |full| | | | | |].
  5: { apply send_done_inv in H as [Hp ->]. apply closeOut_ok; [by apply set_world_ok | cbn; by rewrite Hp]. }
  9: { apply result_inv in H as (Hw & err & rest & Hc & ->). destruct Hok as [H1 H2 H3 H4 H5].
       rewrite Hw, Hc in H3. cbn in H3. split; cbn; try done; lia. }
  all: cbn [limiterStep] in H; if_inv H; subst r'.
  all: try (apply closeOut_ok; [done | congruence]).
  all: try (apply report_ok; [done | by apply backing_off]).
  all: try (destruct full; [apply report_ok; [done | congruence]|]).
  all: destruct Hok as [Hre Hse Hch Hca Hcalls].
  all: repeat match goal with
       | Hw : isWaiting _ = true |- _ => apply waiting_true in Hw; rewrite Hw in *
       | Hp : rq_phase _ = _ |- _ => rewrite Hp in *; clear Hp
       end.
  all: split; cbn in *; done || lia.
Qed.

Lemma limiterRun_ok r evs r' : request_ok r -> limiterRun r evs = Some r' -> request_ok r'.
Proof.
  revert r. induction evs as [|ev evs IH]; intros r Hok H; cbn [limiterRun] in H; [by injection H as <-|].
  destruct (limiterStep r ev) as [r1|] eqn:Hs; [|done]. eapply IH; [by eapply limiterStep_ok | done].
Qed.

(** The callback runs at most [MaxRetries + 1] times (a protected send,
    with no retries, at most once), the result channel of one slot never gets a
    second value (it holds one exactly when the request is finished and the
    caller has not taken it), and once the caller has returned, for whatever
    reason, the context the callback checks is done. *)
Theorem request_closed_out_once w evs r :
  limiterRun (newRequest w) evs = Some r ->
  (rq_calls r <= MaxRetries + 1)%nat /\
  (rq_sent r <= 1)%nat /\ (rq_sent r = 1%nat <-> rq_phase r = Finished) /\
  (List.length (rq_chan r) + (if isAnswered (rq_caller r) then 1 else 0) = rq_sent r)%nat /\
  (rq_caller r <> Waiting -> rq_ctx r = true).
Proof.
  intros H. eapply limiterRun_ok in H as [Hre Hse Hch Hca Hcalls]; [|apply newRequest_ok].
  split_and!; try done.
  - destruct (started (rq_phase r)); lia.
  - destruct (isFinished (rq_phase r)); lia.
  - rewrite Hse. by destruct (rq_phase r).
Qed.
End Machine.

(** A callback that counts its calls and fails when told to. *)
Definition flaky (_ : bool) (fails : bool) (n : nat) : nat * option sendErr :=
  (S n, if fails then Some (plainErr "broken pipe") else None).

(** With no retries left the failure is the answer. *)
Lemma request_closed_out_once_witness :
  exists r, limiterRun flaky 0 (newRequest 0%nat)
              [EvTake; EvAdmit; EvTimeout; EvEnter; EvSendDone true] = Some r /\
    (rq_calls r <= 1)%nat /\ rq_ctx r = true.
Proof.
  destruct (limiterRun flaky 0 (newRequest 0%nat) [EvTake; EvAdmit; EvTimeout; EvEnter; EvSendDone true]) as [r|] eqn:H;
    [|vm_compute in H; discriminate H].
  exists r. split; [reflexivity|].
  destruct (request_closed_out_once flaky 0 0%nat _ r H) as (Hc & _ & _ & _ & Hctx).
  split; [exact Hc|]. apply Hctx. vm_compute in H. injection H as <-. discriminate.
Defined.

(** ** What the circuit breaker means *)

Inductive circuitOp := CircuitError (now : time) | CircuitCheck (reqType : RequestType) (now : time).

Definition op_time (o : circuitOp) : time := match o with CircuitError t => t | CircuitCheck _ t => t end.

Definition circuitStep (c : circuit) (o : circuitOp) : circuit :=
  match o with
  | CircuitError now => recordRateLimitError c now
  | CircuitCheck reqType now => (checkCircuit c reqType now).1
  end.

(** The pacing errors of a history, newest first. *)
Definition errorsOf (h : list circuitOp) : list time :=
  fold_left (fun acc o => match o with CircuitError t => t :: acc | _ => acc end) h [].

(** Each error came less than a cooldown after the one before it. *)
Fixpoint closeGaps (l : list time) : bool :=
  match l with
  | a :: r => match r with b :: _ => (a - b <? circuitCooldown) && closeGaps r | [] => true end
  | [] => true
  end.

(** The reference: some five consecutive errors came in close succession, and
    the last of the five is at most a cooldown ago. *)
Definition recentBurst (errors : list time) (now : time) : Prop :=
  exists pre burst post u, errors = pre ++ burst ++ post /\ List.length burst = 5%nat /\ closeGaps burst = true /\
    hd_error burst = Some u /\ now <= u + circuitCooldown.

(** The clock does not go backwards, and is past the first cooldown of year 1. *)
Fixpoint clocked (from : time) (h : list circuitOp) : Prop :=
  match h with [] => True | o :: h => from <= op_time o /\ clocked (op_time o) h end.

(** Length of the newest run of errors in close succession. *)
Fixpoint runlen (l : list time) : nat :=
  match l with
  | a :: r => match r with b :: _ => if a - b <? circuitCooldown then S (runlen r) else 1%nat | [] => 1%nat end
  | [] => O
  end.

Lemma runlen_cons (a b : time) (l : list time) :
  runlen (a :: b :: l) = if a - b <? circuitCooldown then S (runlen (b :: l)) else 1%nat.
Proof. reflexivity. Qed.

Lemma closeGaps_cons a b l :
  closeGaps (a :: b :: l) = (a - b <? circuitCooldown) && closeGaps (b :: l).
Proof. reflexivity. Qed.

Lemma runlen_window n l : (n <= runlen l)%nat <-> (n <= List.length l)%nat /\ closeGaps (take n l) = true.
Proof.
  revert l. induction n as [|n IH]; intros l; [split; [intros _; split; [lia | by destruct l] | lia]|].
  destruct l as [|a l]; [cbn; split; [lia | intros [? _]; lia]|].
  destruct l as [|b l].
  - destruct n; cbn; [split; [done | lia] | split; [lia | intros [? _]; lia]].
  - rewrite runlen_cons. destruct n as [|n].
    { cbn. split; [intros _; split; [lia | done] | intros _; destruct (a - b <? _); lia]. }
    change (take (S (S n)) (a :: b :: l)) with (a :: b :: take n l). rewrite closeGaps_cons.
    change (b :: take n l) with (take (S n) (b :: l)).
    change (List.length (a :: b :: l)) with (S (List.length (b :: l))).
    destruct (a - b <? circuitCooldown) eqn:Hg; cbn [andb].
    + rewrite <- !Nat.succ_le_mono. apply IH.
    + split; [lia | intros [_ ?]; done].
Qed.

(** The state remembers the newest run and when it ends to matter. *)
Record circuit_inv (c : circuit) (errors : list time) (now : time) : Prop := {
  ci_last : cb_LastRateLimitError c = hd 0 errors;
  ci_count : cb_ConsecutiveErrors c = Z.of_nat (runlen errors);
  ci_past : Forall (fun u => u <= now) errors;
  ci_open : forall t, now <= t -> (cb_OpenUntil c <> 0 /\ t <= cb_OpenUntil c) <-> recentBurst errors t
}.

Lemma recentBurst_later errors u t :
  recentBurst errors t -> u <= t -> recentBurst errors u.
Proof. intros (pre & w & post & v & -> & Hl & Hg & Hh & Ht) Hu. exists pre, w, post, v. split_and!; try done. lia. Qed.

(** A new error adds the window that ends with it. *)
Lemma recentBurst_cons (a : time) (errors : list time) (t : time) :
  recentBurst (a :: errors) t <->
  recentBurst errors t \/ ((5 <= runlen (a :: errors))%nat /\ t <= a + circuitCooldown).
Proof.
  split.
  - intros (pre & w & post & v & Heq & Hl & Hg & Hh & Ht). destruct pre as [|x pre]; cbn in Heq.
    + right. assert (Hw : take 5 (a :: errors) = w) by (rewrite Heq; by rewrite take_app_length').
      split.
      * apply runlen_window. rewrite Hw. split; [|done]. rewrite Heq, length_app. lia.
      * rewrite <- Hw in Hh. cbn in Hh. by injection Hh as <-.
    + injection Heq as <- ->. left. exists pre, w, post, v. done.
  - intros [(pre & w & post & v & -> & Hl & Hg & Hh & Ht) | [Hr Ht]].
    + exists (a :: pre), w, post, v. done.
    + apply runlen_window in Hr as [Hl Hg].
      exists [], (take 5 (a :: errors)), (drop 5 (a :: errors)), a. split_and!; try done.
      * cbn [app]. by rewrite take_drop.
      * rewrite length_take. lia.
Qed.

Lemma Sub_cooldown now last : 0 <= last -> (circuitCooldown <=? Sub now last) = (circuitCooldown <=? now - last).
Proof.
  intros Hl. unfold Sub, min_duration, max_duration, circuitCooldown, Second.
  destruct (10 * 1000000000 <=? now - last) eqn:E; bool_hyps; [apply Z.leb_le | apply Z.leb_gt]; lia.
Qed.

(** recordRateLimitError counts the newest run. *)
Lemma record_count c (errors : list time) (now : time) :
  circuitCooldown <= now -> cb_LastRateLimitError c = hd 0 errors -> cb_ConsecutiveErrors c = Z.of_nat (runlen errors) ->
  Forall (fun u => 0 <= u) errors ->
  (let c := if circuitCooldown <=? Sub now (cb_LastRateLimitError c) then c <| cb_ConsecutiveErrors := 0 |> else c in
   cb_ConsecutiveErrors c + 1) = Z.of_nat (runlen (now :: errors)).
Proof.
  intros Hnow Hlast Hcount Hpos. destruct errors as [|b errors].
  - cbn [hd runlen] in *. rewrite Hlast, Sub_cooldown by lia.
    replace (circuitCooldown <=? now - 0) with true by (symmetry; apply Z.leb_le; lia). reflexivity.
  - apply Forall_cons in Hpos as [Hb _]. cbn [hd] in Hlast. rewrite Hlast, Sub_cooldown, runlen_cons by done.
    destruct (now - b <? circuitCooldown) eqn:E; bool_hyps.
    + replace (circuitCooldown <=? now - b) with false by (symmetry; apply Z.leb_gt; lia). cbn match zeta. rewrite Hcount. by rewrite Nat2Z.inj_succ.
    + replace (circuitCooldown <=? now - b) with true by (symmetry; apply Z.leb_le; lia). reflexivity.
Qed.

Lemma record_inv c (errors : list time) (now0 now : time) :
  circuit_inv c errors now0 -> Forall (fun u => 0 <= u) errors -> now0 <= now -> circuitCooldown <= now ->
  circuit_inv (recordRateLimitError c now) (now :: errors) now.
Proof.
  intros [Hl Hc Hp Ho] Hpos Hle Hnow.
  assert (Hcount := record_count c errors now Hnow Hl Hc Hpos).
  unfold recordRateLimitError. cbv zeta in Hcount |- *.
  set (c1 := if circuitCooldown <=? Sub now (cb_LastRateLimitError c) then _ else c) in *.
  assert (Hopen1 : cb_OpenUntil c1 = cb_OpenUntil c) by (unfold c1; by destruct (circuitCooldown <=? _)).
  set (c2 := c1 <| cb_LastRateLimitError := now |> <| cb_ConsecutiveErrors := cb_ConsecutiveErrors c1 + 1 |>).
  change (cb_ConsecutiveErrors c2) with (cb_ConsecutiveErrors c1 + 1). rewrite Hcount. cbn [Z.ltb].
  assert (Hpast : Forall (fun u => u <= now) (now :: errors)).
  { constructor; [lia|]. eapply Forall_impl; [exact Hp|]. cbn beta. intros. lia. }
  assert (Hb : forall t, now <= t -> (cb_OpenUntil c <> 0 /\ t <= cb_OpenUntil c) <-> recentBurst errors t)
    by (intros t Ht; apply Ho; lia).
  change ((0 <? circuitThreshold) && (circuitThreshold <=? Z.of_nat (runlen (now :: errors))))
    with (circuitThreshold <=? Z.of_nat (runlen (now :: errors))).
  destruct (circuitThreshold <=? Z.of_nat (runlen (now :: errors))) eqn:Hth; bool_hyps;
    unfold circuitThreshold, circuitCooldown, Second in *.
  - unfold openCircuit, Before. change (cb_OpenUntil c2) with (cb_OpenUntil c1). rewrite Hopen1.
    destruct (cb_OpenUntil c <? now + _) eqn:Hlt; bool_hyps; split; try done; intros t Ht;
      rewrite recentBurst_cons, <- Hb by done; unfold circuitCooldown, Second.
    + change (cb_OpenUntil (c2 <| cb_OpenUntil := _ |>)) with (now + 10 * 1000000000). lia.
    + change (cb_OpenUntil c2) with (cb_OpenUntil c1). rewrite Hopen1. lia.
  - split; try done; intros t Ht. rewrite recentBurst_cons, <- Hb by done.
    change (cb_OpenUntil c2) with (cb_OpenUntil c1). rewrite Hopen1. lia.
Qed.

Lemma check_inv c errors now0 now reqType :
  circuit_inv c errors now0 -> now0 <= now -> circuit_inv (checkCircuit c reqType now).1 errors now.
Proof.
  intros [Hl Hc Hp Ho] Hle.
  assert (Hpast : Forall (fun u => u <= now) errors)
    by (eapply Forall_impl; [exact Hp|]; cbn beta; intros; lia).
  assert (Hb : forall t, now <= t -> (cb_OpenUntil c <> 0 /\ t <= cb_OpenUntil c) <-> recentBurst errors t)
    by (intros t Ht; apply Ho; lia).
  unfold checkCircuit, IsZero, After. destruct (cb_OpenUntil c =? 0) eqn:Hz; [by split|].
  destruct (cb_OpenUntil c <? now) eqn:Ha; bool_hyps.
  - split; try done. intros t Ht. rewrite <- Hb by done. cbn. lia.
  - destruct (_ || _); by split.
Qed.

Lemma circuit_inv_run h c errors now0 :
  circuit_inv c errors now0 -> Forall (fun u => 0 <= u) errors -> circuitCooldown <= now0 -> clocked now0 h ->
  exists now, now0 <= now /\
    circuit_inv (fold_left circuitStep h c)
      (fold_left (fun acc o => match o with CircuitError t => t :: acc | _ => acc end) h errors) now /\
    Forall (fun o => op_time o <= now) h /\ now = List.last (map op_time h) now0.
Proof.
  revert c errors now0. induction h as [|o h IH]; intros c errors now0 Hinv Hpos Hnow Hck.
  - exists now0. split_and!; try done; lia.
  - destruct Hck as [Hle Hck]. cbn [fold_left].
    assert (Hstep : circuit_inv (circuitStep c o)
              (match o with CircuitError t => t :: errors | _ => errors end) (op_time o) /\
              Forall (fun u => 0 <= u) (match o with CircuitError t => t :: errors | _ => errors end)).
    { destruct o as [t|rt t]; cbn in *.
      - split; [apply (record_inv _ _ now0); try done; lia | constructor; [unfold circuitCooldown, Second in *; lia | done]].
      - split; [by apply (check_inv _ _ now0) | done]. }
    destruct Hstep as [Hinv' Hpos'].
    destruct (IH _ _ (op_time o) Hinv' Hpos' ltac:(lia) Hck) as (now & Hn & Hi & Hf & Hlast).
    exists now. split_and!; try done; [lia | by constructor |]. rewrite Hlast. cbn [map].
    destruct h as [|o2 h]; [done|]. cbn [map]. clear.
    revert o2. induction h as [|o3 h IH]; intros o2; [done|]. cbn [map List.last] in *. apply IH.
Qed.

(** The circuit breaker is equivalent to its reference.  After any
    history of pacing errors and admission checks under a clock that does not
    go back, a request that is neither a heartbeat nor a market-data cancel is
    refused at [now] exactly when some five consecutive pacing errors came each
    less than the cooldown (ten seconds) after the previous one and the last of
    the five is at most a cooldown ago; heartbeats and market-data cancels
    always pass.  In particular resetting the breaker lazily, inside a check,
    loses nothing. *)
Theorem circuit_refuses_exactly_after_a_burst h start reqType now :
  circuitCooldown <= start -> clocked start (h ++ [CircuitCheck reqType now]) ->
  (checkCircuit (fold_left circuitStep h newCircuit) reqType now).2 = true <->
  reqType <> RequestTypeHeartbeat /\ reqType <> RequestTypeMarketDataCancel /\ recentBurst (errorsOf h) now.
Proof.
  intros Hs Hck.
  assert (Hi : circuit_inv newCircuit [] start).
  { split; try done. intros t Ht. cbn. split; [lia|]. intros (pre & w & post & u & Heq & Hl & _).
    apply (f_equal List.length) in Heq. rewrite !length_app in Heq. cbn in Heq. lia. }
  assert (Hck1 : clocked start h /\ Forall (fun o => op_time o <= now) h /\ start <= now).
  { clear Hi. revert start Hs Hck. induction h as [|o h IH]; intros start Hs Hck; cbn in Hck.
    - destruct Hck as [? _]. done.
    - destruct Hck as [Hle Hck]. destruct (IH (op_time o) ltac:(lia) Hck) as (H1 & H2 & H3).
      split_and!; [done | by constructor | lia]. }
  destruct Hck1 as (Hck1 & Hall & Hsn).
  destruct (circuit_inv_run h newCircuit [] start Hi ltac:(constructor) Hs Hck1) as (t0 & _ & [_ _ _ Ho] & _ & Hlast).
  assert (Ht0 : t0 <= now).
  { rewrite Hlast. clear -Hall Hsn. induction h as [|o h IH]; [done|]. apply Forall_cons in Hall as [Ho Hall].
    destruct h as [|o2 h]; [done|]. by apply IH. }
  change (fold_left _ h []) with (errorsOf h) in Ho. rewrite <- (Ho now Ht0). clear Ho Hall Hck Hck1 Hlast Hi.
  unfold checkCircuit, IsZero, After. set (c := fold_left circuitStep h newCircuit).
  destruct (cb_OpenUntil c =? 0) eqn:Hz; bool_hyps; [cbn; split; [done | by intros (_ & _ & ? & _)]|].
  destruct (cb_OpenUntil c <? now) eqn:Ha; bool_hyps; [cbn; split; [done | intros (_ & _ & _ & ?); lia]|].
  destruct (bool_decide (reqType = RequestTypeHeartbeat)) eqn:H1;
    destruct (bool_decide (reqType = RequestTypeMarketDataCancel)) eqn:H2;
    rewrite ?bool_decide_eq_true, ?bool_decide_eq_false in *; cbn; (split; [done || (intros _; done) | tauto]).
Qed.

Lemma circuit_refuses_exactly_after_a_burst_witness :
  (checkCircuit (fold_left circuitStep
     (map CircuitError [100 * Second; 105 * Second; 114 * Second; 115 * Second; 116 * Second]) newCircuit)
     RequestTypeOrder (126 * Second)).2 = true /\
  recentBurst (errorsOf (map CircuitError [100 * Second; 105 * Second; 114 * Second; 115 * Second; 116 * Second]))
    (126 * Second).
Proof.
  set (h := map CircuitError [100 * Second; 105 * Second; 114 * Second; 115 * Second; 116 * Second]).
  assert (H : (checkCircuit (fold_left circuitStep h newCircuit) RequestTypeOrder (126 * Second)).2 = true)
    by (vm_compute; reflexivity).
  split; [exact H|].
  apply (circuit_refuses_exactly_after_a_burst h (100 * Second) RequestTypeOrder (126 * Second)) in H as (_ & _ & Hb);
    [exact Hb | vm_compute; discriminate | vm_compute; repeat split; discriminate].
Defined.
