(* ===== verification/LimiterPools.v ===== *)
(** * The limiter's shared pools

    RateLimiter follows one request.  Here are all of them together, as they meet in
    executeRequest of src/pkg/ibkr/ratelimiter.go: the queue of 1,000, the two token
    buckets, the two background lanes and the 50 concurrent historical slots.  A request
    waits for a slot of a semaphore only while the semaphore is full, so a slot that is
    not given back would stop everybody behind it.  Proved over every interleaving: the
    slots taken are those of the requests inside, no release panics, and the limiter
    serves every caller. *)

From stdpp Require Import base decidable list strings.
From Stdlib Require Import ZArith Lia String.
From S2P Require Import Prelude OrderTypes SendDisposition RateLimiter.

(** ** Semaphores *)

(** A channel of capacity [sm_capacity] that holds [sm_count] values. *)
Record Semaphore := mkSemaphore { sm_capacity : nat; sm_count : nat }.
#[global] Instance Semaphore_eta : Eta Semaphore := fun s => mkSemaphore (sm_capacity s) (sm_count s).

Definition NewSemaphore (capacity : nat) : Semaphore := mkSemaphore capacity 0.

(** Acquire's send on the channel: [None] while it is full. *)
Definition Acquire (s : Semaphore) : option Semaphore :=
  if (sm_count s <? sm_capacity s)%nat then Some (s <| sm_count := S (sm_count s) |>) else None.

(** Release: [None] is the panic on an empty channel. *)
Definition Release (s : Semaphore) : option Semaphore :=
  match sm_count s with O => None | S n => Some (s <| sm_count := n |>) end.

Inductive pool := backgroundMessage | backgroundHistorical | historicalConcurrent.
#[global] Instance pool_eq_dec : EqDecision pool.
Proof. solve_decision. Defined.

Definition backgroundMessageSlots : nat := 8.
Definition backgroundHistoricalSlots : nat := 2.

(** ** A request inside executeRequest *)

(** Where executeRequest is: the background lane, the two token waits (before
    [reserve], or on the timer it set), the concurrent slot, the last check of the
    context. *)
Inductive stage :=
| LaneWait | MessageReserve | MessageTimer (reserved : bool)
| HistoricalReserve | HistoricalTimer (reserved : bool) | SlotWait | CtxCheck.

(** A submitted request with its lane and what its executeRequest has deferred. *)
Record call (W : Type) := mkCall {
  cl_Type : RequestType; cl_Priority : RequestPriority; cl_MaxRetries : nat;
  cl_req : request W; cl_stage : stage; cl_deferred : list pool
}.
Arguments mkCall {W}. Arguments cl_Type {W}. Arguments cl_Priority {W}. Arguments cl_MaxRetries {W}.
Arguments cl_req {W}. Arguments cl_stage {W}. Arguments cl_deferred {W}.
#[global] Instance call_eta {W} : Eta (call W) := fun c =>
  mkCall (cl_Type c) (cl_Priority c) (cl_MaxRetries c) (cl_req c) (cl_stage c) (cl_deferred c).

(** RateLimiter, the parts its requests share; [lm_queue] holds the positions of the
    queued requests in [lm_calls], [lm_processing] is whether processRequests runs. *)
Record limiter (W : Type) := mkLimiter {
  lm_messageRate : TokenBucket; lm_historicalRate : TokenBucket;
  lm_backgroundMessage : Semaphore; lm_backgroundHistorical : Semaphore; lm_historicalConcurrent : Semaphore;
  lm_queue : list nat; lm_processing : bool; lm_stopped : bool; lm_panicked : bool; lm_calls : list (call W)
}.
Arguments mkLimiter {W}. Arguments lm_messageRate {W}. Arguments lm_historicalRate {W}. Arguments lm_backgroundMessage {W}.
Arguments lm_backgroundHistorical {W}. Arguments lm_historicalConcurrent {W}. Arguments lm_queue {W}. Arguments lm_processing {W}.
Arguments lm_stopped {W}. Arguments lm_panicked {W}. Arguments lm_calls {W}.
#[global] Instance limiter_eta {W} : Eta (limiter W) := fun l =>
  mkLimiter (lm_messageRate l) (lm_historicalRate l) (lm_backgroundMessage l) (lm_backgroundHistorical l) (lm_historicalConcurrent l)
    (lm_queue l) (lm_processing l) (lm_stopped l) (lm_panicked l) (lm_calls l).

(** NewRateLimiter *)
Definition NewRateLimiter {W} (now : time) : limiter W :=
  mkLimiter (NewTokenBucket 40 (f_of_Z 40) now) (NewTokenBucket 60 (f_const 1 10) now)
    (NewSemaphore backgroundMessageSlots) (NewSemaphore backgroundHistoricalSlots) (NewSemaphore 50) [] true false false [].

Definition queueCapacity : nat := 1000.

Definition semaphore {W} (p : pool) (l : limiter W) : Semaphore :=
  match p with
  | backgroundMessage => lm_backgroundMessage l
  | backgroundHistorical => lm_backgroundHistorical l
  | historicalConcurrent => lm_historicalConcurrent l
  end.
Definition withSemaphore {W} (p : pool) (s : Semaphore) (l : limiter W) : limiter W :=
  match p with
  | backgroundMessage => l <| lm_backgroundMessage := s |>
  | backgroundHistorical => l <| lm_backgroundHistorical := s |>
  | historicalConcurrent => l <| lm_historicalConcurrent := s |>
  end.

Section Pools.
Context {W E : Type} (SendFunc : bool -> E -> W -> W * option sendErr) (dur : float64 -> Z).

(** The lane a background request is admitted through. *)
Definition lanePool (reqType : RequestType) : pool :=
  match reqType with RequestTypeHistorical => backgroundHistorical | _ => backgroundMessage end.

(** executeRequest begins. *)
Definition begin (c : call W) : call W :=
  c <| cl_req := (cl_req c) <| rq_phase := Executing |> |>
    <| cl_stage := match cl_Priority c with PriorityBackground => LaneWait | PriorityInteractive => MessageReserve end |>
    <| cl_deferred := [] |>.

(** The message token is paid: only historical requests have more limits. *)
Definition afterMessage (c : call W) : call W :=
  c <| cl_stage := match cl_Type c with RequestTypeHistorical => HistoricalReserve | _ => CtxCheck end |>.

(** The deferred releases, last deferred first. *)
Fixpoint runDeferred (ps : list pool) (l : limiter W) : limiter W :=
  match ps with
  | [] => l
  | p :: ps =>
      match Release (semaphore p l) with
      | Some s => runDeferred ps (withSemaphore p s l)
      | None => l <| lm_panicked := true |>
      end
  end.

(** executeRequest returns [err]: its deferred releases run, and dispatch retries or
    closes the request out. *)
Definition returned (i : nat) (c : call W) (err : option sendErr) (l : limiter W) : limiter W :=
  let l := runDeferred (cl_deferred c) l in
  l <| lm_calls := <[i := c <| cl_req := closeOut (cl_MaxRetries c) (cl_req c) err |> <| cl_deferred := [] |>]> (lm_calls l) |>.

Definition withCall (i : nat) (c : call W) (l : limiter W) : limiter W := l <| lm_calls := <[i := c]> (lm_calls l) |>.

(** What can end a wait of executeRequest. *)
Inductive execEvent :=
| XAcquire               (** the semaphore's channel takes the value *)
| XReserve (now : time)  (** WaitForTokens reserves *)
| XTimer                 (** its timer fires *)
| XCtxDone (now : time)  (** the wait, or the check, sees the context end *)
| XAdmit.                (** the context is live *)

(** One step of executeRequest of request [i]; its WaitForTokens asks for one token, which
    the capacities of 40 and 60 allow. *)
Definition executeStep (i : nat) (c : call W) (x : execEvent) (l : limiter W) : option (limiter W) :=
  let ctxDone := rq_ctx (cl_req c) || rq_stopped (cl_req c) in
  let throttled text l := returned i c (Some (wrapErr text errCanceled)) l in
  match cl_stage c, x with
  | LaneWait, XAcquire =>
      let lane := lanePool (cl_Type c) in
      match Acquire (semaphore lane l) with
      | Some s => Some (withCall i (c <| cl_stage := MessageReserve |> <| cl_deferred := lane :: cl_deferred c |>) (withSemaphore lane s l))
      | None => None
      end
  | LaneWait, XCtxDone _ => if ctxDone then Some (throttled "background pacing lane" l) else None
  | MessageReserve, XReserve now =>
      let '(tb, (delay, ok)) := reserve dur (lm_messageRate l) 1 now in
      Some (withCall i (if delay =? 0 then afterMessage c else c <| cl_stage := MessageTimer ok |>) (l <| lm_messageRate := tb |>))
  | MessageTimer ok, XTimer => Some (withCall i (if ok then afterMessage c else c <| cl_stage := MessageReserve |>) l)
  | MessageTimer ok, XCtxDone now =>
      if ctxDone then
        Some (throttled "rate limit cancelled" (if ok then l <| lm_messageRate := cancelReservation (lm_messageRate l) 1 now |> else l))
      else None
  | HistoricalReserve, XReserve now =>
      let '(tb, (delay, ok)) := reserve dur (lm_historicalRate l) 1 now in
      Some (withCall i (c <| cl_stage := if delay =? 0 then SlotWait else HistoricalTimer ok |>) (l <| lm_historicalRate := tb |>))
  | HistoricalTimer ok, XTimer => Some (withCall i (c <| cl_stage := if ok then SlotWait else HistoricalReserve |>) l)
  | HistoricalTimer ok, XCtxDone now =>
      if ctxDone then
        Some (throttled "historical rate limit" (if ok then l <| lm_historicalRate := cancelReservation (lm_historicalRate l) 1 now |> else l))
      else None
  | SlotWait, XAcquire =>
      match Acquire (lm_historicalConcurrent l) with
      | Some s => Some (withCall i (c <| cl_stage := CtxCheck |> <| cl_deferred := historicalConcurrent :: cl_deferred c |>)
                          (withSemaphore historicalConcurrent s l))
      | None => None
      end
  | SlotWait, XCtxDone _ => if ctxDone then Some (throttled "historical concurrent limit" l) else None
  | CtxCheck, XCtxDone _ => if ctxDone then Some (returned i c (Some errCanceled) l) else None
  | CtxCheck, XAdmit => if rq_ctx (cl_req c) then None else Some (withCall i (c <| cl_req := (cl_req c) <| rq_phase := Permitted |> |>) l)
  | _, _ => None
  end.

(** ** All requests *)

(** A request is queued, and waits for a dispatch. *)
Definition enqueue (i : nat) (l : limiter W) : limiter W := l <| lm_queue := lm_queue l ++ [i] |>.

(** The backoff goroutine's second select: the queue takes the request unless it is
    full; its default runs only when neither context has ended. *)
Definition requeue (i : nat) (c : call W) (l : limiter W) : option (limiter W) :=
  if negb (bool_decide (rq_phase (cl_req c) = Requeue)) then None
  else if (List.length (lm_queue l) <? queueCapacity)%nat
  then Some (enqueue i (withCall i (c <| cl_req := (cl_req c) <| rq_phase := Queued |> |>) l))
  else if rq_ctx (cl_req c) || rq_stopped (cl_req c) then None
  else Some (withCall i (c <| cl_req := report (cl_req c) (Some errRetryFull) |>) l).

(** SubmitWithRetriesContextFunc up to the queue; [None] is an early return. *)
Definition submit (reqType : RequestType) (lane : RequestPriority) (maxRetries : nat) (w : W) (ctxDone circuitOpen : bool) (l : limiter W)
    : option (limiter W) :=
  match submitRefusal (mkSubmitEnv ctxDone circuitOpen (lm_stopped l) (queueCapacity <=? List.length (lm_queue l))%nat) with
  | Some _ => None
  | None =>
      Some (enqueue (List.length (lm_calls l))
              (l <| lm_calls := lm_calls l ++ [mkCall reqType (effectivePriority lane reqType) maxRetries (newRequest w) MessageReserve []] |>))
  end.

Inductive limiterEvent :=
| PSubmit (reqType : RequestType) (lane : RequestPriority) (maxRetries : nat) (w : W) (ctxDone circuitOpen : bool)
| PTake                                  (** processRequests starts the next dispatch *)
| PReturn                                (** processRequests sees the limiter stop *)
| PExec (i : nat) (x : execEvent)        (** executeRequest of request [i] moves *)
| PSendDone (i : nat) (env : E)          (** its SendFunc returns *)
| PRequeue (i : nat)
| PRequest (i : nat) (ev : event E)      (** a step of the request that needs nothing shared *)
| PStop.                                 (** the limiter is stopped *)

(** The steps of RateLimiter's machine that are the request's alone. *)
Definition ownStep (ev : event E) : bool :=
  match ev with
  | EvEnter | EvBackoffTimer | EvBackoffCtx | EvBackoffStop | EvResult | EvTimeout | EvCallerCtx | EvCallerStop | EvCancel => true
  | _ => false
  end.

(** One event; [None] when it cannot happen now.  A panic ends the process. *)
Definition poolStep (l : limiter W) (ev : limiterEvent) : option (limiter W) :=
  if lm_panicked l then None
  else
    match ev with
    | PSubmit reqType lane maxRetries w ctxDone circuitOpen => submit reqType lane maxRetries w ctxDone circuitOpen l
    | PTake =>
        if negb (lm_processing l) then None
        else match lm_queue l with
             | i :: rest => c ← lm_calls l !! i; Some (withCall i (begin c) (l <| lm_queue := rest |>))
             | [] => None
             end
    | PReturn => if lm_processing l && lm_stopped l then Some (l <| lm_processing := false |>) else None
    | PExec i x =>
        c ← lm_calls l !! i;
        if bool_decide (rq_phase (cl_req c) = Executing) then executeStep i c x l else None
    | PSendDone i env =>
        c ← lm_calls l !! i;
        if bool_decide (rq_phase (cl_req c) = Sending) then
          let '(w, err) := SendFunc (rq_ctx (cl_req c)) env (rq_world (cl_req c)) in
          Some (returned i (c <| cl_req := (cl_req c) <| rq_world := w |> |>) err l)
        else None
    | PRequeue i => c ← lm_calls l !! i; requeue i c l
    | PRequest i ev =>
        c ← lm_calls l !! i;
        if ownStep ev then r ← limiterStep SendFunc (cl_MaxRetries c) (cl_req c) ev; Some (withCall i (c <| cl_req := r |>) l) else None
    | PStop => Some (l <| lm_stopped := true |> <| lm_calls := map (fun c => c <| cl_req := (cl_req c) <| rq_stopped := true |> |>) (lm_calls l) |>)
    end.

Fixpoint poolRun (l : limiter W) (evs : list limiterEvent) : option (limiter W) :=
  match evs with
  | [] => Some l
  | ev :: evs => match poolStep l ev with Some l' => poolRun l' evs | None => None end
  end.

(** ** What the pools hold *)

(** The slots of a request by where it is: the lane from its acquire, the concurrent
    slot of a historical request from its acquire, both until executeRequest returns. *)
Definition laneOf (c : call W) : list pool :=
  match cl_Priority c with PriorityBackground => [lanePool (cl_Type c)] | PriorityInteractive => [] end.
Definition slotOf (c : call W) : list pool :=
  match cl_Type c with RequestTypeHistorical => [historicalConcurrent] | _ => [] end.
Definition inside (c : call W) : list pool :=
  match rq_phase (cl_req c) with
  | Executing =>
      match cl_stage c with
      | LaneWait => []
      | CtxCheck => slotOf c ++ laneOf c
      | _ => laneOf c
      end
  | Permitted | Sending => slotOf c ++ laneOf c
  | _ => []
  end.

Definition countIn (p : pool) (ps : list pool) : nat := List.length (List.filter (fun q => bool_decide (q = p)) ps).
Definition holders (p : pool) (l : limiter W) : nat := sum_list_with (fun c => countIn p (inside c)) (lm_calls l).
Definition slots (p : pool) : nat :=
  match p with backgroundMessage => backgroundMessageSlots | backgroundHistorical => backgroundHistoricalSlots | historicalConcurrent => 50 end.

(** executeRequest waits only where its lane and type send it, and no token is asked
    for twice. *)
Definition staged (c : call W) : Prop :=
  match cl_stage c with
  | LaneWait => cl_Priority c = PriorityBackground
  | MessageTimer ok => ok = true
  | HistoricalTimer ok => ok = true /\ cl_Type c = RequestTypeHistorical
  | HistoricalReserve | SlotWait => cl_Type c = RequestTypeHistorical
  | _ => True
  end.

Record call_ok (stopped : bool) (c : call W) : Prop := mkCallOk {
  co_request : request_ok (cl_MaxRetries c) (cl_req c);
  co_stopped : rq_stopped (cl_req c) = stopped;
  co_staged : rq_phase (cl_req c) = Executing -> staged c;
  co_deferred : cl_deferred c = inside c
}.

Record limiter_ok (l : limiter W) : Prop := mkLimiterOk {
  lo_message : (tb_refillRate (lm_messageRate l) <=f f0) = false;
  lo_historical : (tb_refillRate (lm_historicalRate l) <=f f0) = false;
  lo_pools : forall p, sm_capacity (semaphore p l) = slots p /\ sm_count (semaphore p l) = holders p l /\ (holders p l <= slots p)%nat;
  lo_queue : NoDup (lm_queue l);
  lo_queued : forall i, i ∈ lm_queue l <-> exists c, lm_calls l !! i = Some c /\ rq_phase (cl_req c) = Queued;
  lo_processing : lm_processing l = false -> lm_stopped l = true;
  lo_panicked : lm_panicked l = false;
  lo_calls : Forall (call_ok (lm_stopped l)) (lm_calls l)
}.

(** ** The invariant is kept *)

Lemma sum_insert {A} (f : A -> nat) (l : list A) i x y : l !! i = Some y ->
  (sum_list_with f (<[i:=x]> l) + f y = sum_list_with f l + f x)%nat.
Proof.
  revert i. induction l as [|a l IH]; intros [|i] H; [done | done | |].
  - injection H as ->. cbn. lia.
  - specialize (IH i H). change (f a + sum_list_with f (<[i:=x]> l) + f y = f a + sum_list_with f l + f x)%nat. lia.
Qed.

Lemma sum_app {A} (f : A -> nat) (l k : list A) : sum_list_with f (l ++ k) = (sum_list_with f l + sum_list_with f k)%nat.
Proof. induction l as [|a l IH]; cbn; [done|]. rewrite IH. lia. Qed.

Lemma sum_map {A} (f : A -> nat) (g : A -> A) (l : list A) : (forall a, f (g a) = f a) -> sum_list_with f (map g l) = sum_list_with f l.
Proof. intros H. induction l as [|a l IH]; cbn; [done|]. by rewrite H, IH. Qed.

Lemma sum_positive {A} (f : A -> nat) (l : list A) : (0 < sum_list_with f l)%nat -> exists i a, l !! i = Some a /\ (0 < f a)%nat.
Proof.
  induction l as [|a l IH]; cbn; [lia|]. intros H. destruct (f a) eqn:Hfa.
  - destruct (IH ltac:(lia)) as (i & b & Hb & Hf). by exists (S i), b.
  - exists O, a. split; [done | lia].
Qed.

Lemma semaphore_set p q s (l : limiter W) : semaphore q (withSemaphore p s l) = if bool_decide (q = p) then s else semaphore q l.
Proof. by destruct p, q. Qed.

Lemma countIn_cons p q ps : countIn p (q :: ps) = ((if bool_decide (q = p) then 1 else 0) + countIn p ps)%nat.
Proof. unfold countIn. cbn. by case_bool_decide. Qed.

(** What the requests share besides the pools and the buckets. *)
Definition rest (l : limiter W) : list nat * bool * bool * bool * list (call W) := (lm_queue l, lm_processing l, lm_stopped l, lm_panicked l, lm_calls l).

Lemma rest_set p s (l : limiter W) : rest (withSemaphore p s l) = rest l.
Proof. by destruct p. Qed.

(** The deferred releases give back what was taken, and never panic. *)
Lemma runDeferred_spec ps (l : limiter W) :
  (forall p, countIn p ps <= sm_count (semaphore p l))%nat ->
  rest (runDeferred ps l) = rest l /\ lm_messageRate (runDeferred ps l) = lm_messageRate l /\ lm_historicalRate (runDeferred ps l) = lm_historicalRate l /\
  forall p, sm_capacity (semaphore p (runDeferred ps l)) = sm_capacity (semaphore p l) /\
            (sm_count (semaphore p (runDeferred ps l)) + countIn p ps = sm_count (semaphore p l))%nat.
Proof.
  revert l. induction ps as [|q ps IH]; intros l H; cbn [runDeferred]; [split_and!; try done; intros p; cbn; lia|].
  unfold Release. destruct (sm_count (semaphore q l)) as [|n] eqn:Hn.
  { specialize (H q). rewrite countIn_cons, bool_decide_eq_true_2 in H by done. lia. }
  destruct (IH (withSemaphore q ((semaphore q l) <| sm_count := n |>) l)) as (H1 & H2 & H3 & H4).
  { intros p. specialize (H p). rewrite semaphore_set, countIn_cons in *. rewrite (bool_decide_ext (q = p) (p = q)) in H by done.
    case_bool_decide; subst; cbn; lia. }
  split_and!; [by rewrite H1, rest_set | rewrite H2; by destruct q | rewrite H3; by destruct q|].
  intros p. destruct (H4 p) as [Ha Hb]. rewrite semaphore_set in Ha, Hb. rewrite countIn_cons, (bool_decide_ext (q = p) (p = q)) by done.
  case_bool_decide; subst; cbn in *; split; try done; lia.
Qed.

(** The step of one request, with what it did to the shared parts. *)
Lemma withCall_ok (l l1 : limiter W) i c c' :
  limiter_ok l -> lm_calls l !! i = Some c ->
  (tb_refillRate (lm_messageRate l1) <=f f0) = false -> (tb_refillRate (lm_historicalRate l1) <=f f0) = false ->
  (lm_processing l1, lm_stopped l1, lm_panicked l1, lm_calls l1) = (lm_processing l, lm_stopped l, lm_panicked l, lm_calls l) ->
  (forall p, sm_capacity (semaphore p l1) = slots p /\ (sm_count (semaphore p l1) <= slots p)%nat /\
     (sm_count (semaphore p l1) + countIn p (inside c) = sm_count (semaphore p l) + countIn p (inside c'))%nat) ->
  call_ok (lm_stopped l) c' ->
  NoDup (lm_queue l1) -> (forall j, j <> i -> j ∈ lm_queue l1 <-> j ∈ lm_queue l) -> (i ∈ lm_queue l1 <-> rq_phase (cl_req c') = Queued) ->
  limiter_ok (withCall i c' l1).
Proof.
  intros [L1 L2 L3 L4 L5 L6 L7 L8] Hc R1 R2 [= E1 E2 E3 E4] Hp Hc' Q1 Q2 Q3. unfold withCall.
  assert (Hh : forall p, holders p (l1 <| lm_calls := <[i:=c']> (lm_calls l1) |>) = sm_count (semaphore p l1)).
  { intros p. unfold holders. cbn [lm_calls]. pose proof (sum_insert (fun c => countIn p (inside c)) (lm_calls l) i c' c Hc) as Hs. cbn beta in Hs.
    change (lm_calls (l1 <| lm_calls := _ |>)) with (<[i:=c']> (lm_calls l1)). rewrite E4.
    destruct (L3 p) as (_ & Hcount & _). unfold holders in Hcount. destruct (Hp p) as (_ & _ & Hx). lia. }
  split; cbn [lm_messageRate lm_historicalRate lm_queue lm_processing lm_stopped lm_panicked lm_calls]; try done.
  - intros p. rewrite Hh. change (semaphore p (l1 <| lm_calls := _ |>)) with (semaphore p (mkLimiter (lm_messageRate l1) (lm_historicalRate l1) (lm_backgroundMessage l1)
      (lm_backgroundHistorical l1) (lm_historicalConcurrent l1) (lm_queue l1) (lm_processing l1) (lm_stopped l1) (lm_panicked l1) (<[i:=c']> (lm_calls l1)))).
    destruct (Hp p) as (Ha & Hb & _). by destruct p.
  - intros j. change (lm_calls (l1 <| lm_calls := _ |>)) with (<[i:=c']> (lm_calls l1)). change (lm_queue (l1 <| lm_calls := _ |>)) with (lm_queue l1). rewrite E4.
    assert (Hlt := lookup_lt_Some _ _ _ Hc). destruct (decide (j = i)) as [->|Hne].
    + rewrite Q3, list_lookup_insert_eq by done. split; [intros H; by exists c' | by intros (? & [= <-] & ?)].
    + rewrite (Q2 j Hne), list_lookup_insert_ne by congruence. apply L5.
  - change (lm_processing (l1 <| lm_calls := _ |>)) with (lm_processing l1). change (lm_stopped (l1 <| lm_calls := _ |>)) with (lm_stopped l1). rewrite E1, E2. done.
  - change (lm_panicked (l1 <| lm_calls := _ |>)) with (lm_panicked l1). congruence.
  - change (lm_calls (l1 <| lm_calls := _ |>)) with (<[i:=c']> (lm_calls l1)). change (lm_stopped (l1 <| lm_calls := _ |>)) with (lm_stopped l1). rewrite E2, E4.
    by apply Forall_insert.
Qed.

Lemma queue_kept (l : limiter W) i (c c' : call W) : limiter_ok l -> lm_calls l !! i = Some c ->
  (rq_phase (cl_req c) = Queued <-> rq_phase (cl_req c') = Queued) -> (i ∈ lm_queue l <-> rq_phase (cl_req c') = Queued).
Proof.
  intros Hl Hc Hq. rewrite (lo_queued _ Hl i), <- Hq. split; [intros (? & Hx & ?); by simplify_eq | eauto].
Qed.

(** A step that leaves the pools alone. *)
Lemma local_ok (l : limiter W) i c c' : limiter_ok l -> lm_calls l !! i = Some c -> inside c' = inside c -> call_ok (lm_stopped l) c' ->
  (rq_phase (cl_req c) = Queued <-> rq_phase (cl_req c') = Queued) -> limiter_ok (withCall i c' l).
Proof.
  intros Hl Hc Hin Hok Hq. apply (withCall_ok l l i c); try done; try apply Hl; [|by apply (queue_kept l i c)].
  intros p. destruct (lo_pools _ Hl p) as (H1 & H2 & H3). rewrite Hin. split_and!; lia.
Qed.

Lemma message_ok (l : limiter W) tb : limiter_ok l -> (tb_refillRate tb <=f f0) = false -> limiter_ok (l <| lm_messageRate := tb |>).
Proof. intros [L1 L2 L3 L4 L5 L6 L7 L8] Ht. split; done. Qed.

Lemma historical_ok (l : limiter W) tb : limiter_ok l -> (tb_refillRate tb <=f f0) = false -> limiter_ok (l <| lm_historicalRate := tb |>).
Proof. intros [L1 L2 L3 L4 L5 L6 L7 L8] Ht. split; done. Qed.

(** A slot is taken by the request that enters. *)
Lemma acquire_ok (l : limiter W) i c c' p s : limiter_ok l -> lm_calls l !! i = Some c -> Acquire (semaphore p l) = Some s ->
  inside c' = p :: inside c -> call_ok (lm_stopped l) c' -> rq_phase (cl_req c) <> Queued -> rq_phase (cl_req c') <> Queued ->
  limiter_ok (withCall i c' (withSemaphore p s l)).
Proof.
  intros Hl Hc Ha Hin Hok Hp Hp'. unfold Acquire in Ha. apply if_some in Ha as [Hlt%Nat.ltb_lt <-].
  assert (Hr := rest_set p ((semaphore p l) <| sm_count := S (sm_count (semaphore p l)) |>) l). unfold rest in Hr. injection Hr as R1 R2 R3 R4 R5.
  apply (withCall_ok l _ i c); try done.
  - rewrite <- (lo_message _ Hl). by destruct p.
  - rewrite <- (lo_historical _ Hl). by destruct p.
  - congruence.
  - intros q. destruct (lo_pools _ Hl q) as (H1 & H2 & H3). rewrite semaphore_set, Hin, countIn_cons, (bool_decide_ext (p = q) (q = p)) by done.
    case_bool_decide; subst; cbn in *; split_and!; lia.
  - rewrite R1. apply Hl.
  - intros j _. by rewrite R1.
  - rewrite R1. apply (queue_kept l i c); [done | done | tauto].
Qed.

Lemma closeOut_frame n (r : request W) err : rq_stopped (closeOut n r err) = rq_stopped r /\
  (rq_phase (closeOut n r err) = Backoff \/ rq_phase (closeOut n r err) = Finished).
Proof. unfold closeOut, report. case_if; split; try done; [by left | by right]. Qed.

(** executeRequest returns: everything the request took is given back. *)
Lemma returned_ok (l : limiter W) i c0 c err : limiter_ok l -> lm_calls l !! i = Some c0 -> call_ok (lm_stopped l) c -> inside c = inside c0 ->
  rq_phase (cl_req c0) <> Queued -> rq_phase (cl_req c) <> Finished -> limiter_ok (returned i c err l).
Proof.
  intros Hl Hc [C1 C2 C3 C4] Hin Hq Hf. unfold returned.
  destruct (closeOut_frame (cl_MaxRetries c) (cl_req c) err) as [Hst Hph].
  assert (Hsum : forall p, (countIn p (inside c0) <= holders p l)%nat).
  { intros p. unfold holders. pose proof (sum_insert (fun c => countIn p (inside c)) (lm_calls l) i (c0 <| cl_req := (cl_req c0) <| rq_phase := Backoff |> |>) c0 Hc) as Hs.
    cbn beta in Hs. change (inside (c0 <| cl_req := _ |>)) with (@nil pool) in Hs. change (countIn p []) with 0%nat in Hs. lia. }
  destruct (runDeferred_spec (cl_deferred c) l) as (D1 & D2 & D3 & D4).
  { intros p. rewrite C4, Hin. destruct (lo_pools _ Hl p) as (_ & -> & _). apply Hsum. }
  unfold rest in D1. injection D1 as R1 R2 R3 R4 R5.
  set (c' := c <| cl_req := _ |> <| cl_deferred := [] |>). change (limiter_ok (withCall i c' (runDeferred (cl_deferred c) l))).
  assert (Hin' : inside c' = []) by (unfold inside, c'; cbn; by destruct Hph as [-> | ->]).
  apply (withCall_ok l _ i c0); try done.
  - rewrite D2. apply Hl.
  - rewrite D3. apply Hl.
  - congruence.
  - intros p. destruct (D4 p) as [Ha Hb]. destruct (lo_pools _ Hl p) as (H1 & H2 & H3).
    assert (Hx : countIn p (cl_deferred c) = countIn p (inside c0)) by congruence. rewrite Hin'. change (countIn p []) with 0%nat. split_and!; lia.
  - split; [apply closeOut_ok; done | cbn; congruence | intros Hx; exfalso; cbn in Hx; destruct Hph; congruence | done].
  - rewrite R1. apply Hl.
  - intros j _. by rewrite R1.
  - rewrite R1. apply (queue_kept l i c0); [done | done|]. cbn. split; [done | intros Hx; destruct Hph; congruence].
Qed.

Lemma reserve_spec tb n now : (tb_refillRate tb <=f f0) = false ->
  exists tb' delay, reserve dur tb n now = (tb', (delay, true)) /\ (tb_refillRate tb' <=f f0) = false.
Proof.
  intros H. unfold reserve. change (tb_refillRate (refillLocked tb now)) with (tb_refillRate tb). case_if; [eauto|]. rewrite H. eauto.
Qed.

Lemma call_at (l : limiter W) i c : limiter_ok l -> lm_calls l !! i = Some c -> call_ok (lm_stopped l) c.
Proof. intros Hl Hc. exact (Forall_lookup_1 _ _ _ _ (lo_calls _ Hl) Hc). Qed.

(** executeRequest goes on to another wait. *)
Lemma stage_ok (l : limiter W) i c st : limiter_ok l -> lm_calls l !! i = Some c -> rq_phase (cl_req c) = Executing ->
  staged (c <| cl_stage := st |>) -> inside (c <| cl_stage := st |>) = inside c -> limiter_ok (withCall i (c <| cl_stage := st |>) l).
Proof.
  intros Hl Hc Hp Hs Hin. destruct (call_at l i c Hl Hc) as [C1 C2 C3 C4].
  apply (local_ok l i c); try done. split; try done. by rewrite Hin.
Qed.

(** Its waits all end with the context in the same way. *)
Lemma throttled_ok (l : limiter W) i c err : limiter_ok l -> lm_calls l !! i = Some c -> rq_phase (cl_req c) = Executing -> limiter_ok (returned i c err l).
Proof. intros Hl Hc Hp. apply (returned_ok l i c); try done; [by eapply call_at | congruence | congruence]. Qed.

Lemma afterMessage_ok (l : limiter W) i c : limiter_ok l -> lm_calls l !! i = Some c -> rq_phase (cl_req c) = Executing -> inside c = laneOf c ->
  limiter_ok (withCall i (afterMessage c) l).
Proof.
  intros Hl Hc Hp Hin. unfold afterMessage. apply stage_ok; try done.
  - unfold staged. cbn. by destruct (cl_Type c).
  - unfold inside at 1. cbn. rewrite Hp, Hin. unfold slotOf, laneOf. cbn. by destruct (cl_Type c).
Qed.

Lemma executeStep_ok (l : limiter W) i c x l' : limiter_ok l -> lm_calls l !! i = Some c -> rq_phase (cl_req c) = Executing ->
  executeStep i c x l = Some l' -> limiter_ok l'.
Proof.
  intros Hl Hc Hp H. assert (Hok := call_at l i c Hl Hc). assert (Hs := co_staged _ _ Hok Hp). unfold staged in Hs.
  assert (Hlane : cl_stage c <> LaneWait -> cl_stage c <> CtxCheck -> inside c = laneOf c) by (intros H1 H2; unfold inside; rewrite Hp; by destruct (cl_stage c)).
  unfold executeStep in H. cbv zeta in H. destruct (cl_stage c) as [| |ok| |ok| |] eqn:Hst; destruct x as [|now| |now|]; try discriminate.
  - destruct (Acquire _) as [s|] eqn:Ha; [|done]. injection H as <-. apply (acquire_ok l i c); try done; cbn; try congruence.
    + unfold inside. cbn. by rewrite Hp, Hst; unfold laneOf; cbn; rewrite Hs.
    + destruct Hok as [C1 C2 C3 C4]. split; try done. cbn. rewrite C4. unfold inside. cbn. by rewrite Hp, Hst; unfold laneOf; cbn; rewrite Hs.
  - apply if_some in H as [_ <-]. by apply throttled_ok.
  - destruct (reserve_spec (lm_messageRate l) 1 now (lo_message _ Hl)) as (tb & delay & Hr & Ht). rewrite Hr in H. injection H as <-.
    assert (Hl1 := message_ok l tb Hl Ht). case_if; [apply afterMessage_ok; [done | done | done | by apply Hlane]|].
    apply stage_ok; try done. unfold inside. cbn. by rewrite Hp, Hst.
  - injection H as <-. subst ok. apply afterMessage_ok; [done | done | done | by apply Hlane].
  - apply if_some in H as [_ <-]. apply throttled_ok; [|subst ok; done | done]. subst ok. by apply message_ok; [|apply Hl].
  - destruct (reserve_spec (lm_historicalRate l) 1 now (lo_historical _ Hl)) as (tb & delay & Hr & Ht). rewrite Hr in H. injection H as <-.
    assert (Hl1 := historical_ok l tb Hl Ht). case_if; (apply stage_ok; [done | done | done | done |]; unfold inside; cbn; by rewrite Hp, Hst).
  - injection H as <-. destruct Hs as [-> Hs]. apply stage_ok; try done. unfold inside. cbn. by rewrite Hp, Hst.
  - apply if_some in H as [_ <-]. destruct Hs as [-> Hs]. apply throttled_ok; try done. by apply historical_ok; [|apply Hl].
  - destruct (Acquire _) as [s|] eqn:Ha; [|done]. injection H as <-. apply (acquire_ok l i c _ historicalConcurrent); try done; cbn; try congruence.
    + unfold inside. cbn. by rewrite Hp, Hst; unfold slotOf, laneOf; cbn; rewrite Hs.
    + destruct Hok as [C1 C2 C3 C4]. split; try done. cbn. rewrite C4. unfold inside. cbn. by rewrite Hp, Hst; unfold slotOf, laneOf; cbn; rewrite Hs.
  - apply if_some in H as [_ <-]. by apply throttled_ok.
  - apply if_some in H as [_ <-]. by apply throttled_ok.
  - destruct (rq_ctx (cl_req c)) eqn:Hctx; [done|]. injection H as <-. destruct Hok as [C1 C2 C3 C4].
    assert (Hin : inside (c <| cl_req := (cl_req c) <| rq_phase := Permitted |> |>) = inside c) by (unfold inside; cbn; by rewrite Hp, Hst).
    apply (local_ok l i c); try done; [|by rewrite Hp]. split; try done; [|rewrite Hin; exact C4].
    apply (limiterStep_ok SendFunc _ (cl_req c) EvAdmit); [done|]. cbn. by rewrite Hctx, bool_decide_eq_true_2.
Qed.

(** What a request's own steps change. *)
Lemma ownStep_frame n (r : request W) ev r' : ownStep ev = true -> limiterStep SendFunc n r ev = Some r' ->
  rq_stopped r' = rq_stopped r /\
  (rq_phase r' = rq_phase r \/ rq_phase r = Permitted /\ rq_phase r' = Sending \/
   (rq_phase r = Backoff \/ rq_phase r = Requeue) /\ (rq_phase r' = Requeue \/ rq_phase r' = Finished)).
Proof.
  intros Hown H. destruct ev as [| | | |env| | | |full| | | | | |]; try discriminate Hown; cbn [limiterStep] in H.
  5: { destruct (rq_chan r); [done|]. apply if_some in H as [_ <-]. by split; [|left]. }
  all: if_inv H; subst r'; try (split; [done|]); try by left.
  - right. left. done.
  - right. right. split; [by left | by left].
  - right. right. split; [|by right]. destruct (rq_phase r); try done; [by left | by right].
  - right. right. split; [|by right]. destruct (rq_phase r); try done; [by left | by right].
Qed.

Lemma own_ok (l : limiter W) i c ev r : limiter_ok l -> lm_calls l !! i = Some c -> ownStep ev = true ->
  limiterStep SendFunc (cl_MaxRetries c) (cl_req c) ev = Some r -> limiter_ok (withCall i (c <| cl_req := r |>) l).
Proof.
  intros Hl Hc Hown Hs. destruct (call_at l i c Hl Hc) as [C1 C2 C3 C4]. destruct (ownStep_frame _ _ _ _ Hown Hs) as [F1 F2].
  assert (Hin : inside (c <| cl_req := r |>) = inside c).
  { unfold inside. cbn. destruct F2 as [P|[[P P']|[[P|P] [P'|P']]]]; try rewrite P'; rewrite P; done. }
  apply (local_ok l i c); try done.
  - split; [by apply (limiterStep_ok SendFunc _ (cl_req c) ev) | cbn; congruence | | rewrite Hin; exact C4].
    intros Hx. apply C3. cbn in Hx. destruct F2 as [?|[[_ ?]|[_ [?|?]]]]; congruence.
  - cbn. destruct F2 as [P|[[P P']|[[P|P] [P'|P']]]]; try rewrite P'; rewrite P; done.
Qed.

Lemma new_index (l : limiter W) : limiter_ok l -> List.length (lm_calls l) ∉ lm_queue l.
Proof. intros Hl Hin. apply (lo_queued _ Hl) in Hin as (c & Hc%lookup_lt_Some & _). lia. Qed.

Lemma submit_ok (l : limiter W) reqType lane n w ctxDone circuitOpen l' :
  limiter_ok l -> submit reqType lane n w ctxDone circuitOpen l = Some l' -> limiter_ok l'.
Proof.
  intros Hl H. assert (Hnew := new_index l Hl). destruct Hl as [L1 L2 L3 L4 L5 L6 L7 L8]. unfold submit in H.
  destruct (submitRefusal _) eqn:Hr; [done|]. injection H as <-.
  assert (Hst : lm_stopped l = false).
  { revert Hr. unfold submitRefusal. cbn. destruct ctxDone, circuitOpen; try done. by destruct (lm_stopped l). }
  set (c := mkCall reqType _ n _ _ _). unfold enqueue. split; try done.
  - intros p. change (semaphore p (_ <| lm_queue := _ |>)) with (semaphore p (l <| lm_calls := lm_calls l ++ [c] |>)).
    assert (Hh : holders p (l <| lm_calls := lm_calls l ++ [c] |> <| lm_queue := lm_queue l ++ [List.length (lm_calls l)] |>) = holders p l).
    { unfold holders. cbn. rewrite sum_app. cbn. lia. }
    change (lm_queue (l <| lm_calls := lm_calls l ++ [c] |>)) with (lm_queue l). rewrite Hh. specialize (L3 p). by destruct p.
  - cbn. apply NoDup_app. split_and!; [done | intros j Hj ->%list_elem_of_singleton; done | apply NoDup_singleton].
  - intros j. cbn. rewrite elem_of_app, list_elem_of_singleton, L5. split.
    + intros [(d & Hd & Hq)| ->]; [exists d; split; [by apply lookup_app_l_Some | done]|]. exists c. split; [|done]. by rewrite lookup_app_r, Nat.sub_diag by done.
    + intros (d & Hd & Hq). apply lookup_app_Some in Hd as [Hd|[Hge Hd]]; [left; eauto|]. right.
      apply list_lookup_singleton_Some in Hd as [Hz _]. lia.
  - apply Forall_app. split; [done|]. apply Forall_singleton. split; try done. apply newRequest_ok.
Qed.

Lemma take_ok (l : limiter W) i rest c : limiter_ok l -> lm_queue l = i :: rest -> lm_calls l !! i = Some c ->
  limiter_ok (withCall i (begin c) (l <| lm_queue := rest |>)).
Proof.
  intros Hl Hq Hc. destruct (call_at l i c Hl Hc) as [C1 C2 C3 C4].
  assert (Hp : rq_phase (cl_req c) = Queued).
  { assert (Hi : i ∈ lm_queue l) by (rewrite Hq; left). apply (lo_queued _ Hl) in Hi as (c' & Hc' & Hx). congruence. }
  assert (Hnd := lo_queue _ Hl). rewrite Hq in Hnd. apply NoDup_cons in Hnd as [Hni Hnd].
  assert (Hin : inside c = [] /\ inside (begin c) = []).
  { unfold inside, begin, laneOf. cbn. rewrite Hp. by destruct (cl_Priority c). }
  destruct Hin as [Hin Hin']. apply (withCall_ok l _ i c); try done; try apply Hl.
  - intros p. destruct (lo_pools _ Hl p) as (H1 & H2 & H3). rewrite Hin, Hin'. change (semaphore p (l <| lm_queue := rest |>)) with (semaphore p l). split_and!; lia.
  - split; [| done | | by rewrite Hin'].
    + apply (limiterStep_ok SendFunc _ (cl_req c) EvTake); [done|]. cbn. by rewrite bool_decide_eq_true_2.
    + intros _. unfold staged, begin. cbn. by destruct (cl_Priority c) eqn:Hpr.
  - intros j Hne. cbn. rewrite Hq, elem_of_cons. tauto.
Qed.

Lemma requeue_ok (l : limiter W) i c l' : limiter_ok l -> lm_calls l !! i = Some c -> requeue i c l = Some l' -> limiter_ok l'.
Proof.
  intros Hl Hc H. destruct (call_at l i c Hl Hc) as [C1 C2 C3 C4]. unfold requeue in H.
  destruct (bool_decide (rq_phase (cl_req c) = Requeue)) eqn:Hp; [|done]. apply bool_decide_eq_true in Hp. cbn [negb] in H.
  assert (Hin : inside c = []) by (unfold inside; by rewrite Hp).
  assert (Hni : i ∉ lm_queue l) by (intros (c' & Hc' & Hx)%(lo_queued _ Hl); congruence).
  case_if_in H.
  - injection H as <-. set (c' := c <| cl_req := _ |>). change (limiter_ok (withCall i c' (enqueue i l))).
    apply (withCall_ok l (enqueue i l) i c); try done; try apply Hl.
    + intros p. destruct (lo_pools _ Hl p) as (H1 & H2 & H3). rewrite Hin. change (semaphore p (enqueue i l)) with (semaphore p l). change (inside c') with (@nil pool). split_and!; lia.
    + split; try done; [|cbn; congruence]. apply (limiterStep_ok SendFunc _ (cl_req c) (EvRequeue false)); [done|]. cbn. by rewrite bool_decide_eq_true_2.
    + cbn. apply NoDup_app. split_and!; [apply Hl | intros j Hj ->%list_elem_of_singleton; done | apply NoDup_singleton].
    + intros j Hne. cbn. rewrite elem_of_app, list_elem_of_singleton. tauto.
    + cbn. rewrite elem_of_app, list_elem_of_singleton. tauto.
  - destruct (rq_ctx _ || _); [done|]. injection H as <-. apply (local_ok l i c); try done; [|cbn; rewrite Hp; done].
    split; try done; [by apply report_ok; [|congruence] | cbn; congruence].
Qed.

Lemma stop_ok (l : limiter W) : limiter_ok l ->
  limiter_ok (l <| lm_stopped := true |> <| lm_calls := map (fun c => c <| cl_req := (cl_req c) <| rq_stopped := true |> |>) (lm_calls l) |>).
Proof.
  intros [L1 L2 L3 L4 L5 L6 L7 L8]. set (stop := fun c : call W => c <| cl_req := _ |>). split; try done.
  - intros p. specialize (L3 p). unfold holders in *. cbn [lm_calls]. change (lm_calls (_ <| lm_calls := _ |>)) with (map stop (lm_calls l)).
    rewrite sum_map by done. by destruct p.
  - intros j. cbn. change (map stop (lm_calls l)) with (stop <$> lm_calls l). rewrite list_lookup_fmap, L5. split.
    + intros (c & -> & Hq). by exists (stop c).
    + intros (c & Hc & Hq). apply fmap_Some in Hc as (d & -> & ->). by exists d.
  - cbn. apply Forall_map. eapply Forall_impl; [exact L8|]. intros c [C1 C2 C3 C4]. split; try done.
    by apply (limiterStep_ok SendFunc _ (cl_req c) EvStop).
Qed.

Lemma poolStep_ok (l : limiter W) ev l' : limiter_ok l -> poolStep l ev = Some l' -> limiter_ok l'.
Proof.
  intros Hl H. unfold poolStep in H. rewrite (lo_panicked _ Hl) in H. destruct ev as [reqType lane n w ctxDone circuitOpen| | |i x|i env|i|i ev|].
  - by eapply submit_ok.
  - destruct (negb (lm_processing l)); [done|]. destruct (lm_queue l) as [|i rest] eqn:Hq; [done|].
    apply bind_Some in H as (c & Hc & [= <-]). by apply take_ok.
  - apply if_some in H as [Hb <-]. apply andb_true_iff in Hb as [_ Hst]. destruct Hl. by split.
  - apply bind_Some in H as (c & Hc & H). case_bool_decide; [|done]. by eapply executeStep_ok.
  - apply bind_Some in H as (c & Hc & H). case_bool_decide as Hp; [|done]. destruct (SendFunc _ _ _) as [w err]. injection H as <-.
    destruct (call_at l i c Hl Hc) as [C1 C2 C3 C4]. apply (returned_ok l i c); try done; [|congruence | cbn; congruence].
    split; try done. by apply set_world_ok.
  - apply bind_Some in H as (c & Hc & H). by eapply requeue_ok.
  - apply bind_Some in H as (c & Hc & H). destruct (ownStep ev) eqn:Ho; [|done]. apply bind_Some in H as (r & Hr & [= <-]). by eapply own_ok.
  - injection H as <-. by apply stop_ok.
Qed.

Lemma new_ok now : limiter_ok (NewRateLimiter now).
Proof.
  split; [vm_compute; reflexivity | vm_compute; reflexivity | | constructor | | done | done | constructor].
  - intros p. destruct p; cbn; split_and!; lia.
  - intros i. cbn. split; [by intros Hx%not_elem_of_nil | by intros (c & Hx & _)].
Qed.

Lemma poolRun_ok (l : limiter W) evs l' : limiter_ok l -> poolRun l evs = Some l' -> limiter_ok l'.
Proof.
  revert l. induction evs as [|ev evs IH]; intros l Hl H; cbn in H; [by injection H as <-|].
  destruct (poolStep l ev) as [l1|] eqn:Hs; [|done]. eapply IH; [by eapply poolStep_ok | done].
Qed.

(** ** Progress *)

(** The steps of the limiter itself: all but what the callers and owners ask for. *)
Definition advances (ev : limiterEvent) : bool :=
  match ev with PSubmit _ _ _ _ _ _ | PStop | PRequest _ EvCancel => false | _ => true end.

(** Those that serve a request; a caller that runs out of time is not served. *)
Definition serves (ev : limiterEvent) : bool :=
  match ev with PReturn | PRequest _ EvTimeout => false | ev => advances ev end.

(** executeRequest, the send, the backoff or the requeue of a request is under way. *)
Definition running (c : call W) : bool := match rq_phase (cl_req c) with Queued | Finished => false | _ => true end.
Definition unserved (c : call W) : Prop := rq_caller (cl_req c) = Waiting \/ running c = true.

Definition stageRank (st : stage) : nat :=
  match st with
  | LaneWait => 10 | MessageReserve => 9 | MessageTimer _ => 8 | HistoricalReserve => 7 | HistoricalTimer _ => 6 | SlotWait => 5 | CtxCheck => 4
  end.
Definition callRank (c : call W) : nat :=
  match rq_phase (cl_req c) with
  | Backoff => 13 | Requeue => 12 | Queued => 11 | Executing => stageRank (cl_stage c) | Permitted => 3 | Sending => 2 | Finished => 0
  end.

(** The steps a request can still make. *)
Definition callWork (c : call W) : nat :=
  (match rq_phase (cl_req c) with Finished => 0 | _ => (cl_MaxRetries c - rq_retries (cl_req c)) * 14 + callRank c end +
   (if isWaiting (cl_req c) then 1 else 0))%nat.
Definition work (l : limiter W) : nat := (sum_list_with callWork (lm_calls l) + (if lm_processing l then 1 else 0))%nat.

(** The steps a submission adds. *)
Definition allows (ev : limiterEvent) : nat := match ev with PSubmit _ _ n _ _ _ => (14 * n + 12)%nat | _ => 0%nat end.

Lemma work_call (l : limiter W) i c c' : lm_calls l !! i = Some c -> (callWork c' < callWork c)%nat -> (work (withCall i c' l) < work l)%nat.
Proof.
  intros Hc Hw. unfold work. pose proof (sum_insert callWork (lm_calls l) i c' c Hc) as Hs.
  change (lm_calls (withCall i c' l)) with (<[i:=c']> (lm_calls l)). change (lm_processing (withCall i c' l)) with (lm_processing l). lia.
Qed.

Lemma runDeferred_work ps (l : limiter W) : lm_calls (runDeferred ps l) = lm_calls l /\ lm_processing (runDeferred ps l) = lm_processing l.
Proof.
  revert l. induction ps as [|p ps IH]; intros l; cbn [runDeferred]; [done|]. destruct (Release _) as [s|]; [|done].
  destruct (IH (withSemaphore p s l)) as [-> ->]. by destruct p.
Qed.

Lemma closeOut_work (c : call W) err : rq_phase (cl_req c) <> Finished -> (2 <= callRank c)%nat ->
  (callWork (c <| cl_req := closeOut (cl_MaxRetries c) (cl_req c) err |> <| cl_deferred := [] |>) < callWork c)%nat.
Proof.
  intros Hf Hr. unfold closeOut. destruct (shouldRetry _ _ _) eqn:Hs.
  - apply should_retry_room in Hs. unfold callWork, callRank, isWaiting in *. destruct c as [ty pr n [p k ch s cx st cl ca w] sg df]. cbn in *.
    destruct p; try done; destruct cl; cbn in *; lia.
  - unfold callWork, callRank, isWaiting, report in *. destruct c as [ty pr n [p k ch s cx st cl ca w] sg df]. cbn in *.
    destruct p; try done; destruct cl; cbn in *; lia.
Qed.

Lemma returned_work (l : limiter W) i c0 c err : lm_calls l !! i = Some c0 -> callWork c = callWork c0 -> rq_phase (cl_req c) <> Finished ->
  (2 <= callRank c)%nat -> (work (returned i c err l) < work l)%nat.
Proof.
  intros Hc Hw Hf Hr. unfold returned. destruct (runDeferred_work (cl_deferred c) l) as [D1 D2].
  set (c' := c <| cl_req := _ |> <| cl_deferred := [] |>). change (work (withCall i c' (runDeferred (cl_deferred c) l)) < work l)%nat.
  replace (work l) with (work (runDeferred (cl_deferred c) l)) by (unfold work; by rewrite D1, D2).
  apply (work_call _ i c0); [by rewrite D1|]. rewrite <- Hw. by apply closeOut_work.
Qed.

Lemma stage_work (c c' : call W) : rq_phase (cl_req c) = Executing -> cl_req c' = cl_req c -> cl_MaxRetries c' = cl_MaxRetries c ->
  (stageRank (cl_stage c') < stageRank (cl_stage c))%nat -> (callWork c' < callWork c)%nat.
Proof. intros Hp Hr Hm Hs. unfold callWork, callRank. rewrite Hr, Hm, Hp. lia. Qed.

Lemma executeStep_work (l : limiter W) i c x l' : limiter_ok l -> lm_calls l !! i = Some c -> rq_phase (cl_req c) = Executing ->
  executeStep i c x l = Some l' -> (work l' < work l)%nat.
Proof.
  intros Hl Hc Hp H. assert (Hs := co_staged _ _ (call_at l i c Hl Hc) Hp). unfold staged in Hs.
  assert (Hret : forall err l1, lm_calls l1 = lm_calls l -> lm_processing l1 = lm_processing l -> (work (returned i c err l1) < work l)%nat).
  { intros err l1 H1 H2. replace (work l) with (work l1) by (unfold work; by rewrite H1, H2). apply (returned_work l1 i c); [by rewrite H1 | done | congruence|].
    unfold callRank. rewrite Hp. destruct (cl_stage c); cbn; lia. }
  assert (Hmove : forall c' l1, lm_calls l1 = lm_calls l -> lm_processing l1 = lm_processing l -> (callWork c' < callWork c)%nat -> (work (withCall i c' l1) < work l)%nat).
  { intros c' l1 H1 H2 H3. replace (work l) with (work l1) by (unfold work; by rewrite H1, H2). apply (work_call l1 i c); [by rewrite H1 | done]. }
  unfold executeStep in H. cbv zeta in H. destruct (cl_stage c) as [| |ok| |ok| |] eqn:Hst; destruct x as [|now| |now|]; try discriminate.
  all: try (apply if_some in H as [_ <-]; apply Hret; destruct ok; done).
  all: try (apply if_some in H as [_ <-]; apply Hret; done).
  - destruct (Acquire _) as [s|]; [|done]. injection H as <-. apply Hmove; [by destruct (lanePool _) | by destruct (lanePool _)|].
    apply stage_work; try done. rewrite Hst. cbn. lia.
  - destruct (reserve_spec (lm_messageRate l) 1 now (lo_message _ Hl)) as (tb & delay & Hr & _). rewrite Hr in H. injection H as <-.
    apply Hmove; [done | done|]. case_if; apply stage_work; try done; rewrite Hst; cbn; [destruct (cl_Type c); cbn; lia | lia].
  - injection H as <-. subst ok. apply Hmove; [done | done|]. apply stage_work; try done; rewrite Hst; cbn; destruct (cl_Type c); cbn; lia.
  - destruct (reserve_spec (lm_historicalRate l) 1 now (lo_historical _ Hl)) as (tb & delay & Hr & _). rewrite Hr in H. injection H as <-.
    apply Hmove; [done | done|]. apply stage_work; try done; rewrite Hst; cbn; case_if; cbn; lia.
  - injection H as <-. destruct Hs as [-> _]. apply Hmove; [done | done|]. apply stage_work; try done; rewrite Hst; cbn; lia.
  - destruct (Acquire _) as [s|]; [|done]. injection H as <-. apply Hmove; [done | done|]. apply stage_work; try done. rewrite Hst. cbn. lia.
  - destruct (rq_ctx (cl_req c)); [done|]. injection H as <-. apply Hmove; [done | done|]. unfold callWork, callRank. cbn. rewrite Hp, Hst. cbn.
    unfold isWaiting. cbn. lia.
Qed.

Lemma own_work (c : call W) ev r : ownStep ev = true -> limiterStep SendFunc (cl_MaxRetries c) (cl_req c) ev = Some r ->
  (callWork (c <| cl_req := r |>) + (match ev with EvCancel => 0 | _ => 1 end) <= callWork c)%nat.
Proof.
  intros Hown H. destruct ev as [| | | |env| | | |full| | | | | |]; try discriminate Hown; cbn [limiterStep] in H.
  5: { destruct (rq_chan (cl_req c)) as [|err rest']; [done|]. apply if_some in H as [Hw%waiting_true <-].
       unfold callWork, callRank, isWaiting, answer. cbn. rewrite Hw. destruct (rq_phase (cl_req c)); cbn; lia. }
  all: if_inv H; subst r.
  all: repeat match goal with
       | Hw : isWaiting _ = true |- _ => apply waiting_true in Hw
       | Hb : _ || _ = true |- _ => apply orb_true_iff in Hb as [Hb | Hb]
       | Hb : bool_decide _ = true |- _ => apply bool_decide_eq_true in Hb
       end.
  all: destruct c as [ty pr n [p k ch s cx st cl ca w] sg df]; unfold callWork, callRank, isWaiting, report, answer; cbn in *; subst; cbn;
    try destruct p; cbn; try destruct cl; cbn; lia.
Qed.

Lemma poolStep_work (l : limiter W) ev l' : limiter_ok l -> poolStep l ev = Some l' ->
  (work l' + (if advances ev then 1 else 0) <= work l + allows ev)%nat.
Proof.
  intros Hl H. unfold poolStep in H. rewrite (lo_panicked _ Hl) in H. destruct ev as [reqType lane n w ctxDone circuitOpen| | |i x|i env|i|i ev|]; cbn [advances allows].
  - unfold submit in H. destruct (submitRefusal _); [done|]. injection H as <-. set (c := mkCall reqType _ n _ _ _).
    assert (Hc : callWork c = (14 * n + 12)%nat) by (unfold callWork, callRank, isWaiting; cbn; lia).
    unfold work, enqueue. change (lm_calls (_ <| lm_queue := _ |>)) with (lm_calls l ++ [c]). change (lm_processing (_ <| lm_queue := _ |>)) with (lm_processing l).
    rewrite sum_app. change (sum_list_with callWork [c]) with (callWork c + 0)%nat. lia.
  - destruct (negb (lm_processing l)); [done|]. destruct (lm_queue l) as [|i rest'] eqn:Hq; [done|]. apply bind_Some in H as (c & Hc & [= <-]).
    assert (Hi : i ∈ lm_queue l) by (rewrite Hq; left). apply (lo_queued _ Hl) in Hi as (c' & Hc' & Hp). assert (c' = c) as -> by congruence.
    assert (Hx := work_call (l <| lm_queue := rest' |>) i c (begin c) Hc). change (work (l <| lm_queue := rest' |>)) with (work l) in Hx.
    assert (Hy : (callWork (begin c) < callWork c)%nat); [|rewrite Nat.add_1_r, Nat.add_0_r; exact (Hx Hy)].
    unfold callWork, callRank, begin, isWaiting. cbn. rewrite Hp. destruct (cl_Priority c); cbn; lia.
  - apply if_some in H as [Hb <-]. apply andb_true_iff in Hb as [Hpr _]. unfold work. cbn. rewrite Hpr. lia.
  - apply bind_Some in H as (c & Hc & H). case_bool_decide; [|done]. assert (Hx := executeStep_work l i c x l' Hl Hc). specialize (Hx ltac:(done) H). lia.
  - apply bind_Some in H as (c & Hc & H). case_bool_decide as Hp; [|done]. destruct (SendFunc _ _ _) as [w err]. injection H as <-.
    set (c' := c <| cl_req := _ |>). assert (Hp' : rq_phase (cl_req c') = Sending) by exact Hp.
    assert (Hx : (work (returned i c' err l) < work l)%nat); [|rewrite Nat.add_1_r, Nat.add_0_r; exact Hx].
    apply (returned_work l i c); [done | done | congruence|]. unfold callRank. by rewrite Hp'.
  - apply bind_Some in H as (c & Hc & H). unfold requeue in H. destruct (bool_decide (rq_phase (cl_req c) = Requeue)) eqn:Hp; [|done]. apply bool_decide_eq_true in Hp. cbn [negb] in H.
    case_if_in H.
    + injection H as <-. assert (Hx := work_call l i c (c <| cl_req := (cl_req c) <| rq_phase := Queued |> |>) Hc). unfold enqueue.
      assert (Hy : (callWork (c <| cl_req := (cl_req c) <| rq_phase := Queued |> |>) < callWork c)%nat); [|rewrite Nat.add_1_r, Nat.add_0_r; exact (Hx Hy)].
      unfold callWork, callRank, isWaiting. cbn. rewrite Hp. lia.
    + destruct (rq_ctx _ || _); [done|]. injection H as <-. assert (Hx := work_call l i c (c <| cl_req := report (cl_req c) (Some errRetryFull) |>) Hc).
      assert (Hy : (callWork (c <| cl_req := report (cl_req c) (Some errRetryFull) |>) < callWork c)%nat); [|specialize (Hx Hy); lia].
      unfold callWork, callRank, isWaiting. cbn. rewrite Hp. lia.
  - apply bind_Some in H as (c & Hc & H). destruct (ownStep ev) eqn:Ho; [|done]. apply bind_Some in H as (r & Hr & [= <-]).
    assert (Hx := own_work c ev r Ho Hr). pose proof (sum_insert callWork (lm_calls l) i (c <| cl_req := r |>) c Hc) as Hs. unfold work.
    change (lm_calls (withCall i _ l)) with (<[i:=c <| cl_req := r |>]> (lm_calls l)). change (lm_processing (withCall i _ l)) with (lm_processing l).
    destruct ev; cbn in *; lia.
  - injection H as <-. unfold work. set (stop := fun c : call W => _). change (lm_calls (_ <| lm_calls := _ |>)) with (map stop (lm_calls l)).
    rewrite sum_map by done. change (lm_processing (_ <| lm_calls := _ |>)) with (lm_processing l). lia.
Qed.

Lemma poolRun_work (l : limiter W) evs l' : limiter_ok l -> poolRun l evs = Some l' ->
  (work l' + List.length (List.filter advances evs) <= work l + sum_list_with allows evs)%nat.
Proof.
  revert l. induction evs as [|ev evs IH]; intros l Hl H; cbn [poolRun] in H; [injection H as <-; cbn; lia|].
  destruct (poolStep l ev) as [l1|] eqn:Hs; [|done]. assert (H1 := poolStep_work l ev l1 Hl Hs). assert (H2 := IH l1 (poolStep_ok _ _ _ Hl Hs) H).
  cbn [List.filter sum_list_with]. destruct (advances ev); cbn [List.length]; lia.
Qed.

(** ** Nobody is left waiting *)

Definition served_step (l : limiter W) : Prop := exists ev l', serves ev = true /\ poolStep l ev = Some l'.

Lemma exec_enabled (l : limiter W) i c x l' : limiter_ok l -> lm_calls l !! i = Some c -> rq_phase (cl_req c) = Executing ->
  executeStep i c x l = Some l' -> served_step l.
Proof.
  intros Hl Hc Hp H. exists (PExec i x), l'. split; [done|]. unfold poolStep. rewrite (lo_panicked _ Hl), Hc. cbn. by rewrite bool_decide_eq_true_2.
Qed.

Lemma own_enabled (l : limiter W) i c ev r : limiter_ok l -> lm_calls l !! i = Some c -> ownStep ev = true -> serves (PRequest i ev) = true ->
  limiterStep SendFunc (cl_MaxRetries c) (cl_req c) ev = Some r -> served_step l.
Proof.
  intros Hl Hc Ho Hs Hr. exists (PRequest i ev). eexists. split; [done|]. unfold poolStep. rewrite (lo_panicked _ Hl), Hc. cbn -[limiterStep]. rewrite Ho, Hr. done.
Qed.

(** Past the acquire of the pool it needs last, a request is not held up by anyone. *)
Lemma free_enabled (l : limiter W) i c (env : E) (t : time) : limiter_ok l -> lm_calls l !! i = Some c ->
  match rq_phase (cl_req c) with
  | Executing => match cl_stage c with LaneWait | SlotWait => False | _ => True end
  | Permitted | Sending => True
  | _ => False
  end -> served_step l.
Proof.
  intros Hl Hc H. destruct (rq_phase (cl_req c)) eqn:Hp; try done.
  - assert (Hx : exists x l', executeStep i c x l = Some l'); [|destruct Hx as (x & l' & Hx); by eapply exec_enabled].
    unfold executeStep. destruct (cl_stage c) as [| |ok| |ok| |] eqn:Hst; try done.
    + exists (XReserve t). destruct (reserve _ _ _ _) as [tb [delay ok]]. eauto.
    + exists XTimer. eauto.
    + exists (XReserve t). destruct (reserve _ _ _ _) as [tb [delay ok]]. eauto.
    + exists XTimer. eauto.
    + destruct (rq_ctx (cl_req c)) eqn:Hctx; [exists (XCtxDone t) | exists XAdmit]; cbn; rewrite ?Hctx; eauto.
  - eapply (own_enabled l i c EvEnter); try done. cbn. by rewrite bool_decide_eq_true_2.
  - exists (PSendDone i env). unfold poolStep. rewrite (lo_panicked _ Hl), Hc. cbn. rewrite bool_decide_eq_true_2 by done.
    destruct (SendFunc _ _ _) as [w err]. eauto.
Qed.

(** A full pool has a request inside. *)
Lemma full_pool (l : limiter W) p : limiter_ok l -> Acquire (semaphore p l) = None -> exists i c, lm_calls l !! i = Some c /\ p ∈ inside c.
Proof.
  intros Hl Ha. unfold Acquire in Ha. destruct (sm_count _ <? _)%nat eqn:Hlt; [done|]. apply Nat.ltb_ge in Hlt.
  destruct (lo_pools _ Hl p) as (H1 & H2 & H3). assert (Hs : (0 < slots p)%nat) by (destruct p; vm_compute; lia). assert (Hpos : (0 < holders p l)%nat) by lia.
  destruct (sum_positive _ _ Hpos) as (i & c & Hc & Hn). exists i, c. split; [done|]. unfold countIn in Hn.
  destruct (List.filter _ (inside c)) as [|q qs] eqn:Hf; [cbn in Hn; lia|].
  assert (Hin : In q (List.filter (fun q => bool_decide (q = p)) (inside c))) by (rewrite Hf; by left).
  apply filter_In in Hin as [Hin Hq%bool_decide_eq_true]. subst q. by apply list_elem_of_In.
Qed.

Lemma slot_enabled (l : limiter W) i c (env : E) (t : time) : limiter_ok l -> lm_calls l !! i = Some c -> rq_phase (cl_req c) = Executing -> cl_stage c = SlotWait ->
  served_step l.
Proof.
  intros Hl Hc Hp Hst. destruct (Acquire (lm_historicalConcurrent l)) as [s|] eqn:Ha.
  - eapply (exec_enabled l i c XAcquire); try done. unfold executeStep. by rewrite Hst, Ha.
  - destruct (full_pool l historicalConcurrent Hl Ha) as (j & d & Hd & Hin). apply (free_enabled l j d env t Hl Hd). unfold inside, laneOf, slotOf in Hin.
    destruct (rq_phase (cl_req d)); try (by apply not_elem_of_nil in Hin); try done.
    destruct (cl_stage d); try done; try (by apply not_elem_of_nil in Hin).
    all: destruct (cl_Priority d); try (by apply not_elem_of_nil in Hin); apply list_elem_of_singleton in Hin; by destruct (cl_Type d).
Qed.

Lemma lane_enabled (l : limiter W) i c (env : E) (t : time) : limiter_ok l -> lm_calls l !! i = Some c -> rq_phase (cl_req c) = Executing -> cl_stage c = LaneWait ->
  served_step l.
Proof.
  intros Hl Hc Hp Hst. destruct (Acquire (semaphore (lanePool (cl_Type c)) l)) as [s|] eqn:Ha.
  - eapply (exec_enabled l i c XAcquire); try done. unfold executeStep. by rewrite Hst, Ha.
  - destruct (full_pool l _ Hl Ha) as (j & d & Hd & Hin). destruct (rq_phase (cl_req d)) eqn:Hpd; try (unfold inside in Hin; rewrite Hpd in Hin; by apply not_elem_of_nil in Hin).
    + destruct (cl_stage d) eqn:Hsd; try (eapply (free_enabled l j d env t); try done; rewrite Hpd, Hsd; done).
      * unfold inside in Hin. rewrite Hpd, Hsd in Hin. by apply not_elem_of_nil in Hin.
      * by eapply slot_enabled.
    + apply (free_enabled l j d env t Hl Hd). by rewrite Hpd.
    + apply (free_enabled l j d env t Hl Hd). by rewrite Hpd.
Qed.

Lemma unserved_enabled (l : limiter W) i c (env : E) (t : time) : limiter_ok l -> lm_calls l !! i = Some c -> unserved c -> served_step l.
Proof.
  intros Hl Hc Hu. destruct (call_at l i c Hl Hc) as [C1 C2 C3 C4]. unfold unserved, running in Hu. destruct (rq_phase (cl_req c)) eqn:Hp.
  - destruct Hu as [Hw|]; [|done]. destruct (lm_processing l) eqn:Hpr.
    + destruct (lm_queue l) as [|j rest'] eqn:Hq.
      { assert (Hi : i ∈ lm_queue l) by (apply (lo_queued _ Hl); eauto). rewrite Hq in Hi. by apply not_elem_of_nil in Hi. }
      assert (Hj : j ∈ lm_queue l) by (rewrite Hq; left). apply (lo_queued _ Hl) in Hj as (d & Hd & _).
      exists PTake. eexists. split; [done|]. unfold poolStep. rewrite (lo_panicked _ Hl), Hpr, Hq, Hd. done.
    + apply (lo_processing _ Hl) in Hpr. eapply (own_enabled l i c EvCallerStop); try done. cbn. unfold isWaiting. by rewrite Hw, C2, Hpr.
  - destruct (cl_stage c) eqn:Hst; try (eapply (free_enabled l i c env t); try done; rewrite Hp, Hst; done); [by eapply lane_enabled | by eapply slot_enabled].
  - eapply (free_enabled l i c env t); try done. by rewrite Hp.
  - eapply (free_enabled l i c env t); try done. by rewrite Hp.
  - eapply (own_enabled l i c EvBackoffTimer); try done. cbn. by rewrite bool_decide_eq_true_2.
  - destruct (requeue i c l) as [l'|] eqn:Hr.
    { exists (PRequeue i), l'. split; [done|]. unfold poolStep. by rewrite (lo_panicked _ Hl), Hc. }
    unfold requeue in Hr. rewrite bool_decide_eq_true_2 in Hr by done. cbn [negb] in Hr. case_if_in Hr; [done|].
    destruct (rq_ctx (cl_req c)) eqn:Hctx; [|destruct (rq_stopped (cl_req c)) eqn:Hsp; [|done]].
    + eapply (own_enabled l i c EvBackoffCtx); try done. cbn. by rewrite Hp, Hctx.
    + eapply (own_enabled l i c EvBackoffStop); try done. cbn. by rewrite Hp, Hsp.
  - destruct Hu as [Hw|]; [|done]. destruct (rq_chan (cl_req c)) as [|err chan] eqn:Hch.
    { destruct C1 as [_ Hse Hchn _ _]. rewrite Hch, Hw, Hse, Hp in Hchn. discriminate Hchn. }
    eapply (own_enabled l i c EvResult); try done. cbn [limiterStep]. rewrite Hch. unfold isWaiting. by rewrite Hw.
Qed.

Definition settled (l : limiter W) : Prop := Forall (fun c => ~ unserved c) (lm_calls l).

Lemma serves_advances ev : serves ev = true -> advances ev = true /\ allows ev = 0%nat.
Proof. by destruct ev as [| | | | | |i []|]. Qed.

#[local] Instance unserved_dec c : Decision (unserved c).
Proof. unfold unserved. destruct (rq_caller (cl_req c)); [left; by left | |]; (destruct (running c); [left; by right | right; by intros [|]]). Defined.

Lemma settles (env : E) (t : time) n (l : limiter W) : limiter_ok l -> (work l < n)%nat ->
  exists evs l', forallb serves evs = true /\ poolRun l evs = Some l' /\ settled l'.
Proof.
  revert l. induction n as [|n IH]; intros l Hl Hw; [lia|]. destruct (decide (Exists unserved (lm_calls l))) as [Hx|Hx].
  - apply Exists_exists in Hx as (c & Hin & Hu). apply list_elem_of_lookup in Hin as [i Hc].
    destruct (unserved_enabled l i c env t Hl Hc Hu) as (ev & l1 & Hs & Hstep). destruct (serves_advances ev Hs) as [Ha Hz].
    assert (Hl1 := poolStep_ok l ev l1 Hl Hstep). assert (Hw1 := poolStep_work l ev l1 Hl Hstep). rewrite Ha, Hz in Hw1.
    destruct (IH l1 Hl1 ltac:(lia)) as (evs & l' & H1 & H2 & H3). exists (ev :: evs), l'. split; [cbn; by rewrite Hs|]. split; [|done]. cbn. by rewrite Hstep.
  - exists [], l. split; [done|]. split; [done|]. by apply Forall_Exists_neg.
Qed.

(** C33. The limiter serves everyone and leaks nothing.  In every interleaving of
    submissions, the queue, dispatches, token waits, the background lanes, the
    historical slots, sends, backoffs, cancellations and a stop: a pool's count is the
    number of requests between its acquire and the return of their executeRequest, and
    within its size, so a slot is never lost and no release panics; the limiter makes at
    most [14 * MaxRetries + 12] steps for each submission and one of its own; and while
    a caller waits, or a goroutine of a request runs, some step that serves a request is
    possible without any caller's completion timer, so that serving can go on until
    every caller is answered and every goroutine has ended.  Assumed of the outside: a
    token or backoff timer that was set fires, and SendFunc returns.  The market-data
    slots, which the subscription code takes and returns, are not part of it. *)
Theorem waiting_callers_are_served start evs (l : limiter W) :
  poolRun (NewRateLimiter start) evs = Some l ->
  lm_panicked l = false /\
  (forall p, sm_count (semaphore p l) = holders p l /\ (holders p l <= slots p)%nat) /\
  (List.length (List.filter advances evs) <= sum_list_with allows evs + 1)%nat /\
  forall (env : E) (t : time),
    (forall c, c ∈ lm_calls l -> unserved c -> exists ev l', serves ev = true /\ poolStep l ev = Some l') /\
    exists evs' l', forallb serves evs' = true /\ poolRun l evs' = Some l' /\
      forall c, c ∈ lm_calls l' -> rq_caller (cl_req c) <> Waiting /\ running c = false.
Proof.
  intros H. assert (Hn := new_ok start). assert (Hl := poolRun_ok _ _ _ Hn H). assert (Hw := poolRun_work _ _ _ Hn H).
  split; [apply Hl|]. split; [intros p; by destruct (lo_pools _ Hl p) as (_ & ? & ?)|]. split; [cbn in Hw; lia|].
  intros env t. split.
  - intros c [i Hc]%list_elem_of_lookup Hu. exact (unserved_enabled l i c env t Hl Hc Hu).
  - destruct (settles env t (S (work l)) l Hl ltac:(lia)) as (evs' & l' & H1 & H2 & H3). exists evs', l'. split; [done|]. split; [done|].
    intros c Hin. unfold settled in H3. rewrite Forall_forall in H3. specialize (H3 c Hin). unfold unserved in H3. split; [tauto|]. destruct (running c); [tauto | done].
Qed.
End Pools.

(** Three background historical reads: one is cancelled before its send and gives its
    slots back, one is being sent, and the third, held up by the full lane, gets in after
    the first; the caller of an order gives up. *)
Definition crowded_run : list (@limiterEvent nat bool) :=
  let read := PSubmit RequestTypeHistorical PriorityBackground 1 0%nat false false in
  [read; read; read; PSubmit RequestTypeOrder PriorityBackground 0 0%nat false false; PTake; PTake; PTake; PTake;
   PExec 0 XAcquire; PExec 1 XAcquire; PExec 0 (XReserve Second); PExec 1 (XReserve Second); PExec 3 (XReserve Second); PExec 3 XAdmit;
   PRequest 0 EvCancel; PExec 0 (XReserve Second); PExec 0 XAcquire; PExec 0 (XCtxDone Second);
   PExec 1 (XReserve Second); PExec 1 XAcquire; PExec 1 XAdmit; PRequest 1 EvEnter; PExec 2 XAcquire; PRequest 3 EvTimeout; PRequest 3 EvEnter].

Definition crowded : limiter nat :=
  match poolRun flaky (fun _ => 0) (NewRateLimiter 0) crowded_run with Some l => l | None => NewRateLimiter 0 end.

Lemma crowded_runs : poolRun flaky (fun _ => 0) (NewRateLimiter 0) crowded_run = Some crowded.
Proof. vm_compute. reflexivity. Qed.

(** Before the third read entered, the lane was full. *)
Example lane_is_full : poolRun flaky (fun _ => 0) (NewRateLimiter 0) (take 12 crowded_run ++ [PExec 2 XAcquire]) = None.
Proof. vm_compute. reflexivity. Qed.

Lemma waiting_callers_are_served_witness :
  (sm_count (semaphore backgroundHistorical crowded), sm_count (semaphore historicalConcurrent crowded)) = (2%nat, 1%nat) /\
  (List.length (List.filter advances crowded_run) <= 3 * 26 + 12 + 1)%nat /\
  exists evs' l', forallb serves evs' = true /\ poolRun flaky (fun _ => 0) crowded evs' = Some l' /\
    forall c, c ∈ lm_calls l' -> rq_caller (cl_req c) <> Waiting /\ running c = false.
Proof.
  destruct (waiting_callers_are_served flaky (fun _ => 0) 0 crowded_run crowded crowded_runs) as (_ & Hp & Hb & Hall).
  split; [vm_compute; reflexivity|]. split; [exact Hb | exact (proj2 (Hall false 0))].
Defined.
