(* ===== verification/WireCodec.v ===== *)
(** * Frames on the broker socket

    src/pkg/ibkr/connection.go: the length-prefixed frames of the TWS protocol
    and the NUL-terminated field encoding inside them (encodeMsg, decodeMessage,
    determineMessageID, readMessage, and the length prefix every send writes).
    Bytes are a [list ascii].  Proved: a stream of frames is read back message by
    message, whatever follows, and an encoded message decodes to its fields. *)

From stdpp Require Import base decidable list strings.
From Stdlib Require Import ZArith Lia Ascii String.
From S2P Require Import Prelude.

Definition bytes : Type := list ascii.

Definition byte_of (z : Z) : ascii := ascii_of_N (Z.to_N (z mod 256)).
Definition byte_val (c : ascii) : Z := Z.of_N (N_of_ascii c).

(** binary.BigEndian.PutUint32 of [uint32(z)], and Uint32. *)
Definition be32 (z : Z) : bytes :=
  [byte_of (Z.shiftr z 24); byte_of (Z.shiftr z 16); byte_of (Z.shiftr z 8); byte_of z].

Definition be32_val (b : bytes) : option Z :=
  match b with
  | [b3; b2; b1; b0] =>
      Some (Z.lor (Z.shiftl (byte_val b3) 24)
             (Z.lor (Z.shiftl (byte_val b2) 16) (Z.lor (Z.shiftl (byte_val b1) 8) (byte_val b0))))
  | _ => None
  end.

(** The frame of one message: its length, then its bytes. *)
Definition framed (msg : bytes) : bytes := be32 (Z.of_nat (List.length msg)) ++ msg.

(** io.ReadFull of [n] bytes from a stream; [None] when it ends before. *)
Definition ReadFull (n : nat) (stream : bytes) : option (bytes * bytes) :=
  if (List.length stream <? n)%nat then None else Some (take n stream, drop n stream).

Inductive readResult := ReadEOF | ReadTooLarge | ReadMsg (msg rest : bytes).

Definition maxMessageBytes : Z := 16 * 1024 * 1024.

(** readMessage *)
Definition readMessage (stream : bytes) : readResult :=
  match ReadFull 4 stream with
  | None => ReadEOF
  | Some (lengthBytes, rest) =>
      let msgLength := match be32_val lengthBytes with Some n => n | None => 0 end in
      if msgLength =? 0 then ReadMsg [] rest
      else if maxMessageBytes <? msgLength then ReadTooLarge
      else match ReadFull (Z.to_nat msgLength) rest with
           | None => ReadEOF
           | Some (msg, rest) => ReadMsg msg rest
           end
  end.

(** [n] messages off a stream. *)
Fixpoint readMessages (n : nat) (stream : bytes) : option (list bytes * bytes) :=
  match n with
  | O => Some ([], stream)
  | S n =>
      match readMessage stream with
      | ReadMsg msg rest => match readMessages n rest with Some (ms, r) => Some (msg :: ms, r) | None => None end
      | _ => None
      end
  end.

(** The field types encodeMsg is called with; a float is its FormatFloat text. *)
Inductive field := FInt (z : Z) | FStr (s : string) | FBool (b : bool).

Definition nul : ascii := ascii_of_nat 0.

Definition fieldText (f : field) : string :=
  match f with
  | FInt z => Itoa z
  | FStr s => s
  | FBool true => "1"
  | FBool false => "0"
  end.

Definition encodeField (f : field) : bytes := list_ascii_of_string (fieldText f) ++ [nul].

(** encodeMsg; [[]] is its nil. *)
Definition encodeMsg (serverVersion : Z) (fields : list field) : bytes :=
  match fields with
  | [] => []
  | first :: rest =>
      if 100 <=? serverVersion then
        match first with
        | FInt v =>
            if (v <? -2147483648) || (2147483647 <? v) then []
            else be32 v ++ List.concat (map encodeField rest)
        | _ => []
        end
      else List.concat (map encodeField fields)
  end.

(** bytes.Split at NUL. *)
Fixpoint splitNul (b : bytes) : list bytes :=
  match b with
  | [] => [[]]
  | c :: r =>
      if Ascii.eqb c nul then [] :: splitNul r
      else match splitNul r with [] => [[c]] | x :: l => (c :: x) :: l end
  end.

(** strconv.Atoi within int64. *)
Fixpoint atoi_digits (s : list ascii) (acc : Z) : option Z :=
  match s with
  | [] => Some acc
  | c :: r =>
      let d := byte_val c - 48 in
      if (0 <=? d) && (d <=? 9) then atoi_digits r (acc * 10 + d) else None
  end.
Definition Atoi (b : bytes) : option Z :=
  let '(neg, digits) :=
    match b with
    | c :: r => if Ascii.eqb c "-" then (true, r) else if Ascii.eqb c "+" then (false, r) else (false, b)
    | [] => (false, [])
    end in
  match digits with
  | [] => None
  | _ =>
      match atoi_digits digits 0 with
      | Some v =>
          let v := if neg then - v else v in
          if (v <? -9223372036854775808) || (9223372036854775807 <? v) then None else Some v
      | None => None
      end
  end.

(** determineMessageID *)
Definition determineMessageID (serverVersion : Z) (payload : bytes) : Z :=
  match payload with
  | [] => 0
  | _ =>
      if (100 <=? serverVersion) && (4 <=? List.length payload)%nat
      then match be32_val (take 4 payload) with Some id => id | None => 0 end
      else match Atoi (hd [] (splitNul payload)) with Some id => id | None => -1 end
  end.

Definition msgSystemNotification : Z := 204.
Definition minServerVerProtoBufPlaceOrder : Z := 203.

Section Decode.
(** summarizeInboundOrderProtoCallback *)
Variable inboundProto : Z -> bytes -> option (list string).

(** decodeMessage *)
Definition decodeMessage (serverVersion : Z) (msg : bytes) : list string :=
  match msg with
  | [] => []
  | _ =>
      if (100 <=? serverVersion) && (4 <=? List.length msg)%nat then
        let msgType := match be32_val (take 4 msg) with Some id => id | None => 0 end in
        let remaining := drop 4 msg in
        if msgType =? msgSystemNotification then [Itoa msgType; string_of_list_ascii remaining]
        else
          match (if minServerVerProtoBufPlaceOrder <=? serverVersion then inboundProto msgType remaining else None) with
          | Some fields => fields
          | None => Itoa msgType :: map string_of_list_ascii (splitNul remaining)
          end
      else map string_of_list_ascii (splitNul msg)
  end.
End Decode.

(** ** Round trips *)

Lemma byte_of_val z : byte_val (byte_of z) = z mod 256.
Proof.
  unfold byte_val, byte_of. assert (H := Z.mod_pos_bound z 256 ltac:(lia)).
  rewrite N_ascii_embedding by lia. lia.
Qed.

Lemma byte_val_range c : 0 <= byte_val c < 256.
Proof.
  unfold byte_val. assert (H := N_ascii_bounded c). lia.
Qed.

Lemma be32_roundtrip z : be32_val (be32 z) = Some (z mod 4294967296).
Proof.
  unfold be32, be32_val. rewrite !byte_of_val, !Z.shiftr_div_pow2, !Z.shiftl_mul_pow2 by lia. f_equal.
  change (2 ^ 24) with 16777216. change (2 ^ 16) with 65536. change (2 ^ 8) with 256.
  assert (Hlor : forall a b k, 0 <= k -> 0 <= b < 2 ^ k -> Z.lor (a * 2 ^ k) b = a * 2 ^ k + b).
  { intros a b k Hk Hb. rewrite <- Z.add_lor_land. replace (Z.land (a * 2 ^ k) b) with 0; [lia|].
    symmetry. apply Z.bits_inj'. intros n Hn. rewrite Z.land_spec, Z.bits_0.
    destruct (decide (n < k)).
    - by rewrite Z.mul_pow2_bits_low.
    - replace (Z.testbit b n) with false; [apply andb_false_r|].
      symmetry. destruct (decide (b = 0)) as [->|]; [apply Z.bits_0|].
      apply Z.bits_above_log2; [lia|]. apply Z.log2_lt_pow2; [lia|].
      eapply Z.lt_le_trans; [apply Hb | apply Z.pow_le_mono_r; lia]. }
  assert (H0 := Z.mod_pos_bound z 256 ltac:(lia)).
  assert (H1 := Z.mod_pos_bound (z / 256) 256 ltac:(lia)).
  assert (H2 := Z.mod_pos_bound (z / 65536) 256 ltac:(lia)).
  change 256 with (2 ^ 8) at 3. change 65536 with (2 ^ 16) at 2. change 16777216 with (2 ^ 24).
  rewrite (Hlor _ (z mod 256) 8) by lia. change (2 ^ 8) with 256.
  rewrite (Hlor _ _ 16) by (change (2 ^ 16) with 65536; lia). change (2 ^ 16) with 65536.
  rewrite (Hlor _ _ 24) by (change (2 ^ 24) with 16777216; lia). change (2 ^ 24) with 16777216.
  Z.to_euclidean_division_equations. lia.
Qed.

Lemma be32_length z : List.length (be32 z) = 4%nat.
Proof. reflexivity. Qed.

Lemma ReadFull_app (n : nat) (a b : bytes) : List.length a = n -> ReadFull n (a ++ b) = Some (a, b).
Proof.
  intros <-. unfold ReadFull. rewrite length_app.
  replace (List.length a + List.length b <? List.length a)%nat with false by (symmetry; apply Nat.ltb_ge; lia).
  by rewrite take_app_length, drop_app_length.
Qed.

(** A frame, whatever follows it. *)
Lemma readMessage_framed msg rest :
  Z.of_nat (List.length msg) <= maxMessageBytes -> readMessage (framed msg ++ rest) = ReadMsg msg rest.
Proof.
  intros Hlen. unfold readMessage, framed. rewrite <- List.app_assoc, ReadFull_app by done.
  rewrite be32_roundtrip, Z.mod_small by (unfold maxMessageBytes in Hlen; lia).
  destruct (Z.of_nat (List.length msg) =? 0) eqn:E; bool_hyps.
  - destruct msg; [done | cbn in E; lia].
  - replace (maxMessageBytes <? _) with false by (symmetry; apply Z.ltb_ge; lia).
    rewrite Nat2Z.id. by rewrite ReadFull_app.
Qed.

(** Frames read back.  A stream that starts with the frames of any
    messages of at most 16 MB (the reader's cap), followed by anything, is read
    as exactly those messages, in order, leaving what follows untouched: the
    length prefix the sender writes and the reader decodes agree at the 32-bit
    width, and no byte of one message is taken for another. *)
Theorem framed_stream_reads_back msgs rest :
  Forall (fun m => Z.of_nat (List.length m) <= maxMessageBytes) msgs ->
  readMessages (List.length msgs) (List.concat (map framed msgs) ++ rest) = Some (msgs, rest).
Proof.
  induction 1 as [|m msgs Hm _ IH]; [done|]. cbn [List.length map List.concat readMessages].
  rewrite <- List.app_assoc, readMessage_framed by done. by rewrite IH.
Qed.

Lemma framed_stream_reads_back_witness :
  readMessages 3 (List.concat (map framed [["a"%char; nul]; []; ["b"%char]]) ++ ["x"%char]) =
  Some ([["a"%char; nul]; []; ["b"%char]], ["x"%char]).
Proof.
  apply (framed_stream_reads_back [["a"%char; nul]; []; ["b"%char]] ["x"%char]).
  repeat constructor; vm_compute; discriminate.
Defined.

Lemma match_nonempty {A B} (l : list A) (x y : B) : l <> [] -> match l with [] => x | _ => y end = y.
Proof. by destruct l. Qed.

Definition noNul (f : field) : Prop := ~ In nul (list_ascii_of_string (fieldText f)).

Lemma splitNul_field (a r : bytes) : ~ In nul a -> splitNul (a ++ nul :: r) = a :: splitNul r.
Proof.
  induction a as [|c a IH]; intros Hn; cbn [app splitNul]; [by rewrite Ascii.eqb_refl|].
  destruct (Ascii.eqb c nul) eqn:E; [apply Ascii.eqb_eq in E; subst; exfalso; apply Hn; by left|].
  rewrite IH by (intros Hi; apply Hn; by right). done.
Qed.

Lemma splitNul_fields fs :
  Forall noNul fs ->
  map string_of_list_ascii (splitNul (List.concat (map encodeField fs))) = map fieldText fs ++ [""].
Proof.
  induction 1 as [|f fs Hf _ IH]; [done|]. cbn [map List.concat]. unfold encodeField at 1.
  rewrite <- List.app_assoc. cbn [app]. rewrite splitNul_field by done. cbn [map app].
  by rewrite IH, string_of_list_ascii_of_string.
Qed.

(** Field encoding round trip.  On a gateway of the current protocol a
    message encoded from a 32-bit non-negative id and fields without NUL
    decodes to its id's decimal text, the text of every field in order, and the
    empty field after the last terminator, for every message that is neither
    the system notification nor a protobuf callback; and its message id is the
    one it was encoded with. *)
Theorem encoded_message_decodes inboundProto serverVersion id fs :
  100 <= serverVersion -> 0 <= id <= 2147483647 -> id <> msgSystemNotification ->
  (forall body, inboundProto id body = None) -> Forall noNul fs ->
  decodeMessage inboundProto serverVersion (encodeMsg serverVersion (FInt id :: fs)) =
    Itoa id :: map fieldText fs ++ [""] /\
  determineMessageID serverVersion (encodeMsg serverVersion (FInt id :: fs)) = id.
Proof.
  intros Hv Hid Hsys Hproto Hfs. unfold encodeMsg.
  replace (100 <=? serverVersion) with true by (symmetry; by apply Z.leb_le).
  replace ((id <? -2147483648) || (2147483647 <? id)) with false
    by (symmetry; apply orb_false_iff; split; apply Z.ltb_ge; lia).
  assert (Htake : take 4 (be32 id ++ List.concat (map encodeField fs)) = be32 id) by reflexivity.
  assert (Hdrop : drop 4 (be32 id ++ List.concat (map encodeField fs)) = List.concat (map encodeField fs)) by done.
  assert (Hval : be32_val (be32 id) = Some id) by (rewrite be32_roundtrip, Z.mod_small; [done | lia]).
  assert (Hne : be32 id ++ List.concat (map encodeField fs) <> []) by done.
  assert (Hlen : (4 <=? List.length (be32 id ++ List.concat (map encodeField fs)))%nat = true) by done.
  unfold decodeMessage, determineMessageID. rewrite !match_nonempty, Hlen by done.
  replace (100 <=? serverVersion) with true by (symmetry; by apply Z.leb_le). cbn [andb].
  rewrite Htake, Hval, Hdrop. split; [|done].
  replace (id =? msgSystemNotification) with false by (symmetry; by apply Z.eqb_neq).
  rewrite Hproto. rewrite splitNul_fields by done.
  by destruct (minServerVerProtoBufPlaceOrder <=? serverVersion).
Qed.

Lemma encoded_message_decodes_witness :
  decodeMessage (fun _ _ => None) 176 (encodeMsg 176 [FInt 59; FInt 1; FInt (-3); FStr "x"; FBool true]) =
    ["59"; "1"; "-3"; "x"; "1"; ""] /\
  determineMessageID 176 (encodeMsg 176 [FInt 59; FInt 1; FInt (-3); FStr "x"; FBool true]) = 59.
Proof.
  apply (encoded_message_decodes (fun _ _ => None) 176 59 [FInt 1; FInt (-3); FStr "x"; FBool true]);
    [lia | lia | discriminate | reflexivity |].
  repeat constructor; vm_compute; intuition discriminate.
Defined.
