(* ===== verification/Transport.v ===== *)
(** * Sending frames to the broker

    src/pkg/ibkr/connection.go, sendBoundFrames: one group of frames goes
    through the limiter, the handshake and session checks, the wire guard and
    the buffered writer, and its error says what is known about its bytes.  The
    buffered writer is Go's [bufio.Writer], written out over a socket whose
    answers are an input.  Proved over every interleaving of the limiter: an
    error that says "definitely unsent" is true and stays true; a protected send
    (an order, or one bound to a session epoch) puts at most one copy of its
    frames on the wire, all of it when it returns no error; and no byte goes out
    before the guard agreed. *)

From stdpp Require Import base decidable list strings.
From Stdlib Require Import ZArith Lia Ascii String.
From S2P Require Import Prelude OrderTypes SendDisposition RateLimiter WireCodec.

(** ** bufio.Writer *)

(** What the socket does with the next write: takes it all, or takes [n] bytes
    and fails (io.Writer: a short write returns an error). *)
Inductive sockOutcome := Accept | Refuse (n : nat).

Record bufw := mkBufw {
  bw_size : nat; bw_buf : bytes; bw_err : option sendErr; bw_sock : list sockOutcome; bw_wire : bytes
}.
#[global] Instance bufw_eta : Eta bufw := fun w => mkBufw (bw_size w) (bw_buf w) (bw_err w) (bw_sock w) (bw_wire w).

Definition errSocket : sendErr := plainErr "write: broken pipe".

(** One write of the underlying socket: bytes taken, and its error. *)
Definition sockWrite (p : bytes) (w : bufw) : bufw * nat * option sendErr :=
  match bw_sock w with
  | Refuse n :: rest =>
      (w <| bw_sock := rest |> <| bw_wire := bw_wire w ++ take n p |>, Nat.min n (List.length p), Some errSocket)
  | Accept :: rest => (w <| bw_sock := rest |> <| bw_wire := bw_wire w ++ p |>, List.length p, None)
  | [] => (w <| bw_wire := bw_wire w ++ p |>, List.length p, None)
  end.

Definition Buffered (w : bufw) : nat := List.length (bw_buf w).

(** Flush *)
Definition Flush (w : bufw) : bufw * option sendErr :=
  match bw_err w with
  | Some e => (w, Some e)
  | None =>
      match bw_buf w with
      | [] => (w, None)
      | buf =>
          let '(w, n, err) := sockWrite buf w in
          match err with
          | Some e => (w <| bw_buf := drop n buf |> <| bw_err := Some e |>, Some e)
          | None => (w <| bw_buf := [] |>, None)
          end
      end
  end.

(** The loop of Write; the result is what is left of [p] and the bytes taken. *)
Fixpoint writeLoop (fuel : nat) (p : bytes) (nn : nat) (w : bufw) : option (bufw * bytes * nat) :=
  if (bw_size w - Buffered w <? List.length p)%nat && negb (present (bw_err w)) then
    match fuel with
    | O => None
    | S fuel =>
        match bw_buf w with
        | [] => let '(w, n, err) := sockWrite p w in writeLoop fuel (drop n p) (nn + n) (w <| bw_err := err |>)
        | _ =>
            let n := Nat.min (bw_size w - Buffered w) (List.length p) in
            let '(w, _) := Flush (w <| bw_buf := bw_buf w ++ take n p |>) in
            writeLoop fuel (drop n p) (nn + n) w
        end
    end
  else Some (w, p, nn).

(** Write: bytes taken, and the error. *)
Definition Write (p : bytes) (w : bufw) : bufw * nat * option sendErr :=
  match writeLoop 2 p 0 w with
  | Some (w, rest, nn) =>
      match bw_err w with
      | Some e => (w, nn, Some e)
      | None => (w <| bw_buf := bw_buf w ++ rest |>, (nn + List.length rest)%nat, None)
      end
  | None => (w, O, Some (plainErr "unreachable"))
  end.

(** bufferedWriteDisposition *)
Definition bufferedWriteDisposition (w : option bufw) (bufferedBefore accepted : nat) : SendDisposition :=
  match w with
  | None => SendDispositionMayHaveWritten
  | Some w =>
      if negb (bufferedBefore =? 0)%nat then SendDispositionMayHaveWritten
      else if (accepted <=? Buffered w)%nat then SendDispositionDefinitelyUnsent
      else SendDispositionMayHaveWritten
  end.

(** The frame loop of sendBoundFrames. *)
Fixpoint writeFrames (frames : list bytes) (accepted : nat) (w : bufw) : bufw * nat * option sendErr :=
  match frames with
  | [] => (w, accepted, None)
  | frame :: rest =>
      let '(w, n, err) := Write (be32 (Z.of_nat (List.length frame))) w in
      let accepted := (accepted + n)%nat in
      match err with
      | Some e => (w, accepted, Some e)
      | None =>
          let '(w, n, err) := Write frame w in
          let accepted := (accepted + n)%nat in
          match err with
          | Some e => (w, accepted, Some e)
          | None => writeFrames rest accepted w
          end
      end
  end.

(** ** The connection and one send *)

(** The writer, the market-data mode, and a log of guard runs: how many bytes
    were on the wire when the guard ran, and whether it agreed. *)
Record conn := mkConn {
  cn_writer : option bufw; cn_marketDataDefaultMode : Z; cn_marketDataModeEpoch : Z; cn_marketDataModeDirty : bool;
  cn_guards : list (nat * bool)
}.
#[global] Instance conn_eta : Eta conn := fun c => mkConn (cn_writer c) (cn_marketDataDefaultMode c)
  (cn_marketDataModeEpoch c) (cn_marketDataModeDirty c) (cn_guards c).

Definition wireOf (c : conn) : bytes := match cn_writer c with Some w => bw_wire w | None => [] end.

Record sendArgs := mkSendArgs {
  sa_msg : bytes; sa_additional : list bytes; sa_type : RequestType; sa_epoch : Z; sa_requireEpoch : bool;
  sa_guard : bool; sa_dataType : Z; sa_serverVersion : Z; sa_outbound : Z; sa_connected : bool
}.

(** What one dispatch meets: cancellations seen at its four checks (besides
    those its context already has), the handshake, a session that ended behind
    the paused transport, the allocator's epoch and readiness, the outbound
    state before and after the guard, and the guard's answer. *)
Record dispatchEnv := mkDispatchEnv {
  de_ctx1 : bool; de_ctx2 : bool; de_ctx3 : bool; de_ctx4 : bool; de_handshake : option sendErr; de_ended : bool;
  de_currentEpoch : Z; de_ready : bool; de_outbound1 : Z; de_outbound2 : Z; de_guardErr : option sendErr
}.

Definition protectedSend (a : sendArgs) : bool :=
  sa_requireEpoch a || bool_decide (sa_type a = RequestTypeOrder).

Definition reqMktData : Z := 1.
Definition reqMarketDataType : Z := 59.

(** The mode a plain request falls back to. *)
Definition defaultMode (c : conn) (currentEpoch : Z) : Z :=
  if (cn_marketDataDefaultMode c =? 0) || negb (cn_marketDataModeEpoch c =? currentEpoch) then 1
  else cn_marketDataDefaultMode c.

Definition repairMode (a : sendArgs) (c : conn) (currentEpoch : Z) : bool :=
  cn_marketDataModeDirty c && (cn_marketDataModeEpoch c =? currentEpoch) &&
  (determineMessageID (sa_serverVersion a) (sa_msg a) =? reqMktData).

Definition setsMode (a : sendArgs) (c : conn) (currentEpoch : Z) : bool :=
  negb (sa_dataType a =? 0) || repairMode a c currentEpoch.

Definition framesOf (a : sendArgs) (c : conn) (currentEpoch : Z) : list bytes :=
  let default := defaultMode c currentEpoch in
  if setsMode a c currentEpoch then
    let requested := if sa_dataType a =? 0 then default else sa_dataType a in
    [encodeMsg (sa_serverVersion a) [FInt reqMarketDataType; FInt 1; FInt requested]; sa_msg a;
     encodeMsg (sa_serverVersion a) [FInt reqMarketDataType; FInt 1; FInt default]]
  else sa_msg a :: sa_additional a.

(** The mode an explicit market-data-type message sets. *)
Definition explicitMode (a : sendArgs) : option Z :=
  if (sa_dataType a =? 0) && (determineMessageID (sa_serverVersion a) (sa_msg a) =? reqMarketDataType) then
    match decodeMessage (fun _ _ => None) (sa_serverVersion a) (sa_msg a) with
    | _ :: _ :: text :: _ =>
        match Atoi (list_ascii_of_string text) with
        | Some mode => if (1 <=? mode) && (mode <=? 4) then Some mode else None
        | None => None
        end
    | _ => None
    end
  else None.

(** From the first byte on: write, flush, and settle the mode. *)
Definition transmit (a : sendArgs) (currentEpoch : Z) (w : bufw) (c : conn) : conn * option sendErr :=
  let p := protectedSend a in
  let frames := framesOf a c currentEpoch in
  let mode := setsMode a c currentEpoch in
  let default := defaultMode c currentEpoch in
  let bufferedBefore := Buffered w in
  let c := if mode then c <| cn_marketDataDefaultMode := default |> <| cn_marketDataModeEpoch := currentEpoch |>
                           <| cn_marketDataModeDirty := true |> else c in
  let '(w, accepted, err) := writeFrames frames 0 w in
  match err with
  | Some e => (c <| cn_writer := Some w |>, brokerSendError (Some e) (bufferedWriteDisposition (Some w) bufferedBefore accepted) p)
  | None =>
      let '(w, err) := Flush w in
      let c := c <| cn_writer := Some w |> in
      match err with
      | Some e => (c, brokerSendError (Some e) (bufferedWriteDisposition (Some w) bufferedBefore accepted) p)
      | None =>
          let c := if mode then c <| cn_marketDataModeDirty := false |> else c in
          match explicitMode a with
          | Some m => (c <| cn_marketDataDefaultMode := m |> <| cn_marketDataModeEpoch := currentEpoch |>
                         <| cn_marketDataModeDirty := false |>, None)
          | None => (c, None)
          end
      end
  end.

(** [state & 1]: the generation is revoked. *)
Definition revoked (state : Z) : bool := Z.odd state.

(** The dispatch callback of sendBoundFrames. *)
Definition dispatchBody (a : sendArgs) (ctxDone : bool) (env : dispatchEnv) (c : conn) : conn * option sendErr :=
  let p := protectedSend a in
  let unsent e := brokerSendError (Some e) SendDispositionDefinitelyUnsent p in
  if ctxDone || de_ctx1 env then (c, unsent errCanceled)
  else
    match de_handshake env with
    | Some e => (c, unsent e)
    | None =>
        if de_ctx2 env then (c, unsent errCanceled)
        else if de_ended env then (c, unsent errOutboundSessionEnded)
        else if de_ctx3 env then (c, unsent errCanceled)
        else if sa_requireEpoch a && negb (de_currentEpoch env =? sa_epoch a)
        then (c, unsent (plainErr "broker socket generation changed before request send"))
        else if sa_requireEpoch a && negb (de_ready env)
        then (c, unsent (plainErr "broker id namespace not ready for request send"))
        else
          match cn_writer c with
          | None => (c, unsent (plainErr "ibkr: send before writer initialised (connection state inconsistent)"))
          | Some w =>
              if p && (revoked (sa_outbound a) || negb (de_outbound1 env =? sa_outbound a))
              then (c, unsent (plainErr "broker outbound session changed before request send"))
              else
                let c := if sa_guard a
                         then c <| cn_guards := cn_guards c ++ [(List.length (bw_wire w), negb (present (de_guardErr env)))] |>
                         else c in
                match (if sa_guard a then de_guardErr env else None) with
                | Some e => (c, unsent (wrapErr "broker wire guard" e))
                | None =>
                    if de_ctx4 env then (c, unsent errCanceled)
                    else if p && (revoked (sa_outbound a) || negb (de_outbound2 env =? sa_outbound a))
                    then (c, unsent (plainErr "broker outbound session changed before request send"))
                    else transmit a (de_currentEpoch env) w c
                end
          end
    end.

Definition maxRetries (a : sendArgs) : nat := if protectedSend a then 0%nat else 3%nat.

(** The checks of sendBoundFrames before it submits. *)
Definition sendRefusal (a : sendArgs) : option sendErr :=
  let unsent text := brokerSendError (Some (plainErr text)) SendDispositionDefinitelyUnsent (protectedSend a) in
  if (List.length (sa_msg a) =? 0)%nat then unsent "cannot send an empty broker message"
  else if existsb (fun f => (List.length f =? 0)%nat) (sa_additional a)
  then unsent "cannot send an empty broker message"
  else if negb (sa_connected a) then unsent "cannot send message: connection status"
  else None.

(** The error of sendBoundFrames, from the limiter's and "dispatch entered". *)
Definition classify (a : sendArgs) (entered : bool) (err : option sendErr) : option sendErr :=
  match err with
  | None => None
  | Some e =>
      if negb (protectedSend a) then err
      else if present (se_typed e) then err
      else if negb entered then brokerSendError err SendDispositionDefinitelyUnsent true
      else brokerSendError err SendDispositionUnknown true
  end.

#[global] Arguments classify : simpl never.

(** What the caller of sendBoundFrames has seen at a state of its request. *)
Definition sendResult (a : sendArgs) (r : request conn) : option (option sendErr) :=
  let entered := negb (rq_calls r =? 0)%nat in
  match rq_caller r with
  | Waiting => None
  | Answered err => Some (classify a entered err)
  | GaveUp e => Some (classify a entered (Some e))
  end.

(** sendBoundFrames on an open connection, up to some moment: refused at once,
    or the request's run so far. *)
Definition sendBoundFrames (a : sendArgs) (su : submitEnv) (evs : list (event dispatchEnv)) (c : conn)
    : option (option (option sendErr) * conn) :=
  match sendRefusal a with
  | Some e => Some (Some (Some e), c)
  | None =>
      match submitRefusal su with
      | Some e => Some (Some (classify a false (Some e)), c)
      | None =>
          match limiterRun (dispatchBody a) (maxRetries a) (newRequest c) evs with
          | Some r => Some (sendResult a r, rq_world r)
          | None => None
          end
      end
  end.

(** ** The writer neither loses nor invents bytes *)

(** What went out, then what is still buffered. *)
Definition content (w : bufw) : bytes := bw_wire w ++ bw_buf w.

(** Where an operation may take a writer that has taken [p]: every byte is on
    the wire or in the buffer, in order; and an error is the socket's. *)
Record advanced (w w' : bufw) (p : bytes) : Prop := {
  ad_content : content w' = content w ++ p;
  ad_wire : bw_wire w `prefix_of` bw_wire w';
  ad_size : bw_size w' = bw_size w;
  ad_err : bw_err w = None -> bw_err w' = None \/ bw_err w' = Some errSocket;
  ad_stuck : bw_err w <> None -> w' = w
}.

Lemma advanced_refl w : advanced w w [].
Proof. split; try done; [by rewrite List.app_nil_r | by left]. Qed.

Lemma advanced_trans w1 w2 w3 p q : advanced w1 w2 p -> advanced w2 w3 q -> advanced w1 w3 (p ++ q).
Proof.
  intros [C1 W1 S1 E1 T1] [C2 W2 S2 E2 T2]. split.
  - by rewrite C2, C1, List.app_assoc.
  - by etrans.
  - congruence.
  - intros H. destruct (E1 H) as [H'|H']; [by apply E2|]. right. rewrite T2; [done | by rewrite H'].
  - intros H. rewrite (T1 H) in *. by apply T2.
Qed.

Lemma sockWrite_spec p w w' n e :
  sockWrite p w = (w', n, e) ->
  (n <= List.length p)%nat /\ bw_wire w' = bw_wire w ++ take n p /\ bw_buf w' = bw_buf w /\
  bw_size w' = bw_size w /\ bw_err w' = bw_err w /\ (e = None /\ n = List.length p \/ e = Some errSocket).
Proof.
  unfold sockWrite. destruct (bw_sock w) as [|[|m] rest]; intros [= <- <- <-]; cbn [bw_wire bw_buf bw_size bw_err];
    split_and!; try done; try lia; try (by rewrite take_ge by lia); auto.
  f_equal. destruct (decide (m <= List.length p)%nat).
  - by rewrite Nat.min_l.
  - rewrite Nat.min_r by lia. by rewrite !take_ge by lia.
Qed.

Lemma Flush_spec w w' e :
  Flush w = (w', e) -> advanced w w' [] /\ e = bw_err w' /\ (e = None -> bw_buf w' = []).
Proof.
  unfold Flush. destruct (bw_err w) as [e0|] eqn:He.
  { intros [= <- <-]. split_and!; [apply advanced_refl | done | done]. }
  destruct (bw_buf w) as [|b buf] eqn:Hb.
  { intros [= <- <-]. split_and!; [apply advanced_refl | done | done]. }
  destruct (sockWrite (b :: buf) w) as [[w1 n] err] eqn:Hs.
  apply sockWrite_spec in Hs as (Hn & Hw & Hb1 & Hsz & Her & Hcase).
  destruct Hcase as [[-> ->] | ->]; intros [= <- <-].
  - rewrite take_ge in Hw by lia. split_and!; [|cbn; by rewrite Her, He | done]. split; cbn; try done.
    + unfold content. cbn. by rewrite Hw, Hb, !List.app_nil_r.
    + rewrite Hw. by apply prefix_app_r.
    + rewrite Her, He. by left.
  - split_and!; [|done | done]. split; cbn; try done.
    + unfold content. cbn [bw_wire bw_buf]. rewrite Hw, Hb, List.app_nil_r, <- List.app_assoc. by rewrite take_drop.
    + rewrite Hw. by apply prefix_app_r.
    + by right.
Qed.

(** The loop takes a prefix of [p] and stops for a reason. *)
Lemma writeLoop_spec fuel p nn w w' rest nn' :
  writeLoop fuel p nn w = Some (w', rest, nn') ->
  exists k, (k <= List.length p)%nat /\ rest = drop k p /\ nn' = (nn + k)%nat /\ advanced w w' (take k p).
Proof.
  revert p nn w. induction fuel as [|fuel IH]; intros p nn w H; cbn [writeLoop] in H.
  - destruct (_ && _); [done|]. injection H as <- <- <-. exists O. split_and!; try done; try lia. apply advanced_refl.
  - destruct (_ && _) eqn:Hc; [|injection H as <- <- <-; exists O; split_and!; try done; try lia; apply advanced_refl].
    apply andb_true_iff in Hc as [_ Hc]. assert (He : bw_err w = None) by (by destruct (bw_err w)).
    destruct (bw_buf w) as [|b buf] eqn:Hb.
    + destruct (sockWrite p w) as [[w1 n] err] eqn:Hs.
      apply sockWrite_spec in Hs as (Hn & Hw & Hb1 & Hsz & Her & Hcase).
      apply IH in H as (k & Hk & -> & -> & Ha). rewrite length_drop in Hk.
      exists (n + k)%nat. split_and!; [lia | by rewrite drop_drop | lia|].
      rewrite <- take_take_drop. eapply advanced_trans; [|exact Ha]. split; cbn; try done.
      * unfold content. cbn. by rewrite Hw, Hb1, Hb, !List.app_nil_r.
      * rewrite Hw. by apply prefix_app_r.
      * destruct Hcase as [[-> _] | ->]; auto.
    + set (n := Nat.min (bw_size w - Buffered w) (List.length p)) in *.
      destruct (Flush _) as [w1 err] eqn:Hf. apply Flush_spec in Hf as (Ha1 & Herr & _).
      apply IH in H as (k & Hk & -> & -> & Ha). rewrite length_drop in Hk.
      exists (n + k)%nat. split_and!; [lia | by rewrite drop_drop | lia|].
      rewrite <- take_take_drop. eapply advanced_trans; [|exact Ha].
      destruct Ha1 as [C1 W1 S1 E1 T1]. cbn in *. split; try done.
      * rewrite C1. unfold content. cbn [bw_wire bw_buf]. by rewrite Hb, List.app_nil_r, <- List.app_assoc.
Qed.

Lemma ltb_0 n : (n <? 0)%nat = false.
Proof. by destruct n. Qed.

(** Two rounds are always enough. *)
Lemma writeLoop_total p nn w : writeLoop 2 p nn w <> None.
Proof.
  cbn [writeLoop]. destruct (_ && _); [|done]. destruct (bw_buf w) as [|b buf] eqn:Hb.
  - destruct (sockWrite p w) as [[w1 n] err] eqn:Hs. apply sockWrite_spec in Hs as (_ & _ & _ & _ & _ & [[-> ->] | ->]).
    + rewrite drop_all. cbn [List.length]. by rewrite ltb_0.
    + cbn. by rewrite andb_false_r.
  - destruct (Flush _) as [w1 err] eqn:Hf. apply Flush_spec in Hf as (_ & Herr & Hbuf).
    destruct (_ && _) eqn:Hc1; [|done]. apply andb_true_iff in Hc1 as [_ Hc1].
    assert (He : bw_err w1 = None) by (by destruct (bw_err w1)). rewrite Hbuf by congruence.
    destruct (sockWrite _ w1) as [[w2 n] e2] eqn:Hs. apply sockWrite_spec in Hs as (_ & _ & _ & _ & _ & [[-> ->] | ->]).
    + rewrite drop_all. cbn [List.length]. by rewrite ltb_0.
    + cbn. by rewrite andb_false_r.
Qed.

Lemma Write_spec p w w' n e :
  Write p w = (w', n, e) ->
  (n <= List.length p)%nat /\ advanced w w' (take n p) /\ e = bw_err w' /\ (e = None -> n = List.length p).
Proof.
  unfold Write. destruct (writeLoop 2 p 0 w) as [[[w1 rest] nn]|] eqn:Hl; [|by apply writeLoop_total in Hl].
  apply writeLoop_spec in Hl as (k & Hk & -> & -> & Ha).
  destruct (bw_err w1) as [e1|] eqn:He; intros [= <- <- <-]; rewrite ?length_drop.
  - split_and!; try done; lia.
  - split_and!; try done; try lia.
    replace (0 + k + (List.length p - k))%nat with (k + (List.length p - k))%nat by lia.
    rewrite <- take_take_drop. eapply advanced_trans; [exact Ha|]. rewrite take_ge by (rewrite length_drop; lia).
    split; cbn; try done.
    + unfold content. cbn. by rewrite List.app_assoc.
    + by left.
Qed.

Definition stream (frames : list bytes) : bytes := List.concat (map framed frames).

Lemma writeFrames_spec frames acc w w' acc' e :
  writeFrames frames acc w = (w', acc', e) ->
  exists k, acc' = (acc + k)%nat /\ (k <= List.length (stream frames))%nat /\
    advanced w w' (take k (stream frames)) /\
    (e = None /\ k = List.length (stream frames) \/ e <> None /\ e = bw_err w').
Proof.
  revert acc w. induction frames as [|f frames IH]; intros acc w H; cbn [writeFrames] in H.
  - injection H as <- <- <-. exists O. split_and!; [lia | cbn; lia | apply advanced_refl | by left].
  - assert (Hst : stream (f :: frames) = be32 (Z.of_nat (List.length f)) ++ f ++ stream frames)
      by (unfold stream, framed; cbn [map List.concat]; by rewrite <- List.app_assoc).
    remember (be32 (Z.of_nat (List.length f))) as hdr eqn:Hh. clear Hh. rewrite Hst.
    destruct (Write hdr w) as [[w1 n1] e1] eqn:H1. apply Write_spec in H1 as (Hn1 & Ha1 & He1 & Hf1).
    destruct e1 as [e1|].
    { injection H as <- <- <-. exists n1. split_and!; [done | rewrite length_app; lia | | right; done].
      by rewrite take_app_le. }
    destruct (Write f w1) as [[w2 n2] e2] eqn:H2. apply Write_spec in H2 as (Hn2 & Ha2 & He2 & Hf2).
    specialize (Hf1 eq_refl). subst n1. rewrite take_ge in Ha1 by lia.
    assert (Ha := advanced_trans _ _ _ _ _ Ha1 Ha2).
    destruct e2 as [e2|].
    { injection H as <- <- <-. exists (List.length hdr + n2)%nat.
      split_and!; [lia | rewrite !length_app; lia | | right; done].
      rewrite take_app_add, take_app_le by done. exact Ha. }
    specialize (Hf2 eq_refl). subst n2. rewrite take_ge in Ha by lia.
    apply IH in H as (k & -> & Hk & Ha3 & Hcase).
    exists (List.length hdr + (List.length f + k))%nat. split_and!; [lia | rewrite !length_app; lia | |].
    + rewrite !take_app_add. rewrite List.app_assoc. by eapply advanced_trans.
    + destruct Hcase as [[-> ->] | Hcase]; [left | by right]. split; [done|]. rewrite !length_app. lia.
Qed.

(** ** One transmission *)

(** A transmission, seen from the wire. *)
Record transmitted (a : sendArgs) (F : bytes) (w w' : bufw) (err : option sendErr) : Prop := {
  tr_taken : exists k, (k <= List.length F)%nat /\ advanced w w' (take k F) /\ (err = None -> k = List.length F);
  tr_flushed : err = None -> bw_buf w' = [];
  tr_failed : err <> None -> bw_err w' <> None;
  tr_unsent : provesUnsent err = true -> bw_wire w' = bw_wire w
}.

Lemma prefix_same_length (a b : bytes) : a `prefix_of` b -> (List.length b <= List.length a)%nat -> b = a.
Proof.
  intros [k ->] Hl. rewrite length_app in Hl. destruct k; [by rewrite List.app_nil_r | cbn in Hl; lia].
Qed.

Lemma send_error_some e d p : brokerSendError (Some e) d p = None -> False.
Proof. unfold brokerSendError, WithSendDisposition. destruct (negb p), (present (se_typed e)); done. Qed.

(** "Definitely unsent" from the buffer's fill means what it says. *)
Lemma disposition_sound w w' k F e a :
  bw_err w = None -> bw_err w' = Some e -> (k <= List.length F)%nat -> advanced w w' (take k F) ->
  protectedSend a = true ->
  provesUnsent (brokerSendError (Some e) (bufferedWriteDisposition (Some w') (Buffered w) k) (protectedSend a)) = true ->
  bw_wire w' = bw_wire w.
Proof.
  intros He He' Hk [Hc Hw _ Herr _] Hp Hu. rewrite Hp in Hu.
  destruct (Herr He) as [H0 | H0]; [congruence|]. rewrite H0 in He'. injection He' as <-.
  unfold bufferedWriteDisposition, Buffered in Hu.
  destruct (List.length (bw_buf w) =? 0)%nat eqn:Hb; [|discriminate Hu].
  destruct (k <=? List.length (bw_buf w'))%nat eqn:Hk'; [|discriminate Hu].
  apply Nat.eqb_eq in Hb. apply Nat.leb_le in Hk'. apply prefix_same_length; [done|].
  apply (f_equal List.length) in Hc. unfold content in Hc. rewrite !length_app, length_take in Hc. lia.
Qed.

Lemma transmit_spec a epoch w c c' err :
  cn_writer c = Some w -> bw_err w = None -> protectedSend a = true -> transmit a epoch w c = (c', err) ->
  exists w', cn_writer c' = Some w' /\ cn_guards c' = cn_guards c /\
    transmitted a (stream (framesOf a c epoch)) w w' err.
Proof.
  intros Hcw He Hp H. unfold transmit in H. cbv zeta in H.
  set (c1 := if setsMode a c epoch then _ else c) in H.
  assert (Hg1 : cn_guards c1 = cn_guards c) by (unfold c1; by destruct (setsMode a c epoch)).
  destruct (writeFrames _ _ w) as [[w1 acc] e1] eqn:Hwf.
  apply writeFrames_spec in Hwf as (k & -> & Hk & Ha & Hcase). cbn [Nat.add] in H.
  destruct e1 as [e1|].
  { injection H as <- <-. exists w1. split_and!; [done | done|].
    destruct Hcase as [[? _] | [_ Hcase]]; [done|]. split.
    - exists k. split_and!; [done | done |]. intros Hn. by apply send_error_some in Hn.
    - intros Hn. by apply send_error_some in Hn.
    - by rewrite <- Hcase.
    - intros Hu. by eapply disposition_sound. }
  destruct Hcase as [[_ ->] | [? _]]; [|done].
  destruct (Flush w1) as [w2 e2] eqn:Hf. apply Flush_spec in Hf as (Ha2 & He2 & Hb2).
  assert (Ha' := advanced_trans _ _ _ _ _ Ha Ha2). rewrite List.app_nil_r in Ha'.
  destruct e2 as [e2|].
  { injection H as <- <-. exists w2. split_and!; [done | done|]. split.
    - eexists. split_and!; [|exact Ha' | done]. lia.
    - intros Hn. by apply send_error_some in Hn.
    - by rewrite <- He2.
    - intros Hu. by eapply disposition_sound. }
  assert (Hdone : transmitted a (stream (framesOf a c epoch)) w w2 None).
  { split; [eexists; split_and!; [|exact Ha' | done]; lia | intros _; by apply Hb2 | done | done]. }
  exists w2. destruct (explicitMode a); injection H as <- <-; (split; [by destruct (setsMode a c epoch)|]);
    (split; [by destruct (setsMode a c epoch) | done]).
Qed.

(** ** One dispatch *)

(** A dispatch leaves the connection alone (but for the guard's log), or
    transmits after every check passed. *)
Inductive dispatched (a : sendArgs) (env : dispatchEnv) (c : conn) : conn -> option sendErr -> Prop :=
| disp_refused e d : dispatched a env c c (brokerSendError (Some e) d (protectedSend a))
| disp_guarded w e d :
    cn_writer c = Some w ->
    dispatched a env c
      (c <| cn_guards := cn_guards c ++ [(List.length (bw_wire w), negb (present (de_guardErr env)))] |>)
      (brokerSendError (Some e) d (protectedSend a))
| disp_sent w c1 c' err :
    cn_writer c = Some w ->
    (if sa_guard a
     then de_guardErr env = None /\ c1 = c <| cn_guards := cn_guards c ++ [(List.length (bw_wire w), true)] |>
     else c1 = c) ->
    transmit a (de_currentEpoch env) w c1 = (c', err) ->
    dispatched a env c c' err.

Lemma dispatchBody_cases a env c c' err :
  dispatchBody a false env c = (c', err) -> dispatched a env c c' err.
Proof.
  unfold dispatchBody. cbv beta zeta. cbn [orb]. intros H.
  destruct (de_ctx1 env); [injection H as <- <-; apply disp_refused|].
  destruct (de_handshake env); [injection H as <- <-; apply disp_refused|].
  destruct (de_ctx2 env); [injection H as <- <-; apply disp_refused|].
  destruct (de_ended env); [injection H as <- <-; apply disp_refused|].
  destruct (de_ctx3 env); [injection H as <- <-; apply disp_refused|].
  destruct (sa_requireEpoch a && negb (de_currentEpoch env =? sa_epoch a)); [injection H as <- <-; apply disp_refused|].
  destruct (sa_requireEpoch a && negb (de_ready env)); [injection H as <- <-; apply disp_refused|].
  destruct (cn_writer c) as [w|] eqn:Hw; [|injection H as <- <-; apply disp_refused].
  destruct (protectedSend a && _) in H; [injection H as <- <-; apply disp_refused|].
  destruct (sa_guard a) eqn:Hg.
  - destruct (de_guardErr env) as [e|] eqn:Hge.
    { injection H as <- <-.
      replace false with (negb (present (de_guardErr env))) by (by rewrite Hge). by apply disp_guarded. }
    assert (Htrue : negb (present (de_guardErr env)) = true) by (by rewrite Hge).
    cbn [present negb] in H.
    destruct (de_ctx4 env); [injection H as <- <-; rewrite <- Htrue; by apply disp_guarded|].
    destruct (protectedSend a && _) in H; [injection H as <- <-; rewrite <- Htrue; by apply disp_guarded|].
    eapply disp_sent; [done | | exact H]. by rewrite Hg.
  - destruct (de_ctx4 env); [injection H as <- <-; apply disp_refused|].
    destruct (protectedSend a && _) in H; [injection H as <- <-; apply disp_refused|].
    eapply disp_sent; [done | | exact H]. by rewrite Hg.
Qed.

(** A cancelled context is seen before anything else. *)
Lemma dispatchBody_cancelled a env c : (dispatchBody a true env c).1 = c.
Proof. reflexivity. Qed.

(** framesOf and setsMode do not look at the guard's log. *)
Lemma framesOf_guards a c g epoch : framesOf a (c <| cn_guards := g |>) epoch = framesOf a c epoch.
Proof. reflexivity. Qed.

(** What a protected dispatch on a healthy writer does to the wire. *)
Lemma dispatchBody_spec a ctx env c w c' err :
  protectedSend a = true -> cn_writer c = Some w -> bw_err w = None -> dispatchBody a ctx env c = (c', err) ->
  exists w', cn_writer c' = Some w' /\
    (w' = w /\ err <> None \/
     transmitted a (stream (framesOf a c (de_currentEpoch env))) w w' err /\
     (sa_guard a = true -> (List.length (bw_wire w), true) ∈ cn_guards c')).
Proof.
  intros Hp Hw He H. destruct ctx.
  { unfold dispatchBody in H. injection H as <- <-. exists w. split; [done|]. left. split; [done|].
    intros Hn. by apply send_error_some in Hn. }
  apply dispatchBody_cases in H.
  destruct H as [e d | w1 e d Hw1 | w1 c1 c' err Hw1 Hg Ht].
  - exists w. split; [done|]. left. split; [done|]. intros Hn. by apply send_error_some in Hn.
  - exists w. split; [done|]. left. split; [done|]. intros Hn. by apply send_error_some in Hn.
  - rewrite Hw in Hw1. injection Hw1 as <-.
    assert (Hc1 : cn_writer c1 = Some w /\ framesOf a c1 (de_currentEpoch env) = framesOf a c (de_currentEpoch env) /\
                  (sa_guard a = true -> (List.length (bw_wire w), true) ∈ cn_guards c1)).
    { destruct (sa_guard a); [destruct Hg as [_ ->] | subst c1]; split_and!; try done.
      intros _. cbn. apply elem_of_app. right. by apply list_elem_of_singleton. }
    destruct Hc1 as (Hc1 & Hf & Hgd).
    destruct (transmit_spec _ _ _ _ _ _ Hc1 He Hp Ht) as (w' & Hw' & Hg' & Htr).
    exists w'. split; [done|]. right. rewrite <- Hf. split; [done|]. intros Hs. rewrite Hg'. by apply Hgd.
Qed.

(** ** Over every interleaving *)

Section Send.
Context (a : sendArgs) (c : conn) (w : bufw).
Context (Hprot : protectedSend a = true) (Hwriter : cn_writer c = Some w) (Hhealthy : bw_err w = None).

#[local] Abbreviation Run := (limiterRun (dispatchBody a) (maxRetries a)).
#[local] Abbreviation Step := (limiterStep (dispatchBody a) (maxRetries a)).

(** The result the dispatch side produced, taken by the caller or not. *)
Definition resultOf (r : request conn) : option (option sendErr) :=
  match rq_chan r with
  | res :: _ => Some res
  | [] => match rq_caller r with Answered res => Some res | _ => None end
  end.

Definition world_inv (r : request conn) : Prop :=
  match rq_phase r with
  | Queued | Executing | Permitted => rq_world r = c /\ rq_calls r = 0%nat
  | Sending => rq_world r = c /\ rq_calls r = 1%nat
  | Backoff | Requeue => False
  | Finished =>
      exists res, resultOf r = Some res /\
        (rq_calls r = 0%nat /\ rq_world r = c /\ res <> None \/
         rq_calls r = 1%nat /\ exists ctx env, dispatchBody a ctx env c = (rq_world r, res))
  end.

Record send_inv (r : request conn) : Prop := {
  si_ok : request_ok (maxRetries a) r;
  si_world : world_inv r;
  si_gaveup : forall e, rq_caller r = GaveUp e -> se_typed e = None
}.

Lemma no_retry (r : request conn) err : rq_retries r = 0%nat -> closeOut (maxRetries a) r err = report r err.
Proof.
  intros Hr. unfold closeOut, shouldRetry, maxRetries. rewrite Hprot, Hr. cbn. by destruct err.
Qed.

Lemma open_chan (r : request conn) : request_ok (maxRetries a) r -> rq_phase r <> Finished -> rq_chan r = [].
Proof.
  intros [_ Hs Hc _ _] Hp. rewrite not_finished in Hs by done. rewrite Hs in Hc.
  destruct (rq_chan r); [done | cbn in Hc; lia].
Qed.

Lemma no_retries_left (r : request conn) : request_ok (maxRetries a) r -> rq_retries r = 0%nat.
Proof. intros [Hr _ _ _ _]. unfold maxRetries in Hr. rewrite Hprot in Hr. lia. Qed.

(** A request that reports is finished with that result. *)
Lemma report_world r err :
  request_ok (maxRetries a) r -> rq_phase r <> Finished ->
  (rq_calls r = 0%nat /\ rq_world r = c /\ err <> None \/
   rq_calls r = 1%nat /\ exists ctx env, dispatchBody a ctx env c = (rq_world r, err)) ->
  world_inv (report r err).
Proof.
  intros Hok Hp Hcase. assert (Hc := open_chan r Hok Hp). unfold world_inv. cbn. exists err.
  split; [unfold resultOf; cbn; by rewrite Hc | done].
Qed.

Lemma Step_inv r ev r' : send_inv r -> Step r ev = Some r' -> send_inv r'.
Proof.
  intros [Hok Hw Hgu] H. assert (Hok' := limiterStep_ok _ _ _ _ _ Hok H).
  assert (Hr := no_retries_left r Hok). split; [done | |].
  - destruct ev as [| | | |env| | | |full| | | | | |].
    5: { apply send_done_inv in H as [Hp ->]. rewrite no_retry by done.
         assert (Hok1 := set_world_ok _ r (dispatchBody a (rq_ctx r) env (rq_world r)).1 Hok).
         apply report_world; [done | cbn; by rewrite Hp |]. right.
         unfold world_inv in Hw. rewrite Hp in Hw. destruct Hw as [Hw Hc]. split; [done|].
         exists (rq_ctx r), env. cbn. rewrite Hw. by destruct (dispatchBody a (rq_ctx r) env c). }
    9: { apply result_inv in H as (Hwt & err & rest & Hch & ->). unfold world_inv in *. cbn.
         destruct (rq_phase r) eqn:Hp; try done.
         destruct Hw as (res & Hres & Hcase). exists res. split; [|done].
         unfold resultOf in *. rewrite Hch in Hres. injection Hres as <-. cbn.
         destruct Hok as [_ Hs Hcn _ _]. rewrite Hs, Hp, Hwt, Hch in Hcn. cbn in Hcn. by destruct rest. }
    all: cbn [limiterStep] in H; if_inv H; subst r'; unfold world_inv in Hw.
    2: { rewrite no_retry by done. apply report_world; [done | congruence|]. rewrite H0 in Hw. left. by destruct Hw. }
    all: repeat match goal with
         | Hb : _ || _ = true |- _ => apply orb_true_iff in Hb as [Hb | Hb]
         | Hb : bool_decide _ = true |- _ => apply bool_decide_eq_true in Hb
         | Hp : rq_phase _ = _ |- _ => rewrite Hp in Hw; clear Hp
         end; try done.
    all: unfold world_inv, answer; cbn; try done.
    + destruct Hw as [? ?]. split; [done | congruence].
    + destruct (rq_phase r); try done. destruct Hw as (res & Hres & Hcase). exists res. split; [|done].
      unfold resultOf in *. cbn. destruct (rq_chan r); [|done]. by rewrite (waiting_true r) in Hres.
    + destruct (rq_phase r); try done. destruct Hw as (res & Hres & Hcase). exists res. split; [|done].
      unfold resultOf in *. cbn. destruct (rq_chan r); [|done]. by rewrite (waiting_true r) in Hres.
    + destruct (rq_phase r); try done. destruct Hw as (res & Hres & Hcase). exists res. split; [|done].
      unfold resultOf in *. cbn. destruct (rq_chan r); [|done]. by rewrite (waiting_true r) in Hres.
  - intros e He. destruct ev as [| | | |env| | | |full| | | | | |].
    5: { apply send_done_inv in H as [_ ->]. rewrite no_retry in He by done. by apply Hgu. }
    9: { by apply result_inv in H as (_ & err & rest & _ & ->). }
    all: cbn [limiterStep] in H; if_inv H; subst r'; try (by apply Hgu); try (by rewrite ?no_retry in He by done; apply Hgu).
    + destruct full; by apply Hgu.
    + by injection He as <-.
    + by injection He as <-.
    + by injection He as <-.
Qed.

Lemma Run_inv r evs r' : send_inv r -> Run r evs = Some r' -> send_inv r'.
Proof.
  revert r. induction evs as [|ev evs IH]; intros r Hi H; cbn [limiterRun] in H; [by injection H as <-|].
  destruct (Step r ev) as [r1|] eqn:Hs; [|done]. eapply IH; [by eapply Step_inv | done].
Qed.

Lemma start_inv : send_inv (newRequest c).
Proof. split; [apply newRequest_ok | done | done]. Qed.

(** Once the context is done, or the request is finished, the world is final. *)
Lemma settled_world r evs r' :
  send_inv r -> rq_ctx r = true \/ rq_phase r = Finished -> Run r evs = Some r' -> rq_world r' = rq_world r.
Proof.
  revert r. induction evs as [|ev evs IH]; intros r Hi Hset H; cbn [limiterRun] in H; [by injection H as <-|].
  destruct (Step r ev) as [r1|] eqn:Hs; [|done]. assert (Hi1 := Step_inv _ _ _ Hi Hs).
  assert (Hr := no_retries_left r (si_ok _ Hi)).
  assert (Hkeep : (rq_ctx r1 = true \/ rq_phase r1 = Finished) /\ rq_world r1 = rq_world r).
  { clear IH H Hi1. destruct ev as [| | | |env| | | |full| | | | | |].
    5: { apply send_done_inv in Hs as [Hp ->]. rewrite no_retry by done. split; [by right|]. cbn.
         destruct Hset as [Hx | Hx]; [by rewrite Hx | congruence]. }
    9: { apply result_inv in Hs as (_ & err & rest & _ & ->). split; [by left | done]. }
    all: cbn [limiterStep] in Hs; if_inv Hs; subst r1; rewrite ?no_retry by done; try (by split; [left|]);
      try (by split; [right|]); try (destruct full; [by split; [right|]|]).
    all: (split; [|done]); (destruct Hset as [Hx | Hx]; [by left | try (by right); congruence]). }
  destruct Hkeep as [Hk Hw]. rewrite <- Hw. by apply IH.
Qed.

Lemma classify_unsent entered err :
  provesUnsent (classify a entered err) = true ->
  provesUnsent err = true \/ (entered = false /\ exists e, err = Some e /\ se_typed e = None).
Proof.
  unfold classify. destruct err as [e|]; [|done]. rewrite Hprot. cbn [negb].
  destruct (se_typed e) eqn:He; cbn [present]; [by left|]. destruct entered; cbn [negb].
  - unfold brokerSendError. cbn [negb]. unfold provesUnsent. rewrite with_disposition by done. done.
  - intros _. right. eauto.
Qed.

(** A dispatch that proves itself unsent left the wire alone, and its writer
    untouched or failed for good. *)
Lemma unsent_dispatch ctx env c' err :
  dispatchBody a ctx env c = (c', err) -> provesUnsent err = true ->
  wireOf c' = bw_wire w /\ exists w', cn_writer c' = Some w' /\ (w' = w \/ bw_err w' <> None).
Proof.
  intros Hd Hu. destruct (dispatchBody_spec _ _ _ _ _ _ _ Hprot Hwriter Hhealthy Hd) as (w' & Hw' & Hcase).
  unfold wireOf. rewrite Hw'. destruct Hcase as [[-> _] | [[_ _ Hfail Hun] _]]; [by eauto|].
  split; [by apply Hun|]. exists w'. split; [done|]. right. apply Hfail. by destruct err.
Qed.

Lemma unsent_now r err :
  send_inv r -> sendResult a r = Some err -> provesUnsent err = true ->
  (wireOf (rq_world r) = bw_wire w /\ exists w', cn_writer (rq_world r) = Some w' /\ (w' = w \/ bw_err w' <> None)) /\
  (rq_ctx r = true \/ rq_phase r = Finished).
Proof.
  intros [Hok Hw Hgu] Hres Hu.
  assert (Hsame : forall x, x = c -> wireOf x = bw_wire w /\ exists w', cn_writer x = Some w' /\ (w' = w \/ bw_err w' <> None)).
  { intros x ->. unfold wireOf. rewrite Hwriter. split; [done|]. exists w. by split; [|left]. }
  unfold sendResult in Hres. destruct (rq_caller r) as [|err0|e0] eqn:Hc; [done| |]; injection Hres as <-;
    apply classify_unsent in Hu.
  - assert (Hp : rq_phase r = Finished /\ rq_chan r = []).
    { destruct Hok as [_ Hs Hcn _ _]. rewrite Hc, Hs in Hcn. cbn in Hcn.
      destruct (rq_phase r), (rq_chan r); cbn in Hcn; try lia; done. }
    destruct Hp as [Hp Hch]. split; [|by right]. unfold world_inv in Hw. rewrite Hp in Hw.
    destruct Hw as (res & Hr & Hcase). unfold resultOf in Hr. rewrite Hch, Hc in Hr. injection Hr as <-.
    destruct Hcase as [(_ & Hw & _) | (Hcalls & ctx & env & Hd)]; [by apply Hsame|].
    destruct Hu as [Hu | [Hent _]]; [by eapply unsent_dispatch|]. by rewrite Hcalls in Hent.
  - split; [|left; apply Hok; by rewrite Hc].
    destruct Hu as [Hu | [Hent _]].
    { specialize (Hgu _ eq_refl). unfold provesUnsent, SendDispositionOf in Hu. by rewrite Hgu in Hu. }
    apply negb_false_iff, Nat.eqb_eq in Hent. unfold world_inv in Hw. apply Hsame.
    destruct (rq_phase r); try done; try (by apply Hw).
    destruct Hw as (res & _ & [(_ & Hx & _) | [Hx _]]); [done | congruence].
Qed.
End Send.

(** A writer that has failed takes no byte any more. *)
Lemma failed_writer_is_silent a ctx env c w :
  cn_writer c = Some w -> bw_err w <> None -> wireOf (dispatchBody a ctx env c).1 = bw_wire w.
Proof.
  intros Hw He.
  assert (Hsil : forall frames acc w1 k e, writeFrames frames acc w = (w1, k, e) -> bw_wire w1 = bw_wire w /\ w1 = w).
  { intros frames acc w1 k e H. apply writeFrames_spec in H as (_ & _ & _ & [_ _ _ _ Ht] & _). by rewrite (Ht He). }
  assert (Htr : forall epoch c1, wireOf (transmit a epoch w c1).1 = bw_wire w).
  { intros epoch c1. unfold transmit. cbv zeta. destruct (writeFrames _ _ w) as [[w1 k] e] eqn:Hf.
    destruct (Hsil _ _ _ _ _ Hf) as [Hx ->]. destruct e; [done|].
    destruct (Flush w) as [w2 e2] eqn:Hfl. apply Flush_spec in Hfl as ([_ _ _ _ Ht] & _). rewrite (Ht He).
    destruct e2; [done|]. by destruct (explicitMode a), (setsMode a c1 epoch). }
  destruct ctx; [unfold wireOf; cbn; by rewrite Hw|].
  destruct (dispatchBody a false env c) as [c' err] eqn:Hd. apply dispatchBody_cases in Hd.
  destruct Hd as [e d | w1 e d Hw1 | w1 c1 c' err Hw1 Hg Ht]; cbn [fst].
  - unfold wireOf. by rewrite Hw.
  - unfold wireOf. cbn. by rewrite Hw.
  - rewrite Hw in Hw1. injection Hw1 as <-. specialize (Htr (de_currentEpoch env) c1). by rewrite Ht in Htr.
Qed.

(** C21.  "Definitely unsent" is true and stays true.  Take a protected send (an
    order, or one bound to a session epoch) on a connection whose writer has not
    failed.  If, at some moment of any interleaving of the caller, the limiter
    and the dispatch, the send has returned an error that proves it unsent, then
    whatever happens afterwards (a dispatch that was still queued and runs late,
    for instance) the bytes on the wire are exactly those before the send; and
    the writer is either the very same, nothing of the frames left in its
    buffer, or it has failed, and a failed writer puts no byte on the wire
    whatever is sent through it later. *)
Theorem definitely_unsent_stays_unsent a su c w evs1 evs2 err c1 res2 c2 :
  protectedSend a = true -> cn_writer c = Some w -> bw_err w = None ->
  sendBoundFrames a su evs1 c = Some (Some err, c1) -> provesUnsent err = true ->
  sendBoundFrames a su (evs1 ++ evs2) c = Some (res2, c2) ->
  wireOf c2 = bw_wire w /\
  exists w2, cn_writer c2 = Some w2 /\
    (w2 = w \/ bw_err w2 <> None /\ forall a' ctx env, wireOf (dispatchBody a' ctx env c2).1 = bw_wire w).
Proof.
  intros Hp Hw He H1 Hu H2. unfold sendBoundFrames in H1, H2.
  assert (Hsame : c2 = c -> wireOf c2 = bw_wire w /\
    exists w2, cn_writer c2 = Some w2 /\
      (w2 = w \/ bw_err w2 <> None /\ forall a' ctx env, wireOf (dispatchBody a' ctx env c2).1 = bw_wire w)).
  { intros ->. unfold wireOf at 1. rewrite Hw. split; [done|]. exists w. by split; [|left]. }
  destruct (sendRefusal a); [injection H2 as _ <-; by apply Hsame|].
  destruct (submitRefusal su); [injection H2 as _ <-; by apply Hsame|].
  destruct (limiterRun _ _ (newRequest c) evs1) as [r1|] eqn:Hr1; [|done]. injection H1 as Hres <-.
  destruct (limiterRun _ _ (newRequest c) (evs1 ++ evs2)) as [r2|] eqn:Hr2; [|done]. injection H2 as _ <-.
  assert (Hi := Run_inv a c Hp _ _ _ (start_inv a c) Hr1).
  destruct (unsent_now a c w Hp Hw He _ _ Hi Hres Hu) as [[Hwire (w1 & Hw1 & Hcase)] Hset].
  assert (Hrun : limiterRun (dispatchBody a) (maxRetries a) r1 evs2 = Some r2).
  { clear -Hr1 Hr2. revert Hr1 Hr2. generalize (newRequest c). induction evs1 as [|ev evs IH]; intros r; cbn [limiterRun app].
    - intros [= ->]. done.
    - destruct (limiterStep _ _ r ev); [apply IH | done]. }
  rewrite (settled_world a c Hp _ _ _ Hi Hset Hrun). split; [done|]. exists w1. split; [done|].
  destruct Hcase as [-> | Hf]; [by left|]. right. split; [done|]. intros a' ctx env.
  rewrite (failed_writer_is_silent a' ctx env _ _ Hw1 Hf). unfold wireOf in Hwire. by rewrite Hw1 in Hwire.
Qed.

(** What a protected send may have done to the connection by some moment. *)
Record wireEffect (a : sendArgs) (c : conn) (w : bufw) (res : option (option sendErr)) (c1 : conn) (epoch : Z)
    (w1 : bufw) (k : nat) : Prop := {
  we_writer : cn_writer c1 = Some w1;
  we_taken : (k <= List.length (stream (framesOf a c epoch)))%nat;
  we_content : content w1 = content w ++ take k (stream (framesOf a c epoch));
  we_wire : bw_wire w `prefix_of` bw_wire w1;
  we_done : res = Some None -> k = List.length (stream (framesOf a c epoch)) /\ bw_buf w1 = [];
  we_guard : sa_guard a = true -> bw_wire w1 <> bw_wire w -> (List.length (bw_wire w), true) ∈ cn_guards c1
}.

Lemma wireEffect_none a c w res epoch : cn_writer c = Some w -> res <> Some None -> wireEffect a c w res c epoch w 0.
Proof. intros Hw Hr. split; try done; [lia | by rewrite take_0, List.app_nil_r]. Qed.

Lemma classify_some a entered e : classify a entered (Some e) <> None.
Proof.
  unfold classify. destruct (negb (protectedSend a)), (present (se_typed e)), (negb entered); try done;
    intros H; by apply send_error_some in H.
Qed.

Lemma wireEffect_dispatch a c w res ctx env c1 err :
  protectedSend a = true -> cn_writer c = Some w -> bw_err w = None -> dispatchBody a ctx env c = (c1, err) ->
  (res = Some None -> err = None) -> exists epoch w1 k, wireEffect a c w res c1 epoch w1 k.
Proof.
  intros Hp Hw He Hd Hres. destruct (dispatchBody_spec _ _ _ _ _ _ _ Hp Hw He Hd) as (w1 & Hw1 & Hcase).
  destruct Hcase as [[-> Hne] | [[(k & Hk & [Hc Hwire _ _ _] & Hfull) Hbuf _ _] Hg]].
  - exists 0, w, O. split; try done; [lia | by rewrite take_0, List.app_nil_r | intros Hr; by apply Hres in Hr].
  - exists (de_currentEpoch env), w1, k. split; try done; [|intros Hs _; by apply Hg].
    intros Hr. apply Hres in Hr. by split; [apply Hfull | apply Hbuf].
Qed.

(** A protected send is sent at most once, whole when it succeeds, and never
    before the guard agreed.  At any moment of any interleaving, what the send has
    added to the wire and the writer's buffer is one prefix of its own
    length-prefixed frames, after everything that was there before; when it has
    returned without error the prefix is all of the frames and the buffer is
    empty; and if a byte has gone out under a wire guard, the guard had agreed at
    a moment when the wire still was what it was before the send. *)
Lemma send_effect a su c w evs res c1 :
  protectedSend a = true -> cn_writer c = Some w -> bw_err w = None ->
  sendBoundFrames a su evs c = Some (res, c1) ->
  exists epoch w1 k, wireEffect a c w res c1 epoch w1 k.
Proof.
  intros Hp Hw He H. unfold sendBoundFrames in H.
  assert (Hnone : forall x res, res <> Some None -> x = c -> exists epoch w1 k, wireEffect a c w res x epoch w1 k).
  { intros x rs Hr ->. exists 0, w, O. by apply wireEffect_none. }
  destruct (sendRefusal a) as [e|]; [injection H as <- <-; by apply Hnone|].
  destruct (submitRefusal su) as [e|].
  { injection H as <- <-. apply Hnone; [|done]. intros [= Hx]. by apply classify_some in Hx. }
  destruct (limiterRun _ _ (newRequest c) evs) as [r|] eqn:Hr; [|done]. injection H as <- <-.
  destruct (Run_inv a c Hp _ _ _ (start_inv a c) Hr) as [Hok Hinv Hgu].
  assert (Hok0 : sendResult a r = Some None -> rq_caller r = Answered None).
  { unfold sendResult. destruct (rq_caller r) as [|[e|]|e]; try done; intros [= Hx]; by apply classify_some in Hx. }
  assert (Hlive : rq_phase r <> Finished -> sendResult a r <> Some None).
  { intros Hph Hx. apply Hok0 in Hx. destruct Hok as [_ Hs Hcn _ _]. rewrite not_finished in Hs by done.
    rewrite Hx, Hs in Hcn. cbn in Hcn. lia. }
  unfold world_inv in Hinv. destruct (rq_phase r) eqn:Hph; try (apply Hnone; [by apply Hlive | by apply Hinv]); try done.
  destruct Hinv as (res & Hres & [(Hc & Hwd & Hne) | (Hc & ctx & env & Hd)]).
  - apply Hnone; [|done]. intros Hx. apply Hok0 in Hx. unfold resultOf in Hres. rewrite Hx in Hres.
    destruct Hok as [_ Hs Hcn _ _]. rewrite Hx, Hs, Hph in Hcn. cbn in Hcn. destruct (rq_chan r); [congruence | cbn in Hcn; lia].
  - eapply wireEffect_dispatch; try done. intros Hx. apply Hok0 in Hx. unfold resultOf in Hres. rewrite Hx in Hres.
    destruct Hok as [_ Hs Hcn _ _]. rewrite Hx, Hs, Hph in Hcn. cbn in Hcn. destruct (rq_chan r); [congruence | cbn in Hcn; lia].
Qed.

(** The same send as it returned: an error that proves it unsent left the wire. *)
Lemma unsent_wire a su c w evs err c1 :
  protectedSend a = true -> cn_writer c = Some w -> bw_err w = None ->
  sendBoundFrames a su evs c = Some (Some err, c1) -> provesUnsent err = true -> wireOf c1 = bw_wire w.
Proof.
  intros Hp Hw He H Hu. unfold sendBoundFrames in H. assert (Hsame : wireOf c = bw_wire w) by (unfold wireOf; by rewrite Hw).
  destruct (sendRefusal a); [by injection H as _ <-|]. destruct (submitRefusal su); [by injection H as _ <-|].
  destruct (limiterRun _ _ (newRequest c) evs) as [r|] eqn:Hr; [|done]. injection H as Hres <-.
  assert (Hi := Run_inv a c Hp _ _ _ (start_inv a c) Hr).
  by destruct (unsent_now a c w Hp Hw He _ _ Hi Hres Hu) as [[Hwire _] _].
Qed.

(** Only a dispatch moves the world. *)
Lemma step_world a r ev r' :
  limiterStep (dispatchBody a) (maxRetries a) r ev = Some r' ->
  rq_world r' = match ev with EvSendDone env => (dispatchBody a (rq_ctx r) env (rq_world r)).1 | _ => rq_world r end.
Proof.
  assert (Hc : forall (x : request conn) err, rq_world (closeOut (maxRetries a) x err) = rq_world x)
    by (intros x err; unfold closeOut; by destruct (shouldRetry _ x err)).
  destruct ev as [| | | |env| | | |full| | | | | |]; intros H.
  5: { apply send_done_inv in H as [_ ->]. by rewrite Hc. }
  9: { by apply result_inv in H as (_ & err & rest & _ & ->). }
  all: cbn [limiterStep] in H; if_inv H; subst r'; rewrite ?Hc; try done; by destruct full.
Qed.

(** A guard that refuses keeps the writer out of the run. *)
Definition guardRefuses (ev : event dispatchEnv) : Prop :=
  match ev with EvSendDone env => de_guardErr env <> None | _ => True end.

Lemma refused_dispatch a ctx env c :
  sa_guard a = true -> de_guardErr env <> None -> cn_writer (dispatchBody a ctx env c).1 = cn_writer c.
Proof.
  intros Hg He. unfold dispatchBody. rewrite Hg. destruct (de_guardErr env) as [e|]; [|done].
  destruct (ctx || _); [done|]. destruct (de_handshake env); [done|]. destruct (de_ctx2 env); [done|].
  destruct (de_ended env); [done|]. destruct (de_ctx3 env); [done|]. destruct (_ && _); [done|].
  destruct (_ && _); [done|]. destruct (cn_writer c) eqn:Hw; [|done]. destruct (_ && _); done.
Qed.

Lemma refused_send a su c evs res c1 :
  sa_guard a = true -> Forall guardRefuses evs -> sendBoundFrames a su evs c = Some (res, c1) ->
  cn_writer c1 = cn_writer c.
Proof.
  intros Hg Hall H. unfold sendBoundFrames in H. destruct (sendRefusal a); [by injection H as _ <-|].
  destruct (submitRefusal su); [by injection H as _ <-|].
  destruct (limiterRun _ _ (newRequest c) evs) as [r|] eqn:Hr; [|done]. injection H as _ <-.
  change (cn_writer c) with (cn_writer (rq_world (newRequest c))). revert Hr. generalize (newRequest c). clear c.
  induction Hall as [|ev evs Hev _ IH]; intros r0 Hr; cbn [limiterRun] in Hr; [by injection Hr as <-|].
  destruct (limiterStep _ _ r0 ev) as [r1|] eqn:Hs; [|done]. rewrite (IH _ Hr).
  apply step_world in Hs as ->. destruct ev; try done. by apply refused_dispatch.
Qed.

(** ** Concrete sends *)

Definition order_msg : bytes := list_ascii_of_string "place".
Definition order_send : sendArgs := mkSendArgs order_msg [] RequestTypeOrder 7 true true 0 176 4 true.
Definition calm : dispatchEnv := mkDispatchEnv false false false false None false 7 true 4 4 None.
Definition no_refusal : submitEnv := mkSubmitEnv false false false false.
Definition fresh_conn (sock : list sockOutcome) : conn := mkConn (Some (mkBufw 4096 [] None sock [])) 0 0 false [].
Definition one_dispatch : list (event dispatchEnv) := [EvTake; EvAdmit; EvEnter; EvSendDone calm; EvResult].

(** The caller times out while the dispatch is queued; the late dispatch then
    finds its context done. *)
Lemma definitely_unsent_stays_unsent_witness :
  exists err c1 res2 c2,
    sendBoundFrames order_send no_refusal [EvTake; EvAdmit; EvTimeout] (fresh_conn []) = Some (Some err, c1) /\
    provesUnsent err = true /\
    sendBoundFrames order_send no_refusal ([EvTake; EvAdmit; EvTimeout] ++ [EvEnter; EvSendDone calm]) (fresh_conn []) =
      Some (res2, c2) /\
    wireOf c2 = [].
Proof.
  destruct (sendBoundFrames order_send no_refusal [EvTake; EvAdmit; EvTimeout] (fresh_conn []))
    as [[[err|] c1]|] eqn:H1; [|vm_compute in H1; discriminate H1 | vm_compute in H1; discriminate H1].
  assert (Hu : provesUnsent err = true)
    by (vm_compute in H1; injection H1 as <- <-; vm_compute; reflexivity).
  destruct (sendBoundFrames order_send no_refusal ([EvTake; EvAdmit; EvTimeout] ++ [EvEnter; EvSendDone calm]) (fresh_conn []))
    as [[res2 c2]|] eqn:H2; [|vm_compute in H2; discriminate H2].
  exists err, c1, res2, c2. split; [reflexivity|]. split; [exact Hu|]. split; [reflexivity|].
  destruct (definitely_unsent_stays_unsent order_send no_refusal (fresh_conn []) (mkBufw 4096 [] None [] []) _ _ err c1 res2 c2
              eq_refl eq_refl eq_refl H1 Hu H2) as [Hw _]. exact Hw.
Defined.
