(* ===== verification/ProtoWire.v ===== *)
(** * Protocol-buffer fields

    src/pkg/ibkr/place_order_proto.go (the protoAppend functions,
    forEachProtoField and the value readers) and what they use of Go's standard
    library: base-128 varints at the width of uint64 with Go's overflow rule, and
    the bits of a float64.  Proved: a varint, a float and a list of fields read
    back as what was appended. *)

From stdpp Require Import base decidable list strings.
From Stdlib Require Import ZArith Lia Ascii String SpecFloat.
From S2P Require Import Prelude WireCodec.

(** ** Integers *)

(** Two's complement: [uint64(z)], [int(v)] of a uint64, [int32(v)]. *)
Definition uint64 (z : Z) : Z := z mod 18446744073709551616.
Definition int_of_uint64 (v : Z) : Z := if v <? 9223372036854775808 then v else v - 18446744073709551616.
Definition int32_of (v : Z) : Z := let r := v mod 4294967296 in if r <? 2147483648 then r else r - 4294967296.

(** binary.AppendUvarint of a uint64: at most ten bytes. *)
Fixpoint uvarint_bytes (fuel : nat) (x : Z) : bytes :=
  match fuel with
  | O => []
  | S fuel => if 128 <=? x then byte_of (Z.lor (Z.land x 127) 128) :: uvarint_bytes fuel (Z.shiftr x 7) else [byte_of x]
  end.
Definition AppendUvarint (buf : bytes) (x : Z) : bytes := buf ++ uvarint_bytes 10 x.

(** The loop of binary.Uvarint: [i] bytes read, value and shift so far. *)
Fixpoint uvarint_loop (buf : bytes) (i : Z) (x s : Z) : Z * Z :=
  match buf with
  | [] => (0, 0)
  | b :: rest =>
      let b := byte_val b in
      if i =? 10 then (0, - (i + 1))
      else if b <? 128 then
        if (i =? 9) && (1 <? b) then (0, - (i + 1)) else (Z.lor x (Z.shiftl b s), i + 1)
      else uvarint_loop rest (i + 1) (Z.lor x (Z.shiftl (Z.land b 127) s)) (s + 7)
  end.
Definition Uvarint (buf : bytes) : Z * Z := uvarint_loop buf 0 0 0.

(** Disjoint bits add up. *)
Lemma lor_add a b k : 0 <= k -> 0 <= b < 2 ^ k -> Z.lor b (a * 2 ^ k) = b + a * 2 ^ k.
Proof.
  intros Hk Hb. rewrite <- Z.add_lor_land. replace (Z.land b (a * 2 ^ k)) with 0; [lia|].
  symmetry. apply Z.bits_inj'. intros n Hn. rewrite Z.land_spec, Z.bits_0.
  destruct (decide (n < k)).
  - by rewrite Z.mul_pow2_bits_low, andb_false_r.
  - replace (Z.testbit b n) with false; [done|]. symmetry.
    destruct (decide (b = 0)) as [->|]; [apply Z.bits_0|].
    apply Z.bits_above_log2; [lia|]. apply Z.log2_lt_pow2; [lia|].
    eapply Z.lt_le_trans; [apply Hb | apply Z.pow_le_mono_r; lia].
Qed.

Lemma low7 x : Z.land x 127 = x mod 128.
Proof. change 127 with (Z.ones 7). by rewrite Z.land_ones. Qed.

Lemma continuation_byte x : 0 <= x -> byte_val (byte_of (Z.lor (Z.land x 127) 128)) = x mod 128 + 128.
Proof.
  intros Hx. rewrite byte_of_val, low7. assert (H := Z.mod_pos_bound x 128 ltac:(lia)).
  change 128 with (1 * 2 ^ 7) at 2. rewrite lor_add by (change (2 ^ 7) with 128; lia).
  change (1 * 2 ^ 7) with 128. apply Z.mod_small. lia.
Qed.

(** What the decoder has read so far, [i] continuation bytes in. *)
Lemma uvarint_loop_spec fuel i x acc rest :
  0 <= i -> 0 <= acc < 2 ^ (7 * i) -> 0 <= x -> (Z.of_nat fuel = 10 - i) -> (0 < fuel)%nat ->
  x < 2 ^ (64 - 7 * i) ->
  uvarint_loop (uvarint_bytes fuel x ++ rest) i acc (7 * i) =
    (acc + x * 2 ^ (7 * i), i + Z.of_nat (List.length (uvarint_bytes fuel x))).
Proof.
  revert i x acc. induction fuel as [|fuel IH]; intros i x acc Hi Hacc Hx Hf Hpos Hlt; [lia|].
  cbn [uvarint_bytes]. destruct (128 <=? x) eqn:Hbig; bool_hyps; cbn [app uvarint_loop List.length].
  - rewrite continuation_byte by done. assert (Hm := Z.mod_pos_bound x 128 ltac:(lia)).
    assert (Hi9 : i < 9).
    { destruct (decide (i < 9)); [done|]. assert (i = 9) by lia. subst i. change (2 ^ (64 - 7 * 9)) with 2 in Hlt. lia. }
    replace (i =? 10) with false by (symmetry; apply Z.eqb_neq; lia).
    replace (x mod 128 + 128 <? 128) with false by (symmetry; apply Z.ltb_ge; lia).
    rewrite low7. replace ((x mod 128 + 128) mod 128) with (x mod 128)
      by (apply (Z.mod_unique _ _ 1); lia).
    rewrite Z.shiftl_mul_pow2, lor_add by (done || lia).
    replace (7 * i + 7) with (7 * (i + 1)) by lia.
    assert (Hpow : 2 ^ (7 * (i + 1)) = 128 * 2 ^ (7 * i))
      by (replace (7 * (i + 1)) with (7 + 7 * i) by lia; by rewrite Z.pow_add_r by lia).
    rewrite Z.shiftr_div_pow2 by lia. change (2 ^ 7) with 128.
    assert (Hdiv : x = 128 * (x / 128) + x mod 128) by (apply Z.div_mod; lia).
    assert (Hp0 : 0 < 2 ^ (7 * i)) by (apply Z.pow_pos_nonneg; lia).
    rewrite IH.
    + f_equal; [|lia]. rewrite Hpow. nia.
    + lia.
    + rewrite Hpow. nia.
    + apply Z.div_pos; lia.
    + lia.
    + lia.
    + apply Z.div_lt_upper_bound; [lia|]. change 128 with (2 ^ 7). rewrite <- Z.pow_add_r by lia.
      by replace (7 + (64 - 7 * (i + 1))) with (64 - 7 * i) by lia.
  - rewrite byte_of_val, Z.mod_small by lia.
    replace (i =? 10) with false by (symmetry; apply Z.eqb_neq; lia).
    replace (x <? 128) with true by (symmetry; apply Z.ltb_lt; lia).
    replace ((i =? 9) && (1 <? x)) with false.
    + rewrite Z.shiftl_mul_pow2, lor_add by (done || lia). f_equal.
    + symmetry. apply andb_false_iff. destruct (decide (i = 9)) as [->|]; [right | left; by apply Z.eqb_neq].
      change (2 ^ (64 - 7 * 9)) with 2 in Hlt. apply Z.ltb_ge. lia.
Qed.

(** A uint64 reads back from its varint, whatever follows. *)
Lemma Uvarint_roundtrip x rest :
  0 <= x < 2 ^ 64 ->
  Uvarint (uvarint_bytes 10 x ++ rest) = (x, Z.of_nat (List.length (uvarint_bytes 10 x))).
Proof.
  intros Hx. unfold Uvarint. assert (H := uvarint_loop_spec 10 0 x 0 rest).
  change (7 * 0) with 0 in H. rewrite H by (try done; lia). f_equal. change (2 ^ 0) with 1. lia.
Qed.

Lemma uvarint_nonempty x : (0 < List.length (uvarint_bytes 10 x))%nat.
Proof. cbn [uvarint_bytes]. destruct (128 <=? x); cbn; lia. Qed.

Lemma uvarint_length fuel x : (List.length (uvarint_bytes fuel x) <= fuel)%nat.
Proof.
  revert x. induction fuel as [|fuel IH]; intros x; cbn [uvarint_bytes]; [done|].
  destruct (128 <=? x); cbn [List.length]; [specialize (IH (Z.shiftr x 7))|]; lia.
Qed.

Lemma int_uint64 z : -9223372036854775808 <= z < 9223372036854775808 -> int_of_uint64 (uint64 z) = z.
Proof.
  intros Hz. unfold int_of_uint64, uint64.
  destruct (decide (0 <= z)).
  - rewrite Z.mod_small by lia. by replace (z <? 9223372036854775808) with true by (symmetry; apply Z.ltb_lt; lia).
  - replace (z mod 18446744073709551616) with (z + 18446744073709551616)
      by (apply (Z.mod_unique _ _ (-1)); lia).
    replace (z + 18446744073709551616 <? 9223372036854775808) with false by (symmetry; apply Z.ltb_ge; lia). lia.
Qed.

Lemma uint64_range z : 0 <= uint64 z < 2 ^ 64.
Proof. unfold uint64. change (2 ^ 64) with 18446744073709551616. apply Z.mod_pos_bound. lia. Qed.

(** ** Floats *)

(** math.Float64bits and Float64frombits; Go's NaN is 0x7FF8000000000001. *)
Definition sign_bit (s : bool) : Z := if s then 9223372036854775808 else 0.
Definition Float64bits (x : float64) : Z :=
  match x with
  | S754_zero s => sign_bit s
  | S754_infinity s => sign_bit s + 2047 * 4503599627370496
  | S754_nan => 2047 * 4503599627370496 + 2251799813685249
  | S754_finite s m e =>
      if Z.pos m <? 4503599627370496 then sign_bit s + Z.pos m
      else sign_bit s + (e + 1075) * 4503599627370496 + (Z.pos m - 4503599627370496)
  end.

Definition Float64frombits (b : Z) : float64 :=
  let s := 9223372036854775808 <=? b in
  let ex := (b / 4503599627370496) mod 2048 in
  let fr := b mod 4503599627370496 in
  let mk m e := match m with Z.pos p => S754_finite s p e | _ => S754_zero s end in
  if ex =? 0 then mk fr (-1074)
  else if ex =? 2047 then (if fr =? 0 then S754_infinity s else S754_nan)
  else mk (fr + 4503599627370496) (ex - 1075).

Lemma digits2_bound m : 2 ^ (Z.pos (digits2_pos m) - 1) <= Z.pos m < 2 ^ Z.pos (digits2_pos m).
Proof.
  induction m as [m IH|m IH|]; cbn [digits2_pos]; [| |done].
  all: rewrite Pos2Z.inj_succ; replace (Z.succ (Z.pos (digits2_pos m)) - 1) with (Z.pos (digits2_pos m)) by lia;
    rewrite Z.pow_succ_r by lia;
    assert (H : 2 ^ Z.pos (digits2_pos m) = 2 * 2 ^ (Z.pos (digits2_pos m) - 1))
      by (rewrite <- Z.pow_succ_r by lia; f_equal; lia); lia.
Qed.

Definition validFloat (x : float64) : bool := valid_binary f_prec f_emax x.

Lemma valid_finite s m e :
  validFloat (S754_finite s m e) = true ->
  (Z.pos m < 4503599627370496 /\ e = -1074) \/
  (4503599627370496 <= Z.pos m < 9007199254740992 /\ -1074 <= e <= 971).
Proof.
  unfold validFloat, valid_binary, bounded, canonical_mantissa. intros H. bool_hyps.
  unfold fexp, emin, f_prec, f_emax in *. assert (Hd := digits2_bound m).
  destruct (decide (Z.pos (digits2_pos m) <= 52)) as [Hle|Hgt].
  - left. split; [|lia]. change 4503599627370496 with (2 ^ 52).
    eapply Z.lt_le_trans; [apply Hd | apply Z.pow_le_mono_r; lia].
  - right. assert (Hdig : Z.pos (digits2_pos m) = 53) by lia. rewrite Hdig in Hd.
    change (2 ^ (53 - 1)) with 4503599627370496 in Hd. change (2 ^ 53) with 9007199254740992 in Hd. lia.
Qed.

Lemma Float64bits_range x : validFloat x = true -> 0 <= Float64bits x < 2 ^ 64.
Proof.
  change (2 ^ 64) with 18446744073709551616.
  destruct x as [[]|[]| |s m e]; cbn [Float64bits sign_bit]; try lia. intros Hv. apply valid_finite in Hv.
  destruct (Z.pos m <? 4503599627370496) eqn:E; bool_hyps; unfold sign_bit; destruct s; lia.
Qed.

Lemma Float64_roundtrip x : validFloat x = true -> Float64frombits (Float64bits x) = x.
Proof.
  destruct x as [[]|[]| |s m e]; try reflexivity. intros Hv. apply valid_finite in Hv.
  assert (Hparts : forall hi fr, 0 <= hi < 2048 -> 0 <= fr < 4503599627370496 ->
    let b := sign_bit s + hi * 4503599627370496 + fr in
    (9223372036854775808 <=? b) = s /\ (b / 4503599627370496) mod 2048 = hi /\ b mod 4503599627370496 = fr).
  { intros hi fr Hhi Hfr b.
    assert (Hs : sign_bit s = (if s then 2048 else 0) * 4503599627370496) by (by destruct s).
    assert (Hq : b / 4503599627370496 = (if s then 2048 else 0) + hi).
    { unfold b. rewrite Hs. symmetry. apply (Z.div_unique _ _ _ fr); [lia|]. lia. }
    split_and!.
    - unfold b. destruct s; cbn [sign_bit]; [apply Z.leb_le | apply Z.leb_gt]; lia.
    - rewrite Hq. destruct s; [|by rewrite Z.mod_small by lia].
      replace (2048 + hi) with (hi + 1 * 2048) by lia. rewrite Z.mod_add by lia. by apply Z.mod_small.
    - unfold b. rewrite Hs. rewrite Z.add_comm, <- Z.mul_add_distr_r, Z.mod_add by lia. by apply Z.mod_small. }
  unfold Float64bits. destruct (Z.pos m <? 4503599627370496) eqn:E; bool_hyps.
  - destruct Hv as [[_ ->] | [? _]]; [|lia].
    destruct (Hparts 0 (Z.pos m) ltac:(lia) ltac:(lia)) as (H1 & H2 & H3).
    replace (sign_bit s + Z.pos m) with (sign_bit s + 0 * 4503599627370496 + Z.pos m) by lia.
    unfold Float64frombits. cbv zeta. rewrite H1, H2, H3. reflexivity.
  - destruct Hv as [[? _] | [Hm He]]; [lia|].
    destruct (Hparts (e + 1075) (Z.pos m - 4503599627370496) ltac:(lia) ltac:(lia)) as (H1 & H2 & H3).
    unfold Float64frombits. cbv zeta. rewrite H1, H2, H3.
    replace (e + 1075 =? 0) with false by (symmetry; apply Z.eqb_neq; lia).
    replace (e + 1075 =? 2047) with false by (symmetry; apply Z.eqb_neq; lia).
    replace (Z.pos m - 4503599627370496 + 4503599627370496) with (Z.pos m) by lia.
    by replace (e + 1075 - 1075) with e by lia.
Qed.

(** ** Appending fields *)

Definition protoWireVarint : Z := 0.
Definition protoWireFixed64 : Z := 1.
Definition protoWireBytes : Z := 2.

Definition protoAppendTag (buf : bytes) (fieldNumber wireType : Z) : bytes :=
  AppendUvarint buf (uint64 (Z.lor (Z.shiftl fieldNumber 3) wireType)).

(** [value] is an int32 sign-extended through int64. *)
Definition protoAppendInt32 (buf : bytes) (fieldNumber value : Z) : bytes :=
  AppendUvarint (protoAppendTag buf fieldNumber protoWireVarint) (uint64 value).

Definition protoAppendInt64 (buf : bytes) (fieldNumber value : Z) : bytes :=
  AppendUvarint (protoAppendTag buf fieldNumber protoWireVarint) (uint64 value).

Definition protoAppendBool (buf : bytes) (fieldNumber : Z) (value : bool) : bytes :=
  protoAppendTag buf fieldNumber protoWireVarint ++ [if value then byte_of 1 else byte_of 0].

(** binary.LittleEndian.AppendUint64 and Uint64. *)
Definition le64 (v : Z) : bytes := map (fun i => byte_of (Z.shiftr v (8 * i))) [0; 1; 2; 3; 4; 5; 6; 7].
Fixpoint le_val (b : bytes) : Z := match b with [] => 0 | c :: r => byte_val c + 256 * le_val r end.

Definition protoAppendDouble (buf : bytes) (fieldNumber : Z) (value : float64) : bytes :=
  protoAppendTag buf fieldNumber protoWireFixed64 ++ le64 (Float64bits value).

Definition protoAppendMessage (buf : bytes) (fieldNumber : Z) (value : bytes) : bytes :=
  AppendUvarint (protoAppendTag buf fieldNumber protoWireBytes) (uint64 (Z.of_nat (List.length value))) ++ value.

Definition protoAppendString (buf : bytes) (fieldNumber : Z) (value : string) : bytes :=
  if value =s "" then buf else protoAppendMessage buf fieldNumber (list_ascii_of_string value).

(** ** Reading fields *)

Abbreviation pres := (result string).

Section ForEach.
Context {S : Type} (fn : S -> Z -> Z -> bytes -> pres S).

(** The loop of forEachProtoField: every round takes at least one byte. *)
Fixpoint forEachLoop (fuel : nat) (buf : bytes) (s : S) : pres S :=
  match buf with
  | [] => Ok s
  | _ =>
      match fuel with
      | O => Err "out of fuel"
      | Datatypes.S fuel =>
          let '(tag, n) := Uvarint buf in
          if n <=? 0 then Err "invalid_tag"
          else
            let buf := drop (Z.to_nat n) buf in
            let fieldNumber := Z.shiftr tag 3 in
            let wireType := Z.land tag 7 in
            let next value rest := let? s := fn s fieldNumber wireType value in forEachLoop fuel rest s in
            if wireType =? protoWireVarint then
              let n := (Uvarint buf).2 in
              if n <=? 0 then Err (String.append "invalid_varint_field_" (Itoa fieldNumber))
              else next (take (Z.to_nat n) buf) (drop (Z.to_nat n) buf)
            else if wireType =? protoWireFixed64 then
              if (List.length buf <? 8)%nat then Err (String.append "truncated_fixed64_field_" (Itoa fieldNumber))
              else next (take 8 buf) (drop 8 buf)
            else if wireType =? protoWireBytes then
              let '(length, n) := Uvarint buf in
              if n <=? 0 then Err (String.append "invalid_length_field_" (Itoa fieldNumber))
              else
                let buf := drop (Z.to_nat n) buf in
                if Z.of_nat (List.length buf) <? length
                then Err (String.append "truncated_bytes_field_" (Itoa fieldNumber))
                else next (take (Z.to_nat length) buf) (drop (Z.to_nat length) buf)
            else Err (String.append "unsupported_wire_" (String.append (Itoa wireType)
                        (String.append "_field_" (Itoa fieldNumber))))
      end
  end.

(** forEachProtoField *)
Definition forEachProtoField (buf : bytes) (s : S) : pres S := forEachLoop (List.length buf) buf s.
End ForEach.

Definition protoVarintValue (fieldNumber wireType : Z) (value : bytes) : pres Z :=
  if negb (wireType =? protoWireVarint) then Err (String.append "field_" (String.append (Itoa fieldNumber) "_not_varint"))
  else
    let '(v, n) := Uvarint value in
    if n <=? 0 then Err (String.append "field_" (String.append (Itoa fieldNumber) "_invalid_varint")) else Ok v.

Definition protoFixed64Value (fieldNumber wireType : Z) (value : bytes) : pres Z :=
  if negb (wireType =? protoWireFixed64)
  then Err (String.append "field_" (String.append (Itoa fieldNumber) "_not_fixed64"))
  else if negb (List.length value =? 8)%nat
  then Err (String.append "field_" (String.append (Itoa fieldNumber) "_invalid_fixed64"))
  else Ok (le_val value).

(** ** Fields as data *)

Inductive pfield := PVarint (n v : Z) | PFixed (n v : Z) | PBytes (n : Z) (b : bytes).

Definition pf_number (f : pfield) : Z := match f with PVarint n _ | PFixed n _ | PBytes n _ => n end.
Definition pf_wire (f : pfield) : Z :=
  match f with PVarint _ _ => protoWireVarint | PFixed _ _ => protoWireFixed64 | PBytes _ _ => protoWireBytes end.
Definition pf_value (f : pfield) : bytes :=
  match f with PVarint _ v => uvarint_bytes 10 v | PFixed _ v => le64 v | PBytes _ b => b end.

Definition enc_field (f : pfield) : bytes :=
  protoAppendTag [] (pf_number f) (pf_wire f) ++
  match f with
  | PVarint _ v => uvarint_bytes 10 v
  | PFixed _ v => le64 v
  | PBytes _ b => uvarint_bytes 10 (uint64 (Z.of_nat (List.length b))) ++ b
  end.
Definition enc_fields (l : list pfield) : bytes := List.concat (map enc_field l).

Definition pf_ok (f : pfield) : bool :=
  (0 <? pf_number f) && (pf_number f <? 536870912) &&
  match f with
  | PVarint _ v | PFixed _ v => (0 <=? v) && (v <? 18446744073709551616)
  | PBytes _ b => Z.of_nat (List.length b) <? 9223372036854775808
  end.

(** A callback run over the fields in order. *)
Fixpoint eachField {S} (fn : S -> Z -> Z -> bytes -> pres S) (l : list pfield) (s : S) : pres S :=
  match l with
  | [] => Ok s
  | f :: l => let? s := fn s (pf_number f) (pf_wire f) (pf_value f) in eachField fn l s
  end.

Lemma tag_value n wt : 0 < n < 536870912 -> 0 <= wt < 8 -> uint64 (Z.lor (Z.shiftl n 3) wt) = n * 8 + wt.
Proof.
  intros Hn Hw. rewrite Z.lor_comm, Z.shiftl_mul_pow2, lor_add by (change (2 ^ 3) with 8; lia).
  change (2 ^ 3) with 8. unfold uint64. rewrite Z.mod_small by lia. lia.
Qed.

Lemma tag_parts n wt : 0 <= wt < 8 -> Z.shiftr (n * 8 + wt) 3 = n /\ Z.land (n * 8 + wt) 7 = wt.
Proof.
  intros Hw. split.
  - rewrite Z.shiftr_div_pow2 by lia. change (2 ^ 3) with 8. symmetry. apply (Z.div_unique _ _ _ wt); lia.
  - change 7 with (Z.ones 3). rewrite Z.land_ones by lia. change (2 ^ 3) with 8. symmetry. apply (Z.mod_unique _ _ n); lia.
Qed.

Lemma le64_length v : List.length (le64 v) = 8%nat.
Proof. reflexivity. Qed.

Lemma le64_val v : 0 <= v < 2 ^ 64 -> le_val (le64 v) = v.
Proof.
  intros Hv. unfold le64. cbn [map le_val]. rewrite !byte_of_val, !Z.shiftr_div_pow2 by lia.
  change (2 ^ (8 * 0)) with 1. change (2 ^ (8 * 1)) with 256. change (2 ^ (8 * 2)) with 65536.
  change (2 ^ (8 * 3)) with 16777216. change (2 ^ (8 * 4)) with 4294967296. change (2 ^ (8 * 5)) with 1099511627776.
  change (2 ^ (8 * 6)) with 281474976710656. change (2 ^ (8 * 7)) with 72057594037927936.
  change (2 ^ 64) with 18446744073709551616 in Hv.
  Z.to_euclidean_division_equations. lia.
Qed.

Lemma drop_prefix (a b : bytes) n : n = Z.of_nat (List.length a) -> drop (Z.to_nat n) (a ++ b) = b.
Proof. intros ->. by rewrite Nat2Z.id, drop_app_length. Qed.

Lemma take_prefix (a b : bytes) n : n = Z.of_nat (List.length a) -> take (Z.to_nat n) (a ++ b) = a.
Proof. intros ->. by rewrite Nat2Z.id, take_app_length. Qed.

Lemma forEachLoop_eq {S} (fn : S -> Z -> Z -> bytes -> pres S) fuel buf s :
  buf <> [] -> forEachLoop fn (Datatypes.S fuel) buf s =
    (let '(tag, n) := Uvarint buf in
     if n <=? 0 then Err "invalid_tag"
     else
       let buf := drop (Z.to_nat n) buf in
       let fieldNumber := Z.shiftr tag 3 in
       let wireType := Z.land tag 7 in
       let next value rest := let? s := fn s fieldNumber wireType value in forEachLoop fn fuel rest s in
       if wireType =? protoWireVarint then
         let n := (Uvarint buf).2 in
         if n <=? 0 then Err (String.append "invalid_varint_field_" (Itoa fieldNumber))
         else next (take (Z.to_nat n) buf) (drop (Z.to_nat n) buf)
       else if wireType =? protoWireFixed64 then
         if (List.length buf <? 8)%nat then Err (String.append "truncated_fixed64_field_" (Itoa fieldNumber))
         else next (take 8 buf) (drop 8 buf)
       else if wireType =? protoWireBytes then
         let '(length, n) := Uvarint buf in
         if n <=? 0 then Err (String.append "invalid_length_field_" (Itoa fieldNumber))
         else
           let buf := drop (Z.to_nat n) buf in
           if Z.of_nat (List.length buf) <? length
           then Err (String.append "truncated_bytes_field_" (Itoa fieldNumber))
           else next (take (Z.to_nat length) buf) (drop (Z.to_nat length) buf)
       else Err (String.append "unsupported_wire_" (String.append (Itoa wireType)
                   (String.append "_field_" (Itoa fieldNumber))))).
Proof. by destruct buf. Qed.

Lemma uvarint_pos x : (Z.of_nat (List.length (uvarint_bytes 10 x)) <=? 0) = false.
Proof. apply Z.leb_gt. assert (H := uvarint_nonempty x). lia. Qed.

#[local] Opaque uvarint_bytes Uvarint le64.

(** One encoded field, whatever follows it. *)
Lemma forEachLoop_field {S} (fn : S -> Z -> Z -> bytes -> pres S) fuel f rest s :
  pf_ok f = true ->
  forEachLoop fn (Datatypes.S fuel) (enc_field f ++ rest) s =
    let? s := fn s (pf_number f) (pf_wire f) (pf_value f) in forEachLoop fn fuel rest s.
Proof.
  intros Hok. unfold pf_ok in Hok. apply andb_true_iff in Hok as [Hn Hv]. bool_hyps.
  assert (Hw : 0 <= pf_wire f < 8) by (destruct f; cbn; unfold protoWireVarint, protoWireFixed64, protoWireBytes; lia).
  unfold enc_field, protoAppendTag, AppendUvarint. cbn [app]. rewrite tag_value by lia.
  destruct (tag_parts (pf_number f) (pf_wire f) Hw) as [Ht1 Ht2].
  rewrite <- List.app_assoc, forEachLoop_eq
    by (assert (Hu := uvarint_nonempty (pf_number f * 8 + pf_wire f)); intros Hx; apply app_eq_nil in Hx as [Hx _];
        rewrite Hx in Hu; cbn in Hu; lia).
  rewrite Uvarint_roundtrip by (change (2 ^ 64) with 18446744073709551616; lia). cbv beta iota zeta.
  rewrite uvarint_pos, drop_prefix, Ht1, Ht2 by done.
  destruct f as [n v|n v|n b]; cbn [pf_number pf_wire pf_value] in *; bool_hyps.
  - cbn [Z.eqb protoWireVarint]. rewrite Uvarint_roundtrip by (change (2 ^ 64) with 18446744073709551616; lia).
    cbn [snd]. by rewrite uvarint_pos, take_prefix, drop_prefix.
  - change (protoWireFixed64 =? protoWireVarint) with false. change (protoWireFixed64 =? protoWireFixed64) with true.
    cbv beta iota. rewrite length_app, le64_length. cbn [Nat.add Nat.ltb Nat.leb].
    by rewrite (take_app_length' (le64 v)), (drop_app_length' (le64 v)).
  - change (protoWireBytes =? protoWireVarint) with false. change (protoWireBytes =? protoWireFixed64) with false.
    change (protoWireBytes =? protoWireBytes) with true. cbv beta iota.
    assert (Hlen : uint64 (Z.of_nat (List.length b)) = Z.of_nat (List.length b)) by (unfold uint64; apply Z.mod_small; lia).
    rewrite Hlen, <- List.app_assoc, Uvarint_roundtrip by (change (2 ^ 64) with 18446744073709551616; lia).
    cbv beta iota. rewrite uvarint_pos, drop_prefix by done. rewrite length_app.
    replace (Z.of_nat (List.length b + List.length rest) <? Z.of_nat (List.length b)) with false
      by (symmetry; apply Z.ltb_ge; lia).
    by rewrite take_prefix, drop_prefix.
Qed.

Lemma enc_field_nonempty f : (0 < List.length (enc_field f))%nat.
Proof.
  unfold enc_field, protoAppendTag, AppendUvarint. cbn [app]. rewrite length_app.
  assert (H := uvarint_nonempty (uint64 (Z.lor (Z.shiftl (pf_number f) 3) (pf_wire f)))). lia.
Qed.

Lemma forEachLoop_fields {S} (fn : S -> Z -> Z -> bytes -> pres S) l fuel s :
  Forall (fun f => pf_ok f = true) l -> (List.length l <= fuel)%nat ->
  forEachLoop fn fuel (enc_fields l) s = eachField fn l s.
Proof.
  intros Hl. revert fuel s. induction Hl as [|f l Hf _ IH]; intros fuel s Hfuel; [by destruct fuel|].
  destruct fuel as [|fuel]; cbn [List.length] in Hfuel; [lia|]. unfold enc_fields in *. cbn [map List.concat eachField].
  rewrite forEachLoop_field by done. destruct (fn s _ _ _) as [s1|e]; [|done]. cbn [rbind]. apply IH. lia.
Qed.

Lemma enc_fields_length l : (List.length l <= List.length (enc_fields l))%nat.
Proof.
  induction l as [|f l IH]; [done|]. unfold enc_fields in *. cbn [map List.concat List.length]. rewrite length_app.
  assert (H := enc_field_nonempty f). lia.
Qed.

(** Fields read back.  Over the bytes of any list of well-formed fields,
    the reader calls its callback once per field, in order, with that field's
    number, wire type and exact value bytes, and stops at the first error the
    callback returns: tags and lengths decode at the widths they were encoded
    with, and no field's bytes are taken for another's. *)
Theorem encoded_fields_read_back {S} (fn : S -> Z -> Z -> bytes -> pres S) l s :
  Forall (fun f => pf_ok f = true) l ->
  forEachProtoField fn (enc_fields l) s = eachField fn l s.
Proof. intros Hl. apply forEachLoop_fields; [done | apply enc_fields_length]. Qed.

(** Enough fuel is enough: the byte count always is. *)
Lemma Uvarint_bound buf n : (Uvarint buf).2 = n -> n <= Z.of_nat (List.length buf).
Proof.
  Transparent Uvarint. unfold Uvarint. intros <-.
  assert (H : forall b i x s, 0 <= i -> (uvarint_loop b i x s).2 <= i + Z.of_nat (List.length b)).
  { induction b as [|c b IH]; intros i x s Hi; cbn [uvarint_loop List.length]; [cbn; lia|].
    destruct (i =? 10); [cbn; lia|]. destruct (byte_val c <? 128).
    - destruct (_ && _); cbn; lia.
    - eapply Z.le_trans; [apply IH; lia|]. lia. }
  specialize (H buf 0 0 0 ltac:(lia)). lia.
Qed.
#[local] Opaque Uvarint.

Lemma forEachLoop_enough {S} (fn : S -> Z -> Z -> bytes -> pres S) fuel buf s :
  (List.length buf <= fuel)%nat -> forEachLoop fn fuel buf s = forEachProtoField fn buf s.
Proof.
  unfold forEachProtoField. intros Hf. remember (List.length buf) as m eqn:Hm.
  assert (Hmb : (List.length buf <= m)%nat) by lia. clear Hm.
  revert m buf s Hf Hmb. induction fuel as [|fuel IH]; intros m buf s Hf Hmb.
  - destruct buf; [by destruct m | cbn in *; lia].
  - destruct buf as [|c buf]; [by destruct m|]. destruct m as [|m]; [cbn in Hmb; lia|].
    rewrite !forEachLoop_eq by done. destruct (Uvarint (c :: buf)) as [tag n] eqn:Hu.
    destruct (n <=? 0) eqn:Hn; [done|]. bool_hyps. cbv zeta.
    assert (Hb := Uvarint_bound (c :: buf) n ltac:(by rewrite Hu)).
    set (b1 := drop (Z.to_nat n) (c :: buf)).
    assert (Hl1 : (List.length b1 <= m)%nat) by (unfold b1; rewrite length_drop; cbn [List.length] in *; lia).
    assert (Hnext : forall v r, (List.length r <= m)%nat ->
      (let? s := fn s (Z.shiftr tag 3) (Z.land tag 7) v in forEachLoop fn fuel r s) =
      (let? s := fn s (Z.shiftr tag 3) (Z.land tag 7) v in forEachLoop fn m r s)).
    { intros v r Hr. destruct (fn s _ _ v) as [s1|]; [|done]. cbn [rbind]. rewrite (IH m r s1) by lia. done. }
    destruct (_ =? protoWireVarint); [destruct (_ <=? 0); [done|]; apply Hnext; rewrite length_drop; lia|].
    destruct (_ =? protoWireFixed64); [destruct (_ <? 8)%nat; [done|]; apply Hnext; rewrite length_drop; lia|].
    destruct (_ =? protoWireBytes); [|done]. destruct (Uvarint b1) as [len n1]. destruct (n1 <=? 0); [done|].
    destruct (_ <? len); [done|]. apply Hnext. rewrite !length_drop. lia.
Qed.

(** ** Appends as fields *)

Lemma enc_fields_app l1 l2 : enc_fields (l1 ++ l2) = enc_fields l1 ++ enc_fields l2.
Proof. unfold enc_fields. by rewrite map_app, List.concat_app. Qed.

Lemma enc_fields_one f : enc_fields [f] = enc_field f.
Proof. unfold enc_fields. cbn. by rewrite List.app_nil_r. Qed.

Definition strField (n : Z) (v : string) : list pfield :=
  if v =s "" then [] else [PBytes n (list_ascii_of_string v)].
Definition condField (c : bool) (f : pfield) : list pfield := if c then [f] else [].

Lemma append_int32 buf n v : protoAppendInt32 buf n v = buf ++ enc_fields [PVarint n (uint64 v)].
Proof.
  rewrite enc_fields_one. unfold protoAppendInt32, enc_field, protoAppendTag, AppendUvarint. cbn [app pf_number pf_wire].
  by rewrite <- List.app_assoc.
Qed.

Lemma append_int64 buf n v : protoAppendInt64 buf n v = buf ++ enc_fields [PVarint n (uint64 v)].
Proof. exact (append_int32 buf n v). Qed.

Lemma append_bool buf n : protoAppendBool buf n true = buf ++ enc_fields [PVarint n 1].
Proof.
  rewrite enc_fields_one. unfold protoAppendBool, enc_field, protoAppendTag, AppendUvarint. cbn [app pf_number pf_wire].
  by rewrite <- List.app_assoc.
Qed.

Lemma append_double buf n v : protoAppendDouble buf n v = buf ++ enc_fields [PFixed n (Float64bits v)].
Proof.
  rewrite enc_fields_one. unfold protoAppendDouble, enc_field, protoAppendTag, AppendUvarint. cbn [app pf_number pf_wire].
  by rewrite <- List.app_assoc.
Qed.

Lemma append_message buf n v : protoAppendMessage buf n v = buf ++ enc_fields [PBytes n v].
Proof.
  rewrite enc_fields_one. unfold protoAppendMessage, enc_field, protoAppendTag, AppendUvarint. cbn [app pf_number pf_wire].
  by rewrite <- !List.app_assoc.
Qed.

Lemma append_string buf n v : protoAppendString buf n v = buf ++ enc_fields (strField n v).
Proof.
  unfold protoAppendString, strField. destruct (v =s ""); [by rewrite List.app_nil_r | apply append_message].
Qed.

Lemma append_cond (c : bool) (buf : bytes) f (x : bytes) :
  x = buf ++ enc_fields [f] -> (if c then x else buf) = buf ++ enc_fields (condField c f).
Proof. intros ->. destruct c; [done | by rewrite List.app_nil_r]. Qed.

Lemma eachField_app {S} (fn : S -> Z -> Z -> bytes -> pres S) l1 l2 s :
  eachField fn (l1 ++ l2) s = let? s := eachField fn l1 s in eachField fn l2 s.
Proof.
  revert s. induction l1 as [|f l1 IH]; intros s; [done|]. cbn [app eachField].
  destruct (fn s _ _ _) as [s1|]; [|done]. cbn [rbind]. apply IH.
Qed.

(** The value bytes of a field are no longer than the encoding. *)
Lemma enc_fields_bound l f : In f l -> (List.length (pf_value f) <= List.length (enc_fields l))%nat.
Proof.
  induction l as [|g l IH]; intros Hin; [done|]. unfold enc_fields in *. cbn [map List.concat]. rewrite length_app.
  destruct Hin as [-> | Hin]; [|specialize (IH Hin); lia].
  unfold enc_field. rewrite length_app. destruct f; cbn [pf_value]; rewrite ?length_app; lia.
Qed.

(** A varint value reads back. *)
Lemma varint_value n v : 0 <= v < 2 ^ 64 -> protoVarintValue n protoWireVarint (uvarint_bytes 10 v) = Ok v.
Proof.
  intros Hv. unfold protoVarintValue. cbn [Z.eqb negb protoWireVarint].
  assert (H := Uvarint_roundtrip v [] Hv). rewrite List.app_nil_r in H. rewrite H.
  assert (Hp := uvarint_nonempty v). by replace (_ <=? 0) with false by (symmetry; apply Z.leb_gt; lia).
Qed.

Lemma fixed_value n v : 0 <= v < 2 ^ 64 -> protoFixed64Value n protoWireFixed64 (le64 v) = Ok v.
Proof. intros Hv. unfold protoFixed64Value. cbn. by rewrite le64_val. Qed.

#[global] Opaque uvarint_bytes Uvarint le64 le_val.

Lemma encoded_fields_read_back_witness :
  forEachProtoField (fun l n wt v => Ok ((n, wt) :: l))
    (enc_fields [PVarint 1 300; PFixed 2 5; PBytes 105 []]) [] = Ok [(105, 2); (2, 1); (1, 0)].
Proof.
  rewrite (encoded_fields_read_back (fun l n wt v => Ok ((n, wt) :: l)) [PVarint 1 300; PFixed 2 5; PBytes 105 []] []);
    [reflexivity|]. repeat constructor.
Defined.
