(* ===== verification/PlaceOrderProto.v ===== *)
(** * The place-order instruction on the wire

    src/pkg/ibkr/place_order_proto.go, cancel_order_proto.go and the parts of
    orders.go and bond_order.go they call: which orders the encoder supports, the
    protocol-buffer frame of an order and of a cancel, and the summary the
    connection logs of an outgoing frame.  Proved: the encoder refuses anything it
    could not carry, and the frame it produces reads back as the order. *)

From stdpp Require Import base decidable list strings.
From Stdlib Require Import ZArith Lia Ascii String SpecFloat.
From S2P Require Import Prelude OrderTypes OrderStatus WireCodec ProtoWire.

(** The unexported rounding helpers of the bond grid work on these. *)
Record BondOrderRules := mkBondRules { bo_MinTick : float64; bo_MinSize : float64; bo_SizeIncrement : float64 }.
Record ComboLeg := mkComboLeg {
  lg_ConID : Z; lg_Ratio : Z; lg_Action : string; lg_Exchange : string; lg_OpenClose : Z
}.

(** IBKROrder, less the locally observed state, times and error texts. *)
Record IBKROrder := mkIBKROrder {
  io_AdaptivePriority : string; io_OrderID : Z; io_ClientID : Z; io_PermID : Z; io_Account : string;
  io_Symbol : string; io_SecType : string; io_ConID : Z; io_Exchange : string; io_Currency : string;
  io_Expiry : string; io_Strike : float64; io_Right : string; io_Multiplier : string; io_PrimaryExch : string;
  io_LocalSymbol : string; io_TradingClass : string; io_SecIDType : string; io_SecID : string;
  io_BondRules : option BondOrderRules; io_Action : string; io_TotalQty : Z; io_OrderType : string;
  io_LmtPrice : float64; io_LmtPriceSet : bool; io_AuxPrice : float64; io_ComboLegs : list ComboLeg;
  io_TIF : string; io_OcaGroup : string; io_OcaType : Z; io_OrderRef : string; io_Transmit : bool;
  io_WhatIf : bool; io_OpenClose : string; io_Origin : Z; io_ParentID : Z; io_BlockOrder : bool;
  io_SweepToFill : bool; io_DisplaySize : Z; io_TriggerMethod : Z; io_OutsideRth : bool; io_Hidden : bool;
  io_GoodAfterTime : string; io_GoodTillDate : string; io_Rule80A : string; io_SettlingFirm : string;
  io_AllOrNone : bool; io_MinQty : Z; io_PercentOffset : float64; io_ETradeOnly : bool;
  io_FirmQuoteOnly : bool; io_NbboPriceCap : float64; io_AuctionStrategy : Z; io_StartingPrice : float64;
  io_StockRefPrice : float64; io_Delta : float64; io_StockRangeLower : float64; io_StockRangeUpper : float64;
  io_OverridePercentageConstraints : bool; io_Volatility : float64; io_VolatilityType : Z;
  io_DeltaNeutralOrderType : string; io_DeltaNeutralAuxPrice : float64; io_DeltaNeutralConID : Z;
  io_DeltaNeutralSettlingFirm : string; io_DeltaNeutralClearingAccount : string;
  io_DeltaNeutralClearingIntent : string; io_DeltaNeutralOpenClose : string; io_DeltaNeutralShortSale : bool;
  io_DeltaNeutralShortSaleSlot : Z; io_DeltaNeutralDesignatedLocation : string; io_ContinuousUpdate : Z;
  io_ReferencePriceType : Z; io_TrailStopPrice : float64; io_TrailingPercent : float64;
  io_LmtPriceOffset : float64; io_BasisPoints : float64; io_BasisPointsType : Z; io_ScaleInitLevelSize : Z;
  io_ScaleSubsLevelSize : Z; io_ScalePriceIncrement : float64; io_ScalePriceAdjustValue : float64;
  io_ScalePriceAdjustInterval : Z; io_ScaleProfitOffset : float64; io_ScaleAutoReset : bool;
  io_ScaleInitPosition : Z; io_ScaleInitFillQty : Z; io_ScaleRandomPercent : bool; io_HedgeType : string;
  io_HedgeParam : string; io_OptOutSmartRouting : bool; io_ClearingAccount : string;
  io_ClearingIntent : string; io_NotHeld : bool; io_ModelCode : string; io_ShortSaleSlot : Z;
  io_DesignatedLocation : string; io_ExemptCode : Z; io_DiscretionaryAmt : float64; io_FaGroup : string;
  io_FaMethod : string; io_FaPercentage : string; io_FaProfile : string
}.
#[global] Instance IBKROrder_eta : Eta IBKROrder := fun r => mkIBKROrder
  (io_AdaptivePriority r) (io_OrderID r) (io_ClientID r) (io_PermID r) (io_Account r) (io_Symbol r)
  (io_SecType r) (io_ConID r) (io_Exchange r) (io_Currency r) (io_Expiry r) (io_Strike r) (io_Right r)
  (io_Multiplier r) (io_PrimaryExch r) (io_LocalSymbol r) (io_TradingClass r) (io_SecIDType r) (io_SecID r)
  (io_BondRules r) (io_Action r) (io_TotalQty r) (io_OrderType r) (io_LmtPrice r) (io_LmtPriceSet r)
  (io_AuxPrice r) (io_ComboLegs r) (io_TIF r) (io_OcaGroup r) (io_OcaType r) (io_OrderRef r) (io_Transmit r)
  (io_WhatIf r) (io_OpenClose r) (io_Origin r) (io_ParentID r) (io_BlockOrder r) (io_SweepToFill r)
  (io_DisplaySize r) (io_TriggerMethod r) (io_OutsideRth r) (io_Hidden r) (io_GoodAfterTime r)
  (io_GoodTillDate r) (io_Rule80A r) (io_SettlingFirm r) (io_AllOrNone r) (io_MinQty r) (io_PercentOffset r)
  (io_ETradeOnly r) (io_FirmQuoteOnly r) (io_NbboPriceCap r) (io_AuctionStrategy r) (io_StartingPrice r)
  (io_StockRefPrice r) (io_Delta r) (io_StockRangeLower r) (io_StockRangeUpper r)
  (io_OverridePercentageConstraints r) (io_Volatility r) (io_VolatilityType r) (io_DeltaNeutralOrderType r)
  (io_DeltaNeutralAuxPrice r) (io_DeltaNeutralConID r) (io_DeltaNeutralSettlingFirm r)
  (io_DeltaNeutralClearingAccount r) (io_DeltaNeutralClearingIntent r) (io_DeltaNeutralOpenClose r)
  (io_DeltaNeutralShortSale r) (io_DeltaNeutralShortSaleSlot r) (io_DeltaNeutralDesignatedLocation r)
  (io_ContinuousUpdate r) (io_ReferencePriceType r) (io_TrailStopPrice r) (io_TrailingPercent r)
  (io_LmtPriceOffset r) (io_BasisPoints r) (io_BasisPointsType r) (io_ScaleInitLevelSize r)
  (io_ScaleSubsLevelSize r) (io_ScalePriceIncrement r) (io_ScalePriceAdjustValue r)
  (io_ScalePriceAdjustInterval r) (io_ScaleProfitOffset r) (io_ScaleAutoReset r) (io_ScaleInitPosition r)
  (io_ScaleInitFillQty r) (io_ScaleRandomPercent r) (io_HedgeType r) (io_HedgeParam r)
  (io_OptOutSmartRouting r) (io_ClearingAccount r) (io_ClearingIntent r) (io_NotHeld r) (io_ModelCode r)
  (io_ShortSaleSlot r) (io_DesignatedLocation r) (io_ExemptCode r) (io_DiscretionaryAmt r) (io_FaGroup r)
  (io_FaMethod r) (io_FaPercentage r) (io_FaProfile r).
(** The Go zero value. *)
Definition zero_IBKROrder : IBKROrder := mkIBKROrder
  "" 0 0 0 "" "" "" 0 "" "" "" f0 "" "" "" "" "" "" "" None "" 0 "" f0 false f0 [] "" "" 0 "" false false "" 0
  0 false false 0 0 false false "" "" "" "" false 0 f0 false false f0 0 f0 f0 f0 f0 f0 false f0 0 "" f0 0 "" ""
  "" "" false 0 "" 0 0 f0 f0 f0 f0 0 0 0 f0 f0 0 f0 false 0 0 false "" "" false "" "" false "" 0 "" 0 f0 "" ""
  "" "".

Definition perr {A} (parts : list string) : pres A := Err (String.concat "" parts).

(** ** Bond grid *)

(** [1e-9] and [1e-6]. *)
Definition f_bondEps : float64 := f_const 1 1000000000.
Definition f_tickEps : float64 := f_const 1 1000000.

Definition bondPositiveFinite (v : float64) : bool := (v >f f0) && negb (IsNaN v) && negb (IsInf v).
Definition bondWholeUnits (v : float64) : bool :=
  (fabs (fsub v (Round v)) <=f f_bondEps) && (v <f f_of_Z 2147483647).

(** BondOrderRules.Validate *)
Definition bondRulesValidate (r : BondOrderRules) : pres unit :=
  if negb (bondPositiveFinite (bo_MinTick r)) then perr ["bond contract details carry no minimum tick"]
  else if negb (bondPositiveFinite (bo_MinSize r)) then perr ["bond contract details carry no minimum size"]
  else if IsNaN (bo_SizeIncrement r) || IsInf (bo_SizeIncrement r) || (bo_SizeIncrement r <f f0)
  then perr ["bond contract details carry an invalid size increment"]
  else if negb (bondWholeUnits (bo_MinSize r)) ||
          ((bo_SizeIncrement r >f f0) && negb (bondWholeUnits (bo_SizeIncrement r)))
  then perr ["bond size rules are not whole order units"]
  else Ok tt.

Definition bondStep (r : BondOrderRules) : Z :=
  if bo_SizeIncrement r >f f0 then int_of_float (Round (bo_SizeIncrement r)) else int_of_float (Round (bo_MinSize r)).
Definition bondMinimum (r : BondOrderRules) : Z := int_of_float (Round (bo_MinSize r)).

(** CheckQuantity *)
Definition bondCheckQuantity (r : BondOrderRules) (quantity : Z) : pres unit :=
  let? _ := bondRulesValidate r in
  if quantity <? bondMinimum r
  then perr ["bond order quantity "; Itoa quantity; " is below the contract's minimum size "; Itoa (bondMinimum r)]
  else if (0 <? bondStep r) && negb (Z.rem quantity (bondStep r) =? 0)
  then perr ["bond order quantity "; Itoa quantity; " is not a multiple of the contract's size step "; Itoa (bondStep r)]
  else Ok tt.

(** OnBondTick *)
Definition OnBondTick (price tick : float64) : bool :=
  if negb (bondPositiveFinite price) || negb (bondPositiveFinite tick) then false
  else let n := fdiv price tick in fabs (fsub n (Round n)) <=f f_tickEps.

(** CheckPrice *)
Definition bondCheckPrice (r : BondOrderRules) (price : float64) : pres unit :=
  let? _ := bondRulesValidate r in
  if negb (bondPositiveFinite price) then perr ["bond order limit price must be positive"]
  else if negb (OnBondTick price (bo_MinTick r)) then perr ["bond order limit price is not on the contract's minimum tick"]
  else Ok tt.

Definition SecTypeBill : string := "BILL".
Definition SecTypeBond : string := "BOND".
Definition IsBillOrBond (secType : string) : bool := one_of (ToUpper (TrimSpace secType)) [SecTypeBill; SecTypeBond].

Fixpoint all_chars (p : ascii -> bool) (s : string) : bool :=
  match s with EmptyString => true | String c r => p c && all_chars p r end.
Definition bondCurrencyCode (ccy : string) : bool :=
  (String.length ccy =? 3)%nat && all_chars (fun c => (65 <=? byte_val c) && (byte_val c <=? 90)) ccy.

(** validateBondOrder *)
Definition validateBondOrder (order : IBKROrder) : pres unit :=
  if io_ConID order <=? 0 then perr ["bond orders require a positive contract id"]
  else if negb (bondCurrencyCode (ToUpper (TrimSpace (io_Currency order)))) then perr ["bond orders require a three-letter currency"]
  else if negb (EqualFold (TrimSpace (io_OrderType order)) "LMT")
  then perr ["bond orders must be limit orders, not "; quoted (io_OrderType order)]
  else if (io_TIF order <>s "") && negb (EqualFold (TrimSpace (io_TIF order)) "DAY")
  then perr ["bond orders must be DAY orders, not "; quoted (io_TIF order)]
  else if (io_Expiry order <>s "") || (io_Right order <>s "") || (io_Strike order <>f f0) ||
          (io_Multiplier order <>s "") || match io_ComboLegs order with [] => false | _ => true end
  then perr ["bond orders carry no expiry, right, strike, multiplier or combo legs"]
  else if (io_AuxPrice order <>f f0) || (io_TrailStopPrice order <>f f0) || (io_TrailingPercent order <>f f0) ||
          (io_LmtPriceOffset order <>f f0)
  then perr ["bond limit orders carry no stop or trail prices"]
  else
    match io_BondRules order with
    | None => perr ["bond orders require the line's size and price rules from its contract details"]
    | Some rules =>
        let? _ := bondCheckQuantity rules (io_TotalQty order) in
        bondCheckPrice rules (io_LmtPrice order)
    end.

(** ** Which orders the encoder supports *)

Definition unsupportedPlaceOrderProtoField {A} (name : string) : pres A :=
  perr ["protobuf placeOrder does not support populated field "; name; " in this order slice"].
Definition unsupportedPlaceOrderProtoValue {A} (name value supported : string) : pres A :=
  perr ["protobuf placeOrder does not support "; name; "="; quoted (if value =s "" then "<empty>" else value);
        " in this order slice ("; supported; ")"].

Definition minProtoInt32 : Z := -2147483648.
Definition maxProtoInt32 : Z := 2147483647.
Definition validateProtoInt32 (name : string) (value : Z) : pres unit :=
  if (value <? minProtoInt32) || (maxProtoInt32 <? value)
  then perr ["protobuf placeOrder "; name; "="; Itoa value; " is outside int32 range"] else Ok tt.

(** validateAdaptiveOrder *)
Definition validateAdaptiveOrder (order : IBKROrder) : pres unit :=
  if io_AdaptivePriority order =s "" then Ok tt
  else if negb (one_of (io_AdaptivePriority order) ["Patient"; "Normal"; "Urgent"])
  then perr ["unsupported Adaptive priority "; quoted (io_AdaptivePriority order)]
  else if ((io_SecType order <>s "STK") && (io_SecType order <>s "ETF")) || (io_OrderType order <>s "LMT") ||
          (io_TIF order <>s "DAY") || (io_Exchange order <>s "SMART") || io_OutsideRth order ||
          (io_LmtPrice order <=f f0) || IsNaN (io_LmtPrice order) || IsInf (io_LmtPrice order)
  then perr ["the Adaptive algorithm requires a SMART stock LMT DAY order with a positive limit during regular hours"]
  else Ok tt.

(** isPositiveFiniteStockPrice *)
Definition isPositiveFiniteStockPrice (p : float64) : bool := (p >f f0) && negb (IsNaN p) && negb (IsInf p).

Definition OcaTypeCancelWithBlock : Z := 1.
Definition OcaTypeReduceNonBlock : Z := 3.

(** validatePlaceOrderOCA *)
Definition validatePlaceOrderOCA (order : IBKROrder) : pres unit :=
  let group := TrimSpace (io_OcaGroup order) in
  if (group =s "") && (io_OcaType order =? 0) then Ok tt
  else if group =s "" then perr ["protobuf placeOrder ocaType "; Itoa (io_OcaType order); " needs an ocaGroup"]
  else if (io_OcaType order <? OcaTypeCancelWithBlock) || (OcaTypeReduceNonBlock <? io_OcaType order)
  then unsupportedPlaceOrderProtoValue "ocaType" (Itoa (io_OcaType order)) "1, 2 or 3 with an ocaGroup"
  else Ok tt.

(** The loop of validateComboLegs, from the [i]-th leg on. *)
Fixpoint comboLegLoop (legs : list ComboLeg) (i : Z) (seen : list Z) : pres unit :=
  match legs with
  | [] => Ok tt
  | leg :: rest =>
      let named suffix := String.concat "" ["comboLegs["; Itoa i; "]."; suffix] in
      let? _ := validateProtoInt32 (named "conID") (lg_ConID leg) in
      let? _ := validateProtoInt32 (named "ratio") (lg_Ratio leg) in
      if lg_ConID leg <=? 0 then perr ["protobuf placeOrder BAG combo leg "; Itoa i; " requires a positive ConID"]
      else if lg_Ratio leg <=? 0 then perr ["protobuf placeOrder BAG combo leg "; Itoa i; " requires a positive ratio"]
      else if negb (one_of (ToUpper (TrimSpace (lg_Action leg))) ["BUY"; "SELL"])
      then unsupportedPlaceOrderProtoValue (named "action") (lg_Action leg) "BUY/SELL only"
      else if TrimSpace (lg_Exchange leg) =s ""
      then perr ["protobuf placeOrder BAG combo leg "; Itoa i; " requires an exchange"]
      else if (lg_OpenClose leg <? 0) || (3 <? lg_OpenClose leg)
      then unsupportedPlaceOrderProtoValue (named "openClose") (Itoa (lg_OpenClose leg)) "IBKR values 0-3"
      else if existsb (Z.eqb (lg_ConID leg)) seen
      then perr ["protobuf placeOrder BAG repeats combo leg ConID "; Itoa (lg_ConID leg)]
      else comboLegLoop rest (i + 1) (lg_ConID leg :: seen)
  end.

(** validateComboLegs *)
Definition validateComboLegs (legs : list ComboLeg) : pres unit :=
  if (List.length legs <? 2)%nat then perr ["protobuf placeOrder BAG requires at least two combo legs"]
  else comboLegLoop legs 0 [].

(** validatePlaceOrderTriggerMethod *)
Definition validatePlaceOrderTriggerMethod (orderType : string) (method : Z) : pres unit :=
  if method =? 0 then Ok tt
  else if negb (one_of orderType ["TRAIL"; "TRAIL LIMIT"; "STP"])
  then unsupportedPlaceOrderProtoValue "triggerMethod" (Itoa method) "only for TRAIL/TRAIL LIMIT"
  else if existsb (Z.eqb method) [1; 2; 3; 4; 7; 8] then Ok tt
  else unsupportedPlaceOrderProtoValue "triggerMethod" (Itoa method) "IBKR values 1,2,3,4,7,8".

(** validateProtoOrderTypePrices *)
Definition validateProtoOrderTypePrices (orderType : string) (order : IBKROrder) : pres unit :=
  let hasAmount := io_AuxPrice order >f f0 in
  let hasPercent := io_TrailingPercent order >f f0 in
  if orderType =s "STP" then
    if negb (isPositiveFiniteStockPrice (io_AuxPrice order)) || (io_LmtPrice order <>f f0) ||
       (io_TrailStopPrice order <>f f0) || (io_TrailingPercent order <>f f0) || (io_LmtPriceOffset order <>f f0)
    then perr ["attached stock stop requires only a positive fixed auxPrice"] else Ok tt
  else if orderType =s "LMT" then
    let? _ :=
      if EqualFold (io_SecType order) "BAG" then
        if negb (io_LmtPriceSet order) || IsNaN (io_LmtPrice order) || IsInf (io_LmtPrice order)
        then perr ["protobuf placeOrder BAG requires a finite explicit lmtPrice"] else Ok tt
      else if io_LmtPrice order <=f f0 then perr ["protobuf placeOrder requires positive lmtPrice"] else Ok tt in
    if (io_AuxPrice order <>f f0) || (io_TrailStopPrice order <>f f0) || (io_TrailingPercent order <>f f0) ||
       (io_LmtPriceOffset order <>f f0)
    then perr ["protobuf placeOrder LMT does not support populated trail/auxiliary price fields"] else Ok tt
  else if orderType =s "TRAIL" then
    if io_LmtPrice order <>f f0 then unsupportedPlaceOrderProtoField "lmtPrice"
    else if io_TrailStopPrice order <=f f0 then perr ["protobuf placeOrder TRAIL requires positive trailStopPrice"]
    else if Bool.eqb hasAmount hasPercent
    then perr ["protobuf placeOrder TRAIL requires exactly one of auxPrice or trailingPercent"]
    else if io_LmtPriceOffset order <>f f0 then unsupportedPlaceOrderProtoField "lmtPriceOffset"
    else Ok tt
  else if orderType =s "TRAIL LIMIT" then
    if io_LmtPrice order <>f f0 then perr ["protobuf placeOrder TRAIL LIMIT must use lmtPriceOffset, not lmtPrice"]
    else if io_TrailStopPrice order <=f f0 then perr ["protobuf placeOrder TRAIL LIMIT requires positive trailStopPrice"]
    else if Bool.eqb hasAmount hasPercent
    then perr ["protobuf placeOrder TRAIL LIMIT requires exactly one of auxPrice or trailingPercent"]
    else if io_LmtPriceOffset order <=f f0
    then perr ["protobuf placeOrder TRAIL LIMIT requires positive lmtPriceOffset"]
    else Ok tt
  else Ok tt.

(** The first populated field of a list is refused. *)
Fixpoint refusePopulated (fields : list (string * bool)) : pres unit :=
  match fields with
  | [] => Ok tt
  | (name, populated) :: rest => if populated then unsupportedPlaceOrderProtoField name else refusePopulated rest
  end.

Definition refusedStrings (o : IBKROrder) : list (string * bool) :=
  map (fun p => (p.1, p.2 <>s ""))
  [("goodAfterTime", io_GoodAfterTime o); ("goodTillDate", io_GoodTillDate o); ("faGroup", io_FaGroup o);
   ("faMethod", io_FaMethod o); ("faPercentage", io_FaPercentage o); ("faProfile", io_FaProfile o);
   ("modelCode", io_ModelCode o); ("designatedLocation", io_DesignatedLocation o); ("rule80A", io_Rule80A o);
   ("settlingFirm", io_SettlingFirm o); ("deltaNeutralOrderType", io_DeltaNeutralOrderType o);
   ("deltaNeutralSettlingFirm", io_DeltaNeutralSettlingFirm o);
   ("deltaNeutralClearingAccount", io_DeltaNeutralClearingAccount o);
   ("deltaNeutralClearingIntent", io_DeltaNeutralClearingIntent o); ("deltaNeutralOpenClose", io_DeltaNeutralOpenClose o);
   ("deltaNeutralDesignatedLocation", io_DeltaNeutralDesignatedLocation o); ("hedgeType", io_HedgeType o);
   ("hedgeParam", io_HedgeParam o); ("clearingAccount", io_ClearingAccount o); ("clearingIntent", io_ClearingIntent o)].

Definition refusedInts (o : IBKROrder) : list (string * bool) :=
  map (fun p => (p.1, negb (p.2 =? 0)))
  [("permID", io_PermID o); ("displaySize", io_DisplaySize o); ("shortSaleSlot", io_ShortSaleSlot o);
   ("minQty", io_MinQty o); ("auctionStrategy", io_AuctionStrategy o); ("volatilityType", io_VolatilityType o);
   ("deltaNeutralConID", io_DeltaNeutralConID o); ("deltaNeutralShortSaleSlot", io_DeltaNeutralShortSaleSlot o);
   ("continuousUpdate", io_ContinuousUpdate o); ("referencePriceType", io_ReferencePriceType o);
   ("basisPointsType", io_BasisPointsType o); ("scaleInitLevelSize", io_ScaleInitLevelSize o);
   ("scaleSubsLevelSize", io_ScaleSubsLevelSize o); ("scalePriceAdjustInterval", io_ScalePriceAdjustInterval o);
   ("scaleInitPosition", io_ScaleInitPosition o); ("scaleInitFillQty", io_ScaleInitFillQty o)].

Definition refusedFloats (o : IBKROrder) : list (string * bool) :=
  map (fun p => (p.1, p.2 <>f f0))
  [("discretionaryAmt", io_DiscretionaryAmt o); ("percentOffset", io_PercentOffset o); ("nbboPriceCap", io_NbboPriceCap o);
   ("startingPrice", io_StartingPrice o); ("stockRefPrice", io_StockRefPrice o); ("delta", io_Delta o);
   ("stockRangeLower", io_StockRangeLower o); ("stockRangeUpper", io_StockRangeUpper o); ("volatility", io_Volatility o);
   ("deltaNeutralAuxPrice", io_DeltaNeutralAuxPrice o); ("basisPoints", io_BasisPoints o);
   ("scalePriceIncrement", io_ScalePriceIncrement o); ("scalePriceAdjustValue", io_ScalePriceAdjustValue o);
   ("scaleProfitOffset", io_ScaleProfitOffset o)].

Definition refusedBools (o : IBKROrder) : list (string * bool) :=
  [("blockOrder", io_BlockOrder o); ("sweepToFill", io_SweepToFill o); ("hidden", io_Hidden o);
   ("allOrNone", io_AllOrNone o); ("eTradeOnly", io_ETradeOnly o); ("firmQuoteOnly", io_FirmQuoteOnly o);
   ("overridePercentageConstraints", io_OverridePercentageConstraints o);
   ("deltaNeutralShortSale", io_DeltaNeutralShortSale o); ("scaleAutoReset", io_ScaleAutoReset o);
   ("scaleRandomPercent", io_ScaleRandomPercent o); ("optOutSmartRouting", io_OptOutSmartRouting o);
   ("notHeld", io_NotHeld o)].

(** The option, future and combo fields an order of another kind must leave empty. *)
Definition refusedContractTerms (o : IBKROrder) : pres unit :=
  let? _ := refusePopulated [("expiry", io_Expiry o <>s ""); ("right", io_Right o <>s "");
                             ("multiplier", io_Multiplier o <>s "")] in
  if io_Strike o <>f f0 then unsupportedPlaceOrderProtoField "strike" else Ok tt.

Definition noLegs (o : IBKROrder) : bool := match io_ComboLegs o with [] => true | _ => false end.

(** validatePlaceOrderProtoSupported; the order is not nil. *)
Definition validatePlaceOrderProtoSupported (o : IBKROrder) : pres unit :=
  let? _ := validateAdaptiveOrder o in
  let? _ := validateProtoInt32 "orderID" (io_OrderID o) in
  let? _ := validateProtoInt32 "clientID" (io_ClientID o) in
  let? _ := validateProtoInt32 "conID" (io_ConID o) in
  let? _ := validateProtoInt32 "totalQty" (io_TotalQty o) in
  let secType := ToUpper (io_SecType o) in
  let? _ := if negb (one_of secType ["STK"; "ETF"; "OPT"; "BAG"; "CASH"; "FUT"]) && negb (IsBillOrBond secType)
            then unsupportedPlaceOrderProtoValue "secType" (io_SecType o) "STK/ETF/OPT/BAG/BILL/BOND/CASH/FUT only"
            else Ok tt in
  let orderType := ToUpper (TrimSpace (io_OrderType o)) in
  let? _ := if negb (one_of orderType ["LMT"; "TRAIL"; "TRAIL LIMIT"; "STP"])
            then unsupportedPlaceOrderProtoValue "orderType" (io_OrderType o) "LMT/TRAIL/TRAIL LIMIT only" else Ok tt in
  let? _ := if (orderType =s "STP") &&
               ((secType <>s "STK") || (io_ParentID o <=? 0) || (io_Action o <>s "SELL") || (io_TIF o <>s "GTC") ||
                negb (io_TriggerMethod o =? 2) || io_OutsideRth o || (negb (io_Transmit o) && negb (io_WhatIf o)))
            then perr ["fixed stop is supported only as an attached regular-session stock child"] else Ok tt in
  let? _ := if negb (io_ParentID o =? 0) && (orderType <>s "STP") then unsupportedPlaceOrderProtoField "parentID" else Ok tt in
  let? _ := if IsBillOrBond secType then
              if orderType <>s "LMT"
              then unsupportedPlaceOrderProtoValue "orderType" (io_OrderType o) (String.append "LMT only for " secType)
              else if ToUpper (TrimSpace (io_TIF o)) <>s "DAY"
              then unsupportedPlaceOrderProtoValue "tif" (io_TIF o) (String.append "DAY only for " secType)
              else match validateBondOrder o with
                   | Err e => perr ["protobuf placeOrder "; secType; ": "; e]
                   | Ok _ => Ok tt
                   end
            else Ok tt in
  let? _ := if secType =s "FUT" then
              if orderType <>s "LMT" then unsupportedPlaceOrderProtoValue "orderType" (io_OrderType o) "LMT only for FUT"
              else if ToUpper (TrimSpace (io_TIF o)) <>s "DAY"
              then unsupportedPlaceOrderProtoValue "tif" (io_TIF o) "DAY only for FUT"
              else if io_OutsideRth o then unsupportedPlaceOrderProtoField "outsideRth"
              else if (io_ConID o <=? 0) || (TrimSpace (io_Expiry o) =s "") || (TrimSpace (io_Multiplier o) =s "") ||
                      (TrimSpace (io_Exchange o) =s "")
              then perr ["protobuf placeOrder FUT requires conID, expiry, multiplier and exchange"]
              else if (io_Right o <>s "") || (io_Strike o <>f f0) || negb (noLegs o)
              then perr ["protobuf placeOrder FUT takes no right, strike or combo legs"] else Ok tt
            else Ok tt in
  let? _ := if secType =s "CASH" then
              if orderType <>s "LMT" then unsupportedPlaceOrderProtoValue "orderType" (io_OrderType o) "LMT only for CASH"
              else if ToUpper (TrimSpace (io_TIF o)) <>s "DAY"
              then unsupportedPlaceOrderProtoValue "tif" (io_TIF o) "DAY only for CASH"
              else if negb (EqualFold (TrimSpace (io_Exchange o)) "IDEALPRO")
              then unsupportedPlaceOrderProtoValue "exchange" (io_Exchange o) "IDEALPRO only for CASH"
              else if io_OutsideRth o then unsupportedPlaceOrderProtoField "outsideRth" else Ok tt
            else Ok tt in
  let? _ := validatePlaceOrderTriggerMethod orderType (io_TriggerMethod o) in
  let tif := ToUpper (io_TIF o) in
  let gtcTrail := (tif =s "GTC") && one_of orderType ["TRAIL"; "TRAIL LIMIT"; "STP"] in
  let? _ := if (tif <>s "DAY") && negb gtcTrail
            then unsupportedPlaceOrderProtoValue "tif" (io_TIF o) "DAY, or GTC for TRAIL/TRAIL LIMIT" else Ok tt in
  let? _ := validateProtoOrderTypePrices orderType o in
  let? _ := if secType =s "BAG" then
              let? _ := validateComboLegs (io_ComboLegs o) in refusedContractTerms o
            else if secType =s "FUT" then Ok tt
            else if secType =s "OPT" then
              if TrimSpace (io_Expiry o) =s "" then perr ["protobuf placeOrder OPT requires expiry"]
              else if negb (one_of (ToUpper (TrimSpace (io_Right o))) ["C"; "P"])
              then unsupportedPlaceOrderProtoValue "right" (io_Right o) "C/P only"
              else if io_Strike o <=f f0 then perr ["protobuf placeOrder OPT requires positive strike"]
              else if TrimSpace (io_Multiplier o) =s "" then perr ["protobuf placeOrder OPT requires multiplier"]
              else Ok tt
            else if negb (noLegs o) then unsupportedPlaceOrderProtoField "comboLegs"
            else refusedContractTerms o in
  let? _ := validatePlaceOrderOCA o in
  let? _ := refusePopulated (refusedStrings o) in
  let? _ := refusePopulated (refusedInts o) in
  let? _ := if negb (io_ExemptCode o =? 0) && negb (io_ExemptCode o =? -1)
            then unsupportedPlaceOrderProtoField "exemptCode" else Ok tt in
  let? _ := if negb (one_of (ToUpper (TrimSpace (io_OpenClose o))) [""; "O"; "C"])
            then unsupportedPlaceOrderProtoValue "openClose" (io_OpenClose o) "O/C only" else Ok tt in
  let? _ := refusePopulated (refusedFloats o) in
  refusePopulated (refusedBools o).

(** ** The frame *)

(** encodeComboLegProto *)
Definition encodeComboLegProto (leg : ComboLeg) : bytes :=
  let msg := protoAppendInt32 [] 1 (int32_of (lg_ConID leg)) in
  let msg := protoAppendInt32 msg 2 (int32_of (lg_Ratio leg)) in
  let msg := protoAppendString msg 3 (ToUpper (TrimSpace (lg_Action leg))) in
  let msg := protoAppendString msg 4 (ToUpper (TrimSpace (lg_Exchange leg))) in
  if negb (lg_OpenClose leg =? 0) then protoAppendInt32 msg 5 (int32_of (lg_OpenClose leg)) else msg.

(** encodePlaceOrderContractProto *)
Definition encodePlaceOrderContractProto (o : IBKROrder) : bytes :=
  let msg := protoAppendInt32 [] 1 (int32_of (io_ConID o)) in
  let msg := protoAppendString msg 2 (io_Symbol o) in
  let msg := protoAppendString msg 3 (ToUpper (io_SecType o)) in
  let msg := protoAppendString msg 4 (io_Expiry o) in
  let msg := if io_Strike o <>f f0 then protoAppendDouble msg 5 (io_Strike o) else msg in
  let msg := protoAppendString msg 6 (ToUpper (io_Right o)) in
  let msg := protoAppendString msg 7 (io_Multiplier o) in
  let msg := protoAppendString msg 8 (io_Exchange o) in
  let msg := protoAppendString msg 9 (io_PrimaryExch o) in
  let msg := protoAppendString msg 10 (io_Currency o) in
  let msg := protoAppendString msg 11 (io_LocalSymbol o) in
  let msg := protoAppendString msg 12 (io_TradingClass o) in
  let msg := protoAppendString msg 13 (io_SecIDType o) in
  let msg := protoAppendString msg 14 (io_SecID o) in
  fold_left (fun msg leg => protoAppendMessage msg 20 (encodeComboLegProto leg)) (io_ComboLegs o) msg.

(** encodePlaceOrderOrderProto *)
Definition encodePlaceOrderOrderProto (o : IBKROrder) : bytes :=
  let msg := protoAppendInt32 [] 1 (int32_of (io_ClientID o)) in
  let msg := protoAppendInt64 msg 3 (io_PermID o) in
  let msg := protoAppendInt32 msg 4 (int32_of (io_ParentID o)) in
  let msg := protoAppendString msg 5 (ToUpper (io_Action o)) in
  let msg := protoAppendString msg 6 (Itoa (io_TotalQty o)) in
  let msg := protoAppendInt32 msg 7 (int32_of (io_DisplaySize o)) in
  let msg := protoAppendString msg 8 (ToUpper (io_OrderType o)) in
  let msg := if (io_LmtPrice o <>f f0) || io_LmtPriceSet o then protoAppendDouble msg 9 (io_LmtPrice o) else msg in
  let msg := if io_AuxPrice o <>f f0 then protoAppendDouble msg 10 (io_AuxPrice o) else msg in
  let msg := protoAppendString msg 11 (ToUpper (io_TIF o)) in
  let msg := protoAppendString msg 12 (io_Account o) in
  let msg := if io_OutsideRth o then protoAppendBool msg 19 true else msg in
  let msg := protoAppendString msg 27 (io_OcaGroup o) in
  let msg := protoAppendString msg 28 (io_OrderRef o) in
  let msg := protoAppendInt32 msg 30 (int32_of (io_OcaType o)) in
  let msg := protoAppendInt32 msg 31 (int32_of (io_TriggerMethod o)) in
  let msg := if io_TrailingPercent o <>f f0 then protoAppendDouble msg 22 (io_TrailingPercent o) else msg in
  let msg := if io_TrailStopPrice o <>f f0 then protoAppendDouble msg 23 (io_TrailStopPrice o) else msg in
  let msg := protoAppendInt32 msg 43 (int32_of (io_DeltaNeutralConID o)) in
  let msg := protoAppendInt32 msg 46 (int32_of (io_DeltaNeutralShortSaleSlot o)) in
  let msg := if io_AdaptivePriority o <>s "" then
               let msg := protoAppendString msg 61 "Adaptive" in
               let entry := protoAppendString [] 1 "adaptivePriority" in
               let entry := protoAppendString entry 2 (io_AdaptivePriority o) in
               protoAppendMessage msg 62 entry
             else msg in
  let msg := if io_WhatIf o then protoAppendBool msg 65 true else msg in
  let msg := if io_Transmit o then protoAppendBool msg 66 true else msg in
  let msg := protoAppendString msg 68 (io_OpenClose o) in
  let msg := protoAppendInt32 msg 69 (int32_of (io_Origin o)) in
  let msg := protoAppendInt32 msg 70 (int32_of (io_ShortSaleSlot o)) in
  let msg := protoAppendInt32 msg 72 (-1) in
  let msg := protoAppendDouble msg 76 (io_DiscretionaryAmt o) in
  let msg := protoAppendInt32 msg 88 0 in
  let msg := protoAppendDouble msg 89 f0 in
  let msg := protoAppendDouble msg 91 f0 in
  let msg := if io_LmtPriceOffset o <>f f0 then protoAppendDouble msg 99 (io_LmtPriceOffset o) else msg in
  let msg := protoAppendInt32 msg 98 0 in
  protoAppendMessage msg 105 [].

(** encodePlaceOrderProtoBody *)
Definition encodePlaceOrderProtoBody (o : IBKROrder) : pres bytes :=
  let? _ := validatePlaceOrderProtoSupported o in
  let contract := encodePlaceOrderContractProto o in
  let orderMsg := encodePlaceOrderOrderProto o in
  let body := protoAppendInt32 [] 1 (int32_of (io_OrderID o)) in
  let body := protoAppendMessage body 2 contract in
  let body := protoAppendMessage body 3 orderMsg in
  Ok (protoAppendMessage body 4 []).

Definition placeOrder : Z := 3.
Definition cancelOrder : Z := 4.
Definition protoBufMsgID : Z := 200.
Definition protoPlaceOrderMsgID : Z := placeOrder + protoBufMsgID.
Definition protoCancelOrderMsgID : Z := cancelOrder + protoBufMsgID.

(** encodePlaceOrderProtoFrame *)
Definition encodePlaceOrderProtoFrame (o : IBKROrder) : pres bytes :=
  let? body := encodePlaceOrderProtoBody o in Ok (be32 protoPlaceOrderMsgID ++ body).

(** ** The summary of an outgoing frame *)

Record placeOrderProtoSummary := mkPlaceSummary {
  ps_parentID : Z; ps_orderID : Z; ps_conID : Z; ps_symbol : string; ps_secType : string; ps_expiry : string;
  ps_strike : float64; ps_right : string; ps_multiplier : string; ps_clientID : Z; ps_action : string;
  ps_quantity : string; ps_orderType : string; ps_lmtPrice : float64; ps_auxPrice : float64;
  ps_trailingPercent : float64; ps_trailStopPrice : float64; ps_lmtPriceOffset : float64; ps_tif : string;
  ps_triggerMethod : Z; ps_account : string; ps_orderRef : string; ps_outsideRth : bool; ps_whatIf : bool;
  ps_transmit : bool; ps_openClose : string
}.
#[global] Instance placeSummary_eta : Eta placeOrderProtoSummary := fun r => mkPlaceSummary
  (ps_parentID r) (ps_orderID r) (ps_conID r) (ps_symbol r) (ps_secType r) (ps_expiry r) (ps_strike r) (ps_right r)
  (ps_multiplier r) (ps_clientID r) (ps_action r) (ps_quantity r) (ps_orderType r) (ps_lmtPrice r) (ps_auxPrice r)
  (ps_trailingPercent r) (ps_trailStopPrice r) (ps_lmtPriceOffset r) (ps_tif r) (ps_triggerMethod r) (ps_account r)
  (ps_orderRef r) (ps_outsideRth r) (ps_whatIf r) (ps_transmit r) (ps_openClose r).
Definition zero_placeSummary : placeOrderProtoSummary := mkPlaceSummary
  0 0 0 "" "" "" f0 "" "" 0 "" "" "" f0 f0 f0 f0 f0 "" 0 "" "" false false false "".

Definition str (b : bytes) : string := string_of_list_ascii b.

(** parseContractProtoSummary's callback *)
Definition contractSummaryField (s : placeOrderProtoSummary) (n wt : Z) (value : bytes) : pres placeOrderProtoSummary :=
  if n =? 1 then let? v := protoVarintValue n wt value in Ok (s <| ps_conID := int_of_uint64 v |>)
  else if n =? 2 then Ok (s <| ps_symbol := str value |>)
  else if n =? 3 then Ok (s <| ps_secType := str value |>)
  else if n =? 4 then Ok (s <| ps_expiry := str value |>)
  else if n =? 5 then let? v := protoFixed64Value n wt value in Ok (s <| ps_strike := Float64frombits v |>)
  else if n =? 6 then Ok (s <| ps_right := str value |>)
  else if n =? 7 then Ok (s <| ps_multiplier := str value |>)
  else Ok s.

(** parseOrderProtoSummary's callback *)
Definition orderSummaryField (s : placeOrderProtoSummary) (n wt : Z) (value : bytes) : pres placeOrderProtoSummary :=
  if n =? 1 then let? v := protoVarintValue n wt value in Ok (s <| ps_clientID := int_of_uint64 v |>)
  else if n =? 4 then let? v := protoVarintValue n wt value in Ok (s <| ps_parentID := int_of_uint64 v |>)
  else if n =? 5 then Ok (s <| ps_action := str value |>)
  else if n =? 6 then Ok (s <| ps_quantity := str value |>)
  else if n =? 8 then Ok (s <| ps_orderType := str value |>)
  else if n =? 9 then let? v := protoFixed64Value n wt value in Ok (s <| ps_lmtPrice := Float64frombits v |>)
  else if n =? 10 then let? v := protoFixed64Value n wt value in Ok (s <| ps_auxPrice := Float64frombits v |>)
  else if n =? 11 then Ok (s <| ps_tif := str value |>)
  else if n =? 12 then Ok (s <| ps_account := str value |>)
  else if n =? 19 then let? v := protoVarintValue n wt value in Ok (s <| ps_outsideRth := negb (v =? 0) |>)
  else if n =? 28 then Ok (s <| ps_orderRef := str value |>)
  else if n =? 31 then let? v := protoVarintValue n wt value in Ok (s <| ps_triggerMethod := int_of_uint64 v |>)
  else if n =? 22 then let? v := protoFixed64Value n wt value in Ok (s <| ps_trailingPercent := Float64frombits v |>)
  else if n =? 23 then let? v := protoFixed64Value n wt value in Ok (s <| ps_trailStopPrice := Float64frombits v |>)
  else if n =? 65 then let? v := protoVarintValue n wt value in Ok (s <| ps_whatIf := negb (v =? 0) |>)
  else if n =? 66 then let? v := protoVarintValue n wt value in Ok (s <| ps_transmit := negb (v =? 0) |>)
  else if n =? 68 then Ok (s <| ps_openClose := str value |>)
  else if n =? 99 then let? v := protoFixed64Value n wt value in Ok (s <| ps_lmtPriceOffset := Float64frombits v |>)
  else Ok s.

(** parseContractProtoSummary, parseOrderProtoSummary *)
Definition parseContractProtoSummary (body : bytes) (s : placeOrderProtoSummary) : pres placeOrderProtoSummary :=
  forEachProtoField contractSummaryField body s.
Definition parseOrderProtoSummary (body : bytes) (s : placeOrderProtoSummary) : pres placeOrderProtoSummary :=
  forEachProtoField orderSummaryField body s.

Definition placeSummaryField (s : placeOrderProtoSummary) (n wt : Z) (value : bytes) : pres placeOrderProtoSummary :=
  if n =? 1 then let? v := protoVarintValue n wt value in Ok (s <| ps_orderID := int_of_uint64 v |>)
  else if n =? 2 then parseContractProtoSummary value s
  else if n =? 3 then parseOrderProtoSummary value s
  else Ok s.

(** parsePlaceOrderProtoSummary *)
Definition parsePlaceOrderProtoSummary (body : bytes) : pres placeOrderProtoSummary :=
  forEachProtoField placeSummaryField body zero_placeSummary.

(** ** Cancel *)

(** encodeCancelOrderProtoBody, encodeCancelOrderProtoFrame *)
Definition encodeCancelOrderProtoBody (orderID : Z) : bytes :=
  protoAppendMessage (protoAppendInt32 [] 1 (int32_of orderID)) 2 [].
Definition encodeCancelOrderProtoFrame (orderID : Z) : bytes :=
  be32 protoCancelOrderMsgID ++ encodeCancelOrderProtoBody orderID.

Definition minServerVerManualOrderTime : Z := 169.
Definition minServerVerRFQFields : Z := 187.
Definition minServerVerUndoRFQFields : Z := 190.
Definition minServerVerCMETaggingFields : Z := 192.

(** encodeCancelOrderLegacyFrame *)
Definition encodeCancelOrderLegacyFrame (serverVersion orderID : Z) : bytes :=
  encodeMsg serverVersion
    ([FInt cancelOrder] ++
     (if serverVersion <? minServerVerCMETaggingFields then [FInt 1] else []) ++ [FInt orderID] ++
     (if minServerVerManualOrderTime <=? serverVersion then [FStr ""] else []) ++
     (if (minServerVerRFQFields <=? serverVersion) && (serverVersion <? minServerVerUndoRFQFields)
      then [FStr ""; FStr ""; FInt maxProtoInt32] else []) ++
     (if minServerVerCMETaggingFields <=? serverVersion then [FStr ""; FInt maxProtoInt32] else [])).

(** encodeCancelOrderMessage *)
Definition encodeCancelOrderMessage (serverVersion orderID : Z) : pres bytes :=
  let? _ := validateProtoInt32 "orderID" orderID in
  Ok (if minServerVerProtoBufPlaceOrder <=? serverVersion then encodeCancelOrderProtoFrame orderID
      else encodeCancelOrderLegacyFrame serverVersion orderID).

Record cancelOrderProtoSummary := mkCancelSummary { cs_orderID : Z; cs_hasOrderCancel : bool }.

(** parseOrderCancelProtoSummary *)
Definition orderCancelField (s : unit) (n wt : Z) (_ : bytes) : pres unit :=
  if (n =? 1) || (n =? 2) then
    if negb (wt =? protoWireBytes) then perr ["field_"; Itoa n; "_not_string"] else Ok s
  else if n =? 3 then
    if negb (wt =? protoWireVarint) then perr ["field_"; Itoa n; "_not_varint"] else Ok s
  else perr ["unsupported_order_cancel_field_"; Itoa n].
Definition parseOrderCancelProtoSummary (body : bytes) : pres unit := forEachProtoField orderCancelField body tt.

Definition cancelSummaryField (s : cancelOrderProtoSummary) (n wt : Z) (value : bytes) : pres cancelOrderProtoSummary :=
  if n =? 1 then let? v := protoVarintValue n wt value in Ok (mkCancelSummary (int_of_uint64 v) (cs_hasOrderCancel s))
  else if n =? 2 then
    if negb (wt =? protoWireBytes) then perr ["field_"; Itoa n; "_not_message"]
    else let? _ := parseOrderCancelProtoSummary value in Ok (mkCancelSummary (cs_orderID s) true)
  else Ok s.

(** parseCancelOrderProtoSummary *)
Definition parseCancelOrderProtoSummary (body : bytes) : pres cancelOrderProtoSummary :=
  forEachProtoField cancelSummaryField body (mkCancelSummary 0 false).

(** ** The frame as fields *)

Definition comboLegFields (leg : ComboLeg) : list pfield :=
  [PVarint 1 (uint64 (int32_of (lg_ConID leg)))] ++ [PVarint 2 (uint64 (int32_of (lg_Ratio leg)))] ++
  strField 3 (ToUpper (TrimSpace (lg_Action leg))) ++ strField 4 (ToUpper (TrimSpace (lg_Exchange leg))) ++
  condField (negb (lg_OpenClose leg =? 0)) (PVarint 5 (uint64 (int32_of (lg_OpenClose leg)))).

Definition contractFields (o : IBKROrder) : list pfield :=
  [PVarint 1 (uint64 (int32_of (io_ConID o)))] ++ strField 2 (io_Symbol o) ++ strField 3 (ToUpper (io_SecType o)) ++
  strField 4 (io_Expiry o) ++ condField (io_Strike o <>f f0) (PFixed 5 (Float64bits (io_Strike o))) ++
  strField 6 (ToUpper (io_Right o)) ++ strField 7 (io_Multiplier o) ++ strField 8 (io_Exchange o) ++
  strField 9 (io_PrimaryExch o) ++ strField 10 (io_Currency o) ++ strField 11 (io_LocalSymbol o) ++
  strField 12 (io_TradingClass o) ++ strField 13 (io_SecIDType o) ++ strField 14 (io_SecID o) ++
  map (fun leg => PBytes 20 (enc_fields (comboLegFields leg))) (io_ComboLegs o).

Definition adaptiveFields (p : string) : list pfield :=
  strField 61 "Adaptive" ++ [PBytes 62 (enc_fields (strField 1 "adaptivePriority" ++ strField 2 p))].

Definition orderFields (o : IBKROrder) : list pfield :=
  [PVarint 1 (uint64 (int32_of (io_ClientID o)))] ++ [PVarint 3 (uint64 (io_PermID o))] ++
  [PVarint 4 (uint64 (int32_of (io_ParentID o)))] ++ strField 5 (ToUpper (io_Action o)) ++
  strField 6 (Itoa (io_TotalQty o)) ++ [PVarint 7 (uint64 (int32_of (io_DisplaySize o)))] ++
  strField 8 (ToUpper (io_OrderType o)) ++
  condField ((io_LmtPrice o <>f f0) || io_LmtPriceSet o) (PFixed 9 (Float64bits (io_LmtPrice o))) ++
  condField (io_AuxPrice o <>f f0) (PFixed 10 (Float64bits (io_AuxPrice o))) ++
  strField 11 (ToUpper (io_TIF o)) ++ strField 12 (io_Account o) ++ condField (io_OutsideRth o) (PVarint 19 1) ++
  strField 27 (io_OcaGroup o) ++ strField 28 (io_OrderRef o) ++ [PVarint 30 (uint64 (int32_of (io_OcaType o)))] ++
  [PVarint 31 (uint64 (int32_of (io_TriggerMethod o)))] ++
  condField (io_TrailingPercent o <>f f0) (PFixed 22 (Float64bits (io_TrailingPercent o))) ++
  condField (io_TrailStopPrice o <>f f0) (PFixed 23 (Float64bits (io_TrailStopPrice o))) ++
  [PVarint 43 (uint64 (int32_of (io_DeltaNeutralConID o)))] ++
  [PVarint 46 (uint64 (int32_of (io_DeltaNeutralShortSaleSlot o)))] ++
  (if io_AdaptivePriority o <>s "" then adaptiveFields (io_AdaptivePriority o) else []) ++
  condField (io_WhatIf o) (PVarint 65 1) ++ condField (io_Transmit o) (PVarint 66 1) ++ strField 68 (io_OpenClose o) ++
  [PVarint 69 (uint64 (int32_of (io_Origin o)))] ++ [PVarint 70 (uint64 (int32_of (io_ShortSaleSlot o)))] ++
  [PVarint 72 (uint64 (-1))] ++ [PFixed 76 (Float64bits (io_DiscretionaryAmt o))] ++ [PVarint 88 (uint64 0)] ++
  [PFixed 89 (Float64bits f0)] ++ [PFixed 91 (Float64bits f0)] ++
  condField (io_LmtPriceOffset o <>f f0) (PFixed 99 (Float64bits (io_LmtPriceOffset o))) ++
  [PVarint 98 (uint64 0)] ++ [PBytes 105 []].

Definition bodyFields (o : IBKROrder) : list pfield :=
  [PVarint 1 (uint64 (int32_of (io_OrderID o)))] ++ [PBytes 2 (enc_fields (contractFields o))] ++
  [PBytes 3 (enc_fields (orderFields o))] ++ [PBytes 4 []].

(** Rewrites a chain of appends into the fields of the chain. *)
Ltac append_fields :=
  repeat (rewrite append_int32 || rewrite append_int64 || rewrite append_string || rewrite append_message ||
          rewrite append_double || rewrite append_bool ||
          match goal with |- context [if ?c then ?b ++ enc_fields [?f] else ?b] =>
            rewrite (append_cond c b f _ eq_refl) end);
  rewrite ?List.app_nil_l; rewrite ?enc_fields_app, <- ?List.app_assoc; try reflexivity.

Lemma comboLeg_fields leg : encodeComboLegProto leg = enc_fields (comboLegFields leg).
Proof. unfold encodeComboLegProto, comboLegFields. cbv zeta. append_fields. Qed.

Lemma legs_fields legs buf :
  fold_left (fun msg leg => protoAppendMessage msg 20 (encodeComboLegProto leg)) legs buf =
    buf ++ enc_fields (map (fun leg => PBytes 20 (enc_fields (comboLegFields leg))) legs).
Proof.
  revert buf. induction legs as [|leg legs IH]; intros buf; [symmetry; apply List.app_nil_r|].
  cbn [fold_left map]. rewrite IH, append_message, comboLeg_fields, <- List.app_assoc.
  by rewrite <- enc_fields_app.
Qed.

Lemma contract_fields o : encodePlaceOrderContractProto o = enc_fields (contractFields o).
Proof. unfold encodePlaceOrderContractProto, contractFields. cbv zeta. rewrite legs_fields. append_fields. Qed.

Lemma append_adaptive (p : string) (msg : bytes) :
  (if p <>s "" then
     protoAppendMessage (protoAppendString msg 61 "Adaptive") 62
       (protoAppendString (protoAppendString [] 1 "adaptivePriority") 2 p)
   else msg) = msg ++ enc_fields (if p <>s "" then adaptiveFields p else []).
Proof.
  destruct (p <>s ""); [|symmetry; apply List.app_nil_r]. unfold adaptiveFields. append_fields.
Qed.

Lemma order_fields o : encodePlaceOrderOrderProto o = enc_fields (orderFields o).
Proof. unfold encodePlaceOrderOrderProto, orderFields. cbv zeta. rewrite append_adaptive. append_fields. Qed.

Lemma body_fields o body :
  encodePlaceOrderProtoBody o = Ok body ->
  validatePlaceOrderProtoSupported o = Ok tt /\ body = enc_fields (bodyFields o).
Proof.
  unfold encodePlaceOrderProtoBody, bodyFields. destruct (validatePlaceOrderProtoSupported o) as [[]|]; [|done].
  cbn [rbind]. intros [= <-]. split; [done|]. rewrite contract_fields, order_fields. append_fields.
Qed.

(** ** Well-formed fields *)

(** [pf_ok] less the length, which the size of the frame bounds. *)
Definition pf_wf (f : pfield) : Prop :=
  0 < pf_number f < 536870912 /\ match f with PVarint _ v | PFixed _ v => 0 <= v < 2 ^ 64 | PBytes _ _ => True end.

Lemma pf_wf_ok l :
  Forall pf_wf l -> Z.of_nat (List.length (enc_fields l)) < 9223372036854775808 -> Forall (fun f => pf_ok f = true) l.
Proof.
  intros Hwf Hlen. rewrite Forall_forall in *. intros f Hf. specialize (Hwf f Hf) as [Hn Hv].
  apply list_elem_of_In in Hf. assert (Hb := enc_fields_bound l f Hf).
  unfold pf_ok. rewrite !andb_true_iff, !Z.ltb_lt. split; [lia|].
  change (2 ^ 64) with 18446744073709551616 in Hv.
  destruct f; cbn [pf_value] in *; rewrite ?andb_true_iff, ?Z.leb_le, ?Z.ltb_lt; lia.
Qed.

Lemma strField_wf n v : 0 < n < 536870912 -> Forall pf_wf (strField n v).
Proof. intros Hn. unfold strField. destruct (v =s ""); [constructor | by apply Forall_singleton]. Qed.

Lemma condField_wf c f : pf_wf f -> Forall pf_wf (condField c f).
Proof. intros Hf. destruct c; [by apply Forall_singleton | constructor]. Qed.

Lemma varint_wf n z : 0 < n < 536870912 -> Forall pf_wf [PVarint n (uint64 z)].
Proof. intros Hn. apply Forall_singleton. split; [done | apply uint64_range]. Qed.

Lemma double_wf n v : 0 < n < 536870912 -> validFloat v = true -> pf_wf (PFixed n (Float64bits v)).
Proof. intros Hn Hv. split; [done | by apply Float64bits_range]. Qed.

Lemma message_wf n b : 0 < n < 536870912 -> Forall pf_wf [PBytes n b].
Proof. intros Hn. by apply Forall_singleton. Qed.

Ltac fields_wf :=
  repeat match goal with
  | |- Forall _ (_ ++ _) => apply Forall_app; split
  | |- Forall _ (strField _ _) => apply strField_wf; lia
  | |- Forall _ [PVarint _ (uint64 _)] => apply varint_wf; lia
  | |- Forall _ [PBytes _ _] => apply message_wf; lia
  | |- Forall _ (condField _ _) => apply condField_wf
  | |- Forall _ [PFixed _ _] => constructor; [|constructor]
  | |- pf_wf (PVarint _ 1) => split; cbn; lia
  | |- pf_wf (PVarint _ (uint64 _)) => split; [cbn; lia | apply uint64_range]
  | |- pf_wf (PFixed _ _) => apply double_wf; [lia | done]
  end.

(** The prices of an order are float64 values. *)
Record orderFloatsValid (o : IBKROrder) : Prop := {
  fv_strike : validFloat (io_Strike o) = true;
  fv_lmt : validFloat (io_LmtPrice o) = true;
  fv_aux : validFloat (io_AuxPrice o) = true;
  fv_pct : validFloat (io_TrailingPercent o) = true;
  fv_stop : validFloat (io_TrailStopPrice o) = true;
  fv_offset : validFloat (io_LmtPriceOffset o) = true;
  fv_disc : validFloat (io_DiscretionaryAmt o) = true
}.

Lemma contractFields_wf o : orderFloatsValid o -> Forall pf_wf (contractFields o).
Proof.
  intros []. unfold contractFields. fields_wf. apply Forall_forall. intros f Hf.
  apply list_elem_of_In, in_map_iff in Hf as (leg & <- & _). split; cbn; [lia | done].
Qed.

Lemma orderFields_wf o : orderFloatsValid o -> Forall pf_wf (orderFields o).
Proof.
  intros []. unfold orderFields, adaptiveFields. fields_wf.
  destruct (_ <>s ""); [|constructor]. fields_wf.
Qed.

Lemma bodyFields_wf o : Forall pf_wf (bodyFields o).
Proof. unfold bodyFields. fields_wf. Qed.

Lemma nested_length l n b : In (PBytes n b) l -> (List.length b <= List.length (enc_fields l))%nat.
Proof. intros Hin. exact (enc_fields_bound l (PBytes n b) Hin). Qed.

Lemma forEach_fields {S} (fn : S -> Z -> Z -> bytes -> pres S) l s :
  Forall pf_wf l -> Z.of_nat (List.length (enc_fields l)) < 9223372036854775808 ->
  forEachProtoField fn (enc_fields l) s = eachField fn l s.
Proof. intros Hwf Hlen. apply forEachLoop_fields; [by apply pf_wf_ok | apply enc_fields_length]. Qed.

(** ** Reading a chain of fields *)

Lemma int32_range z : -2147483648 <= int32_of z < 2147483648.
Proof.
  unfold int32_of. assert (H := Z.mod_pos_bound z 4294967296 ltac:(lia)).
  destruct (_ <? _) eqn:E; bool_hyps; lia.
Qed.

(** Running a callback over [l] takes [s] to [s']. *)
Definition reads {S} (fn : S -> Z -> Z -> bytes -> pres S) (l : list pfield) (s s' : S) : Prop :=
  eachField fn l s = Ok s'.

(** What the wire keeps of a float that is sent only when [c]. *)
Definition sentFloat (c : bool) (v : float64) : float64 := if c then v else f0.

Section Reads.
Context {S : Type} (fn : S -> Z -> Z -> bytes -> pres S).

Lemma reads_app l1 l2 s s1 s2 : reads fn l1 s s1 -> reads fn l2 s1 s2 -> reads fn (l1 ++ l2) s s2.
Proof. unfold reads. intros H1 H2. by rewrite eachField_app, H1. Qed.

(** An omitted string reads as the empty string it was. *)
Lemma reads_string n v s (upd : string -> S) :
  (forall x, fn s n protoWireBytes (list_ascii_of_string x) = Ok (upd x)) -> upd "" = s ->
  reads fn (strField n v) s (upd v).
Proof.
  intros Hfn Hs. unfold reads, strField. destruct (v =s "") eqn:E; bool_hyps.
  - subst v. by rewrite Hs.
  - cbn [eachField pf_number pf_wire pf_value]. by rewrite Hfn.
Qed.

Lemma reads_int n z s (upd : Z -> S) :
  (forall v x, 0 <= v < 2 ^ 64 -> int_of_uint64 v = x -> fn s n protoWireVarint (uvarint_bytes 10 v) = Ok (upd x)) ->
  reads fn [PVarint n (uint64 (int32_of z))] s (upd (int32_of z)).
Proof.
  intros Hfn. unfold reads. cbn [eachField pf_number pf_wire pf_value].
  assert (H := int32_range z). rewrite (Hfn _ (int32_of z)); [done | apply uint64_range | apply int_uint64; lia].
Qed.

Lemma reads_flag n c s (upd : bool -> S) :
  (forall v x, 0 <= v < 2 ^ 64 -> negb (v =? 0) = x -> fn s n protoWireVarint (uvarint_bytes 10 v) = Ok (upd x)) ->
  upd false = s -> reads fn (condField c (PVarint n 1)) s (upd c).
Proof.
  intros Hfn Hs. unfold reads. destruct c; cbn [condField eachField pf_number pf_wire pf_value]; [|by rewrite Hs].
  by rewrite (Hfn 1 true).
Qed.

Lemma reads_double n c v s (upd : float64 -> S) :
  validFloat v = true ->
  (forall b x, 0 <= b < 2 ^ 64 -> Float64frombits b = x -> fn s n protoWireFixed64 (le64 b) = Ok (upd x)) -> upd f0 = s ->
  reads fn (condField c (PFixed n (Float64bits v))) s (upd (sentFloat c v)).
Proof.
  intros Hv Hfn Hs. unfold reads. destruct c; cbn; [|by rewrite Hs].
  by rewrite (Hfn _ v) by eauto using Float64bits_range, Float64_roundtrip.
Qed.

Lemma reads_skip l s : Forall (fun f => fn s (pf_number f) (pf_wire f) (pf_value f) = Ok s) l -> reads fn l s s.
Proof. unfold reads. induction 1 as [|f l Hf _ IH]; [done|]. cbn. by rewrite Hf. Qed.
End Reads.

(** The summary an order's own terms give; the fields come in the record's order. *)
Definition placeSummaryOf (o : IBKROrder) : placeOrderProtoSummary := mkPlaceSummary
  (io_ParentID o) (io_OrderID o) (io_ConID o) (io_Symbol o) (ToUpper (io_SecType o)) (io_Expiry o)
  (sentFloat (io_Strike o <>f f0) (io_Strike o)) (ToUpper (io_Right o)) (io_Multiplier o) (io_ClientID o)
  (ToUpper (io_Action o)) (Itoa (io_TotalQty o)) (ToUpper (io_OrderType o))
  (sentFloat ((io_LmtPrice o <>f f0) || io_LmtPriceSet o) (io_LmtPrice o))
  (sentFloat (io_AuxPrice o <>f f0) (io_AuxPrice o))
  (sentFloat (io_TrailingPercent o <>f f0) (io_TrailingPercent o))
  (sentFloat (io_TrailStopPrice o <>f f0) (io_TrailStopPrice o))
  (sentFloat (io_LmtPriceOffset o <>f f0) (io_LmtPriceOffset o)) (ToUpper (io_TIF o)) (io_TriggerMethod o)
  (io_Account o) (io_OrderRef o) (io_OutsideRth o) (io_WhatIf o) (io_Transmit o) (io_OpenClose o).

Lemma int32_small z : minProtoInt32 <= z <= maxProtoInt32 -> int32_of z = z.
Proof.
  unfold minProtoInt32, maxProtoInt32, int32_of. intros Hz. destruct (decide (0 <= z)).
  - rewrite Z.mod_small by lia. by replace (z <? 2147483648) with true by (symmetry; apply Z.ltb_lt; lia).
  - replace (z mod 4294967296) with (z + 4294967296) by (apply (Z.mod_unique _ _ (-1)); lia).
    replace (z + 4294967296 <? 2147483648) with false by (symmetry; apply Z.ltb_ge; lia). lia.
Qed.

Lemma validateProtoInt32_small name z : validateProtoInt32 name z = Ok tt -> int32_of z = z.
Proof.
  unfold validateProtoInt32. destruct (_ || _) eqn:E; [done|]. intros _. bool_hyps. apply int32_small. lia.
Qed.

Lemma triggerMethod_small ot m : validatePlaceOrderTriggerMethod ot m = Ok tt -> int32_of m = m.
Proof.
  unfold validatePlaceOrderTriggerMethod. intros H. apply int32_small. unfold minProtoInt32, maxProtoInt32.
  destruct (m =? 0) eqn:E0; bool_hyps; [lia|]. destruct (negb _); [done|].
  destruct (existsb (Z.eqb m) _) eqn:E; [|done]. cbn [existsb] in E. bool_hyps. lia.
Qed.

(** The integers the encoder checks are on the wire as they are; the parent id is
    not among them. *)
Lemma supported_integers o :
  validatePlaceOrderProtoSupported o = Ok tt ->
  int32_of (io_OrderID o) = io_OrderID o /\ int32_of (io_ClientID o) = io_ClientID o /\
  int32_of (io_ConID o) = io_ConID o /\ int32_of (io_TriggerMethod o) = io_TriggerMethod o.
Proof.
  unfold validatePlaceOrderProtoSupported. intros H. cbv zeta in H.
  repeat match type of H with
  | (let? _ := ?x in _) = _ => destruct x as [[]|] eqn:?; cbn [rbind] in H; [|discriminate]
  end.
  split_and!; eauto using validateProtoInt32_small, triggerMethod_small.
Qed.

#[local] Arguments forEachProtoField : simpl never.
#[local] Arguments enc_fields : simpl never.
#[local] Arguments contractFields : simpl never.
#[local] Arguments orderFields : simpl never.
#[local] Arguments protoVarintValue : simpl never.
#[local] Arguments protoFixed64Value : simpl never.
#[local] Arguments int_of_uint64 : simpl never.
#[local] Arguments Float64frombits : simpl never.

(** One chunk of a chain: a string, an integer, a flag, a float or a skipped field. *)
Ltac callback := intros; cbn;
  rewrite ?varint_value, ?fixed_value by (done || (change (2 ^ 64) with 18446744073709551616; lia));
  unfold str, set_field; cbn; rewrite ?string_of_list_ascii_of_string;
  repeat match goal with H : int_of_uint64 _ = _ |- _ => rewrite H | H : Float64frombits _ = _ |- _ => rewrite H
         | H : negb _ = _ |- _ => rewrite H end;
  reflexivity.
Ltac reads_chunk :=
  lazymatch goal with
  | |- reads _ (strField _ _) _ _ => eapply reads_string; [callback | reflexivity]
  | |- reads _ [PVarint _ (uint64 _)] _ _ =>
      first [ apply reads_skip; apply Forall_singleton; reflexivity
            | eapply reads_int; callback ]
  | |- reads _ (condField _ (PVarint _ 1)) _ _ => eapply reads_flag; [callback | reflexivity]
  | |- reads _ (condField _ (PFixed _ _)) _ _ => eapply reads_double; [done | callback | reflexivity]
  | |- reads _ _ _ _ => apply reads_skip; first [apply Forall_singleton; reflexivity | idtac]
  end.
Ltac reads_chain := repeat (eapply reads_app; [reads_chunk|]).


(** The contract message alone, read after the order id. *)
Lemma contract_reads o :
  orderFloatsValid o ->
  reads contractSummaryField (contractFields o)
    (mkPlaceSummary 0 (int32_of (io_OrderID o)) 0 "" "" "" f0 "" "" 0 "" "" "" f0 f0 f0 f0 f0 "" 0 "" "" false false false "")
    (mkPlaceSummary 0 (int32_of (io_OrderID o)) (int32_of (io_ConID o)) (io_Symbol o) (ToUpper (io_SecType o)) (io_Expiry o)
       (sentFloat (io_Strike o <>f f0) (io_Strike o)) (ToUpper (io_Right o)) (io_Multiplier o)
       0 "" "" "" f0 f0 f0 f0 f0 "" 0 "" "" false false false "").
Proof.
  intros []. unfold contractFields. reads_chain. apply reads_skip, Forall_forall. intros f Hf.
  apply list_elem_of_In, in_map_iff in Hf as (leg & <- & _). reflexivity.
Qed.

(** The order message, read after the contract. *)
Lemma order_reads o oid con sym sec exp strike right mult :
  orderFloatsValid o ->
  reads orderSummaryField (orderFields o)
    (mkPlaceSummary 0 oid con sym sec exp strike right mult 0 "" "" "" f0 f0 f0 f0 f0 "" 0 "" "" false false false "")
    (mkPlaceSummary (int32_of (io_ParentID o)) oid con sym sec exp strike right mult (int32_of (io_ClientID o))
       (ToUpper (io_Action o)) (Itoa (io_TotalQty o)) (ToUpper (io_OrderType o))
       (sentFloat ((io_LmtPrice o <>f f0) || io_LmtPriceSet o) (io_LmtPrice o))
       (sentFloat (io_AuxPrice o <>f f0) (io_AuxPrice o))
       (sentFloat (io_TrailingPercent o <>f f0) (io_TrailingPercent o))
       (sentFloat (io_TrailStopPrice o <>f f0) (io_TrailStopPrice o))
       (sentFloat (io_LmtPriceOffset o <>f f0) (io_LmtPriceOffset o)) (ToUpper (io_TIF o))
       (int32_of (io_TriggerMethod o)) (io_Account o) (io_OrderRef o) (io_OutsideRth o) (io_WhatIf o) (io_Transmit o)
       (io_OpenClose o)).
Proof.
  intros []. unfold orderFields. reads_chain; [|apply reads_skip, Forall_singleton; reflexivity].
  destruct (io_AdaptivePriority o <>s ""); [|done]. apply Forall_app; split.
  - apply Forall_singleton. reflexivity.
  - apply Forall_singleton. reflexivity.
Qed.

Lemma frame_parts o frame :
  encodePlaceOrderProtoFrame o = Ok frame ->
  validatePlaceOrderProtoSupported o = Ok tt /\ frame = be32 protoPlaceOrderMsgID ++ enc_fields (bodyFields o).
Proof.
  unfold encodePlaceOrderProtoFrame. destruct (encodePlaceOrderProtoBody o) as [body|] eqn:Hb; [|done].
  cbn [rbind]. intros [= <-]. apply body_fields in Hb as [Hv ->]. done.
Qed.

Lemma body_reads o :
  orderFloatsValid o -> Z.of_nat (List.length (enc_fields (bodyFields o))) <= maxMessageBytes ->
  validatePlaceOrderProtoSupported o = Ok tt ->
  reads placeSummaryField (bodyFields o) zero_placeSummary ((placeSummaryOf o) <| ps_parentID := int32_of (io_ParentID o) |>).
Proof.
  intros Hf Hlen Hv. apply supported_integers in Hv as (Ho & Hcl & Hc & Ht).
  assert (Hn1 := nested_length (bodyFields o) 2 (enc_fields (contractFields o)) ltac:(cbn; auto)).
  assert (Hn2 := nested_length (bodyFields o) 3 (enc_fields (orderFields o)) ltac:(cbn; auto)).
  unfold maxMessageBytes in Hlen. unfold bodyFields, zero_placeSummary.
  eapply reads_app; [reads_chunk|]. cbv beta. eapply reads_app.
  - unfold reads. cbn. unfold parseContractProtoSummary. rewrite forEach_fields by (eauto using contractFields_wf || lia).
    rewrite (contract_reads o Hf). reflexivity.
  - eapply reads_app; [|apply reads_skip, Forall_singleton; reflexivity].
    unfold reads. cbn. unfold parseOrderProtoSummary. rewrite forEach_fields by (eauto using orderFields_wf || lia).
    rewrite (order_reads o) by done. unfold placeSummaryOf. by rewrite Ho, Hcl, Hc, Ht.
Qed.

Definition inInt32 (z : Z) : Prop := minProtoInt32 <= z <= maxProtoInt32.

Lemma validateProtoInt32_range name z : validateProtoInt32 name z = Ok tt -> inInt32 z.
Proof. unfold validateProtoInt32, inInt32. destruct (_ || _) eqn:E; [done|]. intros _. bool_hyps. lia. Qed.

(** What the encoder accepts: four identifiers inside int32, and a parent only on a
    fixed stop, where it is positive. *)
Lemma supported_ranges o :
  validatePlaceOrderProtoSupported o = Ok tt ->
  Forall inInt32 [io_OrderID o; io_ClientID o; io_ConID o; io_TotalQty o] /\
  (io_ParentID o <> 0 -> ToUpper (TrimSpace (io_OrderType o)) = "STP"%string /\ 0 < io_ParentID o).
Proof.
  unfold validatePlaceOrderProtoSupported. intros H. cbv zeta in H.
  do 4 (apply rbind_ok in H as ([] & ? & H)). apply rbind_ok in H as ([] & Hq & H).
  apply rbind_ok in H as ([] & _ & H). apply rbind_ok in H as ([] & _ & H).
  apply rbind_ok in H as ([] & Hstop & H). apply rbind_ok in H as ([] & Hparent & _).
  split; [repeat constructor; by eapply validateProtoInt32_range|]. intros Hp. apply Z.eqb_neq in Hp. rewrite Hp in Hparent.
  destruct (String.eqb_spec (ToUpper (TrimSpace (io_OrderType o))) "STP") as [E|]; [|done]. split; [done|].
  cbn [andb] in Hstop. destruct (io_ParentID o <=? 0) eqn:Hle; [by rewrite orb_true_r in Hstop|]. by apply Z.leb_gt.
Qed.

Lemma int32_own z : int32_of z = z <-> inInt32 z.
Proof.
  split; [|apply int32_small]. intros H. assert (Hr := int32_range z). rewrite H in Hr.
  unfold inInt32, minProtoInt32, maxProtoInt32. lia.
Qed.

(** C32.  The place-order instruction reads back.  For an order whose prices are
    float64 values, and a frame no longer than the reader's message limit: whatever
    the encoder accepts, its frame starts with the place-order message id and its
    body parses, with the connection's own reader, to the order's terms: order,
    client and contract id, account, contract, side, quantity, prices, time in force,
    trigger method and the transmit, what-if and outside-hours flags are the ones of
    the order, with the codes the encoder upper-cases upper-cased and a zero price
    read as absent.  An order, client or contract id or a quantity outside int32 is
    refused.  The parent id is the exception: the encoder takes one only on a fixed
    stop and only a positive one, but does not check its range, and what reads back
    is its truncation to int32, the order's own parent exactly when that fits. *)
Theorem place_order_frame_reads_back o frame :
  orderFloatsValid o -> encodePlaceOrderProtoFrame o = Ok frame ->
  Z.of_nat (List.length frame) <= maxMessageBytes ->
  take 4 frame = be32 protoPlaceOrderMsgID /\
  parsePlaceOrderProtoSummary (drop 4 frame) = Ok ((placeSummaryOf o) <| ps_parentID := int32_of (io_ParentID o) |>) /\
  Forall inInt32 [io_OrderID o; io_ClientID o; io_ConID o; io_TotalQty o] /\
  (io_ParentID o <> 0 -> ToUpper (TrimSpace (io_OrderType o)) = "STP"%string /\ 0 < io_ParentID o) /\
  (int32_of (io_ParentID o) = io_ParentID o <-> inInt32 (io_ParentID o)).
Proof.
  intros Hf He Hlen. apply frame_parts in He as [Hv ->]. split; [done|].
  destruct (supported_ranges o Hv) as [Hr Hp]. split; [|split_and!; [done | done | apply int32_own]].
  assert (Hd : drop 4 (be32 protoPlaceOrderMsgID ++ enc_fields (bodyFields o)) = enc_fields (bodyFields o)) by done.
  rewrite length_app in Hlen. rewrite Hd. unfold parsePlaceOrderProtoSummary.
  rewrite forEach_fields by (eauto using bodyFields_wf || (unfold maxMessageBytes in Hlen; lia)).
  apply body_reads; [done | lia | done].
Qed.

(** ** The cancel instruction *)

Lemma cancel_fields orderID :
  encodeCancelOrderProtoBody orderID = enc_fields ([PVarint 1 (uint64 (int32_of orderID))] ++ [PBytes 2 []]).
Proof. unfold encodeCancelOrderProtoBody. append_fields. Qed.

(** A cancel the encoder accepts names exactly its order, on both protocols. *)
Lemma cancel_frame_reads_back serverVersion orderID frame :
  minServerVerProtoBufPlaceOrder <= serverVersion -> encodeCancelOrderMessage serverVersion orderID = Ok frame ->
  take 4 frame = be32 protoCancelOrderMsgID /\
  parseCancelOrderProtoSummary (drop 4 frame) = Ok (mkCancelSummary orderID true).
Proof.
  intros Hs. unfold encodeCancelOrderMessage. destruct (validateProtoInt32 _ _) as [[]|] eqn:Hv; [|done].
  cbn [rbind]. rewrite (proj2 (Z.leb_le _ _) Hs). intros [= <-]. split; [done|].
  unfold encodeCancelOrderProtoFrame. rewrite cancel_fields.
  set (l := [_] ++ [_]). change (drop 4 (be32 protoCancelOrderMsgID ++ enc_fields l)) with (enc_fields l).
  unfold parseCancelOrderProtoSummary. apply validateProtoInt32_small in Hv.
  rewrite forEach_fields; unfold l.
  - eapply reads_app.
    + eapply (reads_int cancelSummaryField 1 orderID _ (fun z => mkCancelSummary z false)). callback.
    + unfold reads. cbn. by rewrite Hv.
  - fields_wf.
  - assert (H1 := uvarint_length 10 (uint64 (int32_of orderID))).
    rewrite enc_fields_app, length_app, !enc_fields_one. unfold enc_field, protoAppendTag, AppendUvarint.
    rewrite !length_app. cbn [List.length pf_number pf_wire].
    assert (H2 := fun x => uvarint_length 10 x).
    assert (H3 := H2 (uint64 (Z.lor (Z.shiftl 1 3) protoWireVarint))).
    assert (H4 := H2 (uint64 (Z.lor (Z.shiftl 2 3) protoWireBytes))).
    assert (H5 := H2 (uint64 (Z.of_nat 0))). lia.
Qed.

(** A one-share limit order. *)
Definition sample_order : IBKROrder :=
  zero_IBKROrder <| io_OrderID := 7 |> <| io_ClientID := 3 |> <| io_ConID := 265598 |> <| io_Symbol := "AAPL" |>
    <| io_SecType := "STK" |> <| io_Exchange := "SMART" |> <| io_Currency := "USD" |> <| io_Action := "buy" |>
    <| io_TotalQty := 1 |> <| io_OrderType := "LMT" |> <| io_LmtPrice := f_of_Z 150 |> <| io_TIF := "DAY" |>
    <| io_Account := "DU1" |> <| io_Transmit := true |>.

Lemma sample_order_valid : orderFloatsValid sample_order.
Proof. split; vm_compute; reflexivity. Qed.

(** An attached stop whose parent id does not fit: it is accepted, and goes out under
    another parent. *)
Definition stray_stop : IBKROrder :=
  sample_order <| io_Action := "SELL" |> <| io_OrderType := "STP" |> <| io_LmtPrice := f0 |> <| io_AuxPrice := f_of_Z 140 |>
    <| io_TIF := "GTC" |> <| io_TriggerMethod := 2 |> <| io_ParentID := 4294967301 |>.

Lemma stray_stop_valid : orderFloatsValid stray_stop.
Proof. split; vm_compute; reflexivity. Qed.

Lemma place_order_frame_reads_back_witness :
  exists frame stray, encodePlaceOrderProtoFrame sample_order = Ok frame /\
    parsePlaceOrderProtoSummary (drop 4 frame) = Ok (placeSummaryOf sample_order) /\
    ps_action (placeSummaryOf sample_order) = "BUY"%string /\
    encodePlaceOrderProtoFrame stray_stop = Ok stray /\
    parsePlaceOrderProtoSummary (drop 4 stray) = Ok ((placeSummaryOf stray_stop) <| ps_parentID := 5 |>).
Proof.
  destruct (encodePlaceOrderProtoFrame sample_order) as [frame|] eqn:E; [|vm_compute in E; discriminate].
  destruct (encodePlaceOrderProtoFrame stray_stop) as [stray|] eqn:E2; [|vm_compute in E2; discriminate].
  exists frame, stray. split; [done|]. split; [|split; [reflexivity|]; split; [done|]].
  - destruct (place_order_frame_reads_back sample_order frame sample_order_valid E) as (_ & H & _); [|exact H].
    vm_compute in E. injection E as <-. vm_compute. discriminate.
  - destruct (place_order_frame_reads_back stray_stop stray stray_stop_valid E2) as (_ & H & _); [|exact H].
    vm_compute in E2. injection E2 as <-. vm_compute. discriminate.
Defined.
