(* ===== verification/BrokerIds.v ===== *)
(** * The broker's id namespace

    src/pkg/ibkr/connection.go (the state guarded by reqIDMu: reservations,
    claims, the nextValidId frontier, the broker's own-order reports) and
    order_preview_uncertainty.go (modify previews whose status is uncertain).
    One socket's order ids and request ids share a signed 32-bit namespace, and
    an order placed by an earlier process may be changed only when the broker
    reported it.  Every operation runs under one lock, so the model is a state
    machine whose steps are the locked sections.  Proved over every sequence of
    steps: no id is handed out twice, a request never owns an order's id, and a
    change is claimed only for the order every report of this socket names. *)

From stdpp Require Import base decidable list strings gmap.
From Stdlib Require Import ZArith Lia Ascii String.
From S2P Require Import Prelude OrderTypes OrderStatus BrokerScope OrderViews WriteGate WireCodec ProtoWire PlaceOrderProto.

(** ** State *)

Record OrderChangeIdentity := mkChange { oc_PermID : Z; oc_Account : string; oc_OrderRef : string }.

(** What the configuration fixes: client id and account. *)
Record idConfig := mkIdConfig { ic_ClientID : Z; ic_Account : string }.

(** The fields of Connection under reqIDMu, and the what-if ids. *)
Record idSpace := mkIdSpace {
  ns_epoch : Z; ns_reqIDSeq : Z; ns_nextOrderID : Z; ns_haveNextValidID : bool; ns_exhausted : bool;
  ns_reservedOrderIDs : gset Z; ns_reservedRequestIDs : gset Z;
  ns_reported : gmap Z ReportedOwnOrder; ns_permIDs : gmap Z Z;
  ns_previewIDs : gset Z; ns_uncertain : gmap Z Z; ns_localIdentity : gmap Z OrderChangeIdentity;
  ns_statusSerial : Z; ns_previewGeneration : Z; ns_whatIf : gset Z
}.
#[global] Instance idSpace_eta : Eta idSpace := fun s => mkIdSpace (ns_epoch s) (ns_reqIDSeq s) (ns_nextOrderID s)
  (ns_haveNextValidID s) (ns_exhausted s) (ns_reservedOrderIDs s) (ns_reservedRequestIDs s) (ns_reported s)
  (ns_permIDs s) (ns_previewIDs s) (ns_uncertain s) (ns_localIdentity s) (ns_statusSerial s)
  (ns_previewGeneration s) (ns_whatIf s).

(** NewConnection *)
Definition newIdSpace : idSpace := mkIdSpace 0 1 0 false false ∅ ∅ ∅ ∅ ∅ ∅ ∅ 0 0 ∅.

(** An operation that may fail leaves the state and says why; all its errors
    wrap ErrBrokerIDNamespaceConflict or name the missing namespace. *)
Abbreviation idres := (result string).
Definition refuse {A} (s : idSpace) (why : string) : idSpace * idres A := (s, Err why).

Definition frontier (s : idSpace) : Z := Z.max (ns_reqIDSeq s) (ns_nextOrderID s).
Definition in_namespace (id : Z) : bool := (0 <? id) && (id <=? maxProtoInt32).

(** ** Reserving the next id *)

Definition idUnavailable : string := "broker id unavailable before nextValidId or after namespace exhaustion".

(** reserveNextOrderIDLocked *)
Definition reserveNextOrderIDLocked (s : idSpace) : idSpace * idres Z :=
  if negb (ns_haveNextValidID s) || ns_exhausted s then refuse s idUnavailable
  else
    let id := Z.max (ns_nextOrderID s) (ns_reqIDSeq s) in
    let id := if id <=? 0 then 1 else id in
    if maxProtoInt32 <? id then refuse (s <| ns_exhausted := true |>) idUnavailable
    else
      let s := if id =? maxProtoInt32 then s <| ns_exhausted := true |> else s <| ns_nextOrderID := id + 1 |> in
      (s <| ns_reservedOrderIDs := {[id]} ∪ ns_reservedOrderIDs s |>, Ok id).

(** reserveNextOrderIDForEpoch *)
Definition reserveNextOrderIDForEpoch (epoch : Z) (s : idSpace) : idSpace * idres Z :=
  if negb (ns_epoch s =? epoch) then refuse s "broker socket generation changed before order ID reservation"
  else reserveNextOrderIDLocked s.

(** reserveNextRequestIDLocked *)
Definition reserveNextRequestIDLocked (s : idSpace) : idSpace * idres Z :=
  if negb (ns_haveNextValidID s) || ns_exhausted s then refuse s idUnavailable
  else
    let id := Z.max (ns_reqIDSeq s) (ns_nextOrderID s) in
    let id := if id <=? 0 then 1 else id in
    if maxProtoInt32 <? id then refuse (s <| ns_exhausted := true |>) idUnavailable
    else
      let s := if id =? maxProtoInt32 then s <| ns_exhausted := true |> else s <| ns_reqIDSeq := id + 1 |> in
      (s <| ns_reservedRequestIDs := {[id]} ∪ ns_reservedRequestIDs s |>, Ok id).

(** reserveNextRequestIDForEpoch *)
Definition reserveNextRequestIDForEpoch (epoch : Z) (s : idSpace) : idSpace * idres Z :=
  if negb (ns_epoch s =? epoch) then refuse s "broker socket generation changed before request ID reservation"
  else reserveNextRequestIDLocked s.

(** discardOrderIDReservation, discardRequestIDReservation *)
Definition discardOrderIDReservation (id : Z) (s : idSpace) : idSpace :=
  if id <=? 0 then s else s <| ns_reservedOrderIDs := ns_reservedOrderIDs s ∖ {[id]} |>.
Definition discardRequestIDReservation (id : Z) (s : idSpace) : idSpace :=
  if id <=? 0 then s else s <| ns_reservedRequestIDs := ns_reservedRequestIDs s ∖ {[id]} |>.

(** discardPnLReservation: only on the reservation's own socket. *)
Definition discardPnLReservation (epoch id : Z) (s : idSpace) : idSpace :=
  if ns_epoch s =? epoch then s <| ns_reservedRequestIDs := ns_reservedRequestIDs s ∖ {[id]} |> else s.

(** ** Moving the frontier *)

(** The tail the claims share: the id is consumed. *)
Definition passFrontier (id : Z) (s : idSpace) : idSpace :=
  if maxProtoInt32 <=? id then s <| ns_exhausted := true |>
  else s <| ns_reqIDSeq := Z.max (ns_reqIDSeq s) (id + 1) |> <| ns_nextOrderID := Z.max (ns_nextOrderID s) (id + 1) |>.

(** advanceBrokerIDPastLocked *)
Definition advanceBrokerIDPastLocked (id : Z) (s : idSpace) : idSpace :=
  if id <=? 0 then s
  else passFrontier id (s <| ns_reservedOrderIDs := ns_reservedOrderIDs s ∖ {[id]} |>
                          <| ns_reservedRequestIDs := ns_reservedRequestIDs s ∖ {[id]} |>).

(** observeInboundOrderIDAtEpoch *)
Definition observeInboundOrderIDAtEpoch (id epoch : Z) (s : idSpace) : idSpace :=
  if negb (in_namespace id) then s
  else if negb (ns_epoch s =? epoch) then s else advanceBrokerIDPastLocked id s.

(** observeNextValidOrderIDLocked *)
Definition observeNextValidOrderIDLocked (id : Z) (s : idSpace) : idSpace :=
  let s := s <| ns_haveNextValidID := true |> in
  let s := if ns_nextOrderID s <? id then s <| ns_nextOrderID := id |> else s in
  if ns_nextOrderID s <? ns_reqIDSeq s then s <| ns_nextOrderID := ns_reqIDSeq s |> else s.

(** observeNextValidOrderIDAtEpoch *)
Definition observeNextValidOrderIDAtEpoch (id epoch : Z) (s : idSpace) : idSpace :=
  if negb (in_namespace id) then s
  else if negb (ns_epoch s =? epoch) then s else observeNextValidOrderIDLocked id s.

(** The id-namespace part of resetOrderIDReadiness: a new socket generation. *)
Definition resetOrderIDReadiness (s : idSpace) : idSpace :=
  s <| ns_epoch := uint64 (ns_epoch s + 1) |> <| ns_haveNextValidID := false |>
    <| ns_reservedOrderIDs := ∅ |> <| ns_reservedRequestIDs := ∅ |> <| ns_reported := ∅ |> <| ns_permIDs := ∅ |>
    <| ns_previewIDs := ∅ |> <| ns_uncertain := ∅ |> <| ns_localIdentity := ∅ |>.

(** captureBrokerInstructionEpoch, BrokerIDNamespaceReady *)
Definition captureBrokerInstructionEpoch (s : idSpace) : idres Z :=
  if ns_haveNextValidID s then Ok (ns_epoch s) else Err "broker id namespace not ready for instruction send".
Definition BrokerIDNamespaceReady (s : idSpace) : bool := ns_haveNextValidID s && negb (ns_exhausted s).

(** ** Claiming an id *)

Definition epochDiffers (expected : option Z) (s : idSpace) : bool :=
  match expected with Some e => negb (ns_epoch s =? e) | None => false end.

(** claimRequestIDLocked *)
Definition claimRequestIDLocked (id : Z) (expected : option Z) (s : idSpace) : idSpace * idres Z :=
  if epochDiffers expected s then refuse s "broker socket generation changed before request ID claim"
  else if negb (ns_haveNextValidID s)
  then refuse s "nextValidId has not established the current socket request namespace"
  else if negb (bool_decide (id ∈ ns_reservedRequestIDs s)) && (ns_exhausted s || (id <? frontier s))
  then refuse s "explicit request ID is behind the consumed request/order frontier"
  else (passFrontier id (s <| ns_reservedRequestIDs := ns_reservedRequestIDs s ∖ {[id]} |>), Ok (ns_epoch s)).

(** claimRequestIDCurrentEpoch ([None]), claimRequestIDForEpoch *)
Definition claimRequestID (id : Z) (expected : option Z) (s : idSpace) : idSpace * idres Z :=
  if negb (in_namespace id) then refuse s "request ID is outside the signed 32-bit broker namespace"
  else claimRequestIDLocked id expected s.

(** ReportedOwnOrder.matches *)
Definition reportMatches (r : ReportedOwnOrder) (change : option OrderChangeIdentity) : bool :=
  match change with
  | None => false
  | Some ch =>
      if ro_Conflicted r || (oc_PermID ch <=? 0) || negb (ro_PermID r =? oc_PermID ch) ||
         negb (EqualFold (TrimSpace (ro_Account r)) (TrimSpace (oc_Account ch)))
      then false
      else let want := TrimSpace (oc_OrderRef ch) in (want =s "") || (TrimSpace (ro_OrderRef r) =s want)
  end.

Definition reportedFor (id : Z) (change : option OrderChangeIdentity) (s : idSpace) : bool :=
  match ns_reported s !! id with Some r => reportMatches r change | None => false end.

(** claimOrderIDLocked: the epoch, and whether the id was claimed as a new order's. *)
Definition claimOrderIDLocked (id : Z) (alreadyOwned : bool) (expected : option Z)
    (change : option OrderChangeIdentity) (s : idSpace) : idSpace * idres (Z * bool) :=
  if epochDiffers expected s then refuse s "broker socket generation changed before order ID claim"
  else if negb (ns_haveNextValidID s)
  then refuse s "nextValidId has not established the current socket order namespace"
  else if bool_decide (id ∈ ns_reservedRequestIDs s)
  then refuse s "order ID is owned by a reserved read-only request"
  else
    let reserved := bool_decide (id ∈ ns_reservedOrderIDs s) in
    let reported := reportedFor id change s in
    let ahead := negb (ns_exhausted s) && (frontier s <=? id) in
    if present change && negb alreadyOwned && negb reported
    then refuse s "the order to change is neither this process's nor reported by the broker"
    else if negb reserved && negb alreadyOwned && negb reported && negb ahead
    then refuse s "explicit order ID is behind the consumed request/order frontier"
    else
      let fresh := negb (present change) && (reserved || ahead) in
      (passFrontier id (s <| ns_reservedOrderIDs := ns_reservedOrderIDs s ∖ {[id]} |>), Ok (ns_epoch s, fresh)).

(** claimOrderIDCurrentEpoch ([None]), claimOrderIDForEpoch *)
Definition claimOrderID (id : Z) (alreadyOwned : bool) (expected : option Z) (s : idSpace) : idSpace * idres (Z * bool) :=
  if negb (in_namespace id) then refuse s "order ID is outside the signed 32-bit broker namespace"
  else claimOrderIDLocked id alreadyOwned expected None s.

(** claimOrderIDForForwardingAtEpochFresh *)
Definition claimOrderIDForForwarding (id : Z) (alreadyOwned : bool) (expected : option Z)
    (change : option OrderChangeIdentity) (s : idSpace) : idSpace * idres (Z * bool) :=
  if negb (in_namespace id) then refuse s "order ID is outside the signed 32-bit broker namespace"
  else
    match claimOrderIDLocked id alreadyOwned expected change s with
    | (s, Ok r) => (s <| ns_reservedOrderIDs := {[id]} ∪ ns_reservedOrderIDs s |>, Ok r)
    | (s, Err e) => (s, Err e)
    end.

(** ** What the broker reports *)

(** observeOrderPermIDLocked: zero marks two different permanent ids. *)
Definition observeOrderPermIDLocked (id permID : Z) (s : idSpace) : idSpace * bool :=
  match ns_permIDs s !! id with
  | Some prior =>
      if negb (prior =? permID) then (s <| ns_permIDs := <[id := 0]> (ns_permIDs s) |>, true)
      else (s <| ns_permIDs := <[id := permID]> (ns_permIDs s) |>, false)
  | None => (s <| ns_permIDs := <[id := permID]> (ns_permIDs s) |>, false)
  end.

(** The reports observeReportedOwnOrderAtEpoch counts: a transmitted order of
    this client, not a what-if, naming an account. *)
Definition ownOrderReport (cfg : idConfig) (ev : OrderLifecycleEvent) : bool :=
  negb (ic_ClientID cfg =? 0) && (b_Type ev =s OrderLifecycleEventOpenOrder) && negb (b_WhatIf ev) &&
  b_ClientIDPresent ev && (b_ClientID ev =? ic_ClientID cfg) && in_namespace (b_OrderID ev) && (0 <? b_PermID ev) &&
  (TrimSpace (b_Account ev) <>s "").

Definition foreignAccount (cfg : idConfig) (ev : OrderLifecycleEvent) : bool :=
  let configured := TrimSpace (ic_Account cfg) in
  (configured <>s "") && negb (EqualFold configured (TrimSpace (b_Account ev))).

Definition reportOf (ev : OrderLifecycleEvent) (conflicted : bool) : ReportedOwnOrder :=
  mkReported (b_PermID ev) (TrimSpace (b_Account ev)) (TrimSpace (b_OrderRef ev)) conflicted.

Definition reportsDiffer (prior next : ReportedOwnOrder) : bool :=
  ro_Conflicted prior || negb (ro_PermID prior =? ro_PermID next) ||
  negb (EqualFold (ro_Account prior) (ro_Account next)) || (ro_OrderRef prior <>s ro_OrderRef next).

(** observeReportedOwnOrderAtEpoch, from the parsed event on. *)
Definition observeReportedOwnOrderAtEpoch (cfg : idConfig) (ev : OrderLifecycleEvent) (epoch : Z) (s : idSpace)
    : idSpace :=
  if negb (ownOrderReport cfg ev) then s
  else if negb (ns_epoch s =? epoch) then s
  else
    let '(s, conflicted) := observeOrderPermIDLocked (b_OrderID ev) (b_PermID ev) s in
    let next := reportOf ev (foreignAccount cfg ev || conflicted) in
    let next := match ns_reported s !! b_OrderID ev with
                | Some prior => if reportsDiffer prior next then reportOf ev true else next
                | None => next
                end in
    s <| ns_reported := <[b_OrderID ev := next]> (ns_reported s) |>.

Inductive previewStatusDisposition := previewStatusOrdinary | previewStatusIgnore | previewStatusUncertain.
#[global] Instance previewStatus_eq_dec : EqDecision previewStatusDisposition.
Proof. solve_decision. Defined.

(** orderPreviewDisposition *)
Definition orderPreviewDisposition (id epoch : Z) (s : idSpace) : previewStatusDisposition :=
  if negb (ns_epoch s =? epoch) then previewStatusOrdinary
  else if bool_decide (id ∈ ns_previewIDs s) then previewStatusUncertain
  else if bool_decide (id ∈ ns_whatIf s) then previewStatusIgnore
  else previewStatusOrdinary.

Definition uncertainSerial (id : Z) (s : idSpace) : Z := match ns_uncertain s !! id with Some n => n | None => 0 end.

Definition isWorkingStatus (status : string) : bool := one_of status ["Submitted"; "PreSubmitted"].

(** The statuses observeReportedOrderStatusAtEpoch looks at. *)
Definition ownStatus (cfg : idConfig) (ev : OrderLifecycleEvent) : bool :=
  (b_Type ev =s OrderLifecycleEventStatus) && in_namespace (b_OrderID ev) &&
  negb (b_ClientIDPresent ev && negb (b_ClientID ev =? ic_ClientID cfg)).

(** A status that names a permanent id of this client. *)
Definition statusNamesPermID (cfg : idConfig) (ev : OrderLifecycleEvent) : bool :=
  negb (ic_ClientID cfg =? 0) && b_ClientIDPresent ev && (0 <? b_PermID ev).

(** observeReportedOrderStatusAtEpoch after its first read of the preview
    markers, whose answer [seen] may be older than [s]. *)
Definition observeReportedOrderStatusAtEpoch (cfg : idConfig) (ev : OrderLifecycleEvent) (epoch : Z)
    (seen : previewStatusDisposition) (s : idSpace) : idSpace * previewStatusDisposition :=
  if negb (ownStatus cfg ev) then (s, previewStatusOrdinary)
  else if negb (ns_epoch s =? epoch) then (s, previewStatusOrdinary)
  else
    let id := b_OrderID ev in
    let disposition := if bool_decide (id ∈ ns_previewIDs s) then previewStatusUncertain else seen in
    let s := if bool_decide (disposition = previewStatusUncertain) ||
                (negb (uncertainSerial id s =? 0) && negb (isWorkingStatus (b_Status ev)))
             then let serial := uint64 (ns_statusSerial s + 1) in
                  s <| ns_statusSerial := serial |> <| ns_uncertain := <[id := serial]> (ns_uncertain s) |>
             else s in
    if statusNamesPermID cfg ev then
      let '(s, conflicted) := observeOrderPermIDLocked id (b_PermID ev) s in
      if conflicted then
        match ns_reported s !! id with
        | Some r =>
            (s <| ns_reported :=
                 <[id := mkReported (ro_PermID r) (ro_Account r) (ro_OrderRef r) true]> (ns_reported s) |>, disposition)
        | None => (s, disposition)
        end
      else (s, disposition)
    else (s, disposition).

(** reportedOwnOrderAtEpoch *)
Definition reportedOwnOrderAtEpoch (id epoch : Z) (s : idSpace) : option ReportedOwnOrder :=
  if ns_epoch s =? epoch then ns_reported s !! id else None.

(** modifyStatusIsUncertain, modifyPreviewActive *)
Definition modifyStatusIsUncertain (id epoch : Z) (s : idSpace) : bool :=
  (ns_epoch s =? epoch) && negb (uncertainSerial id s =? 0).
Definition modifyPreviewActive (id epoch : Z) (s : idSpace) : bool :=
  (ns_epoch s =? epoch) && bool_decide (id ∈ ns_previewIDs s).

(** orderChangeWireGuard: what it answers in [s]; [next] is the inner guard. *)
Definition orderChangeWireGuard (id epoch : Z) (change : option OrderChangeIdentity) (locallyPlaced : bool)
    (next : idres unit) (s : idSpace) : idres unit :=
  if modifyStatusIsUncertain id epoch s
  then Err "order status changed during its preview; refresh open orders and preview again; no order sent"
  else
    let report := reportedOwnOrderAtEpoch id epoch s in
    let wrong := match report with
                 | None => negb locallyPlaced
                 | Some r => negb (reportMatches r change)
                 end in
    if present change && wrong then Err "broker report no longer identifies the order to change; no order sent"
    else next.

(** ** Modify previews *)

(** beginModifyPreview *)
Definition beginModifyPreview (id epoch : Z) (s : idSpace) : idSpace * idres unit :=
  if negb (ns_epoch s =? epoch) then refuse s "broker session changed before modify preview"
  else if bool_decide (id ∈ ns_previewIDs s) || negb (uncertainSerial id s =? 0)
  then refuse s "order preview is active or its status is uncertain; refresh open orders and preview again"
  else (s <| ns_previewIDs := {[id]} ∪ ns_previewIDs s |>
          <| ns_previewGeneration := uint64 (ns_previewGeneration s + 1) |>, Ok tt).

(** finishModifyPreview: whether the order's status became uncertain. *)
Definition finishModifyPreview (id epoch : Z) (s : idSpace) : idSpace * bool :=
  if negb (ns_epoch s =? epoch) then (s, false)
  else
    let s := if bool_decide (id ∈ ns_previewIDs s)
             then s <| ns_previewIDs := ns_previewIDs s ∖ {[id]} |>
                    <| ns_previewGeneration := uint64 (ns_previewGeneration s + 1) |>
             else s in
    (s, negb (uncertainSerial id s =? 0)).

(** rememberLocalPreviewIdentity *)
Definition rememberLocalPreviewIdentity (cfg : idConfig) (id epoch : Z) (change : option OrderChangeIdentity)
    (locallyPlaced : bool) (s : idSpace) : idSpace :=
  match change with
  | Some ch =>
      if negb locallyPlaced || (oc_PermID ch <=? 0) || (TrimSpace (oc_Account ch) =s "") ||
         (TrimSpace (oc_OrderRef ch) =s "") then s
      else if negb (ns_epoch s =? epoch) || negb (ic_ClientID cfg =? 0) then s
      else match ns_localIdentity s !! id with
           | Some _ => s
           | None => s <| ns_localIdentity := <[id := ch]> (ns_localIdentity s) |>
           end
  | None => s
  end.

(** clientZeroSnapshotNames: [seen] so far. *)
Fixpoint clientZeroSnapshotNames (id : Z) (want : OrderChangeIdentity) (orders : list OrderLifecycleEvent) (seen : bool)
    : bool :=
  match orders with
  | [] => seen
  | ev :: rest =>
      if negb (b_OrderID ev =? id) || negb (b_ClientIDPresent ev) || negb (b_ClientID ev =? 0) || b_WhatIf ev
      then clientZeroSnapshotNames id want rest seen
      else if negb (b_PermID ev =? oc_PermID want) ||
              negb (EqualFold (TrimSpace (b_Account ev)) (TrimSpace (oc_Account want))) ||
              (TrimSpace (b_OrderRef ev) <>s TrimSpace (oc_OrderRef want)) || negb (isWorkingStatus (b_Status ev))
      then false
      else clientZeroSnapshotNames id want rest true
  end.

(** modifyStatusRecoveryTokens *)
Definition modifyStatusRecoveryTokens (epoch : Z) (s : idSpace) : gmap Z Z * Z * bool :=
  let valid := (ns_epoch s =? epoch) && bool_decide (ns_previewIDs s = ∅) in
  (if valid then ns_uncertain s else ∅, ns_previewGeneration s, valid).

(** One order of the snapshot in recoverModifyStatusFromSnapshot. *)
Definition recoverOne (cfg : idConfig) (tokens : gmap Z Z) (orders : list OrderLifecycleEvent)
    (s : idSpace) (ev : OrderLifecycleEvent) : idSpace :=
  let id := b_OrderID ev in
  let serial := match tokens !! id with Some n => n | None => 0 end in
  let cleared := s <| ns_uncertain := delete id (ns_uncertain s) |> in
  if (serial =? 0) || negb (uncertainSerial id s =? serial) || b_WhatIf ev || negb (b_ClientIDPresent ev) ||
     negb (b_ClientID ev =? ic_ClientID cfg) || negb (isWorkingStatus (b_Status ev)) then s
  else if ic_ClientID cfg =? 0 then
    match ns_localIdentity s !! id with
    | Some want => if clientZeroSnapshotNames id want orders false then cleared else s
    | None => s
    end
  else
    match ns_reported s !! id with
    | Some r =>
        if reportMatches r (Some (mkChange (b_PermID ev) (TrimSpace (b_Account ev)) (TrimSpace (b_OrderRef ev))))
        then cleared else s
    | None => s
    end.

(** recoverModifyStatusFromSnapshot *)
Definition recoverModifyStatusFromSnapshot (cfg : idConfig) (epoch : Z) (tokens : gmap Z Z) (generation : Z)
    (orders : list OrderLifecycleEvent) (s : idSpace) : idSpace * bool :=
  if negb (ns_epoch s =? epoch) || negb (bool_decide (ns_previewIDs s = ∅)) ||
     negb (ns_previewGeneration s =? generation) then (s, false)
  else (fold_left (recoverOne cfg tokens orders) orders s, true).

(** markWhatIfOrderID, clearWhatIfOrderID, IsWhatIfOrderID *)
Definition markWhatIfOrderID (id : Z) (s : idSpace) : idSpace :=
  if id <=? 0 then s else s <| ns_whatIf := {[id]} ∪ ns_whatIf s |>.
Definition clearWhatIfOrderID (id : Z) (s : idSpace) : idSpace :=
  if id <=? 0 then s else s <| ns_whatIf := ns_whatIf s ∖ {[id]} |>.
Definition IsWhatIfOrderID (id : Z) (s : idSpace) : bool := (0 <? id) && bool_decide (id ∈ ns_whatIf s).

(** nextRequestID: reserve, then claim under the lock again. *)
Definition nextRequestID (s : idSpace) : idSpace * idres Z :=
  match reserveNextRequestIDLocked s with
  | (s', Ok id) =>
      match claimRequestID id (Some (ns_epoch s)) s' with
      | (s'', Ok _) => (s'', Ok id)
      | (s'', Err e) => (s'', Err e)
      end
  | (s', Err e) => (s', Err e)
  end.

(** reserveRequestIDWithEpoch: at most [tries] candidates. *)
Fixpoint reserveRequestLoop (allowed : Z -> bool) (tries : nat) (s : idSpace) : idSpace * idres (Z * Z) :=
  match tries with
  | O => refuse s "broker request id namespace unavailable"
  | S tries =>
      match reserveNextRequestIDLocked s with
      | (s', Err e) => (s', Err e)
      | (s', Ok candidate) =>
          if negb (allowed candidate)
          then reserveRequestLoop allowed tries
                 (s' <| ns_reservedRequestIDs := ns_reservedRequestIDs s' ∖ {[candidate]} |>)
          else match claimRequestID candidate (Some (ns_epoch s)) s' with
               | (s'', Ok _) => (s'', Ok (candidate, ns_epoch s))
               | (s'', Err e) => (s'', Err e)
               end
      end
  end.
Definition maxRequestIDReservations : nat := 1024.
Definition reserveRequestIDWithEpoch (allowed : Z -> bool) (s : idSpace) : idSpace * idres (Z * Z) :=
  reserveRequestLoop allowed maxRequestIDReservations s.

(** parseNextValidOrderID *)
Fixpoint firstPositive (fields : list (option string)) : option Z :=
  match fields with
  | [] => None
  | Some raw :: rest =>
      match Atoi (list_ascii_of_string (TrimSpace raw)) with
      | Some id => if id <=? 0 then firstPositive rest else Some id
      | None => firstPositive rest
      end
  | None :: rest => firstPositive rest
  end.
Definition parseNextValidOrderID (fields : list string) : option Z := firstPositive [fields !! 2%nat; fields !! 1%nat].

(** ** Runs *)

(** The locked sections, as steps. *)
Inductive idOp :=
  | OpReserveOrder (epoch : option Z) | OpReserveRequest (epoch : option Z)
  | OpDiscardOrder (id : Z) | OpDiscardRequest (id : Z) | OpDiscardPnL (epoch id : Z)
  | OpNextValid (id epoch : Z) | OpInbound (id epoch : Z) | OpReset
  | OpClaimRequest (id : Z) (expected : option Z)
  | OpClaimOrder (id : Z) (owned : bool) (expected : option Z)
  | OpForward (id : Z) (owned : bool) (expected : option Z) (change : option OrderChangeIdentity)
  | OpReport (ev : OrderLifecycleEvent) (epoch : Z)
  | OpStatus (ev : OrderLifecycleEvent) (epoch : Z) (seen : previewStatusDisposition)
  | OpBeginPreview (id epoch : Z) | OpFinishPreview (id epoch : Z)
  | OpRemember (id epoch : Z) (change : option OrderChangeIdentity) (placed : bool)
  | OpRecover (epoch : Z) (tokens : gmap Z Z) (generation : Z) (orders : list OrderLifecycleEvent)
  | OpMarkWhatIf (id : Z) | OpClearWhatIf (id : Z).

(** What a step did with an id. *)
Inductive idOutcome :=
  | Reserved (order : bool) (id : Z) | Claimed (order : bool) (id : Z) | Seen (id : Z) | Quiet.

Definition reserved_out (order : bool) (r : idSpace * idres Z) : idSpace * idOutcome :=
  (r.1, match r.2 with Ok id => Reserved order id | Err _ => Quiet end).
Definition claimed_out {A} (order : bool) (id : Z) (r : idSpace * idres A) : idSpace * idOutcome :=
  (r.1, match r.2 with Ok _ => Claimed order id | Err _ => Quiet end).

Definition idStep (cfg : idConfig) (s : idSpace) (op : idOp) : idSpace * idOutcome :=
  match op with
  | OpReserveOrder (Some e) => reserved_out true (reserveNextOrderIDForEpoch e s)
  | OpReserveOrder None => reserved_out true (reserveNextOrderIDLocked s)
  | OpReserveRequest (Some e) => reserved_out false (reserveNextRequestIDForEpoch e s)
  | OpReserveRequest None => reserved_out false (reserveNextRequestIDLocked s)
  | OpDiscardOrder id => (discardOrderIDReservation id s, Quiet)
  | OpDiscardRequest id => (discardRequestIDReservation id s, Quiet)
  | OpDiscardPnL e id => (discardPnLReservation e id s, Quiet)
  | OpNextValid id e => (observeNextValidOrderIDAtEpoch id e s, Quiet)
  | OpInbound id e =>
      (observeInboundOrderIDAtEpoch id e s, if in_namespace id && (ns_epoch s =? e) then Seen id else Quiet)
  | OpReset => (resetOrderIDReadiness s, Quiet)
  | OpClaimRequest id e => claimed_out false id (claimRequestID id e s)
  | OpClaimOrder id owned e => claimed_out true id (claimOrderID id owned e s)
  | OpForward id owned e change => claimed_out true id (claimOrderIDForForwarding id owned e change s)
  | OpReport ev e => (observeReportedOwnOrderAtEpoch cfg ev e s, Quiet)
  | OpStatus ev e seen => ((observeReportedOrderStatusAtEpoch cfg ev e seen s).1, Quiet)
  | OpBeginPreview id e => ((beginModifyPreview id e s).1, Quiet)
  | OpFinishPreview id e => ((finishModifyPreview id e s).1, Quiet)
  | OpRemember id e change placed => (rememberLocalPreviewIdentity cfg id e change placed s, Quiet)
  | OpRecover e tokens generation orders => ((recoverModifyStatusFromSnapshot cfg e tokens generation orders s).1, Quiet)
  | OpMarkWhatIf id => (markWhatIfOrderID id s, Quiet)
  | OpClearWhatIf id => (clearWhatIfOrderID id s, Quiet)
  end.

(** What happened so far: the ids given to orders and to requests and those the
    broker named, ever; and the reports and statuses of the current socket. *)
Record idHistory := mkHistory {
  h_orders : gset Z; h_requests : gset Z; h_seen : gset Z;
  h_reports : list OrderLifecycleEvent; h_statuses : list OrderLifecycleEvent
}.
#[global] Instance idHistory_eta : Eta idHistory :=
  fun h => mkHistory (h_orders h) (h_requests h) (h_seen h) (h_reports h) (h_statuses h).
Definition noHistory : idHistory := mkHistory ∅ ∅ ∅ [] [].

Definition noteOutcome (o : idOutcome) (h : idHistory) : idHistory :=
  match o with
  | Reserved true id | Claimed true id => h <| h_orders := {[id]} ∪ h_orders h |>
  | Reserved false id | Claimed false id => h <| h_requests := {[id]} ∪ h_requests h |>
  | Seen id => h <| h_seen := {[id]} ∪ h_seen h |>
  | Quiet => h
  end.

Definition noteEvidence (cfg : idConfig) (s : idSpace) (op : idOp) (h : idHistory) : idHistory :=
  match op with
  | OpReset => h <| h_reports := [] |> <| h_statuses := [] |>
  | OpReport ev e =>
      if ownOrderReport cfg ev && (ns_epoch s =? e) then h <| h_reports := ev :: h_reports h |> else h
  | OpStatus ev e _ =>
      if ownStatus cfg ev && statusNamesPermID cfg ev && (ns_epoch s =? e)
      then h <| h_statuses := ev :: h_statuses h |> else h
  | _ => h
  end.

Definition idStepH (cfg : idConfig) (p : idSpace * idHistory) (op : idOp) : idSpace * idHistory :=
  let '(s, h) := p in
  let '(s', o) := idStep cfg s op in (s', noteEvidence cfg s op (noteOutcome o h)).
Definition idRun (cfg : idConfig) (ops : list idOp) : idSpace * idHistory :=
  fold_left (idStepH cfg) ops (newIdSpace, noHistory).

(** ** No id twice *)

Definition usedIds (h : idHistory) : gset Z := h_orders h ∪ h_requests h ∪ h_seen h.

(** Behind the frontier, or the last id of an exhausted namespace. *)
Definition behind (s : idSpace) (id : Z) : Prop :=
  0 < id /\ (id < frontier s \/ id = maxProtoInt32 /\ ns_exhausted s = true).

Record ids_inv (s : idSpace) (h : idHistory) : Prop := {
  ii_req : 1 <= ns_reqIDSeq s <= maxProtoInt32;
  ii_next : ns_nextOrderID s <= maxProtoInt32;
  ii_used : forall id, id ∈ usedIds h -> behind s id;
  ii_requests : ns_reservedRequestIDs s ⊆ h_requests h;
  ii_orders : ns_reservedOrderIDs s ⊆ h_orders h;
  ii_disjoint : ns_reservedRequestIDs s ## h_orders h
}.

(** Steps that leave the frontier and only drop reservations. *)
Record idsShrink (s s' : idSpace) : Prop := {
  sh_req : ns_reqIDSeq s' = ns_reqIDSeq s;
  sh_next : ns_nextOrderID s' = ns_nextOrderID s;
  sh_exhausted : ns_exhausted s = true -> ns_exhausted s' = true;
  sh_requests : ns_reservedRequestIDs s' ⊆ ns_reservedRequestIDs s;
  sh_orders : ns_reservedOrderIDs s' ⊆ ns_reservedOrderIDs s
}.

Lemma idsShrink_refl s : idsShrink s s.
Proof. by split. Qed.

Lemma shrink_inv s s' h : idsShrink s s' -> ids_inv s h -> ids_inv s' h.
Proof.
  intros [Hr Hn He Hq Ho] [I1 I2 I3 I4 I5 I6]. split.
  - by rewrite Hr.
  - by rewrite Hn.
  - intros id Hid. destruct (I3 id Hid) as [Hpos Hb]. split; [done|]. unfold frontier in *. rewrite Hr, Hn.
    destruct Hb as [Hb|[Hb Hx]]; auto.
  - set_solver.
  - set_solver.
  - set_solver.
Qed.

Lemma max_big : 1 < maxProtoInt32.
Proof. done. Qed.

Lemma pass_behind id s : 0 < id <= maxProtoInt32 -> behind (passFrontier id s) id.
Proof.
  intros Hid. unfold behind, passFrontier, frontier. split; [lia|].
  destruct (maxProtoInt32 <=? id) eqn:E; bool_hyps; cbn; [right; split; [lia | done] | left; lia].
Qed.

Lemma pass_keeps id s i : behind s i -> behind (passFrontier id s) i.
Proof.
  unfold behind, passFrontier, frontier. intros [Hp Hb]. split; [done|].
  destruct Hb as [Hb|[Hb He]]; destruct (maxProtoInt32 <=? id); cbn; auto; left; lia.
Qed.

(** An id taken by an order or a request or named by the broker, after the
    reservations [ro] and [rr] it leaves. *)
Lemma pass_inv o id s h ro rr :
  ids_inv s h -> 0 < id <= maxProtoInt32 ->
  ro ⊆ ns_reservedOrderIDs s -> rr ⊆ ns_reservedRequestIDs s ->
  (o = Claimed true id /\ id ∉ rr) \/ o = Claimed false id \/ o = Seen id ->
  ids_inv (passFrontier id (s <| ns_reservedOrderIDs := ro |> <| ns_reservedRequestIDs := rr |>)) (noteOutcome o h).
Proof.
  intros [I1 I2 I3 I4 I5 I6] Hid Hro Hrr Ho.
  assert (Hbehind : forall i, i ∈ usedIds (noteOutcome o h) ->
    behind (passFrontier id (s <| ns_reservedOrderIDs := ro |> <| ns_reservedRequestIDs := rr |>)) i).
  { intros i Hi. destruct (decide (i = id)) as [->|Hne]; [by apply pass_behind|].
    apply pass_keeps. apply (I3 i). unfold usedIds in *. destruct Ho as [[-> _]|[->| ->]]; cbn in Hi; set_solver. }
  assert (Hmax := max_big). split; try done;
    try (unfold passFrontier; destruct (maxProtoInt32 <=? id) eqn:E; bool_hyps; cbn; lia);
    unfold passFrontier; destruct (maxProtoInt32 <=? id); destruct Ho as [[-> Hn]|[->| ->]]; cbn; set_solver.
Qed.

(** The next id was never used; it goes to an order or a request. *)
Lemma frontier_unused s h : ids_inv s h -> ns_exhausted s = false -> frontier s ∉ usedIds h.
Proof. intros [I1 I2 I3 _ _ _] He Hin. destruct (I3 _ Hin) as [_ [?|[_ ?]]]; [lia | congruence]. Qed.

Lemma ahead_unused s h id : ids_inv s h -> ns_exhausted s = false -> frontier s <= id -> id ∉ usedIds h.
Proof. intros [I1 I2 I3 _ _ _] He Hle Hin. destruct (I3 _ Hin) as [_ [?|[_ ?]]]; [lia | congruence]. Qed.

(** What a reservation does when it succeeds, for orders and requests alike. *)
Lemma reserve_order_ok s s' id :
  reserveNextOrderIDLocked s = (s', Ok id) -> 1 <= ns_reqIDSeq s ->
  ns_exhausted s = false /\ id = frontier s /\ id <= maxProtoInt32 /\
  ns_reqIDSeq s' = ns_reqIDSeq s /\ ns_nextOrderID s' = (if id =? maxProtoInt32 then ns_nextOrderID s else id + 1) /\
  ns_exhausted s' = (id =? maxProtoInt32) /\ ns_reservedRequestIDs s' = ns_reservedRequestIDs s /\
  ns_reservedOrderIDs s' = {[id]} ∪ ns_reservedOrderIDs s.
Proof.
  unfold reserveNextOrderIDLocked, refuse, frontier. intros H Hreq.
  destruct (negb _ || _) eqn:E; [done|]. bool_hyps. cbv zeta in H.
  replace (Z.max (ns_nextOrderID s) (ns_reqIDSeq s) <=? 0) with false in H by (symmetry; apply Z.leb_gt; lia).
  rewrite (Z.max_comm (ns_nextOrderID s)) in H.
  destruct (maxProtoInt32 <? _) eqn:E2; [done|]. bool_hyps. destruct (_ =? maxProtoInt32) eqn:E3;
    injection H as <- <-; cbn; rewrite ?E3; split_and!; auto; lia.
Qed.

Lemma reserve_request_ok s s' id :
  reserveNextRequestIDLocked s = (s', Ok id) -> 1 <= ns_reqIDSeq s ->
  ns_exhausted s = false /\ id = frontier s /\ id <= maxProtoInt32 /\
  ns_reqIDSeq s' = (if id =? maxProtoInt32 then ns_reqIDSeq s else id + 1) /\ ns_nextOrderID s' = ns_nextOrderID s /\
  ns_exhausted s' = (id =? maxProtoInt32) /\ ns_reservedOrderIDs s' = ns_reservedOrderIDs s /\
  ns_reservedRequestIDs s' = {[id]} ∪ ns_reservedRequestIDs s.
Proof.
  unfold reserveNextRequestIDLocked, refuse, frontier. intros H Hreq.
  destruct (negb _ || _) eqn:E; [done|]. bool_hyps. cbv zeta in H.
  replace (Z.max (ns_reqIDSeq s) (ns_nextOrderID s) <=? 0) with false in H by (symmetry; apply Z.leb_gt; lia).
  destruct (maxProtoInt32 <? _) eqn:E2; [done|]. bool_hyps. destruct (_ =? maxProtoInt32) eqn:E3;
    injection H as <- <-; cbn; rewrite ?E3; split_and!; auto; lia.
Qed.

Lemma reserve_order_refused s s' e : reserveNextOrderIDLocked s = (s', Err e) -> idsShrink s s'.
Proof.
  unfold reserveNextOrderIDLocked, refuse. destruct (negb _ || _); [intros [= <- _]; apply idsShrink_refl|].
  cbv zeta. destruct (maxProtoInt32 <? _); [intros [= <- _]; by split | done].
Qed.

Lemma reserve_request_refused s s' e : reserveNextRequestIDLocked s = (s', Err e) -> idsShrink s s'.
Proof.
  unfold reserveNextRequestIDLocked, refuse. destruct (negb _ || _); [intros [= <- _]; apply idsShrink_refl|].
  cbv zeta. destruct (maxProtoInt32 <? _); [intros [= <- _]; by split | done].
Qed.

(** The frontier moved past a fresh id that now belongs to [order]. *)
Lemma reserved_inv (order : bool) id s s' h :
  ids_inv s h -> ns_exhausted s = false -> id = frontier s -> id <= maxProtoInt32 ->
  1 <= ns_reqIDSeq s' <= maxProtoInt32 -> ns_nextOrderID s' <= maxProtoInt32 -> frontier s <= frontier s' ->
  (id < frontier s' \/ id = maxProtoInt32 /\ ns_exhausted s' = true) ->
  ns_reservedRequestIDs s' = (if order then ns_reservedRequestIDs s else {[id]} ∪ ns_reservedRequestIDs s) ->
  ns_reservedOrderIDs s' = (if order then {[id]} ∪ ns_reservedOrderIDs s else ns_reservedOrderIDs s) ->
  ids_inv s' (noteOutcome (Reserved order id) h).
Proof.
  intros Hinv He Hid Hle Hr Hn Hf Hpast Hrr Hro. assert (Hfree := frontier_unused s h Hinv He). rewrite <- Hid in Hfree.
  destruct Hinv as [I1 I2 I3 I4 I5 I6]. unfold usedIds in *. split; try done.
  - intros i Hi. destruct (decide (i = id)) as [->|Hne]; [split; [unfold frontier in *; lia | done]|].
    destruct (I3 i) as [Hp Hb]; [destruct order; cbn in Hi; set_solver|]. split; [done|].
    destruct Hb as [Hb|[_ Hb]]; [left; lia | congruence].
  - rewrite Hrr. destruct order; cbn; set_solver.
  - rewrite Hro. destruct order; cbn; set_solver.
  - rewrite Hrr. destruct order; cbn; [|set_solver].
    assert (id ∉ ns_reservedRequestIDs s) by set_solver. set_solver.
Qed.

Lemma reserve_order_inv s h :
  ids_inv s h -> let '(s', o) := reserved_out true (reserveNextOrderIDLocked s) in ids_inv s' (noteOutcome o h).
Proof.
  intros Hinv. unfold reserved_out. destruct (reserveNextOrderIDLocked s) as [s' [id|e]] eqn:E; cbn [fst snd].
  - apply reserve_order_ok in E as (He & Hid & Hle & Hr & Hn & Hx & Hrr & Hro); [|apply Hinv].
    assert (Hi := Hinv). destruct Hi as [I1 I2 _ _ _ _]. assert (Hmax := max_big).
    apply (reserved_inv true id s s' h); try done; unfold frontier in *;
      destruct (id =? maxProtoInt32) eqn:Em; bool_hyps; rewrite ?Hr, ?Hn; try lia; first [left; lia | right; split; [done | by rewrite Hx]].
  - cbn. eapply shrink_inv; [by eapply reserve_order_refused | done].
Qed.

Lemma reserve_request_inv s h :
  ids_inv s h -> let '(s', o) := reserved_out false (reserveNextRequestIDLocked s) in ids_inv s' (noteOutcome o h).
Proof.
  intros Hinv. unfold reserved_out. destruct (reserveNextRequestIDLocked s) as [s' [id|e]] eqn:E; cbn [fst snd].
  - apply reserve_request_ok in E as (He & Hid & Hle & Hr & Hn & Hx & Hro & Hrr); [|apply Hinv].
    assert (Hi := Hinv). destruct Hi as [I1 I2 _ _ _ _]. assert (Hmax := max_big).
    apply (reserved_inv false id s s' h); try done; unfold frontier in *;
      destruct (id =? maxProtoInt32) eqn:Em; bool_hyps; rewrite ?Hr, ?Hn; try lia; first [left; lia | right; split; [done | by rewrite Hx]].
  - cbn. eapply shrink_inv; [by eapply reserve_request_refused | done].
Qed.

(** The steps that leave ids alone. *)
Ltac quiet_step := repeat (case_match || case_decide); try apply idsShrink_refl; split; cbn; (done || set_solver).

Lemma observePermID_shrink id p s : idsShrink s (observeOrderPermIDLocked id p s).1.
Proof. unfold observeOrderPermIDLocked. quiet_step. Qed.

Lemma idsShrink_trans s1 s2 s3 : idsShrink s1 s2 -> idsShrink s2 s3 -> idsShrink s1 s3.
Proof.
  intros [A1 A2 A3 A4 A5] [B1 B2 B3 B4 B5].
  split; [by rewrite B1 | by rewrite B2 | by intros H; apply B3, A3 | by etrans | by etrans].
Qed.

Lemma report_shrink cfg ev e s : idsShrink s (observeReportedOwnOrderAtEpoch cfg ev e s).
Proof.
  unfold observeReportedOwnOrderAtEpoch. destruct (negb (ownOrderReport cfg ev)); [apply idsShrink_refl|].
  destruct (negb _); [apply idsShrink_refl|].
  assert (H := observePermID_shrink (b_OrderID ev) (b_PermID ev) s).
  destruct (observeOrderPermIDLocked _ _ s) as [s1 c]. eapply idsShrink_trans; [apply H | by split].
Qed.

Lemma status_shrink cfg ev e seen s : idsShrink s (observeReportedOrderStatusAtEpoch cfg ev e seen s).1.
Proof.
  unfold observeReportedOrderStatusAtEpoch. destruct (negb (ownStatus cfg ev)); [apply idsShrink_refl|].
  destruct (negb _); [apply idsShrink_refl|]. cbv zeta. set (s1 := if _ || _ then _ else s).
  assert (H1 : idsShrink s s1) by (unfold s1; destruct (_ || _); by split).
  destruct (statusNamesPermID cfg ev); [|done].
  assert (H := observePermID_shrink (b_OrderID ev) (b_PermID ev) s1).
  destruct (observeOrderPermIDLocked _ _ s1) as [s2 c]. eapply idsShrink_trans; [apply H1|].
  eapply idsShrink_trans; [apply H|]. cbn [fst]. destruct c; [|apply idsShrink_refl].
  destruct (ns_reported s2 !! _); [by split | apply idsShrink_refl].
Qed.

Lemma recover_shrink cfg e tokens g orders s : idsShrink s (recoverModifyStatusFromSnapshot cfg e tokens g orders s).1.
Proof.
  unfold recoverModifyStatusFromSnapshot. destruct (_ || _); [apply idsShrink_refl|]. cbn [fst].
  generalize orders at 2. intros l. revert s. induction l as [|ev l IH]; intros s; [apply idsShrink_refl|].
  cbn [fold_left]. eapply idsShrink_trans; [|apply IH]. unfold recoverOne. quiet_step.
Qed.

Lemma eta_orders s rr :
  (s <| ns_reservedRequestIDs := rr |>) =
  (s <| ns_reservedOrderIDs := ns_reservedOrderIDs s |> <| ns_reservedRequestIDs := rr |>).
Proof. done. Qed.

Lemma eta_requests s ro :
  (s <| ns_reservedOrderIDs := ro |>) =
  (s <| ns_reservedOrderIDs := ro |> <| ns_reservedRequestIDs := ns_reservedRequestIDs s |>).
Proof. done. Qed.

Lemma in_namespace_true id : in_namespace id = true -> 0 < id <= maxProtoInt32.
Proof. unfold in_namespace. intros H. bool_hyps. lia. Qed.

(** A claim succeeds only for its own reservation or an id nobody used. *)
Lemma claim_request_ok id expected s s' e :
  claimRequestID id expected s = (s', Ok e) ->
  0 < id <= maxProtoInt32 /\ (id ∈ ns_reservedRequestIDs s \/ ns_exhausted s = false /\ frontier s <= id) /\
  s' = passFrontier id (s <| ns_reservedRequestIDs := ns_reservedRequestIDs s ∖ {[id]} |>).
Proof.
  unfold claimRequestID, claimRequestIDLocked, refuse. destruct (in_namespace id) eqn:Hn; [|done].
  apply in_namespace_true in Hn. cbn [negb]. destruct (epochDiffers _ _); [done|].
  destruct (negb (ns_haveNextValidID s)); [done|].
  destruct (negb (bool_decide _) && _) eqn:E; [done|]. intros [= <- _]. split; [done|]. split; [|done].
  apply andb_false_iff in E as [E|E]; [left|right].
  - apply negb_false_iff, bool_decide_eq_true in E. done.
  - bool_hyps. split; [done | lia].
Qed.

Lemma claim_request_refused id expected s s' e : claimRequestID id expected s = (s', Err e) -> s' = s.
Proof.
  unfold claimRequestID, claimRequestIDLocked, refuse. repeat case_match; intros; by simplify_eq.
Qed.

Lemma claim_order_ok id owned expected change s s' e fresh :
  claimOrderIDLocked id owned expected change s = (s', Ok (e, fresh)) ->
  ~ id ∈ ns_reservedRequestIDs s /\ (present change = true -> owned = false -> reportedFor id change s = true) /\
  s' = passFrontier id (s <| ns_reservedOrderIDs := ns_reservedOrderIDs s ∖ {[id]} |>) /\
  (fresh = true -> change = None /\ (id ∈ ns_reservedOrderIDs s \/ ns_exhausted s = false /\ frontier s <= id)).
Proof.
  unfold claimOrderIDLocked, refuse. destruct (epochDiffers _ _); [done|].
  destruct (negb (ns_haveNextValidID s)); [done|]. destruct (bool_decide (id ∈ ns_reservedRequestIDs s)) eqn:Hr; [done|].
  apply bool_decide_eq_false in Hr. cbv zeta. destruct (present change && negb owned && _) eqn:E1; [done|].
  destruct (negb _ && negb owned && _ && _) eqn:E2; [done|]. intros [= <- _ <-]. split_and!; auto.
  - intros Hc Ho. rewrite Hc, Ho in E1. cbn in E1. by apply negb_false_iff in E1.
  - intros Hf. apply andb_true_iff in Hf as [Hc Hf]. split; [by destruct change|].
    apply orb_true_iff in Hf as [Hf|Hf]; [left; by apply bool_decide_eq_true in Hf | right]. bool_hyps.
    split; [done | lia].
Qed.

Lemma claim_order_refused id owned expected change s s' e :
  claimOrderIDLocked id owned expected change s = (s', Err e) -> s' = s.
Proof. unfold claimOrderIDLocked, refuse. repeat case_match; intros; by simplify_eq. Qed.

Lemma claim_order_inv id owned expected change s s' r h :
  ids_inv s h -> in_namespace id = true -> claimOrderIDLocked id owned expected change s = (s', Ok r) ->
  ids_inv s' (noteOutcome (Claimed true id) h).
Proof.
  intros Hinv Hn Hc. destruct r as [e f]. apply claim_order_ok in Hc as (Hr & _ & -> & _).
  rewrite eta_requests. apply pass_inv; [done | by apply in_namespace_true | set_solver | done | left; split; [done|set_solver]].
Qed.

Lemma hold_order_inv id s h :
  ids_inv s h -> id ∈ h_orders h -> ids_inv (s <| ns_reservedOrderIDs := {[id]} ∪ ns_reservedOrderIDs s |>) h.
Proof. intros [I1 I2 I3 I4 I5 I6] Hid. split; try done. cbn. set_solver. Qed.

Lemma next_valid_inv id e s h : ids_inv s h -> ids_inv (observeNextValidOrderIDAtEpoch id e s) h.
Proof.
  intros Hinv. unfold observeNextValidOrderIDAtEpoch. destruct (in_namespace id) eqn:Hn; [|done]. cbn [negb].
  destruct (negb _); [done|]. apply in_namespace_true in Hn. destruct Hinv as [I1 I2 I3 I4 I5 I6].
  unfold observeNextValidOrderIDLocked. cbv zeta.
  split; repeat case_match; cbn in *; bool_hyps; try done; try lia;
    intros i Hi; destruct (I3 i Hi) as [Hp [Hb|Hb]]; split; auto; left; unfold frontier in *; cbn; lia.
Qed.

Lemma inbound_inv id e s h :
  ids_inv s h ->
  ids_inv (observeInboundOrderIDAtEpoch id e s) (noteOutcome (if in_namespace id && (ns_epoch s =? e) then Seen id else Quiet) h).
Proof.
  intros Hinv. unfold observeInboundOrderIDAtEpoch. destruct (in_namespace id) eqn:Hn; [|done]. cbn [negb andb].
  destruct (ns_epoch s =? e); [|done]. cbn [negb]. apply in_namespace_true in Hn. unfold advanceBrokerIDPastLocked.
  replace (id <=? 0) with false by (symmetry; apply Z.leb_gt; lia).
  apply pass_inv; [done | done | set_solver | set_solver | by right; right].
Qed.

Lemma step_ids_inv cfg s h op :
  ids_inv s h -> let '(s', o) := idStep cfg s op in ids_inv s' (noteOutcome o h).
Proof.
  intros Hinv.
  assert (Hshrink : forall s', idsShrink s s' -> ids_inv s' h) by (intros s' Hs; by eapply shrink_inv).
  destruct op as [[e|]|[e|]|id|id|e id|id e|id e| |id e|id owned e|id owned e change|ev e|ev e seen|id e|id e
                 |id e change placed|e tokens g orders|id|id]; cbn [idStep].
  - unfold reserveNextOrderIDForEpoch. destruct (negb _); [done | by apply reserve_order_inv].
  - by apply reserve_order_inv.
  - unfold reserveNextRequestIDForEpoch. destruct (negb _); [done | by apply reserve_request_inv].
  - by apply reserve_request_inv.
  - apply Hshrink. unfold discardOrderIDReservation. quiet_step.
  - apply Hshrink. unfold discardRequestIDReservation. quiet_step.
  - apply Hshrink. unfold discardPnLReservation. quiet_step.
  - by apply next_valid_inv.
  - by apply inbound_inv.
  - apply Hshrink. unfold resetOrderIDReadiness. split; cbn; set_solver.
  - unfold claimed_out. destruct (claimRequestID id e s) as [s' [x|x]] eqn:E; cbn [fst snd].
    + apply claim_request_ok in E as (Hn & _ & ->). rewrite eta_orders.
      apply pass_inv; [done | done | done | set_solver | by right; left].
    + apply claim_request_refused in E as ->. done.
  - unfold claimed_out, claimOrderID. destruct (in_namespace id) eqn:Hn; [|done]. cbn [negb].
    destruct (claimOrderIDLocked _ _ _ _ s) as [s' [x|x]] eqn:E; cbn [fst snd]; [by eapply claim_order_inv|].
    by apply claim_order_refused in E as ->.
  - unfold claimed_out, claimOrderIDForForwarding. destruct (in_namespace id) eqn:Hn; [|done]. cbn [negb].
    destruct (claimOrderIDLocked _ _ _ _ s) as [s' [x|x]] eqn:E; cbn [fst snd].
    + apply hold_order_inv; [by eapply claim_order_inv | cbn; set_solver].
    + by apply claim_order_refused in E as ->.
  - apply Hshrink, report_shrink.
  - apply Hshrink, status_shrink.
  - apply Hshrink. unfold beginModifyPreview, refuse. quiet_step.
  - apply Hshrink. unfold finishModifyPreview. quiet_step.
  - apply Hshrink. unfold rememberLocalPreviewIdentity. quiet_step.
  - apply Hshrink, recover_shrink.
  - apply Hshrink. unfold markWhatIfOrderID. quiet_step.
  - apply Hshrink. unfold clearWhatIfOrderID. quiet_step.
Qed.

Lemma evidence_ids cfg s0 op h : h_orders (noteEvidence cfg s0 op h) = h_orders h /\
  h_requests (noteEvidence cfg s0 op h) = h_requests h /\ h_seen (noteEvidence cfg s0 op h) = h_seen h.
Proof. unfold noteEvidence. destruct op; repeat case_match; done. Qed.

Lemma ids_inv_history s h h' :
  h_orders h' = h_orders h -> h_requests h' = h_requests h -> h_seen h' = h_seen h -> ids_inv s h -> ids_inv s h'.
Proof.
  intros Ho Hr Hs [I1 I2 I3 I4 I5 I6]. split; try done; [|by rewrite Hr | by rewrite Ho | by rewrite Ho].
  unfold usedIds. by rewrite Ho, Hr, Hs.
Qed.

Lemma ids_inv_run cfg ops : ids_inv (idRun cfg ops).1 (idRun cfg ops).2.
Proof.
  unfold idRun. assert (H0 : ids_inv (newIdSpace, noHistory).1 (newIdSpace, noHistory).2).
  { split; cbn; try set_solver; unfold maxProtoInt32; lia. }
  generalize dependent (newIdSpace, noHistory). induction ops as [|op ops IH]; intros [s h] Hinv; [done|].
  cbn [fold_left]. apply IH. unfold idStepH. assert (H := step_ids_inv cfg s h op Hinv).
  destruct (idStep cfg s op) as [s' o]. cbn [fst snd]. destruct (evidence_ids cfg s op (noteOutcome o h)) as (Ho & Hr & Hs).
  by eapply ids_inv_history.
Qed.

(** A reservation's outcome is fresh, whichever kind it is. *)
Definition freshOutcome (h : idHistory) (o : idOutcome) : Prop :=
  match o with
  | Reserved _ id => 0 < id <= maxProtoInt32 /\ id ∉ usedIds h
  | Claimed false id => 0 < id <= maxProtoInt32 /\ id ∉ h_orders h
  | _ => True
  end.

Lemma frontier_fresh order id s h :
  ids_inv s h -> ns_exhausted s = false -> id = frontier s -> id <= maxProtoInt32 -> freshOutcome h (Reserved order id).
Proof.
  intros Hinv He -> Hle. split; [|by eapply frontier_unused]. destruct Hinv as [I1 _ _ _ _ _]. unfold frontier in *. lia.
Qed.

Lemma reserve_fresh s h :
  ids_inv s h -> freshOutcome h (reserved_out true (reserveNextOrderIDLocked s)).2 /\
                 freshOutcome h (reserved_out false (reserveNextRequestIDLocked s)).2.
Proof.
  intros Hinv. assert (Hone : 1 <= ns_reqIDSeq s) by apply Hinv. unfold reserved_out. cbn [snd]. split.
  - destruct (reserveNextOrderIDLocked s) as [s1 [id|]] eqn:E; [|done].
    apply reserve_order_ok in E as (He & Hid & Hle & _); [|done]. by apply (frontier_fresh _ _ s).
  - destruct (reserveNextRequestIDLocked s) as [s1 [id|]] eqn:E; [|done].
    apply reserve_request_ok in E as (He & Hid & Hle & _); [|done]. by apply (frontier_fresh _ _ s).
Qed.

Lemma claim_request_fresh id e s h :
  ids_inv s h -> freshOutcome h (claimed_out false id (claimRequestID id e s)).2.
Proof.
  intros Hinv. unfold claimed_out. destruct (claimRequestID id e s) as [s1 [x|]] eqn:E; [|done].
  apply claim_request_ok in E as (Hn & Hfree & _). cbn. split; [done|]. destruct Hfree as [Hin|[He Hle]].
  - destruct Hinv as [_ _ _ _ _ I6]. set_solver.
  - assert (H := ahead_unused s h id Hinv He Hle). unfold usedIds in H. set_solver.
Qed.

(** C22.  No broker id twice.  After any sequence of reservations, claims,
    discards, callbacks and reconnects of one connection: an id reserved next, for
    an order or for a request, is a positive int32 that no order or request was
    given and no broker callback named before, on this socket or an earlier one;
    and a request never comes to own an id an order was given. *)
Theorem broker_ids_never_reused cfg ops op s' o :
  idStep cfg (idRun cfg ops).1 op = (s', o) ->
  match o with
  | Reserved _ id => 0 < id <= maxProtoInt32 /\ id ∉ usedIds (idRun cfg ops).2
  | Claimed false id => 0 < id <= maxProtoInt32 /\ id ∉ h_orders (idRun cfg ops).2
  | _ => True
  end.
Proof.
  assert (Hinv := ids_inv_run cfg ops). destruct (idRun cfg ops) as [s h]. cbn [fst snd] in *.
  change (idStep cfg s op = (s', o) -> freshOutcome h o). destruct (reserve_fresh s h Hinv) as [Ho Hr].
  intros H. replace o with (idStep cfg s op).2 by (by rewrite H). clear H.
  destruct op as [[e|]|[e|]| | | | | | |id e|id owned e|id owned e change| | | | | | | |]; cbn [idStep]; try done.
  - unfold reserveNextOrderIDForEpoch. destruct (negb _); done.
  - unfold reserveNextRequestIDForEpoch. destruct (negb _); done.
  - cbn [snd]. destruct (_ && _); done.
  - by apply claim_request_fresh.
  - unfold claimed_out. cbn [snd]. by case_match.
  - unfold claimed_out. cbn [snd]. by case_match.
Qed.

(** ** A change names the order every report names *)

(** What the permanent-id map knows of the events [E] observed on this socket:
    every order id among them, and its one permanent id unless it is zero. *)
Record perm_inv (m : gmap Z Z) (E : OrderLifecycleEvent -> Prop) : Prop := {
  pe_one : forall id p ev, m !! id = Some p -> p <> 0 -> E ev -> b_OrderID ev = id -> b_PermID ev = p;
  pe_dom : forall ev, E ev -> is_Some (m !! b_OrderID ev)
}.

Lemma observe_cases id p s s1 c :
  observeOrderPermIDLocked id p s = (s1, c) ->
  s1 = s <| ns_permIDs := <[id := if c then 0 else p]> (ns_permIDs s) |> /\
  (c = false -> ns_permIDs s !! id = None \/ ns_permIDs s !! id = Some p).
Proof.
  unfold observeOrderPermIDLocked. destruct (ns_permIDs s !! id) as [q|] eqn:Hq.
  - destruct (q =? p) eqn:E; intros [= <- <-]; bool_hyps; split; auto; [|done]. intros _. right. congruence.
  - intros [= <- <-]. auto.
Qed.

Lemma perm_observe m (E : OrderLifecycleEvent -> Prop) ev c :
  perm_inv m E -> (c = false -> m !! b_OrderID ev = None \/ m !! b_OrderID ev = Some (b_PermID ev)) -> 0 < b_PermID ev ->
  perm_inv (<[b_OrderID ev := if c then 0 else b_PermID ev]> m) (fun x => x = ev \/ E x).
Proof.
  intros [P1 P2] Hc Hpos. split.
  - intros id p x Hm Hp Hx Hid. apply lookup_insert_Some in Hm as [[<- Hv] | [Hne Hm]].
    + destruct c; [congruence|]. destruct Hx as [->|Hx]; [done|]. subst p.
      destruct (Hc eq_refl) as [Hn|Hs]; [|by apply (P1 _ _ x Hs)].
      destruct (P2 x Hx) as [q Hq]. rewrite Hid in Hq. congruence.
    + destruct Hx as [->|Hx]; [congruence | by apply (P1 id p x)].
  - intros x [->|Hx]; [by rewrite lookup_insert_eq|].
    destruct (decide (b_OrderID x = b_OrderID ev)) as [->|Hne]; [by rewrite lookup_insert_eq|].
    rewrite lookup_insert_ne by done. by apply P2.
Qed.

(** What a report that is not conflicted vouches for. *)
Record vouches (cfg : idConfig) (h : idHistory) (id : Z) (r : ReportedOwnOrder) : Prop := {
  vo_some : exists ev, ev ∈ h_reports h /\ b_OrderID ev = id;
  vo_all : forall ev, ev ∈ h_reports h -> b_OrderID ev = id ->
    b_PermID ev = ro_PermID r /\ EqualFold (TrimSpace (b_Account ev)) (ro_Account r) = true /\
    TrimSpace (b_OrderRef ev) = ro_OrderRef r /\ foreignAccount cfg ev = false
}.

Record reports_inv (cfg : idConfig) (s : idSpace) (h : idHistory) : Prop := {
  rp_perm : perm_inv (ns_permIDs s) (fun ev => ev ∈ h_reports h \/ ev ∈ h_statuses h);
  rp_dom : forall ev, ev ∈ h_reports h -> is_Some (ns_reported s !! b_OrderID ev);
  rp_vouch : forall id r, ns_reported s !! id = Some r -> ro_Conflicted r = false ->
    ns_permIDs s !! id = Some (ro_PermID r) /\ 0 < ro_PermID r /\ vouches cfg h id r
}.

Lemma own_report_perm cfg ev : ownOrderReport cfg ev = true -> 0 < b_PermID ev.
Proof. unfold ownOrderReport. intros H. bool_hyps. lia. Qed.

Lemma report_inv cfg ev s h :
  reports_inv cfg s h -> ownOrderReport cfg ev = true ->
  reports_inv cfg (observeReportedOwnOrderAtEpoch cfg ev (ns_epoch s) s) (h <| h_reports := ev :: h_reports h |>).
Proof.
  intros [Pp Pd Pv] Hown. assert (Hpos := own_report_perm cfg ev Hown).
  unfold observeReportedOwnOrderAtEpoch. rewrite Hown, Z.eqb_refl. cbn [negb].
  destruct (observeOrderPermIDLocked _ _ s) as [s1 c] eqn:Ho. apply observe_cases in Ho as [-> Hc]. cbn.
  set (next := match ns_reported s !! b_OrderID ev with Some _ => _ | None => _ end).
  assert (Hnext : ro_Conflicted next = false ->
    c = false /\ foreignAccount cfg ev = false /\ next = reportOf ev false /\
    forall prior, ns_reported s !! b_OrderID ev = Some prior -> reportsDiffer prior next = false).
  { unfold next. destruct (ns_reported s !! b_OrderID ev) as [prior|].
    - destruct (reportsDiffer prior _) eqn:Hd; [done|]. cbn. intros Hf. apply orb_false_iff in Hf as [Hf ->].
      rewrite Hf in *. cbn in *. split_and!; auto. by intros ? [= ->].
    - cbn. intros Hf. apply orb_false_iff in Hf as [Hf ->]. rewrite Hf. by split_and!. }
  split; cbn.
  - eapply (perm_observe _ _ ev c) in Pp; [|done|done]. destruct Pp as [P1 P2]. split.
    + intros id p x Hm Hp Hx Hid. apply (P1 id p x); auto. set_solver.
    + intros x Hx. apply P2. set_solver.
  - intros x Hx. destruct (decide (b_OrderID x = b_OrderID ev)) as [->|Hne]; [by rewrite lookup_insert_eq|].
    rewrite lookup_insert_ne by done. apply Pd. set_solver.
  - intros id r Hr Hconf. apply lookup_insert_Some in Hr as [[<- <-] | [Hne Hr]].
    + destruct (Hnext Hconf) as (-> & Hf & Heq & Hprior). rewrite lookup_insert_eq, Heq. cbn. split_and!; [done|done|].
      split; [exists ev; set_solver|]. cbn. intros x Hx Hid. apply elem_of_cons in Hx as [->|Hx].
      { split_and!; auto using EqualFold_refl. }
      destruct (Pd x Hx) as [prior Hpr]. rewrite Hid in Hpr. specialize (Hprior prior Hpr).
      unfold reportsDiffer in Hprior. bool_hyps. rewrite Heq in *. cbn in *.
      destruct (Pv _ _ Hpr) as (_ & _ & [_ Hall]); [done|]. destruct (Hall x Hx Hid) as (A1 & A2 & A3 & A4).
      split_and!; auto; [congruence | by eapply EqualFold_trans | congruence].
    + rewrite lookup_insert_ne by done. destruct (Pv id r Hr Hconf) as (H1 & H2 & [H3 H4]). split_and!; auto.
      split; cbn; [destruct H3 as (x & ? & ?); exists x; set_solver|].
      intros x Hx Hid. apply H4; [|done]. set_solver.
Qed.

(** The state's reports and the history's evidence unchanged. *)
Lemma reports_same cfg s s' h h' :
  reports_inv cfg s h -> ns_reported s' = ns_reported s -> ns_permIDs s' = ns_permIDs s ->
  h_reports h' = h_reports h -> h_statuses h' = h_statuses h -> reports_inv cfg s' h'.
Proof.
  intros [Pp Pd Pv] Hr Hp H1 H2. split; rewrite ?Hr, ?Hp, ?H1, ?H2; try done.
  intros id r Hid Hc. destruct (Pv id r Hid Hc) as (A & B & [C D]). split_and!; auto. split; by rewrite H1.
Qed.

Lemma status_perm_inv cfg ev s h :
  reports_inv cfg s h -> 0 < b_PermID ev ->
  let '(s1, c) := observeOrderPermIDLocked (b_OrderID ev) (b_PermID ev) s in
  reports_inv cfg
    (if c then match ns_reported s1 !! b_OrderID ev with
               | Some r => s1 <| ns_reported := <[b_OrderID ev := mkReported (ro_PermID r) (ro_Account r) (ro_OrderRef r) true]>
                                                  (ns_reported s1) |>
               | None => s1
               end else s1)
    (h <| h_statuses := ev :: h_statuses h |>).
Proof.
  intros [Pp Pd Pv] Hpos. destruct (observeOrderPermIDLocked _ _ s) as [s1 c] eqn:Ho.
  apply observe_cases in Ho as [-> Hc].
  set (s1 := s <| ns_permIDs := _ |>). set (s2 := if c then _ else s1).
  assert (Hperm : ns_permIDs s2 = <[b_OrderID ev := if c then 0 else b_PermID ev]> (ns_permIDs s))
    by (unfold s2, s1; destruct c; cbn; [destruct (ns_reported s !! b_OrderID ev)|]; done).
  assert (Hrep : forall id, ns_reported s2 !! id = ns_reported s !! id \/
    c = true /\ id = b_OrderID ev /\ exists r, ns_reported s2 !! id = Some r /\ ro_Conflicted r = true /\ is_Some (ns_reported s !! id)).
  { intros id. unfold s2, s1. destruct c; [|by left]. cbn. destruct (ns_reported s !! b_OrderID ev) as [r|] eqn:Hr; [|by left]. cbn.
    destruct (decide (id = b_OrderID ev)) as [->|Hne]; [right | left; by rewrite lookup_insert_ne].
    split_and!; auto. rewrite lookup_insert_eq. eexists. split_and!; eauto. }
  split.
  - rewrite Hperm. eapply (perm_observe _ _ ev c) in Pp; [|done|done]. destruct Pp as [P1 P2]. split.
    + intros id p x Hm Hp Hx Hid. apply (P1 id p x); auto. cbn in Hx. set_solver.
    + intros x Hx. apply P2. cbn in Hx. set_solver.
  - intros x Hx. destruct (Hrep (b_OrderID x)) as [-> | (_ & _ & r & -> & _)]; [by apply Pd | done].
  - intros id r Hr Hconf. destruct (Hrep id) as [Heq | (_ & _ & r' & Hr' & Hcf & _)]; [|congruence].
    rewrite Heq in Hr. destruct (Pv id r Hr Hconf) as (H1 & H2 & [H3 H4]). rewrite Hperm.
    split; [|split; [done | by split]].
    destruct (decide (id = b_OrderID ev)) as [->|Hne]; [|by rewrite lookup_insert_ne].
    rewrite lookup_insert_eq. destruct c.
    + exfalso. unfold s2, s1 in Heq. cbn in Heq. rewrite Hr in Heq. cbn in Heq. rewrite lookup_insert_eq in Heq.
      injection Heq as Heq. rewrite <- Heq in Hconf. discriminate Hconf.
    + destruct (Hc eq_refl) as [Hx|Hx]; congruence.
Qed.

Lemma status_inv cfg ev seen s h :
  reports_inv cfg s h -> ownStatus cfg ev = true ->
  reports_inv cfg (observeReportedOrderStatusAtEpoch cfg ev (ns_epoch s) seen s).1
    (if statusNamesPermID cfg ev then h <| h_statuses := ev :: h_statuses h |> else h).
Proof.
  intros Hinv Hown. unfold observeReportedOrderStatusAtEpoch. rewrite Hown, Z.eqb_refl. cbn [negb]. cbv zeta.
  set (s1 := if _ || _ then _ else s).
  assert (H1 : reports_inv cfg s1 h) by (eapply reports_same; eauto; unfold s1; destruct (_ || _); done).
  destruct (statusNamesPermID cfg ev) eqn:Hn; [|done].
  assert (Hpos : 0 < b_PermID ev) by (unfold statusNamesPermID in Hn; bool_hyps; lia).
  assert (H := status_perm_inv cfg ev s1 h H1 Hpos).
  destruct (observeOrderPermIDLocked _ _ s1) as [s2 c]. destruct c; [|done]. destruct (ns_reported s2 !! _); done.
Qed.

Lemma recover_reports cfg tokens all orders s :
  ns_reported (fold_left (recoverOne cfg tokens all) orders s) = ns_reported s /\
  ns_permIDs (fold_left (recoverOne cfg tokens all) orders s) = ns_permIDs s.
Proof.
  revert s. induction orders as [|ev l IH]; intros s; [done|]. cbn [fold_left].
  destruct (IH (recoverOne cfg tokens all s ev)) as [-> ->]. unfold recoverOne. by repeat case_match.
Qed.

(** The steps about ids and previews leave the reports alone. *)
Lemma reports_untouched cfg s op :
  match op with OpReset | OpReport _ _ | OpStatus _ _ _ => True
  | _ => ns_reported (idStep cfg s op).1 = ns_reported s /\ ns_permIDs (idStep cfg s op).1 = ns_permIDs s end.
Proof.
  destruct op as [[e|]|[e|]|id|id|e id|id e|id e| |id e|id owned e|id owned e change|ev e|ev e seen|id e|id e
                 |id e change placed|e tokens g orders|id|id]; try exact I; cbn [idStep].
  16: { unfold recoverModifyStatusFromSnapshot. destruct (_ || _); [done | apply recover_reports]. }
  all: unfold reserved_out, claimed_out, reserveNextOrderIDForEpoch, reserveNextOrderIDLocked,
    reserveNextRequestIDForEpoch, reserveNextRequestIDLocked, discardOrderIDReservation, discardRequestIDReservation,
    discardPnLReservation, observeNextValidOrderIDAtEpoch, observeNextValidOrderIDLocked, observeInboundOrderIDAtEpoch,
    advanceBrokerIDPastLocked, claimRequestID, claimRequestIDLocked, claimOrderID, claimOrderIDForForwarding,
    claimOrderIDLocked, passFrontier, refuse, beginModifyPreview, finishModifyPreview, rememberLocalPreviewIdentity,
    markWhatIfOrderID, clearWhatIfOrderID; cbv zeta; cbn [fst]; repeat (case_match; simplify_eq; cbn [fst] in *); done.
Qed.

Lemma step_reports_inv cfg s h op :
  reports_inv cfg s h -> reports_inv cfg (idStepH cfg (s, h) op).1 (idStepH cfg (s, h) op).2.
Proof.
  intros Hinv. unfold idStepH. destruct (idStep cfg s op) as [s' o] eqn:E. cbn [fst snd].
  assert (Hout : h_reports (noteOutcome o h) = h_reports h /\ h_statuses (noteOutcome o h) = h_statuses h)
    by (destruct o as [[]|[]| |]; done).
  assert (Hs : s' = (idStep cfg s op).1) by (by rewrite E).
  assert (Hun := reports_untouched cfg s op). rewrite <- Hs in Hun.
  destruct op as [e|e|id|id|e id|id e|id e| |id e|id owned e|id owned e change|ev e|ev e seen|id e|id e
                 |id e change placed|e tokens g orders|id|id];
    try (destruct Hun; eapply reports_same; [exact Hinv | done | done | apply Hout | apply Hout]); clear Hun; cbn in E.
  - injection E as <- <-. split; cbn; [split; set_solver | set_solver | set_solver].
  - injection E as <- <-. cbn [noteEvidence noteOutcome]. destruct (ownOrderReport cfg ev) eqn:Ho; cbn [andb].
    + destruct (ns_epoch s =? e) eqn:He; bool_hyps; [subst e; by apply report_inv|].
      unfold observeReportedOwnOrderAtEpoch. rewrite Ho. cbn [negb].
      by replace (ns_epoch s =? e) with false by (symmetry; by apply Z.eqb_neq).
    + unfold observeReportedOwnOrderAtEpoch. by rewrite Ho.
  - injection E as <- <-. cbn [noteEvidence noteOutcome]. destruct (ownStatus cfg ev) eqn:Ho; cbn [andb].
    + destruct (ns_epoch s =? e) eqn:He; bool_hyps.
      * subst e. rewrite andb_true_r. by apply status_inv.
      * rewrite andb_false_r. unfold observeReportedOrderStatusAtEpoch. rewrite Ho. cbn [negb].
        by replace (ns_epoch s =? e) with false by (symmetry; by apply Z.eqb_neq).
    + unfold observeReportedOrderStatusAtEpoch. by rewrite Ho.
Qed.

Lemma reports_inv_run cfg ops : reports_inv cfg (idRun cfg ops).1 (idRun cfg ops).2.
Proof.
  unfold idRun. assert (H0 : reports_inv cfg (newIdSpace, noHistory).1 (newIdSpace, noHistory).2).
  { split; cbn; [split; set_solver | set_solver | set_solver]. }
  generalize dependent (newIdSpace, noHistory). induction ops as [|op ops IH]; intros [s h] Hinv; [done|].
  cbn [fold_left]. apply IH. by apply step_reports_inv.
Qed.

(** Everything the broker said of order [id] on this socket names [ch]. *)
Record namedByBroker (cfg : idConfig) (h : idHistory) (id : Z) (ch : OrderChangeIdentity) : Prop := {
  nb_reported : exists ev, ev ∈ h_reports h /\ b_OrderID ev = id;
  nb_reports : forall ev, ev ∈ h_reports h -> b_OrderID ev = id ->
    b_PermID ev = oc_PermID ch /\ EqualFold (TrimSpace (b_Account ev)) (TrimSpace (oc_Account ch)) = true /\
    (TrimSpace (oc_OrderRef ch) = "" \/ TrimSpace (b_OrderRef ev) = TrimSpace (oc_OrderRef ch)) /\
    foreignAccount cfg ev = false;
  nb_statuses : forall ev, ev ∈ h_statuses h -> b_OrderID ev = id -> b_PermID ev = oc_PermID ch
}.

Lemma EqualFold_TrimSpace a b : EqualFold a b = true -> EqualFold (TrimSpace a) (TrimSpace b) = true.
Proof.
  assert (Hm : forall s, ToLower (TrimSpace s) = TrimSpace (ToLower s)).
  { intros s. unfold ToLower. symmetry. apply TrimSpace_map. intros [b0 b1 b2 b3 b4 b5 b6 b7].
    destruct b0, b1, b2, b3, b4, b5, b6, b7; reflexivity. }
  unfold EqualFold. rewrite !Hm, !String.eqb_eq. by intros ->.
Qed.

Lemma matching_report_names cfg s h id r ch :
  reports_inv cfg s h -> ns_reported s !! id = Some r -> reportMatches r (Some ch) = true -> namedByBroker cfg h id ch.
Proof.
  intros [Pp Pd Pv] Hr Hm. unfold reportMatches in Hm. destruct (_ || _) eqn:E in Hm; [done|]. bool_hyps.
  destruct (Pv id r Hr) as (Hmap & Hpos & [Hsome Hall]); [done|].
  assert (Hperm : ro_PermID r = oc_PermID ch) by lia. split; [done| |].
  - intros ev Hev Hid. destruct (Hall ev Hev Hid) as (A & B & C & D). split_and!; auto; [congruence | |].
    + apply EqualFold_TrimSpace in B. rewrite TrimSpace_idem in B. by eapply EqualFold_trans.
    + apply orb_true_iff in Hm as [Hm|Hm]; bool_hyps; [by left | right]. rewrite <- Hm, <- C. by rewrite TrimSpace_idem.
  - intros ev Hev Hid. rewrite <- Hperm. apply (pe_one _ _ Pp id); auto. lia.
Qed.

(** A change claims the order the broker reported.  On any history of one
    connection, when an id this process did not place is claimed to change an
    order, or the last check before the wire lets such a change pass, then on
    this very socket the broker reported that id as an open order of this client,
    and every report and every status it sent of the id names the permanent id,
    the account and (when the caller names one) the reference of the order to be
    changed; two reports that disagree, in any order, bar the id until the next
    reconnect.  Such a claim never counts as a new order. *)
Theorem change_claims_the_reported_order cfg ops id ch :
  let s := (idRun cfg ops).1 in
  let named := namedByBroker cfg (idRun cfg ops).2 id ch in
  (forall expected s' r, claimOrderIDForForwarding id false expected (Some ch) s = (s', Ok r) -> named /\ r.2 = false) /\
  (forall next, orderChangeWireGuard id (ns_epoch s) (Some ch) false next s = Ok tt -> named /\ next = Ok tt).
Proof.
  assert (Hinv := reports_inv_run cfg ops). destruct (idRun cfg ops) as [s h]. cbn [fst snd] in *. split.
  - intros expected s' r H. unfold claimOrderIDForForwarding, refuse in H. destruct (negb (in_namespace id)); [done|].
    destruct (claimOrderIDLocked id false expected (Some ch) s) as [s1 [[e f]|]] eqn:E; [|done]. injection H as <- <-.
    apply claim_order_ok in E as (_ & Hrep & _ & Hf). specialize (Hrep eq_refl eq_refl). split.
    + unfold reportedFor in Hrep. destruct (ns_reported s !! id) as [r|] eqn:Hr; [|done]. by eapply matching_report_names.
    + cbn. destruct f; [|done]. by destruct (Hf eq_refl).
  - intros next H. unfold orderChangeWireGuard, reportedOwnOrderAtEpoch in H. rewrite Z.eqb_refl in H.
    destruct (modifyStatusIsUncertain _ _ _); [done|]. destruct (ns_reported s !! id) as [rep|] eqn:Hrep; [|done].
    cbn [present] in H. destruct (reportMatches rep (Some ch)) eqn:Hm; [|done]. split; [by eapply matching_report_names | done].
Qed.

(** ** Worked examples *)

Definition ids_cfg : idConfig := mkIdConfig 3 "DU1".
Definition own_report : OrderLifecycleEvent :=
  zero_OrderLifecycleEvent <| b_Type := OrderLifecycleEventOpenOrder |> <| b_OrderID := 5 |> <| b_PermID := 900 |>
    <| b_ClientID := 3 |> <| b_ClientIDPresent := true |> <| b_Account := "DU1" |> <| b_OrderRef := "ref" |>.

(** A socket that reported order 5 and is at id 10. *)
Definition ids_ops : list idOp := [OpReset; OpNextValid 10 1; OpInbound 5 1; OpReport own_report 1; OpReserveOrder (Some 1)].

Lemma broker_ids_never_reused_witness :
  exists s', idStep ids_cfg (idRun ids_cfg ids_ops).1 (OpReserveRequest None) = (s', Reserved false 11) /\
    11 ∉ usedIds (idRun ids_cfg ids_ops).2.
Proof.
  destruct (idStep ids_cfg (idRun ids_cfg ids_ops).1 (OpReserveRequest None)) as [s' o] eqn:E.
  assert (Ho : o = Reserved false 11) by (change o with (s', o).2; rewrite <- E; vm_compute; reflexivity).
  exists s'. split; [by rewrite Ho|].
  assert (H := broker_ids_never_reused ids_cfg ids_ops (OpReserveRequest None) s' o E). rewrite Ho in H. exact (proj2 H).
Defined.

Lemma change_claims_the_reported_order_witness :
  namedByBroker ids_cfg (idRun ids_cfg ids_ops).2 5 (mkChange 900 "du1" "ref") /\
  (claimOrderIDForForwarding 5 false (Some 1) (Some (mkChange 901 "DU1" "ref")) (idRun ids_cfg ids_ops).1).2 =
    Err "the order to change is neither this process's nor reported by the broker".
Proof.
  split; [|vm_compute; reflexivity].
  destruct (change_claims_the_reported_order ids_cfg ids_ops 5 (mkChange 900 "du1" "ref")) as [H _].
  destruct (claimOrderIDForForwarding 5 false (Some 1) (Some (mkChange 900 "du1" "ref")) (idRun ids_cfg ids_ops).1)
    as [s' [r|e]] eqn:E; [exact (proj1 (H _ _ _ E)) |].
  assert (Hok : (claimOrderIDForForwarding 5 false (Some 1) (Some (mkChange 900 "du1" "ref")) (idRun ids_cfg ids_ops).1).2
                = Ok (1, false)) by (vm_compute; reflexivity).
  rewrite E in Hok. discriminate Hok.
Defined.
