(* ===== verification/Submit.v ===== *)
(** * Submitting an order through the connector

    src/pkg/ibkr/connector.go (submitOrderForSession, rawIBKROrder and the
    reservation of order ids), connection.go (placeOrder and the cancel),
    order_whatif.go (preparePlaceOrder, sendPlaceOrderFrameGuarded) and
    orders.go (ValidateOrder): an order the daemon hands over is claimed in the
    id namespace, indexed for the broker's callbacks, encoded and sent through
    the transport.  The pieces are the models of BrokerIds, PlaceOrderProto and
    Transport, composed the way the code composes them; what other goroutines do
    to the id namespace meanwhile is an input.  Proved: what an order sent
    without error put on the wire, and what the connector remembers of an order
    by what is known of its bytes. *)

From stdpp Require Import base decidable list strings gmap.
From Stdlib Require Import ZArith Lia Ascii String.
From S2P Require Import Prelude OrderTypes OrderStatus WireCodec SendDisposition RateLimiter Transport.
From S2P Require Import ProtoWire PlaceOrderProto BrokerScope OrderViews WriteGate BrokerIds.

(** ** The order handed over *)

Record Contract := mkContract {
  ct_ConID : Z; ct_Symbol : string; ct_SecType : string; ct_Expiry : string; ct_Strike : float64; ct_Right : string;
  ct_Multiplier : Z; ct_Exchange : string; ct_PrimaryExch : string; ct_Currency : string; ct_LocalSymbol : string;
  ct_TradingClass : string; ct_ComboLegs : list ComboLeg; ct_BondRules : option BondOrderRules
}.

Record RawOrder := mkRawOrder {
  rw_ParentID : Z; rw_AdaptivePriority : string; rw_OrderID : Z; rw_ClientID : Z; rw_PermID : Z; rw_Action : string;
  rw_TotalQty : Z; rw_OrderType : string; rw_LmtPrice : float64; rw_LmtPriceSet : bool; rw_AuxPrice : float64;
  rw_TrailStopPrice : float64; rw_TrailingPercent : float64; rw_LmtPriceOffset : float64; rw_TIF : string;
  rw_TriggerMethod : Z; rw_Account : string; rw_OrderRef : string; rw_OutsideRth : bool; rw_OpenClose : string;
  rw_OcaGroup : string; rw_OcaType : Z; rw_Changes : option OrderChangeIdentity
}.

(** multiplierToString *)
Definition multiplierToString (mult : Z) : string := if mult <=? 0 then "" else Itoa mult.

(** rawIBKROrder; a field the source does not set has its zero value. *)
Definition rawIBKROrder (c : Contract) (o : RawOrder) : IBKROrder :=
  let openClose := ToUpper (TrimSpace (rw_OpenClose o)) in
  {| io_AdaptivePriority := rw_AdaptivePriority o; io_OrderID := rw_OrderID o; io_ClientID := rw_ClientID o;
     io_PermID := rw_PermID o; io_Account := rw_Account o; io_Symbol := ct_Symbol c; io_SecType := ct_SecType c;
     io_ConID := ct_ConID c; io_Exchange := ct_Exchange c; io_Currency := ct_Currency c; io_Expiry := ct_Expiry c;
     io_Strike := ct_Strike c; io_Right := ct_Right c; io_Multiplier := multiplierToString (ct_Multiplier c);
     io_PrimaryExch := ct_PrimaryExch c; io_LocalSymbol := ct_LocalSymbol c; io_TradingClass := ct_TradingClass c;
     io_SecIDType := ""; io_SecID := ""; io_BondRules := ct_BondRules c; io_Action := rw_Action o;
     io_TotalQty := rw_TotalQty o; io_OrderType := rw_OrderType o; io_LmtPrice := rw_LmtPrice o;
     io_LmtPriceSet := rw_LmtPriceSet o || EqualFold (rw_OrderType o) "LMT"; io_AuxPrice := rw_AuxPrice o;
     io_ComboLegs := ct_ComboLegs c; io_TIF := rw_TIF o; io_OcaGroup := TrimSpace (rw_OcaGroup o);
     io_OcaType := rw_OcaType o; io_OrderRef := rw_OrderRef o; io_Transmit := true; io_WhatIf := false;
     io_OpenClose := if openClose =s "" then "O" else openClose; io_Origin := 0; io_ParentID := rw_ParentID o;
     io_BlockOrder := false; io_SweepToFill := false; io_DisplaySize := 0; io_TriggerMethod := rw_TriggerMethod o;
     io_OutsideRth := rw_OutsideRth o; io_Hidden := false; io_GoodAfterTime := ""; io_GoodTillDate := "";
     io_Rule80A := ""; io_SettlingFirm := ""; io_AllOrNone := false; io_MinQty := 0; io_PercentOffset := f0;
     io_ETradeOnly := false; io_FirmQuoteOnly := false; io_NbboPriceCap := f0; io_AuctionStrategy := 0;
     io_StartingPrice := f0; io_StockRefPrice := f0; io_Delta := f0; io_StockRangeLower := f0;
     io_StockRangeUpper := f0; io_OverridePercentageConstraints := false; io_Volatility := f0;
     io_VolatilityType := 0; io_DeltaNeutralOrderType := ""; io_DeltaNeutralAuxPrice := f0;
     io_DeltaNeutralConID := 0; io_DeltaNeutralSettlingFirm := ""; io_DeltaNeutralClearingAccount := "";
     io_DeltaNeutralClearingIntent := ""; io_DeltaNeutralOpenClose := ""; io_DeltaNeutralShortSale := false;
     io_DeltaNeutralShortSaleSlot := 0; io_DeltaNeutralDesignatedLocation := ""; io_ContinuousUpdate := 0;
     io_ReferencePriceType := 0; io_TrailStopPrice := rw_TrailStopPrice o;
     io_TrailingPercent := rw_TrailingPercent o; io_LmtPriceOffset := rw_LmtPriceOffset o; io_BasisPoints := f0;
     io_BasisPointsType := 0; io_ScaleInitLevelSize := 0; io_ScaleSubsLevelSize := 0; io_ScalePriceIncrement := f0;
     io_ScalePriceAdjustValue := f0; io_ScalePriceAdjustInterval := 0; io_ScaleProfitOffset := f0;
     io_ScaleAutoReset := false; io_ScaleInitPosition := 0; io_ScaleInitFillQty := 0;
     io_ScaleRandomPercent := false; io_HedgeType := ""; io_HedgeParam := ""; io_OptOutSmartRouting := false;
     io_ClearingAccount := ""; io_ClearingIntent := ""; io_NotHeld := false; io_ModelCode := "";
     io_ShortSaleSlot := 0; io_DesignatedLocation := ""; io_ExemptCode := 0; io_DiscretionaryAmt := f0;
     io_FaGroup := ""; io_FaMethod := ""; io_FaPercentage := ""; io_FaProfile := "" |}.

(** ** ValidateOrder: the order with its time in force defaulted. *)

Definition validateTrail (o : IBKROrder) : pres unit :=
  if negb (one_of (io_OrderType o) ["TRAIL"; "TRAIL LIMIT"]) then Ok tt
  else if io_TrailStopPrice o <=f f0 then perr ["trail stop price required for trailing stop orders"]
  else if Bool.eqb (io_AuxPrice o >f f0) (io_TrailingPercent o >f f0)
  then perr ["trailing stop orders require exactly one of aux price or trailing percent"]
  else if (io_OrderType o =s "TRAIL LIMIT") && (io_LmtPriceOffset o <=f f0)
  then perr ["limit price offset required for trailing stop limit orders"]
  else if (io_OrderType o =s "TRAIL") && (io_LmtPriceOffset o <>f f0)
  then perr ["limit price offset is only supported for trailing stop limit orders"]
  else if io_LmtPrice o <>f f0
  then perr ["limit price must not be set on trailing stop orders; use limit price offset for TRAIL LIMIT"]
  else Ok tt.

Definition ValidateOrder (o : IBKROrder) : pres IBKROrder :=
  let? _ := validateAdaptiveOrder o in
  if (io_Symbol o =s "") && negb (IsBillOrBond (io_SecType o) && (0 <? io_ConID o)) then perr ["symbol is required"]
  else if io_TotalQty o <=? 0 then perr ["quantity must be positive"]
  else if negb (one_of (io_Action o) ["BUY"; "SELL"]) then perr ["action must be BUY or SELL"]
  else if io_OrderType o =s "" then perr ["order type is required"]
  else
    let? _ := if IsBillOrBond (io_SecType o) then validateBondOrder o else Ok tt in
    let? _ := if io_OrderType o =s "LMT" then
                if EqualFold (io_SecType o) "BAG" then
                  if negb (io_LmtPriceSet o) || IsNaN (io_LmtPrice o) || IsInf (io_LmtPrice o)
                  then perr ["finite explicit limit price required for combo limit orders"] else Ok tt
                else if io_LmtPrice o <=f f0 then perr ["limit price required for limit orders"] else Ok tt
              else Ok tt in
    if one_of (io_OrderType o) ["STP"; "STP LMT"] && (io_AuxPrice o <=f f0)
    then perr ["stop price required for stop orders"]
    else
      let? _ := validateTrail o in
      Ok (if io_TIF o =s "" then o <| io_TIF := "DAY" |> else o).

(** isASCIIPrintable, ensureASCII *)
Definition isASCIIPrintable (s : string) : bool :=
  all_chars (fun c => let v := byte_val c in (v =? 9) || (v =? 10) || (v =? 13) || ((32 <=? v) && (v <=? 126))) s.
Fixpoint ensureASCII (fields : list (string * string)) : pres unit :=
  match fields with
  | [] => Ok tt
  | (name, value) :: rest =>
      if isASCIIPrintable value then ensureASCII rest else perr [name; " contains non-ASCII characters"]
  end.
Definition asciiFields (o : IBKROrder) : list (string * string) :=
  [("symbol", io_Symbol o); ("secType", io_SecType o); ("exchange", io_Exchange o); ("currency", io_Currency o);
   ("primary exchange", io_PrimaryExch o); ("local symbol", io_LocalSymbol o); ("trading class", io_TradingClass o);
   ("account", io_Account o); ("orderRef", io_OrderRef o); ("tif", io_TIF o); ("action", io_Action o)].

(** ** The connection's side *)

(** What a connection holds for orders: ids, transport, the orders it sent. *)
Record brokerConn := mkBrokerConn { bc_ids : idSpace; bc_wire : conn; bc_openOrders : gset Z }.
#[global] Instance brokerConn_eta : Eta brokerConn := fun c => mkBrokerConn (bc_ids c) (bc_wire c) (bc_openOrders c).

(** What one send meets outside: cancellations, the connection's own state,
    the account it knows, what others do to the id namespace before the claim of
    preparePlaceOrder and before the wire guard runs, and the transport's run. *)
Record placeEnv := mkPlaceEnv {
  px_ctx : bool; px_gate : option string; px_connected : bool; px_serverVersion : Z; px_outbound : Z;
  px_account : string; px_cfg : idConfig; px_before : list idOp; px_queued : list idOp;
  px_limiter : submitEnv; px_events : list (event dispatchEnv); px_legacy : bytes
}.

(** orderIDOwned *)
Definition orderIDOwned (id : Z) (c : brokerConn) : bool :=
  (0 <? id) && (bool_decide (id ∈ bc_openOrders c) || IsWhatIfOrderID id (bc_ids c)).

Definition idsAfter (cfg : idConfig) (ops : list idOp) (s : idSpace) : idSpace :=
  fold_left (fun s op => (idStep cfg s op).1) ops s.

(** preparePlaceOrder: the connection, and the prepared order with its epoch. *)
Definition preparePlaceOrder (env : placeEnv) (expected : option Z) (o : IBKROrder) (c : brokerConn)
    : brokerConn * pres (IBKROrder * Z) :=
  match (let? o := ValidateOrder o in let? _ := ensureASCII (asciiFields o) in Ok o) with
  | Err e => (c, Err e)
  | Ok o =>
      let '(ids, reserved) :=
        if io_OrderID o =? 0 then
          match reserveNextOrderIDLocked (bc_ids c) with
          | (ids, Ok id) => (ids, Ok (o <| io_OrderID := id |>, Some (ns_epoch (bc_ids c))))
          | (ids, Err e) => (ids, Err e)
          end
        else (bc_ids c, Ok (o, expected)) in
      let c := c <| bc_ids := ids |> in
      match reserved with
      | Err e => (c, Err e)
      | Ok (o, claimEpoch) =>
          match claimOrderID (io_OrderID o) (orderIDOwned (io_OrderID o) c) claimEpoch (bc_ids c) with
          | (ids, Err e) => (c <| bc_ids := ids |>, Err e)
          | (ids, Ok (epoch, _)) =>
              let o := if io_ClientID o =? 0 then o <| io_ClientID := ic_ClientID (px_cfg env) |> else o in
              let o := if io_Account o =s "" then o <| io_Account := px_account env |> else o in
              let o := if io_Account o =s "" then o <| io_Account := ic_Account (px_cfg env) |> else o in
              let o := if io_OpenClose o =s "" then o <| io_OpenClose := "O" |> else o in
              (c <| bc_ids := ids |>, Ok (o, epoch))
          end
      end
  end.

(** The dispatch reads the allocator's epoch and readiness, and the guard. *)
Definition bindEnv (ids : idSpace) (g : option sendErr) (env : dispatchEnv) : dispatchEnv :=
  mkDispatchEnv (de_ctx1 env) (de_ctx2 env) (de_ctx3 env) (de_ctx4 env) (de_handshake env) (de_ended env)
    (ns_epoch ids) (ns_haveNextValidID ids) (de_outbound1 env) (de_outbound2 env) g.
Definition bindEvent (ids : idSpace) (g : option sendErr) (ev : event dispatchEnv) : event dispatchEnv :=
  match ev with EvSendDone env => EvSendDone (bindEnv ids g env) | ev => ev end.

(** The arguments of an instruction's send. *)
Definition instructionArgs (env : placeEnv) (msg : bytes) (epoch : Z) (guarded : bool) : sendArgs :=
  mkSendArgs msg [] RequestTypeOrder epoch true guarded 0 (px_serverVersion env) (px_outbound env) (px_connected env).

(** sendMessageWithTypeContextForEpochGuarded, up to the caller's answer; [None]
    while the caller still waits.  [g] is what the guard answers when asked. *)
Definition sendInstruction (env : placeEnv) (msg : bytes) (epoch : Z) (guarded : bool) (g : option sendErr)
    (c : brokerConn) : option (brokerConn * option sendErr) :=
  match sendBoundFrames (instructionArgs env msg epoch guarded) (px_limiter env)
          (map (bindEvent (bc_ids c) g) (px_events env)) (bc_wire c) with
  | Some (Some err, w) => Some (c <| bc_wire := w |>, err)
  | _ => None
  end.

(** sendPlaceOrderFrameGuarded; below the protobuf protocol the frame is the
    legacy encoder's, an input. *)
Definition sendPlaceOrderFrameGuarded (env : placeEnv) (o : IBKROrder) (epoch : Z) (guarded : bool)
    (g : option sendErr) (c : brokerConn) : option (brokerConn * option sendErr) :=
  let unsent text := Some (c, definitelyUnsent (Some (plainErr text))) in
  if minServerVerProtoBufPlaceOrder <=? px_serverVersion env then
    match encodePlaceOrderProtoFrame o with
    | Err e => unsent e
    | Ok msg => sendInstruction env msg epoch guarded g c
    end
  else if io_AdaptivePriority o <>s "" then unsent "this broker protocol does not support Adaptive; no order sent"
  else if io_LmtPriceOffset o <>f f0 then unsent "legacy placeOrder encoder does not support lmtPriceOffset"
  else sendInstruction env (px_legacy env) epoch guarded g c.

(** Connection.placeOrder: the connection, the order as sent, and the error.
    [guard] answers from the id namespace at the moment of the write. *)
Definition connPlaceOrder (env : placeEnv) (expected : option Z) (guard : option (idSpace -> option sendErr))
    (o : IBKROrder) (c : brokerConn) : option (brokerConn * IBKROrder * option sendErr) :=
  let unsent e := Some (c, o, definitelyUnsent (Some e)) in
  if px_ctx env then unsent errCanceled
  else if negb (px_connected env) then unsent (plainErr "not connected to IBKR")
  else if (0 <? px_serverVersion env) && (px_serverVersion env <? minServerVerProtoBufPlaceOrder)
  then unsent (plainErr "server version is too old for placeOrder v45+ encoding; upgrade TWS/IB Gateway")
  else
    let c := c <| bc_ids := idsAfter (px_cfg env) (px_before env) (bc_ids c) |> in
    match preparePlaceOrder env expected o c with
    | (c, Err e) => Some (c, o, definitelyUnsent (Some (plainErr e)))
    | (c, Ok (o, epoch)) =>
        let o := o <| io_Transmit := true |> <| io_WhatIf := false |> in
        let ids := idsAfter (px_cfg env) (px_queued env) (clearWhatIfOrderID (io_OrderID o) (bc_ids c)) in
        let c := c <| bc_ids := ids |> in
        match sendPlaceOrderFrameGuarded env o epoch (present guard)
                (match guard with Some gd => gd ids | None => None end) c with
        | Some (c, None) => Some (c <| bc_openOrders := {[io_OrderID o]} ∪ bc_openOrders c |>, o, None)
        | Some (c, Some e) => Some (c, o, Some e)
        | None => None
        end
    end.

(** placeOrderForEpochGuarded and placePaperOrderForEpochGuarded: [px_gate] is the
    refusal of the build (trading disabled) or of the paper gate. *)
Definition placeOrderForEpochGuarded (env : placeEnv) (epoch : Z) (guard : option (idSpace -> option sendErr))
    (o : IBKROrder) (c : brokerConn) : option (brokerConn * IBKROrder * option sendErr) :=
  match px_gate env with
  | Some e => Some (c, o, definitelyUnsent (Some (plainErr e)))
  | None => connPlaceOrder env (Some epoch) guard o c
  end.

(** cancelOrderForEpochGuarded *)
Definition cancelOrderForEpochGuarded (env : placeEnv) (orderID epoch : Z) (guard : option (idSpace -> option sendErr))
    (c : brokerConn) : option (brokerConn * option sendErr) :=
  let unsent e := Some (c, definitelyUnsent (Some e)) in
  if px_ctx env then unsent errCanceled
  else if negb (px_connected env) then unsent (plainErr "not connected to IBKR")
  else
    match encodeCancelOrderMessage (px_serverVersion env) orderID with
    | Err e => unsent (plainErr e)
    | Ok msg =>
        let ids := idsAfter (px_cfg env) (px_queued env) (bc_ids c) in
        let c := c <| bc_ids := ids |> in
        sendInstruction env msg epoch (present guard) (match guard with Some gd => gd ids | None => None end) c
    end.

(** ** The connector's side *)

(** trackedOrder, less its times and fill state. *)
Record trackedOrder := mkTracked {
  tk_ID : string; tk_BrokerID : string; tk_Symbol : string; tk_Side : string; tk_Quantity : float64;
  tk_OrderType : string; tk_LimitPrice : float64; tk_StopPrice : float64; tk_TimeInForce : string;
  tk_AllowOutsideRth : bool
}.

(** The connector's order state and its connection. *)
Record connector := mkConnector {
  kt_conn : brokerConn; kt_openOrders : gmap string trackedOrder; kt_brokerOrderIndex : gmap string string;
  kt_placedOrderIDs : gset Z; kt_highWater : Z
}.
#[global] Instance connector_eta : Eta connector := fun k => mkConnector (kt_conn k) (kt_openOrders k)
  (kt_brokerOrderIndex k) (kt_placedOrderIDs k) (kt_highWater k).

(** What a submission meets: whether the binding is current, the backend link,
    the ids of active historical requests, and the send. *)
Record submitInput := mkSubmitInput {
  si_ctx : bool; si_epoch : Z; si_current : bool; si_backendDown : bool; si_feeRequests : gset Z; si_place : placeEnv
}.

(** mapIBOrderType, mapIBTimeInForce: the connector's names of broker codes. *)
Definition mapIBOrderType (orderType : string) : string :=
  let t := ToUpper orderType in
  if t =s "MKT" then "MARKET" else if t =s "LMT" then "LIMIT" else if t =s "STP" then "STOP"
  else if one_of t ["STP LMT"; "STPLMT"] then "STOP_LIMIT"
  else if one_of t ["PEG MID"; "PEGMID"; "PEGMIDPT"] then "PEG_MID" else t.
Definition mapIBTimeInForce (tif : string) : string := ToUpper tif.

(** nextDisjointOrderIDLockedForSession: an id no active read request owns.  Every
    round reserves a new id, so one more round than owned ids is enough. *)
Fixpoint nextDisjointLoop (fee : gset Z) (epoch : Z) (fuel : nat) (s : idSpace) : option (idSpace * idres (Z * Z)) :=
  match fuel with
  | O => None
  | S fuel =>
      match reserveNextOrderIDForEpoch epoch s with
      | (s', Err e) => Some (s', Err e)
      | (s', Ok id) =>
          if negb ((0 <? id) && bool_decide (id ∈ fee)) then Some (s', Ok (id, ns_epoch s))
          else nextDisjointLoop fee epoch fuel (discardOrderIDReservation id s')
      end
  end.
Definition nextDisjointOrderID (fee : gset Z) (epoch : Z) (s : idSpace) : option (idSpace * idres (Z * Z)) :=
  nextDisjointLoop fee epoch (S (size fee)) s.

(** ReserveOrderIDForSession *)
Definition ReserveOrderIDForSession (tradingEnabled current : bool) (fee : gset Z) (epoch : Z) (k : connector)
    : option (connector * idres Z) :=
  if negb tradingEnabled then Some (k, Err "trading is disabled in this build")
  else if negb current then Some (k, Err "broker session binding is not current for this Connector")
  else
    match nextDisjointOrderID fee epoch (bc_ids (kt_conn k)) with
    | None => None
    | Some (ids, r) =>
        let k := k <| kt_conn ::= (fun c => c <| bc_ids := ids |>) |> in
        match r with
        | Err e => Some (k, Err e)
        | Ok (id, _) => Some (k <| kt_highWater := Z.max (kt_highWater k) id |>, Ok id)
        end
    end.

(** PlacedOrderID *)
Definition PlacedOrderID (id : Z) (k : connector) : bool := (0 <? id) && bool_decide (id ∈ kt_placedOrderIDs k).

(** The claim of submitOrderForSession: the order with its id, the epoch,
    whether it counts as new, and the guard to carry. *)
Record claimed := mkClaimed {
  cm_order : IBKROrder; cm_epoch : Z; cm_new : bool; cm_guard : option (idSpace -> option sendErr)
}.

Definition guardErr (r : idres unit) : option sendErr := match r with Ok _ => None | Err e => Some (plainErr e) end.

(** orderChangeWireGuard over the caller's guard. *)
Definition changeGuard (id epoch : Z) (change : option OrderChangeIdentity) (owned : bool)
    (next : option (idSpace -> option sendErr)) : idSpace -> option sendErr :=
  fun ids =>
    match orderChangeWireGuard id epoch change owned (Ok tt) ids with
    | Err e => Some (plainErr e)
    | Ok _ => match next with Some gd => gd ids | None => None end
    end.

Definition claimForSubmit (i : submitInput) (raw : RawOrder) (guard : option (idSpace -> option sendErr))
    (o : IBKROrder) (k : connector) : option (idSpace * (claimed + string)) :=
  let ids := bc_ids (kt_conn k) in
  if io_OrderID o <=? 0 then
    match nextDisjointOrderID (si_feeRequests i) (si_epoch i) ids with
    | None => None
    | Some (ids, Err e) => Some (ids, inr e)
    | Some (ids, Ok (id, epoch)) => Some (ids, inl (mkClaimed (o <| io_OrderID := id |>) epoch true guard))
    end
  else if bool_decide (io_OrderID o ∈ si_feeRequests i)
  then Some (ids, inr "explicit order ID is owned by an active read-only request")
  else
    let owned := PlacedOrderID (io_OrderID o) k in
    let guard := changeGuard (io_OrderID o) (si_epoch i) (rw_Changes raw) owned guard in
    match claimOrderIDForForwarding (io_OrderID o) owned (Some (si_epoch i)) (rw_Changes raw) ids with
    | (ids, Err e) => Some (ids, inr e)
    | (ids, Ok (epoch, fresh)) => Some (ids, inl (mkClaimed o epoch fresh (Some guard)))
    end.

Definition trackedFor (c : Contract) (raw : RawOrder) (localID brokerID : string) : trackedOrder :=
  mkTracked localID brokerID (ct_Symbol c) (rw_Action raw) (f_of_Z (rw_TotalQty raw)) (mapIBOrderType (rw_OrderType raw))
    (rw_LmtPrice raw) (if rw_TrailStopPrice raw <>f f0 then rw_TrailStopPrice raw else rw_AuxPrice raw)
    (mapIBTimeInForce (rw_TIF raw)) (rw_OutsideRth raw).

(** Put back what a key held before. *)
Definition restore {A} (key : string) (previous : option A) (m : gmap string A) : gmap string A :=
  match previous with Some v => <[key := v]> m | None => delete key m end.

(** The order indexed before the send, so that fast callbacks find it. *)
Definition indexOrder (contract : Contract) (raw : RawOrder) (ids : idSpace) (id : Z) (localID : string) (k : connector)
    : connector :=
  k <| kt_conn ::= (fun c => c <| bc_ids := ids |>) |>
    <| kt_highWater := Z.max (kt_highWater k) id |>
    <| kt_openOrders := <[localID := trackedFor contract raw localID (Itoa id)]> (kt_openOrders k) |>
    <| kt_brokerOrderIndex := <[Itoa id := localID]> (kt_brokerOrderIndex k) |>.

(** After the send: the deferred discard of the reservation, the placed ids,
    and the roll-back of the index when the order is definitely unsent.  [k0] is
    the connector before the indexing. *)
Definition settleOrder (k0 : connector) (id : Z) (localID : string) (newOrder : bool) (c : brokerConn)
    (err : option sendErr) (k : connector) : connector :=
  let k := k <| kt_conn := c <| bc_ids := discardOrderIDReservation id (bc_ids c) |> |> in
  let k := if newOrder && negb (provesUnsent err)
           then k <| kt_placedOrderIDs := {[id]} ∪ kt_placedOrderIDs k |> else k in
  if present err && provesUnsent err
  then k <| kt_openOrders := restore localID (kt_openOrders k0 !! localID) (kt_openOrders k) |>
         <| kt_brokerOrderIndex := restore (Itoa id) (kt_brokerOrderIndex k0 !! Itoa id) (kt_brokerOrderIndex k) |>
  else k.

(** The key of an order in the connector's table: its reference, or its id. *)
Definition localIDOf (raw : RawOrder) (id : Z) : string :=
  if TrimSpace (rw_OrderRef raw) =s "" then Itoa id else TrimSpace (rw_OrderRef raw).

(** submitOrderForSession: the connector and the error; [None] while it waits.
    The order's id is positive once claimed, so the send cannot renumber it. *)
Definition submitOrderForSession (i : submitInput) (contract : Contract) (raw : RawOrder)
    (guard : option (idSpace -> option sendErr)) (k : connector) : option (connector * option sendErr) :=
  let unsent text := Some (k, definitelyUnsent (Some (plainErr text))) in
  if si_ctx i then Some (k, definitelyUnsent (Some errCanceled))
  else if negb (si_current i) then unsent "broker session binding is not current for this Connector"
  else if si_backendDown i
  then unsent "TWS reported IBKR backend connectivity lost; refusing to transmit a broker order into a dead link"
  else
    match claimForSubmit i raw guard (rawIBKROrder contract raw) k with
    | None => None
    | Some (ids, inr e) =>
        Some (k <| kt_conn ::= (fun c => c <| bc_ids := ids |>) |>, definitelyUnsent (Some (plainErr e)))
    | Some (ids, inl cl) =>
        let id := io_OrderID (cm_order cl) in
        let localID := localIDOf raw id in
        let k1 := indexOrder contract raw ids id localID k in
        match placeOrderForEpochGuarded (si_place i) (cm_epoch cl) (cm_guard cl) (cm_order cl) (kt_conn k1) with
        | None => None
        | Some (c, _, err) =>
            Some (settleOrder k id localID (cm_new cl) c err k1,
                  match err with Some e => Some (wrapErr "failed to place order" e) | None => None end)
        end
    end.

(** ** What an instruction's send does to the writer *)

(** From writer [w] to [w'], for the message [msg] that [enc] produced. *)
Record sendEffect (enc : pres bytes) (guard : option (idSpace -> option sendErr)) (err : option sendErr) (w w' : bufw)
    : Prop := {
  ef_bytes : content w' = content w \/
    exists frame n, enc = Ok frame /\ content w' = content w ++ take n (framed frame);
  ef_wire : bw_wire w `prefix_of` bw_wire w';
  ef_done : err = None -> exists frame, enc = Ok frame /\ bw_wire w' = content w ++ framed frame /\ bw_buf w' = [];
  ef_unsent : provesUnsent err = true -> bw_wire w' = bw_wire w;
  ef_guard : forall gd, guard = Some gd -> bw_wire w' <> bw_wire w -> exists ids, gd ids = None
}.

Lemma sendEffect_none enc guard e w : sendEffect enc guard (Some e) w w.
Proof. split; try done; by left. Qed.

Lemma unsent_some e : exists e', definitelyUnsent (Some e) = Some e'.
Proof. unfold definitelyUnsent, WithSendDisposition. destruct (present _); eauto. Qed.

Lemma messageID_be32 sv id body :
  100 <= sv -> 0 <= id < 4294967296 -> determineMessageID sv (be32 id ++ body) = id.
Proof.
  intros Hs Hid. unfold determineMessageID. rewrite match_nonempty by done.
  replace (100 <=? sv) with true by (symmetry; by apply Z.leb_le).
  change (4 <=? List.length (be32 id ++ body))%nat with true. cbn [andb].
  change (take 4 (be32 id ++ body)) with (be32 id). rewrite be32_roundtrip, Z.mod_small; done.
Qed.

(** An instruction that is not a market-data request is one frame. *)
Lemma instruction_frames env msg epoch guarded c e :
  determineMessageID (px_serverVersion env) msg <> reqMktData ->
  stream (framesOf (instructionArgs env msg epoch guarded) c e) = framed msg.
Proof.
  intros Hid. unfold framesOf, setsMode, repairMode, instructionArgs. cbn [sa_dataType sa_serverVersion sa_msg sa_additional].
  replace (determineMessageID (px_serverVersion env) msg =? reqMktData) with false by (symmetry; by apply Z.eqb_neq).
  rewrite andb_false_r. cbn [Z.eqb negb orb]. unfold stream. cbn [map List.concat]. apply List.app_nil_r.
Qed.

Lemma bound_guard ids g evs : g <> None -> Forall guardRefuses (map (bindEvent ids g) evs).
Proof.
  intros Hg. apply Forall_forall. intros ev Hev. apply list_elem_of_In, in_map_iff in Hev as (x & <- & _).
  by destruct x.
Qed.

Lemma instruction_effect env msg epoch guard ids c c' err w :
  determineMessageID (px_serverVersion env) msg <> reqMktData ->
  cn_writer (bc_wire c) = Some w -> bw_err w = None ->
  sendInstruction env msg epoch (present guard) (match guard with Some gd => gd ids | None => None end) c = Some (c', err) ->
  exists w', cn_writer (bc_wire c') = Some w' /\ sendEffect (Ok msg) guard err w w'.
Proof.
  intros Hid Hw He H. unfold sendInstruction in H. set (g := match guard with Some gd => _ | None => _ end) in H.
  set (a := instructionArgs env msg epoch (present guard)) in H.
  destruct (sendBoundFrames a _ _ (bc_wire c)) as [[[err0|] c1]|] eqn:Hs; [|done|done]. injection H as <- <-. cbn.
  assert (Hp : protectedSend a = true) by done.
  destruct (send_effect _ _ _ _ _ _ _ Hp Hw He Hs) as (ep & w1 & n & [Hw1 Hn Hc Hpre Hdone _]).
  unfold a in Hn, Hc, Hdone. rewrite instruction_frames in Hn, Hc, Hdone by done.
  exists w1. split; [done|]. split.
  - right. by exists msg, n.
  - done.
  - intros ->. destruct (Hdone eq_refl) as [-> Hb]. exists msg. split_and!; auto.
    rewrite firstn_all in Hc. unfold content in Hc at 1. by rewrite Hb, List.app_nil_r in Hc.
  - intros Hu. assert (H := unsent_wire _ _ _ _ _ _ _ Hp Hw He Hs Hu). unfold wireOf in H. by rewrite Hw1 in H.
  - intros gd -> Hne. exists ids. destruct (gd ids) eqn:Hg; [|done]. exfalso. apply Hne.
    assert (Hr := refused_send a _ _ _ _ _ eq_refl (bound_guard (bc_ids c) g _ ltac:(unfold g; first [done | by rewrite Hg])) Hs). congruence.
Qed.

(** ** From the connector to the wire *)

Lemma encoded_message_id o frame sv :
  encodePlaceOrderProtoFrame o = Ok frame -> minServerVerProtoBufPlaceOrder <= sv ->
  determineMessageID sv frame <> reqMktData.
Proof.
  intros He Hs. apply frame_parts in He as [_ ->]. unfold minServerVerProtoBufPlaceOrder in Hs.
  rewrite messageID_be32; [done | lia | done].
Qed.

(** Nothing of an order that is complete is filled in for it. *)
Record complete (o : IBKROrder) : Prop := {
  cp_id : io_OrderID o <> 0; cp_client : io_ClientID o <> 0; cp_account : io_Account o <> ""; cp_tif : io_TIF o <> "";
  cp_openClose : io_OpenClose o <> ""; cp_sent : o <| io_Transmit := true |> <| io_WhatIf := false |> = o
}.

Lemma neq_eqb a : a <> "" -> (a =s "") = false.
Proof. apply String.eqb_neq. Qed.

Lemma validate_keeps o o' : io_TIF o <> "" -> ValidateOrder o = Ok o' -> o' = o.
Proof.
  intros Ht. unfold ValidateOrder, perr. rewrite (neq_eqb _ Ht). intros H.
  destruct (validateAdaptiveOrder o); [|done]. cbn [rbind] in H.
  do 4 (destruct (_ : bool) in H; [done|]).
  destruct (if IsBillOrBond _ then _ else _); [|done]. cbn [rbind] in H.
  destruct (if io_OrderType o =s "LMT" then _ else _); [|done]. cbn [rbind] in H.
  destruct (_ && _); [done|]. destruct (validateTrail o); [|done]. cbn [rbind] in H. congruence.
Qed.

Lemma prepare_keeps env expected o c c' o' e :
  complete o -> preparePlaceOrder env expected o c = (c', Ok (o', e)) ->
  o' = o /\ bc_wire c' = bc_wire c /\ bc_openOrders c' = bc_openOrders c.
Proof.
  intros [Hid Hcl Hac Ht Ho _]. unfold preparePlaceOrder. destruct (ValidateOrder o) as [o1|] eqn:Hv; [|done].
  apply validate_keeps in Hv as ->; [|done]. cbn [rbind]. destruct (ensureASCII _); [|done]. cbn [rbind].
  apply Z.eqb_neq in Hid, Hcl. rewrite Hid. destruct (claimOrderID _ _ _ _) as [ids [[ep f]|]]; [|done].
  rewrite Hcl, (neq_eqb _ Hac), (neq_eqb _ Hac), (neq_eqb _ Ho). intros [= <- <- <-]. done.
Qed.

Lemma prepare_refused env expected o c c' e :
  preparePlaceOrder env expected o c = (c', Err e) -> bc_wire c' = bc_wire c /\ bc_openOrders c' = bc_openOrders c.
Proof.
  unfold preparePlaceOrder. destruct (let? o := ValidateOrder o in _) as [o1|]; [|by intros [= <- _]].
  destruct (if io_OrderID o1 =? 0 then _ else _) as [ids [[o2 cl]|]]; [|by intros [= <- _]].
  destruct (claimOrderID _ _ _ _) as [ids2 [[ep f]|]]; [done | by intros [= <- _]].
Qed.

Lemma conn_place_effect env expected guard o c c' o' err w :
  complete o -> minServerVerProtoBufPlaceOrder <= px_serverVersion env ->
  cn_writer (bc_wire c) = Some w -> bw_err w = None ->
  connPlaceOrder env expected guard o c = Some (c', o', err) ->
  exists w', cn_writer (bc_wire c') = Some w' /\ sendEffect (encodePlaceOrderProtoFrame o) guard err w w'.
Proof.
  intros Hcomp Hs Hw He H. unfold connPlaceOrder in H.
  assert (Hnone : forall e, exists w', cn_writer (bc_wire c) = Some w' /\
    sendEffect (encodePlaceOrderProtoFrame o) guard (definitelyUnsent (Some e)) w w').
  { intros e. exists w. split; [done|]. destruct (unsent_some e) as [e' ->]. apply sendEffect_none. }
  destruct (px_ctx env); [injection H as <- _ <-; apply Hnone|].
  destruct (negb (px_connected env)); [injection H as <- _ <-; apply Hnone|].
  destruct ((0 <? _) && _); [injection H as <- _ <-; apply Hnone|]. cbv zeta in H.
  destruct (preparePlaceOrder _ _ _ _) as [c1 [[o1 ep]|e]] eqn:Hp.
  - apply prepare_keeps in Hp as (-> & Hpw & _); [|done]. rewrite (cp_sent o Hcomp) in H. cbn in Hpw.
    unfold sendPlaceOrderFrameGuarded in H. rewrite (proj2 (Z.leb_le _ _) Hs) in H.
    destruct (encodePlaceOrderProtoFrame o) as [frame|e] eqn:Henc.
    + destruct (sendInstruction _ _ _ _ _ _) as [[c2 err2]|] eqn:Hsend; [|done].
      apply (instruction_effect env frame ep guard _ _ c2 err2 w) in Hsend;
        [|by eapply encoded_message_id | cbn; by rewrite Hpw | done].
      destruct Hsend as (w' & Hw' & Heff). exists w'. destruct err2 as [e2|]; injection H as <- _ <-; done.
    + destruct (unsent_some (plainErr e)) as [e' He']. rewrite He' in H. injection H as <- _ <-. cbn. exists w.
      split; [by rewrite Hpw | apply sendEffect_none].
  - apply prepare_refused in Hp as [Hpw _]. injection H as <- _ <-. cbn in Hpw. rewrite Hpw. apply Hnone.
Qed.

Lemma raw_complete contract raw :
  0 < rw_OrderID raw -> rw_ClientID raw <> 0 -> rw_Account raw <> "" -> rw_TIF raw <> "" ->
  complete (rawIBKROrder contract raw).
Proof.
  intros Hid Hc Ha Ht. split; unfold rawIBKROrder; cbv zeta.
  - cbn. lia.
  - cbn. exact Hc.
  - cbn. exact Ha.
  - cbn. exact Ht.
  - cbn. destruct (ToUpper (TrimSpace (rw_OpenClose raw)) =s "") eqn:E; [discriminate|]. by apply String.eqb_neq.
  - cbn. reflexivity.
Qed.

Lemma wrap_unsent p e : provesUnsent (Some (wrapErr p e)) = provesUnsent (Some e).
Proof. reflexivity. Qed.

Lemma sendEffect_wrap enc guard p e w w' :
  sendEffect enc guard (Some e) w w' -> sendEffect enc guard (Some (wrapErr p e)) w w'.
Proof. intros [H1 H2 H3 H4 H5]. by split. Qed.

(** The connector's guard agrees only when the caller's does. *)
Lemma changeGuard_next enc id ep ch owned guard err w w' :
  sendEffect enc (Some (changeGuard id ep ch owned guard)) err w w' -> sendEffect enc guard err w w'.
Proof.
  intros [H1 H2 H3 H4 H5]. split; try done. intros gd -> Hne. destruct (H5 _ eq_refl Hne) as [ids Hids]. exists ids.
  unfold changeGuard in Hids. by destruct (orderChangeWireGuard _ _ _ _ _ ids).
Qed.

Lemma restore_insert {A} key (v : A) (m : gmap string A) : restore key (m !! key) (<[key := v]> m) = m.
Proof.
  unfold restore. destruct (m !! key) as [p|] eqn:E; [by rewrite insert_insert_eq, insert_id|].
  by rewrite delete_insert_id.
Qed.

(** What the connector remembers of a submission. *)
Record remembers (contract : Contract) (raw : RawOrder) (k k' : connector) (err : option sendErr) : Prop := {
  rm_unsent : provesUnsent err = true ->
    kt_openOrders k' = kt_openOrders k /\ kt_brokerOrderIndex k' = kt_brokerOrderIndex k /\
    kt_placedOrderIDs k' = kt_placedOrderIDs k;
  rm_kept : provesUnsent err = false ->
    kt_brokerOrderIndex k' !! Itoa (rw_OrderID raw) = Some (localIDOf raw (rw_OrderID raw)) /\
    kt_openOrders k' !! localIDOf raw (rw_OrderID raw) = Some (trackedFor contract raw (localIDOf raw (rw_OrderID raw)) (Itoa (rw_OrderID raw))) /\
    (rw_Changes raw = None -> PlacedOrderID (rw_OrderID raw) k' = true)
}.

Lemma unsent_proves e : se_typed e = None -> provesUnsent (definitelyUnsent (Some e)) = true.
Proof. intros He. unfold provesUnsent, definitelyUnsent. by rewrite with_disposition. Qed.

(** A refusal before the order is indexed touches nothing but the ids. *)
Lemma early_refusal contract raw guard k k' e w :
  se_typed e = None -> kt_openOrders k' = kt_openOrders k -> kt_brokerOrderIndex k' = kt_brokerOrderIndex k ->
  kt_placedOrderIDs k' = kt_placedOrderIDs k -> cn_writer (bc_wire (kt_conn k')) = Some w ->
  remembers contract raw k k' (definitelyUnsent (Some e)) /\
  exists w', cn_writer (bc_wire (kt_conn k')) = Some w' /\
    sendEffect (encodePlaceOrderProtoFrame (rawIBKROrder contract raw)) guard (definitelyUnsent (Some e)) w w'.
Proof.
  intros Ht H1 H2 H3 Hw. split; [split; [done | by rewrite unsent_proves]|].
  exists w. split; [done|]. destruct (unsent_some e) as [e' ->]. apply sendEffect_none.
Qed.

(** What is remembered once the order was indexed. *)
Lemma settle_remembers contract raw ids k new c err :
  (rw_Changes raw = None -> new = true \/ PlacedOrderID (rw_OrderID raw) k = true) -> 0 < rw_OrderID raw ->
  remembers contract raw k
    (settleOrder k (rw_OrderID raw) (localIDOf raw (rw_OrderID raw)) new c err
       (indexOrder contract raw ids (rw_OrderID raw) (localIDOf raw (rw_OrderID raw)) k))
    (match err with Some e => Some (wrapErr "failed to place order" e) | None => None end).
Proof.
  intros Hnew Hid. assert (Hp : provesUnsent (match err with Some e => Some (wrapErr "failed to place order" e) | None => None end)
    = provesUnsent err) by (by destruct err). split; rewrite Hp; intros Hu; unfold settleOrder, indexOrder; rewrite Hu.
  - assert (Hx : present err = true) by (by destruct err). rewrite Hx, andb_false_r. cbn [andb].
    split_and!; [exact (restore_insert _ _ _) | exact (restore_insert _ _ _) | done].
  - rewrite andb_false_r, andb_true_r. destruct new; cbn; split_and!; try (by rewrite lookup_insert_eq); intros Hc;
      unfold PlacedOrderID; cbn; replace (0 <? rw_OrderID raw) with true by (symmetry; by apply Z.ltb_lt); cbn.
    + apply bool_decide_eq_true. set_solver.
    + destruct (Hnew Hc) as [?|Hpl]; [done|]. unfold PlacedOrderID in Hpl. bool_hyps. done.
Qed.

Lemma claim_submit_ok i raw guard o k ids cl :
  0 < io_OrderID o -> claimForSubmit i raw guard o k = Some (ids, inl cl) ->
  cm_order cl = o /\
  (exists owned, cm_guard cl = Some (changeGuard (io_OrderID o) (si_epoch i) (rw_Changes raw) owned guard)) /\
  (rw_Changes raw = None -> cm_new cl = true \/ PlacedOrderID (io_OrderID o) k = true).
Proof.
  intros Hid. unfold claimForSubmit. replace (io_OrderID o <=? 0) with false by (symmetry; apply Z.leb_gt; lia).
  destruct (bool_decide _); [done|]. cbv zeta.
  destruct (claimOrderIDForForwarding _ _ _ _ _) as [s' [[ep f]|]] eqn:E; [|done]. intros [= <- <-]. cbn.
  split_and!; [done | by eexists|]. intros Hch. rewrite Hch in E. unfold claimOrderIDForForwarding in E.
  destruct (negb (in_namespace _)); [done|].
  destruct (claimOrderIDLocked _ _ _ _ _) as [s1 [[e1 f1]|]] eqn:Ec; [|done]. injection E as <- <- <-.
  unfold claimOrderIDLocked, refuse in Ec. destruct (epochDiffers _ _); [done|]. destruct (negb _); [done|].
  destruct (bool_decide _); [done|]. cbv zeta in Ec. cbn [present andb] in Ec.
  destruct (PlacedOrderID (io_OrderID o) k) eqn:Hp; [by right|]. left.
  unfold reportedFor in Ec. destruct (ns_reported _ !! _); cbn [reportMatches negb andb] in Ec;
    destruct (bool_decide _); cbn in Ec; try (by injection Ec as _ _ <-);
    destruct (negb _ && _); cbn in Ec; try done; by injection Ec as _ _ <-.
Qed.

(** A submission, seen from the writer and from the connector. *)
Lemma submit_effect i contract raw guard k k' err w :
  0 < rw_OrderID raw -> rw_ClientID raw <> 0 -> rw_Account raw <> "" -> rw_TIF raw <> "" ->
  minServerVerProtoBufPlaceOrder <= px_serverVersion (si_place i) ->
  cn_writer (bc_wire (kt_conn k)) = Some w -> bw_err w = None ->
  submitOrderForSession i contract raw guard k = Some (k', err) ->
  remembers contract raw k k' err /\
  exists w', cn_writer (bc_wire (kt_conn k')) = Some w' /\
    sendEffect (encodePlaceOrderProtoFrame (rawIBKROrder contract raw)) guard err w w'.
Proof.
  intros Hid Hcl Hac Htif Hs Hw He H. unfold submitOrderForSession in H. cbv zeta in H.
  destruct (si_ctx i); [injection H as <- <-; by apply early_refusal|].
  destruct (negb (si_current i)); [injection H as <- <-; by apply early_refusal|].
  destruct (si_backendDown i); [injection H as <- <-; by apply early_refusal|].
  destruct (claimForSubmit _ _ _ _ k) as [[ids [cl|e]]|] eqn:Hc; [|injection H as <- <-; by apply early_refusal | done].
  apply claim_submit_ok in Hc as (Ho & (owned & Hgd) & Hnew); [|done]. rewrite Ho, Hgd in H.
  change (io_OrderID (rawIBKROrder contract raw)) with (rw_OrderID raw) in H.
  destruct (placeOrderForEpochGuarded _ _ _ _ _) as [[[c o'] err0]|] eqn:Hplace; [|done]. injection H as <- <-.
  split; [by apply settle_remembers|].
  set (k1 := indexOrder _ _ _ _ _ _) in *.
  assert (Hk : bc_wire (kt_conn (settleOrder k (rw_OrderID raw) (localIDOf raw (rw_OrderID raw)) (cm_new cl) c err0 k1)) = bc_wire c)
    by (unfold settleOrder; destruct (_ && negb _), (present err0 && _); done).
  rewrite Hk. unfold placeOrderForEpochGuarded in Hplace. destruct (px_gate (si_place i)) as [e|].
  { injection Hplace as <- _ <-. exists w. split; [done|]. destruct (unsent_some (plainErr e)) as [e' ->]. apply sendEffect_none. }
  apply (conn_place_effect _ _ _ _ _ _ _ _ w) in Hplace; [|by apply raw_complete | done | done | done].
  destruct Hplace as (w' & Hw' & Heff). exists w'. split; [done|]. apply changeGuard_next in Heff.
  destruct err0 as [e|]; [by apply sendEffect_wrap | done].
Qed.

(** C4.  A submitted order is on the wire as it was handed over, or not at all,
    and the connector remembers it accordingly.  For an order with its id,
    client, account and time in force set, on a protobuf server and a writer that
    has not failed, whatever other goroutines do to the id namespace and however
    the limiter interleaves: what the submission added to the stream is a prefix
    of the one length-prefixed frame the encoder gives for exactly that order,
    all of it when no error is returned; an error that proves the order unsent
    left the wire as it was, and the connector's order table, broker index and
    set of placed ids too; after any other outcome the broker's id leads to the
    order, and a new order counts as placed by this process; and no byte goes
    out unless the caller's guard agreed. *)
Theorem submitted_order_reaches_the_wire_once i contract raw guard k k' err w :
  0 < rw_OrderID raw -> rw_ClientID raw <> 0 -> rw_Account raw <> "" -> rw_TIF raw <> "" ->
  minServerVerProtoBufPlaceOrder <= px_serverVersion (si_place i) ->
  cn_writer (bc_wire (kt_conn k)) = Some w -> bw_err w = None ->
  submitOrderForSession i contract raw guard k = Some (k', err) ->
  remembers contract raw k k' err /\
  exists w', cn_writer (bc_wire (kt_conn k')) = Some w' /\
    sendEffect (encodePlaceOrderProtoFrame (rawIBKROrder contract raw)) guard err w w'.
Proof. apply submit_effect. Qed.

(** ** A guard that refuses keeps the writer as it is *)

Definition always (gd : idSpace -> option sendErr) : Prop := forall ids, gd ids <> None.

Lemma refused_instruction env msg epoch g c c' err :
  g <> None -> sendInstruction env msg epoch true g c = Some (c', err) -> cn_writer (bc_wire c') = cn_writer (bc_wire c).
Proof.
  intros Hg H. unfold sendInstruction in H.
  destruct (sendBoundFrames _ _ _ (bc_wire c)) as [[[e|] w]|] eqn:E; [|done|done]. injection H as <- _. cbn.
  by eapply refused_send; [| apply bound_guard |exact E].
Qed.

Lemma prepare_wire env expected o c c' r : preparePlaceOrder env expected o c = (c', r) -> bc_wire c' = bc_wire c.
Proof.
  unfold preparePlaceOrder. destruct (let? o := ValidateOrder o in _) as [o1|]; [|by intros [= <- _]].
  destruct (if io_OrderID o1 =? 0 then _ else _) as [ids [[o2 cl]|]]; [|by intros [= <- _]].
  destruct (claimOrderID _ _ _ _) as [ids2 [[ep f]|]]; by intros [= <- _].
Qed.

Lemma refused_place env expected gd o c c' o' err :
  always gd -> connPlaceOrder env expected (Some gd) o c = Some (c', o', err) ->
  cn_writer (bc_wire c') = cn_writer (bc_wire c).
Proof.
  intros Hg H. unfold connPlaceOrder in H.
  destruct (px_ctx env); [by injection H as <- _ _|]. destruct (negb _); [by injection H as <- _ _|].
  destruct ((0 <? _) && _); [by injection H as <- _ _|]. cbv zeta in H.
  destruct (preparePlaceOrder _ _ _ _) as [c1 [[o1 ep]|e]] eqn:Hp; apply prepare_wire in Hp; cbn in Hp;
    [|injection H as <- _ _; by rewrite Hp].
  destruct (sendPlaceOrderFrameGuarded _ _ _ _ _ _) as [[c2 r]|] eqn:Hs; [|done].
  assert (Hc : cn_writer (bc_wire c2) = cn_writer (bc_wire c)).
  { rewrite <- Hp. unfold sendPlaceOrderFrameGuarded in Hs. cbn [present] in Hs.
    repeat (case_match; try (by injection Hs as <- _)); apply refused_instruction in Hs; done. }
  destruct r; by injection H as <- _ _.
Qed.

Lemma claim_guard i raw gd o k ids cl :
  always gd -> claimForSubmit i raw (Some gd) o k = Some (ids, inl cl) -> exists gd', cm_guard cl = Some gd' /\ always gd'.
Proof.
  intros Hg. unfold claimForSubmit. destruct (io_OrderID o <=? 0).
  - destruct (nextDisjointOrderID _ _ _) as [[s [[id ep]|]]|]; [|done|done]. intros [= _ <-]. by exists gd.
  - destruct (bool_decide _); [done|]. cbv zeta.
    destruct (claimOrderIDForForwarding _ _ _ _ _) as [s [[ep f]|]]; [|done]. intros [= _ <-]. eexists. split; [done|].
    intros x. unfold changeGuard. destruct (orderChangeWireGuard _ _ _ _ _ x); [apply Hg | done].
Qed.

(** A submission whose guard refuses writes nothing. *)
Lemma refused_submit i contract raw gd k k' err :
  always gd -> submitOrderForSession i contract raw (Some gd) k = Some (k', err) ->
  cn_writer (bc_wire (kt_conn k')) = cn_writer (bc_wire (kt_conn k)).
Proof.
  intros Hg H. unfold submitOrderForSession in H. cbv zeta in H.
  destruct (si_ctx i); [by injection H as <- _|]. destruct (negb (si_current i)); [by injection H as <- _|].
  destruct (si_backendDown i); [by injection H as <- _|].
  destruct (claimForSubmit _ _ _ _ k) as [[ids [cl|e]]|] eqn:Hc; [|by injection H as <- _ | done].
  destruct (claim_guard _ _ _ _ _ _ _ Hg Hc) as (gd' & Hgd & Hg').
  destruct (placeOrderForEpochGuarded _ _ _ _ _) as [[[c o'] err0]|] eqn:Hplace; [|done]. injection H as <- _.
  transitivity (cn_writer (bc_wire c)).
  - unfold settleOrder. destruct (_ && negb _), (present err0 && _); done.
  - unfold placeOrderForEpochGuarded in Hplace. destruct (px_gate (si_place i)) as [e|]; [by injection Hplace as <- _ _|].
    rewrite Hgd in Hplace. by apply refused_place in Hplace.
Qed.

(** Nor does a cancel. *)
Lemma refused_cancel env orderID epoch gd c c' err :
  always gd -> cancelOrderForEpochGuarded env orderID epoch (Some gd) c = Some (c', err) ->
  cn_writer (bc_wire c') = cn_writer (bc_wire c).
Proof.
  intros Hg H. unfold cancelOrderForEpochGuarded in H. destruct (px_ctx env); [by injection H as <- _|].
  destruct (negb _); [by injection H as <- _|]. destruct (encodeCancelOrderMessage _ _); [|by injection H as <- _].
  apply refused_instruction in H; [done | apply Hg].
Qed.

(** ** An id no read request owns is found *)

(** The ids of active read requests the frontier has not passed. *)
Definition ahead (s : idSpace) (fee : gset Z) : gset Z := filter (fun id => frontier s <= id) fee.

Lemma nextDisjointLoop_finds fee epoch fuel s :
  1 <= ns_reqIDSeq s -> (size (ahead s fee) < fuel)%nat -> nextDisjointLoop fee epoch fuel s <> None.
Proof.
  revert s. induction fuel as [|fuel IH]; intros s Hreq Hf; [lia|]. cbn [nextDisjointLoop].
  unfold reserveNextOrderIDForEpoch. destruct (negb (ns_epoch s =? epoch)); [done|].
  destruct (reserveNextOrderIDLocked s) as [s' [id|]] eqn:E; [|done].
  apply reserve_order_ok in E as (He & Hid & Hle & Hr & Hn & Hx & _ & _); [|done].
  destruct (negb _) eqn:Hown; [done|].
  apply negb_false_iff, andb_true_iff in Hown as [Hpos Hown]. apply bool_decide_eq_true in Hown.
  assert (Hin : id ∈ ahead s fee) by (apply elem_of_filter; split; [lia | done]).
  assert (Hne : size (ahead s fee) <> 0%nat) by (apply size_non_empty_iff; set_solver).
  set (s1 := discardOrderIDReservation id s').
  assert (Hs1 : ns_reqIDSeq s1 = ns_reqIDSeq s' /\ ns_nextOrderID s1 = ns_nextOrderID s' /\ ns_exhausted s1 = ns_exhausted s')
    by (unfold s1, discardOrderIDReservation; destruct (id <=? 0); done).
  destruct Hs1 as (Hr1 & Hn1 & Hx1).
  destruct (id =? maxProtoInt32) eqn:Hmax.
  - destruct fuel as [|fuel]; [lia|].
    cbn [nextDisjointLoop]. unfold reserveNextOrderIDForEpoch, reserveNextOrderIDLocked, refuse.
    destruct (negb (ns_epoch s1 =? epoch)); [done|]. by rewrite Hx1, Hx, orb_true_r.
  - apply IH; [by rewrite Hr1, Hr|].
    assert (Hsub : ahead s1 fee ⊆ ahead s fee ∖ {[id]}).
    { unfold ahead. intros x Hx2. apply elem_of_filter in Hx2 as [Hx2 Hxf]. unfold frontier in Hx2. rewrite Hr1, Hn1, Hr, Hn in Hx2.
      apply elem_of_difference. split; [apply elem_of_filter; split; [cbn; lia | done]|].
      rewrite elem_of_singleton. intros ->. lia. }
    apply subseteq_size in Hsub. rewrite size_difference in Hsub by set_solver. rewrite size_singleton in Hsub. lia.
Qed.

(** Reserving an order id for a session always answers. *)
Lemma reserve_for_session_answers tradingEnabled current fee epoch k :
  1 <= ns_reqIDSeq (bc_ids (kt_conn k)) -> ReserveOrderIDForSession tradingEnabled current fee epoch k <> None.
Proof.
  intros Hr. unfold ReserveOrderIDForSession, nextDisjointOrderID. destruct (negb _); [done|]. destruct (negb _); [done|].
  assert (H := nextDisjointLoop_finds fee epoch (S (size fee)) (bc_ids (kt_conn k)) Hr).
  destruct (nextDisjointLoop _ _ _ _) as [[ids [[id e]|]]|]; [done|done|]. exfalso. apply H; [|done].
  assert (Hs : ahead (bc_ids (kt_conn k)) fee ⊆ fee) by (unfold ahead; set_solver). apply subseteq_size in Hs. lia.
Qed.

(** ** A concrete submission *)

Definition demo_ids : idSpace := (idRun ids_cfg [OpReset; OpNextValid 10 1; OpReserveOrder (Some 1)]).1.
Definition demo_connector : connector := mkConnector (mkBrokerConn demo_ids (fresh_conn []) ∅) ∅ ∅ ∅ 0.
Definition demo_contract : Contract := mkContract 265598 "AAPL" "STK" "" f0 "" 0 "SMART" "" "USD" "AAPL" "" [] None.
Definition demo_raw : RawOrder :=
  mkRawOrder 0 "" 10 3 0 "BUY" 1 "LMT" (f_of_Z 150) false f0 f0 f0 f0 "DAY" 0 "DU1" "ref" false "" "" 0 None.
Definition demo_place : placeEnv := mkPlaceEnv false None true 203 4 "DU1" ids_cfg [] [] no_refusal one_dispatch [].
Definition demo_input : submitInput := mkSubmitInput false 1 true false ∅ demo_place.

Lemma submitted_order_reaches_the_wire_once_witness :
  exists k', submitOrderForSession demo_input demo_contract demo_raw (Some (fun _ => None)) demo_connector = Some (k', None) /\
    remembers demo_contract demo_raw demo_connector k' None /\
    exists w', cn_writer (bc_wire (kt_conn k')) = Some w' /\
      sendEffect (encodePlaceOrderProtoFrame (rawIBKROrder demo_contract demo_raw)) (Some (fun _ => None)) None
        (mkBufw 4096 [] None [] []) w'.
Proof.
  destruct (submitOrderForSession demo_input demo_contract demo_raw (Some (fun _ => None)) demo_connector) as [[k' err]|] eqn:E;
    [|vm_compute in E; discriminate E].
  assert (He : err = None).
  { assert (Hx : option_map snd (submitOrderForSession demo_input demo_contract demo_raw (Some (fun _ => None)) demo_connector)
                 = Some None) by (vm_compute; reflexivity). rewrite E in Hx. cbn in Hx. congruence. }
  subst err. exists k'. split; [reflexivity|].
  refine (submitted_order_reaches_the_wire_once demo_input demo_contract demo_raw _ demo_connector k' None _ _ _ _ _ _ _ _ E);
    (reflexivity || discriminate || (vm_compute; discriminate)).
Defined.
