(* ===== verification/WriteDraft.v ===== *)
(** * From a draft to the broker's order and to the journal

    src/internal/daemon/order_preview.go (previewIBKRContract,
    previewIBKRStrategyContract, previewIBKROrder, modifyPreviewWhatIfOrder),
    order_preview_bond.go (previewBondRules), order_place_trading.go
    (orderJournalEventForDraft, orderDraftFromView and the events a write
    journals), order_token_redemption.go (previewTokenConfirmedEvent) and
    position_protection_mandate.go (the protective guard's exceptions to the
    replacement rules).  The pure half of the write handlers: what is sent and
    what is journaled, as functions of the signed draft, the row and the route.
    Definitions only: that the attempt a place journals and the order it sends
    carry the same terms, and that a replacement asks for the row's fills plus the
    signed remainder, is proved in WriteFlow. *)

From stdpp Require Import base decidable list strings gmap.
From Stdlib Require Import ZArith Lia Ascii String SpecFloat.
From S2P Require Import Prelude Floats OrderTypes OrderStatus OrderFold OrderViews Protective Pairing WriteGate.
From S2P Require Import PlaceOrderProto BrokerIds SendDisposition PreviewToken CoreStore Submit.

(** ** The broker's contract *)

(** previewIBKRContract *)
Definition previewIBKRContract (c : ContractParams) : Contract :=
  let secType := ToUpper (TrimSpace (cp_SecType c)) in
  let secType := if secType =s "" then "STK" else secType in
  let exchange := TrimSpace (cp_Exchange c) in
  let exchange := if exchange =s "" then "SMART" else exchange in
  let currency := ToUpper (TrimSpace (cp_Currency c)) in
  let currency := if currency =s "" then "USD" else currency in
  let multiplier := if (secType <>s "OPT") && (secType <>s "FUT") then 0 else cp_Multiplier c in
  if IsBillOrBond secType
  then mkContract (cp_ConID c) "" secType "" f0 "" 0 exchange "" currency "" "" [] None
  else mkContract (cp_ConID c) (ToUpper (TrimSpace (cp_Symbol c))) secType (TrimSpace (cp_Expiry c)) (cp_Strike c)
         (ToUpper (TrimSpace (cp_Right c))) multiplier exchange (TrimSpace (cp_PrimaryExch c)) currency
         (TrimSpace (cp_LocalSymbol c)) (TrimSpace (cp_TradingClass c)) [] None.

(** previewBondRules *)
Definition previewBondRules (draft : OrderDraft) : option BondOrderRules :=
  match dr_Bond draft with
  | None => None
  | Some bond =>
      if negb (IsBillOrBond (cp_SecType (dr_Contract draft))) then None
      else Some (mkBondRules (bt_MinTick bond) (bt_MinSize bond) (bt_SizeIncrement bond))
  end.

Definition absOrderRatio (value : Z) : Z := if value <? 0 then - value else value.

(** One leg of previewIBKRStrategyContract. *)
Definition strategyComboLeg (leg : StrategyOrderLeg) : ComboLeg :=
  let action := if sl_Ratio leg <? 0 then OrderActionSell else OrderActionBuy in
  let exchange := ToUpper (TrimSpace (cp_Exchange (sl_Contract leg))) in
  mkComboLeg (cp_ConID (sl_Contract leg)) (absOrderRatio (sl_Ratio leg)) action
    (if exchange =s "" then "SMART" else exchange) 2.

(** previewIBKRStrategyContract *)
Definition previewIBKRStrategyContract (draft : OrderDraft) : Contract :=
  let c := previewIBKRContract (dr_Contract draft) in
  mkContract (ct_ConID c) (ct_Symbol c) (ct_SecType c) (ct_Expiry c) (ct_Strike c) (ct_Right c) (ct_Multiplier c)
    (ct_Exchange c) (ct_PrimaryExch c) (ct_Currency c) (ct_LocalSymbol c) (ct_TradingClass c)
    (match dr_StrategyGroup draft with Some g => map strategyComboLeg (sd_Legs g) | None => ct_ComboLegs c end)
    (previewBondRules draft).

(** ** The broker's order *)

Definition orNone (p : option float64) (z : float64) : float64 := match p with Some x => x | None => z end.

(** previewIBKROrder *)
Definition previewIBKROrder (draft : OrderDraft) : RawOrder :=
  let linked := match dr_EntryLink draft with Some _ => dr_FixedStopPrice draft | None => f0 end in
  {| rw_ParentID := match dr_EntryLink draft with Some l => el_ParentID l | None => 0 end;
     rw_AdaptivePriority := dr_AdaptivePriority draft; rw_OrderID := 0; rw_ClientID := 0; rw_PermID := 0;
     rw_Action := ToUpper (TrimSpace (dr_Action draft)); rw_TotalQty := dr_Quantity draft;
     rw_OrderType := ToUpper (TrimSpace (dr_OrderType draft)); rw_LmtPrice := dr_LimitPrice draft;
     rw_LmtPriceSet := EqualFold (TrimSpace (dr_OrderType draft)) OrderTypeLMT;
     rw_AuxPrice := match dr_Trail draft with Some t => orNone (t_TrailingAmount t) linked | None => linked end;
     rw_TrailStopPrice := match dr_Trail draft with Some t => t_InitialStopPrice t | None => f0 end;
     rw_TrailingPercent := match dr_Trail draft with Some t => orNone (t_TrailingPercent t) f0 | None => f0 end;
     rw_LmtPriceOffset := match dr_Trail draft with Some t => orNone (t_LimitOffset t) f0 | None => f0 end;
     rw_TIF := ToUpper (TrimSpace (dr_TIF draft)); rw_TriggerMethod := dr_TriggerMethod draft; rw_Account := "";
     rw_OrderRef := dr_OrderRef draft; rw_OutsideRth := dr_OutsideRTH draft;
     rw_OpenClose := ToUpper (TrimSpace (dr_OpenClose draft)); rw_OcaGroup := dr_OCAGroup draft;
     rw_OcaType := dr_OCAType draft; rw_Changes := None |}.

(** The id, client, account, quantity and change a handler then sets. *)
Definition addressed (o : RawOrder) (orderID clientID : Z) (account : string) (quantity : Z)
    (changes : option OrderChangeIdentity) : RawOrder :=
  {| rw_ParentID := rw_ParentID o; rw_AdaptivePriority := rw_AdaptivePriority o; rw_OrderID := orderID;
     rw_ClientID := clientID; rw_PermID := rw_PermID o; rw_Action := rw_Action o; rw_TotalQty := quantity;
     rw_OrderType := rw_OrderType o; rw_LmtPrice := rw_LmtPrice o; rw_LmtPriceSet := rw_LmtPriceSet o;
     rw_AuxPrice := rw_AuxPrice o; rw_TrailStopPrice := rw_TrailStopPrice o; rw_TrailingPercent := rw_TrailingPercent o;
     rw_LmtPriceOffset := rw_LmtPriceOffset o; rw_TIF := rw_TIF o; rw_TriggerMethod := rw_TriggerMethod o;
     rw_Account := account; rw_OrderRef := rw_OrderRef o; rw_OutsideRth := rw_OutsideRth o;
     rw_OpenClose := rw_OpenClose o; rw_OcaGroup := rw_OcaGroup o; rw_OcaType := rw_OcaType o; rw_Changes := changes |}.

(** protectionModifyTotal: the broker wants the total, fills included. *)
Definition protectionModifyTotal (remaining : Z) (filled : float64) : wres Z :=
  if (remaining <=? 0) || (filled <f f0) || (Trunc filled <>f filled) || IsNaN filled || IsInf filled ||
     (filled >f f_of_Z 1000000)
  then bad "cannot verify filled quantity for protection resize"
  else Ok (remaining + int_of_float filled).

Definition changeOf (view : OrderView) : option OrderChangeIdentity :=
  match orderChangeIdentity view with Some (perm, account, ref) => Some (mkChange perm account ref) | None => None end.

(** modifyPreviewWhatIfOrder; the route's account and client are set by
    previewIBKROrderForStatus. *)
Definition modifyPreviewWhatIfOrder (view : OrderView) (draft : OrderDraft) (status : tradingRoute) : wres RawOrder :=
  let? total := protectionModifyTotal (dr_Quantity draft) (v_Filled view) in
  Ok (addressed (previewIBKROrder draft) 0 (rt_ClientID status) (rt_Account status) total (changeOf view)).

(** index_hedge_order.go *)
Definition hedgeOrderSource : string := "index_hedge".

(** ** The protective guard's exceptions

    The guard may hold a grant for one exact resize or shrink of one order. *)

Record stopGuardGrant := mkGrant {
  gg_Kind : string; gg_OrderRef : string; gg_ReservedOrderID : Z; gg_Quantity : Z; gg_Filled : float64;
  gg_Position : float64; gg_Trail : option OrderTrailSpec
}.
Definition protectiveStopGuardShrink : string := "shrink".
Definition protectiveStopGuardResize : string := "resize".

Definition grantNames (g : stopGuardGrant) (kind : string) (view : OrderView) (quantity : Z) : bool :=
  (gg_Kind g =s kind) && (gg_OrderRef g =s v_OrderRef view) && (gg_ReservedOrderID g =? v_ReservedOrderID view) &&
  (gg_Quantity g =? quantity) && (gg_Filled g =f v_Filled view).

(** fullPositionResizeGranted; [mandated]: a live owner-signed mandate names the row. *)
Definition fullPositionResizeGranted (grant : option stopGuardGrant) (mandated : bool) (view : OrderView) (quantity : Z)
    : bool :=
  match grant with Some g => grantNames g protectiveStopGuardResize view quantity && mandated | None => false end.

Section Messages.
(** The "%.4g" of the messages shown to the operator. *)
Variable g4 : float64 -> string.

(** (Server).validateModifyDraft; a grant without a trail for a draft without one
    is dereferenced by the source and is refused here. *)
Definition serverValidateModifyDraft (grant : option stopGuardGrant) (mandated : bool) (view : OrderView)
    (draft : OrderDraft) : wres unit :=
  if negb (fullPositionResizeGranted grant mandated view (dr_Quantity draft)) then validateModifyDraft g4 view draft
  else
    match v_Trail view, dr_Trail draft with
    | Some vt, Some dt =>
        if negb (trailSpecsEquivalent (match grant with Some g => gg_Trail g | None => None end) (dr_Trail draft)) ||
           (t_InitialStopPrice dt <f t_InitialStopPrice vt)
        then bad "full-position resize must preserve the current trail"
        else if negb (trailSpecsEquivalent (v_Trail view) (Some (dt <| t_InitialStopPrice := t_InitialStopPrice vt |>)))
        then bad "full-position resize cannot change trail settings"
        else validateModifyDraft g4 (view <| v_Remaining := mathMax (v_Remaining view) (f_of_Z (dr_Quantity draft)) |>) draft
    | _, _ => bad "full-position resize must preserve the current trail"
    end.

(** (Server).validateProtectiveModifyQuantity *)
Definition serverValidateProtectiveModifyQuantity (grant : option stopGuardGrant) (mandated : bool) (view : OrderView)
    (draft : OrderDraft) (current : float64) : wres unit :=
  let quantity := dr_Quantity draft in
  if present (v_EntryLink view) &&
     match grant with
     | Some g => grantNames g protectiveStopGuardShrink view quantity && (gg_Position g =f current) && (0 <? quantity) &&
                 (f_of_Z quantity <=f current)
     | None => false
     end
  then validateModifyDraft g4 view draft
  else if fullPositionResizeGranted grant mandated view quantity
  then if (current <=f f0) || (f_of_Z quantity <>f current)
       then bad "full-position coverage must equal the current position" else Ok tt
  else validateProtectiveModifyQuantity g4 view draft current.

(** attachedStockStopModifyOrder *)
Definition attachedStockStopModifyOrder (view : OrderView) (draft : OrderDraft) (status : tradingRoute) : wres RawOrder :=
  let? _ := validateModifyDraft g4 view draft in
  let? o := modifyPreviewWhatIfOrder view draft status in
  Ok {| rw_ParentID := rw_ParentID o; rw_AdaptivePriority := rw_AdaptivePriority o; rw_OrderID := rw_OrderID o;
        rw_ClientID := rw_ClientID o; rw_PermID := rw_PermID o; rw_Action := rw_Action o; rw_TotalQty := rw_TotalQty o;
        rw_OrderType := rw_OrderType o; rw_LmtPrice := rw_LmtPrice o; rw_LmtPriceSet := rw_LmtPriceSet o;
        rw_AuxPrice := rw_AuxPrice o; rw_TrailStopPrice := rw_TrailStopPrice o;
        rw_TrailingPercent := rw_TrailingPercent o; rw_LmtPriceOffset := rw_LmtPriceOffset o; rw_TIF := rw_TIF o;
        rw_TriggerMethod := rw_TriggerMethod o; rw_Account := rw_Account o; rw_OrderRef := rw_OrderRef o;
        rw_OutsideRth := rw_OutsideRth o; rw_OpenClose := rw_OpenClose o; rw_OcaGroup := v_OCAGroup view;
        rw_OcaType := v_OCAType view; rw_Changes := rw_Changes o |}.
End Messages.

(** ** The events a write journals *)

(** What a send event adds to the draft's terms. *)
Record eventStamp := mkStamp {
  es_attemptID : string; es_action : ActionKind; es_sendState : string; es_origin : string;
  es_disposition : SendDisposition; es_message : string; es_fee : option (float64 * string)
}.
Definition plainStamp (attemptID action sendState message : string) : eventStamp :=
  mkStamp attemptID action sendState "" "" message None.

(** orderJournalEventForDraft, with the fields the handlers then set. *)
Definition orderJournalEventForDraft (draft : OrderDraft) (eventType : string) (status : tradingRoute)
    (tokenID : string) (orderID : Z) (at_ : time) (quantity : float64) (st : eventStamp) : orderJournalEvent :=
  let c := dr_Contract draft in
  {| e_AttachedStop := dr_AttachedStop draft; e_EntryLink := dr_EntryLink draft;
     e_FixedStopPrice := dr_FixedStopPrice draft; e_BrokerParentID := None; e_Deactivated := None;
     e_AlgoStrategy := ""; e_AlgoKnown := false; e_AdaptivePriority := dr_AdaptivePriority draft;
     e_AddWarningsAccepted := false; e_Version := 0; e_At := at_; e_Type := eventType; e_OrderRef := dr_OrderRef draft;
     e_PreviewTokenID := tokenID; e_ReservedOrderID := orderID; e_ClientID := rt_ClientID status; e_PermID := 0;
     e_Account := rt_Account status; e_Endpoint := rt_Endpoint status; e_Mode := rt_Mode status;
     e_Source := dr_Source draft; e_Origin := es_origin st; e_PurgeID := ""; e_LegID := ""; e_BypassPreview := false;
     e_Symbol := cp_Symbol c; e_SecType := cp_SecType c; e_ConID := cp_ConID c; e_Exchange := cp_Exchange c;
     e_PrimaryExch := cp_PrimaryExch c; e_Currency := cp_Currency c; e_LocalSymbol := cp_LocalSymbol c;
     e_TradingClass := cp_TradingClass c; e_Expiry := cp_Expiry c; e_Strike := cp_Strike c; e_Right := cp_Right c;
     e_Multiplier := cp_Multiplier c; e_Action := dr_Action draft; e_OrderType := dr_OrderType draft;
     e_TIF := dr_TIF draft; e_TriggerMethod := dr_TriggerMethod draft; e_OutsideRTH := dr_OutsideRTH draft;
     e_Quantity := quantity; e_LimitPrice := dr_LimitPrice draft; e_Trail := dr_Trail draft;
     e_OpenClose := dr_OpenClose draft; e_OCAGroup := dr_OCAGroup draft; e_OCAType := dr_OCAType draft; e_Status := "";
     e_Filled := f0; e_Remaining := f0; e_AvgFillPrice := f0; e_LastFillPrice := f0; e_WhyHeld := "";
     e_MktCapPrice := f0; e_ExecID := ""; e_ExecTime := ""; e_ExecShares := f0; e_ExecSide := ""; e_ErrorCode := 0;
     e_SendState := es_sendState st; e_AttemptID := es_attemptID st; e_ActionKind := es_action st;
     e_TransmitOrigin := ""; e_SendDisposition := es_disposition st; e_Message := es_message st;
     e_FeeUpper := option_map fst (es_fee st);
     e_FeeCurrency := match es_fee st with Some (_, ccy) => ccy | None => "" end; e_clientIDPresent := false |}.

(** previewTokenConfirmedEvent; a modify keys it to the order's own reference and
    endpoint, a place to the draft's and the token's. *)
Definition previewTokenConfirmedEvent (payload : orderPreviewTokenPayload) (orderRef endpoint : string)
    (reservedOrderID : Z) (at_ : time) (warningsAccepted : bool) (message : string) : orderJournalEvent :=
  let d := tp_Draft payload in
  let c := dr_Contract d in
  {| e_AttachedStop := None; e_EntryLink := None; e_FixedStopPrice := f0; e_BrokerParentID := None;
     e_Deactivated := None; e_AlgoStrategy := ""; e_AlgoKnown := false; e_AdaptivePriority := "";
     e_AddWarningsAccepted := warningsAccepted; e_Version := 0; e_At := at_; e_Type := orderJournalEventTokenConfirmed;
     e_OrderRef := orderRef; e_PreviewTokenID := tp_TokenID payload; e_ReservedOrderID := reservedOrderID;
     e_ClientID := tp_ClientID payload; e_PermID := 0; e_Account := tp_Account payload; e_Endpoint := endpoint;
     e_Mode := tp_Mode payload; e_Source := dr_Source d; e_Origin := ""; e_PurgeID := ""; e_LegID := "";
     e_BypassPreview := false; e_Symbol := cp_Symbol c; e_SecType := cp_SecType c; e_ConID := cp_ConID c;
     e_Exchange := cp_Exchange c; e_PrimaryExch := cp_PrimaryExch c; e_Currency := cp_Currency c;
     e_LocalSymbol := cp_LocalSymbol c; e_TradingClass := cp_TradingClass c; e_Expiry := cp_Expiry c;
     e_Strike := cp_Strike c; e_Right := cp_Right c; e_Multiplier := cp_Multiplier c; e_Action := dr_Action d;
     e_OrderType := dr_OrderType d; e_TIF := dr_TIF d; e_TriggerMethod := 0; e_OutsideRTH := dr_OutsideRTH d;
     e_Quantity := f_of_Z (dr_Quantity d); e_LimitPrice := dr_LimitPrice d; e_Trail := dr_Trail d;
     e_OpenClose := dr_OpenClose d; e_OCAGroup := ""; e_OCAType := 0; e_Status := ""; e_Filled := f0;
     e_Remaining := f0; e_AvgFillPrice := f0; e_LastFillPrice := f0; e_WhyHeld := ""; e_MktCapPrice := f0;
     e_ExecID := ""; e_ExecTime := ""; e_ExecShares := f0; e_ExecSide := ""; e_ErrorCode := 0; e_SendState := "";
     e_AttemptID := ""; e_ActionKind := ""; e_TransmitOrigin := ""; e_SendDisposition := "";
     e_Message := TrimSpace message; e_FeeUpper := None; e_FeeCurrency := ""; e_clientIDPresent := false |}.

(** orderDraftFromView *)
Definition orderDraftFromView (view : OrderView) : OrderDraft :=
  mkDraft None None f0 (v_AdaptivePriority view) None (v_Action view)
    (mkContractParams (v_ConID view) (v_Symbol view) (v_SecType view) "" (v_Exchange view) (v_PrimaryExch view)
       (v_Currency view) (v_LocalSymbol view) (v_TradingClass view) (v_Expiry view) (v_Strike view) (v_Right view)
       (v_Multiplier view) f0)
    (int_of_float (v_Quantity view)) (v_OrderType view) (v_LimitPrice view) (v_Trail view) (v_TriggerMethod view)
    (v_TIF view) (v_OutsideRTH view) (v_OrderRef view) (v_OpenClose view) "" None (v_OCAGroup view) (v_OCAType view) None.

(** The events of a finished send. *)
Definition sendErrorStamp (attemptID : string) (action : ActionKind) (sendErr : option sendErr) : eventStamp :=
  let disposition := SendDispositionOf sendErr in
  mkStamp attemptID action
    (if disposition =s SendDispositionDefinitelyUnsent then "" else orderSendStateUncertainSend) "" disposition
    (say ["broker send returned error ("; disposition; "): "; match sendErr with Some e => se_text e | None => "" end]) None.
Definition sendCompletedStamp (attemptID : string) (action : ActionKind) : eventStamp :=
  plainStamp attemptID action orderSendStateSendAttempted
    "broker transport returned after frame flush; waiting for broker lifecycle evidence".
