(* ===== verification/WriteFlow.v ===== *)
(** * Placing, modifying and cancelling an order

    src/internal/daemon/order_place_trading.go (placeOrder, modifyOrder,
    cancelOrderForAction, reserveBoundBrokerOrderID, submitBoundConfiguredOrder,
    cancelBoundConfiguredOrder, appendOrderSendError, appendOrderSendCompleted),
    the order-event check of brokerWireGuard (broker_write_transaction.go) and
    the connector's guarded entry points.  The handlers compose the parts the
    other files model: token redemption, gates, id reservation, staging in the
    authority store, submission through the connector, and the outcome row.
    Authorisation, risk, position and desk checks are observed answers, inputs
    of the run; what other writers do to the authority store before the staging,
    before the wire guard and before the outcome row are arbitrary sequences of
    store operations.  Proved: no byte of an instruction reaches the wire unless
    its attempt and its token's tombstone are durable, a token transmits at most
    once, and a modify's first byte goes out only while its own staging is the
    order's latest event. *)

From stdpp Require Import base decidable list strings gmap.
From Stdlib Require Import ZArith Lia Ascii String.
From S2P Require Import Prelude Floats OrderTypes OrderStatus OrderFold OrderViews OrderHistory Protective Pairing WriteGate.
From S2P Require Import CoreStore CoreStoreOps CoreStoreFacts CoreStoreLog CoreStoreGuards OrderJournal.
From S2P Require Import WireCodec SendDisposition RateLimiter Transport ProtoWire PlaceOrderProto BrokerIds.
From S2P Require Import PreviewToken Submit WriteDraft.

(** ** The state a write changes *)

Record world := mkWorld { wd_journal : option store; wd_broker : connector; wd_uncertain : bool }.
#[global] Instance world_eta : Eta world := fun w => mkWorld (wd_journal w) (wd_broker w) (wd_uncertain w).

(** How a handler ends: refused before the send, failed in the send (with what
    became of its outcome row), sent but not recorded, or accepted.  A protected
    Add takes its own path. *)
Inductive refusal := RefGo (e : goerr) | RefJournal (e : journalErr) | RefId (e : string).
Inductive writeOutcome :=
| Refused (e : refusal)
| TransmitFailed (e : option sendErr) (recorded : jres unit)
| Unrecorded (e : journalErr)
| Accepted
| ProtectedAdd (payload : orderPreviewTokenPayload).

(** authorizeBrokerWriteTransaction's answer. *)
Record writeAuth := mkWriteAuth {
  wa_Allowed : bool; wa_Blockers : list TradingBlocker; wa_Status : tradingRoute; wa_Route : string;
  wa_bindingErr : option goerr
}.

(** The fields of brokerWriteTransactionBinding the order-event check reads. *)
Record writeBinding := mkBinding {
  bn_endpoint : string; bn_clientID : Z; bn_account : string; bn_mode : string;
  bn_orderID : Z; bn_orderEventSeq : Z; bn_orderEndpoint : string
}.

Section Flow.
Context `{JE : JournalEnv} `{TE : TokenEnv}.
Variable g4 : float64 -> string.

Definition interfere (ops : list op) (j : option store) : option store :=
  match j with Some s => Some (run s ops) | None => None end.

(** ** Reserving the order id *)

Record reserveEnv := mkReserveEnv {
  rv_ctx : bool; rv_current : bool; rv_bound : bool; rv_ctx2 : bool; rv_trading : bool; rv_session : bool;
  rv_fee : gset Z; rv_epoch : Z
}.

(** reservedBrokerOrderIDFloor *)
Definition reservedBrokerOrderIDFloor (j : option store) : jres Z :=
  match j with None => Ok 0 | Some _ => let? s := coreStore j in Ok (GlobalOrderIDFloor s) end.

Definition driftError : goerr :=
  mkErr "trading_disabled" "broker connection authority changed before transmit; refresh and retry".

(** The loop of reserveBoundBrokerOrderID: ids at or below the durable floor are
    passed over. *)
Fixpoint reserveAbove (env : reserveEnv) (floor : Z) (fuel : nat) (k : connector) : option (connector * idres Z) :=
  match fuel with
  | O => None
  | S fuel =>
      match ReserveOrderIDForSession (rv_trading env) (rv_session env) (rv_fee env) (rv_epoch env) k with
      | None => None
      | Some (k, Err e) => Some (k, Err e)
      | Some (k, Ok id) => if id <=? floor then reserveAbove env floor fuel k else Some (k, Ok id)
      end
  end.

(** reserveBoundBrokerOrderID *)
Definition reserveBoundBrokerOrderID (env : reserveEnv) (j : option store) (k : connector)
    : option (connector * (Z + refusal)) :=
  let refused e := Some (k, inr (RefGo e)) in
  if rv_ctx env then refused (mkErr "context" "context canceled")
  else if negb (rv_current env) then refused driftError
  else
    match reservedBrokerOrderIDFloor j with
    | Err e => Some (k, inr (RefJournal e))
    | Ok floor =>
        if negb (rv_bound env) then refused driftError
        else if rv_ctx2 env then refused (mkErr "context" "context canceled")
        else
          match reserveAbove env floor (S (Z.to_nat floor)) k with
          | None => None
          | Some (k, Ok id) => Some (k, inl id)
          | Some (k, Err e) => Some (k, inr (RefId e))
          end
    end.

(** ** The send *)

(** What a bound send meets: cancellations, a binding that no longer runs, the
    authorisation read again, the build or paper gate, the wire guard's answers
    before and after its order-event check, what other writers do to the store
    until then, and the connector's side. *)
Record boundSend := mkBoundSend {
  bd_ctx : bool; bd_refused : option string; bd_ctx2 : bool; bd_allowed : bool; bd_blockers : list TradingBlocker;
  bd_route : string; bd_gate : option string; bd_guardBefore : option sendErr; bd_guardAfter : option sendErr;
  bd_guardOps : list op; bd_submit : submitInput
}.

(** The event whose scope and order id the guard looks up. *)
Definition guardEvent (b : writeBinding) : orderJournalEvent :=
  zero_orderJournalEvent <| e_Endpoint := if bn_orderEndpoint b =s "" then bn_endpoint b else bn_orderEndpoint b |>
    <| e_ClientID := bn_clientID b |> <| e_Account := bn_account b |> <| e_Mode := bn_mode b |>
    <| e_ReservedOrderID := bn_orderID b |>.

(** brokerWireGuard at the state of the journal when it runs. *)
Definition brokerWireGuard (b : writeBinding) (env : boundSend) (j : option store) : option sendErr :=
  match bd_guardBefore env with
  | Some e => Some e
  | None =>
      match
        (if (0 <? bn_orderID b) && (0 <? bn_orderEventSeq b) then
           match JournalLatestOrderEventSeq j (guardEvent b) with
           | Err _ => Some (plainErr "trading disabled: read current order authority")
           | Ok latest =>
               if negb (latest =? bn_orderEventSeq b)
               then Some (plainErr "trading disabled: order changed after modify staging; refresh and retry") else None
           end
         else None)
      with
      | Some e => Some e
      | None => bd_guardAfter env
      end
  end.

Definition unsentText (k : connector) (text : string) : option (connector * option sendErr) :=
  Some (k, WithSendDisposition (Some (plainErr text)) SendDispositionDefinitelyUnsent).
Definition unsentCanceled (k : connector) : option (connector * option sendErr) :=
  Some (k, WithSendDisposition (Some errCanceled) SendDispositionDefinitelyUnsent).

Definition TradingModePaper : string := "paper".
Definition TradingModeLive : string := "live".

(** What submitBoundConfiguredOrder and cancelBoundConfiguredOrder check before
    the connector is called. *)
Definition boundRefusal (env : boundSend) (k : connector) : option (option (connector * option sendErr)) :=
  if bd_ctx env then Some (unsentCanceled k)
  else
    match bd_refused env with
    | Some e => Some (unsentText k e)
    | None =>
        if bd_ctx2 env then Some (unsentCanceled k)
        else if negb (bd_allowed env) then Some (unsentText k (firstTradingBlockerMessage (bd_blockers env)))
        else if negb (one_of (bd_route env) [TradingModePaper; TradingModeLive])
        then Some (unsentText k "trading disabled: trading mode is invalid")
        else match bd_gate env with
             | Some e => Some (Some (k, definitelyUnsent (Some (plainErr e))))
             | None => None
             end
    end.

(** submitBoundConfiguredOrder *)
Definition submitBoundConfiguredOrder (b : writeBinding) (env : boundSend) (j : option store) (contract : Contract)
    (raw : RawOrder) (k : connector) : option (connector * option sendErr) :=
  match boundRefusal env k with
  | Some r => r
  | None =>
      submitOrderForSession (bd_submit env) contract raw
        (Some (fun _ => brokerWireGuard b env (interfere (bd_guardOps env) j))) k
  end.

(** CancelOrderForSessionGuarded, CancelPaperOrderForSessionGuarded *)
Definition cancelOrderForSessionGuarded (i : submitInput) (orderID : Z) (guard : option (idSpace -> option sendErr))
    (k : connector) : option (connector * option sendErr) :=
  if si_ctx i then Some (k, definitelyUnsent (Some errCanceled))
  else if negb (si_current i)
  then Some (k, definitelyUnsent (Some (plainErr "broker session binding is not current for this Connector")))
  else
    match cancelOrderForEpochGuarded (si_place i) orderID (si_epoch i) guard (kt_conn k) with
    | None => None
    | Some (c, err) =>
        Some (k <| kt_conn := c |>, match err with Some e => Some (wrapErr "failed to cancel order" e) | None => None end)
    end.

(** cancelBoundConfiguredOrder; [recheck] reads the broker's reports again. *)
Definition cancelBoundConfiguredOrder (b : writeBinding) (env : boundSend) (j : option store) (orderID : Z)
    (recheck : wres unit) (k : connector) : option (connector * option sendErr) :=
  match boundRefusal env k with
  | Some r => r
  | None =>
      cancelOrderForSessionGuarded (bd_submit env) orderID
        (Some (fun _ =>
           match bd_guardBefore env with
           | Some e => Some e
           | None => match recheck with Err e => Some (plainErr (err_msg e)) | Ok _ => None end
           end)) k
  end.

(** ** The outcome row *)

Record outcomeEnv := mkOutcomeEnv { oe_ops : list op; oe_append : appendEnv; oe_now : time }.

(** appendOrderSendError and appendOrderSendCompleted: the row, and the latch when
    it could not be written. *)
Definition appendOutcome (env : outcomeEnv) (ev : orderJournalEvent) (w : world) : world * jres unit :=
  match wd_journal w with
  | None => (w, Err (JErr "order journal is unavailable after broker send"))
  | Some s =>
      let '(j, r) := Append (oe_append env) (Some (run s (oe_ops env))) ev in
      (w <| wd_journal := j |> <| wd_uncertain := wd_uncertain w || negb (is_ok r) |>, r)
  end.

(** Journal how the send ended, and answer. *)
Definition finishSend (env : outcomeEnv) (draft : OrderDraft) (status : tradingRoute) (tokenID : string) (orderID : Z)
    (attemptID : string) (action : ActionKind) (err : option sendErr) (w : world) : world * writeOutcome :=
  let row eventType := orderJournalEventForDraft draft eventType status tokenID orderID (oe_now env)
                         (f_of_Z (dr_Quantity draft)) in
  match err with
  | Some _ =>
      let '(w, r) := appendOutcome env (row orderJournalEventSendError (sendErrorStamp attemptID action err)) w in
      (w, TransmitFailed err r)
  | None =>
      let '(w, r) := appendOutcome env (row orderJournalEventSendCompleted (sendCompletedStamp attemptID action)) w in
      (w, match r with Ok _ => Accepted | Err e => Unrecorded e end)
  end.

(** ** Placing *)

(** [pi_clock] is the token signer's clock, [pi_now] the daemon's. *)
Record placeInput := mkPlaceInput {
  pi_auth : writeAuth; pi_binding : writeBinding; pi_signer : option orderTokenSigner; pi_gate : TradingStatus;
  pi_clock : time; pi_now : time; pi_token : string; pi_origin : string; pi_acceptWarnings : bool; pi_trail : string;
  pi_risk : option goerr; pi_reduce : option goerr; pi_hedge : option goerr; pi_link : wres (string * Z);
  pi_reserve : reserveEnv; pi_attempt : option string; pi_fee : option (float64 * string); pi_current : bool;
  pi_stageOps : list op; pi_stage : appendEnv; pi_send : boundSend; pi_outcome : outcomeEnv
}.

Definition reduceOrderSource : string := "manual_reduce".

Definition addWarned (d : OrderDraft) : bool :=
  match dr_Add d with Some a => match ar_PlanWarnings a with [] => false | _ => true end | None => false end.

(** The refusals of placeOrder between the token and the reservation. *)
Definition placeRefusal (i : placeInput) (payload : orderPreviewTokenPayload) : option goerr :=
  let d := tp_Draft payload in
  if addWarned d && negb (pi_acceptWarnings i)
  then Some (mkErr "trading_disabled" "acknowledge the reviewed Add warnings before submitting")
  else if pi_trail i <>s "" then Some (mkErr "trading_disabled" (pi_trail i))
  else if present (wa_bindingErr (pi_auth i)) then wa_bindingErr (pi_auth i)
  else if present (pi_risk i) then pi_risk i
  else if (dr_Source d =s reduceOrderSource) && present (pi_reduce i) then pi_reduce i
  else if (dr_Source d =s hedgeOrderSource) && present (pi_hedge i) then pi_hedge i
  else None.

(** The two events a place stages. *)
Definition placeEvents (i : placeInput) (payload : orderPreviewTokenPayload) (draft : OrderDraft) (id : Z)
    (attemptID : string) : list orderJournalEvent :=
  let route := wa_Route (pi_auth i) in
  [previewTokenConfirmedEvent payload (dr_OrderRef (tp_Draft payload)) (tp_Endpoint payload) id (pi_now i)
     (pi_acceptWarnings i && addWarned draft) (say ["preview token confirmed for "; route; " broker transmit"]);
   orderJournalEventForDraft draft orderJournalEventSendAttempted (wa_Status (pi_auth i)) (tp_TokenID payload) id
     (pi_now i) (f_of_Z (dr_Quantity draft))
     (mkStamp attemptID ActionPlace orderSendStateSendAttempted (normalizedWriteOrigin (pi_origin i)) ""
        (say [route; " broker placeOrder transmit attempted"]) (pi_fee i))].

(** The order a place sends. *)
Definition placedOrder (status : tradingRoute) (draft : OrderDraft) (id : Z) : RawOrder :=
  addressed (previewIBKROrder draft) id (rt_ClientID status) (rt_Account status) (dr_Quantity draft) None.

(** placeOrder; [None] while the send has not answered. *)
Definition daemonPlaceOrder (i : placeInput) (w : world) : option (world * writeOutcome) :=
  let auth := pi_auth i in
  let status := wa_Status auth in
  let refused w e := Some (w, Refused e) in
  if negb (wa_Allowed auth)
  then refused w (RefGo (mkErr "trading_disabled" (firstTradingBlockerMessage (wa_Blockers auth))))
  else
    match verifyPreviewTokenForPlace (pi_signer i) (pi_clock i) (pi_gate i) (present (wd_journal w)) (pi_token i) with
    | Err e => refused w (RefGo e)
    | Ok payload =>
        match placeRefusal i payload with
        | Some e => refused w (RefGo e)
        | None =>
            if tp_Scope payload =s OrderTokenScopeProtectedAdd then Some (w, ProtectedAdd payload)
            else
              match pi_link i with
              | Err e => refused w (RefGo e)
              | Ok (group, type) =>
                  let draft := (tp_Draft payload) <| dr_OCAGroup := group |> <| dr_OCAType := type |> in
                  match reserveBoundBrokerOrderID (pi_reserve i) (wd_journal w) (wd_broker w) with
                  | None => None
                  | Some (k, inr e) => refused (w <| wd_broker := k |>) e
                  | Some (k, inl id) =>
                      let w := w <| wd_broker := k |> in
                      match pi_attempt i with
                      | None => refused w (RefGo (mkErr "" "prepare broker place attempt"))
                      | Some attemptID =>
                          if negb (pi_current i) then refused w (RefGo driftError)
                          else
                            let '(j, staged) :=
                              JournalStagePreTransmit (pi_stage i) (interfere (pi_stageOps i) (wd_journal w))
                                (tp_TokenID payload) (tp_AuthorityEpoch payload) (tp_SignerGeneration payload) id
                                ActionPlace (coreOrderOrigin (pi_origin i)) (placeEvents i payload draft id attemptID) in
                            let w := w <| wd_journal := j |> in
                            match staged with
                            | Err e => refused w (RefJournal e)
                            | Ok _ =>
                                match submitBoundConfiguredOrder (pi_binding i) (pi_send i) (wd_journal w)
                                        (previewIBKRStrategyContract draft) (placedOrder status draft id) (wd_broker w) with
                                | None => None
                                | Some (k, err) =>
                                    Some (finishSend (pi_outcome i) draft status (tp_TokenID payload) id attemptID
                                            ActionPlace err
                                            (w <| wd_journal := interfere (bd_guardOps (pi_send i)) (wd_journal w) |>
                                               <| wd_broker := k |>))
                                end
                            end
                      end
                  end
              end
        end
    end.

(** ** Modifying *)

Record modifyInput := mkModifyInput {
  mi_auth : writeAuth; mi_binding : writeBinding; mi_signer : option orderTokenSigner; mi_gate : TradingStatus;
  mi_clock : time; mi_now : time; mi_id : string; mi_token : string; mi_origin : string;
  mi_rows1 : wres (list OrderView); mi_rows2 : wres (list OrderView); mi_reports : option brokerOrderReports;
  mi_stopGrant : option stopGuardGrant; mi_mandated : bool; mi_guardGrant : option goerr; mi_attempt : option string;
  mi_risk : option goerr; mi_position : float64; mi_fee : option (float64 * string); mi_current : bool;
  mi_readOps : list op; mi_stageOps : list op; mi_stage : appendEnv; mi_send : boundSend; mi_outcome : outcomeEnv
}.

Definition when (b : bool) (e : goerr) : wres unit := if b then Err e else Ok tt.
Definition answered (e : option goerr) : wres unit := match e with Some e => Err e | None => Ok tt end.

(** The draft that replaces the row: everything that identifies the order is the
    row's own. *)
Definition modifiedDraftOf (view : OrderView) (d : OrderDraft) : OrderDraft :=
  d <| dr_OrderRef := v_OrderRef view |> <| dr_Contract := modifyContractForView view (dr_Contract d) |>
    <| dr_OutsideRTH := v_OutsideRTH view |> <| dr_OCAGroup := v_OCAGroup view |> <| dr_OCAType := v_OCAType view |>.

(** The checks of modifyOrder on the row, up to the staging: token payload,
    attempt id, replacement draft and broker order. *)
Definition modifyChecks (i : modifyInput) (journal : bool) (view : OrderView)
    : wres (orderPreviewTokenPayload * string * OrderDraft * RawOrder) :=
  let status := wa_Status (mi_auth i) in
  let? _ := when (v_ReservedOrderID view <=? 0) (errBadRequest "order modify requires a broker order ID") in
  let? _ := when (v_ConID view <=? 0) (errBadRequest "order modify requires an exact positive contract identity") in
  let? _ := when (negb (v_ModifyEligible view)) (errBadRequest "order is not modify-eligible") in
  let? _ := validateReportedOwnOrder (mi_reports i) view true in
  let? payload := verifyPreviewTokenForModify (mi_signer i) (mi_clock i) (mi_gate i) journal (mi_token i) view in
  let? _ := serverValidateModifyDraft g4 (mi_stopGrant i) (mi_mandated i) view (tp_Draft payload) in
  let? _ := answered (mi_guardGrant i) in
  match mi_attempt i with
  | None => Err (mkErr "" "prepare broker modify attempt")
  | Some attemptID =>
      let draft := modifiedDraftOf view (tp_Draft payload) in
      let? _ := answered (wa_bindingErr (mi_auth i)) in
      let? _ := answered (mi_risk i) in
      let? _ := if orderViewIsCloseProtective view
                then serverValidateProtectiveModifyQuantity g4 (mi_stopGrant i) (mi_mandated i) view draft (mi_position i)
                else Ok tt in
      let? order := modifyPreviewWhatIfOrder view draft status in
      let? order := if present (dr_EntryLink draft) then attachedStockStopModifyOrder g4 view draft status else Ok order in
      let? _ := when (negb (mi_current i)) driftError in
      Ok (payload, attemptID, draft, order)
  end.

(** The two events a modify stages. *)
Definition modifyEvents (i : modifyInput) (view : OrderView) (payload : orderPreviewTokenPayload) (draft : OrderDraft)
    (order : RawOrder) (attemptID : string) : list orderJournalEvent :=
  let route := wa_Route (mi_auth i) in
  [previewTokenConfirmedEvent payload (v_OrderRef view) (v_Endpoint view) (v_ReservedOrderID view) (mi_now i) false
     (say ["preview token confirmed for "; route; " broker modify"]);
   orderJournalEventForDraft draft orderJournalEventModifyRequested (orderJournalStatusFor view (wa_Status (mi_auth i)))
     (tp_TokenID payload) (v_ReservedOrderID view) (mi_now i) (f_of_Z (rw_TotalQty order))
     (mkStamp attemptID ActionModify orderSendStateSendAttempted (normalizedWriteOrigin (mi_origin i)) ""
        (say [route; " broker modify attempted"]) (mi_fee i))].

(** The binding carries the staged event to the wire guard. *)
Definition boundToOrder (b : writeBinding) (view : OrderView) (seq : Z) : writeBinding :=
  mkBinding (bn_endpoint b) (bn_clientID b) (bn_account b) (bn_mode b) (v_ReservedOrderID view) seq (v_Endpoint view).

(** modifyOrder; [mi_readOps] separate the read of the order's sequence from the
    staging. *)
Definition modifyOrder (i : modifyInput) (w : world) : option (world * writeOutcome) :=
  let auth := mi_auth i in
  let status := wa_Status auth in
  let refused w e := Some (w, Refused e) in
  if negb (wa_Allowed auth)
  then refused w (RefGo (mkErr "trading_disabled" (firstTradingBlockerMessage (wa_Blockers auth))))
  else
    match openOrderViewForWrite (mi_id i) status (mi_rows1 i) with
    | Err e => refused w (RefGo e)
    | Ok view1 =>
        let j0 := interfere (mi_readOps i) (wd_journal w) in
        match JournalLatestOrderEventSeq j0 (orderJournalEventFromView view1 orderJournalEventModifyRequested (mi_now i)) with
        | Err e => refused w (RefJournal e)
        | Ok expected =>
            match
              let? view := openOrderViewForWrite (mi_id i) status (mi_rows2 i) in
              let? checked := modifyChecks i (present (wd_journal w)) view in
              Ok (view, checked)
            with
            | Err e => refused w (RefGo e)
            | Ok (view, (payload, attemptID, draft, order)) =>
                let '(j, staged) :=
                  StageModifyPreTransmit (mi_stage i) (interfere (mi_stageOps i) j0) (tp_TokenID payload)
                    (tp_AuthorityEpoch payload) (tp_SignerGeneration payload) (v_ReservedOrderID view)
                    (coreOrderOrigin (mi_origin i)) expected (modifyEvents i view payload draft order attemptID) in
                let w := w <| wd_journal := j |> in
                match staged with
                | Err e => refused w (RefJournal e)
                | Ok seq =>
                    let raw := addressed order (v_ReservedOrderID view) (rt_ClientID status) (rt_Account status)
                                 (rw_TotalQty order) (changeOf view) in
                    match submitBoundConfiguredOrder (boundToOrder (mi_binding i) view seq) (mi_send i) j
                            (previewIBKRStrategyContract draft) raw (wd_broker w) with
                    | None => None
                    | Some (k, err) =>
                        Some (finishSend (mi_outcome i) (draft <| dr_Quantity := rw_TotalQty order |>)
                                (orderJournalStatusFor view status) (tp_TokenID payload) (v_ReservedOrderID view) attemptID
                                ActionModify err
                                (w <| wd_journal := interfere (bd_guardOps (mi_send i)) j |> <| wd_broker := k |>))
                    end
                end
            end
        end
    end.

(** ** Cancelling *)

Record cancelInput := mkCancelInput {
  ci_action : ActionKind; ci_auth : writeAuth; ci_binding : writeBinding; ci_id : string; ci_origin : string;
  ci_now : time; ci_rows : wres (list OrderView); ci_reports : option brokerOrderReports; ci_guardGrant : option goerr;
  ci_attempt : option string; ci_current : bool; ci_stageOps : list op; ci_stage : appendEnv; ci_send : boundSend;
  ci_recheck : option brokerOrderReports; ci_outcome : outcomeEnv
}.

(** The checks of cancelOrderForAction up to the staging. *)
Definition cancelChecks (i : cancelInput) : wres (OrderView * string) :=
  let? view := openOrderViewForWrite (ci_id i) (wa_Status (ci_auth i)) (ci_rows i) in
  let? _ := when (v_ReservedOrderID view <=? 0) (errBadRequest "order cancel requires a broker order ID") in
  let? _ := when (negb (v_CancelEligible view)) (errBadRequest "order is not cancel-eligible") in
  let? _ := validateReportedOwnOrder (ci_reports i) view false in
  let? _ := answered (ci_guardGrant i) in
  let? _ := answered (wa_bindingErr (ci_auth i)) in
  match ci_attempt i with
  | None => Err (mkErr "" "prepare broker cancel attempt")
  | Some attemptID => let? _ := when (negb (ci_current i)) driftError in Ok (view, attemptID)
  end.

Definition cancelEvent (i : cancelInput) (view : OrderView) (attemptID : string) : orderJournalEvent :=
  (orderJournalEventFromView view orderJournalEventCancelRequested (ci_now i)) <| e_AttemptID := attemptID |>
    <| e_ActionKind := ci_action i |> <| e_SendState := "" |> <| e_Origin := normalizedWriteOrigin (ci_origin i) |>
    <| e_Message := say [wa_Route (ci_auth i); " broker cancel attempted"] |>.

(** cancelOrderForAction *)
Definition cancelOrderForAction (i : cancelInput) (w : world) : option (world * writeOutcome) :=
  let auth := ci_auth i in
  let refused w e := Some (w, Refused e) in
  if (ci_action i <>s ActionCancel) && (ci_action i <>s ActionSmokeCleanup)
  then refused w (RefGo (errBadRequest "order cancel action kind is invalid"))
  else if negb (wa_Allowed auth)
  then refused w (RefGo (mkErr "trading_disabled" (firstTradingBlockerMessage (wa_Blockers auth))))
  else
    match cancelChecks i with
    | Err e => refused w (RefGo e)
    | Ok (view, attemptID) =>
        let '(j, staged) :=
          JournalStagePreTransmit (ci_stage i) (interfere (ci_stageOps i) (wd_journal w)) "" "" 0 (v_ReservedOrderID view)
            (ci_action i) (coreOrderOrigin (ci_origin i)) [cancelEvent i view attemptID] in
        let w := w <| wd_journal := j |> in
        match staged with
        | Err e => refused w (RefJournal e)
        | Ok _ =>
            match cancelBoundConfiguredOrder (ci_binding i) (ci_send i) j (v_ReservedOrderID view)
                    (validateReportedOwnOrder (ci_recheck i) view false) (wd_broker w) with
            | None => None
            | Some (k, err) =>
                Some (finishSend (ci_outcome i) (orderDraftFromView view) (orderJournalStatusFor view (wa_Status auth))
                        (v_PreviewTokenID view) (v_ReservedOrderID view) attemptID (ci_action i) err
                        (w <| wd_journal := interfere (bd_guardOps (ci_send i)) j |> <| wd_broker := k |>))
            end
        end
    end.

(** ** What the parts do to the wire and to the store *)

Definition writerOf (k : connector) : option bufw := cn_writer (bc_wire (kt_conn k)).

Lemma reserve_session_writer tr cur fee epoch k k' r :
  ReserveOrderIDForSession tr cur fee epoch k = Some (k', r) -> writerOf k' = writerOf k.
Proof.
  unfold ReserveOrderIDForSession. destruct (negb tr); [by intros [= <- _]|]. destruct (negb cur); [by intros [= <- _]|].
  destruct (nextDisjointOrderID _ _ _) as [[ids [[id e]|]]|]; [by intros [= <- _] | by intros [= <- _] | done].
Qed.

Lemma reserve_above env floor fuel k k' r :
  reserveAbove env floor fuel k = Some (k', r) ->
  writerOf k' = writerOf k /\ match r with Ok id => floor < id | Err _ => True end.
Proof.
  revert k. induction fuel as [|fuel IH]; intros k; [done|]. cbn [reserveAbove].
  destruct (ReserveOrderIDForSession _ _ _ _ k) as [[k1 [id|e]]|] eqn:E; [|by intros [= <- <-]; apply reserve_session_writer in E | done].
  apply reserve_session_writer in E. destruct (id <=? floor) eqn:Hle.
  - intros H. apply IH in H as [H ?]. by rewrite H.
  - intros [= <- <-]. split; [done|]. by apply Z.leb_gt.
Qed.

Lemma reserve_writer env j k k' r :
  reserveBoundBrokerOrderID env j k = Some (k', r) -> writerOf k' = writerOf k.
Proof.
  unfold reserveBoundBrokerOrderID. cbv zeta. destruct (rv_ctx env); [by intros [= <- _]|].
  destruct (negb _); [by intros [= <- _]|]. destruct (reservedBrokerOrderIDFloor j); [|by intros [= <- _]].
  destruct (negb _); [by intros [= <- _]|]. destruct (rv_ctx2 env); [by intros [= <- _]|].
  destruct (reserveAbove _ _ _ k) as [[k1 [id|e]]|] eqn:E; [| |done]; apply reserve_above in E as [E _]; by intros [= <- _].
Qed.

Lemma bound_refusal_writer env k k' err :
  boundRefusal env k = Some (Some (k', err)) -> writerOf k' = writerOf k /\ exists e, err = Some e.
Proof.
  assert (Hd : forall e d, exists e', WithSendDisposition (Some e) d = Some e')
    by (intros e d; unfold WithSendDisposition; destruct (present _); eauto).
  unfold boundRefusal, unsentCanceled, unsentText, definitelyUnsent. intros H.
  repeat (case_match; try done); injection H as <- <-; by split.
Qed.

(** Bytes of an order go out only when the wire guard agrees. *)
Lemma submit_bound_guarded b env j contract raw k k' err :
  submitBoundConfiguredOrder b env j contract raw k = Some (k', err) -> writerOf k' <> writerOf k ->
  brokerWireGuard b env (interfere (bd_guardOps env) j) = None.
Proof.
  unfold submitBoundConfiguredOrder. destruct (boundRefusal env k) as [r|] eqn:Hb.
  { intros -> Hne. by apply bound_refusal_writer in Hb as [Hb _]. }
  intros Hs Hne. destruct (brokerWireGuard _ _ _) eqn:Hg; [|done]. exfalso. apply Hne.
  apply refused_submit in Hs; [exact Hs | done].
Qed.

Lemma interfere_some ops j s : interfere ops j = Some s -> exists s0, j = Some s0 /\ s = run s0 ops.
Proof. destruct j as [s0|]; [|done]. intros [= <-]. by exists s0. Qed.

Lemma append_extends env s ev j r :
  Append env (Some s) ev = (j, r) -> exists s', j = Some s' /\ extends (st_db s) (st_db s').
Proof.
  unfold Append, AppendAll, appendAllAtHead. destruct (coreStore (Some s)) as [s0|e] eqn:Hc; [|by intros [= <- _]; exists s].
  assert (s0 = s) as ->. { unfold coreStore in Hc. by destruct (negb _); [|injection Hc as <-]. }
  destruct (encodeEvents env 0 "" "" [ev]); [|by intros [= <- _]; exists s]. cbn [Z.leb].
  change (0 <=? -1) with false. destruct (AppendOrderEvents _ _ _ _) as [s' rr] eqn:Ha. intros [= <- _]. exists s'. split; [done|].
  change s' with ((s', rr).1). rewrite <- Ha. unfold AppendOrderEvents.
  apply (step_extends s (OpAppend (ae_faults env) (ae_order env) (-1) (map fst a))).
Qed.

(** The outcome row only adds to the store; if it cannot be written the latch is set. *)
Lemma finish_effect env draft status tok id att action err w w' out :
  finishSend env draft status tok id att action err w = (w', out) ->
  wd_broker w' = wd_broker w /\
  (forall s, wd_journal w = Some s -> exists s', wd_journal w' = Some s' /\ extends (st_db s) (st_db s')) /\
  match out with
  | Accepted => err = None
  | TransmitFailed e r => e = err /\ err <> None /\ (is_ok r = true \/ wd_journal w = None \/ wd_uncertain w' = true)
  | Unrecorded _ => err = None /\ (wd_journal w = None \/ wd_uncertain w' = true)
  | _ => False
  end.
Proof.
  unfold finishSend. cbv zeta. set (ev1 := orderJournalEventForDraft _ orderJournalEventSendError _ _ _ _ _ _).
  set (ev2 := orderJournalEventForDraft _ orderJournalEventSendCompleted _ _ _ _ _ _).
  assert (Ha : forall ev w1 r, appendOutcome env ev w = (w1, r) ->
    wd_broker w1 = wd_broker w /\
    (forall s, wd_journal w = Some s -> exists s', wd_journal w1 = Some s' /\ extends (st_db s) (st_db s')) /\
    (is_ok r = true \/ wd_journal w = None \/ wd_uncertain w1 = true)).
  { intros ev w1 r. unfold appendOutcome. destruct (wd_journal w) as [s|] eqn:Hj.
    - destruct (Append _ _ ev) as [j rr] eqn:E. intros [= <- <-]. apply append_extends in E as (s' & -> & Hex).
      split_and!; [done| |]; cbn.
      + intros s1 [= <-]. exists s'. split; [done|]. etrans; [apply run_extends | exact Hex].
      + destruct rr; [by left|]. right. right. by rewrite orb_true_r.
    - intros [= <- <-]. rewrite Hj. split_and!; auto; done. }
  destruct err as [e|].
  - destruct (appendOutcome env ev1 w) as [w1 r] eqn:E. intros [= <- <-]. destruct (Ha _ _ _ E) as (? & ? & ?). done.
  - destruct (appendOutcome env ev2 w) as [w1 r] eqn:E. intros [= <- <-]. destruct (Ha _ _ _ E) as (? & ? & Hl).
    split_and!; try done. destruct r; [done|]. split; [done|]. destruct Hl as [|]; done.
Qed.

(** ** What a staging makes durable *)

Definition tokenDigest (tokenID : string) : string := if tokenID <>s "" then HashPreviewTokenID tokenID else zero_digest.

(** The event the journal stores for one it is handed: the same, with its time,
    version, action and origin filled in and its route normalised. *)
Definition storedAs (ev ev' : orderJournalEvent) : Prop :=
  exists now action origin, ev' = (normalizeRecordEvent now ev) <| e_ActionKind := action |> <| e_TransmitOrigin := origin |>.

(** An order row and the log row beside it hold the event [ev] of order [id]: the
    log's payload is its JSON text. *)
Record rowHolds (id : Z) (ev : orderJournalEvent) (r : orderRow) (l : logRow) : Prop := {
  rh_seq : log_seq l = row_seq r;
  rh_type : row_type r = e_Type ev;
  rh_id : e_ReservedOrderID ev = id /\ row_reserved_order_id r = nullablePositive id;
  rh_ref : row_order_ref r = nullableString (e_OrderRef ev);
  rh_token : row_preview_token_id r = nullableString (e_PreviewTokenID ev);
  rh_payload : json_marshal ev = Some (log_payload l)
}.

(** From [s1] to [s2]: one row per event, in the order table and in the log, for the
    order [id]; the token was unspent and is spent; a placement's id lies above every
    id staged before. *)
Record staged (s1 s2 : store) (tokenID : string) (action : ActionKind) (id : Z) (evs : list orderJournalEvent)
    (rows : list orderRow) (logs : list logRow) : Prop := {
  sg_extends : extends (st_db s1) (st_db s2);
  sg_orders : db_orders (st_db s2) = db_orders (st_db s1) ++ rows;
  sg_log : db_log (st_db s2) = db_log (st_db s1) ++ logs;
  sg_rows : Forall3 (rowHolds id) evs rows logs;
  sg_seqs : Forall (fun r => db_autoincrement (st_db s1) < row_seq r) rows;
  sg_token : zeroDigest (tokenDigest tokenID) = false ->
    db_tokens (st_db s1) !! tokenDigest tokenID = None /\ is_Some (db_tokens (st_db s2) !! tokenDigest tokenID);
  sg_floor : action = ActionPlace -> readGlobalFloor (st_db s1) < id
}.

(** The record of an event. *)
Definition recordHolds (ev : orderJournalEvent) (r : OrderEventRecord) : Prop :=
  r_Type r = e_Type ev /\ r_ReservedOrderID r = e_ReservedOrderID ev /\ r_OrderRef r = e_OrderRef ev /\
  r_PreviewTokenID r = e_PreviewTokenID ev /\ json_marshal ev = Some (r_RawJSON r).

Lemma record_kind now id ev action origin p :
  coreOrderEventRecord now id ev action origin = Ok p ->
  storedAs ev p.2 /\ recordHolds p.2 p.1 /\ e_ReservedOrderID p.2 = e_ReservedOrderID ev.
Proof.
  unfold coreOrderEventRecord, storedAs. remember (normalizeRecordEvent now ev) as n eqn:Hn.
  assert (Hid : e_ReservedOrderID n = e_ReservedOrderID ev) by (by subst n).
  cbv zeta. intros H. apply rbind_ok in H as (? & _ & H). apply rbind_ok in H as (? & _ & H).
  match type of H with context [n <| e_ActionKind := ?x |>] => generalize dependent x end. intros a H.
  do 2 (case_if_in H; [done|]).
  match type of H with context [_ <| e_TransmitOrigin := ?x |>] => generalize dependent x end. intros o H. case_if_in H; [done|].
  remember (n <| e_ActionKind := a |> <| e_TransmitOrigin := o |>) as ev1 eqn:Hev.
  assert (Hid1 : e_ReservedOrderID ev1 = e_ReservedOrderID ev) by (rewrite <- Hid; by subst ev1).
  destruct (json_marshal ev1) as [raw|] eqn:Hj; [|done]. destruct id; [|done]. injection H as <-. cbn [fst snd].
  split; [exists now, a, o; by subst | done].
Qed.

#[local] Opaque coreOrderEventRecord.

Lemma stage_loop_kinds env i action origin events scope floor recs scope' reserved :
  Forall (fun ev => e_ReservedOrderID ev = floor) events ->
  stageLoop env i action origin events scope floor = Ok (recs, scope', reserved) ->
  reserved = floor /\ exists evs, Forall2 storedAs events evs /\ Forall2 recordHolds evs recs /\
    Forall (fun ev => e_ReservedOrderID ev = floor) evs.
Proof.
  revert i scope recs scope'. induction events as [|ev events IH]; intros i scope recs scope' Hall H; cbn [stageLoop] in H.
  { injection H as <- _ <-. split; [done|]. exists []. by split_and!. }
  apply Forall_cons in Hall as [Hev Hall]. apply rbind_ok in H as (p & Hp & H). apply rbind_ok in H as (sc & _ & H).
  apply record_kind in Hp as (Hst & Hk & Hr). cbv zeta in H. rewrite Hr, Hev, Z.ltb_irrefl in H.
  apply rbind_ok in H as ([[rs sc2] res] & Hq & H). injection H as <- _ <-. cbn. apply IH in Hq as (-> & evs & H1 & H2 & H3); [|done].
  split; [reflexivity|]. exists (p.2 :: evs). split_and!; constructor; try done. by rewrite Hr.
Qed.

(** What the store's own checks leave of a record. *)
Definition sameRecord (r r' : OrderEventRecord) : Prop :=
  r_Type r' = r_Type r /\ r_ReservedOrderID r' = r_ReservedOrderID r /\ r_OrderRef r' = r_OrderRef r /\
  r_PreviewTokenID r' = r_PreviewTokenID r /\ r_RawJSON r' = r_RawJSON r.

Lemma stage_events_kinds request hasToken events b out b' :
  stageEvents request hasToken events b = Ok (out, b') -> Forall2 sameRecord events out.
Proof.
  revert b out b'. induction events as [|e events IH]; intros b out b' Hs; simpl in Hs.
  { injection Hs as <- _. constructor. }
  ok_inv Hs. injection Hs as <- _. destruct a as [e1 n1], a0 as [out2 b2]. simpl in *.
  constructor; [|by eapply IH]. clear Ha0 IH. unfold stageEvent in Ha. apply rbind_ok in Ha as (e0 & He0 & Ha).
  assert (Hsc : sameRecord e e0).
  { case_if_in He0; [by injection He0 as <-|]. case_if_in He0; [done|]. by injection He0 as <-. }
  cbv zeta in Ha. ok_inv Ha. injection Ha as <- _. by repeat case_if.
Qed.

Lemma new_rows_hold seq n evs recs t id :
  Forall (fun ev => e_ReservedOrderID ev = id) evs -> Forall2 recordHolds evs recs ->
  Forall3 (rowHolds id) evs (newOrderRows seq n recs t) (newLogRows seq recs).
Proof.
  intros Hid Hf. revert seq n Hid.
  induction Hf as [|ev e evs recs (Ht & Hr & Hf & Hk & Hj) _ IH]; intros seq n Hid; cbn [newOrderRows newLogRows]; [constructor|].
  apply Forall_cons in Hid as [Hev Hid]. constructor; [|by apply IH].
  split; cbn; rewrite ?Ht, ?Hr, ?Hf, ?Hk, ?Hev; done.
Qed.

Lemma recordHolds_same evs recs recs' :
  Forall2 recordHolds evs recs -> Forall2 sameRecord recs recs' -> Forall2 recordHolds evs recs'.
Proof.
  intros H. revert recs'. induction H as [|ev r evs recs Hr _ IH]; intros recs' Hs; inversion Hs as [|? r' ? recs1 Hrr Hs1]; subst; constructor; [|by apply IH].
  destruct Hr as (H1 & H2 & H3 & H4 & H5), Hrr as (E1 & E2 & E3 & E4 & E5). unfold recordHolds. rewrite E1, E2, E3, E4, E5. done.
Qed.

Lemma stageTx_rows request events d d' r :
  stageTx request events d = Ok (d', r) ->
  db_orders d' = db_orders d ++ newOrderRows (db_autoincrement d) 0 events
    (if negb (zeroDigest (q_TokenDigest request)) then Some (q_TokenDigest request) else None) /\
  db_log d' = db_log d ++ newLogRows (db_autoincrement d) events.
Proof.
  unfold stageTx. cbv zeta. intros Hs. ok_inv Hs. unfold advanceOrderIDFloorsTx in Hs. ok_inv Hs.
  destruct a2 as [d2 qs]. injection Hs as <- _. unfold appendOrderEventsTx in Ha2.
  apply bindBrokerScopeTx_frame in Ha as (_ & _ & _ & Ho & Hl & Hn & _).
  apply append_rows in Ha2 as (Hlog & Hr & _ & _). cbn in Hr, Hlog |- *. rewrite Hr, Hlog.
  destruct (negb _).
  - apply consumeTokenTx_frame in Ha0 as (_ & _ & _ & _ & _ & _ & Ho2 & Hl2 & Hn2 & _). by rewrite Ho2, Hl2, Hn2, Ho, Hl, Hn.
  - injection Ha0 as <-. by rewrite Ho, Hl, Hn.
Qed.

Lemma new_rows_seqs seq n events t : map row_seq (newOrderRows seq n events t) = newSeqs seq events.
Proof. revert seq n. induction events as [|e events IH]; intros seq n; cbn; [done|]. by rewrite IH. Qed.

Lemma new_rows_after seq n events t : Forall (fun r => seq < row_seq r) (newOrderRows seq n events t).
Proof.
  revert seq n. induction events as [|e events IH]; intros seq n; cbn; constructor; [cbn; lia|].
  eapply Forall_impl; [apply IH|]. cbn. intros; lia.
Qed.

Lemma stageTx_seqs request events d d' r :
  stageTx request events d = Ok (d', r) -> pr_EventSeqs r = newSeqs (db_autoincrement d) events.
Proof.
  unfold stageTx. cbv zeta. intros Hs. ok_inv Hs. unfold advanceOrderIDFloorsTx in Hs. ok_inv Hs.
  destruct a2 as [d2 qs]. injection Hs as _ <-. unfold appendOrderEventsTx in Ha2.
  apply bindBrokerScopeTx_frame in Ha as (_ & _ & _ & _ & _ & Hn & _).
  apply append_rows in Ha2 as (_ & _ & _ & Hq). cbn in Hq |- *. rewrite Hq.
  destruct (negb _).
  - apply consumeTokenTx_frame in Ha0 as (_ & _ & _ & _ & _ & _ & _ & _ & Hn2 & _). by rewrite Hn2, Hn.
  - injection Ha0 as <-. by rewrite Hn.
Qed.

Lemma stage_effect env s1 tok ep gen id action origin events expected j r :
  Forall (fun ev => e_ReservedOrderID ev = id) events ->
  stagePreTransmitLocked env (Some s1) tok ep gen id action origin events expected = (j, Ok r) ->
  exists s2 evs rows logs, j = Some s2 /\ Forall2 storedAs events evs /\ staged s1 s2 tok action id evs rows logs /\
    pr_EventSeqs r = map row_seq rows.
Proof.
  intros Hall H. unfold stagePreTransmitLocked in H.
  destruct (let? s := coreStore (Some s1) in _) as [[s request]|e] eqn:Hq; [|done].
  apply rbind_ok in Hq as (s0 & Hc & Hq). assert (s0 = s1) as ->.
  { unfold coreStore in Hc. by destruct (negb _); [|injection Hc as <-]. }
  destruct (match events with [] => true | _ => false end); [done|].
  apply rbind_ok in Hq as ([[recs scope] reserved] & Hl & Hq). injection Hq as <- <-.
  apply stage_loop_kinds in Hl as (-> & evs & Hst0 & Hkinds & Hids); [|done]. cbn [fst snd] in H.
  set (request := mkPreTransmit _ _ _ _ _ _ _ _ _ _) in H.
  destruct (StagePreTransmit s1 (ae_faults env) request) as [s2 rr] eqn:Hst.
  assert (Hok : rr = Ok r /\ j = Some s2). { destruct rr as [a|e]; [by injection H as <- <-|]. by destruct e. }
  destruct Hok as [-> ->].
  destruct (stage_committed s1 (ae_faults env) request) as (recs' & r' & Hv & Htx); [right; by rewrite Hst|].
  rewrite Hst in Htx. cbn in Htx.
  assert (r' = r) as ->.
  { unfold StagePreTransmit in Hst. rewrite Hv in Hst.
    assert (Ho := criticalMutation_outcome s1 (ae_faults env) (stageTx request recs')). rewrite Hst in Ho.
    inversion Ho; subst; congruence. }
  exists s2, evs, (newOrderRows (db_autoincrement (st_db s1)) 0 recs'
       (if negb (zeroDigest (q_TokenDigest request)) then Some (q_TokenDigest request) else None)),
     (newLogRows (db_autoincrement (st_db s1)) recs').
  split; [done|]. split; [done|]. split; [|rewrite new_rows_seqs; by apply stageTx_seqs in Htx].
  split.
  - assert (Hx := step_extends s1 (OpStage (ae_faults env) request)). cbn in Hx. by rewrite Hst in Hx.
  - by apply stageTx_rows in Htx as [? _].
  - by apply stageTx_rows in Htx as [_ ?].
  - apply new_rows_hold; [done|]. unfold stageValidate in Hv. ok_inv Hv. injection Hv as <-. destruct a0 as [out b]. cbn.
    apply stage_events_kinds in Ha0. cbn in Ha0. by eapply recordHolds_same.
  - apply new_rows_after.
  - intros Hz. apply stageTx_effect in Htx as [Htok _]. destruct (Htok Hz) as (? & ? & _). done.
  - intros ->. apply stageTx_effect in Htx as (_ & Hfl & _). by apply Hfl.
Qed.

(** ** The handlers, from outside *)

(** A run that never reached the send. *)
Definition notSent (w w' : world) (out : writeOutcome) : Prop :=
  writerOf (wd_broker w') = writerOf (wd_broker w) /\
  match out with Refused _ | ProtectedAdd _ => True | _ => False end.

(** What the outcome says of the send, and of the latch. *)
Definition outcomeOf (out : writeOutcome) (err : option sendErr) (w' : world) : Prop :=
  match out with
  | Accepted => err = None
  | TransmitFailed e r => e = err /\ err <> None /\ (is_ok r = true \/ wd_uncertain w' = true)
  | Unrecorded _ => err = None /\ wd_uncertain w' = true
  | _ => False
  end.

(** A run that reached the send: staged first, in the store as other writers left
    it; the send then ran on a connector whose writer nothing had touched, and the
    final store extends the one the wire guard saw. *)
Record sentAfterStaging (ops : list op) (send : boundSend) (w w' : world) (out : writeOutcome) (tokenID : string)
    (action : ActionKind) (id : Z) (evs : list orderJournalEvent) (s2 : store) (k : connector) (err : option sendErr) : Prop := {
  sf_staged : exists s0 rows logs, wd_journal w = Some s0 /\ staged (run s0 ops) s2 tokenID action id evs rows logs;
  sf_writer : writerOf k = writerOf (wd_broker w);
  sf_journal : exists s', wd_journal w' = Some s' /\ extends (st_db (run s2 (bd_guardOps send))) (st_db s');
  sf_outcome : outcomeOf out err w'
}.

Lemma stage_plain env j tok ep gen id action origin events j' :
  Forall (fun ev => e_ReservedOrderID ev = id) events ->
  JournalStagePreTransmit env j tok ep gen id action origin events = (j', Ok tt) ->
  exists s1 s2 evs rows logs, j = Some s1 /\ j' = Some s2 /\ Forall2 storedAs events evs /\
    staged s1 s2 tok action id evs rows logs.
Proof.
  intros Hall H. unfold JournalStagePreTransmit in H. destruct j as [s1|]; [|done].
  destruct (stagePreTransmitLocked _ _ _ _ _ _ _ _ _ _) as [jj [r|]] eqn:E; [|done]. injection H as <-.
  apply stage_effect in E as (s2 & evs & rows & logs & -> & He & Hs & _); [|done]. by exists s1, s2, evs, rows, logs.
Qed.

Lemma finish_sent env draft status tok0 tok id att action err w s2 send k w0 w' out ops evs j k0 :
  finishSend env draft status tok0 id att action err w = (w', out) ->
  wd_journal w = interfere (bd_guardOps send) (Some s2) -> wd_broker w = k ->
  wd_journal w0 = j -> (exists s0 rows logs, j = Some s0 /\ staged (run s0 ops) s2 tok action id evs rows logs) ->
  writerOf k0 = writerOf (wd_broker w0) ->
  sentAfterStaging ops send w0 w' out tok action id evs s2 k0 err /\ wd_broker w' = k.
Proof.
  intros Hf Hj Hk Hj0 Hst Hw. apply finish_effect in Hf as (Hb & Hx & Ho). cbn in Hj.
  split; [|congruence]. split; [by rewrite Hj0 | done | by apply Hx |].
  unfold outcomeOf. destruct out; try done; destruct Ho as (? & Ho); [destruct Ho as [? Ho]|];
    rewrite Hj in Ho; intuition congruence.
Qed.

Lemma place_inv i w w' out :
  daemonPlaceOrder i w = Some (w', out) ->
  notSent w w' out \/
  exists payload draft id att evs s2 k err,
    verifyPreviewTokenForPlace (pi_signer i) (pi_clock i) (pi_gate i) (present (wd_journal w)) (pi_token i) = Ok payload /\
    (exists link, pi_link i = Ok link /\ draft = (tp_Draft payload) <| dr_OCAGroup := link.1 |> <| dr_OCAType := link.2 |>) /\
    Forall2 storedAs (placeEvents i payload draft id att) evs /\
    sentAfterStaging (pi_stageOps i) (pi_send i) w w' out (tp_TokenID payload) ActionPlace id evs s2 k err /\
    submitBoundConfiguredOrder (pi_binding i) (pi_send i) (Some s2) (previewIBKRStrategyContract draft)
      (placedOrder (wa_Status (pi_auth i)) draft id) k = Some (wd_broker w', err).
Proof.
  unfold daemonPlaceOrder. cbv zeta. intros H.
  destruct (negb _); [by injection H as <- <-; left|].
  destruct (verifyPreviewTokenForPlace _ _ _ _ _) as [payload|]; [|by injection H as <- <-; left].
  destruct (placeRefusal i payload); [by injection H as <- <-; left|].
  destruct (tp_Scope payload =s _); [by injection H as <- <-; left|].
  destruct (pi_link i) as [[group type]|]; [|by injection H as <- <-; left].
  destruct (reserveBoundBrokerOrderID _ _ _) as [[k [id|e]]|] eqn:Hr; [| |done]; apply reserve_writer in Hr;
    [|by injection H as <- <-; left].
  destruct (pi_attempt i) as [att|]; [|by injection H as <- <-; left].
  destruct (negb _); [by injection H as <- <-; left|].
  set (draft := (tp_Draft payload) <| dr_OCAGroup := group |> <| dr_OCAType := type |>) in H. set (events := placeEvents i payload draft id att) in H.
  destruct (JournalStagePreTransmit _ _ _ _ _ _ _ _ _) as [j [[]|e]] eqn:Hst; [|by injection H as <- <-; left].
  apply stage_plain in Hst as (s1 & s2 & evs & rows & logs & Hj1 & -> & Hevs & Hst); [|by repeat constructor].
  apply interfere_some in Hj1 as (s0 & Hj0 & ->). cbn in Hj0.
  change (wd_journal (set_field wd_journal _ _)) with (Some s2) in H.
  change (wd_broker (set_field wd_journal _ _)) with k in H.
  destruct (submitBoundConfiguredOrder _ _ _ _ _ _) as [[k2 err]|] eqn:Hs; [|done]. injection H as Hf.
  right. exists payload, draft, id, att, evs, s2, k, err. split; [done|]. split; [by exists (group, type)|]. split; [exact Hevs|].
  eapply (finish_sent _ _ _ _ _ _ _ _ _ _ s2 (pi_send i) k2 w w' out (pi_stageOps i)) in Hf as [Hf Hb];
    [rewrite Hb; split; [exact Hf | exact Hs] | done | done | done | by exists s0, rows, logs | done].
Qed.

Lemma stage_modify env j tok ep gen id origin expected events j' seq :
  Forall (fun ev => e_ReservedOrderID ev = id) events ->
  StageModifyPreTransmit env j tok ep gen id origin expected events = (j', Ok seq) ->
  exists s1 s2 evs rows logs r, j = Some s1 /\ j' = Some s2 /\ Forall2 storedAs events evs /\
    staged s1 s2 tok ActionModify id evs rows logs /\ last rows = Some r /\ row_seq r = seq.
Proof.
  intros Hall H. unfold StageModifyPreTransmit in H. destruct j as [s1|]; [|done].
  destruct (stagePreTransmitLocked _ _ _ _ _ _ _ _ _ _) as [jj [r|]] eqn:E; [|done]. cbn [rbind] in H.
  apply stage_effect in E as (s2 & evs & rows & logs & -> & He & Hs & Hq); [|done]. rewrite Hq in H. change (map row_seq rows) with (row_seq <$> rows) in H.
  rewrite fmap_last in H. destruct (last rows) as [row|] eqn:Hl; [|done]. injection H as <- <-. by exists s1, s2, evs, rows, logs, row.
Qed.

Lemma run_app s ops1 ops2 : run s (ops1 ++ ops2) = run (run s ops1) ops2.
Proof. apply fold_left_app. Qed.

(** The broker is asked for the row's fills plus the signed remainder. *)
Lemma whatif_total view draft status o :
  modifyPreviewWhatIfOrder view draft status = Ok o -> rw_TotalQty o = dr_Quantity draft + int_of_float (v_Filled view).
Proof.
  unfold modifyPreviewWhatIfOrder, protectionModifyTotal. intros H. apply rbind_ok in H as (total & Ht & H).
  case_if_in Ht; [done|]. injection Ht as <-. by injection H as <-.
Qed.

Lemma attached_total view draft status o :
  attachedStockStopModifyOrder g4 view draft status = Ok o -> rw_TotalQty o = dr_Quantity draft + int_of_float (v_Filled view).
Proof.
  unfold attachedStockStopModifyOrder. intros H. apply rbind_ok in H as (? & _ & H). apply rbind_ok in H as (o0 & Ho & H).
  injection H as <-. by apply whatif_total in Ho.
Qed.

(** What the checks of a modify establish: the broker stands behind the row, and the
    token is verified for it. *)
Lemma modify_checks_token i journal view payload att draft order :
  modifyChecks i journal view = Ok (payload, att, draft, order) ->
  0 < v_ReservedOrderID view /\ v_ModifyEligible view = true /\
  (forall reports, mi_reports i = Some reports -> brokerConfirms reports view) /\
  verifyPreviewTokenForModify (mi_signer i) (mi_clock i) (mi_gate i) journal (mi_token i) view = Ok payload /\
  draft = modifiedDraftOf view (tp_Draft payload) /\
  rw_TotalQty order = dr_Quantity (tp_Draft payload) + int_of_float (v_Filled view).
Proof.
  unfold modifyChecks. cbv zeta. intros H. unfold when in H.
  destruct (v_ReservedOrderID view <=? 0) eqn:Hid; [done|]. cbn [rbind] in H.
  destruct (v_ConID view <=? 0); [done|]. cbn [rbind] in H.
  destruct (v_ModifyEligible view) eqn:Hel; [|done]. cbn [negb rbind] in H.
  apply rbind_ok in H as ([] & Hrep & H). apply rbind_ok in H as (p & Hp & H). apply rbind_ok in H as (? & _ & H).
  apply rbind_ok in H as (? & _ & H). destruct (mi_attempt i) as [a|]; [|done].
  apply rbind_ok in H as (? & _ & H). apply rbind_ok in H as (? & _ & H). apply rbind_ok in H as (? & _ & H).
  apply rbind_ok in H as (o & Ho & H). apply rbind_ok in H as (o2 & Ho2 & H). apply rbind_ok in H as (? & _ & H).
  injection H as <- _ <- <-. apply Z.leb_gt in Hid. apply whatif_total in Ho. split_and!; try done.
  - intros reports Hm. rewrite Hm in Hrep. by apply reported_confirms.
  - destruct (present _); [by apply attached_total in Ho2 | by injection Ho2 as <-].
Qed.

Lemma modify_inv i w w' out :
  modifyOrder i w = Some (w', out) ->
  notSent w w' out \/
  exists view payload att draft order s0 s2 evs rows logs r err,
    openOrderViewForWrite (mi_id i) (wa_Status (mi_auth i)) (mi_rows2 i) = Ok view /\
    modifyChecks i (present (wd_journal w)) view = Ok (payload, att, draft, order) /\
    wd_journal w = Some s0 /\ Forall2 storedAs (modifyEvents i view payload draft order att) evs /\
    staged (run s0 (mi_readOps i ++ mi_stageOps i)) s2 (tp_TokenID payload) ActionModify (v_ReservedOrderID view)
      evs rows logs /\ last rows = Some r /\
    sentAfterStaging (mi_readOps i ++ mi_stageOps i) (mi_send i) w w' out (tp_TokenID payload) ActionModify
      (v_ReservedOrderID view) evs s2 (wd_broker w) err /\
    submitBoundConfiguredOrder (boundToOrder (mi_binding i) view (row_seq r)) (mi_send i) (Some s2)
      (previewIBKRStrategyContract draft)
      (addressed order (v_ReservedOrderID view) (rt_ClientID (wa_Status (mi_auth i))) (rt_Account (wa_Status (mi_auth i)))
         (rw_TotalQty order) (changeOf view)) (wd_broker w) = Some (wd_broker w', err).
Proof.
  unfold modifyOrder. cbv zeta. intros H.
  destruct (negb _); [by injection H as <- <-; left|].
  destruct (openOrderViewForWrite _ _ (mi_rows1 i)) as [view1|]; [|by injection H as <- <-; left].
  destruct (JournalLatestOrderEventSeq _ _) as [expected|]; [|by injection H as <- <-; left].
  destruct (openOrderViewForWrite _ _ (mi_rows2 i)) as [view|] eqn:Hv; [|by injection H as <- <-; left]. cbn [rbind] in H.
  destruct (modifyChecks _ _ _) as [[[[payload att] draft] order]|] eqn:Hc; [|by injection H as <- <-; left]. cbn [rbind] in H.
  destruct (StageModifyPreTransmit _ _ _ _ _ _ _ _ _) as [j [seq|e]] eqn:Hst; [|by injection H as <- <-; left].
  apply stage_modify in Hst as (s1 & s2 & evs & rows & logs & r & Hj1 & -> & Hevs & Hst & Hl & <-); [|by repeat constructor].
  apply interfere_some in Hj1 as (sr & Hj1 & ->). apply interfere_some in Hj1 as (s0 & Hj0 & ->). rewrite <- run_app in Hst.
  change (wd_broker (set_field wd_journal _ _)) with (wd_broker w) in H.
  destruct (submitBoundConfiguredOrder _ _ _ _ _ _) as [[k2 err]|] eqn:Hs; [|done]. injection H as Hf.
  right. exists view, payload, att, draft, order, s0, s2, evs, rows, logs, r, err.
  eapply (finish_sent _ _ _ _ _ _ _ _ _ _ s2 (mi_send i) k2 w w' out (mi_readOps i ++ mi_stageOps i)) in Hf as [Hf Hb];
    [|done | done | done | by exists s0, rows, logs | done]. rewrite Hb. split_and!; done.
Qed.

Lemma cancel_inv i w w' out :
  cancelOrderForAction i w = Some (w', out) ->
  notSent w w' out \/
  exists view att evs s2 err,
    cancelChecks i = Ok (view, att) /\ Forall2 storedAs [cancelEvent i view att] evs /\
    sentAfterStaging (ci_stageOps i) (ci_send i) w w' out "" (ci_action i) (v_ReservedOrderID view)
      evs s2 (wd_broker w) err /\
    cancelBoundConfiguredOrder (ci_binding i) (ci_send i) (Some s2) (v_ReservedOrderID view)
      (validateReportedOwnOrder (ci_recheck i) view false) (wd_broker w) = Some (wd_broker w', err).
Proof.
  unfold cancelOrderForAction. cbv zeta. intros H.
  destruct (_ && _); [by injection H as <- <-; left|]. destruct (negb _); [by injection H as <- <-; left|].
  destruct (cancelChecks i) as [[view att]|] eqn:Hc; [|by injection H as <- <-; left].
  destruct (JournalStagePreTransmit _ _ _ _ _ _ _ _ _) as [j [[]|e]] eqn:Hst; [|by injection H as <- <-; left].
  apply stage_plain in Hst as (s1 & s2 & evs & rows & logs & Hj1 & -> & Hevs & Hst); [|by repeat constructor].
  apply interfere_some in Hj1 as (s0 & Hj0 & ->).
  change (wd_broker (set_field wd_journal _ _)) with (wd_broker w) in H.
  destruct (cancelBoundConfiguredOrder _ _ _ _ _ _) as [[k2 err]|] eqn:Hs; [|done]. injection H as Hf.
  right. exists view, att, evs, s2, err.
  eapply (finish_sent _ _ _ _ _ _ _ _ _ _ s2 (ci_send i) k2 w w' out (ci_stageOps i)) in Hf as [Hf Hb];
    [|done | done | done | by exists s0, rows, logs | done]. rewrite Hb. split_and!; done.
Qed.

(** ** What the journaled events say *)

(** The event names the contract. *)
Definition namesContract (ev : orderJournalEvent) (c : ContractParams) : Prop :=
  e_ConID ev = cp_ConID c /\ e_Symbol ev = cp_Symbol c /\ e_SecType ev = cp_SecType c /\ e_Exchange ev = cp_Exchange c /\
  e_PrimaryExch ev = cp_PrimaryExch c /\ e_Currency ev = cp_Currency c /\ e_LocalSymbol ev = cp_LocalSymbol c /\
  e_TradingClass ev = cp_TradingClass c /\ e_Expiry ev = cp_Expiry c /\ e_Strike ev = cp_Strike c /\
  e_Right ev = cp_Right c /\ e_Multiplier ev = cp_Multiplier c.

(** The confirmation of a token: the order it was minted for. *)
Record confirmsToken (ev : orderJournalEvent) (payload : orderPreviewTokenPayload) (orderRef : string) (id : Z) : Prop := {
  ct_type : e_Type ev = orderJournalEventTokenConfirmed;
  ct_ids : e_OrderRef ev = orderRef /\ e_PreviewTokenID ev = tp_TokenID payload /\ e_ReservedOrderID ev = id;
  ct_client : e_ClientID ev = tp_ClientID payload /\ e_Account ev = ToUpper (TrimSpace (tp_Account payload));
  ct_contract : namesContract ev (dr_Contract (tp_Draft payload));
  ct_terms : e_Action ev = dr_Action (tp_Draft payload) /\ e_OrderType ev = dr_OrderType (tp_Draft payload) /\
    e_TIF ev = dr_TIF (tp_Draft payload) /\ e_Quantity ev = f_of_Z (dr_Quantity (tp_Draft payload)) /\
    e_LimitPrice ev = dr_LimitPrice (tp_Draft payload) /\ e_Trail ev = dr_Trail (tp_Draft payload)
}.

(** An attempt that carries a draft: its reference, route, contract and terms. *)
Record carriesDraft (ev : orderJournalEvent) (draft : OrderDraft) (route : tradingRoute) (tokenID : string) (id : Z)
    (quantity : float64) : Prop := {
  cd_ids : e_OrderRef ev = dr_OrderRef draft /\ e_PreviewTokenID ev = tokenID /\ e_ReservedOrderID ev = id;
  cd_route : e_ClientID ev = rt_ClientID route /\ e_Account ev = ToUpper (TrimSpace (rt_Account route)) /\
    e_Endpoint ev = TrimSpace (rt_Endpoint route) /\ e_Mode ev = ToLower (TrimSpace (rt_Mode route));
  cd_contract : namesContract ev (dr_Contract draft);
  cd_terms : e_Action ev = dr_Action draft /\ e_OrderType ev = dr_OrderType draft /\ e_TIF ev = dr_TIF draft /\
    e_TriggerMethod ev = dr_TriggerMethod draft /\ e_OutsideRTH ev = dr_OutsideRTH draft /\ e_Quantity ev = quantity /\
    e_LimitPrice ev = dr_LimitPrice draft /\ e_Trail ev = dr_Trail draft /\ e_OpenClose ev = dr_OpenClose draft /\
    e_AdaptivePriority ev = dr_AdaptivePriority draft;
  cd_links : e_OCAGroup ev = dr_OCAGroup draft /\ e_OCAType ev = dr_OCAType draft /\
    e_AttachedStop ev = dr_AttachedStop draft /\ e_EntryLink ev = dr_EntryLink draft /\
    e_FixedStopPrice ev = dr_FixedStopPrice draft
}.


Lemma stored_confirms payload ref endpoint id at_ warned msg ev :
  storedAs (previewTokenConfirmedEvent payload ref endpoint id at_ warned msg) ev -> confirmsToken ev payload ref id.
Proof. intros (now & a & o & ->). by repeat split. Qed.

Lemma stored_carries draft ty route tok id at_ quantity st ev :
  storedAs (orderJournalEventForDraft draft ty route tok id at_ quantity st) ev ->
  e_Type ev = ty /\ carriesDraft ev draft route tok id quantity.
Proof. intros (now & a & o & ->). by repeat split. Qed.



(** ** Reserving above the floor always answers *)

Lemma disjoint_frontier fee epoch fuel s s' id ep :
  1 <= ns_reqIDSeq s -> nextDisjointLoop fee epoch fuel s = Some (s', Ok (id, ep)) ->
  ns_reqIDSeq s' = ns_reqIDSeq s /\ frontier s <= id /\ (ns_exhausted s' = true \/ id < frontier s').
Proof.
  revert s. induction fuel as [|fuel IH]; intros s Hreq H; [done|]. cbn [nextDisjointLoop] in H.
  unfold reserveNextOrderIDForEpoch in H. destruct (negb (ns_epoch s =? epoch)); [done|].
  destruct (reserveNextOrderIDLocked s) as [s1 [id1|]] eqn:E; [|done].
  apply reserve_order_ok in E as (_ & Hid & _ & Hr & Hn & Hx & _ & _); [|done].
  assert (Hf : ns_exhausted s1 = true \/ id1 < frontier s1).
  { rewrite Hx. destruct (id1 =? maxProtoInt32); [by left|]. right. unfold frontier. rewrite Hn, Hr. lia. }
  destruct (negb _) eqn:Hown; [by injection H as <- <- _; split_and!; [|lia|]|].
  set (s2 := discardOrderIDReservation id1 s1) in H.
  assert (Hs2 : ns_reqIDSeq s2 = ns_reqIDSeq s1 /\ frontier s2 = frontier s1 /\ ns_exhausted s2 = ns_exhausted s1)
    by (unfold s2, discardOrderIDReservation; destruct (id1 <=? 0); done).
  destruct Hs2 as (Hr2 & Hf2 & Hx2). destruct Hf as [Hf|Hf].
  - exfalso. destruct fuel as [|fuel]; [done|]. cbn [nextDisjointLoop] in H.
    unfold reserveNextOrderIDForEpoch, reserveNextOrderIDLocked, refuse in H.
    destruct (negb (ns_epoch s2 =? epoch)); [done|]. by rewrite Hx2, Hf, orb_true_r in H.
  - apply IH in H as (? & ? & ?); [|lia]. split_and!; [congruence | lia | done].
Qed.

Lemma exhausted_reserve tr cur fee epoch k :
  ns_exhausted (bc_ids (kt_conn k)) = true ->
  match ReserveOrderIDForSession tr cur fee epoch k with Some (_, Ok _) => False | _ => True end.
Proof.
  intros Hx. unfold ReserveOrderIDForSession, nextDisjointOrderID. destruct (negb tr); [done|]. destruct (negb cur); [done|].
  cbn [nextDisjointLoop]. unfold reserveNextOrderIDForEpoch, reserveNextOrderIDLocked, refuse.
  destruct (negb _); [done|]. by rewrite Hx, orb_true_r.
Qed.

Lemma reserve_session_frontier tr cur fee epoch k k' id :
  1 <= ns_reqIDSeq (bc_ids (kt_conn k)) -> ReserveOrderIDForSession tr cur fee epoch k = Some (k', Ok id) ->
  ns_reqIDSeq (bc_ids (kt_conn k')) = ns_reqIDSeq (bc_ids (kt_conn k)) /\ frontier (bc_ids (kt_conn k)) <= id /\
  (ns_exhausted (bc_ids (kt_conn k')) = true \/ id < frontier (bc_ids (kt_conn k'))).
Proof.
  intros Hr. unfold ReserveOrderIDForSession. destruct (negb tr); [done|]. destruct (negb cur); [done|].
  destruct (nextDisjointOrderID _ _ _) as [[ids [[id' ep]|]]|] eqn:E; [|done|done]. intros [= <- <-].
  unfold nextDisjointOrderID in E. by apply disjoint_frontier in E.
Qed.

Lemma reserve_above_enough env floor fuel k :
  1 <= ns_reqIDSeq (bc_ids (kt_conn k)) -> floor - frontier (bc_ids (kt_conn k)) + 1 < Z.of_nat fuel -> (0 < fuel)%nat ->
  reserveAbove env floor fuel k <> None.
Proof.
  revert k. induction fuel as [|fuel IH]; intros k Hr Hf H0; [lia|]. cbn [reserveAbove].
  assert (Ha := reserve_for_session_answers (rv_trading env) (rv_session env) (rv_fee env) (rv_epoch env) k Hr).
  destruct (ReserveOrderIDForSession _ _ _ _ k) as [[k1 [id|e]]|] eqn:E; [|done|done].
  apply reserve_session_frontier in E as (Hr1 & Hid & Hx); [|done].
  destruct (id <=? floor) eqn:Hle; [|done]. bool_hyps. destruct Hx as [Hx|Hx].
  - destruct fuel as [|fuel]; [lia|]. cbn [reserveAbove].
    assert (He := exhausted_reserve (rv_trading env) (rv_session env) (rv_fee env) (rv_epoch env) k1 Hx).
    assert (Ha2 := reserve_for_session_answers (rv_trading env) (rv_session env) (rv_fee env) (rv_epoch env) k1 ltac:(lia)).
    by destruct (ReserveOrderIDForSession _ _ _ _ k1) as [[k2 [id2|e]]|].
  - apply IH; lia.
Qed.

(** The fuel of reserveBoundBrokerOrderID is enough. *)
Lemma reserve_bound_answers env j k :
  1 <= ns_reqIDSeq (bc_ids (kt_conn k)) -> reserveBoundBrokerOrderID env j k <> None.
Proof.
  intros Hr. unfold reserveBoundBrokerOrderID. cbv zeta. destruct (rv_ctx env); [done|]. destruct (negb _); [done|].
  destruct (reservedBrokerOrderIDFloor j) as [floor|]; [|done]. destruct (negb _); [done|]. destruct (rv_ctx2 env); [done|].
  assert (H := reserve_above_enough env floor (S (Z.to_nat floor)) k Hr).
  destruct (reserveAbove _ _ _ k) as [[k1 [id|e]]|]; [done|done|]. exfalso. apply H; [|lia|done].
  unfold frontier. destruct (Z.le_gt_cases 0 floor); lia.
Qed.

(** ** A place is journaled, then sent *)


(** ** A token transmits at most once *)

(** A write that redeems a token. *)
Inductive tokenRun := RunPlace (i : placeInput) | RunModify (i : modifyInput).
Definition runWrite (r : tokenRun) (w : world) : option (world * writeOutcome) :=
  match r with RunPlace i => daemonPlaceOrder i w | RunModify i => modifyOrder i w end.
Definition tokenOf (r : tokenRun) : string := match r with RunPlace i => pi_token i | RunModify i => mi_token i end.
Definition redeemed (r : tokenRun) (w : world) : wres orderPreviewTokenPayload :=
  match r with
  | RunPlace i => verifyPreviewTokenForCurrentGate (pi_signer i) (pi_clock i) (pi_gate i) (present (wd_journal w)) (pi_token i)
  | RunModify i => verifyPreviewTokenForCurrentGate (mi_signer i) (mi_clock i) (mi_gate i) (present (wd_journal w)) (mi_token i)
  end.

Lemma run_inv r w w' out :
  runWrite r w = Some (w', out) ->
  notSent w w' out \/
  exists payload ops send action id evs s2 k err,
    redeemed r w = Ok payload /\ sentAfterStaging ops send w w' out (tp_TokenID payload) action id evs s2 k err.
Proof.
  destruct r as [i|i]; cbn [runWrite redeemed]; intros H.
  - apply place_inv in H as [H|(payload & draft & id & att & evs & s2 & k & err & Hv & _ & _ & Hs & _)]; [by left|]. right.
    apply place_token_ok in Hv as [Hv _].
    eexists payload, _, _, _, _, _, _, _, _. split; [exact Hv | exact Hs].
  - apply modify_inv in H as [H|(view & payload & att & draft & order & s0 & s2 & evs & rows & logs & r & err & _ & Hc & _ & _ & _ & _ & Hs & _)];
      [by left|]. right.
    apply modify_checks_token in Hc as (_ & _ & _ & Hv & _). apply modify_token_ok in Hv as [Hv _].
    eexists payload, _, _, _, _, _, _, _, _. split; [exact Hv | exact Hs].
Qed.

(** The payload is the token's own, whoever verified it and when. *)
Lemma same_token_same_payload r1 w1 p1 r2 w2 p2 :
  TrimSpace (tokenOf r2) = TrimSpace (tokenOf r1) -> redeemed r1 w1 = Ok p1 -> redeemed r2 w2 = Ok p2 -> p2 = p1.
Proof.
  intros Ht H1 H2.
  assert (Hr : forall r w p, redeemed r w = Ok p -> exists sg now, verify (Some sg) now (TrimSpace (tokenOf r)) = Ok p).
  { intros [i|i] w p H; cbn in H |- *; apply gate_token_ok in H as (Hv & _);
      destruct (verify_ok _ _ _ _ Hv) as (sg & _ & _ & _ & _ & Hsg & _); rewrite Hsg in Hv; by eexists _, _. }
  apply Hr in H1 as (sg1 & n1 & H1), H2 as (sg2 & n2 & H2). rewrite Ht in H2.
  apply verify_ok in H1 as (? & b1 & g1 & raw1 & q1 & _ & [Hs1 _ _ Hr1 Hu1 Hp1 _ _ _ _ _]).
  apply verify_ok in H2 as (? & b2 & g2 & raw2 & q2 & _ & [Hs2 _ _ Hr2 Hu2 Hp2 _ _ _ _ _]). congruence.
Qed.

(** C2.  A preview token puts bytes on the wire at most once.  Once a place or
    modify that redeemed a token, one whose id is not empty and does not hash to the
    all-zero digest that means "no token", has changed the broker's stream, every later
    place or modify that presents the same token ends refused and leaves the
    stream as it was: whatever happened to the authority store in between (other
    writes, faults, recoveries), whichever signer, gate, row and answers the later
    run meets. *)
Theorem token_transmits_at_most_once r1 w1 w1' out1 r2 w2 w2' out2 s ops payload :
  runWrite r1 w1 = Some (w1', out1) -> redeemed r1 w1 = Ok payload ->
  zeroDigest (tokenDigest (tp_TokenID payload)) = false ->
  writerOf (wd_broker w1') <> writerOf (wd_broker w1) ->
  wd_journal w1' = Some s -> wd_journal w2 = Some (run s ops) ->
  TrimSpace (tokenOf r2) = TrimSpace (tokenOf r1) -> runWrite r2 w2 = Some (w2', out2) ->
  notSent w2 w2' out2.
Proof.
  intros H1 Hp Hz Hne Hj1 Hj2 Htok H2.
  apply run_inv in H1 as [[Hw _]|(p1 & ops1 & send1 & a1 & id1 & t1 & s2 & k1 & e1 & Hr1 & Hs1)]; [done|].
  assert (p1 = payload) as -> by congruence. destruct Hs1 as [(s0 & rows & logs & _ & Hst) _ (s' & Hj' & Hex) _].
  assert (Hspent : is_Some (db_tokens (st_db s) !! tokenDigest (tp_TokenID payload))).
  { destruct (sg_token _ _ _ _ _ _ _ _ Hst Hz) as [_ [row Hrow]]. exists row. assert (s' = s) as <- by congruence.
    eapply lookup_weaken; [|apply Hex]. eapply lookup_weaken; [exact Hrow | apply run_extends]. }
  apply run_inv in H2 as [H2|(p2 & ops2 & send2 & a2 & id2 & t2 & s3 & k2 & e2 & Hr2 & Hs2)]; [done|]. exfalso.
  rewrite (same_token_same_payload _ _ _ _ _ _ Htok Hp Hr2) in Hs2. destruct Hs2 as [(s5 & rows2 & logs2 & Hj5 & Hst2) _ _ _].
  destruct (sg_token _ _ _ _ _ _ _ _ Hst2 Hz) as [Hnone _]. assert (s5 = run s ops) as -> by congruence.
  destruct Hspent as [row Hrow]. rewrite <- run_app in Hnone.
  assert (Hin := lookup_weaken _ _ _ _ Hrow (ex_tokens _ _ (run_extends (ops ++ ops2) s))). congruence.
Qed.

(** ** A modify and the order's latest event *)

Lemma latest_seq_rows s ev seq :
  JournalLatestOrderEventSeq (Some s) ev = Ok seq ->
  exists scope, coreBrokerScopeFromEvent ev = Ok scope /\
    Forall (fun r => row_seq r <= seq) (orderRowsFor (st_db s) (bs_ScopeKey scope) (e_ReservedOrderID ev)).
Proof.
  unfold JournalLatestOrderEventSeq. intros H. apply rbind_ok in H as (s1 & Hc & H). assert (s1 = s) as ->.
  { unfold coreStore in Hc. by destruct (negb _); [|injection Hc as <-]. }
  apply rbind_ok in H as (scope & Hsc & H). exists scope. split; [done|]. unfold LatestOrderEventSeq, core_err in H.
  destruct (validateBrokerScope scope); [|done]. cbn [rbind] in H. destruct (_ <=? 0); [done|]. injection H as <-.
  assert (Hf := latestRow_from None (orderRowsFor (st_db s) (bs_ScopeKey scope) (e_ReservedOrderID ev))).
  unfold latestRow. destruct (fold_left _ _ _) as [r|]; [by destruct Hf as (_ & Hf & _)|]. destruct Hf as [-> _]. constructor.
Qed.

(** C3.  The first byte of a modify goes out only while its own staging is the
    order's latest event.  If a modify changed the broker's stream, then its row
    was open and modify-eligible; the broker stood behind it: wherever a connector
    could be asked, this process placed the order and no report exists, or the
    report is free of conflict and of the row's account, reference and permanent
    id; its token was a modify token for that row; it staged the token's tombstone
    and two new rows of the order, the confirmation and the modify request, which
    carries the replacement draft (the token's, with the row's own reference,
    contract, session and links) for the row's fills plus the signed remainder; and
    at the moment of the wire guard, whatever other writers appended since, every
    row the store holds for that order in the guard's scope is the staged request
    or older: a fill, a status or another change in between keeps the modify off
    the wire. *)
Theorem modify_writes_only_on_its_own_staging i w w' out s0 :
  modifyOrder i w = Some (w', out) -> writerOf (wd_broker w') <> writerOf (wd_broker w) ->
  wd_journal w = Some s0 -> 0 <= db_autoincrement (st_db s0) ->
  exists view payload s2 confirmed request rows logs r scope,
    openOrderViewForWrite (mi_id i) (wa_Status (mi_auth i)) (mi_rows2 i) = Ok view /\
    v_ModifyEligible view = true /\ 0 < v_ReservedOrderID view /\
    (forall reports, mi_reports i = Some reports -> brokerConfirms reports view) /\
    verifyPreviewTokenForModify (mi_signer i) (mi_clock i) (mi_gate i) true (mi_token i) view = Ok payload /\
    staged (run s0 (mi_readOps i ++ mi_stageOps i)) s2 (tp_TokenID payload) ActionModify (v_ReservedOrderID view)
      [confirmed; request] rows logs /\ last rows = Some r /\
    confirmsToken confirmed payload (v_OrderRef view) (v_ReservedOrderID view) /\
    e_Type request = orderJournalEventModifyRequested /\
    carriesDraft request (modifiedDraftOf view (tp_Draft payload)) (orderJournalStatusFor view (wa_Status (mi_auth i)))
      (tp_TokenID payload) (v_ReservedOrderID view)
      (f_of_Z (dr_Quantity (tp_Draft payload) + int_of_float (v_Filled view))) /\
    coreBrokerScopeFromEvent (guardEvent (boundToOrder (mi_binding i) view (row_seq r))) = Ok scope /\
    Forall (fun r' => row_seq r' <= row_seq r)
      (orderRowsFor (st_db (run s2 (bd_guardOps (mi_send i)))) (bs_ScopeKey scope) (v_ReservedOrderID view)).
Proof.
  intros H Hne Hj Hauto. apply modify_inv in H as [[Hw _]|H]; [done|].
  destruct H as (view & payload & att & draft & order & s1 & s2 & evs & rows & logs & r & err & Hv & Hc & Hj1 & Hevs & Hst & Hl & _ & Hsub).
  assert (s1 = s0) as -> by congruence. rewrite Hj in Hc. cbn [present] in Hc.
  apply modify_checks_token in Hc as (Hid & Hel & Hrep & Htok & Hd & Htot). apply submit_bound_guarded in Hsub; [|done].
  apply Forall2_cons_inv_l in Hevs as (confirmed & evs1 & Hconf & Hevs & ->).
  apply Forall2_cons_inv_l in Hevs as (request & evs2 & Hreq & Hevs & ->). apply Forall2_nil_inv_l in Hevs as ->.
  apply stored_confirms in Hconf. apply stored_carries in Hreq as [Hty Hreq]. rewrite Htot, Hd in Hreq.
  assert (Hseq : 0 < row_seq r).
  { assert (Hin : r ∈ rows) by (by apply last_Some_elem_of). assert (Hs := sg_seqs _ _ _ _ _ _ _ _ Hst).
    rewrite Forall_forall in Hs. specialize (Hs r Hin).
    assert (Hx := ex_auto _ _ (run_extends (mi_readOps i ++ mi_stageOps i) s0)). cbn in Hs. lia. }
  unfold brokerWireGuard in Hsub. destruct (bd_guardBefore _); [done|]. cbn [boundToOrder bn_orderID bn_orderEventSeq] in Hsub.
  replace (0 <? v_ReservedOrderID view) with true in Hsub by (symmetry; by apply Z.ltb_lt).
  replace (0 <? row_seq r) with true in Hsub by (symmetry; by apply Z.ltb_lt). cbn [andb interfere] in Hsub.
  destruct (JournalLatestOrderEventSeq _ _) as [latest|] eqn:Hlat; [|done].
  destruct (latest =? row_seq r) eqn:Heq; [|done]. apply Z.eqb_eq in Heq. subst latest.
  apply latest_seq_rows in Hlat as (scope & Hsc & Hall).
  exists view, payload, s2, confirmed, request, rows, logs, r, scope. split_and!; done.
Qed.
End Flow.

(** ** Concrete runs *)

#[local] Existing Instance journal_env_ex.
#[local] Existing Instance token_env_ex.

Definition flow_now : time := 63900000000 * Second.
Definition flow_route : tradingRoute := mkRoute "DU123" "127.0.0.1:4002" "paper" 15.
Definition flow_auth : writeAuth := mkWriteAuth true [] flow_route "paper" None.
Definition flow_binding : writeBinding := mkBinding "127.0.0.1:4002" 15 "DU123" "paper" 0 0 "".
Definition flow_db : db := mkDb (mkHead "epoch-1" 0 0 2) 0 [] [] ∅ None ∅ ∅ false ∅.
Definition flow_store : store :=
  mkStore flow_db (mkStoreHealth true "" false) zero_AuthorityHead (mkHead "epoch-1" 0 0 2) true.
Definition flow_cfg : idConfig := mkIdConfig 15 "DU123".
Definition flow_ids : idSpace := (idRun flow_cfg [OpReset; OpNextValid 41 1]).1.
Definition flow_world : world :=
  mkWorld (Some flow_store) (mkConnector (mkBrokerConn flow_ids (fresh_conn []) ∅) ∅ ∅ ∅ 0) false.
Definition flow_place : placeEnv := mkPlaceEnv false None true 203 4 "DU123" flow_cfg [] [] no_refusal one_dispatch [].
Definition flow_send : boundSend :=
  mkBoundSend false None false true [] "paper" None None None [] (mkSubmitInput false 1 true false ∅ flow_place).
Definition flow_append (key : string) : appendEnv :=
  mkAppendEnv (fun _ => flow_now) (fun i => Some (String.append key (Itoa (Z.of_nat i)))) order_values no_faults.
Definition place_run (key : string) : placeInput :=
  mkPlaceInput flow_auth flow_binding (Some (token_signer 2)) token_status (200 * Second) flow_now (minted "place") "agent" false ""
    None None None (Ok ("", 0)) (mkReserveEnv false true true false true true ∅ 1) (Some "attempt-1") None true []
    (flow_append key) flow_send (mkOutcomeEnv [] (flow_append (String.append key "-out")) flow_now).

Definition placed_world : world := match daemonPlaceOrder (place_run "a") flow_world with Some (w, _) => w | None => flow_world end.
Definition modify_token : string :=
  match mint (Some (token_signer 2)) (100 * Second) (Ok "tok2") (token_template gate_draft "modify") with
  | Ok (tok, _, _) => tok
  | Err _ => ""
  end.
Definition flow_row : OrderView := previewed_row <| v_ModifyEligible := true |> <| v_Open := true |>.
Definition modify_run : modifyInput :=
  mkModifyInput flow_auth flow_binding (Some (token_signer 2)) token_status (200 * Second) flow_now "canary-5" modify_token
    "agent" (Ok [flow_row]) (Ok [flow_row]) (Some gate_reports) None false None (Some "attempt-2") None (f_of_Z 40) None true
    [] [] (flow_append "b") flow_send (mkOutcomeEnv [] (flow_append "b-out") flow_now).

Definition wireLen (w : world) : nat := match writerOf (wd_broker w) with Some b => List.length (bw_wire b) | None => O end.
Lemma wire_moved w w' : wireLen w' <> wireLen w -> writerOf (wd_broker w') <> writerOf (wd_broker w).
Proof. unfold wireLen. intros H Heq. by rewrite Heq in H. Qed.
Definition autoOf (w : world) : option Z := match wd_journal w with Some s => Some (db_autoincrement (st_db s)) | None => None end.
Lemma auto_nonneg w s : autoOf w = Some 3 -> wd_journal w = Some s -> 0 <= db_autoincrement (st_db s).
Proof. unfold autoOf. intros H Hj. rewrite Hj in H. injection H as ->. lia. Qed.
Definition tag (r : option (world * writeOutcome)) : option (bool * nat) :=
  match r with Some (w, out) => Some (match out with Accepted => true | _ => false end, wireLen w) | None => None end.


Lemma token_transmits_at_most_once_witness :
  exists w2' out2, daemonPlaceOrder (place_run "c") placed_world = Some (w2', out2) /\
    wireLen placed_world = 186%nat /\ notSent placed_world w2' out2.
Proof.
  assert (Ht : tag (daemonPlaceOrder (place_run "a") flow_world) = Some (true, 186%nat)) by (vm_compute; reflexivity).
  assert (Hn : tag (daemonPlaceOrder (place_run "c") placed_world) = Some (false, 186%nat)) by (vm_compute; reflexivity).
  destruct (daemonPlaceOrder (place_run "a") flow_world) as [[w1 out1]|] eqn:E1; [|discriminate Ht].
  assert (Hp : placed_world = w1) by (unfold placed_world; by rewrite E1). injection Ht as _ Hw. rewrite Hp in *.
  destruct (daemonPlaceOrder (place_run "c") w1) as [[w2' out2]|] eqn:E2; [|discriminate Hn]. exists w2', out2.
  split_and!; [reflexivity | exact Hw |].
  destruct (redeemed (RunPlace (place_run "a")) flow_world) as [payload|] eqn:Hr;
    [|apply (f_equal is_ok) in Hr; vm_compute in Hr; discriminate Hr].
  assert (Hid : tp_TokenID payload = "tok") by (vm_compute in Hr; injection Hr as <-; reflexivity).
  destruct (wd_journal w1) as [s|] eqn:Hj;
    [|exfalso; rewrite <- Hp in Hj; apply (f_equal present) in Hj; vm_compute in Hj; discriminate Hj].
  refine (token_transmits_at_most_once (fun _ => "") (RunPlace (place_run "a")) flow_world w1 out1
            (RunPlace (place_run "c")) w1 w2' out2 s [] payload E1 Hr _ _ Hj Hj eq_refl E2).
  - rewrite Hid. vm_compute. reflexivity.
  - apply wire_moved. rewrite Hw. vm_compute. discriminate.
Defined.

Lemma modify_writes_only_on_its_own_staging_witness :
  exists w' view, modifyOrder (fun _ => "") modify_run placed_world = Some (w', Accepted) /\ wireLen w' = 374%nat /\
    openOrderViewForWrite "canary-5" flow_route (Ok [flow_row]) = Ok view /\ v_ModifyEligible view = true /\
    0 < v_ReservedOrderID view /\ brokerConfirms gate_reports view.
Proof.
  assert (Ht : tag (modifyOrder (fun _ => "") modify_run placed_world) = Some (true, 374%nat)) by (vm_compute; reflexivity).
  assert (Hw0 : wireLen placed_world = 186%nat) by (vm_compute; reflexivity).
  destruct (modifyOrder (fun _ => "") modify_run placed_world) as [[w' out]|] eqn:E; [|discriminate Ht].
  injection Ht as Ho Hw. destruct out; try discriminate Ho.
  destruct (wd_journal placed_world) as [s|] eqn:Hj; [|exfalso; apply (f_equal present) in Hj; vm_compute in Hj; discriminate Hj].
  assert (Hx : autoOf placed_world = Some 3) by (vm_compute; reflexivity).
  assert (Ha := auto_nonneg _ _ Hx Hj).
  destruct (modify_writes_only_on_its_own_staging (fun _ => "") modify_run placed_world w' Accepted s E) as
    (view & _ & _ & _ & _ & _ & _ & _ & _ & Hv & Hel & Hid & Hrep & _); [|exact Hj | exact Ha |].
  - apply wire_moved. rewrite Hw, Hw0. discriminate.
  - exists w', view. split_and!; [reflexivity | exact Hw | exact Hv | exact Hel | exact Hid | exact (Hrep gate_reports eq_refl)].
Defined.
