(* ===== verification/WorkingOrders.v ===== *)
(** * Working orders at the broker, and what they commit

    src/internal/daemon/broker_open_orders.go (which snapshot orders work, and the
    journal row of each), protective_exit.go (the competing quantity of an exit
    and the protective stock exit) and protective_oca.go (what a sale does about
    Canary's own stops on its contract).  A pointer into the slice of views is its
    index there.  Proved on integer quantities: after the steps planned for a sale,
    what Canary's stops and the sale together can sell is at most what is held,
    unless the sale joins the one stop's broker group or shrinks it itself. *)

From stdpp Require Import base decidable list strings gmap.
From Stdlib Require Import ZArith Lia Ascii String SpecFloat.
From S2P Require Import Prelude Floats OrderTypes OrderStatus BrokerScope OrderViews Protective Reconcile WriteGate.
From S2P Require Import PlaceOrderProto PreviewToken WriteDraft.

(** ** Security types and order types *)

Definition isStockLikeRiskSecType (secType : string) : bool := one_of (ToUpper (TrimSpace secType)) ["STK"; "STOCK"; "ETF"].
Definition SecTypeOption : string := "OPTION".

Definition isProtectiveStopOrderType (orderType : string) : bool :=
  one_of (ToUpper (TrimSpace orderType)) [OrderTypeTRAIL; OrderTypeTRAILLIMIT; "STP"; "STP LMT"].

Definition positionUnits (secType : string) : string :=
  let s := ToUpper (TrimSpace secType) in
  if one_of s ["OPT"; "FOP"] then "contracts"
  else if s =s "" then "shares"
  else if IsBillOrBond secType then "units" else "shares".

(** ** Orders working in a scope *)

Definition brokerOrderWorking (order : OrderLifecycleEvent) : bool :=
  if (b_Type order <>s OrderLifecycleEventOpenOrder) || b_WhatIf order then false
  else if (b_Remaining order <=f f0) && (b_TotalQuantity order >f f0) &&
          (fsub (b_TotalQuantity order) (b_Filled order) <=f tolerance) then false
  else negb (orderLifecycleStatusIsTerminal
               (mapBrokerOrderLifecycleWithDeactivation (b_Status order) (b_Filled order) (b_Remaining order) (b_Deactivated order))).

(** [bw_Journal] is the index and the row of the view the order is paired with. *)
Record brokerWorkingOrder := mkWorking { bw_Order : OrderLifecycleEvent; bw_Journal : option (nat * OrderView); bw_Unseen : bool }.
Definition journalRow (w : brokerWorkingOrder) : option OrderView := option_map snd (bw_Journal w).

Fixpoint pairedView (i : nat) (order : OrderLifecycleEvent) (scope : brokerStateScope) (views : list OrderView) : option (nat * OrderView) :=
  match views with
  | [] => None
  | v :: rest =>
      if orderViewMatchesBrokerScope v scope && openOrderSnapshotEventMatches order v then Some (i, v)
      else pairedView (S i) order scope rest
  end.

Definition otherAccount (order : OrderLifecycleEvent) (scope : brokerStateScope) : bool :=
  let account := TrimSpace (b_Account order) in
  (account <>s "") && negb (EqualFold account (TrimSpace (sc_Account scope))).

Definition brokerWorkingOrders (snapshot : OpenOrderSnapshot) (views : list OrderView) (scope : brokerStateScope)
    : list brokerWorkingOrder :=
  map (fun order => mkWorking order (pairedView 0 order scope views) false)
    (List.filter (fun order => brokerOrderWorking order && negb (otherAccount order scope)) (sn_Orders snapshot)).

(** ** The identity of a working order *)

Definition brokerOrderRemaining (order : OrderLifecycleEvent) : float64 :=
  if b_Remaining order >f f0 then b_Remaining order
  else if b_TotalQuantity order >f b_Filled order then fsub (b_TotalQuantity order) (b_Filled order)
  else f0.

(** A combo's legs by ConID; [None] is the nil map. *)
Definition legMap : Type := option (gmap Z StrategyOrderLeg).

Record workingOrderIdentity := mkWorkingIdentity {
  wo_SecType : string; wo_Symbol : string; wo_Action : string; wo_ConID : Z; wo_Remaining : float64; wo_Legs : legMap
}.

Definition brokerOrderIdentity (order : OrderLifecycleEvent) : workingOrderIdentity :=
  mkWorkingIdentity (b_SecType order) (b_Symbol order) (b_Action order) (b_ConID order) (brokerOrderRemaining order) None.

Definition journalOrderIdentity (view : OrderView) : workingOrderIdentity :=
  let remaining := if v_Remaining view <=f f0 then v_Quantity view else v_Remaining view in
  mkWorkingIdentity (v_SecType view) (v_Symbol view) (v_Action view) (v_ConID view) remaining None.

Definition withLegs (w : workingOrderIdentity) (legs : legMap) : workingOrderIdentity :=
  mkWorkingIdentity (wo_SecType w) (wo_Symbol w) (wo_Action w) (wo_ConID w) (wo_Remaining w) legs.

Definition sameContract (w : workingOrderIdentity) (contract : ContractParams) : bool :=
  if (0 <? wo_ConID w) && (0 <? cp_ConID contract) then wo_ConID w =? cp_ConID contract
  else if negb (EqualFold (TrimSpace (wo_Symbol w)) (TrimSpace (cp_Symbol contract))) then false
  else
    let secType := TrimSpace (wo_SecType w) in
    if secType =s "" then true
    else if EqualFold (cp_SecType contract) "OPT" then EqualFold secType "OPT" || EqualFold secType SecTypeOption
    else if IsBillOrBond (cp_SecType contract) then IsBillOrBond secType
    else isStockLikeRiskSecType secType.

Definition competesWith (w : workingOrderIdentity) (contract : ContractParams) (action : string) : float64 :=
  if EqualFold (cp_SecType contract) "OPT" && EqualFold (TrimSpace (wo_SecType w)) "BAG" &&
     EqualFold (TrimSpace (wo_Symbol w)) (TrimSpace (cp_Symbol contract))
  then
    match wo_Legs w with
    | None => S754_nan
    | Some legs =>
        match legs !! cp_ConID contract with
        | None => f0
        | Some leg =>
            if (sl_Ratio leg =? 0) || ((sl_Action leg <>s OrderActionBuy) && (sl_Action leg <>s OrderActionSell)) then S754_nan
            else if negb (EqualFold (sl_Action leg) (TrimSpace action)) then f0
            else fmul (wo_Remaining w) (fabs (f_of_Z (sl_Ratio leg)))
        end
    end
  else if negb (sameContract w contract) || negb (EqualFold (TrimSpace (wo_Action w)) (TrimSpace action)) then f0
  else wo_Remaining w.

(** ** Canary's own rows *)

Record journalInventory := mkInventory {
  ji_views : list OrderView; ji_legsByRef : gmap string (gmap Z StrategyOrderLeg); ji_legsByOrderID : gmap Z (gmap Z StrategyOrderLeg)
}.

Definition legsOf (j : journalInventory) (view : option OrderView) : legMap :=
  match view with
  | None => None
  | Some view =>
      match (if v_OrderRef view <>s "" then ji_legsByRef j !! v_OrderRef view else None) with
      | Some legs => Some legs
      | None => if 0 <? v_ReservedOrderID view then ji_legsByOrderID j !! v_ReservedOrderID view else None
      end
  end.

(** A journal event with the strategy group it carries. *)
Definition addEventLegs (j : journalInventory) (e : orderJournalEvent * option StrategyOrderDraft) : journalInventory :=
  match e.2 with
  | Some g =>
      match sd_Legs g with
      | [] => j
      | legs =>
          let m := fold_left (fun m leg => <[cp_ConID (sl_Contract leg) := leg]> m) legs ∅ in
          mkInventory (ji_views j)
            (if e_OrderRef e.1 <>s "" then <[e_OrderRef e.1 := m]> (ji_legsByRef j) else ji_legsByRef j)
            (if 0 <? e_ReservedOrderID e.1 then <[e_ReservedOrderID e.1 := m]> (ji_legsByOrderID j) else ji_legsByOrderID j)
      end
  | None => j
  end.

(** journalOrderInventoryFromEvents over the views of the same events. *)
Definition journalOrderInventoryFromEvents (views : list OrderView) (events : list (orderJournalEvent * option StrategyOrderDraft))
    : journalInventory := fold_left addEventLegs events (mkInventory views ∅ ∅).

(** orderReconcileSnapshotWait *)
Definition journalInventoryMargin : Z := 15 * Second.

Definition protectiveStopGuardCanaryPlaced (view : option OrderView) (scope : brokerStateScope) : bool :=
  match view with
  | None => false
  | Some v =>
      if negb (v_Open v) || (v_ReservedOrderID v <=? 0) || (TrimSpace (v_OrderRef v) =s "") || (TrimSpace (v_PreviewTokenID v) =s "")
      then false else orderViewMatchesBrokerScope v scope
  end.

Definition sameRow (a b : OrderView) : bool := (v_OrderRef a =s v_OrderRef b) && (v_ReservedOrderID a =? v_ReservedOrderID b).

(** ** Protective stop and one-cancels-all group *)

Definition protectiveOCAGroupFor (orderRef : string) : string := String.append "canary-oca-" (TrimSpace orderRef).
(** ibkr.OcaTypeReduceWithBlock *)
Definition protectiveOCAType : Z := 2.

Record protectiveOCAStop := mkOCAStop {
  oc_View : OrderView; oc_Order : OrderLifecycleEvent; oc_Remaining : float64; oc_Group : string; oc_Type : Z
}.

Definition protectiveOCACandidate (draft : OrderDraft) : bool :=
  negb (present (dr_StrategyGroup draft)) && (0 <? dr_Quantity draft) && (0 <? cp_ConID (dr_Contract draft)) &&
  EqualFold (TrimSpace (dr_Action draft)) OrderActionSell.

(** Canary's own open sell stop on the draft's contract, and not the draft itself. *)
Definition ownSellStop (draft : OrderDraft) (scope : brokerStateScope) (view : OrderView) : bool :=
  negb ((v_OrderRef view =s dr_OrderRef draft) || negb (protectiveStopGuardCanaryPlaced (Some view) scope) ||
        negb (EqualFold (TrimSpace (v_Action view)) OrderActionSell) || negb (isProtectiveStopOrderType (v_OrderType view)) ||
        negb (sameContract (journalOrderIdentity view) (dr_Contract draft))).

(** What the loop of canaryWorkingSellStops adds for one such row. *)
Definition workingStop (snapshot : option OpenOrderSnapshot) (working : list brokerWorkingOrder) (view : OrderView)
    : option protectiveOCAStop :=
  let plain := mkOCAStop view zero_OrderLifecycleEvent (orderViewRemainingQuantity view) "" 0 in
  let stop :=
    match snapshot with
    | None => Some plain
    | Some snap =>
        match List.find (fun row => match journalRow row with Some r => sameRow r view | None => false end) working with
        | Some row =>
            Some (mkOCAStop view (bw_Order row) (brokerOrderRemaining (bw_Order row)) (TrimSpace (b_OcaGroup (bw_Order row)))
                    (b_OcaType (bw_Order row)))
        | None => if After (v_UpdatedAt view) (sn_AsOf snap - journalInventoryMargin) then Some plain else None
        end
    end in
  match stop with
  | Some s => if oc_Remaining s <=f f0 then None else Some s
  | None => None
  end.

Definition canaryWorkingSellStops (views : list OrderView) (snapshot : option OpenOrderSnapshot) (scope : brokerStateScope)
    (draft : OrderDraft) : list protectiveOCAStop :=
  let working := match snapshot with Some snap => brokerWorkingOrders snap views scope | None => [] end in
  stable_sort (fun a b => negb (match String.compare (v_OrderRef (oc_View a)) (v_OrderRef (oc_View b)) with Gt => true | _ => false end))
    (omap (workingStop snapshot working) (List.filter (ownSellStop draft scope) views)).

(** ** The open-order inventory of an exit *)

Record protectiveExitInventory := mkExitInventory {
  ei_Current : bool; ei_OtherWorkingSameSide : float64; ei_OtherWorkingSameSideByLeg : option (gmap Z float64);
  ei_ReducesWorkingStop : bool; ei_LinkedStop : string
}.
Definition unavailableInventory : protectiveExitInventory := mkExitInventory false f0 None false "".

Definition otherWorkingSameSide (inv : protectiveExitInventory) (conID : Z) : float64 :=
  match ei_OtherWorkingSameSideByLeg inv with
  | Some m => default f0 (m !! conID)
  | None => ei_OtherWorkingSameSide inv
  end.

Definition brokerOrderIsTarget (order : OrderLifecycleEvent) (target : orderPreviewReplaceTarget) : bool :=
  if (0 <? rp_PermID target) && (0 <? b_PermID order) then rp_PermID target =? b_PermID order
  else (0 <? rp_ReservedOrderID target) && (b_OrderID order =? rp_ReservedOrderID target).

Definition hasTarget (target : orderPreviewReplaceTarget) : bool := (0 <? rp_ReservedOrderID target) || (0 <? rp_PermID target).

Definition viewIsTarget (view : OrderView) (target : orderPreviewReplaceTarget) : bool :=
  ((0 <? rp_ReservedOrderID target) && (v_ReservedOrderID view =? rp_ReservedOrderID target)) ||
  ((0 <? rp_PermID target) && (v_PermID view =? rp_PermID target)).

(** The one stop whose group the sale joins. *)
Definition linkedStop (views : list OrderView) (snapshot : OpenOrderSnapshot) (scope : brokerStateScope) (draft : OrderDraft)
    (target : orderPreviewReplaceTarget) : option protectiveOCAStop :=
  if negb (hasTarget target) && protectiveOCACandidate draft then
    match canaryWorkingSellStops views (Some snapshot) scope draft with
    | [s] => if (oc_Group s <>s "") && (oc_Type s =? protectiveOCAType) then Some s else None
    | _ => None
    end
  else None.

(** Open rows in scope that moved after the snapshot began and that it does not pair. *)
Definition unseenRows (journal : journalInventory) (snapshot : OpenOrderSnapshot) (scope : brokerStateScope)
    (target : orderPreviewReplaceTarget) (working : list brokerWorkingOrder) : list workingOrderIdentity :=
  omap (fun '(i, view) =>
    if negb (v_Open view) || negb (orderViewMatchesBrokerScope view scope) ||
       negb (After (v_UpdatedAt view) (sn_AsOf snapshot - journalInventoryMargin)) then None
    else if hasTarget target && viewIsTarget view target then None
    else if existsb (fun row => match bw_Journal row with Some (k, _) => Nat.eqb k i | None => false end) working then None
    else Some (withLegs (journalOrderIdentity view) (legsOf journal (Some view))))
    (imap pair (ji_views journal)).

Definition competing (journal : journalInventory) (target : orderPreviewReplaceTarget) (linked : option protectiveOCAStop)
    (working : list brokerWorkingOrder) (unseen : list workingOrderIdentity) (contract : ContractParams) (action : string) : float64 :=
  let skips row :=
    (hasTarget target && brokerOrderIsTarget (bw_Order row) target) ||
    match linked, journalRow row with Some l, Some v => sameRow v (oc_View l) | _, _ => false end in
  let total := fold_left (fun total row =>
    if skips row then total
    else fadd total (competesWith (withLegs (brokerOrderIdentity (bw_Order row)) (legsOf journal (journalRow row))) contract action))
    working f0 in
  fold_left (fun total w => fadd total (competesWith w contract action)) unseen total.

Definition protectiveExitInventoryFromSnapshot (snapshot : OpenOrderSnapshot) (journal : journalInventory)
    (scope : brokerStateScope) (draft : OrderDraft) (target : orderPreviewReplaceTarget) : protectiveExitInventory :=
  let working := brokerWorkingOrders snapshot (ji_views journal) scope in
  let linked := linkedStop (ji_views journal) snapshot scope draft target in
  let ref := match linked with Some l => v_OrderRef (oc_View l) | None => "" end in
  let other := competing journal target linked working (unseenRows journal snapshot scope target working) in
  match dr_StrategyGroup draft with
  | Some group =>
      mkExitInventory true f0
        (Some (fold_left (fun m leg => <[cp_ConID (sl_Contract leg) := other (sl_Contract leg) (sl_Action leg)]> m) (sd_Legs group) ∅))
        false ref
  | None =>
      let reduces row :=
        let order := bw_Order row in
        brokerOrderIsTarget order target && EqualFold (TrimSpace (b_Action order)) OrderActionSell &&
        isProtectiveStopOrderType (b_OrderType order) && (brokerOrderRemaining order >f f0) &&
        (f_of_Z (dr_Quantity draft) <f fsub (brokerOrderRemaining order) tolerance) in
      mkExitInventory true (other (dr_Contract draft) (dr_Action draft)) None (hasTarget target && existsb reduces working) ref
  end.

(** ** The protective stop guard's step *)

Record protectiveStopGuardStep := mkGuardStep {
  gs_Kind : string; gs_Order : OrderLifecycleEvent; gs_View : OrderView; gs_Position : float64; gs_Remaining : float64;
  gs_Committed : float64; gs_Target : Z; gs_Reason : string
}.
#[global] Instance protectiveStopGuardStep_eta : Eta protectiveStopGuardStep := fun r => mkGuardStep
  (gs_Kind r) (gs_Order r) (gs_View r) (gs_Position r) (gs_Remaining r) (gs_Committed r) (gs_Target r) (gs_Reason r).

Definition protectiveStopGuardCancel : string := "cancel".
Definition protectiveStopGuardReport : string := "report".

(** ** What a sale does about Canary's own stops *)

Record protectiveOCAPlan := mkOCAPlan {
  op_Refusal : string; op_Group : string; op_Type : Z; op_Steps : list protectiveStopGuardStep; op_Stops : list protectiveOCAStop
}.
#[global] Instance protectiveOCAPlan_eta : Eta protectiveOCAPlan := fun r => mkOCAPlan
  (op_Refusal r) (op_Group r) (op_Type r) (op_Steps r) (op_Stops r).

Definition inactiveEntryStop (stop : protectiveOCAStop) : bool :=
  present (v_EntryLink (oc_View stop)) && (v_EntryState (oc_View stop) <>s "active").

(** ownGroup *)
Definition ownGroup (draft : OrderDraft) (plan : protectiveOCAPlan) : protectiveOCAPlan :=
  if isProtectiveStopOrderType (dr_OrderType draft)
  then plan <| op_Group := protectiveOCAGroupFor (dr_OrderRef draft) |> <| op_Type := protectiveOCAType |>
  else plan.

Section Plan.
(** fmt's rendering of a float with the verb "%.4g". *)
Context (formatG : float64 -> string) (draft : OrderDraft) (held : float64).

Definition shrinkStep (stop : protectiveOCAStop) (cut : float64) : protectiveStopGuardStep :=
  let target := fsub (oc_Remaining stop) cut in
  let units := positionUnits (cp_SecType (dr_Contract draft)) in
  let sale := ["the sale of "; Itoa (dr_Quantity draft); " of the "; formatG held; " "; units; " held leaves "] in
  if target <f nearlyOne then
    mkGuardStep protectiveStopGuardCancel (oc_Order stop) (oc_View stop) held (oc_Remaining stop) f0 0
      (say (sale ++ ["nothing for Canary's own stop of "; formatG (oc_Remaining stop);
                     ", which cannot join a group; cancelling it before the sale is sent"]))
  else
    let whole := int_of_float (Floor (fadd target tolerance)) in
    mkGuardStep protectiveStopGuardShrink (oc_Order stop) (oc_View stop) held (oc_Remaining stop) f0 whole
      (say (sale ++ [Itoa whole; " for Canary's own stop of "; formatG (oc_Remaining stop);
                     ", which cannot join a group; shrinking it before the sale is sent"])).

Fixpoint shrinkSteps (excess : float64) (stops : list protectiveOCAStop) : list protectiveStopGuardStep :=
  match stops with
  | [] => []
  | stop :: rest =>
      if excess <=f tolerance then []
      else
        let cut := mathMin (oc_Remaining stop) excess in
        shrinkStep stop cut :: shrinkSteps (fsub excess cut) rest
  end.

Definition planProtectiveOCA (stops : list protectiveOCAStop) : protectiveOCAPlan :=
  let plan := mkOCAPlan "" "" 0 [] stops in
  if negb (protectiveOCACandidate draft) then plan
  else if existsb inactiveEntryStop stops then
    plan <| op_Refusal := "an attached entry stop is not confirmed active; wait for the entry and stop to resolve before selling this holding" |>
  else
    let total := fold_left (fun t stop => fadd t (oc_Remaining stop)) stops f0 in
    let combined := fadd total (f_of_Z (dr_Quantity draft)) in
    if match stops with [] => true | _ => false end || (combined <=f fadd held tolerance) then ownGroup draft plan
    else
      match stops with
      | [stop] =>
          if (oc_Group stop <>s "") && (oc_Type stop =? protectiveOCAType)
          then plan <| op_Group := oc_Group stop |> <| op_Type := oc_Type stop |>
          else ownGroup draft (plan <| op_Steps := shrinkSteps (fsub combined held) stops |>)
      | _ => ownGroup draft (plan <| op_Steps := shrinkSteps (fsub combined held) stops |>)
      end.
End Plan.

(** ** Canary's sales the inventory does not show yet *)

Definition unseenSale (view : OrderView) : OrderLifecycleEvent :=
  zero_OrderLifecycleEvent
    <| b_Type := OrderLifecycleEventOpenOrder |> <| b_OrderID := v_ReservedOrderID view |> <| b_PermID := v_PermID view |>
    <| b_ClientID := v_ClientID view |> <| b_ClientIDPresent := true |>
    <| b_Symbol := v_Symbol view |> <| b_SecType := v_SecType view |> <| b_ConID := v_ConID view |> <| b_Currency := v_Currency view |>
    <| b_Action := v_Action view |> <| b_OrderType := v_OrderType view |>
    <| b_TotalQuantity := v_Quantity view |> <| b_Filled := v_Filled view |> <| b_Remaining := orderViewRemainingQuantity view |>
    <| b_Status := v_Status view |> <| b_OcaGroup := v_OCAGroup view |> <| b_OcaType := v_OCAType view |>.

Definition journalUnseenWorkingSales (snapshot : OpenOrderSnapshot) (views : list OrderView) (scope : brokerStateScope)
    (working : list brokerWorkingOrder) : list brokerWorkingOrder :=
  omap (fun '(i, view) =>
    if negb (protectiveStopGuardCanaryPlaced (Some view) scope) || negb (EqualFold (TrimSpace (v_Action view)) OrderActionSell) ||
       negb (After (v_UpdatedAt view) (sn_AsOf snapshot - journalInventoryMargin)) then None
    else if existsb (fun row => match journalRow row with Some v => sameRow v view | None => false end) working then None
    else Some (mkWorking (unseenSale view) (Some (i, view)) true))
    (imap pair views).

(** ** Two orders of Canary never sell the same shares twice *)

(** What the stops of remaining quantities [rs] still sell once the steps, in the
    stops' order, are done: a shrunk stop its target, a cancelled one nothing. *)
Fixpoint leftAfter (steps : list protectiveStopGuardStep) (rs : list Z) : Z :=
  match steps, rs with
  | step :: steps, _ :: rs => gs_Target step + leftAfter steps rs
  | _, _ => foldr Z.add 0 rs
  end.

Definition sizedStops (stops : list protectiveOCAStop) (rs : list Z) : Prop :=
  Forall2 (fun stop r => oc_Remaining stop = f_of_Z r /\ 0 < r) stops rs.

Lemma sized_nonneg stops rs : sizedStops stops rs -> 0 <= foldr Z.add 0 rs.
Proof. induction 1 as [|? ? ? ? [_ ?] ? ?]; simpl; lia. Qed.

(** The step for a stop of [r] when [c] of it is cut away. *)
Definition cutsTo (stop : protectiveOCAStop) (step : protectiveStopGuardStep) : Prop :=
  gs_View step = oc_View stop /\ gs_Order step = oc_Order stop /\ gs_Remaining step = oc_Remaining stop /\
  (gs_Kind step = protectiveStopGuardCancel /\ gs_Target step = 0 \/
   gs_Kind step = protectiveStopGuardShrink /\ 0 < gs_Target step /\ (f_of_Z (gs_Target step) <f oc_Remaining stop) = true).

Lemma shrink_step_int formatG draft held stop r c : oc_Remaining stop = f_of_Z r -> 0 < c <= r -> r < 2 ^ 52 ->
  cutsTo stop (shrinkStep formatG draft held stop (f_of_Z c)) /\
  gs_Target (shrinkStep formatG draft held stop (f_of_Z c)) = r - c.
Proof.
  intros Hr Hc Hb. assert (count (r - c)) by (unfold count; lia). assert (count r) by (unfold count; lia).
  assert (count c) by (unfold count; lia).
  unfold shrinkStep. rewrite Hr, fsub_int, below_nearly_one by eauto with canary.
  destruct (Z.leb_spec (r - c) 0) as [L|L]; simpl.
  - split; [|lia]. split_and!; [done..|]. by left.
  - rewrite floor_count, int_of_f_of_Z by eauto with canary. split; [|done].
    split_and!; [done..|]. right. cbn [gs_Target gs_Kind]. split; [done|]. split; [lia|]. rewrite Hr, fltb_int by eauto with canary. apply Z.ltb_lt. lia.
Qed.

Lemma shrink_steps_int formatG draft held stops rs x : sizedStops stops rs ->
  foldr Z.add 0 rs < 2 ^ 52 -> - 2 ^ 52 < x < 2 ^ 52 ->
  let steps := shrinkSteps formatG draft held (f_of_Z x) stops in
  leftAfter steps rs = foldr Z.add 0 rs - Z.min (Z.max 0 x) (foldr Z.add 0 rs) /\
  Forall2 cutsTo (take (List.length steps) stops) steps.
Proof.
  intros HF. revert x. induction HF as [|stop r stops rs [Hr Hpos] HF IH]; intros x Hb Hx; cbn [shrinkSteps foldr leftAfter] in *.
  { split; [lia | constructor]. }
  assert (Hsum := sized_nonneg _ _ HF).
  assert (count r) by (unfold count; lia). assert (int53 x) by (unfold int53; lia).
  rewrite le_tolerance by done. destruct (Z.leb_spec x 0) as [L|L]; cbn [leftAfter List.length take foldr].
  { split; [lia | constructor]. }
  assert (int53 (Z.min r x)) by (unfold int53, count in *; lia).
  rewrite Hr, mathMin_int, fsub_int by (eauto with canary || unfold int53, count in *; lia).
  destruct (shrink_step_int formatG draft held stop r (Z.min r x)) as [Hc Ht]; [done | lia | lia |].
  destruct (IH (x - Z.min r x)) as [Hl Hs]; [lia | lia |].
  cbn [leftAfter List.length take]. rewrite Hl, Ht. split; [lia | by constructor].
Qed.

(** The open quantities are whole numbers. *)
Record wholeSale (draft : OrderDraft) (h : Z) (stops : list protectiveOCAStop) (rs : list Z) : Prop := mkWholeSale {
  ws_held : count h;
  ws_stops : sizedStops stops rs;
  ws_total : foldr Z.add 0 rs + dr_Quantity draft < 2 ^ 52
}.

Lemma total_remaining stops rs : sizedStops stops rs -> foldr Z.add 0 rs < 2 ^ 52 ->
  forall t, 0 <= t -> t + foldr Z.add 0 rs < 2 ^ 52 ->
  fold_left (fun t stop => fadd t (oc_Remaining stop)) stops (f_of_Z t) = f_of_Z (t + foldr Z.add 0 rs).
Proof.
  induction 1 as [|stop r stops rs [Hr Hpos] HF IH]; intros Hb t Ht Htb; cbn [fold_left foldr] in *; [f_equal; lia|].
  assert (Hsum := sized_nonneg _ _ HF).
  rewrite Hr, fadd_int by (unfold int53; lia). rewrite IH by lia. f_equal. lia.
Qed.

Lemma ownGroup_steps draft plan : op_Steps (ownGroup draft plan) = op_Steps plan /\ op_Refusal (ownGroup draft plan) = op_Refusal plan.
Proof. unfold ownGroup. by case_if. Qed.

(** C36. On whole quantities, a sale of a resolved contract planned beside
    Canary's own stops never lets them and the sale sell the same shares twice.
    The plan is refused, with no step, exactly when an attached stop is not
    confirmed active.  Otherwise the sale either joins the one stop's broker group,
    of the reducing type and with no step; or the steps cancel or strictly shrink
    the first stops, each by name, and what the stops and the sale then sell
    together is exactly the smaller of their full sum and of what is held (or of the
    sale alone, where that is larger than the holding). *)
Theorem planned_sale_never_sells_twice formatG draft h stops rs :
  wholeSale draft h stops rs -> protectiveOCACandidate draft = true ->
  let plan := planProtectiveOCA formatG draft (f_of_Z h) stops in
  let q := dr_Quantity draft in
  if existsb inactiveEntryStop stops then op_Refusal plan <> "" /\ op_Steps plan = []
  else
    op_Refusal plan = "" /\
    ((exists stop, stops = [stop] /\ op_Steps plan = [] /\ op_Group plan = oc_Group stop /\ oc_Group stop <> "" /\
                  op_Type plan = protectiveOCAType) \/
     (Forall2 cutsTo (take (List.length (op_Steps plan)) stops) (op_Steps plan) /\
      leftAfter (op_Steps plan) rs + q = Z.min (foldr Z.add 0 rs + q) (Z.max h q))).
Proof.
  intros [Hh Hs Ht] Hc. cbv zeta. assert (Hn := sized_nonneg _ _ Hs).
  assert (Hq : 0 < dr_Quantity draft) by (unfold protectiveOCACandidate in Hc; bool_hyps; lia).
  unfold planProtectiveOCA. rewrite Hc. cbn [negb]. destruct (existsb inactiveEntryStop stops); [done|].
  rewrite f0_int, (total_remaining _ _ Hs) by lia. rewrite Z.add_0_l, fadd_int by (unfold int53; lia).
  rewrite tolerant_ge by (done || unfold count; lia).
  destruct (shrink_steps_int formatG draft (f_of_Z h) stops rs (foldr Z.add 0 rs + dr_Quantity draft - h)) as [Hl HF];
    [done | lia | unfold count in Hh; lia |].
  rewrite <- fsub_int in Hl, HF by (unfold int53, count in *; lia).
  assert (Hkeep : leftAfter [] rs = foldr Z.add 0 rs) by (by destruct rs).
  destruct (Z.leb_spec (foldr Z.add 0 rs + dr_Quantity draft) h) as [L|L]; [rewrite orb_true_r | rewrite orb_false_r].
  { destruct (ownGroup_steps draft (mkOCAPlan "" "" 0 [] stops)) as [-> ->]. split; [done|]. right. cbn [op_Steps List.length].
    split; [constructor | lia]. }
  destruct stops as [|stop [|stop' stops]].
  - destruct (ownGroup_steps draft (mkOCAPlan "" "" 0 [] [])) as [-> ->]. split; [done|]. right. cbn [op_Steps List.length].
    split; [constructor|]. inversion Hs; subst. cbn [foldr] in *. lia.
  - destruct ((oc_Group stop <>s "") && (oc_Type stop =? protectiveOCAType)) eqn:Hj.
    + split; [done|]. left. exists stop. apply andb_prop in Hj as [Hg Hy]. apply Z.eqb_eq in Hy.
      split_and!; [done..| |done]. intros E. by rewrite E in Hg.
    + match goal with |- context [ownGroup _ ?p] => destruct (ownGroup_steps draft p) as [-> ->] end.
      split; [done|]. right. split; [exact HF|]. cbn [op_Steps]. simpl in Hl |- *. lia.
  - match goal with |- context [ownGroup _ ?p] => destruct (ownGroup_steps draft p) as [-> ->] end.
    split; [done|]. right. split; [exact HF|]. change (leftAfter _ rs) with (leftAfter (shrinkSteps formatG draft (f_of_Z h)
      (fsub (f_of_Z (foldr Z.add 0 rs + dr_Quantity draft)) (f_of_Z h)) (stop :: stop' :: stops)) rs). rewrite Hl. lia.
Qed.

(** A market sale of 60 of the 100 shares held beside two stops of 50 and 30. *)
Definition sale_draft : OrderDraft :=
  gate_draft <| dr_Contract := mkContractParams 265598 "AAPL" "STK" "" "" "" "" "" "" "" f0 "" 0 f0 |>
             <| dr_Quantity := 60 |> <| dr_OrderType := "MKT" |> <| dr_Trail := None |> <| dr_OrderRef := "sale-1" |>.
Definition sale_stop (ref : string) (quantity : Z) : protectiveOCAStop :=
  mkOCAStop (zero_OrderView <| v_OrderRef := ref |>) zero_OrderLifecycleEvent (f_of_Z quantity) "" 0.
Definition sale_stops : list protectiveOCAStop := [sale_stop "stop-a" 50; sale_stop "stop-b" 30].

Lemma sale_ready : wholeSale sale_draft 100 sale_stops [50; 30] /\ protectiveOCACandidate sale_draft = true.
Proof.
  split; [|vm_compute; reflexivity].
  split; [unfold count; lia | repeat constructor | vm_compute; reflexivity].
Qed.

Lemma planned_sale_never_sells_twice_witness :
  map (fun s => (gs_Kind s, gs_Target s)) (op_Steps (planProtectiveOCA (fun _ => "") sale_draft (f_of_Z 100) sale_stops)) = [("shrink", 10)] /\
  leftAfter (op_Steps (planProtectiveOCA (fun _ => "") sale_draft (f_of_Z 100) sale_stops)) [50; 30] + 60 = 100.
Proof.
  split; [vm_compute; reflexivity|].
  destruct (planned_sale_never_sells_twice (fun _ => "") sale_draft 100 sale_stops [50; 30] (proj1 sale_ready) (proj2 sale_ready))
    as [_ [(stop & H & _)|[_ H]]]; [discriminate H | exact H].
Defined.
