(* ===== verification/PositionEvidence.v ===== *)
(** * The position and the notional an order is judged against

    src/internal/daemon/order_risk_authority.go (confirmedPositionProjection,
    the captured position authority, the exact position of a contract, the FX
    evidence of its notional) and order_preview.go (the effect of an order on its
    position).  What the connector answers (portfolio projection, account summary,
    FX quote) is an argument of the definitions, and so is whether its session is
    still current; the seams only tests install are left out.  Proved: the exact
    position is the one row of the contract or nothing. *)

From stdpp Require Import base decidable list strings gmap.
From Stdlib Require Import ZArith Lia Ascii String SpecFloat.
From S2P Require Import Prelude Floats OrderTypes OrderStatus BrokerScope WriteGate PlaceOrderProto PreviewToken.
From S2P Require Import OrderLimits.

(** ** The effect of an order on a position *)

Definition OrderPositionEffectOpen : string := "open".
Definition OrderPositionEffectIncrease : string := "increase".
Definition OrderPositionEffectReduce : string := "reduce".
Definition OrderPositionEffectClose : string := "close".
Definition OrderPositionEffectFlip : string := "flip".
Definition OrderPositionEffectOpenShort : string := "open_short".

Definition classifyPositionEffect (before after : float64) : string :=
  if (before =f f0) && (after >f f0) then OrderPositionEffectOpen
  else if (before >f f0) && (after >f before) then OrderPositionEffectIncrease
  else if (before >f f0) && (after >f f0) && (after <f before) then OrderPositionEffectReduce
  else if (before >f f0) && (after =f f0) then OrderPositionEffectClose
  else if (before =f f0) && (after <f f0) then OrderPositionEffectOpenShort
  else if (before >=f f0) && (after <f f0) then OrderPositionEffectFlip
  else if (before <f f0) && (after >f f0) then OrderPositionEffectFlip
  else if (before <f f0) && (after =f f0) then OrderPositionEffectClose
  else if (before <f f0) && (after <f f0) && (fabs after <f fabs before) then OrderPositionEffectReduce
  else OrderPositionEffectIncrease.

Definition stockShortOrFlip (effect : string) : bool :=
  (effect =s OrderPositionEffectFlip) || (effect =s OrderPositionEffectOpenShort).

Definition isRiskReducing (effect : string) : bool :=
  (effect =s OrderPositionEffectClose) || (effect =s OrderPositionEffectReduce).

Definition optionSellToOpen (action effect : string) : bool :=
  (action =s OrderActionSell) && ((effect =s OrderPositionEffectOpenShort) || (effect =s OrderPositionEffectFlip)).

Definition sameOrderPositionImpact (a b : OrderPositionImpact) : bool :=
  (pi_Before a =f pi_Before b) && (pi_After a =f pi_After b) && (pi_Effect a =s pi_Effect b).

(** ** The exact position of a contract *)

Definition riskSecTypeConsistent (want got : string) : bool :=
  let want := ToUpper (TrimSpace want) in
  let got := ToUpper (TrimSpace got) in
  (want =s got) || ((want =s "ETF") && (got =s "STK")) || ((want =s "STK") && (got =s "ETF")).

Record exactRiskPositionEvidence := mkPositionEvidence { xe_Quantity : float64; xe_AverageCost : float64; xe_Multiplier : Z }.
Definition noPosition : exactRiskPositionEvidence := mkPositionEvidence f0 f0 0.

Definition evErr {A} (parts : list string) : wres A := Err (mkErr "" (say parts)).
Definition conIDText (contract : ContractParams) : string := say ["ConID "; Itoa (cp_ConID contract)].

(** One row of the loop; [matched] is the evidence of a row met before. *)
Definition positionRow (contract : ContractParams) (matched : option exactRiskPositionEvidence) (position : option RawPosition)
    : wres (option exactRiskPositionEvidence) :=
  match position with
  | None => Ok matched
  | Some p =>
      if rp_Position p =f f0 then Ok matched
      else
        let wantSymbol := ToUpper (TrimSpace (cp_Symbol contract)) in
        let wantSecType := ToUpper (TrimSpace (cp_SecType contract)) in
        let k := BrokerScope.rp_Contract p in
        let posSecType := ToUpper (TrimSpace (k_SecType k)) in
        let posSymbol := ToUpper (TrimSpace (k_Symbol k)) in
        if k_ConID k <=? 0 then
          if (posSymbol <>s "") && (posSymbol =s wantSymbol) && riskSecTypeConsistent wantSecType posSecType
          then evErr ["same-symbol portfolio row has no positive ConID"] else Ok matched
        else if negb (k_ConID k =? cp_ConID contract) then Ok matched
        else if negb (riskSecTypeConsistent wantSecType posSecType)
        then evErr [conIDText contract; " has conflicting secType "; quoted (k_SecType k)]
        else
          let posCurrency := ToUpper (TrimSpace (k_Currency k)) in
          if (posCurrency =s "") || (posCurrency <>s ToUpper (TrimSpace (cp_Currency contract)))
          then evErr [conIDText contract; " has conflicting currency "; quoted (k_Currency k)]
          else if (wantSymbol <>s "") && (posSymbol <>s "") && (posSymbol <>s wantSymbol)
          then evErr [conIDText contract; " has conflicting symbol "; quoted (k_Symbol k)]
          else if present matched then evErr [conIDText contract; " appears in duplicate portfolio rows"]
          else if IsNaN (rp_AverageCost p) || IsInf (rp_AverageCost p)
          then evErr [conIDText contract; " has non-finite average cost"]
          else Ok (Some (mkPositionEvidence (rp_Position p) (rp_AverageCost p) (k_Multiplier k)))
  end.

Fixpoint positionRows (contract : ContractParams) (matched : option exactRiskPositionEvidence) (positions : list (option RawPosition))
    : wres (option exactRiskPositionEvidence) :=
  match positions with
  | [] => Ok matched
  | p :: rest => let? matched := positionRow contract matched p in positionRows contract matched rest
  end.

Definition exactRiskPositionEvidenceForContract (positions : list (option RawPosition)) (contract : ContractParams)
    : wres exactRiskPositionEvidence :=
  if cp_ConID contract <=? 0 then evErr ["contract ConID must be positive"]
  else if (ToUpper (TrimSpace (cp_SecType contract)) =s "") || (ToUpper (TrimSpace (cp_Currency contract)) =s "")
  then evErr ["contract secType and currency are required"]
  else let? matched := positionRows contract None positions in Ok (default noPosition matched).

Definition exactRiskPositionQuantity (positions : list (option RawPosition)) (contract : ContractParams) : wres float64 :=
  let? evidence := exactRiskPositionEvidenceForContract positions contract in Ok (xe_Quantity evidence).

(** ** The confirmed projection and the captured authority *)

(** ibkr.PortfolioProjectionBinding, less the session it is bound to. *)
Record PortfolioProjectionBinding := mkProjection {
  pb_Positions : list (option RawPosition); pb_Health : PortfolioStreamHealth; pb_Generation : Z
}.

Definition confirmedPositionProjection (scope : brokerStateScope) (projection : PortfolioProjectionBinding) (now : time) : wres unit :=
  let health := classifyPortfolioStreamHealth scope (pb_Health projection) now in
  if health <>s orderIntegrityHealthCurrent
  then tradingDisabled ["current account-scoped portfolio evidence is "; health; "; refresh and preview again"]
  else if negb (cachedPositionsMatchBrokerScope (pb_Positions projection) scope)
  then tradingDisabled ["portfolio evidence belongs to another account; refresh and preview again"]
  else Ok tt.

(** The orderPositionAuthority of a production capture. *)
Record orderPositionAuthority := mkPositionAuthority {
  oa_Impact : OrderPositionImpact; oa_Generation : Z; oa_Health : PortfolioStreamHealth; oa_EvidenceAt : time;
  oa_BaseCurrency : string; oa_BaseCurrencyProvenance : string
}.
#[global] Instance orderPositionAuthority_eta : Eta orderPositionAuthority := fun r => mkPositionAuthority
  (oa_Impact r) (oa_Generation r) (oa_Health r) (oa_EvidenceAt r) (oa_BaseCurrency r) (oa_BaseCurrencyProvenance r).

Definition AccountBaseCurrencyExplicitTag : string := "explicit_currency_tag".
Definition AccountBaseCurrencyValueSuffix : string := "account_value_suffix".
Definition Proven (p : string) : bool := (p =s AccountBaseCurrencyExplicitTag) || (p =s AccountBaseCurrencyValueSuffix).
Definition AccountSummaryProvenanceRequest : string := "request".

Definition isUpperLetter (c : ascii) : bool := (65 <=? Z.of_N (N_of_ascii c)) && (Z.of_N (N_of_ascii c) <=? 90).
Definition rulebookBaseCurrency (raw : string) : string * bool :=
  let currency := normCcy raw in
  if negb (Nat.eqb (String.length currency) 3) || (currency =s "BASE") then ("", false)
  else if forallb isUpperLetter (list_ascii_of_string currency) then (currency, true) else ("", false).

(** ibkr.RawAccountSummary, the fields the capture reads. *)
Record RawAccountSummary := mkSummary { ra_AccountID : string; ra_BaseCurrency : string; ra_BaseCurrencyProvenance : string }.

Definition brokerWriteTransactionDriftError {A} : wres A :=
  tradingDisabled ["broker connection authority changed before transmit; refresh and retry"].

(** The signed quantity an order adds. *)
Definition orderDelta (action : string) (qty : Z) : float64 :=
  if EqualFold action OrderActionSell then fopp (f_of_Z qty) else f_of_Z qty.

(** captureBoundOrderPositionAuthority on what the connector answers. *)
Definition captureBoundOrderPositionAuthority (projection : option PortfolioProjectionBinding)
    (summary : result string (option RawAccountSummary * string)) (sessionCurrent : bool) (now : time)
    (account mode : string) (contract : ContractParams) (action : string) (qty : Z) : wres orderPositionAuthority :=
  match projection with
  | None => brokerWriteTransactionDriftError
  | Some projection =>
      let? _ := confirmedPositionProjection (mkScope account mode) projection now in
      match exactRiskPositionEvidenceForContract (pb_Positions projection) contract with
      | Err e => tradingDisabled ["exact contract position evidence unavailable: "; err_msg e]
      | Ok evidence =>
          let before := xe_Quantity evidence in
          let after := fadd before (orderDelta action qty) in
          match summary with
          | Err why => tradingDisabled ["current account base-currency evidence unavailable: "; why]
          | Ok (answer, provenance) =>
              match answer with
              | Some a =>
                  if (provenance <>s AccountSummaryProvenanceRequest) || negb (EqualFold (TrimSpace (ra_AccountID a)) (TrimSpace account))
                  then tradingDisabled ["current exact-account base-currency evidence unavailable"]
                  else
                    let '(base, ok) := rulebookBaseCurrency (ra_BaseCurrency a) in
                    if negb ok || negb (Proven (ra_BaseCurrencyProvenance a))
                    then tradingDisabled ["explicit account base-currency evidence is unavailable (provenance ";
                                          quoted (ra_BaseCurrencyProvenance a); ")"]
                    else if negb sessionCurrent then brokerWriteTransactionDriftError
                    else Ok (mkPositionAuthority
                               (mkImpact before after (classifyPositionEffect before after) (xe_AverageCost evidence) (xe_Multiplier evidence))
                               (pb_Generation projection) (pb_Health projection) (portfolioStreamEvidenceAsOf (pb_Health projection))
                               base (ra_BaseCurrencyProvenance a))
              | None => tradingDisabled ["current exact-account base-currency evidence unavailable"]
              end
          end
      end
  end.

(** ** Strategy combos *)

Section Strategy.
(** fmt's rendering of a float with the verb "%.10g". *)
Context (formatG10 : float64 -> string).

Fixpoint strategyLegs (positions : list (option RawPosition)) (seen : list Z) (legs : list StrategyOrderLeg) : wres unit :=
  match legs with
  | [] => Ok tt
  | leg :: rest =>
      let id := cp_ConID (sl_Contract leg) in
      if existsb (Z.eqb id) seen then evErr ["duplicate strategy ConID "; Itoa id]
      else
        let? before := exactRiskPositionQuantity positions (sl_Contract leg) in
        if fabs (fsub before (sl_Before leg)) >f tolerance
        then evErr ["ConID "; Itoa id; " quantity is "; formatG10 before; ", preview expected "; formatG10 (sl_Before leg)]
        else strategyLegs positions (id :: seen) rest
  end.

Definition verifyStrategyPositionProjection (positions : list (option RawPosition)) (draft : StrategyOrderDraft) : wres unit :=
  if negb (sd_GuaranteedCombo draft) || (Nat.ltb (List.length (sd_Legs draft)) 2) then evErr ["strategy is not submit-eligible"]
  else strategyLegs positions [] (sd_Legs draft).

Definition strategyImpact (draft : StrategyOrderDraft) : OrderPositionImpact :=
  let before := f_of_Z (sd_UnitsBefore draft) in
  let after := f_of_Z (sd_UnitsAfter draft) in
  mkImpact before after (classifyPositionEffect before after) f0 0.

(** captureBoundStrategyPositionAuthority: [again] is the second projection read. *)
Definition captureBoundStrategyPositionAuthority (projection again : option PortfolioProjectionBinding)
    (summary : result string (option RawAccountSummary * string)) (sessionCurrent : bool) (now : time)
    (account mode : string) (draft : StrategyOrderDraft) : wres orderPositionAuthority :=
  match sd_Legs draft with
  | first :: _ :: _ =>
      if (sd_Units draft <=? 0) || (sd_UnitsBefore draft <=? 0) || negb (sd_UnitsAfter draft =? sd_UnitsBefore draft - sd_Units draft)
      then tradingDisabled ["invalid strategy position binding"]
      else
        let? base := captureBoundOrderPositionAuthority projection summary sessionCurrent now account mode
                       (sl_Contract first) (sl_Action first) (sl_Quantity first) in
        match again with
        | Some p =>
            if negb (pb_Generation p =? oa_Generation base) then brokerWriteTransactionDriftError
            else match verifyStrategyPositionProjection (pb_Positions p) draft with
                 | Err e => tradingDisabled ["strategy position changed: "; err_msg e]
                 | Ok _ => Ok (base <| oa_Impact := strategyImpact draft |>)
                 end
        | None => brokerWriteTransactionDriftError
        end
  | _ => tradingDisabled ["invalid strategy position binding"]
  end.

(** captureWireOrderPositionAuthority: the base currency is the bound one. *)
Definition captureWireOrderPositionAuthority (projection : option PortfolioProjectionBinding) (now : time)
    (account mode base provenance : string) (draft : OrderDraft) : wres orderPositionAuthority :=
  match projection with
  | None => brokerWriteTransactionDriftError
  | Some projection =>
      let? _ := confirmedPositionProjection (mkScope account mode) projection now in
      let authority impact := mkPositionAuthority impact (pb_Generation projection) (pb_Health projection)
                                (portfolioStreamEvidenceAsOf (pb_Health projection)) base provenance in
      match dr_StrategyGroup draft with
      | Some group =>
          match verifyStrategyPositionProjection (pb_Positions projection) group with
          | Err e => tradingDisabled ["strategy position changed: "; err_msg e]
          | Ok _ => Ok (authority (strategyImpact group))
          end
      | None =>
          match exactRiskPositionQuantity (pb_Positions projection) (dr_Contract draft) with
          | Err e => tradingDisabled ["exact contract position evidence unavailable: "; err_msg e]
          | Ok before =>
              let after := fadd before (orderDelta (dr_Action draft) (dr_Quantity draft)) in
              Ok (authority (mkImpact before after (classifyPositionEffect before after) f0 0))
          end
      end
  end.
End Strategy.

(** ** The notional and its FX evidence *)

Definition orderFXSourceIdentity : string := "currency_identity".
Definition orderFXSourceExactSessionQuote : string := "ibkr.tws.exact_fx_quote".

Record orderNotionalAuthority := mkNotional {
  nt_QuoteNotional : float64; nt_ContractCurrency : string; nt_BaseNotional : float64; nt_BaseCurrency : string;
  nt_BasePerContract : float64; nt_EvidenceAt : time; nt_DataType : string; nt_Source : string
}.

(** rpc.OrderQuoteSnapshot, the fields the FX rate reads. *)
Record OrderQuoteSnapshot := mkQuote { oq_Bid : option float64; oq_Ask : option float64; oq_DataType : string; oq_AsOf : time }.

Definition orderFXBasePriority : list (string * Z) :=
  [("EUR", 0); ("GBP", 1); ("AUD", 2); ("NZD", 3); ("USD", 4); ("CAD", 5); ("CHF", 6); ("JPY", 7)].
Definition fxRank (ccy : string) : option Z := option_map snd (List.find (fun e => String.eqb (fst e) ccy) orderFXBasePriority).

Definition canonicalOrderFXContract (contractCurrency baseCurrency : string) : wres (ContractParams * bool) :=
  let contractCurrency := ToUpper (TrimSpace contractCurrency) in
  let baseCurrency := ToUpper (TrimSpace baseCurrency) in
  match fxRank contractCurrency, fxRank baseCurrency with
  | Some contractRank, Some baseRank =>
      if contractCurrency =s baseCurrency then evErr ["unsupported major-currency pair"]
      else
        let inverted := baseRank <? contractRank in
        let '(symbol, currency) := if inverted then (baseCurrency, contractCurrency) else (contractCurrency, baseCurrency) in
        Ok (mkContractParams 0 symbol "CASH" "" "IDEALPRO" "IDEALPRO" currency "" "" "" f0 "" 0 f0, inverted)
  | _, _ => evErr ["unsupported major-currency pair"]
  end.

Definition validOrderFXDataType (dataType : string) : bool := one_of dataType ["live"; "frozen"; "delayed"; "delayed-frozen"].

Definition newCrossCurrencyOrderNotionalAuthority (quoteNotional : float64) (contractCurrency baseCurrency : string)
    (rate : float64) (at_ : time) (dataType : string) : wres orderNotionalAuthority :=
  if negb (positiveFinite rate) || IsZero at_ || negb (validOrderFXDataType dataType)
  then tradingDisabled ["current typed FX evidence unavailable for "; baseCurrency; "/"; contractCurrency]
  else Ok (mkNotional quoteNotional contractCurrency (fmul quoteNotional rate) baseCurrency rate at_ dataType orderFXSourceExactSessionQuote).

Definition conservativeOrderFXRate (quote : OrderQuoteSnapshot) (inverted : bool) : float64 :=
  if inverted
  then match oq_Bid quote with Some bid => if positiveFinite bid then fdiv (f_of_Z 1) bid else f0 | None => f0 end
  else match oq_Ask quote with Some ask => if positiveFinite ask then ask else f0 | None => f0 end.

(** captureOrderNotionalAuthority: whether the session is current before and after
    the quote, and what the quote read answers. *)
Definition captureOrderNotionalAuthority (now : time) (currentBefore currentAfter : bool)
    (fxQuote : ContractParams -> result string OrderQuoteSnapshot) (quoteNotional : float64) (contractCurrency baseCurrency : string)
    : wres orderNotionalAuthority :=
  let contractCurrency := ToUpper (TrimSpace contractCurrency) in
  let baseCurrency := ToUpper (TrimSpace baseCurrency) in
  let pair := say [baseCurrency; "/"; contractCurrency] in
  if negb (positiveFinite quoteNotional) || (contractCurrency =s "") || (baseCurrency =s "")
  then tradingDisabled ["complete order notional currency evidence is unavailable"]
  else if contractCurrency =s baseCurrency
  then Ok (mkNotional quoteNotional contractCurrency quoteNotional baseCurrency (f_of_Z 1) now "" orderFXSourceIdentity)
  else if negb currentBefore then tradingDisabled ["current typed FX evidence unavailable for "; pair]
  else match canonicalOrderFXContract contractCurrency baseCurrency with
  | Err e => tradingDisabled ["current typed FX evidence unavailable for "; pair; ": "; err_msg e]
  | Ok (contract, inverted) =>
      match fxQuote contract with
      | Err why => tradingDisabled ["current exact-session FX quote unavailable for "; pair; ": "; why]
      | Ok quote =>
          let rate := conservativeOrderFXRate quote inverted in
          let? out := newCrossCurrencyOrderNotionalAuthority quoteNotional contractCurrency baseCurrency rate (oq_AsOf quote) (oq_DataType quote) in
          if negb currentAfter then brokerWriteTransactionDriftError else Ok out
      end
  end.

(** ** The exact position is the one row *)

Definition rowOf (contract : ContractParams) (position : option RawPosition) : bool :=
  match position with
  | Some p => negb (rp_Position p =f f0) && (k_ConID (BrokerScope.rp_Contract p) =? cp_ConID contract)
  | None => false
  end.

(** The portfolio row [p] holds the contract: same ConID, currency and a consistent
    security type, and it is what the evidence carries. *)
Definition heldAs (contract : ContractParams) (p : RawPosition) (e : exactRiskPositionEvidence) : Prop :=
  e = mkPositionEvidence (rp_Position p) (rp_AverageCost p) (k_Multiplier (BrokerScope.rp_Contract p)) /\
  ToUpper (TrimSpace (k_Currency (BrokerScope.rp_Contract p))) = ToUpper (TrimSpace (cp_Currency contract)) /\
  riskSecTypeConsistent (ToUpper (TrimSpace (cp_SecType contract))) (ToUpper (TrimSpace (k_SecType (BrokerScope.rp_Contract p)))) = true.

Lemma position_row_cases contract m position m' : 0 < cp_ConID contract -> positionRow contract m position = Ok m' ->
  if rowOf contract position
  then m = None /\ exists p e, position = Some p /\ m' = Some e /\ heldAs contract p e
  else m' = m.
Proof.
  intros Hc. unfold positionRow, rowOf. destruct position as [p|]; [|by intros [= <-]].
  destruct (rp_Position p =f f0); cbn [negb andb]; [by intros [= <-]|].
  destruct (Z.leb_spec (k_ConID (BrokerScope.rp_Contract p)) 0) as [L|L].
  { replace (k_ConID _ =? cp_ConID contract) with false by (symmetry; apply Z.eqb_neq; lia). case_if; [done|]. by intros [= <-]. }
  destruct (k_ConID (BrokerScope.rp_Contract p) =? cp_ConID contract); cbn [negb]; [|by intros [= <-]].
  destruct (riskSecTypeConsistent _ _) eqn:E1; cbn [negb]; [|done].
  destruct (_ || _) eqn:E2; [done|]. case_if; [done|]. destruct m; cbn [present]; [done|]. case_if; [done|]. intros [= <-].
  split; [done|]. eexists p, _. split_and!; [done..|]. unfold heldAs. split_and!; [done| |done].
  apply orb_false_iff in E2 as [_ E2]. apply negb_false_iff in E2. by apply String.eqb_eq.
Qed.

Lemma position_rows_cases contract positions : 0 < cp_ConID contract -> forall m m', positionRows contract m positions = Ok m' ->
  match List.filter (rowOf contract) positions with
  | [] => m' = m
  | [position] => m = None /\ exists p e, position = Some p /\ m' = Some e /\ heldAs contract p e
  | _ => False
  end.
Proof.
  intros Hc. induction positions as [|position rest IH]; intros m m'; cbn [positionRows List.filter].
  { by intros [= <-]. }
  destruct (positionRow contract m position) as [m1|] eqn:E; [|done]. cbn [rbind]. intros H.
  apply position_row_cases in E; [|done]. specialize (IH _ _ H).
  destruct (rowOf contract position); [|subst m1; exact IH].
  destruct E as [-> (p & e & -> & -> & Hp)].
  destruct (List.filter _ rest) as [|? [|? ?]]; [subst m'; eauto 10 | by destruct IH | done].
Qed.

(** The position an order is judged against is exact: when the portfolio's
    rows give one, the contract has no non-zero row and the position is nothing, or it
    has exactly one, in the contract's currency and with a consistent security type,
    and the quantity, average cost and multiplier are that row's.  Two rows of one
    contract, or a row in another currency, give no position. *)
Theorem exact_position_is_the_one_row positions contract e :
  exactRiskPositionEvidenceForContract positions contract = Ok e ->
  0 < cp_ConID contract /\
  match List.filter (rowOf contract) positions with
  | [] => e = noPosition
  | [position] => exists p, position = Some p /\ heldAs contract p e
  | _ => False
  end.
Proof.
  unfold exactRiskPositionEvidenceForContract. destruct (Z.leb_spec (cp_ConID contract) 0) as [|L]; [done|]. case_if; [done|].
  destruct (positionRows contract None positions) as [m|] eqn:E; [|done]. cbn [rbind]. intros [= <-]. split; [done|].
  apply position_rows_cases in E; [|done]. destruct (List.filter _ positions) as [|? [|? ?]]; [by subst m | | done].
  destruct E as (_ & p & e & -> & -> & Hp). eauto.
Qed.

Definition aapl_contract : ContractParams := mkContractParams 265598 "AAPL" "STK" "" "" "" "USD" "" "" "" f0 "" 0 f0.
Definition aapl_position : RawPosition :=
  mkRawPosition "DU123" (mkContract 265598 "AAPL" "STK" "" f0 "" "NASDAQ" "usd" "AAPL" "NMS" 1) (f_of_Z 70) (f_of_Z 150).
Definition other_position : RawPosition :=
  mkRawPosition "DU123" (mkContract 12087792 "EUR" "CASH" "" f0 "" "IDEALPRO" "USD" "EUR.USD" "EUR" 1) (f_of_Z 1000) f0.

Lemma exact_position_is_the_one_row_witness :
  exactRiskPositionEvidenceForContract [Some other_position; None; Some aapl_position] aapl_contract =
    Ok (mkPositionEvidence (f_of_Z 70) (f_of_Z 150) 1) /\
  exists p, Some aapl_position = Some p /\ heldAs aapl_contract p (mkPositionEvidence (f_of_Z 70) (f_of_Z 150) 1).
Proof.
  split; [vm_compute; reflexivity|].
  exact (proj2 (exact_position_is_the_one_row [Some other_position; None; Some aapl_position] aapl_contract _ ltac:(vm_compute; reflexivity))).
Defined.
