(* ===== verification/DeltaReduction.v ===== *)
(** * Exits that lower delta

    src/internal/daemon/delta_reduction.go, with the shape tests of
    protective_exit.go and the row measures of handlers.go it uses: when a close or
    reduction passes the order caps.  The positions read is an argument; the order in
    which Go ranges over the shares map and fmt's rendering of floats are parameters.
    Proved on whole quantities: the short lines the coverage rule finds uncovered are
    exactly the largest shortfall over the expiries, whatever order the lines come in. *)

From stdpp Require Import base decidable list strings gmap.
From Stdlib Require Import ZArith Lia Ascii String SpecFloat Sorted.
From S2P Require Import Prelude Floats OrderTypes OrderStatus BrokerScope Protective WriteGate PlaceOrderProto PreviewToken.
From S2P Require Import OrderLimits WorkingOrders PositionEvidence.

(** ** Strings and floats *)

Definition HasPrefix (s prefix : string) : bool := String.prefix prefix s.
Fixpoint dropLeading (c : ascii) (s : string) : string :=
  match s with String d rest => if Ascii.eqb c d then dropLeading c rest else s | EmptyString => "" end.
Definition reversed (s : string) : string := string_of_list_ascii (rev (list_ascii_of_string s)).
(** [strings.TrimRight] with a cutset of one character; [strings.TrimSuffix]. *)
Definition TrimRightChar (s : string) (c : ascii) : string := reversed (dropLeading c (reversed s)).
Definition TrimSuffix (s suffix : string) : string := reversed (TrimPrefix (reversed s) (reversed suffix)).
(** Go's builtin [min] and [max] on floats. *)
Definition goMin (x y : float64) : float64 := if IsNaN x || IsNaN y then S754_nan else mathMin x y.
Definition goMax (x y : float64) : float64 := if IsNaN x || IsNaN y then S754_nan else mathMax x y.
Definition Ceil (x : float64) : float64 := fopp (Floor (fopp x)).
Definition isBuy (action : string) : bool := EqualFold (TrimSpace action) OrderActionBuy.
Definition notFinite (x : float64) : bool := IsNaN x || IsInf x.

(** ** Evidence *)

Record deltaReductionLeg := mkDeltaLeg { dl_Quantity : float64; dl_UnitBase : float64 }.
Record deltaCoverLeg := mkCoverLeg { cl_ConID : Z; cl_Right : string; cl_Expiry : string; cl_Quantity : float64; cl_Multiplier : float64 }.
Record deltaCoverage := mkCoverage { cv_Shares : gmap Z float64; cv_Options : list deltaCoverLeg }.

(** [de_Legs] is [None] for the nil map of the zero value. *)
Record deltaReductionEvidence := mkDeltaEvidence {
  de_Current : bool; de_Unread : bool; de_Underlying : string; de_BaseCurrency : string; de_NetBefore : float64;
  de_BookBefore : float64; de_Legs : option (gmap Z deltaReductionLeg); de_Cover : deltaCoverage; de_Reason : string
}.
#[global] Instance deltaReductionEvidence_eta : Eta deltaReductionEvidence := fun r => mkDeltaEvidence
  (de_Current r) (de_Unread r) (de_Underlying r) (de_BaseCurrency r) (de_NetBefore r) (de_BookBefore r) (de_Legs r)
  (de_Cover r) (de_Reason r).
Definition noDeltaEvidence : deltaReductionEvidence := mkDeltaEvidence false false "" "" f0 f0 None (mkCoverage ∅ []) "".

Record deltaChange := mkChangeOf { dc_ConID : Z; dc_Contract : ContractParams; dc_Action : string; dc_Before : float64; dc_After : float64 }.

(** ** The shape of the order *)

Definition shrinksPosition (before after : float64) : bool :=
  if notFinite before || notFinite after || (before =f f0) then false
  else (fmul before after >=f f0) && (fabs after <f fabs before).

Definition deltaReductionCandidate (draft : OrderDraft) (position : OrderPositionImpact) : bool :=
  if dr_Quantity draft <=? 0 then false
  else match dr_StrategyGroup draft with
  | Some group =>
      if negb (sd_GuaranteedCombo group) || Nat.ltb (List.length (sd_Legs group)) 2 || (sd_Units group <=? 0) ||
         (sd_UnitsAfter group <? 0) || negb (sd_UnitsAfter group =? sd_UnitsBefore group - sd_Units group) then false
      else forallb (fun leg => EqualFold (cp_SecType (sl_Contract leg)) "OPT" && (0 <? cp_ConID (sl_Contract leg)) &&
                               shrinksPosition (sl_Before leg) (sl_After leg)) (sd_Legs group)
  | None =>
      if (cp_ConID (dr_Contract draft) <=? 0) ||
         (negb (isStockLikeRiskSecType (cp_SecType (dr_Contract draft))) && negb (EqualFold (cp_SecType (dr_Contract draft)) "OPT"))
      then false
      else isRiskReducing (pi_Effect position) && shrinksPosition (pi_Before position) (pi_After position)
  end.

Definition deltaReductionChanges (draft : OrderDraft) (position : OrderPositionImpact) : list deltaChange :=
  match dr_StrategyGroup draft with
  | Some group => map (fun leg => mkChangeOf (cp_ConID (sl_Contract leg)) (sl_Contract leg) (sl_Action leg) (sl_Before leg) (sl_After leg))
                    (sd_Legs group)
  | None => [mkChangeOf (cp_ConID (dr_Contract draft)) (dr_Contract draft) (dr_Action draft) (pi_Before position) (pi_After position)]
  end.

Definition deltaReductionCapsBind (limits : OrderLimitsInForce) (draft : OrderDraft) (notional : orderNotionalAuthority) : bool :=
  if negb (lf_Complete limits) then false
  else (nt_BaseNotional notional >f lf_CapBase limits) ||
       (EqualFold (cp_SecType (dr_Contract draft)) "OPT" && (lf_MaxOptionContracts limits <? dr_Quantity draft)) ||
       match dr_StrategyGroup draft with
       | Some group => existsb (fun leg => lf_MaxOptionContracts limits <? sl_Quantity leg) (sd_Legs group)
       | None => false
       end.

Definition bondSaleCandidate (draft : OrderDraft) (position : OrderPositionImpact) : bool :=
  negb (present (dr_StrategyGroup draft)) && IsBillOrBond (cp_SecType (dr_Contract draft)) &&
  EqualFold (TrimSpace (dr_Action draft)) OrderActionSell && (0 <? dr_Quantity draft) && isRiskReducing (pi_Effect position).

(** ** The measure of a held row *)

(** rpc.PositionView: its identity and the market fields the measure reads. *)
Record heldRow := mkHeld {
  hr_View : PositionView; hr_Multiplier : Z; hr_Mark : float64; hr_Delta : option float64; hr_Underlying : option float64;
  hr_PrevClose : option float64; hr_Stale : bool; hr_WarningCodes : list string; hr_FXRate : option float64
}.

(** rpc.PositionsResult: [hp_BaseCurrency] is [None] without a portfolio block. *)
Record heldPositions := mkHeldPositions {
  hp_Authority : option AccountDataAuthority; hp_BaseCurrency : option string; hp_Stocks : list heldRow; hp_Options : list heldRow
}.

Definition optionMultiplier (p : heldRow) : Z := if 0 <? hr_Multiplier p then hr_Multiplier p else 100.
Definition positionIsFuture (row : heldRow) : bool := one_of (ToUpper (TrimSpace (pv_SecType (hr_View row)))) ["FUTURE"; "FUT"].
Definition PositionQuotesAsStock (row : heldRow) : bool := one_of (ToUpper (TrimSpace (pv_SecType (hr_View row)))) ["STOCK"; "STK"; "ETF"].
Definition zeroValueStockPositionCode : string := "zero_value_stock_position".
Definition positionWarningHasCode (codes : list string) (code : string) : bool := existsb (String.eqb code) codes.
Definition positiveOf (x : option float64) : option float64 := match x with Some v => if v >f f0 then Some v else None | None => None end.

Definition positionDollarDelta (row : heldRow) (isOption : bool) : option float64 :=
  let quantity := pv_Quantity (hr_View row) in
  if isOption then
    match hr_Delta row with
    | None => None
    | Some delta =>
        match (match positiveOf (hr_Underlying row) with Some s => Some s | None => positiveOf (hr_PrevClose row) end) with
        | None => None
        | Some spot => Some (fmul (fmul (fmul delta quantity) (f_of_Z (optionMultiplier row))) spot)
        end
    end
  else if hr_Mark row <=f f0 then None
  else if positionIsFuture row then
    if hr_Multiplier row <=? 0 then None else Some (fmul (fmul quantity (hr_Mark row)) (f_of_Z (hr_Multiplier row)))
  else Some (fmul quantity (hr_Mark row)).

Definition positionBaseRate (row : heldRow) (baseCcy : string) : option float64 :=
  let baseCcy := normCcy baseCcy in
  let ccy := normCcy (pv_Currency (hr_View row)) in
  if (baseCcy =s "") || (ccy =s "") then None
  else if ccy =s baseCcy then Some (f_of_Z 1)
  else positiveOf (hr_FXRate row).

(** deltaLegBase: the base dollar delta, or why the row cannot be measured. *)
Definition deltaLegBase (row : heldRow) (isOption : bool) (baseCcy : string) : result string float64 :=
  if negb isOption && positionWarningHasCode (hr_WarningCodes row) zeroValueStockPositionCode then Ok f0
  else if hr_Stale row then Err "has a stale quote"
  else match positionDollarDelta row isOption with
  | None => Err (if isOption then "has no delta or no underlying price" else "has no price")
  | Some dd =>
      match positionBaseRate row baseCcy with
      | None => Err (say ["has no exchange rate to "; normCcy baseCcy])
      | Some rate => let base := fmul dd rate in if notFinite base then Err "has no usable delta" else Ok base
      end
  end.

(** ** Coverage of short options *)

Record deltaCoverLine := mkCoverLine { ln_expiry : string; ln_shares : float64 }.

(** What one short still needs after taking from the longs, and what they have left. *)
Fixpoint takeCover (expiry : string) (need : float64) (longs : list deltaCoverLine) : float64 * list deltaCoverLine :=
  match longs with
  | [] => (need, [])
  | l :: rest =>
      if (ln_expiry l =s "") || String.ltb (ln_expiry l) expiry || (ln_shares l <=f f0)
      then let '(need, rest) := takeCover expiry need rest in (need, l :: rest)
      else
        let take := goMin need (ln_shares l) in
        let l := mkCoverLine (ln_expiry l) (fsub (ln_shares l) take) in
        let need := fsub need take in
        if need <=f tolerance then (need, l :: rest)
        else let '(need, rest) := takeCover expiry need rest in (need, l :: rest)
  end.

Fixpoint coverShorts (shorts longs : list deltaCoverLine) (remaining : float64) : float64 :=
  match shorts with
  | [] => remaining
  | short :: rest =>
      let '(need, longs) := if ln_expiry short <>s "" then takeCover (ln_expiry short) (ln_shares short) longs
                            else (ln_shares short, longs) in
      coverShorts rest longs (fadd remaining (goMax need f0))
  end.

Definition notAfter (a b : deltaCoverLine) : bool := String.leb (ln_expiry a) (ln_expiry b).

Definition uncoveredShares (shorts longs : list deltaCoverLine) (shares : float64) : float64 :=
  let shorts := stable_sort (fun a b => notAfter b a) shorts in
  let longs := stable_sort notAfter longs in
  goMax f0 (fsub (coverShorts shorts longs f0) shares).

Definition changeFor (changes : list deltaChange) (conID : Z) : option deltaChange :=
  List.find (fun change => dc_ConID change =? conID) changes.
Definition quantityAfter (changes : list deltaChange) (leg : deltaCoverLeg) : float64 :=
  match changeFor changes (cl_ConID leg) with Some change => dc_After change | None => cl_Quantity leg end.
Definition coverLine (changes : list deltaChange) (leg : deltaCoverLeg) : deltaCoverLine :=
  mkCoverLine (TrimSpace (cl_Expiry leg)) (fmul (fabs (quantityAfter changes leg)) (goMax (cl_Multiplier leg) (f_of_Z 1))).

(** The lines of one right on one side, and the multiplier of the last of them. *)
Definition linesOf (changes : list deltaChange) (right : string) (short : bool) (options : list deltaCoverLeg) : list deltaCoverLeg :=
  List.filter (fun leg => let q := quantityAfter changes leg in
                 negb (q =f f0) && HasPrefix (cl_Right leg) right && Bool.eqb (q <f f0) short) options.
Definition lastMultiplier (legs : list deltaCoverLeg) : float64 :=
  fold_left (fun _ leg => goMax (cl_Multiplier leg) (f_of_Z 1)) legs f0.

Section Coverage.
(** The order in which Go ranges over the shares map. *)
Context (rangeShares : gmap Z float64 -> list (Z * float64)).

Definition sharesAfter (c : deltaCoverage) (changes : list deltaChange) : float64 :=
  fold_left (fun shares change =>
    if present (cv_Shares c !! dc_ConID change) then fadd shares (fsub (dc_After change) (dc_Before change)) else shares)
    changes (fold_left (fun shares e => fadd shares e.2) (rangeShares (cv_Shares c)) f0).

Definition uncoveredOf (c : deltaCoverage) (changes : list deltaChange) (right : string) (shares : float64) : float64 :=
  let shorts := linesOf changes right true (cv_Options c) in
  let longs := linesOf changes right false (cv_Options c) in
  let mult := lastMultiplier shorts in
  if mult >f f0
  then fdiv (uncoveredShares (map (coverLine changes) shorts) (map (coverLine changes) longs) (goMax shares f0)) mult
  else f0.

(** uncovered: the calls, then the puts. *)
Definition uncovered (c : deltaCoverage) (changes : list deltaChange) : float64 * float64 :=
  let shares := sharesAfter c changes in
  (uncoveredOf c changes "C" shares, uncoveredOf c changes "P" (fopp shares)).
End Coverage.

(** removesCover: the calls, then the puts. *)
Definition removesCover (c : deltaCoverage) (changes : list deltaChange) : bool * bool :=
  let sold (right : string) (change : deltaChange) :=
    existsb (fun leg => negb (negb (cl_ConID leg =? dc_ConID change) || (dc_Before change <=f f0) || (dc_After change >=f dc_Before change)) &&
                        HasPrefix (cl_Right leg) right) (cv_Options c) in
  let removes (right : string) (stock : deltaChange -> bool) (change : deltaChange) :=
    if present (cv_Shares c !! dc_ConID change) then stock change else sold right change in
  (existsb (removes "C" (fun ch => (dc_Before ch >f f0) && (dc_After ch <f dc_Before ch))) changes,
   existsb (removes "P" (fun ch => (dc_Before ch <f f0) && (dc_After ch >f dc_Before ch))) changes).

(** ** The judgement *)

Definition lowersAbsoluteDelta (before after : float64) : bool :=
  if notFinite before || notFinite after then false
  else fabs after <f fsub (fabs before) (fmul tolerance (goMax (f_of_Z 1) (fabs before))).

(** netAfter: [inr] names the change that was not measured as the order sees it. *)
Definition netAfter (ev : deltaReductionEvidence) (changes : list deltaChange) : float64 + deltaChange :=
  let legs := default ∅ (de_Legs ev) in
  fold_left (fun acc change =>
    match acc with
    | inr _ => acc
    | inl after =>
        match legs !! dc_ConID change with
        | Some leg => if fabs (fsub (dl_Quantity leg) (dc_Before change)) >f tolerance then inr change
                      else inl (fadd after (fmul (fsub (dc_After change) (dc_Before change)) (dl_UnitBase leg)))
        | None => inr change
        end
    end) changes (inl (de_NetBefore ev)).

Section Judge.
Context (rangeShares : gmap Z float64 -> list (Z * float64)).
(** fmt's "%.2f" and strconv's shortest 'f' form. *)
Context (formatF2 formatF : float64 -> string).

Definition trimFloat (v : float64) : string := TrimRightChar (TrimRightChar (formatF2 v) "0"%char) "."%char.
Definition legDesc (symbol expiry right : string) (strike : float64) : string :=
  say [symbol; " "; expiry; " "; right; " "; trimFloat strike].
Definition deltaContractDesc (c : ContractParams) : string :=
  let symbol := ToUpper (TrimSpace (cp_Symbol c)) in
  if EqualFold (cp_SecType c) "OPT" then say ["the "; legDesc symbol (cp_Expiry c) (cp_Right c) (cp_Strike c); " option"]
  else say ["the "; symbol; " stock"].
Definition deltaReductionLegDesc (row : heldRow) (isOption : bool) : string :=
  let v := hr_View row in
  if negb isOption then say ["the "; ToUpper (TrimSpace (pv_Symbol v)); " stock line"]
  else say ["the "; legDesc (pv_Symbol v) (pv_Expiry v) (pv_Right v) (pv_Strike v); " option line"].
Definition deltaContracts (v : float64) : string := formatF (Ceil (fsub v tolerance)).

(** A right's rule: the count after the order, before it, and whether cover is sold. *)
Definition leavesUncovered (after before : float64) (sellsCover : bool) : bool :=
  (after >f tolerance) && (after >=f fsub before tolerance) && ((after >f fadd before tolerance) || sellsCover).

Definition orderVerb (changes : list deltaChange) : string :=
  match changes with [change] => if isBuy (dc_Action change) then "buy-back" else "sale" | _ => "sale" end.

(** judge: [None] when the order qualifies, else the reason of the refusal. *)
Definition judge (ev : deltaReductionEvidence) (name : string) (changes : list deltaChange) : option string :=
  let money x := FormatOrderMoney (fabs x) (de_BaseCurrency ev) in
  match netAfter ev changes with
  | inr failed => Some (say ["; the "; TrimPrefix (deltaContractDesc (dc_Contract failed)) "the ";
                             " position has changed since the order was previewed; preview again"])
  | inl after =>
      if negb (lowersAbsoluteDelta (de_NetBefore ev) after)
      then Some (say ["; the exit does not lower the absolute delta of "; name; " ("; money (de_NetBefore ev); " before, "; money after;
                      " after), so the cap applies"])
      else
        let bookAfter := fadd (de_BookBefore ev) (fsub after (de_NetBefore ev)) in
        if negb (lowersAbsoluteDelta (de_BookBefore ev) bookAfter)
        then Some (say ["; the exit does not lower the absolute delta of the whole book ("; money (de_BookBefore ev); " before, ";
                        money bookAfter; " after), so the cap applies"])
        else
          let '(callsBefore, putsBefore) := uncovered rangeShares (de_Cover ev) [] in
          let '(callsAfter, putsAfter) := uncovered rangeShares (de_Cover ev) changes in
          let '(sellsCallCover, sellsPutCover) := removesCover (de_Cover ev) changes in
          if leavesUncovered callsAfter callsBefore sellsCallCover
          then Some (say ["; this "; orderVerb changes; " would leave "; deltaContracts callsAfter; " short calls on "; name;
                          " uncovered, so the order cap applies"])
          else if leavesUncovered putsAfter putsBefore sellsPutCover
          then Some (say ["; this "; orderVerb changes; " would leave "; deltaContracts putsAfter; " short puts on "; name;
                          " uncovered, so the order cap applies"])
          else None
  end.

Definition competingExitClause (change : deltaChange) (other : float64) : string :=
  let '(verb, past) := if isBuy (dc_Action change) then ("buys back", "bought back") else ("sells", "sold") in
  let hold := if dc_Before change <f f0 then "are short" else "hold" in
  let unit := if EqualFold (cp_SecType (dc_Contract change)) "OPT" then "contracts" else "shares" in
  let line := TrimPrefix (deltaContractDesc (dc_Contract change)) "the " in
  let line := TrimSuffix (TrimSuffix line " stock") " option" in
  say ["another working order already "; verb; " "; FormatOrderMoney other ""; " of the "; FormatOrderMoney (fabs (dc_Before change)) "";
       " "; line; " "; unit; " you "; hold; "; with this one, more would be "; past; " than you "; hold; ". Cancel it first"].

(** The first change the other working orders leave no room for. *)
Fixpoint competingRefusal (inv : protectiveExitInventory) (changes : list deltaChange) : option string :=
  match changes with
  | [] => None
  | change :: rest =>
      let other := otherWorkingSameSide inv (dc_ConID change) in
      let qty := fabs (fsub (dc_After change) (dc_Before change)) in
      if notFinite other || (other <f f0)
      then Some "; Canary cannot determine how much another working order would trade on this line, so it cannot rule out an exit beyond the held quantity; the cap still applies"
      else if fadd other qty >f fadd (fabs (dc_Before change)) tolerance then Some (say ["; "; competingExitClause change other])
      else competingRefusal inv rest
  end.

(** deltaReducingExit: whether the order is exempt, and the reason otherwise. *)
Definition deltaReducingExit (draft : OrderDraft) (position : OrderPositionImpact) (ev : deltaReductionEvidence)
    (inv : protectiveExitInventory) : bool * string :=
  if negb (deltaReductionCandidate draft position) then
    if bondSaleCandidate draft position
    then (false, "; a bill or bond carries no equity delta, so the exemption for delta-reducing exits cannot apply")
    else (false, "")
  else if de_Unread ev then (false, "; the order cap did not apply when you previewed this order; preview it again")
  else
    let name := ToUpper (TrimSpace (cp_Symbol (dr_Contract draft))) in
    if negb (de_Current ev) || negb (EqualFold (de_Underlying ev) name) || negb (present (de_Legs ev)) then
      let why := TrimSpace (de_Reason ev) in
      (false, say ["; a close or reduction passes the cap when it lowers the absolute delta of "; name;
                   " and of the whole book, but that delta cannot be measured ("; if why =s "" then "no current measurement" else why; ")"])
    else
      let changes := deltaReductionChanges draft position in
      match judge ev name changes with
      | Some why => (false, why)
      | None =>
          if negb (ei_Current inv)
          then (false, "; Canary cannot read the broker's open orders right now, so it cannot rule out another exit of this line; preview again")
          else match competingRefusal inv changes with Some why => (false, why) | None => (true, "") end
      end.

(** ** Measuring the book *)

(** measureDeltaReduction's visit of one row: the evidence so far and why it stops, or "". *)
Definition visitRow (underlying : string) (wanted : list Z) (isOption : bool) (ev : deltaReductionEvidence) (row : heldRow)
    : deltaReductionEvidence * string :=
  let v := hr_View row in
  if pv_Quantity v =f f0 then (ev, "")
  else match deltaLegBase row isOption (de_BaseCurrency ev) with
  | Err why => (ev, say [deltaReductionLegDesc row isOption; " "; why])
  | Ok base =>
      let ev := ev <| de_BookBefore := fadd (de_BookBefore ev) base |> in
      if negb (EqualFold (TrimSpace (pv_Symbol v)) underlying) then (ev, "")
      else
        let c := de_Cover ev in
        let cover :=
          if isOption
          then mkCoverage (cv_Shares c) (cv_Options c ++ [mkCoverLeg (pv_ConID v) (ToUpper (TrimSpace (pv_Right v))) (pv_Expiry v)
                                                           (pv_Quantity v) (f_of_Z (optionMultiplier row))])
          else mkCoverage (<[pv_ConID v := fadd (default f0 (cv_Shares c !! pv_ConID v)) (pv_Quantity v)]> (cv_Shares c)) (cv_Options c) in
        let ev := ev <| de_NetBefore := fadd (de_NetBefore ev) base |> <| de_Cover := cover |> in
        if existsb (Z.eqb (pv_ConID v)) wanted then
          let legs := default ∅ (de_Legs ev) in
          if present (legs !! pv_ConID v) then (ev, say [deltaReductionLegDesc row isOption; " appears twice in the positions"])
          else (ev <| de_Legs := Some (<[pv_ConID v := mkDeltaLeg (pv_Quantity v) (fdiv base (pv_Quantity v))]> legs) |>, "")
        else (ev, "")
  end.

Definition visitStock (underlying : string) (wanted : list Z) (ev : deltaReductionEvidence) (row : heldRow)
    : deltaReductionEvidence * string :=
  let v := hr_View row in
  if IsBillOrBond (pv_SecType v) || EqualFold (TrimSpace (pv_SecType v)) "CASH" then (ev, "")
  else if negb (PositionQuotesAsStock row) then
    if negb (pv_Quantity v =f f0)
    then (ev, say ["the "; ToUpper (TrimSpace (pv_Symbol v)); " "; ToUpper (TrimSpace (pv_SecType v));
                   " line is not a stock, ETF or option, so Canary has no delta for it"])
    else (ev, "")
  else visitRow underlying wanted false ev row.

(** The loop over the stock rows, then over the option rows; it stops at a reason. *)
Fixpoint visitAll (visit : deltaReductionEvidence -> heldRow -> deltaReductionEvidence * string) (rows : list heldRow)
    (ev : deltaReductionEvidence) : deltaReductionEvidence * string :=
  match rows with
  | [] => (ev, "")
  | row :: rest => let '(ev, why) := visit ev row in if why <>s "" then (ev, why) else visitAll visit rest ev
  end.

Definition measureDeltaReduction (pos : option heldPositions) (scope : brokerStateScope) (draft : OrderDraft) : deltaReductionEvidence :=
  let underlying := ToUpper (TrimSpace (cp_Symbol (dr_Contract draft))) in
  let ev := noDeltaEvidence <| de_Underlying := underlying |> <| de_Legs := Some ∅ |> in
  let changes := deltaReductionChanges draft (mkImpact f0 f0 "" f0 0) in
  let stop ev why := ev <| de_Reason := why |> in
  if (underlying =s "") || match changes with [] => true | change :: _ => dc_ConID change <=? 0 end
  then stop ev "the order names no held position"
  else match pos with
  | None => stop ev "Canary has no current positions; preview again"
  | Some p =>
      match hp_Authority p with
      | None => stop ev "Canary has no current positions; preview again"
      | Some a =>
          if negb (currentPortfolioAuthority (Some a)) then stop ev "Canary has no current positions; preview again"
          else if negb (EqualFold (TrimSpace (aa_AccountID a)) (TrimSpace (sc_Account scope))) ||
                  negb (EqualFold (TrimSpace (aa_AccountMode a)) (TrimSpace (sc_Mode scope)))
          then stop ev "the positions Canary read are not this account's; preview again"
          else
            let base := normCcy (default "" (hp_BaseCurrency p)) in
            if base =s "" then stop ev "the account base currency is unknown"
            else
              let ev := ev <| de_BaseCurrency := base |> in
              let wanted := map dc_ConID changes in
              let '(ev, why) := visitAll (visitStock underlying wanted) (hp_Stocks p) ev in
              if why <>s "" then stop ev why
              else
                let '(ev, why) := visitAll (visitRow underlying wanted true) (hp_Options p) ev in
                if why <>s "" then stop ev why
                else match List.find (fun change => negb (present (default ∅ (de_Legs ev) !! dc_ConID change))) changes with
                | Some change => stop ev (say [deltaContractDesc (dc_Contract change); " is not a held position; preview again"])
                | None => ev <| de_Current := true |>
                end
      end
  end.

(** captureDeltaReductionEvidence: [read] is what the positions read answers. *)
Definition captureDeltaReductionEvidence (read : result string (option heldPositions)) (account mode : string) (draft : OrderDraft)
    (position : OrderPositionImpact) (limits : OrderLimitsInForce) (notional : orderNotionalAuthority) : deltaReductionEvidence :=
  if negb (deltaReductionCandidate draft position) then noDeltaEvidence
  else
    let underlying := ToUpper (TrimSpace (cp_Symbol (dr_Contract draft))) in
    if negb (deltaReductionCapsBind limits draft notional)
    then noDeltaEvidence <| de_Unread := true |> <| de_Underlying := underlying |>
    else match read with
    | Err _ => noDeltaEvidence <| de_Underlying := underlying |> <| de_Reason := "Canary cannot read the positions right now; preview again" |>
    | Ok pos => measureDeltaReduction pos (mkScope account mode) draft
    end.
End Judge.

(** ** The order of expiries *)

Lemma ascii_compare_N a b : Ascii.compare a b = (N_of_ascii a ?= N_of_ascii b)%N.
Proof. reflexivity. Qed.

Lemma string_leb_trans a b c : String.leb a b = true -> String.leb b c = true -> String.leb a c = true.
Proof.
  unfold String.leb. revert b c. induction a as [|x a IH]; intros b c; [by destruct c|].
  destruct b as [|y b]; [done|]. destruct c as [|z c]; [by cbn; destruct (Ascii.compare x y); destruct (String.compare a b)|].
  cbn [String.compare]. rewrite !ascii_compare_N.
  destruct (N.compare_spec (N_of_ascii x) (N_of_ascii y)) as [Exy|Lxy|Lxy]; [| |done];
    destruct (N.compare_spec (N_of_ascii y) (N_of_ascii z)) as [Eyz|Lyz|Lyz]; try done;
    destruct (N.compare_spec (N_of_ascii x) (N_of_ascii z)); try lia; try done; apply IH.
Qed.

Lemma string_ltb_leb a b : String.ltb a b = negb (String.leb b a).
Proof. unfold String.ltb, String.leb. rewrite String.compare_antisym. by destruct (String.compare b a). Qed.

Lemma string_leb_refl a : String.leb a a = true.
Proof. destruct (String.leb_total a a); done. Qed.

(** ** The shortfall over the expiries *)

(** A line of [shares] share-equivalents, in whole numbers. *)
Definition wholeLine : Type := string * Z.
Definition asLine (l : wholeLine) : deltaCoverLine := mkCoverLine l.1 (f_of_Z l.2).

(** The line has an expiry, and it is not before [e]. *)
Definition datedFrom (e : string) (l : wholeLine) : bool := (l.1 <>s "") && String.leb e l.1.
Definition sharesFrom (lines : list wholeLine) (e : string) : Z := foldr (fun l t => if datedFrom e l then l.2 + t else t) 0 lines.
Definition undated (lines : list wholeLine) : Z := foldr (fun l t => if l.1 =s "" then l.2 + t else t) 0 lines.
Definition sumLines (lines : list wholeLine) : Z := foldr (fun l t => l.2 + t) 0 lines.

(** The shorts that expire on or after a short's expiry need longs that do. *)
Definition largestDated (f : string -> Z) (lines : list wholeLine) : Z :=
  foldr (fun l worst => if l.1 =s "" then worst else Z.max (f l.1) worst) 0 lines.
Definition worstShortfall (shorts longs : list wholeLine) : Z :=
  largestDated (fun e => sharesFrom shorts e - sharesFrom longs e) shorts.

Definition wholeLines (lines : list wholeLine) : Prop := Forall (fun l => 0 <= l.2) lines /\ sumLines lines < 2 ^ 52.

Lemma sharesFrom_bounds lines e : Forall (fun l => 0 <= l.2) lines -> 0 <= sharesFrom lines e <= sumLines lines.
Proof. induction 1 as [|l lines Hl _ IH]; simpl; [lia|]. case_if; lia. Qed.

Lemma goMin_int a b : int53 a -> int53 b -> goMin (f_of_Z a) (f_of_Z b) = f_of_Z (Z.min a b).
Proof. intros. unfold goMin. rewrite !f_of_Z_number by done. by apply mathMin_int. Qed.
Lemma goMax_int a b : int53 a -> int53 b -> goMax (f_of_Z a) (f_of_Z b) = f_of_Z (Z.max a b).
Proof. intros. unfold goMax. rewrite !f_of_Z_number by done. by apply mathMax_int. Qed.

Definition smallLines (lines : list wholeLine) : Prop := Forall (fun l => 0 <= l.2 < 2 ^ 52) lines.
Lemma small_nonneg lines : smallLines lines -> Forall (fun l => 0 <= l.2) lines.
Proof. intros H. eapply Forall_impl; [exact H|]. intros l Hl. cbv beta in *. lia. Qed.

Lemma sharesFrom_cons l lines e : sharesFrom (l :: lines) e = (if datedFrom e l then l.2 else 0) + sharesFrom lines e.
Proof. cbn [sharesFrom foldr]. fold (sharesFrom lines e). case_if; lia. Qed.

Lemma datedFrom_earlier e e' l : String.leb e' e = true -> datedFrom e l = true -> datedFrom e' l = true.
Proof. unfold datedFrom. intros He H. apply andb_prop in H as [-> H]. by rewrite (string_leb_trans _ _ _ He H). Qed.

(** What a step of the loop over the longs asks of one line. *)
Lemma skips_line e l : int53 l.2 ->
  (ln_expiry (asLine l) =s "") || String.ltb (ln_expiry (asLine l)) e || (ln_shares (asLine l) <=f f0) =
  negb (datedFrom e l) || (l.2 <=? 0).
Proof.
  intros H. unfold datedFrom, asLine. cbn [ln_expiry ln_shares]. rewrite f0_int, fleb_int, string_ltb_leb by (done || unfold int53; lia).
  by destruct (l.1 =s ""), (String.leb e l.1).
Qed.

(** Taking [need] from the longs: what is still needed, and what every earlier
    expiry then finds. *)
Lemma takeCover_int e longs : smallLines longs -> forall need, count need ->
  let taken := Z.min need (sharesFrom longs e) in
  exists longs', takeCover e (f_of_Z need) (map asLine longs) = (f_of_Z (need - taken), map asLine longs') /\ smallLines longs' /\
    forall e', String.leb e' e = true -> sharesFrom longs' e' = sharesFrom longs e' - taken.
Proof.
  induction 1 as [|l longs Hl HF IH]; intros need Hn taken; subst taken; cbn [map takeCover].
  { exists []. unfold count in Hn. split_and!; [f_equal; f_equal; simpl; lia | constructor | intros; simpl; lia]. }
  assert (Hs := sharesFrom_bounds longs e (small_nonneg _ HF)). assert (count l.2) by (unfold count; lia).
  rewrite skips_line, !sharesFrom_cons by eauto with canary.
  destruct (negb (datedFrom e l) || (l.2 <=? 0)) eqn:Hskip.
  - assert (Hz : (if datedFrom e l then l.2 else 0) = 0) by (destruct (datedFrom e l); [|done]; cbn [negb orb] in Hskip; lia).
    rewrite Hz, Z.add_0_l. destruct (IH need Hn) as (longs' & -> & HF' & H'). exists (l :: longs').
    split_and!; [done | by constructor |]. intros e' He'. rewrite !sharesFrom_cons, (H' e' He'). lia.
  - apply orb_false_iff in Hskip as [Hd Hpos]. apply negb_false_iff in Hd. rewrite Hd.
    unfold count in *. cbn [asLine ln_expiry ln_shares].
    rewrite goMin_int, !fsub_int, le_tolerance by (unfold int53; lia).
    destruct (Z.leb_spec (need - Z.min need l.2) 0) as [L|L].
    + exists ((l.1, l.2 - Z.min need l.2) :: longs).
      split_and!; [f_equal; f_equal; lia | constructor; [simpl; lia | done] |].
      intros e' He'. rewrite !sharesFrom_cons. change (datedFrom e' (l.1, l.2 - Z.min need l.2)) with (datedFrom e' l).
      rewrite (datedFrom_earlier e e' l He' Hd). simpl. lia.
    + destruct (IH (need - Z.min need l.2)) as (longs' & -> & HF' & H'); [unfold count; lia|].
      exists ((l.1, l.2 - Z.min need l.2) :: longs').
      split_and!; [f_equal; f_equal; lia | constructor; [simpl; lia | done] |].
      intros e' He'. rewrite !sharesFrom_cons, (H' e' He'). change (datedFrom e' (l.1, l.2 - Z.min need l.2)) with (datedFrom e' l).
      rewrite (datedFrom_earlier e e' l He' Hd). simpl. lia.
Qed.

(** The loop over the shorts on whole numbers: [seen] is what the shorts so far
    need, [open] what of it is uncovered, and [reach] what the longs offer. *)
Fixpoint coverRun (reach : string -> Z) (seen open : Z) (shorts : list wholeLine) : Z :=
  match shorts with
  | [] => open
  | s :: rest =>
      if s.1 =s "" then s.2 + coverRun reach seen open rest
      else coverRun reach (seen + s.2) (Z.max open (seen + s.2 - reach s.1)) rest
  end.

Lemma coverRun_bounds reach shorts : Forall (fun l => 0 <= l.2) shorts -> (forall e, 0 <= reach e) ->
  forall seen open, 0 <= open <= seen -> 0 <= coverRun reach seen open shorts <= seen + sumLines shorts.
Proof.
  intros HF Hr. induction HF as [|s shorts Hs HF IH]; intros seen open Ho; cbn [coverRun sumLines foldr]; [lia|].
  fold (sumLines shorts). case_if; [specialize (IH seen open Ho); lia|]. specialize (Hr s.1).
  specialize (IH (seen + s.2) (Z.max open (seen + s.2 - reach s.1)) ltac:(lia)). lia.
Qed.

(** Latest expiry first. *)
Definition latestFirst : list wholeLine -> Prop := StronglySorted (fun a b => String.leb b.1 a.1 = true).

Lemma coverShorts_int reach shorts : latestFirst shorts -> Forall (fun l => 0 <= l.2) shorts ->
  forall longs seen open fixed, smallLines longs -> 0 <= open <= seen -> 0 <= fixed -> fixed + open + sumLines shorts < 2 ^ 52 ->
  (forall s, s ∈ shorts -> s.1 <> "" -> sharesFrom longs s.1 = reach s.1 - (seen - open)) ->
  coverShorts (map asLine shorts) (map asLine longs) (f_of_Z (fixed + open)) = f_of_Z (fixed + coverRun reach seen open shorts).
Proof.
  induction 1 as [|s shorts Hsort IH Hhd]; intros Hnn longs seen open fixed HL Ho Hf Hb Hreach; [done|].
  apply Forall_cons in Hnn as [Hs Hnn]. cbn [map coverShorts coverRun sumLines foldr] in *. fold (sumLines shorts) in *.
  assert (Hsum : 0 <= sumLines shorts) by (clear -Hnn; induction Hnn; simpl; lia).
  cbn [asLine ln_expiry ln_shares]. assert (Hz : int53 0) by (unfold int53; lia).
  destruct (String.eqb_spec s.1 "") as [E|E]; cbn [negb].
  - rewrite f0_int, goMax_int, fadd_int, Z.max_l by (unfold int53; lia).
    replace (fixed + open + s.2) with (fixed + s.2 + open) by lia.
    rewrite (IH Hnn longs seen open (fixed + s.2)) by first [done | lia | intros; apply Hreach; [by right | done]]. f_equal. lia.
  - destruct (takeCover_int s.1 longs HL s.2) as (longs' & -> & HL' & H'); [unfold count; lia|].
    assert (Hnow := Hreach s ltac:(left) E). assert (Hs0 := sharesFrom_bounds longs s.1 (small_nonneg _ HL)).
    set (taken := Z.min s.2 (sharesFrom longs s.1)) in *. assert (0 <= taken <= s.2) by lia.
    rewrite f0_int, goMax_int, fadd_int, Z.max_l by (unfold int53; lia).
    replace (fixed + open + (s.2 - taken)) with (fixed + (open + (s.2 - taken))) by lia.
    rewrite (IH Hnn longs' (seen + s.2) (open + (s.2 - taken)) fixed); [f_equal; f_equal; f_equal; lia | done | lia | lia | lia |].
    intros t Ht Hte. rewrite H' by (by apply (proj1 (Forall_forall _ _) Hhd)). rewrite (Hreach t) by first [by right | done]. lia.
Qed.

Lemma sharesFrom_member lines e : sharesFrom lines e <> 0 -> exists l, l ∈ lines /\ datedFrom e l = true.
Proof.
  induction lines as [|l lines IH]; [done|]. rewrite sharesFrom_cons. intros H. destruct (datedFrom e l) eqn:E.
  - exists l. split; [by left | done].
  - destruct IH as (t & Ht & Hd); [lia|]. exists t. split; [by right | done].
Qed.

(** The run is the largest of its terms. *)
Lemma coverRun_largest reach shorts : latestFirst shorts -> Forall (fun l => 0 <= l.2) shorts ->
  forall seen open,
  let v := coverRun reach seen open shorts - undated shorts in
  let term s := seen + sharesFrom shorts s.1 - reach s.1 in
  open <= v /\ (forall s, s ∈ shorts -> s.1 <> "" -> term s <= v) /\
  (v <= open \/ exists s, s ∈ shorts /\ s.1 <> "" /\ v <= term s).
Proof.
  induction 1 as [|s shorts Hsort IH Hhd]; intros Hnn seen open; cbn zeta.
  { cbn. split_and!; [lia | by intros ? ?%elem_of_nil | left; lia]. }
  apply Forall_cons in Hnn as [Hs Hnn]. cbn [coverRun undated foldr]. fold (undated shorts).
  destruct (String.eqb_spec s.1 "") as [E|E].
  - destruct (IH Hnn seen open) as (H1 & H2 & H3).
    assert (Hterm : forall t, sharesFrom (s :: shorts) t = sharesFrom shorts t)
      by (intros t; rewrite sharesFrom_cons; unfold datedFrom; rewrite E; simpl; lia).
    split_and!; [lia | |].
    + intros t [->|Ht]%elem_of_cons Hte; [done|]. rewrite Hterm. specialize (H2 t Ht Hte). lia.
    + destruct H3 as [H3|(t & Ht & Hte & H3)]; [left; lia | right]. exists t. rewrite Hterm. split_and!; [by right | done | lia].
  - destruct (IH Hnn (seen + s.2) (Z.max open (seen + s.2 - reach s.1))) as (H1 & H2 & H3).
    assert (Hdt : forall t, t ∈ shorts -> t.1 <> "" -> sharesFrom (s :: shorts) t.1 = s.2 + sharesFrom shorts t.1).
    { intros t Ht Hte. rewrite sharesFrom_cons. unfold datedFrom. apply String.eqb_neq in E. rewrite E.
      by rewrite (proj1 (Forall_forall _ _) Hhd t Ht). }
    assert (Hself : sharesFrom (s :: shorts) s.1 = s.2 + sharesFrom shorts s.1).
    { rewrite sharesFrom_cons. unfold datedFrom. apply String.eqb_neq in E. by rewrite E, string_leb_refl. }
    split_and!; [lia | |].
    + intros t [->|Ht]%elem_of_cons Hte; [|rewrite Hdt by done; specialize (H2 t Ht Hte); lia].
      rewrite Hself. destruct (decide (sharesFrom shorts s.1 = 0)) as [->|Hn]; [lia|].
      apply sharesFrom_member in Hn as (t & Ht & Hd). unfold datedFrom in Hd. apply andb_prop in Hd as [Hte' Hle].
      apply negb_true_iff, String.eqb_neq in Hte'. specialize (H2 t Ht Hte').
      rewrite (String.leb_antisym _ _ (proj1 (Forall_forall _ _) Hhd t Ht) Hle) in H2. lia.
    + destruct H3 as [H3|(t & Ht & Hte & H3)].
      * destruct (Z.max_spec open (seen + s.2 - reach s.1)) as [[_ Hm]|[_ Hm]]; [right | left; lia].
        exists s. rewrite Hself. assert (Hb := sharesFrom_bounds shorts s.1 Hnn). split_and!; [by left | done | lia].
      * right. exists t. rewrite Hdt by done. split_and!; [by right | done | lia].
Qed.

(** *** From the sorted lists to the lists as they come *)

Lemma stable_sort_map {A B} (f : A -> B) (le : B -> B -> bool) l :
  stable_sort le (map f l) = map f (stable_sort (fun a b => le (f a) (f b)) l).
Proof.
  unfold stable_sort. induction l as [|x l IH]; [done|]. cbn [map foldr]. rewrite IH.
  generalize (foldr (stable_insert (fun a b => le (f a) (f b))) [] l). intros r.
  induction r as [|y r IHr]; cbn [map stable_insert]; [done|]. case_if; [done|]. cbn [map]. by rewrite IHr.
Qed.

Lemma sharesFrom_perm a b e : Permutation a b -> sharesFrom a e = sharesFrom b e.
Proof. induction 1; rewrite ?sharesFrom_cons; lia. Qed.
Lemma undated_perm a b : Permutation a b -> undated a = undated b.
Proof. unfold undated. induction 1; simpl; try case_if; try case_if; lia. Qed.
Lemma sumLines_perm a b : Permutation a b -> sumLines a = sumLines b.
Proof. unfold sumLines. induction 1; simpl; lia. Qed.

(** A bound that some term reaches is the largest. *)
Lemma largestDated_char f lines v :
  0 <= v -> (forall s, s ∈ lines -> s.1 <> "" -> f s.1 <= v) -> (v <= 0 \/ exists s, s ∈ lines /\ s.1 <> "" /\ v <= f s.1) ->
  largestDated f lines = v.
Proof.
  intros H0 Hle Hge. apply Z.le_antisymm.
  - clear Hge. induction lines as [|l lines IH]; simpl; [done|].
    assert (largestDated f lines <= v) by (apply IH; intros s Hs; apply Hle; by right).
    destruct (String.eqb_spec l.1 ""); [done|]. apply Z.max_lub; [apply Hle; [by left | done] | done].
  - clear Hle. assert (Hn : 0 <= largestDated f lines) by (clear; induction lines; simpl; [lia|]; case_if; lia).
    destruct Hge as [Hge|(s & Hs & He & Hv)]; [lia|]. etransitivity; [exact Hv|]. clear -Hs He.
    induction Hs as [l|s l lines Hs IH]; simpl.
    + apply String.eqb_neq in He. rewrite He. lia.
    + specialize (IH He). case_if; lia.
Qed.

Lemma latest_first_sorted shorts : latestFirst (stable_sort (fun a b : wholeLine => String.leb b.1 a.1) shorts).
Proof.
  apply Sorted_StronglySorted.
  - intros a b c Hab Hbc. by apply (string_leb_trans _ b.1).
  - apply stable_sort_sorted. intros a b H. destruct (String.leb_total b.1 a.1) as [Hl|Hl]; [by rewrite Hl in H | done].
Qed.

(** *** Pairings of longs with shorts *)

(** What one short draws from each long: only longs that expire on or after it. *)
Definition drawsFrom (s : wholeLine) (longs : list wholeLine) (draws : list Z) : Prop :=
  Forall2 (fun l q => 0 <= q <= l.2 /\ (0 < q -> s.1 <> "" /\ datedFrom s.1 l = true)) longs draws.
Definition drawn (longs : list wholeLine) (draws : list Z) : list wholeLine := zip_with (fun l q => (l.1, l.2 - q)) longs draws.
Definition total (draws : list Z) : Z := foldr Z.add 0 draws.

(** Any way to set longs against shorts, and the shares it leaves uncovered: each
    short in turn draws at most what it needs, and what it draws is gone. *)
Inductive pairing : list wholeLine -> list wholeLine -> Z -> Prop :=
| pair_done longs : pairing [] longs 0
| pair_short s shorts longs draws left :
    drawsFrom s longs draws -> total draws <= s.2 -> pairing shorts (drawn longs draws) left ->
    pairing (s :: shorts) longs (s.2 - total draws + left).

(** What the draws take from the longs dated from [e]. *)
Lemma drawn_reach s longs draws e : drawsFrom s longs draws ->
  0 <= sharesFrom longs e - sharesFrom (drawn longs draws) e <= total draws /\
  (String.leb e s.1 = true -> sharesFrom (drawn longs draws) e = sharesFrom longs e - total draws) /\
  (s.1 = "" -> total draws = 0) /\ Forall (fun l => 0 <= l.2) (drawn longs draws).
Proof.
  induction 1 as [|l q longs draws [Hq Hd] _ IH]; [cbn; split_and!; [lia | lia | done | done | constructor]|].
  destruct IH as (H1 & H2 & H3 & H4). cbn [drawn zip_with total foldr]. rewrite !sharesFrom_cons.
  change (datedFrom e (l.1, l.2 - q)) with (datedFrom e l). unfold drawn, total in *. cbn [snd].
  assert (Hcov : 0 < q -> String.leb e s.1 = true -> datedFrom e l = true)
    by (intros Hp He; destruct (Hd Hp) as [_ Hl]; by apply (datedFrom_earlier s.1)).
  split_and!.
  - destruct (datedFrom e l); lia.
  - destruct (datedFrom e l); lia.
  - intros He. rewrite (H2 He). destruct (datedFrom e l); [lia|]. destruct (Z.lt_ge_cases 0 q) as [Hp|]; [|lia].
    by specialize (Hcov Hp He).
  - intros He. rewrite (H3 He). destruct (Z.lt_ge_cases 0 q) as [Hp|]; [|lia]. by destruct (Hd Hp) as [Hn _].
  - constructor; [cbn; lia | exact H4].
Qed.

(** No pairing leaves less than the undated shorts, nor less than them and the
    shortfall from one expiry on. *)
Lemma pairing_leaves shorts longs left : pairing shorts longs left -> Forall (fun l => 0 <= l.2) shorts -> Forall (fun l => 0 <= l.2) longs ->
  undated shorts <= left /\ forall e, undated shorts + sharesFrom shorts e - sharesFrom longs e <= left.
Proof.
  induction 1 as [longs|s shorts longs draws left Hd Ht _ IH]; intros Hnn HL.
  { cbn. split; [lia|]. intros e. assert (Hb := sharesFrom_bounds longs e HL). lia. }
  apply Forall_cons in Hnn as [Hs Hnn]. destruct (drawn_reach _ _ _ "" Hd) as (_ & _ & _ & HL'). destruct (IH Hnn HL') as [I1 I2]. cbn [undated foldr]. fold (undated shorts).
  split.
  - destruct (drawn_reach _ _ _ "" Hd) as (_ & _ & H3 & _). destruct (String.eqb_spec s.1 "") as [E|E]; [rewrite (H3 E)|]; lia.
  - intros e. destruct (drawn_reach _ _ _ e Hd) as (H1 & H2 & H3 & _). specialize (I2 e). rewrite sharesFrom_cons. unfold datedFrom at 1.
    destruct (String.eqb_spec s.1 "") as [E|E]; cbn [negb andb].
    + rewrite (H3 E) in *. lia.
    + destruct (String.leb e s.1) eqn:El; [rewrite (H2 eq_refl) in I2|]; lia.
Qed.

(** The greedy draw takes all that is there, up to the need. *)
Lemma greedy_draws s longs : s.1 <> "" -> Forall (fun l => 0 <= l.2) longs -> forall need, 0 <= need ->
  exists draws, drawsFrom s longs draws /\ total draws = Z.min need (sharesFrom longs s.1).
Proof.
  intros He. induction 1 as [|l longs Hl HF IH]; intros need Hn; [exists []; split; [constructor | cbn; lia]|].
  set (q := if datedFrom s.1 l then Z.min need l.2 else 0).
  assert (Hb := sharesFrom_bounds longs s.1 HF).
  destruct (IH (need - q)) as (draws & Hd & Ht); [unfold q; case_if; lia|].
  exists (q :: draws). split.
  - constructor; [|done]. unfold q. destruct (datedFrom s.1 l) eqn:E; split; try lia. done.
  - cbn [total foldr]. fold (total draws). rewrite Ht, sharesFrom_cons. unfold q. case_if; lia.
Qed.

(** Latest short first, the greedy pairing leaves what the run counts. *)
Lemma greedy_pairing reach shorts : latestFirst shorts -> Forall (fun l => 0 <= l.2) shorts ->
  forall longs seen open, Forall (fun l => 0 <= l.2) longs -> 0 <= open <= seen ->
  (forall s, s ∈ shorts -> s.1 <> "" -> sharesFrom longs s.1 = reach s.1 - (seen - open)) ->
  pairing shorts longs (coverRun reach seen open shorts - open).
Proof.
  induction 1 as [|s shorts Hsort IH Hhd]; intros Hnn longs seen open HL Ho Hreach.
  { cbn. rewrite Z.sub_diag. constructor. }
  apply Forall_cons in Hnn as [Hs Hnn]. cbn [coverRun]. destruct (String.eqb_spec s.1 "") as [E|E].
  - set (draws := map (fun _ => 0) longs).
    assert (Hd : drawsFrom s longs draws).
    { unfold draws, drawsFrom. clear -HL. induction HL; cbn; constructor; [split; lia | done]. }
    assert (Ht : total draws = 0) by (by apply (drawn_reach _ _ _ "" Hd)).
    assert (Hl : drawn longs draws = longs).
    { unfold drawn, draws. clear. induction longs as [|[e q] longs IH]; cbn; [done|]. rewrite IH. do 2 f_equal. lia. }
    replace (s.2 + coverRun reach seen open shorts - open) with (s.2 - total draws + (coverRun reach seen open shorts - open)) by lia.
    constructor; [done | lia |]. rewrite Hl. apply IH; try done. intros t Hin. apply Hreach. by right.
  - destruct (greedy_draws s longs E HL s.2 Hs) as (draws & Hd & Ht).
    assert (Hnow := Hreach s ltac:(left) E). assert (Hb := sharesFrom_bounds longs s.1 HL).
    set (open' := Z.max open (seen + s.2 - reach s.1)).
    assert (Ho' : open' = open + (s.2 - total draws)) by (unfold open'; lia).
    replace (coverRun reach (seen + s.2) open' shorts - open)
      with (s.2 - total draws + (coverRun reach (seen + s.2) open' shorts - open')) by lia.
    constructor; [done | lia |]. apply IH; try done.
    + by destruct (drawn_reach _ _ _ "" Hd) as (_ & _ & _ & H4).
    + lia.
    + intros t Hin Hte. destruct (drawn_reach _ _ _ t.1 Hd) as (_ & H2 & _).
      rewrite H2 by (by apply (proj1 (Forall_forall _ _) Hhd)). rewrite (Hreach t) by first [by right | done]. lia.
Qed.

Lemma coverRun_worst shorts longs ss ls :
  Permutation ss shorts -> Permutation ls longs -> latestFirst ss -> Forall (fun l => 0 <= l.2) ss ->
  coverRun (sharesFrom ls) 0 0 ss = undated shorts + worstShortfall shorts longs.
Proof.
  intros Ps Pl Hsort Hss. destruct (coverRun_largest (sharesFrom ls) ss Hsort Hss 0 0) as (H1 & H2 & H3). rewrite (undated_perm _ _ Ps) in *.
  unfold worstShortfall. rewrite (largestDated_char _ shorts (coverRun (sharesFrom ls) 0 0 ss - undated shorts)); [lia | lia | |].
  - intros s Hin He. rewrite <- Ps in Hin. specialize (H2 s Hin He).
    rewrite (sharesFrom_perm _ _ _ Ps), (sharesFrom_perm _ _ _ Pl) in H2. lia.
  - destruct H3 as [H3|(s & Hin & He & H3)]; [by left | right]. exists s. rewrite Ps in Hin.
    rewrite (sharesFrom_perm _ _ _ Ps), (sharesFrom_perm _ _ _ Pl) in H3. split_and!; [done | done | lia].
Qed.

Lemma largestDated_ext f g lines : (forall e, f e = g e) -> largestDated f lines = largestDated g lines.
Proof. intros H. unfold largestDated. induction lines as [|l r IH]; [done|]. cbn [foldr]. by rewrite IH, H. Qed.
Lemma largestDated_perm f a b : Permutation a b -> largestDated f a = largestDated f b.
Proof. unfold largestDated. induction 1; cbn [foldr]; [done | by rewrite IHPermutation | repeat case_if; lia | congruence]. Qed.

Lemma worst_perm shorts shorts' longs longs' : Permutation shorts shorts' -> Permutation longs longs' ->
  worstShortfall shorts' longs' = worstShortfall shorts longs.
Proof.
  intros Ps Pl. unfold worstShortfall. rewrite <- (largestDated_perm _ _ _ Ps). apply largestDated_ext.
  intros e. by rewrite (sharesFrom_perm _ _ e Ps), (sharesFrom_perm _ _ e Pl).
Qed.

Lemma wholeLines_perm a b : Permutation a b -> wholeLines a -> wholeLines b.
Proof. intros P [H1 H2]. split; [by rewrite <- P | by rewrite <- (sumLines_perm _ _ P)]. Qed.

(** The pass itself, on the lines as they come. *)
Lemma uncovered_int shorts longs n :
  wholeLines shorts -> wholeLines longs -> count n ->
  uncoveredShares (map asLine shorts) (map asLine longs) (f_of_Z n) =
  f_of_Z (Z.max 0 (undated shorts + worstShortfall shorts longs - n)).
Proof.
  intros [Hs Hsb] [Hl Hlb] Hn. unfold uncoveredShares. rewrite !stable_sort_map.
  set (ss := stable_sort (fun a b => notAfter (asLine b) (asLine a)) shorts).
  set (ls := stable_sort (fun a b => notAfter (asLine a) (asLine b)) longs).
  assert (Ps : Permutation ss shorts) by apply stable_sort_perm.
  assert (Pl : Permutation ls longs) by apply stable_sort_perm.
  assert (Hsort : latestFirst ss) by apply latest_first_sorted.
  assert (Hss : Forall (fun l => 0 <= l.2) ss) by (by rewrite Ps).
  assert (Hsmall : smallLines ls).
  { unfold smallLines. rewrite Pl. clear -Hl Hlb. induction Hl as [|l longs H0 Hl IH]; constructor; simpl in Hlb;
      [|apply IH; lia]. assert (0 <= sumLines longs) by (clear -Hl; induction Hl; simpl; lia). unfold sumLines in *. lia. }
  assert (Hrun := coverRun_worst shorts longs ss ls Ps Pl Hsort Hss).
  assert (Hcov := coverShorts_int (sharesFrom ls) ss Hsort Hss ls 0 0 0 Hsmall). cbn [Z.add] in Hcov.
  assert (Hb := coverRun_bounds (sharesFrom ls) ss Hss (fun e => proj1 (sharesFrom_bounds ls e (small_nonneg _ Hsmall))) 0 0 ltac:(lia)).
  rewrite (sumLines_perm _ _ Ps) in *. rewrite Hrun in *. change (Z.add 0 0) with 0 in Hcov. unfold count in Hn.
  rewrite f0_int, Hcov by first [done | lia | intros; lia]. rewrite fsub_int, goMax_int by (unfold int53; lia). done.
Qed.

(** The best pairing leaves the worst shortfall. *)
Lemma best_pairing shorts longs : wholeLines shorts -> wholeLines longs ->
  exists order, Permutation order shorts /\ pairing order longs (undated shorts + worstShortfall shorts longs).
Proof.
  intros [Hs _] [Hl _]. set (ss := stable_sort (fun a b : wholeLine => String.leb b.1 a.1) shorts).
  assert (Ps : Permutation ss shorts) by apply stable_sort_perm. exists ss. split; [done|].
  assert (Hss : Forall (fun l => 0 <= l.2) ss) by (by rewrite Ps).
  rewrite <- (coverRun_worst shorts longs ss longs Ps (Permutation_refl _) (latest_first_sorted _) Hss).
  rewrite <- (Z.sub_0_r (coverRun _ _ _ _)). apply greedy_pairing; try done; [apply latest_first_sorted | lia].
Qed.

(** No pairing beats it. *)
Lemma pairing_bound shorts longs order left : wholeLines shorts -> wholeLines longs ->
  Permutation order shorts -> pairing order longs left -> undated shorts + worstShortfall shorts longs <= left.
Proof.
  intros [Hs _] [Hl _] P Hp. apply pairing_leaves in Hp as [H1 H2]; [|by rewrite P | done].
  rewrite (undated_perm _ _ P) in *. unfold worstShortfall.
  assert (Hb : forall lines, largestDated (fun e => sharesFrom shorts e - sharesFrom longs e) lines <= left - undated shorts).
  { induction lines as [|l lines IH]; cbn [largestDated foldr]; [lia|]. unfold largestDated in IH. specialize (H2 l.1).
    rewrite (sharesFrom_perm _ _ _ P) in H2. case_if; lia. }
  specialize (Hb shorts). lia.
Qed.

(** C38.  The share-equivalents the coverage rule finds uncovered are exactly the
    worst shortfall, on lines of whole share counts whose sums stay below 2^52: the
    greedy pass over the sorted shorts and longs leaves the shares the undated shorts
    need, plus the largest excess, over the shorts' expiries, of the shorts that
    expire on or after it over the longs that do, less the shares held.  That is the
    best that can be done: some pairing of the shorts with longs that expire no
    earlier leaves exactly this much before the shares, none leaves less, and the
    order the lines come in does not matter. *)
Theorem uncovered_is_the_worst_shortfall shorts longs n :
  wholeLines shorts -> wholeLines longs -> count n ->
  uncoveredShares (map asLine shorts) (map asLine longs) (f_of_Z n) =
    f_of_Z (Z.max 0 (undated shorts + worstShortfall shorts longs - n)) /\
  (exists order, Permutation order shorts /\ pairing order longs (undated shorts + worstShortfall shorts longs)) /\
  (forall order left, Permutation order shorts -> pairing order longs left -> undated shorts + worstShortfall shorts longs <= left) /\
  (forall shorts' longs', Permutation shorts shorts' -> Permutation longs longs' ->
     uncoveredShares (map asLine shorts') (map asLine longs') (f_of_Z n) =
     uncoveredShares (map asLine shorts) (map asLine longs) (f_of_Z n)).
Proof.
  intros Hs Hl Hn. split_and!; [by apply uncovered_int | by apply best_pairing | intros order left Po Hp; by apply (pairing_bound shorts longs order) |].
  intros shorts' longs' Ps Pl.
  rewrite (uncovered_int shorts longs n Hs Hl Hn), (uncovered_int shorts' longs' n (wholeLines_perm _ _ Ps Hs) (wholeLines_perm _ _ Pl Hl) Hn).
  by rewrite (worst_perm _ _ _ _ Ps Pl), (undated_perm _ _ Ps).
Qed.

(** Three short calls of 100 shares each (one far, one near, one undated) against a
    near long of 200 and 50 shares. *)
Lemma uncovered_is_the_worst_shortfall_witness :
  uncoveredShares (map asLine [("20270115", 100); ("", 100); ("20261218", 100)]) (map asLine [("20261218", 200)]) (f_of_Z 50) = f_of_Z 150.
Proof.
  destruct (uncovered_is_the_worst_shortfall [("20270115", 100); ("", 100); ("20261218", 100)] [("20261218", 200)] 50) as (-> & _);
    [repeat split; repeat constructor; simpl; lia .. | vm_compute; reflexivity].
Defined.
