(* ===== verification/OrderRisk.v ===== *)
(** * The order limits applied to one order

    src/internal/daemon/order_risk_authority.go (validateOrderRiskAuthority and the
    strategy reduction), protective_exit.go (the protective stock exit),
    cash_sweep_orders.go (the sweep bill) and index_hedge_order.go (the index
    future).  Proved on whole positions: an admitted order is within the cap in force
    or inside one named exemption, and takes a line below zero only as the rule of its
    security type permits: no bond, a stock or option with the policy's permission, a
    future as the index hedge within its contracts. *)

From stdpp Require Import base decidable list strings gmap.
From Stdlib Require Import ZArith Lia Ascii String SpecFloat.
From S2P Require Import Prelude Floats OrderTypes OrderStatus BrokerScope GoTime WriteGate PlaceOrderProto PreviewToken.
From S2P Require Import Reconcile OrderLimits WriteDraft WorkingOrders PositionEvidence DeltaReduction.

(** ** The protective stock exit *)

Definition heldStockExitCandidate (draft : OrderDraft) (position : OrderPositionImpact) : bool :=
  if present (dr_StrategyGroup draft) || negb (isStockLikeRiskSecType (cp_SecType (dr_Contract draft))) then false
  else if negb (EqualFold (TrimSpace (dr_Action draft)) OrderActionSell) then false
  else
    let qty := f_of_Z (dr_Quantity draft) in
    if (dr_Quantity draft <=? 0) || negb (positiveFinite (pi_Before position)) || (qty >f fadd (pi_Before position) tolerance) then false
    else if (fabs (fsub (pi_After position) (fsub (pi_Before position) qty)) >f tolerance) || negb (isRiskReducing (pi_Effect position)) then false
    else true.

Definition protectiveStockExitCandidate (draft : OrderDraft) (position : OrderPositionImpact) : bool :=
  isProtectiveStopOrderType (dr_OrderType draft) && heldStockExitCandidate draft position.

Definition protectiveStockExitExempt (draft : OrderDraft) (position : OrderPositionImpact) (inv : protectiveExitInventory) : bool :=
  if negb (protectiveStockExitCandidate draft position) || negb (ei_Current inv) then false
  else if ei_ReducesWorkingStop inv then true
  else
    let other := ei_OtherWorkingSameSide inv in
    if notFinite other || (other <f f0) then false
    else fadd other (f_of_Z (dr_Quantity draft)) <=f fadd (pi_Before position) tolerance.

(** captureProtectiveExitInventory: what the journal and the inventory reads answer;
    [fresh] says whether the inventory may come from the cache. *)
Definition captureProtectiveExitInventory (journal : option journalInventory)
    (inventory : bool -> option (OpenOrderSnapshot * brokerStateScope)) (account mode : string) (draft : OrderDraft)
    (position : OrderPositionImpact) (target : orderPreviewReplaceTarget) : protectiveExitInventory :=
  if negb (protectiveStockExitCandidate draft position) && negb (deltaReductionCandidate draft position) then unavailableInventory
  else match inventory (negb (present journal)) with
  | Some (snapshot, scope) =>
      if negb (sameBrokerScope scope (mkScope account mode)) then unavailableInventory
      else protectiveExitInventoryFromSnapshot snapshot (default (mkInventory [] ∅ ∅) journal) scope draft target
  | None => unavailableInventory
  end.

(** ** The cash sweep's bills *)

Definition cashSweepBillCurrency : list (string * string) :=
  [("us_tbill", "USD"); ("de_bubill", "EUR"); ("fr_btf", "EUR"); ("uk_tbill", "GBP"); ("ca_tbill", "CAD")].
Definition billCurrency (instrument : string) : option string :=
  option_map snd (List.find (fun e => String.eqb (fst e) instrument) cashSweepBillCurrency).
Definition cashSweepIsBill (instrument : string) : bool := present (billCurrency instrument).
Definition cashSweepInstrumentAllowed (instrument ccy : string) : bool :=
  if one_of instrument ["etf"; "none"] then true
  else match billCurrency instrument with Some want => want =s ccy | None => false end.
Definition cashSweepMoneyEpsilon : float64 := f_const 1 1000000.

Definition cashSweepTradingCapExempt (draft : OrderDraft) (position : OrderPositionImpact) (notional : orderNotionalAuthority) : bool :=
  match dr_Bond draft with
  | None => false
  | Some b =>
      if present (dr_StrategyGroup draft) || negb (positiveFinite (bt_TradingCapExemptUpToBase b)) then false
      else if negb (IsBillOrBond (cp_SecType (dr_Contract draft))) || negb (cashSweepIsBill (bt_Instrument b)) ||
              negb (cashSweepInstrumentAllowed (bt_Instrument b) (normCcy (cp_Currency (dr_Contract draft)))) then false
      else
        let action := ToUpper (TrimSpace (dr_Action draft)) in
        let effects :=
          if action =s OrderActionBuy then [OrderPositionEffectOpen; OrderPositionEffectIncrease]
          else if action =s OrderActionSell then [OrderPositionEffectReduce; OrderPositionEffectClose] else [] in
        one_of (pi_Effect position) effects && positiveFinite (nt_BaseNotional notional) &&
        (nt_BaseNotional notional <=f fadd (bt_TradingCapExemptUpToBase b) cashSweepMoneyEpsilon)
  end.

(** ** The index future *)

Definition hedgeFutureSymbol : string := "MES".
Definition normSym (s : string) : string := ToUpper (TrimSpace s).
Definition isIndexFutureContract (c : ContractParams) : bool :=
  EqualFold (TrimSpace (cp_SecType c)) "FUT" && (normSym (cp_Symbol c) =s hedgeFutureSymbol) && (normCcy (cp_Currency c) =s "USD").
Definition nonEmptyString (v fallback : string) : string := if TrimSpace v <>s "" then v else fallback.

Section Rules.
(** fmt's rendering of a float with "%g". *)
Context (formatG : float64 -> string).

Definition indexFutureOrderRule (limits : OrderLimitsInForce) (draft : OrderDraft) (position : OrderPositionImpact) : wres unit :=
  let before := pi_Before position in
  let after := pi_After position in
  if negb (isIndexFutureContract (dr_Contract draft)) || present (dr_StrategyGroup draft)
  then evErr ["the only future Canary trades is the Micro E-mini S&P 500 index hedge"]
  else
    let qty := f_of_Z (dr_Quantity draft) in
    let action := ToUpper (TrimSpace (dr_Action draft)) in
    if action =s OrderActionSell then
      if dr_Source draft <>s hedgeOrderSource then evErr ["a future sale is placed only as the index hedge"]
      else if (lf_IndexHedgeRefusal limits <>s "") || (lf_IndexHedgeMaxContracts limits <? 1)
      then evErr [nonEmptyString (lf_IndexHedgeRefusal limits)
                    "placing an index hedge is refused until [mandate.index_hedge] max_contracts is written"]
      else if (before >f f0) || (fabs (fsub after (fsub before qty)) >f tolerance)
      then evErr ["the index hedge sells from no position or a held short, never from a long future"]
      else if fopp after >f fadd (f_of_Z (lf_IndexHedgeMaxContracts limits)) tolerance
      then evErr ["the hedge would leave "; cp_LocalSymbol (dr_Contract draft); " short "; formatG (fopp after);
                  " contracts, above [mandate.index_hedge] max_contracts "; Itoa (lf_IndexHedgeMaxContracts limits)]
      else Ok tt
    else if action =s OrderActionBuy then
      if negb (before <f f0) || (after >f tolerance) || (fabs (fsub after (fadd before qty)) >f tolerance)
      then evErr ["a future buy only closes or shrinks a held short hedge"]
      else Ok tt
    else evErr ["action must be buy or sell"].

(** ** Strategy reductions *)

Definition strategyLegRule (units maxOptionContracts : Z) (capExempt : bool) (leg : StrategyOrderLeg) : wres unit :=
  let id := Itoa (cp_ConID (sl_Contract leg)) in
  let wantQuantity := absOrderRatio (sl_Ratio leg) * units in
  let before := sl_Before leg in
  let after := sl_After leg in
  if (wantQuantity <=? 0) || negb (sl_Quantity leg =? wantQuantity) || ((maxOptionContracts <? sl_Quantity leg) && negb capExempt) ||
     negb (EqualFold (cp_SecType (sl_Contract leg)) "OPT")
  then evErr ["strategy leg "; id; " violates the proportional option quantity limit"]
  else if (fabs after >f fadd (fabs before) tolerance) ||
          (negb (before =f f0) && negb (after =f f0) && negb (Bool.eqb (signBit after) (signBit before)))
  then evErr ["strategy leg "; id; " would not reduce its current position"]
  else
    let? expectedAfter :=
      if sl_Action leg =s OrderActionSell then Ok (fsub before (f_of_Z (sl_Quantity leg)))
      else if sl_Action leg =s OrderActionBuy then Ok (fadd before (f_of_Z (sl_Quantity leg)))
      else evErr ["strategy leg "; id; " has an invalid action"] in
    if fabs (fsub expectedAfter after) >f tolerance
    then Err (mkErr "defect" (say ["strategy leg "; id; " has inconsistent before/after quantities"]))
    else Ok tt.

Fixpoint strategyLegRules (units maxOptionContracts : Z) (capExempt : bool) (legs : list StrategyOrderLeg) : wres unit :=
  match legs with
  | [] => Ok tt
  | leg :: rest => let? _ := strategyLegRule units maxOptionContracts capExempt leg in strategyLegRules units maxOptionContracts capExempt rest
  end.

Definition validateStrategyReductionDraft (draft : OrderDraft) (position : OrderPositionImpact) (maxOptionContracts : Z) (capExempt : bool)
    : wres unit :=
  match dr_StrategyGroup draft with
  | Some group =>
      if negb (sd_GuaranteedCombo group) || Nat.ltb (List.length (sd_Legs group)) 2 || (cp_SecType (dr_Contract draft) <>s "BAG") ||
         (dr_Action draft <>s OrderActionSell) || negb (dr_Quantity draft =? sd_Units group)
      then evErr ["strategy order is not one guaranteed proportional combo"]
      else if negb (pi_Before position =f f_of_Z (sd_UnitsBefore group)) || negb (pi_After position =f f_of_Z (sd_UnitsAfter group)) ||
              (sd_UnitsAfter group <? 0) || (sd_UnitsBefore group <=? sd_UnitsAfter group)
      then evErr ["strategy order does not reduce the current group"]
      else strategyLegRules (sd_Units group) maxOptionContracts capExempt (sd_Legs group)
  | None => evErr ["strategy order is not one guaranteed proportional combo"]
  end.

(** ** validateOrderRiskAuthority *)

Section Admission.
Context (rangeShares : gmap Z float64 -> list (Z * float64)) (formatF2 formatF : float64 -> string).

(** The notional's evidence: currencies, FX source and the conversion itself. *)
Definition notionalEvidence (limits : OrderLimitsInForce) (contractCurrency baseCurrency : string) (notional : orderNotionalAuthority) : wres unit :=
  if (contractCurrency =s "") || (baseCurrency =s "") || negb (EqualFold contractCurrency (nt_ContractCurrency notional)) ||
     negb (EqualFold baseCurrency (nt_BaseCurrency notional)) || negb (positiveFinite (nt_QuoteNotional notional)) ||
     negb (positiveFinite (nt_BaseNotional notional)) || negb (positiveFinite (nt_BasePerContract notional)) || IsZero (nt_EvidenceAt notional)
  then evErr ["risk-increasing order currency "; quoted contractCurrency; " cannot be compared with the account-base order cap currency ";
              quoted baseCurrency; " without current typed FX evidence"]
  else if (lf_BaseCurrency limits <>s "") && negb (EqualFold (lf_BaseCurrency limits) baseCurrency)
  then evErr ["the order cap in force is stated in "; lf_BaseCurrency limits; " but the order's account base currency is "; baseCurrency]
  else
    let? _ :=
      if contractCurrency =s baseCurrency then
        if (nt_Source notional <>s orderFXSourceIdentity) ||
           (fabs (fsub (nt_BasePerContract notional) (f_of_Z 1)) >f f_const 1 1000000000000) || (nt_DataType notional <>s "")
        then evErr ["same-currency order notional lacks identity FX evidence"] else Ok tt
      else if (nt_Source notional <>s orderFXSourceExactSessionQuote) || negb (validOrderFXDataType (nt_DataType notional))
      then evErr ["cross-currency order notional lacks exact-session FX evidence"] else Ok tt in
    let wantBase := fmul (nt_QuoteNotional notional) (nt_BasePerContract notional) in
    if fabs (fsub wantBase (nt_BaseNotional notional)) >f goMax (f_const 1 100000000) (fmul (fabs wantBase) tolerance)
    then evErr ["order base notional does not match typed FX evidence"]
    else Ok tt.

(** [now] is the clock read when the limits carry no time. *)
Definition validateOrderRiskAuthority (now : time) (limits : OrderLimitsInForce) (draft : OrderDraft) (position : OrderPositionImpact)
    (notional : orderNotionalAuthority) (baseCurrency : string) (exit : protectiveExitInventory) (delta : deltaReductionEvidence) : wres unit :=
  if negb (lf_Complete limits) then evErr [orderLimitsIncompleteError limits]
  else
    let contractCurrency := ToUpper (TrimSpace (cp_Currency (dr_Contract draft))) in
    let baseCurrency := ToUpper (TrimSpace baseCurrency) in
    let secType := cp_SecType (dr_Contract draft) in
    let? _ := notionalEvidence limits contractCurrency baseCurrency notional in
    let '(deltaExempt, deltaWhy) := deltaReducingExit rangeShares formatF2 formatF draft position delta exit in
    let future := EqualFold (TrimSpace secType) "FUT" in
    let? _ := if future then indexFutureOrderRule limits draft position else Ok tt in
    if EqualFold secType "OPT" && (lf_MaxOptionContracts limits <? dr_Quantity draft) && negb deltaExempt
    then evErr ["option quantity "; Itoa (dr_Quantity draft); " exceeds the option cap in force of "; Itoa (lf_MaxOptionContracts limits);
                " contracts ([order_limits].max_option_contracts)"; deltaWhy]
    else
      let protectiveExit := protectiveStockExitExempt draft position exit in
      let sweepBill := cashSweepTradingCapExempt draft position notional in
      if (nt_BaseNotional notional >f lf_CapBase limits) && negb protectiveExit && negb sweepBill && negb deltaExempt && negb future
      then evErr ["order notional "; FormatOrderMoney (nt_BaseNotional notional) baseCurrency; " exceeds the order cap in force ";
                  lf_Summary limits; deltaWhy]
      else if present (dr_StrategyGroup draft)
      then validateStrategyReductionDraft draft position (lf_MaxOptionContracts limits) deltaExempt
      else if IsBillOrBond secType && stockShortOrFlip (pi_Effect position)
      then evErr ["a bond order that opens or flips a short position is not supported"]
      else
        let? _ :=
          if IsBillOrBond secType && EqualFold (dr_Action draft) OrderActionBuy then
            match dr_Bond draft with
            | None => evErr ["a bond buy carries no bond terms, so its maturity cannot be checked"]
            | Some b =>
                match CheckBondMaturity limits (bt_Maturity b) (if IsZero (lf_AsOf limits) then now else lf_AsOf limits) with
                | Err why => evErr [why]
                | Ok _ => Ok tt
                end
            end
          else Ok tt in
        if isStockLikeRiskSecType secType && stockShortOrFlip (pi_Effect position) && negb (lf_AllowStockShort limits)
        then evErr ["stock short/flip requires [order_limits].allow_stock_short = true"]
        else if EqualFold secType "OPT" && optionSellToOpen (dr_Action draft) (pi_Effect position) && negb (lf_AllowOptionSellToOpen limits)
        then evErr ["option sell-to-open requires [order_limits].allow_option_sell_to_open = true"]
        else Ok tt.
End Admission.
End Rules.

(** ** Whole positions *)

(** The signed quantity of the order, and the impact captured for it on a whole
    position [b]. *)
Definition signedQuantity (draft : OrderDraft) : Z :=
  if EqualFold (dr_Action draft) OrderActionSell then - dr_Quantity draft else dr_Quantity draft.
Definition impactOn (draft : OrderDraft) (b : Z) (averageCost : float64) (multiplier : Z) : OrderPositionImpact :=
  let before := f_of_Z b in
  let after := fadd before (orderDelta (dr_Action draft) (dr_Quantity draft)) in
  mkImpact before after (classifyPositionEffect before after) averageCost multiplier.

Record wholeOrder (draft : OrderDraft) (b : Z) : Prop := mkWholeOrder {
  wo_position : - 2 ^ 51 < b < 2 ^ 51;
  wo_quantity : 0 < dr_Quantity draft < 2 ^ 51;
  wo_action : one_of (dr_Action draft) [OrderActionBuy; OrderActionSell] = true
}.

Lemma order_delta_int draft b : wholeOrder draft b -> orderDelta (dr_Action draft) (dr_Quantity draft) = f_of_Z (signedQuantity draft).
Proof.
  intros [Hb Hq _]. unfold orderDelta, signedQuantity. case_if; [|done]. apply fopp_int; [unfold int53; lia | lia].
Qed.

Lemma impact_after draft b : wholeOrder draft b ->
  fadd (f_of_Z b) (orderDelta (dr_Action draft) (dr_Quantity draft)) = f_of_Z (b + signedQuantity draft) /\
  - 2 ^ 52 < b + signedQuantity draft < 2 ^ 52.
Proof.
  intros H. rewrite (order_delta_int draft b H). destruct H as [Hb Hq _].
  assert (- 2 ^ 51 < signedQuantity draft < 2 ^ 51) by (unfold signedQuantity; case_if; lia).
  split; [|lia]. apply fadd_int; unfold int53; lia.
Qed.

(** The effect of an order on whole numbers. *)
Lemma short_or_flip_int b a : int53 b -> int53 a ->
  stockShortOrFlip (classifyPositionEffect (f_of_Z b) (f_of_Z a)) = ((0 <=? b) && (a <? 0)) || ((b <? 0) && (0 <? a)).
Proof.
  intros Hb Ha. assert (H0 : int53 0) by (unfold int53; lia). unfold classifyPositionEffect. rewrite f0_int.
  rewrite !fabs_int, !feqb_int, !fltb_int, !fleb_int by (done || unfold int53 in *; lia).
  destruct (Z.eqb_spec b 0) as [->|Hb0]; destruct (Z.ltb_spec 0 a), (Z.ltb_spec a 0); cbn [andb]; try lia; try reflexivity;
    destruct (Z.ltb_spec 0 b), (Z.ltb_spec b 0), (Z.leb_spec 0 b); try lia; cbn [andb orb];
    repeat match goal with
           | |- context [Z.ltb ?x ?y] => destruct (Z.ltb_spec x y); cbn [andb]
           | |- context [Z.eqb ?x ?y] => destruct (Z.eqb_spec x y); cbn [andb]
           end; solve [reflexivity | exfalso; lia].
Qed.

(** ** What an exemption holds the order to *)

(** Each line the order touches shrinks on its side, and with the other working
    orders in its direction the order stays within it. *)
Definition insideHeldLines (inv : protectiveExitInventory) (changes : list deltaChange) : Prop :=
  Forall (fun ch => shrinksPosition (dc_Before ch) (dc_After ch) = true /\
    (fadd (fabs (dc_Before ch)) tolerance <f fadd (otherWorkingSameSide inv (dc_ConID ch)) (fabs (fsub (dc_After ch) (dc_Before ch)))) = false)
    changes.

Inductive capExemption (draft : OrderDraft) (b : Z) (position : OrderPositionImpact) (limits : OrderLimitsInForce)
    (notional : orderNotionalAuthority) (inv : protectiveExitInventory) (ev : deltaReductionEvidence) : Prop :=
| exemptStop : (** a stop that sells part or all of a long stock line, with room beside the other sells *)
    isProtectiveStopOrderType (dr_OrderType draft) = true -> isStockLikeRiskSecType (cp_SecType (dr_Contract draft)) = true ->
    signedQuantity draft = - dr_Quantity draft -> dr_Quantity draft <= b -> ei_Current inv = true ->
    ei_ReducesWorkingStop inv = true \/
      (fadd (ei_OtherWorkingSameSide inv) (f_of_Z (dr_Quantity draft)) <=f fadd (f_of_Z b) tolerance) = true ->
    capExemption draft b position limits notional inv ev
| exemptBill terms : (** a bill within the sweep's own cap *)
    dr_Bond draft = Some terms -> IsBillOrBond (cp_SecType (dr_Contract draft)) = true -> cashSweepIsBill (bt_Instrument terms) = true ->
    (nt_BaseNotional notional <=f fadd (bt_TradingCapExemptUpToBase terms) cashSweepMoneyEpsilon) = true ->
    capExemption draft b position limits notional inv ev
| exemptExit after : (** an exit that lowers the delta of its underlying and of the book *)
    ei_Current inv = true -> de_Current ev = true -> insideHeldLines inv (deltaReductionChanges draft position) ->
    netAfter ev (deltaReductionChanges draft position) = inl after -> lowersAbsoluteDelta (de_NetBefore ev) after = true ->
    lowersAbsoluteDelta (de_BookBefore ev) (fadd (de_BookBefore ev) (fsub after (de_NetBefore ev))) = true ->
    capExemption draft b position limits notional inv ev
| exemptHedge : (** the index hedge within its contracts, or a close of it *)
    isIndexFutureContract (dr_Contract draft) = true -> b + signedQuantity draft <= 0 ->
    (signedQuantity draft < 0 -> dr_Source draft = hedgeOrderSource /\ - lf_IndexHedgeMaxContracts limits <= b + signedQuantity draft) ->
    capExemption draft b position limits notional inv ev.

Lemma delta_exempt_facts rangeShares formatF2 formatF draft position ev inv why :
  deltaReducingExit rangeShares formatF2 formatF draft position ev inv = (true, why) ->
  let changes := deltaReductionChanges draft position in
  deltaReductionCandidate draft position = true /\ de_Current ev = true /\ ei_Current inv = true /\
  judge rangeShares formatF2 formatF ev (ToUpper (TrimSpace (cp_Symbol (dr_Contract draft)))) changes = None /\
  competingRefusal formatF2 inv changes = None.
Proof.
  unfold deltaReducingExit. cbv zeta. destruct (deltaReductionCandidate draft position); cbn [negb]; [|by case_if].
  destruct (de_Unread ev); [done|]. destruct (de_Current ev); cbn [negb orb]; [|done]. case_if; [done|].
  destruct (judge _ _ _ _ _ _); [done|]. destruct (ei_Current inv); cbn [negb]; [|done].
  destruct (competingRefusal _ _ _); done.
Qed.

Lemma judge_lowers rangeShares formatF2 formatF ev name changes :
  judge rangeShares formatF2 formatF ev name changes = None ->
  exists after, netAfter ev changes = inl after /\ lowersAbsoluteDelta (de_NetBefore ev) after = true /\
    lowersAbsoluteDelta (de_BookBefore ev) (fadd (de_BookBefore ev) (fsub after (de_NetBefore ev))) = true.
Proof.
  unfold judge. destruct (netAfter ev changes) as [after|]; [|done]. intros H. exists after.
  destruct (lowersAbsoluteDelta (de_NetBefore ev) after); [|done]. cbn [negb] in H.
  destruct (lowersAbsoluteDelta (de_BookBefore ev) _); done.
Qed.

Lemma competing_none formatF2 inv changes : competingRefusal formatF2 inv changes = None ->
  Forall (fun ch => (fadd (fabs (dc_Before ch)) tolerance <f
    fadd (otherWorkingSameSide inv (dc_ConID ch)) (fabs (fsub (dc_After ch) (dc_Before ch)))) = false) changes.
Proof.
  induction changes as [|ch changes IH]; cbn [competingRefusal]; [constructor|]. case_if; [done|].
  destruct (fadd (fabs (dc_Before ch)) tolerance <f _) eqn:E; [done|]. intros H. constructor; [done | by apply IH].
Qed.

Lemma candidate_shrinks draft position : deltaReductionCandidate draft position = true ->
  Forall (fun ch => shrinksPosition (dc_Before ch) (dc_After ch) = true) (deltaReductionChanges draft position).
Proof.
  unfold deltaReductionCandidate, deltaReductionChanges. case_if; [done|]. destruct (dr_StrategyGroup draft) as [group|].
  - case_if; [done|]. intros Hall. apply Forall_forall. intros ch (leg & <- & Hin)%list_elem_of_In%in_map_iff.
    apply forallb_forall with (x := leg) in Hall; [|done]. by apply andb_prop in Hall as [_ Hall].
  - case_if; [done|]. intros Hs. apply andb_prop in Hs as [_ Hs]. by repeat constructor.
Qed.

Lemma delta_exemption rangeShares formatF2 formatF draft b position limits notional ev inv why :
  deltaReducingExit rangeShares formatF2 formatF draft position ev inv = (true, why) -> capExemption draft b position limits notional inv ev.
Proof.
  intros H. apply delta_exempt_facts in H as (Hc & He & Hi & Hj & Hk). apply judge_lowers in Hj as (after & H1 & H2 & H3).
  apply (exemptExit _ _ _ _ _ _ _ after); try done. unfold insideHeldLines. apply Forall_and. split; [by apply candidate_shrinks | by apply competing_none in Hk].
Qed.

Lemma bill_exemption draft b position limits notional inv ev :
  cashSweepTradingCapExempt draft position notional = true -> capExemption draft b position limits notional inv ev.
Proof.
  unfold cashSweepTradingCapExempt. destruct (dr_Bond draft) as [terms|] eqn:E; [|done]. case_if; [done|].
  destruct (IsBillOrBond _) eqn:E1; [|done]. destruct (cashSweepIsBill _) eqn:E2; [|done]. cbn [negb orb]. case_if; [done|].
  cbv zeta. intros Hx. apply andb_prop in Hx as [_ Hx]. by apply (exemptBill _ _ _ _ _ _ _ terms).
Qed.

Lemma action_cases draft b : wholeOrder draft b ->
  (dr_Action draft = OrderActionBuy /\ signedQuantity draft = dr_Quantity draft) \/
  (dr_Action draft = OrderActionSell /\ signedQuantity draft = - dr_Quantity draft).
Proof.
  intros [_ _ Ha]. unfold signedQuantity. unfold one_of in Ha. cbn [existsb] in Ha.
  destruct (String.eqb_spec (dr_Action draft) OrderActionBuy) as [->|]; [by left|].
  destruct (String.eqb_spec (dr_Action draft) OrderActionSell) as [->|]; [by right | done].
Qed.

Lemma positiveFinite_int b : int53 b -> positiveFinite (f_of_Z b) = true -> 0 < b.
Proof.
  intros Hb H. unfold positiveFinite in H. apply andb_prop in H as [H _]. apply andb_prop in H as [H _].
  rewrite f0_int, fltb_int in H by (done || unfold int53; lia). lia.
Qed.

Lemma stop_exemption draft b averageCost multiplier limits notional inv ev : wholeOrder draft b ->
  protectiveStockExitExempt draft (impactOn draft b averageCost multiplier) inv = true ->
  capExemption draft b (impactOn draft b averageCost multiplier) limits notional inv ev.
Proof.
  intros Hw. unfold protectiveStockExitExempt, protectiveStockExitCandidate, heldStockExitCandidate.
  destruct (isProtectiveStopOrderType _) eqn:E1; [|done]. cbn [andb]. destruct (isStockLikeRiskSecType _) eqn:E2; [|by rewrite orb_true_r].
  destruct (present (dr_StrategyGroup draft)); [done|]. cbn [negb orb].
  destruct (action_cases draft b Hw) as [[-> Hs]|[-> Hs]]; [done|]. change (EqualFold (TrimSpace OrderActionSell) OrderActionSell) with true.
  destruct Hw as [Hb Hq _]. cbn [negb impactOn pi_Before].
  destruct ((dr_Quantity draft <=? 0) || _ || _) eqn:E3; [done|]. apply orb_false_iff in E3 as [E3 E5].
  apply orb_false_iff in E3 as [_ E4]. apply negb_false_iff in E4. apply positiveFinite_int in E4; [|unfold int53; lia].
  rewrite tolerant_gt in E5 by (unfold count; lia). case_if; [done|]. cbn [negb orb].
  destruct (ei_Current inv) eqn:E6; [|done]. cbn [negb].
  intros H. apply exemptStop; try done; [lia|]. destruct (ei_ReducesWorkingStop inv); [by left | right]. by case_if_in H.
Qed.

(** What the future's own rule holds an order to: a sale is the hedge itself, from
    no position or a held short, within its contracts; a buy only closes. *)
Lemma index_future_facts formatG draft b averageCost multiplier limits : wholeOrder draft b ->
  lf_IndexHedgeMaxContracts limits < 2 ^ 52 ->
  indexFutureOrderRule formatG limits draft (impactOn draft b averageCost multiplier) = Ok tt ->
  isIndexFutureContract (dr_Contract draft) = true /\ b <= 0 /\ b + signedQuantity draft <= 0 /\
  (signedQuantity draft < 0 -> dr_Source draft = hedgeOrderSource /\ lf_IndexHedgeRefusal limits = "" /\
     - lf_IndexHedgeMaxContracts limits <= b + signedQuantity draft).
Proof.
  intros Hw Hm. unfold indexFutureOrderRule. destruct (impact_after draft b Hw) as [Ha Hbd].
  cbn [impactOn pi_Before pi_After]. rewrite Ha.
  destruct (isIndexFutureContract (dr_Contract draft)) eqn:E1; [|done]. cbn [negb orb]. case_if; [done|].
  assert (H0 : int53 0) by (unfold int53; lia).
  destruct (action_cases draft b Hw) as [[-> Hs]|[-> Hs]]; destruct Hw as [Hb Hq _].
  - change (ToUpper (TrimSpace OrderActionBuy)) with OrderActionBuy. cbn -[Z.add f_of_Z fadd fabs fsub fltb tolerance].
    destruct (f_of_Z b <f f0) eqn:E2; [|done]. rewrite f0_int, fltb_int in E2 by (done || unfold int53; lia).
    destruct (tolerance <f f_of_Z (b + signedQuantity draft)) eqn:E3; [done|]. intros _.
    rewrite fltb_negb, le_tolerance in E3 by (reflexivity || (apply f_of_Z_number; unfold int53; lia) || unfold int53; lia).
    split_and!; [done | lia.. ].
  - change (ToUpper (TrimSpace OrderActionSell)) with OrderActionSell. cbn -[Z.add f_of_Z fadd fabs fsub fltb tolerance fopp].
    destruct (String.eqb_spec (dr_Source draft) hedgeOrderSource) as [Hsrc|]; [|done]. cbn [negb].
    destruct (Z.ltb_spec (lf_IndexHedgeMaxContracts limits) 1); [by rewrite orb_true_r|]. rewrite orb_false_r.
    destruct (String.eqb_spec (lf_IndexHedgeRefusal limits) "") as [Hr|]; [|done]. cbn [negb].
    destruct (f0 <f f_of_Z b) eqn:E2; [done|]. rewrite f0_int, fltb_int in E2 by (done || unfold int53; lia). cbn [orb]. case_if; [done|].
    rewrite fopp_int by (unfold int53; lia). rewrite tolerant_gt by (unfold count; lia).
    destruct (Z.ltb_spec (lf_IndexHedgeMaxContracts limits) (- (b + signedQuantity draft))); [done|]. intros _.
    split_and!; [done | lia.. | intros _; split_and!; [done | done | lia]].
Qed.

Lemma future_exemption formatG draft b averageCost multiplier limits notional inv ev : wholeOrder draft b ->
  lf_IndexHedgeMaxContracts limits < 2 ^ 52 ->
  indexFutureOrderRule formatG limits draft (impactOn draft b averageCost multiplier) = Ok tt ->
  capExemption draft b (impactOn draft b averageCost multiplier) limits notional inv ev.
Proof.
  intros Hw Hm H. apply index_future_facts in H as (Hi & _ & Ha & Hs); [|done..].
  apply exemptHedge; [done | done | intros Hq]. destruct (Hs Hq) as (? & _ & ?). done.
Qed.

(** How a flat or long line of one contract may go below zero: each security type
    by its own rule of the policy. *)
Record belowZeroPermitted (limits : OrderLimitsInForce) (draft : OrderDraft) (b : Z) : Prop := mkBelowZero {
  bz_bond : IsBillOrBond (cp_SecType (dr_Contract draft)) = false;
  bz_stock : isStockLikeRiskSecType (cp_SecType (dr_Contract draft)) = true -> lf_AllowStockShort limits = true;
  bz_option : EqualFold (cp_SecType (dr_Contract draft)) "OPT" = true -> lf_AllowOptionSellToOpen limits = true;
  bz_future : EqualFold (TrimSpace (cp_SecType (dr_Contract draft))) "FUT" = true ->
    isIndexFutureContract (dr_Contract draft) = true /\ dr_Source draft = hedgeOrderSource /\ lf_IndexHedgeRefusal limits = "" /\
    b = 0 /\ - lf_IndexHedgeMaxContracts limits <= b + signedQuantity draft
}.

Section WithinLimits.
Context (formatG formatF2 formatF : float64 -> string) (rangeShares : gmap Z float64 -> list (Z * float64)).
Context (now : time) (limits : OrderLimitsInForce) (draft : OrderDraft) (b : Z) (averageCost : float64) (multiplier : Z).
Context (notional : orderNotionalAuthority) (baseCurrency : string) (inv : protectiveExitInventory) (ev : deltaReductionEvidence).
Context (Hw : wholeOrder draft b) (Hcap : IsNaN (lf_CapBase limits) = false) (Hhedge : lf_IndexHedgeMaxContracts limits < 2 ^ 52).

Local Abbreviation position := (impactOn draft b averageCost multiplier).
Local Abbreviation secType := (cp_SecType (dr_Contract draft)).
Local Abbreviation admits := (validateOrderRiskAuthority formatG rangeShares formatF2 formatF now limits draft position notional baseCurrency inv ev).

Lemma effect_crosses : 0 <= b -> b + signedQuantity draft < 0 -> stockShortOrFlip (pi_Effect position) = true.
Proof.
  intros Hb Ha. destruct (impact_after draft b Hw) as [Hafter Hbd]. cbn [impactOn pi_Effect]. rewrite Hafter.
  destruct Hw as [Hp _ _]. rewrite short_or_flip_int by (unfold int53; lia).
  apply orb_true_iff. left. apply andb_true_iff. split; [by apply Z.leb_le | by apply Z.ltb_lt].
Qed.

Lemma notional_number contractCurrency base : notionalEvidence limits contractCurrency base notional = Ok tt -> IsNaN (nt_BaseNotional notional) = false.
Proof.
  unfold notionalEvidence. destruct (positiveFinite (nt_BaseNotional notional)) eqn:E.
  - intros _. by apply positive_number in E as [? _].
  - cbn [negb]. rewrite orb_true_r. done.
Qed.

(** The caps: the order's notional and its option contracts. *)
Lemma admitted_caps : admits = Ok tt ->
  lf_Complete limits = true /\
  ((nt_BaseNotional notional <=f lf_CapBase limits) = true \/ capExemption draft b position limits notional inv ev) /\
  (EqualFold secType "OPT" = true ->
     dr_Quantity draft <= lf_MaxOptionContracts limits \/ capExemption draft b position limits notional inv ev).
Proof.
  unfold validateOrderRiskAuthority. destruct (lf_Complete limits); [|done]. cbn [negb]. cbv zeta.
  destruct (notionalEvidence _ _ _ _) as [[]|] eqn:En; [|done]. cbn [rbind]. apply notional_number in En.
  destruct (deltaReducingExit _ _ _ _ _ _ _) as [exempt why] eqn:Ed.
  assert (Hd : exempt = true -> capExemption draft b position limits notional inv ev) by (intros ->; by eapply delta_exemption).
  set (future := EqualFold (TrimSpace secType) "FUT").
  destruct (if future then _ else _) as [[]|] eqn:Ef; [|done]. cbn [rbind].
  assert (Hf : future = true -> capExemption draft b position limits notional inv ev).
  { intros E. rewrite E in Ef. by eapply future_exemption. }
  destruct (EqualFold secType "OPT" && _ && _) eqn:Eo; [done|]. destruct (_ && _ && _ && _ && _) eqn:Ec; [done|]. intros _.
  split; [done|]. split.
  - destruct (lf_CapBase limits <f nt_BaseNotional notional) eqn:El.
    + right. destruct (protectiveStockExitExempt _ _ _) eqn:Es; [by apply stop_exemption|].
      destruct (cashSweepTradingCapExempt _ _ _) eqn:Eb; [by apply bill_exemption|].
      destruct exempt; [by apply Hd|]. destruct future; [by apply Hf | done].
    + left. rewrite fltb_negb in El by done. by apply negb_false_iff.
  - intros Eopt. rewrite Eopt in Eo. cbn [andb] in Eo.
    destruct (Z.ltb_spec (lf_MaxOptionContracts limits) (dr_Quantity draft)); [|left; lia]. right. destruct exempt; [by apply Hd | done].
Qed.

(** The side: no short line without the permission, and bonds in their maturity. *)
Lemma admitted_side : admits = Ok tt -> dr_StrategyGroup draft = None ->
  (0 <= b -> b + signedQuantity draft < 0 -> belowZeroPermitted limits draft b) /\
  (EqualFold (TrimSpace secType) "FUT" = true -> isIndexFutureContract (dr_Contract draft) = true /\ b <= 0 /\ b + signedQuantity draft <= 0) /\
  (IsBillOrBond secType = true -> dr_Action draft = OrderActionBuy -> exists terms, dr_Bond draft = Some terms /\
     CheckBondMaturity limits (bt_Maturity terms) (if IsZero (lf_AsOf limits) then now else lf_AsOf limits) = Ok tt).
Proof.
  unfold validateOrderRiskAuthority. destruct (lf_Complete limits); [|done]. cbn [negb]. cbv zeta.
  destruct (notionalEvidence _ _ _ _) as [[]|]; [|done]. cbn [rbind].
  destruct (deltaReducingExit _ _ _ _ _ _ _) as [exempt why]. set (future := EqualFold (TrimSpace secType) "FUT").
  destruct (if future then _ else _) as [[]|] eqn:Ef; [|done]. cbn [rbind]. case_if; [done|]. case_if; [done|]. intros H Hg. rewrite Hg in H.
  cbn [present] in H. destruct (IsBillOrBond secType && stockShortOrFlip (pi_Effect position)) eqn:Eb; [done|].
  destruct (if IsBillOrBond secType && EqualFold (dr_Action draft) OrderActionBuy then _ else _) as [[]|] eqn:Em; [|done]. cbn [rbind] in H.
  assert (Hfut : future = true -> _) by (intros E; rewrite E in Ef; exact (index_future_facts _ _ _ _ _ _ Hw Hhedge Ef)).
  split_and!.
  - intros Hb Ha. assert (He := effect_crosses Hb Ha). rewrite He in *. rewrite andb_true_r in *.
    destruct (action_cases draft b Hw) as [[_ Hs]|[Hs _]]; [destruct Hw; lia|].
    assert (Hopen : optionSellToOpen (dr_Action draft) (pi_Effect position) = true)
      by (unfold optionSellToOpen; unfold stockShortOrFlip in He; rewrite orb_comm in He; by rewrite Hs, He).
    rewrite Hopen, andb_true_r in H. split; [done | .. ].
    1,2: destruct (isStockLikeRiskSecType secType), (EqualFold secType "OPT"), (lf_AllowStockShort limits),
      (lf_AllowOptionSellToOpen limits); done.
    intros E. destruct (Hfut E) as (? & ? & ? & Hsale). destruct (Hsale ltac:(lia)) as (? & ? & ?). split_and!; done || lia.
  - intros E. by destruct (Hfut E) as (? & ? & ? & _).
  - intros Hbond Hbuy. rewrite Hbond, Hbuy in Em. change (EqualFold OrderActionBuy OrderActionBuy) with true in Em. cbn [andb] in Em.
    destruct (dr_Bond draft) as [terms|]; [|done]. exists terms. split; [done|]. by destruct (CheckBondMaturity _ _ _) as [[]|].
Qed.
End WithinLimits.

(** C35.  An order the limits admit on a whole position is within them (positions
    and quantities whole and below 2^51, a cap that is a number, a hedge limit below
    2^52).  Its notional is at most the cap in force, or one exemption holds: a
    protective stop within the long stock line, a bill within the sweep's cap, an exit
    that shrinks every line it touches within what is held and lowers the delta of
    the underlying and of the book, or the index hedge within its contracts.  Its
    option contracts are at most the option cap or it is such an exemption.  When a
    single-contract order takes a flat or long line below zero: it is not a bond; a
    stock has allow_stock_short; an option has allow_option_sell_to_open; a future is
    the Micro E-mini hedge, placed as the hedge while the mandate does not refuse it,
    sold from flat and no deeper than its max_contracts.  A future order of either
    side is that contract and never starts from or ends in a long line.  For security
    types other than these the limits have no rule on the side, only the caps.  A bond
    buy matures within the limit. *)
Theorem admitted_order_is_within_its_limits formatG formatF2 formatF rangeShares now limits draft b averageCost multiplier
    notional baseCurrency inv ev :
  wholeOrder draft b -> IsNaN (lf_CapBase limits) = false -> lf_IndexHedgeMaxContracts limits < 2 ^ 52 ->
  let position := impactOn draft b averageCost multiplier in
  let secType := cp_SecType (dr_Contract draft) in
  let exempted := capExemption draft b position limits notional inv ev in
  validateOrderRiskAuthority formatG rangeShares formatF2 formatF now limits draft position notional baseCurrency inv ev = Ok tt ->
  lf_Complete limits = true /\
  ((nt_BaseNotional notional <=f lf_CapBase limits) = true \/ exempted) /\
  (EqualFold secType "OPT" = true -> dr_Quantity draft <= lf_MaxOptionContracts limits \/ exempted) /\
  (dr_StrategyGroup draft = None ->
    (0 <= b -> b + signedQuantity draft < 0 -> belowZeroPermitted limits draft b) /\
    (EqualFold (TrimSpace secType) "FUT" = true ->
       isIndexFutureContract (dr_Contract draft) = true /\ b <= 0 /\ b + signedQuantity draft <= 0) /\
    (IsBillOrBond secType = true -> dr_Action draft = OrderActionBuy -> exists terms, dr_Bond draft = Some terms /\
       CheckBondMaturity limits (bt_Maturity terms) (if IsZero (lf_AsOf limits) then now else lf_AsOf limits) = Ok tt)).
Proof.
  intros Hw Hcap Hhedge position secType exempted H.
  destruct (admitted_caps _ _ _ _ _ _ _ _ _ _ _ _ _ _ Hw Hcap Hhedge H) as (H1 & H2 & H3).
  split_and!; [done.. |]. intros Hg. exact (admitted_side _ _ _ _ _ _ _ _ _ _ _ _ _ _ Hw Hhedge H Hg).
Qed.

(** A sale of 60 of 70 shares for 9,000 EUR under a cap of 12,000. *)
Definition limits_in_force : OrderLimitsInForce :=
  zero_InForce <| lf_Complete := true |> <| lf_BaseCurrency := "EUR" |> <| lf_CapBase := f_of_Z 12000 |> <| lf_MaxOptionContracts := 10 |>.
Definition sale_notional : orderNotionalAuthority :=
  mkNotional (f_of_Z 9000) "EUR" (f_of_Z 9000) "EUR" (f_of_Z 1) 5 "" orderFXSourceIdentity.
Definition eur_sale : OrderDraft :=
  sale_draft <| dr_Contract := mkContractParams 265598 "SAP" "STK" "" "" "" "EUR" "" "" "" f0 "" 0 f0 |>.

Lemma admitted_order_is_within_its_limits_witness :
  lf_Complete limits_in_force = true /\
  ((nt_BaseNotional sale_notional <=f lf_CapBase limits_in_force) = true \/
   capExemption eur_sale 70 (impactOn eur_sale 70 f0 0) limits_in_force sale_notional unavailableInventory noDeltaEvidence).
Proof.
  destruct (admitted_order_is_within_its_limits (fun _ => "") (fun _ => "") (fun _ => "") map_to_list 9 limits_in_force eur_sale 70 f0 0
    sale_notional "EUR" unavailableInventory noDeltaEvidence) as (H1 & H2 & _);
    [split; vm_compute; done | vm_compute; reflexivity | vm_compute; reflexivity | vm_compute; reflexivity | split; [exact H1 | exact H2]].
Defined.
