(* ===== verification/StopGuard.v ===== *)
(** * The protective stop guard

    src/internal/daemon/protective_stop_guard.go (the plan of one pass, the pass
    itself, the step it acts on and the grant it holds), stock_entry_stop_capacity.go
    (the capacity attached stops share) and protective_stop_guard_trading.go (the
    write of one step).  The positions, inventory and views of a pass are arguments,
    and so are the mandates of the queue, the order in which Go ranges over a map and
    fmt's "%.4g".  Proved: a step is acted on only after it was planned on every pass
    of the last twenty seconds; a planned change is one of Canary's own stops and,
    on whole quantities, leaves it no larger than the free part of the position. *)

From stdpp Require Import base decidable list strings gmap.
From Stdlib Require Import ZArith Lia Ascii String SpecFloat.
From S2P Require Import Prelude Floats OrderTypes OrderStatus BrokerScope Protective Reconcile WriteGate PlaceOrderProto PreviewToken.
From S2P Require Import WriteDraft WorkingOrders PositionEvidence.

(** ** Which orders, and of what *)

Definition protectiveStopGuardSettle : Z := 20 * Second.

Definition stepKey (st : protectiveStopGuardStep) : string :=
  say [gs_Kind st; "|"; Itoa (b_PermID (gs_Order st)); "|"; Itoa (b_OrderID (gs_Order st)); "|"; v_OrderRef (gs_View st); "|"; Itoa (gs_Target st)].

Definition protectiveStopGuardOrder (order : OrderLifecycleEvent) : bool :=
  let secType := TrimSpace (b_SecType order) in
  if (secType <>s "") && negb (isStockLikeRiskSecType secType) && negb (EqualFold secType "OPT") then false
  else EqualFold (TrimSpace (b_Action order)) OrderActionSell && isProtectiveStopOrderType (b_OrderType order).

(** [cmp.Or] *)
Definition orZ (a b : Z) : Z := if a =? 0 then b else a.
Definition orS (a b : string) : string := if a =s "" then b else a.

Definition protectiveStopGuardContract (row : brokerWorkingOrder) : ContractParams :=
  let o := bw_Order row in
  let secType := ToUpper (TrimSpace (b_SecType o)) in
  let '(conID, symbol, secType, currency) :=
    match journalRow row with
    | Some v => (orZ (b_ConID o) (v_ConID v), orS (b_Symbol o) (v_Symbol v), orS secType (ToUpper (TrimSpace (v_SecType v))),
                 orS (b_Currency o) (v_Currency v))
    | None => (b_ConID o, b_Symbol o, secType, b_Currency o)
    end in
  mkContractParams conID symbol (if negb (EqualFold secType "OPT") then "STK" else secType) "" "" "" currency "" "" (b_Expiry o)
    (b_Strike o) (b_Right o) (b_Multiplier o) f0.

Definition protectiveStopGuardGroup (row : brokerWorkingOrder) : string :=
  let group := TrimSpace (b_OcaGroup (bw_Order row)) in
  if group <>s "" then group else match journalRow row with Some v => TrimSpace (v_OCAGroup v) | None => "" end.

Definition protectiveStopGuardCommitted (working : list brokerWorkingOrder) (stop : brokerWorkingOrder) (contract : ContractParams)
    (scope : brokerStateScope) : float64 :=
  let group := protectiveStopGuardGroup stop in
  fold_left (fun total row =>
    let order := bw_Order row in
    let own := match journalRow row, journalRow stop with Some v, Some s => sameRow v s | _, _ => false end in
    if negb (protectiveStopGuardCanaryPlaced (journalRow row) scope) || own then total
    else if negb (EqualFold (TrimSpace (b_Action order)) OrderActionSell) || isProtectiveStopOrderType (b_OrderType order) ||
            negb (sameContract (brokerOrderIdentity order) contract) then total
    else
      let linked := protectiveStopGuardGroup row in
      if (linked <>s "") && (linked =s group) then total else fadd total (brokerOrderRemaining order))
    working f0.

(** ** The capacity attached stops share *)

Record capacityClaim := mkClaim { cc_key : string; cc_stop : float64; cc_sale : float64; cc_added : bool; cc_id : Z }.

Definition claimKey (r : brokerWorkingOrder) : string :=
  let o := bw_Order r in
  let g := TrimSpace (b_OcaGroup o) in
  if (g <>s "") && (b_OcaType o =? 2) && negb (bw_Unseen r) then String.append "oca:" g
  else say ["order:"; Itoa (b_ClientID o); ":"; Itoa (b_OrderID o); ":"; b_OrderRef o].

Definition isAdded (r : brokerWorkingOrder) : bool :=
  match journalRow r with Some v => present (v_EntryLink v) | None => false end.
Definition heldChild (r : brokerWorkingOrder) : bool :=
  match journalRow r with Some v => present (v_EntryLink v) && (v_EntryState v =s "held") | None => false end.

Definition joinClaim (r : brokerWorkingOrder) (protective : bool) (g : capacityClaim) : capacityClaim :=
  let q := brokerOrderRemaining (bw_Order r) in
  if protective
  then mkClaim (cc_key g) (mathMax (cc_stop g) q) (cc_sale g) (cc_added g && isAdded r) (Z.min (cc_id g) (b_OrderID (bw_Order r)))
  else mkClaim (cc_key g) (cc_stop g) (mathMax (cc_sale g) q) (cc_added g) (cc_id g).

(** The groups map, as the list of its claims in the order they appear. *)
Fixpoint addClaim (r : brokerWorkingOrder) (protective : bool) (groups : list capacityClaim) : list capacityClaim :=
  match groups with
  | [] => [joinClaim r protective (mkClaim (claimKey r) f0 f0 true (b_OrderID (bw_Order r)))]
  | g :: rest => if cc_key g =s claimKey r then joinClaim r protective g :: rest else g :: addClaim r protective rest
  end.

Definition claimsStep (contract : ContractParams) (scope : brokerStateScope) (acc : list capacityClaim * bool) (r : brokerWorkingOrder)
    : list capacityClaim * bool :=
  let '(groups, hasAdded) := acc in
  let o := bw_Order r in
  if negb (sameContract (brokerOrderIdentity o) contract) || negb (EqualFold (b_Action o) "SELL") then acc
  else
    let protective := protectiveStopGuardOrder o in
    if negb protective && negb (protectiveStopGuardCanaryPlaced (journalRow r) scope) then acc
    else if heldChild r then (groups, true)
    else (addClaim r protective groups, hasAdded || isAdded r).

Definition claimBefore (a b : capacityClaim) : bool :=
  if negb (Bool.eqb (cc_added a) (cc_added b)) then negb (cc_added a)
  else if negb (cc_id a =? cc_id b) then cc_id a <? cc_id b
  else String.leb (cc_key a) (cc_key b).

Fixpoint allotClaims (target : string) (available : float64) (claims : list capacityClaim) : float64 :=
  match claims with
  | [] => f0
  | g :: rest =>
      let extra := mathMax f0 (fsub (cc_stop g) (cc_sale g)) in
      let allotted := mathMin extra (mathMax f0 available) in
      if cc_key g =s target then fadd (cc_sale g) allotted else allotClaims target (fsub available allotted) rest
  end.

Section Guard.
(** The order in which Go ranges over the groups map; fmt's "%.4g"; the mandates. *)
Context (rangeGroups : list capacityClaim -> list capacityClaim) (formatG : float64 -> string) (mandates : string -> bool).

(** attachedStopCapacity: [None] without an added lot. *)
Definition attachedStopCapacity (working : list brokerWorkingOrder) (target : brokerWorkingOrder) (contract : ContractParams)
    (scope : brokerStateScope) (held : float64) : option float64 :=
  let '(groups, hasAdded) := fold_left (claimsStep contract scope) working ([], false) in
  if negb hasAdded then None
  else
    let claims := rangeGroups groups in
    let available := fold_left (fun available g => fsub available (cc_sale g)) claims held in
    Some (allotClaims (claimKey target) available (stable_sort claimBefore claims)).

(** ** The plan of one pass *)

Definition trailOf (order : OrderLifecycleEvent) (view : OrderView) : OrderView :=
  match v_Trail view with
  | Some t => view <| v_Trail := Some (t <| t_InitialStopPrice := b_TrailStopPrice order |>) |>
  | None => view
  end.

(** The broker's ratchet is current: a trail whose stop has not fallen below the row's. *)
Definition ratchetCurrent (order : OrderLifecycleEvent) (view : OrderView) : bool :=
  isTrailOrderType (v_OrderType view) &&
  match v_Trail view with
  | Some t => positiveFinite (b_TrailStopPrice order) && negb (b_TrailStopPrice order <f t_InitialStopPrice t)
  | None => false
  end.

Definition ratchetKept (order : OrderLifecycleEvent) (view : OrderView) : bool :=
  isTrailOrderType (v_OrderType view) &&
  match v_Trail view with
  | Some t => positiveFinite (b_TrailStopPrice order) && (b_TrailStopPrice order >=f t_InitialStopPrice t)
  | None => false
  end.

Definition sameWhenSet (p : option float64) (v : float64) : bool := match p with Some x => v =f x | None => true end.
Definition trailUnchanged (order : OrderLifecycleEvent) (view : OrderView) : bool :=
  (b_TIF order =s v_TIF view) && (b_TriggerMethod order =? v_TriggerMethod view) && Bool.eqb (b_OutsideRth order) (v_OutsideRTH view) &&
  match v_Trail view with
  | Some t => sameWhenSet (t_TrailingPercent t) (b_TrailingPercent order) && sameWhenSet (t_TrailingAmount t) (b_AuxPrice order) &&
              sameWhenSet (t_LimitOffset t) (b_LmtPriceOffset order)
  | None => true
  end.

(** What the position, the committed sales and the attached lots leave the stop:
    the headroom and the committed quantity. *)
Definition stopHeadroom (working : list brokerWorkingOrder) (row : brokerWorkingOrder) (contract : ContractParams)
    (scope : brokerStateScope) (position : float64) : float64 * float64 :=
  let committed := protectiveStopGuardCommitted working row contract scope in
  let headroom := fsub position committed in
  match attachedStopCapacity working row contract scope position with
  | Some allocated => let headroom := mathMin headroom allocated in (headroom, mathMax f0 (fsub position headroom))
  | None => (headroom, committed)
  end.

(** The correction of one stop against its headroom; [step] carries the order, the row,
    the position, the remaining and the committed quantities. *)
Definition correctStop (row : brokerWorkingOrder) (scope : brokerStateScope) (units : string) (headroom : float64)
    (step : protectiveStopGuardStep) : option protectiveStopGuardStep :=
  let order := gs_Order step in
  let view := gs_View step in
  let position := gs_Position step in
  let remaining := gs_Remaining step in
  let committed := gs_Committed step in
  let held := if committed >f f0
              then say [formatG position; " "; units; " are held and Canary's own sale of "; formatG committed; " is working beside it"]
              else say [formatG position; " "; units; " are held"] in
  let follows := mandates (v_OrderRef view) in
  if (fadd headroom tolerance >=f remaining) && (negb follows || (fabs (fsub headroom remaining) <f tolerance)) then None
  else if negb (protectiveStopGuardCanaryPlaced (journalRow row) scope)
  then Some (step <| gs_Kind := protectiveStopGuardReport |>
                  <| gs_Reason := say ["a sell stop Canary did not place would sell "; formatG remaining; " "; units; " while "; held;
                                       "; it is yours to change"] |>)
  else if Floor (fadd headroom tolerance) <f f_of_Z 1
  then Some (step <| gs_Kind := protectiveStopGuardCancel |>
                  <| gs_Reason := say [held; ", so the stop for "; formatG remaining; " would sell what is not there; cancelling it"] |>)
  else if follows && ((committed =f f0) || (fadd position tolerance <f remaining)) then
    if negb (ratchetCurrent order view) || negb (Trunc position =f position) || negb (Trunc (v_Filled view) =f v_Filled view) then None
    else if negb (trailUnchanged order view) then None
    else Some (step <| gs_View := trailOf order view |> <| gs_Kind := protectiveStopGuardResize |> <| gs_Target := int_of_float position |>
                    <| gs_Reason := say ["full-position protection follows "; formatG position; " "; units; " without changing its trail"] |>)
  else
    let target := int_of_float (Floor (fadd headroom tolerance)) in
    Some (step <| gs_View := if follows && ratchetKept order view then trailOf order view else view |>
               <| gs_Kind := protectiveStopGuardShrink |> <| gs_Target := target |>
               <| gs_Reason := say [held; ", so the stop for "; formatG remaining; " is shrunk to "; Itoa target] |>).

Definition emptyStep (order : OrderLifecycleEvent) (view : OrderView) : protectiveStopGuardStep :=
  mkGuardStep "" order view f0 f0 f0 0 "".

(** The body of planProtectiveStopGuard's loop. *)
Definition planRow (working : list brokerWorkingOrder) (positions : list (option RawPosition)) (scope : brokerStateScope)
    (row : brokerWorkingOrder) : option protectiveStopGuardStep :=
  let order := bw_Order row in
  let view := default zero_OrderView (journalRow row) in
  if bw_Unseen row || negb (protectiveStopGuardOrder order) then None
  else if isAdded row && (v_EntryState view <>s "active") then
    if v_EntryState view <>s "held"
    then Some ((emptyStep order view) <| gs_Kind := protectiveStopGuardReport |>
                 <| gs_Reason := "Attached stop activation is unconfirmed; reconcile the original entry and child before changing protection" |>)
    else None
  else
    let remaining := brokerOrderRemaining order in
    if remaining <=f f0 then None
    else
      let contract := protectiveStopGuardContract row in
      match exactRiskPositionQuantity positions contract with
      | Err _ => None
      | Ok position =>
          let '(headroom, committed) := stopHeadroom working row contract scope position in
          correctStop row scope (positionUnits (cp_SecType contract)) headroom
            ((emptyStep order view) <| gs_Position := position |> <| gs_Remaining := remaining |> <| gs_Committed := committed |>)
      end.

Definition planProtectiveStopGuard (working : list brokerWorkingOrder) (positions : list (option RawPosition)) (scope : brokerStateScope)
    : list protectiveStopGuardStep :=
  stable_sort (fun a b => String.leb (stepKey a) (stepKey b)) (omap (planRow working positions scope) working).

(** protectiveStopGuardPositions: the projection of the session, if it is current. *)
Definition protectiveStopGuardPositions (scope : brokerStateScope) (now : time) (projection : option PortfolioProjectionBinding)
    (sessionCurrent : bool) : option (list (option RawPosition)) :=
  if negb (brokerScopeConcrete scope) then None
  else match projection with
  | None => None
  | Some p =>
      if (classifyPortfolioStreamHealth scope (pb_Health p) now <>s orderIntegrityHealthCurrent) ||
         negb (cachedPositionsMatchBrokerScope (pb_Positions p) scope) || negb sessionCurrent then None
      else Some (pb_Positions p)
  end.

(** The evidence one pass reads: the position projection, the open-order inventory with
    its scope, and the views of the journal. *)
Record passEvidence := mkPassEvidence {
  pe_scope : brokerStateScope; pe_now : time; pe_projection : option PortfolioProjectionBinding; pe_sessionCurrent : bool;
  pe_inventory : option (OpenOrderSnapshot * brokerStateScope); pe_views : option (list OrderView)
}.

(** planProtectiveStopGuardPass: the steps, or why the guard cannot evaluate. *)
Definition planProtectiveStopGuardPass (e : passEvidence) : list protectiveStopGuardStep + string :=
  if negb (brokerScopeConcrete (pe_scope e)) then inr "no concrete connected account session"
  else match protectiveStopGuardPositions (pe_scope e) (pe_now e) (pe_projection e) (pe_sessionCurrent e) with
  | None => inr "the current, complete portfolio projection is unavailable"
  | Some positions =>
      match pe_inventory e with
      | None => inr "the broker's complete open-order inventory is unavailable"
      | Some (snapshot, inventoryScope) =>
          if negb (sameBrokerScope inventoryScope (pe_scope e)) then inr "the broker's complete open-order inventory is unavailable"
          else match pe_views e with
          | None => inr "the order journal is unavailable"
          | Some views =>
              let working := brokerWorkingOrders snapshot views (pe_scope e) in
              let working := (working ++ journalUnseenWorkingSales snapshot views (pe_scope e) working)%list in
              inl (planProtectiveStopGuard working positions (pe_scope e))
          end
      end
  end.
End Guard.

(** ** The pass state *)

Record protectiveStopGuardState := mkGuardState { ps_seen : gmap string time; ps_logged : gmap string string; ps_paused : string }.
#[global] Instance protectiveStopGuardState_eta : Eta protectiveStopGuardState := fun r => mkGuardState (ps_seen r) (ps_logged r) (ps_paused r).
Definition freshGuard : protectiveStopGuardState := mkGuardState ∅ ∅ "".

(** One planned step of the pass: remembered, or due once it has settled. *)
Definition seeStep (now : time) (acc : gmap string time * list protectiveStopGuardStep) (step : protectiveStopGuardStep)
    : gmap string time * list protectiveStopGuardStep :=
  let '(seen, due) := acc in
  match seen !! stepKey step with
  | None => (<[stepKey step := now]> seen, due)
  | Some first => if protectiveStopGuardSettle <=? Sub now first then (seen, (due ++ [step])%list) else (seen, due)
  end.

(** The locked part of runProtectiveStopGuard: the new state and the due steps. *)
Definition guardPass (now : time) (planned : list protectiveStopGuardStep + string) (s : protectiveStopGuardState)
    : protectiveStopGuardState * list protectiveStopGuardStep :=
  match planned with
  | inr paused => (s <| ps_seen := ∅ |> <| ps_paused := paused |>, [])
  | inl steps =>
      let '(seen, due) := fold_left (seeStep now) steps (ps_seen s, []) in
      let keys := map stepKey steps in
      let kept {A} (m : gmap string A) := filter (fun kv => kv.1 ∈ keys) m in
      (mkGuardState (kept seen) (filter (fun kv => kv.1 ∈ keys \/ seen !! kv.1 = None) (ps_logged s)) "", due)
  end.

(** protectiveStopGuardFirstLog *)
Definition protectiveStopGuardFirstLog (key reason : string) (s : protectiveStopGuardState) : protectiveStopGuardState * bool :=
  if bool_decide (ps_logged s !! key = Some reason) then (s, false)
  else (s <| ps_logged := <[key := reason]> (ps_logged s) |>, true).

(** Decision-log outcomes of the guard. *)
Inductive guardOutcome := outcomeSent | outcomeFailed | outcomeBlocked | outcomeReported.

(** applyProtectiveStopGuardStep: [blocked] is the first blocker of the write's
    authorisation and [failed] the error of the write, where there is one. *)
Definition applyProtectiveStopGuardStep (blocked failed : protectiveStopGuardStep -> option string) (step : protectiveStopGuardStep)
    (s : protectiveStopGuardState) : protectiveStopGuardState * list (guardOutcome * string) :=
  let once outcome reason :=
    let '(s, first) := protectiveStopGuardFirstLog (stepKey step) reason s in (s, if first : bool then [(outcome, reason)] else []) in
  if gs_Kind step =s protectiveStopGuardReport then once outcomeReported (gs_Reason step)
  else match blocked step with
  | Some why => once outcomeBlocked (say [gs_Reason step; "; not done: "; why])
  | None =>
      match failed step with
      | Some why => once outcomeFailed (say [gs_Reason step; "; failed: "; why])
      | None => (s <| ps_seen := delete (stepKey step) (ps_seen s) |> <| ps_logged := delete (stepKey step) (ps_logged s) |>,
                 [(outcomeSent, gs_Reason step)])
      end
  end.

(** A pass: its clock, its plan and what the writes of its due steps meet. *)
Record guardRound := mkRound {
  gr_now : time; gr_planned : list protectiveStopGuardStep + string; gr_blocked : protectiveStopGuardStep -> option string;
  gr_failed : protectiveStopGuardStep -> option string
}.

(** runProtectiveStopGuard: the due steps of the pass, and the decisions it records. *)
Definition runProtectiveStopGuard (s : protectiveStopGuardState) (r : guardRound)
    : protectiveStopGuardState * list protectiveStopGuardStep * list (guardOutcome * string) :=
  let '(s, due) := guardPass (gr_now r) (gr_planned r) s in
  let '(s, log) := fold_left (fun acc step =>
    let '(s, log) := acc in
    let '(s, more) := applyProtectiveStopGuardStep (gr_blocked r) (gr_failed r) step s in (s, (log ++ more)%list)) due (s, []) in
  (s, due, log).

(** ** Writing one step *)

(** protectiveStopGuardWrite up to the write path: the step replanned under the write
    lock and the grant it holds, or why nothing is written. *)
Definition protectiveStopGuardRecheck (replanned : list protectiveStopGuardStep + string) (step : protectiveStopGuardStep)
    : result string (protectiveStopGuardStep * stopGuardGrant) :=
  match replanned with
  | inr paused => Err paused
  | inl steps =>
      match List.find (fun current => String.eqb (stepKey current) (stepKey step)) steps with
      | None => Err "the step no longer applies to current evidence"
      | Some current =>
          let view := gs_View current in
          Ok (current, mkGrant (gs_Kind current) (v_OrderRef view) (v_ReservedOrderID view) (gs_Target current) (v_Filled view)
                         (gs_Position current) (v_Trail view))
      end
  end.

(** protectiveStopGuardGrantCovers; [mandated]: a live mandate names the row. *)
Definition protectiveStopGuardGrantCovers (grant : option stopGuardGrant) (mandated : bool) (origin kind : string) (view : OrderView)
    (quantity : Z) : wres unit :=
  if origin <>s OrderOriginDaemonProtectiveGuard then Ok tt
  else if present (v_EntryLink view) && (v_EntryState view <>s "active")
  then tradingDisabled ["attached entry stop activation is unconfirmed; automatic changes wait for the pair to resolve"]
  else if (kind =s protectiveStopGuardShrink) && match grant with Some g => gg_Kind g =s protectiveStopGuardResize | None => false end
  then if fullPositionResizeGranted grant mandated view quantity then Ok tt
       else tradingDisabled ["full-position resize mandate is no longer current"]
  else if match grant with
          | None => true
          | Some g => (gg_Kind g <>s kind) || (gg_OrderRef g <>s v_OrderRef view) || negb (gg_ReservedOrderID g =? v_ReservedOrderID view) ||
                      ((kind =s protectiveStopGuardShrink) &&
                       (negb (gg_Quantity g =? quantity) || (f_of_Z quantity >=f orderViewRemainingQuantity view)))
          end
  then tradingDisabled ["the protective stop guard holds no grant for this order change"]
  else Ok tt.

(** ** A step settles before it is acted on *)

Definition plannedIn (k : string) (r : guardRound) : Prop :=
  match gr_planned r with inl steps => k ∈ map stepKey steps | inr _ => False end.

Definition guardAfter (rounds : list guardRound) : protectiveStopGuardState :=
  fold_left (fun s r => (runProtectiveStopGuard s r).1.1) rounds freshGuard.

Lemma see_steps now steps seen due :
  let '(seen', due') := fold_left (seeStep now) steps (seen, due) in
  (forall k t, seen' !! k = Some t -> seen !! k = Some t \/ (seen !! k = None /\ t = now)) /\
  (forall step, step ∈ due' -> step ∈ due \/
     (step ∈ steps /\ exists first, seen !! stepKey step = Some first /\ protectiveStopGuardSettle <= Sub now first)).
Proof.
  revert seen due. induction steps as [|x steps IH]; intros seen due; cbn [fold_left]; [by eauto|].
  unfold seeStep at 2. destruct (seen !! stepKey x) as [first|] eqn:E.
  - assert (Hsub : forall due0, (let '(seen', due') := fold_left (seeStep now) steps (seen, due0) in
      (forall k t, seen' !! k = Some t -> seen !! k = Some t \/ (seen !! k = None /\ t = now)) /\
      (forall step, step ∈ due' -> step ∈ due0 \/ (step ∈ x :: steps /\ exists first, seen !! stepKey step = Some first /\
         protectiveStopGuardSettle <= Sub now first)))).
    { intros due0. specialize (IH seen due0). destruct (fold_left _ _ _) as [seen' due']. destruct IH as [H1 H2]. split; [done|].
      intros step [H|[Hin H]]%H2; [by left | right; split; [by right | done]]. }
    destruct (Z.leb_spec protectiveStopGuardSettle (Sub now first)); [|apply Hsub].
    specialize (Hsub (due ++ [x])%list). destruct (fold_left _ _ _) as [seen' due']. destruct Hsub as [H1 H2]. split; [done|].
    intros step [[H'| ->%list_elem_of_singleton]%elem_of_app|H']%H2; [by left | | by right]. right. split; [by left | eauto].
  - specialize (IH (<[stepKey x := now]> seen) due). destruct (fold_left _ _ _) as [seen' due']. destruct IH as [H1 H2]. split.
    + intros k t [H|[H ->]]%H1; [|apply lookup_insert_None in H as [H _]; by right].
      apply lookup_insert_Some in H as [[<- <-]|[_ H]]; [by right | by left].
    + intros step [H|(Hin & first & H & Hs)]%H2; [by left|]. right. split; [by right|]. exists first. split; [|done].
      apply lookup_insert_Some in H as [[_ <-]|[_ H]]; [|done]. exfalso.
      unfold protectiveStopGuardSettle, Sub in Hs. rewrite Z.sub_diag in Hs. vm_compute in Hs. by apply Hs.
Qed.

Lemma first_log_seen key reason s : ps_seen (protectiveStopGuardFirstLog key reason s).1 = ps_seen s.
Proof. unfold protectiveStopGuardFirstLog. by destruct (bool_decide _). Qed.

Lemma apply_step_seen blocked failed step s : ps_seen (applyProtectiveStopGuardStep blocked failed step s).1 ⊆ ps_seen s.
Proof.
  unfold applyProtectiveStopGuardStep. cbv zeta.
  assert (Honce : forall (outcome : guardOutcome) reason, ps_seen (let '(s, first) := protectiveStopGuardFirstLog (stepKey step) reason s in
    (s, if first : bool then [(outcome, reason)] else [])).1 ⊆ ps_seen s).
  { intros outcome reason. assert (E := first_log_seen (stepKey step) reason s).
    destruct (protectiveStopGuardFirstLog _ _ _) as [s1 first]. cbn [fst] in *. by rewrite E. }
  destruct (gs_Kind step =s protectiveStopGuardReport); [apply Honce|]. destruct (blocked step); [apply Honce|].
  destruct (failed step); [apply Honce|]. apply delete_subseteq.
Qed.

Lemma apply_steps_seen blocked failed due : forall s log,
  ps_seen (fold_left (fun acc step => let '(s, log) := acc in
    let '(s, more) := applyProtectiveStopGuardStep blocked failed step s in (s, (log ++ more)%list)) due (s, log)).1 ⊆ ps_seen s.
Proof.
  induction due as [|step due IH]; intros s log; cbn [fold_left]; [done|].
  assert (H := apply_step_seen blocked failed step s). destruct (applyProtectiveStopGuardStep _ _ _ _) as [s1 more].
  etransitivity; [apply IH | exact H].
Qed.

(** What a round leaves remembered, and what it finds due. *)
Lemma round_facts s r : let '(s', due, _) := runProtectiveStopGuard s r in
  (forall k t, ps_seen s' !! k = Some t -> plannedIn k r /\ (ps_seen s !! k = Some t \/ t = gr_now r)) /\
  (forall step, step ∈ due -> plannedIn (stepKey step) r /\
     exists first, ps_seen s !! stepKey step = Some first /\ protectiveStopGuardSettle <= Sub (gr_now r) first).
Proof.
  unfold runProtectiveStopGuard, guardPass, plannedIn. destruct (gr_planned r) as [steps|paused].
  - assert (Hsee := see_steps (gr_now r) steps (ps_seen s) []). destruct (fold_left (seeStep _) _ _) as [seen due].
    destruct Hsee as [H1 H2].
    set (s1 := mkGuardState _ _ _). assert (Hsub := apply_steps_seen (gr_blocked r) (gr_failed r) due s1 []).
    destruct (fold_left _ due (s1, [])) as [s2 log]. cbn [fst] in Hsub. split.
    + intros k t Hk. eapply lookup_weaken in Hk; [|exact Hsub]. subst s1. cbn [ps_seen] in Hk.
      apply map_lookup_filter_Some in Hk as [Hk Hin]. split; [done|]. destruct (H1 k t Hk) as [?|[_ ?]]; auto.
    + intros step [Hnil|(Hin & Hfirst)]%H2; [by apply elem_of_nil in Hnil|]. split; [by apply list_elem_of_fmap_2 | done].
  - cbn. split; [intros k t Hk; by rewrite lookup_empty in Hk | intros step Hin; by apply elem_of_nil in Hin].
Qed.

(** The remembered time is that of a round since which every round planned the step. *)
Lemma seen_since rounds k t : ps_seen (guardAfter rounds) !! k = Some t ->
  exists before r since, rounds = (before ++ r :: since)%list /\ gr_now r = t /\ Forall (plannedIn k) (r :: since).
Proof.
  revert t. induction rounds as [|r rounds IH] using rev_ind; intros t; unfold guardAfter; [intros H; cbn [fold_left freshGuard ps_seen] in H; by rewrite lookup_empty in H|].
  rewrite fold_left_app. fold (guardAfter rounds). cbn [fold_left]. assert (Hr := round_facts (guardAfter rounds) r).
  destruct (runProtectiveStopGuard _ r) as [[s' due] log]. destruct Hr as [H1 _]. intros Hk.
  apply H1 in Hk as [Hp [Hold| ->]].
  - apply IH in Hold as (before & q & since & -> & <- & HF). exists before, q, (since ++ [r])%list.
    split; [by rewrite <- app_assoc|]. split; [done|]. rewrite app_comm_cons. apply Forall_app. split; [done|]. by repeat constructor.
  - exists rounds, r, []. split_and!; [done..|]. by repeat constructor.
Qed.

(** The guard acts on a step only after it has settled: in any sequence of
    passes, a step that is due in a pass was planned, under the same key, on an
    earlier pass at least twenty seconds before, on every pass since and on this one,
    and none of them was paused for want of evidence. *)
Theorem guard_step_settles_before_it_is_due rounds r step :
  step ∈ (runProtectiveStopGuard (guardAfter rounds) r).1.2 ->
  exists before first since, rounds = (before ++ first :: since)%list /\
    protectiveStopGuardSettle <= Sub (gr_now r) (gr_now first) /\
    Forall (plannedIn (stepKey step)) (first :: since ++ [r])%list.
Proof.
  assert (Hr := round_facts (guardAfter rounds) r). destruct (runProtectiveStopGuard _ r) as [[s' due] log]. destruct Hr as [_ H2].
  cbn [fst snd]. intros Hin. apply H2 in Hin as (Hp & first & Hseen & Hs).
  apply seen_since in Hseen as (before & q & since & -> & <- & HF). exists before, q, since. split_and!; [done..|].
  rewrite app_comm_cons. apply Forall_app. split; [done|]. by repeat constructor.
Qed.

(** A shrink planned at 1 s, 15 s and 25 s is due on the third pass. *)
Definition guard_step : protectiveStopGuardStep :=
  mkGuardStep protectiveStopGuardShrink (zero_OrderLifecycleEvent <| b_OrderID := 7 |>) (zero_OrderView <| v_OrderRef := "stop-a" |>)
    (f_of_Z 40) (f_of_Z 70) f0 40 "".
Definition guard_round (seconds : Z) : guardRound := mkRound (seconds * Second) (inl [guard_step]) (fun _ => None) (fun _ => None).

Lemma guard_step_settles_before_it_is_due_witness :
  (runProtectiveStopGuard (guardAfter [guard_round 1; guard_round 15]) (guard_round 25)).1.2 = [guard_step] /\
  exists before first since, [guard_round 1; guard_round 15] = (before ++ first :: since)%list /\
    protectiveStopGuardSettle <= Sub (gr_now (guard_round 25)) (gr_now first) /\
    Forall (plannedIn (stepKey guard_step)) (first :: since ++ [guard_round 25])%list.
Proof.
  split; [vm_compute; reflexivity|].
  apply (guard_step_settles_before_it_is_due [guard_round 1; guard_round 15] (guard_round 25) guard_step).
  vm_compute. by left.
Defined.

(** ** A planned change fits the free part of the position *)

(** The quantities of a stop are whole: the position [p], the committed sales [c],
    what is left for the stop [r], and its share [a] of the attached lots' capacity. *)
Record wholeStop rangeGroups (working : list brokerWorkingOrder) (positions : list (option RawPosition)) (scope : brokerStateScope)
    (row : brokerWorkingOrder) (p c r : Z) (a : option Z) : Prop := mkWholeStop {
  st_position : exactRiskPositionQuantity positions (protectiveStopGuardContract row) = Ok (f_of_Z p);
  st_committed : protectiveStopGuardCommitted working row (protectiveStopGuardContract row) scope = f_of_Z c;
  st_capacity : attachedStopCapacity rangeGroups working row (protectiveStopGuardContract row) scope (f_of_Z p) = option_map f_of_Z a;
  st_remaining : brokerOrderRemaining (bw_Order row) = f_of_Z r;
  st_bounds : - 2 ^ 51 < p < 2 ^ 51 /\ 0 <= c < 2 ^ 51 /\ 0 < r < 2 ^ 51 /\ match a with Some a => 0 <= a < 2 ^ 51 | None => True end
}.

(** What the stop may sell: the position less the committed sales, and no more than
    its share. *)
Definition freePart (p c : Z) (a : option Z) : Z := match a with Some a => Z.min (p - c) a | None => p - c end.

Lemma headroom_int rangeGroups working positions scope row p c r a : wholeStop rangeGroups working positions scope row p c r a ->
  (stopHeadroom rangeGroups working row (protectiveStopGuardContract row) scope (f_of_Z p)).1 = f_of_Z (freePart p c a) /\
  - 2 ^ 52 < freePart p c a < 2 ^ 52.
Proof.
  intros [_ Hc Ha _ (Bp & Bc & _ & Ba)]. unfold stopHeadroom. rewrite Hc, Ha, fsub_int by (unfold int53; lia).
  destruct a as [a|]; cbn [option_map fst freePart]; [|split; [done | lia]].
  rewrite mathMin_int by (unfold int53; lia). split; [done | lia].
Qed.

(** [math.Floor(h + 1e-9) < 1] on whole numbers. *)
Lemma floor_below_one h : - 2 ^ 52 < h < 2 ^ 52 -> (Floor (fadd (f_of_Z h) tolerance) <f f_of_Z 1) = (h <=? 0).
Proof.
  intros H. destruct (Z.ltb_spec h 0) as [L|L].
  - destruct (negative_plus_tolerance h) as (x & -> & _ & _ & ->); [lia|]. symmetry. apply Z.leb_le. lia.
  - rewrite floor_count, fltb_int by (unfold count, int53; lia). destruct (Z.ltb_spec h 1), (Z.leb_spec h 0); lia || reflexivity.
Qed.

(** [h + 1e-9 >= r] on whole numbers. *)
Lemma tolerant_ge_int h r : - 2 ^ 52 < h < 2 ^ 52 -> 0 < r < 2 ^ 52 -> (f_of_Z r <=f fadd (f_of_Z h) tolerance) = (r <=? h).
Proof.
  intros H Hr. destruct (Z.ltb_spec h 0) as [L|L]; [|apply tolerant_ge; unfold count; lia].
  destruct (negative_plus_tolerance h) as (x & -> & Hn & Hrank & _); [lia|]. replace (r <=? h) with false by (symmetry; apply Z.leb_gt; lia).
  assert (Hrn := f_of_Z_number r ltac:(unfold int53; lia)). apply not_true_iff_false. rewrite (fleb_below _ _ Hrn Hn).
  destruct r as [|r|r]; [lia| |lia]. rewrite f_of_Z_pos by lia. unfold floatBelow, floatSame, canonInt. cbn [floatRank]. lia.
Qed.

Section PlannedChange.
Context (rangeGroups : list capacityClaim -> list capacityClaim) (formatG : float64 -> string) (mandates : string -> bool).
Context (working : list brokerWorkingOrder) (positions : list (option RawPosition)) (scope : brokerStateScope).

(** The change a step makes to a stop of [r] with [p] held and [free] of it free. *)
Definition changeFits (follows : bool) (p free r : Z) (step : protectiveStopGuardStep) : Prop :=
  (gs_Kind step = protectiveStopGuardCancel /\ gs_Target step = 0 /\ free <= 0) \/
  (gs_Kind step = protectiveStopGuardShrink /\ gs_Target step = free /\ 0 < free /\ (follows = false -> free < r)) \/
  (gs_Kind step = protectiveStopGuardResize /\ gs_Target step = p /\ 0 < free /\ follows = true).

Lemma correct_stop_own row units h step step' :
  correctStop formatG mandates row scope units h step = Some step' -> gs_Kind step' <> protectiveStopGuardReport ->
  protectiveStopGuardCanaryPlaced (journalRow row) scope = true /\ gs_Order step' = gs_Order step.
Proof.
  unfold correctStop. intros H Hk. case_if_in H; [done|].
  destruct (protectiveStopGuardCanaryPlaced (journalRow row) scope); cbn [negb] in H; [|by injection H as <-; destruct Hk].
  split; [done|]. repeat (case_if_in H; try done); injection H as <-; done.
Qed.

Lemma correct_stop_fits row units p c h r step step' :
  correctStop formatG mandates row scope units (f_of_Z h) step = Some step' -> gs_Kind step' <> protectiveStopGuardReport ->
  gs_Position step = f_of_Z p -> gs_Committed step = c -> gs_Remaining step = f_of_Z r -> gs_Target step = 0 ->
  - 2 ^ 52 < h < 2 ^ 52 -> - 2 ^ 52 < p < 2 ^ 52 -> 0 < r < 2 ^ 52 ->
  changeFits (mandates (v_OrderRef (gs_View step))) p h r step'.
Proof.
  intros H Hk Hp _ Hr Ht Bh Bp Br. unfold correctStop in H. rewrite Hp, Hr in H. rewrite tolerant_ge_int in H by done.
  destruct (_ && _) eqn:Efit; [done|].
  destruct (protectiveStopGuardCanaryPlaced (journalRow row) scope); cbn [negb] in H; [|by injection H as <-; destruct Hk].
  rewrite floor_below_one in H by done. destruct (Z.leb_spec h 0) as [L|L]; [injection H as <-; left; by split_and!|].
  destruct (mandates (v_OrderRef (gs_View step)) && _) eqn:Ef.
  - apply andb_prop in Ef as [Ef _]. rewrite Ef. case_if_in H; [done|]. case_if_in H; [done|]. injection H as <-.
    rewrite int_of_f_of_Z by (unfold int53; lia). right. right. by split_and!.
  - injection H as <-. rewrite floor_count, int_of_f_of_Z by (unfold count, int53; lia).
    right. left. cbn [gs_Kind gs_Target]. split_and!; [done..|]. intros Hm. rewrite Hm in Efit.
    cbn [negb orb] in Efit. rewrite andb_true_r in Efit. lia.
Qed.

(** A row's step, and what it says of the row. *)
Lemma plan_row_fits row step : planRow rangeGroups formatG mandates working positions scope row = Some step ->
  gs_Kind step <> protectiveStopGuardReport ->
  let view := default zero_OrderView (journalRow row) in
  (gs_Order step = bw_Order row /\ bw_Unseen row = false /\ protectiveStopGuardOrder (bw_Order row) = true /\
   protectiveStopGuardCanaryPlaced (journalRow row) scope = true /\ (isAdded row = true -> v_EntryState view = "active")) /\
  forall p c r a, wholeStop rangeGroups working positions scope row p c r a ->
    changeFits (mandates (v_OrderRef view)) p (freePart p c a) r step.
Proof.
  unfold planRow. cbv zeta. destruct (bw_Unseen row); [done|]. destruct (protectiveStopGuardOrder (bw_Order row)); [|done]. cbn [negb orb].
  set (view := default zero_OrderView (journalRow row)). intros H Hk.
  destruct (isAdded row && (v_EntryState view <>s "active")) eqn:Ea.
  { case_if_in H; [injection H as <-; by destruct Hk | done]. }
  case_if_in H; [done|]. destruct (exactRiskPositionQuantity positions _) as [position|] eqn:Ep; [|done].
  destruct (stopHeadroom _ _ _ _ _ _) as [headroom committed] eqn:Eh.
  destruct (correct_stop_own _ _ _ _ _ H Hk) as [Hplaced Horder]. split.
  - split_and!; [done..|]. intros Hadd. rewrite Hadd in Ea. cbn [andb] in Ea. apply negb_false_iff in Ea. by apply String.eqb_eq.
  - intros p c r a Hw. assert (Hi := headroom_int _ _ _ _ _ _ _ _ _ Hw). destruct Hw as [Hp _ _ Hr (Bp & _ & Br & _)].
    rewrite Ep in Hp. injection Hp as ->. rewrite Eh in Hi. cbn [fst] in Hi. destruct Hi as [-> Bh].
    eapply (correct_stop_fits row _ p committed (freePart p c a) r _ step H Hk); try done; lia.
Qed.
End PlannedChange.

(** C37. Every change the guard plans is to one of Canary's own sell stops that the
    inventory shows, never to an order placed by hand, to an unseen sale or to an
    attached stop that is not confirmed active; and on whole quantities it fits what
    is held.  With the free part the position less Canary's other unlinked sales (and
    within the stop's share of the attached lots' capacity): a stop is cancelled when
    nothing is free, else shrunk to exactly the free part, below what is left of it
    unless a full-position mandate names it; a resize, to the whole position, happens
    only under a mandate. *)
Theorem planned_change_fits_the_position rangeGroups formatG mandates working positions scope step :
  step ∈ planProtectiveStopGuard rangeGroups formatG mandates working positions scope ->
  gs_Kind step <> protectiveStopGuardReport ->
  exists row, row ∈ working /\ let view := default zero_OrderView (journalRow row) in
    (gs_Order step = bw_Order row /\ bw_Unseen row = false /\ protectiveStopGuardOrder (bw_Order row) = true /\
     protectiveStopGuardCanaryPlaced (journalRow row) scope = true /\ (isAdded row = true -> v_EntryState view = "active")) /\
    forall p c r a, wholeStop rangeGroups working positions scope row p c r a ->
      changeFits (mandates (v_OrderRef view)) p (freePart p c a) r step.
Proof.
  unfold planProtectiveStopGuard. rewrite stable_sort_perm. intros (row & Hin & Hrow)%list_elem_of_omap Hk.
  exists row. split; [done|]. by eapply plan_row_fits.
Qed.

(** A trail of 70 shares with 60 held and an unlinked sale of 20 working. *)
Definition guard_scope : brokerStateScope := mkScope "DU123" "paper".
Definition guard_view (ref : string) (id : Z) : OrderView :=
  zero_OrderView <| v_OrderRef := ref |> <| v_ReservedOrderID := id |> <| v_PreviewTokenID := "t" |> <| v_Account := "DU123" |>
    <| v_Mode := "paper" |> <| v_Open := true |>.
Definition guard_order (id : Z) (orderType : string) (quantity : Z) : OrderLifecycleEvent :=
  zero_OrderLifecycleEvent <| b_OrderID := id |> <| b_ConID := 265598 |> <| b_Symbol := "AAPL" |> <| b_SecType := "STK" |>
    <| b_Currency := "USD" |> <| b_Action := "SELL" |> <| b_OrderType := orderType |> <| b_Remaining := f_of_Z quantity |>.
Definition guard_working : list brokerWorkingOrder :=
  [mkWorking (guard_order 7 "TRAIL" 70) (Some (0%nat, guard_view "stop-a" 7)) false;
   mkWorking (guard_order 8 "LMT" 20) (Some (1%nat, guard_view "sale-b" 8)) false].
Definition guard_positions : list (option RawPosition) :=
  [Some (mkRawPosition "DU123" (mkContract 265598 "AAPL" "STK" "" f0 "" "NASDAQ" "USD" "AAPL" "NMS" 1) (f_of_Z 60) f0)].
Definition guard_shrink : protectiveStopGuardStep :=
  mkGuardStep protectiveStopGuardShrink (guard_order 7 "TRAIL" 70) (guard_view "stop-a" 7) (f_of_Z 60) (f_of_Z 70) (f_of_Z 20) 40
    " shares are held and Canary's own sale of  is working beside it, so the stop for  is shrunk to 40".

Lemma guard_plan_shrinks :
  planProtectiveStopGuard (fun l => l) (fun _ => "") (fun _ => false) guard_working guard_positions guard_scope = [guard_shrink].
Proof. vm_compute. reflexivity. Qed.

Lemma guard_shrink_planned :
  guard_shrink ∈ planProtectiveStopGuard (fun l => l) (fun _ => "") (fun _ => false) guard_working guard_positions guard_scope /\
  gs_Kind guard_shrink <> protectiveStopGuardReport.
Proof. rewrite guard_plan_shrinks. split; [by left | done]. Qed.

Lemma planned_change_fits_the_position_witness :
  exists row, row ∈ guard_working /\ gs_Order guard_shrink = bw_Order row /\ protectiveStopGuardCanaryPlaced (journalRow row) guard_scope = true /\
    forall p c r a, wholeStop (fun l => l) guard_working guard_positions guard_scope row p c r a -> changeFits false p (freePart p c a) r guard_shrink.
Proof.
  destruct (planned_change_fits_the_position (fun l => l) (fun _ => "") (fun _ => false) guard_working guard_positions guard_scope guard_shrink
    (proj1 guard_shrink_planned) (proj2 guard_shrink_planned)) as (row & Hr & (Ho & _ & _ & Hp & _) & Hfit).
  exact (ex_intro _ row (conj Hr (conj Ho (conj Hp Hfit)))).
Defined.

Lemma guard_stop_whole :
  wholeStop (fun l => l) guard_working guard_positions guard_scope (mkWorking (guard_order 7 "TRAIL" 70) (Some (0%nat, guard_view "stop-a" 7)) false)
    60 20 70 None.
Proof. split; [vm_compute; reflexivity..|]. split_and!; done || lia. Qed.

(** A mandated stop of 50 with 100 held and a sale of 20 working is planned up to 80 by
    a step named a shrink, which its own grant then refuses. *)
Example mandated_stop_grows_under_the_name_of_a_shrink :
  let working := [mkWorking (guard_order 7 "TRAIL" 50) (Some (0%nat, guard_view "stop-a" 7)) false;
                  mkWorking (guard_order 8 "LMT" 20) (Some (1%nat, guard_view "sale-b" 8)) false] in
  let positions := [Some (mkRawPosition "DU123" (mkContract 265598 "AAPL" "STK" "" f0 "" "NASDAQ" "USD" "AAPL" "NMS" 1) (f_of_Z 100) f0)] in
  let mandates ref := String.eqb ref "stop-a" in
  let view := (guard_view "stop-a" 7) <| v_Remaining := f_of_Z 50 |> in
  map (fun s => (gs_Kind s, gs_Target s)) (planProtectiveStopGuard (fun l => l) (fun _ => "") mandates working positions guard_scope) = [("shrink", 80)] /\
  protectiveStopGuardGrantCovers (Some (mkGrant "shrink" "stop-a" 7 80 f0 (f_of_Z 100) None)) true OrderOriginDaemonProtectiveGuard "shrink" view 80 <> Ok tt.
Proof. split; [vm_compute; reflexivity | by vm_compute]. Qed.
