(* ===== verification/QueueRecord.v ===== *)
(** * One queued authorisation

    The record of src/internal/daemon/proposal_queue.go (an owner-signed order that
    waits for its session), its signed terms, its states, the events that journal
    its moves and the reading of a stored record; from owner_order_queue.go the
    version-2 owner orders and what the order journal proves about a send.  JSON
    with SHA-256 is an argument ([termsDigest]); a stored record is its fields and
    whether they are all this build's.

    Proved: a reason is kept within its 300 characters; the order journal's verdict on
    a version-2 send is decided by what the token's events say, in any order. *)

From stdpp Require Import base decidable list strings.
From Stdlib Require Import ZArith Lia Ascii String SpecFloat.
From S2P Require Import Prelude Floats OrderTypes OrderStatus BrokerScope CoreStore WriteGate.
From S2P Require Import OrderRisk PositionEvidence Base64.

(** ** Vocabulary *)

Definition QueuedAuthPrepared : string := "prepared".
Definition QueuedAuthArmed : string := "armed".
Definition QueuedAuthHeld : string := "held".
Definition QueuedAuthSending : string := "sending".
Definition QueuedAuthSent : string := "sent".
Definition QueuedAuthFilled : string := "filled".
Definition QueuedAuthPartiallyFilled : string := "partially_filled".
Definition QueuedAuthExpiredUnfilled : string := "expired_unfilled".
Definition QueuedAuthCancelled : string := "cancelled".
Definition QueuedAuthExpired : string := "expired".
Definition QueuedAuthFailed : string := "failed".
Definition QueuedAuthStyleBoundedLimit : string := "bounded_limit".

Definition queuedDocumentVersion : Z := 1.
Definition queuedTermsVersion : Z := 1.
Definition queuedReferencePrefix : string := "canaryqa1".
Definition queuedArmWindow : Z := 10 * Minute.
Definition queuedSendWindow : Z := Hour.
Definition queuedConcession : float64 := f_const 1 2.
Definition queuedWorstMove : float64 := f_const 1 4.
Definition queuedLateAfter : Z := 2 * Minute.
Definition queuedRetention : Z := 7 * 24 * Hour.
Definition queuedEnvelopeMaxBytes : Z := 4096.
Definition queuedIdentityMaxBytes : Z := 128.
Definition queuedReasonMaxRunes : nat := 300.

Definition queuedEventPrepared : string := "queued_auth.prepared".
Definition queuedEventArmed : string := "queued_auth.armed".
Definition queuedEventHeld : string := "queued_auth.held".
Definition queuedEventResumed : string := "queued_auth.resumed".
Definition queuedEventSending : string := "queued_auth.sending".
Definition queuedEventSent : string := "queued_auth.sent".
Definition queuedEventFilled : string := "queued_auth.filled".
Definition queuedEventPartiallyFilled : string := "queued_auth.partially_filled".
Definition queuedEventExpiredUnfilled : string := "queued_auth.expired_unfilled".
Definition queuedEventCancelled : string := "queued_auth.cancelled".
Definition queuedEventExpired : string := "queued_auth.expired".
Definition queuedEventFailed : string := "queued_auth.failed".
Definition queuedEventRecovered : string := "queued_auth.recovered".
Definition queuedEventCancelRequested : string := "queued_auth.cancel_requested".

Definition queuedReasonOwnerCancelled : string := "owner_cancelled".
Definition queuedReasonSuperseded : string := "superseded".
Definition queuedReasonNotArmed : string := "not_armed".
Definition queuedReasonWindowEnded : string := "window_ended".
Definition queuedReasonPositionChanged : string := "position_changed".
Definition queuedReasonRowGone : string := "row_gone".
Definition queuedReasonRowTermsChanged : string := "row_terms_changed".
Definition queuedReasonPolicyChanged : string := "policy_changed".
Definition queuedReasonAccountChanged : string := "account_changed".
Definition queuedReasonWhatIfRefused : string := "whatif_refused".
Definition queuedReasonSendRefused : string := "send_refused".
Definition queuedReasonSendUnclear : string := "send_outcome_unclear".
Definition queuedReasonRestartBeforeSend : string := "restart_before_send".
Definition queuedReasonRecordUnreadable : string := "record_unreadable".

Definition queuedHoldWorstPrice : string := "worst_price".
Definition queuedHoldHandOrder : string := "hand_order_working".

(** ** Data *)

(** rpc.Fingerprint, rpc.QueuedAuthQuote, rpc.QueuedOwnerOrder, rpc.QueuedAuthTerms *)
Record Fingerprint := mkFingerprint { fp_Version : string; fp_Key : string }.
#[global] Instance Fingerprint_eq_dec : EqDecision Fingerprint.
Proof. solve_decision. Defined.

Record QueuedAuthQuote := mkQueuedQuote {
  qq_Bid : option float64; qq_Ask : option float64; qq_SpreadPct : option float64; qq_DataType : string; qq_AsOf : time
}.

Record QueuedOwnerOrder := mkOwnerOrder {
  oo_OrderType : string; oo_Trail : option OrderTrailSpec; oo_TriggerMethod : Z; oo_OutsideRTH : bool;
  oo_AdaptivePriority : string; oo_FullPosition : bool; oo_Add : bool
}.
#[global] Instance ownerOrder_eta : Eta QueuedOwnerOrder := fun r => mkOwnerOrder
  (oo_OrderType r) (oo_Trail r) (oo_TriggerMethod r) (oo_OutsideRTH r) (oo_AdaptivePriority r) (oo_FullPosition r)
  (oo_Add r).

Record QueuedAuthTerms := mkTerms {
  qt_Version : Z; qt_OwnerOrder : option QueuedOwnerOrder; qt_QueueID : string; qt_AccountID : string;
  qt_AccountMode : string; qt_Key : string; qt_Bucket : string; qt_RevisionAtQueue : string;
  qt_Contract : ContractParams; qt_Action : string; qt_PositionEffect : string; qt_PositionQuantity : float64;
  qt_MaxQuantity : Z; qt_Style : string; qt_Concession : float64; qt_WorstPrice : float64; qt_ReferenceMark : float64;
  qt_ReferenceMarkAt : time; qt_MaxSpreadPctOfMid : float64; qt_Currency : string; qt_Market : string;
  qt_SessionDate : string; qt_NotBefore : time; qt_NotAfter : time; qt_TIF : string; qt_ArmDeadline : time;
  qt_RowTermsDigest : string; qt_PolicyFingerprint : Fingerprint; qt_RulebookFingerprint : Fingerprint
}.
#[global] Instance terms_eta : Eta QueuedAuthTerms := fun r => mkTerms
  (qt_Version r) (qt_OwnerOrder r) (qt_QueueID r) (qt_AccountID r) (qt_AccountMode r) (qt_Key r) (qt_Bucket r)
  (qt_RevisionAtQueue r) (qt_Contract r) (qt_Action r) (qt_PositionEffect r) (qt_PositionQuantity r)
  (qt_MaxQuantity r) (qt_Style r) (qt_Concession r) (qt_WorstPrice r) (qt_ReferenceMark r) (qt_ReferenceMarkAt r)
  (qt_MaxSpreadPctOfMid r) (qt_Currency r) (qt_Market r) (qt_SessionDate r) (qt_NotBefore r) (qt_NotAfter r)
  (qt_TIF r) (qt_ArmDeadline r) (qt_RowTermsDigest r) (qt_PolicyFingerprint r) (qt_RulebookFingerprint r).

(** A stored record; [qa_problem] is never persisted. *)
Record queuedAuthRecord := mkQueued {
  qa_BrokerAcceptedAt : time; qa_MandateEndedAt : time; qa_Version : Z; qa_ReferenceHash : string;
  qa_Terms : QueuedAuthTerms; qa_TermsDigest : string; qa_ContractSide : string; qa_State : string; qa_Seq : Z;
  qa_CreatedAt : time; qa_ArmedAt : time; qa_DeskActionID : string; qa_Credential : string; qa_ArmOrigin : string;
  qa_Envelope : string; qa_SettlingBaseline : list string; qa_SettlingBaselineKnown : bool; qa_HeldAt : time;
  qa_HoldCode : string; qa_HoldReason : string; qa_SendingAt : time; qa_PreviewTokenID : string; qa_OrderRef : string;
  qa_QuantitySent : Z; qa_LimitPrice : float64; qa_SendQuote : option QueuedAuthQuote; qa_Late : bool;
  qa_SentAt : time; qa_PermID : Z; qa_FilledQuantity : float64; qa_AvgFillPrice : float64; qa_ResolvedAt : time;
  qa_ReasonCode : string; qa_Reason : string; qa_CancelOrigin : string; qa_CancelRequested : bool; qa_problem : string
}.
#[global] Instance queued_eta : Eta queuedAuthRecord := fun r => mkQueued
  (qa_BrokerAcceptedAt r) (qa_MandateEndedAt r) (qa_Version r) (qa_ReferenceHash r) (qa_Terms r) (qa_TermsDigest r)
  (qa_ContractSide r) (qa_State r) (qa_Seq r) (qa_CreatedAt r) (qa_ArmedAt r) (qa_DeskActionID r) (qa_Credential r)
  (qa_ArmOrigin r) (qa_Envelope r) (qa_SettlingBaseline r) (qa_SettlingBaselineKnown r) (qa_HeldAt r) (qa_HoldCode r)
  (qa_HoldReason r) (qa_SendingAt r) (qa_PreviewTokenID r) (qa_OrderRef r) (qa_QuantitySent r) (qa_LimitPrice r)
  (qa_SendQuote r) (qa_Late r) (qa_SentAt r) (qa_PermID r) (qa_FilledQuantity r) (qa_AvgFillPrice r) (qa_ResolvedAt r)
  (qa_ReasonCode r) (qa_Reason r) (qa_CancelOrigin r) (qa_CancelRequested r) (qa_problem r).

(** One journaled move. *)
Record queuedAuthEvent := mkQueuedEvent {
  qe_Version : Z; qe_Type : string; qe_At : time; qe_CorrelationID : string; qe_QueueID : string;
  qe_DeskActionID : string; qe_Seq : Z; qe_StateFrom : string; qe_StateTo : string; qe_ReasonCode : string;
  qe_Reason : string; qe_Origin : string; qe_Credential : string; qe_Key : string; qe_RevisionAtQueue : string;
  qe_RowTermsDigest : string; qe_TermsDigest : string; qe_Bucket : string; qe_ConID : Z; qe_Side : string;
  qe_MaxQty : Z; qe_QtySent : Z; qe_WorstPrice : float64; qe_Limit : float64; qe_NotBefore : time; qe_NotAfter : time;
  qe_Quote : option QueuedAuthQuote; qe_PreviewTokenID : string; qe_OrderRef : string; qe_PermID : Z;
  qe_FillQty : float64; qe_AvgPrice : float64; qe_Late : bool; qe_DaemonStartedAt : time; qe_ExecutorTickAt : time
}.
#[global] Instance queuedEvent_eta : Eta queuedAuthEvent := fun r => mkQueuedEvent
  (qe_Version r) (qe_Type r) (qe_At r) (qe_CorrelationID r) (qe_QueueID r) (qe_DeskActionID r) (qe_Seq r)
  (qe_StateFrom r) (qe_StateTo r) (qe_ReasonCode r) (qe_Reason r) (qe_Origin r) (qe_Credential r) (qe_Key r)
  (qe_RevisionAtQueue r) (qe_RowTermsDigest r) (qe_TermsDigest r) (qe_Bucket r) (qe_ConID r) (qe_Side r) (qe_MaxQty r)
  (qe_QtySent r) (qe_WorstPrice r) (qe_Limit r) (qe_NotBefore r) (qe_NotAfter r) (qe_Quote r) (qe_PreviewTokenID r)
  (qe_OrderRef r) (qe_PermID r) (qe_FillQty r) (qe_AvgPrice r) (qe_Late r) (qe_DaemonStartedAt r)
  (qe_ExecutorTickAt r).

Definition zero_Fingerprint : Fingerprint := mkFingerprint "" "".
Definition zero_Contract : ContractParams := mkContractParams 0 "" "" "" "" "" "" "" "" "" f0 "" 0 f0.
Definition zero_Terms : QueuedAuthTerms :=
  mkTerms 0 None "" "" "" "" "" "" zero_Contract "" "" f0 0 "" f0 f0 f0 0 f0 "" "" "" 0 0 "" 0 "" zero_Fingerprint zero_Fingerprint.
Definition zero_Queued : queuedAuthRecord :=
  mkQueued 0 0 0 "" zero_Terms "" "" "" 0 0 0 "" "" "" "" [] false 0 "" "" 0 "" "" 0 f0 None false 0 0 f0 f0 0 "" "" "" false "".

(** ** States *)

Definition queuedKnownStates : list string :=
  [QueuedAuthPrepared; QueuedAuthArmed; QueuedAuthHeld; QueuedAuthSending; QueuedAuthSent; QueuedAuthFilled;
   QueuedAuthPartiallyFilled; QueuedAuthExpiredUnfilled; QueuedAuthCancelled; QueuedAuthExpired; QueuedAuthFailed].

Definition scope (r : queuedAuthRecord) : brokerStateScope :=
  mkScope (qt_AccountID (qa_Terms r)) (qt_AccountMode (qa_Terms r)).

Definition waiting (r : queuedAuthRecord) : bool := (qa_State r =s QueuedAuthArmed) || (qa_State r =s QueuedAuthHeld).

Definition liveIntent (r : queuedAuthRecord) : bool := waiting r || (qa_State r =s QueuedAuthSending).

Definition final (r : queuedAuthRecord) : bool :=
  one_of (qa_State r) [QueuedAuthFilled; QueuedAuthPartiallyFilled; QueuedAuthExpiredUnfilled;
                       QueuedAuthCancelled; QueuedAuthExpired; QueuedAuthFailed].

Definition ownerQueueProtection (t : QueuedAuthTerms) : bool :=
  (qt_Version t =? 2) && match qt_OwnerOrder t with Some o => oo_FullPosition o | None => false end.

(** rpc.QueuedAuth: a record as read surfaces show it. *)
Record QueuedAuth := mkQueuedView {
  qv_Terms : QueuedAuthTerms; qv_TermsDigest : string; qv_State : string; qv_CreatedAt : time; qv_ArmedAt : time;
  qv_DeskActionID : string; qv_Credential : string; qv_HeldAt : time; qv_HoldCode : string; qv_HoldReason : string;
  qv_SendingAt : time; qv_SentAt : time; qv_Late : bool; qv_PreviewTokenID : string; qv_OrderRef : string;
  qv_PermID : Z; qv_QuantitySent : Z; qv_LimitPrice : float64; qv_SendQuote : option QueuedAuthQuote;
  qv_FilledQuantity : float64; qv_AvgFillPrice : float64; qv_ResolvedAt : time; qv_ReasonCode : string;
  qv_Reason : string; qv_CancelOrigin : string; qv_CancelRequested : bool
}.

Definition view (r : queuedAuthRecord) : QueuedAuth := mkQueuedView
  (qa_Terms r) (qa_TermsDigest r) (qa_State r) (qa_CreatedAt r) (qa_ArmedAt r) (qa_DeskActionID r) (qa_Credential r)
  (qa_HeldAt r) (qa_HoldCode r) (qa_HoldReason r) (qa_SendingAt r) (qa_SentAt r) (qa_Late r) (qa_PreviewTokenID r)
  (qa_OrderRef r) (qa_PermID r) (qa_QuantitySent r) (qa_LimitPrice r) (qa_SendQuote r) (qa_FilledQuantity r)
  (qa_AvgFillPrice r) (qa_ResolvedAt r) (qa_ReasonCode r) (qa_Reason r) (qa_CancelOrigin r) (qa_CancelRequested r).

(** ** The text of a reason *)

(** [strings.Fields]: the words between runs of white space. *)
Fixpoint fieldsFrom (s : string) (word : string) : list string :=
  match s with
  | EmptyString => if word =s "" then [] else [word]
  | String c r =>
      if is_space c then (if word =s "" then fieldsFrom r "" else word :: fieldsFrom r "")
      else fieldsFrom r (String.append word (String c ""))
  end.
Definition Fields (s : string) : list string := fieldsFrom s "".

Definition isDigit (b : N) : bool := (48 <=? b)%N && (b <=? 57)%N.
(** A word character of the pattern's \b. *)
Definition isWord (b : N) : bool :=
  isDigit b || ((65 <=? b)%N && (b <=? 90)%N) || ((97 <=? b)%N && (b <=? 122)%N) || (b =? 95)%N.

Fixpoint digitRun (s : list N) : nat :=
  match s with b :: r => if isDigit b then S (digitRun r) else O | [] => O end.

(** The length of a match of [0-9]{5,12}\b at the head of [s]. *)
Definition accountDigits (s : list N) : option nat :=
  let n := digitRun s in
  if (5 <=? n)%nat && (n <=? 12)%nat && negb match drop n s with b :: _ => isWord b | [] => false end then Some n else None.

(** The length of a match of (?:DU|U|F)[0-9]{5,12}\b at the head of [s]. *)
Definition accountMatch (s : list N) : option nat :=
  match s with
  | 68%N :: 85%N :: r => option_map (Nat.add 2) (accountDigits r)
  | 85%N :: r => option_map S (accountDigits r)
  | 70%N :: r => option_map S (accountDigits r)
  | _ => None
  end.

(** [decisionAccountPattern.ReplaceAllString(s, "[account]")]: [before] is whether a
    word character precedes, [skip] what is left of a match. *)
Fixpoint maskAccounts (before : bool) (skip : nat) (s : list N) : list N :=
  match s with
  | [] => []
  | b :: r =>
      match skip with
      | S k => maskAccounts (isWord b) k r
      | O =>
          match (if before then None else accountMatch s) with
          | Some n => bytes_of "[account]" ++ maskAccounts (isWord b) (n - 1) r
          | None => b :: maskAccounts (isWord b) 0 r
          end
      end
  end.

(** [[]rune(s)], each rune as its bytes; a byte that starts no valid encoding is
    U+FFFD. *)
Definition runeError : list N := [239; 191; 189]%N.
Definition runeLen (s : list N) : nat :=
  let cont b := (0x80 <=? b)%N && (b <=? 0xBF)%N in
  match s with
  | b0 :: b1 :: rest =>
      if (0xC2 <=? b0)%N && (b0 <=? 0xDF)%N then if cont b1 then 2%nat else 0%nat
      else match rest with
           | b2 :: rest =>
               if (0xE0 <=? b0)%N && (b0 <=? 0xEF)%N then
                 if (if (b0 =? 0xE0)%N then (0xA0 <=? b1)%N && (b1 <=? 0xBF)%N
                     else if (b0 =? 0xED)%N then (0x80 <=? b1)%N && (b1 <=? 0x9F)%N else cont b1) && cont b2 then 3%nat else 0%nat
               else match rest with
                    | b3 :: _ =>
                        if (0xF0 <=? b0)%N && (b0 <=? 0xF4)%N &&
                           (if (b0 =? 0xF0)%N then (0x90 <=? b1)%N && (b1 <=? 0xBF)%N
                            else if (b0 =? 0xF4)%N then (0x80 <=? b1)%N && (b1 <=? 0x8F)%N else cont b1) && cont b2 && cont b3
                        then 4%nat else 0%nat
                    | [] => 0%nat
                    end
           | [] => 0%nat
           end
  | _ => 0%nat
  end.
Fixpoint runesFrom (skip : nat) (s : list N) : list (list N) :=
  match s with
  | [] => []
  | b :: r =>
      match skip with
      | S k => runesFrom k r
      | O =>
          if (b <? 0x80)%N then [b] :: runesFrom 0 r
          else match runeLen s with
               | O => runeError :: runesFrom 0 r
               | S n => take (S n) s :: runesFrom n r
               end
      end
  end.
Definition runes (s : list N) : list (list N) := runesFrom 0 s.
Definition string_of_bytes (s : list N) : string := string_of_list_ascii (map ascii_of_N s).

Definition ellipsis : list N := [226; 128; 166]%N.

Definition boundedQueuedReason (s : string) : string :=
  let s := maskAccounts false 0 (bytes_of (String.concat " " (Fields s))) in
  if (List.length (runes s) <=? queuedReasonMaxRunes)%nat then string_of_bytes s
  else string_of_bytes (mjoin (take (queuedReasonMaxRunes - 1) (runes s)) ++ ellipsis).

(** ** Moves *)

Definition note (r : queuedAuthRecord) (eventType from : string) (at_ : time) : queuedAuthRecord * queuedAuthEvent :=
  let r := r <| qa_Seq := qa_Seq r + 1 |> in
  let t := qa_Terms r in
  (r, mkQueuedEvent queuedDocumentVersion eventType at_ (qt_QueueID t) (qt_QueueID t) (qa_DeskActionID r) (qa_Seq r) from (qa_State r)
        "" "" "" "" (qt_Key t) (qt_RevisionAtQueue t) (qt_RowTermsDigest t) (qa_TermsDigest r) (qt_Bucket t) (cp_ConID (qt_Contract t))
        (qt_Action t) (qt_MaxQuantity t) 0 (qt_WorstPrice t) f0 (qt_NotBefore t) (qt_NotAfter t) None (qa_PreviewTokenID r)
        (qa_OrderRef r) 0 f0 f0 false 0 0).

Definition transition (r : queuedAuthRecord) (eventType state : string) (at_ : time) : queuedAuthRecord * queuedAuthEvent :=
  note (r <| qa_State := state |>) eventType (qa_State r) at_.

Definition resolve (r : queuedAuthRecord) (eventType state code reason : string) (at_ : time) : queuedAuthRecord * queuedAuthEvent :=
  let reason := boundedQueuedReason reason in
  let r := r <| qa_ResolvedAt := at_ |> <| qa_ReasonCode := code |> <| qa_Reason := reason |>
             <| qa_HeldAt := 0 |> <| qa_HoldCode := "" |> <| qa_HoldReason := "" |> in
  let '(r, ev) := transition r eventType state at_ in
  (r, ev <| qe_ReasonCode := code |> <| qe_Reason := reason |>).

(** ** Reading a stored record *)

Definition proposalCloseReduceEffect (effect : string) : bool := one_of effect ["close"; "reduce"].

(** [rpc.OrderDraft{OrderType: orderType, Trail: trail}] *)
Definition trailDraft (orderType : string) (trail : option OrderTrailSpec) : OrderDraft :=
  mkDraft None None f0 "" None "" zero_Contract 0 orderType f0 trail 0 "" false "" "" "" None "" 0 None.

Definition ownerQueueProblem (t : QueuedAuthTerms) : string :=
  match qt_OwnerOrder t with
  | None => "invalid owner-order identity or quantity"
  | Some o =>
      let c := qt_Contract t in
      if negb (qt_Version t =? 2) || (cp_ConID c <=? 0) || negb (one_of (cp_SecType c) ["STK"; "OPT"]) ||
         (qt_AccountID t =s "") || negb (one_of (qt_AccountMode t) ["paper"; "live"]) || (qt_MaxQuantity t <=? 0) || (1000000 <? qt_MaxQuantity t) ||
         negb (one_of (qt_Action t) ["BUY"; "SELL"]) || (qt_Currency t <>s cp_Currency c) || IsZero (qt_ArmDeadline t)
      then "invalid owner-order identity or quantity"
      else
        let shape :=
          if oo_FullPosition o then
            if (cp_SecType c <>s "STK") || (qt_Action t <>s "SELL") || negb (isTrailOrderType (oo_OrderType o)) ||
               negb match oo_Trail o with Some trail => positiveFinite (t_InitialStopPrice trail) | None => false end ||
               negb (IsZero (qt_NotAfter t)) || (qt_Style t <>s "broker_trail") ||
               (oo_AdaptivePriority o <>s "") || oo_Add o || negb (one_of (qt_TIF t) ["DAY"; "GTC"]) || (qt_PositionQuantity t <=f f0)
            then "invalid full-position protection mandate"
            else
              match validateModifyTrailDraft (oo_OrderType o) (trailDraft (oo_OrderType o) (oo_Trail o)) with
              | Err e => err_msg e
              | Ok _ => ""
              end
          else if (oo_OrderType o <>s "LMT") || present (oo_Trail o) || (qt_Style t <>s "midpoint_bounded") || (qt_Concession t <>f f0) ||
                  negb (positiveFinite (qt_WorstPrice t)) || negb (positiveFinite (qt_MaxSpreadPctOfMid t)) || (f_of_Z 100 <f qt_MaxSpreadPctOfMid t) ||
                  (qt_TIF t <>s "DAY") || negb (After (qt_NotAfter t) (qt_NotBefore t)) || (queuedSendWindow <? Sub (qt_NotAfter t) (qt_NotBefore t)) ||
                  (oo_AdaptivePriority o <>s "Normal") || oo_OutsideRTH o
               then "invalid midpoint owner order"
               else "" in
        if shape <>s "" then shape
        else if negb (oo_FullPosition o) &&
                (negb (one_of (qt_PositionEffect t) ["open"; "increase"; "reduce"; "close"]) ||
                 ((qt_Action t =s "SELL") && (qt_PositionQuantity t <=f f0)) ||
                 (proposalCloseReduceEffect (qt_PositionEffect t) && (fabs (qt_PositionQuantity t) <f f_of_Z (qt_MaxQuantity t))))
             then "owner order would reverse or open a short position"
             else ""
  end.

Section Digest.
(** [queuedTermsDigest] is hex(sha256(json(t))): JSON and SHA-256 are an argument. *)
Context (termsDigest : QueuedAuthTerms -> option string).

Definition queuedRecordProblem (rec : queuedAuthRecord) : string :=
  let t := qa_Terms rec in
  if qa_problem rec <>s "" then qa_problem rec
  else if negb (qa_Version rec =? queuedDocumentVersion) || (negb (qt_Version t =? queuedTermsVersion) && negb (qt_Version t =? 2))
  then "the stored record has a version this build of Canary does not know"
  else if negb (one_of (qa_State rec) queuedKnownStates) then "the stored record is in a state this build of Canary does not know"
  else if (qt_Version t =? 1) && (present (qt_OwnerOrder t) || (qt_Style t <>s QueuedAuthStyleBoundedLimit) || (qt_TIF t <>s OrderTIFDay))
  then "the stored record has an order style this build of Canary does not execute"
  else
    let problem := if qt_Version t =? 2 then ownerQueueProblem t else "" in
    if problem <>s "" then problem
    else match termsDigest t with
         | Some digest => if digest =s qa_TermsDigest rec then "" else "the stored terms no longer match their digest"
         | None => "the stored terms no longer match their digest"
         end.

(** A record as daemon.db stores it: [sr_known] is false when its JSON carries a field
    this build does not know. *)
Record storedRecord := mkStored { sr_known : bool; sr_rec : queuedAuthRecord }.

Definition decodeQueuedRecord (raw : storedRecord) : queuedAuthRecord :=
  if sr_known raw then (sr_rec raw) <| qa_problem := queuedRecordProblem (sr_rec raw) |>
  else (sr_rec raw) <| qa_problem := "the stored record carries fields this build of Canary does not know" |>.
End Digest.

(** ** References *)

(** parseReferenceID of a prefix.id.secret reference; the error is its text. *)
Definition parseReferenceID (reference prefix invalid : string) : result string string :=
  match split_at "." reference with
  | [p; id; secret] =>
      let canonical part :=
        match b64_decode part with Some raw => (String.length raw =? 16)%nat && (b64_encode raw =s part) | None => false end in
      if (p =s prefix) && canonical id && canonical secret then Ok id else Err invalid
  | _ => Err invalid
  end.

Definition parseQueuedReference (reference : string) : result string string :=
  parseReferenceID reference queuedReferencePrefix "invalid queued authorisation reference".

(** mintQueuedReference from its two random 16-byte values. *)
Definition mintQueuedReference (id secret : string) : string * string :=
  let id := b64_encode id in
  (id, say [queuedReferencePrefix; "."; id; "."; b64_encode secret]).

(** ** What the order journal proves about a send *)

Inductive orderSendOutcome := orderSendNone | orderSendFailedUnsent | orderSendUnclear | orderSendReached.

Definition reachedEvent (ev : orderJournalEvent) : bool :=
  one_of (e_Type ev) [orderJournalEventSendCompleted; orderJournalEventBrokerAcknowledged; orderJournalEventStatusUpdated].

Fixpoint journalSendScan (events : list orderJournalEvent) (tokenID : string) (attempted : bool) (orderRef : string) : orderSendOutcome * string :=
  match events with
  | [] => if attempted then (orderSendUnclear, orderRef) else (orderSendNone, "")
  | ev :: rest =>
      let firstRef := if orderRef =s "" then e_OrderRef ev else orderRef in
      if e_PreviewTokenID ev <>s tokenID then journalSendScan rest tokenID attempted orderRef
      else if reachedEvent ev then (orderSendReached, e_OrderRef ev)
      else if e_Type ev =s orderJournalEventSendAttempted then journalSendScan rest tokenID true firstRef
      else if e_Type ev =s orderJournalEventSendError then
        if (e_SendDisposition ev =s "") || (e_SendDisposition ev =s "definitely_unsent") then (orderSendFailedUnsent, e_OrderRef ev)
        else journalSendScan rest tokenID true firstRef
      else journalSendScan rest tokenID attempted orderRef
  end.

Definition orderJournalSendOutcome (events : list orderJournalEvent) (tokenID : string) : orderSendOutcome * string :=
  if TrimSpace tokenID =s "" then (orderSendNone, "") else journalSendScan events tokenID false "".

(** The loop of queuedJournalSendOutcome over one version-2 token's events. *)
Fixpoint ownerSendScan (events : list orderJournalEvent) (tokenID : string) (attempted unsent unknown : bool) (ref : string)
    : orderSendOutcome * string :=
  match events with
  | [] =>
      (if unknown || (attempted && negb unsent) then orderSendUnclear else if unsent then orderSendFailedUnsent else orderSendNone, ref)
  | ev :: rest =>
      if (tokenID =s "") || (e_PreviewTokenID ev <>s tokenID) then ownerSendScan rest tokenID attempted unsent unknown ref
      else
        let ref := if e_OrderRef ev <>s "" then e_OrderRef ev else ref in
        if reachedEvent ev then (orderSendReached, ref)
        else if e_Type ev =s orderJournalEventSendAttempted then ownerSendScan rest tokenID true unsent unknown ref
        else if e_Type ev =s orderJournalEventSendError then
          if e_SendDisposition ev =s "definitely_unsent" then ownerSendScan rest tokenID attempted true unknown ref
          else ownerSendScan rest tokenID attempted unsent true ref
        else ownerSendScan rest tokenID attempted unsent unknown ref
  end.

Definition queuedJournalSendOutcome (events : list orderJournalEvent) (rec : queuedAuthRecord) : orderSendOutcome * string :=
  if negb (qt_Version (qa_Terms rec) =? 2) then orderJournalSendOutcome events (qa_PreviewTokenID rec)
  else ownerSendScan events (qa_PreviewTokenID rec) false false false "".

(** ** Prices *)

Definition queuedLimitInside (action : string) (limit worst : float64) : bool :=
  if negb (positiveFinite limit) || negb (positiveFinite worst) then false
  else if action =s OrderActionBuy then limit <=f fadd worst tolerance
  else worst <=f fadd limit tolerance.

Definition queuedSendQuote (q : OrderQuoteSnapshot) : QueuedAuthQuote :=
  let spread :=
    match oq_Bid q, oq_Ask q with
    | Some bid, Some ask =>
        let mid := fdiv (fadd bid ask) (f_of_Z 2) in
        if (mid >f f0) && negb (IsNaN mid) then Some (fmul (fdiv (fsub ask bid) mid) (f_of_Z 100)) else None
    | _, _ => None
    end in
  mkQueuedQuote (oq_Bid q) (oq_Ask q) spread (oq_DataType q) (oq_AsOf q).

(** ** The journal's verdict on a version-2 send *)

Definition errorEvent (unsent : bool) (ev : orderJournalEvent) : bool :=
  (e_Type ev =s orderJournalEventSendError) && Bool.eqb unsent (e_SendDisposition ev =s "definitely_unsent").

(** Reached if any event of the token says so; else unclear if an error left it open, or
    an attempt has no proof that it was not sent; else unsent if an error proves it. *)
Definition ownerVerdict (mine : list orderJournalEvent) (attempted unsent unknown : bool) : orderSendOutcome :=
  if existsb reachedEvent mine then orderSendReached
  else
    let unsent := unsent || existsb (errorEvent true) mine in
    let unknown := unknown || existsb (errorEvent false) mine in
    let attempted := attempted || existsb (fun ev => e_Type ev =s orderJournalEventSendAttempted) mine in
    if unknown || (attempted && negb unsent) then orderSendUnclear else if unsent then orderSendFailedUnsent else orderSendNone.

Lemma ownerSendScan_verdict events tokenID attempted unsent unknown ref : tokenID <> "" ->
  (ownerSendScan events tokenID attempted unsent unknown ref).1 =
  ownerVerdict (List.filter (fun ev => e_PreviewTokenID ev =s tokenID) events) attempted unsent unknown.
Proof.
  intros Ht. revert attempted unsent unknown ref. apply String.eqb_neq in Ht.
  induction events as [|ev events IH]; intros attempted unsent unknown ref; cbn [ownerSendScan List.filter].
  { unfold ownerVerdict. cbn. by rewrite !orb_false_r. }
  rewrite Ht. cbn [orb]. destruct (e_PreviewTokenID ev =s tokenID); cbn [negb]; [|apply IH].
  unfold ownerVerdict. cbn [existsb]. destruct (reachedEvent ev) eqn:Hr; [done|]. cbn [orb].
  assert (He : forall b, errorEvent b ev = (e_Type ev =s orderJournalEventSendError) && Bool.eqb b (e_SendDisposition ev =s "definitely_unsent")) by done.
  rewrite !He. destruct (e_Type ev =s orderJournalEventSendAttempted) eqn:Ha.
  { apply String.eqb_eq in Ha. rewrite IH, Ha. change (orderJournalEventSendAttempted =s orderJournalEventSendError) with false.
    unfold ownerVerdict. cbn [andb orb]. by rewrite orb_true_r. }
  destruct (e_Type ev =s orderJournalEventSendError); cbn [andb orb]; [|by rewrite IH].
  destruct (e_SendDisposition ev =s "definitely_unsent"); rewrite IH; unfold ownerVerdict; cbn [Bool.eqb orb]; by rewrite !orb_true_r.
Qed.

(** The events' order does not matter. *)
Lemma ownerSend_order_free events events' rec : qt_Version (qa_Terms rec) = 2 -> qa_PreviewTokenID rec <> "" -> Permutation events events' ->
  (queuedJournalSendOutcome events rec).1 = (queuedJournalSendOutcome events' rec).1.
Proof.
  intros Hv Ht Hp. unfold queuedJournalSendOutcome. rewrite Hv. cbn [negb Z.eqb Pos.eqb]. rewrite !ownerSendScan_verdict by done. unfold ownerVerdict.
  assert (Hf : forall p : orderJournalEvent -> bool, Permutation (List.filter p events) (List.filter p events')).
  { intros p. induction Hp; cbn; repeat case_match; eauto using Permutation; by econstructor. }
  assert (He : forall q, existsb q (List.filter (fun ev => e_PreviewTokenID ev =s qa_PreviewTokenID rec) events) =
                         existsb q (List.filter (fun ev => e_PreviewTokenID ev =s qa_PreviewTokenID rec) events')).
  { intros q. apply eq_iff_eq_true. rewrite !existsb_exists. by setoid_rewrite (Hf _). }
  by rewrite !He.
Qed.

(** ** A reason's length *)

(** [r] is one rune: whatever follows, decoding takes exactly it. *)
Definition oneRune (r : list N) : Prop := forall t, runesFrom 0 (r ++ t) = r :: runesFrom 0 t.

Lemma runesFrom_skip n s : runesFrom n s = runesFrom 0 (drop n s).
Proof. revert n. induction s as [|b s IH]; intros [|n]; try done. apply IH. Qed.

Lemma runeLen_prefix s t : runeLen s <> O -> runeLen (take (runeLen s) s ++ t) = runeLen s /\ (runeLen s <= List.length s)%nat.
Proof.
  destruct s as [|b0 [|b1 rest]]; [done | done|]. cbn [runeLen].
  destruct ((0xC2 <=? b0)%N && (b0 <=? 0xDF)%N) eqn:E1.
  { case_if; [|done]. intros _. cbn. rewrite E1, Hc. split; [done | lia]. }
  destruct rest as [|b2 rest]; [done|]. destruct ((0xE0 <=? b0)%N && (b0 <=? 0xEF)%N) eqn:E2.
  { match goal with |- context [if ?c then 3%nat else 0%nat] => destruct c eqn:Hc end; [|done]. intros _. cbn [take app runeLen List.length]. rewrite E1, E2, Hc. split; [done | lia]. }
  destruct rest as [|b3 rest]; [done|].
  match goal with |- context [if ?c then 4%nat else 0%nat] => destruct c eqn:Hc end; [|done]. intros _. cbn [take app runeLen List.length]. rewrite E1, E2, Hc. split; [done | lia].
Qed.

Lemma runes_one s skip_ : Forall oneRune (runesFrom skip_ s).
Proof.
  revert skip_. induction s as [|b s IH]; intros [|k]; cbn [runesFrom]; try done.
  destruct (b <? 0x80)%N eqn:Hb; [constructor; [intros t; cbn [app runesFrom]; rewrite Hb; done | apply IH]|].
  destruct (runeLen (b :: s)) as [|n] eqn:Hn; [constructor; [by intros t | apply IH]|]. constructor; [|apply IH]. intros t.
  destruct (runeLen_prefix (b :: s) t) as [Hl Hle]; [congruence|]. rewrite Hn in Hl, Hle. cbn [take app] in *. cbn [runesFrom]. rewrite Hb, Hl.
  cbn [List.length] in Hle. f_equal.
  - change (take (S n) (b :: take n s ++ t)) with (b :: take n (take n s ++ t)). rewrite take_app_length'; [done|]. rewrite length_take. lia.
  - rewrite runesFrom_skip. rewrite drop_app_length'; [done|]. rewrite length_take. lia.
Qed.

Lemma runes_join rs t : Forall oneRune rs -> runesFrom 0 (mjoin rs ++ t) = rs ++ runesFrom 0 t.
Proof.
  induction 1 as [|r rs Hr _ IH]; [done|]. change (mjoin (r :: rs)) with (r ++ mjoin rs). rewrite <- List.app_assoc, Hr, IH. done.
Qed.

(** The bytes of a bounded reason decode to at most 300 characters. *)
Lemma reason_bounded s : exists b, boundedQueuedReason s = string_of_bytes b /\ (List.length (runes b) <= queuedReasonMaxRunes)%nat.
Proof.
  unfold boundedQueuedReason. set (m := maskAccounts _ _ _). case_if; [exists m; split; [done | by apply Nat.leb_le]|].
  eexists. split; [reflexivity|]. unfold runes at 1. rewrite runes_join by (apply Forall_take, runes_one).
  rewrite List.length_app, length_take. change (List.length (runesFrom 0 ellipsis)) with 1%nat. apply Nat.leb_gt in Hc. unfold queuedReasonMaxRunes in *. lia.
Qed.
