(* ===== verification/QueueStore.v ===== *)
(** * The store of queued authorisations and its owner-facing operations

    src/internal/daemon/proposal_queue.go (queuedAuthStore, QueueArm, QueueCancel,
    QueueList, QueueStatus, the store half of QueuePrepare) and the store half of
    prepareOwnerQueue in owner_order_queue.go.  The store keeps the records of
    daemon.db in memory; an update edits a copy and commits the whole document with
    its events, or nothing.  [queueDisk] is the state document and the queue's part
    of the event log; a commit can fail after it was made durable
    ([CommittedUnseen]), which is what corestore reports when the head cannot be
    observed after the commit.  The order in which Go ranges over a map is an
    argument of each update. *)

From stdpp Require Import base decidable list strings gmap sorting.
From Stdlib Require Import ZArith Lia Ascii String.
From S2P Require Import Prelude OrderTypes OrderStatus BrokerScope OrderJournal WriteGate PreviewToken OrderRisk QueueRecord.

Abbreviation queueRecords := (gmap string queuedAuthRecord).

(** ** The document and its commit *)

Record queueDisk := mkDisk { qd_doc : option (Z * list storedRecord); qd_log : list queuedAuthEvent }.
Record queuedAuthStore := mkQStore { qs_attached : bool; qs_revision : Z; qs_records : queueRecords }.

Inductive commitFault := NoFault | Refused (msg : string) | CommittedUnseen (msg : string).

(** How one update meets the world: Go's range order, whether JSON and the event keys
    can be made, and the commit. *)
Record updateEnv := mkUpdateEnv { ue_order : list string; ue_encodes : bool; ue_fault : commitFault }.

(** CompareAndSwapStateDocumentWithEvents on the queue's document. *)
Definition casDocument (disk : queueDisk) (expected : Z) (doc : list storedRecord) (events : list queuedAuthEvent)
    (fault : commitFault) : queueDisk * result string Z :=
  let swapped := mkDisk (Some (expected + 1, doc)) (qd_log disk ++ events) in
  let holds :=
    match qd_doc disk with
    | None => expected =? 0
    | Some (revision, _) => negb (expected =? 0) && (revision =? expected)
    end in
  match fault with
  | Refused msg => (disk, Err msg)
  | _ =>
      if negb holds then (disk, Err "revision conflict")
      else match fault with CommittedUnseen msg => (swapped, Err msg) | _ => (swapped, Ok (expected + 1)) end
  end.

(** compareQueuedRecords is not positive. *)
Definition queuedLE (a b : queuedAuthRecord) : bool :=
  if qa_CreatedAt a =? qa_CreatedAt b then String.leb (qt_QueueID (qa_Terms a)) (qt_QueueID (qa_Terms b))
  else qa_CreatedAt a <? qa_CreatedAt b.

Definition records_list (m : queueRecords) : list queuedAuthRecord := stable_sort queuedLE (map_to_list m).*2.

(** What JSON keeps of a record: [problem] is unexported. *)
Definition persisted (r : queuedAuthRecord) : storedRecord := mkStored true (r <| qa_problem := "" |>).

Definition outlived (now : time) (r : queuedAuthRecord) : bool :=
  final r && negb (IsZero (qa_ResolvedAt r)) && (queuedRetention <? Sub now (qa_ResolvedAt r)).

Definition stampEvent (now : time) (ev : queuedAuthEvent) : queuedAuthEvent := if IsZero (qe_At ev) then ev <| qe_At := now |> else ev.

Definition notAttached : string := "queued authorisation store is not attached".

Definition update {A} (env : updateEnv) (now : time)
    (mutate : queueRecords -> list string -> queueRecords * list queuedAuthEvent * A)
    (sd : queuedAuthStore * queueDisk) : (queuedAuthStore * queueDisk) * result string A :=
  let '(s, disk) := sd in
  if negb (qs_attached s) then (sd, Err notAttached)
  else
    let '(working, events, a) := mutate (qs_records s) (ue_order env) in
    match events with
    | [] => (sd, Ok a)
    | _ =>
        let kept := filter (fun kv => outlived now kv.2 = false) working in
        if negb (ue_encodes env) then (sd, Err "json: unsupported value")
        else
          match casDocument disk (qs_revision s) (map persisted (records_list kept)) (map (stampEvent now) events) (ue_fault env) with
          | (disk, Err msg) => ((s, disk), Err (say ["persist queued authorisation state: "; msg]))
          | (disk, Ok revision) => ((mkQStore true revision kept, disk), Ok a)
          end
    end.

Section Store.
Context (termsDigest : QueuedAuthTerms -> option string) (sha256 : string -> string).

Definition loadable (r : queuedAuthRecord) : bool :=
  (TrimSpace (qt_QueueID (qa_Terms r)) <>s "") && (TrimSpace (qt_Key (qa_Terms r)) <>s "").

(** bindCore: the records of the stored document, by queue ID. *)
Definition bindCore (disk : queueDisk) : result string queuedAuthStore :=
  match qd_doc disk with
  | None => Ok (mkQStore true 0 ∅)
  | Some (revision, raws) =>
      let records := map (decodeQueuedRecord termsDigest) raws in
      if forallb loadable records
      then Ok (mkQStore true revision (fold_left (fun m r => <[qt_QueueID (qa_Terms r) := r]> m) records ∅))
      else Err "queued authorisation state is malformed"
  end.

Definition attached (s : queuedAuthStore) : bool := qs_attached s.
Definition list_ (s : queuedAuthStore) : list queuedAuthRecord := records_list (qs_records s).
Definition get (s : queuedAuthStore) (id : string) : option queuedAuthRecord := qs_records s !! id.

(** ** Loops over the records

    Each turn of a range loop edits the record it visits and may journal events and
    collect results. *)
Fixpoint rangeRecords {O} (edit : queuedAuthRecord -> queuedAuthRecord * list queuedAuthEvent * list O) (order : list string)
    (m : queueRecords) : queueRecords * list queuedAuthEvent * list O :=
  match order with
  | [] => (m, [], [])
  | id :: rest =>
      match m !! id with
      | None => rangeRecords edit rest m
      | Some r =>
          let '(r', evs, outs) := edit r in
          let '(m', evs', outs') := rangeRecords edit rest (<[id := r']> m) in
          (m', evs ++ evs', outs ++ outs')
      end
  end.

(** A turn that leaves its record alone, or moves it. *)
Definition skip {O} (r : queuedAuthRecord) : queuedAuthRecord * list queuedAuthEvent * list O := (r, [], []).
Definition moved {O} (p : queuedAuthRecord * queuedAuthEvent) (outs : list O) : queuedAuthRecord * list queuedAuthEvent * list O :=
  (p.1, [p.2], outs).

(** [r.f(...)] whose event is then completed by [g]. *)
Definition tagged (p : queuedAuthRecord * queuedAuthEvent) (g : queuedAuthEvent -> queuedAuthEvent) : queuedAuthRecord * queuedAuthEvent :=
  (p.1, g p.2).

(** ** Prepare *)

Definition sameIntent (side : string) (sc : brokerStateScope) (other : queuedAuthRecord) : bool :=
  (qa_ContractSide other =s side) && sameBrokerScope (scope other) sc.

Definition preparedBlocker (code message : string) : list TradingBlocker := [mkBlocker code message ""].

Definition queuedIntentExistsCode : string := "queued_intent_exists".
Definition queuedIntentExistsBlocker (key : string) : list TradingBlocker :=
  [mkBlocker queuedIntentExistsCode (say ["an armed queued authorisation ("; key; ") already covers this contract and side"])
     "Cancel the queued authorisation first to queue a different one."].
Definition queuedOrderWorkingBlocker (key : string) : list TradingBlocker :=
  [mkBlocker "queued_order_working" (say ["a queued order ("; key; ") for this contract and side is working at the broker"])
     "Wait until it fills or ends, or cancel it at the broker first."].

(** The refusal a record of the same intent raises. *)
Definition occupantBlocker (other : queuedAuthRecord) : option (list TradingBlocker) :=
  if liveIntent other then Some (queuedIntentExistsBlocker (qt_Key (qa_Terms other)))
  else if qa_State other =s QueuedAuthSent then Some (queuedOrderWorkingBlocker (qt_Key (qa_Terms other)))
  else None.

(** The loop of QueuePrepare's update: the first occupant it meets refuses, an unarmed
    preparation is superseded. *)
Fixpoint supersedeOthers (side : string) (sc : brokerStateScope) (now : time) (order : list string) (m : queueRecords)
    : queueRecords * list queuedAuthEvent * list TradingBlocker :=
  match order with
  | [] => (m, [], [])
  | id :: rest =>
      match m !! id with
      | None => supersedeOthers side sc now rest m
      | Some other =>
          if negb (sameIntent side sc other) then supersedeOthers side sc now rest m
          else match occupantBlocker other with
               | Some blockers => (m, [], blockers)
               | None =>
                   if qa_State other =s QueuedAuthPrepared then
                     let '(other, ev) := resolve other queuedEventCancelled QueuedAuthCancelled queuedReasonSuperseded
                       "a newer queue preparation for this contract replaced it before it was armed" now in
                     let '(m, evs, refused) := supersedeOthers side sc now rest (<[id := other]> m) in
                     (m, ev :: evs, refused)
                   else supersedeOthers side sc now rest m
               end
      end
  end.

(** QueuePrepare's update of a new record under its minted ID. *)
Definition prepareMutate (rec : queuedAuthRecord) (sc : brokerStateScope) (now : time) (m : queueRecords) (order : list string)
    : queueRecords * list queuedAuthEvent * (list TradingBlocker * queuedAuthRecord) :=
  let '(m', evs, refused) := supersedeOthers (qa_ContractSide rec) sc now order m in
  match refused with
  | _ :: _ => (m', [], (refused, rec))
  | [] =>
      let '(rec, ev) := transition rec queuedEventPrepared QueuedAuthPrepared now in
      (<[qt_QueueID (qa_Terms rec) := rec]> m', evs ++ [ev], ([], rec))
  end.

(** prepareOwnerQueue's update: it looks for an occupant first, then supersedes. *)
Definition prepareOwnerMutate (rec : queuedAuthRecord) (sc : brokerStateScope) (now : time) (m : queueRecords) (order : list string)
    : queueRecords * list queuedAuthEvent * (bool * queuedAuthRecord) :=
  let occupied id :=
    match m !! id with
    | Some other => sameIntent (qa_ContractSide rec) sc other && (liveIntent other || (qa_State other =s QueuedAuthSent))
    | None => false
    end in
  if existsb occupied order then (m, [], (true, rec))
  else
    let '(m', evs, _) :=
      rangeRecords (O := unit) (fun other =>
        if sameIntent (qa_ContractSide rec) sc other && (qa_State other =s QueuedAuthPrepared)
        then moved (resolve other queuedEventCancelled QueuedAuthCancelled queuedReasonSuperseded "replaced before confirmation" now) []
        else skip other) order m in
    let '(rec, ev) := transition rec queuedEventPrepared QueuedAuthPrepared now in
    (<[qt_QueueID (qa_Terms rec) := rec]> m', evs ++ [ev], (false, rec)).

(** The record both build from the terms, the minted reference and the row's side. *)
Definition newQueued (terms : QueuedAuthTerms) (digest side reference : string) (now : time) : queuedAuthRecord :=
  zero_Queued <| qa_Version := queuedDocumentVersion |> <| qa_ReferenceHash := sha256 reference |> <| qa_Terms := terms |>
    <| qa_TermsDigest := digest |> <| qa_ContractSide := side |> <| qa_CreatedAt := now |>.

Record queueResult := mkQueueResult {
  qr_Accepted : bool; qr_Queue : option QueuedAuth; qr_Queues : list QueuedAuth; qr_InFlight : list QueuedAuth;
  qr_Message : string; qr_Blockers : list TradingBlocker
}.
Definition no_result : queueResult := mkQueueResult false None [] [] "" [].
Definition blocked (out : queueResult) (code message : string) : queueResult :=
  mkQueueResult (qr_Accepted out) (qr_Queue out) (qr_Queues out) (qr_InFlight out) (qr_Message out) (preparedBlocker code message).

(** ** Arm *)

(** loadQueuedByReference *)
Definition loadQueuedByReference (s : queuedAuthStore) (reference : string) : option queuedAuthRecord :=
  match parseQueuedReference (TrimSpace reference) with
  | Err _ => None
  | Ok id =>
      match get s id with
      | Some rec => if qa_ReferenceHash rec =s sha256 (TrimSpace reference) then Some rec else None
      | None => None
      end
  end.

Record armParams := mkArm {
  ap_QueuedRef : string; ap_TermsDigest : string; ap_DeskActionID : string; ap_Credential : string; ap_Envelope : string; ap_Origin : string
}.

(** The first occupant among the others, in range order. *)
Fixpoint otherOccupant (own : string) (r : queuedAuthRecord) (m : queueRecords) (order : list string) : list TradingBlocker :=
  match order with
  | [] => []
  | id :: rest =>
      match m !! id with
      | Some other =>
          if (id =s own) || negb (sameIntent (qa_ContractSide r) (scope r) other) then otherOccupant own r m rest
          else match occupantBlocker other with Some blockers => blockers | None => otherOccupant own r m rest end
      | None => otherOccupant own r m rest
      end
  end.

Definition armMutate (id : string) (p : armParams) (marks : list string) (bookOK : bool) (now : time) (m : queueRecords) (order : list string)
    : queueRecords * list queuedAuthEvent * (list TradingBlocker * option queuedAuthRecord) :=
  let changed := preparedBlocker "queued_not_prepared" "The queued authorisation changed while it was being armed; nothing was armed." in
  match m !! id with
  | None => (m, [], (changed, None))
  | Some r =>
      if (qa_State r <>s QueuedAuthPrepared) || negb (Before now (qt_ArmDeadline (qa_Terms r))) then (m, [], (changed, None))
      else
        match otherOccupant id r m order with
        | (_ :: _) as refused => (m, [], (refused, None))
        | [] =>
            let r := r <| qa_ArmedAt := now |> <| qa_DeskActionID := TrimSpace (ap_DeskActionID p) |>
                       <| qa_Credential := TrimSpace (ap_Credential p) |> <| qa_Envelope := ap_Envelope p |>
                       <| qa_ArmOrigin := normalizedWriteOrigin (ap_Origin p) |>
                       <| qa_SettlingBaseline := marks |> <| qa_SettlingBaselineKnown := bookOK |> in
            let '(r, ev) := tagged (transition r queuedEventArmed QueuedAuthArmed now)
              (fun ev => ev <| qe_Origin := qa_ArmOrigin r |> <| qe_Credential := qa_Credential r |>) in
            (<[id := r]> m, [ev], ([], Some r))
        end
  end.

Definition expireUnarmedMutate (id : string) (now : time) (m : queueRecords) (order : list string)
    : queueRecords * list queuedAuthEvent * unit :=
  match m !! id with
  | None => (m, [], tt)
  | Some r =>
      if (qa_State r <>s QueuedAuthPrepared) || Before now (qt_ArmDeadline (qa_Terms r)) then (m, [], tt)
      else
        let '(r, ev) := resolve r queuedEventExpired QueuedAuthExpired queuedReasonNotArmed
          "the owner's signature did not arrive within ten minutes" now in
        (<[id := r]> m, [ev], tt)
  end.

(** What an arm reads outside the store: the configured fast path, the connected scope,
    the pre-authorised scheduler's blockers and the settling book. *)
Record armGates := mkArmGates {
  ag_fastPath : bool; ag_scope : brokerStateScope; ag_automatic : list TradingBlocker; ag_marks : list string; ag_bookOK : bool;
  ag_stressOpen : bool; ag_window : QueuedAuthTerms -> string
}.

(** QueueArm; the outer error is a bad request. *)
Definition QueueArm (env : updateEnv) (g : armGates) (now : time) (p : armParams) (sd : queuedAuthStore * queueDisk)
    : (queuedAuthStore * queueDisk) * result string queueResult :=
  let '(s, _) := sd in
  let out := no_result in
  let too_long v limit := limit <? Z.of_nat (String.length v) in
  if negb (attached s) then
    (sd, Ok (blocked out "queue_unavailable" "Queued authorisations are unavailable: the daemon state store is not attached."))
  else if too_long (ap_Envelope p) queuedEnvelopeMaxBytes || too_long (ap_DeskActionID p) queuedIdentityMaxBytes ||
          too_long (ap_Credential p) queuedIdentityMaxBytes
  then (sd, Err "queue arm audit fields exceed their bounds")
  else
    match loadQueuedByReference s (ap_QueuedRef p) with
    | None => (sd, Ok (blocked out "queued_reference_unavailable" "The queued authorisation reference cannot be resolved safely."))
    | Some rec =>
        let out := mkQueueResult false (Some (view rec)) [] [] "" [] in
        let id := qt_QueueID (qa_Terms rec) in
        let problem := queuedRecordProblem termsDigest rec in
        if problem <>s "" then
          (sd, Ok (blocked out "queued_record_invalid" (say ["This queued authorisation cannot be armed: "; problem; "; nothing was armed."])))
        else if ToLower (TrimSpace (ap_TermsDigest p)) <>s qa_TermsDigest rec then
          (sd, Ok (blocked out "queued_terms_mismatch" "The signed terms digest does not match the prepared terms; nothing was armed."))
        else if qa_State rec <>s QueuedAuthPrepared then
          (sd, Ok (blocked out "queued_not_prepared"
                    (say ["This queued authorisation is already "; qa_State rec; " and cannot be armed again."])))
        else if negb (Before now (qt_ArmDeadline (qa_Terms rec))) then
          let sd := (update env now (expireUnarmedMutate id now) sd).1 in
          let out := match get sd.1 id with Some current => mkQueueResult false (Some (view current)) [] [] "" [] | None => out end in
          (sd, Ok (blocked out "queued_arm_deadline_passed"
                    "The owner's signature arrived after the ten-minute arm deadline; prepare the queue again."))
        else if (qt_Version (qa_Terms rec) =? 1) && negb (ag_fastPath g) then
          (sd, Ok (blocked out "fast_path_disabled"
                    "Proposal submit is disabled by [auto_trade].fast_path_enabled, so nothing can be armed."))
        else if negb (brokerScopeConcrete (ag_scope g)) || negb (sameBrokerScope (ag_scope g) (scope rec)) then
          (sd, Ok (blocked out "queued_scope_mismatch"
                    "The connected account or paper/live mode differs from the one the queue was prepared for."))
        else
          match ag_automatic g with
          | (_ :: _) as blockers => (sd, Ok (mkQueueResult false (qr_Queue out) [] [] "" blockers))
          | [] =>
              match update env now (armMutate id p (ag_marks g) (ag_bookOK g) now) sd with
              | (sd, Err _) => (sd, Ok (blocked out "queue_not_persisted" "The arm could not be stored; nothing was armed."))
              | (sd, Ok ([], Some armed)) =>
                  (sd, Ok (mkQueueResult true (Some (view armed)) [] []
                            (say ["armed: sends "; ag_window g (qa_Terms armed);
                                  if ag_stressOpen g then " (stress open: 30 minutes after the open)" else "";
                                  " if every gate still passes"]) []))
              | (sd, Ok (refused, _)) => (sd, Ok (mkQueueResult false (qr_Queue out) [] [] "" refused))
              end
          end
    end.

(** ** Cancel *)

Record cancelParams := mkCancel { xp_QueueID : string; xp_All : bool; xp_Reason : string; xp_Origin : string; xp_PreparedOnly : bool }.

(** What a turn of the cancel loop collects: the record as found or as left, a cancelled
    record, one that cannot be cancelled here. *)
Inductive cancelOut := Single (r : queuedAuthRecord) | Cancelled (r : queuedAuthRecord) | InFlight (r : queuedAuthRecord).

(** The request kept on a record that may be at the broker. *)
Definition requestCancel (r : queuedAuthRecord) (origin reason : string) (mandateEnded : option time) (now : time)
    : queuedAuthRecord * queuedAuthEvent :=
  let r := r <| qa_CancelRequested := true |> <| qa_CancelOrigin := origin |> in
  let r := match mandateEnded with Some at_ => r <| qa_MandateEndedAt := at_ |> | None => r end in
  tagged (note r queuedEventCancelRequested (qa_State r) now) (fun ev => ev <| qe_Origin := origin |> <| qe_Reason := reason |>).

Definition cancelTurn (p : cancelParams) (id origin reason : string) (now : time) (r : queuedAuthRecord)
    : queuedAuthRecord * list queuedAuthEvent * list cancelOut :=
  let single r := if xp_All p then [] else [Single r] in
  if negb (xp_All p) && (qt_QueueID (qa_Terms r) <>s id) then skip r
  else if xp_PreparedOnly p && (qa_State r <>s QueuedAuthPrepared) then (r, [], single r)
  else if (qt_Version (qa_Terms r) =? 2) && (qa_State r =s QueuedAuthHeld) && ((qa_OrderRef r <>s "") || (qa_PreviewTokenID r <>s "")) then
    if negb (qa_CancelRequested r) then
      let '(r', ev) := requestCancel r origin reason (Some now) now in (r', [ev], single r ++ InFlight r' :: single r')
    else (r, [], single r ++ InFlight r :: single r)
  else if qa_State r =s QueuedAuthSending then
    if negb (qa_CancelRequested r) then
      let '(r', ev) := requestCancel r origin reason None now in (r', [ev], single r ++ InFlight r' :: single r')
    else (r, [], single r ++ InFlight r :: single r)
  else if qa_State r =s QueuedAuthSent then
    if ownerQueueProtection (qa_Terms r) && negb (qa_CancelRequested r) then
      let '(r', ev) := requestCancel r origin reason (Some now) now in (r', [ev], single r ++ single r' ++ [InFlight r'])
    else (r, [], single r ++ [InFlight r])
  else if (qa_State r <>s QueuedAuthPrepared) && negb (waiting r) then (r, [], single r)
  else
    let '(r', ev) := tagged (resolve (r <| qa_CancelOrigin := origin |>) queuedEventCancelled QueuedAuthCancelled queuedReasonOwnerCancelled reason now)
      (fun ev => ev <| qe_Origin := origin |>) in
    (r', [ev], single r ++ Cancelled r' :: single r').

Definition cancelledOf (outs : list cancelOut) : list queuedAuthRecord :=
  stable_sort queuedLE (omap (fun o => match o with Cancelled r => Some r | _ => None end) outs).
Definition inFlightOf (outs : list cancelOut) : list queuedAuthRecord :=
  stable_sort queuedLE (omap (fun o => match o with InFlight r => Some r | _ => None end) outs).
Definition singleOf (outs : list cancelOut) : option queuedAuthRecord :=
  last (omap (fun o => match o with Single r => Some r | _ => None end) outs).

(** QueueCancel; the outer error is a bad request. *)
Definition QueueCancel (env : updateEnv) (now : time) (p : cancelParams) (sd : queuedAuthStore * queueDisk)
    : (queuedAuthStore * queueDisk) * result string queueResult :=
  let '(s, _) := sd in
  let id := TrimSpace (xp_QueueID p) in
  if Bool.eqb (xp_All p) (id <>s "") then (sd, Err "queue cancel needs exactly one of queue_id or all")
  else if negb (attached s) then
    (sd, Ok (blocked no_result "queue_unavailable" "Queued authorisations are unavailable: the daemon state store is not attached."))
  else
    let origin := normalizedWriteOrigin (xp_Origin p) in
    let reason := nonEmptyString (boundedQueuedReason (TrimSpace (xp_Reason p))) "cancelled by the owner" in
    match update env now (fun m order => rangeRecords (cancelTurn p id origin reason now) order m) sd with
    | (sd, Err _) =>
        (sd, Ok (blocked no_result "queue_not_persisted"
                  "The cancel could not be stored; the queued authorisation may still send. Retry the cancel."))
    | (sd, Ok outs) =>
        let cancelled := cancelledOf outs in
        let inFlight := inFlightOf outs in
        let out := mkQueueResult false None (map view cancelled) (map view inFlight) "" [] in
        if xp_All p then
          (sd, Ok (mkQueueResult true None (qr_Queues out) (qr_InFlight out)
            (say (["cancelled "; Itoa (Z.of_nat (List.length cancelled)); " queued authorisation(s) not yet sent"] ++
                  match inFlight with
                  | [] => []
                  | _ => ["; "; Itoa (Z.of_nat (List.length inFlight)); " could not be cancelled here: being placed now (the cancel is kept, so an unsent attempt ends cancelled) or sent and working at the broker (cancel those with `canary order cancel`)"]
                  end)) []))
        else
          match singleOf outs with
          | None => (sd, Ok (blocked out "queued_not_found" "No queued authorisation has this ID."))
          | Some single =>
              let out := mkQueueResult false (Some (view single)) (qr_Queues out) (qr_InFlight out) "" [] in
              let accept msg := mkQueueResult true (qr_Queue out) (qr_Queues out) (qr_InFlight out) msg [] in
              (sd, Ok
                (if (List.length cancelled =? 1)%nat then accept "cancelled; nothing will be sent"
                 else if xp_PreparedOnly p && negb (final single) then
                   blocked out "queued_not_prepared" "It was confirmed meanwhile, so it stays queued; cancel it from the queued list to withdraw it."
                 else if qa_State single =s QueuedAuthSending then
                   blocked out "queued_sending" "The order is being placed now. The cancel is kept: if the attempt did not reach the broker, the record ends cancelled and is never retried; if it did, cancel the order at the broker once it is journaled."
                 else if qa_State single =s QueuedAuthSent then
                   blocked out "queued_sent" (say ["The order is at the broker; cancel it with `canary order cancel "; qa_OrderRef single; "`."])
                 else accept (say ["already "; qa_State single; "; nothing will be sent"])))
          end
    end.

(** ** Reads *)

Definition QueueList (s : queuedAuthStore) (liveOnly : bool) : list QueuedAuth :=
  map view (List.filter (fun r => negb (liveOnly && final r)) (reverse (list_ s))).

Definition QueueStatus (s : queuedAuthStore) (queueID : string) : queueResult :=
  match get s (TrimSpace queueID) with
  | None => blocked no_result "queued_not_found" "No queued authorisation has this ID."
  | Some rec => mkQueueResult true (Some (view rec)) [] [] "" []
  end.
End Store.
