(* ===== verification/QueueExec.v ===== *)
(** * The executor of queued authorisations

    src/internal/daemon/proposal_queue_executor.go: what one pass does to each record
    (end the unreadable, resolve what a dead process left in flight, end the mandates
    of closed positions, expire, follow, hold, cancel, send), the decision on one due
    record, and the gates that keep other writes out; resolveOwnerQueue of
    owner_order_queue.go and endFlatProtectionQueues and fullPositionStopMandates of
    position_protection_mandate.go.  What the engine reads elsewhere (the snapshot,
    the settling book, the position, the preview and the place) is an argument. *)

From stdpp Require Import base decidable list strings gmap sorting.
From Stdlib Require Import ZArith Lia Ascii String SpecFloat.
From S2P Require Import Prelude Floats OrderTypes OrderStatus OrderFold BrokerScope OrderJournal WriteGate PreviewToken SendDisposition.
From S2P Require Import PositionEvidence OrderRisk QueueRecord QueueStore.

(** ** What a refusal means for a waiting record *)

Definition ReadinessMarketClosed : string := "market_closed".
Definition ReadinessQuoteUnusable : string := "quote_unusable".
Definition ReadinessSpreadTooWide : string := "spread_too_wide".
Definition ReadinessHalted : string := "halted".
Definition ReadinessBrokerUnavailable : string := "broker_unavailable".
Definition ReadinessTradingFrozen : string := "trading_frozen".

Definition readinessFrozenCodes : list string := ["trading_frozen"; "trading_controls_changed"].
Definition readinessBrokerCodes : list string :=
  ["gateway_unavailable"; "gateway_account_unconfirmed"; "option_quote_broker_unavailable"; "account_unavailable"; "positions_unavailable";
   "positions_pending"; "account_identity_unscoped"; "broker_session_changed"; "protective_exit_inventory_unavailable"].
Definition readinessHaltCodes : list string := ["market_event_halt_regulatory_or_news"; "market_event_luld_pause"].
Definition readinessSessionCodes : list string := ["market_closed"; "option_rth_closed"].
Definition readinessSpreadCodes : list string := ["option_spread_too_wide"; "wide_spread"; "bounded_spread_too_wide"].
Definition readinessQuoteCodes : list string :=
  ["live_option_quote_required"; "fresh_option_quote_required"; "two_sided_option_quote_required"; "option_quote_request_failed";
   "missing_reference_price"; "quote_stale"; "quote_not_live"; "quote_not_two_sided"; "quote_unavailable"; "fresh_bill_quote_required"].
Definition previewWhatIfFailedCode : string := "what_if_failed".
Definition queuedTransientCodes : list string :=
  ["contract_unresolved"; "position_unavailable"; "notional_unavailable"; previewWhatIfFailedCode; "preview_token_unavailable"; "preview_failed";
   "order_journal_unavailable"; "journal_authority_unavailable"; "submit_intent_not_persisted"; "proposal_refresh_failed";
   "reduction_order_evidence_unavailable"; "protective_order_evidence_unavailable"].
Definition queuedHandOrderCodes : list string := ["existing_reduction_order"; "reduction_order_identity_unknown"].
Definition previewBoundedWorstCode : string := "bounded_limit_beyond_worst".

(** The hold code of a refusal the send can wait out. *)
Definition holdGroup (c : string) : option string :=
  if one_of c readinessFrozenCodes then Some ReadinessTradingFrozen
  else if one_of c readinessBrokerCodes || one_of c queuedTransientCodes then Some ReadinessBrokerUnavailable
  else if one_of c readinessHaltCodes then Some ReadinessHalted
  else if one_of c readinessSessionCodes then Some ReadinessMarketClosed
  else if one_of c readinessSpreadCodes then Some ReadinessSpreadTooWide
  else if one_of c readinessQuoteCodes then Some ReadinessQuoteUnusable
  else if one_of c queuedHandOrderCodes then Some queuedHoldHandOrder
  else if c =s previewBoundedWorstCode then Some queuedHoldWorstPrice
  else None.

(** (hold, code, reason); [held] is the first hold met so far. *)
Fixpoint dispositionFrom (held : string * string) (blockers : list TradingBlocker) : bool * string * string :=
  match blockers with
  | [] => if held.1 =s "" then (false, "", "") else (true, held.1, held.2)
  | b :: rest =>
      let c := TrimSpace (tb_Code b) in
      if c =s "" then dispositionFrom held rest
      else match holdGroup c with
           | Some group => dispositionFrom (if held.1 =s "" then (group, nonEmptyString (tb_Message b) c) else held) rest
           | None =>
               if c =s "preview_not_submit_eligible"
               then (false, queuedReasonWhatIfRefused, nonEmptyString (tb_Message b) "broker WhatIf did not accept the order")
               else (false, c, nonEmptyString (tb_Message b) c)
           end
  end.

Definition queuedDisposition (blockers : list TradingBlocker) : bool * string * string := dispositionFrom ("", "") blockers.

(** ** Edits of one record *)

Definition edited : Type := queuedAuthRecord * list queuedAuthEvent * list queuedAuthRecord.
Definition ticked (now : time) (p : queuedAuthRecord * queuedAuthEvent) : queuedAuthRecord * queuedAuthEvent :=
  tagged p (fun ev => ev <| qe_ExecutorTickAt := now |>).
(** A move whose record is reported after the write. *)
Definition reported (p : queuedAuthRecord * queuedAuthEvent) : edited := moved p [p.1].

Definition expireTurn (now : time) (r : queuedAuthRecord) : edited :=
  if (qa_State r =s QueuedAuthPrepared) && negb (Before now (qt_ArmDeadline (qa_Terms r))) then
    moved (resolve r queuedEventExpired QueuedAuthExpired queuedReasonNotArmed "the owner's signature did not arrive within ten minutes" now) []
  else if waiting r && negb (ownerQueueProtection (qa_Terms r)) && negb (Before now (qt_NotAfter (qa_Terms r))) then
    reported (ticked now (resolve r queuedEventExpired QueuedAuthExpired queuedReasonWindowEnded
      (say (["the send window ended before every gate passed"] ++
            if qa_HoldReason r <>s "" then ["; it was held: "; qa_HoldReason r] else [])) now))
  else skip r.

Definition holdTurn (code reason : string) (now : time) (r : queuedAuthRecord) : edited :=
  if negb (waiting r) || ((qa_State r =s QueuedAuthHeld) && (qa_HoldCode r =s code)) then skip r
  else
    let r := if IsZero (qa_HeldAt r) then r <| qa_HeldAt := now |> else r in
    let r := r <| qa_HoldCode := code |> <| qa_HoldReason := reason |> in
    reported (ticked now (tagged (transition r queuedEventHeld QueuedAuthHeld now)
      (fun ev => ev <| qe_ReasonCode := code |> <| qe_Reason := reason |>))).

Definition cancelQueuedTurn (code reason : string) (now : time) (r : queuedAuthRecord) : edited :=
  if negb (waiting r) then skip r
  else reported (ticked now (resolve r queuedEventCancelled QueuedAuthCancelled code reason now)).

(** One record of a loop over chosen IDs. *)
Definition onRecord (id : string) (turn : queuedAuthRecord -> edited) (m : queueRecords) (_ : list string)
    : queueRecords * list queuedAuthEvent * list queuedAuthRecord := rangeRecords turn [id] m.

(** ** Following a sent order *)

(** truncateBlockerCause *)
Definition truncateBlockerCause (s : string) : string :=
  let rs := runes (CoreStore.bytes_of s) in
  if (List.length rs <=? 200)%nat then s else string_of_bytes (mjoin (take 199 rs) ++ ellipsis).

Definition queuedOrderEnd (v : OrderView) : string :=
  let msg := TrimSpace (v_LastMessage v) in
  if msg <>s "" then say [v_LifecycleStatus v; " ("; truncateBlockerCause msg; ")"] else v_LifecycleStatus v.

Record orderEnd := mkEnd { oe_event : string; oe_state : string; oe_code : string; oe_reason : string }.

(** queuedOrderResolution: [None] while the order works. *)
Definition queuedOrderResolution (v : OrderView) (qtySent : Z) : option orderEnd :=
  if negb (orderLifecycleStatusIsTerminal (v_LifecycleStatus v)) then None
  else if (0 <? qtySent) && (f_of_Z qtySent <=f fadd (v_Filled v) tolerance) then
    Some (mkEnd queuedEventFilled QueuedAuthFilled "" "filled at the broker")
  else if v_LifecycleStatus v =s OrderLifecycleClosedReconciled then
    Some (mkEnd queuedEventFailed QueuedAuthFailed "fill_unconfirmed"
      "the order closed at the broker without a recorded end, so its fill is not confirmed; check the position before any further action")
  else if v_Filled v >f f0 then
    Some (mkEnd queuedEventPartiallyFilled QueuedAuthPartiallyFilled (v_LifecycleStatus v)
      (say ["the order ended partly filled: "; queuedOrderEnd v]))
  else
    Some (mkEnd queuedEventExpiredUnfilled QueuedAuthExpiredUnfilled (v_LifecycleStatus v)
      (say ["the order ended unfilled: "; queuedOrderEnd v])).

Definition queuedRecordOrderResolution (v : OrderView) (r : queuedAuthRecord) : option orderEnd :=
  if ownerQueueProtection (qa_Terms r) then
    if negb (positiveFinite (v_Quantity v)) || (Trunc (v_Quantity v) <>f v_Quantity v) || (f_of_Z 1000000 <f v_Quantity v) then
      if orderLifecycleStatusIsTerminal (v_LifecycleStatus v)
      then Some (mkEnd queuedEventFailed QueuedAuthFailed "fill_unconfirmed" "the final stop quantity could not be verified; check the position")
      else None
    else queuedOrderResolution v (int_of_float (v_Quantity v))
  else queuedOrderResolution v (qa_QuantitySent r).

(** byRef: a later view of a reference replaces an earlier one. *)
Definition viewByRef (views : list OrderView) (ref : string) : option OrderView :=
  last (List.filter (fun v => (v_OrderRef v <>s "") && (v_OrderRef v =s ref)) views).

Definition followed (r : queuedAuthRecord) : bool :=
  (qa_State r =s QueuedAuthSent) || (ownerQueueProtection (qa_Terms r) && (qa_State r =s QueuedAuthHeld)).

(** The events of a view that first shows the broker took the stop. *)
Definition acceptStop (now : time) (r : queuedAuthRecord) : queuedAuthRecord * list queuedAuthEvent :=
  let r := r <| qa_BrokerAcceptedAt := now |> in
  let '(r, sent) :=
    if qa_State r =s QueuedAuthHeld
    then let '(r, ev) := transition r queuedEventSent QueuedAuthSent now in (r, [ev])
    else (r, []) in
  let '(r, ev) := note r "broker_accepted" (qa_State r) now in
  (r, sent ++ [ev]).

Definition rejectStop (now : time) (r : queuedAuthRecord) : queuedAuthRecord * list queuedAuthEvent :=
  let r := r <| qa_HeldAt := now |> <| qa_HoldCode := "broker_rejection_unconfirmed" |>
             <| qa_HoldReason := "The broker rejected the stop. It remains queued; its attempt must be reconciled before retrying." |> in
  if qa_State r <>s QueuedAuthHeld
  then let '(r, ev) := transition r queuedEventHeld QueuedAuthHeld now in (r, [ev])
  else (r, []).

Definition withFill (v : OrderView) (r : queuedAuthRecord) : queuedAuthRecord :=
  let r := r <| qa_FilledQuantity := v_Filled v |> <| qa_AvgFillPrice := v_AvgFillPrice v |> in
  if negb (v_PermID v =? 0) then r <| qa_PermID := v_PermID v |> else r.

(** Fill progress and the end of the order. *)
Definition followFill (now : time) (v : OrderView) (r : queuedAuthRecord) : edited :=
  let progressed := (v_Filled v <>f qa_FilledQuantity r) || (negb (v_PermID v =? qa_PermID r) && negb (v_PermID v =? 0)) in
  let r := withFill v r in
  let fill r ev := ev <| qe_PermID := qa_PermID r |> <| qe_FillQty := qa_FilledQuantity r |> <| qe_AvgPrice := qa_AvgFillPrice r |> in
  match queuedRecordOrderResolution v r with
  | Some e =>
      let p := resolve r (oe_event e) (oe_state e) (oe_code e) (oe_reason e) now in
      moved (tagged p (fill p.1)) (if final p.1 then [p.1] else [])
  | None =>
      if progressed && (qa_FilledQuantity r >f f0)
      then let p := note r queuedEventPartiallyFilled (qa_State r) now in moved (tagged p (fill p.1)) (if final p.1 then [p.1] else [])
      else skip r
  end.

Definition followTurn (now : time) (views : list OrderView) (r : queuedAuthRecord) : edited :=
  if negb (followed r) then skip r
  else
    match viewByRef views (qa_OrderRef r) with
    | None => skip r
    | Some v =>
        let t := qa_Terms r in
        if negb (orderViewMatchesBrokerScope v (scope r)) ||
           ((qt_Version t =? 2) && (negb (v_ConID v =? cp_ConID (qt_Contract t)) || (v_PreviewTokenID v <>s qa_PreviewTokenID r)))
        then skip r
        else if ownerQueueProtection t && IsZero (qa_BrokerAcceptedAt r) then
          if one_of (v_LifecycleStatus v) [OrderLifecycleSubmitted; OrderLifecyclePreSubmitted; OrderLifecycleFilled] then
            let '(r, evs) := acceptStop now r in
            let '(r, evs', outs) := followFill now v r in (r, evs ++ evs', outs)
          else if v_LifecycleStatus v =s OrderLifecycleRejected then
            let '(r, evs) := rejectStop now r in (r, evs, [])
          else followFill now v r
        else followFill now v r
    end.

(** The records a follow pass starts from. *)
Definition sentIDs (s : queuedAuthStore) : list string :=
  map (fun r => qt_QueueID (qa_Terms r)) (List.filter (fun r => followed r && (qa_OrderRef r <>s "")) (list_ s)).

(** ** Unreadable and stuck records *)

Section Exec.
Context (termsDigest : QueuedAuthTerms -> option string).

Definition unreadableTurn (now : time) (r : queuedAuthRecord) : edited :=
  let problem := queuedRecordProblem termsDigest r in
  if (problem =s "") || (final r && one_of (qa_State r) queuedKnownStates) then skip r
  else
    let r := r <| qa_problem := "" |> in
    let p :=
      if one_of (qa_State r) [QueuedAuthPrepared; QueuedAuthArmed; QueuedAuthHeld] then
        resolve r queuedEventCancelled QueuedAuthCancelled queuedReasonRecordUnreadable (say [problem; "; nothing was sent"]) now
      else if qa_State r =s QueuedAuthSent then
        resolve r queuedEventFailed QueuedAuthFailed queuedReasonRecordUnreadable
          (say [problem; "; the order reached the broker, so follow it in the order journal"]) now
      else
        resolve r queuedEventFailed QueuedAuthFailed queuedReasonRecordUnreadable
          (say [problem; "; confirm against the order journal and broker statements; not resent"]) now in
    reported (ticked now p).

(** The attempt fields a proven unsent send gives back. *)
Definition clearAttempt (r : queuedAuthRecord) : queuedAuthRecord :=
  r <| qa_SendingAt := 0 |> <| qa_PreviewTokenID := "" |> <| qa_OrderRef := "" |> <| qa_QuantitySent := 0 |> <| qa_LimitPrice := f0 |>
    <| qa_SendQuote := None |> <| qa_Late := false |>.

Definition queuedSendingStale : Z := 5 * Second + Minute.
Definition stuck (startedAt now : time) (r : queuedAuthRecord) : bool :=
  (qa_State r =s QueuedAuthSending) && (Before (qa_SendingAt r) startedAt || (queuedSendingStale <? Sub now (qa_SendingAt r))).

Definition unclearHold : string := "Broker acceptance is unconfirmed; checking the existing attempt, never resending it.".
Definition holdUnclear (r : queuedAuthRecord) (now : time) : queuedAuthRecord * queuedAuthEvent :=
  transition (r <| qa_HoldCode := queuedReasonSendUnclear |> <| qa_HoldReason := unclearHold |>) queuedEventHeld QueuedAuthHeld now.

Definition recoverTurn (startedAt now : time) (journal : list orderJournalEvent) (r : queuedAuthRecord) : edited :=
  if qa_State r <>s QueuedAuthSending then skip r
  else
    let '(outcome, orderRef) := queuedJournalSendOutcome journal r in
    let r := if orderRef <>s "" then r <| qa_OrderRef := orderRef |> else r in
    let across := if negb (Before (qa_SendingAt r) startedAt) then "because its outcome was not recorded" else "across the restart" in
    let p :=
      match outcome with
      | orderSendReached =>
          tagged (transition (r <| qa_SentAt := now |>) queuedEventRecovered QueuedAuthSent now)
            (fun ev => ev <| qe_Reason := say ["the order reached the broker; confirmed from the order journal "; across] |>)
      | orderSendUnclear =>
          if ownerQueueProtection (qa_Terms r) then holdUnclear r now
          else resolve r queuedEventRecovered QueuedAuthFailed queuedReasonSendUnclear
                 (say ["the broker send outcome is unknown "; across; "; confirm against the order journal and broker statements; not resent"]) now
      | _ =>
          if qa_CancelRequested r then
            resolve r queuedEventCancelled QueuedAuthCancelled queuedReasonOwnerCancelled
              "cancelled by the owner while the order was being placed; the order journal shows the attempt never reached the broker, so nothing was sent" now
          else
            tagged (transition (clearAttempt r) queuedEventRecovered QueuedAuthArmed now)
              (fun ev => ev <| qe_ReasonCode := queuedReasonRestartBeforeSend |>
                 <| qe_Reason := say ["the send stopped "; across; " before it reached the broker; nothing was sent, and the send is retried inside the window after full revalidation"] |>)
      end in
    reported (tagged p (fun ev => ev <| qe_DaemonStartedAt := startedAt |> <| qe_ExecutorTickAt := now |>)).

Definition stuckIDs (startedAt now : time) (s : queuedAuthStore) : list string :=
  map (fun r => qt_QueueID (qa_Terms r)) (List.filter (stuck startedAt now) (list_ s)).

(** ** The mandates of closed positions *)

Definition endMandateTurn (now : time) (r : queuedAuthRecord) : edited :=
  if negb (IsZero (qa_MandateEndedAt r)) then skip r
  else
    let r := r <| qa_MandateEndedAt := now |> in
    let attempted := (qa_OrderRef r <>s "") || (qa_PreviewTokenID r <>s "") in
    let r := if attempted then r <| qa_CancelRequested := true |> else r in
    if negb attempted && (waiting r || (qa_State r =s QueuedAuthPrepared)) then
      moved (resolve r queuedEventCancelled QueuedAuthCancelled queuedReasonPositionChanged "the position closed; protection mandate ended" now) []
    else moved (note r "mandate_ended" (qa_State r) now) [].

Definition flatIDs (s : queuedAuthStore) (sc : brokerStateScope) (positions : list (option RawPosition)) : list string :=
  map (fun r => qt_QueueID (qa_Terms r))
    (List.filter (fun r =>
       ownerQueueProtection (qa_Terms r) && sameBrokerScope (scope r) sc && IsZero (qa_MandateEndedAt r) &&
       match exactRiskPositionQuantity positions (qt_Contract (qa_Terms r)) with Ok qty => qty <=f f0 | Err _ => false end) (list_ s)).

(** fullPositionStopMandates: whether a queue's mandate backs the order [ref]. *)
Definition fullPositionStopMandates (s : queuedAuthStore) (sc : brokerStateScope) (views : list OrderView) (ref : string) : bool :=
  existsb (fun r =>
    (qa_OrderRef r =s ref) && (qa_State r =s QueuedAuthSent) && (qa_OrderRef r <>s "") && ownerQueueProtection (qa_Terms r) &&
    IsZero (qa_MandateEndedAt r) && negb (qa_CancelRequested r) && sameBrokerScope (scope r) sc && (queuedRecordProblem termsDigest r =s "") &&
    existsb (fun v =>
      orderViewMatchesBrokerScope v sc && (v_OrderRef v =s qa_OrderRef r) && (v_PreviewTokenID v =s qa_PreviewTokenID r) &&
      (v_ConID v =? cp_ConID (qt_Contract (qa_Terms r))) && (v_Action v =s qt_Action (qa_Terms r)) &&
      ((qa_PermID r =? 0) || (v_PermID v =? qa_PermID r))) views) (list_ s).
End Exec.

(** ** The decision on one due record *)

(** rpc.TradeProposalMandate, as the scheduler reads it. *)
Record mandateRow := mkMandate { mr_Episode : string; mr_Lot : Z; mr_Rank : Z }.

(** The fields of rpc.TradeProposal the queue and the scheduler read: [pr_Queued] is the
    key and state of the queue covering the row, [pr_Held] a held mandate's reason,
    [pr_InUnit] whether it belongs to a multi-leg unit, [pr_OptionExit] the kind of an
    option exit, [pr_SweepRank] a cash sweep's priority. *)
Record TradeProposal := mkProposal {
  pr_Key : string; pr_Bucket : string; pr_Revision : string; pr_Contract : ContractParams; pr_Symbol : string; pr_SecType : string;
  pr_Action : string; pr_Quantity : Z; pr_PositionQuantity : float64; pr_PositionEffect : string; pr_OrderType : string; pr_TIF : string;
  pr_Trail : option OrderTrailSpec; pr_LimitPrice : option float64; pr_CreatedAt : time; pr_EffectiveRulebook : Fingerprint;
  pr_Blockers : list TradingBlocker; pr_Shadow : bool; pr_InUnit : bool; pr_Queued : option (string * string); pr_Held : option string;
  pr_TriggerMethod : Z; pr_OutsideRTH : bool; pr_State : string; pr_NeverSkipVeto : bool; pr_Mandate : option mandateRow;
  pr_OptionExit : option string; pr_SweepRank : Z
}.
#[global] Instance proposal_eta : Eta TradeProposal := fun r => mkProposal
  (pr_Key r) (pr_Bucket r) (pr_Revision r) (pr_Contract r) (pr_Symbol r) (pr_SecType r) (pr_Action r) (pr_Quantity r)
  (pr_PositionQuantity r) (pr_PositionEffect r) (pr_OrderType r) (pr_TIF r) (pr_Trail r) (pr_LimitPrice r) (pr_CreatedAt r)
  (pr_EffectiveRulebook r) (pr_Blockers r) (pr_Shadow r) (pr_InUnit r) (pr_Queued r) (pr_Held r) (pr_TriggerMethod r)
  (pr_OutsideRTH r) (pr_State r) (pr_NeverSkipVeto r) (pr_Mandate r) (pr_OptionExit r) (pr_SweepRank r).
Definition zero_Proposal : TradeProposal :=
  mkProposal "" "" "" zero_Contract "" "" "" 0 f0 "" "" "" None None 0 zero_Fingerprint [] false false None None 0 false "" false None None 0.

(** The snapshot a refresh leaves, and the error it returned. *)
Record TradeProposalSnapshot := mkSnapshot {
  sn_err : option string; sn_Blockers : list TradingBlocker; sn_Proposals : list TradeProposal; sn_AutoTradeBlockers : list TradingBlocker;
  sn_AccountID : string; sn_AccountMode : string; sn_EffectivePolicyFingerprint : Fingerprint; sn_LoadedFromState : bool
}.

(** What revalidation finds: a row with the blockers it carries, or a reason to cancel. *)
Inductive resolved := Row (prop : TradeProposal) (blockers : list TradingBlocker) | Cancel (code reason : string).

Definition appendTradingBlockerOnce (blockers : list TradingBlocker) (next : TradingBlocker) : list TradingBlocker :=
  if existsb (fun b => tb_Code b =s tb_Code next) blockers then blockers else blockers ++ [next].
Definition mergeTradingBlockers (first second : list TradingBlocker) : list TradingBlocker :=
  fold_left appendTradingBlockerOnce second first.

Section Decide.
Context (termsDigest : QueuedAuthTerms -> option string).
(** queuedRowTermsDigest of a row (JSON and SHA-256); fmt's "%g". *)
Context (rowTermsDigest : TradeProposal -> string) (formatG : float64 -> string).

Definition resolveRow (snap : TradeProposalSnapshot) (rec : queuedAuthRecord) : resolved :=
  let t := qa_Terms rec in
  match sn_err snap with
  | Some e =>
      Row zero_Proposal
        (match sn_Blockers snap, sn_Proposals snap with
         | (_ :: _) as blockers, [] => blockers
         | _, _ => [mkBlocker "proposal_refresh_failed" e ""]
         end)
  | None =>
      match sn_Blockers snap, sn_Proposals snap, sn_AutoTradeBlockers snap with
      | (_ :: _) as blockers, [], _ => Row zero_Proposal blockers
      | _, _, (_ :: _) as blockers => Row zero_Proposal blockers
      | _, _, [] =>
          if negb (sameBrokerScope (mkScope (sn_AccountID snap) (sn_AccountMode snap)) (scope rec)) then
            Cancel queuedReasonAccountChanged "the proposals now belong to a different account or paper/live mode"
          else
            match List.find (fun p => pr_Key p =s qt_Key t) (sn_Proposals snap) with
            | None => Cancel queuedReasonRowGone "the rule no longer proposes this reduction"
            | Some prop =>
                if rowTermsDigest prop <>s qt_RowTermsDigest t then
                  Cancel queuedReasonRowTermsChanged "the proposal's contract, side or effect changed after the owner signed"
                else if negb (bool_decide (sn_EffectivePolicyFingerprint snap = qt_PolicyFingerprint t)) then
                  Cancel queuedReasonPolicyChanged "the protection policy changed after the owner signed"
                else if negb (bool_decide (pr_EffectiveRulebook prop = qt_RulebookFingerprint t)) then
                  Cancel queuedReasonPolicyChanged "the Rulebook changed after the owner signed"
                else if tolerance <f fabs (fsub (pr_PositionQuantity prop) (qt_PositionQuantity t)) then
                  Cancel queuedReasonPositionChanged
                    (say ["the position changed from "; formatG (qt_PositionQuantity t); " to "; formatG (pr_PositionQuantity prop); " after the owner signed"])
                else Row prop (mergeTradingBlockers (sn_Blockers snap) (pr_Blockers prop))
            end
      end
  end.

(** The captured position, or why it is unavailable; whether an added-lot stop exists;
    the active policy. *)
Record ownerWorld := mkOwnerWorld { ow_position : result string float64; ow_attachedStop : bool; ow_policy : Fingerprint }.

Definition ownerRow (t : QueuedAuthTerms) : TradeProposal :=
  let '(orderType, trail) := match qt_OwnerOrder t with Some o => (oo_OrderType o, oo_Trail o) | None => ("", None) end in
  zero_Proposal <| pr_Key := qt_Key t |> <| pr_Bucket := qt_Bucket t |> <| pr_Revision := qt_RevisionAtQueue t |>
    <| pr_Contract := qt_Contract t |> <| pr_Action := qt_Action t |> <| pr_Quantity := qt_MaxQuantity t |>
    <| pr_PositionQuantity := qt_PositionQuantity t |> <| pr_PositionEffect := qt_PositionEffect t |> <| pr_OrderType := orderType |>
    <| pr_TIF := qt_TIF t |> <| pr_Trail := trail |>.

Definition resolveOwnerQueue (w : ownerWorld) (rec : queuedAuthRecord) : resolved :=
  let t := qa_Terms rec in
  let p := ownerRow t in
  let checkPolicy p :=
    if negb (bool_decide (ow_policy w = qt_PolicyFingerprint t))
    then Row p (preparedBlocker "queue_policy_changed" "The policy changed after confirmation; the queue is held.")
    else Row p [] in
  match ow_position w with
  | Err e => Row p (preparedBlocker "position_unavailable" e)
  | Ok current =>
      if ownerQueueProtection t then
        if ow_attachedStop w then
          Row p (preparedBlocker "attached_stop_overlap" "An added-lot stop overlaps this full-position mandate; review protection first.")
        else if current <=f f0 then Cancel queuedReasonPositionChanged "the position closed; its protection queue is cancelled"
        else if (Trunc current <>f current) || (f_of_Z 1000000 <f current) then
          Row p (preparedBlocker "queue_position_unavailable" "Whole-share coverage cannot be verified.")
        else checkPolicy (p <| pr_Quantity := int_of_float current |> <| pr_PositionQuantity := current |>)
      else if current <>f qt_PositionQuantity t then
        Cancel queuedReasonPositionChanged "the position changed after confirmation; prepare the exact order again"
      else checkPolicy p
  end.

(** One hand order of the settling book, and the rule (holdSince). *)
Record automaticHandOrder := mkHand { ho_RequestedAt : time; ho_Mark : string }.
Record automaticSettlingBook := mkBook { sb_ok : bool; sb_hand : list automaticHandOrder }.
Inductive settlingHold := Settled | HoldHandOrder | HoldUnavailable.

Definition holdSince (b : automaticSettlingBook) (since : time) (baseline : list string) (baselineKnown : bool) : settlingHold :=
  if negb (sb_ok b) then HoldUnavailable
  else if existsb (fun o => After (ho_RequestedAt o) since || negb baselineKnown || (ho_Mark o =s "") || negb (one_of (ho_Mark o) baseline)) (sb_hand b)
  then HoldHandOrder else Settled.

(** What executeQueued reads: [xw_closed] is the phrase of a session known to be closed. *)
Record execWorld := mkExecWorld {
  xw_scope : brokerStateScope; xw_frozen : bool; xw_paused : option string; xw_gatewayReady : bool; xw_closed : option string;
  xw_fastPath : bool; xw_snapshot : TradeProposalSnapshot; xw_owner : ownerWorld; xw_book : automaticSettlingBook
}.

Inductive execDecision := Ignore | HoldIt (code reason : string) | CancelIt (code reason : string) | SendIt (prop : TradeProposal).

(** settleQueuedRefusal *)
Definition settleQueuedRefusal (rec : queuedAuthRecord) (blockers : list TradingBlocker) : execDecision :=
  let '(hold, code, reason) := queuedDisposition blockers in
  let hold := if (qt_Version (qa_Terms rec) =? 2) && (code <>s "") then true else hold in
  if hold then HoldIt code reason else if code <>s "" then CancelIt code reason else Ignore.

Definition queuedResolve (w : execWorld) (rec : queuedAuthRecord) : resolved :=
  if qt_Version (qa_Terms rec) =? 2 then resolveOwnerQueue (xw_owner w) rec else resolveRow (xw_snapshot w) rec.

Definition executeQueued (w : execWorld) (rec : queuedAuthRecord) : execDecision :=
  let t := qa_Terms rec in
  let problem := queuedRecordProblem termsDigest rec in
  if (qt_Version t =? 2) && (qa_OrderRef rec <>s "") then Ignore
  else if problem <>s "" then CancelIt queuedReasonRecordUnreadable problem
  else if negb (brokerScopeConcrete (xw_scope w)) then
    HoldIt ReadinessBrokerUnavailable "the broker session has no concrete account and paper/live mode yet"
  else if negb (sameBrokerScope (xw_scope w) (scope rec)) then
    if ownerQueueProtection t then HoldIt queuedReasonAccountChanged "Protection waits for its original account and mode."
    else CancelIt queuedReasonAccountChanged "the connected account or paper/live mode changed after the owner signed"
  else if xw_frozen w then HoldIt ReadinessTradingFrozen "trading writes are frozen by runtime platform settings"
  else
    match xw_paused w with
    | Some sections =>
        HoldIt "config_automation_paused"
          (say ["config.toml ["; sections; "] runs on Canary's defaults; the send waits inside its window until the file is fixed and Canary restarted"])
    | None =>
        if negb (xw_gatewayReady w) then HoldIt ReadinessBrokerUnavailable "the broker link to IBKR Gateway/TWS is not ready"
        else
          match (if ownerQueueProtection t then None else xw_closed w) with
          | Some phrase => HoldIt ReadinessMarketClosed (nonEmptyString phrase "the regular session is not open")
          | None =>
              if (qt_Version t =? 1) && negb (xw_fastPath w) then
                CancelIt "fast_path_disabled" "proposal submit was disabled by [auto_trade].fast_path_enabled after the owner signed"
              else
                match queuedResolve w rec with
                | Cancel code reason => CancelIt code reason
                | Row _ ((_ :: _) as blockers) => settleQueuedRefusal rec blockers
                | Row prop [] =>
                    match holdSince (xw_book w) (qa_ArmedAt rec) (qa_SettlingBaseline rec) (qa_SettlingBaselineKnown rec) with
                    | Settled => SendIt prop
                    | HoldUnavailable => HoldIt ReadinessBrokerUnavailable
                        "the broker's open-order inventory is unavailable, so a new or modified hand order cannot be ruled out; this sends once it can, inside the window"
                    | HoldHandOrder => HoldIt queuedHoldHandOrder
                        "an order placed outside Canary's gate after the owner signed, or modified since, is still working at the broker; this sends once it fills or is cancelled, inside the window"
                    end
                end
          end
    end.

(** The loop of runQueuedCycle: which records are due. *)
Definition due (now : time) (r : queuedAuthRecord) : bool :=
  let t := qa_Terms r in
  waiting r && negb (Before now (qt_NotBefore t)) && (ownerQueueProtection t || Before now (qt_NotAfter t)).

(** queuedWake: nanoseconds until the executor next has something to do. *)
Definition consider (now : time) (next at_ : time) : time :=
  if After at_ now && (IsZero next || Before at_ next) then at_ else next.
Definition queuedWake (now : time) (s : queuedAuthStore) : option Z :=
  if negb (attached s) then None
  else
    let next := fold_left (fun next rec =>
      let t := qa_Terms rec in
      if qa_State rec =s QueuedAuthPrepared then consider now next (qt_ArmDeadline t)
      else if waiting rec then consider now (consider now next (qt_NotBefore t)) (qt_NotAfter t)
      else next) (list_ s) 0 in
    if IsZero next then None else Some (Z.max (Sub next now) Second).

(** ** One send *)

(** The parts of rpc.OrderPreviewResult a send reads. *)
Record OrderPreviewResult := mkPreview {
  op_PreviewTokenID : string; op_Draft : OrderDraft; op_Quote : OrderQuoteSnapshot; op_PositionBefore : float64
}.

(** The first switch of beforePlace: why the draft is outside the signed terms. *)
Definition sendMismatch (terms : QueuedAuthTerms) (preview : OrderPreviewResult) : string :=
  let d := op_Draft preview in
  let protection := ownerQueueProtection terms in
  let trail := match qt_OwnerOrder terms with Some o => oo_Trail o | None => None end in
  if negb (cp_ConID (dr_Contract d) =? cp_ConID (qt_Contract terms)) || negb (EqualFold (dr_Action d) (qt_Action terms))
  then "the preview does not describe the signed contract and side"
  else if (dr_Quantity d <=? 0) || (negb protection && (qt_MaxQuantity terms <? dr_Quantity d))
  then "the preview quantity is outside the signed maximum"
  else if protection && ((f_of_Z (dr_Quantity d) <>f op_PositionBefore preview) || negb (trailSpecsEquivalent (dr_Trail d) trail))
  then "the preview changed full-position coverage or the approved trail"
  else if (qt_Version terms =? 2) && negb protection && negb (dr_Quantity d =? qt_MaxQuantity terms)
  then "the preview changed the approved quantity"
  else if negb protection && negb (queuedLimitInside (qt_Action terms) (dr_LimitPrice d) (qt_WorstPrice terms))
  then "the preview limit is beyond the signed worst price"
  else "".

(** Why nothing was staged. *)
Inductive unstaged := NotWaiting | Problem (problem : string) | Outside.

Definition resume (at_ : time) (r : queuedAuthRecord) : queuedAuthRecord * list queuedAuthEvent :=
  if qa_State r =s QueuedAuthHeld
  then let p := transition (r <| qa_HeldAt := 0 |> <| qa_HoldCode := "" |> <| qa_HoldReason := "" |>) queuedEventResumed QueuedAuthArmed at_ in
       (p.1, [p.2])
  else (r, []).

(** The intent persisted before the broker call. *)
Definition withIntent (at_ : time) (preview : OrderPreviewResult) (r : queuedAuthRecord) : queuedAuthRecord :=
  let d := op_Draft preview in
  r <| qa_SendingAt := at_ |> <| qa_PreviewTokenID := op_PreviewTokenID preview |> <| qa_OrderRef := dr_OrderRef d |>
    <| qa_QuantitySent := dr_Quantity d |> <| qa_LimitPrice := dr_LimitPrice d |>
    <| qa_SendQuote := Some (queuedSendQuote (op_Quote preview)) |>
    <| qa_Late := queuedLateAfter <? Sub at_ (qt_NotBefore (qa_Terms r)) |>.

Definition stageIntent (startedAt at_ : time) (preview : OrderPreviewResult) (r : queuedAuthRecord) : queuedAuthRecord * queuedAuthEvent :=
  let r := withIntent at_ preview r in
  tagged (transition r queuedEventSending QueuedAuthSending at_)
    (fun ev => ev <| qe_QtySent := qa_QuantitySent r |> <| qe_Limit := qa_LimitPrice r |> <| qe_Quote := qa_SendQuote r |>
                  <| qe_Late := qa_Late r |> <| qe_Origin := OrderOriginDaemonOwnerQueued |>
                  <| qe_DaemonStartedAt := startedAt |> <| qe_ExecutorTickAt := at_ |>).

Definition stageTurn (startedAt at_ : time) (preview : OrderPreviewResult) (r : queuedAuthRecord)
    : queuedAuthRecord * list queuedAuthEvent * list unstaged :=
  let t := qa_Terms r in
  let problem := queuedRecordProblem termsDigest r in
  if negb (waiting r) then (r, [], [NotWaiting])
  else if problem <>s "" then (r, [], [Problem problem])
  else if Before at_ (qt_NotBefore t) || (negb (ownerQueueProtection t) && negb (Before at_ (qt_NotAfter t))) then (r, [], [Outside])
  else
    let '(r, resumed) := resume at_ r in
    let '(r, ev) := stageIntent startedAt at_ preview r in
    (r, resumed ++ [ev], []).

(** Whether the placement may go on: only the attempt whose token the stored intent names. *)
Definition mayPlace (s : queuedAuthStore) (id tokenID : string) : bool :=
  match get s id with
  | Some got => (qa_State got =s QueuedAuthSending) && (qa_PreviewTokenID got =s tokenID)
  | None => false
  end.

(** beforePlace: [Err] refuses the placement with what the caller keeps. *)
Definition beforePlace (env : updateEnv) (startedAt at_ : time) (id : string) (terms : QueuedAuthTerms) (preview : OrderPreviewResult)
    (sd : queuedAuthStore * queueDisk) : (queuedAuthStore * queueDisk) * result string (list unstaged) :=
  let mismatch := sendMismatch terms preview in
  if mismatch <>s "" then (sd, Err mismatch)
  else
    match update env at_ (fun m _ => rangeRecords (stageTurn startedAt at_ preview) [id] m) sd with
    | (sd, Err e) => (sd, Err (say ["persist queued send intent: "; e]))
    | (sd, Ok why) =>
        if mayPlace sd.1 id (op_PreviewTokenID preview) then (sd, Ok why)
        else (sd, Err "the queued authorisation was cancelled or taken before the broker call")
    end.

(** ** What the attempt came to *)

(** rpc.TradeProposalSubmitResult, the fields the executor reads. *)
Record submitResult := mkSubmit {
  su_Accepted : bool; su_OrderRef : string; su_Blockers : list TradingBlocker; su_Message : string; su_WhatIfStatus : option string
}.

Definition tradingBlockersFreezeOnly (blockers : list TradingBlocker) : bool :=
  existsb (fun b => tb_Code b =s "trading_frozen") blockers &&
  forallb (fun b => one_of (tb_Code b) ["trading_frozen"; "trading_controls_changed"]) blockers.

Definition automaticFrozenRefusal (res : submitResult) (err placeErr : option sendErr) : bool :=
  if su_Accepted res then false
  else match placeErr with
       | None => negb (present err) && tradingBlockersFreezeOnly (su_Blockers res)
       | Some e =>
           if negb (errIs e "errTradingFrozen") then false
           else if present (se_typed e) then SendDispositionOf (Some e) =s SendDispositionDefinitelyUnsent
           else true
       end.

Definition automaticOutcomeReason (res : submitResult) (err : option sendErr) : string :=
  match err, su_Blockers res with
  | Some e, _ => se_text e
  | None, b :: _ => if TrimSpace (tb_Message b) =s "" then tb_Code b else say [tb_Code b; ": "; tb_Message b]
  | None, [] => if TrimSpace (su_Message res) <>s "" then su_Message res else "broker did not accept the order"
  end.

(** [journal] is [None] when it cannot be read. *)
Definition sendOutcome (terms : QueuedAuthTerms) (token : string) (res : submitResult) (err placeErr : option sendErr)
    (journal : option (list orderJournalEvent)) : orderSendOutcome * string :=
  if negb (present err) && su_Accepted res then (orderSendReached, "")
  else if automaticFrozenRefusal res err placeErr then (orderSendNone, "")
  else match journal with
       | Some events => queuedJournalSendOutcome events (zero_Queued <| qa_Terms := terms |> <| qa_PreviewTokenID := token |>)
       | None => (orderSendUnclear, "")
       end.

Definition outcomeTurn (finish : time) (outcome : orderSendOutcome * string) (res : submitResult) (err placeErr : option sendErr)
    (r : queuedAuthRecord) : edited :=
  if qa_State r <>s QueuedAuthSending then skip r
  else
    let frozen := automaticFrozenRefusal res err placeErr in
    let p :=
      match outcome.1 with
      | orderSendReached =>
          let r := r <| qa_SentAt := finish |>
                     <| qa_OrderRef := nonEmptyString (su_OrderRef res) (nonEmptyString outcome.2 (qa_OrderRef r)) |> in
          tagged (transition r queuedEventSent QueuedAuthSent finish)
            (fun ev => ev <| qe_QtySent := qa_QuantitySent r |> <| qe_Limit := qa_LimitPrice r |> <| qe_Late := qa_Late r |>
                          <| qe_Origin := OrderOriginDaemonOwnerQueued |>)
      | orderSendNone | orderSendFailedUnsent =>
          if qa_CancelRequested r then
            resolve r queuedEventCancelled QueuedAuthCancelled queuedReasonOwnerCancelled
              "cancelled by the owner while the order was being placed; the attempt never reached the broker, so nothing was sent" finish
          else
            let code := if frozen then ReadinessTradingFrozen else ReadinessBrokerUnavailable in
            let reason := boundedQueuedReason
              (if frozen then "trading writes are frozen by runtime platform settings"
               else say ["the send was refused before it reached the broker ("; automaticOutcomeReason res err; "); it is retried inside the window"]) in
            let r := (clearAttempt r) <| qa_HeldAt := finish |> <| qa_HoldCode := code |> <| qa_HoldReason := reason |> in
            tagged (transition r queuedEventHeld QueuedAuthHeld finish) (fun ev => ev <| qe_ReasonCode := code |> <| qe_Reason := reason |>)
      | orderSendUnclear =>
          if ownerQueueProtection (qa_Terms r) then holdUnclear r finish
          else resolve r queuedEventFailed QueuedAuthFailed queuedReasonSendUnclear
                 (say ["the send did not return a confirmed result: "; automaticOutcomeReason res err;
                       "; confirm against the order journal and broker statements; not resent"]) finish
      end in
    reported (ticked finish p).

(** What an unstaged attempt does to its record: [failure] is previewFailureBlockers(err). *)
Definition settleUnstaged (rec : queuedAuthRecord) (mismatch : string) (why : list unstaged) (failed : bool) (failure : list TradingBlocker)
    (res : submitResult) : execDecision :=
  if mismatch <>s "" then CancelIt queuedReasonSendRefused (say [mismatch; "; nothing was sent"])
  else match why with
       | Problem problem :: _ => CancelIt queuedReasonRecordUnreadable problem
       | Outside :: _ => Ignore
       | _ =>
           if negb failed && (match su_Blockers res with [] => true | _ => false end) then Ignore
           else
             let blockers := match su_Blockers res with [] => failure | l => l end in
             let blockers :=
               match su_WhatIfStatus res with
               | Some status =>
                   if status =s "rejected" then blockers
                   else map (fun b => if tb_Code b =s "preview_not_submit_eligible" then mkBlocker previewWhatIfFailedCode (tb_Message b) (tb_Action b) else b) blockers
               | None => blockers
               end in
             settleQueuedRefusal rec blockers
       end.

(** ** The gates other writes meet *)

Record queuedWriteGrant := mkGrant { wg_QueueID : string; wg_Key : string; wg_Bucket : string }.

(** daemonOwnerQueuedOriginBlockers: the codes it refuses with. *)
Definition daemonOwnerQueuedOriginBlockers (s : queuedAuthStore) (grant : option queuedWriteGrant) (now : time) : list string :=
  match grant with
  | None => ["daemon_origin_unauthorised"]
  | Some g =>
      match get s (wg_QueueID g) with
      | None => ["daemon_origin_unauthorised"]
      | Some rec =>
          let t := qa_Terms rec in
          if negb (liveIntent rec) || (qt_Key t <>s wg_Key g) || (qt_Bucket t <>s wg_Bucket g) || qa_CancelRequested rec ||
             negb (IsZero (qa_MandateEndedAt rec)) then ["daemon_origin_unauthorised"]
          else if Before now (qt_NotBefore t) || (negb (ownerQueueProtection t) && negb (Before now (qt_NotAfter t)))
          then ["queued_window_closed"]
          else []
      end
  end.

(** queuedSubmitBlockers: the codes it refuses a row with. *)
Definition queuedSubmitBlockers (s : queuedAuthStore) (grant : option queuedWriteGrant) (fastPath : bool) (prop : TradeProposal)
    (rec : option queuedAuthRecord) : list string :=
  match rec, grant with
  | Some rec, Some g =>
      match get s (qt_QueueID (qa_Terms rec)) with
      | Some current =>
          if (wg_QueueID g <>s qt_QueueID (qa_Terms rec)) || (wg_Key g <>s pr_Key prop) || (wg_Bucket g <>s pr_Bucket prop) || negb (waiting current)
          then ["daemon_origin_unauthorised"]
          else if negb fastPath then ["fast_path_disabled"] else []
      | None => ["daemon_origin_unauthorised"]
      end
  | _, _ => ["daemon_origin_unauthorised"]
  end.

(** queuedLiveRecordFor *)
Definition queuedLiveRecordFor (s : queuedAuthStore) (sc : brokerStateScope) (contractSide : string) : option queuedAuthRecord :=
  if (contractSide =s "") || negb (attached s) then None
  else List.find (fun rec => liveIntent rec && sameIntent contractSide sc rec) (list_ s).

(** queuedIntentGateBlockers, on the row's contract side. *)
Definition queuedIntentGateBlockers (s : queuedAuthStore) (sc : brokerStateScope) (grant : option queuedWriteGrant) (contractSide : string)
    (own : option queuedAuthRecord) : list string :=
  match queuedLiveRecordFor s sc contractSide with
  | None => []
  | Some rec =>
      let mine :=
        match own, grant with
        | Some o, Some g => (qt_QueueID (qa_Terms o) =s qt_QueueID (qa_Terms rec)) && (wg_QueueID g =s qt_QueueID (qa_Terms rec))
        | _, _ => false
        end in
      if mine then [] else [queuedIntentExistsCode]
  end.
End Decide.
