(* ===== verification/QueueFacts.v ===== *)
(** * What every move of a queued authorisation obeys

    The life cycle of a record as its journal shows it ([legal], [follows]) and the
    law of the record edits of QueueStore and QueueExec ([lawful]): each keeps the
    signed terms, journals a legal path, never makes an intent out of a record that
    was none, and keeps what is known of the record's broker attempt. *)

From stdpp Require Import base decidable list strings gmap sorting.
From Stdlib Require Import ZArith Lia Ascii String SpecFloat.
From S2P Require Import Prelude OrderTypes OrderStatus BrokerScope OrderJournal WriteGate PreviewToken SendDisposition.
From S2P Require Import PositionEvidence OrderRisk QueueRecord QueueStore QueueExec.

(** ** The life cycle *)

(** The states a record in [from] may move to; a note keeps its state. *)
Definition nextStates (from : string) : list string :=
  if from =s "" then [QueuedAuthPrepared]
  else if from =s QueuedAuthPrepared then [QueuedAuthArmed; QueuedAuthCancelled; QueuedAuthExpired]
  else if from =s QueuedAuthArmed then [QueuedAuthHeld; QueuedAuthSending; QueuedAuthCancelled; QueuedAuthExpired]
  else if from =s QueuedAuthHeld then
    [QueuedAuthHeld; QueuedAuthArmed; QueuedAuthSent; QueuedAuthCancelled; QueuedAuthExpired; QueuedAuthFilled; QueuedAuthPartiallyFilled;
     QueuedAuthExpiredUnfilled; QueuedAuthFailed]
  else if from =s QueuedAuthSending then [QueuedAuthSent; QueuedAuthHeld; QueuedAuthArmed; QueuedAuthCancelled; QueuedAuthFailed]
  else if from =s QueuedAuthSent then
    [QueuedAuthHeld; QueuedAuthFilled; QueuedAuthPartiallyFilled; QueuedAuthExpiredUnfilled; QueuedAuthFailed]
  else [].

Definition finalState (state : string) : bool :=
  one_of state [QueuedAuthFilled; QueuedAuthPartiallyFilled; QueuedAuthExpiredUnfilled; QueuedAuthCancelled; QueuedAuthExpired; QueuedAuthFailed].

(** An event keeps its record's state or moves it along the life cycle (a record in a
    state this build does not know only fails), and only the owner's arm takes a record
    out of prepared alive. *)
Definition legal (ev : queuedAuthEvent) : bool :=
  ((qe_StateFrom ev =s qe_StateTo ev) ||
   one_of (qe_StateTo ev) (nextStates (qe_StateFrom ev)) ||
   (negb (one_of (qe_StateFrom ev) queuedKnownStates) && (qe_StateTo ev =s QueuedAuthFailed))) &&
  (negb ((qe_StateFrom ev =s QueuedAuthPrepared) && (qe_StateTo ev =s QueuedAuthArmed)) || (qe_Type ev =s queuedEventArmed)).

(** [follows id p evs q]: the events of one record lead from state and sequence number
    [p] to [q]. *)
Inductive follows (id : string) : string * Z -> list queuedAuthEvent -> string * Z -> Prop :=
| follows_nil p : follows id p [] p
| follows_cons p ev evs q :
    qe_QueueID ev = id -> qe_StateFrom ev = p.1 -> qe_Seq ev = p.2 + 1 -> legal ev = true ->
    follows id (qe_StateTo ev, qe_Seq ev) evs q -> follows id p (ev :: evs) q.
#[export] Hint Constructors follows : canary.

Lemma follows_app id p evs q evs' q' : follows id p evs q -> follows id q evs' q' -> follows id p (evs ++ evs') q'.
Proof. induction 1; simpl; eauto with canary. Qed.

Lemma follows_one id p ev :
  qe_QueueID ev = id -> qe_StateFrom ev = p.1 -> qe_Seq ev = p.2 + 1 -> legal ev = true -> follows id p [ev] (qe_StateTo ev, qe_Seq ev).
Proof. eauto with canary. Qed.

(** ** Laws of an edit *)

Definition recID (r : queuedAuthRecord) : string := qt_QueueID (qa_Terms r).
Definition standing (r : queuedAuthRecord) : string * Z := (qa_State r, qa_Seq r).

(** What the owner signed and what finds the record never change. *)
Definition sameIdentity (r r' : queuedAuthRecord) : Prop :=
  qa_Version r' = qa_Version r /\ qa_ReferenceHash r' = qa_ReferenceHash r /\ qa_Terms r' = qa_Terms r /\
  qa_TermsDigest r' = qa_TermsDigest r /\ qa_ContractSide r' = qa_ContractSide r /\ qa_CreatedAt r' = qa_CreatedAt r.

(** An authorised intent, or one at the broker. *)
Definition occupying (r : queuedAuthRecord) : bool := liveIntent r || (qa_State r =s QueuedAuthSent).

(** What a record in its state says of its sends not proven unsent ([opens], their
    tokens): none while it may still be sent, at most the current one otherwise.  A
    held stop keeps the reference of the attempt it waits for. *)
Definition attemptOK (opens : list string) (r : queuedAuthRecord) : Prop :=
  if qa_State r =s QueuedAuthPrepared then opens = [] /\ qa_OrderRef r = ""
  else if waiting r then
    opens = [] \/ ((List.length opens <= 1)%nat /\ qa_OrderRef r <> "" /\ ownerQueueProtection (qa_Terms r) = true)
  else if qa_State r =s QueuedAuthSending then qa_OrderRef r <> "" /\ (opens = [] \/ opens = [qa_PreviewTokenID r])
  else if qa_State r =s QueuedAuthSent then qa_OrderRef r <> "" /\ (List.length opens <= 1)%nat
  else (List.length opens <= 1)%nat.

Definition lawful (r : queuedAuthRecord) (evs : list queuedAuthEvent) (r' : queuedAuthRecord) : Prop :=
  sameIdentity r r' /\ follows (recID r) (standing r) evs (standing r') /\ (occupying r' = true -> occupying r = true).

Lemma sameIdentity_refl r : sameIdentity r r.
Proof. by repeat split. Qed.
Lemma sameIdentity_trans a b c : sameIdentity a b -> sameIdentity b c -> sameIdentity a c.
Proof. unfold sameIdentity. intuition congruence. Qed.
Lemma sameIdentity_id a b : sameIdentity a b -> recID b = recID a.
Proof. unfold sameIdentity, recID. intros (_ & _ & -> & _). done. Qed.

Lemma lawful_refl r : lawful r [] r.
Proof. split; [apply sameIdentity_refl|]. split; [constructor | done]. Qed.

Lemma lawful_trans a evs b evs' c : lawful a evs b -> lawful b evs' c -> lawful a (evs ++ evs') c.
Proof.
  intros (Hi & Hf & Ho) (Hi' & Hf' & Ho'). repeat split; try apply (sameIdentity_trans _ _ _ Hi Hi').
  - eapply follows_app; [exact Hf|]. by rewrite <- (sameIdentity_id _ _ Hi).
  - auto.
Qed.
#[export] Hint Resolve lawful_refl sameIdentity_refl : canary.

(** One move: [r1] is the record with its other fields edited. *)
Definition kept (r r1 : queuedAuthRecord) : Prop := sameIdentity r r1 /\ qa_State r1 = qa_State r /\ qa_Seq r1 = qa_Seq r.

(** What completing an event keeps. *)
Definition keepsMove (g : queuedAuthEvent -> queuedAuthEvent) : Prop :=
  forall ev, qe_QueueID (g ev) = qe_QueueID ev /\ qe_StateFrom (g ev) = qe_StateFrom ev /\ qe_StateTo (g ev) = qe_StateTo ev /\
             qe_Seq (g ev) = qe_Seq ev /\ qe_Type (g ev) = qe_Type ev.

Definition edge (ty from to : string) : bool :=
  ((from =s to) || one_of to (nextStates from) || (negb (one_of from queuedKnownStates) && (to =s QueuedAuthFailed))) &&
  (negb ((from =s QueuedAuthPrepared) && (to =s QueuedAuthArmed)) || (ty =s queuedEventArmed)).

Definition occupies (state : string) : bool :=
  one_of state [QueuedAuthArmed; QueuedAuthHeld; QueuedAuthSending; QueuedAuthSent].

Lemma occupying_state r : occupying r = occupies (qa_State r).
Proof.
  unfold occupying, liveIntent, waiting, occupies, one_of. cbn [existsb].
  destruct (qa_State r =s QueuedAuthArmed), (qa_State r =s QueuedAuthHeld), (qa_State r =s QueuedAuthSending), (qa_State r =s QueuedAuthSent); done.
Qed.

Lemma follows_single id p ev q :
  follows id p [ev] q <-> qe_QueueID ev = id /\ qe_StateFrom ev = p.1 /\ qe_Seq ev = p.2 + 1 /\ legal ev = true /\ q = (qe_StateTo ev, qe_Seq ev).
Proof.
  split; [intros H; inversion H as [|? ? ? ? ? ? ? ? Hn]; subst; inversion Hn; subst; done|].
  intros (<- & ? & ? & ? & ->). by apply follows_one.
Qed.

Lemma tag_lawful r r' ev g : keepsMove g -> lawful r [ev] r' -> lawful r [g ev] r'.
Proof.
  intros Hg (Hi & Hf & Ho). split; [done|]. split; [|done]. destruct (Hg ev) as (H1 & H2 & H3 & H4 & H5).
  apply follows_single in Hf as (? & ? & ? & Hl & ->). apply follows_single. unfold legal in *. rewrite H1, H2, H3, H4, H5. done.
Qed.

Lemma note_lawful r r1 ty at_ : kept r r1 -> lawful r [(note r1 ty (qa_State r1) at_).2] (note r1 ty (qa_State r1) at_).1.
Proof.
  intros ((H1 & H2 & H3 & H4 & H5 & H6) & Hs & Hq). unfold note. cbn.
  split; [by repeat split; cbn|]. split.
  - unfold standing, recID. cbn. constructor; cbn; try congruence.
    + unfold legal. cbn. rewrite eqb_s_refl, Hs. cbn. destruct (qa_State r =s QueuedAuthPrepared) eqn:E; [|done].
      apply String.eqb_eq in E. by rewrite E.
    + constructor.
  - by rewrite !occupying_state; cbn; rewrite Hs.
Qed.

Lemma transition_lawful r r1 ty st at_ :
  kept r r1 -> edge ty (qa_State r) st = true -> (occupies st = true -> occupies (qa_State r) = true) ->
  lawful r [(transition r1 ty st at_).2] (transition r1 ty st at_).1.
Proof.
  intros ((H1 & H2 & H3 & H4 & H5 & H6) & Hs & Hq) He Ho. unfold transition, note. cbn.
  split; [by repeat split; cbn|]. split.
  - unfold standing, recID. cbn. constructor; cbn; try congruence; [|constructor]. unfold legal. cbn. rewrite Hs. exact He.
  - rewrite !occupying_state. by cbn.
Qed.

Lemma resolve_lawful r r1 ty st code reason at_ :
  kept r r1 -> edge ty (qa_State r) st = true -> (occupies st = true -> occupies (qa_State r) = true) ->
  lawful r [(resolve r1 ty st code reason at_).2] (resolve r1 ty st code reason at_).1.
Proof.
  intros Hk He Ho. unfold resolve. cbn zeta.
  set (r2 := r1 <| qa_ResolvedAt := _ |> <| qa_ReasonCode := _ |> <| qa_Reason := _ |> <| qa_HeldAt := _ |> <| qa_HoldCode := _ |> <| qa_HoldReason := _ |>).
  assert (Hk2 : kept r r2) by (destruct Hk as (Hi & Hs & Hq); repeat split; cbn; try apply Hi; done).
  pose proof (transition_lawful r r2 ty st at_ Hk2 He Ho) as H.
  destruct (transition r2 ty st at_) as [r3 ev] eqn:E. cbn in *.
  apply (tag_lawful r r3 ev (fun ev => ev <| qe_ReasonCode := code |> <| qe_Reason := boundedQueuedReason reason |>)); [|exact H].
  intros e. by repeat split.
Qed.

Lemma tagged_lawful r p g : keepsMove g -> lawful r [p.2] p.1 -> lawful r [(tagged p g).2] (tagged p g).1.
Proof. intros Hg H. exact (tag_lawful r p.1 p.2 g Hg H). Qed.

Lemma waiting_cases r : waiting r = true -> qa_State r = QueuedAuthArmed \/ qa_State r = QueuedAuthHeld.
Proof. unfold waiting. intros H. apply orb_true_iff in H as [H|H]; apply String.eqb_eq in H; auto. Qed.

(** Discharge the side conditions of a move from a known state. *)
Ltac kept_tac := unfold kept, sameIdentity; repeat split; reflexivity.
Ltac keeps_tac := let e := fresh in intros e; by repeat split.
Ltac edge_tac :=
  match goal with
  | H : ?P |- ?P => exact H
  | H : qa_State ?r = _ |- edge _ (qa_State ?r) _ = true => rewrite H; vm_compute; reflexivity
  | H : qa_State ?r = _ |- occupies _ = true -> occupies (qa_State ?r) = true => rewrite H; vm_compute; (reflexivity || discriminate || done)
  | |- occupies _ = true -> _ => vm_compute; discriminate
  end.
Ltac move_tac :=
  unfold reported, moved, ticked, skip; cbn [fst snd];
  repeat (lazymatch goal with |- lawful _ [(tagged _ _).2] _ => apply tagged_lawful; [keeps_tac|] end);
  lazymatch goal with
  | |- lawful _ [] _ => apply lawful_refl
  | |- lawful _ [(resolve _ _ _ _ _ _).2] _ => apply resolve_lawful; [kept_tac | edge_tac | edge_tac]
  | |- lawful _ [(transition _ _ _ _).2] _ => apply transition_lawful; [kept_tac | edge_tac | edge_tac]
  | |- lawful _ [(note _ _ _ _).2] _ => apply note_lawful; kept_tac
  end.

Lemma expireTurn_lawful now r : lawful r (expireTurn now r).1.2 (expireTurn now r).1.1.
Proof.
  unfold expireTurn. case_if; [bool_hyps; move_tac|]. case_if; [|move_tac].
  bool_hyps. destruct (waiting_cases r) as [Hs|Hs]; [done| |]; move_tac.
Qed.

Lemma holdTurn_lawful code reason now r : lawful r (holdTurn code reason now r).1.2 (holdTurn code reason now r).1.1.
Proof.
  unfold holdTurn. case_if; [move_tac|]. bool_hyps. destruct (waiting_cases r) as [Hs|Hs]; [done| |]; destruct (IsZero (qa_HeldAt r)); move_tac.
Qed.

Lemma cancelQueuedTurn_lawful code reason now r :
  lawful r (cancelQueuedTurn code reason now r).1.2 (cancelQueuedTurn code reason now r).1.1.
Proof.
  unfold cancelQueuedTurn. case_if; [move_tac|]. bool_hyps. destruct (waiting_cases r) as [Hs|Hs]; [done| |]; move_tac.
Qed.

Lemma endMandateTurn_lawful now r : lawful r (endMandateTurn now r).1.2 (endMandateTurn now r).1.1.
Proof.
  unfold endMandateTurn. case_if; [move_tac|].
  destruct ((qa_OrderRef (r <| qa_MandateEndedAt := now |>) <>s "") || (qa_PreviewTokenID (r <| qa_MandateEndedAt := now |>) <>s "")); [cbn [negb andb]; move_tac|].
  cbn [negb andb]. case_if; [|move_tac].
  apply orb_true_iff in Hc0 as [H|H].
  - destruct (waiting_cases r) as [Hs|Hs]; [done| |]; move_tac.
  - assert (Hs : qa_State r = QueuedAuthPrepared) by (by apply String.eqb_eq in H). move_tac.
Qed.

Lemma known_or_final r :
  final r = false -> one_of (qa_State r) [QueuedAuthPrepared; QueuedAuthArmed; QueuedAuthHeld] = false -> (qa_State r =s QueuedAuthSent) = false ->
  qa_State r = QueuedAuthSending \/ one_of (qa_State r) queuedKnownStates = false.
Proof.
  unfold final, one_of, queuedKnownStates. cbn [existsb]. intros Hf H1 H2.
  destruct (qa_State r =s QueuedAuthSending) eqn:E; [apply String.eqb_eq in E; auto | right].
  repeat match goal with H : _ || _ = false |- _ => apply orb_false_iff in H as [? ?] end.
  repeat (apply orb_false_iff; split); done.
Qed.

Lemma unreadableTurn_lawful termsDigest now r :
  lawful r (unreadableTurn termsDigest now r).1.2 (unreadableTurn termsDigest now r).1.1.
Proof.
  unfold unreadableTurn. destruct (_ || _) eqn:Hc; [move_tac|]. change (qa_State (r <| qa_problem := "" |>)) with (qa_State r).
  apply orb_false_iff in Hc as [_ Hf].
  destruct (one_of (qa_State r) [QueuedAuthPrepared; QueuedAuthArmed; QueuedAuthHeld]) eqn:H1.
  { apply one_of_true in H1 as [Hs|[Hs|[Hs|[]]]]; symmetry in Hs; move_tac. }
  destruct (qa_State r =s QueuedAuthSent) eqn:H2; [apply String.eqb_eq in H2 as Hs; move_tac|].
  assert (Hk : qa_State r = QueuedAuthSending \/ one_of (qa_State r) queuedKnownStates = false).
  { destruct (one_of (qa_State r) queuedKnownStates) eqn:Hk; [|auto]. left. rewrite andb_true_r in Hf.
    destruct (known_or_final r Hf H1 H2) as [|]; congruence. }
  destruct Hk as [Hs|Hk]; [move_tac|].
  assert (He : edge queuedEventFailed (qa_State r) QueuedAuthFailed = true); [|move_tac].
  unfold edge. rewrite Hk. str_eval. rewrite andb_false_r. cbn. by rewrite !orb_true_r.
Qed.

Lemma recoverTurn_lawful startedAt now journal r :
  lawful r (recoverTurn startedAt now journal r).1.2 (recoverTurn startedAt now journal r).1.1.
Proof.
  unfold recoverTurn, holdUnclear. case_if; [move_tac|]. bool_hyps.
  destruct (queuedJournalSendOutcome journal r) as [outcome ref].
  destruct (ref <>s ""); destruct outcome; try (case_if; move_tac); move_tac.
Qed.

Lemma kept_lawful r r1 : kept r r1 -> lawful r [] r1.
Proof.
  intros (Hi & Hs & Hq). split; [done|]. split; [unfold standing; rewrite Hs, Hq; constructor|]. by rewrite !occupying_state, Hs.
Qed.

Lemma withFill_kept v r : kept r (withFill v r).
Proof. unfold withFill. case_if; kept_tac. Qed.

Definition endStates : list string :=
  [QueuedAuthFilled; QueuedAuthFailed; QueuedAuthPartiallyFilled; QueuedAuthExpiredUnfilled].

Lemma resolution_ends v r e : queuedRecordOrderResolution v r = Some e -> In (oe_state e) endStates.
Proof.
  unfold queuedRecordOrderResolution, queuedOrderResolution, endStates.
  repeat case_if; intros [= <-]; cbn; auto.
Qed.

Lemma followed_state r : followed r = true -> qa_State r = QueuedAuthSent \/ qa_State r = QueuedAuthHeld.
Proof. unfold followed. intros Hf. apply orb_true_iff in Hf as [H|H]; bool_hyps; auto. Qed.

Lemma followFill_lawful now v r : qa_State r = QueuedAuthSent \/ qa_State r = QueuedAuthHeld ->
  lawful r (followFill now v r).1.2 (followFill now v r).1.1.
Proof.
  intros Hs. unfold followFill. pose proof (withFill_kept v r) as Hk. set (r1 := withFill v r) in *. clearbody r1. cbn zeta.
  destruct (queuedRecordOrderResolution v r1) as [e|] eqn:He; [|case_if; [|]].
  - unfold moved. cbn [fst snd]. apply tagged_lawful; [keeps_tac|]. apply resolution_ends in He.
    apply resolve_lawful; [done| |].
    + destruct e as [ety est ec er]. cbn in *. destruct Hs as [-> | ->], He as [<-|[<-|[<-|[<-|[]]]]]; vm_compute; reflexivity.
    + destruct e as [ety est ec er]. cbn in *. destruct He as [<-|[<-|[<-|[<-|[]]]]]; vm_compute; discriminate.
  - unfold moved. cbn [fst snd]. apply tagged_lawful; [keeps_tac|]. by apply note_lawful.
  - by apply kept_lawful.
Qed.

Lemma acceptStop_lawful now r : qa_State r = QueuedAuthSent \/ qa_State r = QueuedAuthHeld ->
  lawful r (acceptStop now r).2 (acceptStop now r).1 /\ qa_State (acceptStop now r).1 = QueuedAuthSent.
Proof.
  intros Hs. unfold acceptStop. destruct Hs as [Hs|Hs].
  - change (qa_State (r <| qa_BrokerAcceptedAt := now |>)) with (qa_State r). rewrite Hs. str_eval.
    split; [|done]. apply (note_lawful r (r <| qa_BrokerAcceptedAt := now |>)). kept_tac.
  - change (qa_State (r <| qa_BrokerAcceptedAt := now |>)) with (qa_State r). rewrite Hs. str_eval. split; [|done].
    pose proof (transition_lawful r (r <| qa_BrokerAcceptedAt := now |>) queuedEventSent QueuedAuthSent now ltac:(kept_tac) ltac:(edge_tac) ltac:(edge_tac)) as H1.
    destruct (transition (r <| qa_BrokerAcceptedAt := now |>) queuedEventSent QueuedAuthSent now) as [r2 ev]. cbn [fst snd] in H1.
    exact (lawful_trans _ _ _ _ _ H1 (note_lawful r2 r2 "broker_accepted" now ltac:(kept_tac))).
Qed.

Lemma rejectStop_lawful now r : qa_State r = QueuedAuthSent \/ qa_State r = QueuedAuthHeld ->
  lawful r (rejectStop now r).2 (rejectStop now r).1.
Proof.
  intros Hs. unfold rejectStop. set (r1 := r <| qa_HeldAt := _ |> <| qa_HoldCode := _ |> <| qa_HoldReason := _ |>).
  assert (Hk : kept r r1) by kept_tac. clearbody r1. case_if; [|by apply kept_lawful].
  pose proof (transition_lawful r r1 queuedEventHeld QueuedAuthHeld now Hk) as H.
  destruct (transition r1 queuedEventHeld QueuedAuthHeld now). cbn [fst snd] in *. apply H; destruct Hs as [-> | ->]; vm_compute; done.
Qed.

Lemma followTurn_lawful now views r : lawful r (followTurn now views r).1.2 (followTurn now views r).1.1.
Proof.
  unfold followTurn. case_if; [move_tac|]. bool_hyps. assert (Hs := followed_state r Hc).
  destruct (viewByRef views (qa_OrderRef r)) as [v|]; [|move_tac].
  case_if; [move_tac|]. case_if; [|by apply followFill_lawful]. case_if.
  - destruct (acceptStop_lawful now r Hs) as [H1 Hst]. destruct (acceptStop now r) as [r1 evs]. cbn [fst snd] in *.
    pose proof (followFill_lawful now v r1 (or_introl Hst)) as H2. destruct (followFill now v r1) as [[r2 evs'] outs].
    exact (lawful_trans _ _ _ _ _ H1 H2).
  - case_if; [|by apply followFill_lawful]. pose proof (rejectStop_lawful now r Hs) as H1. by destruct (rejectStop now r).
Qed.

Lemma outcomeTurn_lawful finish outcome res err placeErr r :
  lawful r (outcomeTurn finish outcome res err placeErr r).1.2 (outcomeTurn finish outcome res err placeErr r).1.1.
Proof.
  unfold outcomeTurn, holdUnclear. case_if; [move_tac|]. bool_hyps.
  destruct outcome as [[] ref]; cbn [fst snd]; try (case_if; move_tac); move_tac.
Qed.

Lemma requestCancel_lawful r origin reason mandateEnded now :
  lawful r [(requestCancel r origin reason mandateEnded now).2] (requestCancel r origin reason mandateEnded now).1.
Proof. unfold requestCancel. apply tagged_lawful; [keeps_tac|]. apply note_lawful. destruct mandateEnded; kept_tac. Qed.

Lemma cancelTurn_lawful p id origin reason now r :
  lawful r (cancelTurn p id origin reason now r).1.2 (cancelTurn p id origin reason now r).1.1.
Proof.
  unfold cancelTurn. case_if; [move_tac|]. case_if; [move_tac|].
  assert (Hreq : forall m (f : queuedAuthRecord -> list cancelOut),
    lawful r (let '(r', ev) := requestCancel r origin reason m now in (r', [ev], f r')).1.2
             (let '(r', ev) := requestCancel r origin reason m now in (r', [ev], f r')).1.1).
  { intros m f. pose proof (requestCancel_lawful r origin reason m now) as H. by destruct (requestCancel r origin reason m now). }
  case_if; [case_if; [apply Hreq | move_tac]|]. case_if; [case_if; [apply Hreq | move_tac]|].
  case_if; [case_if; [apply Hreq | move_tac]|]. case_if; [move_tac|].
  assert (Hs : qa_State r = QueuedAuthPrepared \/ waiting r = true).
  { apply andb_false_iff in Hc4 as [H|H]; bool_hyps; auto. }
  cbn [tagged fst snd]. apply (tag_lawful _ _ _ (fun ev => ev <| qe_Origin := origin |>)); [keeps_tac|].
  destruct Hs as [Hs|Hs]; [move_tac|]. destruct (waiting_cases r Hs); move_tac.
Qed.

Lemma resume_lawful at_ r : waiting r = true ->
  lawful r (resume at_ r).2 (resume at_ r).1 /\ qa_State (resume at_ r).1 = QueuedAuthArmed.
Proof.
  intros Hw. unfold resume. destruct (waiting_cases r Hw) as [Hs|Hs]; rewrite Hs; str_eval.
  - split; [apply lawful_refl | done].
  - cbn zeta. cbn [fst snd]. split; [move_tac | done].
Qed.

Lemma stageIntent_lawful startedAt at_ preview r : qa_State r = QueuedAuthArmed ->
  lawful r [(stageIntent startedAt at_ preview r).2] (stageIntent startedAt at_ preview r).1.
Proof. intros Hs. unfold stageIntent. cbn zeta. unfold withIntent at 2 4. move_tac. Qed.

Lemma stageTurn_lawful termsDigest startedAt at_ preview r :
  lawful r (stageTurn termsDigest startedAt at_ preview r).1.2 (stageTurn termsDigest startedAt at_ preview r).1.1.
Proof.
  unfold stageTurn. case_if; [move_tac|]. bool_hyps. case_if; [move_tac|]. case_if; [move_tac|].
  destruct (resume_lawful at_ r Hc) as [H1 Hs]. destruct (resume at_ r) as [r1 evs]. cbn [fst snd] in *.
  pose proof (stageIntent_lawful startedAt at_ preview r1 Hs) as H2. destruct (stageIntent startedAt at_ preview r1) as [r2 ev].
  exact (lawful_trans _ _ _ _ _ H1 H2).
Qed.

(** ** What is known of the broker attempt *)

(** An edit keeps what is known of the attempt. *)
Definition keepsAttempt (r r' : queuedAuthRecord) : Prop := forall opens, attemptOK opens r -> attemptOK opens r'.

Lemma attemptOK_short opens r : attemptOK opens r -> (List.length opens <= 1)%nat.
Proof.
  unfold attemptOK. repeat case_if; intros H; decompose [and or] H; subst; simpl; try lia.
Qed.

Lemma keepsAttempt_fields r r' :
  qa_State r' = qa_State r -> qa_OrderRef r' = qa_OrderRef r -> qa_PreviewTokenID r' = qa_PreviewTokenID r -> qa_Terms r' = qa_Terms r ->
  keepsAttempt r r'.
Proof. intros H1 H2 H3 H4 opens. unfold attemptOK, waiting. by rewrite H1, H2, H3, H4. Qed.

Lemma keepsAttempt_final r r' : finalState (qa_State r') = true -> keepsAttempt r r'.
Proof.
  intros Hf opens H. apply attemptOK_short in H. unfold attemptOK, waiting.
  apply one_of_true in Hf as [E|[E|[E|[E|[E|[E|[]]]]]]]; rewrite <- E; exact H.
Qed.

Lemma keepsAttempt_refl r : keepsAttempt r r.
Proof. by intros opens. Qed.
Lemma keepsAttempt_trans a b c : keepsAttempt a b -> keepsAttempt b c -> keepsAttempt a c.
Proof. unfold keepsAttempt. auto. Qed.
#[export] Hint Resolve keepsAttempt_refl : canary.

(** A waiting record that stays waiting, with its attempt fields. *)
Lemma keepsAttempt_waiting r r' :
  waiting r = true -> waiting r' = true -> qa_OrderRef r' = qa_OrderRef r -> qa_Terms r' = qa_Terms r -> keepsAttempt r r'.
Proof.
  intros H1 H2 H3 H4 opens. unfold attemptOK. rewrite H1, H2, H3, H4.
  destruct (waiting_cases r H1) as [E1|E1], (waiting_cases r' H2) as [E2|E2]; rewrite E1, E2; done.
Qed.

Ltac attempt_tac :=
  unfold reported, moved, ticked, skip, tagged, resolve, transition, note; cbn [fst snd];
  first [ apply keepsAttempt_refl
        | apply keepsAttempt_final; reflexivity
        | apply keepsAttempt_fields; reflexivity ].

Lemma expireTurn_attempt now r : keepsAttempt r (expireTurn now r).1.1.
Proof. unfold expireTurn. repeat case_if; attempt_tac. Qed.
Lemma cancelQueuedTurn_attempt code reason now r : keepsAttempt r (cancelQueuedTurn code reason now r).1.1.
Proof. unfold cancelQueuedTurn. case_if; attempt_tac. Qed.
Lemma unreadableTurn_attempt termsDigest now r : keepsAttempt r (unreadableTurn termsDigest now r).1.1.
Proof. unfold unreadableTurn. destruct (_ || _); [attempt_tac|]. case_if; [attempt_tac|]. case_if; attempt_tac. Qed.
Lemma holdTurn_attempt code reason now r : keepsAttempt r (holdTurn code reason now r).1.1.
Proof.
  unfold holdTurn. case_if; [attempt_tac|]. bool_hyps. destruct (IsZero (qa_HeldAt r)); by apply keepsAttempt_waiting.
Qed.
Lemma requestCancel_attempt r origin reason m now : keepsAttempt r (requestCancel r origin reason m now).1.
Proof. unfold requestCancel. destruct m; attempt_tac. Qed.

Lemma endMandateTurn_attempt now r : keepsAttempt r (endMandateTurn now r).1.1.
Proof.
  unfold endMandateTurn. case_if; [attempt_tac|]. cbn zeta.
  destruct ((qa_OrderRef (r <| qa_MandateEndedAt := now |>) <>s "") || (qa_PreviewTokenID (r <| qa_MandateEndedAt := now |>) <>s ""));
    cbn [negb andb]; [attempt_tac|]. case_if; attempt_tac.
Qed.

Lemma cancelTurn_attempt p id origin reason now r : keepsAttempt r (cancelTurn p id origin reason now r).1.1.
Proof.
  unfold cancelTurn. case_if; [attempt_tac|]. case_if; [attempt_tac|].
  assert (Hreq : forall m (f : queuedAuthRecord -> list cancelOut),
    keepsAttempt r (let '(r', ev) := requestCancel r origin reason m now in (r', [ev], f r')).1.1).
  { intros m f. pose proof (requestCancel_attempt r origin reason m now) as H. by destruct (requestCancel r origin reason m now). }
  case_if; [case_if; [apply Hreq | attempt_tac]|]. case_if; [case_if; [apply Hreq | attempt_tac]|].
  case_if; [case_if; [apply Hreq | attempt_tac]|]. case_if; attempt_tac.
Qed.

Lemma followFill_attempt now v r : keepsAttempt r (followFill now v r).1.1.
Proof.
  apply (keepsAttempt_trans _ (withFill v r)); [unfold withFill; case_if; attempt_tac|].
  unfold followFill. cbn zeta. destruct (queuedRecordOrderResolution v (withFill v r)) as [e|] eqn:He; [|case_if; attempt_tac].
  apply keepsAttempt_final. apply resolution_ends in He. unfold moved, tagged, resolve, transition, note. cbn.
  destruct He as [<-|[<-|[<-|[<-|[]]]]]; reflexivity.
Qed.

Lemma viewByRef_named views ref v : viewByRef views ref = Some v -> ref <> "".
Proof.
  unfold viewByRef. intros H%last_Some_elem_of%list_elem_of_In%filter_In. destruct H as [_ H]. bool_hyps. by subst.
Qed.

Lemma acceptStop_attempt now r : qa_State r = QueuedAuthSent \/ qa_State r = QueuedAuthHeld -> qa_OrderRef r <> "" ->
  keepsAttempt r (acceptStop now r).1.
Proof.
  intros Hs Hr opens H. unfold acceptStop. change (qa_State (r <| qa_BrokerAcceptedAt := now |>)) with (qa_State r).
  assert (Hlen := attemptOK_short _ _ H).
  destruct Hs as [Hs|Hs]; rewrite Hs; str_eval; cbn zeta; cbn [fst snd].
  - revert H. apply keepsAttempt_fields; reflexivity.
  - unfold attemptOK, transition, note, waiting. cbn. done.
Qed.

Lemma rejectStop_attempt now r : qa_State r = QueuedAuthSent \/ qa_State r = QueuedAuthHeld -> qa_OrderRef r <> "" ->
  ownerQueueProtection (qa_Terms r) = true -> keepsAttempt r (rejectStop now r).1.
Proof.
  intros Hs Hr Hp opens H. unfold rejectStop. assert (Hlen := attemptOK_short _ _ H).
  set (r1 := r <| qa_HeldAt := _ |> <| qa_HoldCode := _ |> <| qa_HoldReason := _ |>).
  assert (H1 : qa_State r1 = qa_State r /\ qa_OrderRef r1 = qa_OrderRef r /\ qa_PreviewTokenID r1 = qa_PreviewTokenID r /\ qa_Terms r1 = qa_Terms r) by done.
  clearbody r1. destruct H1 as (E1 & E2 & E3 & E4). cbn zeta. rewrite E1.
  destruct Hs as [Hs|Hs]; rewrite Hs; str_eval; cbn [negb fst].
  - right. split; [done|]. split; [intros Hx; apply Hr; rewrite <- E2; exact Hx | rewrite <- Hp, <- E4; reflexivity].
  - revert H. by apply keepsAttempt_fields.
Qed.

Lemma followTurn_attempt now views r : keepsAttempt r (followTurn now views r).1.1.
Proof.
  unfold followTurn. case_if; [attempt_tac|]. bool_hyps. assert (Hs := followed_state r Hc).
  destruct (viewByRef views (qa_OrderRef r)) as [v|] eqn:Hv; [|attempt_tac]. apply viewByRef_named in Hv.
  case_if; [attempt_tac|]. case_if; [|by apply followFill_attempt]. bool_hyps. case_if.
  - pose proof (acceptStop_attempt now r Hs Hv) as Ha. destruct (acceptStop now r) as [r1 evs].
    pose proof (followFill_attempt now v r1) as Hb. destruct (followFill now v r1) as [[r2 evs'] outs].
    exact (keepsAttempt_trans _ _ _ Ha Hb).
  - case_if; [|by apply followFill_attempt]. pose proof (rejectStop_attempt now r Hs Hv ltac:(done)) as Ha. by destruct (rejectStop now r).
Qed.

(** The verdict that nothing was sent. *)
Definition provesUnsent (outcome : orderSendOutcome) : bool :=
  match outcome with orderSendNone | orderSendFailedUnsent => true | _ => false end.

(** The sends of one record left open by a verdict on its token. *)
Definition judged (outcome : orderSendOutcome) (token : string) (opens : list string) : list string :=
  if provesUnsent outcome then List.filter (fun t => t <>s token) opens else opens.

Lemma attemptOK_filter p opens r : attemptOK opens r -> attemptOK (List.filter p opens) r.
Proof.
  assert (Hn : forall l : list string, (List.length l <= 1)%nat -> (List.length (List.filter p l) <= 1)%nat).
  { intros l Hl. transitivity (List.length l); [apply filter_length_le | done]. }
  unfold attemptOK. repeat case_if; intros H; decompose [and or] H; subst; auto.
  - cbn. case_if; auto.
Qed.

Lemma judged_own outcome token opens : opens = [] \/ opens = [token] -> provesUnsent outcome = true -> judged outcome token opens = [].
Proof. intros [-> | ->] H; unfold judged; rewrite H; cbn; [done|]. by rewrite eqb_s_refl. Qed.

Lemma judged_short outcome token opens : (List.length opens <= 1)%nat -> (List.length (judged outcome token opens) <= 1)%nat.
Proof. intros H. unfold judged. case_if; [|done]. transitivity (List.length opens); [apply filter_length_le | done]. Qed.

Lemma attempt_final opens r : finalState (qa_State r) = true -> (List.length opens <= 1)%nat -> attemptOK opens r.
Proof.
  intros Hf H. unfold attemptOK, waiting. apply one_of_true in Hf as [E|[E|[E|[E|[E|[E|[]]]]]]]; rewrite <- E; exact H.
Qed.

Lemma attempt_sending opens r : qa_State r = QueuedAuthSending -> attemptOK opens r ->
  qa_OrderRef r <> "" /\ (opens = [] \/ opens = [qa_PreviewTokenID r]).
Proof. intros Hs. unfold attemptOK, waiting. by rewrite Hs. Qed.

(** A sending record after the verdict on its own token. *)
Lemma recoverTurn_attempt startedAt now journal opens r : qa_State r = QueuedAuthSending -> attemptOK opens r ->
  attemptOK (judged (queuedJournalSendOutcome journal r).1 (qa_PreviewTokenID r) opens) (recoverTurn startedAt now journal r).1.1.
Proof.
  intros Hs H. destruct (attempt_sending _ _ Hs H) as [Href Hop]. assert (Hlen := attemptOK_short _ _ H).
  unfold recoverTurn, holdUnclear. rewrite Hs. str_eval. cbn [negb].
  destruct (queuedJournalSendOutcome journal r) as [outcome ref]. cbn [fst].
  assert (Hj := judged_own outcome (qa_PreviewTokenID r) opens Hop). assert (Hl := judged_short outcome (qa_PreviewTokenID r) opens Hlen).
  assert (Href' : forall r1, r1 = (if ref <>s "" then r <| qa_OrderRef := ref |> else r) -> qa_OrderRef r1 <> "" /\ qa_Terms r1 = qa_Terms r).
  { intros r1 ->. destruct (ref <>s "") eqn:E; [|done]. apply negb_true_iff, String.eqb_neq in E. done. }
  remember (if ref <>s "" then r <| qa_OrderRef := ref |> else r) as r1. destruct (Href' r1 eq_refl) as [Hr1 Ht1].
  destruct outcome; unfold reported, moved, tagged, resolve, transition, note; cbn [fst snd].
  - rewrite (Hj eq_refl). case_if; [apply attempt_final; [reflexivity | simpl; lia] | by left].
  - rewrite (Hj eq_refl). case_if; [apply attempt_final; [reflexivity | simpl; lia] | by left].
  - case_if; [|by apply attempt_final; [reflexivity|]]. right. by split.
  - by split.
Qed.

Lemma outcomeTurn_attempt finish outcome res err placeErr opens r : qa_State r = QueuedAuthSending -> attemptOK opens r ->
  attemptOK (judged outcome.1 (qa_PreviewTokenID r) opens) (outcomeTurn finish outcome res err placeErr r).1.1.
Proof.
  intros Hs H. destruct (attempt_sending _ _ Hs H) as [Href Hop]. assert (Hlen := attemptOK_short _ _ H).
  unfold outcomeTurn, holdUnclear. rewrite Hs. str_eval. cbn [negb]. destruct outcome as [outcome ref]. cbn [fst].
  assert (Hj := judged_own outcome (qa_PreviewTokenID r) opens Hop). assert (Hl := judged_short outcome (qa_PreviewTokenID r) opens Hlen).
  destruct outcome; unfold reported, moved, ticked, tagged, resolve, transition, note; cbn [fst snd].
  - rewrite (Hj eq_refl). case_if; [apply attempt_final; [reflexivity | simpl; lia] | by left].
  - rewrite (Hj eq_refl). case_if; [apply attempt_final; [reflexivity | simpl; lia] | by left].
  - case_if; [|by apply attempt_final; [reflexivity|]]. right. by split.
  - split; [|done]. cbn. unfold nonEmptyString.
    assert (Hne : forall s, (TrimSpace s <>s "") = true -> s <> "") by (intros s Hx ->; done).
    repeat case_if; auto.
Qed.

(** A waiting record without an attempt, after its intent is stored. *)
Lemma stageTurn_attempt termsDigest startedAt at_ preview opens r :
  attemptOK opens r -> (waiting r = true -> qa_OrderRef r = "" \/ ownerQueueProtection (qa_Terms r) = false) -> dr_OrderRef (op_Draft preview) <> "" ->
  attemptOK opens (stageTurn termsDigest startedAt at_ preview r).1.1.
Proof.
  intros H Hw Hd. unfold stageTurn. destruct (waiting r) eqn:Hwait; [|exact H]. cbn [negb].
  case_if; [exact H|]. case_if; [exact H|].
  assert (Ho : opens = []).
  { revert H. unfold attemptOK. rewrite Hwait. destruct (waiting_cases r Hwait) as [E|E]; rewrite E; str_eval; destruct (Hw eq_refl) as [Hx|Hx]; rewrite Hx; intuition congruence. }
  subst. unfold resume, stageIntent, tagged, transition, note. destruct (qa_State r =s QueuedAuthHeld); split; auto.
Qed.
