(* ===== verification/QueueSystem.v ===== *)
(** * The queue as a system

    The daemon's queue as a step relation: the owner's requests interleave with the
    executor's passes and with the three stages of a send (decide, store the intent and
    place, record the outcome); a step can end in a restart that reloads daemon.db.
    [sy_open] is not kept by the code: it lists the sends handed to the broker call that
    were not since judged unsent, by a refusal or by the order journal.

    Proved of every reachable state: a record's journal is a legal path to its state; at
    most one intent or order per contract side and scope; at most one send of an
    authorisation that is not proven unsent. *)

From stdpp Require Import base decidable list strings gmap sorting.
From Stdlib Require Import ZArith Lia Ascii String SpecFloat.
From S2P Require Import Prelude OrderTypes OrderStatus BrokerScope OrderJournal WriteGate PreviewToken SendDisposition.
From S2P Require Import PositionEvidence OrderRisk QueueRecord QueueStore QueueExec QueueFacts.

(** ** Loops over the records *)

(** Every record is stored under its queue ID. *)
Definition keyed (m : queueRecords) : Prop := forall id r, m !! id = Some r -> recID r = id.

(** The journaled events of one record. *)
Definition eventsOf (id : string) (evs : list queuedAuthEvent) : list queuedAuthEvent := List.filter (fun ev => qe_QueueID ev =s id) evs.

Lemma eventsOf_app id a b : eventsOf id (a ++ b) = eventsOf id a ++ eventsOf id b.
Proof. apply List.filter_app. Qed.

Lemma eventsOf_follows id id' p evs q : follows id p evs q -> eventsOf id' evs = if id =s id' then evs else [].
Proof.
  induction 1 as [|p ev evs q Hi ? ? ? ? IH]; [by case_if|]. unfold eventsOf in *. cbn [List.filter]. rewrite Hi, IH. by case_if.
Qed.

Section Range.
Context {O : Type} (edit : queuedAuthRecord -> queuedAuthRecord * list queuedAuthEvent * list O).
Hypothesis edit_lawful : forall r, lawful r (edit r).1.2 (edit r).1.1.

(** A range loop visits each record once: it leaves the edit of what it found. *)
Lemma rangeRecords_spec order m m' evs outs :
  keyed m -> NoDup order -> rangeRecords edit order m = (m', evs, outs) ->
  forall id, m' !! id = (if bool_decide (id ∈ order) then (fun r => (edit r).1.1) <$> (m !! id) else m !! id) /\
             eventsOf id evs = match (if bool_decide (id ∈ order) then m !! id else None) with Some r => (edit r).1.2 | None => [] end.
Proof.
  revert m m' evs outs. induction order as [|i order IH]; intros m m' evs outs Hk Hnd Hr id; simpl in Hr.
  { injection Hr as <- <- <-. by rewrite bool_decide_eq_false_2 by set_solver. }
  apply NoDup_cons in Hnd as [Hi Hnd]. destruct (m !! i) as [r|] eqn:Hm.
  - destruct (edit_lawful r) as (Hid & Hf & _). destruct (edit r) as [[r' evs1] outs1] eqn:He. cbn [fst snd] in Hid, Hf.
    destruct (rangeRecords edit order (<[i:=r']> m)) as [[m2 evs2] outs2] eqn:H2. injection Hr as <- <- <-.
    assert (Hri : recID r = i) by (by apply Hk).
    assert (Hk' : keyed (<[i:=r']> m)).
    { intros j x [[<- <-]|[Hne Hx]]%lookup_insert_Some; [rewrite (sameIdentity_id _ _ Hid); done | by apply Hk]. }
    destruct (IH _ _ _ _ Hk' Hnd H2 id) as [Ha Hb]. rewrite eventsOf_app, Hb, (eventsOf_follows _ _ _ _ _ Hf), Hri.
    destruct (decide (id = i)) as [->|Hne].
    + rewrite (bool_decide_eq_true_2 (i ∈ i :: order)) by set_solver. rewrite bool_decide_eq_false_2 in Ha |- * by done.
      rewrite Ha, lookup_insert_eq, Hm, eqb_s_refl. cbn. rewrite He. cbn. by rewrite List.app_nil_r.
    + rewrite lookup_insert_ne in Ha |- * by done. rewrite (proj2 (String.eqb_neq i id)) by congruence.
      rewrite (bool_decide_ext (id ∈ i :: order) (id ∈ order)) by set_solver. done.
  - destruct (IH _ _ _ _ Hk Hnd Hr id) as [Ha Hb]. destruct (decide (id = i)) as [->|Hne].
    + rewrite Ha, Hb, Hm. by destruct (bool_decide (i ∈ order)), (bool_decide (i ∈ i :: order)).
    + rewrite (bool_decide_ext (id ∈ i :: order) (id ∈ order)) by set_solver. done.
Qed.
End Range.

(** ** The owner's one-intent guards *)

Lemma occupant_none other : occupantBlocker other = None <-> occupying other = false.
Proof. unfold occupantBlocker, occupying. destruct (liveIntent other), (qa_State other =s QueuedAuthSent); cbn; intuition congruence. Qed.

Lemma occupant_some other blockers : occupantBlocker other = Some blockers -> blockers <> [].
Proof. unfold occupantBlocker, queuedIntentExistsBlocker, queuedOrderWorkingBlocker. by repeat case_if; intros [= <-]. Qed.

(** The turn of a preparation that meets no occupant. *)
Definition supersedeTurn (side : string) (sc : brokerStateScope) (reason : string) (now : time) (other : queuedAuthRecord)
    : queuedAuthRecord * list queuedAuthEvent * list unit :=
  if sameIntent side sc other && (qa_State other =s QueuedAuthPrepared)
  then moved (resolve other queuedEventCancelled QueuedAuthCancelled queuedReasonSuperseded reason now) []
  else skip other.

Lemma supersedeTurn_lawful side sc reason now r :
  lawful r (supersedeTurn side sc reason now r).1.2 (supersedeTurn side sc reason now r).1.1.
Proof. unfold supersedeTurn. case_if; [bool_hyps; move_tac | move_tac]. Qed.

Lemma supersedeTurn_attempt side sc reason now r : keepsAttempt r (supersedeTurn side sc reason now r).1.1.
Proof. unfold supersedeTurn. case_if; attempt_tac. Qed.

Definition supersededReason : string := "a newer queue preparation for this contract replaced it before it was armed".

Lemma supersedeOthers_spec side sc now order m m' evs :
  NoDup order -> supersedeOthers side sc now order m = (m', evs, []) ->
  rangeRecords (supersedeTurn side sc supersededReason now) order m = (m', evs, []) /\
  (forall id other, id ∈ order -> m !! id = Some other -> sameIntent side sc other = true -> occupying other = false).
Proof.
  revert m m' evs. induction order as [|i order IH]; intros m m' evs Hnd Hs; cbn [supersedeOthers rangeRecords] in *.
  { injection Hs as <- <-. split; [done | set_solver]. }
  apply NoDup_cons in Hnd as [Hi Hnd]. unfold supersedeTurn at 1. destruct (m !! i) as [other|] eqn:Hm.
  - destruct (sameIntent side sc other) eqn:Hsame; cbn [negb andb] in *.
    + destruct (occupantBlocker other) as [b|] eqn:Hb.
      { injection Hs as _ _ Hb'. by apply occupant_some in Hb. }
      apply occupant_none in Hb. destruct (qa_State other =s QueuedAuthPrepared).
      * fold supersededReason in Hs.
        destruct (resolve other queuedEventCancelled QueuedAuthCancelled queuedReasonSuperseded supersededReason now) as [o ev] eqn:Hr.
        destruct (supersedeOthers side sc now order (<[i:=o]> m)) as [[m2 evs2] ref] eqn:H2. injection Hs as <- <- ->.
        destruct (IH _ _ _ Hnd H2) as [Ha Hocc]. unfold moved. cbn [fst snd]. rewrite Ha. split; [done|].
        intros id x Hid Hx Hsx. apply elem_of_cons in Hid as [->|Hid]; [congruence|].
        apply (Hocc id x); [done| |done]. rewrite lookup_insert_ne; [done|]. intros ->. done.
      * destruct (IH _ _ _ Hnd Hs) as [Ha Hocc]. unfold skip. rewrite (insert_id m i other Hm), Ha. split; [done|].
        intros id x [->|Hid]%elem_of_cons Hx Hsx; [congruence | eauto].
    + destruct (IH _ _ _ Hnd Hs) as [Ha Hocc]. unfold skip. rewrite (insert_id m i other Hm), Ha. split; [done|].
      intros id x [->|Hid]%elem_of_cons Hx Hsx; [congruence | eauto].
  - destruct (IH _ _ _ Hnd Hs) as [Ha Hocc]. split; [done|].
    intros id x [->|Hid]%elem_of_cons Hx Hsx; [congruence | eauto].
Qed.

Lemma otherOccupant_none own r m order : otherOccupant own r m order = [] ->
  forall id other, id ∈ order -> id <> own -> m !! id = Some other -> sameIntent (qa_ContractSide r) (scope r) other = true -> occupying other = false.
Proof.
  induction order as [|i order IH]; intros Ho id other Hin Hne Hm Hs; [set_solver|]. cbn [otherOccupant] in Ho.
  apply elem_of_cons in Hin as [->|Hin].
  - rewrite Hm, Hs in Ho. rewrite (proj2 (String.eqb_neq i own)) in Ho by done. cbn in Ho.
    destruct (occupantBlocker other) eqn:Hb; [by apply occupant_some in Hb; subst | by apply occupant_none].
  - apply (IH ltac:(destruct (m !! i) as [x|]; [destruct (_ || _); [done|]; destruct (occupantBlocker x) eqn:Hb; [by apply occupant_some in Hb; subst | done] | done]) id other); done.
Qed.

(** ** One update *)

Definition clean (r : queuedAuthRecord) : queuedAuthRecord := r <| qa_problem := "" |>.

(** The records of the stored document. *)
Definition diskRecords (disk : queueDisk) : queueRecords :=
  match qd_doc disk with
  | None => ∅
  | Some (_, raws) => list_to_map (map (fun raw => (recID (sr_rec raw), sr_rec raw)) raws)
  end.
Definition diskRevision (disk : queueDisk) : Z := match qd_doc disk with None => 0 | Some (revision, _) => revision end.

Definition keptRecords (now : time) (m : queueRecords) : queueRecords := filter (fun kv => outlived now kv.2 = false) m.

(** What a commit leaves on disk. *)
Definition committed (disk : queueDisk) (revision : Z) (now : time) (working : queueRecords) (events : list queuedAuthEvent) : queueDisk :=
  mkDisk (Some (revision + 1, map persisted (records_list (keptRecords now working)))) (qd_log disk ++ map (stampEvent now) events).

(** An update changes nothing, or commits what its mutation made of the records it
    read from the same revision; the store follows unless the commit went unseen. *)
Inductive updated {A} (now : time) (mutate : queueRecords -> list string -> queueRecords * list queuedAuthEvent * A) (order : list string)
    (s : queuedAuthStore) (disk : queueDisk) : queuedAuthStore -> queueDisk -> result string A -> Prop :=
| updated_not res :
    match res with
    | Ok a => qs_attached s = true /\ exists working, mutate (qs_records s) order = (working, [], a)
    | Err _ => True
    end -> updated now mutate order s disk s disk res
| updated_commit working events a s' res :
    mutate (qs_records s) order = (working, events, a) -> events <> [] -> qs_revision s = diskRevision disk -> qs_attached s = true ->
    (s' = s /\ is_ok res = false) \/ (s' = mkQStore true (qs_revision s + 1) (keptRecords now working) /\ res = Ok a) ->
    updated now mutate order s disk s' (committed disk (qs_revision s) now working events) res.

Lemma update_updated {A} env now (mutate : queueRecords -> list string -> queueRecords * list queuedAuthEvent * A) s disk :
  updated now mutate (ue_order env) s disk (update env now mutate (s, disk)).1.1 (update env now mutate (s, disk)).1.2 (update env now mutate (s, disk)).2.
Proof.
  unfold update. destruct (qs_attached s) eqn:Ha; cbn [negb fst snd]; [|by apply updated_not].
  destruct (mutate (qs_records s) (ue_order env)) as [[working events] a] eqn:Hm.
  destruct events as [|ev events]; [apply updated_not; cbn; eauto|].
  destruct (ue_encodes env); cbn [negb fst snd]; [|by apply updated_not]. unfold casDocument.
  destruct (match qd_doc disk with None => _ | Some _ => _ end) eqn:Hh; destruct (ue_fault env); cbn [negb fst snd]; try by apply updated_not.
  all: assert (Hrev : qs_revision s = diskRevision disk) by (unfold diskRevision; destruct (qd_doc disk) as [[rev raws]|]; bool_hyps; congruence).
  - apply (updated_commit _ _ _ _ _ working (ev :: events) a); auto.
  - apply (updated_commit _ _ _ _ _ working (ev :: events) a); auto.
Qed.

(** ** What a commit preserves *)

Definition opensOf (id : string) (opens : list (string * string)) : list string := map snd (List.filter (fun p => p.1 =s id) opens).

(** At most one authorised intent or working order per contract side and scope. *)
Definition oneIntent (m : queueRecords) : Prop :=
  forall i j a b, m !! i = Some a -> m !! j = Some b -> occupying a = true -> occupying b = true ->
    qa_ContractSide a = qa_ContractSide b -> sameBrokerScope (scope a) (scope b) = true -> i = j.

Record diskInv (m : queueRecords) (log : list queuedAuthEvent) (opens : list (string * string)) : Prop := mkDiskInv {
  di_keyed : keyed m;
  di_journal : forall id r, m !! id = Some r -> follows id ("", 0) (eventsOf id log) (standing r);
  di_attempt : forall id r, m !! id = Some r -> attemptOK (opensOf id opens) r;
  di_one : oneIntent m;
  di_short : forall id, (List.length (opensOf id opens) <= 1)%nat
}.

(** How a mutation takes the records [m] to [w]. *)
Definition advances (log : list queuedAuthEvent) (opens opens' : list (string * string)) (m w : queueRecords) (evs : list queuedAuthEvent) : Prop :=
  forall id,
    match w !! id with
    | Some r' =>
        match m !! id with
        | Some r => sameIdentity r r' /\ follows id (standing r) (eventsOf id evs) (standing r') /\
                    (attemptOK (opensOf id opens) r -> attemptOK (opensOf id opens') r')
        | None => recID r' = id /\ eventsOf id log = [] /\ follows id ("", 0) (eventsOf id evs) (standing r') /\ attemptOK (opensOf id opens') r'
        end
    | None => m !! id = None
    end.

Lemma follows_stamp id now p evs q : follows id p evs q -> follows id p (map (stampEvent now) evs) q.
Proof.
  induction 1 as [|p ev evs q ? ? ? Hl ? IH]; [constructor|]. cbn [map].
  assert (E : qe_QueueID (stampEvent now ev) = qe_QueueID ev /\ qe_StateFrom (stampEvent now ev) = qe_StateFrom ev /\
    qe_StateTo (stampEvent now ev) = qe_StateTo ev /\ qe_Seq (stampEvent now ev) = qe_Seq ev /\ qe_Type (stampEvent now ev) = qe_Type ev)
    by (unfold stampEvent; case_if; done).
  destruct E as (E1 & E2 & E3 & E4 & E5). apply follows_cons; [congruence | congruence | congruence | | by rewrite E3, E4].
  unfold legal in *. by rewrite E2, E3, E5.
Qed.

Lemma eventsOf_stamp id now evs : eventsOf id (map (stampEvent now) evs) = map (stampEvent now) (eventsOf id evs).
Proof.
  unfold eventsOf. induction evs as [|ev evs IH]; [done|]. cbn [map List.filter].
  assert (E : qe_QueueID (stampEvent now ev) = qe_QueueID ev) by (unfold stampEvent; case_if; done). rewrite E, IH. by case_if.
Qed.

Lemma kept_lookup now w id r : (clean <$> keptRecords now w) !! id = Some r -> exists r0, w !! id = Some r0 /\ r = clean r0.
Proof.
  rewrite lookup_fmap. intros (r0 & H & ->)%fmap_Some. apply map_lookup_filter_Some in H as [H _]. eauto.
Qed.

Lemma oneIntent_kept now w : oneIntent w -> oneIntent (clean <$> keptRecords now w).
Proof.
  intros H i j a b (a0 & Ha & ->)%kept_lookup (b0 & Hb & ->)%kept_lookup. exact (H i j a0 b0 Ha Hb).
Qed.

Lemma commit_diskInv now log opens opens' m w evs :
  diskInv (clean <$> m) log opens -> advances log opens opens' m w evs -> oneIntent w ->
  (forall id, w !! id = None -> (List.length (opensOf id opens') <= 1)%nat) ->
  diskInv (clean <$> keptRecords now w) (log ++ map (stampEvent now) evs) opens'.
Proof.
  intros [Hk Hj Ha Ho Hs] Hadv Hone Hshort.
  assert (Hc : forall id r, m !! id = Some r -> (clean <$> m) !! id = Some (clean r)) by (intros id r H; by rewrite lookup_fmap, H).
  assert (Hatt : forall id r, w !! id = Some r -> attemptOK (opensOf id opens') r).
  { intros id r H. specialize (Hadv id). rewrite H in Hadv. destruct (m !! id) as [r0|] eqn:Hm; [|by destruct Hadv as (_ & _ & _ & ?)].
    destruct Hadv as (_ & _ & Hx). apply Hx. exact (Ha id (clean r0) (Hc _ _ Hm)). }
  split.
  - intros id r (r0 & H & ->)%kept_lookup. specialize (Hadv id). rewrite H in Hadv. destruct (m !! id) as [r1|] eqn:Hm; [|by destruct Hadv].
    destruct Hadv as (Hi & _). change (recID (clean r0)) with (recID r0). rewrite (sameIdentity_id _ _ Hi). exact (Hk id (clean r1) (Hc _ _ Hm)).
  - intros id r (r0 & H & ->)%kept_lookup. specialize (Hadv id). rewrite H in Hadv. rewrite eventsOf_app, eventsOf_stamp.
    change (standing (clean r0)) with (standing r0). destruct (m !! id) as [r1|] eqn:Hm.
    + destruct Hadv as (_ & Hf & _). apply (follows_app _ _ _ (standing r1)); [exact (Hj id (clean r1) (Hc _ _ Hm)) | by apply follows_stamp].
    + destruct Hadv as (_ & -> & Hf & _). by apply follows_stamp.
  - intros id r (r0 & H & ->)%kept_lookup. exact (Hatt id r0 H).
  - by apply oneIntent_kept.
  - intros id. destruct (w !! id) as [r|] eqn:H; [exact (attemptOK_short _ _ (Hatt _ _ H)) | auto].
Qed.

(** What a commit stores is what it kept. *)
Lemma records_of_list (m : queueRecords) : keyed m -> list_to_map (map (fun raw => (recID (sr_rec raw), sr_rec raw)) (map persisted (records_list m))) = clean <$> m.
Proof.
  intros Hk. rewrite List.map_map.
  assert (Hp : Permutation (map (fun r => (recID r, clean r)) (records_list m)) (map (fun kv => (kv.1, clean kv.2)) (map_to_list m))).
  { unfold records_list. rewrite stable_sort_perm. change ((map_to_list m).*2) with (map snd (map_to_list m)). rewrite List.map_map.
    erewrite map_ext_in; [reflexivity|]. intros [id r] Hin%list_elem_of_In%elem_of_map_to_list. cbn. by rewrite (Hk id r Hin). }
  assert (Hkeys : (map (fun kv => (kv.1, clean kv.2)) (map_to_list m)).*1 = (map_to_list m).*1).
  { change fmap with (@map (string * queuedAuthRecord) string). rewrite List.map_map. done. }
  change (fun x => (recID (sr_rec (persisted x)), sr_rec (persisted x))) with (fun r => (recID r, clean r)).
  rewrite (list_to_map_proper _ (map (fun kv => (kv.1, clean kv.2)) (map_to_list m))).
  - rewrite <- (list_to_map_to_list (clean <$> m)). f_equal. rewrite map_to_list_fmap. reflexivity.
  - rewrite Hp. rewrite Hkeys. apply NoDup_fst_map_to_list.
  - exact Hp.
Qed.

Lemma diskRecords_committed disk revision now w evs : keyed (keptRecords now w) ->
  diskRecords (committed disk revision now w evs) = clean <$> keptRecords now w.
Proof. intros Hk. unfold diskRecords, committed. cbn. by apply records_of_list. Qed.

(** ** The system *)

(** Where the executor is: between passes, deciding whether to send the record it read,
    or placing it under a staged token. *)
Inductive execPhase := Idle | Deciding (current : queuedAuthRecord) | Placing (current : queuedAuthRecord) (token : string).

Record sys := mkSys { sy_store : queuedAuthStore; sy_disk : queueDisk; sy_phase : execPhase; sy_open : list (string * string) }.

Section System.
Context (termsDigest : QueuedAuthTerms -> option string) (sha256 : string -> string)
        (rowTermsDigest : TradeProposal -> string) (formatG : float64 -> string).

Definition fresh (id : string) (y : sys) : Prop :=
  qs_records (sy_store y) !! id = None /\ eventsOf id (qd_log (sy_disk y)) = [] /\ opensOf id (sy_open y) = [].

(** Go's range visits every record once. *)
Definition ranges (env : updateEnv) (y : sys) : Prop := Permutation (ue_order env) (map_to_list (qs_records (sy_store y))).*1.

(** The record a preparation stores: its terms, their digest and the connected scope. *)
Definition preparing (rec : queuedAuthRecord) (sc : brokerStateScope) (now : time) : Prop :=
  exists terms digest side reference,
    termsDigest terms = Some digest /\ rec = newQueued sha256 terms digest side reference now /\ sc = scope rec.

(** previewOrderRef: every previewed draft carries a reference. *)
Definition previewOrderRef (stamp : string) (tokenID : option string) : string :=
  say ("canary-" :: stamp :: match tokenID with Some t => ["-"; t] | None => [] end).

(** The system with its store and disk replaced. *)
Definition put (y : sys) (sd : queuedAuthStore * queueDisk) : sys := mkSys sd.1 sd.2 (sy_phase y) (sy_open y).
Definition state_of (y : sys) : queuedAuthStore * queueDisk := (sy_store y, sy_disk y).

(** Sends that the journal proves unsent, among those of the records a recovery reads. *)
Definition judgeStuck (journal : list orderJournalEvent) (ids : list string) (m : queueRecords) (opens : list (string * string))
    : list (string * string) :=
  List.filter (fun p =>
    negb match m !! p.1 with
         | Some r => one_of p.1 ids && (qa_State r =s QueuedAuthSending) && (qa_PreviewTokenID r =s p.2) &&
                     provesUnsent (queuedJournalSendOutcome journal r).1
         | None => false
         end) opens.

(** The decision of the executor on a record, applied. *)
Definition applyDecision (env : updateEnv) (now : time) (id : string) (d : execDecision) (sd : queuedAuthStore * queueDisk)
    : queuedAuthStore * queueDisk :=
  match d with
  | HoldIt code reason => (update env now (onRecord id (holdTurn code (boundedQueuedReason reason) now)) sd).1
  | CancelIt code reason => (update env now (onRecord id (cancelQueuedTurn code reason now)) sd).1
  | Ignore | SendIt _ => sd
  end.

Definition over {O} (turn : queuedAuthRecord -> queuedAuthRecord * list queuedAuthEvent * list O) (ids : list string) (m : queueRecords) (_ : list string)
    : queueRecords * list queuedAuthEvent * list O := rangeRecords turn ids m.

Inductive step (y : sys) : sys -> Prop :=
| step_prepare env rec sc now :
    ranges env y -> preparing rec sc now -> fresh (recID rec) y ->
    step y (put y (update env now (prepareMutate rec sc now) (state_of y)).1)
| step_prepareOwner env rec sc now :
    ranges env y -> preparing rec sc now -> fresh (recID rec) y ->
    step y (put y (update env now (prepareOwnerMutate rec sc now) (state_of y)).1)
| step_arm env g now p :
    ranges env y -> step y (put y (QueueArm termsDigest sha256 env g now p (state_of y)).1)
| step_cancel env now p :
    ranges env y -> step y (put y (QueueCancel env now p (state_of y)).1)
| step_unreadable env now :
    ranges env y -> sy_phase y = Idle ->
    step y (put y (update env now (fun m order => rangeRecords (unreadableTurn termsDigest now) order m) (state_of y)).1)
| step_recover env startedAt now journal :
    sy_phase y = Idle ->
    let ids := stuckIDs startedAt now (sy_store y) in
    let sd := (update env now (over (recoverTurn startedAt now journal) ids) (state_of y)).1 in
    step y (mkSys sd.1 sd.2 Idle (judgeStuck journal ids (qs_records (sy_store y)) (sy_open y)))
| step_endFlat env now sc positions ids :
    sy_phase y = Idle -> Permutation ids (flatIDs (sy_store y) sc positions) ->
    step y (put y (update env now (over (endMandateTurn now) ids) (state_of y)).1)
| step_expire env now :
    ranges env y -> sy_phase y = Idle ->
    step y (put y (update env now (fun m order => rangeRecords (expireTurn now) order m) (state_of y)).1)
| step_follow env now views :
    sy_phase y = Idle ->
    step y (put y (update env now (over (followTurn now views) (sentIDs (sy_store y))) (state_of y)).1)
| step_decide env now w rec :
    sy_phase y = Idle -> rec ∈ list_ (sy_store y) -> due now rec = true ->
    step y (match executeQueued termsDigest rowTermsDigest formatG w rec with
            | SendIt _ => match get (sy_store y) (recID rec) with
                          | Some current => if waiting current then mkSys (sy_store y) (sy_disk y) (Deciding current) (sy_open y) else y
                          | None => y
                          end
            | d => put y (applyDecision env now (recID rec) d (state_of y))
            end)
| step_withdraw env now current d :
    sy_phase y = Deciding current ->
    let sd := applyDecision env now (recID current) d (state_of y) in
    step y (mkSys sd.1 sd.2 Idle (sy_open y))
| step_place env startedAt at_ current preview :
    sy_phase y = Deciding current ->
    (exists stamp tokenID, dr_OrderRef (op_Draft preview) = previewOrderRef stamp tokenID) ->
    step y (match beforePlace termsDigest env startedAt at_ (recID current) (qa_Terms current) preview (state_of y) with
            | (sd, Ok _) => mkSys sd.1 sd.2 (Placing current (op_PreviewTokenID preview)) (sy_open y ++ [(recID current, op_PreviewTokenID preview)])
            | (sd, Err _) => put y sd
            end)
| step_outcome env finish current token res err placeErr journal :
    sy_phase y = Placing current token ->
    let outcome := sendOutcome (qa_Terms current) token res err placeErr journal in
    let sd := (update env finish (onRecord (recID current) (outcomeTurn finish outcome res err placeErr)) (state_of y)).1 in
    step y (mkSys sd.1 sd.2 Idle
              (if provesUnsent outcome.1 then List.filter (fun p => negb ((p.1 =s recID current) && (p.2 =s token))) (sy_open y) else sy_open y))
| step_restart s :
    bindCore termsDigest (sy_disk y) = Ok s -> step y (mkSys s (sy_disk y) Idle (sy_open y)).

(** A daemon started on an empty database. *)
Definition initial : sys := mkSys (mkQStore true 0 ∅) (mkDisk None []) Idle [].
Definition reachable (y : sys) : Prop := rtc step initial y.

(** ** The invariant *)

Definition phaseInv (ph : execPhase) (m : queueRecords) : Prop :=
  match ph with
  | Idle => True
  | Deciding current => forall r, m !! recID current = Some r -> qa_State r <> QueuedAuthSending /\
      (waiting r = true -> qa_OrderRef r = "" \/ ownerQueueProtection (qa_Terms r) = false)
  | Placing current token => forall r, m !! recID current = Some r -> qa_State r = QueuedAuthSending -> qa_PreviewTokenID r = token
  end.

(** A stored document names each record once, without its problem. *)
Definition docInv (disk : queueDisk) : Prop :=
  match qd_doc disk with
  | None => True
  | Some (_, raws) => NoDup (map (fun raw => recID (sr_rec raw)) raws) /\ Forall (fun raw => clean (sr_rec raw) = sr_rec raw) raws
  end.

Record sysInv (y : sys) : Prop := mkSysInv {
  si_doc : docInv (sy_disk y);
  si_disk : diskInv (diskRecords (sy_disk y)) (qd_log (sy_disk y)) (sy_open y);
  si_keyed : keyed (qs_records (sy_store y));
  si_rev : 0 <= qs_revision (sy_store y) <= diskRevision (sy_disk y);
  si_same : qs_revision (sy_store y) = diskRevision (sy_disk y) -> clean <$> qs_records (sy_store y) = diskRecords (sy_disk y);
  si_phase : phaseInv (sy_phase y) (qs_records (sy_store y))
}.

Lemma opensOf_filter (p : string * string -> bool) id opens :
  opensOf id (List.filter p opens) = List.filter (fun t => p (id, t)) (opensOf id opens).
Proof.
  unfold opensOf. induction opens as [|[i t] opens IH]; [done|]. cbn [List.filter].
  destruct (p (i, t)) eqn:Hp, (i =s id) eqn:Hi; cbn [List.filter fst]; rewrite ?Hi; cbn [map List.filter snd]; rewrite ?IH; try done;
    apply String.eqb_eq in Hi; subst; by rewrite Hp.
Qed.

(** Fewer open sends. *)
Definition narrows (opens opens' : list (string * string)) : Prop := exists p, opens' = List.filter p opens.

Lemma narrows_refl opens : narrows opens opens.
Proof. exists (fun _ => true). symmetry. apply List.forallb_filter_id. by apply forallb_forall. Qed.

Lemma diskInv_narrows m log opens opens' : narrows opens opens' -> diskInv m log opens -> diskInv m log opens'.
Proof.
  intros [p ->] [Hk Hj Ha Ho Hs]. split; try done.
  - intros id r H. rewrite opensOf_filter. by apply attemptOK_filter, Ha.
  - intros id. rewrite opensOf_filter. etrans; [apply filter_length_le | apply Hs].
Qed.

Lemma phaseInv_kept ph now w : phaseInv ph w -> phaseInv ph (keptRecords now w).
Proof.
  destruct ph as [|current|current token]; cbn; [done| |]; intros H r Hr; apply map_lookup_filter_Some in Hr as [Hr _]; eauto.
Qed.

Lemma advances_keyed log opens opens' m w evs : keyed m -> advances log opens opens' m w evs -> keyed w.
Proof.
  intros Hk Hadv id r Hr. specialize (Hadv id). rewrite Hr in Hadv. destruct (m !! id) as [r0|] eqn:Hm; [|by destruct Hadv].
  destruct Hadv as (Hi & _). rewrite (sameIdentity_id _ _ Hi). by apply Hk.
Qed.

Lemma all_NoDup (m : queueRecords) : keyed m -> NoDup (map recID (records_list m)).
Proof.
  intros Hk. assert (Hp : Permutation (map recID (records_list m)) (map_to_list m).*1).
  { unfold records_list. rewrite stable_sort_perm. change ((map_to_list m).*2) with (map snd (map_to_list m)). rewrite List.map_map.
    erewrite map_ext_in; [reflexivity|]. intros [id r] Hin%list_elem_of_In%elem_of_map_to_list. exact (Hk id r Hin). }
  rewrite Hp. apply NoDup_fst_map_to_list.
Qed.

Lemma ids_NoDup (m : queueRecords) p : keyed m -> NoDup (map recID (List.filter p (records_list m))).
Proof.
  intros Hk. assert (Hall := all_NoDup m Hk).
  induction (records_list m) as [|r l IH]; [constructor|]. cbn in *. apply NoDup_cons in Hall as [Hn Hall]. case_if; [|auto].
  cbn. apply NoDup_cons. split; [|auto]. intros Hin. apply Hn. apply list_elem_of_In, in_map_iff in Hin as (x & Hx & Hin).
  apply filter_In in Hin as [Hin _]. apply list_elem_of_In, in_map_iff. eauto.
Qed.

Lemma committed_doc disk revision now w evs : keyed (keptRecords now w) -> docInv (committed disk revision now w evs).
Proof.
  intros Hk. unfold docInv, committed. cbn. rewrite List.map_map. split; [by apply (all_NoDup (keptRecords now w))|].
  apply Forall_map, Forall_forall. done.
Qed.

(** A commit, seen by the store or not. *)
Lemma commit_sys y now w evs opens ph (seen : bool) :
  sysInv y -> qs_revision (sy_store y) = diskRevision (sy_disk y) ->
  advances (qd_log (sy_disk y)) (sy_open y) opens (qs_records (sy_store y)) w evs -> oneIntent w ->
  (forall id, w !! id = None -> (List.length (opensOf id opens) <= 1)%nat) -> phaseInv ph (if seen then w else qs_records (sy_store y)) ->
  sysInv (mkSys (if seen then mkQStore true (qs_revision (sy_store y) + 1) (keptRecords now w) else sy_store y)
            (committed (sy_disk y) (qs_revision (sy_store y)) now w evs) ph opens).
Proof.
  intros [Hdoc Hd Hk Hr Hsame Hph] Hrev Hadv Hone Hshort Hphw. specialize (Hsame Hrev).
  assert (Hkw : keyed (keptRecords now w)).
  { intros id r Hx. apply map_lookup_filter_Some in Hx as [Hx _]. exact (advances_keyed _ _ _ _ _ _ Hk Hadv id r Hx). }
  assert (Hd' : diskInv (clean <$> keptRecords now w) (qd_log (sy_disk y) ++ map (stampEvent now) evs) opens).
  { apply (commit_diskInv now _ (sy_open y) opens (qs_records (sy_store y))); try done; by rewrite Hsame. }
  destruct seen; split; cbn [sy_store sy_disk sy_phase sy_open qs_records qs_revision];
    rewrite ?diskRecords_committed by done; try done; try (by apply committed_doc); try (apply phaseInv_kept; done); unfold diskRevision at 1; cbn [committed qd_doc].
  all: lia.
Qed.

(** An update preserves the invariant when what it commits does. *)
Lemma update_inv {A} env now (mutate : queueRecords -> list string -> queueRecords * list queuedAuthEvent * A) y ph opens :
  sysInv y -> narrows (sy_open y) opens -> phaseInv ph (qs_records (sy_store y)) ->
  (forall w evs a, clean <$> qs_records (sy_store y) = diskRecords (sy_disk y) -> mutate (qs_records (sy_store y)) (ue_order env) = (w, evs, a) -> evs <> [] ->
     advances (qd_log (sy_disk y)) (sy_open y) opens (qs_records (sy_store y)) w evs /\ oneIntent w /\ phaseInv ph w) ->
  sysInv (mkSys (update env now mutate (state_of y)).1.1 (update env now mutate (state_of y)).1.2 ph opens).
Proof.
  intros Hy Hn Hph' Hcommit. unfold state_of.
  destruct (update_updated env now mutate (sy_store y) (sy_disk y)) as [res Hres|w evs a s' res Hm Hne Hrev Hatt Hs'].
  { destruct Hy. split; cbn; try done. by apply (diskInv_narrows _ _ (sy_open y)). }
  destruct (Hcommit w evs a (si_same _ Hy Hrev) Hm Hne) as (Hadv & Hone & Hphw).
  assert (Hshort : forall id, w !! id = None -> (List.length (opensOf id opens) <= 1)%nat).
  { intros id _. destruct Hn as [p ->]. rewrite opensOf_filter. etrans; [apply filter_length_le | apply (di_short _ _ _ (si_disk _ Hy))]. }
  destruct Hs' as [(-> & _)|(-> & _)]; [by apply (commit_sys y now w evs opens ph false) | by apply (commit_sys y now w evs opens ph true)].
Qed.

(** A loop of lawful turns. *)
Lemma range_commit {O} (turn : queuedAuthRecord -> queuedAuthRecord * list queuedAuthEvent * list O) log opens opens' m order w evs outs :
  keyed m -> NoDup order -> (forall r, lawful r (turn r).1.2 (turn r).1.1) -> oneIntent m ->
  (forall id r, m !! id = Some r -> attemptOK (opensOf id opens) r ->
     attemptOK (opensOf id opens') (if bool_decide (id ∈ order) then (turn r).1.1 else r)) ->
  rangeRecords turn order m = (w, evs, outs) -> advances log opens opens' m w evs /\ oneIntent w.
Proof.
  intros Hk Hnd Hl Hone Hatt Hr. pose proof (rangeRecords_spec turn Hl order m w evs outs Hk Hnd Hr) as Hspec.
  assert (Hw : forall id r', w !! id = Some r' -> exists r, m !! id = Some r /\ lawful r (eventsOf id evs) r' /\ recID r = id /\
    r' = (if bool_decide (id ∈ order) then (turn r).1.1 else r)).
  { intros id r' H. destruct (Hspec id) as [Ha Hb]. rewrite H in Ha. destruct (bool_decide (id ∈ order)).
    - symmetry in Ha. apply fmap_Some in Ha as (r & Hm & ->). rewrite Hm in Hb. exists r. rewrite Hb. split_and!; auto.
    - exists r'. rewrite Hb. symmetry in Ha. split_and!; auto with canary. }
  split.
  - intros id. destruct (w !! id) as [r'|] eqn:H.
    + destruct (Hw id r' H) as (r & Hm & (Hi & Hf & _) & Hid & ->). rewrite Hm. rewrite Hid in Hf. split_and!; auto.
    + destruct (Hspec id) as [Ha _]. rewrite H in Ha. destruct (bool_decide _); [|done]. by destruct (m !! id).
  - intros i j a b Ha Hb Hoa Hob Hs Hsc. destruct (Hw i a Ha) as (a0 & Hma & (Hia & _ & Hoa') & _), (Hw j b Hb) as (b0 & Hmb & (Hib & _ & Hob') & _).
    destruct Hia as (_ & _ & Hta & _ & Hsa & _), Hib as (_ & _ & Htb & _ & Hsb & _).
    apply (Hone i j a0 b0); auto; [congruence|]. unfold scope in *. by rewrite <- Hta, <- Htb.
Qed.

(** ** Steps that only edit records *)

(** A turn that never takes a record into a send, and leaves the attempt of a waiting one. *)
Definition quiet (r r' : queuedAuthRecord) : Prop :=
  (qa_State r' = QueuedAuthSending -> qa_State r = QueuedAuthSending /\ qa_PreviewTokenID r' = qa_PreviewTokenID r) /\
  (waiting r' = true -> waiting r = true /\ qa_OrderRef r' = qa_OrderRef r /\ qa_Terms r' = qa_Terms r).

Lemma quiet_refl r : quiet r r.
Proof. by repeat split. Qed.

Lemma quiet_phase ph m w : (forall id r', w !! id = Some r' -> exists r, m !! id = Some r /\ quiet r r') -> phaseInv ph m -> phaseInv ph w.
Proof.
  destruct ph as [|current|current token]; cbn; [done| |]; intros Hq H r' Hr'; destruct (Hq _ _ Hr') as (r & Hr & Hs & Hw).
  - destruct (H r Hr) as [Ha Hb]. split; [intros Hx; by destruct (Hs Hx)|]. intros Hx. destruct (Hw Hx) as (? & -> & ->). auto.
  - intros Hx. destruct (Hs Hx) as [Hy ->]. by apply H.
Qed.

Lemma oneIntent_clean m : oneIntent (clean <$> m) -> oneIntent m.
Proof.
  intros H i j a b Ha Hb. apply (H i j (clean a) (clean b)); by rewrite lookup_fmap, ?Ha, ?Hb.
Qed.

Lemma turns_inv {O A} (turn : queuedAuthRecord -> queuedAuthRecord * list queuedAuthEvent * list O) env now
    (mutate : queueRecords -> list string -> queueRecords * list queuedAuthEvent * A) ids y :
  (forall r, lawful r (turn r).1.2 (turn r).1.1) -> (forall r, keepsAttempt r (turn r).1.1) ->
  (sy_phase y = Idle \/ forall r, quiet r (turn r).1.1) -> NoDup ids ->
  (mutate (qs_records (sy_store y)) (ue_order env)).1 = (rangeRecords turn ids (qs_records (sy_store y))).1 ->
  sysInv y -> sysInv (put y (update env now mutate (state_of y)).1).
Proof.
  intros Hl Ha Hq Hnd Hmut Hy. apply update_inv; [done | apply narrows_refl | apply Hy|].
  intros w evs a Hsame Hm _. rewrite Hm in Hmut.
  destruct (rangeRecords turn ids (qs_records (sy_store y))) as [[w' evs'] outs] eqn:Hrange. injection Hmut as <- <-. destruct Hy as [_ Hd Hk Hr _ Hph].
  assert (Hone : oneIntent (qs_records (sy_store y))) by (apply oneIntent_clean; rewrite Hsame; apply Hd).
  destruct (range_commit turn (qd_log (sy_disk y)) (sy_open y) (sy_open y) _ ids w evs outs Hk Hnd Hl Hone) as [H1 H2]; [|exact Hrange|].
  { intros id r _ H. case_bool_decide; [by apply Ha | done]. }
  split; [done|]. split; [done|]. destruct Hq as [E|Hq]; [by rewrite E|]. revert Hph. apply quiet_phase. intros id r' Hr'.
  destruct (rangeRecords_spec turn Hl ids _ w evs outs Hk Hnd Hrange id) as [Hx _]. rewrite Hr' in Hx. destruct (bool_decide (id ∈ ids)).
  - symmetry in Hx. apply fmap_Some in Hx as (r & Hmr & ->). eauto.
  - eauto using quiet_refl.
Qed.

Lemma put_id y : put y (sy_store y, sy_disk y) = y.
Proof. by destruct y. Qed.

Lemma order_NoDup env y : ranges env y -> NoDup (ue_order env).
Proof. unfold ranges. intros ->. apply NoDup_fst_map_to_list. Qed.

Lemma cancelTurn_quiet p id origin reason now r : quiet r (cancelTurn p id origin reason now r).1.1.
Proof.
  unfold cancelTurn. case_if; [apply quiet_refl|]. case_if; [apply quiet_refl|].
  assert (Hreq : forall m (f : queuedAuthRecord -> list cancelOut), quiet r (let '(r', ev) := requestCancel r origin reason m now in (r', [ev], f r')).1.1).
  { intros m f. unfold requestCancel, note, tagged. destruct m; cbn [fst snd]; by repeat split. }
  case_if; [case_if; [apply Hreq | apply quiet_refl]|]. case_if; [case_if; [apply Hreq | apply quiet_refl]|].
  case_if; [case_if; [apply Hreq | apply quiet_refl]|]. case_if; [apply quiet_refl|]. by split.
Qed.

Lemma QueueCancel_inv env now p y : ranges env y -> sysInv y -> sysInv (put y (QueueCancel env now p (state_of y)).1).
Proof.
  intros Hr Hy. unfold QueueCancel, state_of. case_if; [by cbn; rewrite put_id|]. case_if; [by cbn; rewrite put_id|].
  set (turn := cancelTurn p _ _ _ now).
  pose proof (turns_inv turn env now (fun m order => rangeRecords turn order m) (ue_order env) y) as H.
  unfold state_of in H. destruct (update env now (fun m order => rangeRecords turn order m) (sy_store y, sy_disk y)) as [sd res].
  assert (Hsd : sysInv (put y sd)).
  { apply H; [intros r; apply cancelTurn_lawful | intros r; apply cancelTurn_attempt | right; intros r; apply cancelTurn_quiet
             | by eapply order_NoDup | reflexivity | done]. }
  destruct res; [|done]. case_if; [done|]. by destruct (singleOf _).
Qed.

(** ** Prepare and arm *)

Lemma sameBrokerScope_sym a b : sameBrokerScope a b = sameBrokerScope b a.
Proof. unfold sameBrokerScope. rewrite EqualFold_sym. f_equal. apply EqualFold_sym. Qed.

(** A mutation of one record. *)
Lemma insert_commit log opens m id r r' evs :
  keyed m -> m !! id = Some r -> sameIdentity r r' -> follows id (standing r) evs (standing r') ->
  (attemptOK (opensOf id opens) r -> attemptOK (opensOf id opens) r') -> advances log opens opens m (<[id := r']> m) evs.
Proof.
  intros Hk Hm Hi Hf Ha j. destruct (decide (j = id)) as [->|Hne].
  - rewrite lookup_insert_eq, Hm. rewrite (eventsOf_follows _ _ _ _ _ Hf), eqb_s_refl. done.
  - rewrite lookup_insert_ne by done. rewrite (eventsOf_follows _ _ _ _ _ Hf), (proj2 (String.eqb_neq id j)) by done.
    destruct (m !! j); [|done]. split_and!; auto with canary.
Qed.

Lemma arm_commit p marks bookOK now log opens m order id w evs refused armed ph :
  keyed m -> oneIntent m -> phaseInv ph m -> (forall j, j ∈ order <-> m !! j <> None) ->
  (forall r, m !! id = Some r -> attemptOK (opensOf id opens) r) ->
  armMutate id p marks bookOK now m order = (w, evs, (refused, armed)) ->
  advances log opens opens m w evs /\ oneIntent w /\ phaseInv ph w.
Proof.
  intros Hk Hone Hph Hord Hatt. unfold armMutate.
  assert (Hsame : advances log opens opens m m []).
  { intros j. destruct (m !! j) as [r|] eqn:E; [|done]. split_and!; auto with canary. }
  destruct (m !! id) as [r|] eqn:Hm; [|by intros [= <- <- _ _]]. case_if; [by intros [= <- <- _ _]|]. bool_hyps.
  destruct (otherOccupant id r m order) as [|b bs] eqn:Ho; [|by intros [= <- <- _ _]].
  set (r1 := r <| qa_ArmedAt := _ |> <| qa_DeskActionID := _ |> <| qa_Credential := _ |> <| qa_Envelope := _ |> <| qa_ArmOrigin := _ |>
               <| qa_SettlingBaseline := _ |> <| qa_SettlingBaselineKnown := _ |>).
  cbn [tagged]. intros [= <- <- _ _].
  set (r2 := (transition r1 queuedEventArmed QueuedAuthArmed now).1).
  assert (Hid : recID r = id) by (by apply Hk).
  assert (Hprep : opensOf id opens = [] /\ qa_OrderRef r = "").
  { specialize (Hatt r eq_refl). unfold attemptOK in Hatt. by rewrite (proj2 (String.eqb_eq _ _) H) in Hatt. }
  split; [|split].
  - apply insert_commit with (r := r); try done.
    + apply follows_single. split; [exact Hid|]. split; [reflexivity|]. split; [reflexivity|]. split; [|reflexivity].
      unfold legal. cbn -[String.eqb one_of queuedKnownStates nextStates]. rewrite H. reflexivity.
    + intros _. rewrite (proj1 Hprep). left. reflexivity.
  - assert (Hx : forall j b, j <> id -> m !! j = Some b -> occupying b = true -> qa_ContractSide b = qa_ContractSide r ->
        sameBrokerScope (scope b) (scope r) = true -> False).
    { intros j b Hne Hb Hob Hs Hsc. assert (Hf : occupying b = false); [|congruence].
      apply (otherOccupant_none id r m order Ho j b); [apply Hord; congruence | done | done|].
      unfold sameIntent. rewrite Hs, eqb_s_refl. exact Hsc. }
    intros i j a b Ha Hb Hoa Hob Hs Hsc.
    apply lookup_insert_Some in Ha as [[<- <-]|[Hia Ha]], Hb as [[<- <-]|[Hjb Hb]]; try done.
    + exfalso. apply (Hx j b); [done | done | done | exact (eq_sym Hs) | rewrite sameBrokerScope_sym; exact Hsc].
    + exfalso. apply (Hx i a); [done | done | done | exact Hs | exact Hsc].
    + exact (Hone i j a b Ha Hb Hoa Hob Hs Hsc).
  - destruct ph as [|current|current token]; [done| |]; intros x Hx; apply lookup_insert_Some in Hx as [[_ <-]|[_ Hx]]; [| by apply Hph | |by apply Hph].
    + split; [discriminate|]. intros _. left. exact (proj2 Hprep).
    + discriminate.
Qed.

Definition unarmedTurn (now : time) (r : queuedAuthRecord) : queuedAuthRecord * list queuedAuthEvent * list unit :=
  if (qa_State r <>s QueuedAuthPrepared) || Before now (qt_ArmDeadline (qa_Terms r)) then skip r
  else moved (resolve r queuedEventExpired QueuedAuthExpired queuedReasonNotArmed "the owner's signature did not arrive within ten minutes" now) [].

Lemma unarmedTurn_ok now r : lawful r (unarmedTurn now r).1.2 (unarmedTurn now r).1.1 /\ keepsAttempt r (unarmedTurn now r).1.1 /\
  quiet r (unarmedTurn now r).1.1.
Proof.
  unfold unarmedTurn. case_if; [split_and!; [move_tac | attempt_tac | apply quiet_refl]|]. bool_hyps.
  split_and!; [move_tac | attempt_tac | by split].
Qed.

Lemma expireUnarmed_turn id now m order : (expireUnarmedMutate id now m order).1 = (rangeRecords (unarmedTurn now) [id] m).1.
Proof.
  unfold expireUnarmedMutate, unarmedTurn. cbn [rangeRecords]. destruct (m !! id) as [r|] eqn:Hm; [|done].
  destruct ((qa_State r <>s QueuedAuthPrepared) || Before now (qt_ArmDeadline (qa_Terms r))); [|done]. cbn. by rewrite insert_id.
Qed.

Lemma order_covers env y : ranges env y -> forall j, j ∈ ue_order env <-> qs_records (sy_store y) !! j <> None.
Proof.
  intros Hr j. rewrite Hr, list_elem_of_In. change (map_to_list (qs_records (sy_store y))).*1 with (map fst (map_to_list (qs_records (sy_store y)))).
  rewrite in_map_iff. split.
  - intros ([k r] & <- & Hin%list_elem_of_In%elem_of_map_to_list). cbn. congruence.
  - intros H. destruct (qs_records (sy_store y) !! j) as [r|] eqn:E; [|done]. exists (j, r). split; [done|].
    by apply list_elem_of_In, elem_of_map_to_list.
Qed.

Lemma QueueArm_inv env g now p y : ranges env y -> sysInv y -> sysInv (put y (QueueArm termsDigest sha256 env g now p (state_of y)).1).
Proof.
  intros Hr Hy. assert (Hsame : sysInv (put y (sy_store y, sy_disk y))) by (by rewrite put_id).
  unfold QueueArm, state_of. cbn zeta. case_if; [done|]. case_if; [done|].
  destruct (loadQueuedByReference sha256 (sy_store y) (ap_QueuedRef p)) as [rec|]; [|done].
  case_if; [done|]. case_if; [done|]. case_if; [done|]. case_if.
  { apply (turns_inv (unarmedTurn now) env now (expireUnarmedMutate _ now) [recID rec]); try (intros r; apply unarmedTurn_ok); auto.
    - right. intros r. apply unarmedTurn_ok.
    - apply NoDup_singleton.
    - apply expireUnarmed_turn. }
  case_if; [done|]. case_if; [done|]. destruct (ag_automatic g); [|done].
  set (mutate := armMutate _ p _ _ now).
  assert (Hup : sysInv (put y (update env now mutate (sy_store y, sy_disk y)).1)).
  { apply (update_inv env now mutate y (sy_phase y) (sy_open y) Hy (narrows_refl _) (si_phase _ Hy)).
    intros w evs [refused armed] Hd Hm _. unfold mutate in Hm.
    refine (arm_commit p _ _ now _ _ _ _ _ w evs refused armed _ (si_keyed _ Hy) _ _ _ _ Hm).
    - apply oneIntent_clean. rewrite Hd. apply Hy.
    - apply Hy.
    - by apply order_covers.
    - intros r Hx. apply (di_attempt _ _ _ (si_disk _ Hy) _ (clean r)). rewrite <- Hd, lookup_fmap, Hx. done. }
  destruct (update env now mutate (sy_store y, sy_disk y)) as [sd res]. destruct res as [[[|b bs] [a|]]|]; done.
Qed.

(** A preparation: its turn over the others, then the new record. *)
Lemma prepare_commit reason rec sc now log opens m order m' evs outs ph :
  keyed m -> oneIntent m -> phaseInv ph m -> NoDup order ->
  m !! recID rec = None -> eventsOf (recID rec) log = [] -> opensOf (recID rec) opens = [] ->
  qa_State rec = "" -> qa_Seq rec = 0 -> qa_OrderRef rec = "" ->
  rangeRecords (supersedeTurn (qa_ContractSide rec) sc reason now) order m = (m', evs, outs) ->
  let p := transition rec queuedEventPrepared QueuedAuthPrepared now in
  advances log opens opens m (<[recID rec := p.1]> m') (evs ++ [p.2]) /\ oneIntent (<[recID rec := p.1]> m') /\
  phaseInv ph (<[recID rec := p.1]> m').
Proof.
  intros Hk Hone Hph Hnd Hnone Hlog Hop Hst Hsq Href Hr p.
  set (turn := supersedeTurn (qa_ContractSide rec) sc reason now) in *.
  assert (Hl : forall r, lawful r (turn r).1.2 (turn r).1.1) by (intros r; apply supersedeTurn_lawful).
  pose proof (rangeRecords_spec turn Hl order m m' evs outs Hk Hnd Hr) as Hspec.
  destruct (range_commit turn log opens opens m order m' evs outs Hk Hnd Hl Hone) as [Hadv Hone']; [|done|].
  { intros id r _ H. case_bool_decide; [by apply supersedeTurn_attempt | done]. }
  assert (Hf : follows (recID rec) ("", 0) [p.2] (standing p.1)).
  { apply follows_single. unfold p, transition, note. cbn. rewrite Hst, Hsq. by repeat split. }
  assert (Hev : eventsOf (recID rec) evs = []) by (destruct (Hspec (recID rec)) as [_ ->]; rewrite Hnone; by destruct (bool_decide _)).
  split; [|split].
  - intros id. destruct (decide (id = recID rec)) as [->|Hne].
    + rewrite lookup_insert_eq, Hnone, eventsOf_app, Hev, (eventsOf_follows _ _ _ _ _ Hf), eqb_s_refl. cbn [app].
      split_and!; [done | done | done|]. rewrite Hop. split; [done | exact Href].
    + rewrite lookup_insert_ne by done. rewrite eventsOf_app, (eventsOf_follows _ _ _ _ _ Hf), (proj2 (String.eqb_neq _ _)) by done.
      rewrite List.app_nil_r. apply Hadv.
  - intros i j a b [[<- <-]|[Hi Ha]]%lookup_insert_Some [[<- <-]|[Hj Hb]]%lookup_insert_Some Hoa Hob Hs Hsc; try done.
    exact (Hone' i j a b Ha Hb Hoa Hob Hs Hsc).
  - assert (Hph' : phaseInv ph m').
    { revert Hph. apply quiet_phase. intros id r' Hr'. destruct (Hspec id) as [Hx _]. rewrite Hr' in Hx. destruct (bool_decide (id ∈ order)).
      - symmetry in Hx. apply fmap_Some in Hx as (r & Hmr & ->). exists r. split; [done|]. unfold turn, supersedeTurn. case_if; [by split | apply quiet_refl].
      - eauto using quiet_refl. }
    destruct ph as [|current|current token]; [done| |]; intros x Hx; apply lookup_insert_Some in Hx as [[_ <-]|[_ Hx]];
      [by split | by apply Hph' | discriminate | by apply Hph'].
Qed.

Lemma prepare_inv env rec sc now y : ranges env y -> preparing rec sc now -> fresh (recID rec) y -> sysInv y ->
  sysInv (put y (update env now (prepareMutate rec sc now) (state_of y)).1).
Proof.
  intros Hr (terms & digest & side & ref & _ & -> & _) (Hf1 & Hf2 & Hf3) Hy.
  apply (update_inv env now _ y (sy_phase y) (sy_open y) Hy (narrows_refl _) (si_phase _ Hy)). intros w evs a Hd Hm Hne. unfold prepareMutate in Hm.
  set (rec := newQueued sha256 terms digest side ref now) in *.
  destruct (supersedeOthers (qa_ContractSide rec) sc now (ue_order env) (qs_records (sy_store y))) as [[m' evs0] refused] eqn:Hs.
  destruct refused; [|by injection Hm as <- <- <-]. apply supersedeOthers_spec in Hs as [Hs _]; [|by eapply order_NoDup].
  injection Hm as <- <- <-.
  refine (prepare_commit _ rec sc now _ _ _ _ m' evs0 [] _ (si_keyed _ Hy) _ (si_phase _ Hy) (order_NoDup _ _ Hr) Hf1 Hf2 Hf3 eq_refl eq_refl eq_refl Hs).
  apply oneIntent_clean. rewrite Hd. apply Hy.
Qed.

Lemma prepareOwner_inv env rec sc now y : ranges env y -> preparing rec sc now -> fresh (recID rec) y -> sysInv y ->
  sysInv (put y (update env now (prepareOwnerMutate rec sc now) (state_of y)).1).
Proof.
  intros Hr (terms & digest & side & ref & _ & -> & _) (Hf1 & Hf2 & Hf3) Hy.
  apply (update_inv env now _ y (sy_phase y) (sy_open y) Hy (narrows_refl _) (si_phase _ Hy)). intros w evs a Hd Hm Hne. unfold prepareOwnerMutate in Hm.
  set (rec := newQueued sha256 terms digest side ref now) in *.
  destruct (existsb _ _); [by injection Hm as <- <- <-|].
  change (fun other => if sameIntent (qa_ContractSide rec) sc other && (qa_State other =s QueuedAuthPrepared) then _ else _)
    with (supersedeTurn (qa_ContractSide rec) sc "replaced before confirmation" now) in Hm.
  destruct (rangeRecords _ (ue_order env) (qs_records (sy_store y))) as [[m' evs0] outs] eqn:Hs.
  injection Hm as <- <- <-.
  refine (prepare_commit _ rec sc now _ _ _ _ m' evs0 outs _ (si_keyed _ Hy) _ (si_phase _ Hy) (order_NoDup _ _ Hr) Hf1 Hf2 Hf3 eq_refl eq_refl eq_refl Hs).
  apply oneIntent_clean. rewrite Hd. apply Hy.
Qed.

(** ** Recovery *)

Lemma list_in s r : keyed (qs_records s) -> r ∈ list_ s -> qs_records s !! recID r = Some r.
Proof.
  intros Hk. unfold list_, records_list. rewrite stable_sort_perm. intros Hin.
  apply list_elem_of_fmap in Hin as ([id r'] & -> & Hin%elem_of_map_to_list). cbn. by rewrite (Hk id r' Hin).
Qed.

Lemma chosen_in s p id : keyed (qs_records s) -> id ∈ map recID (List.filter p (list_ s)) ->
  exists r, qs_records s !! id = Some r /\ p r = true.
Proof.
  intros Hk Hin. apply list_elem_of_In, in_map_iff in Hin as (r & <- & Hin). apply filter_In in Hin as [Hin Hp].
  exists r. split; [|done]. apply list_in; [done|]. by apply list_elem_of_In.
Qed.

Lemma judgeStuck_of journal ids m opens id r : m !! id = Some r ->
  opensOf id (judgeStuck journal ids m opens) =
    if one_of id ids && (qa_State r =s QueuedAuthSending) then judged (queuedJournalSendOutcome journal r).1 (qa_PreviewTokenID r) (opensOf id opens)
    else opensOf id opens.
Proof.
  intros Hm. unfold judgeStuck, judged. rewrite opensOf_filter. cbn [fst snd]. rewrite Hm.
  destruct (one_of id ids && (qa_State r =s QueuedAuthSending)) eqn:E; [destruct (provesUnsent _) eqn:Hp|].
  - apply List.filter_ext. intros t. rewrite andb_true_r. cbn. by rewrite String.eqb_sym.
  - apply List.forallb_filter_id, forallb_forall. intros t _. by rewrite !andb_false_r.
  - apply List.forallb_filter_id, forallb_forall. intros t _. done.
Qed.

Lemma recover_inv env startedAt now journal y : sy_phase y = Idle -> sysInv y ->
  let ids := stuckIDs startedAt now (sy_store y) in
  let sd := (update env now (over (recoverTurn startedAt now journal) ids) (state_of y)).1 in
  sysInv (mkSys sd.1 sd.2 Idle (judgeStuck journal ids (qs_records (sy_store y)) (sy_open y))).
Proof.
  intros Hp Hy ids sd. assert (Hk := si_keyed _ Hy).
  assert (Hnd : NoDup ids) by exact (ids_NoDup _ (stuck startedAt now) Hk).
  apply update_inv; [done | by eexists | done|]. intros w evs a Hd Hm _.
  destruct (range_commit (recoverTurn startedAt now journal) (qd_log (sy_disk y)) (sy_open y)
    (judgeStuck journal ids (qs_records (sy_store y)) (sy_open y)) _ ids w evs a Hk Hnd) as [H1 H2]; [| | |exact Hm|done].
  - intros r. apply recoverTurn_lawful.
  - apply oneIntent_clean. rewrite Hd. apply Hy.
  - intros id r Hr Ha. rewrite (judgeStuck_of _ _ _ _ _ _ Hr). case_bool_decide as Hin.
    + destruct (chosen_in _ _ _ Hk Hin) as (r0 & Hr0 & Hst). assert (r0 = r) by congruence. subst.
      unfold stuck in Hst. bool_hyps. rewrite (proj2 (one_of_true id ids)) by (by apply list_elem_of_In).
      match goal with H : qa_State r = _ |- _ => rewrite (proj2 (String.eqb_eq _ _) H); by apply recoverTurn_attempt end.
    + assert (E : one_of id ids = false); [|by rewrite E].
      apply not_true_iff_false. rewrite one_of_true. intros Hx. apply Hin. by apply list_elem_of_In.
Qed.

(** ** A send *)

Lemma waiting_opens opens r : waiting r = true -> attemptOK opens r -> qa_OrderRef r = "" \/ ownerQueueProtection (qa_Terms r) = false -> opens = [].
Proof.
  intros Hw H Hx. revert H. unfold attemptOK. rewrite Hw. destruct (waiting_cases r Hw) as [E|E]; rewrite E; str_eval;
    destruct Hx as [Hx|Hx]; rewrite Hx; intuition congruence.
Qed.

Lemma stageTurn_cases startedAt at_ preview r : let p := stageTurn termsDigest startedAt at_ preview r in
  (p.1.2 = [] /\ p.1.1 = r) \/
  (waiting r = true /\ qa_State p.1.1 = QueuedAuthSending /\ qa_PreviewTokenID p.1.1 = op_PreviewTokenID preview /\
   qa_OrderRef p.1.1 = dr_OrderRef (op_Draft preview)).
Proof.
  unfold stageTurn. destruct (waiting r) eqn:Hw; [|by left]. cbn [negb]. case_if; [by left|]. case_if; [by left|]. right.
  unfold resume. by destruct (qa_State r =s QueuedAuthHeld).
Qed.

Lemma previewed_named preview stamp tokenID : dr_OrderRef (op_Draft preview) = previewOrderRef stamp tokenID -> dr_OrderRef (op_Draft preview) <> "".
Proof. intros -> H. by destruct tokenID, stamp. Qed.

Lemma opensOf_snoc id opens i t : opensOf id (opens ++ [(i, t)]) = opensOf id opens ++ (if i =s id then [t] else []).
Proof. unfold opensOf. rewrite List.filter_app, map_app. cbn. by destruct (i =s id). Qed.

(** What one staged intent commits. *)
Lemma stage_commit startedAt at_ preview log opens opens' m id w evs outs :
  keyed m -> oneIntent m -> (forall r, m !! id = Some r -> attemptOK (opensOf id opens) r) ->
  (forall r, m !! id = Some r -> qa_State r <> QueuedAuthSending /\ (waiting r = true -> qa_OrderRef r = "" \/ ownerQueueProtection (qa_Terms r) = false)) ->
  dr_OrderRef (op_Draft preview) <> "" -> opens' = opens \/ opens' = opens ++ [(id, op_PreviewTokenID preview)] ->
  rangeRecords (stageTurn termsDigest startedAt at_ preview) [id] m = (w, evs, outs) -> evs <> [] ->
  advances log opens opens' m w evs /\ oneIntent w /\ opensOf id opens = [] /\
  exists r, w !! id = Some r /\ qa_State r = QueuedAuthSending /\ qa_PreviewTokenID r = op_PreviewTokenID preview.
Proof.
  intros Hk Hone Hatt Hph Href Hop Hr Hne. set (turn := stageTurn termsDigest startedAt at_ preview) in *.
  assert (Hl : forall r, lawful r (turn r).1.2 (turn r).1.1) by (intros r; apply stageTurn_lawful).
  destruct (rangeRecords_spec turn Hl [id] m w evs outs Hk (NoDup_singleton id) Hr id) as [Hw Hev].
  rewrite bool_decide_eq_true_2 in Hw, Hev by set_solver.
  assert (Hin : exists r, m !! id = Some r).
  { cbn in Hr. destruct (m !! id) as [r|]; [eauto|]. injection Hr as _ <- _. done. }
  destruct Hin as [r Hm]. rewrite Hm in Hw, Hev. cbn in Hw.
  assert (Hevs : evs = (turn r).1.2).
  { cbn in Hr. rewrite Hm in Hr. destruct (turn r) as [[r' e] o]. injection Hr as _ <- _. by rewrite List.app_nil_r. }
  destruct (stageTurn_cases startedAt at_ preview r) as [[Hx _]|(Hwait & Hst & Htok & Hor)]; [unfold turn in Hevs; congruence|]. fold turn in Hst, Htok, Hor.
  assert (Hnil : opensOf id opens = []) by (apply (waiting_opens _ r Hwait (Hatt r Hm)); by apply Hph).
  destruct (range_commit turn log opens opens' m [id] w evs outs Hk (NoDup_singleton id) Hl Hone) as [Hadv Hone'].
  - intros j x Hx Ha. case_bool_decide as Hj.
    + apply list_elem_of_singleton in Hj as ->. assert (x = r) by congruence. subst x. unfold attemptOK, waiting. rewrite Hst. str_eval. cbn [orb].
      rewrite Hor, Htok. split; [done|]. destruct Hop as [-> | ->]; [auto|]. rewrite opensOf_snoc, Hnil, eqb_s_refl. auto.
    + destruct Hop as [-> | ->]; [done|]. rewrite opensOf_snoc, (proj2 (String.eqb_neq id j)), List.app_nil_r by set_solver. done.
  - exact Hr.
  - split_and!; eauto.
Qed.

Lemma queuedPlace_inv env startedAt at_ current preview y : sy_phase y = Deciding current ->
  (exists stamp tokenID, dr_OrderRef (op_Draft preview) = previewOrderRef stamp tokenID) -> sysInv y ->
  sysInv match beforePlace termsDigest env startedAt at_ (recID current) (qa_Terms current) preview (state_of y) with
         | (sd, Ok _) => mkSys sd.1 sd.2 (Placing current (op_PreviewTokenID preview)) (sy_open y ++ [(recID current, op_PreviewTokenID preview)])
         | (sd, Err _) => put y sd
         end.
Proof.
  intros Hp (stamp & tokenID & Href%previewed_named) Hy. unfold beforePlace.
  case_if; [by unfold state_of; rewrite put_id|].
  set (mutate := fun m (_ : list string) => rangeRecords (stageTurn termsDigest startedAt at_ preview) [recID current] m).
  assert (Hph := si_phase _ Hy). rewrite Hp in Hph. cbn in Hph.
  assert (Hcommit : forall opens' w evs outs, clean <$> qs_records (sy_store y) = diskRecords (sy_disk y) ->
    opens' = sy_open y \/ opens' = sy_open y ++ [(recID current, op_PreviewTokenID preview)] -> mutate (qs_records (sy_store y)) (ue_order env) = (w, evs, outs) ->
    evs <> [] -> advances (qd_log (sy_disk y)) (sy_open y) opens' (qs_records (sy_store y)) w evs /\ oneIntent w /\
      opensOf (recID current) (sy_open y) = [] /\
      exists r, w !! recID current = Some r /\ qa_State r = QueuedAuthSending /\ qa_PreviewTokenID r = op_PreviewTokenID preview).
  { intros opens' w evs outs Hd Hop Hm Hne.
    refine (stage_commit startedAt at_ preview _ _ opens' _ _ w evs outs (si_keyed _ Hy) _ _ Hph Href Hop Hm Hne).
    - apply oneIntent_clean. rewrite Hd. apply Hy.
    - intros r Hx. apply (di_attempt _ _ _ (si_disk _ Hy) _ (clean r)). by rewrite <- Hd, lookup_fmap, Hx. }
  unfold state_of. pose proof (update_updated env at_ mutate (sy_store y) (sy_disk y)) as Hu.
  destruct (update env at_ mutate (sy_store y, sy_disk y)) as [[s' d'] res]. cbn [fst snd] in Hu.
  inversion Hu as [res' Hres E1 E2 E3|w evs outs s2 res' Hm Hne Hrev Hatt Hs E1 E2 E3]; subst.
  - destruct res as [outs|e]; [|by rewrite put_id]. unfold mayPlace, get. cbn [fst].
    destruct (qs_records (sy_store y) !! recID current) as [got|] eqn:Hg; [|by rewrite put_id].
    rewrite (proj2 (String.eqb_neq _ _) (proj1 (Hph got eq_refl))). cbn [andb]. by rewrite put_id.
  - assert (Hd := si_same _ Hy Hrev). destruct Hs as [(-> & He)|(-> & ->)].
    + destruct res as [|e]; [discriminate|].
      destruct (Hcommit (sy_open y) w evs outs Hd (or_introl eq_refl) Hm Hne) as (Hadv & Hone & _ & _).
      apply (commit_sys y at_ w evs (sy_open y) (sy_phase y) false); try done; [|by apply Hy].
      intros id _. apply (di_short _ _ _ (si_disk _ Hy)).
    + destruct (Hcommit _ w evs outs Hd (or_intror eq_refl) Hm Hne) as (Hadv & Hone & Hnil & r & Hr & Hst & Htok).
      assert (Hkept : keptRecords at_ w !! recID current = Some r).
      { apply map_lookup_filter_Some. split; [done|]. cbn. unfold outlived, final. by rewrite Hst. }
      unfold mayPlace, get. cbn [fst qs_records]. rewrite Hkept, Hst, Htok, !eqb_s_refl. cbn [andb].
      apply (commit_sys y at_ w evs _ (Placing current (op_PreviewTokenID preview)) true); try done.
      * intros id Hn. rewrite opensOf_snoc, (proj2 (String.eqb_neq _ id)), List.app_nil_r by congruence. apply (di_short _ _ _ (si_disk _ Hy)).
      * intros r' Hr' _. congruence.
Qed.

Lemma outcome_inv env finish current token outcome res err placeErr y : sy_phase y = Placing current token -> sysInv y ->
  let sd := (update env finish (onRecord (recID current) (outcomeTurn finish outcome res err placeErr)) (state_of y)).1 in
  sysInv (mkSys sd.1 sd.2 Idle
    (if provesUnsent outcome.1 then List.filter (fun p => negb ((p.1 =s recID current) && (p.2 =s token))) (sy_open y) else sy_open y)).
Proof.
  intros Hp Hy sd. set (turn := outcomeTurn finish outcome res err placeErr).
  set (opens := if provesUnsent outcome.1 then _ else _). assert (Hk := si_keyed _ Hy).
  assert (Hph := si_phase _ Hy). rewrite Hp in Hph. cbn in Hph.
  assert (Hn : narrows (sy_open y) opens) by (unfold opens; case_if; [by eexists | apply narrows_refl]).
  assert (Hof : forall id, opensOf id opens = if id =s recID current then judged outcome.1 token (opensOf id (sy_open y)) else opensOf id (sy_open y)).
  { intros id. unfold opens, judged. destruct (provesUnsent outcome.1); [|by case_if]. rewrite opensOf_filter. cbn [fst snd].
    destruct (id =s recID current); [done|]. apply List.forallb_filter_id, forallb_forall. done. }
  apply update_inv; [done | done | done|]. intros w evs a Hd Hm _.
  destruct (range_commit turn (qd_log (sy_disk y)) (sy_open y) opens _ [recID current] w evs a Hk (NoDup_singleton _)) as [H1 H2]; [| | |exact Hm|done].
  - intros r. apply outcomeTurn_lawful.
  - apply oneIntent_clean. rewrite Hd. apply Hy.
  - intros id r Hr Ha. rewrite Hof. case_bool_decide as Hin.
    + apply list_elem_of_singleton in Hin as ->. rewrite eqb_s_refl.
      destruct (qa_State r =s QueuedAuthSending) eqn:Hs.
      * apply String.eqb_eq in Hs. rewrite <- (Hph r Hr Hs). by apply outcomeTurn_attempt.
      * unfold turn, outcomeTurn. rewrite Hs. cbn [negb]. unfold judged. case_if; [|done]. by apply attemptOK_filter.
    + by rewrite (proj2 (String.eqb_neq _ _)) by set_solver.
Qed.

Lemma applyDecision_inv env now id d y : sysInv y ->
  sysInv (put y (applyDecision env now id d (state_of y))) /\ (sysInv (mkSys (applyDecision env now id d (state_of y)).1 (applyDecision env now id d (state_of y)).2 Idle (sy_open y))).
Proof.
  intros Hy. assert (Hidle : sysInv (mkSys (sy_store y) (sy_disk y) Idle (sy_open y))) by (destruct Hy; by split).
  assert (Hsame : sysInv (put y (state_of y))) by (unfold state_of; by rewrite put_id).
  assert (Hhold : forall code reason r, quiet r (holdTurn code reason now r).1.1).
  { intros code reason r. unfold holdTurn. case_if; [apply quiet_refl|]. bool_hyps. destruct (IsZero (qa_HeldAt r)); by split. }
  assert (Hcancel : forall code reason r, quiet r (cancelQueuedTurn code reason now r).1.1).
  { intros code reason r. unfold cancelQueuedTurn. case_if; [apply quiet_refl | by split]. }
  destruct d as [|code reason|code reason|prop]; cbn [applyDecision]; try done.
  - split; [apply (turns_inv (holdTurn code (boundedQueuedReason reason) now) env now _ [id] y)
           |apply (turns_inv (holdTurn code (boundedQueuedReason reason) now) env now _ [id] (mkSys (sy_store y) (sy_disk y) Idle (sy_open y)))];
      try done; try (intros r; apply holdTurn_lawful); try (intros r; apply holdTurn_attempt); try apply NoDup_singleton; right; auto.
  - split; [apply (turns_inv (cancelQueuedTurn code reason now) env now _ [id] y)
           |apply (turns_inv (cancelQueuedTurn code reason now) env now _ [id] (mkSys (sy_store y) (sy_disk y) Idle (sy_open y)))];
      try done; try (intros r; apply cancelQueuedTurn_lawful); try (intros r; apply cancelQueuedTurn_attempt); try apply NoDup_singleton; right; auto.
Qed.

Lemma sends_only_unattempted w rec prop : executeQueued termsDigest rowTermsDigest formatG w rec = SendIt prop ->
  qa_OrderRef rec = "" \/ ownerQueueProtection (qa_Terms rec) = false.
Proof.
  unfold executeQueued. destruct ((qt_Version (qa_Terms rec) =? 2) && (qa_OrderRef rec <>s "")) eqn:E; [discriminate|]. intros _.
  apply andb_false_iff in E as [E|E]; [right | left; by bool_hyps]. unfold ownerQueueProtection. by rewrite E.
Qed.

Lemma decide_inv env now w rec y : sy_phase y = Idle -> rec ∈ list_ (sy_store y) -> due now rec = true -> sysInv y ->
  sysInv match executeQueued termsDigest rowTermsDigest formatG w rec with
         | SendIt _ => match get (sy_store y) (recID rec) with
                       | Some current => if waiting current then mkSys (sy_store y) (sy_disk y) (Deciding current) (sy_open y) else y
                       | None => y
                       end
         | d => put y (applyDecision env now (recID rec) d (state_of y))
         end.
Proof.
  intros Hp Hin Hdue Hy. pose proof (applyDecision_inv env now (recID rec)) as Hd.
  destruct (executeQueued termsDigest rowTermsDigest formatG w rec) as [| | |prop] eqn:He; try (by apply Hd).
  assert (Hg := list_in _ _ (si_keyed _ Hy) Hin). unfold get. rewrite Hg. case_if; [|done].
  destruct Hy as [H0 H1 H2 H3 H4 H5]. split; try done. cbn. intros r Hr. assert (r = rec) by congruence. subst r.
  split; [|intros _; by eapply sends_only_unattempted]. intros Hx. unfold waiting in Hc. by rewrite Hx in Hc.
Qed.

(** ** Restart *)

Lemma fold_insert_map (l : list queuedAuthRecord) :
  fold_left (fun (m : queueRecords) r => <[qt_QueueID (qa_Terms r) := r]> m) l ∅ = (list_to_map (map (fun r => (recID r, r)) (rev l)) : queueRecords).
Proof.
  induction l as [|r l IH] using rev_ind; [done|]. rewrite fold_left_app, rev_app_distr. cbn [fold_left rev app map list_to_map foldr]. by rewrite IH.
Qed.

(** A restart reads back what was committed. *)
Lemma bindCore_reads disk s : docInv disk -> bindCore termsDigest disk = Ok s ->
  keyed (qs_records s) /\ qs_revision s = diskRevision disk /\ clean <$> qs_records s = diskRecords disk.
Proof.
  unfold docInv, bindCore, diskRevision, diskRecords. destruct (qd_doc disk) as [[revision raws]|].
  2: { intros _ [= <-]. cbn. split_and!; [by intros id r | done | apply fmap_empty]. }
  intros [Hnd Hclean]. case_if; [|discriminate]. intros [= <-]. cbn [qs_records qs_revision]. rewrite fold_insert_map.
  set (dec := decodeQueuedRecord termsDigest).
  assert (Hdec : forall raw, recID (dec raw) = recID (sr_rec raw) /\ clean (dec raw) = clean (sr_rec raw)).
  { intros raw. unfold dec, decodeQueuedRecord. by destruct (sr_known raw). }
  assert (Hkeys : map recID (map dec raws) = map (fun raw => recID (sr_rec raw)) raws).
  { rewrite List.map_map. apply map_ext. intros raw. apply Hdec. }
  assert (Hp : Permutation (map (fun r => (recID r, r)) (rev (map dec raws))) (map (fun r => (recID r, r)) (map dec raws)))
    by (by rewrite <- Permutation_rev).
  assert (Hfst : forall l : list queuedAuthRecord, (map (fun r => (recID r, r)) l).*1 = map recID l).
  { intros l. change fmap with (@map (string * queuedAuthRecord) string). by rewrite List.map_map. }
  assert (Hnd' : NoDup (map (fun r => (recID r, r)) (rev (map dec raws))).*1) by (rewrite Hfst, map_rev, <- Permutation_rev, Hkeys; done).
  rewrite (list_to_map_proper (M := gmap string) _ _ Hnd' Hp).
  split_and!; [|done|].
  - intros id r Hin%elem_of_list_to_map_2. apply list_elem_of_In, in_map_iff in Hin as (x & [= <- <-] & _). done.
  - rewrite <- list_to_map_fmap. f_equal. change fmap with (@map (string * queuedAuthRecord) (string * queuedAuthRecord)). rewrite !List.map_map.
    apply map_ext_in. intros raw Hin. cbn. destruct (Hdec raw) as [-> ->]. f_equal.
    rewrite Forall_forall in Hclean. apply Hclean. by apply list_elem_of_In.
Qed.

Lemma restart_inv s y : bindCore termsDigest (sy_disk y) = Ok s -> sysInv y -> sysInv (mkSys s (sy_disk y) Idle (sy_open y)).
Proof.
  intros Hb [Hdoc Hd Hk Hr Hsame Hph]. destruct (bindCore_reads _ _ Hdoc Hb) as (H1 & H2 & H3). split; cbn; try done. lia.
Qed.

Lemma step_inv y y' : step y y' -> sysInv y -> sysInv y'.
Proof.
  intros Hs Hy. destruct Hs.
  - by apply prepare_inv.
  - by apply prepareOwner_inv.
  - by apply QueueArm_inv.
  - by apply QueueCancel_inv.
  - apply (turns_inv (unreadableTurn termsDigest now) env now _ (ue_order env)); auto;
      [intros r; apply unreadableTurn_lawful | intros r; apply unreadableTurn_attempt | by eapply order_NoDup].
  - by apply recover_inv.
  - apply (turns_inv (endMandateTurn now) env now _ ids); auto; [intros r; apply endMandateTurn_lawful | intros r; apply endMandateTurn_attempt|].
    rewrite H0. exact (ids_NoDup _ _ (si_keyed _ Hy)).
  - apply (turns_inv (expireTurn now) env now _ (ue_order env)); auto;
      [intros r; apply expireTurn_lawful | intros r; apply expireTurn_attempt | by eapply order_NoDup].
  - apply (turns_inv (followTurn now views) env now _ (sentIDs (sy_store y))); auto;
      [intros r; apply followTurn_lawful | intros r; apply followTurn_attempt | exact (ids_NoDup _ _ (si_keyed _ Hy))].
  - by apply decide_inv.
  - apply applyDecision_inv. done.
  - by apply queuedPlace_inv.
  - by apply outcome_inv.
  - by apply restart_inv.
Qed.

Lemma initial_inv : sysInv initial.
Proof.
  assert (Hn : forall id r, (∅ : queueRecords) !! id = Some r -> False) by (intros id r H; by rewrite lookup_empty in H).
  split; [exact I | split | intros id r Hx; exfalso; by eapply Hn | cbn; lia | intros _; apply fmap_empty | exact I].
  - intros id r Hx. exfalso. by eapply Hn.
  - intros id r Hx. exfalso. by eapply Hn.
  - intros id r Hx. exfalso. by eapply Hn.
  - intros i j a b Ha. exfalso. by eapply Hn.
  - intros id. cbn. lia.
Qed.

Lemma reachable_inv y : reachable y -> sysInv y.
Proof.
  unfold reachable. generalize initial, initial_inv. intros x Hx H. induction H as [|a b c Hab _ IH]; [done|]. apply IH. by eapply step_inv.
Qed.
End System.
