(* ===== verification/QueueSafety.v ===== *)
(** * What the queue of signed orders guarantees

    The theorems about the queue (QueueSystem) and about its requests: an
    authorisation is sent at most once, only after the owner armed it, inside the
    signed terms; one intent per contract side; the journal tells every state; a commit
    the store could not observe stops it until a restart. *)

From stdpp Require Import base decidable list strings gmap sorting.
From Stdlib Require Import ZArith Lia Ascii String SpecFloat.
From S2P Require Import Prelude Floats OrderTypes OrderStatus OrderFold BrokerScope OrderJournal WriteGate PreviewToken SendDisposition.
From S2P Require Import PositionEvidence OrderRisk QueueRecord QueueStore QueueExec QueueFacts QueueSystem.

(** ** Paths through the life cycle *)

Lemma follows_snoc id p evs q : follows id p evs q ->
  evs = [] /\ q = p \/ exists pre ev r, evs = pre ++ [ev] /\ follows id p pre r /\ qe_QueueID ev = id /\ qe_StateFrom ev = r.1 /\
    qe_Seq ev = r.2 + 1 /\ legal ev = true /\ q = (qe_StateTo ev, qe_Seq ev).
Proof.
  induction 1 as [|p ev evs q Hi Hf Hs Hl Hrest IH]; [by left|]. right. destruct IH as [[-> ->]|(pre & e & r & -> & H1 & H2)].
  - exists [], ev, p. split; [done|]. split; [constructor|]. done.
  - exists (ev :: pre), e, r. split; [done|]. split; [by constructor | done].
Qed.

(** The states only the owner's arm leads to. *)
Definition afterArm (state : string) : bool :=
  one_of state [QueuedAuthArmed; QueuedAuthHeld; QueuedAuthSending; QueuedAuthSent].

Lemma edge_into_afterArm from to :
  afterArm to = true -> (from =s to) || one_of to (nextStates from) || (negb (one_of from queuedKnownStates) && (to =s QueuedAuthFailed)) = true ->
  afterArm from = true \/ (from = QueuedAuthPrepared /\ to = QueuedAuthArmed).
Proof.
  intros Ha He. apply orb_true_iff in He as [He|He]; [apply orb_true_iff in He as [He|He]|].
  - apply String.eqb_eq in He as <-. by left.
  - unfold nextStates in He.
    destruct (from =s "") eqn:E0; [apply one_of_true in He as [<-|[]]; discriminate|].
    destruct (from =s QueuedAuthPrepared) eqn:E1;
      [apply String.eqb_eq in E1; apply one_of_true in He as [<-|[<-|[<-|[]]]]; [by right | discriminate | discriminate]|].
    destruct (from =s QueuedAuthArmed) eqn:E2; [apply String.eqb_eq in E2 as ->; by left|].
    destruct (from =s QueuedAuthHeld) eqn:E3; [apply String.eqb_eq in E3 as ->; by left|].
    destruct (from =s QueuedAuthSending) eqn:E4; [apply String.eqb_eq in E4 as ->; by left|].
    destruct (from =s QueuedAuthSent) eqn:E5; [apply String.eqb_eq in E5 as ->; by left | discriminate].
  - apply andb_true_iff in He as [_ He]. apply String.eqb_eq in He as ->. discriminate.
Qed.

(** A path to a state past the arm passes the arm. *)
Lemma path_passes_arm id evs q : follows id ("", 0) evs q -> afterArm q.1 = true ->
  exists ev, In ev evs /\ qe_Type ev = queuedEventArmed /\ qe_StateFrom ev = QueuedAuthPrepared.
Proof.
  intros H. remember ("", 0) as p0 eqn:Hp. revert q H. induction evs as [|ev evs IH] using rev_ind; intros q H Ha.
  { inversion H; subst. discriminate. }
  apply follows_snoc in H as [[Hn _]|(pre & e & r & Heq & Hpre & Hid & Hfrom & _ & Hlegal & ->)]; [by destruct evs|].
  apply app_inj_tail in Heq as [<- <-]. unfold legal in Hlegal. apply andb_true_iff in Hlegal as [Hedge Harm]. cbn in Ha.
  destruct (edge_into_afterArm _ _ Ha Hedge) as [Hx|[Hx Hy]].
  - rewrite Hfrom in Hx. destruct (IH r Hpre Hx) as (a & Hin & Hty). exists a. split; [apply in_or_app; by left | done].
  - exists ev. split; [apply in_or_app; right; by left|]. rewrite Hx, Hy in Harm. cbn in Harm. by apply String.eqb_eq in Harm.
Qed.

Lemma follows_split id p pre evs q : follows id p (pre ++ evs) q -> exists r, follows id p pre r /\ follows id r evs q.
Proof.
  revert p. induction pre as [|e pre IH]; intros p H; [exists p; split; [constructor | done]|].
  inversion H as [|? ? ? ? ? ? ? ? Hrest]; subst. destruct (IH _ Hrest) as (r & Ha & Hb). exists r. split; [by constructor | done].
Qed.

Lemma final_no_next state : finalState state = true -> nextStates state = [] /\ one_of state queuedKnownStates = true.
Proof. intros H. apply one_of_true in H as [<-|[<-|[<-|[<-|[<-|[<-|[]]]]]]]; done. Qed.

(** A final state is never left. *)
Lemma final_path id p evs q : follows id p evs q -> finalState p.1 = true -> q.1 = p.1 /\ Forall (fun ev => qe_StateTo ev = p.1) evs.
Proof.
  induction 1 as [|p ev evs q Hi Hf Hs Hl Hrest IH]; intros Hfin; [by split|].
  assert (Hto : qe_StateTo ev = p.1).
  { destruct (final_no_next _ Hfin) as [Hn Hk]. unfold legal in Hl. rewrite Hf, Hn, Hk in Hl. apply andb_true_iff in Hl as [Hl _].
    cbn in Hl. rewrite !orb_false_r in Hl. by apply String.eqb_eq in Hl. }
  cbn in IH. rewrite Hto in IH. destruct (IH Hfin) as [H1 H2]. split; [done | by constructor].
Qed.

(** ** The guarantees *)

Section Guarantees.
Context (termsDigest : QueuedAuthTerms -> option string) (sha256 : string -> string)
        (rowTermsDigest : TradeProposal -> string) (formatG : float64 -> string).
#[local] Abbreviation reached := (reachable termsDigest sha256 rowTermsDigest formatG).

(** C5. An authorisation is sent at most once.  Whatever the owner's requests, the
    executor's passes, the broker's answers, failed commits and restarts do in any
    interleaving, of the sends started for one queued authorisation at most one was not
    judged unsent since, by the refusal itself or by the order journal: an attempt
    whose outcome is unknown is never followed by another. *)
Theorem queued_order_is_sent_at_most_once (y : sys) (id : string) :
  reached y -> (List.length (opensOf id (sy_open y)) <= 1)%nat.
Proof. intros H. apply (di_short _ _ _ (si_disk _ (reachable_inv _ _ _ _ y H))). Qed.

(** C17. One intent per contract side.  In every reachable state of the daemon, two
    stored records that are armed, held, being sent or working at the broker for the
    same contract side in the same account and mode are one record. *)
Theorem one_intent_per_contract_side (y : sys) (i j : string) (a b : queuedAuthRecord) :
  reached y -> diskRecords (sy_disk y) !! i = Some a -> diskRecords (sy_disk y) !! j = Some b ->
  occupying a = true -> occupying b = true -> qa_ContractSide a = qa_ContractSide b -> sameBrokerScope (scope a) (scope b) = true -> i = j.
Proof. intros H. apply (di_one _ _ _ (si_disk _ (reachable_inv _ _ _ _ y H))). Qed.

(** C18. The journal tells the state.  The events daemon.db holds for a stored record
    number 1, 2, ... up to its sequence number, each starts in the state the one before
    it ended in, every move is one of the life cycle, and the last one ends in the
    record's state; so a record that reached a final state stays in it. *)
Theorem journal_tells_the_state (y : sys) (id : string) (r : queuedAuthRecord) :
  reached y -> diskRecords (sy_disk y) !! id = Some r ->
  follows id ("", 0) (eventsOf id (qd_log (sy_disk y))) (qa_State r, qa_Seq r) /\
  forall pre ev post, eventsOf id (qd_log (sy_disk y)) = pre ++ ev :: post -> finalState (qe_StateTo ev) = true -> qa_State r = qe_StateTo ev.
Proof.
  intros H Hr. pose proof (di_journal _ _ _ (si_disk _ (reachable_inv _ _ _ _ y H)) id r Hr) as Hf. split; [exact Hf|].
  intros pre ev post Heq Hfin. rewrite Heq in Hf. apply follows_split in Hf as (p & _ & Hrest). inversion Hrest as [|? ? ? ? ? ? ? ? Hpost]; subst.
  destruct (final_path _ _ _ _ Hpost Hfin) as [Hq _]. exact Hq.
Qed.

(** Nothing is sent that the owner did not arm.  A journaled move of a record to
    sending comes after the event of its arm, which is the only way out of prepared
    that keeps an intent. *)
Theorem sent_only_after_the_owner_armed (y : sys) (id : string) (r : queuedAuthRecord) (pre : list queuedAuthEvent)
    (ev : queuedAuthEvent) (post : list queuedAuthEvent) :
  reached y -> diskRecords (sy_disk y) !! id = Some r ->
  eventsOf id (qd_log (sy_disk y)) = pre ++ ev :: post -> qe_StateTo ev = QueuedAuthSending ->
  exists arm, In arm pre /\ qe_Type arm = queuedEventArmed /\ qe_StateFrom arm = QueuedAuthPrepared.
Proof.
  intros H Hr Heq Hto. pose proof (di_journal _ _ _ (si_disk _ (reachable_inv _ _ _ _ y H)) id r Hr) as Hf. rewrite Heq in Hf.
  change (pre ++ ev :: post) with (pre ++ [ev] ++ post) in Hf. rewrite List.app_assoc in Hf.
  apply follows_split in Hf as (q & Hf & _). apply follows_snoc in Hf as [[Hn _]|(p' & e & s & Hsplit & Hpre & _ & Hfrom & _ & Hl & ->)]; [by destruct pre|].
  apply app_inj_tail in Hsplit as [<- <-]. apply (path_passes_arm id pre s Hpre).
  unfold legal in Hl. rewrite Hto in Hl. apply andb_true_iff in Hl as [Hl _].
  destruct (edge_into_afterArm (qe_StateFrom ev) QueuedAuthSending eq_refl Hl) as [Hx|[_ Hx]]; [by rewrite <- Hfrom | discriminate].
Qed.
End Guarantees.

(** ** What lets one send begin *)

Section Requests.
Context (termsDigest : QueuedAuthTerms -> option string) (sha256 : string -> string).

(** A record without a problem carries the digest of its own terms. *)
Lemma no_problem_digest r : queuedRecordProblem termsDigest r = "" -> termsDigest (qa_Terms r) = Some (qa_TermsDigest r).
Proof.
  unfold queuedRecordProblem. set (own := if qt_Version (qa_Terms r) =? 2 then _ else _).
  destruct (qa_problem r <>s "") eqn:E; [intros H; by rewrite H in E|]. do 3 (case_if; [discriminate|]).
  destruct (own <>s "") eqn:E'; [intros H; by rewrite H in E'|]. destruct (termsDigest (qa_Terms r)) as [digest|]; [|discriminate].
  case_if; [|discriminate]. bool_hyps. congruence.
Qed.

(** The draft agrees with the terms. *)
Definition insideTerms (t : QueuedAuthTerms) (preview : OrderPreviewResult) : Prop :=
  let d := op_Draft preview in
  cp_ConID (dr_Contract d) = cp_ConID (qt_Contract t) /\ EqualFold (dr_Action d) (qt_Action t) = true /\ 0 < dr_Quantity d /\
  if ownerQueueProtection t
  then (f_of_Z (dr_Quantity d) <>f op_PositionBefore preview) = false /\
       trailSpecsEquivalent (dr_Trail d) (match qt_OwnerOrder t with Some o => oo_Trail o | None => None end) = true
  else dr_Quantity d <= qt_MaxQuantity t /\ positiveFinite (dr_LimitPrice d) = true /\ positiveFinite (qt_WorstPrice t) = true /\
       (if qt_Action t =s OrderActionBuy then dr_LimitPrice d <=f fadd (qt_WorstPrice t) tolerance
        else qt_WorstPrice t <=f fadd (dr_LimitPrice d) tolerance) = true.

Lemma sendMismatch_none t preview : sendMismatch t preview = "" -> insideTerms t preview.
Proof.
  unfold sendMismatch, insideTerms. set (d := op_Draft preview). set (trail := match qt_OwnerOrder t with Some o => _ | None => _ end).
  case_if; [discriminate|]. case_if; [discriminate|]. case_if; [discriminate|]. case_if; [discriminate|]. case_if; [discriminate|]. intros _.
  apply orb_false_iff in Hc as [H1 H2], Hc0 as [H3 H4].
  apply negb_false_iff in H1, H2. apply Z.eqb_eq in H1. apply Z.leb_gt in H3. split; [done|]. split; [done|]. split; [lia|].
  destruct (ownerQueueProtection t); cbn [andb negb] in *.
  - apply orb_false_iff in Hc1 as [H5 H6]. by apply negb_false_iff in H6.
  - apply Z.ltb_ge in H4. apply negb_false_iff in Hc3. unfold queuedLimitInside in Hc3.
    destruct (positiveFinite (dr_LimitPrice d)), (positiveFinite (qt_WorstPrice t)); try discriminate. cbn [negb orb] in Hc3. auto.
Qed.

(** Whether [at_] is inside the signed window; a full-position mandate has no end. *)
Definition insideWindow (t : QueuedAuthTerms) (at_ : time) : Prop :=
  qt_NotBefore t <= at_ /\ (ownerQueueProtection t = false -> at_ < qt_NotAfter t).

(** The intent a turn stages. *)
Definition stagedAs (preview : OrderPreviewResult) (r' : queuedAuthRecord) : Prop :=
  qa_State r' = QueuedAuthSending /\ qa_PreviewTokenID r' = op_PreviewTokenID preview /\ qa_OrderRef r' = dr_OrderRef (op_Draft preview) /\
  qa_QuantitySent r' = dr_Quantity (op_Draft preview) /\ qa_LimitPrice r' = dr_LimitPrice (op_Draft preview).

Lemma stageTurn_staged startedAt at_ preview r : waiting r = true ->
  let p := stageTurn termsDigest startedAt at_ preview r in
  p.1 = (r, []) \/
  (queuedRecordProblem termsDigest r = "" /\ insideWindow (qa_Terms r) at_ /\ stagedAs preview p.1.1 /\ qa_Terms p.1.1 = qa_Terms r /\
   exists ev, last p.1.2 = Some ev /\ qe_StateTo ev = QueuedAuthSending).
Proof.
  intros Hw. unfold stageTurn. rewrite Hw. cbn [negb]. destruct (queuedRecordProblem termsDigest r <>s "") eqn:Hp; [by left|].
  destruct (Before at_ _ || _) eqn:Ho; [by left|]. right. bool_hyps.
  split; [done|]. split.
  { split; [unfold Before in *; lia|]. intros Hq. rewrite Hq in *. cbn [negb andb] in *. bool_hyps. unfold Before in *. lia. }
  unfold resume. destruct (qa_State r =s QueuedAuthHeld); (split; [by repeat split|]); (split; [done|]); eexists; done.
Qed.

(** C6. A placement goes on only inside what the owner signed.  When the executor lets
    the broker call for a waiting record begin, the record's terms still have the digest
    stored with them, the time is inside the signed window, the draft is on the
    signed contract and side and within the signed quantity and worst price (a
    full-position stop: the whole position and the signed trail), and the intent with
    the attempt's token is in the store and in daemon.db already, its event journaled. *)
Theorem send_begins_inside_the_signed_terms env startedAt at_ id r preview s disk s' disk' why :
  qs_records s !! id = Some r -> waiting r = true ->
  beforePlace termsDigest env startedAt at_ id (qa_Terms r) preview (s, disk) = ((s', disk'), Ok why) ->
  termsDigest (qa_Terms r) = Some (qa_TermsDigest r) /\ insideWindow (qa_Terms r) at_ /\ insideTerms (qa_Terms r) preview /\
  exists r' revision raws ev, qs_records s' !! id = Some r' /\ stagedAs preview r' /\ qa_Terms r' = qa_Terms r /\
    qd_doc disk' = Some (revision, raws) /\ In (persisted r') raws /\ last (qd_log disk') = Some ev /\ qe_StateTo ev = QueuedAuthSending.
Proof.
  intros Hr Hw. unfold beforePlace. destruct (sendMismatch (qa_Terms r) preview <>s "") eqn:Hm; [discriminate|].
  assert (Hin : insideTerms (qa_Terms r) preview) by (apply sendMismatch_none; by bool_hyps).
  set (mutate := fun m (_ : list string) => rangeRecords (stageTurn termsDigest startedAt at_ preview) [id] m).
  pose proof (update_updated env at_ mutate s disk) as Hu. destruct (update env at_ mutate (s, disk)) as [[s1 d1] res]. cbn [fst snd] in Hu.
  destruct res as [outs|e]; [|discriminate]. destruct (mayPlace _ _ _) eqn:Hp; [|discriminate]. intros [= -> -> ->]. cbn [fst] in Hp.
  destruct (stageTurn_staged startedAt at_ preview r Hw) as [Hx|(Hpr & Hwin & Hst & Ht & ev & Hlast & Hto)];
    inversion Hu as [res' Hres E1 E2 E3|w evs a s2 res' Hmu Hne Hrev Hatt [(_ & He)|(E & _)] E1 E2 E3]; subst; try discriminate.
  1,3: unfold mayPlace, get in Hp; rewrite Hr in Hp; destruct (waiting_cases r Hw) as [E|E]; rewrite E in Hp; discriminate.
  - unfold mutate in Hmu. cbn [rangeRecords] in Hmu. rewrite Hr in Hmu. destruct (stageTurn _ _ _ _ r) as [[r' evs1] outs1]. cbn in Hx.
    injection Hx as -> ->. injection Hmu as _ <- _. done.
  - unfold mutate in Hmu. cbn [rangeRecords] in Hmu. rewrite Hr in Hmu. destruct (stageTurn _ _ _ _ r) as [[r' evs1] outs1]. cbn in Hst, Ht, Hlast.
    injection Hmu as <- <- _. rewrite List.app_nil_r in *. split; [by apply no_problem_digest|]. split; [done|]. split; [done|].
    assert (Hk : keptRecords at_ (<[id:=r']> (qs_records s)) !! id = Some r').
    { apply map_lookup_filter_Some. split; [apply lookup_insert_eq|]. cbn. unfold outlived, final. by rewrite (proj1 Hst). }
    exists r', (qs_revision s + 1), (map persisted (records_list (keptRecords at_ (<[id:=r']> (qs_records s))))), (stampEvent at_ ev).
    cbn [qs_records committed qd_doc qd_log]. split; [done|]. split; [done|]. split; [done|]. split; [done|]. split_and!.
    + apply in_map. unfold records_list. apply list_elem_of_In. rewrite stable_sort_perm. apply list_elem_of_fmap. exists (id, r').
      split; [done|]. by apply elem_of_map_to_list.
    + rewrite last_app. change (map (stampEvent at_) evs1) with (stampEvent at_ <$> evs1). by rewrite fmap_last, Hlast.
    + unfold stampEvent. by case_if.
Qed.

(** A store behind daemon.db commits nothing. *)
Lemma stale_update {A} env now (mutate : queueRecords -> list string -> queueRecords * list queuedAuthEvent * A) s disk :
  qs_revision s <> diskRevision disk -> (update env now mutate (s, disk)).1 = (s, disk).
Proof.
  intros Hn. pose proof (update_updated env now mutate s disk) as Hu. destruct (update env now mutate (s, disk)) as [[s1 d1] res].
  cbn [fst snd] in *. inversion Hu; subst; done.
Qed.

Lemma stale_arm env g now p s disk : qs_revision s <> diskRevision disk -> (QueueArm termsDigest sha256 env g now p (s, disk)).1 = (s, disk).
Proof.
  intros Hn. unfold QueueArm. case_if; [done|]. case_if; [done|]. destruct (loadQueuedByReference sha256 s (ap_QueuedRef p)) as [rec|]; [|done].
  do 3 (case_if; [done|]). case_if; [by rewrite (stale_update env now _ s disk Hn)|]. do 2 (case_if; [done|]).
  destruct (ag_automatic g) as [|b l]; [|done].
  pose proof (stale_update env now (armMutate (qt_QueueID (qa_Terms rec)) p (ag_marks g) (ag_bookOK g) now) s disk Hn) as Hs.
  destruct (update _ _ _ _) as [sd res]. cbn in Hs. subst sd. destruct res as [[[|b l] [armed|]]|e]; done.
Qed.

Lemma stale_cancel env now p s disk : qs_revision s <> diskRevision disk -> (QueueCancel env now p (s, disk)).1 = (s, disk).
Proof.
  intros Hn. unfold QueueCancel. case_if; [done|]. case_if; [done|].
  match goal with |- context [update ?e ?n ?m ?sd] => pose proof (stale_update e n m s disk Hn) as Hs; destruct (update e n m sd) as [sd' res] end.
  cbn in Hs. subst sd'. destruct res as [outs|e]; [|done]. case_if; [done|]. by destruct (singleOf outs).
Qed.

Lemma stale_place env startedAt at_ id terms preview s disk : qs_revision s <> diskRevision disk ->
  (beforePlace termsDigest env startedAt at_ id terms preview (s, disk)).1 = (s, disk).
Proof.
  intros Hn. unfold beforePlace. case_if; [done|].
  match goal with |- context [update ?e ?n ?m ?sd] => pose proof (stale_update e n m s disk Hn) as Hs; destruct (update e n m sd) as [sd' res] end.
  cbn in Hs. subst sd'. destruct res as [outs|e]; [|done]. by case_if.
Qed.
End Requests.

(** ** A commit the store did not see *)

Section Stale.
Context (termsDigest : QueuedAuthTerms -> option string) (sha256 : string -> string)
        (rowTermsDigest : TradeProposal -> string) (formatG : float64 -> string).
#[local] Abbreviation steps := (step termsDigest sha256 rowTermsDigest formatG).

Definition stale (y : sys) : Prop := qs_revision (sy_store y) <> diskRevision (sy_disk y).

Lemma stale_decision env now id d y : stale y -> applyDecision env now id d (state_of y) = state_of y.
Proof. intros Hn. destruct d; cbn [applyDecision]; try done; by apply stale_update. Qed.

(** One step of a stale daemon: a restart, or nothing is stored. *)
Lemma stale_step y y' : steps y y' -> stale y -> bindCore termsDigest (sy_disk y) = Ok (sy_store y') /\ sy_disk y' = sy_disk y \/ state_of y' = state_of y.
Proof.
  intros Hs Hn. destruct Hs; try (left; by split); right; unfold put, state_of in *; cbn [sy_store sy_disk].
  1,2,5-9: try (subst sd; cbv zeta); rewrite stale_update by done; done.
  - by rewrite stale_arm.
  - by rewrite stale_cancel.
  - destruct (executeQueued _ _ _ _ _); cbn [applyDecision sy_store sy_disk]; rewrite ?stale_update by done; try done.
    destruct (get _ _); [|done]. by case_if.
  - pose proof (stale_decision env now (recID current) d y Hn) as E. unfold state_of in E. subst sd. by rewrite E.
  - pose proof (stale_place termsDigest env startedAt at_ (recID current) (qa_Terms current) preview (sy_store y) (sy_disk y) Hn) as E.
    destruct (beforePlace _ _ _ _ _ _ _ _) as [sd [why|e]]; cbn in E; by subst sd.
  - subst sd. by rewrite stale_update.
Qed.

Lemma state_of_pair y z : state_of y = state_of z -> sy_store y = sy_store z /\ sy_disk y = sy_disk z.
Proof. unfold state_of. by intros [= -> ->]. Qed.

(** C19. A commit the store could not observe stops the queue until the daemon
    restarts.  Once daemon.db is at a later revision than the store, no arm, cancel,
    hold, expiry, send or outcome changes the store or the database: the first step of
    a run that changes either is a restart, which reads the database. *)
Theorem unseen_commit_stops_the_queue_until_restart y y' :
  stale y -> rtc steps y y' ->
  state_of y' = state_of y \/
  exists z w, rtc steps y z /\ steps z w /\ rtc steps w y' /\ state_of z = state_of y /\
    sy_disk w = sy_disk y /\ bindCore termsDigest (sy_disk y) = Ok (sy_store w).
Proof.
  intros Hn H. induction H as [y|y x y' Hyx Hrest IH] in Hn |- *; [by left|].
  destruct (stale_step y x Hyx Hn) as [[Hb Hd]|Hsame].
  - right. exists y, x. by split_and!.
  - destruct (state_of_pair _ _ Hsame) as [Es Ed]. assert (Hnx : stale x) by (unfold stale; by rewrite Es, Ed).
    destruct (IH Hnx) as [Hy|(z & w & H1 & H2 & H3 & H4 & H5 & H6)]; [left; congruence|].
    right. exists z, w. rewrite Ed in H5, H6. rewrite Hsame in H4. split_and!; try done. by econstructor.
Qed.
End Stale.

(** ** An arm *)

Section Arm.
Context (termsDigest : QueuedAuthTerms -> option string) (sha256 : string -> string).


End Arm.
