(* ===== verification/QueueRun.v ===== *)
(** * A run of the queue

    A concrete run through the system of QueueSystem: a sell of 10 shares is prepared,
    armed by its signature, due, and placed; and one whose preparation commits without
    the store seeing it.  The theorems of QueueSafety are applied to its states. *)

From stdpp Require Import base decidable list strings gmap sorting.
From Stdlib Require Import ZArith Lia Ascii String SpecFloat.
From S2P Require Import Prelude Floats OrderTypes OrderStatus OrderFold BrokerScope OrderJournal WriteGate PreviewToken SendDisposition.
From S2P Require Import PositionEvidence OrderRisk QueueRecord QueueStore QueueExec QueueFacts QueueSystem QueueSafety.

Module Run.

(** Stand-ins for the digests and for "%g". *)
Definition termsDigest (t : QueuedAuthTerms) : option string := Some (ToLower (qt_Key t)).
Definition sha256 (s : string) : string := s.
Definition rowTermsDigest (p : TradeProposal) : string := pr_Key p.
Definition formatG (_ : float64) : string := "".

Definition t0 : time := 1000 * Second.
Definition ref : string * string := mintQueuedReference "0123456789abcdef" "fedcba9876543210".
Definition id : string := fst ref.
Definition contract : ContractParams := mkContractParams 265598 "AAPL" "STK" "us" "SMART" "" "USD" "" "" "" f0 "" 0 f0.
Definition scope0 : brokerStateScope := mkScope "DU1234567" "paper".

(** 10 shares at 95 or better, from one minute after [t0] for an hour. *)
Definition terms : QueuedAuthTerms :=
  zero_Terms <| qt_Version := 1 |> <| qt_QueueID := id |> <| qt_AccountID := "DU1234567" |> <| qt_AccountMode := "paper" |>
    <| qt_Key := "row-1" |> <| qt_Contract := contract |> <| qt_Action := "SELL" |> <| qt_PositionEffect := "reduce" |>
    <| qt_PositionQuantity := f_of_Z 10 |> <| qt_MaxQuantity := 10 |> <| qt_Style := QueuedAuthStyleBoundedLimit |>
    <| qt_WorstPrice := f_of_Z 95 |> <| qt_Currency := "USD" |> <| qt_TIF := OrderTIFDay |> <| qt_RowTermsDigest := "row-1" |>
    <| qt_ArmDeadline := t0 + queuedArmWindow |> <| qt_NotBefore := t0 + Minute |> <| qt_NotAfter := t0 + queuedSendWindow |>.
Definition rec0 : queuedAuthRecord := newQueued sha256 terms "row-1" "AAPL/SELL" (snd ref) t0.

Definition env (order : list string) : updateEnv := mkUpdateEnv order true NoFault.
Definition armed : armParams := mkArm (snd ref) "row-1" "action-1" "key-1" "" "cli".
Definition gates : armGates := mkArmGates true scope0 [] [] true false (fun _ => "at the open").
Definition row : TradeProposal :=
  mkProposal "row-1" "" "" contract "AAPL" "STK" "SELL" 10 (f_of_Z 10) "reduce" "LMT" "DAY" None None t0 zero_Fingerprint [] false false None None 0 false "" false None None 0.
Definition openWorld : execWorld :=
  mkExecWorld scope0 false None true None true (mkSnapshot None [] [row] [] "DU1234567" "paper" zero_Fingerprint false)
    (mkOwnerWorld (Ok (f_of_Z 10)) false zero_Fingerprint) (mkBook true []).
Definition draft : OrderDraft :=
  mkDraft None None f0 "" None "SELL" contract 10 "LMT" (f_of_Z 97) None 0 "DAY" false (previewOrderRef "1" None) "" "" None "" 0 None.
Definition preview : OrderPreviewResult := mkPreview "token-1" draft (mkQuote (Some (f_of_Z 97)) (Some (f_of_Z 98)) "live" t0) (f_of_Z 10).

(** ** Its states *)

Definition y1 : sys := put initial (update (env []) t0 (prepareMutate rec0 scope0 t0) (state_of initial)).1.
Definition y2 : sys := put y1 (QueueArm termsDigest sha256 (env [id]) gates (t0 + Second) armed (state_of y1)).1.
Definition at3 : time := t0 + 90 * Second.
Definition due3 : queuedAuthRecord := default rec0 (get (sy_store y2) id).
Definition y3 : sys := mkSys (sy_store y2) (sy_disk y2) (Deciding due3) (sy_open y2).
Definition placing : (queuedAuthStore * queueDisk) * result string (list unstaged) :=
  beforePlace termsDigest (env []) t0 at3 id terms preview (state_of y3).
Definition y4 : sys := mkSys placing.1.1 placing.1.2 (Placing due3 "token-1") [(id, "token-1")].

(** The other run: trading is frozen when the record is due, its hold is durable but
    unseen, and the owner cancels. *)
Definition unseen : updateEnv := mkUpdateEnv [] true (CommittedUnseen "head not observed").
Definition frozenWorld : execWorld :=
  mkExecWorld scope0 true None true None true (xw_snapshot openWorld) (xw_owner openWorld) (xw_book openWorld).
Definition z3 : sys := put y2 (applyDecision unseen at3 id (executeQueued termsDigest rowTermsDigest formatG frozenWorld due3) (state_of y2)).
Definition cancelIt : cancelParams := mkCancel id false "" "cli" false.
Definition cancelAnswer : (queuedAuthStore * queueDisk) * result string queueResult := QueueCancel (env [id]) (at3 + Second) cancelIt (state_of z3).
Definition z4 : sys := put z3 cancelAnswer.1.

#[local] Abbreviation steps := (step termsDigest sha256 rowTermsDigest formatG).

Lemma fresh_initial : fresh (recID rec0) initial.
Proof. split; [apply lookup_empty | done]. Qed.

Lemma preparing_rec : preparing termsDigest sha256 rec0 scope0 t0.
Proof. exists terms, "row-1", "AAPL/SELL", (snd ref). split; [vm_compute; reflexivity | done]. Qed.

Lemma step1 : steps initial y1.
Proof. apply step_prepare; [constructor | exact preparing_rec | exact fresh_initial]. Qed.

Lemma step2 : steps y1 y2.
Proof. apply step_arm. unfold ranges. vm_compute. constructor. constructor. Qed.

Lemma due3_listed : due3 ∈ list_ (sy_store y2).
Proof. vm_compute. constructor. Qed.

Lemma step3 : steps y2 y3.
Proof.
  pose proof (step_decide termsDigest sha256 rowTermsDigest formatG y2 (env []) at3 openWorld due3 eq_refl due3_listed eq_refl) as H.
  replace (match executeQueued termsDigest rowTermsDigest formatG openWorld due3 with Ignore => _ | _ => _ end) with y3 in H by (vm_compute; reflexivity).
  exact H.
Qed.

Lemma step4 : steps y3 y4.
Proof.
  pose proof (step_place termsDigest sha256 rowTermsDigest formatG y3 (env []) t0 at3 due3 preview eq_refl (ex_intro _ "1" (ex_intro _ None eq_refl))) as H.
  replace (match beforePlace _ _ _ _ _ _ _ _ with (sd, Ok _) => _ | (sd, Err _) => _ end) with y4 in H by (vm_compute; reflexivity).
  exact H.
Qed.

Lemma step3' : steps y2 z3.
Proof.
  pose proof (step_decide termsDigest sha256 rowTermsDigest formatG y2 unseen at3 frozenWorld due3 eq_refl due3_listed eq_refl) as H.
  replace (match executeQueued _ _ _ _ _ with Ignore => _ | _ => _ end) with z3 in H by (vm_compute; reflexivity). exact H.
Qed.

Lemma step4' : steps z3 z4.
Proof. apply step_cancel. unfold ranges. vm_compute. constructor. constructor. Qed.

Lemma reach2 : reachable termsDigest sha256 rowTermsDigest formatG y2.
Proof. eapply rtc_l; [exact step1|]. eapply rtc_l; [exact step2 | constructor]. Qed.

Lemma reach4 : reachable termsDigest sha256 rowTermsDigest formatG y4.
Proof. unfold reachable. etrans; [exact reach2|]. eapply rtc_l; [exact step3|]. eapply rtc_l; [exact step4 | constructor]. Qed.

(** The cancel is refused, with the advice to repeat it. *)
Example cancel_of_stale_queue_is_refused :
  match cancelAnswer.2 with Ok out => map tb_Code (qr_Blockers out) | Err e => [e] end = ["queue_not_persisted"].
Proof. vm_compute. reflexivity. Qed.

(** ** The theorems on the run *)

Lemma queued_order_is_sent_at_most_once_witness :
  opensOf id (sy_open y4) = ["token-1"] /\ (List.length (opensOf id (sy_open y4)) <= 1)%nat.
Proof. split; [reflexivity | exact (queued_order_is_sent_at_most_once _ _ _ _ y4 id reach4)]. Defined.

Definition rec4 : queuedAuthRecord := default rec0 (diskRecords (sy_disk y4) !! id).

Lemma rec4_stored : diskRecords (sy_disk y4) !! id = Some rec4.
Proof. vm_compute. reflexivity. Qed.

Lemma one_intent_per_contract_side_witness : occupying rec4 = true /\ id = id.
Proof.
  assert (Ho : occupying rec4 = true) by (vm_compute; reflexivity). split; [exact Ho|].
  exact (one_intent_per_contract_side _ _ _ _ y4 id id rec4 rec4 reach4 rec4_stored rec4_stored Ho Ho eq_refl eq_refl).
Defined.

Lemma journal_tells_the_state_witness :
  follows id ("", 0) (eventsOf id (qd_log (sy_disk y4))) (QueuedAuthSending, 3).
Proof. exact (proj1 (journal_tells_the_state _ _ _ _ y4 id rec4 reach4 rec4_stored)). Defined.

Lemma sent_only_after_the_owner_armed_witness :
  exists arm, In arm (take 2 (eventsOf id (qd_log (sy_disk y4)))) /\ qe_Type arm = queuedEventArmed /\ qe_StateFrom arm = QueuedAuthPrepared.
Proof.
  refine (sent_only_after_the_owner_armed _ _ _ _ y4 id rec4 (take 2 (eventsOf id (qd_log (sy_disk y4))))
           (List.last (eventsOf id (qd_log (sy_disk y4))) (snd (note rec0 "" "" 0))) [] reach4 rec4_stored _ _); vm_compute; reflexivity.
Defined.

Lemma due3_stored : qs_records (sy_store y3) !! id = Some due3.
Proof. vm_compute. reflexivity. Qed.
Lemma due3_waits : waiting due3 = true.
Proof. vm_compute. reflexivity. Qed.
Lemma due3_placed :
  beforePlace termsDigest (env []) t0 at3 id (qa_Terms due3) preview (sy_store y3, sy_disk y3) = ((sy_store y4, sy_disk y4), Ok []).
Proof. vm_compute. reflexivity. Qed.

Lemma send_begins_inside_the_signed_terms_witness :
  termsDigest (qa_Terms due3) = Some (qa_TermsDigest due3) /\ insideWindow (qa_Terms due3) at3 /\ insideTerms (qa_Terms due3) preview.
Proof.
  destruct (send_begins_inside_the_signed_terms termsDigest (env []) t0 at3 id due3 preview (sy_store y3) (sy_disk y3) (sy_store y4) (sy_disk y4) []
              due3_stored due3_waits due3_placed) as (H1 & H2 & H3 & _).
  split; [exact H1|]. split; [exact H2 | exact H3].
Defined.

Lemma unseen_commit_stops_the_queue_until_restart_witness :
  stale z3 /\ ((state_of z4 = state_of z3) \/
    exists z w, rtc steps z3 z /\ steps z w /\ rtc steps w z4 /\ state_of z = state_of z3 /\
      sy_disk w = sy_disk z3 /\ bindCore termsDigest (sy_disk z3) = Ok (sy_store w)).
Proof.
  assert (Hs : stale z3) by (vm_compute; discriminate). split; [exact Hs|].
  apply (unseen_commit_stops_the_queue_until_restart termsDigest sha256 rowTermsDigest formatG z3 z4 Hs).
  eapply rtc_l; [exact step4' | constructor].
Defined.



End Run.
