(* ===== verification/QueuePrepare.v ===== *)
(** * Preparing a queued authorisation

    QueuePrepare, queuedTerms and their price and spread rules of
    src/internal/daemon/proposal_queue.go, prepareOwnerQueue of owner_order_queue.go,
    the readiness classifier of proposal_readiness.go and the contract side of
    proposal_same_contract.go.  The calendar is the one of MarketCalendar; what the
    engine reads elsewhere (the row, the position, the policy, the regime) is an argument.

    Proved: the window of prepared terms lies in one trading window of the market's
    calendar, after its opening offset; a preparation is a step of the queue's system. *)

From stdpp Require Import base decidable list strings gmap sorting.
From Stdlib Require Import ZArith Lia Ascii String SpecFloat.
From S2P Require Import Prelude Floats OrderTypes OrderStatus OrderFold BrokerScope OrderHistory GoTime MarketSpecs MarketCalendar.
From S2P Require Import OrderJournal WriteGate PreviewToken SendDisposition Base64 PositionEvidence DeltaReduction OrderRisk.
From S2P Require Import QueueRecord QueueStore QueueExec QueueFacts QueueSystem QueueSafety.

(** ** Prices *)

Definition optionPennyBandCeiling : float64 := f_of_Z 3.
Definition optionCoarseTick : float64 := f_const 5 100.

Definition priceTick (price : float64) : float64 := if price <f f_of_Z 1 then f_const 1 10000 else f_const 1 100.

Definition roundPrice (price : float64) : float64 := fdiv (Round (fmul price (f_of_Z 10000))) (f_of_Z 10000).

Definition ceilPriceToTick (price tick : float64) : float64 :=
  if tick <=f f0 then roundPrice price else roundPrice (fmul (Ceil (fdiv (fsub price tolerance) tick)) tick).

Definition floorPriceToTick (price tick : float64) : float64 :=
  if tick <=f f0 then roundPrice price else roundPrice (fmul (Floor (fdiv (fadd price tolerance) tick)) tick).

(** Go's [max] on doubles: a NaN operand is the result. *)
Definition maxFloat (x y : float64) : float64 := if IsNaN x then x else if IsNaN y then y else if x <f y then y else x.

Definition isOption (c : ContractParams) : bool := EqualFold (TrimSpace (cp_SecType c)) "OPT".

Definition queuedPriceTick (contract : ContractParams) (price : float64) : float64 :=
  let tick :=
    if isOption contract then (if price >=f optionPennyBandCeiling then optionCoarseTick else f_const 1 100)
    else priceTick price in
  maxFloat tick (cp_MinTick contract).

Definition queuedDefaultWorstPrice (action : string) (mark : float64) (contract : ContractParams) : float64 :=
  if action =s OrderActionBuy then
    let worst := fmul mark (fadd (f_of_Z 1) queuedWorstMove) in floorPriceToTick worst (queuedPriceTick contract worst)
  else
    let worst := fmul mark (fsub (f_of_Z 1) queuedWorstMove) in ceilPriceToTick worst (queuedPriceTick contract worst).

(** The spread limits of the protection policy. *)
Record spreadPolicy := mkSpreads { sp_ThetaHygiene : float64; sp_TrailOptions : float64; sp_TrailStockETF : float64 }.

(** ** Rows *)

Definition TradeProposalBucketThetaHygiene : string := "theta_hygiene".
Definition TradeProposalBucketRiskReduction : string := "risk_reduction".
Definition TradeProposalBucketBudgetReduction : string := "budget_reduction".
Definition TradeProposalBucketMandateReduction : string := "mandate_reduction".
Definition TradeProposalBucketCoreRebalance : string := "core_rebalance".
Definition TradeProposalBucketStrategyRebalance : string := "strategy_rebalance".
Definition TradeProposalBucketCashSweep : string := "cash_sweep".
Definition TradeProposalBucketOptionLossExit : string := "option_loss_exit".
Definition TradeProposalBucketOptionExpiryClose : string := "option_expiry_close".
Definition TradeProposalBucketTrailingStop : string := "trailing_stop".

Definition queuedSpreadLimit (policy : spreadPolicy) (prop : TradeProposal) : float64 :=
  if isOption (pr_Contract prop) then
    if (pr_Bucket prop =s TradeProposalBucketThetaHygiene) && (sp_ThetaHygiene policy >f f0) then sp_ThetaHygiene policy
    else if sp_TrailOptions policy >f f0 then sp_TrailOptions policy else f_of_Z 25
  else if sp_TrailStockETF policy >f f0 then sp_TrailStockETF policy else f_of_Z 2.

Definition sameContractSecFamily (secType : string) : string :=
  let s := ToUpper (TrimSpace secType) in
  if one_of s ["OPT"; "OPTION"] then "OPT" else if one_of s ["STK"; "STOCK"; "ETF"] then "STK" else s.

Definition proposalTIF (prop : TradeProposal) : string :=
  let tif := ToUpper (TrimSpace (pr_TIF prop)) in if tif =s "" then OrderTIFDay else tif.

Definition proposalIsReduction (p : TradeProposal) : bool :=
  one_of (pr_Bucket p) [TradeProposalBucketThetaHygiene; TradeProposalBucketRiskReduction; TradeProposalBucketBudgetReduction;
                        TradeProposalBucketMandateReduction] && negb (pr_InUnit p).

Definition readinessQueueBuckets : list string :=
  [TradeProposalBucketBudgetReduction; TradeProposalBucketThetaHygiene; TradeProposalBucketRiskReduction].
Definition readinessStressOpenBuckets : list string :=
  [TradeProposalBucketBudgetReduction; TradeProposalBucketThetaHygiene; TradeProposalBucketRiskReduction; TradeProposalBucketCashSweep;
   TradeProposalBucketMandateReduction].

Definition cashSweepShadowBlocker : TradingBlocker :=
  mkBlocker "shadow_mode" "the cash sweep runs in shadow mode; this row is listed for observation and cannot be previewed or submitted"
    (say ["Set mode = "; quoted "active"; " under [cash.sweep] and bump policy_version to make these rows ordinary proposals."]).
Definition budgetShadowBlocker : TradingBlocker :=
  mkBlocker "shadow_mode" "budget reduction runs in shadow mode; this row is listed for observation and cannot be previewed or submitted"
    (say ["Set mode = "; quoted "active"; " under [buckets.budget_reduction] and bump policy_version to make these rows ordinary proposals."]).
Definition shadowProposalBlockers (p : TradeProposal) : list TradingBlocker :=
  if negb (pr_Shadow p) then []
  else if pr_Bucket p =s TradeProposalBucketCashSweep then [cashSweepShadowBlocker] else [budgetShadowBlocker].

Definition mandateSizingHeldCode : string := "mandate_sizing_held".
Definition mandateHeldBlockers (p : TradeProposal) : list TradingBlocker :=
  match pr_Held p with
  | None => []
  | Some reason =>
      [mkBlocker mandateSizingHeldCode (say ["the mandate verdict this row was sized on cannot be confirmed right now: "; reason])
         "Wait for a fresh verdict (`canary mandate --refresh`); the row is sent, or withdrawn, once one reads."]
  end.

Section Rows.
(** fmt's "%.4f"; a time's RFC 3339 text. *)
Context (format4 : float64 -> string) (rfc3339 : time -> string).

Definition sameContractSide (p : TradeProposal) : string :=
  let action := ToUpper (TrimSpace (pr_Action p)) in
  let c := pr_Contract p in
  if negb (one_of action [OrderActionBuy; OrderActionSell]) then ""
  else if 0 <? cp_ConID c then say ["CONID:"; Itoa (cp_ConID c); "|"; action]
  else
    let symbol := ToUpper (TrimSpace (nonEmptyString (cp_Symbol c) (pr_Symbol p))) in
    if symbol =s "" then ""
    else String.concat "|"
           [symbol; sameContractSecFamily (nonEmptyString (cp_SecType c) (pr_SecType p)); ToUpper (cp_LocalSymbol c); ToUpper (cp_TradingClass c);
            cp_Expiry c; ToUpper (cp_Right c); format4 (cp_Strike c); ToUpper (nonEmptyString (cp_Currency c) "USD"); action].

Definition queuedQueueableBlockers (p : TradeProposal) : list TradingBlocker :=
  let block code message := [mkBlocker code message "Review the proposal when the market is open instead."] in
  let orderType := ToUpper (TrimSpace (pr_OrderType p)) in
  if pr_Shadow p then shadowProposalBlockers p
  else if negb (one_of (pr_Bucket p) readinessQueueBuckets) || negb (proposalIsReduction p) then
    block "queue_bucket_not_queueable" "only governor, theta and issuer-trim reductions can be queued for the open; exits need a live bid first"
  else if (cp_ConID (pr_Contract p) <=? 0) || (sameContractSide p =s "") then
    block "queue_contract_inexact" "a queued authorisation needs the row's exact broker contract id"
  else if negb (proposalCloseReduceEffect (pr_PositionEffect p)) then
    block "proposal_effect_not_close_reduce" (say ["proposal effect "; quoted (pr_PositionEffect p); " is not close/reduce"])
  else if (orderType <>s "") && (orderType <>s OrderTypeLMT) then
    block "queue_order_type" (say ["order type "; quoted (pr_OrderType p); " cannot be queued; only limit orders can"])
  else if proposalTIF p <>s OrderTIFDay then block "queue_order_type" "only DAY orders can be queued"
  else if pr_Quantity p <=? 0 then block "queue_quantity" "the row asks for no quantity"
  else [].

(** ** Readiness *)

Definition ReadinessReady : string := "ready".
Definition ReadinessOpeningWindow : string := "opening_window".
Definition ReadinessNotExecutable : string := "not_executable".
Definition ReadinessSessionOpen : string := "open".
Definition ReadinessSessionPreOpen : string := "pre_open".
Definition ReadinessSessionBreak : string := "break".
Definition ReadinessSessionAfterClose : string := "after_close".
Definition ReadinessSessionClosed : string := "closed".
Definition ReadinessSessionHoliday : string := "holiday".
Definition ReadinessSessionUnknown : string := "unknown".
Definition readinessDueCodes : list string := ["core_before_due_time"].
Definition readinessOptionsOpeningOffset : Z := 15 * Minute.
Definition readinessStressOptionsOpeningOffset : Z := 30 * Minute.
Definition readinessStockOpeningOffset : Z := 5 * Minute.

Inductive stressOpenRule := stressOpenNone | stressOpenApplies | stressOpenExempt.

(** [stress]: regimeStressOpen. *)
Definition readinessOpeningOffset (stress : bool) (market bucket : string) : Z * stressOpenRule :=
  if market <>s MarketUSOptions then (readinessStockOpeningOffset, stressOpenNone)
  else if negb stress then (readinessOptionsOpeningOffset, stressOpenNone)
  else if one_of bucket readinessStressOpenBuckets then (readinessStressOptionsOpeningOffset, stressOpenApplies)
  else (readinessOptionsOpeningOffset, stressOpenExempt).

Definition stressOpenPhrase (send : time) : string :=
  say ["stress open: the regime reads confirmed stress, so options send from "; rfc3339 send; ", 30 minutes after the open"].
Definition stressOpenExemptPhrase (bucket : string) (send : time) : string :=
  let kind :=
    if bucket =s TradeProposalBucketOptionLossExit then "loss exit"
    else if bucket =s TradeProposalBucketOptionExpiryClose then "expiry close"
    else if bucket =s TradeProposalBucketTrailingStop then "trailing stop" else "protective exit" in
  say ["stress open: the regime reads confirmed stress, but a "; kind; " keeps the 15-minute options offset, so it sends from "; rfc3339 send].

Definition readinessSessionState (s : Session) (now : time) : string :=
  match ss_State s with
  | StateClosed => ReadinessSessionClosed
  | StateHoliday => ReadinessSessionHoliday
  | StateRegular | StateEarlyClose =>
      if ss_IsOpen s then ReadinessSessionOpen
      else if IsZero (ss_Open s) || IsZero (ss_Close s) then ReadinessSessionUnknown
      else if Before now (ss_Open s) then ReadinessSessionPreOpen
      else if negb (Before now (ss_Close s)) then ReadinessSessionAfterClose
      else ReadinessSessionBreak
  | StateUnknown => ReadinessSessionUnknown
  end.

Definition readinessOpensAt (s : Session) : option time :=
  if ss_IsOpen s && negb (IsZero (ss_Open s)) then Some (ss_Open s) else ss_NextOpen s.

Definition sessionClosedPhrase (s : Session) : string :=
  let label := nonEmptyString (ss_Label s) (ss_Market s) in
  let reason := TrimSpace (ss_Reason s) in
  say ([label; " regular session is closed"] ++
       (if (reason <>s "") && negb match ss_State s with StateRegular | StateEarlyClose => true | _ => false end then [" ("; reason; ")"] else []) ++
       match ss_NextOpen s with Some o => ["; it opens "; rfc3339 o] | None => [] end).

Definition proposalHasContract (prop : TradeProposal) : bool :=
  (TrimSpace (cp_Symbol (pr_Contract prop)) <>s "") || (0 <? cp_ConID (pr_Contract prop)).

(** proposalNeedsOpenSession: what previewNeedsOpenSession answers for the order a row previews. *)
Definition proposalNeedsOpenSession (prop : TradeProposal) : bool :=
  let orderType := ToUpper (TrimSpace (pr_OrderType prop)) in
  if one_of orderType [""; OrderTypeLMT] then true
  else if isTrailOrderType orderType then match pr_Trail prop with Some t => t_InitialStopPrice t <=f f0 | None => true end
  else false.

Record TradeProposalReadiness := mkReadiness {
  rd_Code : string; rd_Market : string; rd_MarketLabel : string; rd_SessionState : string; rd_OpensAt : option time;
  rd_DefaultSendAt : option time; rd_StressOpen : bool; rd_StressOpenExempt : bool; rd_Queueable : bool; rd_CanaryCodes : list string;
  rd_Message : string; rd_AsOf : time
}.

(** What a classification reads: the freeze, the broker link, the row's market and its
    session when known (proposalSessionAt), the regime and a strategy row's due time with its phrase. *)
Record readinessWorld := mkReadinessWorld {
  rw_frozen : bool; rw_gatewayReady : bool; rw_market : option string; rw_session : option Session; rw_stress : bool;
  rw_due : option (time * string)
}.

(** The trimmed codes in order, each once with its first message. *)
Fixpoint addCodes (seen : list string) (blockers : list TradingBlocker) : list (string * string) :=
  match blockers with
  | [] => []
  | b :: rest =>
      let code := TrimSpace (tb_Code b) in
      if (code =s "") || one_of code seen then addCodes seen rest
      else (code, TrimSpace (tb_Message b)) :: addCodes (code :: seen) rest
  end.

Definition firstIn (group : list string) (codes : list (string * string)) : option (string * string) :=
  List.find (fun c => one_of c.1 group) codes.

Definition transientCodes : list string :=
  readinessFrozenCodes ++ readinessBrokerCodes ++ readinessHaltCodes ++ readinessSessionCodes ++ readinessSpreadCodes ++ readinessQuoteCodes ++ readinessDueCodes.

(** The deciding code and the message it brings. *)
Definition decideReadiness (codes : list (string * string)) (needsSession : bool) (session : option Session) (offset : Z)
    (due : option (time * string)) (now : time) : string * string :=
  let known (p : Session -> bool) := match session with Some s => p s | None => false end in
  let closed := needsSession && known (fun s => negb match ss_State s with StateUnknown => true | _ => false end && negb (ss_IsOpen s)) in
  let closedMessage msg := if (msg =s "") then match session with Some s => sessionClosedPhrase s | None => "" end else msg in
  match List.find (fun c => negb (one_of c.1 transientCodes)) codes with
  | Some c => (ReadinessNotExecutable, c.2)
  | None =>
  match firstIn readinessFrozenCodes codes with
  | Some c => (ReadinessTradingFrozen, c.2)
  | None =>
  match firstIn readinessBrokerCodes codes with
  | Some c => (ReadinessBrokerUnavailable, c.2)
  | None =>
  match firstIn readinessHaltCodes codes with
  | Some c => (ReadinessHalted, c.2)
  | None =>
  match firstIn readinessSessionCodes codes, closed with
  | Some c, _ => (ReadinessMarketClosed, closedMessage c.2)
  | None, true => (ReadinessMarketClosed, closedMessage "")
  | None, false =>
  match firstIn readinessSpreadCodes codes with
  | Some c => (ReadinessSpreadTooWide, c.2)
  | None =>
  match firstIn readinessQuoteCodes codes with
  | Some c => (ReadinessQuoteUnusable, c.2)
  | None =>
      if needsSession && known (fun s => ss_IsOpen s && Before now (ss_Open s + offset)) then (ReadinessOpeningWindow, "")
      else match firstIn readinessDueCodes codes with
           | Some c => (ReadinessOpeningWindow, c.2)
           | None =>
               match due with
               | Some (at_, phrase) => if Before now at_ then (ReadinessOpeningWindow, phrase) else (ReadinessReady, "")
               | None => (ReadinessReady, "")
               end
           end
  end end end end end end end.

(** [strings.TrimPrefix(message+"; "+phrase, "; ")] *)
Definition joinPhrase (message phrase : string) : string :=
  let joined := say [message; "; "; phrase] in if String.prefix "; " joined then substring 2 (String.length joined - 2) joined else joined.

Definition classifyReadiness (w : readinessWorld) (prop : TradeProposal) (blockers : list TradingBlocker) (live : bool) (now : time)
    : TradeProposalReadiness :=
  let blockers := blockers ++
    (if live && rw_frozen w then [mkBlocker "trading_frozen" "trading writes are frozen by runtime platform settings" ""] else []) ++
    (if live && negb (rw_gatewayReady w) then [mkBlocker "gateway_unavailable" "the broker link to IBKR Gateway/TWS is not ready" ""] else []) in
  let codes := addCodes [] blockers in
  let needsSession := proposalHasContract prop && proposalNeedsOpenSession prop in
  let session := match rw_market w with Some _ => rw_session w | None => None end in
  let market := default "" (rw_market w) in
  let '(offset, stress) := readinessOpeningOffset (rw_stress w) market (pr_Bucket prop) in
  let '(code, message) := decideReadiness codes needsSession session offset (rw_due w) now in
  let opensAt := session ≫= readinessOpensAt in
  let base := mkReadiness code market (match session with Some s => ss_Label s | None => "" end)
    (match session with Some s => readinessSessionState s now | None => ReadinessSessionUnknown end) opensAt None false false false (map fst codes) message now in
  match opensAt with
  | Some opens =>
      if one_of code [ReadinessMarketClosed; ReadinessOpeningWindow] then
        let send := match rw_due w with Some (due, _) => if After due (opens + offset) then due else opens + offset | None => opens + offset end in
        let message :=
          match stress with
          | stressOpenApplies => joinPhrase message (stressOpenPhrase send)
          | stressOpenExempt => joinPhrase message (stressOpenExemptPhrase (pr_Bucket prop) send)
          | stressOpenNone => message
          end in
        mkReadiness code market (rd_MarketLabel base) (rd_SessionState base) opensAt (Some send)
          match stress with stressOpenApplies => true | _ => false end match stress with stressOpenExempt => true | _ => false end
          (negb (pr_Shadow prop) && negb (present (pr_Queued prop)) && one_of (pr_Bucket prop) readinessQueueBuckets)
          (map fst codes) message now
      else base
  | None => base
  end.

Definition queuedNotOfferedBlocker (r : TradeProposalReadiness) : TradingBlocker :=
  let message := "a queue is offered only while the market is closed or in its opening window" in
  if rd_Code r =s ReadinessReady then
    mkBlocker "queue_not_offered" "the market is open past its opening window; nothing needs queueing" "Send the order now instead."
  else if rd_Code r =s ReadinessTradingFrozen then mkBlocker "queue_not_offered" "trading is frozen; nothing can be queued while it is" ""
  else if rd_Code r =s ReadinessBrokerUnavailable then mkBlocker "queue_not_offered" "the broker link is not ready; nothing can be queued" ""
  else
    let msg := TrimSpace (rd_Message r) in
    mkBlocker "queue_not_offered" (if msg <>s "" then say [message; ": "; msg] else message) "".

(** ** The terms *)

Definition quoteHasRegularSessionCalendar (c : ContractParams) : bool := one_of (ToUpper (TrimSpace (cp_SecType c))) [""; "STK"; "ETF"].

Definition quoteSessionMarketForContract (c : ContractParams) : option string :=
  if isOption c then Some MarketUSOptions
  else if negb (quoteHasRegularSessionCalendar c) then None
  else Some (quoteMarketForStockContract (cp_Market c) (cp_Exchange c) (cp_PrimaryExch c)).

(** The zones marketcal loads and its clock. *)
Context (load : string -> option location) (clock : time).

Definition previewSession (market : string) (at_ : time) : option Session :=
  match SessionAt load clock market at_ with Ok s => Some s | Err _ => None end.

(** queuedRowTermsDigest of a row: JSON and SHA-256. *)
Context (rowTermsDigest : TradeProposal -> string).

Definition sessionUnknown (message : string) : list TradingBlocker :=
  [mkBlocker "queue_session_unknown" message "Review the proposal when the market is open instead."].

(** The send window in the session the calendar dates next: its market and date, from when and until when. *)
Definition queuedWindow (stress : bool) (prop : TradeProposal) (now : time) : result (list TradingBlocker) (string * string * time * time) :=
  match quoteSessionMarketForContract (pr_Contract prop) with
  | None => Err (sessionUnknown "this contract's market has no embedded trading calendar, so no send window can be dated")
  | Some market =>
      match previewSession market now with
      | None => Err (sessionUnknown "the trading calendar does not cover today for this market")
      | Some session =>
          if match ss_State session with StateUnknown => true | _ => false end
          then Err (sessionUnknown "the trading calendar does not cover today for this market")
          else
            match readinessOpensAt session with
            | None => Err (sessionUnknown "the trading calendar dates no next regular open for this market")
            | Some opens =>
                let notBefore := opens + (readinessOpeningOffset stress market (pr_Bucket prop)).1 in
                let closedThen := Err (sessionUnknown "the trading calendar does not show the regular session open at the send time") in
                match previewSession market notBefore with
                | None => closedThen
                | Some day =>
                    if negb (ss_IsOpen day) then closedThen
                    else
                      let notAfter := notBefore + queuedSendWindow in
                      let notAfter := if negb (IsZero (ss_Close day)) && Before (ss_Close day) notAfter then ss_Close day else notAfter in
                      if negb (After notAfter notBefore) || negb (After notAfter now) then Err (sessionUnknown "the send window would be empty")
                      else Ok (market, ss_Date day, notBefore, notAfter)
                end
            end
      end
  end.

Definition queuedTerms (stress : bool) (prop : TradeProposal) (policy : spreadPolicy) (fingerprint : Fingerprint) (quantity : Z)
    (sc : brokerStateScope) (now : time) : result (list TradingBlocker) QueuedAuthTerms :=
  let? window := queuedWindow stress prop now in
  let '(market, date, notBefore, notAfter) := window in
  match pr_LimitPrice prop with
  | Some mark =>
      if negb (positiveFinite mark) then
        Err [mkBlocker "queue_reference_mark_missing" "the row carries no position mark, so no worst price can be set" "Refresh proposals once the position has a mark."]
      else
        let action := ToUpper (TrimSpace (pr_Action prop)) in
        Ok (mkTerms queuedTermsVersion None "" (sc_Account sc) (sc_Mode sc) (pr_Key prop) (pr_Bucket prop) (pr_Revision prop) (pr_Contract prop)
              action (pr_PositionEffect prop) (pr_PositionQuantity prop)
              (if 0 <? quantity then Z.min quantity (pr_Quantity prop) else pr_Quantity prop) QueuedAuthStyleBoundedLimit queuedConcession
              (queuedDefaultWorstPrice action mark (pr_Contract prop)) mark (pr_CreatedAt prop) (queuedSpreadLimit policy prop)
              (cp_Currency (pr_Contract prop)) market date notBefore notAfter OrderTIFDay (now + queuedArmWindow) (rowTermsDigest prop)
              fingerprint (pr_EffectiveRulebook prop))
  | None =>
      Err [mkBlocker "queue_reference_mark_missing" "the row carries no position mark, so no worst price can be set" "Refresh proposals once the position has a mark."]
  end.

(** queuedStressOpen: whether a window was dated at a stress open. *)
Definition queuedStressOpen (t : QueuedAuthTerms) : bool :=
  (qt_Market t =s MarketUSOptions) && one_of (qt_Bucket t) readinessStressOpenBuckets &&
  match previewSession MarketUSOptions (qt_NotBefore t) with
  | Some day => negb (IsZero (ss_Open day)) && (Sub (qt_NotBefore t) (ss_Open day) =? readinessStressOptionsOpeningOffset)
  | None => false
  end.

(** ** The requests *)

(** rpc.OrderPreviewParams, the fields an owner's order gives. *)
Record OrderPreviewParams := mkPreviewParams {
  pp_ReplaceID : string; pp_HasBond : bool; pp_Source : string; pp_HasAttachedStop : bool; pp_Action : string; pp_OrderType : string;
  pp_TIF : string; pp_Contract : ContractParams; pp_Quantity : Z; pp_LimitPrice : option float64; pp_Trail : option OrderTrailSpec;
  pp_TriggerMethod : Z; pp_OutsideRTH : bool
}.
#[global] Instance previewParams_eta : Eta OrderPreviewParams := fun r => mkPreviewParams
  (pp_ReplaceID r) (pp_HasBond r) (pp_Source r) (pp_HasAttachedStop r) (pp_Action r) (pp_OrderType r) (pp_TIF r) (pp_Contract r)
  (pp_Quantity r) (pp_LimitPrice r) (pp_Trail r) (pp_TriggerMethod r) (pp_OutsideRTH r).

Record prepareParams := mkPrepareParams {
  qp_OwnerOrder : bool; qp_Order : option OrderPreviewParams; qp_WorstPrice : float64; qp_AccountID : string; qp_AccountMode : string;
  qp_FullPosition : bool; qp_Key : string; qp_Revision : string; qp_Quantity : Z
}.

Record prepareResult := mkPrepareResult {
  pz_Accepted : bool; pz_QueuedRef : string; pz_Queue : option QueuedAuth; pz_Proposal : option TradeProposal;
  pz_Readiness : option TradeProposalReadiness; pz_Blockers : list TradingBlocker
}.
Definition no_prepare : prepareResult := mkPrepareResult false "" None None None [].
Definition refusePrepare (out : prepareResult) (blockers : list TradingBlocker) : prepareResult :=
  mkPrepareResult (pz_Accepted out) (pz_QueuedRef out) (pz_Queue out) (pz_Proposal out) (pz_Readiness out) blockers.

(** What a preparation reads: the fast path setting, the row of a key and revision with
    the blockers and error of its resolution, the connected scope, the policy when one
    is loaded, the regime, the pre-authorised scheduler's blockers for a key and side, a
    readiness world and the two random values of a reference ([None]: no entropy). *)
Record prepareWorld := mkPrepareWorld {
  pw_fastPath : bool; pw_resolve : string -> string -> TradeProposal * list TradingBlocker * option string; pw_scope : brokerStateScope;
  pw_policy : option (spreadPolicy * Fingerprint); pw_stress : bool; pw_automatic : string -> string -> list TradingBlocker;
  pw_readiness : readinessWorld; pw_failure : string -> list TradingBlocker; pw_random : option (string * string)
}.

(** refusalReadiness *)
Definition refusalReadiness (w : prepareWorld) (prop : TradeProposal) (blockers : list TradingBlocker) (err : option string) (now : time)
    : option TradeProposalReadiness :=
  match blockers, err with
  | [], None => None
  | [], Some e => Some (classifyReadiness (pw_readiness w) prop (pw_failure w e) false now)
  | _, _ => Some (classifyReadiness (pw_readiness w) prop blockers false now)
  end.

Definition proposalScopeUnscopedBlocker (sc : brokerStateScope) : TradingBlocker :=
  mkBlocker "account_identity_unscoped"
    (say ["connected session has no concrete single-account identity (observed account "; quoted (sc_Account sc); " mode "; quoted (sc_Mode sc);
          "); protection proposals are scoped per account and paper/live mode"])
    "Reconnect TWS/Gateway with a single concrete account, then refresh proposals.".

Context (termsDigest : QueuedAuthTerms -> option string) (sha256 : string -> string).

(** The shared end of both preparations: the reference, the digest and the record. *)
Definition mintRecord (w : prepareWorld) (terms : QueuedAuthTerms) (side : string) (now : time)
    : result string (queuedAuthRecord * string) :=
  match pw_random w with
  | None => Err "entropy"
  | Some (a, b) =>
      let '(id, reference) := mintQueuedReference a b in
      let terms := terms <| qt_QueueID := id |> in
      match termsDigest terms with
      | None => Err "json: unsupported value"
      | Some digest => Ok (newQueued sha256 terms digest side reference now, reference)
      end
  end.

(** QueuePrepare of one row, with the error of the request. *)
Definition queuePrepareRow (env : updateEnv) (w : prepareWorld) (now : time) (p : prepareParams) (sd : queuedAuthStore * queueDisk)
    : (queuedAuthStore * queueDisk) * (prepareResult * option string) :=
  let refuse out blockers := (sd, (refusePrepare out blockers, None)) in
  if present (qp_Order p) || qp_FullPosition p || (qp_WorstPrice p <>f f0)
  then (sd, (no_prepare, Some "owner-order terms require the v2 intent kind"))
  else if qp_Quantity p <? 0 then (sd, (no_prepare, Some "queue prepare quantity must not be negative"))
  else if negb (attached sd.1) then
    refuse no_prepare (preparedBlocker "queue_unavailable" "Queued authorisations are unavailable: the daemon state store is not attached.")
  else if negb (pw_fastPath w) then
    refuse no_prepare (preparedBlocker "fast_path_disabled" "Proposal submit is disabled by [auto_trade].fast_path_enabled, so nothing can be queued.")
  else
    let '(prop, blockers, err) := pw_resolve w (qp_Key p) (qp_Revision p) in
    let out := mkPrepareResult false "" None (if pr_Key prop <>s "" then Some prop else None) None [] in
    if present err || negb match blockers with [] => true | _ => false end then
      (sd, (mkPrepareResult false "" None (pz_Proposal out) (refusalReadiness w prop blockers err now) blockers, err))
    else
      match queuedQueueableBlockers prop, pr_Queued prop with
      | (_ :: _) as blockers, _ => refuse out blockers
      | [], Some (key, state) =>
          refuse out (if state =s QueuedAuthSent then queuedOrderWorkingBlocker key else queuedIntentExistsBlocker key)
      | [], None =>
          let ready := classifyReadiness (pw_readiness w) prop [] true now in
          let out := mkPrepareResult false "" None (pz_Proposal out) (Some ready) [] in
          let sc := pw_scope w in
          if negb (rd_Queueable ready) then refuse out [queuedNotOfferedBlocker ready]
          else if negb (brokerScopeConcrete sc) then refuse out [proposalScopeUnscopedBlocker sc]
          else
            match pw_policy w with
            | None => refuse out (preparedBlocker "policy_unavailable" "No protection policy is loaded, so the queue's spread limit cannot be set.")
            | Some (policy, fingerprint) =>
                match queuedTerms (pw_stress w) prop policy fingerprint (qp_Quantity p) sc now, pw_automatic w (pr_Key prop) (sameContractSide prop) with
                | Err blockers, _ => refuse out blockers
                | Ok _, (_ :: _) as blockers => refuse out blockers
                | Ok terms, [] =>
                    match mintRecord w terms (sameContractSide prop) now with
                    | Err e => (sd, (out, Some e))
                    | Ok (rec, reference) =>
                        match update env now (prepareMutate rec sc now) sd with
                        | (sd, Err e) =>
                            (sd, (refusePrepare out (preparedBlocker "queue_not_persisted" "The queued authorisation could not be stored; nothing was queued."), Some e))
                        | (sd, Ok ((_ :: _) as refused, _)) => (sd, (refusePrepare out refused, None))
                        | (sd, Ok ([], stored)) =>
                            (sd, (mkPrepareResult true reference (Some (view stored)) (pz_Proposal out) (pz_Readiness out) [], None))
                        end
                    end
                end
            end
      end.

(** *** An owner's order *)

(** What an owner's preparation reads besides: the freeze, whether the broker's identity
    could be captured, the resolved contract, its position and the added-lot stops. *)
Record ownerPrepareWorld := mkOwnerPrepareWorld {
  vw_frozen : bool; vw_identity : bool; vw_contract : ContractParams -> result string ContractParams;
  vw_position : ContractParams -> string -> Z -> result string OrderPositionImpact; vw_attachedStop : ContractParams -> bool
}.

Definition trailTriggerDefaultsToLast (c : ContractParams) : bool := one_of (ToUpper (TrimSpace (cp_SecType c))) ["STK"; "STOCK"; "ETF"].
Definition proposalTriggerMethod (prop : TradeProposal) : Z :=
  if negb (pr_TriggerMethod prop =? 0) then pr_TriggerMethod prop
  else if isTrailOrderType (pr_OrderType prop) && trailTriggerDefaultsToLast (pr_Contract prop) then 2 else 0.

(** proposalOrderPreviewParams, the fields an owner's preparation reads. *)
Definition proposalOrderPreviewParams (prop : TradeProposal) (qty : Z) : OrderPreviewParams :=
  let orderType := ToUpper (TrimSpace (pr_OrderType prop)) in
  mkPreviewParams "" false "trade_proposals" false (pr_Action prop) (if orderType =s "" then OrderTypeLMT else orderType) (proposalTIF prop)
    (pr_Contract prop) qty None (pr_Trail prop) (proposalTriggerMethod prop) (pr_OutsideRTH prop).

(** The order asked for and the row it comes from ([zero_Proposal] for an exact order),
    whether the row is shown, and the owner's bound. *)
Definition ownerRequest (w : prepareWorld) (p : prepareParams)
    : result (prepareResult * option string) (OrderPreviewParams * TradeProposal * bool * float64) :=
  let block code message : result (prepareResult * option string) (OrderPreviewParams * TradeProposal * bool * float64) :=
    Err (refusePrepare no_prepare (preparedBlocker code message), None) in
  match qp_Order p with
  | Some order =>
      if (qp_Key p <>s "") || (qp_Revision p <>s "") || negb (qp_Quantity p =? 0)
      then block "queue_request_invalid" "Choose an exact order or a proposal, not both."
      else if (pp_ReplaceID order <>s "") || pp_HasBond order || (pp_Source order <>s "")
      then block "queue_request_invalid" "This queue supports a new stock or single-leg option order only."
      else Ok (order, zero_Proposal, false, qp_WorstPrice p)
  | None =>
      let '(prop, blockers, err) := pw_resolve w (qp_Key p) (qp_Revision p) in
      if present err || negb match blockers with [] => true | _ => false end then Err (refusePrepare no_prepare blockers, err)
      else
        match (if pr_Shadow prop then shadowProposalBlockers prop else mandateHeldBlockers prop) with
        | (_ :: _) as blockers => Err (refusePrepare no_prepare blockers, None)
        | [] =>
            if pr_Bucket prop =s TradeProposalBucketCoreRebalance then
              block "queue_bucket_not_queueable" "The core's row is sent in session at the live mid, inside its window; review it while its exchange is open."
            else if pr_Bucket prop =s TradeProposalBucketStrategyRebalance then
              block "queue_bucket_not_queueable" "A strategy's row is sent in session at the live mid, inside its window, as the core's is; review it while its exchange is open."
            else if (qp_Quantity p <? 0) || (pr_Quantity prop <? qp_Quantity p) then
              Err (refusePrepare (mkPrepareResult false "" None (Some prop) None [])
                     (preparedBlocker "queue_quantity" "The exact quantity must fit the proposal."), None)
            else
              let worst := match pr_LimitPrice prop with Some l => if qp_WorstPrice p =f f0 then l else qp_WorstPrice p | None => qp_WorstPrice p end in
              Ok (proposalOrderPreviewParams prop (if 0 <? qp_Quantity p then qp_Quantity p else pr_Quantity prop), prop, true, worst)
        end
  end.

(** The signed terms of an owner's order on its resolved contract and position. *)
Definition ownerTerms (w : prepareWorld) (v : ownerPrepareWorld) (p : prepareParams) (order : OrderPreviewParams) (prop : TradeProposal)
    (contract : ContractParams) (before bound : float64) (policy : spreadPolicy) (fingerprint : Fingerprint) (now : time)
    : result (list TradingBlocker) QueuedAuthTerms :=
  let block code message : result (list TradingBlocker) QueuedAuthTerms := Err (preparedBlocker code message) in
  let owned (t : QueuedAuthTerms) : QueuedAuthTerms :=
    t <| qt_OwnerOrder := Some (mkOwnerOrder (pp_OrderType order) (pp_Trail order) (pp_TriggerMethod order) (pp_OutsideRTH order)
           (if qp_FullPosition p then "" else "Normal") (qp_FullPosition p)
           ((pp_Action order =s "BUY") && (cp_SecType contract =s "STK") && (f0 <=f before))) |> in
  if qp_FullPosition p then
    if vw_attachedStop v contract then
      block "attached_stop_overlap" "An added-lot stop already exists; review its protection before creating a full-position mandate."
    else if (pp_Action order <>s "SELL") || (cp_SecType contract <>s "STK") || negb (isTrailOrderType (pp_OrderType order)) ||
            (before <f f_of_Z 1) || (Trunc before <>f before) then
      block "queue_protection_invalid" "Full-position trailing protection requires whole long stock shares."
    else if negb match pp_Trail order with Some t => positiveFinite (t_InitialStopPrice t) | None => false end then
      block "queue_stop_missing" "The exact trail and starting stop are required."
    else
      match quoteSessionMarketForContract contract with
      | None => block "queue_session_unknown" "The contract market could not be identified."
      | Some market =>
          Ok (owned (zero_Terms <| qt_Version := 2 |> <| qt_AccountID := sc_Account (pw_scope w) |> <| qt_AccountMode := sc_Mode (pw_scope w) |>
                <| qt_Key := pr_Key prop |> <| qt_Bucket := pr_Bucket prop |> <| qt_RevisionAtQueue := pr_Revision prop |>
                <| qt_Contract := contract |> <| qt_Action := pp_Action order |> <| qt_PositionEffect := "close" |>
                <| qt_PositionQuantity := before |> <| qt_MaxQuantity := int_of_float before |> <| qt_Style := "broker_trail" |>
                <| qt_Currency := cp_Currency contract |> <| qt_Market := market |> <| qt_NotBefore := now |>
                <| qt_ArmDeadline := now + queuedArmWindow |> <| qt_TIF := pp_TIF order |> <| qt_PolicyFingerprint := fingerprint |>))
      end
  else
    let? t := queuedTerms (pw_stress w) prop policy fingerprint (pp_Quantity order) (pw_scope w) now in
    Ok (owned (t <| qt_Version := 2 |> <| qt_Style := "midpoint_bounded" |> <| qt_Concession := f0 |> <| qt_WorstPrice := bound |>)).

(** Whether an immediate order is possible instead of a queue. *)
Definition ownerNotOffered (w : prepareWorld) (contract : ContractParams) (bucket : string) (now : time) : list TradingBlocker :=
  match quoteSessionMarketForContract contract with
  | None => preparedBlocker "queue_session_unknown" "The current exchange session cannot be verified."
  | Some market =>
      match previewSession market now with
      | None => preparedBlocker "queue_session_unknown" "The current exchange session cannot be verified."
      | Some session =>
          if ss_IsOpen session && negb (Before now (ss_Open session + (readinessOpeningOffset (pw_stress w) market bucket).1))
          then preparedBlocker "queue_not_offered" "The market is ready; place the order now." else []
      end
  end.

(** The order as the rest reads it. *)
Definition normalizeOrder (order : OrderPreviewParams) : OrderPreviewParams :=
  let orderType := ToUpper (TrimSpace (pp_OrderType order)) in
  order <| pp_Action := ToUpper (TrimSpace (pp_Action order)) |> <| pp_OrderType := if orderType =s "" then OrderTypeLMT else orderType |>
        <| pp_TIF := if pp_TIF order =s "" then OrderTIFDay else pp_TIF order |>.

(** The row the terms are fixed on: the request's, completed with the resolved facts. *)
Definition ownerProposal (prop : TradeProposal) (order : OrderPreviewParams) (contract : ContractParams) (impact : OrderPositionImpact) (bound : float64)
    (now : time) : TradeProposal :=
  let prop := prop <| pr_Contract := contract |> <| pr_Action := pp_Action order |> <| pr_Quantity := pp_Quantity order |>
                   <| pr_PositionQuantity := pi_Before impact |> <| pr_PositionEffect := pi_Effect impact |>
                   <| pr_Revision := nonEmptyString (pr_Revision prop) "owner" |> <| pr_CreatedAt := now |> <| pr_LimitPrice := Some bound |> in
  if pr_Key prop =s ""
  then prop <| pr_Key := say ["owner:"; Itoa (cp_ConID contract); ":"; pp_Action order] |> <| pr_Bucket := "owner_order" |>
  else prop.

Definition prepareOwnerQueue (env : updateEnv) (w : prepareWorld) (v : ownerPrepareWorld) (now : time) (p : prepareParams)
    (sd : queuedAuthStore * queueDisk) : (queuedAuthStore * queueDisk) * (prepareResult * option string) :=
  let block out code message := (sd, (refusePrepare out (preparedBlocker code message), None)) in
  match pw_policy w with
  | None => block no_prepare "queue_unavailable" "Queued authorisations are unavailable."
  | Some (policy, fingerprint) =>
      let sc := pw_scope w in
      if negb (attached sd.1) then block no_prepare "queue_unavailable" "Queued authorisations are unavailable."
      else if negb (brokerScopeConcrete sc) || (qp_AccountID p <>s sc_Account sc) || (qp_AccountMode p <>s sc_Mode sc) then
        block no_prepare "queued_scope_mismatch" "Confirm the connected account and mode before queueing."
      else if vw_frozen v then block no_prepare ReadinessTradingFrozen "trading writes are frozen by runtime platform settings"
      else
        match ownerRequest w p with
        | Err answer => (sd, answer)
        | Ok (order, prop, fromRow, worst) =>
            let shown prop := mkPrepareResult false "" None (if fromRow : bool then Some prop else None) None [] in
            if pp_HasAttachedStop order then
              block (shown prop) "protected_add_queue_unsupported" "Entry and attached stop require an immediate exact review; this pair cannot be queued."
            else
              let order := normalizeOrder order in
              if (cp_ConID (pp_Contract order) <=? 0) || negb (one_of (cp_SecType (pp_Contract order)) ["STK"; "OPT"]) || (pp_Quantity order <=? 0) then
                block (shown prop) "queue_contract_inexact" "Choose an exact contract and positive quantity."
              else if negb (vw_identity v) then block (shown prop) ReadinessBrokerUnavailable "Broker identity could not be verified."
              else
                match vw_contract v (pp_Contract order) with
                | Err e => block (shown prop) "contract_unresolved" e
                | Ok contract =>
                    match (if qp_FullPosition p then [] else ownerNotOffered w contract (pr_Bucket prop) now),
                          vw_position v contract (pp_Action order) (pp_Quantity order) with
                    | (_ :: _) as blockers, _ => (sd, (refusePrepare (shown prop) blockers, None))
                    | [], Err e => block (shown prop) "position_unavailable" e
                    | [], Ok impact =>
                        let bound := match pp_LimitPrice order with Some l => if worst =f f0 then l else worst | None => worst end in
                        let prop := ownerProposal prop order contract impact bound now in
                        match ownerTerms w v p order prop contract (pi_Before impact) bound policy fingerprint now with
                        | Err blockers => (sd, (refusePrepare (shown prop) blockers, None))
                        | Ok terms =>
                            let problem := ownerQueueProblem terms in
                            if problem <>s "" then block (shown prop) "queue_terms_invalid" problem
                            else
                              match pw_automatic w (pr_Key prop) (sameContractSide prop), mintRecord w terms (sameContractSide prop) now with
                              | (_ :: _) as blockers, _ => (sd, (refusePrepare (shown prop) blockers, None))
                              | [], Err e => (sd, (shown prop, Some e))
                              | [], Ok (rec, reference) =>
                                  match update env now (prepareOwnerMutate rec sc now) sd with
                                  | (sd, Err e) => (sd, (shown prop, Some e))
                                  | (sd, Ok (true, _)) =>
                                      (sd, (refusePrepare (shown prop) (preparedBlocker "queued_intent_exists" "An order for this contract and side is already queued or working."), None))
                                  | (sd, Ok (false, stored)) =>
                                      let ready := classifyReadiness (pw_readiness w) prop [] true now in
                                      let code := if qp_FullPosition p && (rd_Code ready =s ReadinessOpeningWindow) then ReadinessReady else rd_Code ready in
                                      (sd, (mkPrepareResult true reference (Some (view stored)) (pz_Proposal (shown prop))
                                              (Some (mkReadiness code (rd_Market ready) (rd_MarketLabel ready) (rd_SessionState ready) (rd_OpensAt ready)
                                                       (rd_DefaultSendAt ready) (rd_StressOpen ready) (rd_StressOpenExempt ready) (rd_Queueable ready)
                                                       (rd_CanaryCodes ready) (rd_Message ready) (rd_AsOf ready))) [], None))
                                  end
                              end
                        end
                    end
                end
        end
  end.

Definition QueuePrepare (env : updateEnv) (w : prepareWorld) (v : ownerPrepareWorld) (now : time) (p : prepareParams) (sd : queuedAuthStore * queueDisk)
    : (queuedAuthStore * queueDisk) * (prepareResult * option string) :=
  if qp_OwnerOrder p then prepareOwnerQueue env w v now p sd else queuePrepareRow env w now p sd.
End Rows.

(** ** The signed window *)

Section Window.
Context (load : string -> option location) (clock : time) (rowTermsDigest : TradeProposal -> string).

Lemma session_market_unbroken c market : quoteSessionMarketForContract c = Some market ->
  exists spec, mapGet market specs = Some spec /\ sp_breaks spec = [].
Proof.
  unfold quoteSessionMarketForContract. destruct (isOption c); [intros [= <-]; eexists; split; reflexivity|].
  destruct (negb _); [discriminate|]. intros [= <-]. unfold quoteMarketForStockContract. cbv zeta. repeat case_if; eexists; split; reflexivity.
Qed.

(** An open session runs unbroken to its close. *)
Lemma open_until_close market at_ day spec loc t :
  mapGet market specs = Some spec -> sp_breaks spec = [] -> load (sp_timezone spec) = Some loc -> ZoneLaws spec loc -> at_ <> 0 ->
  firstDay spec <= localDay loc at_ <= lastDay spec -> previewSession load clock market at_ = Some day -> ss_IsOpen day = true ->
  ss_Close day <> 0 /\ at_ < ss_Close day /\ (at_ <= t < ss_Close day -> trading spec loc t).
Proof.
  intros Hm Hb Hl Hz Ha Hd Hs Ho. destruct (SessionAt_session load clock market spec loc at_ Hm Hl Hz Ha Hd) as (s & Hs' & _ & Hopen & Hclose & _).
  unfold previewSession in Hs. rewrite Hs' in Hs. injection Hs as ->. assert (Hok := spec_anchored market spec Hm). set (n := localDay loc at_) in *.
  destruct (tradesOn spec n) eqn:Htr; [|by rewrite Ho in Hopen]. fold (closeInstant spec loc n) in Hclose.
  assert (Hw := windows_unbroken spec loc _ n Hok Hz Hb Htr). rewrite Hopen, Hw in Ho. cbn in Ho. unfold inWindow, Before in Ho. cbn in Ho. rewrite orb_false_r in Ho.
  bool_hyps. assert (Hpos := open_positive spec loc _ Hok Hz n (trades_covered spec n Htr)). rewrite Hclose.
  split; [lia|]. split; [lia|]. intros Ht. exists n, (mkWindow (Date loc n (secondsOfDay (sp_open spec))) (closeInstant spec loc n)).
  split; [done|]. split; [rewrite Hw; by left|]. cbn. lia.
Qed.

(** The owner signs a window the exchange trades in.  The terms a preparation fixes
    are for a window of at most an hour that is not over yet, and every instant of it is
    a trading instant of the contract's market by the embedded calendar (holidays, early
    closes and clock changes included), when the calendar covers the window's date. *)
Theorem signed_window_trades_throughout stress prop policy fingerprint quantity sc now t spec loc :
  queuedTerms load clock rowTermsDigest stress prop policy fingerprint quantity sc now = Ok t ->
  mapGet (qt_Market t) specs = Some spec -> load (sp_timezone spec) = Some loc -> ZoneLaws spec loc ->
  qt_NotBefore t <> 0 -> firstDay spec <= localDay loc (qt_NotBefore t) <= lastDay spec ->
  now < qt_NotAfter t /\ qt_NotBefore t < qt_NotAfter t <= qt_NotBefore t + queuedSendWindow /\
  forall x, qt_NotBefore t <= x < qt_NotAfter t -> trading spec loc x.
Proof.
  unfold queuedTerms. destruct (queuedWindow load clock stress prop now) as [[[[market date] nb] na]|] eqn:Hw; [|discriminate]. cbn [rbind].
  destruct (pr_LimitPrice prop) as [mark|]; [|discriminate]. destruct (negb (positiveFinite mark)); [discriminate|].
  intros [= <-]. cbn [qt_Market qt_NotBefore qt_NotAfter]. intros Hm Hl Hz Ha Hd. revert Hw. unfold queuedWindow.
  destruct (quoteSessionMarketForContract (pr_Contract prop)) as [m|] eqn:Hq; [|discriminate].
  destruct (previewSession load clock m now) as [session|]; [|discriminate]. destruct (match ss_State session with StateUnknown => _ | _ => _ end); [discriminate|].
  destruct (readinessOpensAt session) as [opens|]; [|discriminate]. set (b := opens + _).
  destruct (previewSession load clock m b) as [day|] eqn:Hday; [|discriminate]. destruct (ss_IsOpen day) eqn:Ho; [|discriminate]. cbn [negb].
  set (a := if _ && _ then _ else _). destruct (negb (After a b) || _) eqn:He; [discriminate|]. intros [= -> _ <- <-].
  destruct (session_market_unbroken _ _ Hq) as (sp & Hsp & Hbr). rewrite Hm in Hsp. injection Hsp as <-.
  apply orb_false_iff in He as [E1 E2]. apply negb_false_iff in E1, E2. unfold After in E1, E2. bool_hyps.
  assert (Hclose := fun x => open_until_close market b day spec loc x Hm Hbr Hl Hz Ha Hd Hday Ho).
  assert (Hac : a <= ss_Close day /\ a <= b + queuedSendWindow).
  { destruct (Hclose 0) as (H1 & H2 & _). subst a. unfold Before, IsZero. rewrite (proj2 (Z.eqb_neq _ _) H1). cbn [negb andb].
    destruct (ss_Close day <? b + queuedSendWindow) eqn:E; lia. }
  split; [lia|]. split; [lia|]. intros x Hx. apply Hclose. lia.
Qed.
End Window.

(** ** Preparations as steps *)

Section Prepare.
Context (format4 : float64 -> string) (rfc3339 : time -> string) (load : string -> option location) (clock : time)
        (rowTermsDigest : TradeProposal -> string) (termsDigest : QueuedAuthTerms -> option string) (sha256 : string -> string).
#[local] Abbreviation prepare := (QueuePrepare format4 rfc3339 load clock rowTermsDigest termsDigest sha256).

(** A record a preparation hands to its update. *)
Record minted (w : prepareWorld) (now : time) (rec : queuedAuthRecord) (reference : string) : Prop := mkMinted {
  mi_preparing : preparing termsDigest sha256 rec (pw_scope w) now;
  mi_concrete : brokerScopeConcrete (pw_scope w) = true;
  mi_random : exists a b, pw_random w = Some (a, b) /\ mintQueuedReference a b = (recID rec, reference);
  mi_hash : qa_ReferenceHash rec = sha256 reference;
  mi_deadline : qt_ArmDeadline (qa_Terms rec) = now + queuedArmWindow;
  mi_arms : queuedRecordProblem termsDigest (rec <| qa_State := QueuedAuthPrepared |>) = ""
}.

Lemma mintRecord_minted w terms side now rec reference :
  mintRecord termsDigest sha256 w terms side now = Ok (rec, reference) -> brokerScopeConcrete (pw_scope w) = true ->
  qt_AccountID terms = sc_Account (pw_scope w) -> qt_AccountMode terms = sc_Mode (pw_scope w) -> qt_ArmDeadline terms = now + queuedArmWindow ->
  (qt_Version terms = 1 /\ qt_OwnerOrder terms = None /\ qt_Style terms = QueuedAuthStyleBoundedLimit /\ qt_TIF terms = OrderTIFDay \/
   qt_Version terms = 2 /\ ownerQueueProblem terms = "") ->
  minted w now rec reference.
Proof.
  unfold mintRecord. destruct (pw_random w) as [[a b]|] eqn:Hr; [|discriminate]. cbn [mintQueuedReference].
  set (terms' := terms <| qt_QueueID := _ |>). destruct (termsDigest terms') as [digest|] eqn:Hd; [|discriminate].
  intros [= <- <-] Hc Ha Hm Hdl Hshape. split; try done.
  - exists terms', digest, side. eexists. split; [exact Hd|]. split; [reflexivity|]. unfold scope. cbn. rewrite Ha, Hm. by destruct (pw_scope w).
  - by exists a, b.
  - set (r := (newQueued _ _ _ _ _ _) <| qa_State := _ |>). assert (E : qa_Terms r = terms') by reflexivity. assert (F : qa_TermsDigest r = digest) by reflexivity.
    unfold queuedRecordProblem. rewrite E, F, Hd. subst r terms'. cbn.
    destruct Hshape as [(H1 & H2 & H3 & H4)|[H1 H2]].
    + rewrite H1, H2, H3, H4. cbn. by rewrite eqb_s_refl.
    + rewrite H1. unfold ownerQueueProblem in *. cbn in *. rewrite H2. cbn. by rewrite eqb_s_refl.
Qed.

Lemma queuedTerms_shape stress prop policy fp quantity sc now t :
  queuedTerms load clock rowTermsDigest stress prop policy fp quantity sc now = Ok t ->
  qt_Version t = 1 /\ qt_OwnerOrder t = None /\ qt_Style t = QueuedAuthStyleBoundedLimit /\ qt_TIF t = OrderTIFDay /\
  qt_AccountID t = sc_Account sc /\ qt_AccountMode t = sc_Mode sc /\ qt_ArmDeadline t = now + queuedArmWindow.
Proof.
  unfold queuedTerms. destruct (queuedWindow _ _ _ _ _) as [[[[market date] nb] na]|]; [|discriminate]. cbn [rbind].
  destruct (pr_LimitPrice prop) as [mark|]; [|discriminate]. destruct (negb _); [discriminate|]. by intros [= <-].
Qed.

(** What a preparation does to the store: nothing, or the update of a minted record;
    only an update that stored the record is accepted. *)
Inductive prepared (env : updateEnv) (w : prepareWorld) (now : time) (sd sd' : queuedAuthStore * queueDisk) (out : prepareResult) : Prop :=
| prepared_not : sd' = sd -> pz_Accepted out = false -> prepared env w now sd sd' out
| prepared_row rec reference res :
    minted w now rec reference -> update env now (prepareMutate rec (pw_scope w) now) sd = (sd', res) ->
    (pz_Accepted out = true -> exists stored, res = Ok ([], stored) /\ pz_QueuedRef out = reference /\ pz_Queue out = Some (view stored)) ->
    prepared env w now sd sd' out
| prepared_owner rec reference res :
    minted w now rec reference -> update env now (prepareOwnerMutate rec (pw_scope w) now) sd = (sd', res) ->
    (pz_Accepted out = true -> exists stored, res = Ok (false, stored) /\ pz_QueuedRef out = reference /\ pz_Queue out = Some (view stored)) ->
    prepared env w now sd sd' out.

Lemma prepareRow_prepared env w now p sd sd' out err :
  queuePrepareRow format4 rfc3339 load clock rowTermsDigest termsDigest sha256 env w now p sd = (sd', (out, err)) -> prepared env w now sd sd' out.
Proof.
  unfold queuePrepareRow. destruct (_ || _ || _); [by intros [= <- <- _]; apply prepared_not|].
  destruct (qp_Quantity p <? 0); [by intros [= <- <- _]; apply prepared_not|]. destruct (negb (attached _)); [by intros [= <- <- _]; apply prepared_not|].
  destruct (negb (pw_fastPath w)); [by intros [= <- <- _]; apply prepared_not|].
  destruct (pw_resolve w _ _) as [[prop blockers] e]. destruct (present e || _); [by intros [= <- <- _]; apply prepared_not|].
  destruct (queuedQueueableBlockers format4 prop); [|by intros [= <- <- _]; apply prepared_not].
  destruct (pr_Queued prop) as [[key state]|]; [by intros [= <- <- _]; apply prepared_not|].
  set (ready := classifyReadiness _ _ _ _ _ _). destruct (negb (rd_Queueable ready)); [by intros [= <- <- _]; apply prepared_not|].
  destruct (brokerScopeConcrete (pw_scope w)) eqn:Hsc; [|by intros [= <- <- _]; apply prepared_not]. cbn [negb].
  destruct (pw_policy w) as [[policy fp]|]; [|by intros [= <- <- _]; apply prepared_not].
  destruct (queuedTerms _ _ _ _ _ _ _ _ _ _) as [terms|] eqn:Ht; [|by intros [= <- <- _]; apply prepared_not].
  destruct (pw_automatic w _ _); [|by intros [= <- <- _]; apply prepared_not].
  destruct (mintRecord _ _ w terms _ now) as [[rec reference]|] eqn:Hm; [|by intros [= <- <- _]; apply prepared_not].
  destruct (queuedTerms_shape _ _ _ _ _ _ _ _ Ht) as (H1 & H2 & H3 & H4 & H5 & H6 & H7).
  assert (Hmint : minted w now rec reference) by (eapply mintRecord_minted; eauto).
  destruct (update env now _ sd) as [sd1 res] eqn:Hu. intros Hout. apply (prepared_row env w now sd sd' out rec reference res Hmint).
  - rewrite Hu. destruct res as [[[|] stored]|]; injection Hout as <- _ _; done.
  - destruct res as [[[|] stored]|]; injection Hout as _ <- _; try done. intros _. by exists stored.
Qed.

Lemma ownerTerms_shape w v p order prop contract before bound policy fp now t :
  ownerTerms load clock rowTermsDigest w v p order prop contract before bound policy fp now = Ok t ->
  qt_Version t = 2 /\ qt_AccountID t = sc_Account (pw_scope w) /\ qt_AccountMode t = sc_Mode (pw_scope w) /\ qt_ArmDeadline t = now + queuedArmWindow.
Proof.
  unfold ownerTerms. destruct (qp_FullPosition p).
  - repeat (case_if; [discriminate|]). destruct (quoteSessionMarketForContract contract); [|discriminate]. by intros [= <-].
  - destruct (queuedTerms _ _ _ _ _ _ _ _ _ _) as [q|] eqn:Hq; [|discriminate]. cbn [rbind]. intros [= <-].
    by destruct (queuedTerms_shape _ _ _ _ _ _ _ _ Hq) as (_ & _ & _ & _ & H5 & H6 & H7).
Qed.

Lemma ownerRequest_refused w p out err : ownerRequest w p = Err (out, err) -> pz_Accepted out = false.
Proof.
  unfold ownerRequest. destruct (qp_Order p) as [order|].
  - repeat (case_if; [by intros [= <- _]|]). discriminate.
  - destruct (pw_resolve w _ _) as [[prop blockers] e]. destruct (present e || _); [by intros [= <- _]|].
    destruct (if pr_Shadow prop then _ else _); [|by intros [= <- _]]. repeat (case_if; [by intros [= <- _]|]). discriminate.
Qed.

Lemma prepareOwner_prepared env w v now p sd sd' out err :
  prepareOwnerQueue format4 rfc3339 load clock rowTermsDigest termsDigest sha256 env w v now p sd = (sd', (out, err)) -> prepared env w now sd sd' out.
Proof.
  unfold prepareOwnerQueue. destruct (pw_policy w) as [[policy fp]|]; [|by intros [= <- <- _]; apply prepared_not].
  destruct (negb (attached _)); [by intros [= <- <- _]; apply prepared_not|].
  destruct (negb (brokerScopeConcrete (pw_scope w)) || _ || _) eqn:Hsc; [by intros [= <- <- _]; apply prepared_not|].
  apply orb_false_iff in Hsc as [Hsc _]. apply orb_false_iff in Hsc as [Hsc _]. apply negb_false_iff in Hsc.
  destruct (vw_frozen v); [by intros [= <- <- _]; apply prepared_not|].
  destruct (ownerRequest w p) as [[[[order prop] fromRow] worst]|[o e]] eqn:Hreq;
    [|intros [= <- <- _]; apply prepared_not; [done | by eapply ownerRequest_refused]].
  destruct (pp_HasAttachedStop order); [by intros [= <- <- _]; apply prepared_not|].
  destruct (_ || _ || _); [by intros [= <- <- _]; apply prepared_not|]. destruct (negb (vw_identity v)); [by intros [= <- <- _]; apply prepared_not|].
  destruct (vw_contract v _) as [contract|]; [|by intros [= <- <- _]; apply prepared_not].
  destruct (if qp_FullPosition p then [] else _); [|by intros [= <- <- _]; apply prepared_not].
  destruct (vw_position v _ _ _) as [impact|]; [|by intros [= <- <- _]; apply prepared_not]. cbv zeta.
  set (bound := match _ with Some l => _ | None => _ end). set (prop' := ownerProposal _ _ _ _ _ _).
  destruct (ownerTerms _ _ _ w v p _ prop' contract _ bound policy fp now) as [terms|] eqn:Ht; [|by intros [= <- <- _]; apply prepared_not].
  destruct (ownerQueueProblem terms <>s "") eqn:Hpr; [by intros [= <- <- _]; apply prepared_not|].
  destruct (pw_automatic w _ _); [|by intros [= <- <- _]; apply prepared_not].
  destruct (mintRecord _ _ w terms _ now) as [[rec reference]|] eqn:Hm; [|by intros [= <- <- _]; apply prepared_not].
  destruct (ownerTerms_shape _ _ _ _ _ _ _ _ _ _ _ _ Ht) as (H1 & H2 & H3 & H4).
  assert (Hmint : minted w now rec reference) by (eapply mintRecord_minted; eauto; right; split; [done | by bool_hyps]).
  destruct (update env now _ sd) as [sd1 res] eqn:Hu. intros Hout. apply (prepared_owner env w now sd sd' out rec reference res Hmint).
  - rewrite Hu. destruct res as [[[|] stored]|]; injection Hout as <- _ _; done.
  - destruct res as [[[|] stored]|]; injection Hout as _ <- _; try done. intros _. by exists stored.
Qed.

Lemma QueuePrepare_prepared env w v now p sd sd' out err : prepare env w v now p sd = (sd', (out, err)) -> prepared env w now sd sd' out.
Proof. unfold QueuePrepare. case_if; [apply prepareOwner_prepared | apply prepareRow_prepared]. Qed.

(** What an update that accepts a preparation leaves in memory: the unarmed
    preparations of the intent superseded, no occupant met, the record inserted. *)
Definition takes (rec : queuedAuthRecord) (sc : brokerStateScope) (now : time) (m : queueRecords) (order : list string)
    (working : queueRecords) (evs : list queuedAuthEvent) (stored : queuedAuthRecord) : Prop :=
  stored = (transition rec queuedEventPrepared QueuedAuthPrepared now).1 /\ evs <> [] /\
  exists reason m' evs0 outs, rangeRecords (supersedeTurn (qa_ContractSide rec) sc reason now) order m = (m', evs0, outs) /\
    working = <[recID rec := stored]> m' /\
    (forall id other, id ∈ order -> m !! id = Some other -> sameIntent (qa_ContractSide rec) sc other = true -> occupying other = false).

Lemma prepareMutate_takes rec sc now m order working evs stored : NoDup order ->
  prepareMutate rec sc now m order = (working, evs, ([], stored)) -> takes rec sc now m order working evs stored.
Proof.
  intros Hnd. unfold prepareMutate. destruct (supersedeOthers _ _ _ _ _) as [[m' evs0] refused] eqn:Hs. destruct refused; [|discriminate].
  apply supersedeOthers_spec in Hs as [Hs Hocc]; [|done]. intros [= <- <- <-]. split; [done|]. split; [by destruct evs0|].
  by exists supersededReason, m', evs0, [].
Qed.

Lemma prepareOwnerMutate_takes rec sc now m order working evs stored :
  prepareOwnerMutate rec sc now m order = (working, evs, (false, stored)) -> takes rec sc now m order working evs stored.
Proof.
  unfold prepareOwnerMutate. destruct (existsb _ order) eqn:He; [discriminate|].
  change (fun other => if sameIntent (qa_ContractSide rec) sc other && (qa_State other =s QueuedAuthPrepared) then _ else _)
    with (supersedeTurn (qa_ContractSide rec) sc "replaced before confirmation" now).
  destruct (rangeRecords _ order m) as [[m' evs0] outs] eqn:Hs. intros [= <- <- <-]. split; [done|]. split; [by destruct evs0|].
  exists "replaced before confirmation", m', evs0, outs. split; [done|]. split; [done|]. intros id other Hin Hm Hsame.
  rewrite <- not_true_iff_false, existsb_exists in He. unfold occupying. apply not_true_iff_false. intros Ho. apply He. exists id.
  rewrite list_elem_of_In in Hin. split; [done|]. by rewrite Hm, Hsame, Ho.
Qed.

(** Superseding leaves no occupant of the intent. *)
Lemma takes_clear rec sc now m order working evs stored : keyed m -> NoDup order -> (forall j, j ∈ order <-> m !! j <> None) ->
  takes rec sc now m order working evs stored ->
  forall id other, working !! id = Some other -> id <> recID rec -> sameIntent (qa_ContractSide rec) sc other = true -> occupying other = false.
Proof.
  intros Hk Hnd Hcov (_ & _ & reason & m' & evs0 & outs & Hr & -> & Hocc) id other Hw Hne Hsame. rewrite lookup_insert_ne in Hw by done.
  pose proof (rangeRecords_spec _ (supersedeTurn_lawful _ _ _ _) order m m' evs0 outs Hk Hnd Hr id) as [Hx _]. rewrite Hw in Hx.
  case_bool_decide as Hin; [|by rewrite Hcov in Hin; destruct (m !! id); [destruct Hin|]].
  symmetry in Hx. apply fmap_Some in Hx as (r & Hmr & ->). revert Hsame. unfold supersedeTurn. case_if; [done|]. cbn [skip fst]. intros Hs. by apply (Hocc id r).
Qed.

(** A prepared record as the store holds it, ready to be armed. *)
Record stands (w : prepareWorld) (now : time) (sd : queuedAuthStore * queueDisk) (r : queuedAuthRecord) (reference : string) : Prop := mkStands {
  st_minted : exists rec, minted w now rec reference /\ r = (transition rec queuedEventPrepared QueuedAuthPrepared now).1;
  st_attached : qs_attached sd.1 = true;
  st_revision : qd_doc sd.2 <> None /\ qs_revision sd.1 = diskRevision sd.2 /\ qs_revision sd.1 <> 0;
  st_known : match qd_doc sd.2 with Some (_, raws) => Forall (fun raw => sr_known raw = true) raws | None => False end;
  st_stored : qs_records sd.1 !! recID r = Some r;
  st_clear : forall id other, qs_records sd.1 !! id = Some other -> id <> recID r ->
    sameIntent (qa_ContractSide r) (scope r) other = true -> occupying other = false
}.

Lemma update_stands {A} env w now rec reference y (mutate : queueRecords -> list string -> queueRecords * list queuedAuthEvent * A) a stored sd' :
  ranges env y -> keyed (qs_records (sy_store y)) -> 0 <= qs_revision (sy_store y) -> minted w now rec reference ->
  (forall working evs, mutate (qs_records (sy_store y)) (ue_order env) = (working, evs, a) ->
     takes rec (pw_scope w) now (qs_records (sy_store y)) (ue_order env) working evs stored) ->
  update env now mutate (state_of y) = (sd', Ok a) -> stands w now sd' stored reference.
Proof.
  intros Hr Hk Hpos Hmi Htakes Hu. pose proof (update_updated env now mutate (sy_store y) (sy_disk y)) as H. unfold state_of in Hu. rewrite Hu in H. cbn [fst snd] in H.
  destruct sd' as [s' d']. cbn [fst snd] in H. inversion H as [res Hres|working evs b s2 res Hm Hne Hrev Hatt [(_ & He)|(E & Hok)]]; subst; [|discriminate|injection Hok as <-].
  { destruct Hres as (_ & working & Hm). by destruct (Htakes _ _ Hm) as (_ & [] & _). }
  assert (Ht := Htakes _ _ Hm). pose proof (takes_clear _ _ _ _ _ _ _ _ Hk (order_NoDup _ _ Hr) (order_covers _ _ Hr) Ht) as Hclear.
  destruct Ht as (-> & _ & reason & m' & evs0 & outs & _ & -> & _). pose proof (mi_preparing _ _ _ _ Hmi) as Hprep.
  destruct Hprep as (terms & digest & side & ref & _ & Erec & Esc).
  split; cbn [qs_attached qs_revision qs_records fst snd]; [by exists rec | done | split_and!; [done | done | lia] | cbn; by apply Forall_map, Forall_forall | |].
  - apply map_lookup_filter_Some. split; [by rewrite lookup_insert_eq | done].
  - intros id other Hx Hne'. apply map_lookup_filter_Some in Hx as [Hx _]. rewrite Esc in Hclear. exact (Hclear id other Hx Hne').
Qed.

Lemma sameBrokerScope_refl sc : sameBrokerScope sc sc = true.
Proof. unfold sameBrokerScope. by rewrite !EqualFold_refl. Qed.

Lemma accepted_stands env w v now p y sd out err :
  ranges env y -> keyed (qs_records (sy_store y)) -> 0 <= qs_revision (sy_store y) ->
  prepare env w v now p (state_of y) = (sd, (out, err)) -> pz_Accepted out = true ->
  exists r, stands w now sd r (pz_QueuedRef out) /\ pz_Queue out = Some (view r).
Proof.
  intros Hr Hk Hpos Hp Ha. destruct (QueuePrepare_prepared _ _ _ _ _ _ _ _ _ Hp) as [_ Hn|rec reference res Hmi Hu Hout|rec reference res Hmi Hu Hout]; [congruence| |];
    destruct (Hout Ha) as (stored & -> & -> & Hq); exists stored; (split; [|done]);
    refine (update_stands env w now rec reference y _ _ stored sd Hr Hk Hpos Hmi _ Hu); intros working evs Hm.
  - apply prepareMutate_takes; [by eapply order_NoDup | exact Hm].
  - by apply prepareOwnerMutate_takes.
Qed.

(** A preparation is a step of the queue.  Whatever the request, the row, the
    position and the calendar are, QueuePrepare leaves the store and daemon.db as they
    were and refuses, or does exactly what the system's preparation of a record does,
    for a record of the connected account and mode under the freshly minted reference;
    when it is accepted, the record it answers is stored and prepared, and is to be
    armed within ten minutes. *)
Theorem preparation_is_a_step formatG env w v now p y sd out err :
  reachable termsDigest sha256 rowTermsDigest formatG y -> ranges env y -> (forall a b, pw_random w = Some (a, b) -> fresh (b64_encode a) y) ->
  prepare env w v now p (state_of y) = (sd, (out, err)) ->
  (sd = state_of y /\ pz_Accepted out = false \/ step termsDigest sha256 rowTermsDigest formatG y (put y sd)) /\
  (pz_Accepted out = true -> exists r, qs_records sd.1 !! recID r = Some r /\ qa_State r = QueuedAuthPrepared /\ pz_Queue out = Some (view r) /\
     sameBrokerScope (scope r) (pw_scope w) = true /\ qt_ArmDeadline (qa_Terms r) = now + queuedArmWindow).
Proof.
  intros Hy Hr Hf Hp. assert (Hinv := reachable_inv _ _ _ _ y Hy). split.
  - assert (Hfresh : forall rec reference, minted w now rec reference -> fresh (recID rec) y).
    { intros rec reference Hmi. destruct (mi_random _ _ _ _ Hmi) as (a & b & Hab & [= <- _]). by apply (Hf a b). }
    destruct (QueuePrepare_prepared _ _ _ _ _ _ _ _ _ Hp) as [-> Hn|rec reference res Hmi Hu _|rec reference res Hmi Hu _]; [by left| |]; right.
    + pose proof (step_prepare termsDigest sha256 rowTermsDigest formatG y env rec (pw_scope w) now Hr (mi_preparing _ _ _ _ Hmi) (Hfresh _ _ Hmi)) as H.
      by rewrite Hu in H.
    + pose proof (step_prepareOwner termsDigest sha256 rowTermsDigest formatG y env rec (pw_scope w) now Hr (mi_preparing _ _ _ _ Hmi) (Hfresh _ _ Hmi)) as H.
      by rewrite Hu in H.
  - intros Ha. destruct (accepted_stands _ _ _ _ _ _ _ _ _ Hr (si_keyed _ Hinv) (proj1 (si_rev _ Hinv)) Hp Ha) as (r & Hs & Hq).
    destruct (st_minted _ _ _ _ _ Hs) as (rec & Hmi & ->). exists (transition rec queuedEventPrepared QueuedAuthPrepared now).1.
    split_and!; [exact (st_stored _ _ _ _ _ Hs) | done | done | | exact (mi_deadline _ _ _ _ Hmi)].
    destruct (mi_preparing _ _ _ _ Hmi) as (terms & digest & side & ref & _ & _ & ->). apply sameBrokerScope_refl.
Qed.
End Prepare.
