(* ===== verification/QueueArming.v ===== *)
(** * From a preparation to its arm

    What the owner prepared (QueuePrepare) waits to be armed while the daemon goes on:
    other orders are prepared, armed and cancelled, the executor expires, recovers,
    follows, decides, places and records, commits fail or go unseen, the daemon
    restarts.  Proved over the queue's system of QueueSystem: none of it takes the
    prepared record away or occupies its contract side, so an arm with its reference
    and digest before the deadline is accepted
    (src/internal/daemon/proposal_queue.go, proposal_queue_executor.go). *)

From stdpp Require Import base decidable list strings gmap sorting relations.
From Stdlib Require Import ZArith Lia Ascii String SpecFloat.
From S2P Require Import Prelude Floats OrderTypes OrderStatus OrderFold BrokerScope OrderHistory GoTime MarketSpecs MarketCalendar.
From S2P Require Import OrderJournal WriteGate PreviewToken SendDisposition Base64 PositionEvidence DeltaReduction OrderRisk.
From S2P Require Import QueueRecord QueueStore QueueExec QueueFacts QueueSystem QueueSafety QueuePrepare.

Section Arming.
Context (format4 : float64 -> string) (rfc3339 : time -> string) (load : string -> option location) (clock : time)
        (rowTermsDigest : TradeProposal -> string) (termsDigest : QueuedAuthTerms -> option string) (sha256 : string -> string)
        (formatG : float64 -> string).
#[local] Abbreviation prepare := (QueuePrepare format4 rfc3339 load clock rowTermsDigest termsDigest sha256).
#[local] Abbreviation sysStep := (step termsDigest sha256 rowTermsDigest formatG).

(** ** Arming a record *)

Lemma leading {A B C} {x x' : A} {y y' : B} {z z' : C} : (x', y, z) = (x, y', z') -> x = x'.
Proof. by intros [= -> _ _]. Qed.
Lemma middle {A B C} {x x' : A} {y' y : B} {z z' : C} : (x, y', z) = (x', y, z') -> y = y'.
Proof. by intros [= _ -> _]. Qed.

Lemma otherOccupant_clear own r m order :
  (forall id other, m !! id = Some other -> id <> own -> sameIntent (qa_ContractSide r) (scope r) other = true -> occupying other = false) ->
  otherOccupant own r m order = [].
Proof.
  intros H. induction order as [|i order IH]; [done|]. cbn [otherOccupant]. destruct (m !! i) as [other|] eqn:Hm; [|done].
  destruct (i =s own) eqn:Ei; [done|]. cbn [orb]. destruct (sameIntent _ _ other) eqn:Es; [|done]. cbn [negb].
  assert (Ho := H i other Hm ltac:(by apply String.eqb_neq) Es). apply occupant_none in Ho. by rewrite Ho.
Qed.

Lemma update_commits {A} env now (mutate : queueRecords -> list string -> queueRecords * list queuedAuthEvent * A) s disk working evs a :
  qs_attached s = true -> qd_doc disk <> None -> qs_revision s = diskRevision disk -> qs_revision s <> 0 ->
  ue_encodes env = true -> ue_fault env = NoFault -> mutate (qs_records s) (ue_order env) = (working, evs, a) -> evs <> [] ->
  (update env now mutate (s, disk)).2 = Ok a.
Proof.
  intros Ha Hd Hrev Hz He Hf Hm Hne. unfold update. rewrite Ha, Hm, He. cbn [negb]. destruct evs as [|ev evs]; [done|].
  unfold casDocument. rewrite Hf. unfold diskRevision in Hrev. destruct (qd_doc disk) as [[rev raws]|]; [|done].
  rewrite Hrev, Z.eqb_refl in *. by rewrite (proj2 (Z.eqb_neq _ _) Hz).
Qed.

(** A minted reference parses back to its queue ID. *)
Lemma minted_reference_parses a b id reference : String.length a = 16%nat -> String.length b = 16%nat -> mintQueuedReference a b = (id, reference) ->
  TrimSpace reference = reference /\ parseQueuedReference reference = Ok id.
Proof.
  intros Ha Hb [= <- <-]. split.
  - apply TrimSpace_plain. cbn. by rewrite !free_of_app, !b64_no_space.
  - unfold parseQueuedReference, parseReferenceID.
    change (say _) with (String.append queuedReferencePrefix (String "." (String.append (b64_encode a) (String "." (b64_encode b))))).
    rewrite split_at_join by done. rewrite split_at_join by apply b64_no_dot. rewrite split_at_plain by apply b64_no_dot.
    by rewrite !b64_roundtrip, Ha, Hb, !eqb_s_refl.
Qed.

(** ** What happens meanwhile

    Every step of the queue's system but the acts that are meant for the record itself:
    a preparation or an arm of its contract side in its scope, a cancel that names it or
    all, the end of the mandate of a position that closed, and an expiry at or after its
    deadline. *)
Inductive meanwhile (r : queuedAuthRecord) (y : sys) : sys -> Prop :=
| mw_prepare env rec sc now :
    ranges env y -> preparing termsDigest sha256 rec sc now -> fresh (recID rec) y -> sameIntent (qa_ContractSide r) (scope r) rec = false ->
    meanwhile r y (put y (update env now (prepareMutate rec sc now) (state_of y)).1)
| mw_prepareOwner env rec sc now :
    ranges env y -> preparing termsDigest sha256 rec sc now -> fresh (recID rec) y -> sameIntent (qa_ContractSide r) (scope r) rec = false ->
    meanwhile r y (put y (update env now (prepareOwnerMutate rec sc now) (state_of y)).1)
| mw_arm env g now p :
    ranges env y ->
    (forall x, loadQueuedByReference sha256 (sy_store y) (ap_QueuedRef p) = Some x -> sameIntent (qa_ContractSide r) (scope r) x = false) ->
    meanwhile r y (put y (QueueArm termsDigest sha256 env g now p (state_of y)).1)
| mw_cancel env now p :
    ranges env y -> xp_All p = false -> TrimSpace (xp_QueueID p) <> recID r ->
    meanwhile r y (put y (QueueCancel env now p (state_of y)).1)
| mw_unreadable env now :
    ranges env y -> sy_phase y = Idle ->
    meanwhile r y (put y (update env now (fun m order => rangeRecords (unreadableTurn termsDigest now) order m) (state_of y)).1)
| mw_recover env startedAt now journal :
    sy_phase y = Idle ->
    let ids := stuckIDs startedAt now (sy_store y) in
    let sd := (update env now (over (recoverTurn startedAt now journal) ids) (state_of y)).1 in
    meanwhile r y (mkSys sd.1 sd.2 Idle (judgeStuck journal ids (qs_records (sy_store y)) (sy_open y)))
| mw_endFlat env now sc positions ids :
    sy_phase y = Idle -> Permutation ids (flatIDs (sy_store y) sc positions) -> recID r ∉ ids ->
    meanwhile r y (put y (update env now (over (endMandateTurn now) ids) (state_of y)).1)
| mw_expire env now :
    ranges env y -> sy_phase y = Idle -> now < qt_ArmDeadline (qa_Terms r) ->
    meanwhile r y (put y (update env now (fun m order => rangeRecords (expireTurn now) order m) (state_of y)).1)
| mw_follow env now views :
    sy_phase y = Idle ->
    meanwhile r y (put y (update env now (over (followTurn now views) (sentIDs (sy_store y))) (state_of y)).1)
| mw_decide env now w rec :
    sy_phase y = Idle -> rec ∈ list_ (sy_store y) -> due now rec = true ->
    meanwhile r y (match executeQueued termsDigest rowTermsDigest formatG w rec with
            | SendIt _ => match get (sy_store y) (recID rec) with
                          | Some current => if waiting current then mkSys (sy_store y) (sy_disk y) (Deciding current) (sy_open y) else y
                          | None => y
                          end
            | d => put y (applyDecision env now (recID rec) d (state_of y))
            end)
| mw_withdraw env now current d :
    sy_phase y = Deciding current ->
    let sd := applyDecision env now (recID current) d (state_of y) in
    meanwhile r y (mkSys sd.1 sd.2 Idle (sy_open y))
| mw_place env startedAt at_ current preview :
    sy_phase y = Deciding current ->
    (exists stamp tokenID, dr_OrderRef (op_Draft preview) = previewOrderRef stamp tokenID) ->
    meanwhile r y (match beforePlace termsDigest env startedAt at_ (recID current) (qa_Terms current) preview (state_of y) with
            | (sd, Ok _) => mkSys sd.1 sd.2 (Placing current (op_PreviewTokenID preview)) (sy_open y ++ [(recID current, op_PreviewTokenID preview)])
            | (sd, Err _) => put y sd
            end)
| mw_outcome env finish current token res err placeErr journal :
    sy_phase y = Placing current token ->
    let outcome := sendOutcome (qa_Terms current) token res err placeErr journal in
    let sd := (update env finish (onRecord (recID current) (outcomeTurn finish outcome res err placeErr)) (state_of y)).1 in
    meanwhile r y (mkSys sd.1 sd.2 Idle
              (if provesUnsent outcome.1 then List.filter (fun p => negb ((p.1 =s recID current) && (p.2 =s token))) (sy_open y) else sy_open y))
| mw_restart s :
    bindCore termsDigest (sy_disk y) = Ok s -> meanwhile r y (mkSys s (sy_disk y) Idle (sy_open y)).

Lemma meanwhile_step r y y' : meanwhile r y y' -> sysStep y y'.
Proof.
  destruct 1; [by apply step_prepare | by apply step_prepareOwner | by apply step_arm | by apply step_cancel | by apply step_unreadable
    | by apply step_recover | by eapply step_endFlat | by apply step_expire | by apply step_follow | by apply step_decide
    | by apply step_withdraw | by apply step_place | by apply step_outcome | by apply step_restart].
Qed.

(** ** What the steps leave alone *)

(** The records hold [r], and nothing else occupies its contract side and scope. *)
Definition holds (r : queuedAuthRecord) (m : queueRecords) : Prop :=
  m !! recID r = Some r /\
  forall id other, m !! id = Some other -> id <> recID r -> sameIntent (qa_ContractSide r) (scope r) other = true -> occupying other = false.

(** So do the memory and the disk, whose rows this build reads. *)
Record ready (r : queuedAuthRecord) (sd : queuedAuthStore * queueDisk) : Prop := mkReady {
  rd_attached : qs_attached sd.1 = true;
  rd_revision : 0 < diskRevision sd.2;
  rd_known : match qd_doc sd.2 with Some (_, raws) => Forall (fun raw => sr_known raw = true) raws | None => False end;
  rd_memory : holds r (qs_records sd.1);
  rd_disk : holds r (diskRecords sd.2)
}.

Section Undisturbed.
Context (r : queuedAuthRecord) (Hprep : qa_State r = QueuedAuthPrepared) (Hclean : qa_problem r = "")
        (Hok : queuedRecordProblem termsDigest r = "").

Lemma clean_own : clean r = r.
Proof. destruct r. cbn in Hclean. unfold clean. cbn. by rewrite Hclean. Qed.

Lemma holds_kept now w : holds r w -> holds r (keptRecords now w).
Proof.
  intros [H1 H2]. split.
  - apply map_lookup_filter_Some. split; [done|]. cbn. unfold outlived, final. by rewrite Hprep.
  - intros id other [Hx _]%map_lookup_filter_Some. by apply H2.
Qed.

Lemma holds_clean w : holds r w -> holds r (clean <$> w).
Proof.
  intros [H1 H2]. split; [by rewrite lookup_fmap, H1; cbn; rewrite clean_own|].
  intros id other Hx. rewrite lookup_fmap in Hx. apply fmap_Some in Hx as (x & Hx & ->). exact (H2 id x Hx).
Qed.

Lemma keyed_kept now w : keyed w -> keyed (keptRecords now w).
Proof. intros Hk id x [Hx _]%map_lookup_filter_Some. by apply Hk. Qed.

(** An update whose commits keep the record leaves it ready. *)
Lemma update_ready {A} env now (mutate : queueRecords -> list string -> queueRecords * list queuedAuthEvent * A) y :
  ready r (state_of y) ->
  (forall w evs a, mutate (qs_records (sy_store y)) (ue_order env) = (w, evs, a) -> evs <> [] -> keyed w /\ holds r w) ->
  ready r (update env now mutate (state_of y)).1.
Proof.
  intros [Ha Hr Hkn Hm Hd] Hkeep. cbn [state_of fst snd] in *. unfold state_of.
  destruct (update env now mutate (sy_store y, sy_disk y)) as [[s' d'] res] eqn:Hu.
  pose proof (update_updated env now mutate (sy_store y) (sy_disk y)) as H. rewrite Hu in H. cbn [fst snd] in H |- *.
  inversion H as [res' Hres|w evs a s2 res' Hmut Hne Hrev Hatt Hs']; subst; [by split|].
  destruct (Hkeep w evs a Hmut Hne) as [Hkw Hw].
  assert (Hdisk : holds r (diskRecords (committed (sy_disk y) (qs_revision (sy_store y)) now w evs))).
  { rewrite diskRecords_committed by (by apply keyed_kept). by apply holds_clean, holds_kept. }
  assert (Hrev' : 0 < diskRevision (committed (sy_disk y) (qs_revision (sy_store y)) now w evs))
    by (unfold diskRevision at 1; cbn [committed qd_doc]; lia).
  destruct Hs' as [(-> & _)|(-> & _)]; split; cbn [fst snd qs_attached qs_records]; try done;
    try (by cbn; apply Forall_map, Forall_forall); by apply holds_kept.
Qed.

(** A loop of lawful turns that does not touch the record. *)
Lemma range_keeps {O} (edit : queuedAuthRecord -> queuedAuthRecord * list queuedAuthEvent * list O) ids m w evs outs :
  keyed m -> NoDup ids -> (forall x, lawful x (edit x).1.2 (edit x).1.1) -> (recID r ∈ ids -> (edit r).1.1 = r) -> holds r m ->
  rangeRecords edit ids m = (w, evs, outs) -> keyed w /\ holds r w.
Proof.
  intros Hk Hnd Hl Hown [H1 H2] Hr. pose proof (rangeRecords_spec edit Hl ids m w evs outs Hk Hnd Hr) as Hspec.
  assert (Hfrom : forall id x', w !! id = Some x' -> exists x, m !! id = Some x /\ sameIdentity x x' /\ (occupying x' = true -> occupying x = true)).
  { intros id x' Hx. destruct (Hspec id) as [Hw _]. rewrite Hx in Hw. case_bool_decide.
    - symmetry in Hw. apply fmap_Some in Hw as (x & Hm & ->). exists x. split; [done|]. destruct (Hl x) as (? & _ & ?). done.
    - exists x'. split; [done|]. split; [apply sameIdentity_refl | done]. }
  split; [|split].
  - intros id x' Hx. destruct (Hfrom id x' Hx) as (x & Hm & Hi & _). rewrite (sameIdentity_id _ _ Hi). by apply Hk.
  - destruct (Hspec (recID r)) as [-> _]. case_bool_decide as Hin; [|done]. rewrite H1. cbn. by rewrite Hown.
  - intros id x' Hx Hne Hs. destruct (Hfrom id x' Hx) as (x & Hm & (_ & _ & Ht & _ & Hside & _) & Ho).
    apply not_true_is_false. intros Hocc. apply Ho in Hocc. rewrite (H2 id x Hm Hne) in Hocc; [done|].
    unfold sameIntent, scope in *. by rewrite <- Hside, <- Ht.
Qed.

Lemma turns_ready {O A} (turn : queuedAuthRecord -> queuedAuthRecord * list queuedAuthEvent * list O) env now
    (mutate : queueRecords -> list string -> queueRecords * list queuedAuthEvent * A) ids y :
  (forall x, lawful x (turn x).1.2 (turn x).1.1) -> NoDup ids -> (recID r ∈ ids -> (turn r).1.1 = r) ->
  (mutate (qs_records (sy_store y)) (ue_order env)).1 = (rangeRecords turn ids (qs_records (sy_store y))).1 ->
  sysInv y -> ready r (state_of y) -> ready r (update env now mutate (state_of y)).1.
Proof.
  intros Hl Hnd Hown Hmut Hy Hr. apply update_ready; [done|]. intros w evs a Hm _. rewrite Hm in Hmut. cbn [fst] in Hmut.
  destruct (rangeRecords turn ids (qs_records (sy_store y))) as [[w' evs'] outs] eqn:Hrange. injection Hmut as <- <-.
  exact (range_keeps turn ids _ w evs outs (si_keyed _ Hy) Hnd Hl Hown (rd_memory _ _ Hr) Hrange).
Qed.

Lemma not_waiting : waiting r = false.
Proof. unfold waiting. by rewrite Hprep. Qed.
Lemma not_followed : followed r = false.
Proof. unfold followed. rewrite Hprep. by rewrite andb_false_r. Qed.
Lemma not_sending : (qa_State r <>s QueuedAuthSending) = true.
Proof. by rewrite Hprep. Qed.

(** A preparation of another contract side or scope. *)
Lemma takes_keeps rec sc now m order working evs stored :
  keyed m -> NoDup order -> preparing termsDigest sha256 rec sc now -> m !! recID rec = None ->
  sameIntent (qa_ContractSide r) (scope r) rec = false -> holds r m -> takes rec sc now m order working evs stored ->
  keyed working /\ holds r working.
Proof.
  intros Hk Hnd (terms & digest & side & ref & _ & Erec & Esc) Hfresh Hother Hh (-> & _ & reason & m' & evs0 & outs & Hr & -> & _).
  assert (Hne : recID rec <> recID r) by (intros E; destruct Hh as [H1 _]; congruence).
  destruct (range_keeps (supersedeTurn (qa_ContractSide rec) sc reason now) order m m' evs0 outs Hk Hnd (supersedeTurn_lawful _ _ _ _)) as [Hk' [H1 H2]];
    [| done | done |].
  { intros _. unfold supersedeTurn. replace (sameIntent (qa_ContractSide rec) sc r) with false; [done|].
    symmetry. rewrite <- Hother, Esc. unfold sameIntent. rewrite sameBrokerScope_sym, String.eqb_sym. done. }
  split.
  - intros id x [[<- <-]|[_ Hx]]%lookup_insert_Some; [done | by apply Hk'].
  - split; [by rewrite lookup_insert_ne|]. intros id x [[<- <-]|[_ Hx]]%lookup_insert_Some; [|by apply H2].
    intros _ Hs. exfalso. unfold sameIntent, scope in Hs, Hother. cbn in Hs. congruence.
Qed.

Lemma arm_ready env g now p y : ranges env y -> sysInv y ->
  (forall x, loadQueuedByReference sha256 (sy_store y) (ap_QueuedRef p) = Some x -> sameIntent (qa_ContractSide r) (scope r) x = false) ->
  ready r (state_of y) -> ready r (QueueArm termsDigest sha256 env g now p (state_of y)).1.
Proof.
  intros Hr Hy Hother Hready. unfold QueueArm. change (state_of y) with (sy_store y, sy_disk y) in Hready |- *. cbv iota beta zeta.
  case_if; [done|]. case_if; [done|].
  destruct (loadQueuedByReference sha256 (sy_store y) (ap_QueuedRef p)) as [x|] eqn:Hload; [|done].
  specialize (Hother x eq_refl). change (qt_QueueID (qa_Terms x)) with (recID x).
  assert (Hne : recID x <> recID r).
  { intros E. unfold loadQueuedByReference in Hload. destruct (parseQueuedReference _) as [id|]; [|done]. unfold get in Hload.
    destruct (qs_records (sy_store y) !! id) as [x0|] eqn:Hx; [|done]. case_if_in Hload; [|done]. injection Hload as ->.
    assert (Hid := si_keyed _ Hy id x Hx). destruct (rd_memory _ _ Hready) as [H1 _]. cbn [fst] in H1. rewrite <- E, Hid, Hx in H1. injection H1 as ->.
    unfold sameIntent in Hother. by rewrite eqb_s_refl, sameBrokerScope_refl in Hother. }
  case_if; [done|]. case_if; [done|]. case_if; [done|]. case_if.
  { cbn [fst]. apply (turns_ready (unarmedTurn now) env now (expireUnarmedMutate (recID x) now) [recID x] y); try done.
    - intros z. apply unarmedTurn_ok.
    - apply NoDup_singleton.
    - by intros E%list_elem_of_singleton.
    - apply expireUnarmed_turn. }
  case_if; [done|]. case_if; [done|]. destruct (ag_automatic g); [|done].
  set (mutate := armMutate (recID x) p (ag_marks g) (ag_bookOK g) now).
  assert (Hup : ready r (update env now mutate (sy_store y, sy_disk y)).1).
  { apply (update_ready env now mutate y); [done|]. intros w evs [refused armed] Hm Hevs. unfold mutate, armMutate in Hm.
    destruct (qs_records (sy_store y) !! recID x) as [z|] eqn:Hz; [|destruct (Hevs (middle Hm))]. case_if_in Hm; [destruct (Hevs (middle Hm))|].
    destruct (otherOccupant _ _ _ _); [|destruct (Hevs (middle Hm))].
    unfold tagged in Hm. set (armed' := transition _ _ _ _) in Hm. rewrite (leading Hm). clear Hm.
    destruct (rd_memory _ _ Hready) as [H1 H2]. assert (Hid := si_keyed _ Hy _ z Hz).
    assert (z = x) as ->.
    { unfold loadQueuedByReference in Hload. destruct (parseQueuedReference _) as [id|]; [|done]. unfold get in Hload.
      destruct (qs_records (sy_store y) !! id) as [x0|] eqn:Hx; [|done]. case_if_in Hload; [|done]. injection Hload as ->.
      rewrite (si_keyed _ Hy id x Hx), Hx in Hz. congruence. }
    split.
    - intros id a [[<- <-]|[_ Ha]]%lookup_insert_Some; [done | by apply (si_keyed _ Hy)].
    - split; [by rewrite lookup_insert_ne|]. intros id a [[<- <-]|[_ Ha]]%lookup_insert_Some; [|by apply H2].
      intros _ Hs. exfalso. unfold sameIntent, scope in Hs, Hother. cbn in Hs. congruence. }
  destruct (update env now mutate (sy_store y, sy_disk y)) as [sd [[[|b bs] [a|]]|e]]; exact Hup.
Qed.

(** A restart reads the record back as it was. *)
Lemma restart_ready y s : sysInv y -> bindCore termsDigest (sy_disk y) = Ok s -> ready r (state_of y) -> ready r (s, sy_disk y).
Proof.
  intros Hy Hb Hr. destruct (bindCore_reads _ _ _ (si_doc _ Hy) Hb) as (_ & _ & Hsame).
  destruct Hr as [_ Hrev Hkn _ [D1 D2]]. cbn [state_of fst snd] in *.
  assert (Hatt : qs_attached s = true).
  { unfold bindCore in Hb. destruct (qd_doc (sy_disk y)) as [[? ?]|]; [|by injection Hb as <-]. case_if_in Hb; [by injection Hb as <- | discriminate]. }
  split; cbn [fst snd]; try done. split.
  - rewrite <- Hsame, lookup_fmap in D1. apply fmap_Some in D1 as (x & Hx & Hc). rewrite Hx. f_equal.
    assert (Hpx : qa_problem x = ""); [|destruct x; cbn in Hpx; rewrite Hc; unfold clean; cbn; by rewrite Hpx].
    assert (Hdoc := si_doc _ Hy). unfold docInv in Hdoc. unfold bindCore in Hb.
    destruct (qd_doc (sy_disk y)) as [[revision raws]|]; [|done]. case_if_in Hb; [|discriminate]. injection Hb as <-. cbn [qs_records] in Hx.
    rewrite fold_insert_map in Hx. apply elem_of_list_to_map_2, list_elem_of_In, in_map_iff in Hx as (x' & [= _ ->] & Hin).
    apply in_rev, in_map_iff in Hin as (raw & <- & Hin%list_elem_of_In). rewrite Forall_forall in Hkn. destruct Hdoc as [_ Hcl]. rewrite Forall_forall in Hcl.
    specialize (Hkn raw Hin). specialize (Hcl raw Hin). unfold decodeQueuedRecord in Hc |- *. rewrite Hkn in Hc |- *. cbn [qa_problem].
    assert (E : sr_rec raw = r) by (rewrite <- Hcl, Hc; done). rewrite E. exact Hok.
  - intros id other Ho Hne Hs. assert (Hd : diskRecords (sy_disk y) !! id = Some (clean other)) by (by rewrite <- Hsame, lookup_fmap, Ho).
    exact (D2 id (clean other) Hd Hne Hs).
Qed.

Lemma applyDecision_ready env now id d y : sysInv y -> ready r (state_of y) -> ready r (applyDecision env now id d (state_of y)).
Proof.
  intros Hy Hr. destruct d as [|code reason|code reason|prop]; cbn [applyDecision]; try done.
  - apply (turns_ready (holdTurn code (boundedQueuedReason reason) now) env now _ [id] y); try done; [intros x; apply holdTurn_lawful | apply NoDup_singleton|].
    intros _. unfold holdTurn. by rewrite not_waiting.
  - apply (turns_ready (cancelQueuedTurn code reason now) env now _ [id] y); try done; [intros x; apply cancelQueuedTurn_lawful | apply NoDup_singleton|].
    intros _. unfold cancelQueuedTurn. by rewrite not_waiting.
Qed.

Lemma cancel_ready env now p y : ranges env y -> sysInv y -> xp_All p = false -> TrimSpace (xp_QueueID p) <> recID r ->
  ready r (state_of y) -> ready r (QueueCancel env now p (state_of y)).1.
Proof.
  intros Hr Hy Hall Hid Hready. unfold QueueCancel. unfold state_of in *. cbv iota beta zeta. case_if; [done|]. case_if; [done|].
  set (turn := cancelTurn p _ _ _ now).
  assert (Hup : ready r (update env now (fun m order => rangeRecords turn order m) (sy_store y, sy_disk y)).1).
  { apply (turns_ready turn env now (fun m order => rangeRecords turn order m) (ue_order env) y); try done.
    - intros x. apply cancelTurn_lawful.
    - by eapply order_NoDup.
    - intros _. unfold turn, cancelTurn. rewrite Hall. cbn [negb andb]. by rewrite (proj2 (String.eqb_neq _ _)) by (intros E; exact (Hid (eq_sym E))). }
  destruct (update env now _ _) as [sd [outs|e]]; [|done]. case_if; [done|]. by destruct (singleOf _).
Qed.

Lemma place_ready env startedAt at_ id terms preview y : sysInv y -> ready r (state_of y) ->
  ready r (beforePlace termsDigest env startedAt at_ id terms preview (state_of y)).1.
Proof.
  intros Hy Hr. unfold beforePlace. case_if; [done|].
  set (turn := stageTurn termsDigest startedAt at_ preview).
  assert (Hup : ready r (update env at_ (fun m _ => rangeRecords turn [id] m) (state_of y)).1).
  { apply (turns_ready turn env at_ (fun m (_ : list string) => rangeRecords turn [id] m) [id] y); try done.
    - intros x. apply stageTurn_lawful.
    - apply NoDup_singleton.
    - intros _. unfold turn, stageTurn. by rewrite not_waiting. }
  destruct (update env at_ _ _) as [sd [why|e]]; [|done]. by case_if.
Qed.

Lemma prepare_ready env rec sc now y : ranges env y -> sysInv y -> preparing termsDigest sha256 rec sc now -> fresh (recID rec) y ->
  sameIntent (qa_ContractSide r) (scope r) rec = false -> ready r (state_of y) ->
  ready r (update env now (prepareMutate rec sc now) (state_of y)).1 /\ ready r (update env now (prepareOwnerMutate rec sc now) (state_of y)).1.
Proof.
  intros Hr Hy Hp (Hf & _) Hother Hready. assert (Hnd := order_NoDup _ _ Hr).
  split; (apply update_ready; [done|]; intros w evs [refused stored] Hm Hevs).
  - destruct refused as [|b bs].
    + apply prepareMutate_takes in Hm; [|done]. exact (takes_keeps rec sc now _ _ w evs stored (si_keyed _ Hy) Hnd Hp Hf Hother (rd_memory _ _ Hready) Hm).
    + unfold prepareMutate in Hm. destruct (supersedeOthers _ _ _ _ _) as [[m' evs0] [|]]; [discriminate | destruct (Hevs (middle Hm))].
  - destruct refused.
    + unfold prepareOwnerMutate in Hm. destruct (existsb _ _); [destruct (Hevs (middle Hm))|]. destruct (rangeRecords _ _ _) as [[m' evs0] outs]. discriminate.
    + apply prepareOwnerMutate_takes in Hm. exact (takes_keeps rec sc now _ _ w evs stored (si_keyed _ Hy) Hnd Hp Hf Hother (rd_memory _ _ Hready) Hm).
Qed.

Lemma meanwhile_ready y y' : sysInv y -> meanwhile r y y' -> ready r (state_of y) -> ready r (state_of y').
Proof.
  intros Hy Hm Hr. assert (Hk := si_keyed _ Hy). assert (Hsame : forall sd, state_of (put y sd) = sd) by (by intros []).
  assert (Hmk : forall (sd : queuedAuthStore * queueDisk) ph opens, state_of (mkSys sd.1 sd.2 ph opens) = sd) by (by intros []).
  destruct Hm as [env rec sc now Hra Hp Hf Ho|env rec sc now Hra Hp Hf Ho|env g now p Hra Ho|env now p Hra Hall Hid|env now Hra _|env startedAt now journal _ ids sd
    |env now sc positions ids _ Hids Hnot|env now Hra _ Hlt|env now views _|env now w rec _ _ _|env now current d _ sd|env startedAt at_ current preview _ _
    |env finish current token res err placeErr journal _ outcome sd|s Hb]; rewrite ?Hsame; try (subst sd; rewrite Hmk).
  - by apply prepare_ready.
  - by apply prepare_ready.
  - by apply arm_ready.
  - by apply cancel_ready.
  - apply (turns_ready (unreadableTurn termsDigest now) env now _ (ue_order env) y); try done; [intros x; apply unreadableTurn_lawful | by eapply order_NoDup|].
    intros _. unfold unreadableTurn. by rewrite Hok.
  - apply (turns_ready (recoverTurn startedAt now journal) env now _ ids y); try done; [intros x; apply recoverTurn_lawful | exact (ids_NoDup _ _ Hk)|].
    intros _. unfold recoverTurn. by rewrite not_sending.
  - apply (turns_ready (endMandateTurn now) env now _ ids y); try done; [intros x; apply endMandateTurn_lawful|].
    rewrite Hids. exact (ids_NoDup _ _ Hk).
  - apply (turns_ready (expireTurn now) env now _ (ue_order env) y); try done; [intros x; apply expireTurn_lawful | by eapply order_NoDup|].
    intros _. unfold expireTurn, Before. by rewrite not_waiting, (proj2 (Z.ltb_lt _ _) Hlt), andb_false_r.
  - apply (turns_ready (followTurn now views) env now _ (sentIDs (sy_store y)) y); try done; [intros x; apply followTurn_lawful | exact (ids_NoDup _ _ Hk)|].
    intros _. unfold followTurn. by rewrite not_followed.
  - destruct (executeQueued _ _ _ w rec) as [| | |prop]; rewrite ?Hsame; try by apply applyDecision_ready.
    destruct (get _ _) as [current|]; [|done]. by case_if.
  - by apply applyDecision_ready.
  - assert (Hpl := place_ready env startedAt at_ (recID current) (qa_Terms current) preview y Hy Hr).
    destruct (beforePlace _ _ _ _ _ _ _ _) as [sd [why|e]]; rewrite ?Hsame; [|done]. by destruct sd.
  - apply (turns_ready (outcomeTurn finish outcome res err placeErr) env finish _ [recID current] y); try done;
      [intros x; apply outcomeTurn_lawful | apply NoDup_singleton|]. intros _. unfold outcomeTurn. by rewrite not_sending.
  - exact (restart_ready y s Hy Hb Hr).
Qed.

Lemma meanwhiles_ready y y' : rtc (meanwhile r) y y' -> sysInv y -> ready r (state_of y) -> sysInv y' /\ ready r (state_of y').
Proof.
  induction 1 as [|a b c Hab _ IH]; intros Hy Hr; [done|]. apply IH; [|by eapply meanwhile_ready]. eapply step_inv; [by eapply meanwhile_step | done].
Qed.
End Undisturbed.

(** ** The arm *)

Lemma stands_minted w now sd r reference : stands termsDigest sha256 w now sd r reference ->
  qa_State r = QueuedAuthPrepared /\ qa_problem r = "" /\ queuedRecordProblem termsDigest r = "" /\ qt_ArmDeadline (qa_Terms r) = now + queuedArmWindow.
Proof.
  intros Hs. destruct (st_minted _ _ _ _ _ _ _ Hs) as (rec & Hmi & ->). pose proof (mi_preparing _ _ _ _ _ _ Hmi) as (terms & digest & side & ref & _ & Erec & _).
  split; [done|]. split; [by rewrite Erec|]. split; [exact (mi_arms _ _ _ _ _ _ Hmi) | exact (mi_deadline _ _ _ _ _ _ Hmi)].
Qed.

Lemma stands_ready w now y r reference : sysInv y -> stands termsDigest sha256 w now (state_of y) r reference -> ready r (state_of y).
Proof.
  intros Hy Hs. destruct (stands_minted _ _ _ _ _ Hs) as (Hprep & Hclean & Hok & _). destruct Hs as [_ Hatt (Hdoc & Hrev & Hz) Hkn Hst Hcl]. cbn [state_of fst snd] in *.
  assert (Hm : holds r (qs_records (sy_store y))) by (by split).
  split; cbn [state_of fst snd]; try done.
  - pose proof (si_rev _ Hy). lia.
  - rewrite <- (si_same _ Hy Hrev). by apply (holds_clean r).
Qed.

(** A ready record is armed by its reference and digest. *)
Lemma ready_arms w now sd0 y r reference env g later q a b :
  stands termsDigest sha256 w now sd0 r reference -> ready r (state_of y) -> qs_revision (sy_store y) = diskRevision (sy_disk y) ->
  pw_random w = Some (a, b) -> String.length a = 16%nat -> String.length b = 16%nat ->
  ap_QueuedRef q = reference -> ToLower (TrimSpace (ap_TermsDigest q)) = qa_TermsDigest r ->
  ((queuedEnvelopeMaxBytes <? Z.of_nat (String.length (ap_Envelope q))) || (queuedIdentityMaxBytes <? Z.of_nat (String.length (ap_DeskActionID q))) ||
    (queuedIdentityMaxBytes <? Z.of_nat (String.length (ap_Credential q)))) = false ->
  later < now + queuedArmWindow -> ag_fastPath g = true -> ag_scope g = pw_scope w -> ag_automatic g = [] ->
  ue_encodes env = true -> ue_fault env = NoFault ->
  exists sd' res armed, QueueArm termsDigest sha256 env g later q (state_of y) = (sd', Ok res) /\ qr_Accepted res = true /\
    qr_Queue res = Some (view armed) /\ qa_State armed = QueuedAuthArmed /\ qa_Terms armed = qa_Terms r.
Proof.
  intros Hs [Hatt Hpos Hkn [Hst Hclear] _] Hrev Hrand Hla Hlb Href Hdig Hlen Hlater Hfast Hsc Hauto Henc Hfault.
  destruct (stands_minted _ _ _ _ _ Hs) as (Hprep & _ & Hprob & Hdl). destruct (st_minted _ _ _ _ _ _ _ Hs) as (rec & Hmi & Er).
  unfold state_of in *. cbn [fst snd] in *. set (s := sy_store y) in *. set (disk := sy_disk y) in *.
  destruct (mi_random _ _ _ _ _ _ Hmi) as (a' & b' & Hr' & Hmint). rewrite Hrand in Hr'. injection Hr' as <- <-.
  destruct (minted_reference_parses a b _ _ Hla Hlb Hmint) as [Htrim Hparse]. assert (Hid : recID r = recID rec) by (by rewrite Er).
  assert (Hload : loadQueuedByReference sha256 s (ap_QueuedRef q) = Some r).
  { unfold loadQueuedByReference. rewrite Href, Htrim, Hparse. unfold get. rewrite <- Hid, Hst.
    assert (E : qa_ReferenceHash r = sha256 reference) by (rewrite Er; exact (mi_hash _ _ _ _ _ _ Hmi)). by rewrite E, eqb_s_refl. }
  assert (Hbefore : Before later (qt_ArmDeadline (qa_Terms r)) = true) by (rewrite Hdl; by apply Z.ltb_lt).
  assert (Hscope : sameBrokerScope (pw_scope w) (scope r) = true).
  { destruct (mi_preparing _ _ _ _ _ _ Hmi) as (terms & digest & side & ref & _ & _ & ->). rewrite Er. apply sameBrokerScope_refl. }
  unfold QueueArm, attached. rewrite Hatt, Hlen, Hload, Hprob, Hdig, Hbefore, Hfast, Hsc, (mi_concrete _ _ _ _ _ _ Hmi), Hscope, Hauto, Hprep.
  change (QueuedAuthPrepared <>s QueuedAuthPrepared) with false. rewrite (eqb_s_refl (qa_TermsDigest r)), andb_false_r. cbn [negb orb]. cbv zeta. fold (recID r).
  set (mutate := armMutate (recID r) q (ag_marks g) (ag_bookOK g) later).
  assert (Hm : exists working evs armed, mutate (qs_records s) (ue_order env) = (working, evs, ([], Some armed)) /\ evs <> [] /\
            qa_State armed = QueuedAuthArmed /\ qa_Terms armed = qa_Terms r).
  { unfold mutate, armMutate. rewrite Hst, Hbefore, Hprep. change (QueuedAuthPrepared <>s QueuedAuthPrepared) with false. cbn [negb orb].
    rewrite (otherOccupant_clear (recID r) r (qs_records s) (ue_order env)) by exact Hclear. do 3 eexists. split; [reflexivity | done]. }
  destruct Hm as (working & evs & armed & Hm & Hne & Hs1 & Hs2).
  assert (Hdoc : qd_doc disk <> None) by (by destruct (qd_doc disk)).
  pose proof (update_commits env later mutate s disk working evs _ Hatt Hdoc Hrev ltac:(lia) Henc Hfault Hm Hne) as Hup.
  destruct (update env later mutate (s, disk)) as [sd' res]. cbn [snd] in Hup. subst res. exists sd'. eexists. exists armed. split; [reflexivity|]. by split_and!.
Qed.

(** C20. What the owner was shown stays there to be armed.  An accepted preparation
    stores a prepared record with an arm deadline ten minutes on; whatever the daemon
    does then - other orders prepared, armed, cancelled, held, sent and followed, the
    expiry pass at any time before the deadline, commits that fail or go unseen,
    restarts - an arm with the answered reference and terms digest, in the same account
    and mode before the deadline, is accepted and arms exactly the terms that were
    shown.  Excepted are the acts meant for the record itself: a preparation or an arm
    of the same contract side and scope, a cancel of it or of all, the end of the
    mandate of its closed position.  Assumed: the two random values are 16 bytes and
    their ID is new, a digest is lower-case hexadecimal, the store has seen every commit
    and commits the arm, the fast path is on, the pre-authorised scheduler does not
    object, and the envelope, desk action and credential keep to their byte limits. *)
Theorem prepared_order_can_be_armed env w v now p y sd out err :
  reachable termsDigest sha256 rowTermsDigest formatG y -> ranges env y -> prepare env w v now p (state_of y) = (sd, (out, err)) -> pz_Accepted out = true ->
  (forall a b, pw_random w = Some (a, b) -> fresh (b64_encode a) y /\ String.length a = 16%nat /\ String.length b = 16%nat) ->
  (forall t d, termsDigest t = Some d -> ToLower (TrimSpace d) = d) ->
  exists r, qs_records sd.1 !! recID r = Some r /\ pz_Queue out = Some (view r) /\ qt_ArmDeadline (qa_Terms r) = now + queuedArmWindow /\
  forall y' env' g later q,
    rtc (meanwhile r) (put y sd) y' -> qs_revision (sy_store y') = diskRevision (sy_disk y') ->
    ap_QueuedRef q = pz_QueuedRef out -> Some (ap_TermsDigest q) = option_map qv_TermsDigest (pz_Queue out) ->
    Z.of_nat (String.length (ap_Envelope q)) <= queuedEnvelopeMaxBytes -> Z.of_nat (String.length (ap_DeskActionID q)) <= queuedIdentityMaxBytes ->
    Z.of_nat (String.length (ap_Credential q)) <= queuedIdentityMaxBytes ->
    later < now + queuedArmWindow -> ag_fastPath g = true -> ag_scope g = pw_scope w -> ag_automatic g = [] ->
    ue_encodes env' = true -> ue_fault env' = NoFault ->
    exists sd' res, QueueArm termsDigest sha256 env' g later q (state_of y') = (sd', Ok res) /\ qr_Accepted res = true /\
      option_map qv_State (qr_Queue res) = Some QueuedAuthArmed /\ option_map qv_Terms (qr_Queue res) = option_map qv_Terms (pz_Queue out).
Proof.
  intros Hy Hr Hp Ha Hrand Hhex. assert (Hinv := reachable_inv _ _ _ _ y Hy).
  destruct (accepted_stands _ _ _ _ _ _ _ _ _ _ _ _ _ _ _ _ Hr (si_keyed _ Hinv) (proj1 (si_rev _ Hinv)) Hp Ha) as (r & Hs & Hq).
  destruct (stands_minted _ _ _ _ _ Hs) as (Hprep & Hclean & Hok & Hdl). exists r. split; [exact (st_stored _ _ _ _ _ _ _ Hs)|]. split; [done|]. split; [done|].
  intros y' env' g later q Hrun Hsync Href Hdig L1 L2 L3 Hlater Hfast Hsc Hauto Henc Hfault.
  assert (Hinv1 : sysInv (put y sd)).
  { destruct (QueuePrepare_prepared _ _ _ _ _ _ _ _ _ _ _ _ _ _ _ _ Hp) as [-> Hn|rec reference res Hmi Hu _|rec reference res Hmi Hu _]; [congruence| |];
      destruct (mi_random _ _ _ _ _ _ Hmi) as (a & b & Hab & [= Hida _]); destruct (Hrand a b Hab) as [Hf _]; rewrite Hida in Hf.
    - pose proof (prepare_inv _ _ env rec _ now y Hr (mi_preparing _ _ _ _ _ _ Hmi) Hf Hinv) as H. by rewrite Hu in H.
    - pose proof (prepareOwner_inv _ _ env rec _ now y Hr (mi_preparing _ _ _ _ _ _ Hmi) Hf Hinv) as H. by rewrite Hu in H. }
  assert (Hs1 : stands termsDigest sha256 w now (state_of (put y sd)) r (pz_QueuedRef out)) by (by destruct sd).
  destruct (meanwhiles_ready r Hprep Hclean Hok _ _ Hrun Hinv1 (stands_ready _ _ _ _ _ Hinv1 Hs1)) as [_ Hready].
  destruct (st_minted _ _ _ _ _ _ _ Hs) as (rec & Hmi & Er). destruct (mi_random _ _ _ _ _ _ Hmi) as (a & b & Hab & _). destruct (Hrand a b Hab) as (_ & Hla & Hlb).
  rewrite Hq in Hdig |- *. injection Hdig as Hdig.
  assert (Hd : ToLower (TrimSpace (ap_TermsDigest q)) = qa_TermsDigest r) by (rewrite Hdig; apply (Hhex (qa_Terms r)); by apply no_problem_digest).
  destruct (ready_arms w now sd y' r _ env' g later q a b Hs Hready Hsync Hab Hla Hlb Href Hd) as (sd' & res & armed & H1 & H2 & H3 & H4 & H5); try done.
  { rewrite !orb_false_iff, !Z.ltb_ge. done. }
  exists sd', res. split_and!; [done | done | by rewrite H3; cbn; rewrite H4 | by rewrite H3; cbn; rewrite H5].
Qed.
End Arming.
