(* ===== verification/QueuePrepareRun.v ===== *)
(** * A queue prepared on a holiday

    On the observed Independence Day of 2026 a budget reduction of 10 shares is queued:
    its window starts five minutes after Monday's open.  The theorems of QueuePrepare
    and QueueArming are applied to the preparation, and to the arm that follows an expiry
    pass and a restart. *)

From stdpp Require Import base decidable list strings gmap sorting relations.
From Stdlib Require Import ZArith Lia Ascii String SpecFloat.
From S2P Require Import Prelude Floats OrderTypes OrderStatus OrderFold BrokerScope OrderHistory GoTime MarketSpecs MarketCalendar WriteGate Base64.
From S2P Require Import PositionEvidence OrderRisk QueueRecord QueueStore QueueExec QueueFacts QueueSystem QueueSafety QueueRun QueuePrepare QueueArming.

Module PrepareRun.

(** Stand-ins for the digests and the texts of numbers and times. *)
Definition termsDigest (t : QueuedAuthTerms) : option string := Some (if qt_MaxQuantity t =? 10 then "0a" else "00").
Definition sha256 (s : string) : string := s.
Definition rowTermsDigest (p : TradeProposal) : string := pr_Key p.
Definition formatG (_ : float64) : string := "".
Definition format4 (_ : float64) : string := "".
Definition rfc3339 (_ : time) : string := "".

Definition row : TradeProposal :=
  Run.row <| pr_Bucket := TradeProposalBucketBudgetReduction |> <| pr_LimitPrice := Some (f_of_Z 100) |> <| pr_CreatedAt := july3 |>.
Definition session : option Session := previewSession loadNewYork 0 MarketUSEquity july3.
Definition spreads : spreadPolicy := mkSpreads f0 f0 f0.
Definition random : option (string * string) := Some ("0123456789abcdef", "fedcba9876543210").
Definition holidayWorld : prepareWorld :=
  mkPrepareWorld true (fun _ _ => (row, [], None)) Run.scope0 (Some (spreads, zero_Fingerprint)) false (fun _ _ => [])
    (mkReadinessWorld false true (Some MarketUSEquity) session false None) (fun _ => []) random.
Definition owner : ownerPrepareWorld := mkOwnerPrepareWorld false true Ok (fun _ _ _ => Err "not asked") (fun _ => false).
Definition holidayRequest : prepareParams := mkPrepareParams false None f0 "" "" false "row-1" "" 0.

Definition holidayAnswer : (queuedAuthStore * queueDisk) * (prepareResult * option string) :=
  QueuePrepare format4 rfc3339 loadNewYork 0 rowTermsDigest termsDigest sha256 (Run.env []) holidayWorld owner july3 holidayRequest (state_of initial).
Definition signed : QueuedAuthTerms := match pz_Queue holidayAnswer.2.1 with Some q => qv_Terms q | None => zero_Terms end.

(** The window: Monday 6 July 2026, 13:35 to 14:35 UTC; 10 shares at 75 or better. *)
Example holiday_window :
  (qt_Market signed, qt_SessionDate signed, qt_NotBefore signed, qt_NotAfter signed, qt_MaxQuantity signed, qt_WorstPrice signed =f f_of_Z 75) =
  (MarketUSEquity, "2026-07-06", (739802 * daySeconds + 48900) * Second, (739802 * daySeconds + 52500) * Second, 10, true).
Proof. vm_compute. reflexivity. Qed.

(** ** The theorems on it *)

Definition fixed : QueuedAuthTerms :=
  match queuedTerms loadNewYork 0 rowTermsDigest false row spreads zero_Fingerprint 0 Run.scope0 july3 with Ok t => t | Err _ => zero_Terms end.

Lemma fixed_terms : queuedTerms loadNewYork 0 rowTermsDigest false row spreads zero_Fingerprint 0 Run.scope0 july3 = Ok fixed.
Proof. vm_compute. reflexivity. Qed.
Lemma fixed_market : mapGet (qt_Market fixed) specs = Some specUSEquity.
Proof. vm_compute. reflexivity. Qed.
Lemma fixed_zone : loadNewYork (sp_timezone specUSEquity) = Some newYork.
Proof. reflexivity. Qed.
Lemma fixed_date : qt_NotBefore fixed <> 0 /\ firstDay specUSEquity <= localDay newYork (qt_NotBefore fixed) <= lastDay specUSEquity.
Proof. vm_compute. split; [discriminate | split; discriminate]. Qed.

Lemma half_hour_inside : qt_NotBefore fixed <= qt_NotBefore fixed + 30 * Minute < qt_NotAfter fixed.
Proof. vm_compute. split; [discriminate | reflexivity]. Qed.

Lemma signed_window_trades_throughout_witness :
  july3 < qt_NotAfter fixed /\ trading specUSEquity newYork (qt_NotBefore fixed + 30 * Minute).
Proof.
  destruct fixed_date as [H0 H1].
  destruct (signed_window_trades_throughout loadNewYork 0 rowTermsDigest false row spreads zero_Fingerprint 0 Run.scope0 july3 fixed
    specUSEquity newYork fixed_terms fixed_market fixed_zone newYork_laws H0 H1) as (Hn & _ & Ht).
  split; [exact Hn | exact (Ht _ half_hour_inside)].
Defined.

Lemma starts : reachable termsDigest sha256 rowTermsDigest formatG initial.
Proof. constructor. Qed.
Lemma ranges_none : ranges (Run.env []) initial.
Proof. constructor. Qed.
Lemma fresh_random a b : pw_random holidayWorld = Some (a, b) -> fresh (b64_encode a) initial.
Proof. intros _. split; [apply lookup_empty | done]. Qed.
Lemma triple {A B C} (x : A * (B * C)) : x = (x.1, (x.2.1, x.2.2)).
Proof. by destruct x as [a [b c]]. Qed.
Lemma answered :
  QueuePrepare format4 rfc3339 loadNewYork 0 rowTermsDigest termsDigest sha256 (Run.env []) holidayWorld owner july3 holidayRequest (state_of initial) =
  (holidayAnswer.1, (holidayAnswer.2.1, holidayAnswer.2.2)).
Proof. unfold holidayAnswer. apply triple. Qed.
Lemma accepted : pz_Accepted holidayAnswer.2.1 = true.
Proof. vm_compute. reflexivity. Qed.

Lemma preparation_is_a_step_witness :
  holidayAnswer.1 = state_of initial /\ pz_Accepted holidayAnswer.2.1 = false \/ step termsDigest sha256 rowTermsDigest formatG initial (put initial holidayAnswer.1).
Proof.
  exact (proj1 (preparation_is_a_step format4 rfc3339 loadNewYork 0 rowTermsDigest termsDigest sha256 formatG (Run.env []) holidayWorld owner july3 holidayRequest
    initial holidayAnswer.1 holidayAnswer.2.1 holidayAnswer.2.2 starts ranges_none fresh_random answered)).
Defined.

Definition sign : armParams := mkArm (pz_QueuedRef holidayAnswer.2.1) "0a" "action-1" "key-1" "" "cli".

Lemma random_new a b : pw_random holidayWorld = Some (a, b) -> fresh (b64_encode a) initial /\ String.length a = 16%nat /\ String.length b = 16%nat.
Proof. intros E. split; [exact (fresh_random a b E) | by injection E as <- <-]. Qed.
Lemma digest_hex t d : termsDigest t = Some d -> ToLower (TrimSpace d) = d.
Proof. unfold termsDigest. by case_if; intros [= <-]. Qed.
Lemma signs : Some (ap_TermsDigest sign) = option_map qv_TermsDigest (pz_Queue holidayAnswer.2.1).
Proof. vm_compute. reflexivity. Qed.

(** A minute later: the expiry pass has run and the daemon has restarted. *)
Definition expired : sys :=
  put (put initial holidayAnswer.1)
    (update (Run.env [Run.id]) (july3 + Second) (fun m order => rangeRecords (expireTurn (july3 + Second)) order m) (state_of (put initial holidayAnswer.1))).1.
Definition reloaded : queuedAuthStore := match bindCore termsDigest (sy_disk expired) with Ok s => s | Err _ => mkQStore false 0 ∅ end.
Definition restarted : sys := mkSys reloaded (sy_disk expired) Idle (sy_open expired).

Lemma ranges_one : ranges (Run.env [Run.id]) (put initial holidayAnswer.1).
Proof.
  unfold ranges. assert (E : (map_to_list (qs_records (sy_store (put initial holidayAnswer.1)))).*1 = [Run.id]) by (vm_compute; reflexivity).
  rewrite E. reflexivity.
Qed.
Lemma reloads : bindCore termsDigest (sy_disk expired) = Ok reloaded.
Proof. vm_compute. reflexivity. Qed.
Lemma in_step : qs_revision (sy_store restarted) = diskRevision (sy_disk restarted).
Proof. vm_compute. reflexivity. Qed.

Lemma minute_waits r : qt_ArmDeadline (qa_Terms r) = july3 + queuedArmWindow -> rtc (meanwhile rowTermsDigest termsDigest sha256 formatG r) (put initial holidayAnswer.1) restarted.
Proof.
  intros Hd. apply (rtc_l _ _ expired).
  - apply mw_expire; [exact ranges_one | reflexivity|]. rewrite Hd. reflexivity.
  - apply rtc_once. apply mw_restart. exact reloads.
Qed.

Lemma prepared_order_can_be_armed_witness : exists sd res,
  QueueArm termsDigest sha256 (Run.env [Run.id]) Run.gates (july3 + Minute) sign (state_of restarted) = (sd, Ok res) /\ qr_Accepted res = true /\
  option_map qv_State (qr_Queue res) = Some QueuedAuthArmed /\ option_map qv_Terms (qr_Queue res) = option_map qv_Terms (pz_Queue holidayAnswer.2.1).
Proof.
  destruct (prepared_order_can_be_armed format4 rfc3339 loadNewYork 0 rowTermsDigest termsDigest sha256 formatG (Run.env []) holidayWorld owner july3 holidayRequest
    initial holidayAnswer.1 holidayAnswer.2.1 holidayAnswer.2.2 starts ranges_none answered accepted random_new digest_hex) as (r & _ & _ & Hd & Harm).
  exact (Harm restarted (Run.env [Run.id]) Run.gates (july3 + Minute) sign (minute_waits r Hd) in_step
    eq_refl signs ltac:(discriminate) ltac:(discriminate) ltac:(discriminate) ltac:(unfold july3, Minute, queuedArmWindow; reflexivity) eq_refl eq_refl eq_refl eq_refl eq_refl).
Defined.
End PrepareRun.
