(* ===== verification/AutoRecord.v ===== *)
(** * Pre-authorised submissions: records, store and settling rule

    src/internal/daemon/proposal_automatic.go: the durable record of one automatic
    submission (its veto window, notice and outcome), the store that commits every
    change of the records with its events, the settling rule and the classifiers of a
    refusal; automatic_notice_identity.go; the batch order of mandate_reduction.go and
    cash_sweep_priority.go.  Go's durations are printed and parsed by arguments, and so
    is the digest of a notice. *)

From stdpp Require Import base decidable list strings gmap sorting.
From Stdlib Require Import ZArith Lia Ascii String SpecFloat.
From S2P Require Import Prelude Floats OrderTypes OrderStatus OrderFold BrokerScope OrderJournal WriteGate PreviewToken SendDisposition.
From S2P Require Import OrderKeys Reconcile WorkingOrders OrderRisk QueueRecord QueueStore QueueExec.

(** ** Records *)

Definition TradeProposalAutomaticPending : string := "pending".
Definition TradeProposalAutomaticDeferred : string := "deferred".
Definition TradeProposalAutomaticSubmitting : string := "submitting".
Definition TradeProposalAutomaticVetoed : string := "vetoed".
Definition TradeProposalAutomaticSubmitted : string := "submitted".
Definition TradeProposalAutomaticSuperseded : string := "superseded".
Definition TradeProposalAutomaticFailed : string := "failed".

Definition automaticEventCreated : string := "created".
Definition automaticEventNoticed : string := "noticed".
Definition automaticEventVetoed : string := "vetoed".
Definition automaticEventSubmitting : string := "submitting".
Definition automaticEventSubmitted : string := "submitted".
Definition automaticEventSuperseded : string := "superseded".
Definition automaticEventFailed : string := "failed".
Definition automaticEventDeferred : string := "deferred".
Definition automaticEventHeld : string := "held".
Definition automaticEventRescheduled : string := "rescheduled".
Definition automaticEventRetryScheduled : string := "retry_scheduled".
Definition automaticDeferRetry : Z := Minute.
Definition automaticDocumentVersion : Z := 1.

Record automaticSubmissionRecord := mkAuto {
  au_Version : Z; au_Key : string; au_Revision : string; au_Bucket : string; au_EngineBucket : string; au_Symbol : string;
  au_SecType : string; au_Action : string; au_Quantity : Z; au_AccountID : string; au_AccountMode : string; au_State : string;
  au_VetoWindow : string; au_LatchSkippedWindow : bool; au_ArmedAt : time; au_CreatedAt : time; au_SubmitAt : time;
  au_NoticedAt : time; au_VetoedAt : time; au_SubmittingAt : time; au_SubmittedAt : time; au_ResolvedAt : time;
  au_PreviewTokenID : string; au_OrderRef : string; au_Reason : string; au_FailureFinal : bool; au_Origin : string;
  au_DeferredAt : time; au_ResubmitAt : time; au_HeldAt : time; au_HoldReason : string; au_SettlingBaseline : list string;
  au_SettlingBaselineKnown : bool; au_Episode : string; au_ClockQuantity : Z; au_CarryClock : bool
}.
#[global] Instance auto_eta : Eta automaticSubmissionRecord := fun r => mkAuto
  (au_Version r) (au_Key r) (au_Revision r) (au_Bucket r) (au_EngineBucket r) (au_Symbol r) (au_SecType r) (au_Action r) (au_Quantity r)
  (au_AccountID r) (au_AccountMode r) (au_State r) (au_VetoWindow r) (au_LatchSkippedWindow r) (au_ArmedAt r) (au_CreatedAt r)
  (au_SubmitAt r) (au_NoticedAt r) (au_VetoedAt r) (au_SubmittingAt r) (au_SubmittedAt r) (au_ResolvedAt r) (au_PreviewTokenID r)
  (au_OrderRef r) (au_Reason r) (au_FailureFinal r) (au_Origin r) (au_DeferredAt r) (au_ResubmitAt r) (au_HeldAt r) (au_HoldReason r)
  (au_SettlingBaseline r) (au_SettlingBaselineKnown r) (au_Episode r) (au_ClockQuantity r) (au_CarryClock r).
Definition zero_Auto : automaticSubmissionRecord :=
  mkAuto 0 "" "" "" "" "" "" "" 0 "" "" "" "" false 0 0 0 0 0 0 0 0 "" "" "" false "" 0 0 0 "" [] false "" 0 false.

Definition clockQuantity (r : automaticSubmissionRecord) : Z := if 0 <? au_ClockQuantity r then au_ClockQuantity r else au_Quantity r.
Definition pending (r : automaticSubmissionRecord) : bool := au_State r =s TradeProposalAutomaticPending.
Definition deferred (r : automaticSubmissionRecord) : bool := au_State r =s TradeProposalAutomaticDeferred.
Definition autoWaiting (r : automaticSubmissionRecord) : bool := pending r || deferred r.

Definition autoDue (r : automaticSubmissionRecord) (now : time) (frozen : bool) : bool :=
  if pending r then
    negb (Before now (au_SubmitAt r)) && negb (Before now (au_ResubmitAt r)) && (negb (IsZero (au_NoticedAt r)) || au_LatchSkippedWindow r)
  else if deferred r then negb frozen && negb (Before now (au_ResubmitAt r))
  else false.

Definition autoTerminal (r : automaticSubmissionRecord) : bool :=
  one_of (au_State r) [TradeProposalAutomaticVetoed; TradeProposalAutomaticSubmitted; TradeProposalAutomaticSuperseded; TradeProposalAutomaticFailed].

Definition autoScope (r : automaticSubmissionRecord) : brokerStateScope := mkScope (au_AccountID r) (au_AccountMode r).

Definition automaticRecordKey (key revision : string) : string := say [TrimSpace key; "|"; TrimSpace revision].
Definition autoKey (r : automaticSubmissionRecord) : string := automaticRecordKey (au_Key r) (au_Revision r).

(** ** Events *)

Record automaticSubmissionEvent := mkAutoEvent {
  ae_At : time; ae_Type : string; ae_Key : string; ae_Revision : string; ae_Bucket : string; ae_State : string; ae_AccountID : string;
  ae_AccountMode : string; ae_SubmitAt : time; ae_ResubmitAt : time; ae_OrderRef : string; ae_Origin : string; ae_Reason : string
}.
#[global] Instance autoEvent_eta : Eta automaticSubmissionEvent := fun e => mkAutoEvent
  (ae_At e) (ae_Type e) (ae_Key e) (ae_Revision e) (ae_Bucket e) (ae_State e) (ae_AccountID e) (ae_AccountMode e) (ae_SubmitAt e)
  (ae_ResubmitAt e) (ae_OrderRef e) (ae_Origin e) (ae_Reason e).

(** The fields every event of a record carries. *)
Definition eventOf (r : automaticSubmissionRecord) (type : string) (at_ : time) : automaticSubmissionEvent :=
  mkAutoEvent at_ type (au_Key r) (au_Revision r) (au_Bucket r) (au_State r) (au_AccountID r) (au_AccountMode r) 0 0 "" "" "".

(** ** The store *)

Abbreviation autoRecords := (gmap string automaticSubmissionRecord).

Record autoDisk := mkAutoDisk { ad_doc : option (Z * list automaticSubmissionRecord); ad_log : list automaticSubmissionEvent }.
Record automaticSubmissionStore := mkAutoStore { as_attached : bool; as_revision : Z; as_records : autoRecords }.

(** sort.Slice of listLocked. *)
Definition createdLE (a b : automaticSubmissionRecord) : bool :=
  if au_CreatedAt a =? au_CreatedAt b then String.leb (autoKey a) (autoKey b) else Before (au_CreatedAt a) (au_CreatedAt b).
Definition autoList (s : automaticSubmissionStore) : list automaticSubmissionRecord := stable_sort createdLE (map_to_list (as_records s)).*2.

(** The document's records, by record key. *)
Definition keyLE (a b : automaticSubmissionRecord) : bool := String.leb (autoKey a) (autoKey b).
Definition docRecords (m : autoRecords) : list automaticSubmissionRecord := stable_sort keyLE (map_to_list m).*2.

Definition autoGet (s : automaticSubmissionStore) (key revision : string) : option automaticSubmissionRecord := as_records s !! automaticRecordKey key revision.

(** CompareAndSwapStateDocumentWithEvents on the scheduler's document. *)
Definition autoCAS (disk : autoDisk) (expected : Z) (doc : list automaticSubmissionRecord) (events : list automaticSubmissionEvent)
    (fault : commitFault) : autoDisk * result string Z :=
  let swapped := mkAutoDisk (Some (expected + 1, doc)) (ad_log disk ++ events) in
  let holds :=
    match ad_doc disk with
    | None => expected =? 0
    | Some (revision, _) => negb (expected =? 0) && (revision =? expected)
    end in
  match fault with
  | Refused msg => (disk, Err msg)
  | _ =>
      if negb holds then (disk, Err "revision conflict")
      else match fault with CommittedUnseen msg => (swapped, Err msg) | _ => (swapped, Ok (expected + 1)) end
  end.

Definition autoNotAttached : string := "automatic submission store is not attached".

(** update; [wall] is the time.Now of an event without a time. *)
Definition autoUpdate {A} (env : updateEnv) (wall : time)
    (mutate : autoRecords -> list string -> autoRecords * list automaticSubmissionEvent * A) (sd : automaticSubmissionStore * autoDisk)
    : (automaticSubmissionStore * autoDisk) * result string A :=
  let '(s, disk) := sd in
  if negb (as_attached s) then (sd, Err autoNotAttached)
  else
    let '(working, events, a) := mutate (as_records s) (ue_order env) in
    match events with
    | [] => (sd, Ok a)
    | _ =>
        if negb (ue_encodes env) then (sd, Err "json: unsupported value")
        else
          let stamped := map (fun ev => if IsZero (ae_At ev) then ev <| ae_At := wall |> else ev) events in
          match autoCAS disk (as_revision s) (docRecords working) stamped (ue_fault env) with
          | (disk, Err msg) => ((s, disk), Err (say ["persist automatic submission state: "; msg]))
          | (disk, Ok revision) => ((mkAutoStore true revision working, disk), Ok a)
          end
    end.

(** bindCore *)
Definition autoBind (disk : autoDisk) : result string automaticSubmissionStore :=
  match ad_doc disk with
  | None => Ok (mkAutoStore true 0 ∅)
  | Some (revision, records) =>
      if forallb (fun r => (TrimSpace (au_Key r) <>s "") && (TrimSpace (au_Revision r) <>s "")) records
      then Ok (mkAutoStore true revision (fold_left (fun m r => <[autoKey r := r]> m) records ∅))
      else Err "automatic submission state is malformed"
  end.

(** ** Loops over the records

    [turn] leaves a record alone ([None]) or edits it with its event. *)
Fixpoint rangeAuto (turn : automaticSubmissionRecord -> option (automaticSubmissionRecord * automaticSubmissionEvent)) (order : list string)
    (m : autoRecords) : autoRecords * list automaticSubmissionEvent :=
  match order with
  | [] => (m, [])
  | k :: rest =>
      match m !! k ≫= turn with
      | Some (r, ev) => let '(m, evs) := rangeAuto turn rest (<[k := r]> m) in (m, ev :: evs)
      | None => rangeAuto turn rest m
      end
  end.

(** An update of one record. *)
Definition onAuto (key revision : string) (turn : automaticSubmissionRecord -> option (automaticSubmissionRecord * automaticSubmissionEvent))
    (m : autoRecords) (_ : list string) : autoRecords * list automaticSubmissionEvent * unit :=
  let '(m, evs) := rangeAuto turn [automaticRecordKey key revision] m in (m, evs, tt).

(** ** The settling rule *)

Definition automaticHoldHandOrder : string := "settling: an order placed outside Canary's gate after this proposal revision appeared, or modified since, is still working at the broker; this submits once it fills or is cancelled, without a new veto window".
Definition automaticHoldUnavailable : string := "settling: the broker's open-order inventory is unavailable, so a new or modified hand order cannot be ruled out; this submits once it can, without a new veto window".
Definition automaticHoldMandateVerdict : string := "held: the mandate verdict this reduction was sized on cannot be confirmed right now; it is placed once a fresh verdict confirms the sizing, or withdrawn once the risk is back within budget, without a new veto window".

(** The reason holdSince answers, "" when settled. *)
Definition holdText (h : settlingHold) : string :=
  match h with Settled => "" | HoldHandOrder => automaticHoldHandOrder | HoldUnavailable => automaticHoldUnavailable end.

Definition hold (b : automaticSettlingBook) (rec : automaticSubmissionRecord) : string :=
  holdText (holdSince b (au_CreatedAt rec) (au_SettlingBaseline rec) (au_SettlingBaselineKnown rec)).

Definition marks (b : automaticSettlingBook) : list string :=
  stable_sort String.leb (List.filter (fun m => m <>s "") (map ho_Mark (sb_hand b))).

Definition automaticSettlingMachineOrigin (origin : string) : bool :=
  one_of origin [OrderOriginDaemonPreAuthorised; OrderOriginDaemonOwnerQueued; OrderOriginAgent; OrderOriginDaemonProtectiveGuard; OrderOriginDeskAutomatic].

Definition latestOrderRequestAt (events : list OrderEvent) : time :=
  fold_left (fun latest ev =>
    if one_of (o_Type ev) [orderJournalEventSendAttempted; orderJournalEventModifyRequested] && After (o_At ev) latest then o_At ev else latest) events 0.

Section Book.
(** The first 16 hexadecimal digits of the SHA-256 of an order's terms, and fmt's "%g". *)
Context (markDigest : string -> string) (formatG : float64 -> string).

Definition automaticOrderMark (order : OrderLifecycleEvent) : string :=
  let identity :=
    if negb (b_PermID order =? 0) then say ["perm:"; Itoa (b_PermID order)]
    else if b_ClientIDPresent order && negb (b_OrderID order =? 0) then say ["order:"; Itoa (b_ClientID order); ":"; Itoa (b_OrderID order)]
    else "" in
  if identity =s "" then ""
  else
    let orderType := ToUpper (TrimSpace (b_OrderType order)) in
    let limit := if one_of orderType [OrderTypeTRAIL; OrderTypeTRAILLIMIT] then f0 else b_LimitPrice order in
    let terms := String.concat "|"
      [identity; Itoa (b_ConID order); ToUpper (TrimSpace (b_Action order)); orderType; formatG (b_TotalQuantity order); formatG limit;
       formatG (b_AuxPrice order); formatG (b_TrailingPercent order); formatG (b_LmtPriceOffset order); ToUpper (TrimSpace (b_TIF order));
       (if b_OutsideRth order then "true" else "false"); Itoa (b_TriggerMethod order)] in
    say [identity; "#"; markDigest terms].

(** automaticSettlingBook: [inventory] is the broker's open orders with their scope when
    they could be read, [journal] the rows with the events of a row's key. *)
Definition readSettlingBook (inventory : option (OpenOrderSnapshot * brokerStateScope))
    (journal : option (list OrderView * (string -> list OrderEvent))) (sc : brokerStateScope) : automaticSettlingBook :=
  match inventory with
  | None => mkBook false []
  | Some (snapshot, inventoryScope) =>
      if negb (sameBrokerScope inventoryScope sc) then mkBook false []
      else match brokerWorkingOrders snapshot [] sc with
           | [] => mkBook true []
           | _ =>
               match journal with
               | None => mkBook false []
               | Some (views, eventsByKey) =>
                   let hand w :=
                     mkHand (match journalRow w with Some v => latestOrderRequestAt (eventsByKey (orderViewKey v)) | None => 0 end)
                       (automaticOrderMark (bw_Order w)) in
                   mkBook true
                     (map hand (List.filter (fun w => negb (automaticSettlingMachineOrigin match journalRow w with Some v => v_Origin v | None => "" end))
                                  (brokerWorkingOrders snapshot views sc)))
               end
           end
  end.
End Book.

(** ** The batch order *)

Definition preAuthorisedBucketTrailingStop : string := "trailing_stop".
Definition preAuthorisedBucketOptionLossExit : string := "option_loss_exit".
Definition preAuthorisedBucketOptionProfitTrail : string := "option_profit_trail".
Definition preAuthorisedBucketBudgetReduction : string := "budget_reduction".
Definition preAuthorisedBucketMandateReduction : string := "mandate_reduction".
Definition preAuthorisedBucketCashSweep : string := "cash_sweep".

(** The rank a later row of a record key overrides an earlier one with; 0: none. *)
Definition rankOf (rank : TradeProposal -> Z) (proposals : list TradeProposal) (r : automaticSubmissionRecord) : Z :=
  fold_left (fun acc p => if (0 <? rank p) && (automaticRecordKey (pr_Key p) (pr_Revision p) =s autoKey r) then rank p else acc) proposals 0.
Definition sweepRank (p : TradeProposal) : Z := pr_SweepRank p.
Definition mandateRank (p : TradeProposal) : Z :=
  match pr_Mandate p with Some m => if pr_Bucket p =s preAuthorisedBucketMandateReduction then mr_Rank m else 0 | None => 0 end.

(** The records [own] picks, sorted by rank, in their own slots. *)
Fixpoint refill (own : automaticSubmissionRecord -> bool) (batch records : list automaticSubmissionRecord) : list automaticSubmissionRecord :=
  match records with
  | [] => []
  | r :: rest =>
      if own r then match batch with b :: batch => b :: refill own batch rest | [] => r :: refill own [] rest end
      else r :: refill own batch rest
  end.
Definition prioritize (bucket : string) (rank : TradeProposal -> Z) (records : list automaticSubmissionRecord) (proposals : list TradeProposal)
    : list automaticSubmissionRecord :=
  let ranks := rankOf rank proposals in
  let own r := (au_Bucket r =s bucket) && (0 <? ranks r) in
  refill own (stable_sort (fun a b => ranks a <=? ranks b) (List.filter own records)) records.
Definition prioritizeCashSweepRecords := prioritize preAuthorisedBucketCashSweep sweepRank.
Definition prioritizeMandateRecords := prioritize preAuthorisedBucketMandateReduction mandateRank.

Definition mandateWaitsForBetterRank (rec : automaticSubmissionRecord) (records : list automaticSubmissionRecord) (proposals : list TradeProposal)
    (now : time) (window : Z) : bool :=
  if (au_Bucket rec <>s preAuthorisedBucketMandateReduction) || negb (Before now (au_SubmitAt rec + window)) then false
  else
    let ranks := rankOf mandateRank proposals in
    let rank := ranks rec in
    let sameAccount r := (au_AccountID r =s au_AccountID rec) && (au_AccountMode r =s au_AccountMode rec) in
    if rank =? 0 then false
    else existsb (fun better =>
      (au_Bucket better =s preAuthorisedBucketMandateReduction) && (0 <? ranks better) && (ranks better <? rank) && sameAccount better &&
      pending better && IsZero (au_HeldAt better) && negb (After (au_ResubmitAt better) now) && After (au_SubmitAt better) now &&
      negb (After (au_SubmitAt better) (now + window)) &&
      negb (existsb (fun sold => (au_Key sold =s au_Key better) && sameAccount sold && (au_State sold =s TradeProposalAutomaticSubmitted) &&
                                 negb (Before (au_SubmittedAt sold) (au_SubmitAt rec))) records)) records.

(** ** What a refusal means *)

Definition automaticTransientPreviewCode (code : string) : bool :=
  one_of code ["market_closed"; "quote_stale"; "quote_not_live"; "quote_not_two_sided"; "quote_unavailable"; "broker_session_changed";
               "contract_unresolved"; "position_unavailable"; "notional_unavailable"; previewWhatIfFailedCode; "preview_token_unavailable"].

(** [strings.Cut(s, ": ")], its first part. *)
Fixpoint cutColon (s : string) : string :=
  match s with
  | String c rest => if String.prefix ": " s then "" else String c (cutColon rest)
  | EmptyString => ""
  end.

Definition automaticRecoverableFailure (rec : automaticSubmissionRecord) : bool :=
  if (au_State rec <>s TradeProposalAutomaticFailed) || au_FailureFinal rec || IsZero (au_ResolvedAt rec) || negb (IsZero (au_SubmittingAt rec)) ||
     negb (IsZero (au_SubmittedAt rec)) || negb (IsZero (au_VetoedAt rec)) || (au_PreviewTokenID rec <>s "") || (au_OrderRef rec <>s "")
  then false else automaticTransientPreviewCode (cutColon (au_Reason rec)).

Definition automaticRecordReplaceable (rec : automaticSubmissionRecord) : bool :=
  (au_State rec =s TradeProposalAutomaticSuperseded) || automaticRecoverableFailure rec.

(** A *automaticDisarmedError in the chain. *)
Definition automaticUnsentAuthorityRefusal (err : option sendErr) : bool :=
  match err with
  | Some e => errIs e "automaticDisarmedError" && (SendDispositionOf err =s SendDispositionDefinitelyUnsent)
  | None => false
  end.

Definition mandateHeldRefusal (blockers : list TradingBlocker) : bool :=
  match blockers with [] => false | _ => forallb (fun b => tb_Code b =s "mandate_sizing_held") blockers end.

Definition automaticTransientRefusal (res : submitResult) (err placeErr : option sendErr) : bool :=
  if su_Accepted res || present err || present placeErr || match su_Blockers res with [] => true | _ => false end then false
  else forallb (fun b =>
    let code := tb_Code b in
    automaticTransientPreviewCode code || one_of code readinessBrokerCodes || one_of code readinessSessionCodes || one_of code readinessQuoteCodes ||
    one_of code readinessSpreadCodes || one_of code readinessHaltCodes || one_of code ["core_before_due_time"] ||
    one_of code ["proposal_refresh_failed"; "order_journal_unavailable"; "journal_authority_unavailable"; "reduction_order_evidence_unavailable";
                 "protective_order_evidence_unavailable"; "outside_regular_hours"]) (su_Blockers res).

Definition automaticDisarmedCode : string := "automatic_trading_disarmed".
Definition automaticDisarmedRefusal (blockers : list TradingBlocker) : bool := existsb (fun b => tb_Code b =s automaticDisarmedCode) blockers.
Definition automaticBlockersSupersede (blockers : list TradingBlocker) : bool :=
  existsb (fun b => one_of (tb_Code b) ["stale_revision"; "proposal_not_found"]) blockers.

(** automaticRestartOutcome: state, order reference, reason. *)
Definition automaticRestartOutcome (events : list orderJournalEvent) (tokenID : string) : string * string * string :=
  match orderJournalSendOutcome events tokenID with
  | (orderSendReached, ref) =>
      (TradeProposalAutomaticSubmitted, ref, "order reached the broker before the daemon restarted; confirmed from the order journal")
  | (orderSendFailedUnsent, ref) => (TradeProposalAutomaticFailed, ref, "broker send failed before the daemon restarted; not retried")
  | (orderSendUnclear, ref) =>
      (TradeProposalAutomaticFailed, ref, "broker send outcome unknown across the restart; confirm against the order journal and broker statements, not retried")
  | (orderSendNone, _) => (TradeProposalAutomaticFailed, "", "daemon restarted before the broker send; not retried")
  end.

(** ** What read surfaces show *)

(** rpc.TradeProposalAutomatic *)
Record TradeProposalAutomatic := mkAutomatic {
  ta_PreAuthorised : bool; ta_Bucket : string; ta_State : string; ta_NoticeID : string; ta_CreatedAt : time; ta_SubmitAt : time;
  ta_NoticedAt : time; ta_VetoedAt : time; ta_SubmittedAt : time; ta_OrderReference : string; ta_Reason : string;
  ta_LatchSkippedWindow : bool; ta_VetoWindow : string; ta_DeferredAt : time; ta_ResubmitAt : time; ta_HeldAt : time
}.

(** automaticNoticeKey *)
Record automaticNoticeKey := mkNotice {
  nk_Key : string; nk_Revision : string; nk_Episode : string; nk_ClockStart : time; nk_ClockQuantity : Z; nk_Bucket : string;
  nk_SubmitAt : time; nk_Latched : bool; nk_Deferred : bool; nk_Hold : string
}.

Section Notices.
(** JSON and SHA-256 of a veto opportunity: account, mode, key, episode, start and size. *)
Context (noticeDigest : string -> string -> string -> string -> time -> Z -> string).

Definition automaticRecordWindowID (r : automaticSubmissionRecord) : string :=
  if IsZero (au_CreatedAt r) then ""
  else noticeDigest (au_AccountID r) (au_AccountMode r) (au_Key r) (au_Episode r) (au_CreatedAt r) (clockQuantity r).
Definition automaticRecordNoticeID (r : automaticSubmissionRecord) : string := if negb (autoWaiting r) then "" else automaticRecordWindowID r.

Definition autoView (r : automaticSubmissionRecord) (preAuthorised : bool) (now : time) : TradeProposalAutomatic :=
  let held := autoWaiting r && negb (IsZero (au_HeldAt r)) in
  let reason :=
    if held then au_HoldReason r
    else if pending r && IsZero (au_NoticedAt r) && negb (au_LatchSkippedWindow r) && negb (Before now (au_SubmitAt r))
    then "waiting for the phone notice to be recorded before the window can close" else au_Reason r in
  mkAutomatic preAuthorised (au_Bucket r) (au_State r) (automaticRecordNoticeID r) (au_CreatedAt r) (au_SubmitAt r) (au_NoticedAt r)
    (au_VetoedAt r) (au_SubmittedAt r) (au_OrderRef r) reason (au_LatchSkippedWindow r) (au_VetoWindow r) (au_DeferredAt r)
    (au_ResubmitAt r) (if held then au_HeldAt r else 0).
End Notices.

Definition automaticPendingNotices (s : automaticSubmissionStore) (sc : brokerStateScope) : list automaticNoticeKey :=
  let notice r :=
    mkNotice (au_Key r) (au_Revision r) (au_Episode r) (au_CreatedAt r) (clockQuantity r) (au_Bucket r) (au_SubmitAt r)
      (au_LatchSkippedWindow r) (deferred r)
      (if IsZero (au_HeldAt r) then ""
       else if au_HoldReason r =s automaticHoldUnavailable then "unverified"
       else if au_HoldReason r =s automaticHoldMandateVerdict then "mandate_verdict" else "hand_order") in
  if negb (as_attached s) then []
  else map notice (List.filter (fun r => autoWaiting r && sameBrokerScope (autoScope r) sc) (autoList s)).

Definition automaticCount (s : automaticSubmissionStore) (sc : brokerStateScope) (matches : automaticSubmissionRecord -> bool) : nat :=
  if negb (as_attached s) then 0 else List.length (List.filter (fun r => matches r && sameBrokerScope (autoScope r) sc) (autoList s)).
Definition automaticPendingCount (s : automaticSubmissionStore) (sc : brokerStateScope) : nat := automaticCount s sc pending.
Definition automaticDeferredCount (s : automaticSubmissionStore) (sc : brokerStateScope) : nat := automaticCount s sc deferred.

(** automaticIntentBlockersFor: a waiting or submitting record of the key, or of a row served for the contract side. *)
Definition automaticIntentBlockersFor (s : automaticSubmissionStore) (rowSide : string -> option string) (key side : string) (sc : brokerStateScope)
    : list TradingBlocker :=
  let covers rec :=
    (autoWaiting rec || (au_State rec =s TradeProposalAutomaticSubmitting)) && sameBrokerScope (autoScope rec) sc &&
    ((au_Key rec =s key) || match rowSide (au_Key rec) with Some rs => (side <>s "") && (rs =s side) | None => false end) in
  if as_attached s && existsb covers (autoList s) then
    [mkBlocker "automatic_submission_pending" "Canary's pre-authorised protection may place an order for this contract; nothing is queued beside it"
       "Veto the automatic submission first if you want to queue this row instead."]
  else [].
