(* ===== verification/AutoEngine.v ===== *)
(** * The pre-authorised scheduler

    src/internal/daemon/proposal_automatic.go: one pass of the scheduler (recover what a
    dead process left in flight, reconcile the records with the served rows, submit what
    is due), the notice, the veto; the submit path of proposal_engine.go around its
    preview and place.  What the engine reads elsewhere (the snapshot, the policy, the
    standing authority, locks, sessions, the settling book, the preview and the place)
    is an argument. *)

From stdpp Require Import base decidable list strings gmap sorting.
From Stdlib Require Import ZArith Lia Ascii String SpecFloat.
From S2P Require Import Prelude Floats OrderTypes OrderStatus OrderFold BrokerScope OrderHistory GoTime MarketSpecs MarketCalendar.
From S2P Require Import OrderJournal WriteGate PreviewToken SendDisposition PositionEvidence OrderRisk.
From S2P Require Import QueueRecord QueueStore QueueExec QueuePrepare AutoRecord.

(** ** The policy *)

Definition defaultVetoWindow : Z := 30 * Minute.
Definition minimumVetoWindow : Z := 5 * Minute.

(** The [authority] and [cash] tables of the protection policy. *)
Record autoPolicy := mkAutoPolicy { po_PreAuthorised : list string; po_CashPreAuthorised : list string; po_VetoWindow : string }.
Definition zero_Policy : autoPolicy := mkAutoPolicy [] [] "".

Definition policyPreAuthorised (p : autoPolicy) (bucket : string) : bool :=
  if bucket =s preAuthorisedBucketCashSweep then one_of bucket (po_CashPreAuthorised p)
  else (bucket <>s "") && one_of bucket (po_PreAuthorised p).

(** automaticPolicyAuthority: [active] the loaded policy with its status, [disarmed] the
    standing authority's blocker. *)
Definition automaticPolicyAuthority (paused : bool) (active : option (autoPolicy * string)) (disarmed : option TradingBlocker)
    : autoPolicy * bool * option TradingBlocker :=
  match active with
  | None => (zero_Policy, false, None)
  | Some (policy, status) =>
      if paused || negb (one_of status ["active"; "default"]) then (zero_Policy, false, None)
      else match disarmed with
           | Some b => (mkAutoPolicy [] [] (po_VetoWindow policy), true, Some b)
           | None => (policy, true, None)
           end
  end.

Definition automaticBucketFor (p : TradeProposal) : string :=
  let b := pr_Bucket p in
  if b =s TradeProposalBucketTrailingStop then
    match pr_OptionExit p with
    | None => preAuthorisedBucketTrailingStop
    | Some kind => if kind =s "profit_trail" then preAuthorisedBucketOptionProfitTrail else ""
    end
  else if b =s TradeProposalBucketOptionLossExit then
    match pr_OptionExit p with Some kind => if kind =s "loss_exit" then preAuthorisedBucketOptionLossExit else "" | None => "" end
  else if b =s preAuthorisedBucketBudgetReduction then preAuthorisedBucketBudgetReduction
  else if b =s TradeProposalBucketMandateReduction then preAuthorisedBucketMandateReduction
  else if b =s TradeProposalBucketCashSweep then preAuthorisedBucketCashSweep
  else "".

(** ** The served rows *)

Definition AutomaticEligible (p : TradeProposal) : bool := negb (pr_Shadow p) && match pr_Blockers p with [] => true | _ => false end.
Definition servedProposal (snap : TradeProposalSnapshot) (key : string) : option TradeProposal :=
  List.find (fun p => pr_Key p =s key) (sn_Proposals snap).
(** The last row of a key: [present]. *)
Definition presentRow (snap : TradeProposalSnapshot) (key : string) : option TradeProposal :=
  List.find (fun p => pr_Key p =s key) (rev (sn_Proposals snap)).

Definition proposalUnblocked (snap : TradeProposalSnapshot) (prop : TradeProposal) : bool :=
  if negb match sn_Blockers snap with [] => true | _ => false end || sn_LoadedFromState snap then false
  else if (pr_State prop =s "blocked") || negb (AutomaticEligible prop) then false
  else match servedProposal snap (pr_Key prop) with
       | Some served => (pr_Revision prop <>s "") && (pr_Revision prop =s pr_Revision served)
       | None => false
       end.

Definition proposalBlockedReason (snap : TradeProposalSnapshot) (prop : TradeProposal) : string :=
  match sn_Blockers snap, pr_Blockers prop with
  | b :: _, _ => say ["proposal set blocked: "; tb_Code b]
  | [], b :: _ => say ["proposal blocked: "; tb_Code b]
  | [], [] =>
      if pr_Shadow prop then "proposal is a shadow row"
      else if pr_State prop =s "blocked" then "proposal blocked" else "proposal no longer actionable"
  end.

Definition scopedIgnoreKey (sc : brokerStateScope) (key : string) : string :=
  say [ToUpper (TrimSpace (sc_Account sc)); "|"; ToLower (TrimSpace (sc_Mode sc)); "|"; key].

(** What one operation of the scheduler reads: the clock, the snapshot, the connected
    scope, the policy with the disarm blocker, when the owner armed, the drawdown latch,
    the settling book (cached and fresh), lock blockers of a row, the lines reserved for
    strategies and for the core, the owner's queues, the ignored keys, the session of a
    row's market ([None] without a market or when unknown), the currency market's
    session, the regime, and the freeze. *)
Record autoWorld := mkAutoWorld {
  aw_now : time; aw_snap : TradeProposalSnapshot; aw_scope : brokerStateScope; aw_policy : autoPolicy * bool * option TradingBlocker;
  aw_armedAt : time; aw_latched : bool; aw_cached : automaticSettlingBook; aw_fresh : automaticSettlingBook;
  aw_locks : TradeProposal -> list TradingBlocker; aw_reserved : Z -> bool; aw_core : Z -> bool; aw_queues : queuedAuthStore;
  aw_ignored : string -> bool; aw_session : TradeProposal -> time -> option (string * Session); aw_fxSession : time -> option Session;
  aw_stress : bool; aw_frozen : bool
}.

Section Engine.
(** time.ParseDuration, Duration.String, fmt's "%.4f" and a time's RFC 3339 text. *)
Context (ParseDuration : string -> option Z) (durationString : Z -> string) (format4 : float64 -> string) (rfc3339 : time -> string).

Definition vetoWindow (p : autoPolicy) : Z :=
  if TrimSpace (po_VetoWindow p) =s "" then defaultVetoWindow
  else match ParseDuration (TrimSpace (po_VetoWindow p)) with
       | Some d => if d <? minimumVetoWindow then defaultVetoWindow else d
       | None => defaultVetoWindow
       end.

Definition coreLine (w : autoWorld) (p : TradeProposal) : bool := (0 <? cp_ConID (pr_Contract p)) && aw_reserved w (cp_ConID (pr_Contract p)).

Definition automaticBucket (w : autoWorld) (p : TradeProposal) : string :=
  let bucket := automaticBucketFor p in
  match aw_locks w p with
  | _ :: _ => ""
  | [] => if (bucket =s "") || (bucket =s preAuthorisedBucketMandateReduction) || negb (coreLine w p) then bucket else ""
  end.

Definition automaticExcludedReason (w : autoWorld) (p : TradeProposal) : string :=
  if aw_core w (cp_ConID (pr_Contract p))
  then "the core sleeve's contract is outside protection's automatic sales (owner decision D5); the mandate's forced reduction still covers it"
  else "a registered strategy's line is outside protection's automatic sales, as the core's is (owner decision D5, extended 2026-10-19); the mandate's forced reduction still covers it".

Definition queuedLiveKeys (w : autoWorld) (key : string) : bool :=
  existsb (fun p => (pr_Key p =s key) && present (queuedLiveRecordFor (aw_queues w) (aw_scope w) (sameContractSide format4 p))) (sn_Proposals (aw_snap w)).

(** ** Due times *)

Definition automaticCurrencySessionDue (w : autoWorld) (prop : TradeProposal) (due : time) : time :=
  let orderType := ToUpper (TrimSpace (pp_OrderType (proposalOrderPreviewParams prop (pr_Quantity prop)))) in
  if negb (one_of orderType [OrderTypeTRAIL; OrderTypeTRAILLIMIT]) then due
  else match aw_fxSession w due with
       | Some session =>
           match ss_NextOpen session with
           | Some next => if ss_IsOpen session || negb (After next due) then due else next
           | None => due
           end
       | None => due
       end.

Definition automaticSessionDue (w : autoWorld) (prop : TradeProposal) (due : time) : time :=
  if negb (proposalHasContract prop) then due
  else if negb (proposalNeedsOpenSession prop) then automaticCurrencySessionDue w prop due
  else match aw_session w prop due with
       | Some (market, session) =>
           if match ss_State session with StateUnknown => true | _ => false end then due
           else
             let offset := (readinessOpeningOffset (aw_stress w) market (pr_Bucket prop)).1 in
             if ss_IsOpen session && negb (IsZero (ss_Open session)) then
               if Before due (ss_Open session + offset) then ss_Open session + offset else due
             else match ss_NextOpen session with Some next => next + offset | None => due end
       | None => due
       end.

Definition automaticClockBeforeSession (w : autoWorld) (prop : TradeProposal) (rec : automaticSubmissionRecord) : bool :=
  proposalHasContract prop &&
  match aw_session w prop (aw_now w) with
  | Some (_, session) => ss_IsOpen session && negb (IsZero (ss_Open session)) && Before (au_CreatedAt rec) (ss_Open session)
  | None => false
  end.

(** ** Reconciling the records with the rows *)

Definition automaticQueuedReason : string := "a queued authorisation the owner armed is live for this contract and side; Canary sends that order instead".
Definition automaticEpisodeResizedReason : string := "the reduction was re-sized within its breach; the new revision keeps this veto clock unless it grew by more than one lot".
Definition automaticNewSessionReason : string := "a new session: the reduction gets a fresh notice and a full veto window before it is placed".

(** Why a waiting record ends, and whether its clock carries over. *)
Definition endReason (w : autoWorld) (rec : automaticSubmissionRecord) : option (string * bool) :=
  let '(policy, policyOK, disarmed) := aw_policy w in
  let snap := aw_snap w in
  let disabled := existsb (fun b => tb_Code b =s "proposals_disabled") (sn_Blockers snap) in
  match disarmed with
  | Some b => if tb_Message b =s "" then None else Some (tb_Message b, false)
  | None =>
      if negb (au_ArmedAt rec =? aw_armedAt w) then Some ("armed again since this veto clock started; a new window starts", false)
      else match presentRow snap (au_Key rec) with
           | None => Some ("proposal disappeared from the current set", negb disabled && negb (aw_ignored w (scopedIgnoreKey (aw_scope w) (au_Key rec))))
           | Some prop =>
               if negb (pr_Revision prop =s au_Revision rec) then
                 if (au_Episode rec <>s "") && match pr_Mandate prop with Some m => mr_Episode m =s au_Episode rec | None => false end
                 then Some (automaticEpisodeResizedReason, true)
                 else Some ("proposal revision changed; a new window starts for the new revision", false)
               else if negb (proposalUnblocked snap prop) then Some (proposalBlockedReason snap prop, true)
               else match aw_locks w prop with
                    | b :: _ => if tb_Message b =s "" then None else Some (tb_Message b, false)
                    | [] =>
                        if queuedLiveKeys w (au_Key rec) then Some (automaticQueuedReason, false)
                        else if (au_Bucket rec <>s preAuthorisedBucketMandateReduction) && coreLine w prop
                        then Some (automaticExcludedReason w prop, false)
                        else if policyOK && negb (policyPreAuthorised policy (au_Bucket rec))
                        then Some ("bucket is no longer pre-authorised by the active policy", false)
                        else if negb policyOK then Some ("protection policy is not active", false)
                        else None
                    end
           end
  end.

Definition reconcileTurn (w : autoWorld) (rec : automaticSubmissionRecord) : option (automaticSubmissionRecord * automaticSubmissionEvent) :=
  if negb (autoWaiting rec) then None
  else match endReason w rec with
       | None => None
       | Some (reason, carry) =>
           let r := rec <| au_State := TradeProposalAutomaticSuperseded |> <| au_Reason := reason |> <| au_ResolvedAt := aw_now w |>
                        <| au_CarryClock := carry && (au_Episode rec <>s "") |> in
           Some (r, (eventOf r automaticEventSuperseded (aw_now w)) <| ae_Reason := reason |>)
       end.

(** automaticEpisodePrior *)
Definition laterPrior (key episode : string) (prior : option automaticSubmissionRecord) (rec : automaticSubmissionRecord) : option automaticSubmissionRecord :=
  if (au_Key rec <>s key) || (au_Episode rec <>s episode) then prior
  else match prior with
       | None => Some rec
       | Some p =>
           if After (au_ResolvedAt rec) (au_ResolvedAt p) || ((au_ResolvedAt rec =? au_ResolvedAt p) && String.ltb (au_Revision p) (au_Revision rec))
           then Some rec else prior
       end.
Definition automaticEpisodePrior (m : autoRecords) (key episode : string) : option automaticSubmissionRecord :=
  fold_left (laterPrior key episode) (map_to_list m).*2 None.

(** The row gets a record unless one for its revision stands. *)
Definition candidate (w : autoWorld) (prop : TradeProposal) : bool :=
  let '(policy, _, _) := aw_policy w in
  policyPreAuthorised policy (automaticBucket w prop) && proposalUnblocked (aw_snap w) prop && negb (queuedLiveKeys w (pr_Key prop)).

Definition automaticWillCreate (w : autoWorld) (s : automaticSubmissionStore) : bool :=
  existsb (fun prop => candidate w prop &&
    match autoGet s (pr_Key prop) (pr_Revision prop) with Some existing => automaticRecordReplaceable existing | None => true end)
    (sn_Proposals (aw_snap w)).

(** The hand orders a created record stands beside: [None] when they could not be read. *)
Definition settlingBaseline (w : autoWorld) (s : automaticSubmissionStore) : option (list string) :=
  let '(_, policyOK, _) := aw_policy w in
  if policyOK && brokerScopeConcrete (aw_scope w) && automaticWillCreate w s && sb_ok (aw_cached w) then Some (marks (aw_cached w)) else None.

(** A fresh record of a row, with its full window. *)
Definition freshRecord (w : autoWorld) (baseline : option (list string)) (recovering : bool) (prop : TradeProposal) : automaticSubmissionRecord :=
  let '(policy, _, _) := aw_policy w in
  let window := vetoWindow policy in
  let now := aw_now w in
  let latched := brokerScopeConcrete (aw_scope w) && aw_latched w && negb (pr_NeverSkipVeto prop) && negb recovering in
  zero_Auto <| au_Version := automaticDocumentVersion |> <| au_Key := pr_Key prop |> <| au_Revision := pr_Revision prop |>
    <| au_Bucket := automaticBucket w prop |> <| au_EngineBucket := pr_Bucket prop |> <| au_Symbol := pr_Symbol prop |>
    <| au_SecType := pr_SecType prop |> <| au_Action := pr_Action prop |> <| au_Quantity := pr_Quantity prop |>
    <| au_AccountID := sn_AccountID (aw_snap w) |> <| au_AccountMode := sn_AccountMode (aw_snap w) |>
    <| au_State := TradeProposalAutomaticPending |> <| au_VetoWindow := durationString window |> <| au_ArmedAt := aw_armedAt w |>
    <| au_CreatedAt := now |> <| au_SubmitAt := if latched then now else now + window |> <| au_LatchSkippedWindow := latched |>
    <| au_SettlingBaseline := default [] baseline |> <| au_SettlingBaselineKnown := present baseline |>.

(** The clock a record takes over from the one it replaces in its breach, paused for the gap. *)
Definition inheritClock (w : autoWorld) (prior rec : automaticSubmissionRecord) : automaticSubmissionRecord :=
  let '(policy, _, _) := aw_policy w in
  let now := aw_now w in
  let due :=
    if Before (au_ResolvedAt prior) (au_SubmitAt prior) && After now (au_ResolvedAt prior)
    then au_SubmitAt prior + Sub now (au_ResolvedAt prior) else au_SubmitAt prior in
  let latest := now + vetoWindow policy in
  rec <| au_CreatedAt := au_CreatedAt prior |> <| au_SubmitAt := if After due latest then latest else due |> <| au_NoticedAt := au_NoticedAt prior |>
      <| au_SettlingBaseline := au_SettlingBaseline prior |> <| au_SettlingBaselineKnown := au_SettlingBaselineKnown prior |>
      <| au_ClockQuantity := clockQuantity prior |>.

(** The record of a row in a breach episode: [None] when the owner vetoed the line in it. *)
Definition episodeRecord (w : autoWorld) (recovering : bool) (prop : TradeProposal) (m : autoRecords) (rec : automaticSubmissionRecord)
    : option automaticSubmissionRecord :=
  match pr_Mandate prop with
  | Some mandate =>
      if mr_Episode mandate =s "" then Some rec
      else
        let rec := rec <| au_Episode := mr_Episode mandate |> <| au_ClockQuantity := pr_Quantity prop |> in
        match automaticEpisodePrior m (pr_Key prop) (mr_Episode mandate) with
        | None => Some rec
        | Some prior =>
            if au_State prior =s TradeProposalAutomaticVetoed then None
            else if negb recovering && (au_State prior =s TradeProposalAutomaticSuperseded) &&
                    (au_CarryClock prior || (au_Reason prior =s automaticEpisodeResizedReason)) &&
                    negb (Before (au_ResolvedAt prior) (aw_armedAt w)) &&
                    (pr_Quantity prop <=? clockQuantity prior + Z.max 1 (mr_Lot mandate))
            then Some (inheritClock w prior rec) else Some rec
        end
  | None => Some rec
  end.

Definition automaticCreatedReason (rec : automaticSubmissionRecord) : string :=
  if au_LatchSkippedWindow rec then "drawdown brake latched; submitting without the veto window" else say ["veto window "; au_VetoWindow rec].

(** One row of the creation loop. *)
Definition createRecord (w : autoWorld) (baseline : option (list string)) (st : autoRecords * list automaticSubmissionEvent) (prop : TradeProposal)
    : autoRecords * list automaticSubmissionEvent :=
  let '(m, evs) := st in
  if negb (candidate w prop) then st
  else
    let existing := m !! automaticRecordKey (pr_Key prop) (pr_Revision prop) in
    let recovering := match existing with Some r => automaticRecoverableFailure r | None => false end in
    if match existing with Some r => negb (automaticRecordReplaceable r) | None => false end then st
    else match episodeRecord w recovering prop m (freshRecord w baseline recovering prop) with
         | None => st
         | Some rec =>
             let rec := rec <| au_SubmitAt := automaticSessionDue w prop (au_SubmitAt rec) |> in
             (<[autoKey rec := rec]> m,
              evs ++ [(eventOf rec automaticEventCreated (aw_now w)) <| ae_SubmitAt := au_SubmitAt rec |> <| ae_Reason := automaticCreatedReason rec |>])
         end.

Definition reconcileMutate (w : autoWorld) (baseline : option (list string)) (m : autoRecords) (order : list string)
    : autoRecords * list automaticSubmissionEvent * unit :=
  let '(_, policyOK, _) := aw_policy w in
  let st := rangeAuto (reconcileTurn w) order m in
  if negb policyOK || negb (brokerScopeConcrete (aw_scope w)) then (st, tt)
  else (fold_left (createRecord w baseline) (sn_Proposals (aw_snap w)) st, tt).

Definition reconcileAutomatic (env : updateEnv) (wall : time) (w : autoWorld) (sd : automaticSubmissionStore * autoDisk)
    : automaticSubmissionStore * autoDisk :=
  if sn_LoadedFromState (aw_snap w) then sd else (autoUpdate env wall (reconcileMutate w (settlingBaseline w sd.1)) sd).1.

(** ** The notice *)

Definition noticeTurn (at_ : time) (rec : automaticSubmissionRecord) : option (automaticSubmissionRecord * automaticSubmissionEvent) :=
  if negb (pending rec) || negb (IsZero (au_NoticedAt rec)) then None
  else
    let due :=
      if au_LatchSkippedWindow rec then au_SubmitAt rec
      else match ParseDuration (au_VetoWindow rec) with
           | Some window => if (0 <? window) && After (at_ + window) (au_SubmitAt rec) then at_ + window else au_SubmitAt rec
           | None => au_SubmitAt rec
           end in
    let r := rec <| au_NoticedAt := at_ |> <| au_SubmitAt := due |> in
    Some (r, (eventOf r automaticEventNoticed at_) <| ae_SubmitAt := due |>).

Definition markAutomaticNoticed (env : updateEnv) (wall : time) (keys : list (string * string)) (at_ : time) (sd : automaticSubmissionStore * autoDisk)
    : automaticSubmissionStore * autoDisk :=
  match keys with
  | [] => sd
  | _ => (autoUpdate env wall (fun m _ => (rangeAuto (noticeTurn at_) (map (fun k => automaticRecordKey k.1 k.2) keys) m, tt)) sd).1
  end.

(** ** Moves of one waiting record *)

Definition rescheduleTurn (at_ now : time) (r : automaticSubmissionRecord) : option (automaticSubmissionRecord * automaticSubmissionEvent) :=
  if negb (autoWaiting r) then None
  else
    let moved r :=
      Some (r, (eventOf r automaticEventRescheduled now) <| ae_SubmitAt := au_SubmitAt r |> <| ae_ResubmitAt := au_ResubmitAt r |>
                 <| ae_Reason := say ["the regular session is not open long enough yet; submits from "; rfc3339 at_; ", the open plus the opening offset"] |>) in
    if deferred r then (if negb (After at_ (au_ResubmitAt r)) then None else moved (r <| au_ResubmitAt := at_ |>))
    else if negb (After at_ (au_SubmitAt r)) then None else moved (r <| au_SubmitAt := at_ |>).

Definition restartTurn (due now : time) (reason : string) (r : automaticSubmissionRecord) : option (automaticSubmissionRecord * automaticSubmissionEvent) :=
  if negb (autoWaiting r) then None
  else
    let r := r <| au_CreatedAt := now |> <| au_SubmitAt := due |> <| au_NoticedAt := 0 |> <| au_HeldAt := 0 |> <| au_HoldReason := "" |>
               <| au_ClockQuantity := au_Quantity r |> in
    Some (r, (eventOf r automaticEventRescheduled now) <| ae_SubmitAt := due |> <| ae_Reason := reason |>).

(** The due time restartAutomaticClock gives at its own clock. *)
Definition restartDue (w : autoWorld) (now : time) (prop : TradeProposal) (rec : automaticSubmissionRecord) : time :=
  let window := match ParseDuration (au_VetoWindow rec) with Some d => if d <=? 0 then defaultVetoWindow else d | None => defaultVetoWindow end in
  automaticSessionDue w prop (now + window).

Definition holdAutoTurn (reason : string) (now : time) (r : automaticSubmissionRecord) : option (automaticSubmissionRecord * automaticSubmissionEvent) :=
  if negb (autoWaiting r) || (negb (IsZero (au_HeldAt r)) && (au_HoldReason r =s reason)) then None
  else
    let r := r <| au_HeldAt := if IsZero (au_HeldAt r) then now else au_HeldAt r |> <| au_HoldReason := reason |> in
    Some (r, (eventOf r automaticEventHeld now) <| ae_SubmitAt := au_SubmitAt r |> <| ae_Reason := reason |>).

(** ** One due record *)

Inductive autoDecision :=
| Leave | HoldFor (reason : string) | MoveTo (at_ : time) | Restart (prop : TradeProposal) | Submit.

(** The loop body of submitDueAutomatic for one listed record. *)
Definition dueDecision (w : autoWorld) (records : list automaticSubmissionRecord) (rec : automaticSubmissionRecord) : autoDecision :=
  let now := aw_now w in
  let window := let '(policy, ok, _) := aw_policy w in if ok : bool then vetoWindow policy else 0 in
  let settle :=
    if brokerScopeConcrete (aw_scope w) && sameBrokerScope (autoScope rec) (aw_scope w) then
      let held := hold (aw_cached w) rec in
      let held := if held =s "" then hold (aw_fresh w) rec else held in
      if held <>s "" then HoldFor held else Submit
    else Submit in
  if negb (autoDue rec now (aw_frozen w)) then Leave
  else if mandateWaitsForBetterRank rec records (sn_Proposals (aw_snap w)) now window then Leave
  else match List.find (fun p => automaticRecordKey (pr_Key p) (pr_Revision p) =s autoKey rec) (rev (sn_Proposals (aw_snap w))) with
       | None => settle
       | Some prop =>
           match mandateHeldBlockers prop with
           | _ :: _ => HoldFor automaticHoldMandateVerdict
           | [] =>
               let at_ := automaticSessionDue w prop now in
               if After at_ now then MoveTo at_
               else if (au_Episode rec <>s "") && automaticClockBeforeSession w prop rec then Restart prop
               else settle
           end
       end.

(** rescheduleAutomatic, restartAutomaticClock and holdAutomatic, at their own clock. *)
Definition applyAutoDecision (env : updateEnv) (wall now : time) (w : autoWorld) (rec : automaticSubmissionRecord) (d : autoDecision)
    (sd : automaticSubmissionStore * autoDisk) : automaticSubmissionStore * autoDisk :=
  let change turn := (autoUpdate env wall (onAuto (au_Key rec) (au_Revision rec) turn) sd).1 in
  match d with
  | MoveTo at_ => change (rescheduleTurn at_ now)
  | Restart prop => change (restartTurn (restartDue w now prop rec) now automaticNewSessionReason)
  | HoldFor reason => change (holdAutoTurn reason now)
  | Leave | Submit => sd
  end.

(** The records a pass works through, in dispatch order. *)
Definition dispatchOrder (w : autoWorld) (s : automaticSubmissionStore) : list automaticSubmissionRecord :=
  let rows := sn_Proposals (aw_snap w) in
  prioritizeMandateRecords (prioritizeCashSweepRecords (autoList s) rows) rows.

(** submitAutomatic's check inside the write lock. *)
Definition mayBegin (s : automaticSubmissionStore) (rec : automaticSubmissionRecord) (now : time) : bool :=
  match autoGet s (au_Key rec) (au_Revision rec) with
  | Some current => autoWaiting current && negb (Before now (au_ResubmitAt current))
  | None => false
  end.

(** ** The submit path *)

(** What submit meets: the resolved row with its blockers or error, the gates in their
    order, and the preview (after a mandate's bounded price fell back to the mid). *)
Record submitWorld := mkSubmitWorld {
  sw_prop : TradeProposal; sw_blockers : list TradingBlocker; sw_err : option sendErr; sw_unit : list TradingBlocker; sw_bundle : list TradingBlocker;
  sw_authority : list TradingBlocker; sw_write : list TradingBlocker; sw_preview : result (list TradingBlocker) OrderPreviewResult;
  sw_safety : list TradingBlocker; sw_duplicate : list TradingBlocker; sw_queuedGate : list TradingBlocker;
  sw_ineligible : option (list TradingBlocker); sw_economics : list TradingBlocker; sw_sweep : list TradingBlocker
}.

Definition refusedBy (blockers : list TradingBlocker) : submitResult := mkSubmit false "" blockers "" None.

(** submit up to beforePlace: the refusal, or the preview to stage. *)
Definition submitGates (w : submitWorld) : (submitResult * option sendErr) + OrderPreviewResult :=
  let gates := [shadowProposalBlockers (sw_prop w); mandateHeldBlockers (sw_prop w); sw_unit w; sw_bundle w; sw_authority w; sw_write w] in
  match sw_blockers w, sw_err w with
  | [], None =>
      match List.find (fun g => negb match g with [] => true | _ => false end) gates with
      | Some blockers => inl (refusedBy blockers, None)
      | None =>
          match sw_preview w with
          | Err blockers => inl (refusedBy blockers, None)
          | Ok preview =>
              match sw_safety w, sw_duplicate w, sw_queuedGate w, sw_ineligible w, sw_economics w, sw_sweep w with
              | [], [], [], None, [], [] => inr preview
              | [], [], [], None, [], (_ :: _) as b => inl (refusedBy b, None)
              | [], [], [], None, (_ :: _) as b, _ => inl (refusedBy b, None)
              | [], [], [], Some b, _, _ => inl (refusedBy b, None)
              | [], [], (_ :: _) as b, _, _, _ => inl (refusedBy b, None)
              | [], (_ :: _) as b, _, _, _, _ => inl (refusedBy b, None)
              | (_ :: _) as b, _, _, _, _, _ => inl (refusedBy b, None)
              end
          end
      end
  | blockers, err => inl (refusedBy blockers, err)
  end.

(** beforePlace refused. *)
Definition submitNotPersisted (why : string) : submitResult := refusedBy [mkBlocker "submit_intent_not_persisted" why ""].

(** The answer of the place: accepted, the order's reference and a message. *)
Definition submitPlaced (placed : result sendErr (bool * string * string)) : submitResult * option sendErr :=
  match placed with
  | Ok (accepted, ref, message) => (mkSubmit accepted ref [] message None, None)
  | Err e => (refusedBy [mkBlocker "submit_failed" (se_text e) ""], Some e)
  end.

(** automaticWriteGrant *)
Record automaticWriteGrant := mkAutoGrant { ag_Key : string; ag_Revision : string; ag_Bucket : string; ag_Quantity : Z; ag_ArmedAt : time }.

(** automaticSubmitBlockers: the codes it refuses a row with; [paused] is the configured pause. *)
Definition automaticSubmitBlockers (w : autoWorld) (paused : bool) (grant : option automaticWriteGrant) (prop : TradeProposal) : list string :=
  match aw_locks w prop with
  | (_ :: _) as blockers => map tb_Code blockers
  | [] =>
      let bucket := automaticBucket w prop in
      match grant with
      | None => ["daemon_origin_unauthorised"]
      | Some g =>
          if (ag_Key g <>s pr_Key prop) || (ag_Revision g <>s pr_Revision prop) || (ag_Bucket g <>s bucket) then ["daemon_origin_unauthorised"]
          else if (pr_Bucket prop =s TradeProposalBucketCashSweep) && ((ag_Quantity g <=? 0) || negb (pr_Quantity prop =? ag_Quantity g)) then ["stale_revision"]
          else if paused then ["config_automation_paused"]
          else let '(policy, ok, disarmed) := aw_policy w in
               match disarmed with
               | Some b => [tb_Code b]
               | None => if negb ok || negb (policyPreAuthorised policy bucket) then ["bucket_not_pre_authorised"] else []
               end
      end
  end.

(** ** One submission *)

Definition stageAutoTurn (token : string) (now : time) (r : automaticSubmissionRecord) : option (automaticSubmissionRecord * automaticSubmissionEvent) :=
  if negb (autoWaiting r) then None
  else
    let r := r <| au_State := TradeProposalAutomaticSubmitting |> <| au_SubmittingAt := now |> <| au_PreviewTokenID := token |>
               <| au_HeldAt := 0 |> <| au_HoldReason := "" |> in
    Some (r, eventOf r automaticEventSubmitting now).

(** beforePlace of submitAutomatic: the intent is stored, or nothing is placed. *)
Definition stageAutomatic (env : updateEnv) (wall now : time) (rec : automaticSubmissionRecord) (preview : OrderPreviewResult)
    (sd : automaticSubmissionStore * autoDisk) : (automaticSubmissionStore * autoDisk) * result string unit :=
  if (au_EngineBucket rec =s TradeProposalBucketCashSweep) && ((au_Quantity rec <=? 0) || (au_Quantity rec <? dr_Quantity (op_Draft preview))) then
    (sd, Err "cash sweep quantity exceeds the amount in its automatic notice")
  else
    match autoUpdate env wall (onAuto (au_Key rec) (au_Revision rec) (stageAutoTurn (op_PreviewTokenID preview) now)) sd with
    | (sd, Err e) => (sd, Err (say ["persist automatic submission intent: "; e]))
    | (sd, Ok _) =>
        match autoGet sd.1 (au_Key rec) (au_Revision rec) with
        | Some got =>
            if au_State got =s TradeProposalAutomaticSubmitting then (sd, Ok tt) else (sd, Err "automatic submission was vetoed before the broker call")
        | None => (sd, Err "automatic submission was vetoed before the broker call")
        end
    end.

(** What the attempt came to; [rec] is the record as it was listed. *)
Definition outcomeAutoTurn (finish : time) (staged : bool) (res : submitResult) (err placeErr : option sendErr) (rec r : automaticSubmissionRecord)
    : option (automaticSubmissionRecord * automaticSubmissionEvent) :=
  if autoTerminal r then None
  else
    let r := r <| au_HeldAt := 0 |> <| au_HoldReason := "" |> in
    let reason := automaticOutcomeReason res err in
    let superseded r :=
      let r := r <| au_ResolvedAt := finish |> <| au_State := TradeProposalAutomaticSuperseded |> <| au_Reason := reason |> in
      Some (r, (eventOf r automaticEventSuperseded finish) <| ae_Reason := reason |>) in
    if negb (present err) && su_Accepted res then
      let r := r <| au_ResolvedAt := finish |> <| au_State := TradeProposalAutomaticSubmitted |> <| au_SubmittedAt := finish |>
                 <| au_OrderRef := su_OrderRef res |> <| au_Reason := "placed by the daemon under the pre-authorised protection policy" |> in
      Some (r, (eventOf r automaticEventSubmitted finish) <| ae_OrderRef := au_OrderRef r |> <| ae_Origin := OrderOriginDaemonPreAuthorised |>)
    else if negb (present err) && negb staged && mandateHeldRefusal (su_Blockers res) then
      let heldAt := if negb (IsZero (au_HeldAt rec)) && (au_HoldReason rec =s automaticHoldMandateVerdict) then au_HeldAt rec else finish in
      let r := r <| au_HeldAt := heldAt |> <| au_HoldReason := automaticHoldMandateVerdict |> in
      Some (r, (eventOf r automaticEventHeld finish) <| ae_SubmitAt := au_SubmitAt r |> <| ae_Reason := au_HoldReason r |>)
    else if (negb staged && automaticDisarmedRefusal (su_Blockers res)) || automaticUnsentAuthorityRefusal placeErr then superseded r
    else if negb staged && automaticBlockersSupersede (su_Blockers res) then superseded (r <| au_CarryClock := au_Episode r <>s "" |>)
    else if automaticFrozenRefusal res err placeErr then
      let r := r <| au_State := TradeProposalAutomaticDeferred |> <| au_DeferredAt := if IsZero (au_DeferredAt r) then finish else au_DeferredAt r |>
                 <| au_ResubmitAt := finish + automaticDeferRetry |> <| au_PreviewTokenID := "" |>
                 <| au_Reason := "trading.freeze refused the submission before anything was sent; it resubmits once the freeze is lifted while this proposal revision is current" |> in
      Some (r, (eventOf r automaticEventDeferred finish) <| ae_ResubmitAt := au_ResubmitAt r |> <| ae_Reason := au_Reason r |>)
    else if negb staged && automaticTransientRefusal res err placeErr then
      let r := r <| au_State := TradeProposalAutomaticPending |> <| au_ResolvedAt := 0 |> <| au_ResubmitAt := finish + automaticDeferRetry |>
                 <| au_Reason := reason |> in
      Some (r, (eventOf r automaticEventRetryScheduled finish) <| ae_SubmitAt := au_SubmitAt r |> <| ae_ResubmitAt := au_ResubmitAt r |> <| ae_Reason := reason |>)
    else
      let r := r <| au_ResolvedAt := finish |> <| au_State := TradeProposalAutomaticFailed |> <| au_FailureFinal := true |> <| au_Reason := reason |>
                 <| au_OrderRef := if staged && (au_OrderRef r =s "") && (su_OrderRef res <>s "") then su_OrderRef res else au_OrderRef r |> in
      Some (r, (eventOf r automaticEventFailed finish) <| ae_Reason := reason |>).

(** ** Recovery after a restart *)

Definition stuckSubmitting (startedAt : time) (r : automaticSubmissionRecord) : bool :=
  (au_State r =s TradeProposalAutomaticSubmitting) && Before (au_SubmittingAt r) startedAt.

Definition recoverAutoTurn (events : list orderJournalEvent) (now : time) (r : automaticSubmissionRecord)
    : option (automaticSubmissionRecord * automaticSubmissionEvent) :=
  if au_State r <>s TradeProposalAutomaticSubmitting then None
  else
    let '(state, orderRef, reason) := automaticRestartOutcome events (au_PreviewTokenID r) in
    let reached := state =s TradeProposalAutomaticSubmitted in
    let r := r <| au_State := state |> <| au_Reason := reason |> <| au_ResolvedAt := now |> <| au_FailureFinal := state =s TradeProposalAutomaticFailed |>
               <| au_OrderRef := if orderRef <>s "" then orderRef else au_OrderRef r |> <| au_SubmittedAt := if reached then now else au_SubmittedAt r |> in
    Some (r, (eventOf r (if reached then automaticEventSubmitted else automaticEventFailed) now) <| ae_OrderRef := au_OrderRef r |> <| ae_Reason := reason |>).

(** recoverAutomaticAfterRestart; [journal] is [None] when it cannot be read. *)
Definition recoverAutomatic (env : updateEnv) (wall startedAt now : time) (journal : option (list orderJournalEvent))
    (sd : automaticSubmissionStore * autoDisk) : automaticSubmissionStore * autoDisk :=
  match List.filter (stuckSubmitting startedAt) (autoList sd.1), journal with
  | [], _ | _, None => sd
  | stuck, Some events => (autoUpdate env wall (fun m _ => (rangeAuto (recoverAutoTurn events now) (map autoKey stuck) m, tt)) sd).1
  end.

(** ** The owner's veto *)

Record TradeProposalVetoParams := mkVeto {
  vp_Key : string; vp_Revision : string; vp_Reason : string; vp_Origin : string; vp_NoticeID : string; vp_VetoUntil : time
}.
Record TradeProposalVetoResult := mkVetoResult {
  vr_Accepted : bool; vr_Key : string; vr_Revision : string; vr_State : string; vr_Message : string;
  vr_Automatic : option TradeProposalAutomatic; vr_AsOf : time
}.

Section Veto.
Context (noticeDigest : string -> string -> string -> string -> time -> Z -> string).

(** The record a veto means: the revision's, or the key's live one, or the served revision's. *)
Definition vetoTarget (key revision : string) (served : option TradeProposal) (m : autoRecords) (order : list string) : option automaticSubmissionRecord :=
  if revision <>s "" then m !! automaticRecordKey key revision
  else
    let live r := (au_Key r =s key) && (autoWaiting r || (au_State r =s TradeProposalAutomaticSubmitting)) in
    match List.find (fun k => match m !! k with Some r => live r | None => false end) order with
    | Some k => m !! k
    | None => match served with Some p => m !! automaticRecordKey key (pr_Revision p) | None => None end
    end.

(** The notification no longer identifies the record's veto window. *)
Definition vetoWindowGone (p : TradeProposalVetoParams) (now : time) (target : option automaticSubmissionRecord) : bool :=
  match target with
  | None => true
  | Some r =>
      (automaticRecordWindowID noticeDigest r <>s TrimSpace (vp_NoticeID p)) || After (vp_VetoUntil p) (au_SubmitAt r) ||
      ((au_State r <>s TradeProposalAutomaticVetoed) && negb (Before now (vp_VetoUntil p)))
  end.

(** The record that holds a served row which has none yet. *)
Definition vetoHold (w : autoWorld) (key : string) (served : TradeProposal) : automaticSubmissionRecord :=
  let '(policy, _, _) := aw_policy w in
  zero_Auto <| au_Version := automaticDocumentVersion |> <| au_Key := key |> <| au_Revision := pr_Revision served |>
    <| au_Bucket := automaticBucket w served |> <| au_EngineBucket := pr_Bucket served |> <| au_Symbol := pr_Symbol served |>
    <| au_SecType := pr_SecType served |> <| au_Action := pr_Action served |> <| au_Quantity := pr_Quantity served |>
    <| au_AccountID := sn_AccountID (aw_snap w) |> <| au_AccountMode := sn_AccountMode (aw_snap w) |>
    <| au_State := TradeProposalAutomaticPending |> <| au_VetoWindow := durationString (vetoWindow policy) |> <| au_CreatedAt := aw_now w |>
    <| au_SubmitAt := aw_now w |> <| au_Episode := match pr_Mandate served with Some m => mr_Episode m | None => "" end |>.

Definition vetoed (p : TradeProposalVetoParams) (now : time) (r : automaticSubmissionRecord) : automaticSubmissionRecord * automaticSubmissionEvent :=
  let r := r <| au_State := TradeProposalAutomaticVetoed |> <| au_VetoedAt := now |> <| au_ResolvedAt := now |> <| au_Origin := vp_Origin p |>
             <| au_Reason := nonEmptyString (TrimSpace (vp_Reason p)) "vetoed by the owner" |> in
  (r, (eventOf r automaticEventVetoed now) <| ae_Origin := vp_Origin p |> <| ae_Reason := au_Reason r |>).

(** The answer about a record. *)
Definition vetoAnswer (key : string) (now : time) (accepted : bool) (r : automaticSubmissionRecord) (message : string) : TradeProposalVetoResult :=
  mkVetoResult accepted key (au_Revision r) (au_State r) message (Some (autoView noticeDigest r true now)) now.

(** The switch over the record's state. *)
Definition vetoSettle (p : TradeProposalVetoParams) (key : string) (now : time) (m : autoRecords) (r : automaticSubmissionRecord)
    : autoRecords * list automaticSubmissionEvent * TradeProposalVetoResult :=
  let state := au_State r in
  if state =s TradeProposalAutomaticVetoed then
    (m, [], vetoAnswer key now true r "already vetoed; the hold lasts until the proposal revision changes")
  else if state =s TradeProposalAutomaticSubmitting then
    (m, [], vetoAnswer key now false r "the order is already being placed; cancel it through the orders surface once it is journaled")
  else if negb (autoWaiting r) then (m, [], vetoAnswer key now false r (say ["this automatic submission is already "; state; " and cannot be vetoed"]))
  else
    let '(r', ev) := vetoed p now r in
    (<[autoKey r' := r']> m, [ev], vetoAnswer key now true r' "automatic submission vetoed; the hold lasts until the proposal revision changes").

(** The mutation of Veto; [aw_now w] is the clock it reads under the lock. *)
Definition vetoMutate (w : autoWorld) (p : TradeProposalVetoParams) (m : autoRecords) (order : list string)
    : autoRecords * list automaticSubmissionEvent * TradeProposalVetoResult :=
  let now := aw_now w in
  let key := TrimSpace (vp_Key p) in
  let revision := TrimSpace (vp_Revision p) in
  let served := servedProposal (aw_snap w) key in
  let '(policy, policyOK, _) := aw_policy w in
  let refuse revision message := (m, [], mkVetoResult false key revision "" message None now) in
  let target := vetoTarget key revision served m order in
  if ((vp_NoticeID p <>s "") || negb (IsZero (vp_VetoUntil p))) && vetoWindowGone p now target then
    refuse revision "this notification no longer identifies a current veto window; review the pending orders before vetoing"
  else match target with
       | Some r => vetoSettle p key now m r
       | None =>
           match served with
           | None => refuse revision "no automatic submission is pending for this proposal key at this revision"
           | Some row =>
               if (revision <>s "") && (pr_Revision row <>s revision) then
                 refuse revision "no automatic submission is pending for this proposal key at this revision"
               else if negb policyOK || negb (policyPreAuthorised policy (automaticBucket w row)) then
                 refuse (pr_Revision row) "this proposal's bucket is not pre-authorised; nothing submits itself, so there is nothing to veto"
               else vetoSettle p key now m (vetoHold w key row)
           end
       end.

Definition Veto (env : updateEnv) (wall asked : time) (w : autoWorld) (p : TradeProposalVetoParams) (sd : automaticSubmissionStore * autoDisk)
    : (automaticSubmissionStore * autoDisk) * result string TradeProposalVetoResult :=
  let key := TrimSpace (vp_Key p) in
  let revision := TrimSpace (vp_Revision p) in
  let refuse message at_ := Ok (mkVetoResult false key revision "" message None at_) in
  let conditional := (vp_NoticeID p <>s "") || negb (IsZero (vp_VetoUntil p)) in
  if negb (originIsHuman (vp_Origin p)) then
    (sd, Err "proposal veto is human-only: agent, missing and unknown origins are refused; run `canary proposals veto` from an interactive terminal or use the paired app")
  else if key =s "" then (sd, Err "proposal key is required")
  else if conditional && ((TrimSpace (vp_NoticeID p) =s "") || IsZero (vp_VetoUntil p)) then
    (sd, Err "notice_id and veto_until must be supplied together")
  else if negb (as_attached sd.1) then (sd, refuse "automatic submission records are unavailable" asked)
  else if negb (brokerScopeConcrete (aw_scope w)) then (sd, refuse "proposal veto requires a concrete account and paper/live mode" asked)
  else match autoUpdate env wall (vetoMutate w p) sd with
       | (sd, Err e) => (sd, refuse (say ["veto was not persisted: "; e]) (aw_now w))
       | (sd, Ok res) => (sd, Ok res)
       end.

(** handleTradeProposalsVeto, after the parameters are decoded; [windowed] is the
    notification's method, [engine] whether there is a proposal engine. *)
Definition handleTradeProposalsVeto (windowed engine : bool) (env : updateEnv) (wall asked : time) (w : autoWorld) (p : TradeProposalVetoParams)
    (sd : automaticSubmissionStore * autoDisk) : (automaticSubmissionStore * autoDisk) * result string TradeProposalVetoResult :=
  if windowed && ((TrimSpace (vp_NoticeID p) =s "") || IsZero (vp_VetoUntil p)) then
    (sd, Err "notification veto requires notice_id and veto_until")
  else if negb engine then (sd, Ok (mkVetoResult false (vp_Key p) (vp_Revision p) "" "proposal engine is unavailable" None asked))
  else Veto env wall asked w p sd.

(** ** The served row's automatic view *)

(** automaticSubmissionStore.served *)
Definition served (s : automaticSubmissionStore) (prop : TradeProposal) : option automaticSubmissionRecord :=
  match autoGet s (pr_Key prop) (pr_Revision prop), pr_Mandate prop with
  | Some rec, _ => Some rec
  | None, Some mandate =>
      if mr_Episode mandate =s "" then None
      else match automaticEpisodePrior (as_records s) (pr_Key prop) (mr_Episode mandate) with
           | Some prior => if au_State prior =s TradeProposalAutomaticVetoed then Some prior else None
           | None => None
           end
  | None, None => None
  end.

Definition decorateAutomatic (w : autoWorld) (s : automaticSubmissionStore) (prop : TradeProposal) : option TradeProposalAutomatic :=
  let '(policy, policyOK, _) := aw_policy w in
  let bucket := automaticBucket w prop in
  let pre := policyOK && policyPreAuthorised policy bucket in
  match served s prop with
  | Some rec => Some (autoView noticeDigest rec pre (aw_now w))
  | None =>
      if (bucket =s "") && negb pre then None
      else Some (mkAutomatic pre bucket "" "" 0 0 0 0 0 "" "" false (if pre then durationString (vetoWindow policy) else "") 0 0 0)
  end.
End Veto.
End Engine.
