(* ===== verification/AutoSystem.v ===== *)
(** * The pre-authorised scheduler as a system

    The scheduler of proposal_automatic.go as a step relation: its single goroutine
    recovers, reconciles and works through the listed records one by one (decide, run
    the submit path, store the intent and place, record the outcome) while the owner's
    vetoes and the alert producer's notices come in between; a step can end in a
    restart that reloads daemon.db.  [ay_open] and [ay_sends] are not kept by the code:
    the sends not since judged unsent, and every record handed to the broker call with
    the time it was.

    Proved of every reachable state: no record has two sends that may both have reached
    the broker, and one that waits, was vetoed or can be replaced has none. *)

From stdpp Require Import base decidable list strings gmap sorting.
From Stdlib Require Import ZArith Lia Ascii String SpecFloat.
From S2P Require Import Prelude OrderTypes OrderStatus BrokerScope OrderJournal WriteGate PreviewToken SendDisposition.
From S2P Require Import PositionEvidence OrderRisk QueueRecord QueueStore QueueExec QueueSystem QueuePrepare AutoRecord AutoEngine.

(** ** The store *)

Definition autoKeyed (m : autoRecords) : Prop := forall k r, m !! k = Some r -> autoKey r = k.

Definition loadRecords (records : list automaticSubmissionRecord) : autoRecords := fold_left (fun m r => <[autoKey r := r]> m) records ∅.
Definition autoDiskRecords (disk : autoDisk) : autoRecords := match ad_doc disk with None => ∅ | Some (_, records) => loadRecords records end.
Definition autoDiskRevision (disk : autoDisk) : Z := match ad_doc disk with None => 0 | Some (revision, _) => revision end.

Lemma find_app {A} (p : A -> bool) l l' : List.find p (l ++ l') = match List.find p l with Some x => Some x | None => List.find p l' end.
Proof. induction l as [|x l IH]; [done|]. cbn. by destruct (p x). Qed.

Lemma load_fold records (m : autoRecords) k :
  fold_left (fun m r => <[autoKey r := r]> m) records m !! k =
  match List.find (fun r => autoKey r =s k) (rev records) with Some r => Some r | None => m !! k end.
Proof.
  revert m. induction records as [|r records IH]; intros m; [done|]. cbn [fold_left rev]. rewrite IH, find_app. cbn [List.find].
  destruct (List.find _ (rev records)); [done|]. destruct (autoKey r =s k) eqn:E.
  - apply String.eqb_eq in E as <-. by rewrite lookup_insert_eq.
  - apply String.eqb_neq in E. by rewrite lookup_insert_ne.
Qed.

Lemma loadRecords_keyed records : autoKeyed (loadRecords records).
Proof.
  intros k r. unfold loadRecords. rewrite load_fold, lookup_empty. destruct (List.find _ _) as [x|] eqn:E; [|done].
  intros [= <-]. apply find_some in E as [_ E]. by apply String.eqb_eq in E.
Qed.

Lemma diskRecords_keyed disk : autoKeyed (autoDiskRecords disk).
Proof. unfold autoDiskRecords. destruct (ad_doc disk) as [[rev records]|]; [apply loadRecords_keyed | by intros k r]. Qed.

(** Reading the stored document gives back the records. *)
Lemma load_doc m : autoKeyed m -> loadRecords (docRecords m) = m.
Proof.
  intros Hk. apply map_eq. intros k. unfold loadRecords. rewrite load_fold, lookup_empty.
  assert (Hin : forall r, In r (rev (docRecords m)) <-> m !! autoKey r = Some r).
  { intros r. rewrite <- in_rev. unfold docRecords. rewrite (stable_sort_perm keyLE (map_to_list m).*2), <- list_elem_of_In, list_elem_of_fmap. split.
    - intros ([i x] & -> & Hx%elem_of_map_to_list). cbn [snd]. by rewrite (Hk i x Hx).
    - intros H. exists (autoKey r, r). split; [done | by apply elem_of_map_to_list]. }
  destruct (List.find _ _) as [x|] eqn:E.
  - apply find_some in E as [Hx E]. apply String.eqb_eq in E as <-. symmetry. by apply Hin.
  - destruct (m !! k) as [r|] eqn:Hm; [|done]. pose proof (Hk k r Hm) as <-.
    pose proof (find_none _ _ E r (proj2 (Hin r) Hm)) as Hn. cbn in Hn. by rewrite eqb_s_refl in Hn.
Qed.

Lemma autoBind_ok disk s : autoBind disk = Ok s -> s = mkAutoStore true (autoDiskRevision disk) (autoDiskRecords disk).
Proof.
  unfold autoBind, autoDiskRevision, autoDiskRecords, loadRecords. destruct (ad_doc disk) as [[rev records]|]; [case_match; [|done]|]; by intros [= <-].
Qed.

(** What a commit leaves on disk. *)
Definition autoCommitted (disk : autoDisk) (revision : Z) (wall : time) (w : autoRecords) (evs : list automaticSubmissionEvent) : autoDisk :=
  mkAutoDisk (Some (revision + 1, docRecords w)) (ad_log disk ++ map (fun ev => if IsZero (ae_At ev) then ev <| ae_At := wall |> else ev) evs).

Lemma committed_records disk revision wall w evs : autoKeyed w -> autoDiskRecords (autoCommitted disk revision wall w evs) = w.
Proof. apply load_doc. Qed.

(** An update changes nothing, or commits what its mutation made of the records of the
    same revision; the store follows unless the commit went unseen. *)
Inductive autoUpdated {A} (wall : time) (mutate : autoRecords -> list string -> autoRecords * list automaticSubmissionEvent * A) (order : list string)
    (s : automaticSubmissionStore) (disk : autoDisk) : automaticSubmissionStore -> autoDisk -> result string A -> Prop :=
| autoUpdated_not res :
    match res with
    | Ok a => as_attached s = true /\ exists w, mutate (as_records s) order = (w, [], a)
    | Err _ => True
    end -> autoUpdated wall mutate order s disk s disk res
| autoUpdated_commit w evs a s' res :
    mutate (as_records s) order = (w, evs, a) -> evs <> [] -> as_revision s = autoDiskRevision disk ->
    (s' = s /\ is_ok res = false) \/ (s' = mkAutoStore true (as_revision s + 1) w /\ res = Ok a) ->
    autoUpdated wall mutate order s disk s' (autoCommitted disk (as_revision s) wall w evs) res.

Lemma autoUpdate_updated {A} env wall (mutate : autoRecords -> list string -> autoRecords * list automaticSubmissionEvent * A) s disk :
  autoUpdated wall mutate (ue_order env) s disk (autoUpdate env wall mutate (s, disk)).1.1 (autoUpdate env wall mutate (s, disk)).1.2
    (autoUpdate env wall mutate (s, disk)).2.
Proof.
  unfold autoUpdate. destruct (as_attached s) eqn:Ha; cbn [negb fst snd]; [|by apply autoUpdated_not].
  destruct (mutate (as_records s) (ue_order env)) as [[w evs] a] eqn:Hm. destruct evs as [|ev evs]; [apply autoUpdated_not; cbn; eauto|].
  destruct (ue_encodes env); cbn [negb fst snd]; [|by apply autoUpdated_not]. unfold autoCAS.
  destruct (match ad_doc disk with None => _ | Some _ => _ end) eqn:Hh; destruct (ue_fault env); cbn [negb fst snd]; try by apply autoUpdated_not.
  all: assert (Hrev : as_revision s = autoDiskRevision disk) by (unfold autoDiskRevision; destruct (ad_doc disk) as [[? ?]|]; bool_hyps; congruence).
  all: apply (autoUpdated_commit _ _ _ _ _ w (ev :: evs) a); auto.
Qed.

(** ** Edits of the records *)

(** A record whose orders, if any, are all known not to have been sent. *)
Definition mustBeUnsent (r : automaticSubmissionRecord) : bool :=
  autoWaiting r || automaticRecordReplaceable r || (au_State r =s TradeProposalAutomaticVetoed).

(** An edit under which a send stays accounted for: never of a vetoed record, and a
    record that may have been sent stays one. *)
Definition quiet (o : option automaticSubmissionRecord) (r' : automaticSubmissionRecord) : Prop :=
  match o with
  | None => True
  | Some r => au_State r <> TradeProposalAutomaticVetoed /\ (mustBeUnsent r = true \/ mustBeUnsent r' = false)
  end.

Definition edits (m w : autoRecords) : Prop :=
  forall k, w !! k = m !! k \/ exists r', w !! k = Some r' /\ autoKey r' = k /\ quiet (m !! k) r'.

Lemma quiet_trans o r r' : quiet o r -> quiet (Some r) r' -> quiet o r'.
Proof. destruct o as [x|]; cbn; [|done]. intros [? [?|?]] [? [?|?]]; split; auto; congruence. Qed.

#[global] Instance edits_preorder : PreOrder edits.
Proof.
  split; [by left|]. intros a b c Hab Hbc k. destruct (Hbc k) as [->|(r & Hr & Hk & Hq)]; [apply Hab|].
  right. exists r. split; [done|]. split; [done|]. destruct (Hab k) as [<-|(x & Hx & _ & Hqx)]; [done|]. rewrite Hx in Hq. by apply (quiet_trans _ x).
Qed.

Lemma edits_keyed m w : autoKeyed m -> edits m w -> autoKeyed w.
Proof. intros Hk He k r Hr. destruct (He k) as [E|(x & Hx & Hkx & _)]; [apply Hk; congruence | congruence]. Qed.

Lemma edits_insert m r : quiet (m !! autoKey r) r -> edits m (<[autoKey r := r]> m).
Proof.
  intros Hq k. destruct (decide (autoKey r = k)) as [<-|Hne]; [right; exists r; by rewrite lookup_insert_eq | left; by rewrite lookup_insert_ne].
Qed.

(** A turn of a loop that keeps the record's key and every send accounted for. *)
Definition quietTurn (turn : automaticSubmissionRecord -> option (automaticSubmissionRecord * automaticSubmissionEvent)) : Prop :=
  forall r r' ev, turn r = Some (r', ev) -> autoKey r' = autoKey r /\ quiet (Some r) r'.

Lemma rangeAuto_edits turn order m : quietTurn turn -> autoKeyed m -> edits m (rangeAuto turn order m).1.
Proof.
  intros Ht. revert m. induction order as [|k order IH]; intros m Hk; cbn [rangeAuto]; [done|].
  destruct (m !! k ≫= turn) as [[r' ev]|] eqn:E; [|by apply IH]. apply bind_Some in E as (r & Hr & E).
  destruct (Ht _ _ _ E) as [Hkey Hq]. pose proof (Hk k r Hr) as <-. rewrite <- Hkey in *.
  assert (He : edits m (<[autoKey r' := r']> m)) by (apply edits_insert; by rewrite Hr).
  specialize (IH _ (edits_keyed _ _ Hk He)). destruct (rangeAuto turn order _) as [m' evs]. cbn [fst] in *. by etrans.
Qed.

(** What every record keeps through a loop. *)
Lemma rangeAuto_forall (P : string -> automaticSubmissionRecord -> Prop) turn order m :
  (forall k r r' ev, turn r = Some (r', ev) -> P k r -> P k r') -> (forall k r, m !! k = Some r -> P k r) ->
  forall k r, (rangeAuto turn order m).1 !! k = Some r -> P k r.
Proof.
  intros Ht. revert m. induction order as [|i order IH]; intros m Hm; cbn [rangeAuto]; [done|].
  destruct (m !! i ≫= turn) as [[r' ev]|] eqn:E; [|by apply IH]. apply bind_Some in E as (r & Hr & E).
  assert (Hm' : forall k x, <[i := r']> m !! k = Some x -> P k x) by (intros k x [[<- <-]|[_ Hx]]%lookup_insert_Some; eauto).
  specialize (IH _ Hm'). by destruct (rangeAuto turn order _).
Qed.

(** Other records are untouched. *)
Lemma rangeAuto_other turn order m k : k ∉ order -> (rangeAuto turn order m).1 !! k = m !! k.
Proof.
  revert m. induction order as [|i order IH]; intros m Hn; cbn [rangeAuto]; [done|]. apply not_elem_of_cons in Hn as [Hi Hn].
  destruct (m !! i ≫= turn) as [[r' ev]|] eqn:E; [|by apply IH]. specialize (IH (<[i := r']> m) Hn).
  destruct (rangeAuto turn order _). cbn [fst] in *. by rewrite IH, lookup_insert_ne.
Qed.

(** A record no turn edits is left alone. *)
Lemma rangeAuto_stays turn order m k r : m !! k = Some r -> turn r = None -> (rangeAuto turn order m).1 !! k = Some r.
Proof.
  revert m. induction order as [|i order IH]; intros m Hm Ht; cbn [rangeAuto]; [done|].
  destruct (m !! i ≫= turn) as [[r' ev]|] eqn:E; [|by apply IH]. assert (k <> i) by (intros ->; rewrite Hm in E; cbn in E; congruence).
  specialize (IH (<[i := r']> m) ltac:(by rewrite lookup_insert_ne) Ht). by destruct (rangeAuto turn order _).
Qed.

(** No event, no edit. *)
Lemma rangeAuto_silent turn order m : (rangeAuto turn order m).2 = [] -> (rangeAuto turn order m).1 = m.
Proof.
  induction order as [|k order IH]; cbn [rangeAuto]; [done|]. destruct (m !! k ≫= turn) as [[r' ev]|]; [|exact IH].
  destruct (rangeAuto turn order (<[k := r']> m)) as [m' evs]. cbn [fst snd]. intros H. discriminate H.
Qed.

Section Quiet.
Context (ParseDuration : string -> option Z) (durationString : Z -> string) (format4 : float64 -> string) (rfc3339 : time -> string)
        (noticeDigest : string -> string -> string -> string -> time -> Z -> string).

Lemma waiting_unsent r : autoWaiting r = true -> mustBeUnsent r = true.
Proof. unfold mustBeUnsent. by intros ->. Qed.
Lemma waiting_not_vetoed r : autoWaiting r = true -> au_State r <> TradeProposalAutomaticVetoed.
Proof. unfold autoWaiting, pending, deferred. intros H E. by rewrite E in H. Qed.
Lemma waiting_quiet r r' : autoWaiting r = true -> quiet (Some r) r'.
Proof. intros H. split; [by apply waiting_not_vetoed | left; by apply waiting_unsent]. Qed.
Lemma pending_waiting r : pending r = true -> autoWaiting r = true.
Proof. unfold autoWaiting. by intros ->. Qed.

Lemma reconcileTurn_quiet w : quietTurn (reconcileTurn format4 w).
Proof.
  intros r r' ev. unfold reconcileTurn. destruct (autoWaiting r) eqn:Hw; cbn [negb]; [|done].
  destruct (endReason format4 w r) as [[reason carry]|]; [|done]. intros [= <- _]. split; [done | by apply waiting_quiet].
Qed.

Lemma noticeTurn_quiet at_ : quietTurn (noticeTurn ParseDuration at_).
Proof.
  intros r r' ev. unfold noticeTurn. destruct (pending r) eqn:Hp; cbn [negb orb]; [|done]. case_match; [done|]. intros [= <- _].
  split; [done | by apply waiting_quiet, pending_waiting].
Qed.

Lemma rescheduleTurn_quiet at_ now : quietTurn (rescheduleTurn rfc3339 at_ now).
Proof.
  intros r r' ev. unfold rescheduleTurn. destruct (autoWaiting r) eqn:Hw; cbn [negb]; [|done].
  repeat case_match; try done; intros [= <- _]; (split; [done | by apply waiting_quiet]).
Qed.

Lemma restartTurn_quiet due now reason : quietTurn (restartTurn due now reason).
Proof.
  intros r r' ev. unfold restartTurn. destruct (autoWaiting r) eqn:Hw; cbn [negb]; [|done]. intros [= <- _]. split; [done | by apply waiting_quiet].
Qed.

Lemma holdAutoTurn_quiet reason now : quietTurn (holdAutoTurn reason now).
Proof.
  intros r r' ev. unfold holdAutoTurn. destruct (autoWaiting r) eqn:Hw; cbn [negb orb]; [|done]. case_match; [done|]. intros [= <- _].
  split; [done | by apply waiting_quiet].
Qed.

Lemma recoverAutoTurn_quiet events now : quietTurn (recoverAutoTurn events now).
Proof.
  intros r r' ev. unfold recoverAutoTurn. destruct (au_State r =s TradeProposalAutomaticSubmitting) eqn:Hs; cbn [negb]; [|done].
  apply String.eqb_eq in Hs. unfold automaticRestartOutcome.
  destruct (orderJournalSendOutcome events (au_PreviewTokenID r)) as [o ref]. destruct o; intros [= <- _]; (split; [done|]);
    (split; [by rewrite Hs | right]); done.
Qed.
End Quiet.

(** ** The mutations *)

Lemma freshRecord_key ParseDuration durationString w baseline recovering prop :
  autoKey (freshRecord ParseDuration durationString w baseline recovering prop) = automaticRecordKey (pr_Key prop) (pr_Revision prop).
Proof. unfold freshRecord. by destruct (aw_policy w) as [[policy ok] disarmed]. Qed.

Lemma episodeRecord_key ParseDuration w recovering prop m r r' :
  episodeRecord ParseDuration w recovering prop m r = Some r' -> autoKey r' = autoKey r.
Proof.
  unfold episodeRecord, inheritClock. destruct (aw_policy w) as [[policy ok] disarmed]. repeat case_match; intros [= <-]; done.
Qed.

Lemma replaceable_quiet r r' : automaticRecordReplaceable r = true -> quiet (Some r) r'.
Proof.
  intros H. split.
  - intros E. unfold automaticRecordReplaceable, automaticRecoverableFailure in H. by rewrite E in H.
  - left. unfold mustBeUnsent. rewrite H. by rewrite orb_true_r.
Qed.

Section Mutations.
Context (ParseDuration : string -> option Z) (durationString : Z -> string) (format4 : float64 -> string)
        (noticeDigest : string -> string -> string -> string -> time -> Z -> string).

Lemma createRecord_edits w baseline m evs prop :
  edits m (createRecord ParseDuration durationString format4 w baseline (m, evs) prop).1.
Proof.
  unfold createRecord. destruct (candidate format4 w prop); cbn [negb]; [|done].
  destruct (match m !! _ with Some r => negb _ | None => false end) eqn:Hex; [done|].
  destruct (episodeRecord _ _ _ _ _ _) as [r|] eqn:Her; [|done]. cbn [fst].
  apply episodeRecord_key in Her. rewrite freshRecord_key in Her.
  set (r' := r <| au_SubmitAt := _ |>). apply (edits_insert m r'). change (autoKey r') with (autoKey r). rewrite Her.
  destruct (m !! _) as [x|]; [|done]. apply negb_false_iff in Hex. by apply replaceable_quiet.
Qed.

Lemma reconcileMutate_edits w baseline m order : autoKeyed m ->
  edits m (reconcileMutate ParseDuration durationString format4 w baseline m order).1.1.
Proof.
  intros Hk. unfold reconcileMutate. destruct (aw_policy w) as [[policy ok] disarmed].
  pose proof (rangeAuto_edits _ order m (reconcileTurn_quiet format4 w) Hk) as He. case_match; [exact He|].
  cbn [fst]. revert He. destruct (rangeAuto (reconcileTurn format4 w) order m) as [m1 evs1]. cbn [fst]. revert m1 evs1.
  induction (sn_Proposals (aw_snap w)) as [|prop props IH]; intros m1 evs1 He; [exact He|]. cbn [fold_left].
  pose proof (createRecord_edits w baseline m1 evs1 prop) as Hc.
  destruct (createRecord ParseDuration durationString format4 w baseline (m1, evs1) prop) as [m2 evs2]. apply IH. by etrans.
Qed.

(** The record is one of the vetoed key, at the revision asked for, if any. *)
Definition vetoNames (p : TradeProposalVetoParams) (r : automaticSubmissionRecord) : Prop :=
  exists revision, autoKey r = automaticRecordKey (TrimSpace (vp_Key p)) revision /\
    (TrimSpace (vp_Revision p) <> "" -> revision = TrimSpace (vp_Revision p)).

Lemma vetoTarget_spec p served m order r : autoKeyed m ->
  vetoTarget (TrimSpace (vp_Key p)) (TrimSpace (vp_Revision p)) served m order = Some r -> m !! autoKey r = Some r /\ vetoNames p r.
Proof.
  intros Hk. unfold vetoTarget, vetoNames. destruct (TrimSpace (vp_Revision p) =s "") eqn:E; cbn [negb].
  - apply String.eqb_eq in E. rewrite E. destruct (List.find _ order) as [k|] eqn:Hf.
    + intros Hr. rewrite (Hk _ _ Hr). split; [done|]. apply find_some in Hf as [_ Hf]. rewrite Hr in Hf. bool_hyps.
      exists (au_Revision r). split; [|done]. rewrite <- (Hk _ _ Hr). unfold autoKey. congruence.
    + destruct served as [row|]; [|done]. intros Hr. rewrite (Hk _ _ Hr). split; [done|]. exists (pr_Revision row). split; [done | done].
  - intros Hr. rewrite (Hk _ _ Hr). split; [done|]. eauto.
Qed.

(** A record that was never noticed and has no latch. *)
Definition unnoticed (r : automaticSubmissionRecord) : Prop := au_NoticedAt r = 0 /\ au_LatchSkippedWindow r = false.

(** What a veto does: nothing, or one waiting record, or a row without one, ends vetoed. *)
Definition vetoDone (p : TradeProposalVetoParams) (now : time) (m w : autoRecords) (evs : list automaticSubmissionEvent) (res : TradeProposalVetoResult) : Prop :=
  (w = m /\ evs = [] /\
   (vr_Accepted res = true -> exists r, m !! autoKey r = Some r /\ au_State r = TradeProposalAutomaticVetoed /\ au_Revision r = vr_Revision res /\ vetoNames p r)) \/
  exists r r', w = <[autoKey r' := r']> m /\ evs <> [] /\ autoKey r' = autoKey r /\ au_Revision r' = vr_Revision res /\
    r' = (vetoed p now r).1 /\ (m !! autoKey r = Some r \/ m !! autoKey r = None /\ unnoticed r) /\ autoWaiting r = true /\ vetoNames p r.

Lemma vetoSettle_spec p key now m r w evs res : (m !! autoKey r = Some r \/ (m !! autoKey r = None /\ autoWaiting r = true /\ unnoticed r)) -> vetoNames p r ->
  vetoSettle noticeDigest p key now m r = (w, evs, res) -> vetoDone p now m w evs res.
Proof.
  intros Hr Hn. unfold vetoSettle. destruct (au_State r =s TradeProposalAutomaticVetoed) eqn:Hv.
  { intros [= <- <- <-]. left. split; [done|]. split; [done|]. intros _. apply String.eqb_eq in Hv. exists r.
    destruct Hr as [Hr|(_ & Hr & _)]; [done | by apply waiting_not_vetoed in Hr]. }
  destruct (au_State r =s TradeProposalAutomaticSubmitting); [intros [= <- <- <-]; by left|].
  destruct (autoWaiting r) eqn:Hw; cbn [negb]; [|intros [= <- <- <-]; by left].
  intros [= <- <- <-]. right. exists r. eexists. split; [done|]. split; [done|]. split; [done|]. split; [done|]. split; [done|]. intuition.
Qed.

Lemma vetoMutate_spec w p m order w' evs res : autoKeyed m -> vetoMutate ParseDuration durationString noticeDigest w p m order = (w', evs, res) ->
  vetoDone p (aw_now w) m w' evs res.
Proof.
  intros Hk. unfold vetoMutate. destruct (aw_policy w) as [[policy ok] disarmed] eqn:Hpol. case_match; [intros [= <- <- <-]; by left|].
  destruct (vetoTarget _ _ _ m order) as [r|] eqn:Ht.
  { apply vetoTarget_spec in Ht as [Ht Hn]; [|done]. apply vetoSettle_spec; [by left | done]. }
  destruct (servedProposal (aw_snap w) (TrimSpace (vp_Key p))) as [row|] eqn:Hs; [|intros [= <- <- <-]; by left].
  destruct ((TrimSpace (vp_Revision p) <>s "") && (pr_Revision row <>s TrimSpace (vp_Revision p))) eqn:Hrev; [intros [= <- <- <-]; by left|].
  case_match; [intros [= <- <- <-]; by left|].
  unfold vetoTarget in Ht. destruct (TrimSpace (vp_Revision p) =s "") eqn:E; cbn [negb andb] in *.
  - apply vetoSettle_spec; unfold vetoHold; rewrite Hpol.
    + right. split; [|by split]. change (autoKey _) with (automaticRecordKey (TrimSpace (vp_Key p)) (pr_Revision row)).
      by destruct (List.find _ order) as [k|] eqn:Hf; [apply find_some in Hf as [_ Hf]; rewrite Ht in Hf|].
    + exists (pr_Revision row). split; [done|]. apply String.eqb_eq in E. by rewrite E.
  - apply negb_false_iff, String.eqb_eq in Hrev. apply vetoSettle_spec; unfold vetoHold; rewrite Hpol.
    + right. split; [|by split]. change (autoKey _) with (automaticRecordKey (TrimSpace (vp_Key p)) (pr_Revision row)). by rewrite Hrev.
    + exists (pr_Revision row). done.
Qed.

Lemma vetoDone_edits p now m w evs res : vetoDone p now m w evs res -> edits m w.
Proof.
  intros [(-> & _ & _)|(r & r' & -> & _ & Hkey & _ & _ & [Hm|[Hm _]] & Hw & _)]; [done| |]; apply edits_insert; rewrite Hkey, Hm; [by apply waiting_quiet | done].
Qed.
End Mutations.

(** ** One submission *)

Lemma stageAutoTurn_spec token now r r' ev : stageAutoTurn token now r = Some (r', ev) ->
  autoWaiting r = true /\ autoKey r' = autoKey r /\ au_State r' = TradeProposalAutomaticSubmitting /\ mustBeUnsent r' = false.
Proof. unfold stageAutoTurn. destruct (autoWaiting r); cbn [negb]; [|done]. by intros [= <- _]. Qed.

Lemma outcomeAutoTurn_key finish staged res err placeErr rec r r' ev : outcomeAutoTurn finish staged res err placeErr rec r = Some (r', ev) ->
  autoKey r' = autoKey r /\ autoTerminal r = false.
Proof. unfold outcomeAutoTurn. destruct (autoTerminal r); [done|]. repeat case_match; intros [= <- _]; done. Qed.

(** The refusals of the place call that say nothing was sent: a disposition that does, or
    the freeze refusal of the admission, which precedes every frame. *)
Definition placeProvesUnsent (placeErr : option sendErr) : bool :=
  match placeErr with
  | None => false
  | Some e => provesUnsent placeErr || (errIs e "errTradingFrozen" && negb (present (se_typed e)))
  end.

(** After the place call a record ends as possibly sent, unless the refusal says otherwise. *)
Lemma placedTurn_unsent finish placed rec r r' ev :
  outcomeAutoTurn finish true (submitPlaced placed).1 None (submitPlaced placed).2 rec r = Some (r', ev) ->
  mustBeUnsent r' = false \/ placeProvesUnsent (submitPlaced placed).2 = true.
Proof.
  unfold outcomeAutoTurn. destruct (autoTerminal r); [done|]. cbn [present negb andb orb].
  destruct placed as [[[accepted ref] message]|e]; cbn [submitPlaced fst snd su_Accepted su_Blockers refusedBy].
  - destruct accepted; [intros [= <- _]; by left|]. intros [= <- _]. by left.
  - unfold automaticUnsentAuthorityRefusal, automaticFrozenRefusal, placeProvesUnsent, provesUnsent. cbn [su_Accepted refusedBy].
    destruct (errIs e "automaticDisarmedError" && _) eqn:Ha; [intros _; right; apply andb_true_iff in Ha as [_ Ha]; by rewrite Ha|].
    destruct (errIs e "errTradingFrozen"); cbn [negb andb]; [|intros [= <- _]; by left].
    destruct (present (se_typed e)); cbn [negb]; [|intros _; right; by rewrite orb_true_r].
    destruct (SendDispositionOf (Some e) =s _) eqn:Hd; [by right|]. intros [= <- _]. by left.
Qed.

Lemma onAuto_edits key revision turn m order : autoKeyed m ->
  (forall r r' ev, m !! automaticRecordKey key revision = Some r -> turn r = Some (r', ev) -> autoKey r' = autoKey r /\ quiet (Some r) r') ->
  edits m (onAuto key revision turn m order).1.1.
Proof.
  intros Hk Ht. unfold onAuto. cbn [rangeAuto]. destruct (m !! _ ≫= turn) as [[r' ev]|] eqn:E; [|done].
  apply bind_Some in E as (r & Hr & E). destruct (Ht r r' ev Hr E) as [Hkey Hq]. cbn [fst]. rewrite <- (Hk _ _ Hr), <- Hkey.
  apply edits_insert. by rewrite Hkey, (Hk _ _ Hr), Hr.
Qed.

Lemma onAuto_spec key revision turn m order :
  onAuto key revision turn m order =
  match m !! automaticRecordKey key revision ≫= turn with
  | Some (r', ev) => (<[automaticRecordKey key revision := r']> m, [ev], tt)
  | None => (m, [], tt)
  end.
Proof. unfold onAuto. cbn [rangeAuto]. by destruct (m !! _ ≫= turn) as [[r' ev]|]. Qed.

(** ** The system *)

(** A pass of submitDueAutomatic: what it read, the records it listed, those to come. *)
Record pass := mkPass { ps_world : autoWorld; ps_records : list automaticSubmissionRecord; ps_rest : list automaticSubmissionRecord }.

(** Where the scheduler is: between passes, between two records of a pass, in the submit
    path of one, about to record its refusal, or waiting for the broker call. *)
Inductive autoPhase :=
| Resting
| Passing (p : pass)
| Submitting (p : pass) (rec : automaticSubmissionRecord)
| Settling (p : pass) (rec : automaticSubmissionRecord) (res : submitResult) (err : option sendErr)
| Placed (p : pass) (rec : automaticSubmissionRecord) (token : string).

Record autoSys := mkAutoSys {
  ay_store : automaticSubmissionStore; ay_disk : autoDisk; ay_phase : autoPhase;
  ay_open : list (string * string); ay_sends : list (automaticSubmissionRecord * time); ay_clock : time
}.

Section System.
Context (ParseDuration : string -> option Z) (durationString : Z -> string) (format4 : float64 -> string) (rfc3339 : time -> string)
        (noticeDigest : string -> string -> string -> string -> time -> Z -> string).
(** The worlds a run meets. *)
Context (admits : autoWorld -> Prop).

Definition autoState (y : autoSys) : automaticSubmissionStore * autoDisk := (ay_store y, ay_disk y).
Definition autoMove (y : autoSys) (sd : automaticSubmissionStore * autoDisk) (ph : autoPhase) (now : time) : autoSys :=
  mkAutoSys sd.1 sd.2 ph (ay_open y) (ay_sends y) now.
(** Go's range visits every record once. *)
Definition autoRanges (env : updateEnv) (y : autoSys) : Prop := Permutation (ue_order env) (map_to_list (as_records (ay_store y))).*1.

Inductive autoStep (y : autoSys) : autoSys -> Prop :=
| auto_recover env wall startedAt now journal :
    ay_phase y = Resting -> ay_clock y <= now ->
    autoStep y (autoMove y (recoverAutomatic env wall startedAt now journal (autoState y)) Resting now)
| auto_reconcile env wall w :
    ay_phase y = Resting -> admits w -> ay_clock y <= aw_now w -> autoRanges env y ->
    autoStep y (autoMove y (reconcileAutomatic ParseDuration durationString format4 env wall w (autoState y)) Resting (aw_now w))
| auto_pass w :
    ay_phase y = Resting -> admits w -> ay_clock y <= aw_now w ->
    let records := dispatchOrder w (ay_store y) in
    autoStep y (autoMove y (autoState y) (Passing (mkPass w records records)) (aw_now w))
| auto_decide env wall now p rec rest :
    ay_phase y = Passing p -> ps_rest p = rec :: rest -> ay_clock y <= now ->
    let p' := mkPass (ps_world p) (ps_records p) rest in
    autoStep y
      match dueDecision ParseDuration (ps_world p) (ps_records p) rec with
      | Submit => autoMove y (autoState y) (if mayBegin (ay_store y) rec now then Submitting p' rec else Passing p') now
      | d => autoMove y (applyAutoDecision ParseDuration rfc3339 env wall now (ps_world p) rec d (autoState y)) (Passing p') now
      end
| auto_end p :
    ay_phase y = Passing p -> autoStep y (autoMove y (autoState y) Resting (ay_clock y))
| auto_submit env wall now sw p rec :
    ay_phase y = Submitting p rec -> ay_clock y <= now ->
    autoStep y
      match submitGates sw with
      | inl (res, err) => autoMove y (autoState y) (Settling p rec res err) now
      | inr preview =>
          match stageAutomatic env wall now rec preview (autoState y) with
          | (sd, Ok _) =>
              mkAutoSys sd.1 sd.2 (Placed p rec (op_PreviewTokenID preview)) (ay_open y ++ [(autoKey rec, op_PreviewTokenID preview)])
                (ay_sends y ++ [(default rec (autoGet (ay_store y) (au_Key rec) (au_Revision rec)), now)]) now
          | (sd, Err why) => autoMove y sd (Settling p rec (submitNotPersisted why) None) now
          end
      end
| auto_settle env wall finish p rec res err :
    ay_phase y = Settling p rec res err -> ay_clock y <= finish ->
    autoStep y (autoMove y (autoUpdate env wall (onAuto (au_Key rec) (au_Revision rec) (outcomeAutoTurn finish false res err None rec)) (autoState y)).1
                  (Passing p) finish)
| auto_placed env wall finish placed p rec token :
    ay_phase y = Placed p rec token -> ay_clock y <= finish ->
    let res := (submitPlaced placed).1 in
    let placeErr := (submitPlaced placed).2 in
    let sd := (autoUpdate env wall (onAuto (au_Key rec) (au_Revision rec) (outcomeAutoTurn finish true res None placeErr rec)) (autoState y)).1 in
    autoStep y (mkAutoSys sd.1 sd.2 (Passing p)
                  (if placeProvesUnsent placeErr then List.filter (fun o => negb ((o.1 =s autoKey rec) && (o.2 =s token))) (ay_open y) else ay_open y)
                  (ay_sends y) finish)
| auto_veto windowed engine env wall asked w vp :
    admits w -> ay_clock y <= aw_now w -> autoRanges env y ->
    autoStep y (autoMove y (handleTradeProposalsVeto ParseDuration durationString noticeDigest windowed engine env wall asked w vp (autoState y)).1
                  (ay_phase y) (aw_now w))
| auto_notice env wall keys at_ now :
    at_ <= now -> ay_clock y <= now ->
    autoStep y (autoMove y (markAutomaticNoticed ParseDuration env wall keys at_ (autoState y)) (ay_phase y) now)
| auto_restart s :
    autoBind (ay_disk y) = Ok s -> autoStep y (autoMove y (s, ay_disk y) Resting (ay_clock y)).

(** A daemon started on a database whose records have no send of this run. *)
Definition autoInitial (y : autoSys) : Prop :=
  autoBind (ay_disk y) = Ok (ay_store y) /\ ay_phase y = Resting /\ ay_open y = [] /\ ay_sends y = [].
Definition autoReachable (y : autoSys) : Prop := exists y0, autoInitial y0 /\ rtc autoStep y0 y.

(** ** The invariant *)

(** The sends of one record. *)
Definition sendsOf (k : string) (sends : list (automaticSubmissionRecord * time)) : list (automaticSubmissionRecord * time) :=
  List.filter (fun s => autoKey s.1 =s k) sends.

(** Keys the owner has vetoed, with the sends of each so far. *)
Context (held : string -> Prop) (already : string -> list (automaticSubmissionRecord * time)).

(** The sends a stored record may have open. *)
Definition attempts (o : option automaticSubmissionRecord) (opens : list string) : Prop :=
  match o with
  | None => opens = []
  | Some r => (List.length opens <= 1)%nat /\ (mustBeUnsent r = true -> opens = [])
  end.

Record coreInv (s : automaticSubmissionStore) (disk : autoDisk) (opens : list (string * string)) : Prop := mkCoreInv {
  ci_attempts : forall k, attempts (autoDiskRecords disk !! k) (opensOf k opens);
  ci_keyed : autoKeyed (as_records s);
  ci_same : as_revision s = autoDiskRevision disk -> as_records s = autoDiskRecords disk;
  ci_veto : forall k r, as_records s !! k = Some r -> au_State r = TradeProposalAutomaticVetoed ->
    exists r', autoDiskRecords disk !! k = Some r' /\ au_State r' = TradeProposalAutomaticVetoed;
  ci_held : forall k, held k -> exists r, autoDiskRecords disk !! k = Some r /\ au_State r = TradeProposalAutomaticVetoed
}.

(** In the submit path the record waits or was vetoed meanwhile; the broker call runs for
    the one open send of its record. *)
Definition autoPhaseInv (ph : autoPhase) (m : autoRecords) (opens : list (string * string)) : Prop :=
  match ph with
  | Resting | Passing _ => True
  | Submitting _ rec | Settling _ rec _ _ =>
      forall r, m !! autoKey rec = Some r -> autoWaiting r = true \/ au_State r = TradeProposalAutomaticVetoed
  | Placed _ rec token => opensOf (autoKey rec) opens = [token]
  end.

Record autoInv (y : autoSys) : Prop := mkAutoInv {
  ai_core : coreInv (ay_store y) (ay_disk y) (ay_open y);
  ai_phase : autoPhaseInv (ay_phase y) (as_records (ay_store y)) (ay_open y);
  ai_sends : forall k, held k -> sendsOf k (ay_sends y) = already k
}.

Lemma attempts_filter o p l : attempts o l -> attempts o (List.filter p l).
Proof.
  destruct o as [r|]; cbn; [|by intros ->]. intros [Hl Hu]. split; [etrans; [apply filter_length_le | done]|]. intros H. by rewrite (Hu H).
Qed.

Lemma attempts_quiet o r l : quiet o r -> attempts o l -> attempts (Some r) l.
Proof.
  destruct o as [x|]; cbn; [|intros _ ->; split; [cbn; lia | done]]. intros [_ [H|H]] [Hl Hu]; [rewrite (Hu H); cbn; split; [lia | done] | split; [done | congruence]].
Qed.

(** What one commit keeps. *)
Lemma commit_core s disk opens opens' wall w evs s' :
  coreInv s disk opens -> as_revision s = autoDiskRevision disk -> autoKeyed w ->
  (forall k, attempts (as_records s !! k) (opensOf k opens) -> attempts (w !! k) (opensOf k opens')) ->
  (forall k r, as_records s !! k = Some r -> au_State r = TradeProposalAutomaticVetoed -> w !! k = Some r) ->
  s' = s \/ s' = mkAutoStore true (as_revision s + 1) w ->
  coreInv s' (autoCommitted disk (as_revision s) wall w evs) opens'.
Proof.
  intros [Ha Hk Hs Hv Hh] Hrev Hkw Hat Hvet Hs'. specialize (Hs Hrev).
  assert (Hd : autoDiskRecords (autoCommitted disk (as_revision s) wall w evs) = w) by (by apply committed_records).
  split; rewrite ?Hd.
  - intros k. apply Hat. rewrite Hs. apply Ha.
  - by destruct Hs' as [-> | ->].
  - destruct Hs' as [-> | ->]; cbn; [lia | done].
  - destruct Hs' as [-> | ->]; cbn; intros k r Hr Hst; exists r; [by split; [apply Hvet|] | done].
  - intros k Hk'. destruct (Hh k Hk') as (r & Hr & Hst). exists r. split; [|done]. apply Hvet; [by rewrite Hs | done].
Qed.

Lemma update_core {A} env wall (mutate : autoRecords -> list string -> autoRecords * list automaticSubmissionEvent * A) s disk opens :
  coreInv s disk opens -> edits (as_records s) (mutate (as_records s) (ue_order env)).1.1 ->
  coreInv (autoUpdate env wall mutate (s, disk)).1.1 (autoUpdate env wall mutate (s, disk)).1.2 opens.
Proof.
  intros Hc He. destruct (autoUpdate_updated env wall mutate s disk) as [res Hres|w evs a s' res Hm Hne Hrev Hs']; [done|].
  rewrite Hm in He. cbn [fst] in He. apply (commit_core s disk opens); auto.
  - by apply (edits_keyed (as_records s)), He; apply Hc.
  - intros k Hat. destruct (He k) as [->|(r & -> & _ & Hq)]; [done | by apply (attempts_quiet _ _ _ Hq)].
  - intros k r Hr Hv. destruct (He k) as [->|(r' & _ & _ & Hq)]; [done|]. rewrite Hr in Hq. by destruct Hq.
  - destruct Hs' as [[-> _] | [-> _]]; auto.
Qed.

Lemma update_records {A} env wall (mutate : autoRecords -> list string -> autoRecords * list automaticSubmissionEvent * A) s disk :
  as_records (autoUpdate env wall mutate (s, disk)).1.1 = as_records s \/
  as_records (autoUpdate env wall mutate (s, disk)).1.1 = (mutate (as_records s) (ue_order env)).1.1.
Proof.
  destruct (autoUpdate_updated env wall mutate s disk) as [res Hres|w evs a s' res Hm Hne Hrev [[-> _] | [-> _]]]; auto.
  right. by rewrite Hm.
Qed.

(** Storing the intent: either it is committed and seen, or nothing is placed. *)
Lemma stageAutomatic_spec env wall now rec preview s disk opens :
  coreInv s disk opens -> (forall r, as_records s !! autoKey rec = Some r -> autoWaiting r = true \/ au_State r = TradeProposalAutomaticVetoed) ->
  match stageAutomatic env wall now rec preview (s, disk) with
  | (sd, Ok _) => exists r r' ev evs, as_records s !! autoKey rec = Some r /\ autoWaiting r = true /\
      stageAutoTurn (op_PreviewTokenID preview) now r = Some (r', ev) /\ as_revision s = autoDiskRevision disk /\
      sd = (mkAutoStore true (as_revision s + 1) (<[autoKey rec := r']> (as_records s)),
            autoCommitted disk (as_revision s) wall (<[autoKey rec := r']> (as_records s)) evs)
  | (sd, Err _) => coreInv sd.1 sd.2 opens /\ as_records sd.1 = as_records s
  end.
Proof.
  intros Hc Hph. unfold stageAutomatic. destruct ((au_EngineBucket rec =s TradeProposalBucketCashSweep) && _); [by split|].
  assert (He : edits (as_records s) (onAuto (au_Key rec) (au_Revision rec) (stageAutoTurn (op_PreviewTokenID preview) now) (as_records s) (ue_order env)).1.1).
  { apply onAuto_edits; [apply Hc|]. intros r r' ev Hr Ht. destruct (stageAutoTurn_spec _ _ _ _ _ Ht) as (Hw & Hk & _ & _).
    split; [done | by apply waiting_quiet]. }
  pose proof (update_core env wall _ s disk opens Hc He) as Hc'.
  pose proof (autoUpdate_updated env wall (onAuto (au_Key rec) (au_Revision rec) (stageAutoTurn (op_PreviewTokenID preview) now)) s disk) as Hu.
  destruct (autoUpdate env wall _ (s, disk)) as [[s' d'] res]. cbn [fst snd] in *.
  destruct Hu as [res Hres|w evs a s' res Hm Hne Hrev Hs'].
  - destruct res as [u|e]; [|done]. destruct Hres as [_ [w Hw]]. rewrite onAuto_spec in Hw. unfold autoGet. fold (autoKey rec) in *.
    destruct (as_records s !! autoKey rec) as [r|] eqn:Hr; [|done]. destruct (Hph r eq_refl) as [Hwt|Hv]; [|by rewrite Hv].
    cbn [mbind option_bind] in Hw. unfold stageAutoTurn in Hw. rewrite Hwt in Hw. cbn [negb] in Hw. discriminate Hw.
  - rewrite onAuto_spec in Hm. fold (autoKey rec) in *. destruct (as_records s !! autoKey rec) as [r|] eqn:Hr; cbn [mbind option_bind] in Hm; [|by injection Hm as <- <- _].
    destruct (stageAutoTurn _ now r) as [[r' ev]|] eqn:Ht; [|by injection Hm as <- <- _]. injection Hm as <- <- _.
    destruct Hs' as [[-> Hf] | [-> ->]]; [by destruct res as [?|e]|]. cbn [fst]. unfold autoGet. cbn [as_records]. fold (autoKey rec).
    rewrite lookup_insert_eq. destruct (stageAutoTurn_spec _ _ _ _ _ Ht) as (Hw & _ & -> & _). rewrite eqb_s_refl. eauto 10.
Qed.

Lemma recover_core env wall startedAt now journal s disk opens : coreInv s disk opens ->
  coreInv (recoverAutomatic env wall startedAt now journal (s, disk)).1 (recoverAutomatic env wall startedAt now journal (s, disk)).2 opens.
Proof.
  intros Hc. unfold recoverAutomatic. destruct (List.filter _ _) as [|r0 stuck]; [done|]. destruct journal as [events|]; [|done].
  apply update_core; [done|]. apply rangeAuto_edits; [apply recoverAutoTurn_quiet | apply Hc].
Qed.

Lemma reconcile_core env wall w s disk opens : coreInv s disk opens ->
  let sd := reconcileAutomatic ParseDuration durationString format4 env wall w (s, disk) in coreInv sd.1 sd.2 opens.
Proof.
  intros Hc. unfold reconcileAutomatic. case_match; [done|]. apply update_core; [done|]. apply reconcileMutate_edits, Hc.
Qed.

Lemma decision_core env wall now w rec d s disk opens : coreInv s disk opens ->
  let sd := applyAutoDecision ParseDuration rfc3339 env wall now w rec d (s, disk) in coreInv sd.1 sd.2 opens.
Proof.
  intros Hc. destruct d; cbn [applyAutoDecision fst snd]; try done; (apply update_core; [done|]); (apply onAuto_edits; [apply Hc|]);
    intros r r' ev _ Ht; [by apply holdAutoTurn_quiet in Ht | by apply rescheduleTurn_quiet in Ht | by apply restartTurn_quiet in Ht].
Qed.

Definition notices (at_ : time) (keys : list (string * string)) (m : autoRecords) (_ : list string) : autoRecords * list automaticSubmissionEvent * unit :=
  (rangeAuto (noticeTurn ParseDuration at_) (map (fun k => automaticRecordKey k.1 k.2) keys) m, tt).

Lemma markAutomaticNoticed_update env wall keys at_ sd :
  markAutomaticNoticed ParseDuration env wall keys at_ sd = sd \/
  markAutomaticNoticed ParseDuration env wall keys at_ sd = (autoUpdate env wall (notices at_ keys) sd).1.
Proof. destruct keys; [by left | by right]. Qed.

Lemma notice_core env wall keys at_ s disk opens : coreInv s disk opens ->
  let sd := markAutomaticNoticed ParseDuration env wall keys at_ (s, disk) in coreInv sd.1 sd.2 opens.
Proof.
  intros Hc. destruct (markAutomaticNoticed_update env wall keys at_ (s, disk)) as [-> | ->]; [done|].
  apply update_core; [done|]. apply rangeAuto_edits; [apply noticeTurn_quiet | apply Hc].
Qed.

Lemma handleVeto_update windowed engine env wall asked w vp sd :
  let res := handleTradeProposalsVeto ParseDuration durationString noticeDigest windowed engine env wall asked w vp sd in
  (res.1 = sd /\ forall a, res.2 = Ok a -> vr_Accepted a = false) \/
  res.1 = (autoUpdate env wall (vetoMutate ParseDuration durationString noticeDigest w vp) sd).1 /\
    (forall a, res.2 = Ok a -> vr_Accepted a = true -> (autoUpdate env wall (vetoMutate ParseDuration durationString noticeDigest w vp) sd).2 = Ok a).
Proof.
  cbv zeta. unfold handleTradeProposalsVeto, Veto. repeat case_match; cbn [fst snd];
    try (left; split; [done|]; intros a Ha; injection Ha as <-; done); try (left; split; [done|]; intros a Ha; discriminate Ha); right; split; try done;
    intros a' Ha; injection Ha as <-; done.
Qed.

Lemma veto_core windowed engine env wall asked w vp s disk opens : coreInv s disk opens ->
  let sd := (handleTradeProposalsVeto ParseDuration durationString noticeDigest windowed engine env wall asked w vp (s, disk)).1 in coreInv sd.1 sd.2 opens.
Proof.
  intros Hc. destruct (handleVeto_update windowed engine env wall asked w vp (s, disk)) as [[-> _]|[-> _]]; [done|].
  apply update_core; [done|]. destruct (vetoMutate _ _ _ w vp (as_records s) (ue_order env)) as [[w' evs] res] eqn:E.
  apply vetoMutate_spec, vetoDone_edits in E; [exact E | apply Hc].
Qed.

(** In the submit path a veto or a notice leaves the record waiting or vetoed. *)
Definition waitsOrVetoed (rec : automaticSubmissionRecord) (m : autoRecords) : Prop :=
  forall r, m !! autoKey rec = Some r -> autoWaiting r = true \/ au_State r = TradeProposalAutomaticVetoed.

Lemma notice_phase env wall keys at_ s disk rec : waitsOrVetoed rec (as_records s) ->
  waitsOrVetoed rec (as_records (markAutomaticNoticed ParseDuration env wall keys at_ (s, disk)).1).
Proof.
  intros Hw. destruct (markAutomaticNoticed_update env wall keys at_ (s, disk)) as [-> | ->]; [done|].
  destruct (update_records env wall (notices at_ keys) s disk) as [-> | ->]; [done|]. unfold notices. cbn [fst].
  intros r Hr. refine (rangeAuto_forall (fun k r => k = autoKey rec -> autoWaiting r = true \/ au_State r = TradeProposalAutomaticVetoed) _ _ _ _ _ _ _ Hr eq_refl).
  - intros k x x' ev Hx _ _. unfold noticeTurn in Hx. destruct (pending x) eqn:Hp; cbn [negb orb] in Hx; [|done]. case_match; [done|].
    injection Hx as <- _. left. by apply pending_waiting.
  - intros k x Hx ->. by apply Hw.
Qed.

Lemma veto_phase windowed engine env wall asked w vp s disk rec : autoKeyed (as_records s) -> waitsOrVetoed rec (as_records s) ->
  waitsOrVetoed rec (as_records (handleTradeProposalsVeto ParseDuration durationString noticeDigest windowed engine env wall asked w vp (s, disk)).1.1).
Proof.
  intros Hk Hw. destruct (handleVeto_update windowed engine env wall asked w vp (s, disk)) as [[-> _]|[-> _]]; [done|].
  destruct (update_records env wall (vetoMutate ParseDuration durationString noticeDigest w vp) s disk) as [-> | ->]; [done|].
  destruct (vetoMutate _ _ _ w vp (as_records s) (ue_order env)) as [[w' evs] res] eqn:E. cbn [fst].
  apply vetoMutate_spec in E as [(-> & _)|(r & r' & -> & _ & _ & _ & -> & _)]; [done| |done].
  intros x [[_ <-]|[_ Hx]]%lookup_insert_Some; [by right | by apply Hw].
Qed.

Lemma phase_kept ph m m' opens : autoPhaseInv ph m opens -> (forall rec, waitsOrVetoed rec m -> waitsOrVetoed rec m') -> autoPhaseInv ph m' opens.
Proof. destruct ph; cbn; intros H Hw; try done; by apply Hw. Qed.

Lemma vetoed_terminal r : au_State r = TradeProposalAutomaticVetoed -> autoTerminal r = true.
Proof. unfold autoTerminal. by intros ->. Qed.

Lemma settle_core env wall finish rec res err s disk opens : coreInv s disk opens -> waitsOrVetoed rec (as_records s) ->
  let sd := (autoUpdate env wall (onAuto (au_Key rec) (au_Revision rec) (outcomeAutoTurn finish false res err None rec)) (s, disk)).1 in
  coreInv sd.1 sd.2 opens.
Proof.
  intros Hc Hw. apply update_core; [done|]. apply onAuto_edits; [apply Hc|]. intros r r' ev Hr Ht.
  apply outcomeAutoTurn_key in Ht as [Hk Hterm]. split; [done|]. apply waiting_quiet.
  destruct (Hw r Hr) as [H|H]; [done|]. apply vetoed_terminal in H. congruence.
Qed.

Lemma opensOf_drop k token opens : opensOf k opens = [token] -> opensOf k (List.filter (fun o => negb ((o.1 =s k) && (o.2 =s token))) opens) = [].
Proof. intros H. rewrite opensOf_filter, H. cbn. by rewrite !eqb_s_refl. Qed.

Lemma narrow_core s disk opens p : coreInv s disk opens -> coreInv s disk (List.filter p opens).
Proof. intros [Ha Hk Hs Hv Hh]. split; try done. intros k. rewrite opensOf_filter. apply attempts_filter, Ha. Qed.

Lemma placed_core env wall finish placed rec token s disk opens : coreInv s disk opens -> opensOf (autoKey rec) opens = [token] ->
  let placeErr := (submitPlaced placed).2 in
  let sd := (autoUpdate env wall (onAuto (au_Key rec) (au_Revision rec) (outcomeAutoTurn finish true (submitPlaced placed).1 None placeErr rec)) (s, disk)).1 in
  coreInv sd.1 sd.2 (if placeProvesUnsent placeErr then List.filter (fun o => negb ((o.1 =s autoKey rec) && (o.2 =s token))) opens else opens).
Proof.
  intros Hc Ho. cbv zeta. set (opens' := if placeProvesUnsent _ then _ else _).
  assert (Hnarrow : forall k o, attempts o (opensOf k opens) -> attempts o (opensOf k opens')).
  { intros k o H. unfold opens'. case_if; [rewrite opensOf_filter; by apply attempts_filter | done]. }
  destruct (autoUpdate_updated env wall (onAuto (au_Key rec) (au_Revision rec) (outcomeAutoTurn finish true (submitPlaced placed).1 None (submitPlaced placed).2 rec)) s disk)
    as [ans _|w evs a s' ans Hm Hne Hrev Hs']; cbn [fst snd].
  { unfold opens'. case_if; [by apply narrow_core | done]. }
  rewrite onAuto_spec in Hm. fold (autoKey rec) in Hm. destruct (as_records s !! autoKey rec ≫= _) as [[r' ev]|] eqn:E; [|by injection Hm as <- <- _].
  injection Hm as <- <- _. apply bind_Some in E as (r & Hr & Ht). pose proof (outcomeAutoTurn_key _ _ _ _ _ _ _ _ _ Ht) as [Hk Hterm].
  apply (commit_core s disk opens); auto.
  - intros k x [[<- <-]|[_ Hx]]%lookup_insert_Some; [rewrite Hk; by apply Hc | by apply Hc].
  - intros k Hat. destruct (decide (autoKey rec = k)) as [<-|Hne']; [|rewrite lookup_insert_ne by done; by apply Hnarrow].
    rewrite lookup_insert_eq. destruct (placedTurn_unsent _ _ _ _ _ _ Ht) as [Hu|Hu].
    + apply Hnarrow in Hat. rewrite Hr in Hat. destruct Hat as [Hl _]. split; [done | congruence].
    + unfold opens'. rewrite Hu, (opensOf_drop _ _ _ Ho). split; [cbn; lia | done].
  - intros k x Hx Hv. apply vetoed_terminal in Hv. rewrite lookup_insert_ne; [done|]. intros <-. congruence.
  - destruct Hs' as [[-> _] | [-> _]]; auto.
Qed.

Lemma submit_core env wall now sw p rec y : autoInv y -> ay_phase y = Submitting p rec -> forall y',
  y' = match submitGates sw with
      | inl (res, err) => autoMove y (autoState y) (Settling p rec res err) now
      | inr preview =>
          match stageAutomatic env wall now rec preview (autoState y) with
          | (sd, Ok _) =>
              mkAutoSys sd.1 sd.2 (Placed p rec (op_PreviewTokenID preview)) (ay_open y ++ [(autoKey rec, op_PreviewTokenID preview)])
                (ay_sends y ++ [(default rec (autoGet (ay_store y) (au_Key rec) (au_Revision rec)), now)]) now
          | (sd, Err why) => autoMove y sd (Settling p rec (submitNotPersisted why) None) now
          end
      end -> autoInv y'.
Proof.
  intros [Hc Hph Hse] Hp y' ->. rewrite Hp in Hph. destruct (submitGates sw) as [[res err]|preview]; [by split|].
  pose proof (stageAutomatic_spec env wall now rec preview _ _ _ Hc Hph) as Hs. unfold autoState.
  destruct (stageAutomatic env wall now rec preview _) as [sd [u|why]]; [|destruct Hs as [Hc' Hr]; split; [done | cbn; by rewrite Hr | done]].
  destruct Hs as (r & r' & ev & evs & Hr & Hw & Ht & Hrev & ->). destruct (stageAutoTurn_spec _ _ _ _ _ Ht) as (_ & Hk & _ & Hu).
  assert (Hnil : opensOf (autoKey rec) (ay_open y) = []).
  { pose proof (ci_attempts _ _ _ Hc (autoKey rec)) as Hat. rewrite <- (ci_same _ _ _ Hc Hrev), Hr in Hat. apply Hat, waiting_unsent, Hw. }
  split; cbn [ay_store ay_disk ay_open ay_phase ay_sends fst snd autoPhaseInv]; [|by rewrite opensOf_snoc, Hnil, eqb_s_refl|].
  2:{ intros k Hheld. unfold autoGet. fold (autoKey rec). rewrite Hr. change (default rec (Some r)) with r. unfold sendsOf. rewrite List.filter_app. cbn [List.filter fst].
      destruct (autoKey r =s k) eqn:E; [|rewrite List.app_nil_r; by apply Hse]. apply String.eqb_eq in E. rewrite (ci_keyed _ _ _ Hc _ _ Hr) in E. subst k.
      destruct (ci_held _ _ _ Hc _ Hheld) as (x & Hx & Hv). rewrite <- (ci_same _ _ _ Hc Hrev) in Hx. apply waiting_not_vetoed in Hw. congruence. }
  apply (commit_core (ay_store y) (ay_disk y) (ay_open y)); auto.
  - intros k x [[<- <-]|[_ Hx]]%lookup_insert_Some; [rewrite Hk; by apply Hc | by apply Hc].
  - intros k Hat. rewrite opensOf_snoc. destruct (decide (autoKey rec = k)) as [<-|Hne].
    + rewrite lookup_insert_eq, Hnil, eqb_s_refl. split; [cbn; lia | congruence].
    + rewrite lookup_insert_ne by done. rewrite (proj2 (String.eqb_neq (autoKey rec) k)) by done. by rewrite List.app_nil_r.
  - intros k x Hx Hv. rewrite lookup_insert_ne; [done|]. intros <-. apply waiting_not_vetoed in Hw. congruence.
Qed.

Lemma autoStep_inv y y' : autoInv y -> autoStep y y' -> autoInv y'.
Proof.
  intros Hi Hstep. pose proof Hi as [Hc Hph Hse].
  destruct Hstep as [env wall startedAt now journal Hp Hle|env wall w Hp Hadm Hle Hrg|w Hp Hadm Hle|env wall now p rec rest Hp Hrest Hle|p Hp
    |env wall now sw p rec Hp Hle|env wall finish p rec res err Hp Hle|env wall finish placed p rec token Hp Hle
    |windowed engine env wall asked w vp Hadm Hle Hrg|env wall keys at_ now Hat Hle|s Hb]; try rewrite Hp in Hph.
  - split; [by apply recover_core | done | done].
  - split; [by apply reconcile_core | done | done].
  - by split.
  - destruct (dueDecision ParseDuration (ps_world p) (ps_records p) rec) eqn:Hd; try (split; [by apply decision_core | done | done]).
    split; [done| |done]. unfold mayBegin. unfold autoGet. fold (autoKey rec).
    destruct (as_records (ay_store y) !! autoKey rec) as [cur|] eqn:Hcur; [|done]. destruct (autoWaiting cur) eqn:Hw; [|done]. cbn [andb].
    case_match; [|done]. intros r Hr. left. assert (E : Some cur = Some r) by (rewrite <- Hcur; exact Hr). by injection E as <-.
  - by split.
  - by apply (submit_core env wall now sw p rec y Hi Hp).
  - split; [by apply settle_core | done | done].
  - split; [by apply placed_core | done | done].
  - split; [by apply veto_core| |done]. apply (phase_kept _ _ _ _ Hph). intros rec Hw. apply veto_phase; [apply Hc | done].
  - split; [by apply notice_core| |done]. apply (phase_kept _ _ _ _ Hph). intros rec Hw. by apply notice_phase.
  - apply autoBind_ok in Hb as ->. split; [|done|done]. destruct Hc as [Ha Hk Hs Hv Hh]. split; cbn; [done | apply diskRecords_keyed | done | eauto | done].
Qed.

End System.

(** Every reachable state, with no key marked as vetoed. *)
Lemma autoReachable_inv ParseDuration durationString format4 rfc3339 noticeDigest admits y :
  autoReachable ParseDuration durationString format4 rfc3339 noticeDigest admits y -> autoInv (fun _ => False) (fun _ => []) y.
Proof.
  intros (y0 & (Hb & Hp & Ho & _) & Hsteps). assert (H0 : autoInv (fun _ => False) (fun _ => []) y0).
  { apply autoBind_ok in Hb. split; [|by rewrite Hp|done]. rewrite Hb, Ho. split; cbn; [|apply diskRecords_keyed | done | eauto | done].
    intros k. destruct (autoDiskRecords (ay_disk y0) !! k); [split; [cbn; lia | done] | done]. }
  clear Hb Hp Ho. induction Hsteps as [|y0 y1 y2 Hs _ IH]; [done|]. apply IH. revert Hs. by apply autoStep_inv.
Qed.
