(* ===== verification/AutoSafety.v ===== *)
(** * What the pre-authorised scheduler promises

    Theorems about every run of the scheduler (AutoSystem.v): a record is sent at most
    once, an accepted veto is final, and after a reconciliation only rows the owner
    still authorises wait. *)

From stdpp Require Import base decidable list strings gmap sorting.
From Stdlib Require Import ZArith Lia Ascii String SpecFloat.
From S2P Require Import Prelude OrderTypes OrderStatus BrokerScope OrderJournal WriteGate PreviewToken SendDisposition.
From S2P Require Import PositionEvidence OrderRisk QueueRecord QueueStore QueueExec QueueSystem QueuePrepare AutoRecord AutoEngine AutoSystem.

Section Safety.
Context (ParseDuration : string -> option Z) (durationString : Z -> string) (format4 : float64 -> string) (rfc3339 : time -> string)
        (noticeDigest : string -> string -> string -> string -> time -> Z -> string) (admits : autoWorld -> Prop).

Local Abbreviation Reachable := (autoReachable ParseDuration durationString format4 rfc3339 noticeDigest admits).
Local Abbreviation Step := (autoStep ParseDuration durationString format4 rfc3339 noticeDigest admits).
Local Abbreviation HandleVeto := (handleTradeProposalsVeto ParseDuration durationString noticeDigest).

(** ** One send *)

(** C8. Whatever is refused, vetoed, frozen, lost or restarted, no pre-authorised record ever has two order placements that may both have reached the broker; and a record that still waits, was vetoed, or that a fresh record may replace has none. *)
Theorem automatic_order_is_sent_at_most_once y : Reachable y -> forall k,
  (List.length (opensOf k (ay_open y)) <= 1)%nat /\
  (forall r, autoDiskRecords (ay_disk y) !! k = Some r -> mustBeUnsent r = true -> opensOf k (ay_open y) = []).
Proof.
  intros Hr k. pose proof (ci_attempts _ _ _ _ (ai_core _ _ _ (autoReachable_inv _ _ _ _ _ _ _ Hr)) k) as Ha.
  destruct (autoDiskRecords (ay_disk y) !! k) as [r|]; cbn in Ha; [|rewrite Ha; cbn; split; [lia | done]].
  destruct Ha as [Hl Hu]. split; [done|]. by intros x [= <-].
Qed.

(** ** The veto *)

(** An accepted veto stands on disk. *)
Lemma accepted_veto_stored windowed engine env wall asked w vp s disk opens held sd res :
  coreInv held s disk opens -> HandleVeto windowed engine env wall asked w vp (s, disk) = (sd, Ok res) -> vr_Accepted res = true ->
  exists r, autoDiskRecords sd.2 !! autoKey r = Some r /\ au_State r = TradeProposalAutomaticVetoed /\ vetoNames vp r.
Proof.
  intros Hc Hveto Hacc. destruct (handleVeto_update ParseDuration durationString noticeDigest windowed engine env wall asked w vp (s, disk)) as [[Hsd Hno]|[Hsd Hok]].
  { rewrite Hveto in Hno. by rewrite (Hno res eq_refl) in Hacc. }
  rewrite Hveto in Hsd, Hok. cbn [fst snd] in Hsd, Hok. specialize (Hok res eq_refl Hacc).
  pose proof (autoUpdate_updated env wall (vetoMutate ParseDuration durationString noticeDigest w vp) s disk) as Hu.
  rewrite <- Hsd, Hok in Hu. clear Hsd Hok Hveto. pose proof (ci_keyed _ _ _ _ Hc) as Hk.
  remember (Ok res) as ans eqn:Ha. destruct Hu as [ans Hres|w' evs a s' ans Hm Hne Hrev Hs']; subst ans.
  - destruct Hres as [_ [w' Hm]]. apply vetoMutate_spec in Hm as [(_ & _ & Hv)|(r & r' & _ & Hne & _)]; [|done|done].
    destruct (Hv Hacc) as (r & Hr & Hst & _ & Hn). destruct (ci_veto _ _ _ _ Hc _ _ Hr Hst) as (x & Hx & Hxv).
    pose proof (diskRecords_keyed disk _ _ Hx) as Hkx. exists x. rewrite Hkx. split; [done|]. split; [done|].
    destruct Hn as (rev & E & F). exists rev. by rewrite Hkx.
  - apply vetoMutate_spec in Hm as Hd; [|done]. pose proof (edits_keyed _ _ Hk (vetoDone_edits _ _ _ _ _ _ Hd)) as Hkw.
    rewrite (committed_records _ _ _ _ _ Hkw). destruct Hd as [(_ & -> & _)|(r & r' & -> & _ & Hkey & _ & -> & _ & _ & Hn)]; [done|].
    eexists. rewrite lookup_insert_eq. split; [done|]. split; [done|]. destruct Hn as (rev & E & F). exists rev. by rewrite Hkey.
Qed.

Lemma steps_inv held already y y' : rtc Step y y' -> autoInv held already y -> autoInv held already y'.
Proof. induction 1 as [|y0 y1 y2 Hs _ IH]; [done|]. intros H. apply IH. revert Hs. by apply autoStep_inv. Qed.

(** C9. Once the owner's veto is accepted, the record it names is vetoed in the database, no placement of it is outstanding, and it stays vetoed and no order of it is ever sent again, through refusals, failed or unseen commits, later vetoes and restarts. *)
Theorem accepted_veto_is_final y windowed engine env wall asked w vp sd res :
  Reachable y -> admits w -> ay_clock y <= aw_now w -> autoRanges env y ->
  HandleVeto windowed engine env wall asked w vp (autoState y) = (sd, Ok res) -> vr_Accepted res = true ->
  exists k revision, k = automaticRecordKey (TrimSpace (vp_Key vp)) revision /\ (TrimSpace (vp_Revision vp) <> "" -> revision = TrimSpace (vp_Revision vp)) /\
    forall y', rtc Step (autoMove y sd (ay_phase y) (aw_now w)) y' ->
      (exists r, autoDiskRecords (ay_disk y') !! k = Some r /\ au_State r = TradeProposalAutomaticVetoed) /\
      opensOf k (ay_open y') = [] /\ sendsOf k (ay_sends y') = sendsOf k (ay_sends y).
Proof.
  intros Hreach Hadm Hle Hrg Hveto Hacc. pose proof (autoReachable_inv _ _ _ _ _ _ _ Hreach) as Hinv.
  destruct (accepted_veto_stored _ _ _ _ _ _ _ _ _ _ _ _ _ (ai_core _ _ _ Hinv) Hveto Hacc) as (r & Hr & Hst & revision & Hk & Hrev).
  assert (Hnext : Step y (autoMove y sd (ay_phase y) (aw_now w))).
  { pose proof (auto_veto ParseDuration durationString format4 rfc3339 noticeDigest admits y windowed engine env wall asked w vp Hadm Hle Hrg) as H. by rewrite Hveto in H. }
  pose proof (autoStep_inv _ _ _ _ _ _ _ _ _ _ Hinv Hnext) as [Hc Hph _].
  exists (autoKey r), revision. split; [done|]. split; [done|]. intros y' Hsteps.
  assert (H1 : autoInv (eq (autoKey r)) (fun k => sendsOf k (ay_sends y)) (autoMove y sd (ay_phase y) (aw_now w))).
  { split; [|exact Hph|by intros k <-]. destruct Hc as [Ha Hkd Hs Hv _]. split; try done. intros k <-. eauto. }
  pose proof (steps_inv _ _ _ _ Hsteps H1) as [Hc' _ Hse].
  destruct (ci_held _ _ _ _ Hc' _ eq_refl) as (x & Hx & Hxv). split; [eauto|]. split; [|by apply Hse].
  pose proof (ci_attempts _ _ _ _ Hc' (autoKey r)) as Ha. rewrite Hx in Ha. apply Ha. unfold mustBeUnsent. rewrite Hxv. apply orb_true_r.
Qed.
End Safety.

(** ** Reconciling *)

(** A record of a row the owner still authorises: armed under the standing authority, its
    row served unblocked at its revision, neither locked nor queued by the owner, its
    bucket pre-authorised. *)
Definition stillAuthorised (format4 : float64 -> string) (w : autoWorld) (r : automaticSubmissionRecord) : Prop :=
  exists policy prop, aw_policy w = (policy, true, None) /\ au_ArmedAt r = aw_armedAt w /\ policyPreAuthorised policy (au_Bucket r) = true /\
    In prop (sn_Proposals (aw_snap w)) /\ pr_Key prop = au_Key r /\ pr_Revision prop = au_Revision r /\ proposalUnblocked (aw_snap w) prop = true /\
    aw_locks w prop = [] /\ queuedLiveKeys format4 w (au_Key r) = false.

(** Blockers say why. *)
Definition speaks (b : TradingBlocker) : Prop := tb_Message b <> "".

(** While nothing is armed the policy lists nothing. *)
Lemma disarmed_policy paused active disarmed policy ok b : automaticPolicyAuthority paused active disarmed = (policy, ok, Some b) ->
  disarmed = Some b /\ forall bucket, policyPreAuthorised policy bucket = false.
Proof.
  unfold automaticPolicyAuthority. destruct active as [[p st]|]; [|done]. case_match; [done|]. destruct disarmed as [x|]; [|done]. intros [= <- _ <-].
  split; [done|]. intros bucket. unfold policyPreAuthorised. destruct (bucket =s preAuthorisedBucketCashSweep); [done|]. apply andb_false_r.
Qed.

Section Reconcile.
Context (ParseDuration : string -> option Z) (durationString : Z -> string) (format4 : float64 -> string).
Context (w : autoWorld) (paused : bool) (active : option (autoPolicy * string)) (disarmed : option TradingBlocker).
Hypothesis policy_read : aw_policy w = automaticPolicyAuthority paused active disarmed.
Hypothesis disarm_speaks : forall b, disarmed = Some b -> speaks b.
Hypothesis lock_speaks : forall prop b rest, aw_locks w prop = b :: rest -> speaks b.

Lemma presentRow_spec snap key prop : presentRow snap key = Some prop -> In prop (sn_Proposals snap) /\ pr_Key prop = key.
Proof. intros H. apply find_some in H as [H E]. split; [by apply in_rev | by apply String.eqb_eq]. Qed.

(** A waiting record that is not ended is still authorised. *)
Lemma endReason_none r : endReason format4 w r = None -> stillAuthorised format4 w r.
Proof.
  unfold endReason. rewrite policy_read. destruct (automaticPolicyAuthority paused active disarmed) as [[policy ok] dis] eqn:Hpol.
  destruct dis as [b|].
  { apply disarmed_policy in Hpol as [Hb _]. apply disarm_speaks in Hb.
    destruct (tb_Message b =s "") eqn:E; [by apply String.eqb_eq in E|done]. }
  destruct (au_ArmedAt r =? aw_armedAt w) eqn:Harm; cbn [negb]; [|done]. apply Z.eqb_eq in Harm.
  destruct (presentRow (aw_snap w) (au_Key r)) as [prop|] eqn:Hrow; [|done]. apply presentRow_spec in Hrow as [Hin Hkey].
  destruct (pr_Revision prop =s au_Revision r) eqn:Hrev; cbn [negb]; [|by case_match]. apply String.eqb_eq in Hrev.
  destruct (proposalUnblocked (aw_snap w) prop) eqn:Hub; cbn [negb]; [|done].
  destruct (aw_locks w prop) as [|b rest] eqn:Hl.
  2:{ pose proof (lock_speaks _ _ _ Hl) as Hb. destruct (tb_Message b =s "") eqn:E; [by apply String.eqb_eq in E|done]. }
  destruct (queuedLiveKeys format4 w (au_Key r)) eqn:Hq; [done|]. case_match; [done|].
  destruct ok, (policyPreAuthorised policy (au_Bucket r)) eqn:Hpre; cbn [negb andb]; try done. intros _.
  exists policy, prop. rewrite policy_read. done.
Qed.

(** The fields a record takes from its row and the standing authority. *)
Definition madeFor (prop : TradeProposal) (r : automaticSubmissionRecord) : Prop :=
  au_ArmedAt r = aw_armedAt w /\ au_Bucket r = automaticBucket w prop /\ au_Key r = pr_Key prop /\ au_Revision r = pr_Revision prop.

Lemma freshRecord_made baseline recovering prop : madeFor prop (freshRecord ParseDuration durationString w baseline recovering prop).
Proof. unfold freshRecord. by destruct (aw_policy w) as [[policy ok] dis]. Qed.

Lemma episodeRecord_made recovering prop m r r' : madeFor prop r -> episodeRecord ParseDuration w recovering prop m r = Some r' -> madeFor prop r'.
Proof.
  unfold episodeRecord, inheritClock. destruct (aw_policy w) as [[policy ok] dis]. intros Hm. repeat case_match; intros [= <-]; exact Hm.
Qed.

Lemma created_authorised policy prop r : aw_policy w = (policy, true, None) -> In prop (sn_Proposals (aw_snap w)) -> candidate format4 w prop = true ->
  madeFor prop r -> stillAuthorised format4 w r.
Proof.
  intros Hpol Hin Hc (Harm & Hb & Hk & Hr). unfold candidate in Hc. rewrite Hpol in Hc. apply andb_true_iff in Hc as [Hc Hq]. apply andb_true_iff in Hc as [Hpre Hub].
  exists policy, prop. rewrite Hk, Hr, Hb. split; [done|]. split; [done|]. split; [done|]. split; [done|]. split; [done|]. split; [done|]. split; [done|].
  split; [|by apply negb_true_iff]. unfold automaticBucket in Hpre. destruct (aw_locks w prop); [done|]. by unfold policyPreAuthorised in Hpre.
Qed.

(** What the waiting records of a map have in common. *)
Definition allAuthorised (m : autoRecords) : Prop := forall k r, m !! k = Some r -> autoWaiting r = true -> stillAuthorised format4 w r.

Lemma createRecord_authorised policy baseline m evs prop : aw_policy w = (policy, true, None) -> In prop (sn_Proposals (aw_snap w)) -> allAuthorised m ->
  allAuthorised (createRecord ParseDuration durationString format4 w baseline (m, evs) prop).1.
Proof.
  intros Hpol Hin Hall. unfold createRecord. destruct (candidate format4 w prop) eqn:Hc; cbn [negb]; [|done]. case_match; [done|].
  destruct (episodeRecord _ _ _ _ _ _) as [r|] eqn:Her; [|done]. cbn [fst].
  apply episodeRecord_made in Her; [|apply freshRecord_made]. intros k x [[_ <-]|[_ Hx]]%lookup_insert_Some; [|exact (Hall k x Hx)].
  intros _. by apply (created_authorised policy prop).
Qed.

(** A range over every key leaves no record its turn would edit. *)
Lemma rangeAuto_visited turn order m k : NoDup order -> k ∈ order ->
  (rangeAuto turn order m).1 !! k = match m !! k with Some r => match turn r with Some (r', _) => Some r' | None => Some r end | None => None end.
Proof.
  intros Hnd. revert m. induction Hnd as [|i order Hi Hnd IH]; intros m Hk; [by apply elem_of_nil in Hk|]. cbn [rangeAuto].
  apply elem_of_cons in Hk as [->|Hk].
  - destruct (m !! i) as [r|] eqn:Hm; cbn [mbind option_bind]; [|by rewrite rangeAuto_other].
    destruct (turn r) as [[r' ev]|]; [|by rewrite rangeAuto_other].
    pose proof (rangeAuto_other turn order (<[i := r']> m) i Hi) as H. destruct (rangeAuto turn order _). cbn [fst] in *. by rewrite H, lookup_insert_eq.
  - destruct (m !! i ≫= turn) as [[r' ev]|]; [|by apply IH]. specialize (IH (<[i := r']> m) Hk). destruct (rangeAuto turn order _). cbn [fst] in *.
    rewrite IH, lookup_insert_ne; [done|]. intros ->. done.
Qed.

Lemma reconcileTurn_authorised order m : Permutation order (map_to_list m).*1 -> allAuthorised (rangeAuto (reconcileTurn format4 w) order m).1.
Proof.
  intros Hperm k r Hr Hw. assert (Hnd : NoDup order) by (rewrite Hperm; apply NoDup_fst_map_to_list). destruct (decide (k ∈ order)) as [Hin|Hout].
  - rewrite (rangeAuto_visited _ _ _ _ Hnd Hin) in Hr.
    destruct (m !! k) as [x|]; [|done]. unfold reconcileTurn in Hr. destruct (autoWaiting x) eqn:Hwx; cbn [negb] in Hr; [|congruence].
    destruct (endReason format4 w x) as [[reason carry]|] eqn:He; [by injection Hr as <-|]. injection Hr as <-. by apply endReason_none.
  - rewrite rangeAuto_other in Hr by done. exfalso. apply Hout. rewrite Hperm. apply list_elem_of_fmap. exists (k, r). split; [done | by apply elem_of_map_to_list].
Qed.

Lemma reconcileMutate_authorised baseline m order : Permutation order (map_to_list m).*1 ->
  allAuthorised (reconcileMutate ParseDuration durationString format4 w baseline m order).1.1.
Proof.
  intros Hperm. unfold reconcileMutate. destruct (aw_policy w) as [[policy ok] dis] eqn:Hpol in |- *. pose proof (reconcileTurn_authorised order m Hperm) as H0.
  destruct (negb ok || _) eqn:Hok; [exact H0|]. apply orb_false_iff in Hok as [Hok _]. apply negb_false_iff in Hok as ->. cbn [fst].
  destruct (rangeAuto (reconcileTurn format4 w) order m) as [m1 evs1]. cbn [fst] in H0.
  destruct dis as [b|].
  { assert (Hnone : forall prop, candidate format4 w prop = false).
    { intros prop. unfold candidate. rewrite Hpol. rewrite policy_read in Hpol. apply disarmed_policy in Hpol as [_ Hpol]. by rewrite Hpol. }
    assert (Hst : forall props st, fold_left (createRecord ParseDuration durationString format4 w baseline) props st = st).
    { induction props as [|prop props IH]; intros [m2 evs2]; [done|]. cbn [fold_left createRecord]. rewrite Hnone. apply IH. }
    by rewrite Hst. }
  assert (Hgo : forall props m2 evs2, (forall p, In p props -> In p (sn_Proposals (aw_snap w))) -> allAuthorised m2 ->
    allAuthorised (fold_left (createRecord ParseDuration durationString format4 w baseline) props (m2, evs2)).1).
  { induction props as [|prop props IH]; intros m2 evs2 Hin H; [done|]. cbn [fold_left].
    pose proof (createRecord_authorised policy baseline m2 evs2 prop Hpol (Hin prop ltac:(by left)) H) as Hc.
    destruct (createRecord ParseDuration durationString format4 w baseline (m2, evs2) prop) as [m3 evs3]. apply IH; [|done]. intros p Hp. apply Hin. by right. }
  by apply Hgo.
Qed.

Lemma createRecord_silent baseline m evs prop :
  createRecord ParseDuration durationString format4 w baseline (m, evs) prop = (m, evs) \/
  (createRecord ParseDuration durationString format4 w baseline (m, evs) prop).2 <> [].
Proof.
  unfold createRecord. destruct (negb _); [by left|]. destruct (match m !! _ with Some r => negb _ | None => false end); [by left|].
  destruct (episodeRecord _ _ _ _ _ _); [|by left]. right. cbn [snd]. intros E. by apply app_eq_nil in E as [_ E].
Qed.

Lemma createRecord_grows baseline m evs prop : evs <> [] -> (createRecord ParseDuration durationString format4 w baseline (m, evs) prop).2 <> [].
Proof. intros H. destruct (createRecord_silent baseline m evs prop) as [-> | E]; done. Qed.

Lemma reconcileMutate_silent baseline m order :
  (reconcileMutate ParseDuration durationString format4 w baseline m order).1.2 = [] -> (reconcileMutate ParseDuration durationString format4 w baseline m order).1.1 = m.
Proof.
  unfold reconcileMutate. destruct (aw_policy w) as [[policy ok] dis]. pose proof (rangeAuto_silent (reconcileTurn format4 w) order m) as H0.
  case_match; [exact H0|]. cbn [fst snd]. destruct (rangeAuto (reconcileTurn format4 w) order m) as [m1 evs1]. cbn [fst snd] in H0.
  assert (Hgrow : forall props m2 evs2, evs2 <> [] -> (fold_left (createRecord ParseDuration durationString format4 w baseline) props (m2, evs2)).2 <> []).
  { induction props as [|prop props IH]; intros m2 evs2 Hne; [done|]. cbn [fold_left]. pose proof (createRecord_grows baseline m2 evs2 prop Hne) as Hg.
    destruct (createRecord ParseDuration durationString format4 w baseline (m2, evs2) prop) as [m3 evs3]. by apply IH. }
  destruct evs1 as [|ev evs1]; [|intros E; by apply Hgrow in E]. rewrite (H0 eq_refl).
  induction (sn_Proposals (aw_snap w)) as [|prop props IH]; [done|]. cbn [fold_left].
  destruct (createRecord_silent baseline m [] prop) as [-> | Hne]; [exact IH|].
  destruct (createRecord ParseDuration durationString format4 w baseline (m, []) prop) as [m3 evs3]. intros E. by apply Hgrow in E.
Qed.

(** C11. After a reconciliation that was persisted, whatever still waits to be submitted is a record of a row the owner still authorises: armed under the current standing authority, served unblocked at the record's revision, not locked, not the owner's own queued order, in a bucket the active policy pre-authorises. Disarming, a paused or drifted policy, a re-revised, blocked, locked or vanished row end the wait. A disarm or lock blocker is taken to carry a message, and the policy and its disarm to be what automaticPolicyAuthority reads. *)
Theorem only_authorised_rows_wait env wall s disk sd : sn_LoadedFromState (aw_snap w) = false -> Permutation (ue_order env) (map_to_list (as_records s)).*1 ->
  autoUpdate env wall (reconcileMutate ParseDuration durationString format4 w (settlingBaseline format4 w s)) (s, disk) = (sd, Ok tt) ->
  reconcileAutomatic ParseDuration durationString format4 env wall w (s, disk) = sd /\
  forall k r, as_records sd.1 !! k = Some r -> autoWaiting r = true -> stillAuthorised format4 w r.
Proof.
  intros Hload Hperm Hup. split; [unfold reconcileAutomatic; rewrite Hload; cbn [fst]; by rewrite Hup|].
  set (mutate := reconcileMutate ParseDuration durationString format4 w (settlingBaseline format4 w s)) in *.
  pose proof (autoUpdate_updated env wall mutate s disk) as Hu. rewrite Hup in Hu. cbn [fst snd] in Hu. clear Hup.
  pose proof (reconcileMutate_authorised (settlingBaseline format4 w s) (as_records s) (ue_order env) Hperm) as Hall.
  pose proof (reconcileMutate_silent (settlingBaseline format4 w s) (as_records s) (ue_order env)) as Hsil. fold mutate in Hall, Hsil.
  destruct sd as [s' d']. cbn [fst snd] in *. remember (Ok tt) as ans eqn:Ha. destruct Hu as [ans Hres|w' evs a s' ans Hm Hne Hrev Hs']; subst ans.
  - destruct Hres as [_ [w' Hm]]. rewrite Hm in Hall, Hsil. cbn [fst snd] in Hall, Hsil. rewrite (Hsil eq_refl) in Hall. exact Hall.
  - rewrite Hm in Hall. destruct Hs' as [[_ Hf] | [-> _]]; [done | exact Hall].
Qed.
End Reconcile.

(** ** Where the code falls short of its comments *)

(** A restarted clock does not hold a record the freeze deferred: it falls due again at its
    retry time, whatever the new notice and the new window say. *)
Lemma restarted_deferred_is_due due now reason r r' ev t : deferred r = true -> restartTurn due now reason r = Some (r', ev) ->
  au_NoticedAt r' = 0 /\ au_SubmitAt r' = due /\ autoDue r' t false = negb (Before t (au_ResubmitAt r)).
Proof.
  intros Hd. unfold restartTurn. assert (Hw : autoWaiting r = true) by (unfold autoWaiting; rewrite Hd; apply orb_true_r). rewrite Hw. cbn [negb].
  intros [= <- _]. split; [done|]. split; [done|]. match goal with |- autoDue ?x t false = _ =>
    assert (E : au_State x = au_State r) by done; assert (F : au_ResubmitAt x = au_ResubmitAt r) by done; revert E F; generalize x end.
  intros x E F. unfold deferred in Hd. apply String.eqb_eq in Hd. unfold autoDue, pending, deferred. by rewrite E, F, Hd.
Qed.

(** Two records of a line in one breach: the second vetoed, the first settled after it. *)
Definition settledLate : autoRecords :=
  <["k|r1" := zero_Auto <| au_Key := "k" |> <| au_Revision := "r1" |> <| au_Episode := "e" |> <| au_State := TradeProposalAutomaticFailed |>
                        <| au_FailureFinal := true |> <| au_ResolvedAt := 3 |>]>
  (<["k|r2" := zero_Auto <| au_Key := "k" |> <| au_Revision := "r2" |> <| au_Episode := "e" |> <| au_State := TradeProposalAutomaticVetoed |>
                         <| au_VetoedAt := 2 |> <| au_ResolvedAt := 2 |>]> ∅).

(** The veto is then not the prior the next revision is held by. *)
Example late_failure_hides_the_veto : au_State <$> automaticEpisodePrior settledLate "k" "e" = Some TradeProposalAutomaticFailed.
Proof. vm_compute. reflexivity. Qed.
