(* ===== verification/AutoWindow.v ===== *)
(** * The owner's veto window

    Along every run of the scheduler (AutoSystem.v) whose policies give at least the
    window [W]: a record submitted without the drawdown latch was noticed to the owner
    at least [W] before.  The run's clock does not go back, sessions are read forward,
    the rows of a mandate reduction never skip the window, and Go's duration text reads
    back. *)

From stdpp Require Import base decidable list strings gmap sorting.
From Stdlib Require Import ZArith Lia Ascii String SpecFloat.
From S2P Require Import Prelude OrderTypes OrderStatus BrokerScope GoTime MarketSpecs MarketCalendar OrderJournal WriteGate PreviewToken SendDisposition.
From S2P Require Import PositionEvidence OrderRisk QueueRecord QueueStore QueueExec QueueSystem QueuePrepare AutoRecord AutoEngine AutoSystem.

(** ** The batch order keeps the records *)

Lemma filter_split {A} (p : A -> bool) l : Permutation (List.filter p l ++ List.filter (fun x => negb (p x)) l) l.
Proof.
  induction l as [|x l IH]; [done|]. cbn [List.filter]. destruct (p x); cbn [negb app]; [by constructor|].
  rewrite <- Permutation_middle. by constructor.
Qed.

Lemma refill_perm own batch records : List.length batch = List.length (List.filter own records) ->
  Permutation (refill own batch records) (batch ++ List.filter (fun r => negb (own r)) records).
Proof.
  revert batch. induction records as [|r records IH]; intros batch Hl; cbn [refill List.filter] in *.
  { destruct batch; [done | discriminate Hl]. }
  destruct (own r); cbn [negb].
  - destruct batch as [|b batch]; [discriminate Hl|]. injection Hl as Hl. cbn [app]. constructor. by apply IH.
  - rewrite <- Permutation_middle. constructor. by apply IH.
Qed.

Lemma prioritize_perm bucket rank records proposals : Permutation (prioritize bucket rank records proposals) records.
Proof.
  unfold prioritize. rewrite refill_perm by (apply Permutation_length, stable_sort_perm). rewrite stable_sort_perm. apply filter_split.
Qed.

Lemma dispatchOrder_perm w s : Permutation (dispatchOrder w s) (map_to_list (as_records s)).*2.
Proof.
  unfold dispatchOrder, prioritizeMandateRecords, prioritizeCashSweepRecords. rewrite !prioritize_perm. unfold autoList. apply stable_sort_perm.
Qed.

Lemma dispatchOrder_stored w s r : autoKeyed (as_records s) -> r ∈ dispatchOrder w s -> as_records s !! autoKey r = Some r.
Proof. intros Hk. rewrite dispatchOrder_perm. intros ([k x] & -> & Hx%elem_of_map_to_list)%list_elem_of_fmap. cbn [snd]. by rewrite (Hk k x Hx). Qed.

Lemma dispatchOrder_NoDup w s : autoKeyed (as_records s) -> NoDup (map autoKey (dispatchOrder w s)).
Proof.
  intros Hk. assert (Hp : Permutation (map autoKey (dispatchOrder w s)) (map_to_list (as_records s)).*1).
  { rewrite (Permutation_map autoKey (dispatchOrder_perm w s)). change ((map_to_list (as_records s)).*2) with (map snd (map_to_list (as_records s))).
    rewrite List.map_map. erewrite map_ext_in; [reflexivity|]. intros [k r] Hin%list_elem_of_In%elem_of_map_to_list. exact (Hk k r Hin). }
  rewrite Hp. apply NoDup_fst_map_to_list.
Qed.

(** ** What every record says about its window *)

Section Window.
Context (ParseDuration : string -> option Z) (durationString : Z -> string) (format4 : float64 -> string) (rfc3339 : time -> string)
        (noticeDigest : string -> string -> string -> string -> time -> Z -> string) (admits : autoWorld -> Prop) (W : Z).

(** A run's worlds: policies give the window, mandate rows never skip it, a closed
    session's next open is not in its past. *)
Record fair (w : autoWorld) : Prop := mkFair {
  fair_window : W <= vetoWindow ParseDuration (aw_policy w).1.1;
  fair_mandate : forall prop m, In prop (sn_Proposals (aw_snap w)) -> pr_Mandate prop = Some m -> mr_Episode m <> "" -> pr_NeverSkipVeto prop = true;
  fair_session : forall prop t market session next, aw_session w prop t = Some (market, session) -> ss_NextOpen session = Some next -> t <= next
}.
Hypothesis window_positive : 0 < W.
Hypothesis duration_reads_back : forall d, ParseDuration (durationString d) = Some d.
Hypothesis admits_fair : forall w, admits w -> fair w.

Lemma sessionDue_later w prop due : fair w -> due <= automaticSessionDue w prop due.
Proof.
  intros Hf. unfold automaticSessionDue. destruct (proposalHasContract prop); cbn [negb]; [|lia].
  destruct (proposalNeedsOpenSession prop); cbn [negb].
  - destruct (aw_session w prop due) as [[market session]|] eqn:Hs; [|lia]. destruct (match ss_State session with StateUnknown => true | _ => false end); [lia|].
    destruct (ss_IsOpen session && _); [destruct (Before due _) eqn:Hb; [apply Z.ltb_lt in Hb|]; lia|].
    destruct (ss_NextOpen session) as [next|] eqn:Hn; [|lia]. pose proof (fair_session _ Hf _ _ _ _ _ Hs Hn).
    unfold readinessOpeningOffset. repeat case_match; cbn [fst]; unfold readinessStockOpeningOffset, readinessOptionsOpeningOffset, readinessStressOptionsOpeningOffset, Minute, Second; lia.
  - unfold automaticCurrencySessionDue. repeat case_match; try lia. unfold After in *. bool_hyps. lia.
Qed.

(** Read at clock [c]. *)
Record windowOK (c : time) (r : automaticSubmissionRecord) : Prop := mkWindowOK {
  wk_mandate : au_Episode r <> "" -> au_LatchSkippedWindow r = false;
  wk_notice : au_LatchSkippedWindow r = false -> au_NoticedAt r <> 0 -> au_NoticedAt r <= c /\ au_NoticedAt r + W <= au_SubmitAt r;
  wk_window : au_LatchSkippedWindow r = false -> autoTerminal r = false -> exists d, W <= d /\ ParseDuration (au_VetoWindow r) = Some d;
  wk_deferred : au_LatchSkippedWindow r = false -> deferred r = true -> au_Episode r = "" -> au_NoticedAt r <> 0 /\ au_SubmitAt r <= c
}.

Lemma windowOK_later c c' r : c <= c' -> windowOK c r -> windowOK c' r.
Proof.
  intros Hle [Hm Hn Hw Hd]. split; try done.
  - intros Hl Hz. destruct (Hn Hl Hz). split; lia.
  - intros Hl Hdef He. destruct (Hd Hl Hdef He). split; [done | lia].
Qed.

Lemma waiting_not_terminal r : autoWaiting r = true -> autoTerminal r = false.
Proof.
  unfold autoWaiting, pending, deferred, autoTerminal. destruct (au_State r =s TradeProposalAutomaticPending) eqn:E; [apply String.eqb_eq in E as ->; done|].
  destruct (au_State r =s TradeProposalAutomaticDeferred) eqn:E'; [apply String.eqb_eq in E' as ->; done | done].
Qed.
Lemma pending_not_deferred r : pending r = true -> deferred r = false.
Proof. unfold pending, deferred. intros E%String.eqb_eq. by rewrite E. Qed.

(** A record that ends keeps what its window says. *)
Lemma windowOK_ends c r r' : windowOK c r -> autoTerminal r' = true ->
  au_Episode r' = au_Episode r -> au_LatchSkippedWindow r' = au_LatchSkippedWindow r -> au_NoticedAt r' = au_NoticedAt r -> au_SubmitAt r' = au_SubmitAt r ->
  windowOK c r'.
Proof.
  intros [Hm Hn Hw Hd] Ht He Hl Hno Hs. split; rewrite ?He, ?Hl, ?Hno, ?Hs; try done; [by rewrite Ht|].
  intros _ Hdef. assert (autoTerminal r' = false) by (apply waiting_not_terminal; unfold autoWaiting; rewrite Hdef; apply orb_true_r). congruence.
Qed.

(** A turn that keeps every record's window. *)
Definition windowTurn (c : time) (turn : automaticSubmissionRecord -> option (automaticSubmissionRecord * automaticSubmissionEvent)) : Prop :=
  forall r r' ev, turn r = Some (r', ev) -> windowOK c r -> windowOK c r'.

Lemma reconcileTurn_window c w : windowTurn c (reconcileTurn format4 w).
Proof.
  intros r r' ev. unfold reconcileTurn. destruct (negb _); [done|]. destruct (endReason format4 w r) as [[reason carry]|]; [|done].
  intros [= <- _] H. by apply (windowOK_ends c r).
Qed.

Lemma recoverAutoTurn_window c events now : windowTurn c (recoverAutoTurn events now).
Proof.
  intros r r' ev. unfold recoverAutoTurn. destruct (negb _); [done|]. unfold automaticRestartOutcome.
  destruct (orderJournalSendOutcome events (au_PreviewTokenID r)) as [o ref]. destruct o; intros [= <- _] H; by apply (windowOK_ends c r).
Qed.

Lemma noticeTurn_window c at_ : at_ <= c -> windowTurn c (noticeTurn ParseDuration at_).
Proof.
  intros Hat r r' ev. unfold noticeTurn. destruct (pending r) eqn:Hp; cbn [negb orb]; [|done]. destruct (negb _); [done|].
  set (due := if au_LatchSkippedWindow r then _ else _). intros [= <- _] [Hm Hn Hw Hd].
  assert (Hdue : au_LatchSkippedWindow r = false -> at_ + W <= due).
  { intros Hl. unfold due. rewrite Hl. destruct (Hw Hl (waiting_not_terminal r (pending_waiting r Hp))) as (d & HW & ->).
    rewrite (proj2 (Z.ltb_lt 0 d)) by lia. cbn [andb]. unfold After. case_if; lia. }
  split; try done.
  - intros Hl _. split; [done | by apply Hdue].
  - intros _ Hdef. change (deferred r = true) in Hdef. by rewrite (pending_not_deferred r Hp) in Hdef.
Qed.

Lemma rescheduleTurn_window c at_ now : windowTurn c (rescheduleTurn rfc3339 at_ now).
Proof.
  intros r r' ev. unfold rescheduleTurn. destruct (negb (autoWaiting r)); [done|]. destruct (deferred r) eqn:Hd.
  - destruct (negb _); [done|]. intros [= <- _] [Hm Hn Hw Hdf]. by split.
  - destruct (After at_ (au_SubmitAt r)) eqn:Ha; cbn [negb]; [|done]. apply Z.ltb_lt in Ha. intros [= <- _] [Hm Hn Hw Hdf]. split; try done.
    + intros Hl Hz. destruct (Hn Hl Hz) as [H1 H2]. split; [done|]. change (au_NoticedAt r + W <= at_). lia.
    + intros _ Hdef. change (deferred r = true) in Hdef. congruence.
Qed.

Lemma holdAutoTurn_window c reason now : windowTurn c (holdAutoTurn reason now).
Proof. intros r r' ev. unfold holdAutoTurn. case_match; [done|]. intros [= <- _] [Hm Hn Hw Hd]. by split. Qed.

(** A new clock: the notice is to come, for a breach's record. *)
Lemma restartTurn_window c due now reason r r' ev : (autoWaiting r = true -> au_Episode r <> "") ->
  restartTurn due now reason r = Some (r', ev) -> windowOK c r -> windowOK c r'.
Proof.
  intros He. unfold restartTurn. destruct (autoWaiting r) eqn:Hwt; cbn [negb]; [|done]. intros [= <- _] [Hm Hn Hw Hd]. split; try done.
  intros _ _ Hep. by destruct (He eq_refl).
Qed.

Lemma stageAutoTurn_window c token now : windowTurn c (stageAutoTurn token now).
Proof.
  intros r r' ev. unfold stageAutoTurn. destruct (autoWaiting r) eqn:Hwt; cbn [negb]; [|done]. intros [= <- _] [Hm Hn Hw Hd]. split; try done.
  intros Hl _. by apply Hw, waiting_not_terminal.
Qed.

(** A record whose attempt began after its window. *)
Definition ready (c : time) (r : automaticSubmissionRecord) : Prop :=
  au_LatchSkippedWindow r = false -> au_Episode r = "" -> au_NoticedAt r <> 0 /\ au_SubmitAt r <= c.

(** The fields the window is about. *)
Definition sameWindow (r r' : automaticSubmissionRecord) : Prop :=
  au_Episode r' = au_Episode r /\ au_LatchSkippedWindow r' = au_LatchSkippedWindow r /\ au_NoticedAt r' = au_NoticedAt r /\
  au_SubmitAt r' = au_SubmitAt r /\ au_VetoWindow r' = au_VetoWindow r.

Lemma windowOK_ready c r r' : windowOK c r -> ready c r -> autoTerminal r = false -> sameWindow r r' -> windowOK c r'.
Proof.
  intros [Hm Hn Hw Hd] Hr Ht (He & Hl & Hno & Hs & Hv). split; rewrite ?He, ?Hl, ?Hno, ?Hs, ?Hv; try done; intros Hl' *; [by intros _; apply Hw|].
  intros _ He'. by apply Hr.
Qed.

Lemma outcomeAutoTurn_same finish staged res err placeErr rec r r' ev : outcomeAutoTurn finish staged res err placeErr rec r = Some (r', ev) ->
  sameWindow r r' /\ autoTerminal r = false.
Proof.
  unfold outcomeAutoTurn. destruct (autoTerminal r); [done|].
  repeat match goal with |- (if ?b then _ else _) = _ -> _ => destruct b end; intros [= <- _]; done.
Qed.

(** ** Creation *)

Lemma prior_stored m key episode prior : automaticEpisodePrior m key episode = Some prior ->
  (exists k, m !! k = Some prior) /\ au_Episode prior = episode.
Proof.
  unfold automaticEpisodePrior. intros H.
  assert (Hgo : forall l acc, (forall x, acc = Some x -> x ∈ (map_to_list m).*2 /\ au_Episode x = episode) -> (forall x, x ∈ l -> x ∈ (map_to_list m).*2) ->
    forall x, fold_left (laterPrior key episode) l acc = Some x -> x ∈ (map_to_list m).*2 /\ au_Episode x = episode).
  { induction l as [|r l IH]; intros acc Hacc Hl x; cbn [fold_left]; [apply Hacc|]. apply IH; [|intros y Hy; apply Hl; set_solver].
    intros y Hy. unfold laterPrior in Hy. destruct ((au_Key r <>s key) || (au_Episode r <>s episode)) eqn:E; [by apply Hacc|].
    apply orb_false_iff in E as [_ E]. apply negb_false_iff, String.eqb_eq in E.
    assert (Hrl : r ∈ (map_to_list m).*2) by (apply Hl; set_solver).
    destruct acc as [p|]; [match type of Hy with (if ?b then _ else _) = _ => destruct b end; [by injection Hy as <- | by apply Hacc]|]. by injection Hy as <-. }
  destruct (Hgo (map_to_list m).*2 None ltac:(intros x [=]) ltac:(auto) _ H) as [Hin He]. split; [|done].
  apply list_elem_of_fmap in Hin as ([k x] & -> & Hx%elem_of_map_to_list). by exists k.
Qed.

Lemma sub_nonneg a b : b < a -> 0 <= Sub a b.
Proof. unfold Sub, min_duration, max_duration. lia. Qed.

Definition allOK (c : time) (m : autoRecords) : Prop := forall k r, m !! k = Some r -> windowOK c r.

(** A record that waits for its notice, with a window that is long enough. *)
Record newWindow (r : automaticSubmissionRecord) : Prop := mkNewWindow {
  nw_notice : au_NoticedAt r = 0;
  nw_pending : pending r = true;
  nw_window : exists d, W <= d /\ ParseDuration (au_VetoWindow r) = Some d
}.

Lemma newWindow_ok c r : newWindow r -> (au_Episode r <> "" -> au_LatchSkippedWindow r = false) -> windowOK c r /\ pending r = true.
Proof.
  intros [Hn Hp Hw] He. split; [|done]. split; try done. intros _ Hd. by rewrite (pending_not_deferred r Hp) in Hd.
Qed.

Lemma freshRecord_new w baseline recovering prop : fair w ->
  let r := freshRecord ParseDuration durationString w baseline recovering prop in
  newWindow r /\ au_Episode r = "" /\ (pr_NeverSkipVeto prop = true -> au_LatchSkippedWindow r = false).
Proof.
  intros [Hw Hm Hs]. unfold freshRecord. destruct (aw_policy w) as [[policy ok] dis]. cbn [fst] in Hw. split; [|split; [done|]].
  - split; [done|done|]. exists (vetoWindow ParseDuration policy). split; [done | apply duration_reads_back].
  - intros Hnever. cbn -[brokerScopeConcrete]. rewrite Hnever. by rewrite andb_false_r.
Qed.

(** A clock taken over keeps the notice and leaves it the whole window. *)
Lemma inheritClock_window c w prior r : fair w -> windowOK c prior -> c <= aw_now w -> au_Episode prior <> "" -> newWindow r -> au_LatchSkippedWindow r = false ->
  windowOK (aw_now w) (inheritClock ParseDuration w prior r) /\ pending (inheritClock ParseDuration w prior r) = true.
Proof.
  intros [Hfw _ _] [Hm Hn _ _] Hc He [_ Hp Hw] Hl. unfold inheritClock. destruct (aw_policy w) as [[policy ok] dis]. cbn [fst] in Hfw.
  set (due := if Before (au_ResolvedAt prior) (au_SubmitAt prior) && After (aw_now w) (au_ResolvedAt prior)
    then au_SubmitAt prior + Sub (aw_now w) (au_ResolvedAt prior) else au_SubmitAt prior).
  assert (Hdue : au_SubmitAt prior <= due).
  { unfold due. destruct (Before _ _ && After _ _) eqn:E; [|lia]. apply andb_true_iff in E as [_ E]. apply Z.ltb_lt in E. pose proof (sub_nonneg _ _ E). lia. }
  split; [|done]. split; try done.
  - intros _ Hz. destruct (Hn (Hm He) Hz) as [H1 H2].
    change (au_NoticedAt prior <= aw_now w /\ au_NoticedAt prior + W <= if After due (aw_now w + vetoWindow ParseDuration policy) then aw_now w + vetoWindow ParseDuration policy else due).
    split; [lia|]. case_match; lia.
  - intros _ Hd. change (deferred r = true) in Hd. by rewrite (pending_not_deferred r Hp) in Hd.
Qed.

Lemma episodeRecord_window c w recovering prop m r r' : fair w -> In prop (sn_Proposals (aw_snap w)) -> allOK c m -> c <= aw_now w -> newWindow r -> au_Episode r = "" ->
  (pr_NeverSkipVeto prop = true -> au_LatchSkippedWindow r = false) -> episodeRecord ParseDuration w recovering prop m r = Some r' -> windowOK (aw_now w) r' /\ pending r' = true.
Proof.
  intros Hf Hin Hall Hc Hnew He Hlatch. unfold episodeRecord. destruct (pr_Mandate prop) as [mandate|] eqn:Hman; [|intros [= <-]; by apply newWindow_ok].
  destruct (mr_Episode mandate =s "") eqn:Hep; [intros [= <-]; by apply newWindow_ok|]. apply String.eqb_neq in Hep.
  specialize (Hlatch (fair_mandate _ Hf _ _ Hin Hman Hep)). set (r1 := r <| au_Episode := _ |> <| au_ClockQuantity := _ |>).
  assert (H1 : newWindow r1) by (destruct Hnew; by split).
  destruct (automaticEpisodePrior m (pr_Key prop) (mr_Episode mandate)) as [prior|] eqn:Hprior; [|intros [= <-]; by apply newWindow_ok].
  destruct (au_State prior =s _); [done|]. apply prior_stored in Hprior as [[k Hk] Hpe].
  match goal with |- (if ?b then _ else _) = _ -> _ => destruct b end; intros [= <-]; [|by apply newWindow_ok].
  apply (inheritClock_window c); try done; [by apply (Hall k) | congruence].
Qed.

Lemma createRecord_window c w baseline m evs prop : fair w -> In prop (sn_Proposals (aw_snap w)) -> allOK c m -> c <= aw_now w -> allOK (aw_now w) m ->
  allOK (aw_now w) (createRecord ParseDuration durationString format4 w baseline (m, evs) prop).1.
Proof.
  intros Hf Hin Hall Hc Hlater. unfold createRecord. destruct (candidate format4 w prop); cbn [negb]; [|done].
  destruct (match m !! _ with Some r => negb _ | None => false end); [done|]. destruct (episodeRecord _ _ _ _ _ _) as [r|] eqn:Her; [|done]. cbn [fst].
  destruct (freshRecord_new w baseline (match m !! automaticRecordKey (pr_Key prop) (pr_Revision prop) with Some r => automaticRecoverableFailure r | None => false end) prop Hf)
    as (Hnew & He & Hl).
  apply (episodeRecord_window c) in Her; try done. intros k x [[_ <-]|[_ Hx]]%lookup_insert_Some; [|by apply (Hlater k)].
  destruct Her as [[Hm Hn Hw Hd] Hp]. split; try done.
  - intros Hla Hz. destruct (Hn Hla Hz) as [H1 H2]. split; [done|].
    change (au_NoticedAt r + W <= automaticSessionDue w prop (au_SubmitAt r)). pose proof (sessionDue_later w prop (au_SubmitAt r) Hf). lia.
  - intros _ Hdef. change (deferred r = true) in Hdef. by rewrite (pending_not_deferred r Hp) in Hdef.
Qed.

Lemma allOK_later c c' m : c <= c' -> allOK c m -> allOK c' m.
Proof. intros Hle H k r Hr. apply (windowOK_later c); [done | by apply (H k)]. Qed.

Lemma reconcileMutate_window c w baseline m order : fair w -> c <= aw_now w -> allOK c m ->
  allOK (aw_now w) (reconcileMutate ParseDuration durationString format4 w baseline m order).1.1.
Proof.
  intros Hf Hc Hall. unfold reconcileMutate. destruct (aw_policy w) as [[policy ok] dis] eqn:Hpol in |- *. apply (allOK_later _ _ _ Hc) in Hall.
  assert (H1 : allOK (aw_now w) (rangeAuto (reconcileTurn format4 w) order m).1).
  { intros k x Hx. refine (rangeAuto_forall (fun _ => windowOK (aw_now w)) _ _ _ _ Hall k x Hx). intros _ r r' ev. apply reconcileTurn_window. }
  case_match; [exact H1|]. cbn [fst]. destruct (rangeAuto (reconcileTurn format4 w) order m) as [m1 evs1]. cbn [fst] in H1.
  assert (Hgo : forall props m2 evs2, (forall p, In p props -> In p (sn_Proposals (aw_snap w))) -> allOK (aw_now w) m2 ->
    allOK (aw_now w) (fold_left (createRecord ParseDuration durationString format4 w baseline) props (m2, evs2)).1).
  { induction props as [|prop props IH]; intros m2 evs2 Hin Hm2; [done|]. cbn [fold_left].
    pose proof (createRecord_window (aw_now w) w baseline m2 evs2 prop Hf (Hin prop ltac:(by left)) Hm2 ltac:(lia) Hm2) as Hcr.
    destruct (createRecord ParseDuration durationString format4 w baseline (m2, evs2) prop) as [m3 evs3]. apply IH; [|done]. intros p Hp. apply Hin. by right. }
  by apply Hgo.
Qed.

Lemma vetoDone_window c p now m w evs res : allOK c m -> vetoDone p now m w evs res -> allOK c w.
Proof.
  intros Hall [(-> & _ & _)|(r & r' & -> & _ & _ & _ & -> & Hr & Hw & _)]; [done|]. intros k x [[_ <-]|[_ Hx]]%lookup_insert_Some; [|by apply (Hall k)].
  destruct Hr as [Hr|[_ [Hn Hl]]]; [by apply (windowOK_ends c r); [apply (Hall (autoKey r))|..]|].
  split; try done; intros; by rewrite Hn in *.
Qed.

(** ** Updates *)

Lemma loaded_stored w r k : loadRecords (docRecords w) !! k = Some r -> exists i, w !! i = Some r.
Proof.
  unfold loadRecords. rewrite load_fold, lookup_empty. destruct (List.find _ _) as [x|] eqn:E; [|done]. intros [= <-].
  apply find_some in E as [E _]. apply in_rev in E. unfold docRecords in E. rewrite (stable_sort_perm keyLE (map_to_list w).*2) in E.
  apply list_elem_of_In, list_elem_of_fmap in E as ([i y] & -> & Hy%elem_of_map_to_list). by exists i.
Qed.

(** Both the store and the database. *)
Definition bothOK (c : time) (sd : automaticSubmissionStore * autoDisk) : Prop := allOK c (as_records sd.1) /\ allOK c (autoDiskRecords sd.2).

Lemma update_window {A} c env wall (mutate : autoRecords -> list string -> autoRecords * list automaticSubmissionEvent * A) s disk :
  bothOK c (s, disk) -> allOK c (mutate (as_records s) (ue_order env)).1.1 -> bothOK c (autoUpdate env wall mutate (s, disk)).1.
Proof.
  intros [Hs Hd] Hm. rewrite (surjective_pairing (autoUpdate env wall mutate (s, disk)).1).
  destruct (autoUpdate_updated env wall mutate s disk) as [res _|w evs a s' res E Hne Hrev Hs']; [done|]. rewrite E in Hm. split; cbn [fst snd].
  - by destruct Hs' as [[-> _] | [-> _]].
  - intros k r Hr. apply loaded_stored in Hr as [i Hi]. by apply (Hm i).
Qed.

Lemma bothOK_later c c' sd : c <= c' -> bothOK c sd -> bothOK c' sd.
Proof. intros Hle [H1 H2]. split; by apply (allOK_later c). Qed.

Lemma onAuto_window c key revision turn m order :
  (forall r r' ev, m !! automaticRecordKey key revision = Some r -> turn r = Some (r', ev) -> windowOK c r -> windowOK c r') -> allOK c m ->
  allOK c (onAuto key revision turn m order).1.1.
Proof.
  intros Ht Hall. rewrite onAuto_spec. destruct (m !! _ ≫= turn) as [[r' ev]|] eqn:E; [|done]. apply bind_Some in E as (r & Hr & E). cbn [fst].
  intros k x [[_ <-]|[_ Hx]]%lookup_insert_Some; [|by apply (Hall k)]. apply (Ht r r' ev Hr E). by apply (Hall _ _ Hr).
Qed.

(** ** The invariant of a run *)

(** How a listed record's stored version can have changed since: only by its notice. *)
Definition listedTo (rec cur : automaticSubmissionRecord) : Prop :=
  autoWaiting cur = true -> au_Episode cur = au_Episode rec /\
    (pending cur = true -> au_LatchSkippedWindow cur = au_LatchSkippedWindow rec /\ pending rec = true /\
      (au_NoticedAt rec <> 0 -> au_NoticedAt cur = au_NoticedAt rec /\ au_SubmitAt cur = au_SubmitAt rec)).

(** A waiting record whose submission began after its window. *)
Definition begun (c : time) (cur : automaticSubmissionRecord) : Prop :=
  autoWaiting cur = true -> au_LatchSkippedWindow cur = false -> au_Episode cur = "" \/ pending cur = true -> au_NoticedAt cur <> 0 /\ au_SubmitAt cur <= c.

Definition inFlight (c : time) (cur : automaticSubmissionRecord) : Prop :=
  autoTerminal cur = false -> au_State cur = TradeProposalAutomaticSubmitting /\ ready c cur.

Definition atKey (m : autoRecords) (rec : automaticSubmissionRecord) (Q : automaticSubmissionRecord -> Prop) : Prop := forall cur, m !! autoKey rec = Some cur -> Q cur.

Record passOK (c : time) (m : autoRecords) (p : pass) : Prop := mkPassOK {
  pk_now : aw_now (ps_world p) <= c;
  pk_once : NoDup (map autoKey (ps_rest p));
  pk_listed : forall rec, rec ∈ ps_rest p -> atKey m rec (listedTo rec)
}.

Definition windowPhase (c : time) (ph : autoPhase) (m : autoRecords) : Prop :=
  match ph with
  | Resting => True
  | Passing p => passOK c m p
  | Submitting p rec | Settling p rec _ _ => passOK c m p /\ (autoKey rec ∉ map autoKey (ps_rest p)) /\ atKey m rec (begun c)
  | Placed p rec _ => passOK c m p /\ (autoKey rec ∉ map autoKey (ps_rest p)) /\ atKey m rec (inFlight c)
  end.

(** An order sent after the owner's window. *)
Definition sentInTime (s : automaticSubmissionRecord * time) : Prop :=
  au_LatchSkippedWindow s.1 = false -> au_Episode s.1 = "" \/ pending s.1 = true -> au_NoticedAt s.1 <> 0 /\ au_NoticedAt s.1 + W <= s.2.

Record windowInv (y : autoSys) : Prop := mkWindowInv {
  wi_records : bothOK (ay_clock y) (autoState y);
  wi_phase : windowPhase (ay_clock y) (ay_phase y) (as_records (ay_store y));
  wi_sends : Forall sentInTime (ay_sends y)
}.

(** What the phases say of a record survives a notice, a veto and the time. *)
Definition stable (Q : automaticSubmissionRecord -> Prop) : Prop :=
  (forall at_ r r' ev, noticeTurn ParseDuration at_ r = Some (r', ev) -> Q r -> Q r') /\ (forall r, autoTerminal r = true -> Q r).

Lemma terminal_not_waiting r : autoTerminal r = true -> autoWaiting r = false.
Proof. intros H. destruct (autoWaiting r) eqn:E; [|done]. apply waiting_not_terminal in E. congruence. Qed.

Lemma noticeTurn_spec at_ r r' ev : noticeTurn ParseDuration at_ r = Some (r', ev) ->
  pending r = true /\ au_NoticedAt r = 0 /\ pending r' = true /\ au_Episode r' = au_Episode r /\ au_LatchSkippedWindow r' = au_LatchSkippedWindow r.
Proof.
  unfold noticeTurn. destruct (pending r) eqn:Hp; cbn [negb orb]; [|done]. destruct (IsZero (au_NoticedAt r)) eqn:Hz; cbn [negb]; [|done].
  apply Z.eqb_eq in Hz. by intros [= <- _].
Qed.

Lemma listedTo_stable rec : stable (listedTo rec).
Proof.
  split; [|intros r Ht Hw; by rewrite (terminal_not_waiting r Ht) in Hw].
  intros at_ r r' ev (Hp & Hz & Hp' & He & Hl)%noticeTurn_spec HQ _. destruct (HQ (pending_waiting r Hp)) as [Hep Hrest].
  destruct (Hrest Hp) as (Hl' & Hpr & Hn). rewrite He, Hl. split; [done|]. intros _. split; [done|]. split; [done|].
  intros Hz'. destruct (Hn Hz') as [E _]. congruence.
Qed.

Lemma begun_stable c : stable (begun c).
Proof.
  split; [|intros r Ht Hw; by rewrite (terminal_not_waiting r Ht) in Hw].
  intros at_ r r' ev (Hp & Hz & Hp' & He & Hl)%noticeTurn_spec HQ _ Hl' _. rewrite Hl in Hl'.
  destruct (HQ (pending_waiting r Hp) Hl' (or_intror Hp)) as [E _]. congruence.
Qed.

Lemma inFlight_stable c : stable (inFlight c).
Proof.
  split; [|intros r Ht Hf; congruence]. intros at_ r r' ev (Hp & _)%noticeTurn_spec HQ _.
  destruct (HQ (waiting_not_terminal r (pending_waiting r Hp))) as [E _]. unfold pending in Hp. by rewrite E in Hp.
Qed.

(** An update by a notice or a veto. *)
Definition outside (s s' : automaticSubmissionStore) : Prop := forall rec Q, stable Q -> atKey (as_records s) rec Q -> atKey (as_records s') rec Q.

Lemma notice_outside env wall keys at_ s disk : outside s (markAutomaticNoticed ParseDuration env wall keys at_ (s, disk)).1.
Proof.
  intros rec Q [HQ _] Hat. destruct (markAutomaticNoticed_update ParseDuration env wall keys at_ (s, disk)) as [-> | ->]; [done|].
  destruct (update_records env wall (notices ParseDuration at_ keys) s disk) as [-> | ->]; [done|]. intros cur Hcur.
  refine (rangeAuto_forall (fun k r => k = autoKey rec -> Q r) _ _ _ _ _ _ _ Hcur eq_refl).
  - intros k r r' ev Hn Hr Hk. apply (HQ at_ r r' ev Hn), Hr, Hk.
  - intros k r Hr ->. by apply Hat.
Qed.

Lemma veto_outside windowed engine env wall asked w vp s disk : autoKeyed (as_records s) ->
  outside s (handleTradeProposalsVeto ParseDuration durationString noticeDigest windowed engine env wall asked w vp (s, disk)).1.1.
Proof.
  intros Hk rec Q [_ HQ] Hat. destruct (handleVeto_update ParseDuration durationString noticeDigest windowed engine env wall asked w vp (s, disk)) as [[-> _]|[-> _]]; [done|].
  destruct (update_records env wall (vetoMutate ParseDuration durationString noticeDigest w vp) s disk) as [-> | ->]; [done|].
  destruct (vetoMutate _ _ _ w vp (as_records s) (ue_order env)) as [[w' evs] res] eqn:E. cbn [fst].
  apply vetoMutate_spec in E as [(-> & _)|(r & r' & -> & _ & _ & _ & -> & _)]; [done| |done].
  intros x [[_ <-]|[_ Hx]]%lookup_insert_Some; [by apply HQ | by apply Hat].
Qed.

Lemma passOK_outside c c' s s' p : outside s s' -> c <= c' -> passOK c (as_records s) p -> passOK c' (as_records s') p.
Proof.
  intros Ho Hle [Hn Hnd Hl]. split; [lia | done|]. intros rec Hrec. apply Ho; [apply listedTo_stable | by apply Hl].
Qed.

Lemma atKey_weaken m rec (Q Q' : automaticSubmissionRecord -> Prop) : (forall r, Q r -> Q' r) -> atKey m rec Q -> atKey m rec Q'.
Proof. intros H Hat cur Hcur. apply H, Hat, Hcur. Qed.

Lemma begun_later c c' r : c <= c' -> begun c r -> begun c' r.
Proof. intros Hle H Hw Hl He. destruct (H Hw Hl He). split; [done | lia]. Qed.
Lemma ready_later c c' r : c <= c' -> ready c r -> ready c' r.
Proof. intros Hle H Hl He. destruct (H Hl He). split; [done | lia]. Qed.
Lemma inFlight_later c c' r : c <= c' -> inFlight c r -> inFlight c' r.
Proof. intros Hle H Ht. destruct (H Ht). split; [done | by apply (ready_later c)]. Qed.

Lemma phase_outside c c' s s' ph : outside s s' -> c <= c' -> windowPhase c ph (as_records s) -> windowPhase c' ph (as_records s').
Proof.
  intros Ho Hle. destruct ph as [|p|p rec|p rec res err|p rec token]; cbn; [done|by apply passOK_outside|..]; intros (Hp & Hin & Hat);
    (split; [by apply (passOK_outside c c' s)|]); (split; [done|]);
    (eapply Ho; [first [apply begun_stable | apply inFlight_stable]|]); (eapply atKey_weaken; [|exact Hat]); intros r; [apply begun_later | apply begun_later | apply inFlight_later]; done.
Qed.

Lemma outside_refl s : outside s s.
Proof. by intros rec Q _. Qed.

(** ** Steps *)

(** An update of one record leaves the others. *)
Lemma onAuto_other env wall rec turn s disk k : k <> autoKey rec ->
  as_records (autoUpdate env wall (onAuto (au_Key rec) (au_Revision rec) turn) (s, disk)).1.1 !! k = as_records s !! k.
Proof.
  intros Hne. destruct (update_records env wall (onAuto (au_Key rec) (au_Revision rec) turn) s disk) as [-> | ->]; [done|].
  rewrite onAuto_spec. fold (autoKey rec). destruct (as_records s !! autoKey rec ≫= turn) as [[r' ev]|]; [|done]. cbn [fst]. by rewrite lookup_insert_ne.
Qed.

Lemma passOK_other c c' m m' p rec : c <= c' -> (autoKey rec ∉ map autoKey (ps_rest p)) -> (forall k, k <> autoKey rec -> m' !! k = m !! k) -> passOK c m p -> passOK c' m' p.
Proof.
  intros Hle Hnot Hother [Hn Hnd Hl]. split; [lia | done|]. intros x Hx cur Hcur. rewrite Hother in Hcur; [by apply (Hl x Hx)|].
  intros E. apply Hnot. rewrite <- E. apply list_elem_of_In, in_map, list_elem_of_In, Hx.
Qed.

Lemma passOK_rest c m w records rec rest : passOK c m (mkPass w records (rec :: rest)) ->
  passOK c m (mkPass w records rest) /\ (autoKey rec ∉ map autoKey rest) /\ atKey m rec (listedTo rec).
Proof.
  intros [Hn Hnd Hl]. cbn [ps_rest ps_world] in *. apply NoDup_cons in Hnd as [Hin Hnd]. split; [split; try done; intros x Hx; apply Hl; set_solver|].
  split; [done | apply Hl; set_solver].
Qed.

Lemma dueDecision_submit w records rec : dueDecision ParseDuration w records rec = Submit -> autoDue rec (aw_now w) (aw_frozen w) = true.
Proof. unfold dueDecision. by destruct (autoDue rec (aw_now w) (aw_frozen w)). Qed.

Lemma dueDecision_restart w records rec prop : dueDecision ParseDuration w records rec = Restart prop -> au_Episode rec <> "".
Proof.
  unfold dueDecision. cbv zeta. destruct (autoDue _ _ _); cbn [negb]; [|done]. destruct (mandateWaitsForBetterRank _ _ _ _ _); [done|].
  destruct (List.find _ _) as [row|]; [|by repeat case_match]. destruct (mandateHeldBlockers row); [|done]. destruct (After _ _); [done|].
  destruct (au_Episode rec =s "") eqn:E; cbn [negb andb]; [by repeat case_match | intros _; by apply String.eqb_neq].
Qed.

(** A record the pass submits waited out its window. *)
Lemma due_begun c w rec cur frozen : aw_now w <= c -> autoDue rec (aw_now w) frozen = true -> listedTo rec cur -> windowOK c cur -> begun c cur.
Proof.
  intros Hle Hdue Hl [_ _ _ Hd] Hw Hlatch Hor. destruct (Hl Hw) as [_ Hpend]. destruct (pending cur) eqn:Hp.
  - destruct (Hpend eq_refl) as (Hl' & Hpr & Hn). unfold autoDue in Hdue. rewrite Hpr in Hdue. rewrite <- Hl', Hlatch in Hdue.
    rewrite orb_false_r in Hdue. apply andb_true_iff in Hdue as [Hdue Hz]. apply andb_true_iff in Hdue as [Hs _].
    apply negb_true_iff, Z.eqb_neq in Hz. apply negb_true_iff, Z.ltb_ge in Hs. destruct (Hn Hz) as [-> ->]. split; [done | lia].
  - destruct Hor as [He|]; [|done]. unfold autoWaiting in Hw. rewrite Hp in Hw. by apply Hd.
Qed.

Lemma decision_window c env wall now w rec d s disk : (forall prop, d = Restart prop -> au_Episode rec <> "") -> atKey (as_records s) rec (listedTo rec) ->
  bothOK c (s, disk) -> bothOK c (applyAutoDecision ParseDuration rfc3339 env wall now w rec d (s, disk)).
Proof.
  intros Hre Hat Hb. pose proof Hb as [Hs _]. destruct d as [|reason|at_|prop|]; cbn [applyAutoDecision]; try done; (apply update_window; [done|]); (apply onAuto_window; [|done]);
    intros r r' ev Hr.
  - apply holdAutoTurn_window.
  - apply rescheduleTurn_window.
  - apply restartTurn_window. intros Hw. destruct (Hat r Hr Hw) as [-> _]. by apply (Hre prop).
Qed.

Lemma decision_other env wall now w rec d s disk k : k <> autoKey rec ->
  as_records (applyAutoDecision ParseDuration rfc3339 env wall now w rec d (s, disk)).1 !! k = as_records s !! k.
Proof. intros Hne. destruct d; try done; by apply onAuto_other. Qed.

Lemma decide_window y env wall now p rec rest : autoInv (fun _ => False) (fun _ => []) y -> windowInv y ->
  ay_phase y = Passing p -> ps_rest p = rec :: rest -> ay_clock y <= now ->
  let p' := mkPass (ps_world p) (ps_records p) rest in
  windowInv match dueDecision ParseDuration (ps_world p) (ps_records p) rec with
      | Submit => autoMove y (autoState y) (if mayBegin (ay_store y) rec now then Submitting p' rec else Passing p') now
      | d => autoMove y (applyAutoDecision ParseDuration rfc3339 env wall now (ps_world p) rec d (autoState y)) (Passing p') now
      end.
Proof.
  intros Hinv [Hb Hph Hse] Hp Hrest Hle. cbv zeta. rewrite Hp in Hph. destruct p as [w records l]. cbn [ps_rest ps_world ps_records] in *. subst l.
  apply passOK_rest in Hph as (Hp1 & Hnot & Hat). apply (bothOK_later _ _ _ Hle) in Hb.
  assert (Hgo : forall d, (forall prop, d = Restart prop -> au_Episode rec <> "") ->
    windowInv (autoMove y (applyAutoDecision ParseDuration rfc3339 env wall now w rec d (autoState y)) (Passing (mkPass w records rest)) now)).
  { intros d Hd. split; [|cbn|done].
    - pose proof (decision_window now env wall now w rec d _ _ Hd Hat Hb) as H. by rewrite (surjective_pairing (applyAutoDecision _ _ _ _ _ _ _ _ _)) in H.
    - apply (passOK_other (ay_clock y) now (as_records (ay_store y)) _ _ rec); try done. intros k Hk. by apply decision_other. }
  destruct (dueDecision ParseDuration w records rec) as [|reason|at_|prop|] eqn:Hd; try (apply Hgo; done).
  - apply Hgo. intros _ _. by apply dueDecision_restart in Hd.
  - split; [exact Hb| |done]. apply dueDecision_submit in Hd. cbn [autoMove ay_phase ay_store autoState fst ay_clock].
    assert (Hp2 : passOK now (as_records (ay_store y)) (mkPass w records rest)) by (apply (passOK_outside (ay_clock y) now (ay_store y)); [apply outside_refl | done | done]).
    destruct (mayBegin (ay_store y) rec now); [|done]. split; [done|]. split; [done|]. intros cur Hcur.
    apply (due_begun now w rec cur (aw_frozen w)); [apply Hp2 | done | by apply Hat | by apply (proj1 Hb (autoKey rec))].
Qed.

Lemma stage_window c env wall now rec preview s disk : bothOK c (s, disk) -> bothOK c (stageAutomatic env wall now rec preview (s, disk)).1.
Proof.
  intros Hb. unfold stageAutomatic. destruct ((au_EngineBucket rec =s TradeProposalBucketCashSweep) && _); [done|].
  assert (Hu : bothOK c (autoUpdate env wall (onAuto (au_Key rec) (au_Revision rec) (stageAutoTurn (op_PreviewTokenID preview) now)) (s, disk)).1).
  { apply update_window; [done|]. apply onAuto_window; [|apply Hb]. intros r r' ev _. apply stageAutoTurn_window. }
  destruct (autoUpdate env wall _ (s, disk)) as [sd [u|e]]; [|exact Hu]. destruct (autoGet _ _ _) as [got|]; [|exact Hu]. by destruct (_ =s _).
Qed.

Lemma submit_window y env wall now sw p rec : autoInv (fun _ => False) (fun _ => []) y -> windowInv y ->
  ay_phase y = Submitting p rec -> ay_clock y <= now ->
  windowInv match submitGates sw with
      | inl (res, err) => autoMove y (autoState y) (Settling p rec res err) now
      | inr preview =>
          match stageAutomatic env wall now rec preview (autoState y) with
          | (sd, Ok _) =>
              mkAutoSys sd.1 sd.2 (Placed p rec (op_PreviewTokenID preview)) (ay_open y ++ [(autoKey rec, op_PreviewTokenID preview)])
                (ay_sends y ++ [(default rec (autoGet (ay_store y) (au_Key rec) (au_Revision rec)), now)]) now
          | (sd, Err why) => autoMove y sd (Settling p rec (submitNotPersisted why) None) now
          end
      end.
Proof.
  intros [Hc Hwv _] [Hb Hph Hse] Hp Hle. rewrite Hp in Hph, Hwv. apply (bothOK_later _ _ _ Hle) in Hb.
  pose proof (phase_outside _ now _ _ _ (outside_refl (ay_store y)) Hle Hph) as Hph'.
  destruct (submitGates sw) as [[res err]|preview]; [by split|].
  pose proof (stageAutomatic_spec _ env wall now rec preview _ _ _ Hc Hwv) as Hs. pose proof (stage_window now env wall now rec preview _ _ Hb) as Hb'.
  unfold autoState in *. destruct (stageAutomatic env wall now rec preview _) as [sd [u|why]]; cbn [fst] in Hb'; rewrite (surjective_pairing sd) in Hb'.
  2:{ destruct Hs as [_ Hr]. split; [done| |done]. cbn [autoMove ay_phase ay_store fst ay_clock]. by rewrite Hr. }
  destruct Hs as (r & r' & ev & evs & Hr & Hw & Ht & Hrev & ->). destruct (stageAutoTurn_spec _ _ _ _ _ Ht) as (_ & Hk & Hst & _).
  destruct Hph' as (Hp' & Hnot & Hat). specialize (Hat r Hr Hw). split; [done| |]; cbn [ay_phase ay_store ay_sends ay_clock fst as_records].
  - split; [|split; [done|]].
    + apply (passOK_other now now (as_records (ay_store y)) _ _ rec); [lia | done | | done]. intros k Hne. by rewrite lookup_insert_ne.
    + intros cur Hcur. rewrite lookup_insert_eq in Hcur. injection Hcur as <-. intros _. split; [done|]. intros Hl He.
      assert (Hsame : sameWindow r r') by (unfold stageAutoTurn in Ht; rewrite Hw in Ht; cbn [negb] in Ht; by injection Ht as <- _).
      destruct Hsame as (E1 & E2 & E3 & E4 & _). rewrite E1, E2, E3, E4 in *. apply Hat; auto.
  - apply Forall_app. split; [done|]. apply Forall_singleton. unfold autoGet. fold (autoKey rec). rewrite Hr. change (default rec (Some r)) with r.
    intros Hl Hor. cbn [fst snd] in *. destruct (Hat Hl Hor) as [Hz Hs]. split; [done|]. destruct (wk_notice _ _ (proj1 Hb _ _ Hr) Hl Hz). lia.
Qed.

Lemma settle_window y env wall finish p rec res err : autoInv (fun _ => False) (fun _ => []) y -> windowInv y ->
  ay_phase y = Settling p rec res err -> ay_clock y <= finish ->
  windowInv (autoMove y (autoUpdate env wall (onAuto (au_Key rec) (au_Revision rec) (outcomeAutoTurn finish false res err None rec)) (autoState y)).1 (Passing p) finish).
Proof.
  intros [Hc Hwv _] [Hb Hph Hse] Hp Hle. rewrite Hp in Hph, Hwv. destruct Hph as (Hpass & Hnot & Hat). apply (bothOK_later _ _ _ Hle) in Hb.
  split; [|cbn|done].
  - unfold autoState, autoMove. cbn [ay_store ay_disk ay_clock]. rewrite <- surjective_pairing. apply update_window; [done|]. apply onAuto_window; [|apply Hb].
    intros r r' ev Hr Ht Hok. destruct (outcomeAutoTurn_same _ _ _ _ _ _ _ _ _ Ht) as [Hsame Hterm]. apply (windowOK_ready _ r); try done.
    destruct (Hwv r Hr) as [Hw|Hv]; [|apply vetoed_terminal in Hv; congruence]. intros Hl He. destruct (Hat r Hr Hw Hl (or_introl He)). split; [done | lia].
  - apply (passOK_other (ay_clock y) finish (as_records (ay_store y)) _ _ rec); try done. intros k Hk. by apply onAuto_other.
Qed.

Lemma placed_window y env wall finish placed p rec token opens : windowInv y -> ay_phase y = Placed p rec token -> ay_clock y <= finish ->
  let sd := (autoUpdate env wall (onAuto (au_Key rec) (au_Revision rec) (outcomeAutoTurn finish true (submitPlaced placed).1 None (submitPlaced placed).2 rec)) (autoState y)).1 in
  windowInv (mkAutoSys sd.1 sd.2 (Passing p) opens (ay_sends y) finish).
Proof.
  intros [Hb Hph Hse] Hp Hle. rewrite Hp in Hph. destruct Hph as (Hpass & Hnot & Hat). apply (bothOK_later _ _ _ Hle) in Hb. cbv zeta.
  split; [|cbn|done].
  - unfold autoState. cbn [ay_store ay_disk ay_clock]. rewrite <- surjective_pairing. apply update_window; [done|]. apply onAuto_window; [|apply Hb].
    intros r r' ev Hr Ht Hok. destruct (outcomeAutoTurn_same _ _ _ _ _ _ _ _ _ Ht) as [Hsame Hterm]. apply (windowOK_ready _ r); try done.
    destruct (Hat r Hr Hterm) as [_ Hrd]. by apply (ready_later (ay_clock y)).
  - apply (passOK_other (ay_clock y) finish (as_records (ay_store y)) _ _ rec); try done. intros k Hk. by apply onAuto_other.
Qed.

Lemma recover_window c env wall startedAt now journal s disk : bothOK c (s, disk) -> bothOK c (recoverAutomatic env wall startedAt now journal (s, disk)).
Proof.
  intros Hb. unfold recoverAutomatic. destruct (List.filter _ _) as [|r0 stuck]; [done|]. destruct journal as [events|]; [|done].
  apply update_window; [done|]. intros k x Hx. refine (rangeAuto_forall (fun _ => windowOK c) _ _ _ _ (proj1 Hb) k x Hx). intros _ r r' ev. apply recoverAutoTurn_window.
Qed.

Lemma reconcile_window c env wall w s disk : fair w -> c <= aw_now w -> bothOK c (s, disk) ->
  bothOK (aw_now w) (reconcileAutomatic ParseDuration durationString format4 env wall w (s, disk)).
Proof.
  intros Hf Hle Hb. unfold reconcileAutomatic. destruct (sn_LoadedFromState (aw_snap w)); [by apply (bothOK_later c)|].
  apply update_window; [by apply (bothOK_later c)|]. apply (reconcileMutate_window c); [done | done | apply Hb].
Qed.

Lemma notice_window c env wall keys at_ s disk : at_ <= c -> bothOK c (s, disk) -> bothOK c (markAutomaticNoticed ParseDuration env wall keys at_ (s, disk)).
Proof.
  intros Hat Hb. destruct (markAutomaticNoticed_update ParseDuration env wall keys at_ (s, disk)) as [-> | ->]; [done|].
  apply update_window; [done|]. intros k x Hx. refine (rangeAuto_forall (fun _ => windowOK c) _ _ _ _ (proj1 Hb) k x Hx). intros _ r r' ev. by apply noticeTurn_window.
Qed.

Lemma veto_window c windowed engine env wall asked w vp s disk : autoKeyed (as_records s) -> bothOK c (s, disk) ->
  bothOK c (handleTradeProposalsVeto ParseDuration durationString noticeDigest windowed engine env wall asked w vp (s, disk)).1.
Proof.
  intros Hk Hb. destruct (handleVeto_update ParseDuration durationString noticeDigest windowed engine env wall asked w vp (s, disk)) as [[-> _]|[-> _]]; [done|].
  apply update_window; [done|]. destruct (vetoMutate _ _ _ w vp (as_records s) (ue_order env)) as [[w' evs] res] eqn:E.
  apply vetoMutate_spec in E; [|done]. apply (vetoDone_window c) in E; [exact E | apply Hb].
Qed.

Lemma moved_records y sd ph now : bothOK now sd -> bothOK (ay_clock (autoMove y sd ph now)) (autoState (autoMove y sd ph now)).
Proof. unfold autoMove, autoState. cbn [ay_store ay_disk ay_clock]. by rewrite <- surjective_pairing. Qed.

Lemma autoStep_window y y' : autoInv (fun _ => False) (fun _ => []) y -> windowInv y ->
  autoStep ParseDuration durationString format4 rfc3339 noticeDigest admits y y' -> windowInv y'.
Proof.
  intros Hinv Hwin Hstep. pose proof Hwin as [Hb Hph Hse]. pose proof (ci_keyed _ _ _ _ (ai_core _ _ _ Hinv)) as Hk.
  destruct Hstep as [env wall startedAt now journal Hp Hle|env wall w Hp Hadm Hle Hrg|w Hp Hadm Hle|env wall now p rec rest Hp Hrest Hle|p Hp
    |env wall now sw p rec Hp Hle|env wall finish p rec res err Hp Hle|env wall finish placed p rec token Hp Hle
    |windowed engine env wall asked w vp Hadm Hle Hrg|env wall keys at_ now Hat Hle|s Hs].
  - split; [apply moved_records, recover_window; by apply (bothOK_later (ay_clock y)) | done | done].
  - split; [apply moved_records; apply (reconcile_window (ay_clock y)); auto | done | done].
  - split; [apply moved_records; by apply (bothOK_later (ay_clock y))| |done]. cbn. split; cbn [ps_world ps_rest]; [lia | by apply dispatchOrder_NoDup|].
    intros rec Hrec cur Hcur. rewrite (dispatchOrder_stored _ _ _ Hk Hrec) in Hcur. injection Hcur as <-. intros _. split; [done|]. done.
  - by apply decide_window.
  - by split.
  - by apply submit_window.
  - by apply settle_window.
  - by apply (placed_window y env wall finish placed p rec token).
  - split; [apply moved_records, veto_window; [done | by apply (bothOK_later (ay_clock y))]| |done].
    apply (phase_outside (ay_clock y) _ (ay_store y)); [by apply veto_outside | done | done].
  - split; [apply moved_records, notice_window; [done | by apply (bothOK_later (ay_clock y))]| |done].
    apply (phase_outside (ay_clock y) _ (ay_store y)); [by apply notice_outside | done | done].
  - apply autoBind_ok in Hs as ->. split; [|done|done]. destruct Hb as [_ Hd]. by split.
Qed.

(** C10. On a database whose records respect the window, under policies that give at least W, every order the scheduler sends without the drawdown latch was noticed to the owner first and at least W earlier: for a record still pending, and for one deferred by the freeze outside a mandate breach. The run's clock is taken not to go back, sessions to be read forward, mandate rows never to skip the window, and Go's duration text to read back. *)
Theorem every_order_waited_for_the_veto y0 y r t : autoInitial y0 -> allOK (ay_clock y0) (autoDiskRecords (ay_disk y0)) ->
  rtc (autoStep ParseDuration durationString format4 rfc3339 noticeDigest admits) y0 y -> (r, t) ∈ ay_sends y ->
  au_LatchSkippedWindow r = false -> au_Episode r = "" \/ pending r = true -> au_NoticedAt r <> 0 /\ au_NoticedAt r + W <= t.
Proof.
  intros Hi Hdoc Hsteps Hin Hl Hor.
  assert (Hall : autoInv (fun _ => False) (fun _ => []) y /\ windowInv y).
  { assert (H0 : autoInv (fun _ => False) (fun _ => []) y0).
    { apply (autoReachable_inv ParseDuration durationString format4 rfc3339 noticeDigest admits). exists y0. by split; [|constructor]. }
    assert (H1 : windowInv y0).
    { destruct Hi as (Hs & Hp & _ & Hse). apply autoBind_ok in Hs. split; [|by rewrite Hp|by rewrite Hse]. unfold autoState. rewrite Hs. by split. }
    clear Hi Hdoc Hin. induction Hsteps as [|a b c Hs _ IH]; [done|]. apply IH; [by apply (autoStep_inv _ _ _ _ _ _ _ _ _ _ H0 Hs) | by apply (autoStep_window a)]. }
  destruct Hall as [_ [_ _ Hse]]. rewrite Forall_forall in Hse. exact (Hse (r, t) Hin Hl Hor).
Qed.
End Window.
