(* ===== verification/AutoRun.v ===== *)
(** * A run of the pre-authorised scheduler

    A concrete run through the system of AutoSystem: a reduction to budget gets a record
    with a window of 30 minutes, its notice is recorded, the window ends, and it is
    placed; in the other run the owner vetoes it.  The theorems of AutoSafety and
    AutoWindow are applied to its states. *)

From stdpp Require Import base decidable list strings gmap sorting.
From Stdlib Require Import ZArith Lia Ascii String SpecFloat.
From S2P Require Import Prelude Floats OrderTypes OrderStatus OrderFold BrokerScope OrderJournal WriteGate PreviewToken SendDisposition.
From S2P Require Import PositionEvidence OrderRisk QueueRecord QueueStore QueueExec QueueSystem QueuePrepare.
From S2P Require Import AutoRecord AutoEngine AutoSystem AutoSafety AutoWindow.

Module Auto.

(** Stand-ins for Go's duration text: the binary digits, and their reading. *)
Fixpoint digits (p : positive) : string :=
  match p with xH => "" | xO p => String "0" (digits p) | xI p => String "1" (digits p) end.
Fixpoint undigits (s : string) : positive :=
  match s with EmptyString => xH | String c s => if Ascii.eqb c "0" then xO (undigits s) else xI (undigits s) end.
Definition durationString (d : Z) : string :=
  match d with Z0 => "z" | Zpos p => String "p" (digits p) | Zneg p => String "n" (digits p) end.
Definition ParseDuration (s : string) : option Z :=
  match s with
  | String c rest => Some (if Ascii.eqb c "z" then 0 else if Ascii.eqb c "p" then Zpos (undigits rest) else Zneg (undigits rest))
  | EmptyString => None
  end.

Lemma undigits_digits p : undigits (digits p) = p.
Proof. induction p as [p IH|p IH|]; cbn; [by rewrite IH | by rewrite IH | done]. Qed.
Lemma duration_roundtrip d : ParseDuration (durationString d) = Some d.
Proof. destruct d; cbn; [done | by rewrite undigits_digits | by rewrite undigits_digits]. Qed.

Definition format4 (_ : float64) : string := "".
Definition rfc3339 (_ : time) : string := "".
Definition noticeDigest (account mode key episode : string) (start : time) (size : Z) : string := say [account; key; Itoa start].

Definition T : time := 1000 * Second.
Definition here : brokerStateScope := mkScope "DU1234567" "paper".
Definition row : TradeProposal :=
  zero_Proposal <| pr_Key := "row-1" |> <| pr_Revision := "r1" |> <| pr_Bucket := preAuthorisedBucketBudgetReduction |> <| pr_Symbol := "AAPL" |>
    <| pr_Action := "SELL" |> <| pr_Quantity := 10 |>.
Definition snap : TradeProposalSnapshot := mkSnapshot None [] [row] [] "DU1234567" "paper" zero_Fingerprint false.
Definition policy : autoPolicy := mkAutoPolicy [preAuthorisedBucketBudgetReduction] [] "".
Definition activePolicy : option (autoPolicy * string) := Some (policy, "active").
Definition world (now : time) : autoWorld :=
  mkAutoWorld now snap here (automaticPolicyAuthority false activePolicy None) (T - Hour) false (mkBook true []) (mkBook true [])
    (fun _ => []) (fun _ => false) (fun _ => false) (mkQStore true 0 ∅) (fun _ => false) (fun _ _ => None) (fun _ => None) false false.

(** The worlds of the run give the default window. *)
Definition admits : autoWorld -> Prop := fair ParseDuration defaultVetoWindow.

Lemma world_fair now : admits (world now).
Proof. split; [vm_compute; discriminate | | done]. intros prop m [<-|[]]. done. Qed.

Definition plain : updateEnv := mkUpdateEnv [] true NoFault.
Definition over1 : updateEnv := mkUpdateEnv ["row-1|r1"] true NoFault.
Definition draft : OrderDraft :=
  mkDraft None None f0 "" None "SELL" zero_Contract 10 "LMT" (f_of_Z 97) None 0 "DAY" false "canary-1" "" "" None "" 0 None.
Definition preview : OrderPreviewResult := mkPreview "token-1" draft (mkQuote (Some (f_of_Z 97)) (Some (f_of_Z 98)) "live" T) (f_of_Z 10).
Definition allowed : submitWorld := mkSubmitWorld row [] None [] [] [] [] (Ok preview) [] [] [] None [] [].

(** ** Its states *)

Definition y0 : autoSys := mkAutoSys (mkAutoStore true 0 ∅) (mkAutoDisk None []) Resting [] [] T.
Definition y1 : autoSys := autoMove y0 (reconcileAutomatic ParseDuration durationString format4 plain T (world T) (autoState y0)) Resting T.
Definition noticed : time := T + 5 * Second.
Definition y2 : autoSys := autoMove y1 (markAutomaticNoticed ParseDuration plain T [("row-1", "r1")] noticed (autoState y1)) Resting noticed.
Definition later : time := noticed + defaultVetoWindow + Second.
Definition listed : list automaticSubmissionRecord := dispatchOrder (world later) (ay_store y2).
Definition y3 : autoSys := autoMove y2 (autoState y2) (Passing (mkPass (world later) listed listed)) later.
Definition rec : automaticSubmissionRecord := default zero_Auto (autoGet (ay_store y2) "row-1" "r1").
Definition onward : pass := mkPass (world later) listed [].
Definition y4 : autoSys := autoMove y3 (autoState y3) (Submitting onward rec) later.
Definition staged : (automaticSubmissionStore * autoDisk) * result string unit := stageAutomatic plain T (later + Second) rec preview (autoState y4).
Definition y5 : autoSys :=
  mkAutoSys staged.1.1 staged.1.2 (Placed onward rec (op_PreviewTokenID preview)) (ay_open y4 ++ [(autoKey rec, op_PreviewTokenID preview)])
    (ay_sends y4 ++ [(default rec (autoGet (ay_store y4) (au_Key rec) (au_Revision rec)), later + Second)]) (later + Second).

(** The owner's veto, at the second the notice came. *)
Definition veto : TradeProposalVetoParams := mkVeto "row-1" "r1" "not now" OrderOriginHumanTTY "" 0.
Definition vetoReply : (automaticSubmissionStore * autoDisk) * result string TradeProposalVetoResult :=
  handleTradeProposalsVeto ParseDuration durationString noticeDigest false true over1 T noticed (world noticed) veto (autoState y2).
Definition accepted : TradeProposalVetoResult := match vetoReply.2 with Ok res => res | Err _ => mkVetoResult false "" "" "" "" None 0 end.

#[local] Abbreviation steps := (autoStep ParseDuration durationString format4 rfc3339 noticeDigest admits).
#[local] Abbreviation Reached := (autoReachable ParseDuration durationString format4 rfc3339 noticeDigest admits).

Lemma initial0 : autoInitial y0.
Proof. done. Qed.

Lemma run1 : steps y0 y1.
Proof. apply auto_reconcile; [done | apply world_fair | vm_compute; discriminate | constructor]. Qed.

Lemma run2 : steps y1 y2.
Proof. apply auto_notice; vm_compute; discriminate. Qed.

Lemma run3 : steps y2 y3.
Proof. apply auto_pass; [done | apply world_fair | vm_compute; discriminate]. Qed.

Lemma listed_rec : listed = [rec].
Proof. vm_compute. reflexivity. Qed.
Lemma rec_due : dueDecision ParseDuration (world later) listed rec = Submit.
Proof. vm_compute. reflexivity. Qed.
Lemma rec_begins : mayBegin (ay_store y3) rec later = true.
Proof. vm_compute. reflexivity. Qed.

Lemma run4 : steps y3 y4.
Proof.
  assert (Hrest : ps_rest (mkPass (world later) listed listed) = rec :: []) by exact listed_rec.
  assert (Hle : ay_clock y3 <= later) by (vm_compute; discriminate).
  pose proof (auto_decide ParseDuration durationString format4 rfc3339 noticeDigest admits y3 plain T later _ rec [] eq_refl Hrest Hle) as H.
  cbn [ps_world ps_records] in H. rewrite rec_due, rec_begins in H. exact H.
Qed.

Lemma staged_ok : staged.2 = Ok tt.
Proof. vm_compute. reflexivity. Qed.
Lemma rec_key : autoKey rec = "row-1|r1".
Proof. vm_compute. reflexivity. Qed.
Lemma rec_stored : autoGet (ay_store y4) (au_Key rec) (au_Revision rec) = Some rec.
Proof. vm_compute. reflexivity. Qed.

Lemma run5 : steps y4 y5.
Proof.
  assert (Hle : ay_clock y4 <= later + Second) by (vm_compute; discriminate).
  pose proof (auto_submit ParseDuration durationString format4 rfc3339 noticeDigest admits y4 plain T (later + Second) allowed onward rec eq_refl Hle) as H.
  change (submitGates allowed) with (@inr (submitResult * option sendErr) _ preview) in H. cbv iota beta in H. fold staged in H.
  rewrite (surjective_pairing staged), staged_ok in H. exact H.
Qed.

Lemma reached2 : rtc steps y0 y2.
Proof. eapply rtc_l; [exact run1|]. eapply rtc_l; [exact run2 | constructor]. Qed.
Lemma reached5 : rtc steps y0 y5.
Proof.
  etrans; [exact reached2|]. eapply rtc_l; [exact run3|]. eapply rtc_l; [exact run4|]. eapply rtc_l; [exact run5 | constructor].
Qed.

Lemma open5 : opensOf "row-1|r1" (ay_open y5) = ["token-1"].
Proof. vm_compute. reflexivity. Qed.
Lemma sends5 : ay_sends y5 = [(rec, later + Second)].
Proof. vm_compute. reflexivity. Qed.

(** ** The theorems on the run *)

(** One placement is outstanding, and never a second. *)
Lemma automatic_order_is_sent_at_most_once_witness : opensOf "row-1|r1" (ay_open y5) = ["token-1"] /\
  (List.length (opensOf "row-1|r1" (ay_open y5)) <= 1)%nat /\
  (forall r, autoDiskRecords (ay_disk y5) !! "row-1|r1" = Some r -> mustBeUnsent r = true -> opensOf "row-1|r1" (ay_open y5) = []).
Proof.
  split; [exact open5|].
  exact (automatic_order_is_sent_at_most_once ParseDuration durationString format4 rfc3339 noticeDigest admits y5
           (ex_intro _ y0 (conj initial0 reached5)) "row-1|r1").
Defined.

Lemma veto_ranges : autoRanges over1 y2.
Proof. unfold autoRanges. vm_compute. constructor. constructor. Qed.
Lemma veto_answered : vetoReply.2 = Ok accepted.
Proof. unfold accepted. vm_compute. reflexivity. Qed.
Lemma veto_result : handleTradeProposalsVeto ParseDuration durationString noticeDigest false true over1 T noticed (world noticed) veto (autoState y2) = (vetoReply.1, Ok accepted).
Proof. rewrite <- veto_answered. apply surjective_pairing. Qed.
Lemma veto_accepted : vr_Accepted accepted = true.
Proof. vm_compute. reflexivity. Qed.
Lemma clock2 : ay_clock y2 <= aw_now (world noticed).
Proof. vm_compute. discriminate. Qed.

(** The noticed record is vetoed, for good. *)
Lemma accepted_veto_is_final_witness : exists k revision, k = automaticRecordKey (TrimSpace (vp_Key veto)) revision /\
  (TrimSpace (vp_Revision veto) <> "" -> revision = TrimSpace (vp_Revision veto)) /\
  forall y', rtc steps (autoMove y2 vetoReply.1 (ay_phase y2) (aw_now (world noticed))) y' ->
    (exists r, autoDiskRecords (ay_disk y') !! k = Some r /\ au_State r = TradeProposalAutomaticVetoed) /\
    opensOf k (ay_open y') = [] /\ sendsOf k (ay_sends y') = sendsOf k (ay_sends y2).
Proof.
  exact (accepted_veto_is_final ParseDuration durationString format4 rfc3339 noticeDigest admits y2 false true over1 T noticed (world noticed) veto vetoReply.1 accepted
           (ex_intro _ y0 (conj initial0 reached2)) (world_fair noticed) clock2 veto_ranges veto_result veto_accepted).
Defined.

(** The reconciliation of the run, once its record waits. *)
Definition again : (automaticSubmissionStore * autoDisk) * result string unit :=
  autoUpdate over1 T (reconcileMutate ParseDuration durationString format4 (world noticed) (settlingBaseline format4 (world noticed) (ay_store y2))) (ay_store y2, ay_disk y2).
Lemma again_ok : again.2 = Ok tt.
Proof. vm_compute. reflexivity. Qed.
Lemma again_persisted :
  autoUpdate over1 T (reconcileMutate ParseDuration durationString format4 (world noticed) (settlingBaseline format4 (world noticed) (ay_store y2))) (ay_store y2, ay_disk y2) = (again.1, Ok tt).
Proof. rewrite <- again_ok. apply surjective_pairing. Qed.
Lemma again_stored : as_records again.1.1 !! "row-1|r1" = Some rec.
Proof. vm_compute. reflexivity. Qed.
Lemma rec_waits : autoWaiting rec = true.
Proof. vm_compute. reflexivity. Qed.
Lemma nothing_silent : forall b : TradingBlocker, None = Some b -> speaks b.
Proof. done. Qed.
Lemma no_locks : forall prop b rest, aw_locks (world noticed) prop = b :: rest -> speaks b.
Proof. done. Qed.

Lemma only_authorised_rows_wait_witness : stillAuthorised format4 (world noticed) rec.
Proof.
  exact (proj2 (only_authorised_rows_wait ParseDuration durationString format4 (world noticed) false activePolicy None eq_refl nothing_silent no_locks
           over1 T (ay_store y2) (ay_disk y2) again.1 eq_refl veto_ranges again_persisted) "row-1|r1" rec again_stored rec_waits).
Defined.

Lemma window_positive : 0 < defaultVetoWindow.
Proof. vm_compute. reflexivity. Qed.
Lemma empty_records : allOK ParseDuration defaultVetoWindow (ay_clock y0) (autoDiskRecords (ay_disk y0)).
Proof. intros k r H. done. Qed.
Lemma sent5 : (rec, later + Second) ∈ ay_sends y5.
Proof. rewrite sends5. constructor. Qed.
Lemma rec_unlatched : au_LatchSkippedWindow rec = false.
Proof. vm_compute. reflexivity. Qed.
Lemma rec_plain : au_Episode rec = "".
Proof. vm_compute. reflexivity. Qed.

(** The order of the run was sent half an hour after its notice. *)
Lemma every_order_waited_for_the_veto_witness : au_NoticedAt rec <> 0 /\ au_NoticedAt rec + defaultVetoWindow <= later + Second.
Proof.
  exact (every_order_waited_for_the_veto ParseDuration durationString format4 rfc3339 noticeDigest admits defaultVetoWindow window_positive duration_roundtrip
           (fun w H => H) y0 y5 rec (later + Second) initial0 empty_records reached5 sent5 rec_unlatched (or_introl rec_plain)).
Defined.
End Auto.
