(* ===== verification/DeskDevice.v ===== *)
(** * The owner's device and the terms it signs

    src/internal/daemon/cash_policy_device.go, desk_authority_device.go and the
    [desk_device] table of src/internal/risk/constitution.go: the credentials the
    owner pinned, the envelope of a confirmation, and the check of a companion's
    signature or a passkey's assertion over Desk's digest of exact terms.  SHA-256,
    P-256 and the JSON of the envelope, the review and the client data are parameters
    ([DeviceEnv]); base64, hexadecimal and the texts that are hashed are written out.

    Proved: what an accepted confirmation shows ([deviceSigned]), and that no text
    signed in one domain is a text of another. *)

From stdpp Require Import base decidable list strings gmap.
From Stdlib Require Import ZArith Lia Ascii String.
From S2P Require Import Prelude OrderJournal Base64 WriteGate DeltaReduction.

(** ** Go's strings and bytes *)

Definition len (s : string) : Z := Z.of_nat (String.length s).
Definition newline : string := String "010" "".
Definition lined (parts : list string) : string := String.concat newline parts.

(** strings.Cut at a one-byte separator. *)
Fixpoint CutAt (sep : ascii) (s : string) : option (string * string) :=
  match s with
  | EmptyString => None
  | String c r => if Ascii.eqb c sep then Some ("", r) else p ← CutAt sep r; Some (String c p.1, p.2)
  end.

(** hex.DecodeString: the bytes up to the first bad pair, and whether all were good. *)
Definition hex_value (c : ascii) : option N :=
  let n := N_of_ascii c in
  if (48 <=? n)%N && (n <=? 57)%N then Some (n - 48)%N
  else if (97 <=? n)%N && (n <=? 102)%N then Some (n - 87)%N
  else if (65 <=? n)%N && (n <=? 70)%N then Some (n - 55)%N
  else None.
Fixpoint hex_decode (s : string) : string * bool :=
  match s with
  | EmptyString => ("", true)
  | String _ EmptyString => ("", false)
  | String a (String b r) =>
      match hex_value a, hex_value b with
      | Some x, Some y => let '(t, ok) := hex_decode r in (String (ascii_of_N (16 * x + y)) t, ok)
      | _, _ => ("", false)
      end
  end.

(** base64.RawURLEncoding.DecodeString(strings.TrimRight(s, "=")) *)
Definition decodeUnpadded (s : string) : option string := b64_decode (TrimRightChar s "="%char).

(** new(big.Int).SetBytes *)
Fixpoint SetBytes (acc : Z) (s : string) : Z :=
  match s with EmptyString => acc | String c r => SetBytes (256 * acc + Z.of_N (N_of_ascii c)) r end.

(** The order of P-256. *)
Definition P256_N : Z := 0xffffffff00000000ffffffffffffffffbce6faada7179e84f3b9cac2fc632551.

(** ** What is not Canary's own *)

Class DeviceEnv := {
  PublicKey : Type;
  sum256 : string -> string;
  parsePoint : string -> option PublicKey;
  ecdsaVerify : PublicKey -> string -> Z -> Z -> bool;
  ecdsaVerifyASN1 : PublicKey -> string -> string -> bool;
  json_envelope : string -> option (gmap string string);
  json_review : string -> option (string * string);
  json_clientData : string -> option (string * string)
}.

(** ** The pinned credentials *)

Record ConstitutionDeskDevice := mkDeskDevice { dd_Companion : string; dd_Passkey : string }.

Section Device.
Context `{DeviceEnv}.

Record DeskDeviceKey := mkDeviceKey { dk_Class : string; dk_ID : string; dk_Key : PublicKey }.
Definition Credential (k : DeskDeviceKey) : string := say [dk_Class k; ":"; dk_ID k].

Definition credentialChar (c : ascii) : bool :=
  let n := N_of_ascii c in
  ((97 <=? n)%N && (n <=? 122)%N) || ((65 <=? n)%N && (n <=? 90)%N) || ((48 <=? n)%N && (n <=? 57)%N) || Ascii.eqb c "-" || Ascii.eqb c "_".

Definition ParseDeskDeviceKey (class value : string) : result string DeskDeviceKey :=
  let key := say ["desk_device."; class] in
  let form := Err (say [key; " must be "; quoted "<credential id>:<base64url public key>"]) in
  match CutAt ":"%char (TrimSpace value) with
  | None => form
  | Some (id, point) =>
      if (id =s "") || (128 <? len id) || negb (forallb credentialChar (list_ascii_of_string id)) then form
      else
        match decodeUnpadded point with
        | Some (String first rest as raw) =>
            if negb (len raw =? 65) || negb (Ascii.eqb first "004") then Err (say [key; " must carry the uncompressed 65-byte P-256 point in base64url"])
            else
              match parsePoint raw with
              | None => Err (say [key; " is not a point on P-256"])
              | Some pub =>
                  if (class =s "companion") && (id <>s b64_encode (String.substring 0 16 (sum256 raw)))
                  then Err (say [key; ": the key id is not the one Desk derives from this key (the first 16 bytes of its SHA-256, in base64url)"])
                  else Ok (mkDeviceKey class id pub)
              end
        | _ => Err (say [key; " must carry the uncompressed 65-byte P-256 point in base64url"])
        end
  end.

(** One line of the table. *)
Definition pinned (class value : string) (out : list DeskDeviceKey) : result string (list DeskDeviceKey) :=
  if TrimSpace value =s "" then Ok out else let? k := ParseDeskDeviceKey class value in Ok (out ++ [k]).

Definition Keys (d : option ConstitutionDeskDevice) : result string (list DeskDeviceKey) :=
  match d with
  | None => Ok []
  | Some d => let? out := pinned "companion" (dd_Companion d) [] in pinned "passkey" (dd_Passkey d) out
  end.

(** The keys of the constitution in force; the outer [None] is no constitution. *)
Definition cashPolicyDeviceKeys (c : option (option ConstitutionDeskDevice)) : result string (list DeskDeviceKey) :=
  match c with
  | None => Err "Canary cannot verify your device yet: there is no risk constitution in force."
  | Some table =>
      match Keys table with
      | Err msg => Err (say ["Canary cannot verify your device: "; msg; "."])
      | Ok [] => Err "Canary cannot verify your device yet. Add the key Desk shows for it to risk-policy.toml under [desk_device] and raise policy_version; until then a save from Desk cannot change an order cap."
      | Ok keys => Ok keys
      end
  end.

(** ** The confirmation and its envelope *)

Definition deskPasskeyRelyingParty : string := "localhost".
Definition deskPasskeyNonceBytes : nat := 32.
Definition cashPolicyEnvelopeMaxBytes : Z := Z.shiftl 64 10.
Definition cashPolicyReviewMaxBytes : Z := Z.shiftl 48 10.
Definition cashPolicyCredentialMaxByte : Z := 256.

(** A missing field reads as the empty string. *)
Definition envField (fields : gmap string string) (k : string) : string := default "" (fields !! k).

Definition decodeCashPolicyEnvelope (envelope : string) : result string (gmap string string) :=
  if cashPolicyEnvelopeMaxBytes <? len envelope then Err "the envelope is larger than Canary accepts"
  else match json_envelope envelope with
       | Some fields => Ok fields
       | None => Err "the envelope is not a JSON object of strings"
       end.

Definition cashPolicyEnvelopeSigned (envelope : string) : bool :=
  match decodeCashPolicyEnvelope envelope with
  | Err _ => false
  | Ok fields =>
      let has k := envField fields k <>s "" in
      if envField fields "credential" =s "companion" then forallb has ["signature"; "key_id"; "challenge"; "review_json"]
      else if envField fields "credential" =s "passkey"
      then forallb has ["signature"; "credential_id"; "authenticator_data"; "client_data_json"; "review_json"]
      else false
  end.

(** ** Signatures *)

(** The text a companion signs. *)
Definition companionText (domain actionID digest challenge : string) : string := lined [domain; actionID; digest; challenge].

Definition verifyDeskCompanionSignatureDomain (domain : string) (key : PublicKey) (actionID digest challenge signature : string) : result string unit :=
  match decodeUnpadded challenge with
  | Some nonce =>
      if negb (len nonce =? Z.of_nat deskPasskeyNonceBytes) then Err "the companion's challenge is not 32 bytes in base64url"
      else
        match decodeUnpadded signature with
        | Some sig =>
            if negb (len sig =? 64) then Err "the companion's signature is not 64 bytes in base64url"
            else
              let r := SetBytes 0 (String.substring 0 32 sig) in
              let s := SetBytes 0 (String.substring 32 32 sig) in
              if (r =? 0) || (s =? 0) || (P256_N <=? r) || (P256_N <=? s) then Err "the companion's signature is not a P-256 signature"
              else if negb (ecdsaVerify key (sum256 (companionText domain actionID digest challenge)) r s)
              then Err "the companion's signature does not verify against the key pinned for it"
              else Ok tt
        | None => Err "the companion's signature is not 64 bytes in base64url"
        end
  | None => Err "the companion's challenge is not 32 bytes in base64url"
  end.

(** User present and user verified. *)
Definition presentAndVerified (auth : string) : bool :=
  match String.get 32 auth with
  | Some flags => Z.testbit (Z.of_N (N_of_ascii flags)) 0 && Z.testbit (Z.of_N (N_of_ascii flags)) 2
  | None => false
  end.

(** The text a passkey's challenge binds: the last part is the 32 nonce bytes. *)
Definition passkeyText (domain actionID digest nonce : string) : string := lined [domain; actionID; digest; nonce].

Definition verifyDeskPasskeyAssertionDomain (domain : string) (key : PublicKey) (actionID digest authData clientData signature : string) : result string unit :=
  match decodeUnpadded authData with
  | None => Err "the passkey's authenticator data is not base64url of at least 37 bytes"
  | Some auth =>
      guard? 37 <=? len auth else "the passkey's authenticator data is not base64url of at least 37 bytes";
      guard? String.substring 0 32 auth =s sum256 deskPasskeyRelyingParty else "the passkey's assertion is not for Desk's relying party";
      guard? presentAndVerified auth else "the passkey's assertion does not record user presence and verification";
      match decodeUnpadded clientData with
      | None => Err "the passkey's client data is not base64url"
      | Some client =>
          match json_clientData client with
          | Some (type, cdChallenge) =>
              guard? type =s "webauthn.get" else "the passkey's client data is not a webauthn.get";
              match decodeUnpadded cdChallenge with
              | None => Err "the passkey's challenge is not Desk's nonce and binding"
              | Some challenge =>
                  guard? len challenge =? 64 else "the passkey's challenge is not Desk's nonce and binding";
                  let nonce := String.substring 0 deskPasskeyNonceBytes challenge in
                  guard? String.substring 32 32 challenge =s sum256 (passkeyText domain actionID digest nonce)
                    else "the passkey's challenge does not bind this action and these terms";
                  match decodeUnpadded signature with
                  | None => Err "the passkey's signature is not base64url"
                  | Some sig =>
                      guard? ecdsaVerifyASN1 key (sum256 (String.append auth (sum256 client))) sig
                        else "the passkey's signature does not verify against the key pinned for it";
                      Ok tt
                  end
              end
          | None => Err "the passkey's client data is not a webauthn.get"
          end
      end
  end.

(** ** The domains of a cash settings save *)

Definition deskPolicyDigestPrefix : string := "desk-policy-digest-v1".
Definition deskCompanionPolicyPrefix : string := "desk-companion-policy-v1".
Definition deskPasskeyPolicyPrefix : string := "desk-passkey-policy-v1".
Definition verifyDeskCompanionSignature : PublicKey -> string -> string -> string -> string -> result string unit :=
  verifyDeskCompanionSignatureDomain deskCompanionPolicyPrefix.
Definition verifyDeskPasskeyAssertion : PublicKey -> string -> string -> string -> string -> string -> result string unit :=
  verifyDeskPasskeyAssertionDomain deskPasskeyPolicyPrefix.

(** ** Terms signed from Desk *)

Record CashPolicyConfirmation := mkConfirmation { cc_DeskActionID : string; cc_Credential : string; cc_Envelope : string; cc_ConfirmedBy : string }.
#[global] Instance confirmation_eq_dec : EqDecision CashPolicyConfirmation.
Proof. solve_decision. Defined.

Record deskSigningDomain := mkSigningDomain { sd_what : string; sd_review : string; sd_digest : string; sd_companion : string; sd_passkey : string }.

Definition deskAuthorityDomain : deskSigningDomain :=
  mkSigningDomain "automatic trading mandate" "automatic_authority" "desk-authority-digest-v1" "desk-companion-authority-v1" "desk-passkey-authority-v1".

Definition cashPolicyDigest (raw : string) : string := say ["sha256:"; hex_encode (sum256 raw)].

Definition deskPolicyDigest (actionID terms review : string) : string :=
  hex_encode (sum256 (lined [deskPolicyDigestPrefix; actionID; cashPolicyDigest terms; hex_encode (sum256 terms); terms; review])).

Definition deskSignedDigest (prefix actionID terms review : string) : string :=
  hex_encode (sum256 (lined [prefix; actionID; cashPolicyDigest terms; terms; review])).

(** The id the envelope names for its class. *)
Definition envelopeKeyID (fields : gmap string string) : string :=
  if envField fields "credential" =s "passkey" then envField fields "credential_id" else envField fields "key_id".

Definition verifyDeskSignedTerms (domain : deskSigningDomain) (keys : list DeskDeviceKey) (c : CashPolicyConfirmation) (terms : string) : result string string :=
  let? fields := decodeCashPolicyEnvelope (cc_Envelope c) in
  guard? (cc_ConfirmedBy c =s "") && cashPolicyEnvelopeSigned (cc_Envelope c)
    else say ["a fresh device signature is required for the "; sd_what domain];
  let class := envField fields "credential" in
  let id := envelopeKeyID fields in
  guard? (id <>s "") && (len id <=? cashPolicyCredentialMaxByte) && (cc_Credential c =s say [class; ":"; id])
    else say ["the device credential does not match the "; sd_what domain; " confirmation"];
  match List.find (fun k => (dk_Class k =s class) && (dk_ID k =s id)) keys with
  | None => Err "no pinned Canary key matches this confirmation device"
  | Some k =>
      guard? (cc_DeskActionID c <>s "") && (TrimSpace (cc_DeskActionID c) =s cc_DeskActionID c) && (len (cc_DeskActionID c) <=? cashPolicyCredentialMaxByte)
        else "invalid confirmation action";
      let review := envField fields "review_json" in
      guard? (len review <=? cashPolicyReviewMaxBytes) &&
             match json_review review with Some (kind, shown) => (kind =s sd_review domain) && (shown =s terms) | None => false end
        else say ["the device review must show the exact "; sd_what domain];
      let digest := deskSignedDigest (sd_digest domain) (cc_DeskActionID c) terms review in
      let? _ := if class =s "companion"
                then verifyDeskCompanionSignatureDomain (sd_companion domain) (dk_Key k) (cc_DeskActionID c) digest (envField fields "challenge") (envField fields "signature")
                else verifyDeskPasskeyAssertionDomain (sd_passkey domain) (dk_Key k) (cc_DeskActionID c) digest
                       (envField fields "authenticator_data") (envField fields "client_data_json") (envField fields "signature") in
      Ok (Credential k)
  end.

Definition verifyDeskAuthorityDevice (keys : list DeskDeviceKey) (c : CashPolicyConfirmation) (terms : string) : result string string :=
  verifyDeskSignedTerms deskAuthorityDomain keys c terms.

(** ** What an accepted confirmation shows *)

(** A signature of [key] in [domain] over this action and digest: a companion's raw
    signature, or a passkey's assertion by a present and verified user for Desk. *)
Inductive signatureOver (domain : deskSigningDomain) (key : PublicKey) (actionID digest : string) : Prop :=
| by_companion challenge r s :
    0 < r < P256_N -> 0 < s < P256_N ->
    ecdsaVerify key (sum256 (companionText (sd_companion domain) actionID digest challenge)) r s = true ->
    signatureOver domain key actionID digest
| by_passkey auth client challenge nonce sig :
    String.substring 0 32 auth = sum256 deskPasskeyRelyingParty -> presentAndVerified auth = true ->
    json_clientData client = Some ("webauthn.get", challenge) ->
    (exists raw, decodeUnpadded challenge = Some raw /\ String.substring 0 32 raw = nonce /\ len raw = 64 /\
       String.substring 32 32 raw = sum256 (passkeyText (sd_passkey domain) actionID digest nonce)) ->
    ecdsaVerifyASN1 key (sum256 (String.append auth (sum256 client))) sig = true ->
    signatureOver domain key actionID digest.

(** [credential] is a pinned key whose holder was shown exactly [terms] and signed them
    in [domain], for the action the confirmation names. *)
Definition deviceSigned (domain : deskSigningDomain) (keys : list DeskDeviceKey) (c : CashPolicyConfirmation) (terms credential : string) : Prop :=
  exists k review, In k keys /\ credential = Credential k /\ cc_Credential c = credential /\ cc_DeskActionID c <> "" /\
    json_review review = Some (sd_review domain, terms) /\
    signatureOver domain (dk_Key k) (cc_DeskActionID c) (deskSignedDigest (sd_digest domain) (cc_DeskActionID c) terms review).

Lemma SetBytes_nonneg s acc : 0 <= acc -> 0 <= SetBytes acc s.
Proof. revert acc. induction s as [|c s IH]; intros acc Ha; cbn [SetBytes]; [done|]. apply IH. lia. Qed.

Lemma companion_verified domain key actionID digest challenge signature :
  verifyDeskCompanionSignatureDomain (sd_companion domain) key actionID digest challenge signature = Ok tt -> signatureOver domain key actionID digest.
Proof.
  unfold verifyDeskCompanionSignatureDomain. destruct (decodeUnpadded challenge) as [nonce|]; [|done]. case_match; [done|].
  destruct (decodeUnpadded signature) as [sig|]; [|done]. case_match; [done|].
  set (r := SetBytes 0 (String.substring 0 32 sig)). set (s := SetBytes 0 (String.substring 32 32 sig)).
  assert (Hr : 0 <= r) by by apply SetBytes_nonneg. assert (Hs : 0 <= s) by by apply SetBytes_nonneg.
  destruct (_ || _ || _ || _) eqn:Hrange; [done|]. bool_hyps. destruct (ecdsaVerify _ _ r s) eqn:Hv; [|done]. intros _.
  apply (by_companion _ _ _ _ challenge r s); [lia | lia | done].
Qed.

Lemma passkey_verified domain key actionID digest authData clientData signature :
  verifyDeskPasskeyAssertionDomain (sd_passkey domain) key actionID digest authData clientData signature = Ok tt -> signatureOver domain key actionID digest.
Proof.
  unfold verifyDeskPasskeyAssertionDomain. destruct (decodeUnpadded authData) as [auth|]; [|done]. intros Hv.
  destruct (37 <=? len auth); [|done]. destruct (_ =s sum256 deskPasskeyRelyingParty) eqn:Hrp; [|done].
  destruct (presentAndVerified auth) eqn:Hp; [|done]. destruct (decodeUnpadded clientData) as [client|]; [|done].
  destruct (json_clientData client) as [[type cd]|] eqn:Hc; [|done]. destruct (type =s "webauthn.get") eqn:Ht; [|done].
  destruct (decodeUnpadded cd) as [challenge|] eqn:Hd; [|done]. destruct (len challenge =? 64) eqn:Hl; [|done].
  destruct (_ =s sum256 (passkeyText _ _ _ _)) eqn:Hb; [|done]. destruct (decodeUnpadded signature) as [sig|]; [|done].
  destruct (ecdsaVerifyASN1 _ _ sig) eqn:Hsig; [|done]. apply String.eqb_eq in Hrp, Ht, Hb. subst type.
  apply (by_passkey _ _ _ _ auth client cd (String.substring 0 32 challenge) sig); try done. exists challenge. by rewrite Hd; split_and!; [| |lia|].
Qed.

Lemma verified_is_signed domain keys c terms credential :
  verifyDeskSignedTerms domain keys c terms = Ok credential -> deviceSigned domain keys c terms credential.
Proof.
  unfold verifyDeskSignedTerms. destruct (decodeCashPolicyEnvelope (cc_Envelope c)) as [fields|]; [|done]. cbn [rbind]. intros Hv.
  destruct (_ && cashPolicyEnvelopeSigned _); [|done]. destruct (_ && (cc_Credential c =s _)) eqn:Hid; [|done].
  destruct (List.find _ keys) as [k|] eqn:Hk; [|done]. apply find_some in Hk as [Hin Hk].
  destruct (_ && (len (cc_DeskActionID c) <=? _)) eqn:Ha; [|done].
  destruct (json_review (envField fields "review_json")) as [[kind shown]|] eqn:Hrev; [|by rewrite andb_false_r in Hv].
  destruct (_ && (_ && (shown =s terms))) eqn:Hshown; [|done]. bool_hyps. subst kind shown.
  assert (Hcred : cc_Credential c = Credential k) by (unfold Credential; congruence).
  destruct (envField fields "credential" =s "companion").
  - destruct (verifyDeskCompanionSignatureDomain _ _ _ _ _ _) as [[]|] eqn:Hs; [|done]. injection Hv as <-.
    exists k, (envField fields "review_json"). split_and!; [done..|]. by apply companion_verified in Hs.
  - destruct (verifyDeskPasskeyAssertionDomain _ _ _ _ _ _ _) as [[]|] eqn:Hs; [|done]. injection Hv as <-.
    exists k, (envField fields "review_json"). split_and!; [done..|]. by apply passkey_verified in Hs.
Qed.

(** ** Domains are apart *)

Lemma CutAt_first sep a b : has_char sep a = false -> CutAt sep (String.append a (String sep b)) = Some (a, b).
Proof.
  assert (Hsep : Ascii.eqb sep sep = true) by by apply Ascii.eqb_eq. induction a as [|c a IH]; intros Ha.
  - change (String.append "" (String sep b)) with (String sep b). cbn [CutAt]. by rewrite Hsep.
  - cbn [has_char] in Ha. apply orb_false_iff in Ha as [Hc Ha].
    change (String.append (String c a) (String sep b)) with (String c (String.append a (String sep b))). cbn [CutAt].
    destruct (Ascii.eqb_spec c sep) as [->|_]; [congruence|]. by rewrite (IH Ha).
Qed.

(** No text of one signing domain is a text of another, whatever is signed. *)
Lemma signed_texts_apart d d' id digest x id' digest' x' :
  has_char "010" d = false -> has_char "010" d' = false -> d <> d' -> lined [d; id; digest; x] <> lined [d'; id'; digest'; x'].
Proof.
  intros Hd Hd' Hne Heq. apply Hne.
  assert (H1 := CutAt_first "010" d (lined [id; digest; x]) Hd). assert (H2 := CutAt_first "010" d' (lined [id'; digest'; x']) Hd').
  change (CutAt "010" (lined [d; id; digest; x]) = Some (d, lined [id; digest; x])) in H1.
  change (CutAt "010" (lined [d'; id'; digest'; x']) = Some (d', lined [id'; digest'; x'])) in H2. congruence.
Qed.

(** What a device signs for a cash settings save is never what it signs for a mandate. *)
Lemma policy_text_is_no_mandate id digest x id' digest' x' :
  companionText deskCompanionPolicyPrefix id digest x <> companionText (sd_companion deskAuthorityDomain) id' digest' x' /\
  passkeyText deskPasskeyPolicyPrefix id digest x <> passkeyText (sd_passkey deskAuthorityDomain) id' digest' x'.
Proof. split; apply signed_texts_apart; done. Qed.
End Device.
