(* ===== verification/DeskAuthority.v ===== *)
(** * The standing authority for automatic trading

    src/internal/daemon/desk_authority.go, desk_authority_standing.go,
    desk_authority_fence.go, mandate_episode.go, the controller's gate in
    desk_execution_submit.go and src/internal/rpc/desk_authority.go: what the owner
    confirms on a device, the state document that keeps it, the controller's narrowing
    and running bit, the mandate's breach episodes that hold full scope at protection,
    and the locks the wire takes before the first byte of an automatic order.

    [deskState] is the daemon's state documents (the authority with its events, the
    episode) and the episode clock in memory.  JSON is a parameter ([AuthorityEnv]); a
    stored document is the record its JSON decodes to, [None] when it does not decode. *)

From stdpp Require Import base decidable list strings gmap.
From Stdlib Require Import ZArith Lia Ascii String.
From S2P Require Import Prelude OrderHistory BrokerScope OrderJournal WriteGate PreviewToken SendDisposition QueueRecord QueueStore QueueExec.
From S2P Require Import AutoRecord AutoEngine DeskDevice.

(** ** The terms, the record, the requests *)

Record DeskAuthorityTerms := mkDeskTerms {
  dt_AuthorityEpoch : string; dt_Version : Z; dt_Kind : string; dt_ID : string; dt_AccountID : string; dt_AccountMode : string;
  dt_MaximumScope : string; dt_ControllerHash : string; dt_Generation : Z; dt_ConfirmBefore : time; dt_Pricing : string; dt_Algorithm : string;
  dt_TIF : string; dt_Protection : string; dt_Capacity : string; dt_Selection : string
}.

(** deskAuthorityRecord with its embedded rpc.DeskAuthorityStatus. *)
Record deskAuthorityRecord := mkDeskAuth {
  da_Terms : option DeskAuthorityTerms; da_Generation : Z; da_Scope : string; da_Running : bool; da_PreferencesHash : string;
  da_AdaptivePriority : string; da_HeldBy : string; da_ConfirmedAt : time; da_Verified : string;
  da_LastRequestID : string; da_LastRequestHash : string; da_ControlProcess : time; da_BrakeEpisode : Z; da_MandateEpisode : string;
  da_Confirmation : CashPolicyConfirmation; da_RegisterDigest : string
}.
#[global] Instance deskAuth_eta : Eta deskAuthorityRecord := fun r => mkDeskAuth
  (da_Terms r) (da_Generation r) (da_Scope r) (da_Running r) (da_PreferencesHash r) (da_AdaptivePriority r) (da_HeldBy r) (da_ConfirmedAt r)
  (da_Verified r) (da_LastRequestID r) (da_LastRequestHash r) (da_ControlProcess r) (da_BrakeEpisode r) (da_MandateEpisode r) (da_Confirmation r)
  (da_RegisterDigest r).
Definition zero_DeskAuth : deskAuthorityRecord := mkDeskAuth None 0 "" false "" "" "" 0 "" "" "" 0 0 "" (mkConfirmation "" "" "" "") "".

Record DeskAuthorityPrepareParams := mkPrepareParams { app_Scope : string; app_ControllerHash : string }.
Record DeskAuthorityConfirmParams := mkConfirmParams { acp_Terms : string; acp_Digest : string; acp_Confirmation : CashPolicyConfirmation }.
Record DeskAuthorityControlParams := mkControlParams {
  acl_ID : string; acl_Capability : string; acl_ExpectedGeneration : Z; acl_RequestID : string; acl_Scope : string; acl_Running : bool;
  acl_PreferencesHash : string; acl_AdaptivePriority : string
}.
#[global] Instance controlParams_eta : Eta DeskAuthorityControlParams := fun p => mkControlParams
  (acl_ID p) (acl_Capability p) (acl_ExpectedGeneration p) (acl_RequestID p) (acl_Scope p) (acl_Running p) (acl_PreferencesHash p) (acl_AdaptivePriority p).

(** ** JSON *)

(** What a strict decoder finds: no such object, an object followed by more, one object. *)
Inductive decoded (A : Type) : Type := BadJSON | MoreJSON | OneJSON (a : A).
Arguments BadJSON {A}.
Arguments MoreJSON {A}.
Arguments OneJSON {A} a.

Class AuthorityEnv `{DeviceEnv} := {
  json_terms : string -> decoded DeskAuthorityTerms;
  json_prepare : string -> decoded DeskAuthorityPrepareParams;
  json_confirm : string -> decoded DeskAuthorityConfirmParams;
  json_control : string -> decoded DeskAuthorityControlParams;
  marshal_terms : DeskAuthorityTerms -> option string;
  marshal_control : DeskAuthorityControlParams -> string
}.

(** The terms Canary prints decode to themselves. *)
Class TermsLaws `{AuthorityEnv} : Prop := terms_roundtrip t raw : marshal_terms t = Some raw -> json_terms raw = OneJSON t.

Definition decodeDeskAuthority {A} (json : string -> decoded A) (raw : string) : result goerr A :=
  if Z.shiftl 128 10 <? len raw then Err (errBadRequest "automatic authority request is too large")
  else match json raw with
       | BadJSON => Err (errBadRequest "invalid automatic authority request")
       | MoreJSON => Err (errBadRequest "one automatic authority object is required")
       | OneJSON a => Ok a
       end.

(** ** The state documents *)

Record deskAuthorityEvent := mkDeskEvent { ev_Key : string; ev_At : time; ev_Act : string; ev_Gen : Z; ev_Scope : string; ev_Running : bool }.
Record mandateEpisodeDocV1 := mkEpisodeDoc { me_Version : Z; me_Episode : string; me_At : time }.
Definition zero_EpisodeDoc : mandateEpisodeDocV1 := mkEpisodeDoc 0 "" 0.
Definition mandateEpisodeDocVer : Z := 1.

Record deskDisk := mkDeskDisk {
  dk_auth : option (Z * option deskAuthorityRecord); dk_log : list deskAuthorityEvent; dk_episode : option (Z * option mandateEpisodeDocV1)
}.
Record mandateEpisodeClock := mkClock { mc_loaded : bool; mc_revision : Z; mc_doc : mandateEpisodeDocV1; mc_pending : mandateEpisodeDocV1 }.
Definition zero_Clock : mandateEpisodeClock := mkClock false 0 zero_EpisodeDoc zero_EpisodeDoc.
Record deskState := mkDeskState { ds_disk : deskDisk; ds_clock : mandateEpisodeClock }.

(** How a compare-and-swap of one state document can end without a new revision. *)
Inductive casError := RevisionConflict | CasFailed (msg : string).

(** CompareAndSwapStateDocument on one document; [commits] is the effect of a commit. *)
Definition casState {A S} (doc : option (Z * A)) (expected : Z) (fault : commitFault) (s swapped : S) : S * result casError Z :=
  let holds := match doc with None => expected =? 0 | Some (revision, _) => negb (expected =? 0) && (revision =? expected) end in
  match fault with
  | Refused msg => (s, Err (CasFailed msg))
  | _ =>
      if negb holds then (s, Err RevisionConflict)
      else match fault with CommittedUnseen msg => (swapped, Err (CasFailed msg)) | _ => (swapped, Ok (expected + 1)) end
  end.

(** ** The breach episode and the hold *)

(** One reading of the hold: whether there is a store, the state and open episode of the
    proposals snapshot ([None] without one), the clock's time, the error of reading the
    document, whether its JSON encodes and how its commit goes. *)
Record holdWorld := mkHoldWorld {
  hw_store : bool; hw_breach : option (string * string); hw_now : time; hw_read : option string; hw_encodes : bool; hw_fault : commitFault
}.

(** The last episode durably recorded and an error, with the state left behind. *)
Definition lastMandateEpisodeLocked (w : holdWorld) (open_ : string) (now : time) (st : deskState) : deskState * (string * option string) :=
  let disk := ds_disk st in
  let c := ds_clock st in
  let c := if (open_ <>s "") && (open_ <>s me_Episode (mc_doc c)) then mkClock (mc_loaded c) (mc_revision c) (mc_doc c) (mkEpisodeDoc mandateEpisodeDocVer open_ now) else c in
  let keep c := mkDeskState disk c in
  if negb (hw_store w) then (keep c, ("", Some "mandate episode authority is unavailable"))
  else
    let loaded :=
      if mc_loaded c then Ok c
      else match hw_read w with
           | Some msg => Err (say ["read mandate episode clock: "; msg])
           | None =>
               match dk_episode disk with
               | None => Ok (mkClock true 0 zero_EpisodeDoc (mc_pending c))
               | Some (revision, Some kept) =>
                   if (me_Version kept =? mandateEpisodeDocVer) && (me_Episode kept <>s "") && negb (IsZero (me_At kept))
                   then Ok (mkClock true revision kept (mc_pending c)) else Err "mandate episode clock is unreadable"
               | Some (_, None) => Err "mandate episode clock is unreadable"
               end
           end in
    match loaded with
    | Err msg => (keep c, ("", Some msg))
    | Ok c =>
        let last := me_Episode (mc_doc c) in
        if (me_Episode (mc_pending c) =s "") || (me_Episode (mc_pending c) =s last)
        then (keep (mkClock true (mc_revision c) (mc_doc c) zero_EpisodeDoc), (last, None))
        else if negb (hw_encodes w) then (keep c, (last, Some "json: unsupported value"))
        else
          let swapped := mkDeskDisk (dk_auth disk) (dk_log disk) (Some (mc_revision c + 1, Some (mc_pending c))) in
          match casState (dk_episode disk) (mc_revision c) (hw_fault w) disk swapped with
          | (disk, Err RevisionConflict) =>
              (mkDeskState disk (mkClock false (mc_revision c) (mc_doc c) (mc_pending c)), (last, Some "persist mandate episode clock: revision conflict"))
          | (disk, Err (CasFailed msg)) => (mkDeskState disk c, (last, Some (say ["persist mandate episode clock: "; msg])))
          | (disk, Ok revision) =>
              (mkDeskState disk (mkClock true revision (mc_pending c) zero_EpisodeDoc), (me_Episode (mc_pending c), None))
          end
    end.

Definition MandateReductionUnknown : string := "unknown".
Definition MandateReductionNoVerdict : string := "no_verdict".

(** [last, engaged, known] *)
Definition deskAuthorityHold (w : holdWorld) (st : deskState) : deskState * (string * bool * bool) :=
  match hw_breach w with
  | None => (st, ("", false, false))
  | Some (state, open_) =>
      if one_of state [MandateReductionUnknown; MandateReductionNoVerdict] then (st, ("", false, false))
      else
        let '(st, (last, err)) := lastMandateEpisodeLocked w open_ (hw_now w) st in
        (st, (last, open_ <>s "", negb (present err)))
  end.

(** The half of installSnapshot that records both snapshots' episodes, and stops at an error. *)
Definition recordEpisodes (w w' : holdWorld) (previous next : string) (asOf : time) (st : deskState) : deskState * option string :=
  match lastMandateEpisodeLocked w previous asOf st with
  | (st, (_, Some msg)) => (st, Some (say ["persist proposal mandate hold: "; msg]))
  | (st, (_, None)) =>
      let '(st, (_, err)) := lastMandateEpisodeLocked w' next asOf st in
      (st, option_map (fun msg => say ["persist proposal mandate hold: "; msg]) err)
  end.

(** ** Reading the authority *)

(** One read: whether the server and its store exist, the error of reading the document,
    the authority epoch of the store's head, the process's start and the hold's reading. *)
Record readWorld := mkReadWorld {
  rw_server : bool; rw_store : bool; rw_read : option string; rw_head : result string string; rw_startedAt : time; rw_hold : holdWorld
}.

Definition plainError (msg : string) : goerr := mkErr "" msg.

Definition validDeskAuthorityTerms (t : DeskAuthorityTerms) : bool :=
  let '(hash, ok) := hex_decode (dt_ControllerHash t) in
  (dt_AuthorityEpoch t <>s "") && ok && (len hash =? 32) && (dt_ID t <>s "") && (len (dt_ID t) <=? 128) && (dt_AccountID t <>s "") &&
  (len (dt_AccountID t) <=? 128) && one_of (dt_AccountMode t) ["live"; "paper"] && (dt_Version t =? 1) && (dt_Kind t =s "desk_automatic_authority") &&
  one_of (dt_MaximumScope t) ["protect"; "full"] && (0 <=? dt_Generation t) && negb (IsZero (dt_ConfirmBefore t)) && (dt_Pricing t =s "fixed-midpoint") &&
  (dt_Algorithm t =s "Adaptive") && (dt_TIF t =s "DAY") && (dt_Protection t =s "existing-policy") &&
  (dt_Capacity t =s "existing-policy-reuse-confirmed-funds") && (dt_Selection t =s "desk-deterministic-controller").

Definition deskScopes : list string := ["off"; "protect"; "full"].

(** A stored document that can be validated. *)
Definition validStored (revision : Z) (r : deskAuthorityRecord) (t : DeskAuthorityTerms) : bool :=
  (da_Generation r =? revision) && validDeskAuthorityTerms t && one_of (da_Scope r) deskScopes &&
  negb ((da_Scope r =s "full") && (dt_MaximumScope t <>s "full")).

Definition readStoredDeskAuthority (w : readWorld) (disk : deskDisk) : result goerr deskAuthorityRecord :=
  if negb (rw_store w) then Err (plainError "automatic authority storage is unavailable")
  else match rw_read w with
       | Some msg => Err (plainError msg)
       | None =>
           match dk_auth disk with
           | None => Ok (zero_DeskAuth <| da_Scope := "off" |>)
           | Some (revision, stored) =>
               match stored, stored ≫= da_Terms with
               | Some out, Some t =>
                   if negb (validStored revision out t) then Err (plainError "automatic authority storage cannot be validated")
                   else match rw_head w with
                        | Err msg => Err (plainError msg)
                        | Ok epoch =>
                            if dt_AuthorityEpoch t <>s epoch then Err (plainError "automatic authority belongs to a different authority store; arm again")
                            else if IsZero (rw_startedAt w) || negb (da_ControlProcess out =? rw_startedAt w) then Ok (out <| da_Running := false |>)
                            else Ok out
                        end
               | _, _ => Err (plainError "automatic authority storage cannot be validated")
               end
           end
       end.

Definition DeskAuthorityHeldByMandate : string := "mandate_breach".

Definition readDeskAuthority (w : readWorld) (st : deskState) : deskState * result goerr deskAuthorityRecord :=
  match readStoredDeskAuthority w (ds_disk st) with
  | Err e => (st, Err e)
  | Ok out =>
      if da_Scope out =s "full" then
        let '(st, (last, engaged, known)) := deskAuthorityHold (rw_hold w) st in
        if negb known || engaged || (last <>s da_MandateEpisode out)
        then (st, Ok (out <| da_Scope := "protect" |> <| da_HeldBy := DeskAuthorityHeldByMandate |>))
        else (st, Ok out)
      else (st, Ok out)
  end.

(** ** Saving *)

Definition saveDeskAuthority (encodes : bool) (fault : commitFault) (now : time) (old : Z) (next : deskAuthorityRecord) (action : string) (disk : deskDisk)
    : deskDisk * result goerr deskAuthorityRecord :=
  let next := next <| da_Generation := old + 1 |> <| da_HeldBy := "" |> in
  if negb encodes then (disk, Err (plainError "json: unsupported value"))
  else
    let id := match da_Terms next with Some t => dt_ID t | None => "" end in
    let event := mkDeskEvent (say ["desk-authority:"; id; ":"; Itoa (da_Generation next)]) now action (da_Generation next) (da_Scope next) (da_Running next) in
    let swapped := mkDeskDisk (Some (old + 1, Some next)) (dk_log disk ++ [event]) (dk_episode disk) in
    match casState (dk_auth disk) old fault disk swapped with
    | (disk, Ok _) => (disk, Ok next)
    | (disk, Err RevisionConflict) => (disk, Err (plainError "revision conflict"))
    | (disk, Err (CasFailed msg)) => (disk, Err (plainError msg))
    end.

(** ** Prepare, confirm, control *)

Section Handlers.
Context `{AuthorityEnv}.

Definition deskAuthorityFullHeldRefusal : string :=
  "full automatic trading can be confirmed once the book is back within the mandate's loss room; protection can be armed now".

(** What prepare meets: the hold's reading before the lock, the read under it, the
    account, the random id, the head and the time. *)
Record authPrepareWorld := mkPrepareWorld {
  pw_first : holdWorld; pw_read : readWorld; pw_account : brokerStateScope; pw_id : result string string; pw_head : result string string; pw_at : time
}.

Definition preparedTerms (w : authPrepareWorld) (epoch id : string) (p : DeskAuthorityPrepareParams) (generation : Z) : DeskAuthorityTerms :=
  mkDeskTerms epoch 1 "desk_automatic_authority" id (sc_Account (pw_account w)) (sc_Mode (pw_account w)) (app_Scope p) (app_ControllerHash p) generation
    (pw_at w + queuedArmWindow) "fixed-midpoint" "Adaptive" "DAY" "existing-policy" "existing-policy-reuse-confirmed-funds" "desk-deterministic-controller".

Definition liftErr {A} (r : result string A) : result goerr A := match r with Ok a => Ok a | Err msg => Err (plainError msg) end.

(** handleDeskAuthorityPrepare: the terms as text, and their digest. *)
Definition handleDeskAuthorityPrepare (w : authPrepareWorld) (params : string) (st : deskState) : deskState * result goerr (string * string) :=
  match decodeDeskAuthority json_prepare params with
  | Err e => (st, Err e)
  | Ok p =>
      let '(st, held) := if app_Scope p =s "full"
                         then let '(st, (_, engaged, known)) := deskAuthorityHold (pw_first w) st in (st, engaged || negb known)
                         else (st, false) in
      if held then (st, Err (errBadRequest deskAuthorityFullHeldRefusal))
      else
        let '(st, read) := readDeskAuthority (pw_read w) st in
        (st, let? current := read in
             let? id := liftErr (pw_id w) in
             let? epoch := liftErr (pw_head w) in
             let terms := preparedTerms w epoch id p (da_Generation current) in
             guard? validDeskAuthorityTerms terms else errBadRequest "a current account, armed scope and private controller identity are required";
             match marshal_terms terms with
             | None => Err (plainError "json: unsupported value")
             | Some raw => Ok (raw, cashPolicyDigest raw)
             end)
  end.

(** What confirm meets under the lock: the read, the head, the times of the checks and of
    the save, the account, the constitution ([None]: no policy manager), the register's
    digest, and the commit. *)
Record confirmWorld := mkConfirmWorld {
  cw_read : readWorld; cw_head : result string string; cw_at : time; cw_savedAt : time; cw_account : brokerStateScope;
  cw_policy : option (option (option ConstitutionDeskDevice)); cw_register : string; cw_encodes : bool; cw_fault : commitFault
}.

(** Before the lock: the request's terms, and the hold's reading. *)
Definition confirmBegin (w : holdWorld) (params : string) (st : deskState)
    : deskState * result goerr (DeskAuthorityConfirmParams * DeskAuthorityTerms * string) :=
  match decodeDeskAuthority json_confirm params with
  | Err e => (st, Err e)
  | Ok p =>
      match decodeDeskAuthority json_terms (acp_Terms p) with
      | Ok terms =>
          if negb (validDeskAuthorityTerms terms) || (acp_Digest p <>s cashPolicyDigest (acp_Terms p))
          then (st, Err (errBadRequest "exact automatic authority terms are required"))
          else
            let '(st, (last, engaged, known)) := deskAuthorityHold w st in
            if (dt_MaximumScope terms =s "full") && (engaged || negb known) then (st, Err (errBadRequest deskAuthorityFullHeldRefusal))
            else (st, Ok (p, terms, last))
      | Err _ => (st, Err (errBadRequest "exact automatic authority terms are required"))
      end
  end.

(** The stored confirmation is this very request. *)
Definition confirmReplayed (current : deskAuthorityRecord) (p : DeskAuthorityConfirmParams) (terms : DeskAuthorityTerms) : bool :=
  match da_Terms current with
  | Some t => (dt_ID t =s dt_ID terms) && bool_decide (da_Confirmation current = acp_Confirmation p) && bool_decide (marshal_terms t = Some (acp_Terms p))
  | None => false
  end.

(** The checks of a fresh confirmation: the credential it verified. *)
Definition confirmChecks (w : confirmWorld) (current : deskAuthorityRecord) (p : DeskAuthorityConfirmParams) (terms : DeskAuthorityTerms) : result goerr string :=
  let? epoch := liftErr (cw_head w) in
  guard? dt_AuthorityEpoch terms =s epoch else errBadRequest "automatic authority store changed; review again";
  guard? (dt_Generation terms =? da_Generation current) && Before (cw_at w) (dt_ConfirmBefore terms) &&
         negb (After (dt_ConfirmBefore terms) (cw_at w + queuedArmWindow))
    else errBadRequest "authority changed or confirmation expired; review again";
  guard? (sc_Account (cw_account w) =s dt_AccountID terms) && (sc_Mode (cw_account w) =s dt_AccountMode terms)
    else errBadRequest "the current account differs from the confirmed mandate";
  match cw_policy w with
  | None => Err (plainError "device verification policy is unavailable")
  | Some policy =>
      let? keys := liftErr (cashPolicyDeviceKeys policy) in
      liftErr (verifyDeskAuthorityDevice keys (acp_Confirmation p) (acp_Terms p))
  end.

Definition confirmedRecord (w : confirmWorld) (p : DeskAuthorityConfirmParams) (terms : DeskAuthorityTerms) (last verified : string) : deskAuthorityRecord :=
  zero_DeskAuth <| da_Terms := Some terms |> <| da_Scope := dt_MaximumScope terms |> <| da_ConfirmedAt := cw_savedAt w |> <| da_Verified := verified |>
    <| da_Confirmation := acp_Confirmation p |> <| da_MandateEpisode := last |> <| da_RegisterDigest := cw_register w |>.

(** Under the lock. *)
Definition confirmLocked (w : confirmWorld) (p : DeskAuthorityConfirmParams) (terms : DeskAuthorityTerms) (last : string) (st : deskState)
    : deskState * result goerr deskAuthorityRecord :=
  let '(st, read) := readDeskAuthority (cw_read w) st in
  match read with
  | Err e => (st, Err e)
  | Ok current =>
      if confirmReplayed current p terms then (st, Ok current)
      else match confirmChecks w current p terms with
           | Err e => (st, Err e)
           | Ok verified =>
               let '(disk, res) := saveDeskAuthority (cw_encodes w) (cw_fault w) (cw_savedAt w) (da_Generation current)
                                     (confirmedRecord w p terms last verified) "confirmed" (ds_disk st) in
               (mkDeskState disk (ds_clock st), res)
           end
  end.

Definition handleDeskAuthorityConfirm (hold : holdWorld) (w : confirmWorld) (params : string) (st : deskState) : deskState * result goerr deskAuthorityRecord :=
  match confirmBegin hold params st with
  | (st, Err e) => (st, Err e)
  | (st, Ok (p, terms, last)) => confirmLocked w p terms last st
  end.

Definition handleDeskAuthorityStatus (w : readWorld) (st : deskState) : deskState * result goerr deskAuthorityRecord := readDeskAuthority w st.

(** The controller's capability is the one whose hash the owner confirmed. *)
Inductive capability := CapabilityUnnamed | CapabilityMismatch | CapabilityHeld (t : DeskAuthorityTerms).
Definition capabilityOf (current : deskAuthorityRecord) (id secret : string) : capability :=
  match da_Terms current with
  | Some t =>
      if (dt_ID t <>s id) || (len secret <? 32) || (256 <? len secret) then CapabilityUnnamed
      else if sum256 secret <>s (hex_decode (dt_ControllerHash t)).1 then CapabilityMismatch else CapabilityHeld t
  | None => CapabilityUnnamed
  end.

Record controlWorld := mkControlWorld { lw_read : readWorld; lw_at : time; lw_encodes : bool; lw_fault : commitFault }.

(** The record a control request asks for, [None] when it is the one already stored. *)
Definition controlNext (w : controlWorld) (current : deskAuthorityRecord) (p : DeskAuthorityControlParams) : result goerr (option deskAuthorityRecord) :=
  match capabilityOf current (acl_ID p) (acl_Capability p) with
  | CapabilityUnnamed => Err (errBadRequest "private controller authority is required")
  | CapabilityMismatch => Err (errBadRequest "private controller authority does not match")
  | CapabilityHeld _ =>
      let requestHash := cashPolicyDigest (marshal_control (p <| acl_Capability := "" |>)) in
      if acl_RequestID p =s da_LastRequestID current then
        guard? requestHash =s da_LastRequestHash current else errBadRequest "replayed control intent differs"; Ok None
      else
        guard? (acl_RequestID p <>s "") && (len (acl_RequestID p) <=? 128) && (acl_ExpectedGeneration p =? da_Generation current)
          else errBadRequest "automatic authority generation changed";
        guard? one_of (acl_Scope p) deskScopes && negb ((acl_Scope p =s "full") && (da_Scope current <>s "full")) &&
               negb ((da_Scope current =s "off") && (acl_Scope p <>s "off"))
          else errBadRequest "arming or upgrading needs a fresh device confirmation";
        let '(preferences, ok) := hex_decode (acl_PreferencesHash p) in
        guard? negb (acl_Running p && ((acl_Scope p =s "off") || negb (one_of (acl_AdaptivePriority p) ["Patient"; "Normal"; "Urgent"]) || negb ok ||
                                       negb (len preferences =? 32)))
          else errBadRequest "valid execution preferences and scope are required";
        Ok (Some (current <| da_Scope := acl_Scope p |> <| da_Running := acl_Running p |> <| da_PreferencesHash := acl_PreferencesHash p |>
                    <| da_AdaptivePriority := acl_AdaptivePriority p |> <| da_LastRequestID := acl_RequestID p |> <| da_LastRequestHash := requestHash |>
                    <| da_ControlProcess := rw_startedAt (lw_read w) |>))
  end.

Definition handleDeskAuthorityControl (w : controlWorld) (params : string) (st : deskState) : deskState * result goerr deskAuthorityRecord :=
  match decodeDeskAuthority json_control params with
  | Err e => (st, Err e)
  | Ok p =>
      let '(st, read) := readDeskAuthority (lw_read w) st in
      match read with
      | Err e => (st, Err e)
      | Ok current =>
          match controlNext w current p with
          | Err e => (st, Err e)
          | Ok None => (st, Ok current)
          | Ok (Some next) =>
              let '(disk, res) := saveDeskAuthority (lw_encodes w) (lw_fault w) (lw_at w) (da_Generation current) next "controlled" (ds_disk st) in
              (mkDeskState disk (ds_clock st), res)
          end
      end
  end.

(** ** The controller's gate and its fence *)

Definition DeskBlockerAuthorityChanged : string := "authority_changed".
Record DeskAutomaticAuthorization := mkDeskAutomatic { dz_ID : string; dz_Capability : string; dz_ExpectedGeneration : Z; dz_PreferencesHash : string }.

Definition deskRefuse (msg : string) : TradingBlocker := mkBlocker DeskBlockerAuthorityChanged (say [msg; "; nothing was sent"]) "".

(** The checks of deskAutomaticAuthority on the record it read. *)
Definition automaticAuthorityOf (current : deskAuthorityRecord) (p : DeskAutomaticAuthorization) (scope : brokerStateScope) : deskAuthorityRecord + TradingBlocker :=
  match capabilityOf current (dz_ID p) (dz_Capability p) with
  | CapabilityUnnamed => inr (deskRefuse "no standing automatic authority matches this request")
  | CapabilityMismatch => inr (deskRefuse "private controller authority does not match the confirmed mandate")
  | CapabilityHeld t =>
      if negb (da_Generation current =? dz_ExpectedGeneration p) then inr (deskRefuse "the mandate's generation changed; reconcile and present it again")
      else if (dz_PreferencesHash p =s "") || (da_PreferencesHash current <>s dz_PreferencesHash p) then inr (deskRefuse "trading preferences changed since the controller reconciled")
      else if negb (one_of (da_Scope current) ["protect"; "full"]) then inr (deskRefuse "automatic trading is disarmed")
      else if negb (da_Running current) then inr (deskRefuse "the controller is not confirmed running under this daemon process")
      else if (dt_AccountID t <>s sc_Account scope) || (dt_AccountMode t <>s sc_Mode scope) then inr (deskRefuse "the confirmed mandate names another account")
      else inl current
  end.

(** deskAutomaticAuthority *)
Definition deskAutomaticAuthority (w : readWorld) (p : DeskAutomaticAuthorization) (scope : brokerStateScope) (st : deskState)
    : deskState * result goerr (deskAuthorityRecord + TradingBlocker) :=
  let '(st, read) := readDeskAuthority w st in
  (st, let? current := read in Ok (automaticAuthorityOf current p scope)).
End Handlers.

Record deskAuthorityFence := mkFence {
  fe_ID : string; fe_Generation : Z; fe_PreferencesHash : string; fe_AdaptivePriority : string; fe_Action : string; fe_ValidUntil : time
}.

Definition deskFenceAction (class : string) : string :=
  if class =s "protect" then "protection" else if class =s "reduce" then "reduction" else if class =s "add" then "entry" else "".

Definition deskExecutionFenceWindow : Z := 2 * Minute.
(** The fence deskExecutionAttempt captures for an item of [class]. *)
Definition captureFence (authority : deskAuthorityRecord) (class : string) (now : time) : deskAuthorityFence :=
  mkFence (match da_Terms authority with Some t => dt_ID t | None => "" end) (da_Generation authority) (da_PreferencesHash authority)
    (da_AdaptivePriority authority) (deskFenceAction class) (now + deskExecutionFenceWindow).

(** What the fence must find in the record read under the wire lock. *)
Definition fenceHolds (current : deskAuthorityRecord) (f : deskAuthorityFence) (scope : brokerStateScope) (now : time) : bool :=
  match da_Terms current with
  | None => false
  | Some t =>
      (dt_ID t =s fe_ID f) && (da_Generation current =? fe_Generation f) && da_Running current && (da_Scope current <>s "off") &&
      (dt_AccountID t =s sc_Account scope) && (dt_AccountMode t =s sc_Mode scope) && (da_PreferencesHash current =s fe_PreferencesHash f) &&
      (da_AdaptivePriority current =s fe_AdaptivePriority f) && negb (IsZero (fe_ValidUntil f)) && Before now (fe_ValidUntil f) &&
      (if fe_Action f =s "entry" then da_Scope current =s "full" else one_of (fe_Action f) ["protection"; "reduction"])
  end.

Definition wireAuthorityChanged : goerr := mkErr "ErrTradingDisabled" "trading disabled: automatic trading authority changed or expired before transmit".

Definition lockDeskAuthorityForWire (w : readWorld) (fence : option deskAuthorityFence) (scope : brokerStateScope) (now : time) (st : deskState)
    : deskState * result goerr unit :=
  match fence with
  | None => (st, Ok tt)
  | Some f =>
      let '(st, read) := readDeskAuthority w st in
      (st, let? current := read in guard? fenceHolds current f scope now else wireAuthorityChanged; Ok tt)
  end.

(** ** The daemon's own sends *)

Definition disarmed (why : string) : TradingBlocker :=
  mkBlocker automaticDisarmedCode (say ["automatic trading is disarmed: "; why]) "Arm Protection or Fully armed on your device, or submit by hand.".

Definition standingAuthorityBlocker (w : readWorld) (account mode : string) (disk : deskDisk) : option TradingBlocker :=
  if negb (rw_server w) then Some (disarmed "the daemon is unavailable")
  else match readStoredDeskAuthority w disk with
       | Err e => Some (disarmed (say ["the standing authority cannot be read ("; err_msg e; ")"]))
       | Ok current =>
           match da_Terms current with
           | None => Some (disarmed "no device-confirmed Protection or Fully armed authority stands")
           | Some t =>
               if da_Scope current =s "off" then Some (disarmed "no device-confirmed Protection or Fully armed authority stands")
               else if (account <>s "") && ((dt_AccountID t <>s account) || (dt_AccountMode t <>s mode))
               then Some (disarmed "the standing authority names another account")
               else None
           end
       end.

Definition standingAuthorityConfirmedAt (w : readWorld) (disk : deskDisk) : time :=
  match readStoredDeskAuthority w disk with Ok current => da_ConfirmedAt current | Err _ => 0 end.

(** [w] is the blocker's read, [w'] the read of the arming. *)
Definition automaticGrantBlocker (w w' : readWorld) (grant : option automaticWriteGrant) (account mode : string) (disk : deskDisk) : option TradingBlocker :=
  match standingAuthorityBlocker w account mode disk with
  | Some b => Some b
  | None =>
      let rearmed := mkBlocker automaticDisarmedCode "automatic trading was armed again since this row's veto clock started" "A new veto window starts for the row." in
      match grant with
      | Some g => if ag_ArmedAt g =? standingAuthorityConfirmedAt w' disk then None else Some rearmed
      | None => Some rearmed
      end
  end.

Definition tradingFrozenBlockerMessage : string := "trading writes are frozen by runtime platform settings".

(** tradingBlockersError *)
Definition tradingBlockersError (blockers : list TradingBlocker) : sendErr :=
  if tradingBlockersFreezeOnly blockers then mkSendErr ["ErrTradingDisabled"; "errTradingFrozen"] None (say ["trading disabled: "; tradingFrozenBlockerMessage])
  else mkSendErr (if automaticDisarmedRefusal blockers then ["automaticDisarmedError"; "ErrTradingDisabled"] else ["ErrTradingDisabled"]) None
         (say ["trading disabled: "; firstTradingBlockerMessage blockers]).

Definition lockStandingAuthorityForWire (w w' : readWorld) (grant : option automaticWriteGrant) (scope : brokerStateScope) (disk : deskDisk) : result sendErr unit :=
  match automaticGrantBlocker w w' grant (sc_Account scope) (sc_Mode scope) disk with
  | Some b => Err (tradingBlockersError [b])
  | None => Ok tt
  end.
