(* ===== verification/DeskSystem.v ===== *)
(** * The standing authority as a system

    Prepare, confirm, control, status and the locks of the wire (DeskAuthority.v), the
    proposal engine's publishing of a snapshot with its mandate status, and restarts, as
    a step relation on the daemon's documents.  A confirmation reads the hold before it
    takes the lock, so it is two steps; a commit can fail, or succeed without being
    seen.  [dy_armings] and [dy_opened] are not kept by the code: the confirmations that
    changed the stored authority, and the breach episodes that were ever published or
    about to be.  The mandate mints a new name for each breach, so an episode that was
    replaced is not published again ([admitted]).

    Proved of every reachable state: [deskInv]. *)

From stdpp Require Import base decidable list strings gmap sorting.
From Stdlib Require Import ZArith Lia Ascii String Sorted.
From S2P Require Import Prelude OrderHistory BrokerScope OrderJournal WriteGate PreviewToken SendDisposition QueueRecord QueueStore QueueExec.
From S2P Require Import AutoRecord AutoEngine DeskDevice DeskAuthority.

(** ** What is on disk *)

Definition authRevision (d : deskDisk) : Z := match dk_auth d with None => 0 | Some (g, _) => g end.
Definition storedAuthority (d : deskDisk) : option deskAuthorityRecord := dk_auth d ≫= snd.
Definition episodeRevision (d : deskDisk) : Z := match dk_episode d with None => 0 | Some (g, _) => g end.
Definition recordedEpisode (d : deskDisk) : string :=
  match dk_episode d with Some (_, Some doc) => me_Episode doc | _ => "" end.
Definition pendingEpisode (st : deskState) : string := me_Episode (mc_pending (ds_clock st)).

Definition scopeRank (s : string) : Z := if s =s "full" then 2 else if s =s "protect" then 1 else 0.

(** ** Compare-and-swap *)

Lemma casState_spec {A S} (doc : option (Z * A)) expected fault (s swapped s' : S) res :
  casState doc expected fault s swapped = (s', res) ->
  (s' = s /\ is_ok res = false) \/
  (s' = swapped /\ expected = match doc with None => 0 | Some (g, _) => g end /\ (is_ok res = true -> res = Ok (expected + 1)) /\
   (is_ok res = false -> exists msg, res = Err (CasFailed msg))).
Proof.
  unfold casState. destruct (match doc with None => _ | Some _ => _ end) eqn:Hh; destruct fault; cbn [negb]; intros [= <- <-]; try by left.
  all: right; split; [done|]; split; [destruct doc as [[]|]; bool_hyps; lia | split; [done | try done; eauto]].
Qed.

Lemma casState_conflict {A S} (doc : option (Z * A)) expected fault (s swapped s' : S) :
  casState doc expected fault s swapped = (s', Err RevisionConflict) -> s' = s.
Proof. intros [[-> _]|(_ & _ & _ & He)]%casState_spec; [done|]. destruct (He eq_refl) as [? [=]]. Qed.

(** ** The episode clock *)

(** The clock in memory is the document, or a breach is pending whose receipt was
    committed without being seen. *)
Definition clockOK (st : deskState) : Prop :=
  mc_loaded (ds_clock st) = true ->
  (mc_revision (ds_clock st) = episodeRevision (ds_disk st) /\ me_Episode (mc_doc (ds_clock st)) = recordedEpisode (ds_disk st)) \/
  (mc_revision (ds_clock st) < episodeRevision (ds_disk st) /\ pendingEpisode st <> "" /\ pendingEpisode st <> me_Episode (mc_doc (ds_clock st))).

(** What a reading of the clock with [open_] open can change. *)
Record clockStep (open_ : string) (st st' : deskState) : Prop := {
  cr_ok : clockOK st';
  cr_auth : dk_auth (ds_disk st') = dk_auth (ds_disk st) /\ dk_log (ds_disk st') = dk_log (ds_disk st);
  cr_revision : episodeRevision (ds_disk st) <= episodeRevision (ds_disk st');
  cr_pending : pendingEpisode st' = "" \/ pendingEpisode st' = pendingEpisode st \/ pendingEpisode st' = open_;
  cr_recorded : recordedEpisode (ds_disk st') = recordedEpisode (ds_disk st) \/
    recordedEpisode (ds_disk st') <> "" /\ (recordedEpisode (ds_disk st') = pendingEpisode st \/ recordedEpisode (ds_disk st') = open_)
}.

Lemma clockStep_refl open_ st : clockOK st -> clockStep open_ st st.
Proof. split; auto with lia. Qed.

(** ... and what it answers. *)
Definition clockRead (open_ : string) (st st' : deskState) (last : string) (err : option string) : Prop :=
  clockStep open_ st st' /\ (err = None -> last = recordedEpisode (ds_disk st') /\ pendingEpisode st' = "").

(** The clock after the observation, and after loading. *)
Definition afterSeeing (open_ : string) (now : time) (c : mandateEpisodeClock) : mandateEpisodeClock :=
  if (open_ <>s "") && (open_ <>s me_Episode (mc_doc c)) then mkClock (mc_loaded c) (mc_revision c) (mc_doc c) (mkEpisodeDoc mandateEpisodeDocVer open_ now) else c.

Lemma afterSeeing_spec open_ now c :
  mc_loaded (afterSeeing open_ now c) = mc_loaded c /\ mc_revision (afterSeeing open_ now c) = mc_revision c /\ mc_doc (afterSeeing open_ now c) = mc_doc c /\
  (mc_pending (afterSeeing open_ now c) = mc_pending c \/
   me_Episode (mc_pending (afterSeeing open_ now c)) = open_ /\ open_ <> "" /\ open_ <> me_Episode (mc_doc c)).
Proof. unfold afterSeeing. destruct (_ && _) eqn:E; [|by auto 6]. bool_hyps. cbn. split_and!; auto. Qed.

Lemma afterSeeing_ok open_ now st : clockOK st -> clockOK (mkDeskState (ds_disk st) (afterSeeing open_ now (ds_clock st))).
Proof.
  unfold clockOK, pendingEpisode. cbn [ds_clock ds_disk]. destruct (afterSeeing_spec open_ now (ds_clock st)) as (-> & -> & -> & Hp).
  intros Hc Hl. destruct (Hc Hl) as [?|(? & ? & ?)]; [by left | right]. split; [done|]. destruct Hp as [->|(-> & ? & ?)]; done.
Qed.

Lemma lastEpisode_read w open_ now st :
  clockOK st ->
  clockRead open_ st (lastMandateEpisodeLocked w open_ now st).1 (lastMandateEpisodeLocked w open_ now st).2.1 (lastMandateEpisodeLocked w open_ now st).2.2.
Proof.
  intros Hok. pose proof (afterSeeing_ok open_ now st Hok) as Hok1. unfold lastMandateEpisodeLocked. cbn zeta. fold (afterSeeing open_ now (ds_clock st)).
  destruct (afterSeeing_spec open_ now (ds_clock st)) as (Hl & Hr & Hd & Hp). set (c1 := afterSeeing open_ now (ds_clock st)) in *.
  assert (Hpend : me_Episode (mc_pending c1) = pendingEpisode st \/ me_Episode (mc_pending c1) = open_ /\ open_ <> "").
  { unfold pendingEpisode. destruct Hp as [->|(-> & ? & _)]; auto. }
  assert (Hstop : forall c last msg, clockOK (mkDeskState (ds_disk st) c) -> mc_pending c = mc_pending c1 -> clockRead open_ st (mkDeskState (ds_disk st) c) last (Some msg)).
  { intros c last msg Hc Hpc. split; [|done]. split; cbn [ds_disk]; try done; [unfold pendingEpisode; cbn [ds_clock]; rewrite Hpc; destruct Hpend as [->|[-> _]]; auto | by left]. }
  destruct (hw_store w); cbn [negb fst snd]; [|by apply Hstop].
  set (loaded := if mc_loaded c1 then Ok c1 else _).
  assert (Hload : forall c, loaded = Ok c -> mc_loaded c = true /\ clockOK (mkDeskState (ds_disk st) c) /\ mc_pending c = mc_pending c1).
  { subst loaded. destruct (mc_loaded c1) eqn:El; [by intros c [= <-]|]. destruct (hw_read w); [done|].
    unfold clockOK, episodeRevision, recordedEpisode. cbn [ds_disk ds_clock].
    destruct (dk_episode (ds_disk st)) as [[g [kept|]]|]; [case_if; [|done]|done|]; intros c [= <-]; cbn; auto. }
  clearbody loaded. destruct loaded as [c|msg]; cbn [fst snd]; [|by apply Hstop].
  destruct (Hload c eq_refl) as (Elc & Hcok & Hpc). rewrite <- Hpc in Hstop, Hpend. clear Hload Hok1 Hp Hl Hr Hd Hpc c1.
  pose proof (Hcok Elc) as Hc. unfold pendingEpisode in Hc. cbn [ds_clock ds_disk] in Hc.
  destruct ((me_Episode (mc_pending c) =s "") || _) eqn:Enone; cbn [fst snd].
  { assert (Hc1 : mc_revision c = episodeRevision (ds_disk st) /\ me_Episode (mc_doc c) = recordedEpisode (ds_disk st)).
    { destruct Hc as [?|(_ & H1 & H2)]; [done|]. apply String.eqb_neq in H1, H2. by rewrite H1, H2 in Enone. }
    split; [|by destruct Hc1]. split; cbn [ds_disk]; try done; [by left | by left | by left]. }
  bool_hyps. destruct (hw_encodes w); cbn [negb fst snd]; [|by apply Hstop].
  destruct (casState _ _ _ _ _) as [disk' res] eqn:Ecas. pose proof (casState_spec _ _ _ _ _ _ _ Ecas) as [[-> Hres]|(-> & Hrev & Hres & Hfail)].
  { destruct res as [|[|msg]]; [done| |]; cbn [fst snd]; apply Hstop; try done. }
  assert (Hsaved : recordedEpisode (mkDeskDisk (dk_auth (ds_disk st)) (dk_log (ds_disk st)) (Some (mc_revision c + 1, Some (mc_pending c)))) = me_Episode (mc_pending c)) by done.
  destruct res as [g|e]; cbn [fst snd].
  - specialize (Hres eq_refl). injection Hres as ->. split; [|done]. split; cbn [ds_disk ds_clock dk_auth dk_log]; try done.
    + by left.
    + unfold episodeRevision at 2. cbn. unfold episodeRevision. rewrite <- Hrev. lia.
    + by left.
    + right. rewrite Hsaved. split; [done|]. destruct Hpend as [->|[-> _]]; auto.
  - destruct (Hfail eq_refl) as [msg Hm]. injection Hm as ->. cbn [fst snd]. split; [|done]. split; cbn [ds_disk ds_clock dk_auth dk_log]; try done.
    + intros _. right. unfold pendingEpisode, episodeRevision. cbn. split_and!; [lia | done | done].
    + unfold episodeRevision at 2. cbn. unfold episodeRevision. rewrite <- Hrev. lia.
    + change (pendingEpisode (mkDeskState _ c)) with (me_Episode (mc_pending c)). destruct Hpend as [Hp|[Hp _]]; auto.
    + right. rewrite Hsaved. split; [done|]. destruct Hpend as [->|[-> _]]; auto.
Qed.

(** The open episode of a snapshot. *)
Definition openEpisode (breach : option (string * string)) : string := match breach with Some (_, e) => e | None => "" end.

Lemma hold_read w st : clockOK st ->
  clockStep (openEpisode (hw_breach w)) st (deskAuthorityHold w st).1 /\
  forall last engaged, (deskAuthorityHold w st).2 = (last, engaged, true) ->
    last = recordedEpisode (ds_disk (deskAuthorityHold w st).1) /\ pendingEpisode (deskAuthorityHold w st).1 = "" /\
    engaged = (openEpisode (hw_breach w) <>s "").
Proof.
  intros Hok. unfold deskAuthorityHold. destruct (hw_breach w) as [[state e]|]; [|split; [by apply clockStep_refl | done]].
  destruct (one_of state _); [split; [by apply clockStep_refl | done]|]. pose proof (lastEpisode_read w e (hw_now w) st Hok) as [Hs Hk].
  destruct (lastMandateEpisodeLocked w e (hw_now w) st) as [st' [last err]]. cbn [fst snd openEpisode] in *. split; [done|].
  destruct err; [done|]. intros l en [= <- <-]. by destruct (Hk eq_refl).
Qed.

(** ** Reading *)

(** The record a read of the stored document answers: the stored one, its running bit
    cleared in another process. *)
Lemma readStored_spec w disk out :
  readStoredDeskAuthority w disk = Ok out ->
  (dk_auth disk = None /\ out = zero_DeskAuth <| da_Scope := "off" |>) \/
  exists g r t, dk_auth disk = Some (g, Some r) /\ da_Terms r = Some t /\ validStored g r t = true /\ rw_head w = Ok (dt_AuthorityEpoch t) /\
    (out = r /\ da_ControlProcess r = rw_startedAt w \/ out = r <| da_Running := false |>).
Proof.
  unfold readStoredDeskAuthority. destruct (rw_store w); [|done]. destruct (rw_read w); [done|]. cbn [negb].
  destruct (dk_auth disk) as [[g [r|]]|]; [|done|by intros [= <-]; left]. cbn [mbind option_bind]. destruct (da_Terms r) as [t|] eqn:Ht; [|done].
  destruct (validStored g r t) eqn:Hv; [|done]. cbn [negb]. destruct (rw_head w) as [epoch|]; [|done].
  destruct (dt_AuthorityEpoch t =s epoch) eqn:He; [|done]. apply String.eqb_eq in He as <-. cbn [negb]. intros Hout. right. exists g, r, t. split_and!; try done.
  destruct (IsZero (rw_startedAt w) || _) eqn:Hp; injection Hout as <-; [by right|]. bool_hyps. by left.
Qed.

Lemma readStored_generation w disk out : readStoredDeskAuthority w disk = Ok out -> da_Generation out = authRevision disk.
Proof.
  intros [[Hd ->]|(g & r & t & Hd & _ & Hv & _ & Hout)]%readStored_spec; unfold authRevision; rewrite Hd; [done|].
  unfold validStored in Hv. bool_hyps. by destruct Hout as [[-> _]| ->].
Qed.

(** A read answers the stored record, or holds it at protection; it answers full only
    with no breach open and none recorded since the confirmation. *)
Lemma readDesk_spec w st : clockOK st ->
  clockStep (openEpisode (hw_breach (rw_hold w))) st (readDeskAuthority w st).1 /\
  forall cur, (readDeskAuthority w st).2 = Ok cur -> exists out, readStoredDeskAuthority w (ds_disk st) = Ok out /\
    (cur = out \/ da_Scope out = "full" /\ cur = out <| da_Scope := "protect" |> <| da_HeldBy := DeskAuthorityHeldByMandate |>) /\
    (da_Scope cur = "full" -> cur = out /\ openEpisode (hw_breach (rw_hold w)) = "" /\
       recordedEpisode (ds_disk (readDeskAuthority w st).1) = da_MandateEpisode out).
Proof.
  intros Hok. unfold readDeskAuthority. destruct (readStoredDeskAuthority w (ds_disk st)) as [out|e]; [|split; [by apply clockStep_refl | done]].
  destruct (da_Scope out =s "full") eqn:Hf; cbn [fst snd].
  - apply String.eqb_eq in Hf. destruct (hold_read (rw_hold w) st Hok) as [Hs Hk].
    destruct (deskAuthorityHold (rw_hold w) st) as [st' [[last engaged] known]]. cbn [fst snd] in *.
    destruct (negb known || engaged || _) eqn:Hheld; cbn [fst snd]; split; try done; intros cur [= <-]; exists out; split_and!; auto; try done.
    bool_hyps. subst. destruct (Hk _ _ eq_refl) as (Hl & _ & He). intros _. split_and!; try congruence. symmetry in He. bool_hyps. done.
  - split; [by apply clockStep_refl|]. intros cur [= <-]. exists out. split_and!; auto. intros Hcur. by rewrite Hcur in Hf.
Qed.

(** ** Saving *)

Lemma save_spec encodes fault now old next action disk :
  let saved := next <| da_Generation := old + 1 |> <| da_HeldBy := "" |> in
  let disk' := (saveDeskAuthority encodes fault now old next action disk).1 in
  let res := (saveDeskAuthority encodes fault now old next action disk).2 in
  (disk' = disk /\ is_ok res = false) \/
  (dk_auth disk' = Some (old + 1, Some saved) /\ dk_episode disk' = dk_episode disk /\ old = authRevision disk /\ (is_ok res = true -> res = Ok saved)).
Proof.
  cbn zeta. unfold saveDeskAuthority. destruct encodes; cbn [negb fst snd]; [|by left].
  destruct (casState _ _ _ _ _) as [disk' res] eqn:Ecas. apply casState_spec in Ecas as [[-> Hres]|(-> & Hrev & Hres & Hfail)].
  - destruct res as [|[|]]; [done| |]; by left.
  - right. destruct res as [g|e]; [|destruct (Hfail eq_refl) as [msg Hm]; injection Hm as ->]; cbn [fst snd dk_auth dk_episode]; split_and!; done.
Qed.

(** ** The system *)

Section System.
Context `{AuthorityEnv}.

(** A confirmation that changed the stored authority. *)
Record arming := mkArming { ar_world : confirmWorld; ar_params : DeskAuthorityConfirmParams; ar_terms : DeskAuthorityTerms; ar_last : string; ar_verified : string }.

Record deskSys := mkDeskSys {
  dy_state : deskState; dy_startedAt : time; dy_breach : option (string * string);
  dy_flight : list (DeskAuthorityConfirmParams * DeskAuthorityTerms * string); dy_armings : list arming; dy_opened : list string
}.

Definition dy_disk (y : deskSys) : deskDisk := ds_disk (dy_state y).
Definition published (y : deskSys) : string := openEpisode (dy_breach y).

(** A reading of the hold sees the published snapshot; a read also knows the process. *)
Definition readsSnapshot (y : deskSys) (w : holdWorld) : Prop := hw_breach w = dy_breach y.
Definition inProcess (y : deskSys) (w : readWorld) : Prop := rw_startedAt w = dy_startedAt y /\ readsSnapshot y (rw_hold w).

(** The next snapshot has no open breach, the one already open, or a new one. *)
Definition admitted (y : deskSys) (e : string) : Prop := e = "" \/ e = published y \/ e ∉ dy_opened y.
Definition noted (y : deskSys) (e : string) : list string := if e =s "" then dy_opened y else e :: dy_opened y.

Definition withState (y : deskSys) (st : deskState) : deskSys :=
  mkDeskSys st (dy_startedAt y) (dy_breach y) (dy_flight y) (dy_armings y) (dy_opened y).

(** The arming a confirmation that moved the authority's revision was. *)
Definition armingOf (w : confirmWorld) (p : DeskAuthorityConfirmParams) (terms : DeskAuthorityTerms) (last : string) (st st' : deskState) : list arming :=
  if authRevision (ds_disk st) =? authRevision (ds_disk st') then []
  else [mkArming w p terms last (match storedAuthority (ds_disk st') with Some r => da_Verified r | None => "" end)].

Inductive deskStep (y : deskSys) : deskSys -> Prop :=
| desk_status w : inProcess y w -> deskStep y (withState y (handleDeskAuthorityStatus w (dy_state y)).1)
| desk_lock w fence scope now : inProcess y w -> deskStep y (withState y (lockDeskAuthorityForWire w fence scope now (dy_state y)).1)
| desk_gate w p scope : inProcess y w -> deskStep y (withState y (deskAutomaticAuthority w p scope (dy_state y)).1)
| desk_prepare w params : readsSnapshot y (pw_first w) -> inProcess y (pw_read w) -> deskStep y (withState y (handleDeskAuthorityPrepare w params (dy_state y)).1)
| desk_begin w params st res :
    readsSnapshot y w -> confirmBegin w params (dy_state y) = (st, res) ->
    deskStep y (mkDeskSys st (dy_startedAt y) (dy_breach y) (dy_flight y ++ match res with Ok x => [x] | Err _ => [] end) (dy_armings y) (dy_opened y))
| desk_confirm w l l' p terms last :
    dy_flight y = l ++ (p, terms, last) :: l' -> inProcess y (cw_read w) ->
    let st := (confirmLocked w p terms last (dy_state y)).1 in
    deskStep y (mkDeskSys st (dy_startedAt y) (dy_breach y) (l ++ l') (dy_armings y ++ armingOf w p terms last (dy_state y) st) (dy_opened y))
| desk_control w params : inProcess y (lw_read w) -> deskStep y (withState y (handleDeskAuthorityControl w params (dy_state y)).1)
| desk_install w w' breach asOf (publishes : bool) st err :
    admitted y (openEpisode breach) -> recordEpisodes w w' (published y) (openEpisode breach) asOf (dy_state y) = (st, err) ->
    deskStep y (mkDeskSys st (dy_startedAt y) (if publishes && negb (present err) then breach else dy_breach y) (dy_flight y) (dy_armings y)
                  (noted y (openEpisode breach)))
| desk_preserve breach :
    admitted y (openEpisode breach) ->
    deskStep y (mkDeskSys (dy_state y) (dy_startedAt y) breach (dy_flight y) (dy_armings y) (noted y (openEpisode breach)))
| desk_restart startedAt breach :
    dy_startedAt y < startedAt -> admitted y (openEpisode breach) ->
    deskStep y (mkDeskSys (mkDeskState (dy_disk y) zero_Clock) startedAt breach [] (dy_armings y) (noted y (openEpisode breach))).

(** A daemon on an empty store. *)
Definition desk0 (startedAt : time) : deskSys := mkDeskSys (mkDeskState (mkDeskDisk None [] None) zero_Clock) startedAt None [] [] [].
Definition deskReachable (y : deskSys) : Prop := exists startedAt, rtc deskStep (desk0 startedAt) y.

(** ** Confirming *)

(** What confirm checked before it armed. *)
Record armingValid (a : arming) : Prop := {
  av_terms : json_terms (acp_Terms (ar_params a)) = OneJSON (ar_terms a);
  av_digest : acp_Digest (ar_params a) = cashPolicyDigest (acp_Terms (ar_params a));
  av_valid : validDeskAuthorityTerms (ar_terms a) = true;
  av_epoch : cw_head (ar_world a) = Ok (dt_AuthorityEpoch (ar_terms a));
  av_time : cw_at (ar_world a) < dt_ConfirmBefore (ar_terms a) <= cw_at (ar_world a) + queuedArmWindow;
  av_account : sc_Account (cw_account (ar_world a)) = dt_AccountID (ar_terms a) /\ sc_Mode (cw_account (ar_world a)) = dt_AccountMode (ar_terms a);
  av_signed : exists policy keys, cw_policy (ar_world a) = Some policy /\ cashPolicyDeviceKeys policy = Ok keys /\
    deviceSigned deskAuthorityDomain keys (acp_Confirmation (ar_params a)) (acp_Terms (ar_params a)) (ar_verified a)
}.

(** A request as confirmBegin passes it on. *)
Definition requestOK (p : DeskAuthorityConfirmParams) (t : DeskAuthorityTerms) : Prop :=
  json_terms (acp_Terms p) = OneJSON t /\ acp_Digest p = cashPolicyDigest (acp_Terms p) /\ validDeskAuthorityTerms t = true.

Lemma decode_ok {A} (json : string -> decoded A) raw a : decodeDeskAuthority json raw = Ok a -> json raw = OneJSON a.
Proof. unfold decodeDeskAuthority. destruct (_ <? _); [done|]. destruct (json raw); [done | done | by intros [= ->]]. Qed.

Lemma begin_spec w params st : clockOK st ->
  clockStep (openEpisode (hw_breach w)) st (confirmBegin w params st).1 /\
  forall p t last, (confirmBegin w params st).2 = Ok (p, t, last) -> requestOK p t /\
    (dt_MaximumScope t = "full" -> openEpisode (hw_breach w) = "" /\ last = recordedEpisode (ds_disk (confirmBegin w params st).1) /\
       pendingEpisode (confirmBegin w params st).1 = "").
Proof.
  intros Hok. unfold confirmBegin. destruct (decodeDeskAuthority json_confirm params) as [p|]; [|split; [by apply clockStep_refl | done]].
  destruct (decodeDeskAuthority json_terms (acp_Terms p)) as [t|] eqn:Ht; [|split; [by apply clockStep_refl | done]]. apply decode_ok in Ht.
  destruct (negb _ || _) eqn:Hv; [split; [by apply clockStep_refl | done]|]. bool_hyps. destruct (hold_read w st Hok) as [Hs Hk].
  destruct (deskAuthorityHold w st) as [st' [[last engaged] known]]. cbn [fst snd] in *.
  destruct ((dt_MaximumScope t =s "full") && _) eqn:Hheld; cbn [fst snd]; (split; [done|]); [done|]. intros p0 t0 l0 [= <- <- <-]. split; [done|].
  intros Hfull. rewrite Hfull in Hheld. cbn in Hheld. bool_hyps. subst. destruct (Hk _ _ eq_refl) as (Hl & Hp & He). symmetry in He. bool_hyps. done.
Qed.

Lemma checks_spec w cur p t verified : confirmChecks w cur p t = Ok verified -> requestOK p t ->
  dt_Generation t = da_Generation cur /\ forall last, armingValid (mkArming w p t last verified).
Proof.
  unfold confirmChecks. intros Hc (Hj & Hd & Hv). ok_inv Hc. destruct (cw_head w) as [epoch|] eqn:Hhead; [|done]. injection Ha as ->.
  destruct (cw_policy w) as [policy|] eqn:Hpol; [|done]. ok_inv Hc. destruct (cashPolicyDeviceKeys policy) as [keys|] eqn:Hkeys; [|done]. injection Ha as <-.
  destruct (verifyDeskAuthorityDevice keys _ _) as [v|] eqn:Hver; [|done]. injection Hc as ->. apply verified_is_signed in Hver.
  unfold Before, After in *. bool_hyps. split; [done|]. intros last. split; cbn; try done; [congruence | by exists policy, keys].
Qed.

(** What a confirmation leaves: the documents as they were but for the clock, or a new
    revision of the authority that passed every check. *)
Lemma confirm_spec w p t last st : clockOK st -> requestOK p t ->
  let st' := (confirmLocked w p t last st).1 in
  clockStep (openEpisode (hw_breach (rw_hold (cw_read w)))) st st' \/
  exists mid verified, clockStep (openEpisode (hw_breach (rw_hold (cw_read w)))) st mid /\ ds_clock st' = ds_clock mid /\
    dk_episode (ds_disk st') = dk_episode (ds_disk mid) /\
    dk_auth (ds_disk st') = Some (authRevision (ds_disk st) + 1, Some ((confirmedRecord w p t last verified) <| da_Generation := authRevision (ds_disk st) + 1 |>)) /\
    dt_Generation t = authRevision (ds_disk st) /\ armingValid (mkArming w p t last verified).
Proof.
  intros Hok Hreq. cbn zeta. unfold confirmLocked. destruct (readDesk_spec (cw_read w) st Hok) as [Hs Hr].
  destruct (readDeskAuthority (cw_read w) st) as [mid [cur|e]]; cbn [fst snd] in *; [|by left]. destruct (Hr cur eq_refl) as (out & Hout & Hcur & _).
  assert (Hg : da_Generation cur = authRevision (ds_disk st)).
  { rewrite <- (readStored_generation _ _ _ Hout). by destruct Hcur as [->|[_ ->]]. }
  destruct (confirmReplayed cur p t); [by left|]. destruct (confirmChecks w cur p t) as [verified|] eqn:Hc; [|by left].
  destruct (checks_spec _ _ _ _ _ Hc Hreq) as [Hgen Hval]. rewrite Hg in *.
  pose proof (save_spec (cw_encodes w) (cw_fault w) (cw_savedAt w) (authRevision (ds_disk st)) (confirmedRecord w p t last verified) "confirmed" (ds_disk mid)) as Hsave.
  destruct (saveDeskAuthority _ _ _ _ _ _ _) as [disk' res]. cbn [fst snd] in *. destruct Hsave as [[-> _]|(Hd & He & _ & _)].
  - left. by destruct mid.
  - right. exists mid, verified. cbn [ds_disk ds_clock]. split_and!; auto.
Qed.
(** ** Controlling *)

(** What a control keeps of the confirmation. *)
Definition sameArming (r r' : deskAuthorityRecord) : Prop :=
  da_Terms r' = da_Terms r /\ da_ConfirmedAt r' = da_ConfirmedAt r /\ da_Verified r' = da_Verified r /\ da_MandateEpisode r' = da_MandateEpisode r /\
  da_Confirmation r' = da_Confirmation r /\ da_RegisterDigest r' = da_RegisterDigest r.

Lemma sameArming_read w disk cur out r g :
  dk_auth disk = Some (g, Some r) -> readStoredDeskAuthority w disk = Ok out ->
  (cur = out \/ da_Scope out = "full" /\ cur = out <| da_Scope := "protect" |> <| da_HeldBy := DeskAuthorityHeldByMandate |>) ->
  sameArming r cur /\ scopeRank (da_Scope cur) <= scopeRank (da_Scope r).
Proof.
  intros Hd [[Hn _]|(g' & r' & t & Hd' & _ & _ & _ & Hout)]%readStored_spec Hcur; [congruence|]. assert (r' = r) as -> by congruence.
  destruct Hout as [[-> _]| ->], Hcur as [->|[Hf ->]]; split; try done; cbn in Hf |- *; rewrite ?Hf; done.
Qed.

Lemma control_scope (cur new : string) : one_of new deskScopes && negb ((new =s "full") && (cur <>s "full")) && negb ((cur =s "off") && (new <>s "off")) = true ->
  one_of cur deskScopes = true -> scopeRank new <= scopeRank cur.
Proof.
  unfold one_of, deskScopes. cbn [existsb]. rewrite !orb_false_r. intros Hn Hc. unfold scopeRank.
  destruct (new =s "full"), (cur =s "full"); cbn in Hn; rewrite ?andb_false_r in Hn; try done; [by repeat case_if | ].
  destruct (new =s "protect") eqn:E, (cur =s "protect"); try done. cbn in Hc. rewrite ?orb_false_r in Hc.
  apply String.eqb_eq in Hc as ->, E as ->. done.
Qed.

Lemma controlNext_spec w cur p next : controlNext w cur p = Ok (Some next) -> one_of (da_Scope cur) deskScopes = true ->
  da_Terms cur <> None /\ sameArming cur next /\ scopeRank (da_Scope next) <= scopeRank (da_Scope cur) /\ one_of (da_Scope next) deskScopes = true /\
  acl_ExpectedGeneration p = da_Generation cur /\ da_ControlProcess next = rw_startedAt (lw_read w).
Proof.
  unfold controlNext, capabilityOf. intros Hc Hsc. destruct (da_Terms cur) as [t|] eqn:Ht; [|done]. destruct (_ || _ || _); [done|]. destruct (_ <>s _); [done|].
  destruct (_ =s da_LastRequestID cur); [by case_if_in Hc|]. ok_inv Hc. destruct (hex_decode _) as [pref ok]. ok_inv Hc. injection Hc as <-.
  pose proof (control_scope _ _ Hg0 Hsc) as Hrank. bool_hyps. split; [done|]. split; [done|]. done.
Qed.

Lemma readStored_scope w disk out : readStoredDeskAuthority w disk = Ok out -> one_of (da_Scope out) deskScopes = true.
Proof.
  intros [[_ ->]|(g & r & t & _ & _ & Hv & _ & Hout)]%readStored_spec; [done|]. unfold validStored in Hv. bool_hyps. by destruct Hout as [[-> _]| ->].
Qed.

Lemma control_spec w params st : clockOK st ->
  let st' := (handleDeskAuthorityControl w params st).1 in
  clockStep (openEpisode (hw_breach (rw_hold (lw_read w)))) st st' \/
  exists mid r next g, clockStep (openEpisode (hw_breach (rw_hold (lw_read w)))) st mid /\ ds_clock st' = ds_clock mid /\
    dk_episode (ds_disk st') = dk_episode (ds_disk mid) /\ dk_auth (ds_disk st) = Some (g, Some r) /\ dk_auth (ds_disk st') = Some (g + 1, Some next) /\
    sameArming r next /\ scopeRank (da_Scope next) <= scopeRank (da_Scope r).
Proof.
  intros Hok. cbn zeta. unfold handleDeskAuthorityControl. destruct (decodeDeskAuthority json_control params) as [p|]; [|left; by apply clockStep_refl].
  destruct (readDesk_spec (lw_read w) st Hok) as [Hs Hr]. destruct (readDeskAuthority (lw_read w) st) as [mid [cur|e]]; cbn [fst snd] in *; [|by left].
  destruct (Hr cur eq_refl) as (out & Hout & Hcur & _). destruct (controlNext w cur p) as [[next|]|] eqn:Hn; [|by left|by left].
  assert (Hsc : one_of (da_Scope cur) deskScopes = true).
  { destruct Hcur as [->|[_ ->]]; [by apply readStored_scope in Hout | done]. }
  destruct (controlNext_spec _ _ _ _ Hn Hsc) as (Ht & Hsame & Hrank & _ & _ & _).
  assert (Hg : da_Generation cur = authRevision (ds_disk st)).
  { rewrite <- (readStored_generation _ _ _ Hout). by destruct Hcur as [->|[_ ->]]. }
  destruct (readStored_spec _ _ _ Hout) as [[Hnone Hz]|(g & r & t & Hd & _)].
  { exfalso. apply Ht. by destruct Hcur as [->|[_ ->]]; rewrite Hz. }
  destruct (sameArming_read _ _ cur _ _ _ Hd Hout Hcur) as [Hsame' Hrank'].
  pose proof (save_spec (lw_encodes w) (lw_fault w) (lw_at w) (da_Generation cur) next "controlled" (ds_disk mid)) as Hsave.
  destruct (saveDeskAuthority _ _ _ _ _ _ _) as [disk' res]. cbn [fst snd] in *. destruct Hsave as [[-> _]|(Hd' & He & _ & _)]; [left; by destruct mid|].
  right. exists mid, r, (next <| da_Generation := da_Generation cur + 1 |> <| da_HeldBy := "" |>), g. cbn [ds_disk ds_clock].
  assert (authRevision (ds_disk st) = g) as <- by (unfold authRevision; by rewrite Hd). rewrite <- Hg. split_and!; auto; [congruence| |].
  - unfold sameArming in *. cbn. intuition congruence.
  - cbn. lia.
Qed.
(** ** The invariant *)

(** An episode that was published, or none. *)
Definition seen (y : deskSys) (e : string) : Prop := e = "" \/ e ∈ dy_opened y.

(** [m] was recorded, and will not be open again. *)
Definition retired (y : deskSys) (m : string) : Prop :=
  seen y m /\ (published y = m -> m = "") /\ (pendingEpisode (dy_state y) = m -> m = "").

(** The record rests on this arming, narrowed at most. *)
Definition armedBy (a : arming) (r : deskAuthorityRecord) : Prop :=
  da_Terms r = Some (ar_terms a) /\ da_ConfirmedAt r = cw_savedAt (ar_world a) /\ da_Verified r = ar_verified a /\ da_MandateEpisode r = ar_last a /\
  da_Confirmation r = acp_Confirmation (ar_params a) /\ da_RegisterDigest r = cw_register (ar_world a) /\
  scopeRank (da_Scope r) <= scopeRank (dt_MaximumScope (ar_terms a)).

Definition armingGen (a : arming) : Z := dt_Generation (ar_terms a).

Record deskInv (y : deskSys) : Prop := {
  di_clock : clockOK (dy_state y);
  di_seen : seen y (published y) /\ seen y (pendingEpisode (dy_state y)) /\ seen y (recordedEpisode (dy_disk y));
  di_flight : Forall (fun x => requestOK x.1.1 x.1.2 /\ (dt_MaximumScope x.1.2 = "full" -> retired y x.2)) (dy_flight y);
  di_auth : match dk_auth (dy_disk y) with
            | None => dy_armings y = []
            | Some (_, o) => exists r a, o = Some r /\ last (dy_armings y) = Some a /\ armedBy a r /\ (da_Scope r = "full" -> retired y (da_MandateEpisode r))
            end;
  di_valid : Forall armingValid (dy_armings y);
  di_sorted : StronglySorted (fun a b => armingGen a < armingGen b) (dy_armings y);
  di_past : Forall (fun a => armingGen a < authRevision (dy_disk y)) (dy_armings y)
}.

(** [m] was recorded, and a later breach has been recorded since. *)
Definition superseded (y : deskSys) (m : string) : Prop := retired y m /\ recordedEpisode (dy_disk y) <> m.

(** What a move leaves alone that does not touch the authority. *)
Record quietMove (y y' : deskSys) : Prop := {
  qm_retired m : retired y m -> retired y' m;
  qm_superseded m : superseded y m -> superseded y' m;
  qm_auth : dk_auth (dy_disk y') = dk_auth (dy_disk y);
  qm_armings : dy_armings y' = dy_armings y
}.
#[global] Instance quietMove_preorder : PreOrder quietMove.
Proof.
  split; [done|]. intros a b c [H1 H2 H3 H4] [H5 H6 H7 H8]. split; [by auto | by auto | congruence | congruence].
Qed.

(** Readings, a snapshot, a restart. *)
Lemma quiet_inv y e st' startedAt breach flight opened :
  deskInv y -> admitted y e -> clockStep e (dy_state y) st' -> (openEpisode breach = published y \/ openEpisode breach = e) ->
  dy_opened y ⊆ opened -> (e = "" \/ e ∈ opened) -> flight ⊆ dy_flight y ->
  deskInv (mkDeskSys st' startedAt breach flight (dy_armings y) opened) /\ quietMove y (mkDeskSys st' startedAt breach flight (dy_armings y) opened).
Proof.
  intros [Hc (Hsp & Hspe & Hsr) Hf Ha Hv Hsort Hpast] He [Hok [Haut _] _ Hpend Hrec] Hb Hsub Hin Hfl.
  set (y' := mkDeskSys st' startedAt breach flight (dy_armings y) opened).
  assert (Hseen : forall x, seen y x -> seen y' x) by (intros x [->|?]; [by left | right; by apply Hsub]).
  assert (Hseene : seen y' e) by done.
  assert (Hset : forall m, retired y m -> retired y' m).
  { intros m (Hm & Hp & Hq). assert (Hne : e = m -> m = "").
    { intros ->. destruct He as [->|[->|Hnew]]; [done | by apply Hp|]. destruct Hm as [->|Hm]; [done | contradiction]. }
    split; [by apply Hseen|]. split.
    - unfold published at 1. cbn. destruct Hb as [->| ->]; auto.
    - cbn. destruct Hpend as [->|[->| ->]]; auto. }
  assert (Hsup : forall m, superseded y m -> superseded y' m).
  { intros m [Hm Hne]. split; [by apply Hset|]. change (recordedEpisode (ds_disk st') <> m). destruct Hrec as [->|[Hx Hy]]; [done|].
    intros Heq. apply Hx. rewrite Heq. destruct (Hset m Hm) as (_ & _ & _), Hm as (Hs & Hp & Hq). rewrite Heq in Hy. destruct Hy as [Hy|Hy]; [by apply Hq|].
    destruct He as [->|[He|Hnew]]; [done | apply Hp; congruence |]. destruct Hs as [?|Hs]; [done|]. rewrite Hy in Hs. contradiction. }
  split; [|split; try done; apply Haut]. split; try done.
  - unfold published at 1. cbn. split_and!.
    + destruct Hb as [->| ->]; auto.
    + destruct Hpend as [->|[->| ->]]; auto; by left.
    + change (recordedEpisode (dy_disk y')) with (recordedEpisode (ds_disk st')). destruct Hrec as [->|[_ [->| ->]]]; auto.
  - cbn. apply Forall_forall. intros x Hx. rewrite Forall_forall in Hf. destruct (Hf x (Hfl x Hx)) as [Hr Hs]. split; [done|]. intros Hfull. by apply Hset, Hs.
  - unfold dy_disk. cbn. rewrite Haut. unfold dy_disk in Ha. destruct (dk_auth (ds_disk (dy_state y))) as [[g o]|]; [|done].
    destruct Ha as (r & a & -> & Hl & Harm & Hs). exists r, a. split_and!; try done. intros Hfull. by apply Hset, Hs.
  - unfold dy_disk, authRevision in *. cbn. by rewrite Haut.
Qed.

(** Readings of the hold in this process. *)
Lemma read_inv y st' : deskInv y -> clockStep (published y) (dy_state y) st' -> deskInv (withState y st') /\ quietMove y (withState y st').
Proof.
  intros Hi Hs. apply (quiet_inv y (published y) st' (dy_startedAt y) (dy_breach y) (dy_flight y) (dy_opened y)); auto; [by right; left|].
  apply (di_seen _ Hi).
Qed.

(** A new revision of the authority over the same clock. *)
Lemma retired_same y y' m : dy_breach y' = dy_breach y -> dy_opened y' = dy_opened y -> ds_clock (dy_state y') = ds_clock (dy_state y) -> retired y m -> retired y' m.
Proof. unfold retired, seen, published, pendingEpisode. by intros -> -> ->. Qed.

Lemma clockOK_same st st' : ds_clock st' = ds_clock st -> dk_episode (ds_disk st') = dk_episode (ds_disk st) -> clockOK st -> clockOK st'.
Proof. unfold clockOK, pendingEpisode, episodeRevision, recordedEpisode. by intros -> ->. Qed.

Lemma commit_inv y st' flight r a armings :
  deskInv y -> ds_clock st' = ds_clock (dy_state y) -> dk_episode (ds_disk st') = dk_episode (dy_disk y) ->
  dk_auth (ds_disk st') = Some (authRevision (dy_disk y) + 1, Some r) -> flight ⊆ dy_flight y -> last armings = Some a -> armedBy a r ->
  (da_Scope r = "full" -> retired y (da_MandateEpisode r)) ->
  (armings = dy_armings y \/ armings = dy_armings y ++ [a] /\ armingValid a /\ armingGen a = authRevision (dy_disk y)) ->
  deskInv (mkDeskSys st' (dy_startedAt y) (dy_breach y) flight armings (dy_opened y)).
Proof.
  intros [Hc (Hsp & Hspe & Hsr) Hf Ha Hv Hsort Hpast] Hck Hep Hd Hfl Hlast Harm Hset Harms.
  set (y' := mkDeskSys st' (dy_startedAt y) (dy_breach y) flight armings (dy_opened y)).
  assert (Hsame : forall m, retired y m -> retired y' m) by (intros m; by apply retired_same).
  assert (Hrev : authRevision (dy_disk y') = authRevision (dy_disk y) + 1) by (unfold authRevision at 1, dy_disk; cbn; by rewrite Hd).
  split; try done.
  - revert Hc. by apply clockOK_same.
  - unfold recordedEpisode, pendingEpisode, dy_disk in *. cbn. by rewrite Hck, Hep.
  - apply Forall_forall. intros x Hx. rewrite Forall_forall in Hf. destruct (Hf x (Hfl x Hx)) as [Hr Hs]. split; [done|]. intros Hfull. by apply Hsame, Hs.
  - unfold dy_disk. cbn. rewrite Hd. exists r, a. split_and!; auto.
  - destruct Harms as [->|(-> & Hva & _)]; [done|]. apply Forall_app. split; [done | by constructor].
  - destruct Harms as [->|(-> & _ & Hg)]; [done|]. cbn. apply StronglySorted_app_2; [|done | by repeat constructor].
    intros x x' Hx Hx'%list_elem_of_singleton. subst x'. rewrite Forall_forall in Hpast. rewrite Hg. by apply Hpast.
  - rewrite Hrev. cbn. assert (Hp' : Forall (fun x => armingGen x < authRevision (dy_disk y) + 1) (dy_armings y)) by (eapply Forall_impl; [exact Hpast | cbn; lia]).
    destruct Harms as [->|(-> & _ & Hg)]; [done|]. apply Forall_app. split; [done|]. constructor; [lia | done].
Qed.

(** How a step moves the authority: not at all, a control that narrows it, or a
    confirmation that arms it. *)
Inductive authMove (y y' : deskSys) : Prop :=
| am_same : dk_auth (dy_disk y') = dk_auth (dy_disk y) -> dy_armings y' = dy_armings y -> authMove y y'
| am_control g r next :
    dk_auth (dy_disk y) = Some (g, Some r) -> dk_auth (dy_disk y') = Some (g + 1, Some next) -> dy_armings y' = dy_armings y ->
    sameArming r next -> scopeRank (da_Scope next) <= scopeRank (da_Scope r) -> authMove y y'
| am_confirm a r :
    dk_auth (dy_disk y') = Some (authRevision (dy_disk y) + 1, Some r) -> dy_armings y' = dy_armings y ++ [a] -> armedBy a r ->
    armingGen a = authRevision (dy_disk y) -> authMove y y'.

Record deskMove (y y' : deskSys) : Prop := {
  dm_superseded m : superseded y m -> superseded y' m;
  dm_auth : authMove y y'
}.

Lemma quiet_move y y' : quietMove y y' -> deskMove y y'.
Proof. intros [_ H2 H3 H4]. split; [done | by apply am_same]. Qed.

Lemma superseded_same y y' m : dy_breach y' = dy_breach y -> dy_opened y' = dy_opened y -> ds_clock (dy_state y') = ds_clock (dy_state y) ->
  dk_episode (dy_disk y') = dk_episode (dy_disk y) -> superseded y m -> superseded y' m.
Proof. intros Hb Ho Hc He [Hs Hr]. split; [revert Hs; by apply retired_same|]. unfold recordedEpisode in *. by rewrite He. Qed.

Lemma snapshot_open y w : readsSnapshot y w -> openEpisode (hw_breach w) = published y.
Proof. unfold readsSnapshot, published. by intros ->. Qed.

Lemma prepare_reads w params st e : clockOK st -> openEpisode (hw_breach (pw_first w)) = e -> openEpisode (hw_breach (rw_hold (pw_read w))) = e ->
  exists mid, clockStep e st mid /\ clockStep e mid (handleDeskAuthorityPrepare w params st).1.
Proof.
  intros Hok H1 H2. unfold handleDeskAuthorityPrepare. destruct (decodeDeskAuthority json_prepare params) as [p|]; [|exists st; split; by apply clockStep_refl].
  assert (Hmid : exists mid held, clockStep e st mid /\
    (if app_Scope p =s "full" then let '(st, (_, engaged, known)) := deskAuthorityHold (pw_first w) st in (st, engaged || negb known) else (st, false)) = (mid, held)).
  { destruct (app_Scope p =s "full"); [|exists st, false; split; [by apply clockStep_refl | done]]. destruct (hold_read (pw_first w) st Hok) as [Hs _].
    rewrite H1 in Hs. destruct (deskAuthorityHold (pw_first w) st) as [st' [[last engaged] known]]. eexists _, _. done. }
  destruct Hmid as (mid & held & Hs & ->). exists mid. split; [done|]. destruct held; [apply clockStep_refl, Hs|].
  destruct (readDesk_spec (pw_read w) mid (cr_ok _ _ _ Hs)) as [Hs' _]. rewrite H2 in Hs'. by destruct (readDeskAuthority (pw_read w) mid).
Qed.

Lemma record_reads w w' previous next asOf st : clockOK st ->
  exists mid, clockStep previous st mid /\ clockStep next mid (recordEpisodes w w' previous next asOf st).1.
Proof.
  intros Hok. unfold recordEpisodes. destruct (lastEpisode_read w previous asOf st Hok) as [Hs _].
  destruct (lastMandateEpisodeLocked w previous asOf st) as [mid [l err]]. cbn [fst snd] in Hs. exists mid. split; [done|]. pose proof (cr_ok _ _ _ Hs) as Hok'.
  destruct err; [by apply clockStep_refl|]. destruct (lastEpisode_read w' next asOf mid Hok') as [Hs' _].
  by destruct (lastMandateEpisodeLocked w' next asOf mid) as [st' [l' err']].
Qed.

Lemma noted_sub y e : dy_opened y ⊆ noted y e.
Proof. unfold noted. case_if; set_solver. Qed.

Lemma noted_in y e : e = "" \/ e ∈ noted y e.
Proof. unfold noted. destruct (e =s "") eqn:E; [left; by apply String.eqb_eq | right; by constructor]. Qed.

Lemma reads_inv y st' : deskInv y -> clockStep (published y) (dy_state y) st' -> deskInv (withState y st') /\ deskMove y (withState y st').
Proof. intros Hi Hs. destruct (read_inv y st' Hi Hs) as [Hi' Hq]. split; [done | by apply quiet_move]. Qed.

Lemma deskPrepare_inv y w params : deskInv y -> readsSnapshot y (pw_first w) -> inProcess y (pw_read w) ->
  deskInv (withState y (handleDeskAuthorityPrepare w params (dy_state y)).1) /\ deskMove y (withState y (handleDeskAuthorityPrepare w params (dy_state y)).1).
Proof.
  intros Hi Hw [_ Hr]. destruct (prepare_reads w params (dy_state y) (published y) (di_clock _ Hi) (snapshot_open _ _ Hw) (snapshot_open _ _ Hr)) as (mid & Hs & Hs').
  destruct (read_inv y mid Hi Hs) as [Hi1 Hq1]. destruct (read_inv (withState y mid) _ Hi1 Hs') as [Hi2 Hq2]. split; [done|]. apply quiet_move. by etrans.
Qed.

Lemma begin_inv y w params st res : deskInv y -> readsSnapshot y w -> confirmBegin w params (dy_state y) = (st, res) ->
  let y' := mkDeskSys st (dy_startedAt y) (dy_breach y) (dy_flight y ++ match res with Ok x => [x] | Err _ => [] end) (dy_armings y) (dy_opened y) in
  deskInv y' /\ deskMove y y'.
Proof.
  intros Hi Hw Hb. cbn zeta. destruct (begin_spec w params (dy_state y) (di_clock _ Hi)) as [Hs Hx]. rewrite Hb, (snapshot_open _ _ Hw) in *. cbn [fst snd] in *.
  destruct (read_inv y st Hi Hs) as [Hi1 Hq]. split; [|apply quiet_move; by destruct Hq]. pose proof (di_seen _ Hi1) as (_ & _ & Hsr).
  destruct Hi1 as [Hc Hse Hf Ha Hv Hsort Hpast]. split; try done. cbn. apply Forall_app. split; [exact Hf|].
  destruct res as [[[p t] last]|]; [|done]. destruct (Hx _ _ _ eq_refl) as [Hr Hfull]. constructor; [|done]. split; [done|]. cbn. intros Hm.
  destruct (Hfull Hm) as (Hpub & -> & Hpend). split; [exact Hsr|]. split; [change (published y = recordedEpisode (ds_disk st) -> recordedEpisode (ds_disk st) = "") | cbn]; congruence.
Qed.

Lemma armingOf_same w p t last st st' : authRevision (ds_disk st) = authRevision (ds_disk st') -> armingOf w p t last st st' = [].
Proof. unfold armingOf. intros ->. by rewrite Z.eqb_refl. Qed.

Lemma confirm_inv y w l l' p t last : deskInv y -> dy_flight y = l ++ (p, t, last) :: l' -> inProcess y (cw_read w) ->
  let st := (confirmLocked w p t last (dy_state y)).1 in
  let y' := mkDeskSys st (dy_startedAt y) (dy_breach y) (l ++ l') (dy_armings y ++ armingOf w p t last (dy_state y) st) (dy_opened y) in
  deskInv y' /\ deskMove y y'.
Proof.
  intros Hi Hfl [_ Hr]. cbn zeta. pose proof (di_flight _ Hi) as Hf. rewrite Hfl, Forall_app, Forall_cons in Hf. cbn in Hf. destruct Hf as (_ & [Hreq Hset] & _).
  assert (Hsub : l ++ l' ⊆ dy_flight y) by (rewrite Hfl; set_solver).
  destruct (confirm_spec w p t last (dy_state y) (di_clock _ Hi) Hreq) as [Hs|(mid & v & Hs & Hck & Hep & Hd & Hgen & Hval)]; rewrite (snapshot_open _ _ Hr) in Hs.
  - rewrite (armingOf_same w p t last) by (unfold authRevision; by rewrite (proj1 (cr_auth _ _ _ Hs))). rewrite app_nil_r.
    destruct (quiet_inv y (published y) _ (dy_startedAt y) (dy_breach y) (l ++ l') (dy_opened y) Hi (or_intror (or_introl eq_refl)) Hs
                (or_introl eq_refl) (reflexivity _) (proj1 (di_seen _ Hi)) Hsub) as [Hi' Hq]. split; [done | by apply quiet_move].
  - set (st := (confirmLocked w p t last (dy_state y)).1) in *. destruct (read_inv y mid Hi Hs) as [Hi1 Hq]. set (r := (confirmedRecord w p t last v) <| da_Generation := _ |>) in Hd.
    assert (Hrev : authRevision (ds_disk mid) = authRevision (dy_disk y)) by (unfold authRevision, dy_disk; by rewrite (proj1 (cr_auth _ _ _ Hs))).
    assert (Harm : armingOf w p t last (dy_state y) st = [mkArming w p t last v]).
    { unfold armingOf, storedAuthority, authRevision at 2. rewrite Hd. cbn. case_if; [bool_hyps; lia | done]. }
    rewrite Harm. assert (Hby : armedBy (mkArming w p t last v) r) by (unfold armedBy; cbn; split_and!; done || lia).
    split.
    + apply (commit_inv (withState y mid) st (l ++ l') r (mkArming w p t last v)); auto; try done.
      * change (dk_auth (ds_disk st) = Some (authRevision (ds_disk mid) + 1, Some r)). rewrite Hrev. exact Hd.
      * by rewrite last_snoc.
      * intros Hm. apply (qm_retired _ _ Hq). exact (Hset Hm).
      * right. split_and!; try done. cbn. unfold armingGen. cbn. rewrite Hgen. by symmetry.
    + split; [|by apply (am_confirm _ _ (mkArming w p t last v) r)]. intros m Hm. apply (qm_superseded _ _ Hq) in Hm. revert Hm. by apply superseded_same.
Qed.

Lemma control_inv y w params : deskInv y -> inProcess y (lw_read w) ->
  let y' := withState y (handleDeskAuthorityControl w params (dy_state y)).1 in deskInv y' /\ deskMove y y'.
Proof.
  intros Hi [_ Hr]. cbn zeta. destruct (control_spec w params (dy_state y) (di_clock _ Hi)) as [Hs|(mid & r & next & g & Hs & Hck & Hep & Hd & Hd' & Hsame & Hrank)];
    rewrite (snapshot_open _ _ Hr) in Hs; [by apply reads_inv|].
  set (st := (handleDeskAuthorityControl w params (dy_state y)).1) in *. destruct (read_inv y mid Hi Hs) as [Hi1 Hq]. pose proof (di_auth _ Hi1) as Ha.
  change (dk_auth (dy_disk (withState y mid))) with (dk_auth (ds_disk mid)) in Ha. rewrite (proj1 (cr_auth _ _ _ Hs)), Hd in Ha.
  destruct Ha as (r0 & a & [= <-] & Hl & Hby & Hset). split.
  - apply (commit_inv (withState y mid) st (dy_flight y) next a (dy_armings y)); auto; try done.
    + change (dk_auth (ds_disk st) = Some (authRevision (ds_disk mid) + 1, Some next)). unfold authRevision. by rewrite (proj1 (cr_auth _ _ _ Hs)), Hd.
    + destruct Hsame as (E1 & E2 & E3 & E4 & E5 & E6), Hby as (F1 & F2 & F3 & F4 & F5 & F6 & F7). unfold armedBy. split_and!; try congruence. lia.
    + intros Hfull. destruct Hsame as (_ & _ & _ & -> & _). apply Hset. rewrite Hfull in Hrank. unfold scopeRank in Hrank. cbn in Hrank.
      destruct (da_Scope r =s "full") eqn:E; [by apply String.eqb_eq|]. case_if_in Hrank; lia.
  - split; [|by apply (am_control _ _ g r next)]. intros m Hm. apply (qm_superseded _ _ Hq) in Hm. revert Hm. by apply superseded_same.
Qed.

Lemma install_inv y w w' breach asOf (publishes : bool) st err : deskInv y -> admitted y (openEpisode breach) ->
  recordEpisodes w w' (published y) (openEpisode breach) asOf (dy_state y) = (st, err) ->
  let y' := mkDeskSys st (dy_startedAt y) (if publishes && negb (present err) then breach else dy_breach y) (dy_flight y) (dy_armings y) (noted y (openEpisode breach)) in
  deskInv y' /\ deskMove y y'.
Proof.
  intros Hi Hadm Hrec. cbn zeta. destruct (record_reads w w' (published y) (openEpisode breach) asOf (dy_state y) (di_clock _ Hi)) as (mid & Hs & Hs').
  rewrite Hrec in Hs'. destruct (read_inv y mid Hi Hs) as [Hi1 Hq]. pose proof (noted_in y (openEpisode breach)) as Hin. pose proof (noted_sub y (openEpisode breach)) as Hsub.
  destruct (quiet_inv (withState y mid) (openEpisode breach) st (dy_startedAt y) (if publishes && negb (present err) then breach else dy_breach y) (dy_flight y)
              (noted y (openEpisode breach)) Hi1 Hadm Hs') as [Hi2 Hq2]; auto; [case_if; [by right | by left]|].
  split; [done|]. apply quiet_move. by etrans.
Qed.

Lemma snapshot_inv y st startedAt breach flight : deskInv y -> admitted y (openEpisode breach) -> clockStep (openEpisode breach) (dy_state y) st -> flight ⊆ dy_flight y ->
  let y' := mkDeskSys st startedAt breach flight (dy_armings y) (noted y (openEpisode breach)) in deskInv y' /\ deskMove y y'.
Proof.
  intros Hi Hadm Hs Hfl. cbn zeta.
  destruct (quiet_inv y (openEpisode breach) st startedAt breach flight (noted y (openEpisode breach)) Hi Hadm Hs (or_intror eq_refl)
              (noted_sub _ _) (noted_in _ _) Hfl) as [Hi' Hq]. split; [done | by apply quiet_move].
Qed.

Lemma deskStep_inv y y' : deskStep y y' -> deskInv y -> deskInv y' /\ deskMove y y'.
Proof.
  intros Hstep Hi. pose proof (di_clock _ Hi) as Hok. destruct Hstep as [w [_ Hr]|w fence scope now [_ Hr]|w p scope [_ Hr]|w params Hw Hr|w params st res Hw Hb|w l l' p t last Hfl Hr|w params Hr|w w' breach asOf publishes st err Hadm Hrec|breach Hadm|startedAt breach _ Hadm].
  - destruct (readDesk_spec w (dy_state y) Hok) as [Hs _]. rewrite (snapshot_open _ _ Hr) in Hs. by apply reads_inv.
  - destruct (readDesk_spec w (dy_state y) Hok) as [Hs _]. rewrite (snapshot_open _ _ Hr) in Hs. apply reads_inv; [done|].
    destruct fence; [|by apply clockStep_refl]. cbn. by destruct (readDeskAuthority w (dy_state y)).
  - destruct (readDesk_spec w (dy_state y) Hok) as [Hs _]. rewrite (snapshot_open _ _ Hr) in Hs. apply reads_inv; [done|].
    unfold deskAutomaticAuthority. by destruct (readDeskAuthority w (dy_state y)).
  - by apply deskPrepare_inv.
  - by apply (begin_inv y w params).
  - by apply confirm_inv.
  - by apply control_inv.
  - by apply (install_inv y w w' breach asOf publishes).
  - apply snapshot_inv; [done | done | by apply clockStep_refl | done].
  - apply snapshot_inv; [done | done | | by apply list_subseteq_nil]. split; try done; [by left | by left].
Qed.

Lemma desk0_inv startedAt : deskInv (desk0 startedAt).
Proof. split; try done; try apply Forall_nil_2; [split_and!; by left | apply SSorted_nil]. Qed.

Lemma steps_desk y y' : rtc deskStep y y' -> deskInv y -> deskInv y'.
Proof. induction 1 as [|a b c Hs _ IH]; [done|]. intros Hi. apply IH. by apply (deskStep_inv a b). Qed.

Lemma deskReachable_inv y : deskReachable y -> deskInv y.
Proof. intros [startedAt Hs]. apply (steps_desk _ _ Hs), desk0_inv. Qed.
End System.
