(* ===== verification/DeskSafety.v ===== *)
(** * What the standing authority promises

    Theorems about every run of the system of DeskSystem.v: whatever the daemon answers
    as armed was signed on a pinned device, one signature arms once, between
    confirmations the scope only narrows, a fence captured before a change never passes
    after it, a breach holds full scope until the owner confirms again, and prepared
    terms can be confirmed. *)

From stdpp Require Import base decidable list strings gmap sorting.
From Stdlib Require Import ZArith Lia Ascii String Sorted.
From S2P Require Import Prelude OrderHistory BrokerScope OrderJournal WriteGate PreviewToken SendDisposition QueueRecord QueueStore QueueExec.
From S2P Require Import AutoRecord AutoEngine DeskDevice DeskAuthority DeskSystem.

Section Safety.
Context `{AuthorityEnv}.

(** ** The device *)

(** What a read of the stored document tells of the arming behind it. *)
Lemma stored_arming y w out : deskReachable y -> readStoredDeskAuthority w (dy_disk y) = Ok out -> da_Terms out <> None ->
  exists g r a, dk_auth (dy_disk y) = Some (g, Some r) /\ In a (dy_armings y) /\ last (dy_armings y) = Some a /\ armedBy a r /\ armingValid a /\
    (out = r \/ out = r <| da_Running := false |>).
Proof.
  intros Hr%deskReachable_inv [[_ ->]|(g & r & t & Hd & Ht & _ & _ & Hout)]%readStored_spec Hne; [done|].
  pose proof (di_auth _ Hr) as Ha. rewrite Hd in Ha. destruct Ha as (r' & a & [= <-] & Hl & Hby & _). exists g, r, a.
  assert (Hin : In a (dy_armings y)) by (apply list_elem_of_In; by apply last_Some_elem_of in Hl). split_and!; try done.
  - pose proof (di_valid _ Hr) as Hv. rewrite Forall_forall in Hv. apply Hv. by apply list_elem_of_In.
  - destruct Hout as [[-> _]| ->]; auto.
Qed.

(** C12. Whenever the daemon answers that automatic trading is armed, the terms in force were confirmed by the owner: a device whose public key was pinned in the constitution at that moment was shown exactly these terms and signed them in the mandate's own signing domain, before they expired, for the account then connected and this authority store, and the scope answered is no wider than the maximum that was signed. *)
Theorem armed_scope_was_signed_on_a_pinned_device y w cur : deskReachable y -> (readDeskAuthority w (dy_state y)).2 = Ok cur -> da_Scope cur <> "off" ->
  exists a, In a (dy_armings y) /\ armingValid a /\ da_Terms cur = Some (ar_terms a) /\ da_Verified cur = ar_verified a /\
    da_ConfirmedAt cur = cw_savedAt (ar_world a) /\ scopeRank (da_Scope cur) <= scopeRank (dt_MaximumScope (ar_terms a)).
Proof.
  intros Hr Hread Hoff. destruct (readDesk_spec w (dy_state y) (di_clock _ (deskReachable_inv _ Hr))) as [_ Hspec].
  destruct (Hspec cur Hread) as (out & Hout & Hcur & _). assert (Hterms : da_Terms out <> None).
  { destruct (readStored_spec _ _ _ Hout) as [[_ ->]|(g & r & t & _ & Ht & _ & _ & [[-> _]| ->])]; [|cbn; congruence|cbn; congruence].
    by destruct Hcur as [->|[? _]]. }
  destruct (stored_arming y w out Hr Hout Hterms) as (g & r & a & _ & Hin & _ & (E1 & E2 & E3 & _ & _ & _ & E7) & Hval & Hrun).
  exists a. destruct Hrun as [->| ->], Hcur as [->|[Hf ->]]; cbn in *; rewrite ?Hf in E7; split_and!; auto; unfold scopeRank in *; cbn in *; lia.
Qed.

(** C13. One signed terms text arms at most once. However often a confirmation is replayed, retried after a commit that failed or went unseen, raced against another or repeated after a restart, the confirmations that changed the stored authority all carry different terms. *)
Theorem signed_terms_arm_at_most_once y : deskReachable y -> NoDup (map (fun a => acp_Terms (ar_params a)) (dy_armings y)).
Proof.
  intros Hr%deskReachable_inv. pose proof (di_valid _ Hr) as Hv. pose proof (di_sorted _ Hr) as Hs.
  induction (dy_armings y) as [|a l IH]; [constructor|]. apply Forall_cons in Hv as [Ha Hv]. apply StronglySorted_inv in Hs as [Hs Hgt].
  cbn [map]. constructor; [|by apply IH]. rewrite list_elem_of_In, in_map_iff. intros (b & Htext & Hin).
  rewrite Forall_forall in Hgt. specialize (Hgt b (proj2 (list_elem_of_In _ _) Hin)).
  rewrite Forall_forall in Hv. pose proof (av_terms _ (Hv b (proj2 (list_elem_of_In _ _) Hin))) as Hb. rewrite Htext, (av_terms _ Ha) in Hb.
  injection Hb as Hb. unfold armingGen in Hgt. rewrite Hb in Hgt. lia.
Qed.

(** ** Between confirmations *)

Lemma armings_grow y y' : rtc deskStep y y' -> deskInv y -> exists l, dy_armings y' = dy_armings y ++ l.
Proof.
  induction 1 as [y|a b c Hs _ IH]; intros Hi; [exists []; by rewrite app_nil_r|]. destruct (deskStep_inv _ _ Hs Hi) as [Hi' [_ Hm]].
  destruct (IH Hi') as [l ->]. destruct Hm as [_ ->|? ? ? _ _ -> _ _|x ? _ -> _ _]; [eauto | eauto|]. exists (x :: l). by rewrite <- app_assoc.
Qed.

(** Without a new arming, the stored authority is the same one, narrowed at most. *)
Lemma scope_only_narrows y y' g r : rtc deskStep y y' -> deskInv y -> dk_auth (dy_disk y) = Some (g, Some r) -> dy_armings y' = dy_armings y ->
  exists g' r', dk_auth (dy_disk y') = Some (g', Some r') /\ g <= g' /\ sameArming r r' /\ scopeRank (da_Scope r') <= scopeRank (da_Scope r).
Proof.
  intros Hsteps. revert g r. induction Hsteps as [y|a b c Hs Hbc IH]; intros g r Hi Hd Hno.
  { by exists g, r. }
  destruct (deskStep_inv _ _ Hs Hi) as [Hi' [_ Hm]]. destruct (armings_grow _ _ Hbc Hi') as [l Hl].
  assert (Hb : exists g1 r1, dk_auth (dy_disk b) = Some (g1, Some r1) /\ g <= g1 /\ sameArming r r1 /\ scopeRank (da_Scope r1) <= scopeRank (da_Scope r) /\ dy_armings b = dy_armings a).
  { destruct Hm as [Hsame Harm|g0 r0 next Hd0 Hd1 Harm Hsa Hrank|x r0 _ Harm _ _].
    - exists g, r. by rewrite Hsame.
    - rewrite Hd in Hd0. injection Hd0 as <- <-. exists (g + 1), next. split_and!; try done. lia.
    - exfalso. rewrite Hno, Harm, <- app_assoc in Hl. apply (f_equal List.length) in Hl. rewrite !List.length_app in Hl. cbn in Hl. lia. }
  destruct Hb as (g1 & r1 & Hd1 & Hg1 & Hsa & Hrank & Harm). destruct (IH g1 r1 Hi' Hd1) as (g' & r' & Hd' & Hg' & Hsa' & Hrank'); [congruence|].
  exists g', r'. split_and!; try done; [lia | | lia]. unfold sameArming in *. intuition congruence.
Qed.

Lemma readDesk_rank w st cur g r : clockOK st -> (readDeskAuthority w st).2 = Ok cur -> dk_auth (ds_disk st) = Some (g, Some r) ->
  scopeRank (da_Scope cur) <= scopeRank (da_Scope r).
Proof.
  intros Hok Hread Hd. destruct (readDesk_spec w st Hok) as [_ Hspec]. destruct (Hspec cur Hread) as (out & Hout & Hcur & _).
  by apply (sameArming_read w (ds_disk st) cur out r g).
Qed.

Lemma scope_off w st cur : clockOK st -> (readDeskAuthority w st).2 = Ok cur -> scopeRank (da_Scope cur) <= 0 -> da_Scope cur = "off".
Proof.
  intros Hok Hread Hrank. destruct (readDesk_spec w st Hok) as [_ Hspec]. destruct (Hspec cur Hread) as (out & Hout & Hcur & _).
  destruct Hcur as [->|[_ ->]]; [|done]. pose proof (readStored_scope _ _ _ Hout) as Hsc. unfold one_of, deskScopes in Hsc. cbn in Hsc. unfold scopeRank in Hrank.
  destruct (da_Scope out =s "off") eqn:E; [by apply String.eqb_eq|]. by destruct (da_Scope out =s "full"), (da_Scope out =s "protect").
Qed.

(** A disarmed authority blocks. *)
Lemma off_blocks w account mode disk g r : dk_auth disk = Some (g, Some r) -> scopeRank (da_Scope r) <= 0 -> standingAuthorityBlocker w account mode disk <> None.
Proof.
  intros Hd Hrank. unfold standingAuthorityBlocker. destruct (rw_server w); [|done]. cbn [negb]. destruct (readStoredDeskAuthority w disk) as [out|] eqn:Hout; [|done].
  pose proof (readStored_scope _ _ _ Hout) as Hsc. destruct (readStored_spec _ _ _ Hout) as [[_ ->]|(g' & r' & t & Hd' & Ht & _ & _ & Hrun)]; [done|].
  assert (r' = r) as -> by congruence. assert (Hso : da_Scope out = da_Scope r) by by destruct Hrun as [[-> _]| ->].
  destruct (da_Terms out); [|done]. rewrite Hso in *. destruct (da_Scope r =s "off") eqn:E; [done|]. exfalso.
  unfold one_of, deskScopes in Hsc. cbn in Hsc. unfold scopeRank in Hrank. rewrite E in Hsc.
  destruct (da_Scope r =s "full"), (da_Scope r =s "protect"); cbn in *; done || lia.
Qed.

(** C14. Between device confirmations the authority only narrows: whatever the controller asks for, and through restarts and failed commits, no read answers a wider scope than the one stored before. Once it is off, neither the controller's orders nor the daemon's own can pass the wire lock, under any grant or fence, until the owner confirms again on a device. *)
Theorem scope_never_widens_without_the_device y y' g r : deskReachable y -> dk_auth (dy_disk y) = Some (g, Some r) -> rtc deskStep y y' -> dy_armings y' = dy_armings y ->
  (forall w cur, (readDeskAuthority w (dy_state y')).2 = Ok cur -> scopeRank (da_Scope cur) <= scopeRank (da_Scope r)) /\
  (da_Scope r = "off" ->
     (forall w w' grant scope, is_ok (lockStandingAuthorityForWire w w' grant scope (dy_disk y')) = false) /\
     (forall w f scope now, is_ok (lockDeskAuthorityForWire w (Some f) scope now (dy_state y')).2 = false)).
Proof.
  intros Hr%deskReachable_inv Hd Hsteps Hno. destruct (scope_only_narrows _ _ _ _ Hsteps Hr Hd Hno) as (g' & r' & Hd' & _ & _ & Hrank).
  pose proof (di_clock _ (steps_desk _ _ Hsteps Hr)) as Hok. split.
  - intros w cur Hread. pose proof (readDesk_rank w _ cur _ _ Hok Hread Hd'). lia.
  - intros Hoff. rewrite Hoff in Hrank. change (scopeRank (da_Scope r') <= 0) in Hrank. split.
    + intros w w' grant scope. unfold lockStandingAuthorityForWire, automaticGrantBlocker.
      pose proof (off_blocks w (sc_Account scope) (sc_Mode scope) _ _ _ Hd' Hrank) as Hb. by destruct (standingAuthorityBlocker _ _ _ _).
    + intros w f scope now. unfold lockDeskAuthorityForWire. pose proof (readDesk_rank w (dy_state y')) as Hrk.
      destruct (readDeskAuthority w (dy_state y')) as [st [cur|e]] eqn:Hread; [|done]. cbn [fst snd rbind] in *.
      specialize (Hrk cur g' r' Hok eq_refl Hd'). assert (Hoffc : da_Scope cur = "off") by (apply (scope_off w (dy_state y')); [done | by rewrite Hread | lia]).
      unfold fenceHolds. rewrite Hoffc. destruct (da_Terms cur); [|done]. by rewrite andb_false_r.
Qed.

(** ** Fences *)

Lemma revision_moves y y' : authMove y y' -> dk_auth (dy_disk y') = dk_auth (dy_disk y) \/ authRevision (dy_disk y) < authRevision (dy_disk y').
Proof.
  intros [->|g r next Hd Hd' _ _ _|a r Hd' _ _ _]; [by left|right..]; unfold authRevision at 2; rewrite Hd'; [unfold authRevision; rewrite Hd|]; lia.
Qed.

Lemma revision_grows y y' : rtc deskStep y y' -> deskInv y ->
  dk_auth (dy_disk y') = dk_auth (dy_disk y) \/ authRevision (dy_disk y) < authRevision (dy_disk y').
Proof.
  induction 1 as [y|a b c Hs _ IH]; intros Hi; [by left|]. destruct (deskStep_inv _ _ Hs Hi) as [Hi' [_ Hm]].
  destruct (revision_moves _ _ Hm) as [Hab|Hab], (IH Hi') as [Hbc|Hbc]; unfold authRevision in *; rewrite ?Hab, ?Hbc in *; auto; right; lia.
Qed.

Lemma readDesk_generation w st cur : clockOK st -> (readDeskAuthority w st).2 = Ok cur -> da_Generation cur = authRevision (ds_disk st).
Proof.
  intros Hok Hread. destruct (readDesk_spec w st Hok) as [_ Hspec]. destruct (Hspec cur Hread) as (out & Hout & Hcur & _).
  rewrite <- (readStored_generation _ _ _ Hout). by destruct Hcur as [->|[_ ->]].
Qed.

(** C15. A fence the controller's gate handed out never passes the wire lock again once the authority has changed: after any control (a stop, a narrower scope, other preferences) or any new confirmation, seen or unseen by the daemon that committed it, every order still carrying the old fence is refused, at any later time and after any restart. *)
Theorem changed_authority_refuses_old_fences y w p scope st rec class now y1 y2 w2 scope2 now2 :
  deskReachable y -> deskAutomaticAuthority w p scope (dy_state y) = (st, Ok (inl rec)) ->
  rtc deskStep y y1 -> dk_auth (dy_disk y1) <> dk_auth (dy_disk y) -> rtc deskStep y1 y2 ->
  is_ok (lockDeskAuthorityForWire w2 (Some (captureFence rec class now)) scope2 now2 (dy_state y2)).2 = false.
Proof.
  intros Hr%deskReachable_inv Hgate H1 Hne H2. pose proof (steps_desk _ _ H1 Hr) as Hi1. pose proof (di_clock _ (steps_desk _ _ H2 Hi1)) as Hok2.
  assert (Hgen : fe_Generation (captureFence rec class now) = authRevision (dy_disk y)).
  { cbn [captureFence fe_Generation]. pose proof (readDesk_generation w (dy_state y)) as Hg. unfold deskAutomaticAuthority in Hgate.
    destruct (readDeskAuthority w (dy_state y)) as [st' [cur|]]; [|done]. cbn [rbind] in Hgate. injection Hgate as _ Hgate.
    assert (rec = cur) as ->. { unfold automaticAuthorityOf in Hgate. destruct (capabilityOf cur _ _); [done..|]. repeat case_if_in Hgate; congruence. }
    by apply Hg; [apply di_clock|]. }
  assert (Hlt : authRevision (dy_disk y) < authRevision (dy_disk y2)).
  { destruct (revision_grows _ _ H1 Hr) as [?|?]; [done|]. destruct (revision_grows _ _ H2 Hi1) as [E|?]; [|lia]. unfold authRevision at 2. rewrite E. done. }
  unfold lockDeskAuthorityForWire. pose proof (readDesk_generation w2 (dy_state y2)) as Hg2.
  destruct (readDeskAuthority w2 (dy_state y2)) as [st' [cur|]]; [|done]. cbn [snd rbind]. specialize (Hg2 cur Hok2 eq_refl). unfold fenceHolds.
  destruct (da_Terms cur); [|done]. rewrite Hg2, Hgen. replace (authRevision (ds_disk (dy_state y2)) =? authRevision (dy_disk y)) with false by (symmetry; apply Z.eqb_neq; unfold dy_disk in *; lia).
  by rewrite andb_false_r.
Qed.

(** A controller confirmed running in one process is not running in the next. *)
Lemma restart_stops_the_controller y startedAt breach w f scope now g r :
  deskReachable y -> dk_auth (dy_disk y) = Some (g, Some r) -> da_ControlProcess r <= dy_startedAt y -> dy_startedAt y < startedAt ->
  admitted y (openEpisode breach) ->
  let y' := mkDeskSys (mkDeskState (dy_disk y) zero_Clock) startedAt breach [] (dy_armings y) (noted y (openEpisode breach)) in
  inProcess y' w -> is_ok (lockDeskAuthorityForWire w (Some f) scope now (dy_state y')).2 = false.
Proof.
  intros Hr%deskReachable_inv Hd Hcp Hlt Hadm y' [Hst Hserv]. pose proof (di_clock _ (proj1 (deskStep_inv _ _ (desk_restart y startedAt breach Hlt Hadm) Hr))) as Hok.
  fold y' in Hok. unfold lockDeskAuthorityForWire. destruct (readDesk_spec w (dy_state y') Hok) as [_ Hspec].
  destruct (readDeskAuthority w (dy_state y')) as [st [cur|]]; [|done]. cbn [snd rbind] in *. destruct (Hspec cur eq_refl) as (out & Hout & Hcur & _).
  assert (Hrun : da_Running cur = false).
  { destruct (readStored_spec _ _ _ Hout) as [[Hn _]|(g' & r' & t & Hd' & _ & _ & _ & [[-> Hp]| ->])]; cbn in *; [congruence | |by destruct Hcur as [->|[_ ->]]].
    assert (r' = r) as -> by congruence. rewrite Hst in Hp. cbn in Hp. lia. }
  unfold fenceHolds. destruct (da_Terms cur); [|done]. by rewrite Hrun, andb_false_r.
Qed.

(** ** Breaches *)

Lemma stays_superseded y y' m : rtc deskStep y y' -> deskInv y -> superseded y m -> superseded y' m.
Proof.
  induction 1 as [|a b c Hs _ IH]; [done|]. intros Hi Hsup. destruct (deskStep_inv _ _ Hs Hi) as [Hi' [Hm _]]. apply IH; auto.
Qed.

(** C16. A breach of the mandate's loss room holds full scope until the owner confirms again on a device: once a breach other than the one recorded at the confirmation is on disk, no read answers full and no entry order passes the wire lock, even after the book is back within the room, through restarts and controls, until a new confirmation arms. *)
Theorem breach_holds_full_until_confirmed_again y g r y' w : deskReachable y -> dk_auth (dy_disk y) = Some (g, Some r) ->
  recordedEpisode (dy_disk y) <> da_MandateEpisode r -> rtc deskStep y y' -> dy_armings y' = dy_armings y -> inProcess y' w ->
  (forall cur, (readDeskAuthority w (dy_state y')).2 = Ok cur -> da_Scope cur <> "full") /\
  (forall f scope now, fe_Action f = "entry" -> is_ok (lockDeskAuthorityForWire w (Some f) scope now (dy_state y')).2 = false).
Proof.
  intros Hr%deskReachable_inv Hd Hbreach Hsteps Hno [_ Hserv]. pose proof (di_clock _ (steps_desk _ _ Hsteps Hr)) as Hok.
  assert (Hread : forall cur, (readDeskAuthority w (dy_state y')).2 = Ok cur -> da_Scope cur <> "full").
  { intros cur Hread Hfull. destruct (scope_only_narrows _ _ _ _ Hsteps Hr Hd Hno) as (g' & r' & Hd' & _ & Hsame & Hrank).
    pose proof (readDesk_rank w _ cur _ _ Hok Hread Hd') as Hrank'. rewrite Hfull in Hrank'. change (2 <= scopeRank (da_Scope r')) in Hrank'.
    assert (Hfr : da_Scope r = "full") by (unfold scopeRank in *; destruct (da_Scope r =s "full") eqn:E; [by apply String.eqb_eq | repeat case_if_in Hrank; lia]).
    pose proof (di_auth _ Hr) as Ha. rewrite Hd in Ha. destruct Ha as (r0 & a & [= <-] & _ & _ & Hset). specialize (Hset Hfr).
    assert (Hsup : superseded y' (da_MandateEpisode r)) by (apply (stays_superseded _ _ _ Hsteps Hr); split; done).
    destruct (readDesk_spec w (dy_state y') Hok) as [Hstep Hspec]. destruct (Hspec cur Hread) as (out & Hout & _ & Hf). destruct (Hf Hfull) as (_ & _ & Hrec).
    rewrite (snapshot_open _ _ Hserv) in Hstep. destruct (read_inv y' _ (steps_desk _ _ Hsteps Hr) Hstep) as [_ Hq].
    destruct (qm_superseded _ _ Hq _ Hsup) as [_ Hne]. apply Hne. change (recordedEpisode (ds_disk (readDeskAuthority w (dy_state y')).1) = da_MandateEpisode r). rewrite Hrec.
    destruct (sameArming_read w (ds_disk (dy_state y')) out out r' g' Hd' Hout (or_introl eq_refl)) as [(_ & _ & _ & -> & _) _]. apply Hsame. }
  split; [done|]. intros f scope now Hact. unfold lockDeskAuthorityForWire. destruct (readDeskAuthority w (dy_state y')) as [st [cur|]]; [|done]. cbn [snd rbind].
  unfold fenceHolds. destruct (da_Terms cur); [|done]. rewrite Hact. specialize (Hread cur eq_refl). apply String.eqb_neq in Hread. by rewrite Hread, andb_false_r.
Qed.

(** ** The daemon's own sends *)

Lemma blocker_none w account mode disk : standingAuthorityBlocker w account mode disk = None -> account <> "" ->
  exists out t, readStoredDeskAuthority w disk = Ok out /\ da_Terms out = Some t /\ da_Scope out <> "off" /\ dt_AccountID t = account /\ dt_AccountMode t = mode.
Proof.
  unfold standingAuthorityBlocker. intros Hb Hacc. destruct (rw_server w); [|done]. cbn [negb] in Hb. destruct (readStoredDeskAuthority w disk) as [out|]; [|done].
  destruct (da_Terms out) as [t|] eqn:Ht; [|done]. destruct (da_Scope out =s "off") eqn:Hoff; [done|].
  destruct ((account <>s "") && _) eqn:Ha; [done|]. apply String.eqb_neq in Hacc. rewrite Hacc in Ha. cbn in Ha. bool_hyps. exists out, t. done.
Qed.

(** An order the daemon sends on its own passes the wire lock only under the arming that stands: the last confirmation of the owner's device, still armed, for exactly the account and mode connected, and the one under which the order's veto clock was started. *)
Theorem daemon_order_names_the_standing_arming y w w' grant scope :
  deskReachable y -> lockStandingAuthorityForWire w w' grant scope (dy_disk y) = Ok tt -> sc_Account scope <> "" -> is_ok (readStoredDeskAuthority w' (dy_disk y)) = true ->
  exists g a, grant = Some g /\ last (dy_armings y) = Some a /\ armingValid a /\ ag_ArmedAt g = cw_savedAt (ar_world a) /\
    dt_AccountID (ar_terms a) = sc_Account scope /\ dt_AccountMode (ar_terms a) = sc_Mode scope.
Proof.
  intros Hr Hlock Hacc Hread'. unfold lockStandingAuthorityForWire, automaticGrantBlocker in Hlock.
  destruct (standingAuthorityBlocker w _ _ (dy_disk y)) eqn:Hb; [done|]. destruct (blocker_none _ _ _ _ Hb Hacc) as (out & t & Hout & Ht & _ & Hid & Hmode).
  destruct grant as [g|]; [|done]. destruct (ag_ArmedAt g =? _) eqn:Harm; [|done]. apply Z.eqb_eq in Harm.
  destruct (stored_arming y w out Hr Hout ltac:(by rewrite Ht)) as (gen & r & a & Hd & _ & Hl & (E1 & E2 & _) & Hval & Hrun).
  exists g, a. assert (Hta : t = ar_terms a) by (destruct Hrun as [->| ->]; cbn in Ht; congruence). subst t. split_and!; try done.
  rewrite Harm. unfold standingAuthorityConfirmedAt. destruct (readStoredDeskAuthority w' (dy_disk y)) as [out'|] eqn:Hout'; [|done].
  destruct (readStored_spec _ _ _ Hout') as [[Hn _]|(g' & r' & t' & Hd' & _ & _ & _ & Hrun')]; [congruence|]. assert (r' = r) as -> by congruence.
  by destruct Hrun' as [[-> _]| ->].
Qed.

(** A failed second read answers the zero time: a grant whose arming was never read
    then passes under whatever arming stands. *)
Lemma unread_arming_passes y w w' g account mode :
  standingAuthorityBlocker w account mode (dy_disk y) = None -> is_ok (readStoredDeskAuthority w' (dy_disk y)) = false -> ag_ArmedAt g = 0 ->
  automaticGrantBlocker w w' (Some g) account mode (dy_disk y) = None.
Proof.
  intros Hb Hread Hz. unfold automaticGrantBlocker, standingAuthorityConfirmedAt. rewrite Hb, Hz. by destruct (readStoredDeskAuthority w' (dy_disk y)).
Qed.

(** ** Prepared terms can be confirmed *)

Lemma prepared_spec w params st st' text digest : clockOK st -> handleDeskAuthorityPrepare w params st = (st', Ok (text, digest)) ->
  exists p id epoch, json_prepare params = OneJSON p /\ pw_head w = Ok epoch /\
    let t := preparedTerms w epoch id p (authRevision (ds_disk st)) in
    marshal_terms t = Some text /\ digest = cashPolicyDigest text /\ validDeskAuthorityTerms t = true.
Proof.
  intros Hok Hprep. unfold handleDeskAuthorityPrepare in Hprep. destruct (decodeDeskAuthority json_prepare params) as [p|] eqn:Hp; [|done]. apply decode_ok in Hp.
  set (first := if app_Scope p =s "full" then _ else _) in Hprep.
  assert (Hfirst : clockOK first.1 /\ dk_auth (ds_disk first.1) = dk_auth (ds_disk st)).
  { subst first. destruct (app_Scope p =s "full"); [|done]. destruct (hold_read (pw_first w) st Hok) as [Hs _].
    destruct (deskAuthorityHold (pw_first w) st) as [mid [[l e] k]]. cbn [fst] in *. split; [apply Hs | apply (cr_auth _ _ _ Hs)]. }
  destruct first as [mid held]. cbn [fst] in Hfirst. destruct Hfirst as [Hmid Hsame]. destruct held; [done|].
  pose proof (readDesk_generation (pw_read w) mid) as Hg. destruct (readDeskAuthority (pw_read w) mid) as [st2 read]. cbn [snd] in Hg. injection Hprep as <- Hprep.
  ok_inv Hprep. subst read. destruct (pw_id w) as [id|]; [|done]. destruct (pw_head w) as [epoch|]; [|done]. injection Ha0 as <-. injection Ha1 as <-.
  specialize (Hg a Hmid eq_refl). assert (Hg' : da_Generation a = authRevision (ds_disk st)) by (rewrite Hg; unfold authRevision; by rewrite Hsame).
  rewrite Hg' in *. destruct (marshal_terms _) as [raw|] eqn:Hm; [|done]. injection Hprep as <- <-. by exists p, id, epoch.
Qed.

Lemma readStored_auth w d d' : dk_auth d' = dk_auth d -> readStoredDeskAuthority w d' = readStoredDeskAuthority w d.
Proof. unfold readStoredDeskAuthority. by intros ->. Qed.

Lemma readDesk_ok w st : is_ok (readStoredDeskAuthority w (ds_disk st)) = true -> exists cur, (readDeskAuthority w st).2 = Ok cur.
Proof.
  unfold readDeskAuthority. destruct (readStoredDeskAuthority w (ds_disk st)) as [out|]; [|done]. intros _. destruct (da_Scope out =s "full"); [|by exists out].
  destruct (deskAuthorityHold (rw_hold w) st) as [st' [[l e] k]]. destruct (_ || _ || _); eexists; done.
Qed.

(** The terms in force were signed for an earlier generation. *)
Lemma stored_generation_past y w cur t : deskReachable y -> (readDeskAuthority w (dy_state y)).2 = Ok cur -> da_Terms cur = Some t ->
  0 <= dt_Generation t < authRevision (dy_disk y).
Proof.
  intros Hr Hread Ht. pose proof (deskReachable_inv _ Hr) as Hi. destruct (readDesk_spec w (dy_state y) (di_clock _ Hi)) as [_ Hspec].
  destruct (Hspec cur Hread) as (out & Hout & Hcur & _). assert (Hto : da_Terms out = Some t) by by destruct Hcur as [->|[_ ->]].
  destruct (stored_arming y w out Hr Hout ltac:(by rewrite Hto)) as (g & r & a & _ & Hin & _ & (E1 & _) & Hval & Hrun).
  assert (t = ar_terms a) as -> by (destruct Hrun as [->| ->]; cbn in Hto; congruence). split.
  - pose proof (av_valid _ Hval) as Hv. unfold validDeskAuthorityTerms in Hv. destruct (hex_decode _). bool_hyps. lia.
  - pose proof (di_past _ Hi) as Hp. rewrite Forall_forall in Hp. by apply Hp, list_elem_of_In.
Qed.

Lemma save_commits now next action disk saved : (forall g o, dk_auth disk = Some (g, o) -> g <> 0) ->
  next <| da_Generation := authRevision disk + 1 |> <| da_HeldBy := "" |> = saved ->
  exists disk', saveDeskAuthority true NoFault now (authRevision disk) next action disk = (disk', Ok saved) /\ dk_auth disk' = Some (authRevision disk + 1, Some saved).
Proof.
  intros Hnz <-. unfold saveDeskAuthority, casState, authRevision. destruct (dk_auth disk) as [[g o]|]; [|by eexists].
  pose proof (proj2 (Z.eqb_neq g 0) (Hnz g o eq_refl)) as Hg. rewrite Hg, Z.eqb_refl. by eexists.
Qed.

(** The owner signs the prepared terms in time, and the daemon's store answers. *)
Record signsInTime (pw : authPrepareWorld) (hold : holdWorld) (w : confirmWorld) (raw text digest verified : string) (y : deskSys) : Prop := {
  si_request : exists c, json_confirm raw = OneJSON (mkConfirmParams text digest c) /\
    exists policy keys, cw_policy w = Some policy /\ cashPolicyDeviceKeys policy = Ok keys /\ verifyDeskAuthorityDevice keys c text = Ok verified;
  si_size : len raw <= Z.shiftl 128 10 /\ len text <= Z.shiftl 128 10;
  si_within : exists last, (deskAuthorityHold hold (dy_state y)).2 = (last, false, true);
  si_served : readsSnapshot y hold /\ inProcess y (cw_read w);
  si_store : cw_head w = pw_head pw /\ is_ok (readStoredDeskAuthority (cw_read w) (dy_disk y)) = true /\ cw_encodes w = true /\ cw_fault w = NoFault;
  si_time : pw_at pw <= cw_at w < pw_at pw + queuedArmWindow;
  si_account : cw_account w = pw_account pw
}.

Context `{!TermsLaws}.

Lemma checks_pass pw w epoch id q text digest c policy keys verified cur :
  validDeskAuthorityTerms (preparedTerms pw epoch id q (da_Generation cur)) = true ->
  cw_head w = Ok epoch -> cw_at w < pw_at pw + queuedArmWindow -> pw_at pw <= cw_at w -> cw_account w = pw_account pw -> cw_policy w = Some policy ->
  cashPolicyDeviceKeys policy = Ok keys -> verifyDeskAuthorityDevice keys c text = Ok verified ->
  confirmChecks w cur (mkConfirmParams text digest c) (preparedTerms pw epoch id q (da_Generation cur)) = Ok verified.
Proof.
  intros Hv Hh Hlt Hle Ha Hp Hk Hver. unfold confirmChecks. rewrite Hh, Hp, Ha. cbn [liftErr rbind preparedTerms dt_AuthorityEpoch dt_Generation dt_ConfirmBefore dt_AccountID dt_AccountMode].
  rewrite !eqb_s_refl, Z.eqb_refl. unfold Before, After. rewrite (proj2 (Z.ltb_lt _ _) Hlt), (proj2 (Z.ltb_ge _ _)) by lia. cbn. by rewrite Hk; cbn; rewrite Hver.
Qed.

Lemma begin_passes hold raw text c t last st :
  json_confirm raw = OneJSON (mkConfirmParams text (cashPolicyDigest text) c) -> len raw <= Z.shiftl 128 10 -> len text <= Z.shiftl 128 10 ->
  json_terms text = OneJSON t -> validDeskAuthorityTerms t = true -> (deskAuthorityHold hold st).2 = (last, false, true) ->
  confirmBegin hold raw st = ((deskAuthorityHold hold st).1, Ok (mkConfirmParams text (cashPolicyDigest text) c, t, last)).
Proof.
  intros Hreq Hsz Hsz' Hjson Hv Hhold. unfold confirmBegin, decodeDeskAuthority. rewrite (proj2 (Z.ltb_ge _ _) Hsz), Hreq. cbn [acp_Terms acp_Digest].
  rewrite (proj2 (Z.ltb_ge _ _) Hsz'), Hjson, Hv, eqb_s_refl. cbn [negb orb].
  destruct (deskAuthorityHold hold st) as [mid [[l e] k]]. cbn [snd fst] in *. injection Hhold as -> -> ->. by rewrite andb_false_r.
Qed.

(** A record nothing holds is saved as it is. *)
Lemma saved_unheld r g : da_HeldBy r = "" -> r <| da_Generation := g |> <| da_HeldBy := "" |> = r <| da_Generation := g |>.
Proof. destruct r. cbn. by intros ->. Qed.

Lemma locked_commits y w p t last verified :
  deskReachable y -> json_terms (acp_Terms p) = OneJSON t -> dt_Generation t = authRevision (dy_disk y) -> is_ok (readStoredDeskAuthority (cw_read w) (dy_disk y)) = true ->
  (forall cur, da_Generation cur = authRevision (dy_disk y) -> confirmChecks w cur p t = Ok verified) -> cw_encodes w = true -> cw_fault w = NoFault ->
  let r := (confirmedRecord w p t last verified) <| da_Generation := authRevision (dy_disk y) + 1 |> in
  exists st', confirmLocked w p t last (dy_state y) = (st', Ok r) /\ dk_auth (ds_disk st') = Some (authRevision (dy_disk y) + 1, Some r).
Proof.
  intros Hr Hjson Hgt Hstore Hchecks Henc Hflt r. pose proof (di_clock _ (deskReachable_inv _ Hr)) as Hok.
  destruct (readDesk_ok (cw_read w) (dy_state y) Hstore) as [cur Hcur]. pose proof (readDesk_generation _ _ _ Hok Hcur) as Hgen.
  destruct (readDesk_spec (cw_read w) (dy_state y) Hok) as [[_ [Hauth _] _ _ _] _].
  assert (Hno : confirmReplayed cur p t = false).
  { unfold confirmReplayed. destruct (da_Terms cur) as [t'|] eqn:Ht; [|done]. pose proof (stored_generation_past y _ cur t' Hr Hcur Ht) as Hpast.
    destruct (bool_decide (marshal_terms t' = Some (acp_Terms p))) eqn:E; [|by rewrite andb_false_r]. apply bool_decide_eq_true in E.
    apply terms_roundtrip in E. rewrite Hjson in E. injection E as <-. lia. }
  assert (Hnz : forall g o, dk_auth (dy_disk y) = Some (g, o) -> g <> 0).
  { intros g o Hd. pose proof (di_auth _ (deskReachable_inv _ Hr)) as Ha. rewrite Hd in Ha. destruct Ha as (x & a & _ & Hl & _). apply last_Some_elem_of in Hl.
    pose proof (di_past _ (deskReachable_inv _ Hr)) as Hp. pose proof (di_valid _ (deskReachable_inv _ Hr)) as Hv. rewrite Forall_forall in Hp, Hv.
    specialize (Hp a Hl). pose proof (av_valid _ (Hv a Hl)) as Hva. unfold validDeskAuthorityTerms in Hva. destruct (hex_decode _). bool_hyps.
    unfold armingGen, authRevision in Hp. rewrite Hd in Hp. lia. }
  unfold confirmLocked. destruct (readDeskAuthority (cw_read w) (dy_state y)) as [mid read]. cbn [fst snd] in *. subst read.
  assert (Hrev : authRevision (ds_disk mid) = authRevision (ds_disk (dy_state y))) by (unfold authRevision; by rewrite Hauth).
  destruct (save_commits (cw_savedAt w) (confirmedRecord w p t last verified) "confirmed" (ds_disk mid) r) as (disk' & Hsave & Hd'); [by rewrite Hauth | |].
  { unfold r. rewrite Hrev. by apply saved_unheld. }
  rewrite Hrev in Hsave, Hd'. rewrite Hno, (Hchecks cur Hgen), Henc, Hflt, Hgen, Hsave. by eexists.
Qed.

(** Prepared terms can be confirmed: when the owner's device signs the prepared text before it expires, while the account and the authority are still the ones it names, the book is within the loss room and the store commits, the confirmation is accepted, the authority on disk is armed at exactly the prepared scope at the next generation, and the controller is not running until it says so. *)
Theorem prepared_terms_can_be_confirmed y pw params st text digest y2 hold w raw verified :
  deskReachable y -> readsSnapshot y (pw_first pw) -> inProcess y (pw_read pw) -> handleDeskAuthorityPrepare pw params (dy_state y) = (st, Ok (text, digest)) ->
  rtc deskStep (withState y st) y2 -> dk_auth (dy_disk y2) = dk_auth (dy_disk y) -> signsInTime pw hold w raw text digest verified y2 ->
  exists st' r t, handleDeskAuthorityConfirm hold w raw (dy_state y2) = (st', Ok r) /\ dk_auth (ds_disk st') = Some (authRevision (dy_disk y) + 1, Some r) /\
    json_terms text = OneJSON t /\ da_Terms r = Some t /\ da_Scope r = dt_MaximumScope t /\ da_Verified r = verified /\ da_Running r = false.
Proof.
  intros Hr Hw Hp Hprep Hsteps Hsame [(c & Hreq & policy & keys & Hpol & Hkeys & Hver) [Hsz Hsz'] [last Hhold] [Hsv Hin] (Hhead & Hstore & Henc & Hflt) [Ht1 Ht2] Hacc].
  destruct (prepared_spec _ _ _ _ _ _ (di_clock _ (deskReachable_inv _ Hr)) Hprep) as (q & id & epoch & _ & Hepoch & Hm & -> & Hv).
  set (t := preparedTerms pw epoch id q (authRevision (ds_disk (dy_state y)))) in *. pose proof (terms_roundtrip _ _ Hm) as Hjson.
  pose proof (desk_prepare y pw params Hw Hp) as Hstep. rewrite Hprep in Hstep. cbn [fst] in Hstep.
  assert (Hr2 : deskReachable y2) by (destruct Hr as [s0 Hr]; exists s0; etrans; [exact Hr|]; by apply (rtc_l _ _ (withState y st))).
  pose proof (begin_passes hold raw text c t last (dy_state y2) Hreq Hsz Hsz' Hjson Hv Hhold) as Hbegin.
  pose proof (desk_begin y2 hold raw _ _ Hsv Hbegin) as Hstep2. set (mid := (deskAuthorityHold hold (dy_state y2)).1) in *. set (y3 := mkDeskSys mid _ _ _ _ _) in Hstep2.
  assert (Hr3 : deskReachable y3) by (destruct Hr2 as [s0 Hr2]; exists s0; by apply (rtc_r _ y2)).
  destruct (hold_read hold (dy_state y2) (di_clock _ (deskReachable_inv _ Hr2))) as [Hs _]. fold mid in Hs. destruct (cr_auth _ _ _ Hs) as [Hauth _].
  assert (Hrev : authRevision (dy_disk y3) = authRevision (dy_disk y)) by (unfold authRevision, dy_disk in *; cbn; by rewrite Hauth, Hsame).
  destruct (locked_commits y3 w (mkConfirmParams text (cashPolicyDigest text) c) t last verified) as (st' & Hlock & Hd); auto.
  - by rewrite (readStored_auth _ (dy_disk y2)).
  - intros cur Hg. rewrite Hrev in Hg. unfold t. change (ds_disk (dy_state y)) with (dy_disk y). rewrite <- Hg.
    apply (checks_pass pw w epoch id q text _ c policy keys verified cur); auto; [by rewrite Hg | congruence].
  - rewrite Hrev in *. eexists st', _, t. unfold handleDeskAuthorityConfirm. rewrite Hbegin. split; [exact Hlock|]. done.
Qed.
End Safety.
