(* ===== verification/DeskRun.v ===== *)
(** * A run of the standing authority

    A concrete run through the system of DeskSystem.v: a snapshot within the loss room is
    published, full scope is prepared, signed by a companion's key and confirmed, the
    controller starts and is stopped again; in another branch a breach opens and closes.
    The theorems of DeskSafety.v are applied to its states.  The parameters are
    stand-ins: a checksum for SHA-256, a signature that repeats what it signs, and plain
    texts for JSON. *)

From stdpp Require Import base decidable list strings gmap sorting.
From Stdlib Require Import ZArith Lia Ascii String Sorted.
From S2P Require Import Prelude OrderHistory BrokerScope OrderJournal Base64 WriteGate PreviewToken SendDisposition QueueRecord QueueStore QueueExec.
From S2P Require Import AutoRecord AutoEngine DeskDevice DeskAuthority DeskSystem DeskSafety.

#[global] Instance deskTerms_eq_dec : EqDecision DeskAuthorityTerms.
Proof. solve_decision. Defined.

Module Desk.

(** ** The parameters *)

Fixpoint repeated (n : nat) (c : ascii) : string := match n with O => "" | S n => String c (repeated n c) end.

(** 32 digits of a checksum. *)
Definition checksum (s : string) : string := String.substring 0 32 (String.append (Itoa (SetBytes 7 s mod 10 ^ 31)) (repeated 32 "0")).

(** Fields separated by the byte 1, key and value by the byte 2. *)
Definition readFields (s : string) : option (gmap string string) :=
  Some (fold_left (fun m line => match CutAt "002" line with Some (k, v) => <[k := v]> m | None => m end) (split_at "001" s) ∅).

#[global] Instance device : DeviceEnv := {|
  PublicKey := string;
  sum256 := checksum;
  parsePoint := fun raw => Some raw;
  ecdsaVerify := fun _ hash r s => (r =? SetBytes 0 hash) && (s =? 7);
  ecdsaVerifyASN1 := fun _ hash sig => hash =s sig;
  json_envelope := readFields;
  json_review := CutAt "010";
  json_clientData := CutAt "010"
|}.

(** ** The owner's device and the prepared terms *)

Definition deskT : time := 1000 * Second.
Definition account : brokerStateScope := mkScope "DU1234567" "paper".
Definition secret : string := "controller-secret-of-forty-characters-xx".
Definition point : string := String "004" (repeated 64 "k").
Definition keyID : string := b64_encode (String.substring 0 16 (checksum point)).
Definition table : option ConstitutionDeskDevice := Some (mkDeskDevice (say [keyID; ":"; b64_encode point]) "").
Definition deskPolicy : option (option (option ConstitutionDeskDevice)) := Some (Some table).

Definition deskTerms : DeskAuthorityTerms :=
  mkDeskTerms "epoch-1" 1 "desk_automatic_authority" "id-1" "DU1234567" "paper" "full" (hex_encode (checksum secret)) 0 (deskT + queuedArmWindow)
    "fixed-midpoint" "Adaptive" "DAY" "existing-policy" "existing-policy-reuse-confirmed-funds" "desk-deterministic-controller".
Definition text : string := "terms-1".
Definition action : string := "action-1".
Definition review : string := lined ["automatic_authority"; text].
Definition challenge : string := b64_encode (repeated 32 "n").
Definition signature : string :=
  b64_encode (String.append (checksum (companionText (sd_companion deskAuthorityDomain) action
    (deskSignedDigest (sd_digest deskAuthorityDomain) action text review) challenge)) (String.append (repeated 31 "000") (String "007" ""))).
Definition envelope : string :=
  String.concat (String "001" "") (map (fun kv : string * string => String.concat (String "002" "") [kv.1; kv.2])
    [("credential", "companion"); ("key_id", keyID); ("challenge", challenge); ("signature", signature); ("review_json", review)]).
Definition confirmation : CashPolicyConfirmation := mkConfirmation action (say ["companion:"; keyID]) envelope "".

Definition preferences : string := repeated 64 "b".
Definition start : DeskAuthorityControlParams := mkControlParams "id-1" secret 1 "request-1" "full" true preferences "Normal".
Definition stop : DeskAuthorityControlParams := mkControlParams "id-1" secret 2 "request-2" "off" false "" "".

#[global] Instance authority : AuthorityEnv := {|
  json_terms := fun raw => if raw =s text then OneJSON deskTerms else BadJSON;
  json_prepare := fun raw => if raw =s "prepare" then OneJSON (mkPrepareParams "full" (hex_encode (checksum secret))) else BadJSON;
  json_confirm := fun raw => if raw =s "confirm" then OneJSON (mkConfirmParams text (cashPolicyDigest text) confirmation) else BadJSON;
  json_control := fun raw => if raw =s "start" then OneJSON start else if raw =s "stop" then OneJSON stop else BadJSON;
  marshal_terms := fun t => if decide (t = deskTerms) then Some text else None;
  marshal_control := fun p => say [acl_RequestID p; acl_Scope p]
|}.

Lemma authority_laws : TermsLaws.
Proof. intros t raw. cbn. destruct (decide (t = deskTerms)) as [->|]; [|done]. by intros [= <-]. Qed.

(** ** Its states *)

Definition within : option (string * string) := Some ("within", "").
Definition breach : option (string * string) := Some ("reduce", "mandate-1").
Definition holding (b : option (string * string)) : holdWorld := mkHoldWorld true b deskT None true NoFault.
Definition reading (b : option (string * string)) : readWorld := mkReadWorld true true None (Ok "epoch-1") 100 (holding b).

Definition d0 : deskSys := desk0 100.
Definition d1 : deskSys := mkDeskSys (dy_state d0) 100 within [] [] [].
Definition asksFull : authPrepareWorld := mkPrepareWorld (holding within) (reading within) account (Ok "id-1") (Ok "epoch-1") deskT.
Definition preparedFull : deskState * result goerr (string * string) := handleDeskAuthorityPrepare asksFull "prepare" (dy_state d1).
Definition d2 : deskSys := withState d1 preparedFull.1.
Definition confirmBegun : deskState * result goerr (DeskAuthorityConfirmParams * DeskAuthorityTerms * string) := confirmBegin (holding within) "confirm" (dy_state d2).
Definition d3 : deskSys := mkDeskSys confirmBegun.1 100 within [(mkConfirmParams text (cashPolicyDigest text) confirmation, deskTerms, "")] [] [].
Definition confirming : confirmWorld :=
  mkConfirmWorld (reading within) (Ok "epoch-1") (deskT + Minute) (deskT + Minute) account deskPolicy "register" true NoFault.
Definition locked : deskState * result goerr deskAuthorityRecord :=
  confirmLocked confirming (mkConfirmParams text (cashPolicyDigest text) confirmation) deskTerms "" (dy_state d3).
Definition arm : arming :=
  mkArming confirming (mkConfirmParams text (cashPolicyDigest text) confirmation) deskTerms "" (say ["companion:"; keyID]).
Definition d4 : deskSys := mkDeskSys locked.1 100 within [] [arm] [].
Definition controlling : controlWorld := mkControlWorld (reading within) (deskT + 2 * Minute) true NoFault.
Definition d5 : deskSys := withState d4 (handleDeskAuthorityControl controlling "start" (dy_state d4)).1.
Definition d6 : deskSys := withState d5 (handleDeskAuthorityControl controlling "stop" (dy_state d5)).1.

(** In the other branch a breach opens, and the book comes back within the room. *)
Definition opened : deskState * option string := recordEpisodes (holding within) (holding within) (published d5) (openEpisode breach) (deskT + 3 * Minute) (dy_state d5).
Definition z6 : deskSys := mkDeskSys opened.1 100 breach [] [arm] ["mandate-1"].
Definition closed : deskState * option string := recordEpisodes (holding breach) (holding breach) (published z6) (openEpisode within) (deskT + 4 * Minute) (dy_state z6).
Definition z7 : deskSys := mkDeskSys closed.1 100 within [] [arm] ["mandate-1"].

(** ** Its steps *)

Lemma in_process y w b : dy_startedAt y = 100 -> dy_breach y = b -> w = reading b -> inProcess y w.
Proof. by intros Hs Hb ->. Qed.

Lemma desk_step1 : deskStep d0 d1.
Proof. exact (desk_preserve d0 within (or_introl eq_refl)). Qed.
Lemma desk_step2 : deskStep d1 d2.
Proof. exact (desk_prepare d1 asksFull "prepare" eq_refl (in_process d1 (reading within) within eq_refl eq_refl eq_refl)). Qed.
Lemma begun_ok : confirmBegun = (confirmBegun.1, Ok (mkConfirmParams text (cashPolicyDigest text) confirmation, deskTerms, "")).
Proof. vm_compute. reflexivity. Qed.
Lemma desk_step3 : deskStep d2 d3.
Proof. exact (desk_begin d2 (holding within) "confirm" confirmBegun.1 _ eq_refl begun_ok). Qed.
Lemma armed_once : armingOf confirming (mkConfirmParams text (cashPolicyDigest text) confirmation) deskTerms "" (dy_state d3) locked.1 = [arm].
Proof. vm_compute. reflexivity. Qed.
Lemma desk_step4 : deskStep d3 d4.
Proof.
  assert (H : deskStep d3 (mkDeskSys locked.1 (dy_startedAt d3) (dy_breach d3) ([] ++ []) (dy_armings d3 ++
    armingOf confirming (mkConfirmParams text (cashPolicyDigest text) confirmation) deskTerms "" (dy_state d3) locked.1) (dy_opened d3)))
    by exact (desk_confirm d3 confirming [] [] _ deskTerms "" eq_refl (in_process d3 (reading within) within eq_refl eq_refl eq_refl)).
  rewrite armed_once in H. exact H.
Qed.
Lemma desk_step5 : deskStep d4 d5.
Proof. exact (desk_control d4 controlling "start" (in_process d4 (reading within) within eq_refl eq_refl eq_refl)). Qed.
Lemma desk_step6 : deskStep d5 d6.
Proof. exact (desk_control d5 controlling "stop" (in_process d5 (reading within) within eq_refl eq_refl eq_refl)). Qed.

Lemma opened_ok : recordEpisodes (holding within) (holding within) (published d5) (openEpisode breach) (deskT + 3 * Minute) (dy_state d5) = (opened.1, None).
Proof. vm_compute. reflexivity. Qed.
Lemma closed_ok : recordEpisodes (holding breach) (holding breach) (published z6) (openEpisode within) (deskT + 4 * Minute) (dy_state z6) = (closed.1, None).
Proof. vm_compute. reflexivity. Qed.
Lemma breach_step6 : deskStep d5 z6.
Proof.
  exact (desk_install d5 (holding within) (holding within) breach (deskT + 3 * Minute) true opened.1 None (or_intror (or_intror (not_elem_of_nil _))) opened_ok).
Qed.
Lemma breach_step7 : deskStep z6 z7.
Proof. exact (desk_install z6 (holding breach) (holding breach) within (deskT + 4 * Minute) true closed.1 None (or_introl eq_refl) closed_ok). Qed.

Lemma desk_run4 : rtc deskStep d0 d4.
Proof. apply (rtc_l _ _ _ _ desk_step1), (rtc_l _ _ _ _ desk_step2), (rtc_l _ _ _ _ desk_step3), (rtc_l _ _ _ _ desk_step4), rtc_refl. Qed.
Lemma desk_reach1 : deskReachable d1.
Proof. exists 100. apply rtc_once, desk_step1. Qed.
Lemma desk_reach4 : deskReachable d4.
Proof. exists 100. exact desk_run4. Qed.
Lemma desk_reach5 : deskReachable d5.
Proof. exists 100. exact (rtc_r _ _ _ desk_run4 desk_step5). Qed.
Lemma desk_reach6 : deskReachable d6.
Proof. destruct desk_reach5 as [s H]. exists s. exact (rtc_r _ _ _ H desk_step6). Qed.
Lemma breach_reach6 : deskReachable z6.
Proof. destruct desk_reach5 as [s H]. exists s. exact (rtc_r _ _ _ H breach_step6). Qed.

(** ** The theorems on the run *)

Definition deskRec4 : deskAuthorityRecord := match locked.2 with Ok r => r | Err _ => zero_DeskAuth end.
Lemma read4 : (readDeskAuthority (reading within) (dy_state d4)).2 = Ok deskRec4.
Proof. vm_compute. reflexivity. Qed.
Lemma armed4 : da_Scope deskRec4 <> "off".
Proof. vm_compute. discriminate. Qed.

(** The confirmed authority answers full, signed on the companion. *)
Lemma armed_scope_was_signed_on_a_pinned_device_witness :
  exists a, In a (dy_armings d4) /\ armingValid a /\ da_Terms deskRec4 = Some (ar_terms a) /\ da_Verified deskRec4 = ar_verified a /\
    da_ConfirmedAt deskRec4 = cw_savedAt (ar_world a) /\ scopeRank (da_Scope deskRec4) <= scopeRank (dt_MaximumScope (ar_terms a)).
Proof. exact (armed_scope_was_signed_on_a_pinned_device d4 (reading within) deskRec4 desk_reach4 read4 armed4). Defined.

(** The confirmation armed once. *)
Lemma signed_terms_arm_at_most_once_witness : NoDup (map (fun a => acp_Terms (ar_params a)) (dy_armings d4)).
Proof. exact (signed_terms_arm_at_most_once d4 desk_reach4). Defined.

Definition rec6 : deskAuthorityRecord := match storedAuthority (dy_disk d6) with Some r => r | None => zero_DeskAuth end.
Lemma stored6 : dk_auth (dy_disk d6) = Some (3, Some rec6).
Proof. vm_compute. reflexivity. Qed.
Lemma off6 : da_Scope rec6 = "off".
Proof. vm_compute. reflexivity. Qed.

(** Stopped at off, it answers nothing wider and neither lock passes. *)
Lemma scope_never_widens_without_the_device_witness : da_Scope rec6 = "off" /\
  (forall w cur, (readDeskAuthority w (dy_state d6)).2 = Ok cur -> scopeRank (da_Scope cur) <= scopeRank (da_Scope rec6)) /\
  (da_Scope rec6 = "off" ->
     (forall w w' grant scope, is_ok (lockStandingAuthorityForWire w w' grant scope (dy_disk d6)) = false) /\
     (forall w f scope now, is_ok (lockDeskAuthorityForWire w (Some f) scope now (dy_state d6)).2 = false)).
Proof. exact (conj off6 (scope_never_widens_without_the_device d6 d6 3 rec6 desk_reach6 stored6 (rtc_refl _ _) eq_refl)). Defined.

Definition asks : DeskAutomaticAuthorization := mkDeskAutomatic "id-1" secret 2 preferences.
Definition gated : deskState * result goerr (deskAuthorityRecord + TradingBlocker) := deskAutomaticAuthority (reading within) asks account (dy_state d5).
Definition rec5 : deskAuthorityRecord := match gated.2 with Ok (inl r) => r | _ => zero_DeskAuth end.
Lemma gate5 : deskAutomaticAuthority (reading within) asks account (dy_state d5) = (gated.1, Ok (inl rec5)).
Proof. vm_compute. reflexivity. Qed.
Lemma changed6 : dk_auth (dy_disk d6) <> dk_auth (dy_disk d5).
Proof. vm_compute. discriminate. Qed.
Definition entry : deskAuthorityFence := captureFence rec5 "add" (deskT + 2 * Minute).

(** The fence passes while the controller runs. *)
Lemma fence_passes5 : (lockDeskAuthorityForWire (reading within) (Some entry) account (deskT + 3 * Minute) (dy_state d5)).2 = Ok tt.
Proof. vm_compute. reflexivity. Qed.

(** After the stop it does not. *)
Lemma changed_authority_refuses_old_fences_witness :
  is_ok (lockDeskAuthorityForWire (reading within) (Some entry) account (deskT + 3 * Minute) (dy_state d6)).2 = false.
Proof.
  exact (changed_authority_refuses_old_fences d5 (reading within) asks account gated.1 rec5 "add" (deskT + 2 * Minute) d6 d6 (reading within) account (deskT + 3 * Minute)
           desk_reach5 gate5 (rtc_once _ _ desk_step6) changed6 (rtc_refl _ _)).
Defined.

Definition recz : deskAuthorityRecord := match storedAuthority (dy_disk z6) with Some r => r | None => zero_DeskAuth end.
Lemma storedz : dk_auth (dy_disk z6) = Some (2, Some recz).
Proof. vm_compute. reflexivity. Qed.
Lemma breached : recordedEpisode (dy_disk z6) <> da_MandateEpisode recz.
Proof. vm_compute. discriminate. Qed.

(** Back within the room, full scope is still held. *)
Lemma breach_holds_full_until_confirmed_again_witness :
  (forall cur, (readDeskAuthority (reading within) (dy_state z7)).2 = Ok cur -> da_Scope cur <> "full") /\
  (forall f scope now, fe_Action f = "entry" -> is_ok (lockDeskAuthorityForWire (reading within) (Some f) scope now (dy_state z7)).2 = false).
Proof.
  exact (breach_holds_full_until_confirmed_again z6 2 recz z7 (reading within) breach_reach6 storedz breached (rtc_once _ _ breach_step7) eq_refl
           (in_process z7 (reading within) within eq_refl eq_refl eq_refl)).
Defined.

Definition grant : automaticWriteGrant := mkAutoGrant "row-1" "r1" "" 1 (deskT + Minute).
Lemma grant_passes : lockStandingAuthorityForWire (reading within) (reading within) (Some grant) account (dy_disk d4) = Ok tt.
Proof. vm_compute. reflexivity. Qed.
Lemma account_named : sc_Account account <> "".
Proof. discriminate. Qed.
Lemma reads4 : is_ok (readStoredDeskAuthority (reading within) (dy_disk d4)) = true.
Proof. vm_compute. reflexivity. Qed.

(** The daemon's own order names the arming of the run. *)
Lemma daemon_order_names_the_standing_arming_witness :
  exists g a, Some grant = Some g /\ last (dy_armings d4) = Some a /\ armingValid a /\ ag_ArmedAt g = cw_savedAt (ar_world a) /\
    dt_AccountID (ar_terms a) = sc_Account account /\ dt_AccountMode (ar_terms a) = sc_Mode account.
Proof. exact (daemon_order_names_the_standing_arming d4 (reading within) (reading within) (Some grant) account desk_reach4 grant_passes account_named reads4). Defined.

Lemma prepared_ok : handleDeskAuthorityPrepare asksFull "prepare" (dy_state d1) = (preparedFull.1, Ok (text, cashPolicyDigest text)).
Proof. vm_compute. reflexivity. Qed.
Definition pinnedKeys : list DeskDeviceKey := match cashPolicyDeviceKeys (Some table) with Ok keys => keys | Err _ => [] end.
Lemma keys_parse : cashPolicyDeviceKeys (Some table) = Ok pinnedKeys.
Proof.
  assert (H : is_ok (cashPolicyDeviceKeys (Some table)) = true) by (vm_compute; reflexivity). unfold pinnedKeys.
  by destruct (cashPolicyDeviceKeys (Some table)).
Qed.
Lemma signs2 : signsInTime asksFull (holding within) confirming "confirm" text (cashPolicyDigest text) (say ["companion:"; keyID]) d2.
Proof.
  split.
  - exists confirmation. split; [done|]. exists (Some table), pinnedKeys. split; [reflexivity|]. split; [exact keys_parse | vm_compute; reflexivity].
  - split; vm_compute; discriminate.
  - exists "". vm_compute. reflexivity.
  - split; [reflexivity | exact (in_process d2 (reading within) within eq_refl eq_refl eq_refl)].
  - split; [reflexivity|]. split; [vm_compute; reflexivity | done].
  - split; vm_compute; [discriminate | reflexivity].
  - reflexivity.
Qed.

(** The prepared terms of the run are confirmed. *)
Lemma prepared_terms_can_be_confirmed_witness :
  exists st' r t, handleDeskAuthorityConfirm (holding within) confirming "confirm" (dy_state d2) = (st', Ok r) /\
    dk_auth (ds_disk st') = Some (authRevision (dy_disk d1) + 1, Some r) /\ json_terms text = OneJSON t /\ da_Terms r = Some t /\
    da_Scope r = dt_MaximumScope t /\ da_Verified r = say ["companion:"; keyID] /\ da_Running r = false.
Proof.
  exact (@prepared_terms_can_be_confirmed device authority authority_laws d1 asksFull "prepare" preparedFull.1 text (cashPolicyDigest text) d2 (holding within) confirming "confirm"
           (say ["companion:"; keyID]) desk_reach1 eq_refl (in_process d1 (reading within) within eq_refl eq_refl eq_refl) prepared_ok (rtc_refl _ _) eq_refl signs2).
Defined.
End Desk.
